(* ===== verification/_CoqProject ===== *)
-Q . S2P
Prelude.v
Float.v
RtpPacket.v
RtpHistory.v
Nack.v
Rtcp.v
JitterBuffer.v
RtpSession.v
TwccWire.v
Twcc.v
Sfu.v
Version.v
Revocation.v
TenantQuota.v
QuotaAllocator.v
Simulcast.v
G711.v
Dcep.v
DataChannel.v
Sctp.v
Tickets.v
FrameStore.v
StreamGraph.v
Handoff.v
Completion.v
Fanout.v
Executor.v
OwnerDispatch.v
Interleaved.v
RtspRtp.v
RtspH264.v
