(* ===== verification/Prelude.v ===== *)
(** * TurboMedia RTC core: a verification library

    TurboMedia is a C11 media framework.  This library verifies the part of it
    that carries real-time media: the in-repository RTP/RTCP stack, the jitter
    buffer, congestion control, the selective forwarding unit, the simulcast
    sender, the G.711 codec, the tables that admit tenants and tokens to a
    media node, data channels from the DCEP messages up to the messages their
    applications exchange, and the stream graph in which media components are
    composed: its compiler, the store of frames they share and the owners' tables
    that order work between threads; and from the RTSP library, its framing of RTP
    over the RTSP connection, its own RTP packets and sources, and H.264 over RTP.

    ** How the parts interact

    A sender numbers and timestamps payloads ([RtpSession]) or encodes a frame at
    several sizes ([Simulcast]) and builds RTP packets ([RtpPacket]); it keeps
    them for retransmission ([RtpHistory], the sender half of [Nack]) and logs
    their send times ([Twcc]).  A receiver parses packets, tracks losses (the
    receiver half of [Nack]), reorders them for playout ([JitterBuffer]), keeps
    reception statistics ([RtpSession]) and answers with RTCP messages ([Rtcp]),
    generic NACKs ([Nack]) and transport-wide feedback ([TwccWire], [Twcc]).  A
    node in the middle forwards packets between participants, choosing a
    simulcast layer for each receiver ([Sfu]).  Sessions are admitted against
    tenant quotas ([TenantQuota]) and revoked tokens ([Revocation]), both
    replicated from a control plane under versions of one order ([Version]).  The
    control plane's side of the quotas is [QuotaAllocator], whose snapshots are what
    the projections of [TenantQuota] apply.
    Telephone audio is companded by [G711].

    Beside the media a peer carries data channels.  What the SCTP library
    delivers is reassembled and dispatched by [Sctp]: control messages go to the
    channel table ([DataChannel]), which builds and reads them with [Dcep], and
    user messages to the application of their channel.  Applications and the
    network use the table at the same time; each operation holds a lease on its
    channel while it runs code outside the mutex.

    A stream graph is described by nodes with typed ports and by edges, and
    compiled to a program in topological order ([StreamGraph]).  At run time the
    frames of the graph live in the slots of a store ([FrameStore]) and are named
    by weak references; producers hand commands (and references) to the owner
    through an inbox ([Handoff]), and asynchronous providers report to it through
    a registry of completions ([Completion]).  The owner fans each frame out to
    bounded branches, with a pin in the store for every branch that takes it
    ([Fanout], proved over [FrameStore]).  All three keep rows named by tickets,
    which [Tickets] treats once for every row type through the class [Row].
    [Executor] runs a program of the shape source, processors, sinks over the
    store and the fan-out: it asks the source, publishes, shows the frame to the
    processors, submits it, and delivers what a branch holds to its sink.
    [OwnerDispatch] is the owner itself: it takes a command of the inbox, runs it on
    the executor or shows a visitor the frame that it names, answers it, and emits
    the results of providers.  There the inbox, the portal, the executor and the
    store come together in one system.

    The RTSP library has an RTP stack of its own.  A stream cuts NAL units into
    payloads, puts each in a packet ([RtspH264], over the writer of [RtspRtp]) and the
    packets travel in frames of the RTSP connection ([Interleaved]).  A receiver takes
    the frames apart, judges each packet by its source ([RtspRtp]), holds packets
    that are early in a queue of four, and puts the NAL units together again
    ([RtspH264]).

    ** Files and sources (under src/webrtc/src unless said otherwise)

    - [Prelude]: machine integers, results, checked buffers, cursors, big-endian
      fields (the read_u16 ... write_u32 helpers each RTP file repeats), and the
      tactics [zmod_lia], [len_lia], [bits_to_arith], [safe_step];
    - [Float]: IEEE 754 single and double arithmetic on the standard library's
      SpecFloat, with bounds of the operations the estimators use;
    - [RtpPacket]: rtc/rtp/rtp_packet.c; builder, parser, serializer, header
      extensions, sequence comparison;
    - [RtpHistory]: rtc/rtp/rtp_history.c; the ring of sent packets, which is
      also the first instance of the [RetransmitStore] interface;
    - [Nack]: rtc/rtp/nack.c; the missing-packet list, the retransmitting sender
      over any [RetransmitStore], and the RFC 4585 generic NACK format;
    - [Rtcp]: rtc/rtp/rtcp_packet.c; the compound builder and parser;
    - [JitterBuffer]: rtc/media/jitter_buffer.c;
    - [RtpSession]: rtc/rtp/rtp_session.c;
    - [TwccWire], [Twcc]: rtc/rtp/twcc.c; the feedback format, and the sender's
      history and bandwidth estimate with the receiver's log;
    - [Sfu]: sfu/turbo_sfu.c;
    - [Version]: the (epoch, sequence) order both projections compare with;
    - [Revocation]: auth/turbo_media_revocation.c;
    - [TenantQuota]: security/turbo_media_tenant_quota.c;
    - [QuotaAllocator]: security/turbo_media_tenant_quota_allocator.c;
    - [Simulcast]: rtc/rtp/simulcast.c;
    - [G711]: src/codec/g711_codec.c;
    - [Dcep]: dcep_protocol.c; text validation, the OPEN message both ways;
    - [DataChannel]: turbo_datachannel.c and turbo_datachannel_internal.h, with
      the handling of control messages of dcep_protocol.c; the channels of a
      peer, their leases, peer states and destruction;
    - [Sctp]: sctp_session.c; reassembly, notifications and dispatch;
    - [StreamGraph], [FrameStore], [Handoff], [Completion], [Fanout], [Executor],
      [OwnerDispatch]: turbo_streamgraph.c, turbo_frame_store.c,
      turbo_streamgraph_handoff.c, turbo_streamgraph_provider_completion.c,
      turbo_streamgraph_fanout.c, turbo_streamgraph_executor.c and
      turbo_streamgraph_owner_dispatch.c of streamgraph/src;
    - [Tickets]: what the row tables of [Handoff], [Completion] and [Fanout] have
      in common (finding a row by its ticket, handing out the first free one, the oldest ready one),
      with the lemmas that relate a table to a map of tickets and to a queue;
    - [Interleaved], [RtspRtp], [RtspH264]: three parts of
      src/media/rtsp/parser/turbo_rtsp_rtp.c - interleaved frames; packets, sources,
      senders and streams; the H.264 payload format with its writing and its
      receiving stream.

    A struct is a [Record] with the fields of the source, an operation is a
    [Definition] of the name of its C function (with the file's common prefix
    dropped in [TenantQuota] and [Revocation]), a loop is a [Fixpoint] of its own next to the
    operation, and a callback the code makes is an event in the result.  In
    [DataChannel] an operation that gives up the mutex is split there: what is
    left of it is a [frame], and a state is the peer with the frames of all the
    operations under way, so that callbacks and other threads may do anything in
    between ([dc_step]).  The tables of the stream graph hold a spin lock for the
    whole of every operation, so an interleaving is a list of operations.

    ** What the theorems show

    - Formats: every encoder is inverted by its parser (RTP packets, RTCP
      compounds, generic NACK, transport feedback), and every parser of bytes
      from the network is memory safe and terminates on all inputs.
    - Refinements: the packet history is a ring indexed by sequence number, the
      jitter buffer an abstract reorder queue, the tenant projection a ledger of
      accounts, the quota allocator a book of caps and leases, the revocation table a versioned finite set; each for every
      sequence of operations.  The reassembly slots are a map of partial
      messages, and the byte checks of names are UTF-8.
    - Invariants over all reachable states: the NACK list is bounded and without
      duplicates, the participant table consistent, the bitrate estimate within
      its limits (in IEEE arithmetic), usage conserved under reconfiguration,
      the channel table, its id bitmap and its leases consistent in every
      interleaving, with no channel used after it is freed and every closed one
      reclaimed in a bounded number of steps.
    - Quotas: no tenant is issued more than its cap, a node takes the snapshot it is
      sent and holds what was issued to it, and the nodes of a fleet together stay
      within the cap.
    - Graphs: the compiler accepts exactly the graphs that are well-formed, and
      what it returns is well typed and topologically ordered.
    - Frames and tickets: a reference or a lease never shows another frame's
      bytes; the inbox is a mailbox with one queue and the portal a registry in
      which each ticket lives one of four lives, in every interleaving; the
      fan-out is a row of lanes, its submissions are all or nothing, and a
      taken frame keeps its bytes; the executor shows every frame unchanged and
      in order, loses none of a lossless branch as long as no delivery fails for
      want of a lease and nothing is discarded, and can be destroyed once it has
      stopped and its branches are drained; the owner answers every command once
      and in order, starts nothing after an ending, holds no credit of the frames it
      shows, and emits every result at most once, whatever producers and providers
      do meanwhile.
    - End to end: the handshake opens a channel on both sides with the same
      parameters, a refused one leaves no trace, and a message of at most 24576 bytes
      that is sent is the message received, in whatever pieces and interleaving it
      arrives (longer ones are dropped by the receiver).
    - RTSP: however a connection is cut into reads, the collecting parser hands out
      exactly the frames of the stream ([interleaved_copy_frames],
      [interleaved_roundtrip]), the pointing one keeps the boundaries and loses only
      payloads that cross a read ([interleaved_pointing_sync]); a source judges packets as the
      set of those received does ([source_refines_seen]); NAL units written by a
      stream and received in order and on time come out unchanged
      ([h264_stream_roundtrip]), also when one fragment arrives after up to four
      later ones ([h264_late_fragment]); and whatever bytes arrive, a receiver stays in its
      buffers as long as the clock differences do not overflow ([h264_receive_safe]).
    - Functional correctness on every branch of the operations that decide:
      gap detection, retransmission, playout, feedback generation, layer
      selection and forwarding, reports, quota reservations, frame encoding,
      companding error.
    - Observations: where the code does something it does not mean to, a theorem
      exhibits it (section "Observations" of the files).

    ** Conventions

    A pointer that may be [NULL] is an [option]; a [NULL] handle is [None].  The
    outcome of an allocation, a clock reading and other inputs from outside are
    arguments ([mem], [now], ...).  [Ok] is success, [Err] the error return ([-1]
    or [NULL]; the output structures are then unspecified), and [Fault]
    undefined behaviour: an access out of range, signed overflow, a division by
    zero, exhausted fuel.  Integers are [Z] with the wrap-around of their width
    written out where the code can reach it; 64-bit statistics counters are not
    wrapped.  An array with its count field is a list where only that prefix is
    ever read, and an array of its full size elsewhere.  A payload pointer is the
    bytes it points to; a payload that aliases the output buffer is not
    modelled.  C strings are [string]s without NUL, or their bytes.  The hash
    map and the bitmap of a peer's channels are used through their interfaces
    only, as a finite map and a finite set; the SCTP library is the argument
    [sctp_env] (what a send and a stream reset return).

    ** Fuel and bounds

    Loops recurse on the list they traverse or on a counter the code itself
    bounds (15 CSRCs, 8 extensions, 256 jitter slots, 8192 feedback packets).  The
    parsers that advance by a length read from the input take the buffer length
    as fuel: each iteration consumes at least one byte, and the safety theorems
    show that the fuel never runs out.  The search for a free stream id has one
    unit for each of the 32768 ids of a parity and one for the end, and an
    operation's frames are run with their [rank], which each step lowers.

    ** Not modelled

    Destroy functions, which only free; logging; locks and atomics, every
    operation being modelled as the critical section it is; and the parts of the
    repository that are glue over third-party libraries or the operating system
    (DTLS, ICE, SRTP, the configuration of SCTP sockets, the contexts and
    transports of turbo_datachannel.c, HTTP and signaling servers, device capture,
    FFmpeg and codec bindings).  In [DataChannel] an error callback is taken not
    to close the peer from inside [dc_fail_peer].  Of the RTSP library,
    the text of requests and of SDP, RTCP and the payload formats other than H.264
    are not modelled.  The media containers and the SIP and RTMP protocols are
    separate subsystems, imported or over imported libraries; the session
    descriptions, the JSON messages of the replicated tables and the node service
    of the RTC core are left out as well. *)

From stdpp Require Export prelude list.
From Stdlib Require Export ZArith Lia ZifyBool ZifyNat.

#[global] Open Scope Z_scope.

(* ------------------------------------------------------------------ *)
(** ** Arithmetic automation *)

(** [lia] after the Euclidean equations of every [/] and [mod] of the goal
    and the hypotheses. *)
Ltac zmod_lia := Z.to_euclidean_division_equations; lia.

(* ------------------------------------------------------------------ *)
(** ** Machine integers

    An integer of the C program is a [Z]; a conversion to a narrower type or
    an arithmetic operation on an unsigned type is followed by the reduction
    to its width. *)

Definition u8 (z : Z) : Z := z mod 256.
Definition u16 (z : Z) : Z := z mod 65536.
Definition u32 (z : Z) : Z := z mod 4294967296.
Definition u64 (z : Z) : Z := z mod 18446744073709551616.

(** Two's-complement narrowing conversions, as every supported compiler
    defines them. *)
Definition s16 (z : Z) : Z := (z + 32768) mod 65536 - 32768.
Definition s32 (z : Z) : Z := (z + 2147483648) mod 4294967296 - 2147483648.
Definition s64 (z : Z) : Z :=
  (z + 9223372036854775808) mod 18446744073709551616 - 9223372036854775808.

Definition is_u8 (z : Z) : Prop := 0 <= z < 256.
Definition is_u16 (z : Z) : Prop := 0 <= z < 65536.
Definition is_u32 (z : Z) : Prop := 0 <= z < 4294967296.
Definition is_u64 (z : Z) : Prop := 0 <= z < 18446744073709551616.

#[export] Instance is_u8_dec z : Decision (is_u8 z).
Proof. unfold is_u8. apply _. Defined.
#[export] Instance is_u16_dec z : Decision (is_u16 z).
Proof. unfold is_u16. apply _. Defined.
#[export] Instance is_u32_dec z : Decision (is_u32 z).
Proof. unfold is_u32. apply _. Defined.

(** A signed [int] result: overflow is undefined. *)
Definition is_s32 (z : Z) : Prop := -2147483648 <= z < 2147483648.

#[export] Instance is_s32_dec z : Decision (is_s32 z).
Proof. unfold is_s32. apply _. Defined.

(** C truth values. *)
Definition truth (z : Z) : bool := negb (z =? 0).
Definition b2i (b : bool) : Z := if b then 1 else 0.

Create HintDb width.

Lemma u8_range z : is_u8 (u8 z).
Proof. unfold is_u8, u8. zmod_lia. Qed.
Lemma u16_range z : is_u16 (u16 z).
Proof. unfold is_u16, u16. zmod_lia. Qed.
Lemma u32_range z : is_u32 (u32 z).
Proof. unfold is_u32, u32. zmod_lia. Qed.
Lemma u64_range z : is_u64 (u64 z).
Proof. unfold is_u64, u64. zmod_lia. Qed.
Lemma s16_range z : -32768 <= s16 z < 32768.
Proof. unfold s16. zmod_lia. Qed.
#[export] Hint Resolve u8_range u16_range u32_range u64_range s16_range : width.

Lemma u8_id z : is_u8 z -> u8 z = z.
Proof. apply Z.mod_small. Qed.
Lemma u16_id z : is_u16 z -> u16 z = z.
Proof. apply Z.mod_small. Qed.
Lemma u32_id z : is_u32 z -> u32 z = z.
Proof. apply Z.mod_small. Qed.
Lemma u64_id z : is_u64 z -> u64 z = z.
Proof. apply Z.mod_small. Qed.
Lemma s16_id z : -32768 <= z < 32768 -> s16 z = z.
Proof. unfold s16. intros. rewrite Z.mod_small; lia. Qed.
Lemma s32_id z : -2147483648 <= z < 2147483648 -> s32 z = z.
Proof. unfold s32. intros. rewrite Z.mod_small; lia. Qed.
Lemma s64_id z :
  -9223372036854775808 <= z < 9223372036854775808 -> s64 z = z.
Proof. unfold s64. intros. rewrite Z.mod_small; lia. Qed.

(** ** Bit operations as arithmetic *)

Lemma shiftr8 z : Z.shiftr z 8 = z / 256.
Proof. by rewrite Z.shiftr_div_pow2. Qed.
Lemma shiftr16 z : Z.shiftr z 16 = z / 65536.
Proof. by rewrite Z.shiftr_div_pow2. Qed.
Lemma shiftr24 z : Z.shiftr z 24 = z / 16777216.
Proof. by rewrite Z.shiftr_div_pow2. Qed.
Lemma land255 z : Z.land z 255 = z mod 256.
Proof. change 255 with (Z.ones 8). by rewrite Z.land_ones. Qed.

Lemma land1 z : Z.land z 1 = z mod 2.
Proof. change 1 with (Z.ones 1) at 1. by rewrite Z.land_ones. Qed.
Lemma land3 z : Z.land z 3 = z mod 4.
Proof. change 3 with (Z.ones 2). by rewrite Z.land_ones. Qed.
Lemma land15 z : Z.land z 15 = z mod 16.
Proof. change 15 with (Z.ones 4). by rewrite Z.land_ones. Qed.
Lemma land31 z : Z.land z 31 = z mod 32.
Proof. change 31 with (Z.ones 5). by rewrite Z.land_ones. Qed.
Lemma land127 z : Z.land z 127 = z mod 128.
Proof. change 127 with (Z.ones 7). by rewrite Z.land_ones. Qed.

(** Or-ing a number below [2^n] into the low bits of a shifted one adds it. *)
Lemma lor_shiftl_add a b n :
  0 <= n -> 0 <= b < 2 ^ n -> Z.lor (Z.shiftl a n) b = a * 2 ^ n + b.
Proof.
  intros Hn Hb.
  assert (Hd : Z.land (Z.shiftl a n) b = 0).
  { apply Z.bits_inj'. intros i Hi. rewrite Z.land_spec, Z.bits_0.
    destruct (decide (i < n)); [by rewrite Z.shiftl_spec_low by lia|].
    rewrite <- (Z.mod_small b (2 ^ n)), Z.mod_pow2_bits_high by lia.
    apply andb_false_r. }
  rewrite <- Z.lxor_lor, <- Z.add_nocarry_lxor by done.
  by rewrite Z.shiftl_mul_pow2.
Qed.

(** Masks and right shifts by a literal become [mod] and [/]. *)
Ltac bits_to_arith :=
  rewrite ?land1, ?land3, ?land15, ?land31, ?land127, ?land255,
    ?Z.shiftr_div_pow2 by lia;
  repeat match goal with
  | |- context [2 ^ ?n] =>
      let v := eval vm_compute in (2 ^ n) in change (2 ^ n) with v
  end.

(* ------------------------------------------------------------------ *)
(** ** Results

    [Ok] is success, [Err] is the C code's error return ([-1] or [NULL]),
    and [Fault] is undefined behaviour: an access outside a buffer, a
    division by zero, or the exhaustion of a loop's fuel.  A theorem that an
    operation does not return [Fault] is thus memory safety and termination
    together. *)

Inductive res (A : Type) : Type :=
  | Ok (a : A)
  | Err
  | Fault.
Arguments Ok {A} a.
Arguments Err {A}.
Arguments Fault {A}.

#[export] Instance res_ret : MRet res := @Ok.
#[export] Instance res_bind : MBind res := fun A B f m =>
  match m with Ok a => f a | Err => Err | Fault => Fault end.
#[export] Instance res_fmap : FMap res := fun A B f m =>
  match m with Ok a => Ok (f a) | Err => Err | Fault => Fault end.

#[export] Instance res_eq_dec {A} `{EqDecision A} : EqDecision (res A).
Proof. solve_decision. Defined.

Definition no_fault {A} (m : res A) : Prop := m <> Fault.

Lemma bind_Ok {A B} (m : res A) (f : A -> res B) b :
  (m ≫= f) = Ok b <-> exists a, m = Ok a /\ f a = Ok b.
Proof. destruct m; simpl; naive_solver. Qed.

Lemma no_fault_bind {A B} (m : res A) (f : A -> res B) :
  no_fault m -> (forall a, m = Ok a -> no_fault (f a)) -> no_fault (m ≫= f).
Proof. unfold no_fault. destruct m; simpl; naive_solver. Qed.

Lemma no_fault_Ok {A} (a : A) : no_fault (Ok a).
Proof. done. Qed.
Lemma no_fault_Err {A} : no_fault (@Err A).
Proof. done. Qed.

Lemma Ok_inj {A} (a b : A) : Ok a = Ok b -> a = b.
Proof. by intros [= ->]. Qed.

Lemma Ok_pair {A B} (a a' : A) (b b' : B) :
  a = a' -> b = b' -> Ok (a, b) = Ok (a', b').
Proof. by intros -> ->. Qed.

(** Signed arithmetic whose overflow is undefined. *)
Definition int_of (z : Z) : res Z := if decide (is_s32 z) then Ok z else Fault.

Lemma int_of_Ok z : is_s32 z -> int_of z = Ok z.
Proof. intros. unfold int_of. by rewrite decide_True. Qed.

Create HintDb safe.
#[export] Hint Resolve no_fault_Ok no_fault_Err : safe.

(** The C idiom [if (!p) return e;]: a pointer that may be [NULL] is an
    [option]. *)
Declare Scope c_scope.
Delimit Scope c_scope with C.
Notation "'let?' x := p 'else' e 'in' k" :=
  (match p with Some x => k | None => e end)
  (at level 10, x name, p at level 100, e at level 100, k at level 200)
  : c_scope.
#[global] Open Scope c_scope.

(* ------------------------------------------------------------------ *)
(** ** Buffers

    A buffer is the list of its bytes, an array the list of its elements.
    Every access is checked. *)

Definition len {A} (l : list A) : Z := Z.of_nat (length l).

Definition rd {A} (b : list A) (i : Z) : res A :=
  if decide (0 <= i) then
    match b !! Z.to_nat i with Some v => Ok v | None => Fault end
  else Fault.

Definition rd_slice {A} (b : list A) (i n : Z) : res (list A) :=
  if decide (0 <= i /\ 0 <= n /\ i + n <= len b)
  then Ok (take (Z.to_nat n) (drop (Z.to_nat i) b)) else Fault.

(** [memcpy(b + i, bs, len bs)]. *)
Definition wr {A} (b : list A) (i : Z) (bs : list A) : res (list A) :=
  if decide (0 <= i /\ i + len bs <= len b)
  then Ok (take (Z.to_nat i) b ++ bs ++
           drop (Z.to_nat i + length bs) b) else Fault.

(** [a[i] = x]. *)
Definition upd {A} (a : list A) (i : Z) (x : A) : res (list A) :=
  if decide (0 <= i < len a) then Ok (<[Z.to_nat i := x]> a) else Fault.

(** Network byte order, as the [read_u16] ... [write_u32] helpers that each
    file of the RTP stack repeats. *)
Definition read_u16 (b : list Z) (i : Z) : res Z :=
  x ← rd b i; y ← rd b (i + 1);
  Ok (u16 (Z.lor (Z.shiftl x 8) y)).

Definition read_u32 (b : list Z) (i : Z) : res Z :=
  x ← rd b i; y ← rd b (i + 1); z ← rd b (i + 2); w ← rd b (i + 3);
  Ok (Z.lor (Z.lor (Z.lor (u32 (Z.shiftl x 24)) (u32 (Z.shiftl y 16)))
                   (u32 (Z.shiftl z 8))) w).

Definition be16 (v : Z) : list Z := [u8 (Z.shiftr v 8); u8 (Z.land v 255)].
Definition be32 (v : Z) : list Z :=
  [u8 (Z.shiftr v 24); u8 (Z.shiftr v 16); u8 (Z.shiftr v 8);
   u8 (Z.land v 255)].

Definition write_u16 (b : list Z) (i v : Z) : res (list Z) := wr b i (be16 v).
Definition write_u32 (b : list Z) (i v : Z) : res (list Z) := wr b i (be32 v).

Definition bytes (l : list Z) : Prop := Forall is_u8 l.

(** *** Lengths *)

Lemma len_nil {A} : len (@nil A) = 0.
Proof. done. Qed.
Lemma len_cons {A} (x : A) l : len (x :: l) = 1 + len l.
Proof. unfold len. simpl. lia. Qed.
Lemma len_app {A} (l k : list A) : len (l ++ k) = len l + len k.
Proof. unfold len. rewrite length_app. lia. Qed.
Lemma len_nonneg {A} (l : list A) : 0 <= len l.
Proof. unfold len. lia. Qed.
Lemma len_take {A} n (l : list A) : len (take n l) = Z.min (Z.of_nat n) (len l).
Proof. unfold len. rewrite length_take. lia. Qed.
Lemma len_drop {A} n (l : list A) : len (drop n l) = Z.max 0 (len l - Z.of_nat n).
Proof. unfold len. rewrite length_drop. lia. Qed.
Lemma len_replicate {A} n (x : A) : len (replicate n x) = Z.of_nat n.
Proof. unfold len. by rewrite length_replicate. Qed.
Lemma len_insert {A} i (x : A) (l : list A) : len (<[i:=x]> l) = len l.
Proof. unfold len. by rewrite length_insert. Qed.
Lemma len_map {A B} (f : A -> B) l : len (f <$> l) = len l.
Proof. unfold len. by rewrite length_fmap. Qed.
Lemma length_be16 v : length (be16 v) = 2%nat.
Proof. done. Qed.
Lemma length_be32 v : length (be32 v) = 4%nat.
Proof. done. Qed.
Lemma len_to_nat {A} (l : list A) : Z.to_nat (len l) = length l.
Proof. unfold len. lia. Qed.

(** Linear arithmetic over lengths, in the goal and the hypotheses. *)
Ltac len_lia :=
  unfold len in *; cbn [length] in *;
  repeat progress
    (rewrite ?length_take, ?length_drop, ?length_app, ?length_replicate,
       ?length_insert, ?length_fmap, ?length_be16, ?length_be32 in *;
     cbn [length] in *);
  lia.

Lemma NoDup_snoc {A} (l : list A) x : NoDup l -> x ∉ l -> NoDup (l ++ [x]).
Proof.
  intros Hl Hx. apply NoDup_app. split; [done|]. split; [|apply NoDup_singleton].
  intros y Hy ->%list_elem_of_singleton. done.
Qed.

(** *** Reading *)

Lemma rd_mid {A} (pre : list A) x post i :
  len pre = i -> rd (pre ++ x :: post) i = Ok x.
Proof.
  unfold rd, len. intros <-. rewrite decide_True by lia.
  rewrite Nat2Z.id. by rewrite list_lookup_middle.
Qed.

Lemma rd_lookup {A} (b : list A) i x :
  rd b i = Ok x <-> 0 <= i /\ b !! Z.to_nat i = Some x.
Proof.
  unfold rd. destruct (decide (0 <= i)); [|naive_solver].
  destruct (b !! Z.to_nat i) eqn:E; naive_solver.
Qed.

Lemma rd_in_range {A} (b : list A) i :
  0 <= i < len b -> exists x, rd b i = Ok x.
Proof.
  intros Hi. destruct (lookup_lt_is_Some_2 b (Z.to_nat i)) as [x Hx];
    [unfold len in Hi; lia|].
  exists x. apply rd_lookup. split; [lia|done].
Qed.

Lemma rd_no_fault {A} (b : list A) i : 0 <= i < len b -> no_fault (rd b i).
Proof. intros [x ->]%rd_in_range. done. Qed.

Lemma rd_byte (b : list Z) i x : bytes b -> rd b i = Ok x -> is_u8 x.
Proof.
  intros Hb [_ Hx]%rd_lookup. by apply (Forall_lookup_1 _ _ _ _ Hb Hx).
Qed.

Lemma rd_app_l {A} (b c : list A) i : i < len b -> rd (b ++ c) i = rd b i.
Proof.
  unfold rd, len. intros. destruct (decide (0 <= i)); [|done].
  by rewrite lookup_app_l by lia.
Qed.

(** Reading at an offset past a prefix of known length. *)
Lemma rd_off {A} (pre c : list A) i k :
  len pre = i -> 0 <= k -> rd (pre ++ c) (i + k) = rd c k.
Proof.
  unfold rd, len. intros <- Hk. rewrite !decide_True by lia.
  rewrite lookup_app_r by lia.
  by replace (Z.to_nat (Z.of_nat (length pre) + k) - length pre)%nat
    with (Z.to_nat k) by lia.
Qed.

Lemma rd_slice_mid {A} (pre d post : list A) i n :
  len pre = i -> len d = n -> rd_slice (pre ++ d ++ post) i n = Ok d.
Proof.
  intros <- <-. unfold rd_slice. rewrite decide_True by len_lia.
  by rewrite !len_to_nat, drop_app_length, take_app_length.
Qed.

Lemma rd_slice_front {A} (d post : list A) n :
  len d = n -> rd_slice (d ++ post) 0 n = Ok d.
Proof. by apply (rd_slice_mid []). Qed.
Lemma rd_slice_all {A} (d : list A) n : len d = n -> rd_slice d 0 n = Ok d.
Proof. rewrite <- (app_nil_r d) at 2. apply rd_slice_front. Qed.

Lemma rd_slice_no_fault {A} (b : list A) i n :
  0 <= i -> 0 <= n -> i + n <= len b -> no_fault (rd_slice b i n).
Proof. intros. unfold rd_slice. by rewrite decide_True by lia. Qed.

Lemma rd_slice_Ok {A} (b : list A) i n d :
  rd_slice b i n = Ok d ->
  0 <= i /\ 0 <= n /\ i + n <= len b /\ len d = n /\
  exists pre post, b = pre ++ d ++ post /\ len pre = i.
Proof.
  unfold rd_slice. case_decide as H; [|done]. intros [= <-].
  split_and!; try lia; [len_lia|].
  exists (take (Z.to_nat i) b), (drop (Z.to_nat n) (drop (Z.to_nat i) b)).
  split; [by rewrite !take_drop|len_lia].
Qed.

(** *** Writing *)

Lemma wr_next {A} (pre rest bs : list A) i :
  len pre = i -> len bs <= len rest ->
  wr (pre ++ rest) i bs = Ok ((pre ++ bs) ++ drop (length bs) rest).
Proof.
  intros <- Hl. unfold wr. rewrite decide_True by len_lia.
  rewrite len_to_nat, take_app_length, <- app_assoc.
  rewrite drop_app_ge by lia. do 4 f_equal. lia.
Qed.

Lemma wr_front {A} (b bs : list A) :
  len bs <= len b -> wr b 0 bs = Ok (bs ++ drop (length bs) b).
Proof. intros. by apply (wr_next []). Qed.

Lemma wr_mid {A} (pre old bs post : list A) i :
  len pre = i -> len old = len bs ->
  wr (pre ++ old ++ post) i bs = Ok (pre ++ bs ++ post).
Proof.
  intros Hi Ho. rewrite wr_next by len_lia. rewrite <- app_assoc.
  by rewrite drop_app_length' by (unfold len in Ho; lia).
Qed.

Lemma wr_len {A} (b b' bs : list A) i : wr b i bs = Ok b' -> len b' = len b.
Proof.
  unfold wr. case_decide; [|done]. intros [= <-]. unfold len in *.
  rewrite !length_app, length_take, length_drop. lia.
Qed.

Lemma wr_no_fault {A} (b bs : list A) i :
  0 <= i -> i + len bs <= len b -> no_fault (wr b i bs).
Proof. intros. unfold wr. by rewrite decide_True by lia. Qed.

Lemma upd_Ok {A} (a : list A) i x :
  0 <= i < len a -> upd a i x = Ok (<[Z.to_nat i := x]> a).
Proof. intros. unfold upd. by rewrite decide_True. Qed.

(** Writing past a prefix leaves the prefix alone. *)
Lemma wr_off {A} (pre rest bs : list A) i k :
  len pre = i -> 0 <= k -> k + len bs <= len rest ->
  wr (pre ++ rest) (i + k) bs =
  Ok (pre ++ take (Z.to_nat k) rest ++ bs ++ drop (Z.to_nat k + length bs) rest).
Proof.
  intros Hi Hk Hl. unfold wr. rewrite decide_True by len_lia.
  rewrite take_app_ge, drop_app_ge by (unfold len in Hi; lia).
  rewrite <- app_assoc. unfold len in Hi.
  replace (Z.to_nat (i + k) - length pre)%nat with (Z.to_nat k) by lia.
  by replace (Z.to_nat (i + k) + length bs - length pre)%nat
    with (Z.to_nat k + length bs)%nat by lia.
Qed.

Lemma upd_mid {A} (pre : list A) x y post i :
  len pre = i -> upd (pre ++ x :: post) i y = Ok (pre ++ y :: post).
Proof.
  intros <-. unfold upd. rewrite decide_True by len_lia.
  rewrite len_to_nat. rewrite <- (Nat.add_0_r (length pre)).
  by rewrite insert_app_r.
Qed.

(** *** Regions and elements of a buffer *)

(** Two different regions do not overlap. *)
Lemma rd_slice_wr_disjoint {A} (b b' bs : list A) i j n :
  wr b i bs = Ok b' -> j + n <= i \/ i + len bs <= j ->
  rd_slice b' j n = rd_slice b j n.
Proof.
  intros Hw Hd. pose proof (wr_len _ _ _ _ Hw) as Hl. unfold wr in Hw.
  case_decide as Hr; [|done]. injection Hw as Hw.
  unfold rd_slice. rewrite Hl. case_decide as Hs; [|done]. f_equal.
  apply list_eq. intros k. destruct (decide (k < Z.to_nat n)%nat) as [Hk|Hk].
  2: { rewrite !lookup_take_ge by lia. done. }
  rewrite !lookup_take_lt, !lookup_drop by lia. subst b'. destruct Hd.
  - rewrite lookup_app_l by len_lia. by rewrite lookup_take_lt by lia.
  - unfold len in *. rewrite lookup_app_r by len_lia.
    rewrite lookup_app_r by len_lia. rewrite lookup_drop. f_equal. len_lia.
Qed.

Lemma rd_slice_wr_same {A} (b b' bs : list A) i :
  wr b i bs = Ok b' -> rd_slice b' i (len bs) = Ok bs.
Proof.
  unfold wr. case_decide; [|done]. intros [= <-].
  apply rd_slice_mid; [len_lia|done].
Qed.

Lemma rd_upd {A} (a a' : list A) i j x :
  upd a i x = Ok a' ->
  rd a' j = if decide (i = j) then Ok x else rd a j.
Proof.
  unfold upd. case_decide as Hi; [|done]. intros [= <-]. unfold rd.
  destruct (decide (0 <= j)); [|by destruct (decide (i = j)); [lia|]].
  destruct (decide (i = j)) as [<-|Hne].
  - rewrite list_lookup_insert_eq; [done|len_lia].
  - by rewrite list_lookup_insert_ne by lia.
Qed.

Lemma rd_bounds {A} (a : list A) i x : rd a i = Ok x -> 0 <= i < len a.
Proof.
  intros [? Hx]%rd_lookup. apply lookup_lt_Some in Hx. len_lia.
Qed.

(** *** Cursors

    The C idiom of a pointer that advances over an output buffer: [emit bs] is
    the stores of [bs] at the cursor and the increment by their number.  A
    writer [emits] exactly [bs] when it only appends them. *)

Definition cursor : Type := list Z * Z.

Definition emit (bs : list Z) (c : cursor) : res cursor :=
  b ← wr c.1 c.2 bs; Ok (b, c.2 + len bs).

Definition emits (w : cursor -> res cursor) (bs : list Z) : Prop :=
  forall pre rest, len bs <= len rest ->
    w (pre ++ rest, len pre) =
    Ok ((pre ++ bs) ++ drop (length bs) rest, len (pre ++ bs)).

Lemma emit_emits bs : emits (emit bs) bs.
Proof.
  intros pre rest H. unfold emit. cbn [fst snd]. rewrite wr_next by done.
  cbn [mbind res_bind]. by rewrite len_app.
Qed.

Lemma emits_bind w1 w2 b1 b2 :
  emits w1 b1 -> emits w2 b2 -> emits (fun c => w1 c ≫= w2) (b1 ++ b2).
Proof.
  intros H1 H2 pre rest H. rewrite len_app in H. pose proof (len_nonneg b2).
  rewrite H1 by lia. cbn [mbind res_bind]. rewrite H2 by len_lia.
  by rewrite drop_drop, length_app, !app_assoc.
Qed.

Lemma emits_ret : emits Ok [].
Proof. intros pre rest _. by rewrite !app_nil_r. Qed.

Lemma emits_ext w bs bs' : emits w bs -> bs = bs' -> emits w bs'.
Proof. by intros ? <-. Qed.

Create HintDb emits.
#[export] Hint Resolve emit_emits emits_ret : emits.

(** *** Big-endian fields *)

Lemma be16_bytes v : bytes (be16 v).
Proof. repeat constructor; apply u8_range. Qed.
Lemma be32_bytes v : bytes (be32 v).
Proof. repeat constructor; apply u8_range. Qed.
#[export] Hint Resolve be16_bytes be32_bytes : width.

Lemma read_u16_val x y :
  is_u8 x -> is_u8 y -> u16 (Z.lor (Z.shiftl x 8) y) = 256 * x + y.
Proof.
  unfold is_u8. intros. rewrite lor_shiftl_add by lia.
  rewrite u16_id by (unfold is_u16; lia). lia.
Qed.

Lemma read_u16_mid pre v post i :
  is_u16 v -> len pre = i -> read_u16 (pre ++ be16 v ++ post) i = Ok v.
Proof.
  intros Hv Hi. unfold read_u16, be16. simpl.
  rewrite (rd_mid _ _ _ i), (rd_off _ _ i 1) by done. simpl.
  f_equal. rewrite read_u16_val by apply u8_range.
  rewrite shiftr8, land255. unfold u8, is_u16 in *. zmod_lia.
Qed.

Lemma read_u32_val x y z w :
  is_u8 x -> is_u8 y -> is_u8 z -> is_u8 w ->
  Z.lor (Z.lor (Z.lor (u32 (Z.shiftl x 24)) (u32 (Z.shiftl y 16)))
               (u32 (Z.shiftl z 8))) w
  = 16777216 * x + 65536 * y + 256 * z + w.
Proof.
  unfold is_u8. intros.
  rewrite !u32_id by (rewrite ?Z.shiftl_mul_pow2 by lia; unfold is_u32; lia).
  rewrite (lor_shiftl_add x (Z.shiftl y 16) 24)
    by (rewrite ?Z.shiftl_mul_pow2; lia).
  replace (x * 2 ^ 24 + Z.shiftl y 16) with (Z.shiftl (256 * x + y) 16)
    by (rewrite !Z.shiftl_mul_pow2; lia).
  rewrite (lor_shiftl_add _ (Z.shiftl z 8) 16)
    by (rewrite ?Z.shiftl_mul_pow2; lia).
  replace ((256 * x + y) * 2 ^ 16 + Z.shiftl z 8)
    with (Z.shiftl (65536 * x + 256 * y + z) 8)
    by (rewrite !Z.shiftl_mul_pow2; lia).
  rewrite lor_shiftl_add by lia. lia.
Qed.

Lemma be32_val v : is_u32 v ->
  16777216 * u8 (Z.shiftr v 24) + 65536 * u8 (Z.shiftr v 16) +
  256 * u8 (Z.shiftr v 8) + u8 (Z.land v 255) = v.
Proof.
  intros Hv. rewrite shiftr24, shiftr16, shiftr8, land255.
  unfold u8, is_u32 in *. zmod_lia.
Qed.

Lemma read_u32_mid pre v post i :
  is_u32 v -> len pre = i -> read_u32 (pre ++ be32 v ++ post) i = Ok v.
Proof.
  intros Hv Hi. unfold read_u32, be32. simpl.
  rewrite (rd_mid _ _ _ i), (rd_off _ _ i 1), (rd_off _ _ i 2),
    (rd_off _ _ i 3) by done. simpl.
  f_equal. rewrite read_u32_val by apply u8_range. by apply be32_val.
Qed.

Lemma read_u16_no_fault b i : 0 <= i -> i + 2 <= len b -> no_fault (read_u16 b i).
Proof.
  intros. unfold read_u16.
  repeat (apply no_fault_bind; [apply rd_no_fault; lia|intros]). done.
Qed.

Lemma read_u16_in_range b i :
  0 <= i -> i + 2 <= len b -> exists v, read_u16 b i = Ok v /\ is_u16 v.
Proof.
  intros. unfold read_u16.
  destruct (rd_in_range b i) as [x ->]; [lia|]. cbn [mbind res_bind].
  destruct (rd_in_range b (i + 1)) as [y ->]; [lia|]. cbn [mbind res_bind].
  eexists. split; [done|apply u16_range].
Qed.

Lemma rd_slice_in_range {A} (b : list A) i n :
  0 <= i -> 0 <= n -> i + n <= len b ->
  rd_slice b i n = Ok (take (Z.to_nat n) (drop (Z.to_nat i) b)).
Proof. intros. unfold rd_slice. by rewrite decide_True by lia. Qed.

Lemma read_u32_no_fault b i : 0 <= i -> i + 4 <= len b -> no_fault (read_u32 b i).
Proof.
  intros. unfold read_u32.
  repeat (apply no_fault_bind; [apply rd_no_fault; lia|intros]). done.
Qed.

#[export] Hint Resolve rd_no_fault rd_slice_no_fault wr_no_fault
  read_u16_no_fault read_u32_no_fault : safe.

(** Walks through a monadic program whose accesses are in range. *)
Ltac safe_step :=
  match goal with
  | |- no_fault (Ok _) => apply no_fault_Ok
  | |- no_fault Err => apply no_fault_Err
  | |- no_fault (mret _) => apply no_fault_Ok
  | |- no_fault (mbind _ _) => apply no_fault_bind; [|intros ? ?]
  | |- no_fault (rd _ _) => apply rd_no_fault
  | |- no_fault (read_u16 _ _) => apply read_u16_no_fault
  | |- no_fault (read_u32 _ _) => apply read_u32_no_fault
  | |- no_fault (rd_slice _ _ _) => apply rd_slice_no_fault
  | |- no_fault (wr _ _ _) => apply wr_no_fault
  | |- no_fault (write_u16 _ _ _) => apply wr_no_fault
  | |- no_fault (write_u32 _ _ _) => apply wr_no_fault
  | |- no_fault (if ?c then _ else _) => destruct c eqn:?
  | |- no_fault (match ?p with Some _ => _ | None => _ end) => destruct p eqn:?
  | |- no_fault (let '(_, _) := ?p in _) => destruct p
  end.
