(* ===== verification/Float.v ===== *)
(** * IEEE 754 arithmetic of the C types [float] and [double]

    The executable reference semantics of the Standard Library (SpecFloat) at
    the two formats, with conversions from and to integers.  Every operation
    rounds to nearest even in its own format, as on targets that evaluate
    [float] expressions in single precision. *)

From Stdlib Require Export SpecFloat.
From S2P Require Import Prelude.

Abbreviation float := spec_float.

Definition f32_of_Z (z : Z) : float := binary_normalize 24 128 z 0 false.
Definition f64_of_Z (z : Z) : float := binary_normalize 53 1024 z 0 false.

Definition f32_mul : float -> float -> float := SFmul 24 128.
Definition f32_add : float -> float -> float := SFadd 24 128.
Definition f32_sub : float -> float -> float := SFsub 24 128.
Definition f32_div : float -> float -> float := SFdiv 24 128.
Definition f64_mul : float -> float -> float := SFmul 53 1024.

(** [(double)x] is exact. *)
Definition f64_of_f32 (x : float) : float :=
  match x with
  | S754_finite s m e =>
      binary_normalize 53 1024 (if s then Zneg m else Zpos m) e s
  | _ => x
  end.

(** The integer part, towards zero; a NaN or an infinity has none. *)
Definition f_trunc (x : float) : res Z :=
  match x with
  | S754_zero _ => Ok 0
  | S754_finite s m e =>
      let a := if 0 <=? e then Z.shiftl (Zpos m) e else Z.shiftr (Zpos m) (- e) in
      Ok (if s then - a else a)
  | _ => Fault
  end.

(** [(uint32_t)x]: a value outside the range is undefined. *)
Definition f_to_u32 (x : float) : res Z :=
  z ← f_trunc x; if decide (is_u32 z) then Ok z else Fault.

(* ------------------------------------------------------------------ *)
(** ** Magnitude bounds

    [fbound x k]: [x] is zero or a positive finite number below [2^k].  The
    operations keep such bounds up to one unit for the rounding, which is
    enough to see that a conversion to [uint32_t] is defined. *)

Definition mbound (m e k : Z) : Prop := 0 <= m /\ e <= k /\ m < 2 ^ (k - e).

Definition fbound (x : float) (k : Z) : Prop :=
  x = S754_zero false \/ exists m e, x = S754_finite false m e /\ mbound (Zpos m) e k.

Lemma digits2_log2 p : Zpos (digits2_pos p) = Z.log2 (Zpos p) + 1.
Proof.
  assert (H : forall q, digits2_pos q = Pos.size q) by (induction q; cbn; congruence).
  rewrite H. destruct p; cbn; lia.
Qed.

Lemma shr_1_div r : 0 <= shr_m r -> shr_m (shr_1 r) = shr_m r / 2.
Proof.
  destruct r as [m r s]. cbn. intros Hm.
  destruct m as [|[p|p|]|p]; cbn [shr_m]; try lia; reflexivity.
Qed.

Lemma shr_iter_div n r :
  0 <= shr_m r -> shr_m (SpecFloat.iter_pos shr_1 n r) = shr_m r / 2 ^ Zpos n.
Proof.
  revert r. induction n as [n IH|n IH|]; intros r Hr; cbn [SpecFloat.iter_pos].
  - assert (H1 : 0 <= shr_m (shr_1 r)) by (rewrite shr_1_div by done; zmod_lia).
    assert (H2 : 0 <= shr_m (SpecFloat.iter_pos shr_1 n (shr_1 r)))
      by (rewrite IH by done; apply Z.div_pos; lia).
    rewrite !IH, shr_1_div by done. rewrite !Z.div_div by lia. f_equal.
    replace (Zpos n~1) with (1 + Zpos n + Zpos n) by lia.
    rewrite !Z.pow_add_r by lia. lia.
  - assert (H2 : 0 <= shr_m (SpecFloat.iter_pos shr_1 n r))
      by (rewrite IH by done; apply Z.div_pos; lia).
    rewrite !IH by done. rewrite Z.div_div by lia. f_equal.
    replace (Zpos n~0) with (Zpos n + Zpos n) by lia.
    rewrite !Z.pow_add_r by lia. lia.
  - by rewrite shr_1_div.
Qed.

Lemma mbound_shift m e k n :
  mbound m e k -> 0 <= n -> e + n <= k -> mbound (m / 2 ^ n) (e + n) k.
Proof.
  intros (Hm & He & Hk) Hn Hen. split; [apply Z.div_pos; lia|]. split; [done|].
  apply Z.div_lt_upper_bound; [lia|]. rewrite <- Z.pow_add_r by lia.
  by replace (n + (k - (e + n))) with (k - e) by lia.
Qed.

Lemma mbound_digits m e k : 0 < m -> mbound m e k -> Zdigits2 m + e <= k.
Proof.
  intros Hm (_ & He & Hk). destruct m as [|p|p]; try lia. cbn [Zdigits2].
  rewrite digits2_log2. enough (Z.log2 (Zpos p) < k - e) by lia.
  apply Z.log2_lt_pow2; lia.
Qed.

Section format.
Context (prec emax k : Z).
Context (Hprec : 0 < prec) (Hmin : emin prec emax <= k) (Hmax : k <= emax - prec).

(** One alignment step keeps the bound. *)
Lemma shr_fexp_bound m e l r e' :
  mbound m e k -> shr_fexp prec emax m e l = (r, e') -> mbound (shr_m r) e' k.
Proof.
  intros Hb. unfold shr_fexp.
  assert (Hm : shr_m (shr_record_of_loc m l) = m) by (by destruct l as [|[]]).
  assert (Hn : e + (fexp prec emax (Zdigits2 m + e) - e) <= k).
  { unfold fexp. destruct (Z.eq_dec m 0) as [->|]; [destruct Hb as (_ & ? & _); cbn; lia|].
    pose proof (mbound_digits m e k ltac:(destruct Hb; lia) Hb). lia. }
  destruct (fexp prec emax (Zdigits2 m + e) - e) as [|n|n]; cbn [shr];
    intros [= <- <-]; rewrite ?Hm; [done| |done].
  rewrite shr_iter_div by (rewrite Hm; apply Hb). rewrite Hm.
  by apply mbound_shift.
Qed.
End format.

Lemma round_even_range m l : m <= round_nearest_even m l <= m + 1.
Proof. destruct l as [|[]]; cbn; try lia. destruct (Z.even m); lia. Qed.

Lemma round_aux_bound prec emax m e k :
  0 < prec -> emin prec emax <= k -> k + 1 <= emax - prec -> mbound m e k ->
  fbound (binary_round_aux prec emax false m e loc_Exact) (k + 1).
Proof.
  intros Hp Hmin Hmax Hb. unfold binary_round_aux.
  destruct (shr_fexp prec emax m e loc_Exact) as [r e1] eqn:E1.
  apply (shr_fexp_bound prec emax k Hp Hmin) in E1; [|done].
  set (m1 := round_nearest_even _ _).
  assert (Hb1 : mbound m1 e1 (k + 1)).
  { destruct E1 as (H0 & He & Hk).
    pose proof (round_even_range (shr_m r) (loc_of_shr_record r)) as Hr. fold m1 in Hr.
    split; [lia|]. split; [lia|]. replace (k + 1 - e1) with (k - e1 + 1) by lia.
    rewrite Z.pow_add_r by lia. lia. }
  destruct (shr_fexp prec emax m1 e1 loc_Exact) as [r2 e2] eqn:E2.
  apply (shr_fexp_bound prec emax (k + 1) Hp ltac:(lia)) in E2; [|done].
  destruct (shr_m r2) as [|p|p] eqn:Er; [by left| |].
  - assert (He2 : e2 <= k + 1) by apply E2.
    replace (e2 <=? emax - prec) with true by lia. right. by exists p, e2.
  - destruct E2 as (H0 & _). lia.
Qed.

Lemma mul_bound prec emax x y kx ky :
  0 < prec -> emin prec emax <= kx + ky -> kx + ky + 1 <= emax - prec ->
  fbound x kx -> fbound y ky -> fbound (SFmul prec emax x y) (kx + ky + 1).
Proof.
  intros Hp Hmin Hmax [->|(mx & ex & -> & Hx)] [->|(my & ey & -> & Hy)];
    try (left; reflexivity).
  cbn [SFmul xorb]. apply round_aux_bound; [done..|].
  destruct Hx as (_ & Hex & Hx), Hy as (_ & Hey & Hy).
  split; [lia|]. split; [lia|]. rewrite Pos2Z.inj_mul.
  replace (kx + ky - (ex + ey)) with ((kx - ex) + (ky - ey)) by lia.
  rewrite Z.pow_add_r by lia. nia.
Qed.

Lemma iter_xO p d : Zpos (Pos.iter xO p d) = Zpos p * 2 ^ Zpos d.
Proof.
  induction d as [|d IH] using Pos.peano_ind; [cbn; lia|].
  rewrite Pos.iter_succ, Pos2Z.inj_succ, Z.pow_succ_r by lia.
  rewrite (Pos2Z.inj_xO (Pos.iter xO p d)), IH. ring.
Qed.

Lemma of_Z_bound prec emax z k :
  0 < prec -> emin prec emax <= k -> k + 1 <= emax - prec -> 0 <= k ->
  0 <= z < 2 ^ k -> fbound (binary_normalize prec emax z 0 false) (k + 1).
Proof.
  intros Hp Hmin Hmax Hk Hz. destruct z as [|p|p]; [by left| |lia].
  cbn [binary_normalize]. unfold binary_round, shl_align.
  rewrite Z.sub_0_r, Z.add_0_r.
  destruct (fexp prec emax (Zpos (digits2_pos p))) as [|d|d] eqn:Ef.
  - apply round_aux_bound; try done. split; [lia|]. split; [lia|]. rewrite ?Z.sub_0_r. lia.
  - apply round_aux_bound; try done. split; [lia|]. split; [lia|]. rewrite ?Z.sub_0_r. lia.
  - apply round_aux_bound; try done. rewrite iter_xO. split; [lia|]. split; [lia|].
    replace (k - Zneg d) with (k + Zpos d) by lia. rewrite Z.pow_add_r by lia. nia.
Qed.

(** Truncation of a bounded number is defined and bounded. *)
Lemma to_u32_bound x k :
  fbound x k -> 0 <= k <= 32 -> exists z, f_to_u32 x = Ok z /\ 0 <= z < 2 ^ k.
Proof.
  intros Hx Hk. assert (H32 : 2 ^ k <= 4294967296)
    by (change 4294967296 with (2 ^ 32); apply Z.pow_le_mono_r; lia).
  assert (H0 : 0 < 2 ^ k) by lia.
  enough (exists z, f_trunc x = Ok z /\ 0 <= z < 2 ^ k) as (z & Hz & Hr).
  { exists z. unfold f_to_u32. rewrite Hz. cbn [mbind res_bind].
    rewrite decide_True by (unfold is_u32; lia). done. }
  destruct Hx as [->|(m & e & -> & _ & He & Hm)]; [by exists 0|].
  cbn [f_trunc]. eexists. split; [done|]. destruct (Z.leb_spec 0 e).
  - rewrite Z.shiftl_mul_pow2 by done. split; [lia|].
    assert (Hs : 2 ^ k = 2 ^ (k - e) * 2 ^ e)
      by (rewrite <- Z.pow_add_r by lia; f_equal; lia). rewrite Hs. nia.
  - rewrite Z.shiftr_div_pow2 by lia. split; [apply Z.div_pos; lia|].
    apply Z.div_lt_upper_bound; [lia|]. rewrite <- Z.pow_add_r by lia.
    by replace (- e + k) with (k - e) by lia.
Qed.
