(* ===== verification/RtpPacket.v ===== *)
(** * RTP packets (src/webrtc/src/rtc/rtp/rtp_packet.c)

    The packet structures of src/webrtc/include/turbo_rtp.h, the builder, the
    parser and the serializer of RFC 3550 packets with RFC 8285 one-byte
    header extensions, the extension accessors and the wrap-around sequence
    comparison.  A NULL-able pointer argument is an [option]; the packet's
    [payload] and [buffer] pointers are the bytes they point to. *)

From S2P Require Import Prelude.

(* ------------------------------------------------------------------ *)
(** ** Data *)

Definition RTP_VERSION : Z := 2.
Definition RTP_HEADER_SIZE : Z := 12.
Definition RTP_MAX_CSRC : Z := 15.
Definition RTP_MAX_PACKET : Z := 1500.
Definition RTP_SEQ_MOD : Z := 65536.

Record rtp_header_t := {
  version : Z; padding : Z; extension : Z; csrc_count : Z;
  marker : Z; payload_type : Z; sequence : Z; timestamp : Z; ssrc : Z }.

Record rtp_extension_t := { ext_id : Z; ext_length : Z; ext_data : list Z }.

Record rtp_packet_t := {
  header : rtp_header_t;
  csrc : list Z;                      (* uint32_t csrc[RTP_MAX_CSRC] *)
  extensions : list rtp_extension_t;  (* rtp_extension_t extensions[8] *)
  extension_count : Z;
  payload : option (list Z);
  payload_len : Z;
  buffer : option (list Z);
  buffer_len : Z;
  owns_buffer : Z }.

Definition rtp_header_zero : rtp_header_t := Build_rtp_header_t 0 0 0 0 0 0 0 0 0.
Definition rtp_extension_zero : rtp_extension_t :=
  Build_rtp_extension_t 0 0 (replicate 16 0).
Definition rtp_packet_zero : rtp_packet_t :=
  Build_rtp_packet_t rtp_header_zero (replicate 15 0)
    (replicate 8 rtp_extension_zero) 0 None 0 None 0 0.

Definition set_extension_flag (h : rtp_header_t) (x : Z) : rtp_header_t :=
  Build_rtp_header_t (version h) (padding h) x (csrc_count h) (marker h)
    (payload_type h) (sequence h) (timestamp h) (ssrc h).

(* ------------------------------------------------------------------ *)
(** ** Operations *)

Definition rtp_packet_init (pkt : option rtp_packet_t) : option rtp_packet_t :=
  let? _ := pkt else None in
  Some (Build_rtp_packet_t (Build_rtp_header_t RTP_VERSION 0 0 0 0 0 0 0 0)
          (replicate 15 0) (replicate 8 rtp_extension_zero) 0 None 0 None 0 0).

(** The two flag bytes of the fixed header. *)
Definition rtp_byte0 (v p x cc : Z) : Z :=
  u8 (Z.lor (Z.lor (Z.lor (Z.shiftl v 6) (Z.shiftl p 5)) (Z.shiftl x 4))
            (Z.land cc 15)).
Definition rtp_byte1 (m pt : Z) : Z := u8 (Z.lor (Z.shiftl m 7) (Z.land pt 127)).

(** The fixed header, written field by field. *)
Definition rtp_write_fixed (h : rtp_header_t) (x : Z) (b : list Z)
    : res (list Z) :=
  b ← wr b 0 [rtp_byte0 (version h) (padding h) x (csrc_count h)];
  b ← wr b 1 [rtp_byte1 (marker h) (payload_type h)];
  b ← write_u16 b 2 (sequence h);
  b ← write_u32 b 4 (timestamp h);
  write_u32 b 8 (ssrc h).

Definition rtp_packet_build (pkt : option rtp_packet_t) (pt seq ts ssrc0 mark : Z)
    (pl : option (list Z)) (pl_len : Z) (buf : option (list Z)) (buf_len : Z)
    : res (rtp_packet_t * list Z * Z) :=
  let? _ := pkt else Err in
  let? b := buf else Err in
  let header_size := RTP_HEADER_SIZE in
  let total_size := u64 (header_size + pl_len) in
  if buf_len <? total_size then Err else
  let h := {| version := RTP_VERSION; padding := 0; extension := 0;
              csrc_count := 0; marker := b2i (truth mark);
              payload_type := Z.land pt 127; sequence := seq;
              timestamp := ts; ssrc := ssrc0 |} in
  b ← rtp_write_fixed h (extension h) b;
  b ← match pl with
      | Some src => if 0 <? pl_len
                    then (d ← rd_slice src 0 pl_len; wr b RTP_HEADER_SIZE d)
                    else Ok b
      | None => Ok b
      end;
  pointed ← rd_slice b header_size pl_len;
  Ok (Build_rtp_packet_t h (replicate 15 0) (replicate 8 rtp_extension_zero) 0
        (Some pointed) pl_len (Some b) total_size 0, b, s32 total_size).

(** The CSRC loop of the parser; [n] counts the remaining iterations. *)
Fixpoint rtp_read_csrcs (b : list Z) (off : Z) (n : nat) : res (list Z) :=
  match n with
  | O => Ok []
  | S n => c ← read_u32 b off; cs ← rtp_read_csrcs b (off + 4) n; Ok (c :: cs)
  end.

(** [memcpy(a, d, len d)] over the front of a fixed-size array. *)
Definition overwrite {A} (a d : list A) : list A := d ++ drop (length d) a.

(** The loop [while (ext_p < ext_end)] of the one-byte extension parser.
    [exts] and [count] are the packet's array and [extension_count]. *)
Fixpoint rtp_parse_exts (fuel : nat) (b : list Z) (ext_p ext_end : Z)
    (exts : list rtp_extension_t) (count : Z)
    : res (list rtp_extension_t * Z) :=
  match fuel with
  | O => Fault
  | S fuel =>
    if ext_p <? ext_end then
      ext_byte ← rd b ext_p;
      let ext_p := ext_p + 1 in
      let id := u8 (Z.shiftr ext_byte 4) in
      let l := u8 (Z.land ext_byte 15 + 1) in
      if id =? 0 then rtp_parse_exts fuel b ext_p ext_end exts count
      else if id =? 15 then Ok (exts, count)
      else if ext_end <? ext_p + l then Err
      else
        if count <? 8 then
          old ← rd exts count;
          d ← rd_slice b ext_p l;
          exts' ← upd exts count
                    (Build_rtp_extension_t id l (overwrite (ext_data old) d));
          rtp_parse_exts fuel b (ext_p + l) ext_end exts' (count + 1)
        else rtp_parse_exts fuel b (ext_p + l) ext_end exts count
    else Ok (exts, count)
  end.

(** The header-extension block: the new [header_size] and the packet's
    extensions.  [ext_size + 1] iterations suffice, since each consumes at
    least one byte. *)
Definition rtp_parse_ext_block (b : list Z) (buf_len header_size x : Z)
    : res (Z * (list rtp_extension_t * Z)) :=
  let none := (replicate 8 rtp_extension_zero, 0) in
  if truth x then
    if buf_len <? header_size + 4 then Err else
    ext_profile ← read_u16 b header_size;
    ext_len ← read_u16 b (header_size + 2);
    let ext_size := 4 + ext_len * 4 in
    if buf_len <? header_size + ext_size then Err else
    exts ← (if ext_profile =? 0xBEDE
            then rtp_parse_exts (S (Z.to_nat ext_size)) b (header_size + 4)
                   (header_size + ext_size) none.1 none.2
            else Ok none);
    Ok (header_size + ext_size, exts)
  else Ok (header_size, none).

(** The CSRC list: the new [header_size] and the packet's [csrc] array. *)
Definition rtp_parse_csrc_block (b : list Z) (buf_len header_size cc : Z)
    : res (Z * list Z) :=
  if 0 <? cc then
    let csrc_size := cc * 4 in
    if buf_len <? header_size + csrc_size then Err else
    cs ← rtp_read_csrcs b header_size (Z.to_nat (Z.min cc RTP_MAX_CSRC));
    Ok (header_size + csrc_size, overwrite (replicate 15 0) cs)
  else Ok (header_size, replicate 15 0).

(** On [Err] the C code has already cleared or partly filled [*pkt]; its
    callers drop it. *)
Definition rtp_packet_parse (pkt : option rtp_packet_t) (buf : option (list Z))
    (buf_len : Z) : res rtp_packet_t :=
  let? _ := pkt else Err in
  let? b := buf else Err in
  if buf_len <? RTP_HEADER_SIZE then Err else
  byte0 ← rd b 0;
  let v := Z.land (Z.shiftr byte0 6) 3 in
  let p := Z.land (Z.shiftr byte0 5) 1 in
  let x := Z.land (Z.shiftr byte0 4) 1 in
  let cc := Z.land byte0 15 in
  if negb (v =? RTP_VERSION) then Err else
  byte1 ← rd b 1;
  seq ← read_u16 b 2;
  ts ← read_u32 b 4;
  ss ← read_u32 b 8;
  hc ← rtp_parse_csrc_block b buf_len RTP_HEADER_SIZE cc;
  let '(header_size, cs) := hc in
  he ← rtp_parse_ext_block b buf_len header_size x;
  let '(header_size, (exts, count)) := he in
  let pl_len := buf_len - header_size in
  pl_len ← (if truth p && (0 <? pl_len) then
              pad_len ← rd b (buf_len - 1);
              if pl_len <? pad_len then Err else Ok (pl_len - pad_len)
            else Ok pl_len);
  pl ← rd_slice b header_size pl_len;
  Ok {| header := {| version := v; padding := p; extension := x;
                     csrc_count := cc;
                     marker := Z.land (Z.shiftr byte1 7) 1;
                     payload_type := Z.land byte1 127;
                     sequence := seq; timestamp := ts; ssrc := ss |};
        csrc := cs; extensions := exts; extension_count := count;
        payload := Some pl; payload_len := pl_len;
        buffer := Some b; buffer_len := buf_len; owns_buffer := 0 |}.

(** First loop of the serializer: validates the extensions and sums
    [1 + length]. *)
Fixpoint rtp_ext_payload_size (es : list rtp_extension_t) (acc : Z) : res Z :=
  match es with
  | [] => Ok acc
  | e :: es =>
    if (ext_id e =? 0) || (14 <? ext_id e) ||
       (ext_length e =? 0) || (16 <? ext_length e) then Err
    else rtp_ext_payload_size es (acc + (1 + ext_length e))
  end.

Fixpoint rtp_write_csrcs (cs : list Z) (b : list Z) (p : Z)
    : res (list Z * Z) :=
  match cs with
  | [] => Ok (b, p)
  | c :: cs => b ← write_u32 b p c; rtp_write_csrcs cs b (p + 4)
  end.

Fixpoint rtp_write_exts (es : list rtp_extension_t) (b : list Z) (p : Z)
    : res (list Z * Z) :=
  match es with
  | [] => Ok (b, p)
  | e :: es =>
    b ← wr b p [u8 (Z.lor (Z.shiftl (ext_id e) 4)
                          (Z.land (ext_length e - 1) 15))];
    d ← rd_slice (ext_data e) 0 (ext_length e);
    b ← wr b (p + 1) d;
    rtp_write_exts es b (p + 1 + ext_length e)
  end.

Definition rtp_write_payload (pkt : rtp_packet_t) (b : list Z) (p : Z)
    : res (list Z) :=
  match payload pkt with
  | Some src => if 0 <? payload_len pkt
                then (d ← rd_slice src 0 (payload_len pkt); wr b p d)
                else Ok b
  | None => Ok b
  end.

Definition rtp_packet_serialize (pkt : option rtp_packet_t)
    (buf : option (list Z)) (buf_len : Z) : res (list Z * Z) :=
  let? pkt := pkt else Err in
  let? b := buf else Err in
  let h := header pkt in
  let csrc_size := csrc_count h * 4 in
  let header_size := RTP_HEADER_SIZE + csrc_size in
  let write_extensions := 0 <? extension_count pkt in
  sizes ← (if write_extensions then
             es ← rd_slice (extensions pkt) 0 (extension_count pkt);
             s ← rtp_ext_payload_size es 0;
             let pad := (4 - s mod 4) mod 4 in
             Ok (es, s, pad, 4 + s + pad)
           else Ok ([], 0, 0, 0));
  let '(es, ext_payload_size, ext_padding, ext_size) := sizes in
  let total_size := u64 (header_size + ext_size + payload_len pkt) in
  if buf_len <? total_size then Err else
  b ← rtp_write_fixed h (b2i write_extensions) b;
  cs ← rd_slice (csrc pkt) 0 (Z.min (csrc_count h) RTP_MAX_CSRC);
  bp ← rtp_write_csrcs cs b RTP_HEADER_SIZE;
  let '(b, p) := bp in
  b ← (if write_extensions then
         b ← rtp_write_payload pkt b (p + ext_size);
         b ← write_u16 b p 0xBEDE;
         b ← write_u16 b (p + 2) (u16 ((ext_payload_size + ext_padding) / 4));
         bp ← rtp_write_exts es b (p + 4);
         let '(b, p) := bp in
         if 0 <? ext_padding
         then wr b p (replicate (Z.to_nat ext_padding) 0) else Ok b
       else rtp_write_payload pkt b p);
  Ok (b, s32 total_size).

(** The freed buffer, if any, and the cleared packet. *)
Definition rtp_packet_free (pkt : option rtp_packet_t)
    : option (rtp_packet_t * option (list Z)) :=
  let? pkt := pkt else None in
  Some (rtp_packet_zero,
        if truth (owns_buffer pkt) then buffer pkt else None).

Definition rtp_seq_newer (s1 s2 : Z) : bool := 0 <? s16 (s1 - s2).
Definition rtp_seq_diff (s1 s2 : Z) : Z := s16 (s1 - s2).

Definition rtp_packet_add_extension (pkt : option rtp_packet_t) (id : Z)
    (data : option (list Z)) (l : Z) : res rtp_packet_t :=
  let? pkt := pkt else Err in
  if (id =? 0) || (14 <? id) || (l =? 0) || (16 <? l) then Err else
  if 8 <=? extension_count pkt then Err else
  old ← rd (extensions pkt) (extension_count pkt);
  d ← match data with Some src => rd_slice src 0 l | None => Ok [] end;
  exts ← upd (extensions pkt) (extension_count pkt)
           (Build_rtp_extension_t id l (overwrite (ext_data old) d));
  Ok (Build_rtp_packet_t (set_extension_flag (header pkt) 1) (csrc pkt) exts
        (extension_count pkt + 1) (payload pkt) (payload_len pkt)
        (buffer pkt) (buffer_len pkt) (owns_buffer pkt)).

(** The search loop of [rtp_packet_get_extension]. *)
Fixpoint rtp_find_extension (es : list rtp_extension_t) (id : Z)
    : res (list Z * Z) :=
  match es with
  | [] => Err
  | e :: es => if ext_id e =? id
               then (d ← rd_slice (ext_data e) 0 (ext_length e);
                     Ok (d, ext_length e))
               else rtp_find_extension es id
  end.

(** The bytes copied to [data] and the value of [*len]. *)
Definition rtp_packet_get_extension (pkt : option rtp_packet_t) (id : Z)
    (data : option (list Z)) (l : option Z) : res (list Z * Z) :=
  let? pkt := pkt else Err in
  if id =? 0 then Err else
  let? _ := data else Err in
  let? _ := l else Err in
  es ← rd_slice (extensions pkt) 0 (Z.max 0 (extension_count pkt));
  rtp_find_extension es id.

(* ------------------------------------------------------------------ *)
(** ** Well-formed packets and their wire image *)

Definition rtp_ext_wf (e : rtp_extension_t) : Prop :=
  1 <= ext_id e <= 14 /\ 1 <= ext_length e <= 16 /\
  exists d, bytes d /\ len d = ext_length e /\
            ext_data e = d ++ replicate (16 - length d) 0.

(** [a] is a C array of [n] elements whose first elements are [used] and
    whose other elements still hold the zeroes of [memset]. *)
Definition zero_padded {A} (n : nat) (z : A) (used a : list A) : Prop :=
  (length used <= n)%nat /\ a = used ++ replicate (n - length used) z.

Record rtp_header_wf (h : rtp_header_t) (cc x : Z) : Prop := {
  wf_version : version h = RTP_VERSION;
  wf_padding : padding h = 0;
  wf_extension : extension h = x;
  wf_csrc_count : csrc_count h = cc;
  wf_marker : marker h = 0 \/ marker h = 1;
  wf_payload_type : 0 <= payload_type h < 128;
  wf_sequence : is_u16 (sequence h);
  wf_timestamp : is_u32 (timestamp h);
  wf_ssrc : is_u32 (ssrc h) }.

(** A packet as the API builds it: no padding flag, the extension flag set
    exactly when there are extensions, unused array slots zero. *)
Record rtp_packet_wf (pkt : rtp_packet_t) (cs : list Z)
    (es : list rtp_extension_t) (pl : list Z) : Prop := {
  wf_header : rtp_header_wf (header pkt) (len cs) (b2i (0 <? len es));
  wf_csrc : zero_padded 15 0 cs (csrc pkt) /\ Forall is_u32 cs;
  wf_extensions : zero_padded 8 rtp_extension_zero es (extensions pkt) /\
                  Forall rtp_ext_wf es;
  wf_extension_count : extension_count pkt = len es;
  wf_payload : payload pkt = Some pl /\ payload_len pkt = len pl /\ bytes pl }.

Definition csrc_wire (cs : list Z) : list Z := cs ≫= be32.

Definition ext_wire1 (e : rtp_extension_t) : list Z :=
  u8 (Z.lor (Z.shiftl (ext_id e) 4) (Z.land (ext_length e - 1) 15))
  :: take (Z.to_nat (ext_length e)) (ext_data e).
Definition ext_wire (es : list rtp_extension_t) : list Z := es ≫= ext_wire1.

Arguments csrc_wire : simpl never.
Arguments ext_wire1 : simpl never.
Arguments ext_wire : simpl never.

Definition ext_pad (n : Z) : Z := (4 - n mod 4) mod 4.

(** The header-extension block, empty when there are no extensions. *)
Definition ext_block (es : list rtp_extension_t) : list Z :=
  if 0 <? len es then
    be16 0xBEDE ++
    be16 (u16 ((len (ext_wire es) + ext_pad (len (ext_wire es))) / 4)) ++
    ext_wire es ++ replicate (Z.to_nat (ext_pad (len (ext_wire es)))) 0
  else [].

Definition rtp_fixed (h : rtp_header_t) (x : Z) : list Z :=
  [rtp_byte0 (version h) (padding h) x (csrc_count h)] ++
  [rtp_byte1 (marker h) (payload_type h)] ++
  be16 (sequence h) ++ be32 (timestamp h) ++ be32 (ssrc h).

Definition rtp_wire (h : rtp_header_t) (cs : list Z)
    (es : list rtp_extension_t) (pl : list Z) : list Z :=
  rtp_fixed h (b2i (0 <? len es)) ++ csrc_wire cs ++ ext_block es ++ pl.

(* ------------------------------------------------------------------ *)
(** ** Lemmas *)

Lemma len_rtp_fixed h x : len (rtp_fixed h x) = 12.
Proof. done. Qed.

Lemma len_csrc_wire cs : len (csrc_wire cs) = 4 * len cs.
Proof.
  induction cs as [|c cs IH]; [done|].
  change (csrc_wire (c :: cs)) with (be32 c ++ csrc_wire cs). len_lia.
Qed.

Lemma len_ext_wire1 e : rtp_ext_wf e -> len (ext_wire1 e) = 1 + ext_length e.
Proof.
  intros (_ & Hl & d & _ & Hd & He). unfold ext_wire1. rewrite He. len_lia.
Qed.

Lemma ext_byte_fields id l :
  1 <= id <= 14 -> 1 <= l <= 16 ->
  let x := u8 (Z.lor (Z.shiftl id 4) (Z.land (l - 1) 15)) in
  is_u8 x /\ u8 (Z.shiftr x 4) = id /\ u8 (Z.land x 15 + 1) = l.
Proof.
  intros Hi Hl x. assert (Hx : x = 16 * id + (l - 1)).
  { unfold x. rewrite land15, lor_shiftl_add by zmod_lia.
    unfold u8. zmod_lia. }
  rewrite Hx. bits_to_arith. unfold is_u8, u8. zmod_lia.
Qed.

Lemma csrc_wire_nil : csrc_wire [] = [].
Proof. done. Qed.
Lemma ext_wire_nil : ext_wire [] = [].
Proof. done. Qed.
Lemma csrc_wire_cons c cs : csrc_wire (c :: cs) = be32 c ++ csrc_wire cs.
Proof. done. Qed.
Lemma ext_wire_cons e es : ext_wire (e :: es) = ext_wire1 e ++ ext_wire es.
Proof. done. Qed.

Lemma ext_payload_size_spec es acc :
  Forall rtp_ext_wf es ->
  rtp_ext_payload_size es acc = Ok (acc + len (ext_wire es)).
Proof.
  intros Hes. revert acc.
  induction Hes as [|e es He _ IH]; intros acc; cbn [rtp_ext_payload_size].
  { rewrite ext_wire_nil. f_equal. len_lia. }
  pose proof He as (Hi & Hl & _).
  replace ((ext_id e =? 0) || (14 <? ext_id e) || (ext_length e =? 0)
           || (16 <? ext_length e)) with false by lia.
  rewrite IH, ext_wire_cons, len_app, len_ext_wire1 by done. f_equal. lia.
Qed.

Lemma write_csrcs_spec cs pre rest :
  4 * len cs <= len rest ->
  rtp_write_csrcs cs (pre ++ rest) (len pre) =
  Ok ((pre ++ csrc_wire cs) ++ drop (length (csrc_wire cs)) rest,
      len pre + 4 * len cs).
Proof.
  revert pre rest. induction cs as [|c cs IH]; intros pre rest Hl; cbn [rtp_write_csrcs].
  { rewrite csrc_wire_nil, app_nil_r. do 2 f_equal. len_lia. }
  unfold write_u32. rewrite wr_next by len_lia. cbn [mbind res_bind].
  replace (len pre + 4) with (len (pre ++ be32 c)) by len_lia.
  rewrite IH by (len_lia).
  rewrite drop_drop, csrc_wire_cons.
  rewrite <- !app_assoc. do 2 f_equal. len_lia.
Qed.

Lemma write_exts_spec es pre rest :
  Forall rtp_ext_wf es -> len (ext_wire es) <= len rest ->
  rtp_write_exts es (pre ++ rest) (len pre) =
  Ok ((pre ++ ext_wire es) ++ drop (length (ext_wire es)) rest,
      len pre + len (ext_wire es)).
Proof.
  intros Hes. revert pre rest.
  induction Hes as [|e es He _ IH]; intros pre rest Hl; cbn [rtp_write_exts].
  { rewrite ext_wire_nil, app_nil_r. do 2 f_equal. len_lia. }
  rewrite ext_wire_cons, len_app in Hl.
  pose proof (len_ext_wire1 e He) as Hw. pose proof He as (_ & Hn & d & _ & Hd & Hde).
  assert (Hs : rd_slice (ext_data e) 0 (ext_length e) = Ok d).
  { rewrite Hde. by apply (rd_slice_mid []). }
  assert (Hw1 : ext_wire1 e =
    [u8 (Z.lor (Z.shiftl (ext_id e) 4) (Z.land (ext_length e - 1) 15))] ++ d).
  { unfold ext_wire1. simpl. f_equal. rewrite Hde, <- Hd, len_to_nat.
    by rewrite take_app_length. }
  rewrite wr_next by len_lia. cbn [mbind res_bind]. rewrite Hs. cbn [mbind res_bind].
  set (x := u8 _) in *.
  replace (len pre + 1) with (len (pre ++ [x])) by len_lia.
  rewrite wr_next; [|done|len_lia].
  cbn [mbind res_bind].
  replace (len (pre ++ [x]) + ext_length e) with (len ((pre ++ [x]) ++ d))
    by len_lia.
  rewrite IH.
  - assert (Hld : length (ext_wire1 e) = S (length d)) by (by rewrite Hw1).
    rewrite !drop_drop, ext_wire_cons. apply Ok_pair.
    + rewrite (length_app (ext_wire1 e)), Hld, Hw1, <- !app_assoc. done.
    + rewrite Hw1. len_lia.
  - rewrite drop_drop. change (length [x]) with 1%nat.
    len_lia.
Qed.

Lemma write_fixed_spec h x b :
  12 <= len b -> rtp_write_fixed h x b = Ok (rtp_fixed h x ++ drop 12 b).
Proof.
  intros Hb. unfold rtp_write_fixed, write_u16, write_u32.
  rewrite wr_front by len_lia. cbn [mbind res_bind].
  do 4 (rewrite wr_next; [cbn [mbind res_bind]|done|len_lia]).
  by rewrite !drop_drop.
Qed.

Lemma write_payload_spec pkt pl pre rest k :
  payload pkt = Some pl -> payload_len pkt = len pl ->
  0 <= k -> k + len pl <= len rest ->
  rtp_write_payload pkt (pre ++ rest) (len pre + k) =
  Ok (pre ++ take (Z.to_nat k) rest ++ pl ++
      drop (Z.to_nat k + length pl) rest).
Proof.
  intros Hp Hl Hk Hr. unfold rtp_write_payload. rewrite Hp, Hl.
  destruct (Z.ltb_spec 0 (len pl)).
  - rewrite rd_slice_all by done.
    cbn [mbind res_bind]. by rewrite wr_off by done.
  - destruct pl; [|len_lia]. simpl. rewrite Nat.add_0_r.
    by rewrite take_drop.
Qed.

Lemma zero_padded_slice {A} n z (used a : list A) m :
  zero_padded n z used a -> m = len used -> rd_slice a 0 m = Ok used.
Proof. intros [_ ->] ->. by apply (rd_slice_mid []). Qed.

Lemma ext_pad_spec n : 0 <= n -> 0 <= ext_pad n < 4 /\ (n + ext_pad n) mod 4 = 0.
Proof. unfold ext_pad. zmod_lia. Qed.

(** The block of a non-empty list of extensions. *)
Lemma len_ext_block es :
  0 < len es ->
  len (ext_block es) = 4 + len (ext_wire es) + ext_pad (len (ext_wire es)).
Proof.
  intros. unfold ext_block. replace (0 <? len es) with true by lia.
  pose proof (ext_pad_spec (len (ext_wire es))). len_lia.
Qed.

Lemma ext_block_nil : ext_block [] = [].
Proof. done. Qed.

(** What the serializer does after the fixed header and the CSRC list. *)
Lemma write_tail_spec es s pad pre rest :
  Forall rtp_ext_wf es -> s = len (ext_wire es) -> pad = ext_pad s ->
  4 + s + pad <= len rest ->
  (b ← write_u16 (pre ++ rest) (len pre) 0xBEDE;
   b ← write_u16 b (len pre + 2) (u16 ((s + pad) / 4));
   bp ← rtp_write_exts es b (len pre + 4);
   let '(b, p) := bp in
   if 0 <? pad then wr b p (replicate (Z.to_nat pad) 0) else Ok b)
  = Ok (pre ++ be16 0xBEDE ++ be16 (u16 ((s + pad) / 4)) ++ ext_wire es ++
        replicate (Z.to_nat pad) 0 ++ drop (Z.to_nat (4 + s + pad)) rest).
Proof.
  intros Hes Hs Hp Hr.
  pose proof (ext_pad_spec s ltac:(subst; apply len_nonneg)) as [Hpad _].
  rewrite <- Hp in Hpad. clear Hp. unfold write_u16.
  remember (be16 0xBEDE) as w1 eqn:E1. remember (be16 (u16 _)) as w2 eqn:E2.
  assert (L1 : length w1 = 2%nat) by (subst; done).
  assert (L2 : length w2 = 2%nat) by (subst; done). clear E1 E2.
  rewrite wr_next by len_lia. cbn [mbind res_bind].
  replace (len pre + 2) with (len (pre ++ w1)) by len_lia.
  rewrite wr_next; [|done|len_lia]. cbn [mbind res_bind].
  replace (len pre + 4) with (len ((pre ++ w1) ++ w2)) by len_lia.
  rewrite write_exts_spec; [|done|len_lia]. cbn [mbind res_bind].
  rewrite <- len_app. destruct (Z.ltb_spec 0 pad).
  - rewrite wr_next; [|done|len_lia].
    f_equal. rewrite !drop_drop, <- !app_assoc. do 5 f_equal.
    f_equal. len_lia.
  - replace pad with 0 by lia. f_equal. rewrite !drop_drop, <- !app_assoc.
    simpl. do 4 f_equal. f_equal. len_lia.
Qed.

Lemma len_rtp_wire h cs es pl :
  len (rtp_wire h cs es pl) = 12 + 4 * len cs + len (ext_block es) + len pl.
Proof.
  unfold rtp_wire. rewrite !len_app, len_rtp_fixed, len_csrc_wire. lia.
Qed.

(** The serializer writes exactly the wire image at the front of the buffer
    and leaves the rest of the buffer alone. *)
Lemma serialize_spec pkt cs es pl b :
  rtp_packet_wf pkt cs es pl ->
  len (rtp_wire (header pkt) cs es pl) <= len b ->
  len (rtp_wire (header pkt) cs es pl) < 2147483648 ->
  rtp_packet_serialize (Some pkt) (Some b) (len b) =
  Ok (rtp_wire (header pkt) cs es pl ++
      drop (length (rtp_wire (header pkt) cs es pl)) b,
      len (rtp_wire (header pkt) cs es pl)).
Proof.
  intros [[] [Hc _] [He Hes] Hec (Hpl & Hpn & _)].
  set (w := rtp_wire _ _ _ _). intros Hb H31.
  pose proof (len_rtp_wire (header pkt) cs es pl) as Hw. fold w in Hw.
  pose proof Hc as [Hcl _]. pose proof (len_nonneg es). pose proof (len_nonneg w).
  unfold rtp_packet_serialize. rewrite wf_csrc_count0, Hec, Hpn.
  assert (Hcs : rd_slice (csrc pkt) 0 (Z.min (len cs) RTP_MAX_CSRC) = Ok cs).
  { eapply zero_padded_slice; [done|]. unfold RTP_MAX_CSRC. len_lia. }
  unfold RTP_HEADER_SIZE in *.
  destruct (Z.ltb_spec 0 (len es)) as [Hne|Hne].
  - rewrite (zero_padded_slice _ _ _ _ _ He) by done. cbn [mbind res_bind].
    rewrite ext_payload_size_spec by done. cbn [mbind res_bind]. rewrite Z.add_0_l.
    fold (ext_pad (len (ext_wire es))).
    pose proof (len_ext_block es Hne) as Hbl.
    pose proof (ext_pad_spec (len (ext_wire es)) (len_nonneg _)) as [Hpd _].
    set (s := len (ext_wire es)) in *. set (pad := ext_pad s) in *.
    rewrite u64_id by (unfold is_u64; len_lia).
    replace (12 + len cs * 4 + (4 + s + pad) + len pl) with (len w) by lia.
    replace (len b <? len w) with false by lia.
    rewrite write_fixed_spec by len_lia. cbn [mbind res_bind]. rewrite Hcs.
    cbn [mbind res_bind]. change 12 with (len (rtp_fixed (header pkt) (b2i true))).
    rewrite write_csrcs_spec by len_lia. cbn [mbind res_bind].
    pose proof (len_csrc_wire cs) as Hcw. rewrite <- Hcw, <- len_app.
    rewrite (write_payload_spec pkt pl) by (done || len_lia). cbn [mbind res_bind].
    rewrite (write_tail_spec es s pad) by (done || len_lia). cbn [mbind res_bind].
    apply Ok_pair; [|rewrite s32_id; lia].
    rewrite drop_app_length' by len_lia. rewrite !drop_drop.
    replace (length w) with
      (12 + (length (csrc_wire cs) + (Z.to_nat (4 + s + pad) + length pl)))%nat
      by len_lia.
    unfold w, rtp_wire, ext_block. replace (0 <? len es) with true by lia.
    fold s pad. by rewrite <- !app_assoc.
  - assert (es = []) as -> by (destruct es; [done|len_lia]).
    cbn [mbind res_bind]. rewrite Z.add_0_r.
    rewrite u64_id by (unfold is_u64; len_lia).
    rewrite ext_block_nil, len_nil in Hw.
    replace (12 + len cs * 4 + len pl) with (len w) by lia.
    replace (len b <? len w) with false by lia.
    rewrite write_fixed_spec by len_lia. cbn [mbind res_bind]. rewrite Hcs.
    cbn [mbind res_bind]. change 12 with (len (rtp_fixed (header pkt) (b2i false))).
    rewrite write_csrcs_spec by len_lia. cbn [mbind res_bind].
    rewrite <- len_csrc_wire, <- len_app, <- (Z.add_0_r (len (_ ++ _))).
    pose proof (len_csrc_wire cs) as Hcw.
    rewrite (write_payload_spec pkt pl) by (done || len_lia). cbn [mbind res_bind].
    apply Ok_pair; [|rewrite s32_id; lia].
    rewrite !drop_drop. change (Z.to_nat 0) with 0%nat.
    rewrite take_0, app_nil_l, Nat.add_0_l.
    replace (length w) with (12 + (length (csrc_wire cs) + length pl))%nat by len_lia.
    unfold w, rtp_wire. by rewrite ext_block_nil, <- !app_assoc.
Qed.

Lemma byte0_fields x cc :
  x = 0 \/ x = 1 -> 0 <= cc <= 15 ->
  let b := rtp_byte0 2 0 x cc in
  is_u8 b /\ Z.land (Z.shiftr b 6) 3 = 2 /\ Z.land (Z.shiftr b 5) 1 = 0 /\
  Z.land (Z.shiftr b 4) 1 = x /\ Z.land b 15 = cc.
Proof.
  intros Hx Hc b. assert (Hb : b = 128 + 16 * x + cc).
  { unfold b, rtp_byte0. rewrite land15, Z.mod_small by lia.
    change (Z.lor (Z.shiftl 2 6) (Z.shiftl 0 5)) with (Z.shiftl 8 4).
    rewrite <- Z.shiftl_lor, (lor_shiftl_add _ cc 4) by lia.
    replace (Z.lor 8 x) with (8 + x) by (destruct Hx as [-> | ->]; done).
    rewrite u8_id; unfold is_u8; lia. }
  rewrite Hb. bits_to_arith. unfold is_u8. destruct Hx as [-> | ->]; zmod_lia.
Qed.

Lemma byte1_fields m pt :
  m = 0 \/ m = 1 -> 0 <= pt < 128 ->
  let b := rtp_byte1 m pt in
  is_u8 b /\ Z.land (Z.shiftr b 7) 1 = m /\ Z.land b 127 = pt.
Proof.
  intros Hm Hp b. assert (Hb : b = 128 * m + pt).
  { unfold b, rtp_byte1. rewrite land127, Z.mod_small, lor_shiftl_add by lia.
    rewrite u8_id; destruct Hm as [-> | ->]; unfold is_u8; lia. }
  rewrite Hb. bits_to_arith. unfold is_u8. destruct Hm as [-> | ->]; zmod_lia.
Qed.

Lemma read_csrcs_spec cs pre post :
  Forall is_u32 cs ->
  rtp_read_csrcs (pre ++ csrc_wire cs ++ post) (len pre) (length cs) = Ok cs.
Proof.
  intros Hcs. revert pre. induction Hcs as [|c cs Hc _ IH]; intros pre; [done|].
  cbn [rtp_read_csrcs length]. rewrite csrc_wire_cons, <- app_assoc.
  rewrite read_u32_mid by done. cbn [mbind res_bind].
  replace (len pre + 4) with (len (pre ++ be32 c)) by len_lia.
  by rewrite (app_assoc pre), IH.
Qed.

Lemma parse_csrc_block_spec cs pre post n :
  Forall is_u32 cs -> (length cs <= 15)%nat -> len pre + 4 * len cs <= n ->
  rtp_parse_csrc_block (pre ++ csrc_wire cs ++ post) n (len pre) (len cs)
  = Ok (len pre + len cs * 4, cs ++ replicate (15 - length cs) 0).
Proof.
  intros Hcs H15 Hn. unfold rtp_parse_csrc_block, RTP_MAX_CSRC.
  destruct (Z.ltb_spec 0 (len cs)).
  - replace (n <? len pre + len cs * 4) with false by lia.
    replace (Z.to_nat (len cs `min` 15)) with (length cs) by len_lia.
    rewrite read_csrcs_spec by done. cbn [mbind res_bind].
    unfold overwrite. by rewrite drop_replicate.
  - destruct cs; [|len_lia]. apply Ok_pair; [len_lia|done].
Qed.

Lemma parse_exts_padding n fuel pre post exts count :
  (n < fuel)%nat ->
  rtp_parse_exts fuel (pre ++ replicate n 0 ++ post) (len pre)
    (len pre + Z.of_nat n) exts count = Ok (exts, count).
Proof.
  revert fuel pre. induction n as [|n IH]; intros [|fuel] pre Hf; [lia| |lia|];
    cbn [rtp_parse_exts].
  { change (Z.of_nat 0) with 0. by rewrite Z.add_0_r, Z.ltb_irrefl. }
  replace (len pre <? len pre + Z.of_nat (S n)) with true by lia.
  cbn [replicate app]. rewrite rd_mid by done. cbn [mbind res_bind].
  change (u8 (Z.shiftr 0 4) =? 0) with true. cbn iota.
  rewrite (cons_middle 0), app_assoc.
  replace (len pre + 1) with (len (pre ++ [0])) by len_lia.
  replace (len pre + Z.of_nat (S n)) with (len (pre ++ [0]) + Z.of_nat n)
    by len_lia.
  apply IH. lia.
Qed.

Definition ext_slots (es : list rtp_extension_t) : list rtp_extension_t :=
  es ++ replicate (8 - length es) rtp_extension_zero.

Lemma parse_exts_spec es fuel pre n post used :
  Forall rtp_ext_wf es -> (length used + length es <= 8)%nat ->
  len (ext_wire es) + Z.of_nat n < Z.of_nat fuel ->
  rtp_parse_exts fuel (pre ++ ext_wire es ++ replicate n 0 ++ post) (len pre)
    (len pre + len (ext_wire es) + Z.of_nat n) (ext_slots used) (len used)
  = Ok (ext_slots (used ++ es), len (used ++ es)).
Proof.
  intros Hes. revert fuel pre used.
  induction Hes as [|e es He _ IH]; intros fuel pre used H8 Hf.
  { change (ext_wire []) with (@nil Z) in *. rewrite len_nil in *.
    rewrite app_nil_r, Z.add_0_r. apply parse_exts_padding. lia. }
  destruct fuel as [|fuel]; [len_lia|]. cbn [rtp_parse_exts].
  rewrite ext_wire_cons, len_app in *. pose proof (len_ext_wire1 e He) as Hw.
  destruct He as (Hi & Hl & d & Hb & Hd & Hde).
  destruct (ext_byte_fields _ _ Hi Hl) as (_ & Hid & Hlen).
  assert (Hw1 : ext_wire1 e =
    u8 (Z.lor (Z.shiftl (ext_id e) 4) (Z.land (ext_length e - 1) 15)) :: d).
  { unfold ext_wire1. f_equal.
    by rewrite Hde, <- Hd, len_to_nat, take_app_length. }
  set (x := u8 (Z.lor _ _)) in *.
  replace (len pre <? _) with true by len_lia.
  rewrite Hw1, <- !app_comm_cons, <- !app_assoc, rd_mid by done. cbn [mbind res_bind].
  rewrite Hid, Hlen.
  replace (ext_id e =? 0) with false by lia.
  replace (ext_id e =? 15) with false by lia.
  replace (_ <? len pre + 1 + ext_length e) with false by len_lia.
  replace (len used <? 8) with true by len_lia.
  assert (Hsl : ext_slots used = used ++ rtp_extension_zero ::
    replicate (8 - length (used ++ [e])) rtp_extension_zero).
  { unfold ext_slots. cbn [length] in H8. f_equal.
    replace (8 - length used)%nat with (S (8 - length (used ++ [e])))
      by len_lia. done. }
  rewrite Hsl, rd_mid by done. cbn [mbind res_bind].
  rewrite (cons_middle x), (app_assoc pre), (rd_slice_mid (pre ++ [x])) by len_lia.
  cbn [mbind res_bind]. rewrite upd_mid by done. cbn [mbind res_bind].
  assert (He : Build_rtp_extension_t (ext_id e) (ext_length e)
                 (overwrite (ext_data rtp_extension_zero) d) = e).
  { destruct e as [i l dd]. cbn [ext_id ext_length ext_data] in *. f_equal.
    rewrite Hde. unfold overwrite.
    change (ext_data rtp_extension_zero) with (replicate 16 0).
    by rewrite drop_replicate. }
  rewrite He, (app_assoc (pre ++ [x])), (cons_middle e), (app_assoc used).
  fold (ext_slots (used ++ [e])).
  replace (len used + 1) with (len (used ++ [e])) by len_lia.
  replace (len pre + 1 + ext_length e) with (len ((pre ++ [x]) ++ d)) by len_lia.
  replace (len pre + (len (x :: d) + len (ext_wire es)) + Z.of_nat n) with
    (len ((pre ++ [x]) ++ d) + len (ext_wire es) + Z.of_nat n) by len_lia.
  rewrite IH by len_lia. by rewrite <- (app_assoc used).
Qed.

Lemma len_ext_wire_le es : Forall rtp_ext_wf es -> len (ext_wire es) <= 17 * len es.
Proof.
  induction 1 as [|e es He _ IH]; [done|].
  rewrite ext_wire_cons, len_app, len_ext_wire1 by done.
  destruct He as (_ & ? & _). len_lia.
Qed.

Lemma parse_ext_block_spec es pre post n :
  Forall rtp_ext_wf es -> (length es <= 8)%nat ->
  len pre + len (ext_block es) <= n ->
  rtp_parse_ext_block (pre ++ ext_block es ++ post) n (len pre)
    (b2i (0 <? len es))
  = Ok (len pre + len (ext_block es), (ext_slots es, len es)).
Proof.
  intros Hes H8 Hn. unfold rtp_parse_ext_block.
  destruct (Z.ltb_spec 0 (len es)) as [Hne|Hne].
  2: { assert (es = []) as -> by (destruct es; [done|len_lia]).
       rewrite ext_block_nil. change (len (@nil Z)) with 0. by rewrite Z.add_0_r. }
  cbn [b2i truth negb Z.eqb fst snd]. pose proof (len_ext_block es Hne) as Hbl.
  pose proof (len_ext_wire_le es Hes).
  pose proof (ext_pad_spec (len (ext_wire es)) (len_nonneg _)) as [Hpd Hmod].
  assert (Hb : ext_block es = be16 0xBEDE ++
    be16 (u16 ((len (ext_wire es) + ext_pad (len (ext_wire es))) / 4)) ++
    ext_wire es ++ replicate (Z.to_nat (ext_pad (len (ext_wire es)))) 0).
  { unfold ext_block. by replace (0 <? len es) with true by lia. }
  set (s := len (ext_wire es)) in *. set (pad := ext_pad s) in *.
  assert (Hs : 0 <= s) by apply len_nonneg. assert (len es <= 8) by len_lia.
  assert (Hq : is_u16 ((s + pad) / 4)) by (unfold is_u16; zmod_lia).
  rewrite (u16_id _ Hq) in Hb. remember ((s + pad) / 4) as q eqn:Eq.
  assert (H4 : 4 + q * 4 = len (ext_block es)) by (rewrite Hbl; subst q; zmod_lia).
  set (pre' := (pre ++ be16 0xBEDE) ++ be16 q).
  assert (E1 : read_u16 (pre ++ ext_block es ++ post) (len pre) = Ok 0xBEDE).
  { rewrite Hb, <- app_assoc. by apply read_u16_mid. }
  assert (E2 : read_u16 (pre ++ ext_block es ++ post) (len pre + 2) = Ok q).
  { rewrite Hb, <- !app_assoc, (app_assoc pre). apply read_u16_mid; [done|len_lia]. }
  assert (E3 : pre ++ ext_block es ++ post =
    pre' ++ ext_wire es ++ replicate (Z.to_nat pad) 0 ++ post).
  { unfold pre'. by rewrite Hb, <- !app_assoc. }
  rewrite E1, E2. cbn [mbind res_bind]. rewrite H4.
  replace (n <? len pre + 4) with false by lia.
  replace (n <? len pre + len (ext_block es)) with false by lia.
  cbn [Z.eqb Pos.eqb]. rewrite E3.
  replace (len pre + 4) with (len pre') by (unfold pre'; len_lia).
  replace (len pre + len (ext_block es)) with
    (len pre' + len (ext_wire es) + Z.of_nat (Z.to_nat pad))
    by (unfold pre'; len_lia).
  change (replicate 8 rtp_extension_zero) with (ext_slots []).
  rewrite (parse_exts_spec es _ _ _ _ []);
    [done|done|cbn [length]; lia|rewrite Hbl; fold s; lia].
Qed.

(** The five fixed fields as the parser reads them. *)
Lemma fixed_reads h x t :
  is_u16 (sequence h) -> is_u32 (timestamp h) -> is_u32 (ssrc h) ->
  let b := rtp_fixed h x ++ t in
  rd b 0 = Ok (rtp_byte0 (version h) (padding h) x (csrc_count h)) /\
  rd b 1 = Ok (rtp_byte1 (marker h) (payload_type h)) /\
  read_u16 b 2 = Ok (sequence h) /\ read_u32 b 4 = Ok (timestamp h) /\
  read_u32 b 8 = Ok (ssrc h).
Proof.
  intros Hs Ht Hr b. set (b0 := rtp_byte0 _ _ _ _). set (b1 := rtp_byte1 _ _).
  split_and!; [done|done|..].
  - by apply (read_u16_mid [b0; b1]).
  - by apply (read_u32_mid ([b0; b1] ++ be16 (sequence h))).
  - by apply (read_u32_mid (([b0; b1] ++ be16 (sequence h)) ++ be32 (timestamp h))).
Qed.

Lemma parse_spec h cs es pl post pkt0 n :
  rtp_header_wf h (len cs) (b2i (0 <? len es)) ->
  Forall is_u32 cs -> (length cs <= 15)%nat ->
  Forall rtp_ext_wf es -> (length es <= 8)%nat ->
  n = len (rtp_wire h cs es pl) ->
  rtp_packet_parse (Some pkt0) (Some (rtp_wire h cs es pl ++ post)) n =
  Ok (Build_rtp_packet_t h (cs ++ replicate (15 - length cs) 0) (ext_slots es)
        (len es) (Some pl) (len pl) (Some (rtp_wire h cs es pl ++ post)) n 0).
Proof.
  intros [] Hcs H15 Hes H8 ->. set (x := b2i (0 <? len es)) in *.
  pose proof (len_rtp_wire h cs es pl) as Hw. set (w := rtp_wire h cs es pl) in *.
  pose proof (len_nonneg (ext_block es)). pose proof (len_nonneg pl).
  assert (Hbuf : w ++ post = rtp_fixed h x ++ csrc_wire cs ++ ext_block es ++ pl ++ post)
    by (unfold w, rtp_wire; by rewrite <- !app_assoc).
  destruct (fixed_reads h x (csrc_wire cs ++ ext_block es ++ pl ++ post))
    as (R0 & R1 & R2 & R3 & R4); [done..|].
  rewrite <- Hbuf in R0, R1, R2, R3, R4.
  rewrite wf_version0, wf_padding0, wf_csrc_count0 in R0.
  assert (Hx : x = 0 \/ x = 1) by (unfold x; destruct (0 <? len es); auto).
  destruct (byte0_fields x (len cs) Hx ltac:(len_lia)) as (_ & B1 & B2 & B3 & B4).
  destruct (byte1_fields _ _ wf_marker0 wf_payload_type0) as (_ & B5 & B6).
  unfold rtp_packet_parse, RTP_HEADER_SIZE, RTP_VERSION, RTP_MAX_CSRC in *.
  replace (len w <? 12) with false by len_lia.
  rewrite R0. cbn [mbind res_bind]. rewrite B1, B2, B3, B4. cbn [Z.eqb Pos.eqb negb].
  rewrite R1. cbn [mbind res_bind]. rewrite R2. cbn [mbind res_bind].
  rewrite R3. cbn [mbind res_bind]. rewrite R4. cbn [mbind res_bind]. rewrite B5, B6.
  set (hdr := Build_rtp_header_t _ _ _ _ _ _ _ _ _).
  assert (Hh : hdr = h).
  { unfold hdr. destruct h. cbn in *. by subst. }
  clearbody hdr. subst hdr.
  rewrite Hbuf at 1. change 12 with (len (rtp_fixed h x)) at 1.
  rewrite parse_csrc_block_spec by (done || (rewrite len_rtp_fixed; lia)). rewrite len_rtp_fixed.
  cbn [mbind res_bind].
  set (pre := rtp_fixed h x ++ csrc_wire cs).
  assert (Hp : len pre = 12 + len cs * 4)
    by (unfold pre; rewrite len_app, len_rtp_fixed, len_csrc_wire; lia).
  assert (Hbuf' : w ++ post = pre ++ ext_block es ++ pl ++ post)
    by (rewrite Hbuf; unfold pre; by rewrite <- !app_assoc).
  assert (Hblk : rtp_parse_ext_block (w ++ post) (len w) (12 + len cs * 4) x =
    Ok (12 + len cs * 4 + len (ext_block es), (ext_slots es, len es))).
  { rewrite Hbuf', <- Hp. apply parse_ext_block_spec; [done..|len_lia]. }
  rewrite Hblk. cbn [mbind res_bind andb truth negb Z.eqb].
  replace (len w - (12 + len cs * 4 + len (ext_block es))) with (len pl) by lia.
  rewrite Hbuf', (app_assoc pre), rd_slice_mid by len_lia. done.
Qed.

(** *** Memory safety of the parser *)

Lemma read_csrcs_no_fault b off n :
  0 <= off -> off + 4 * Z.of_nat n <= len b -> no_fault (rtp_read_csrcs b off n).
Proof.
  revert off. induction n as [|n IH]; intros off H0 Hn; [done|].
  cbn [rtp_read_csrcs]. repeat safe_step; try lia. apply IH; lia.
Qed.

Lemma land15_range z : 0 <= Z.land z 15 <= 15.
Proof. rewrite land15. zmod_lia. Qed.

Lemma read_u16_range b i v : read_u16 b i = Ok v -> is_u16 v.
Proof.
  unfold read_u16. intros (x & _ & (y & _ & [= <-])%bind_Ok)%bind_Ok.
  apply u16_range.
Qed.

Lemma parse_exts_no_fault fuel b p e exts count :
  0 <= p -> e <= len b -> len exts = 8 -> 0 <= count ->
  (0 < fuel)%nat -> e - p < Z.of_nat fuel ->
  no_fault (rtp_parse_exts fuel b p e exts count).
Proof.
  revert p exts count.
  induction fuel as [|fuel IH]; intros p exts count Hp He Hx Hc Hf Hn; [lia|].
  cbn [rtp_parse_exts]. safe_step; [|done].
  safe_step; [apply rd_no_fault; lia|].
  set (l := u8 (Z.land a 15 + 1)).
  assert (Hl : 0 <= l) by apply u8_range.
  safe_step; [apply IH; lia|]. safe_step; [done|]. safe_step; [done|].
  safe_step; [|apply IH; lia].
  safe_step; [apply rd_no_fault; lia|]. safe_step; [apply rd_slice_no_fault; lia|].
  rewrite upd_Ok by lia. cbn [mbind res_bind].
  apply IH; rewrite ?len_insert; lia.
Qed.

Lemma parse_exts_count fuel b p e exts count r :
  0 <= count <= 8 -> rtp_parse_exts fuel b p e exts count = Ok r ->
  0 <= r.2 <= 8.
Proof.
  revert p exts count. induction fuel as [|fuel IH]; intros p exts count Hc; [done|].
  cbn [rtp_parse_exts]. case_match; [|by intros [= <-]].
  intros (x & _ & Hr)%bind_Ok. revert Hr.
  case_match; [by apply IH|]. case_match; [by intros [= <-]|].
  case_match; [done|]. case_match; [|by apply IH].
  intros (? & _ & (? & _ & (? & _ & Hr)%bind_Ok)%bind_Ok)%bind_Ok.
  eapply IH, Hr. lia.
Qed.

Lemma parse_ext_block_no_fault b n hs x :
  n = len b -> 0 <= hs <= n ->
  no_fault (rtp_parse_ext_block b n hs x).
Proof.
  intros -> Hhs. unfold rtp_parse_ext_block. safe_step; [|done].
  safe_step; [done|]. safe_step; [apply read_u16_no_fault; lia|].
  safe_step; [apply read_u16_no_fault; lia|].
  apply read_u16_range in H0. unfold is_u16 in H0. safe_step; [done|].
  safe_step; [|done]. safe_step; [|done].
  cbn [fst snd]. apply parse_exts_no_fault; rewrite ?len_replicate; lia.
Qed.

Lemma parse_ext_block_size b n hs x hs' r :
  0 <= hs <= n -> rtp_parse_ext_block b n hs x = Ok (hs', r) ->
  hs <= hs' <= n /\ 0 <= r.2 <= 8.
Proof.
  intros Hhs. unfold rtp_parse_ext_block. case_match; [|intros [= <- <-]; simpl; lia].
  case_match; [done|]. intros (p & _ & (l & Hl & Hr)%bind_Ok)%bind_Ok.
  apply read_u16_range in Hl. unfold is_u16 in Hl.
  revert Hr. case_match; [done|]. intros Hr. apply bind_Ok in Hr as (e & He & [= <- <-]). split; [lia|].
  destruct (p =? 0xBEDE); [by eapply parse_exts_count; [|done]|].
  injection He as <-. simpl. lia.
Qed.

Lemma parse_csrc_block_size b n hs cc hs' cs :
  hs <= n -> rtp_parse_csrc_block b n hs cc = Ok (hs', cs) -> hs <= hs' <= n.
Proof.
  unfold rtp_parse_csrc_block. intros ?. case_match; [|intros [= <- _]; lia].
  case_match; [done|]. intros (? & _ & [= <- _])%bind_Ok. lia.
Qed.

(* ------------------------------------------------------------------ *)
(** ** Properties *)

(** C1: a well-formed packet survives the wire.  Serializing it into any
    buffer that is large enough succeeds, touches only the first
    [total_size] bytes, returns that size, and parsing the bytes gives back
    the header, the CSRC list, every header extension and the payload. *)
Theorem rtp_serialize_parse_roundtrip pkt cs es pl b pkt0 :
  rtp_packet_wf pkt cs es pl ->
  len (rtp_wire (header pkt) cs es pl) <= len b ->
  len b < 2147483648 ->
  exists out size pkt',
    rtp_packet_serialize (Some pkt) (Some b) (len b) = Ok (out, size) /\
    len out = len b /\ drop (Z.to_nat size) out = drop (Z.to_nat size) b /\
    rtp_packet_parse (Some pkt0) (Some out) size = Ok pkt' /\
    header pkt' = header pkt /\ csrc pkt' = csrc pkt /\
    extensions pkt' = extensions pkt /\
    extension_count pkt' = extension_count pkt /\
    payload pkt' = payload pkt /\ payload_len pkt' = payload_len pkt.
Proof.
  intros Hwf Hb H31. pose proof (serialize_spec pkt cs es pl b Hwf Hb ltac:(lia)).
  destruct Hwf as [Hh [[H15 Hc] Hcs] [[H8 He] Hes] Hn (Hp & Hpl & _)].
  do 3 eexists. split; [done|]. split; [len_lia|].
  split; [by rewrite len_to_nat, drop_app_length|].
  split; [by apply parse_spec|]. cbn. rewrite Hc, He, Hn, Hp, Hpl. done.
Qed.

(** The header the builder makes. *)
Definition built_header (pt seq ts ss mark : Z) : rtp_header_t :=
  Build_rtp_header_t RTP_VERSION 0 0 0 (b2i (truth mark)) (Z.land pt 127) seq ts ss.

(** The builder writes the wire image of its arguments at the front of the
    buffer; the payload is the first [n] bytes at the payload pointer. *)
Lemma build_spec pkt pt seq ts ss mark d n b :
  0 <= n <= len d -> 12 + n <= len b -> len b < 2147483648 ->
  exists pkt1, rtp_packet_build (Some pkt) pt seq ts ss mark (Some d) n (Some b) (len b) =
      Ok (pkt1, rtp_wire (built_header pt seq ts ss mark) [] [] (take (Z.to_nat n) d) ++
                drop (12 + Z.to_nat n) b, 12 + n) /\
    header pkt1 = built_header pt seq ts ss mark /\
    payload pkt1 = Some (take (Z.to_nat n) d).
Proof.
  intros Hn Hb H31. set (h := built_header pt seq ts ss mark).
  set (pl := take (Z.to_nat n) d). assert (Hl : len pl = n) by (unfold pl; len_lia).
  exists (Build_rtp_packet_t h (replicate 15 0) (replicate 8 rtp_extension_zero) 0
    (Some pl) n (Some (rtp_wire h [] [] pl ++ drop (12 + Z.to_nat n) b)) (12 + n) 0).
  split; [|done].
  unfold rtp_packet_build, RTP_HEADER_SIZE. rewrite u64_id by (unfold is_u64; lia).
  replace (len b <? 12 + n) with false by lia. fold (built_header pt seq ts ss mark). fold h.
  rewrite write_fixed_spec by lia. cbn [mbind res_bind].
  set (w := rtp_wire h [] [] pl ++ drop (12 + Z.to_nat n) b).
  assert (Hw : w = rtp_fixed h 0 ++ pl ++ drop (12 + Z.to_nat n) b)
    by (unfold w, rtp_wire; by rewrite ext_block_nil, <- !app_assoc).
  assert (Hwp : (if 0 <? n
                 then e ← rd_slice d 0 n; wr (rtp_fixed h 0 ++ drop 12 b) 12 e
                 else Ok (rtp_fixed h 0 ++ drop 12 b)) = Ok w).
  { destruct (Z.ltb_spec 0 n).
    - rewrite rd_slice_in_range by lia. cbn [mbind res_bind]. change (drop (Z.to_nat 0) d) with d.
      fold pl. rewrite wr_next by (done || len_lia).
      rewrite Hw, drop_drop, <- app_assoc. do 4 f_equal. unfold len in Hl. lia.
    - rewrite Hw. assert (pl = []) as -> by (destruct pl; [done|len_lia]).
      replace (12 + Z.to_nat n)%nat with 12%nat by lia. done. }
  change (extension h) with 0. rewrite Hwp. cbn [mbind res_bind].
  rewrite Hw at 1. rewrite (rd_slice_mid (rtp_fixed h 0)) by done.
  cbn [mbind res_bind]. rewrite s32_id by lia. reflexivity.
Qed.

(** The parser on the builder's image. *)
Lemma built_parses pkt0 pt seq ts ss mark pl post :
  is_u16 seq -> is_u32 ts -> is_u32 ss -> bytes pl ->
  exists pkt', rtp_packet_parse (Some pkt0)
      (Some (rtp_wire (built_header pt seq ts ss mark) [] [] pl ++ post)) (12 + len pl) = Ok pkt' /\
    header pkt' = built_header pt seq ts ss mark /\ payload pkt' = Some pl.
Proof.
  intros Hs Ht Hr Hpl. set (h := built_header pt seq ts ss mark).
  assert (Hwf : rtp_header_wf h (len (@nil Z)) (b2i (0 <? len (@nil rtp_extension_t)))).
  { constructor; try done; cbn.
    - destruct (truth mark); auto.
    - rewrite land127. zmod_lia. }
  pose proof (parse_spec h [] [] pl post pkt0 (12 + len pl)
    Hwf ltac:(done) ltac:(cbn; lia) ltac:(done) ltac:(cbn; lia)) as Hparse.
  rewrite len_rtp_wire, ext_block_nil in Hparse. specialize (Hparse ltac:(len_lia)).
  eexists. split; [exact Hparse|done].
Qed.

Lemma build_parse_spec pkt pkt0 pt seq ts ss mark pl b :
  is_u16 seq -> is_u32 ts -> is_u32 ss -> bytes pl ->
  12 + len pl <= len b -> len b < 2147483648 ->
  exists pkt1 out pkt',
    rtp_packet_build (Some pkt) pt seq ts ss mark (Some pl) (len pl)
      (Some b) (len b) = Ok (pkt1, out, 12 + len pl) /\
    rtp_packet_parse (Some pkt0) (Some out) (12 + len pl) = Ok pkt' /\
    header pkt' = header pkt1 /\ payload pkt' = Some pl /\
    payload pkt1 = Some pl /\
    header pkt1 = Build_rtp_header_t 2 0 0 0 (b2i (truth mark))
                    (Z.land pt 127) seq ts ss.
Proof.
  intros Hs Ht Hr Hpl Hb H31.
  destruct (build_spec pkt pt seq ts ss mark pl (len pl) b) as (pkt1 & E & Hh & Hp); [len_lia|done..|].
  rewrite len_to_nat, take_ge in E, Hp by done.
  destruct (built_parses pkt0 pt seq ts ss mark pl (drop (12 + length pl) b) Hs Ht Hr Hpl)
    as (pkt' & E' & Hh' & Hp').
  exists pkt1. eexists. exists pkt'. split_and!; [exact E|exact E'|by rewrite Hh, Hh'|done..].
Qed.

(** A packet produced by the builder parses back to the arguments of the
    builder: version 2, no padding, extension or CSRC, the marker
    normalised to a bit, the payload type cut to seven bits. *)
Theorem rtp_build_parse pkt pkt0 pt seq ts ss mark pl b :
  is_u16 seq -> is_u32 ts -> is_u32 ss -> bytes pl ->
  12 + len pl <= len b -> len b < 2147483648 ->
  exists pkt1 out pkt',
    rtp_packet_build (Some pkt) pt seq ts ss mark (Some pl) (len pl)
      (Some b) (len b) = Ok (pkt1, out, 12 + len pl) /\
    rtp_packet_parse (Some pkt0) (Some out) (12 + len pl) = Ok pkt' /\
    header pkt' = header pkt1 /\ payload pkt' = Some pl /\
    payload pkt1 = Some pl /\
    header pkt1 = Build_rtp_header_t 2 0 0 0 (b2i (truth mark))
                    (Z.land pt 127) seq ts ss.
Proof. apply build_parse_spec. Qed.

(** The parser is memory safe and terminates on every input: for any
    bytes and any length within the buffer it never reads outside the buffer
    and never stores more than eight extensions. *)
Theorem rtp_parse_safe pkt b n :
  bytes b -> n <= len b ->
  no_fault (rtp_packet_parse pkt (Some (take (Z.to_nat n) b)) n).
Proof.
  intros Hb Hn. destruct pkt as [pkt|]; [|done].
  unfold rtp_packet_parse, RTP_HEADER_SIZE. safe_step; [done|].
  set (c := take (Z.to_nat n) b).
  assert (Hc : bytes c) by by apply Forall_take.
  assert (Hl : len c = n) by (unfold c; len_lia). clearbody c.
  safe_step; [apply rd_no_fault; lia|]. safe_step; [done|].
  safe_step; [apply rd_no_fault; lia|]. safe_step; [apply read_u16_no_fault; lia|].
  do 2 (safe_step; [apply read_u32_no_fault; lia|]).
  safe_step.
  { unfold rtp_parse_csrc_block, RTP_MAX_CSRC. pose proof (land15_range a).
    repeat safe_step; try done. apply read_csrcs_no_fault; lia. }
  destruct a4 as [hs cs]. apply parse_csrc_block_size in H4; [|lia].
  safe_step; [apply parse_ext_block_no_fault; lia|].
  destruct a4 as [hs' [exts count]]. apply parse_ext_block_size in H5; [|lia].
  safe_step; [repeat safe_step; try done; lia|].
  safe_step; [|done]. enough (0 <= a4 <= n - hs') by (apply rd_slice_no_fault; lia).
  revert H6. case_match; [|intros [= <-]; lia].
  intros (pad & Hp & Hq)%bind_Ok. apply rd_byte in Hp; [|done].
  unfold is_u8 in Hp. revert Hq. case_match; [done|]. intros [= <-]. lia.
Qed.

Lemma s16_diff a b d :
  is_u16 a -> is_u16 b -> -32768 <= d < 32768 ->
  (a - b - d) mod 65536 = 0 -> s16 (a - b) = d.
Proof. unfold is_u16, s16. intros. zmod_lia. Qed.

Lemma rtp_seq_compare e1 e2 :
  -32768 <= e1 - e2 < 32768 ->
  rtp_seq_diff (u16 e1) (u16 e2) = e1 - e2 /\
  rtp_seq_newer (u16 e1) (u16 e2) = bool_decide (e2 < e1).
Proof.
  intros H. unfold rtp_seq_newer, rtp_seq_diff.
  assert (Hs : s16 (u16 e1 - u16 e2) = e1 - e2).
  { apply s16_diff; [apply u16_range..|done|]. unfold u16. zmod_lia. }
  rewrite Hs. split; [done|]. case_bool_decide; lia.
Qed.

(** Sequence comparison is the comparison of the unwrapped numbers as
    long as they are less than half the sequence space apart. *)
Theorem rtp_seq_compare_unwrapped e1 e2 :
  -32768 <= e1 - e2 < 32768 ->
  rtp_seq_diff (u16 e1) (u16 e2) = e1 - e2 /\
  rtp_seq_newer (u16 e1) (u16 e2) = bool_decide (e2 < e1).
Proof. apply rtp_seq_compare. Qed.

Lemma find_extension_app es e post id :
  Forall (fun e' => ext_id e' <> id) es -> ext_id e = id ->
  rtp_find_extension (es ++ e :: post) id =
  rtp_find_extension [e] id.
Proof.
  intros Hes He. induction Hes as [|e' es Hne _ IH]; cbn [app rtp_find_extension].
  - by rewrite He, Z.eqb_refl.
  - by replace (ext_id e' =? id) with false by lia.
Qed.

(** An extension that was added can be read back, provided no extension
    with that id is already in the packet (the first one wins); the packet's
    extension flag is set. *)
Theorem rtp_extension_add_get pkt id d l pkt' out0 l0 :
  len (extensions pkt) = 8 -> 0 <= extension_count pkt ->
  Forall (fun e => len (ext_data e) = 16 /\ ext_id e <> id)
    (take (Z.to_nat (extension_count pkt)) (extensions pkt)) ->
  len d = l ->
  rtp_packet_add_extension (Some pkt) id (Some d) l = Ok pkt' ->
  rtp_packet_get_extension (Some pkt') id (Some out0) (Some l0) = Ok (d, l) /\
  extension_count pkt' = extension_count pkt + 1 /\
  extension (header pkt') = 1.
Proof.
  intros H8 H0 Hne Hd. unfold rtp_packet_add_extension.
  destruct ((id =? 0) || _ || _ || _) eqn:Hg; [done|].
  destruct (Z.leb_spec 8 (extension_count pkt)) as [?|Hc]; [done|].
  intros (old & Ho & H)%bind_Ok. rewrite rd_slice_all in H by done.
  cbn [mbind res_bind] in H. rewrite upd_Ok in H by lia.
  injection H as <-. cbn [extension_count extensions header].
  split; [|done]. unfold rtp_packet_get_extension.
  replace (id =? 0) with false by lia. cbn [extension_count extensions].
  set (n := Z.to_nat (extension_count pkt)) in *.
  set (e := Build_rtp_extension_t _ _ _).
  assert (Hn : (n < length (extensions pkt))%nat) by (unfold n; len_lia).
  rewrite (insert_take_drop _ _ _ Hn), (cons_middle e), app_assoc.
  rewrite rd_slice_front by (unfold n in *; len_lia). cbn [mbind res_bind].
  rewrite find_extension_app; [|eapply Forall_impl; [done|by intros ? []]|done].
  cbn. rewrite Z.eqb_refl. unfold overwrite.
  by rewrite rd_slice_front by lia.
Qed.

(* ------------------------------------------------------------------ *)
(** ** Witnesses *)

Definition example_ext : rtp_extension_t :=
  Build_rtp_extension_t 3 2 ([7; 9] ++ replicate 14 0).
Definition example_packet : rtp_packet_t :=
  Build_rtp_packet_t (Build_rtp_header_t 2 0 1 1 1 96 65535 90000 305419896)
    ([17] ++ replicate 14 0) (example_ext :: replicate 7 rtp_extension_zero) 1
    (Some [1; 2; 3]) 3 None 0 0.

Lemma example_packet_wf :
  rtp_packet_wf example_packet [17] [example_ext] [1; 2; 3].
Proof.
  split; [split; try done; cbn; unfold is_u16, is_u32; auto; lia|..].
  - split; [split; [cbn; lia|done]|]. repeat constructor; done.
  - split; [split; [cbn; lia|done]|]. repeat constructor; cbn; try lia.
    exists [7; 9]. split; [|done]. repeat constructor; done.
  - done.
  - split_and!; try done. repeat constructor; done.
Defined.

Lemma rtp_serialize_parse_roundtrip_witness :
  exists out size pkt',
    rtp_packet_serialize (Some example_packet) (Some (replicate 40 255)) 40 =
      Ok (out, size) /\
    len out = 40 /\ drop (Z.to_nat size) out = drop (Z.to_nat size) (replicate 40 255) /\
    rtp_packet_parse (Some rtp_packet_zero) (Some out) size = Ok pkt' /\
    header pkt' = header example_packet /\ csrc pkt' = csrc example_packet /\
    extensions pkt' = extensions example_packet /\
    extension_count pkt' = 1 /\ payload pkt' = Some [1; 2; 3] /\
    payload_len pkt' = 3.
Proof.
  apply (rtp_serialize_parse_roundtrip example_packet [17] [example_ext] [1; 2; 3]
           (replicate 40 255) rtp_packet_zero example_packet_wf); vm_compute; done.
Defined.

Lemma rtp_build_parse_witness :
  exists pkt1 out pkt',
    rtp_packet_build (Some rtp_packet_zero) 224 65535 7 9 5 (Some [1; 2]) 2
      (Some (replicate 20 0)) 20 = Ok (pkt1, out, 14) /\
    rtp_packet_parse (Some rtp_packet_zero) (Some out) 14 = Ok pkt' /\
    header pkt' = header pkt1 /\ payload pkt' = Some [1; 2] /\
    payload pkt1 = Some [1; 2] /\
    header pkt1 = Build_rtp_header_t 2 0 0 0 1 96 65535 7 9.
Proof.
  apply (rtp_build_parse rtp_packet_zero rtp_packet_zero 224 65535 7 9 5 [1; 2]
           (replicate 20 0));
    first [done | repeat constructor; done].
Defined.

Lemma rtp_parse_safe_witness :
  no_fault (rtp_packet_parse (Some rtp_packet_zero)
              (Some (take 13 (replicate 20 255))) 13).
Proof.
  apply (rtp_parse_safe (Some rtp_packet_zero) (replicate 20 255) 13);
    [apply Forall_replicate; done|done].
Defined.

Lemma rtp_seq_compare_unwrapped_witness :
  rtp_seq_diff (u16 65537) (u16 65535) = 2 /\
  rtp_seq_newer (u16 65537) (u16 65535) = true.
Proof. apply (rtp_seq_compare_unwrapped 65537 65535). lia. Defined.

Lemma rtp_extension_add_get_witness :
  exists pkt',
    rtp_packet_add_extension (Some example_packet) 5 (Some [4; 2; 1]) 3 = Ok pkt' /\
    rtp_packet_get_extension (Some pkt') 5 (Some []) (Some 0) = Ok ([4; 2; 1], 3) /\
    extension_count pkt' = 2 /\ extension (header pkt') = 1.
Proof.
  destruct (rtp_packet_add_extension (Some example_packet) 5 (Some [4; 2; 1]) 3)
    as [pkt'| |] eqn:E; [|discriminate E..].
  exists pkt'. split; [done|].
  apply (rtp_extension_add_get example_packet 5 [4; 2; 1] 3 pkt' [] 0);
    try done. repeat constructor; done.
Defined.
