(* ===== verification/RtpHistory.v ===== *)
(** * RTP packet history (src/webrtc/src/rtc/rtp/rtp_history.c)

    The ring of recently sent packets that answers retransmission requests:
    a slot array indexed by [seq % max_packets] over one contiguous data
    buffer.  The abstract specification is a finite map from slot index to
    the (sequence number, packet) pair stored last, and the class
    [RetransmitStore] is what the NACK sender relies on. *)

From stdpp Require Import gmap.
From S2P Require Import Prelude.

(* ------------------------------------------------------------------ *)
(** ** Data *)

(** [slot_data] is the offset of the slot's region in [data_buffer]. *)
Record history_slot_t := {
  slot_data : Z; slot_len : Z; slot_seq : Z; slot_valid : Z }.

Record rtp_history_t := {
  slots : list history_slot_t;
  data_buffer : list Z;
  max_packets : Z;
  max_packet_size : Z }.

Definition SIZE_MAX : Z := 18446744073709551615.
Definition sizeof_history_slot_t : Z := 24.

(* ------------------------------------------------------------------ *)
(** ** Operations *)

(** [mem] is the outcome of the three allocations: [None] when one fails,
    else the (unspecified) initial contents of the [malloc]ed data buffer,
    of which the model takes the first [max_packets * max_packet_size]
    bytes. *)
Definition rtp_history_create (n size : Z) (mem : option (list Z))
    : option rtp_history_t :=
  if (n =? 0) || (size =? 0) || (SIZE_MAX / sizeof_history_slot_t <? n) ||
     (SIZE_MAX / size <? n) then None
  else
    let? m := mem else None in
    Some {| slots := (fun i => Build_history_slot_t (i * size) 0 0 0) <$> seqZ 0 n;
            data_buffer := take (Z.to_nat (n * size)) m;
            max_packets := n; max_packet_size := size |}.

(** [seq % history->max_packets]; a zero divisor is undefined. *)
Definition history_index (h : rtp_history_t) (seq : Z) : res Z :=
  if max_packets h =? 0 then Fault else Ok (seq mod max_packets h).

Definition rtp_history_put (history : option rtp_history_t) (seq : Z)
    (packet : option (list Z)) (l : Z) : res (option rtp_history_t) :=
  let? h := history else Ok None in
  let? p := packet else Ok (Some h) in
  if max_packet_size h <? l then Ok (Some h) else
  idx ← history_index h seq;
  slot ← rd (slots h) idx;
  d ← rd_slice p 0 l;
  buf ← wr (data_buffer h) (slot_data slot) d;
  ss ← upd (slots h) idx (Build_history_slot_t (slot_data slot) l seq 1);
  Ok (Some (Build_rtp_history_t ss buf (max_packets h) (max_packet_size h))).

(** The caller's buffer after the copy and the value of [*len]. *)
Definition rtp_history_get (history : option rtp_history_t) (seq : Z)
    (packet : option (list Z)) (l : option Z) (max_len : Z)
    : res (list Z * Z) :=
  let? h := history else Err in
  let? out := packet else Err in
  let? _ := l else Err in
  idx ← history_index h seq;
  slot ← rd (slots h) idx;
  if negb (truth (slot_valid slot)) || negb (slot_seq slot =? seq) then Err else
  if max_len <? slot_len slot then Err else
  d ← rd_slice (data_buffer h) (slot_data slot) (slot_len slot);
  out' ← wr out 0 d;
  Ok (out', slot_len slot).

(* ------------------------------------------------------------------ *)
(** ** Invariant and abstraction *)

Record history_wf (h : rtp_history_t) : Prop := {
  hw_n : 0 < max_packets h;
  hw_size : 0 < max_packet_size h;
  hw_slots : len (slots h) = max_packets h;
  hw_buffer : len (data_buffer h) = max_packets h * max_packet_size h;
  hw_region : forall i s, rd (slots h) i = Ok s ->
    slot_data s = i * max_packet_size h /\
    0 <= slot_len s <= max_packet_size h /\
    (slot_valid s = 0 \/ slot_valid s = 1) }.

(** The packet a slot holds. *)
Definition slot_packet (h : rtp_history_t) (s : history_slot_t) : res (list Z) :=
  rd_slice (data_buffer h) (slot_data s) (slot_len s).

Abbreviation ring := (gmap Z (Z * list Z)).

(** [m] maps a slot index to what the slot holds. *)
Definition history_rep (h : rtp_history_t) (m : ring) : Prop :=
  history_wf h /\
  forall i s, rd (slots h) i = Ok s ->
    m !! i = (if truth (slot_valid s)
              then match slot_packet h s with
                   | Ok p => Some (slot_seq s, p) | _ => None end
              else None).

(** The specification: a bounded ring keyed by [seq mod n]. *)
Definition ring_put (n : Z) (m : ring) (seq : Z) (p : list Z) : ring :=
  <[seq mod n := (seq, p)]> m.
Definition ring_get (n : Z) (m : ring) (seq : Z) : option (list Z) :=
  match m !! (seq mod n) with
  | Some (s, p) => if s =? seq then Some p else None
  | None => None
  end.

(* ------------------------------------------------------------------ *)
(** ** Lemmas *)

Lemma history_slot_exists h seq :
  history_wf h -> exists s, rd (slots h) (seq mod max_packets h) = Ok s.
Proof.
  intros []. apply rd_in_range. rewrite hw_slots0.
  by apply Z.mod_pos_bound.
Qed.

Lemma history_index_Ok h seq :
  history_wf h -> history_index h seq = Ok (seq mod max_packets h).
Proof.
  intros []. unfold history_index. by replace (max_packets h =? 0) with false by lia.
Qed.

(** The region of slot [i] lies inside the data buffer. *)
Lemma region_bounds i n size : 0 <= i < n -> 0 < size -> i * size + size <= n * size.
Proof. nia. Qed.

Lemma put_rep h m seq p l post :
  history_rep h m -> len p = l -> l <= max_packet_size h ->
  exists h', rtp_history_put (Some h) seq (Some (p ++ post)) l = Ok (Some h') /\
    history_rep h' (ring_put (max_packets h) m seq p) /\
    max_packets h' = max_packets h /\ max_packet_size h' = max_packet_size h.
Proof.
  intros [Hwf Hrep] Hp Hl. pose proof Hwf as [Hn Hsz Hsl Hbuf Hreg].
  destruct (history_slot_exists h seq Hwf) as [s Hs].
  set (i := seq mod max_packets h) in *.
  assert (Hi : 0 <= i < max_packets h) by (by apply Z.mod_pos_bound).
  destruct (Hreg i s Hs) as (Hd & _ & _).
  pose proof (region_bounds i _ _ Hi Hsz) as Hb.
  destruct (wr (data_buffer h) (slot_data s) p) as [buf| |] eqn:Hw;
    [|by unfold wr in Hw; case_decide..
     |by exfalso; eapply (wr_no_fault (data_buffer h) p (slot_data s)); [nia|lia|]].
  unfold rtp_history_put. replace (max_packet_size h <? l) with false by lia.
  rewrite history_index_Ok by done. fold i. cbn [mbind res_bind]. rewrite Hs.
  cbn [mbind res_bind]. rewrite rd_slice_front by done. cbn [mbind res_bind].
  rewrite Hw. cbn [mbind res_bind].
  set (x := Build_history_slot_t (slot_data s) l seq 1).
  destruct (upd (slots h) i x) as [ss| |] eqn:Hu;
    [|by unfold upd in Hu; case_decide..|by rewrite upd_Ok in Hu by lia].
  cbn [mbind res_bind]. eexists. split; [done|]. split; [|done].
  assert (Hreg' : forall j t, rd ss j = Ok t ->
    if decide (i = j) then t = x else rd (slots h) j = Ok t).
  { intros j t Ht. rewrite (rd_upd _ _ _ _ _ Hu) in Ht. case_decide; congruence. }
  split.
  - constructor; cbn; [done|done| |by rewrite (wr_len _ _ _ _ Hw)|].
    + rewrite upd_Ok in Hu by lia. injection Hu as <-. by rewrite len_insert.
    + intros j t Ht. specialize (Hreg' j t Ht). case_decide as Hij; [|by apply Hreg].
      subst. cbn. split_and!; [done|len_lia|lia|by right].
  - intros j t Ht. specialize (Hreg' j t Ht). cbn in Ht. unfold ring_put. fold i.
    unfold slot_packet. cbn [data_buffer slots] in *.
    case_decide as Hij.
    + subst j t. rewrite lookup_insert_eq. cbn. rewrite <- Hp.
      by rewrite (rd_slice_wr_same _ _ _ _ Hw).
    + rewrite lookup_insert_ne by done. rewrite (Hrep j t Hreg').
      unfold slot_packet. destruct (Hreg j t Hreg') as (Hdj & Hlj & _).
      apply rd_bounds in Hreg'. erewrite <- (rd_slice_wr_disjoint _ buf); [done|done|].
      rewrite Hd, Hdj. destruct (decide (j < i)); [left; nia|right; nia].
Qed.

Lemma get_rep h m seq out l0 cap :
  history_rep h m -> cap <= len out ->
  rtp_history_get (Some h) seq (Some out) (Some l0) cap =
  match ring_get (max_packets h) m seq with
  | Some p => if cap <? len p then Err
              else Ok (p ++ drop (length p) out, len p)
  | None => Err
  end.
Proof.
  intros [Hwf Hrep] Hcap. destruct (history_slot_exists h seq Hwf) as [s Hs].
  unfold rtp_history_get. rewrite history_index_Ok by done. cbn [mbind res_bind].
  rewrite Hs. cbn [mbind res_bind]. pose proof (rd_bounds _ _ _ Hs) as Hi.
  unfold ring_get. rewrite (Hrep _ _ Hs).
  destruct (hw_region _ Hwf _ _ Hs) as (Hd & Hl & _).
  destruct (truth (slot_valid s)); [|done]. cbn [negb orb].
  assert (Hp : exists p, slot_packet h s = Ok p /\ len p = slot_len s).
  { unfold slot_packet. destruct Hwf as [Hn Hsz Hsl Hbuf _].
    rewrite Hsl in Hi. pose proof (region_bounds _ _ _ Hi Hsz).
    destruct (rd_slice _ _ _) as [p| |] eqn:E.
    - exists p. by apply rd_slice_Ok in E as (_ & _ & _ & ? & _).
    - unfold rd_slice in E. by case_decide.
    - exfalso. eapply rd_slice_no_fault, E; rewrite ?Hd, ?Hbuf; nia. }
  destruct Hp as (p & Hp & Hlp). rewrite Hp. unfold slot_packet in Hp.
  destruct (slot_seq s =? seq); [|done]. cbn [negb]. rewrite Hlp.
  destruct (Z.ltb_spec cap (slot_len s)); [done|]. rewrite Hp. cbn [mbind res_bind].
  rewrite wr_front by lia. done.
Qed.

(** The abstraction function. *)
Definition abs_slot (h : rtp_history_t) (i : Z) : option (Z * list Z) :=
  match rd (slots h) i with
  | Ok s => if truth (slot_valid s)
            then match slot_packet h s with
                 | Ok p => Some (slot_seq s, p) | _ => None end
            else None
  | _ => None
  end.

Definition history_abs (h : rtp_history_t) : ring :=
  map_imap (fun i _ => abs_slot h i)
    (gset_to_gmap tt (list_to_set (seqZ 0 (max_packets h)) : gset Z)).

Lemma history_abs_lookup h i :
  0 <= i < max_packets h -> history_abs h !! i = abs_slot h i.
Proof.
  intros Hi. unfold history_abs. rewrite map_lookup_imap, lookup_gset_to_gmap.
  rewrite option_guard_True; [done|]. apply elem_of_list_to_set, elem_of_seqZ. lia.
Qed.

Lemma history_abs_rep h : history_wf h -> history_rep h (history_abs h).
Proof.
  intros Hwf. split; [done|]. intros i s Hs. pose proof (rd_bounds _ _ _ Hs).
  destruct Hwf. rewrite history_abs_lookup by lia. unfold abs_slot. by rewrite Hs.
Qed.

(** A represented ring is determined on the slot indices. *)
Lemma history_rep_get h m m' seq :
  history_rep h m -> history_rep h m' ->
  ring_get (max_packets h) m seq = ring_get (max_packets h) m' seq.
Proof.
  intros [Hwf H] [_ H']. destruct (history_slot_exists h seq Hwf) as [s Hs].
  unfold ring_get. by rewrite (H _ _ Hs), (H' _ _ Hs).
Qed.

Lemma create_wf n size m h :
  0 <= n -> 0 <= size -> n * size <= len m ->
  rtp_history_create n size (Some m) = Some h ->
  history_rep h ∅ /\ max_packets h = n /\ max_packet_size h = size.
Proof.
  unfold rtp_history_create. intros Hn Hs Hm. case_match eqn:E; [done|].
  intros [= <-]. split; [|done].
  assert (Hslot : forall i s, rd ((fun i => Build_history_slot_t (i * size) 0 0 0)
    <$> seqZ 0 n) i = Ok s -> s = Build_history_slot_t (i * size) 0 0 0).
  { intros i s [Hi Hx]%rd_lookup. rewrite list_lookup_fmap in Hx.
    destruct (seqZ 0 n !! Z.to_nat i) as [j|] eqn:Hj; [|done].
    apply lookup_seqZ in Hj as [Hj ?]. injection Hx as <-.
    by replace j with i by lia. }
  split.
  - constructor; cbn; [lia|lia|..].
    + unfold len. rewrite length_fmap, length_seqZ. lia.
    + len_lia.
    + intros i s ->%Hslot. cbn. split; [done|]. split; [lia|by left].
  - cbn. intros i s ->%Hslot. done.
Qed.

(* ------------------------------------------------------------------ *)
(** ** The interface the NACK sender uses *)

(** A store of sent packets: what was put last for a sequence number is
    what [get] returns, and putting never makes another sequence number
    return something new. *)
Class RetransmitStore (S : Type) := {
  store_put : option S -> Z -> option (list Z) -> Z -> res (option S);
  store_get : option S -> Z -> option (list Z) -> option Z -> Z ->
              res (list Z * Z);
  store_ok : S -> Prop;
  store_view : S -> Z -> option (list Z);
  store_capacity : S -> Z;
  store_put_law : forall s seq p, store_ok s -> len p <= store_capacity s ->
    exists s', store_put (Some s) seq (Some p) (len p) = Ok (Some s') /\
      store_ok s' /\ store_capacity s' = store_capacity s /\
      store_view s' seq = Some p /\
      forall seq', seq' <> seq ->
        store_view s' seq' = store_view s seq' \/ store_view s' seq' = None;
  store_get_law : forall s seq out l0 cap, store_ok s -> cap <= len out ->
    store_get (Some s) seq (Some out) (Some l0) cap =
    match store_view s seq with
    | Some p => if cap <? len p then Err
                else Ok (p ++ drop (length p) out, len p)
    | None => Err
    end;
  store_view_len : forall s seq p, store_ok s -> store_view s seq = Some p ->
    len p <= store_capacity s }.

Lemma ring_get_put_same n m seq p : ring_get n (ring_put n m seq p) seq = Some p.
Proof. unfold ring_get, ring_put. by rewrite lookup_insert_eq, Z.eqb_refl. Qed.

Lemma ring_get_put_other n m seq seq' p :
  seq' <> seq ->
  ring_get n (ring_put n m seq p) seq' =
  if seq' mod n =? seq mod n then None else ring_get n m seq'.
Proof.
  intros Hne. unfold ring_get, ring_put. destruct (Z.eqb_spec (seq' mod n) (seq mod n)) as [E|E].
  - rewrite E, lookup_insert_eq. by replace (seq =? seq') with false by lia.
  - by rewrite lookup_insert_ne by done.
Qed.

Lemma history_view_len h seq p :
  history_wf h -> ring_get (max_packets h) (history_abs h) seq = Some p ->
  len p <= max_packet_size h.
Proof.
  intros Hwf. destruct (history_slot_exists h seq Hwf) as [s Hs].
  unfold ring_get. rewrite history_abs_lookup by (apply Z.mod_pos_bound, Hwf).
  unfold abs_slot. rewrite Hs. destruct (truth _); [|done].
  unfold slot_packet. destruct (rd_slice _ _ _) as [q| |] eqn:E; [|done..].
  destruct (slot_seq s =? seq); [|done]. intros [= <-].
  apply rd_slice_Ok in E as (_ & _ & _ & -> & _).
  by destruct (hw_region _ Hwf _ _ Hs) as (_ & [_ ?] & _).
Qed.

#[export, refine] Instance rtp_history_store : RetransmitStore rtp_history_t := {|
  store_put := rtp_history_put;
  store_get := rtp_history_get;
  store_ok := history_wf;
  store_view h seq := ring_get (max_packets h) (history_abs h) seq;
  store_capacity := max_packet_size |}.
Proof.
  - intros h seq p Hok Hp.
    destruct (put_rep h _ seq p (len p) [] (history_abs_rep h Hok) eq_refl Hp)
      as (h' & Hput & Hrep & Hn & Hsz).
    rewrite app_nil_r in Hput. exists h'. split; [done|].
    pose proof Hrep as [Hok' _]. split; [done|]. split; [done|].
    assert (Hv : forall s, ring_get (max_packets h') (history_abs h') s =
      ring_get (max_packets h) (ring_put (max_packets h) (history_abs h) seq p) s).
    { intros s. rewrite <- Hn. apply history_rep_get; [by apply history_abs_rep|].
      by rewrite Hn. }
    rewrite Hv, ring_get_put_same. split; [done|]. intros seq' Hne.
    rewrite Hv, ring_get_put_other by done. case_match; auto.
  - intros h seq out l0 cap Hok Hcap.
    exact (get_rep h _ seq out l0 cap (history_abs_rep h Hok) Hcap).
  - exact history_view_len.
Defined.

(* ------------------------------------------------------------------ *)
(** ** Properties *)

(** A run of puts, as [nack_sender_add_packet] issues them. *)
Fixpoint history_puts (h : option rtp_history_t) (ps : list (Z * list Z))
    : res (option rtp_history_t) :=
  match ps with
  | [] => Ok h
  | (seq, p) :: ps =>
    h ← rtp_history_put h seq (Some p) (len p); history_puts h ps
  end.

(** C2: the slot array and its shared data buffer implement the bounded ring:
    after any sequence of stored packets (each within the slot size), looking
    a sequence number up returns exactly the packet the ring specification
    holds, i.e. the last one put in its slot if it has that very sequence
    number, and fails otherwise; no access leaves the data buffer and no
    slot's packet disturbs another's. *)
Theorem history_refines_ring n size m h ps :
  0 < n -> 0 < size -> n * size <= len m ->
  rtp_history_create n size (Some m) = Some h ->
  Forall (fun p => len p.2 <= size) ps ->
  exists h', history_puts (Some h) ps = Ok (Some h') /\
    forall seq out l0 cap, cap <= len out ->
      rtp_history_get (Some h') seq (Some out) (Some l0) cap =
      match ring_get n (foldl (fun m p => ring_put n m p.1 p.2) ∅ ps) seq with
      | Some p => if cap <? len p then Err
                  else Ok (p ++ drop (length p) out, len p)
      | None => Err
      end.
Proof.
  intros Hn Hs Hm Hc Hps. apply create_wf in Hc as (Hrep & Hmp & Hms); [|lia..].
  revert h Hrep Hmp Hms. generalize (∅ : ring).
  induction Hps as [|[seq p] ps Hp _ IH]; intros a h Hrep Hmp Hms.
  - exists h. split; [done|]. intros seq out l0 cap Hcap. cbn [foldl].
    rewrite <- Hmp. by apply (get_rep h a seq out l0 cap).
  - destruct (put_rep h a seq p (len p) [] Hrep eq_refl ltac:(by rewrite Hms))
      as (h1 & Hput & Hrep1 & Hn1 & Hs1).
    rewrite app_nil_r in Hput. rewrite Hmp in Hrep1.
    destruct (IH _ h1 Hrep1 ltac:(lia) ltac:(lia)) as (h' & Hrun & Hget).
    exists h'. cbn [history_puts]. rewrite Hput. split; [exact Hrun|exact Hget].
Qed.

(** A store of four slots that has wrapped around. *)
Lemma history_refines_ring_witness :
  exists h h', rtp_history_create 4 2 (Some (replicate 8 0)) = Some h /\
    history_puts (Some h) [(1, [1; 1]); (2, [2]); (5, [5; 5])] = Ok (Some h') /\
    forall seq out l0 cap, cap <= len out ->
      rtp_history_get (Some h') seq (Some out) (Some l0) cap =
      match ring_get 4 (foldl (fun m p => ring_put 4 m p.1 p.2) ∅
                          [(1, [1; 1]); (2, [2]); (5, [5; 5])]) seq with
      | Some p => if cap <? len p then Err
                  else Ok (p ++ drop (length p) out, len p)
      | None => Err
      end.
Proof.
  destruct (rtp_history_create 4 2 (Some (replicate 8 0))) as [h|] eqn:E;
    [|discriminate E].
  destruct (history_refines_ring 4 2 (replicate 8 0) h
    [(1, [1; 1]); (2, [2]); (5, [5; 5])]) as (h' & H1 & H2);
    [done|done|done|exact E|repeat constructor; done|].
  exists h, h'. split; [done|]. split; [exact H1|exact H2].
Defined.
