(* ===== verification/Nack.v ===== *)
(** * NACK (src/webrtc/src/rtc/rtp/nack.c)

    The loss detector of the receiving side, the retransmitter of the sending
    side (over any [RetransmitStore], the packet history being one) and the
    RTCP generic-NACK wire format.  Times are the [int64_t] microsecond
    arguments of the C functions.  The first [missing_count] elements of the
    array [missing] are a list, so [missing_count] is its length; a callback
    field is the identity of the function it points to, and a call of it is
    an event of the operation's result. *)

From S2P Require Import Prelude RtpPacket RtpHistory.

Definition NACK_MAX_PACKET_AGE_MS : Z := 1000.
Definition NACK_MAX_RETRIES : Z := 3.
Definition NACK_RETRY_INTERVAL_MS : Z := 100.
Definition NACK_MAX_MISSING_PACKETS : Z := 100.

(* ------------------------------------------------------------------ *)
(** ** Receiver *)

Record nack_entry_t := {
  seq_num : Z; first_nack_time : Z; last_nack_time : Z; retry_count : Z }.

Record nack_receiver_t := {
  nr_ssrc : Z;
  highest_seq_received : Z;
  initialized : Z;
  missing : list nack_entry_t;
  packets_received : Z;
  packets_lost : Z;
  nacks_sent : Z;
  retransmissions_received : Z;
  on_nack : option Z;
  nr_user_data : Z }.

(** A call [on_nack(user_data, ssrc, seq_nums, count)]. *)
Record nack_event := {
  ne_callback : Z; ne_user_data : Z; ne_ssrc : Z; ne_seqs : list Z }.

Definition set_missing (r : nack_receiver_t) (m : list nack_entry_t)
    : nack_receiver_t :=
  Build_nack_receiver_t (nr_ssrc r) (highest_seq_received r) (initialized r) m
    (packets_received r) (packets_lost r) (nacks_sent r)
    (retransmissions_received r) (on_nack r) (nr_user_data r).

Definition nack_receiver_create (ssrc0 : Z) (mem : bool) : option nack_receiver_t :=
  if mem then Some (Build_nack_receiver_t ssrc0 0 0 [] 0 0 0 0 None 0) else None.

Definition seq_diff (a b : Z) : Z :=
  let diff := a - b in
  if 32768 <? diff then diff - 65536
  else if diff <? -32768 then diff + 65536
  else diff.

Definition add_missing_packet (m : list nack_entry_t) (seq now : Z)
    : list nack_entry_t :=
  if existsb (fun e => seq_num e =? seq) m then m
  else if len m <? NACK_MAX_MISSING_PACKETS
       then m ++ [Build_nack_entry_t seq now 0 0]
       else m.

(** The index at which the search loop stops, if it finds the packet. *)
Fixpoint find_missing (m : list nack_entry_t) (seq : Z) : option nat :=
  match m with
  | [] => None
  | e :: m => if seq_num e =? seq then Some 0%nat
              else match find_missing m seq with
                   | Some i => Some (S i) | None => None end
  end.

(** [delete i] is the [memmove] over the entry followed by
    [missing_count--]. *)
Definition remove_missing_packet (r : nack_receiver_t) (seq : Z)
    : nack_receiver_t :=
  match find_missing (missing r) seq with
  | Some i =>
      Build_nack_receiver_t (nr_ssrc r) (highest_seq_received r)
        (initialized r) (delete i (missing r)) (packets_received r)
        (packets_lost r) (nacks_sent r) (retransmissions_received r + 1)
        (on_nack r) (nr_user_data r)
  | None => r
  end.

(** [for (i = 0; i < gap && i < NACK_MAX_MISSING_PACKETS; i++)], counting the
    iterations left. *)
Fixpoint add_missing_loop (m : list nack_entry_t) (expected i now : Z) (n : nat)
    : list nack_entry_t :=
  match n with
  | O => m
  | S n => add_missing_loop (add_missing_packet m (u16 (expected + i)) now)
             expected (i + 1) now n
  end.

Definition nack_receiver_process_packet (nack : option nack_receiver_t)
    (seq now : Z) : option nack_receiver_t :=
  let? r := nack else None in
  if negb (truth (initialized r)) then
    Some (Build_nack_receiver_t (nr_ssrc r) seq 1 (missing r) 1
            (packets_lost r) (nacks_sent r) (retransmissions_received r)
            (on_nack r) (nr_user_data r))
  else if seq_diff seq (highest_seq_received r) <=? 0 then
    let r := remove_missing_packet r seq in
    Some (Build_nack_receiver_t (nr_ssrc r) (highest_seq_received r)
            (initialized r) (missing r) (packets_received r + 1)
            (packets_lost r) (nacks_sent r) (retransmissions_received r)
            (on_nack r) (nr_user_data r))
  else
    let expected := u16 (highest_seq_received r + 1) in
    let gap := seq_diff seq expected in
    let lost := if 0 <? gap then packets_lost r + gap else packets_lost r in
    let m := if 0 <? gap
             then add_missing_loop (missing r) expected 0 now
                    (Z.to_nat (Z.min gap NACK_MAX_MISSING_PACKETS))
             else missing r in
    Some (Build_nack_receiver_t (nr_ssrc r) seq (initialized r) m
            (packets_received r + 1) lost (nacks_sent r)
            (retransmissions_received r) (on_nack r) (nr_user_data r)).

Definition entry_too_old (e : nack_entry_t) (now : Z) : bool :=
  NACK_MAX_PACKET_AGE_MS * 1000 <? now - first_nack_time e.
Definition entry_exhausted (e : nack_entry_t) : bool :=
  NACK_MAX_RETRIES <=? retry_count e.
Definition entry_recent (e : nack_entry_t) (now : Z) : bool :=
  (0 <? last_nack_time e) &&
  (now - last_nack_time e <? NACK_RETRY_INTERVAL_MS * 1000).

(** The selection loop: the updated entries and the numbers stored in
    [seq_nums], starting with [count] of them stored already. *)
Fixpoint get_nacks_loop (es : list nack_entry_t) (count max_count now : Z)
    : list nack_entry_t * list Z :=
  match es with
  | [] => ([], [])
  | e :: es' =>
    if count <? max_count then
      if entry_too_old e now || entry_exhausted e || entry_recent e now then
        let '(m, out) := get_nacks_loop es' count max_count now in
        (e :: m, out)
      else
        let e' := Build_nack_entry_t (seq_num e) (first_nack_time e) now
                    (retry_count e + 1) in
        let '(m, out) := get_nacks_loop es' (count + 1) max_count now in
        (e' :: m, seq_num e :: out)
    else (es, [])
  end.

(** The receiver afterwards, what was stored in [seq_nums] (the return value
    is its length) and the callback's event. *)
Definition nack_receiver_get_nacks (nack : option nack_receiver_t)
    (seq_nums : option unit) (max_count now : Z)
    : option nack_receiver_t * list Z * list nack_event :=
  let? r := nack else (None, [], []) in
  let? _ := seq_nums else (Some r, [], []) in
  if max_count =? 0 then (Some r, [], []) else
  let '(m, out) := get_nacks_loop (missing r) 0 max_count now in
  let count := len out in
  let sent := if 0 <? count then nacks_sent r + 1 else nacks_sent r in
  let events := if 0 <? count then
                  match on_nack r with
                  | Some f => [Build_nack_event f (nr_user_data r) (nr_ssrc r) out]
                  | None => [] end
                else [] in
  (Some (Build_nack_receiver_t (nr_ssrc r) (highest_seq_received r)
           (initialized r) m (packets_received r) (packets_lost r) sent
           (retransmissions_received r) (on_nack r) (nr_user_data r)),
   out, events).

(** The [while (i < missing_count)] loop with its in-place removal; [None]
    when the fuel runs out. *)
Fixpoint cleanup_loop (fuel : nat) (m : list nack_entry_t) (i : nat) (now : Z)
    : option (list nack_entry_t) :=
  match fuel with
  | O => None
  | S fuel =>
    match m !! i with
    | None => Some m
    | Some e =>
      if entry_too_old e now || entry_exhausted e
      then cleanup_loop fuel (delete i m) i now
      else cleanup_loop fuel m (S i) now
    end
  end.

Definition nack_receiver_cleanup_old (nack : option nack_receiver_t) (now : Z)
    : res (option nack_receiver_t) :=
  let? r := nack else Ok None in
  match cleanup_loop (S (length (missing r))) (missing r) 0 now with
  | Some m => Ok (Some (set_missing r m))
  | None => Fault
  end.

Definition nack_receiver_set_callback (nack : option nack_receiver_t)
    (callback : option Z) (user_data : Z) : option nack_receiver_t :=
  let? r := nack else None in
  Some (Build_nack_receiver_t (nr_ssrc r) (highest_seq_received r)
          (initialized r) (missing r) (packets_received r) (packets_lost r)
          (nacks_sent r) (retransmissions_received r) callback user_data).

(** The five values written through the non-NULL output pointers. *)
Definition nack_receiver_get_stats (nack : option nack_receiver_t)
    : option (Z * Z * Z * Z * Z) :=
  let? r := nack else None in
  Some (packets_received r, packets_lost r, nacks_sent r,
        retransmissions_received r, len (missing r)).

(* ------------------------------------------------------------------ *)
(** ** Sender *)

Record nack_sender_t (S : Type) := {
  ns_ssrc : Z;
  history : option S;
  nacks_received : Z;
  packets_retransmitted : Z;
  retransmit_failures : Z;
  on_retransmit : option Z;
  ns_user_data : Z }.
Arguments Build_nack_sender_t {S}.
Arguments ns_ssrc {S}.
Arguments history {S}.
Arguments nacks_received {S}.
Arguments packets_retransmitted {S}.
Arguments retransmit_failures {S}.
Arguments on_retransmit {S}.
Arguments ns_user_data {S}.

(** A call [on_retransmit(user_data, packet, len)]. *)
Record retransmit_event := {
  re_callback : Z; re_user_data : Z; re_packet : list Z }.

(** [mem] is the allocation of the sender itself, [hist_mem] those of the
    history. *)
Definition nack_sender_create (ssrc0 history_size : Z) (mem : bool)
    (hist_mem : option (list Z)) : option (nack_sender_t rtp_history_t) :=
  if mem then
    let? h := rtp_history_create history_size RTP_MAX_PACKET hist_mem else None in
    Some (Build_nack_sender_t ssrc0 (Some h) 0 0 0 None 0)
  else None.

Section sender.
Context {S : Type} `{!RetransmitStore S}.

Definition nack_sender_add_packet (nack : option (nack_sender_t S)) (seq : Z)
    (packet : option (list Z)) (l : Z) : res (option (nack_sender_t S)) :=
  let? n := nack else Ok None in
  let? p := packet else Ok (Some n) in
  h ← store_put (history n) seq (Some p) l;
  Ok (Some (Build_nack_sender_t (ns_ssrc n) h (nacks_received n)
              (packets_retransmitted n) (retransmit_failures n)
              (on_retransmit n) (ns_user_data n))).

(** The loop over the requested numbers.  [scratch] is the uninitialised
    stack array [uint8_t packet[2048]] of the iterations. *)
Fixpoint process_nack_loop (n : nack_sender_t S) (seqs : list Z)
    (scratch : list Z) (retransmitted : Z)
    : res (nack_sender_t S * Z * list retransmit_event) :=
  match seqs with
  | [] => Ok (n, retransmitted, [])
  | seq :: seqs =>
    match store_get (history n) seq (Some scratch) (Some (len scratch))
            (len scratch) with
    | Ok (packet, l) =>
      let n' := Build_nack_sender_t (ns_ssrc n) (history n)
                  (nacks_received n) (packets_retransmitted n + 1)
                  (retransmit_failures n) (on_retransmit n)
                  (ns_user_data n) in
      let events := match on_retransmit n with
                    | Some f => [Build_retransmit_event f (ns_user_data n)
                                   (take (Z.to_nat l) packet)]
                    | None => [] end in
      '(nr, evs) ← process_nack_loop n' seqs scratch (retransmitted + 1);
      Ok (nr, events ++ evs)
    | Err =>
      let n' := Build_nack_sender_t (ns_ssrc n) (history n)
                  (nacks_received n) (packets_retransmitted n)
                  (retransmit_failures n + 1) (on_retransmit n)
                  (ns_user_data n) in
      process_nack_loop n' seqs scratch retransmitted
    | Fault => Fault
    end
  end.

Definition nack_sender_process_nack (nack : option (nack_sender_t S))
    (seq_nums : option (list Z)) (count : Z) (scratch : list Z)
    : res (option (nack_sender_t S) * Z * list retransmit_event) :=
  let? n := nack else Ok (None, 0, []) in
  let? seqs := seq_nums else Ok (Some n, 0, []) in
  if count =? 0 then Ok (Some n, 0, []) else
  let n := Build_nack_sender_t (ns_ssrc n) (history n) (nacks_received n + 1)
             (packets_retransmitted n) (retransmit_failures n)
             (on_retransmit n) (ns_user_data n) in
  requested ← rd_slice seqs 0 (Z.max 0 count);
  '(nr, evs) ← process_nack_loop n requested scratch 0;
  Ok (Some nr.1, nr.2, evs).

Definition nack_sender_set_callback (nack : option (nack_sender_t S))
    (callback : option Z) (user_data : Z) : option (nack_sender_t S) :=
  let? n := nack else None in
  Some (Build_nack_sender_t (ns_ssrc n) (history n) (nacks_received n)
          (packets_retransmitted n) (retransmit_failures n)
          callback user_data).

Definition nack_sender_get_stats (nack : option (nack_sender_t S))
    : option (Z * Z * Z) :=
  let? n := nack else None in
  Some (nacks_received n, packets_retransmitted n, retransmit_failures n).
End sender.

(* ------------------------------------------------------------------ *)
(** ** RTCP generic NACK (RFC 4585) *)

(** The [while (j < count && j < i + 17)] scan of the sizing loop, from
    [seq_nums[i + 1]] on, [k] being [i + 17 - j]: what is left at [j]. *)
Fixpoint nack_scan_count (rest : list Z) (pid : Z) (k : nat) : list Z :=
  match k, rest with
  | S k, s :: rest' =>
    let diff := seq_diff s pid in
    if (0 <? diff) && (diff <=? 16) then nack_scan_count rest' pid k else rest
  | _, _ => rest
  end.

Fixpoint nack_count_blocks (fuel : nat) (seqs : list Z) (blocks : Z) : res Z :=
  match fuel with
  | O => Fault
  | S fuel =>
    match seqs with
    | [] => Ok blocks
    | pid :: rest =>
      nack_count_blocks fuel (nack_scan_count rest pid 16) (blocks + 1)
    end
  end.

(** The same scan in the emitting loop, which also collects [blp]. *)
Fixpoint nack_scan_blp (rest : list Z) (pid blp : Z) (k : nat) : Z * list Z :=
  match k, rest with
  | S k, s :: rest' =>
    let diff := seq_diff s pid in
    if (0 <? diff) && (diff <=? 16)
    then nack_scan_blp rest' pid (u16 (Z.lor blp (Z.shiftl 1 (diff - 1)))) k
    else (blp, rest)
  | _, _ => (blp, rest)
  end.

Fixpoint nack_write_blocks (fuel : nat) (seqs b : list Z) (offset : Z)
    : res (list Z) :=
  match fuel with
  | O => Fault
  | S fuel =>
    match seqs with
    | [] => Ok b
    | pid :: rest =>
      let '(blp, rest) := nack_scan_blp rest pid 0 16 in
      b ← wr b offset [u8 (Z.land (Z.shiftr pid 8) 255); u8 (Z.land pid 255)];
      b ← wr b (offset + 2)
            [u8 (Z.land (Z.shiftr blp 8) 255); u8 (Z.land blp 255)];
      nack_write_blocks fuel rest b (offset + 4)
    end
  end.

(** The buffer afterwards and the value of [*len]. *)
Definition nack_build_rtcp (sender_ssrc media_ssrc : Z)
    (seq_nums : option (list Z)) (count : Z) (buffer : option (list Z))
    (l : option Z) : res (list Z * Z) :=
  let? seqs := seq_nums else Err in
  if count =? 0 then Err else
  let? b := buffer else Err in
  let? l := l else Err in
  seqs ← rd_slice seqs 0 (Z.max 0 count);
  blocks ← nack_count_blocks (S (length seqs)) seqs 0;
  let packet_len := 12 + blocks * 4 in
  if l <? packet_len then Err else
  b ← wr b 0 [Z.lor 128 1];
  b ← wr b 1 [205];
  b ← wr b 2 [u8 (Z.shiftr (packet_len / 4 - 1) 8)];
  b ← wr b 3 [u8 (Z.land (packet_len / 4 - 1) 255)];
  b ← write_u32 b 4 sender_ssrc;
  b ← write_u32 b 8 media_ssrc;
  b ← nack_write_blocks (S (length seqs)) seqs b 12;
  Ok (b, packet_len).

(** [for (i = 0; i < 16 && seq_count < max_count; i++)], [k] being
    [16 - i]; [room] is [max_count - seq_count].  The numbers stored. *)
Fixpoint nack_parse_bits (pid blp i : Z) (k : nat) (room : Z) : list Z :=
  match k with
  | O => []
  | S k =>
    if 0 <? room then
      if truth (Z.land blp (Z.shiftl 1 i))
      then u16 (pid + i + 1) :: nack_parse_bits pid blp (i + 1) k (room - 1)
      else nack_parse_bits pid blp (i + 1) k room
    else []
  end.

Fixpoint nack_parse_blocks (fuel : nat) (b : list Z) (l offset room : Z)
    : res (list Z) :=
  match fuel with
  | O => Fault
  | S fuel =>
    if (offset + 4 <=? l) && (0 <? room) then
      pid ← read_u16 b offset;
      blp ← read_u16 b (offset + 2);
      let here := pid :: nack_parse_bits pid blp 0 16 (room - 1) in
      rest ← nack_parse_blocks fuel b l (offset + 4) (room - len here);
      Ok (here ++ rest)
    else Ok []
  end.

(** [*sender_ssrc], [*media_ssrc] and the first [*count] elements of
    [seq_nums].  Each iteration consumes four bytes, which bounds the fuel. *)
Definition nack_parse_rtcp (buffer : option (list Z)) (l : Z)
    (sender_ssrc media_ssrc : option unit) (seq_nums count : option unit)
    (max_count : Z) : res (Z * Z * list Z) :=
  let? b := buffer else Err in
  if l <? 12 then Err else
  let? _ := sender_ssrc else Err in
  let? _ := media_ssrc else Err in
  let? _ := seq_nums else Err in
  let? _ := count else Err in
  b0 ← rd b 0;
  b1 ← rd b 1;
  if negb (Z.land b0 192 =? 128) then Err else
  if negb (b1 =? 205) then Err else
  if negb (Z.land b0 31 =? 1) then Err else
  ss ← read_u32 b 4;
  ms ← read_u32 b 8;
  seqs ← nack_parse_blocks (S (Z.to_nat l)) b l 12 max_count;
  Ok (ss, ms, seqs).

(* ------------------------------------------------------------------ *)
(** ** The receiver's invariant *)

Definition missing_seqs (m : list nack_entry_t) : list Z := seq_num <$> m.

Definition entry_wf (e : nack_entry_t) : Prop :=
  is_u16 (seq_num e) /\ 0 <= retry_count e <= NACK_MAX_RETRIES.

Record missing_wf (m : list nack_entry_t) : Prop := {
  mw_len : len m <= NACK_MAX_MISSING_PACKETS;
  mw_nodup : NoDup (missing_seqs m);
  mw_entries : Forall entry_wf m }.

Definition receiver_wf (r : nack_receiver_t) : Prop :=
  missing_wf (missing r) /\ is_u16 (highest_seq_received r).

(** Everything that the receiver's clients can do to it. *)
Inductive nack_receiver_step (r : nack_receiver_t) : nack_receiver_t -> Prop :=
  | step_packet seq now r' :
      is_u16 seq ->
      nack_receiver_process_packet (Some r) seq now = Some r' ->
      nack_receiver_step r r'
  | step_get_nacks max_count now r' out evs :
      nack_receiver_get_nacks (Some r) (Some tt) max_count now =
        (Some r', out, evs) ->
      nack_receiver_step r r'
  | step_cleanup now r' :
      nack_receiver_cleanup_old (Some r) now = Ok (Some r') ->
      nack_receiver_step r r'
  | step_callback f ud r' :
      nack_receiver_set_callback (Some r) f ud = Some r' ->
      nack_receiver_step r r'.

(** An entry that [nack_receiver_get_nacks] requests at time [now]. *)
Definition entry_eligible (now : Z) (e : nack_entry_t) : bool :=
  negb (entry_too_old e now || entry_exhausted e || entry_recent e now).

Definition entry_nacked (now : Z) (e : nack_entry_t) : nack_entry_t :=
  Build_nack_entry_t (seq_num e) (first_nack_time e) now (retry_count e + 1).

(* ------------------------------------------------------------------ *)
(** ** Receiver lemmas *)

(** Sequence arithmetic on numbers less than half the space apart. *)
Lemma seq_diff_unwrapped a b d :
  a = b + d -> -32768 < d < 32768 -> seq_diff (u16 a) (u16 b) = d.
Proof.
  intros -> Hd. unfold seq_diff, u16.
  destruct (Z.ltb_spec 32768 ((b + d) mod 65536 - b mod 65536)); [zmod_lia|].
  destruct (Z.ltb_spec ((b + d) mod 65536 - b mod 65536) (-32768)); zmod_lia.
Qed.

Lemma In_take {A} n (l : list A) x : In x (take n l) -> In x l.
Proof. intros. rewrite <- (take_drop n l). apply in_app_iff. by left. Qed.

Lemma existsb_missing m s :
  existsb (fun e => seq_num e =? s) m = true <-> s ∈ missing_seqs m.
Proof.
  unfold missing_seqs. rewrite existsb_exists, list_elem_of_fmap.
  split; intros (e & H1 & H2); exists e; rewrite ?list_elem_of_In in *; split;
    try done; lia.
Qed.

Lemma missing_seqs_app m k : missing_seqs (m ++ k) = missing_seqs m ++ missing_seqs k.
Proof. apply fmap_app. Qed.

Lemma add_missing_wf m s now :
  is_u16 s -> missing_wf m -> missing_wf (add_missing_packet m s now).
Proof.
  intros Hs [Hl Hn He]. unfold add_missing_packet.
  destruct (existsb _ m) eqn:E; [done|].
  destruct (Z.ltb_spec (len m) NACK_MAX_MISSING_PACKETS); [|done].
  constructor.
  - rewrite len_app. unfold len at 2. simpl. lia.
  - rewrite missing_seqs_app. apply NoDup_app. split; [done|].
    split; [|apply NoDup_singleton].
    intros x Hx ->%list_elem_of_singleton. apply existsb_missing in Hx. simpl in *.
    congruence.
  - apply Forall_app. split; [done|]. repeat constructor; try done; apply Hs.
Qed.

Lemma add_missing_loop_wf n m expected i now :
  missing_wf m -> missing_wf (add_missing_loop m expected i now n).
Proof.
  revert m i. induction n as [|n IH]; intros m i Hm; [done|].
  apply IH, add_missing_wf; [apply u16_range|done].
Qed.

(** What the gap loop tracks when there is room. *)
Lemma add_missing_loop_elem n m expected i now s :
  len m + Z.of_nat n <= NACK_MAX_MISSING_PACKETS ->
  s ∈ missing_seqs (add_missing_loop m expected i now n) <->
  s ∈ missing_seqs m \/ exists k, i <= k < i + Z.of_nat n /\ s = u16 (expected + k).
Proof.
  revert m i. induction n as [|n IH]; intros m i Hl; cbn [add_missing_loop].
  { split; [by left|intros [?|(k & ? & _)]; [done|lia]]. }
  set (t := u16 (expected + i)).
  assert (Hadd : forall x, x ∈ missing_seqs (add_missing_packet m t now) <->
    x ∈ missing_seqs m \/ x = t).
  { intros x. unfold add_missing_packet. destruct (existsb _ m) eqn:E.
    - apply existsb_missing in E. naive_solver.
    - replace (len m <? NACK_MAX_MISSING_PACKETS) with true by lia.
      rewrite missing_seqs_app, elem_of_app. cbn.
      by rewrite list_elem_of_singleton. }
  rewrite IH.
  2: { unfold add_missing_packet. repeat case_match; rewrite ?len_app; unfold len in *; simpl; lia. }
  rewrite Hadd. split.
  - intros [[?| ->]|(k & Hk & ->)]; [by left|right; exists i|right; exists k];
      (split; [lia|done]).
  - intros [?|(k & Hk & ->)]; [by left; left|].
    destruct (decide (k = i)) as [-> |]; [by left; right|right].
    exists k. split; [lia|done].
Qed.

Lemma find_missing_Some m s i :
  find_missing m s = Some i ->
  exists pre e post, m = pre ++ e :: post /\ length pre = i /\ seq_num e = s.
Proof.
  revert i. induction m as [|e m IH]; intros i; [done|]. cbn [find_missing].
  destruct (Z.eqb_spec (seq_num e) s) as [Heq|]; [intros [= <-]; by exists [], e, m|].
  destruct (find_missing m s) as [j|]; [|done]. intros [= <-].
  destruct (IH j eq_refl) as (pre & e' & post & -> & <- & He).
  by exists (e :: pre), e', post.
Qed.

Lemma find_missing_None m s : find_missing m s = None <-> s ∉ missing_seqs m.
Proof.
  induction m as [|e m IH]; cbn; [set_solver|].
  rewrite not_elem_of_cons. destruct (Z.eqb_spec (seq_num e) s) as [Heq|Hne].
  - split; [done|]. intros [? _]. congruence.
  - destruct (find_missing m s); naive_solver.
Qed.

Lemma missing_wf_app m1 m2 m3 :
  missing_wf (m1 ++ m2 ++ m3) -> missing_wf (m1 ++ m3).
Proof.
  intros [Hl Hn He]. constructor.
  - rewrite !len_app in *. pose proof (len_nonneg m2). lia.
  - rewrite !missing_seqs_app in *. apply NoDup_app in Hn as (? & Hd & Hn).
    apply NoDup_app in Hn as (_ & _ & ?). apply NoDup_app. set_solver.
  - rewrite !Forall_app in *. naive_solver.
Qed.

Lemma delete_app_mid {A} (pre : list A) e post :
  delete (length pre) (pre ++ e :: post) = pre ++ post.
Proof. by rewrite delete_middle. Qed.

Lemma remove_missing_spec r s :
  remove_missing_packet r s = r /\ s ∉ missing_seqs (missing r) \/
  exists pre e post, missing r = pre ++ [e] ++ post /\ seq_num e = s /\
    remove_missing_packet r s =
    Build_nack_receiver_t (nr_ssrc r) (highest_seq_received r)
      (initialized r) (pre ++ post) (packets_received r) (packets_lost r)
      (nacks_sent r) (retransmissions_received r + 1) (on_nack r) (nr_user_data r).
Proof.
  unfold remove_missing_packet. destruct (find_missing _ _) as [i|] eqn:E.
  - right. apply find_missing_Some in E as (pre & e & post & -> & <- & He).
    exists pre, e, post. by rewrite delete_app_mid.
  - left. by apply find_missing_None in E.
Qed.

Lemma eligible_spec now e :
  entry_eligible now e <->
  now - first_nack_time e <= 1000000 /\ retry_count e < 3 /\
  (last_nack_time e <= 0 \/ 100000 <= now - last_nack_time e).
Proof.
  rewrite Is_true_true. unfold entry_eligible, entry_too_old, entry_exhausted,
    entry_recent, NACK_MAX_PACKET_AGE_MS, NACK_MAX_RETRIES, NACK_RETRY_INTERVAL_MS.
  lia.
Qed.

(** The selection loop requests the first eligible entries, in order. *)
Lemma get_nacks_loop_out es count max now :
  count <= max ->
  (get_nacks_loop es count max now).2 =
  take (Z.to_nat (max - count)) (missing_seqs (filter (entry_eligible now) es)).
Proof.
  revert count. induction es as [|e es IH]; intros count Hc; [by destruct (Z.to_nat _)|].
  cbn [get_nacks_loop]. destruct (Z.ltb_spec count max).
  2: by replace (Z.to_nat (max - count)) with 0%nat by lia.
  destruct (entry_too_old e now || _ || _) eqn:E.
  - rewrite filter_cons_False
      by (unfold entry_eligible; rewrite E; by intros []).
    specialize (IH count Hc). by destruct (get_nacks_loop es count max now).
  - rewrite filter_cons_True by (unfold entry_eligible; by rewrite E). specialize (IH (count + 1) ltac:(lia)).
    destruct (get_nacks_loop es (count + 1) max now). simpl in *. subst.
    replace (Z.to_nat (max - count)) with (S (Z.to_nat (max - (count + 1)))) by lia.
    done.
Qed.

(** ... and stamps exactly the requested ones. *)
Lemma get_nacks_loop_entries es count max now :
  missing_seqs (get_nacks_loop es count max now).1 = missing_seqs es /\
  Forall2 (fun e e' => e' = e \/ entry_eligible now e /\ e' = entry_nacked now e)
    es (get_nacks_loop es count max now).1.
Proof.
  revert count. induction es as [|e es IH]; intros count; [by split|].
  cbn [get_nacks_loop]. destruct (count <? max).
  2: { split; [done|]. apply Forall_Forall2_diag, Forall_true. by left. }
  destruct (entry_too_old e now || _ || _) eqn:E.
  - specialize (IH count). destruct (get_nacks_loop es count max now). cbn in *.
    destruct IH as [-> ?]. split; [done|]. constructor; [by left|done].
  - specialize (IH (count + 1)). destruct (get_nacks_loop es (count + 1) max now).
    cbn in *. destruct IH as [-> ?]. split; [done|]. constructor; [|done].
    right. unfold entry_eligible. by rewrite E.
Qed.

Lemma get_nacks_loop_sub es count max now s :
  s ∈ (get_nacks_loop es count max now).2 -> s ∈ missing_seqs es.
Proof.
  revert count. induction es as [|e es IH]; intros count; [done|].
  cbn [get_nacks_loop]. destruct (count <? max); [|set_solver].
  destruct (entry_too_old e now || _ || _).
  - specialize (IH count). destruct (get_nacks_loop es count max now). set_solver.
  - specialize (IH (count + 1)). destruct (get_nacks_loop es (count + 1) max now).
    set_solver.
Qed.

(** The requested packets carry the time of the request. *)
Lemma get_nacks_loop_stamped es count max now :
  NoDup (missing_seqs es) ->
  forall s, s ∈ (get_nacks_loop es count max now).2 ->
  forall e, e ∈ (get_nacks_loop es count max now).1 -> seq_num e = s ->
  last_nack_time e = now.
Proof.
  revert count. induction es as [|e es IH]; intros count Hn; [set_solver|].
  cbn in Hn. apply NoDup_cons in Hn as [Hni Hn]. cbn [get_nacks_loop].
  destruct (count <? max); [|set_solver].
  assert (Hsub : forall c, (forall x, x ∈ (get_nacks_loop es c max now).2 -> x ∈ missing_seqs es)
     /\ (forall x, x ∈ (get_nacks_loop es c max now).1 -> seq_num x ∈ missing_seqs es)).
  { intros c. destruct (get_nacks_loop_entries es c max now) as [Hs _]. split.
    - intros x. apply get_nacks_loop_sub.
    - intros x Hx. rewrite <- Hs. by apply list_elem_of_fmap_2. }
  destruct (entry_too_old e now || _ || _).
  - specialize (IH count Hn). specialize (Hsub count).
    destruct (get_nacks_loop es count max now) as [m o]. cbn in *.
    destruct Hsub as [Hs1 Hs2].
    intros s Hs e' [-> | He']%elem_of_cons Heq; [|eauto].
    exfalso. apply Hni. rewrite Heq. by apply Hs1.
  - specialize (IH (count + 1) Hn). specialize (Hsub (count + 1)).
    destruct (get_nacks_loop es (count + 1) max now) as [m o]. cbn in *.
    destruct Hsub as [Hs1 Hs2].
    intros s [->|Hs]%elem_of_cons e' [->|He']%elem_of_cons Heq; cbn in *;
      [done| |exfalso; apply Hni; rewrite Heq; by apply Hs1|eauto].
    exfalso. apply Hni. rewrite <- Heq. by apply Hs2.
Qed.

Lemma get_nacks_loop_wf es count max now :
  missing_wf es -> missing_wf (get_nacks_loop es count max now).1.
Proof.
  intros [Hl Hn He].
  destruct (get_nacks_loop_entries es count max now) as [Hs H2].
  constructor.
  - apply Forall2_length in H2. unfold len in *. lia.
  - by rewrite Hs.
  - clear Hl Hn Hs. induction H2 as [|e e' es' es'' Hee _ IH]; [done|].
    inversion_clear He as [|? ? Hw He']. constructor; [|by apply IH].
    destruct Hee as [->|[Hel ->]]; [done|]. destruct Hw as [? ?].
    apply eligible_spec in Hel. split; [done|]. unfold NACK_MAX_RETRIES in *. cbn. lia.
Qed.

Definition entry_kept (now : Z) (e : nack_entry_t) : bool :=
  negb (entry_too_old e now || entry_exhausted e).

Lemma filter_all {A} (P : A -> Prop) `{!forall x, Decision (P x)} l :
  Forall P l -> filter P l = l.
Proof. induction 1; [done|]. rewrite filter_cons_True by done. by f_equal. Qed.

Lemma cleanup_loop_spec fuel pre es now :
  (length es < fuel)%nat -> Forall (entry_kept now) pre ->
  cleanup_loop fuel (pre ++ es) (length pre) now =
  Some (filter (entry_kept now) (pre ++ es)).
Proof.
  revert pre es. induction fuel as [|fuel IH]; intros pre es Hf Hpre; [lia|].
  cbn [cleanup_loop]. destruct es as [|e es].
  - rewrite app_nil_r, lookup_ge_None_2 by lia.
    by rewrite filter_all.
  - rewrite list_lookup_middle by done. cbn [length] in Hf.
    destruct (entry_too_old e now || entry_exhausted e) eqn:E.
    + rewrite delete_app_mid, IH by (done || lia). f_equal.
      rewrite !filter_app, filter_cons_False; [done|].
      unfold entry_kept. rewrite E. by intros [].
    + replace (S (length pre)) with (length (pre ++ [e])) by (rewrite length_app; simpl; lia).
      rewrite (cons_middle e pre es), app_assoc. apply IH; [lia|].
      apply Forall_app. split; [done|]. repeat constructor.
      unfold entry_kept. by rewrite E.
Qed.

Lemma missing_seqs_sublist m m' :
  sublist m m' -> sublist (missing_seqs m) (missing_seqs m').
Proof. induction 1; cbn; by constructor. Qed.

Lemma filter_missing_wf (P : nack_entry_t -> Prop) `{!forall e, Decision (P e)} m :
  missing_wf m -> missing_wf (filter P m).
Proof.
  intros [Hl Hn He]. constructor.
  - pose proof (length_filter P m). unfold len in *. lia.
  - eapply sublist_NoDup; [exact Hn|]. apply missing_seqs_sublist, sublist_filter.
  - rewrite Forall_forall in *. intros e [_ ?]%list_elem_of_filter. by apply He.
Qed.

(* ------------------------------------------------------------------ *)
(** ** Receiver properties *)

(** In every state reachable from creation, at most 100 packets are
    tracked, none twice, and none has been requested more than three times. *)
Theorem nack_receiver_invariant ssrc0 r r' :
  nack_receiver_create ssrc0 true = Some r ->
  rtc nack_receiver_step r r' -> receiver_wf r'.
Proof.
  intros [= <-] Hrun.
  assert (Hwf : receiver_wf (Build_nack_receiver_t ssrc0 0 0 [] 0 0 0 0 None 0))
    by (split; [constructor; [done|apply NoDup_nil_2|done]|done]).
  induction Hrun as [|r r1 r2 Hst _ IH]; [done|]. apply IH. clear IH.
  destruct Hwf as [Hm Hh].
  destruct Hst as [seq now r1 Hs Hp|max now r1 out evs Hg|now r1 Hc|f ud r1 Hc].
  - unfold nack_receiver_process_packet in Hp. case_match; [by injection Hp as <-|].
    case_match.
    + injection Hp as <-.
      destruct (remove_missing_spec r seq) as [[-> _]|(pre & e & post & Hr & _ & ->)];
        [by split|split; [|done]].
      cbn. rewrite Hr in Hm. by apply missing_wf_app in Hm.
    + injection Hp as <-. split; [|done]. cbn.
      case_match; [by apply add_missing_loop_wf|done].
  - unfold nack_receiver_get_nacks in Hg. case_match; [by simplify_eq|].
    pose proof (get_nacks_loop_wf (missing r) 0 max now Hm).
    destruct (get_nacks_loop _ _ _ _). injection Hg as <- _ _. by split.
  - unfold nack_receiver_cleanup_old in Hc.
    rewrite (cleanup_loop_spec _ [] (missing r)) in Hc by (done || lia).
    injection Hc as <-. split; [|done]. by apply filter_missing_wf.
  - injection Hc as <-. by split.
Qed.

(** A packet that jumps ahead of the highest one by [gap + 1] (less than
    half the sequence space) adds [gap] to the loss count and, if there is
    room, starts tracking exactly the skipped numbers, across the wrap of the
    sequence number. *)
Theorem nack_gap_tracked r h gap now :
  initialized r = 1 -> highest_seq_received r = u16 h ->
  0 <= gap < 32767 ->
  len (missing r) + gap <= NACK_MAX_MISSING_PACKETS ->
  exists r', nack_receiver_process_packet (Some r) (u16 (h + gap + 1)) now = Some r' /\
    highest_seq_received r' = u16 (h + gap + 1) /\
    packets_received r' = packets_received r + 1 /\
    packets_lost r' = packets_lost r + gap /\
    forall s, s ∈ missing_seqs (missing r') <->
      s ∈ missing_seqs (missing r) \/
      exists k, 1 <= k <= gap /\ s = u16 (h + k).
Proof.
  intros Hi Hh Hg Hl. unfold nack_receiver_process_packet. rewrite Hi, Hh. cbn [truth Z.eqb negb].
  rewrite (seq_diff_unwrapped _ _ (gap + 1)) by lia. replace (gap + 1 <=? 0) with false by lia.
  assert (He : u16 (u16 h + 1) = u16 (h + 1)) by (unfold u16; zmod_lia).
  assert (Hgap : seq_diff (u16 (h + gap + 1)) (u16 (h + 1)) = gap)
    by (apply seq_diff_unwrapped; lia).
  rewrite He, Hgap. eexists. split; [done|]. cbn.
  unfold NACK_MAX_MISSING_PACKETS in *. pose proof (len_nonneg (missing r)).
  split; [done|]. split; [done|]. destruct (Z.ltb_spec 0 gap).
  - split; [done|]. intros s. rewrite add_missing_loop_elem
      by (unfold NACK_MAX_MISSING_PACKETS; lia).
    assert (Hu : forall k, u16 (u16 (h + 1) + k) = u16 (h + (k + 1)))
      by (intros; unfold u16; zmod_lia).
    split; (intros [?|(k & Hk & ->)]; [by left|right]).
    + exists (k + 1). split; [lia|apply Hu].
    + exists (k - 1). split; [lia|]. rewrite Hu. f_equal. lia.
  - split; [lia|]. intros s. split; [by left|]. intros [?|(k & ? & _)]; [done|lia].
Qed.

(** A poll requests the first [max_count] eligible packets in tracking
    order (not older than a second, requested fewer than three times and not
    within the last 100 ms), reports them to the callback once, and no later
    poll within 100 ms requests any of them again. *)
Theorem nack_get_nacks_spec r max now :
  receiver_wf r -> 0 < max -> 0 < now ->
  let out := take (Z.to_nat max)
               (missing_seqs (filter (entry_eligible now) (missing r))) in
  exists r' evs,
    nack_receiver_get_nacks (Some r) (Some tt) max now = (Some r', out, evs) /\
    evs = (match on_nack r with
           | Some f => if decide (out = []) then []
                       else [Build_nack_event f (nr_user_data r) (nr_ssrc r) out]
           | None => [] end) /\
    missing_seqs (missing r') = missing_seqs (missing r) /\
    forall max' now', now <= now' < now + NACK_RETRY_INTERVAL_MS * 1000 ->
      forall s, s ∈ out ->
        s ∉ (nack_receiver_get_nacks (Some r') (Some tt) max' now').1.2.
Proof.
  intros [Hm _] Hmax Hnow out. unfold nack_receiver_get_nacks.
  replace (max =? 0) with false by lia.
  pose proof (get_nacks_loop_out (missing r) 0 max now ltac:(lia)) as Ho.
  pose proof (get_nacks_loop_stamped (missing r) 0 max now (mw_nodup _ Hm)) as Hst.
  pose proof (get_nacks_loop_entries (missing r) 0 max now) as [Hs _].
  rewrite Z.sub_0_r in Ho. fold out in Ho.
  destruct (get_nacks_loop (missing r) 0 max now) as [m o]. cbn [fst snd] in *. subst o.
  do 2 eexists. split; [done|]. split; [|split; [done|]].
  { destruct out; [by destruct (on_nack r)|]. by destruct (on_nack r). }
  intros max' now' Hn s Hin. cbn. destruct (max' =? 0); [apply not_elem_of_nil|].
  intros Hin'. assert (Hf : s ∈ missing_seqs (filter (entry_eligible now') m)).
  { destruct (Z.le_gt_cases 0 max').
    - pose proof (get_nacks_loop_out m 0 max' now' ltac:(done)) as Ho'.
      destruct (get_nacks_loop m 0 max' now'). cbn in *. subst.
      apply list_elem_of_In. apply list_elem_of_In in Hin'.
      by eapply In_take, Hin'.
    - exfalso. revert Hin'. destruct m; cbn; [set_solver|].
      replace (0 <? max') with false by lia. set_solver. }
  apply list_elem_of_fmap in Hf as (e & -> & [Hel He]%list_elem_of_filter).
  apply eligible_spec in Hel. rewrite (Hst _ Hin e He eq_refl) in Hel.
  unfold NACK_RETRY_INTERVAL_MS in *. lia.
Qed.

(** C3: the in-place cleanup loop terminates and keeps exactly the entries
    that are neither older than a second nor exhausted, in order. *)
Theorem nack_cleanup_filters r now :
  nack_receiver_cleanup_old (Some r) now =
  Ok (Some (set_missing r (filter (fun e =>
      now - first_nack_time e <= 1000000 /\ retry_count e < 3) (missing r)))).
Proof.
  unfold nack_receiver_cleanup_old.
  rewrite (cleanup_loop_spec _ [] (missing r)) by (done || lia).
  do 3 f_equal. apply list_filter_iff. intros e.
  rewrite Is_true_true. unfold entry_kept, entry_too_old, entry_exhausted,
    NACK_MAX_PACKET_AGE_MS, NACK_MAX_RETRIES. lia.
Qed.

(** A tracked packet that arrives late stops being tracked, counts as
    one retransmission received, and the other tracked packets stay, so no
    later poll requests it. *)
Theorem nack_late_packet_untracked r seq now :
  receiver_wf r -> initialized r = 1 -> seq ∈ missing_seqs (missing r) ->
  seq_diff seq (highest_seq_received r) <= 0 ->
  exists r', nack_receiver_process_packet (Some r) seq now = Some r' /\
    retransmissions_received r' = retransmissions_received r + 1 /\
    highest_seq_received r' = highest_seq_received r /\
    (forall s, s ∈ missing_seqs (missing r') <->
               s ∈ missing_seqs (missing r) /\ s <> seq) /\
    forall max t, seq ∉ (nack_receiver_get_nacks (Some r') (Some tt) max t).1.2.
Proof.
  intros [Hm _] Hi Hin Hd. unfold nack_receiver_process_packet. rewrite Hi.
  cbn [truth Z.eqb negb]. replace (_ <=? 0) with true by lia.
  destruct (remove_missing_spec r seq) as [[_ ?]|(pre & e & post & Hr & He & ->)];
    [done|].
  eexists. split; [done|]. cbn. split; [done|]. split; [done|].
  assert (Hs : forall s, s ∈ missing_seqs (pre ++ post) <->
    s ∈ missing_seqs (missing r) /\ s <> seq).
  { pose proof (mw_nodup _ Hm) as Hn. rewrite Hr, !missing_seqs_app in *.
    cbn in Hn. rewrite He in Hn. apply NoDup_app in Hn as (_ & Hd1 & Hn).
    apply NoDup_cons in Hn as [Hd2 _]. cbn. rewrite He. set_solver. }
  split; [done|]. intros max t. destruct (max =? 0); [apply not_elem_of_nil|].
  destruct (get_nacks_loop (pre ++ post) 0 max t) as [m out] eqn:E. cbn.
  intros Hout. assert (Hx : seq ∈ (get_nacks_loop (pre ++ post) 0 max t).2) by by rewrite E.
  apply get_nacks_loop_sub, Hs in Hx. naive_solver.
Qed.

(* ------------------------------------------------------------------ *)
(** ** Sender properties *)

Section sender_props.
Context {S : Type} `{!RetransmitStore S}.

(** What the store holds for the requested numbers, in request order. *)
Definition retransmittable (s : S) (seqs : list Z) : list (list Z) :=
  omap (store_view s) seqs.

Lemma retransmittable_cons s x seqs :
  retransmittable s (x :: seqs) =
  match store_view s x with
  | Some p => p :: retransmittable s seqs
  | None => retransmittable s seqs
  end.
Proof. done. Qed.

Lemma process_nack_loop_spec n s seqs scratch k :
  history n = Some s -> store_ok s ->
  store_capacity s <= len scratch ->
  exists n', process_nack_loop n seqs scratch k =
    Ok (n', k + len (retransmittable s seqs),
        match on_retransmit n with
        | Some f => Build_retransmit_event f (ns_user_data n) <$>
                      retransmittable s seqs
        | None => [] end) /\
    n' = Build_nack_sender_t (ns_ssrc n) (Some s) (nacks_received n)
           (packets_retransmitted n + len (retransmittable s seqs))
           (retransmit_failures n +
            (len seqs - len (retransmittable s seqs)))
           (on_retransmit n) (ns_user_data n).
Proof.
  intros Hh Hok Hfit. revert n k Hh. induction seqs as [|x seqs IH]; intros n k Hh.
  - exists n. change (retransmittable s []) with (@nil (list Z)).
    rewrite !len_nil, !Z.add_0_r. split; [by cbn; destruct (on_retransmit n)|].
    by destruct n; cbn in *; subst.
  - cbn [process_nack_loop]. rewrite Hh, store_get_law by done.
    rewrite retransmittable_cons. destruct (store_view s x) as [p|] eqn:Hv.
    + pose proof (store_view_len _ _ _ Hok Hv).
      replace (len scratch <? len p) with false by lia.
      set (n1 := Build_nack_sender_t _ _ _ _ _ _ _).
      destruct (IH n1 (k + 1) eq_refl) as (n' & -> & Hn'). cbn [mbind res_bind].
      exists n'. split.
      * rewrite len_cons, (Z.add_assoc k). cbn [on_retransmit ns_user_data n1].
        destruct (on_retransmit n); [|done].
        by rewrite len_to_nat, take_app_length.
      * subst n'. cbn. rewrite !len_cons. f_equal; lia.
    + set (n1 := Build_nack_sender_t _ _ _ _ _ _ _).
      destruct (IH n1 k eq_refl) as (n' & -> & ->). eexists. split; [done|].
      cbn. rewrite len_cons. f_equal; lia.
Qed.

(** For any store that satisfies the interface's laws, answering a
    NACK of [count] numbers resends, in request order, exactly those the
    store still holds, byte for byte, returns how many, and counts each
    request as either retransmitted or failed; with no callback it resends
    nothing but counts the same. *)
Theorem nack_process_nack_spec n s seqs scratch :
  history n = Some s -> store_ok s -> seqs <> [] ->
  store_capacity s <= len scratch ->
  exists n' evs,
    nack_sender_process_nack (Some n) (Some seqs) (len seqs) scratch =
      Ok (Some n', len (retransmittable s seqs), evs) /\
    re_packet <$> evs =
      (if on_retransmit n then retransmittable s seqs else []) /\
    history n' = Some s /\
    nacks_received n' = nacks_received n + 1 /\
    packets_retransmitted n' =
      packets_retransmitted n + len (retransmittable s seqs) /\
    packets_retransmitted n' + retransmit_failures n' =
      packets_retransmitted n + retransmit_failures n + len seqs.
Proof.
  intros Hh Hok Hne Hfit. unfold nack_sender_process_nack.
  replace (len seqs =? 0) with false by (destruct seqs; [done|len_lia]).
  rewrite rd_slice_all by len_lia. cbn [mbind res_bind].
  set (n0 := Build_nack_sender_t _ _ _ _ _ _ _).
  destruct (process_nack_loop_spec n0 s seqs scratch 0 Hh Hok Hfit)
    as (n' & -> & ->). cbn [mbind res_bind].
  do 2 eexists. split; [done|]. cbn [fst snd on_retransmit n0].
  split; [|cbn; split_and!; lia || done].
  destruct (on_retransmit n); [|done].
  rewrite <- list_fmap_compose. apply list_fmap_id.
Qed.
End sender_props.

(* ------------------------------------------------------------------ *)
(** ** Wire format lemmas *)

(** The FCI blocks of a request, what they put on the wire and the numbers
    they denote. *)
Fixpoint nack_blocks (fuel : nat) (seqs : list Z) : list (Z * Z) :=
  match fuel, seqs with
  | S fuel, pid :: rest =>
    let '(blp, rest) := nack_scan_blp rest pid 0 16 in
    (pid, blp) :: nack_blocks fuel rest
  | _, _ => []
  end.

Definition block_wire (b : Z * Z) : list Z := be16 b.1 ++ be16 b.2.
Definition blocks_wire (bs : list (Z * Z)) : list Z := bs ≫= block_wire.

Definition blp_bits (blp : Z) : list Z := filter (fun i => Z.testbit blp i) (seqZ 0 16).
Definition block_nums (b : Z * Z) : list Z :=
  b.1 :: ((fun i => u16 (b.1 + i + 1)) <$> blp_bits b.2).

Lemma len_blocks_wire bs : len (blocks_wire bs) = 4 * len bs.
Proof.
  induction bs as [|b bs IH]; [done|].
  change (blocks_wire (b :: bs)) with (block_wire b ++ blocks_wire bs).
  rewrite len_app, IH, len_cons. unfold block_wire. len_lia.
Qed.

Lemma land_bit_truth a i : 0 <= i -> truth (Z.land a (Z.shiftl 1 i)) = Z.testbit a i.
Proof.
  intros Hi. unfold truth. rewrite Z.shiftl_1_l.
  destruct (Z.testbit a i) eqn:E.
  - destruct (Z.eqb_spec (Z.land a (2 ^ i)) 0) as [H0|]; [|done].
    apply (f_equal (fun z => Z.testbit z i)) in H0.
    by rewrite Z.land_spec, Z.pow2_bits_true, E, Z.bits_0 in H0 by done.
  - replace (Z.land a (2 ^ i)) with 0; [done|]. apply Z.bits_inj'. intros j Hj.
    rewrite Z.bits_0, Z.land_spec, Z.pow2_bits_eqb by done.
    destruct (Z.eqb_spec i j) as [->|]; [by rewrite E|by rewrite andb_false_r].
Qed.

Lemma parse_bits_spec pid blp i k room :
  0 <= i -> 0 <= room ->
  nack_parse_bits pid blp i k room =
  take (Z.to_nat room) ((fun i => u16 (pid + i + 1)) <$>
    filter (fun i => Z.testbit blp i) (seqZ i (Z.of_nat k))).
Proof.
  revert i room. induction k as [|k IH]; intros i room Hi Hr.
  { rewrite seqZ_nil by lia. cbn. by destruct (Z.to_nat room). }
  cbn [nack_parse_bits]. destruct (Z.ltb_spec 0 room).
  2: { by replace (Z.to_nat room) with 0%nat by lia. }
  rewrite (seqZ_cons i) by lia. rewrite land_bit_truth by done.
  replace (Z.pred (Z.of_nat (S k))) with (Z.of_nat k) by lia.
  destruct (Z.testbit blp i) eqn:E.
  - rewrite filter_cons_True by (by rewrite E). rewrite IH by lia.
    replace (Z.to_nat room) with (S (Z.to_nat (room - 1))) by lia. done.
  - rewrite filter_cons_False by (rewrite E; by intros []). by rewrite IH by lia.
Qed.

Lemma parse_block_here pid blp room :
  0 < room ->
  pid :: nack_parse_bits pid blp 0 16 (room - 1) =
  take (Z.to_nat room) (block_nums (pid, blp)).
Proof.
  intros Hr. rewrite parse_bits_spec by lia.
  by replace (Z.to_nat room) with (S (Z.to_nat (room - 1))) by lia.
Qed.

Definition u16_pair (b : Z * Z) : Prop := is_u16 b.1 /\ is_u16 b.2.

Lemma parse_blocks_spec bs fuel pre post l room :
  (length bs < fuel)%nat -> l = len pre + 4 * len bs -> 0 <= room ->
  Forall u16_pair bs ->
  nack_parse_blocks fuel (pre ++ blocks_wire bs ++ post) l (len pre) room =
  Ok (take (Z.to_nat room) (bs ≫= block_nums)).
Proof.
  revert fuel pre l room. induction bs as [|[pid blp] bs IH];
    intros fuel pre l room Hf -> Hr Hb; (destruct fuel as [|fuel]; [simpl in Hf; lia|]);
    cbn [nack_parse_blocks].
  { replace (_ <=? _) with false by len_lia. by destruct (Z.to_nat room). }
  rewrite len_cons. pose proof (len_nonneg bs).
  replace (_ <=? _) with true by lia. destruct (Z.ltb_spec 0 room).
  2: { by replace (Z.to_nat room) with 0%nat by lia. }
  cbn [andb]. apply Forall_cons in Hb as [[Hp Hbl] Hb]. cbn [fst snd] in *.
  change (blocks_wire ((pid, blp) :: bs)) with
    ((be16 pid ++ be16 blp) ++ blocks_wire bs).
  rewrite <- !app_assoc, (read_u16_mid pre _ _ (len pre)) by done. cbn [mbind res_bind].
  rewrite (app_assoc pre), (read_u16_mid (pre ++ be16 pid)) by (done || len_lia). cbn [mbind res_bind].
  rewrite app_assoc. rewrite parse_block_here by done.
  set (here := take _ _). set (pre' := (pre ++ be16 pid) ++ be16 blp).
  assert (Hl : len here <= room) by (unfold here; rewrite len_take; lia).
  replace (len pre + 4) with (len pre') by (unfold pre'; len_lia).
  rewrite IH; [|simpl in Hf; lia|unfold pre'; len_lia|lia|done].
  cbn [mbind res_bind]. f_equal. rewrite bind_cons, take_app. fold here. f_equal. f_equal.
  unfold here. rewrite len_take. unfold len. lia.
Qed.

(** Setting one bit adds at most one number. *)
Lemma blp_bits_grow blp blp' d :
  (forall i, 0 <= i < 16 -> Z.testbit blp' i = true ->
     Z.testbit blp i = true \/ i = d) ->
  (length (blp_bits blp') <= S (length (blp_bits blp)))%nat.
Proof.
  intros H. change (S (length (blp_bits blp))) with (length (d :: blp_bits blp)).
  apply submseteq_length, NoDup_submseteq.
  { apply NoDup_filter, NoDup_seqZ. }
  intros i [Ht Hi]%list_elem_of_filter. rewrite elem_of_cons.
  destruct (H i) as [Hb | ->]; [apply elem_of_seqZ in Hi; lia|by apply Is_true_true|right|by left].
  apply list_elem_of_filter. split; [by apply Is_true_true|done].
Qed.

(** The scan consumes a run of numbers at distance 1 to 16 from [pid] and
    sets the bit of each. *)
Lemma scan_blp_spec rest pid blp k :
  exists run blp', nack_scan_blp rest pid blp k = (blp', nack_scan_count rest pid k) /\
    rest = run ++ nack_scan_count rest pid k /\ (is_u16 blp -> is_u16 blp') /\
    Forall (fun s => 0 < seq_diff s pid <= 16) run /\
    (forall i, 0 <= i < 16 -> Z.testbit blp' i =
       Z.testbit blp i || existsb (fun s => seq_diff s pid =? i + 1) run) /\
    (length (blp_bits blp') <= length (blp_bits blp) + length run)%nat.
Proof.
  revert blp k. induction rest as [|s rest IH]; intros blp k.
  { exists [], blp. destruct k; cbn; (split_and!; try done; intros;
      by rewrite ?orb_false_r || lia). }
  destruct k as [|k]; cbn [nack_scan_blp nack_scan_count].
  { exists [], blp. cbn. split_and!; try done; [intros; by rewrite orb_false_r|lia]. }
  destruct ((0 <? seq_diff s pid) && (seq_diff s pid <=? 16)) eqn:E.
  2: { exists [], blp. cbn. split_and!; try done; [intros; by rewrite orb_false_r|lia]. }
  set (d := seq_diff s pid) in *. set (blp1 := u16 (Z.lor blp (Z.shiftl 1 (d - 1)))).
  assert (Hbit : forall i, 0 <= i < 16 -> Z.testbit blp1 i = Z.testbit blp i || (d =? i + 1)).
  { intros i Hi. unfold blp1, u16. rewrite (Z.mod_pow2_bits_low _ 16) by lia.
    rewrite Z.lor_spec, Z.shiftl_1_l, Z.pow2_bits_eqb by lia. f_equal. lia. }
  destruct (IH blp1 k) as (run & blp' & -> & Hrest & Hu & Hrun & Hbits & Hlen).
  exists (s :: run), blp'. split_and!; try done.
  - cbn. by f_equal.
  - intros _. apply Hu, u16_range.
  - constructor; [fold d; lia|done].
  - intros i Hi. rewrite Hbits, Hbit by done. cbn [existsb]. fold d.
    by rewrite orb_assoc.
  - cbn [length]. assert (length (blp_bits blp1) <= S (length (blp_bits blp)))%nat;
      [|lia]. apply blp_bits_grow with (d - 1). intros i Hi Ht.
    rewrite Hbit in Ht by done. apply orb_true_iff in Ht as [?|?]; [by left|right; lia].
Qed.

Lemma seq_diff_inv s pid d :
  is_u16 s -> is_u16 pid -> 0 < d <= 16 ->
  seq_diff s pid = d <-> s = u16 (pid + d).
Proof.
  intros Hs Hp Hd. split.
  - unfold seq_diff, u16, is_u16 in *.
    destruct (Z.ltb_spec 32768 (s - pid)); [zmod_lia|].
    destruct (Z.ltb_spec (s - pid) (-32768)); zmod_lia.
  - intros ->. rewrite <- (u16_id pid) at 2 by done. apply seq_diff_unwrapped; lia.
Qed.

(** A block denotes [pid] and the run it absorbed, and no more numbers than
    that. *)
Lemma scan_block_nums rest pid blp' rest' :
  Forall is_u16 (pid :: rest) -> nack_scan_blp rest pid 0 16 = (blp', rest') ->
  u16_pair (pid, blp') /\ Forall is_u16 rest' /\
  nack_scan_count rest pid 16 = rest' /\
  (length rest' <= length rest)%nat /\
  (length (block_nums (pid, blp')) + length rest' <= S (length rest))%nat /\
  forall x, x ∈ pid :: rest <-> x ∈ block_nums (pid, blp') \/ x ∈ rest'.
Proof.
  intros Hu E. destruct (scan_blp_spec rest pid 0 16)
    as (run & b & Eb & Hrest & Hb & Hrun & Hbits & Hlen).
  rewrite E in Eb. injection Eb as <- Er. rewrite <- Er in Hrest.
  apply Forall_cons in Hu as [Hp Hu]. subst rest.
  apply Forall_app in Hu as [Hu1 Hu2].
  assert (Hbu : is_u16 blp') by by apply Hb.
  assert (Hsub : (length run + length rest')%nat = length (run ++ rest'))
    by (by rewrite length_app).
  split_and!; try done; [lia|..].
  { unfold block_nums. cbn [length fst snd]. rewrite length_fmap.
    change (length (blp_bits 0)) with 0%nat in Hlen. lia. }
  intros x. rewrite elem_of_cons, elem_of_app. unfold block_nums. cbn [fst snd].
  rewrite elem_of_cons, list_elem_of_fmap.
  enough (Hx : x ∈ run <-> exists i, x = u16 (pid + i + 1) /\ i ∈ blp_bits blp') by (rewrite Hx; tauto).
  unfold blp_bits. rewrite !Forall_forall in *. split.
  - intros Hin. exists (seq_diff x pid - 1). pose proof (Hrun x Hin) as Hd.
    split.
    + replace (pid + (seq_diff x pid - 1) + 1) with (pid + seq_diff x pid) by lia.
      apply seq_diff_inv; auto.
    + apply list_elem_of_filter. rewrite elem_of_seqZ. split; [|lia].
      rewrite Hbits by lia. apply Is_true_true, orb_true_iff. right.
      apply existsb_exists. exists x. split; [by apply list_elem_of_In|lia].
  - intros (i & -> & [Ht Hi%elem_of_seqZ]%list_elem_of_filter).
    rewrite Hbits in Ht by lia. rewrite Z.bits_0 in Ht.
    apply Is_true_true, existsb_exists in Ht as (s & Hs%list_elem_of_In & Hd).
    rewrite <- Z.add_assoc. assert (Hsd : s = u16 (pid + (i + 1)));
      [apply seq_diff_inv; auto; lia|by rewrite <- Hsd].
Qed.

Lemma nack_blocks_spec fuel seqs :
  (length seqs < fuel)%nat -> Forall is_u16 seqs ->
  let bs := nack_blocks fuel seqs in
  Forall u16_pair bs /\ (length bs <= length seqs)%nat /\
  (length (bs ≫= block_nums) <= length seqs)%nat /\
  (forall x, x ∈ bs ≫= block_nums <-> x ∈ seqs) /\
  forall n, nack_count_blocks fuel seqs n = Ok (n + len bs).
Proof.
  revert seqs. induction fuel as [|fuel IH]; intros seqs Hf Hu; [lia|].
  destruct seqs as [|pid rest]; cbn [nack_blocks nack_count_blocks].
  { split_and!; try done. intros n. by rewrite len_nil, Z.add_0_r. }
  destruct (nack_scan_blp rest pid 0 16) as [blp' rest'] eqn:E.
  destruct (scan_block_nums _ _ _ _ Hu E) as (Hp & Hu' & -> & Hl & Hn & Hx).
  cbn [length] in Hf.
  destruct (IH rest' ltac:(lia) Hu') as (H1 & H2 & H3 & H4 & H5).
  rewrite bind_cons, length_app. cbn [length]. split_and!; [by constructor|lia|lia|..].
  - intros x. rewrite elem_of_app, H4, Hx. done.
  - intros n. rewrite H5, len_cons. f_equal. lia.
Qed.

Lemma be16_land v : is_u16 v ->
  [u8 (Z.land (Z.shiftr v 8) 255); u8 (Z.land v 255)] = be16 v.
Proof. intros Hv. unfold be16. rewrite land255. unfold u8. by rewrite Zmod_mod. Qed.

Lemma write_blocks_spec fuel seqs pre rest :
  (length seqs < fuel)%nat -> Forall is_u16 seqs ->
  4 * len (nack_blocks fuel seqs) <= len rest ->
  nack_write_blocks fuel seqs (pre ++ rest) (len pre) =
  Ok (pre ++ blocks_wire (nack_blocks fuel seqs) ++
      drop (length (blocks_wire (nack_blocks fuel seqs))) rest).
Proof.
  revert seqs pre rest. induction fuel as [|fuel IH]; intros seqs pre rest Hf Hu Hl; [lia|].
  destruct seqs as [|pid seqs]; cbn [nack_blocks nack_write_blocks] in *; [done|].
  destruct (nack_scan_blp seqs pid 0 16) as [blp seqs'] eqn:E.
  destruct (scan_block_nums _ _ _ _ Hu E) as ([Hp Hb] & Hu' & _ & Hls & _).
  cbn [fst snd] in Hp, Hb. rewrite len_cons in Hl. cbn [length] in Hf.
  pose proof (len_nonneg (nack_blocks fuel seqs')).
  rewrite !be16_land by done.
  rewrite wr_next by (done || len_lia). cbn [mbind res_bind].
  rewrite wr_next by len_lia. cbn [mbind res_bind].
  set (pre' := (pre ++ be16 pid) ++ be16 blp). rewrite drop_drop.
  replace (len pre + 4) with (len pre') by (unfold pre'; len_lia).
  rewrite IH by (done || lia || (rewrite len_drop; cbn; lia)).
  unfold pre', blocks_wire. rewrite bind_cons, drop_drop. unfold block_wire at 2 4.
  cbn [fst snd]. rewrite <- !app_assoc. do 6 f_equal.
Qed.

(* ------------------------------------------------------------------ *)
(** ** Wire format properties *)

Lemma be16_u16 v : be16 (u16 v) = be16 v.
Proof.
  unfold be16, u8, u16. rewrite !shiftr8, !land255. f_equal; [|f_equal]; zmod_lia.
Qed.

(** The twelve header bytes, whatever the packet length. *)
Lemma nack_header_writes b ss ms n :
  12 <= len b ->
  (b ← wr b 0 [Z.lor 128 1]; b ← wr b 1 [205];
   b ← wr b 2 [u8 (Z.shiftr n 8)]; b ← wr b 3 [u8 (Z.land n 255)];
   b ← write_u32 b 4 ss; write_u32 b 8 ms) =
  Ok (([129; 205] ++ be16 n ++ be32 ss ++ be32 ms) ++ drop 12 b).
Proof.
  intros Hb. rewrite wr_front by len_lia. cbn [mbind res_bind].
  unfold write_u32. rewrite wr_next by len_lia. cbn [mbind res_bind].
  rewrite (wr_next ([_] ++ [205])) by len_lia. cbn [mbind res_bind].
  rewrite (wr_next _ _ [u8 (Z.land _ _)]) by len_lia. cbn [mbind res_bind].
  rewrite (wr_next _ _ (be32 ss)) by len_lia. cbn [mbind res_bind].
  rewrite (wr_next _ _ (be32 ms)) by len_lia. rewrite !drop_drop. done.
Qed.

(** A NACK packet of [n] bytes: header and blocks. *)
Definition nack_header (ss ms n : Z) : list Z :=
  [129; 205] ++ be16 (n / 4 - 1) ++ be32 ss ++ be32 ms.

(** What the builder writes, and where. *)
Lemma nack_built ss ms seqs b :
  let bs := nack_blocks (S (length seqs)) seqs in
  let n := 12 + len bs * 4 in
  Forall is_u16 seqs -> seqs <> [] -> n <= len b ->
  nack_build_rtcp ss ms (Some seqs) (len seqs) (Some b) (Some (len b)) =
  Ok (nack_header ss ms n ++ blocks_wire bs ++
      drop (length (blocks_wire bs)) (drop 12 b), n).
Proof.
  intros bs n Hu Hne Hb. pose proof (len_nonneg bs).
  destruct (nack_blocks_spec (S (length seqs)) seqs ltac:(lia) Hu)
    as (_ & _ & _ & _ & Hcount).
  unfold nack_build_rtcp.
  replace (len seqs =? 0) with false by (destruct seqs; [done|len_lia]).
  rewrite rd_slice_all by len_lia. cbn [mbind res_bind]. rewrite Hcount.
  cbn [mbind res_bind]. rewrite Z.add_0_l. fold bs n.
  replace (len b <? n) with false by lia.
  pose proof (nack_header_writes b ss ms (n / 4 - 1) ltac:(lia)) as Hh.
  fold (nack_header ss ms n) in Hh.
  repeat (apply bind_Ok in Hh as (? & -> & Hh); cbn [mbind res_bind]).
  rewrite Hh. cbn [mbind res_bind]. change 12 with (len (nack_header ss ms n)) at 1.
  by rewrite write_blocks_spec by (lia || done || (rewrite len_drop; fold bs; lia)).
Qed.

(** What the parser reads back. *)
Lemma nack_parsed ss ms bs n tail max :
  is_u32 ss -> is_u32 ms -> n = 12 + len bs * 4 ->
  Forall u16_pair bs ->
  len (bs ≫= block_nums) <= max ->
  nack_parse_rtcp (Some (nack_header ss ms n ++ blocks_wire bs ++ tail)) n
    (Some tt) (Some tt) (Some tt) (Some tt) max = Ok (ss, ms, bs ≫= block_nums).
Proof.
  intros Hss Hms -> Hp Hmax. pose proof (len_nonneg bs).
  set (n := 12 + len bs * 4). set (out := nack_header ss ms n ++ _).
  unfold nack_parse_rtcp. replace (n <? 12) with false by lia.
  assert (R1 : read_u32 out 4 = Ok ss).
  { unfold out, nack_header. rewrite <- !app_assoc, app_assoc.
    by apply (read_u32_mid ([129; 205] ++ be16 (n / 4 - 1))). }
  assert (R2 : read_u32 out 8 = Ok ms).
  { unfold out, nack_header. rewrite <- !app_assoc, app_assoc, app_assoc.
    by apply (read_u32_mid (([129; 205] ++ be16 (n / 4 - 1)) ++ be32 ss)). }
  change (rd out 0) with (Ok 129 : res Z). change (rd out 1) with (Ok 205 : res Z).
  rewrite R1, R2. change (negb (Z.land 129 192 =? 128)) with false.
  change (negb (Z.land 129 31 =? 1)) with false.
  cbn [mbind res_bind Z.eqb Pos.eqb negb]. unfold out. change 12 with (len (nack_header ss ms n)).
  rewrite parse_blocks_spec; [|unfold n, len in *; lia|change (len (nack_header ss ms n)) with 12; unfold n; lia|len_lia|done].
  cbn [mbind res_bind]. by rewrite take_ge by len_lia.
Qed.

(** A generic NACK survives the wire.  Building a request for a
    non-empty list of sequence numbers into a buffer of sufficient size (a
    block of four bytes per number is always enough) writes a well-formed
    RTPFB header with the right length field, and parsing the bytes with room for
    [count] numbers returns both SSRCs and exactly the requested set. *)
Theorem nack_build_parse_roundtrip ss ms seqs b max :
  is_u32 ss -> is_u32 ms -> Forall is_u16 seqs -> seqs <> [] ->
  12 + 4 * len seqs <= len b -> len seqs <= max ->
  exists out n nums,
    nack_build_rtcp ss ms (Some seqs) (len seqs) (Some b) (Some (len b)) =
      Ok (out, n) /\
    len out = len b /\ n <= 12 + 4 * len seqs /\
    read_u16 out 2 = Ok (u16 (n / 4 - 1)) /\
    nack_parse_rtcp (Some out) n (Some tt) (Some tt) (Some tt) (Some tt) max =
      Ok (ss, ms, nums) /\
    len nums <= len seqs /\ forall x, x ∈ nums <-> x ∈ seqs.
Proof.
  intros Hss Hms Hu Hne Hb Hmax.
  destruct (nack_blocks_spec (S (length seqs)) seqs ltac:(lia) Hu)
    as (Hp & Hl & Hn & Hx & _).
  pose proof (nack_built ss ms seqs b) as Hbuilt. cbv zeta in Hbuilt.
  set (bs := nack_blocks (S (length seqs)) seqs) in *. pose proof (len_nonneg bs).
  assert (Hbs : len bs <= len seqs) by len_lia.
  pose proof (len_blocks_wire bs) as Hbl.
  eexists _, _, (bs ≫= block_nums). split; [apply Hbuilt; [done..|lia]|]. split_and!.
  - rewrite !len_app, !len_drop. fold (len (blocks_wire bs)).
    change (len (nack_header _ _ _)) with 12. lia.
  - lia.
  - unfold nack_header. rewrite <- be16_u16, <- !app_assoc.
    by apply (read_u16_mid [129; 205]); [apply u16_range|].
  - apply nack_parsed; [done..|len_lia].
  - len_lia.
  - done.
Qed.

Lemma parse_bits_len pid blp i k room :
  0 <= room -> len (nack_parse_bits pid blp i k room) <= room.
Proof.
  revert i room. induction k as [|k IH]; intros i room Hr; [done|].
  cbn [nack_parse_bits]. destruct (Z.ltb_spec 0 room); [|done].
  case_match; [rewrite len_cons; specialize (IH (i + 1) (room - 1)); lia|].
  by apply IH.
Qed.

Lemma parse_blocks_safe fuel b l off room :
  0 <= off -> l <= len b -> (0 < fuel)%nat -> l - off < Z.of_nat fuel -> 0 <= room ->
  no_fault (nack_parse_blocks fuel b l off room) /\
  forall out, nack_parse_blocks fuel b l off room = Ok out -> len out <= room.
Proof.
  revert off room. induction fuel as [|fuel IH]; intros off room Ho Hl Hf Hn Hr; [lia|].
  cbn [nack_parse_blocks].
  destruct ((off + 4 <=? l) && (0 <? room)) eqn:E.
  2: { split; [done|]. by intros ? [= <-]. }
  set (here pid blp := pid :: nack_parse_bits pid blp 0 16 (room - 1)).
  assert (Hhere : forall pid blp, len (here pid blp) <= room).
  { intros. unfold here. rewrite len_cons.
    pose proof (parse_bits_len pid blp 0 16 (room - 1)). lia. }
  split.
  - do 2 (safe_step; [apply read_u16_no_fault; lia|]). safe_step; [|done].
    apply IH; try lia. specialize (Hhere a a0). unfold here in Hhere. lia.
  - intros out (pid & _ & (blp & _ & (rest & Hrest & <-%Ok_inj)%bind_Ok)%bind_Ok)%bind_Ok.
    specialize (Hhere pid blp). fold (here pid blp) in Hrest |- *. rewrite len_app.
    destruct (IH (off + 4) (room - len (here pid blp))) as [_ Hlen]; try lia.
    specialize (Hlen _ Hrest). lia.
Qed.

(** Parsing untrusted bytes is memory safe and terminates: no read
    leaves the buffer and never more than [max_count] numbers are stored. *)
Theorem nack_parse_rtcp_safe b l max ss ms sn cn :
  l <= len b -> 0 <= max ->
  no_fault (nack_parse_rtcp (Some b) l ss ms sn cn max) /\
  forall s m nums, nack_parse_rtcp (Some b) l ss ms sn cn max = Ok (s, m, nums) ->
    len nums <= max.
Proof.
  intros Hl Hm. unfold nack_parse_rtcp. destruct (Z.ltb_spec l 12); [done|].
  destruct ss, ms, sn, cn; try done.
  destruct (parse_blocks_safe (S (Z.to_nat l)) b l 12 max) as [Hs Hlen]; try lia.
  split.
  - repeat (safe_step; try lia); done.
  - intros s m nums Hp. do 2 (apply bind_Ok in Hp as (? & _ & Hp)).
    do 3 (case_match; [done|]).
    do 2 (apply bind_Ok in Hp as (? & _ & Hp)).
    apply bind_Ok in Hp as (q & Hq & [= _ _ <-]). by apply Hlen.
Qed.

(* ------------------------------------------------------------------ *)
(** ** Witnesses *)

Definition example_receiver : nack_receiver_t :=
  Build_nack_receiver_t 7 65534 1 [Build_nack_entry_t 65530 5 0 0] 10 1 0 0
    (Some 3) 4.

Lemma example_receiver_wf : receiver_wf example_receiver.
Proof.
  split; [|done]. constructor; [done|apply NoDup_singleton|].
  repeat constructor; done.
Defined.

Lemma nack_receiver_invariant_witness :
  exists r r', nack_receiver_create 7 true = Some r /\
    rtc nack_receiver_step r r' /\ initialized r' = 1 /\ receiver_wf r'.
Proof.
  set (r := Build_nack_receiver_t 7 0 0 [] 0 0 0 0 None 0).
  set (r' := Build_nack_receiver_t 7 65535 1 [] 1 0 0 0 None 0).
  assert (Hrun : rtc nack_receiver_step r r').
  { apply rtc_once, (step_packet _ 65535 9); done. }
  exists r, r'. split; [done|]. split; [done|]. split; [done|].
  apply (nack_receiver_invariant 7 r r'); done.
Defined.

Lemma nack_gap_tracked_witness :
  exists r', nack_receiver_process_packet (Some example_receiver)
      (u16 (65534 + 3 + 1)) 50 = Some r' /\
    highest_seq_received r' = u16 (65534 + 3 + 1) /\
    packets_received r' = 11 /\ packets_lost r' = 4 /\
    forall s, s ∈ missing_seqs (missing r') <->
      s ∈ [65530] \/ exists k, 1 <= k <= 3 /\ s = u16 (65534 + k).
Proof. apply (nack_gap_tracked example_receiver 65534 3 50); done. Defined.

Lemma nack_get_nacks_spec_witness :
  let out := take 5 (missing_seqs (filter (entry_eligible 1000) (missing example_receiver))) in
  out = [65530] /\
  exists r' evs,
    nack_receiver_get_nacks (Some example_receiver) (Some tt) 5 1000 =
      (Some r', out, evs) /\
    evs = (if decide (out = []) then [] else [Build_nack_event 3 4 7 out]) /\
    missing_seqs (missing r') = [65530] /\
    forall max' now', 1000 <= now' < 1000 + NACK_RETRY_INTERVAL_MS * 1000 ->
      forall s, s ∈ out ->
        s ∉ (nack_receiver_get_nacks (Some r') (Some tt) max' now').1.2.
Proof.
  split; [reflexivity|].
  apply (nack_get_nacks_spec example_receiver 5 1000 example_receiver_wf); done.
Defined.

Lemma nack_late_packet_untracked_witness :
  exists r', nack_receiver_process_packet (Some example_receiver) 65530 60 = Some r' /\
    retransmissions_received r' = 1 /\ highest_seq_received r' = 65534 /\
    (forall s, s ∈ missing_seqs (missing r') <-> s ∈ [65530] /\ s <> 65530) /\
    forall max t, 65530 ∉ (nack_receiver_get_nacks (Some r') (Some tt) max t).1.2.
Proof.
  apply (nack_late_packet_untracked example_receiver 65530 60 example_receiver_wf);
    [done| |done]. apply list_elem_of_singleton. done.
Defined.

(** The packet history as the sender's store. *)
Lemma nack_process_nack_spec_witness :
  exists h n' evs,
    store_view h 9 = Some [1; 2] /\
    nack_sender_process_nack
      (Some (Build_nack_sender_t 7 (Some h) 0 0 0 (Some 3) 4))
      (Some [9; 10]) 2 (replicate 2048 0) = Ok (Some n', 1, evs) /\
    re_packet <$> evs = [[1; 2]] /\ history n' = Some h /\ nacks_received n' = 1 /\
    packets_retransmitted n' = 1 /\
    packets_retransmitted n' + retransmit_failures n' = 0 + 0 + 2.
Proof.
  destruct (rtp_history_create 2 4 (Some (replicate 8 0))) as [h0|] eqn:E;
    [|discriminate E].
  destruct (create_wf 2 4 (replicate 8 0) h0 ltac:(done) ltac:(done) ltac:(done) E)
    as ([Hok _] & _ & Hsz).
  destruct (@store_put_law _ rtp_history_store h0 9 [1; 2] Hok) as (h & _ & Hok' & Hcap & Hv & Hother);
    [change (2 <= max_packet_size h0); lia|].
  assert (H10 : store_view h 10 = None).
  { destruct (Hother 10 ltac:(lia)) as [-> |]; [|done].
    injection E as <-. reflexivity. }
  assert (Hr : retransmittable h [9; 10] = [[1; 2]]).
  { rewrite !retransmittable_cons, Hv, H10. done. }
  destruct (nack_process_nack_spec
    (Build_nack_sender_t 7 (Some h) 0 0 0 (Some 3) 4) h [9; 10] (replicate 2048 0)
    eq_refl Hok' ltac:(done))
    as (n' & evs & H1 & H2 & H3 & H4 & H5 & H6).
  { rewrite Hcap. change (max_packet_size h0 <= 2048). lia. }
  rewrite Hr in *. exists h, n', evs. split_and!; done.
Defined.

Lemma nack_build_parse_roundtrip_witness :
  exists out n nums,
    nack_build_rtcp 1 2 (Some [65534; 1; 40; 41]) 4 (Some (replicate 32 0))
      (Some 32) = Ok (out, n) /\
    len out = 32 /\ n <= 28 /\ read_u16 out 2 = Ok (u16 (n / 4 - 1)) /\
    nack_parse_rtcp (Some out) n (Some tt) (Some tt) (Some tt) (Some tt) 4 =
      Ok (1, 2, nums) /\
    len nums <= 4 /\ forall x, x ∈ nums <-> x ∈ [65534; 1; 40; 41].
Proof.
  apply (nack_build_parse_roundtrip 1 2 [65534; 1; 40; 41] (replicate 32 0) 4);
    first [done | repeat constructor; done].
Defined.

Lemma nack_parse_rtcp_safe_witness :
  no_fault (nack_parse_rtcp (Some (replicate 16 129)) 16 (Some tt) (Some tt)
              (Some tt) (Some tt) 8) /\
  forall s m nums, nack_parse_rtcp (Some (replicate 16 129)) 16 (Some tt)
    (Some tt) (Some tt) (Some tt) 8 = Ok (s, m, nums) -> len nums <= 8.
Proof. apply nack_parse_rtcp_safe; done. Defined.
