(* ===== verification/Rtcp.v ===== *)
(** * RTCP compound packets (src/webrtc/src/rtc/rtp/rtcp_packet.c)

    The compound builder, which appends sender reports, receiver reports and
    the feedback messages NACK, PLI, FIR and REMB to a caller's buffer, and
    the compound parser, which reports each packet to a callback.  The
    structures are those of src/webrtc/include/turbo_rtp.h.  The parser's
    callback is the identity of a function; its calls are the events of the
    result. *)

From S2P Require Import Prelude RtpPacket RtpHistory Nack.

(* ------------------------------------------------------------------ *)
(** ** Data *)

Definition RTCP_SR : Z := 200.
Definition RTCP_RR : Z := 201.
Definition RTCP_RTPFB : Z := 205.
Definition RTCP_PSFB : Z := 206.
Definition RTCP_NACK : Z := 1.
Definition RTCP_PLI : Z := 1.
Definition RTCP_FIR : Z := 4.
Definition RTCP_REMB : Z := 15.

Record rtcp_sr_t := {
  sr_ssrc : Z; sr_ntp_sec : Z; sr_ntp_frac : Z; sr_rtp_ts : Z;
  sr_packet_count : Z; sr_octet_count : Z }.

Record rtcp_rr_block_t := {
  rb_ssrc : Z; rb_fraction_lost : Z; rb_cumulative_lost : Z;
  rb_extended_seq : Z; rb_jitter : Z; rb_lsr : Z; rb_dlsr : Z }.

Record rtcp_compound_t := { cp_buffer : list Z; cp_buffer_len : Z; cp_offset : Z }.

(* ------------------------------------------------------------------ *)
(** ** The builder *)

(** A NULL buffer has no bytes. *)
Definition rtcp_compound_init (compound : option rtcp_compound_t)
    (buffer : option (list Z)) (buffer_len : Z) : option rtcp_compound_t :=
  let? _ := compound else None in
  Some (Build_rtcp_compound_t (match buffer with Some b => b | None => [] end)
          buffer_len 0).

Definition rtcp_write_header (version padding count type length_words : Z)
    (c : cursor) : res cursor :=
  c ← emit [u8 (Z.lor (Z.lor (Z.shiftl version 6) (Z.shiftl padding 5))
                      (Z.land count 31))] c;
  c ← emit [u8 type] c;
  emit (be16 (u16 (length_words - 1))) c.

(** [((uint32_t)fraction_lost << 24) | (cumulative_lost & 0x00FFFFFF)]. *)
Definition rtcp_loss_word (b : rtcp_rr_block_t) : Z :=
  Z.lor (u32 (Z.shiftl (rb_fraction_lost b) 24))
        (Z.land (rb_cumulative_lost b) 0x00FFFFFF).

(** [for (i = 0; i < block_count && blocks; i++)], [n] iterations being
    left; an index past the caller's array is out of bounds. *)
Fixpoint rtcp_write_blocks (blocks : list rtcp_rr_block_t) (n : nat)
    (c : cursor) : res cursor :=
  match n, blocks with
  | O, _ => Ok c
  | S n, [] => Fault
  | S n, b :: blocks =>
    c ← emit (be32 (rb_ssrc b)) c;
    c ← emit (be32 (rtcp_loss_word b)) c;
    c ← emit (be32 (rb_extended_seq b)) c;
    c ← emit (be32 (rb_jitter b)) c;
    c ← emit (be32 (rb_lsr b)) c;
    c ← emit (be32 (rb_dlsr b)) c;
    rtcp_write_blocks blocks n c
  end.

Definition rtcp_write_opt_blocks (blocks : option (list rtcp_rr_block_t))
    (block_count : Z) (c : cursor) : res cursor :=
  let? bs := blocks else Ok c in
  rtcp_write_blocks bs (Z.to_nat block_count) c.

(** The frame of the six [rtcp_compound_add_*] functions: the room check, the
    stores from [compound->buffer + compound->offset] on, and the new
    offset. *)
Definition rtcp_compound_append (c : rtcp_compound_t) (total_size : Z)
    (write : cursor -> res cursor) : res rtcp_compound_t :=
  if cp_buffer_len c <? u64 (cp_offset c + total_size) then Err else
  w ← write (cp_buffer c, cp_offset c);
  Ok (Build_rtcp_compound_t w.1 (cp_buffer_len c)
        (u64 (cp_offset c + total_size))).

Definition rtcp_compound_add_sr (compound : option rtcp_compound_t)
    (sr : option rtcp_sr_t) (blocks : option (list rtcp_rr_block_t))
    (block_count : Z) : res rtcp_compound_t :=
  let? c := compound else Err in
  let? sr := sr else Err in
  n ← int_of (block_count * 24);
  let block_size := u64 n in
  let total_size := u64 (4 + 24 + block_size) in
  let length_words := u64 (24 + block_size) / 4 in
  rtcp_compound_append c total_size (fun w =>
    w ← rtcp_write_header 2 0 block_count RTCP_SR (s32 (length_words + 1)) w;
    w ← emit (be32 (sr_ssrc sr)) w;
    w ← emit (be32 (sr_ntp_sec sr)) w;
    w ← emit (be32 (sr_ntp_frac sr)) w;
    w ← emit (be32 (sr_rtp_ts sr)) w;
    w ← emit (be32 (sr_packet_count sr)) w;
    w ← emit (be32 (sr_octet_count sr)) w;
    rtcp_write_opt_blocks blocks block_count w).

Definition rtcp_compound_add_rr (compound : option rtcp_compound_t)
    (ssrc : Z) (blocks : option (list rtcp_rr_block_t)) (block_count : Z)
    : res rtcp_compound_t :=
  let? c := compound else Err in
  n ← int_of (block_count * 24);
  let block_size := u64 n in
  let total_size := u64 (4 + 4 + block_size) in
  let length_words := u64 (4 + block_size) / 4 in
  rtcp_compound_append c total_size (fun w =>
    w ← rtcp_write_header 2 0 block_count RTCP_RR (s32 (length_words + 1)) w;
    w ← emit (be32 ssrc) w;
    rtcp_write_opt_blocks blocks block_count w).

Definition rtcp_compound_add_nack (compound : option rtcp_compound_t)
    (sender_ssrc media_ssrc pid blp : Z) : res rtcp_compound_t :=
  let? c := compound else Err in
  rtcp_compound_append c 16 (fun w =>
    w ← rtcp_write_header 2 0 RTCP_NACK RTCP_RTPFB 4 w;
    w ← emit (be32 sender_ssrc) w;
    w ← emit (be32 media_ssrc) w;
    w ← emit (be16 pid) w;
    emit (be16 blp) w).

Definition rtcp_compound_add_pli (compound : option rtcp_compound_t)
    (sender_ssrc media_ssrc : Z) : res rtcp_compound_t :=
  let? c := compound else Err in
  rtcp_compound_append c 12 (fun w =>
    w ← rtcp_write_header 2 0 RTCP_PLI RTCP_PSFB 3 w;
    w ← emit (be32 sender_ssrc) w;
    emit (be32 media_ssrc) w).

Definition rtcp_compound_add_fir (compound : option rtcp_compound_t)
    (sender_ssrc media_ssrc seq_nr : Z) : res rtcp_compound_t :=
  let? c := compound else Err in
  rtcp_compound_append c 20 (fun w =>
    w ← rtcp_write_header 2 0 RTCP_FIR RTCP_PSFB 5 w;
    w ← emit (be32 sender_ssrc) w;
    w ← emit (be32 media_ssrc) w;
    w ← emit (be32 media_ssrc) w;
    w ← emit [seq_nr] w;
    emit [0; 0; 0] w).

(** [while (mantissa > 0x3FFFF && exp < 63)]: at most 63 iterations. *)
Fixpoint remb_normalize (fuel : nat) (mantissa exp : Z) : res (Z * Z) :=
  match fuel with
  | O => Fault
  | S fuel =>
    if (0x3FFFF <? mantissa) && (exp <? 63)
    then remb_normalize fuel (Z.shiftr mantissa 1) (u8 (exp + 1))
    else Ok (mantissa, exp)
  end.

Definition rtcp_compound_add_remb (compound : option rtcp_compound_t)
    (sender_ssrc media_ssrc bitrate : Z) : res rtcp_compound_t :=
  let? c := compound else Err in
  rtcp_compound_append c 24 (fun w =>
    w ← rtcp_write_header 2 0 RTCP_REMB RTCP_PSFB 6 w;
    w ← emit (be32 sender_ssrc) w;
    w ← emit (be32 0) w;
    w ← emit [82; 69; 77; 66] w;                     (* "REMB" *)
    '(mantissa, exp) ← remb_normalize 64 bitrate 0;
    w ← emit [1] w;
    w ← emit [u8 (Z.lor (Z.shiftl exp 2) (Z.land (Z.shiftr mantissa 16) 3))] w;
    w ← emit [u8 (Z.land (Z.shiftr mantissa 8) 255)] w;
    w ← emit [u8 (Z.land mantissa 255)] w;
    emit (be32 media_ssrc) w).

Definition rtcp_compound_finish (compound : option rtcp_compound_t) : Z :=
  let? c := compound else 0 in cp_offset c.

(* ------------------------------------------------------------------ *)
(** ** The parser *)

(** A call [callback(type, p, length_bytes, user_data)], with the bytes at
    [p]. *)
Record rtcp_event := { ev_callback : Z; ev_type : Z; ev_data : list Z }.

(** The [while (offset + 4 <= buffer_len)] loop.  Every iteration that goes
    on consumes at least four bytes. *)
Fixpoint rtcp_parse_loop (fuel : nat) (b : list Z) (buffer_len offset : Z)
    (callback : option Z) (packet_count : Z) : res (Z * list rtcp_event) :=
  match fuel with
  | O => Fault
  | S fuel =>
    if offset + 4 <=? buffer_len then
      byte0 ← rd b offset;
      let version := Z.land (Z.shiftr byte0 6) 3 in
      type ← rd b (offset + 1);
      length_words ← read_u16 b (offset + 2);
      let length_bytes := (length_words + 1) * 4 in
      if negb (version =? 2) then Ok (packet_count, []) else
      if buffer_len <? offset + length_bytes then Ok (packet_count, []) else
      evs ← match callback with
            | Some f => d ← rd_slice b offset length_bytes;
                        Ok [Build_rtcp_event f type d]
            | None => Ok [] end;
      r ← rtcp_parse_loop fuel b buffer_len (offset + length_bytes) callback
            (packet_count + 1);
      Ok (r.1, evs ++ r.2)
    else Ok (packet_count, [])
  end.

(** The return value and the callback's calls. *)
Definition rtcp_compound_parse (buffer : option (list Z)) (buffer_len : Z)
    (callback : option Z) : res (Z * list rtcp_event) :=
  let? b := buffer else Err in
  if buffer_len <? 4 then Err else
  rtcp_parse_loop (S (Z.to_nat buffer_len)) b buffer_len 0 callback 0.

(* ------------------------------------------------------------------ *)
(** ** Specification: the packets of a compound and their wire images *)

Inductive rtcp_item :=
  | ISr (sr : rtcp_sr_t) (blocks : list rtcp_rr_block_t)
  | IRr (ssrc : Z) (blocks : list rtcp_rr_block_t)
  | INack (sender media pid blp : Z)
  | IPli (sender media : Z)
  | IFir (sender media seq_nr : Z)
  | IRemb (sender media bitrate : Z).

Definition item_type (i : rtcp_item) : Z :=
  match i with
  | ISr _ _ => 200 | IRr _ _ => 201 | INack _ _ _ _ => 205
  | IPli _ _ | IFir _ _ _ | IRemb _ _ _ => 206
  end.

(** The report count or the feedback format. *)
Definition item_count (i : rtcp_item) : Z :=
  match i with
  | ISr _ bs | IRr _ bs => len bs
  | INack _ _ _ _ | IPli _ _ => 1 | IFir _ _ _ => 4 | IRemb _ _ _ => 15
  end.

Definition block_body (b : rtcp_rr_block_t) : list Z :=
  be32 (rb_ssrc b) ++ be32 (rtcp_loss_word b) ++ be32 (rb_extended_seq b) ++
  be32 (rb_jitter b) ++ be32 (rb_lsr b) ++ be32 (rb_dlsr b).

(** The largest 18-bit mantissa representation of a bitrate, rounded down. *)
Definition remb_exp (bitrate : Z) : Z := Z.max 0 (Z.log2 bitrate - 17).
Definition remb_mantissa (bitrate : Z) : Z := Z.shiftr bitrate (remb_exp bitrate).

Definition item_body (i : rtcp_item) : list Z :=
  match i with
  | ISr sr bs =>
    be32 (sr_ssrc sr) ++ be32 (sr_ntp_sec sr) ++ be32 (sr_ntp_frac sr) ++
    be32 (sr_rtp_ts sr) ++ be32 (sr_packet_count sr) ++
    be32 (sr_octet_count sr) ++ (bs ≫= block_body)
  | IRr ssrc bs => be32 ssrc ++ (bs ≫= block_body)
  | INack s m pid blp => be32 s ++ be32 m ++ be16 pid ++ be16 blp
  | IPli s m => be32 s ++ be32 m
  | IFir s m nr => be32 s ++ be32 m ++ be32 m ++ [nr; 0; 0; 0]
  | IRemb s m br =>
    be32 s ++ be32 0 ++ [82; 69; 77; 66] ++
    [1; u8 (Z.lor (Z.shiftl (remb_exp br) 2)
                  (Z.land (Z.shiftr (remb_mantissa br) 16) 3));
     u8 (Z.land (Z.shiftr (remb_mantissa br) 8) 255);
     u8 (Z.land (remb_mantissa br) 255)] ++ be32 m
  end.

Definition item_wire (i : rtcp_item) : list Z :=
  [128 + item_count i; item_type i] ++ be16 (len (item_body i) / 4) ++ item_body i.

(** At most 31 report blocks fit the five-bit count. *)
Definition item_wf (i : rtcp_item) : Prop :=
  match i with
  | ISr _ bs | IRr _ bs => len bs <= 31
  | INack _ _ _ _ | IPli _ _ | IFir _ _ _ => True
  | IRemb _ _ br => is_u32 br
  end.

Definition rtcp_add (c : rtcp_compound_t) (i : rtcp_item) : res rtcp_compound_t :=
  match i with
  | ISr sr bs => rtcp_compound_add_sr (Some c) (Some sr) (Some bs) (len bs)
  | IRr ssrc bs => rtcp_compound_add_rr (Some c) ssrc (Some bs) (len bs)
  | INack s m pid blp => rtcp_compound_add_nack (Some c) s m pid blp
  | IPli s m => rtcp_compound_add_pli (Some c) s m
  | IFir s m nr => rtcp_compound_add_fir (Some c) s m nr
  | IRemb s m br => rtcp_compound_add_remb (Some c) s m br
  end.

Fixpoint rtcp_add_all (c : rtcp_compound_t) (l : list rtcp_item)
    : res rtcp_compound_t :=
  match l with
  | [] => Ok c
  | i :: l => c ← rtcp_add c i; rtcp_add_all c l
  end.

(* ------------------------------------------------------------------ *)
(** ** Builder lemmas *)

Ltac emits_steps := repeat (eapply emits_bind; [apply emit_emits|]); try apply emit_emits.

Lemma write_header_emits n t l :
  emits (rtcp_write_header 2 0 n t l)
    ([u8 (Z.lor 128 (Z.land n 31)); u8 t] ++ be16 (u16 (l - 1))).
Proof.
  eapply emits_ext; [unfold rtcp_write_header; emits_steps|]. done.
Qed.

Lemma write_blocks_emits bs :
  emits (rtcp_write_blocks bs (length bs)) (bs ≫= block_body).
Proof.
  induction bs as [|b bs IH]; [apply emits_ret|].
  eapply emits_ext; [cbn [length rtcp_write_blocks]; emits_steps; apply IH|].
  rewrite bind_cons. unfold block_body. by rewrite <- !app_assoc.
Qed.

Lemma write_opt_blocks_emits bs :
  emits (rtcp_write_opt_blocks (Some bs) (len bs)) (bs ≫= block_body).
Proof. unfold rtcp_write_opt_blocks. rewrite len_to_nat. apply write_blocks_emits. Qed.

Lemma remb_normalize_spec fuel br e :
  is_u32 br -> 0 <= e -> remb_exp br <= Z.of_nat fuel - 1 -> e + remb_exp br < 63 ->
  remb_normalize fuel br e = Ok (remb_mantissa br, e + remb_exp br).
Proof.
  revert br e. induction fuel as [|fuel IH]; intros br e Hb He Hf Hx.
  { unfold remb_exp in *. lia. }
  cbn [remb_normalize]. unfold is_u32 in Hb.
  destruct (Z.ltb_spec 0x3FFFF br).
  - replace (e <? 63) with true by (unfold remb_exp in Hx; lia). cbn [andb].
    assert (Hlog : Z.log2 br = Z.log2 (Z.shiftr br 1) + 1).
    { rewrite Z.log2_shiftr by lia. enough (18 <= Z.log2 br) by lia.
      change 18 with (Z.log2 (2 ^ 18)). apply Z.log2_le_mono. lia. }
    assert (Hge : 17 <= Z.log2 (Z.shiftr br 1)).
    { change 17 with (Z.log2 (2 ^ 17)). apply Z.log2_le_mono.
      rewrite Z.shiftr_div_pow2 by lia. change (2 ^ 1) with 2. zmod_lia. }
    assert (Hs : remb_exp br = remb_exp (Z.shiftr br 1) + 1) by (unfold remb_exp; lia).
    rewrite u8_id by (unfold is_u8; unfold remb_exp in *; lia).
    rewrite IH; [|unfold is_u32; rewrite Z.shiftr_div_pow2 by lia;
      change (2 ^ 1) with 2; zmod_lia|lia|lia|lia].
    f_equal. f_equal; [|lia]. unfold remb_mantissa. rewrite Hs, Z.shiftr_shiftr
      by (unfold remb_exp; lia). f_equal. lia.
  - cbn [andb]. assert (remb_exp br = 0) as Hz.
    { unfold remb_exp. enough (Z.log2 br <= 17) by lia.
      change 17 with (Z.log2 0x3FFFF). apply Z.log2_le_mono. lia. }
    unfold remb_mantissa. by rewrite Hz, Z.shiftr_0_r, Z.add_0_r.
Qed.

Lemma remb_exp_bound br : is_u32 br -> 0 <= remb_exp br <= 14.
Proof.
  unfold is_u32, remb_exp. intros Hb. enough (Z.log2 br <= 31) by lia.
  change 31 with (Z.log2 4294967295). apply Z.log2_le_mono. lia.
Qed.

Definition room_for (c : rtcp_compound_t) (n : Z) : bool :=
  cp_offset c + n <=? cp_buffer_len c.

(** A compound whose used part is [pre]. *)
Definition compound_rep (c : rtcp_compound_t) (pre rest : list Z) : Prop :=
  c = Build_rtcp_compound_t (pre ++ rest) (len pre + len rest) (len pre) /\
  len pre + len rest < 2 ^ 63.

Lemma append_spec c pre rest w n bs :
  compound_rep c pre rest -> emits w bs -> n = len bs -> n < 2 ^ 63 ->
  if room_for c n
  then exists c', rtcp_compound_append c n w = Ok c' /\
         compound_rep c' (pre ++ bs) (drop (length bs) rest)
  else rtcp_compound_append c n w = Err.
Proof.
  intros [-> Hmax] Hw -> Hn. unfold room_for, rtcp_compound_append.
  cbn [cp_buffer cp_buffer_len cp_offset].
  pose proof (len_nonneg pre). pose proof (len_nonneg bs). pose proof (len_nonneg rest).
  rewrite !u64_id by (unfold is_u64; lia).
  destruct (Z.leb_spec (len pre + len bs) (len pre + len rest)).
  - replace (_ <? _) with false by lia. rewrite Hw by lia. eexists. split; [done|].
    split; [|rewrite len_app, len_drop; unfold len in *; lia].
    cbn. rewrite len_app, len_drop. f_equal. unfold len in *. lia.
  - by replace (_ <? _) with true by lia.
Qed.

Lemma land31_small n : 0 <= n <= 31 -> u8 (Z.lor 128 (Z.land n 31)) = 128 + n.
Proof.
  intros. rewrite land31, Z.mod_small by lia.
  change 128 with (Z.shiftl 4 5) at 1. rewrite lor_shiftl_add by lia.
  rewrite u8_id by (unfold is_u8; lia). lia.
Qed.

Lemma len_blocks bs : len (bs ≫= block_body) = 24 * len bs.
Proof.
  induction bs as [|b bs IH]; [done|]. rewrite bind_cons, len_app, IH, len_cons.
  unfold block_body. len_lia.
Qed.

Lemma len_item_body i :
  len (item_body i) =
  match i with
  | ISr _ bs => 24 + 24 * len bs | IRr _ bs => 4 + 24 * len bs
  | INack _ _ _ _ => 12 | IPli _ _ => 8 | IFir _ _ _ => 16 | IRemb _ _ _ => 20
  end.
Proof.
  destruct i; try done; unfold item_body; rewrite ?len_app, len_blocks;
    unfold len; simpl; lia.
Qed.

Lemma len_item_wire i : len (item_wire i) = 4 + len (item_body i).
Proof. unfold item_wire. rewrite !len_app. unfold len. simpl. lia. Qed.

(** The header of a packet whose length is given in words. *)
Lemma header_item_emits i w l t n :
  item_count i = n -> 0 <= n <= 31 -> item_type i = t ->
  len (item_body i) = 4 * (l - 1) -> 0 <= l - 1 < 65536 ->
  emits w (item_body i) ->
  emits (fun c => rtcp_write_header 2 0 n t l c ≫= w) (item_wire i).
Proof.
  intros Hn Hr Ht Hl Hw Hb.
  eapply emits_ext; [eapply emits_bind; [apply write_header_emits|done]|].
  unfold item_wire. rewrite land31_small by done. rewrite <- app_assoc, Hl, Hn, Ht.
  replace (u8 t) with t by (subst t; by destruct i).
  rewrite u16_id by done. by replace (4 * (l - 1) / 4) with (l - 1) by zmod_lia.
Qed.

(** Each [rtcp_compound_add_*] appends exactly the packet's wire image, or
    refuses when there is no room. *)
Lemma rtcp_add_spec c pre rest i :
  compound_rep c pre rest -> item_wf i ->
  if room_for c (len (item_wire i))
  then exists c', rtcp_add c i = Ok c' /\
         compound_rep c' (pre ++ item_wire i) (drop (length (item_wire i)) rest)
  else rtcp_add c i = Err.
Proof.
  intros Hc Hi. pose proof (len_item_wire i) as Hl. rewrite len_item_body in Hl.
  assert (Happ : forall n w, n = len (item_wire i) -> emits w (item_wire i) ->
    if room_for c (len (item_wire i))
    then exists c', rtcp_compound_append c n w = Ok c' /\
         compound_rep c' (pre ++ item_wire i) (drop (length (item_wire i)) rest)
    else rtcp_compound_append c n w = Err).
  { intros n w -> Hw. apply append_spec; try done. destruct i; cbn in Hi; lia. }
  pose proof (len_item_body i) as Hb.
  destruct i as [sr bs|ssrc bs|s m pid blp|s m|s m nr|s m br]; cbn in Hi;
    unfold rtcp_add.
  - unfold rtcp_compound_add_sr. pose proof (len_nonneg bs).
    rewrite int_of_Ok by (unfold is_s32; lia). cbn [mbind res_bind].
    rewrite (u64_id (len bs * 24)) by (unfold is_u64; lia).
    rewrite !u64_id by (unfold is_u64; lia). rewrite s32_id by zmod_lia.
    apply Happ; [lia|]. apply header_item_emits; cbn [item_count]; try done; try zmod_lia.
    unfold item_body. emits_steps. apply write_opt_blocks_emits.
  - unfold rtcp_compound_add_rr. pose proof (len_nonneg bs).
    rewrite int_of_Ok by (unfold is_s32; lia). cbn [mbind res_bind].
    rewrite (u64_id (len bs * 24)) by (unfold is_u64; lia).
    rewrite !u64_id by (unfold is_u64; lia). rewrite s32_id by zmod_lia.
    apply Happ; [lia|]. apply header_item_emits; cbn [item_count]; try done; try zmod_lia.
    unfold item_body. emits_steps. apply write_opt_blocks_emits.
  - apply Happ; [done|]. apply header_item_emits; try done. emits_steps.
  - apply Happ; [done|]. apply header_item_emits; try done. emits_steps.
  - apply Happ; [done|]. apply header_item_emits; try done.
    eapply emits_ext; [emits_steps|done].
  - apply Happ; [done|]. apply header_item_emits; try done.
    pose proof (remb_exp_bound br Hi). eapply emits_ext.
    + do 3 (eapply emits_bind; [apply emit_emits|]).
      rewrite remb_normalize_spec by (done || lia). emits_steps.
    + done.
Qed.

(* ------------------------------------------------------------------ *)
(** ** Parser lemmas *)

Definition items_wire (l : list rtcp_item) : list Z := l ≫= item_wire.

Lemma items_wire_cons i l : items_wire (i :: l) = item_wire i ++ items_wire l.
Proof. apply bind_cons. Qed.

Lemma item_count_range i : item_wf i -> 0 <= item_count i <= 31.
Proof. destruct i as [? bs|? bs| | | |]; cbn; intros; try pose proof (len_nonneg bs); lia. Qed.

Lemma item_words i :
  item_wf i -> exists w, len (item_body i) = 4 * w /\ 0 < w < 65536.
Proof.
  intros Hi. pose proof (len_item_body i) as Hb. exists (len (item_body i) / 4).
  destruct i as [? bs|? bs| | | |]; cbn in Hi; try pose proof (len_nonneg bs); zmod_lia.
Qed.

(** One iteration of the parser over a packet that the builder wrote. *)
Lemma parse_loop_item fuel pre i post n off cb k :
  item_wf i -> off = len pre -> len pre + len (item_wire i) <= n ->
  rtcp_parse_loop (S fuel) (pre ++ item_wire i ++ post) n off cb k =
  r ← rtcp_parse_loop fuel (pre ++ item_wire i ++ post) n
        (off + len (item_wire i)) cb (k + 1);
  Ok (r.1, match cb with
           | Some f => [Build_rtcp_event f (item_type i) (item_wire i)]
           | None => [] end ++ r.2).
Proof.
  intros Hi -> Hn. pose proof (item_count_range i Hi) as Hc.
  destruct (item_words i Hi) as (w & Hw & Hwr). pose proof (len_item_wire i) as Hl.
  assert (R0 : rd (pre ++ item_wire i ++ post) (len pre) = Ok (128 + item_count i))
    by (unfold item_wire; by apply rd_mid).
  assert (R1 : rd (pre ++ item_wire i ++ post) (len pre + 1) = Ok (item_type i)).
  { unfold item_wire. by rewrite rd_off. }
  assert (R2 : read_u16 (pre ++ item_wire i ++ post) (len pre + 2) = Ok w).
  { unfold item_wire. rewrite <- !app_assoc, app_assoc, Hw.
    replace (4 * w / 4) with w by zmod_lia.
    apply read_u16_mid; [unfold is_u16; lia|len_lia]. }
  assert (R3 : rd_slice (pre ++ item_wire i ++ post) (len pre) ((w + 1) * 4) = Ok (item_wire i))
    by (apply rd_slice_mid; lia).
  cbn [rtcp_parse_loop]. replace (_ <=? _) with true by lia.
  rewrite R0, R1, R2. cbn [mbind res_bind].
  replace (negb _) with false.
  2: { symmetry. apply negb_false_iff, Z.eqb_eq. bits_to_arith. zmod_lia. }
  replace (n <? len pre + (w + 1) * 4) with false by lia. rewrite R3.
  replace (len pre + (w + 1) * 4) with (len pre + len (item_wire i)) by lia.
  by destruct cb.
Qed.

Lemma parse_loop_items fuel pre l post off cb k :
  (length l < fuel)%nat -> Forall item_wf l -> off = len pre ->
  rtcp_parse_loop fuel (pre ++ items_wire l ++ post)
    (len pre + len (items_wire l)) off cb k =
  Ok (k + len l, match cb with
                 | Some f => (fun i => Build_rtcp_event f (item_type i) (item_wire i)) <$> l
                 | None => [] end).
Proof.
  revert fuel pre off k. induction l as [|i l IH]; intros fuel pre off k Hf Hl ->.
  - destruct fuel; [lia|]. cbn [rtcp_parse_loop].
    replace (_ <=? _) with false by (unfold items_wire, len; cbn; lia).
    rewrite Z.add_0_r. by destruct cb.
  - destruct fuel; [simpl in Hf; lia|]. apply Forall_cons in Hl as [Hi Hl].
    pose proof (len_nonneg (items_wire l)).
    rewrite items_wire_cons, <- app_assoc, parse_loop_item;
      [|done|done|rewrite len_app; lia].
    rewrite app_assoc. rewrite len_app, Z.add_assoc, <- len_app.
    rewrite IH; [|simpl in Hf; lia|done|done].
    cbn [mbind res_bind fst snd]. rewrite len_cons. f_equal. f_equal; [lia|].
    by destruct cb.
Qed.

Lemma rtcp_add_all_spec l c pre rest :
  compound_rep c pre rest -> Forall item_wf l ->
  len (items_wire l) <= len rest ->
  exists c', rtcp_add_all c l = Ok c' /\
    compound_rep c' (pre ++ items_wire l) (drop (length (items_wire l)) rest).
Proof.
  revert c pre rest. induction l as [|i l IH]; intros c pre rest Hc Hl Hr.
  { exists c. cbn. by rewrite app_nil_r. }
  apply Forall_cons in Hl as [Hi Hl]. rewrite items_wire_cons, len_app in Hr.
  pose proof (len_nonneg (items_wire l)).
  pose proof (rtcp_add_spec c pre rest i Hc Hi) as Ha. unfold room_for in Ha.
  destruct Hc as [-> Hmax]. cbn [cp_offset cp_buffer_len] in Ha.
  replace (_ <=? _) with true in Ha by lia.
  destruct Ha as (c' & Ha & Hc'). cbn [rtcp_add_all]. rewrite Ha. cbn [mbind res_bind].
  destruct (IH c' _ _ Hc' Hl) as (c2 & -> & H2); [len_lia|].
  exists c2. split; [done|].
  by rewrite items_wire_cons, length_app, app_assoc, <- drop_drop.
Qed.

Lemma items_wire_length l : (length l <= length (items_wire l))%nat.
Proof.
  induction l as [|i l IH]; [done|]. rewrite items_wire_cons, length_app.
  pose proof (len_item_wire i). pose proof (len_nonneg (item_body i)).
  unfold len in *. simpl. lia.
Qed.

(** The loop is safe, reports only slices of the buffer, in order and without
    overlap, and counts them. *)
Lemma parse_loop_safe fuel b n off cb k :
  n <= len b -> 0 <= off -> (0 < fuel)%nat -> n - off < 4 * Z.of_nat fuel ->
  exists m evs, rtcp_parse_loop fuel b n off cb k = Ok (k + m, evs) /\
    0 <= m /\ (if cb then len evs = m else evs = []) /\
    exists rest, (evs ≫= ev_data) ++ rest = drop (Z.to_nat off) (take (Z.to_nat n) b).
Proof.
  revert off k. induction fuel as [|fuel IH]; intros off k Hn Ho Hf Hm; [lia|].
  assert (Hstop : exists m evs, Ok (k, @nil rtcp_event) = Ok (k + m, evs) /\
    0 <= m /\ (if cb then len evs = m else evs = []) /\
    exists rest, (evs ≫= ev_data) ++ rest = drop (Z.to_nat off) (take (Z.to_nat n) b)).
  { exists 0, []. rewrite Z.add_0_r. split_and!; try done; [by destruct cb|by eexists]. }
  cbn [rtcp_parse_loop]. destruct (Z.leb_spec (off + 4) n); [|done].
  destruct (rd_in_range b off) as [b0 ->]; [lia|]. cbn [mbind res_bind].
  destruct (rd_in_range b (off + 1)) as [ty ->]; [lia|]. cbn [mbind res_bind].
  destruct (read_u16_in_range b (off + 2)) as (w & -> & Hw); [lia..|].
  unfold is_u16 in Hw. cbn [mbind res_bind].
  destruct (negb (Z.land _ 3 =? 2)); [done|]. destruct (Z.ltb_spec n (off + (w + 1) * 4)); [done|].
  set (nb := (w + 1) * 4) in *.
  rewrite (rd_slice_in_range b off nb) by lia.
  set (d := take (Z.to_nat nb) (drop (Z.to_nat off) b)).
  destruct (IH (off + nb) (k + 1)) as (m & evs & -> & Hm0 & Hlen & rest & Hrest); [lia..|].
  assert (Hdrop : d ++ drop (Z.to_nat (off + nb)) (take (Z.to_nat n) b) =
    drop (Z.to_nat off) (take (Z.to_nat n) b)).
  { unfold d. rewrite <- (take_drop (Z.to_nat nb) (drop (Z.to_nat off) (take _ b))).
    rewrite drop_drop. f_equal; [|f_equal; lia].
    rewrite !skipn_firstn_comm, take_take. f_equal. lia. }
  destruct cb as [f|]; cbn [mbind res_bind fst snd].
  - exists (m + 1), (Build_rtcp_event f ty d :: evs). split; [do 2 f_equal; lia|].
    split; [lia|]. split; [rewrite len_cons, Hlen; lia|].
    exists rest. by rewrite bind_cons, <- app_assoc, Hrest.
  - exists (m + 1), evs. split; [do 2 f_equal; lia|]. split; [lia|]. split; [done|].
    subst evs. by eexists.
Qed.

(* ------------------------------------------------------------------ *)
(** ** Properties *)

(** C4: any sequence of reports and feedback messages that fits the buffer
    survives the compound: the builder accepts each, and the parser reports
    exactly those packets to the callback, in order, each with its type and
    its complete bytes (whose length field is in words), and returns their
    number. *)
Theorem rtcp_compound_roundtrip c0 b l f :
  Forall item_wf l -> len (items_wire l) <= len b -> len b < 2 ^ 63 ->
  l <> [] ->
  exists c c', rtcp_compound_init (Some c0) (Some b) (len b) = Some c /\
    rtcp_add_all c l = Ok c' /\
    rtcp_compound_finish (Some c') = len (items_wire l) /\
    rtcp_compound_parse (Some (cp_buffer c')) (rtcp_compound_finish (Some c'))
      (Some f) =
    Ok (len l, (fun i => Build_rtcp_event f (item_type i) (item_wire i)) <$> l).
Proof.
  intros Hl Hb Hmax Hne. eexists. destruct (rtcp_add_all_spec l
    (Build_rtcp_compound_t b (len b) 0) [] b) as (c' & Ha & Hc' & _); [|done..|].
  { split; [done|]. rewrite len_nil. lia. }
  exists c'. split; [done|]. split; [done|].
  assert (Ho : rtcp_compound_finish (Some c') = len (items_wire l)) by (by rewrite Hc').
  split; [done|]. rewrite Ho, Hc'. cbn [cp_buffer app].
  pose proof (items_wire_length l) as Hlen.
  unfold rtcp_compound_parse. destruct (Z.ltb_spec (len (items_wire l)) 4) as [H4|H4].
  { destruct l as [|i l]; [done|]. rewrite items_wire_cons, len_app, len_item_wire in H4.
    pose proof (len_nonneg (item_body i)). pose proof (len_nonneg (items_wire l)). lia. }
  pose proof (parse_loop_items (S (Z.to_nat (len (items_wire l)))) [] l
    (drop (length (items_wire l)) b) 0 (Some f) 0) as Hp.
  rewrite (@len_nil Z), !Z.add_0_l in Hp. apply Hp; [len_lia|done|done].
Qed.

(** A report or feedback message is appended whole or not at all: it
    is refused exactly when fewer bytes are left than its wire image has. *)
Theorem rtcp_add_all_or_nothing c pre rest i :
  compound_rep c pre rest -> item_wf i ->
  (rtcp_add c i = Err <-> len rest < len (item_wire i)) /\
  no_fault (rtcp_add c i) /\
  forall c', rtcp_add c i = Ok c' ->
    cp_buffer c' = pre ++ item_wire i ++ drop (length (item_wire i)) rest /\
    cp_offset c' = cp_offset c + len (item_wire i) /\
    cp_buffer_len c' = cp_buffer_len c.
Proof.
  intros Hc Hi. pose proof (rtcp_add_spec c pre rest i Hc Hi) as Ha.
  destruct Hc as [Hc Hmax]. unfold room_for in Ha. rewrite Hc in *.
  cbn [cp_offset cp_buffer_len] in *.
  destruct (Z.leb_spec (len pre + len (item_wire i)) (len pre + len rest)).
  - destruct Ha as (c' & Ha & Hc' & _). rewrite Ha. split; [split; [done|lia]|].
    split; [done|]. intros ? [= <-]. rewrite Hc'.
    cbn [cp_buffer cp_offset cp_buffer_len].
    rewrite <- app_assoc, len_app, len_drop. fold (len (item_wire i)).
    split_and!; [done|lia|lia].
  - rewrite Ha. split; [split; [lia|done]|]. done.
Qed.

(** Parsing untrusted bytes terminates without reading outside the
    buffer, and the packets reported are consecutive disjoint slices from its
    start, as many as the return value says. *)
Theorem rtcp_compound_parse_safe b n cb :
  n <= len b ->
  rtcp_compound_parse (Some b) n cb = Err /\ n < 4 \/
  exists m evs, rtcp_compound_parse (Some b) n cb = Ok (m, evs) /\
    (if cb then len evs = m else evs = []) /\
    exists rest, (evs ≫= ev_data) ++ rest = take (Z.to_nat n) b.
Proof.
  intros Hn. unfold rtcp_compound_parse. destruct (Z.ltb_spec n 4); [by left|right].
  destruct (parse_loop_safe (S (Z.to_nat n)) b n 0 cb 0)
    as (m & evs & -> & _ & Hlen & Hrest); [lia..|].
  exists m, evs. done.
Qed.

(** REMB carries a bitrate as an 18-bit mantissa and an exponent of at
    most 14; for every 32-bit bitrate the encoder's loop terminates and the
    encoded value is below the bitrate by less than one unit of the
    exponent, so by less than one part in 2^17. *)
Theorem remb_encoding_bounds bitrate :
  is_u32 bitrate ->
  exists mantissa exp, remb_normalize 64 bitrate 0 = Ok (mantissa, exp) /\
    0 <= exp <= 14 /\ 0 <= mantissa < 262144 /\
    mantissa * 2 ^ exp <= bitrate < (mantissa + 1) * 2 ^ exp /\
    (bitrate - mantissa * 2 ^ exp) * 131072 <= bitrate.
Proof.
  intros Hb. pose proof (remb_exp_bound bitrate Hb) as He.
  rewrite remb_normalize_spec by (done || lia). rewrite Z.add_0_l.
  exists (remb_mantissa bitrate), (remb_exp bitrate). split; [done|]. split; [done|].
  unfold remb_mantissa. rewrite Z.shiftr_div_pow2 by lia.
  assert (Hp : 0 < 2 ^ remb_exp bitrate) by (apply Z.pow_pos_nonneg; lia).
  pose proof (Z.div_mod bitrate (2 ^ remb_exp bitrate) ltac:(lia)) as Hdm.
  pose proof (Z.mod_pos_bound bitrate (2 ^ remb_exp bitrate) Hp) as Hmod.
  set (q := bitrate / 2 ^ remb_exp bitrate) in *.
  set (e := remb_exp bitrate) in *. unfold is_u32 in Hb.
  assert (Hq0 : 0 <= q) by (apply Z.div_pos; lia).
  assert (Hlow : e = 0 \/ 2 ^ (e + 17) <= bitrate).
  { unfold e, remb_exp. destruct (Z.le_gt_cases (Z.log2 bitrate) 17); [left; lia|right].
    replace (Z.max 0 (Z.log2 bitrate - 17) + 17) with (Z.log2 bitrate) by lia.
    apply Z.log2_spec. destruct (decide (bitrate = 0)) as [H0|]; [|lia].
    rewrite H0 in *. simpl in *. lia. }
  assert (Hhigh : bitrate < 2 ^ e * 262144).
  { change 262144 with (2 ^ 18). rewrite <- Z.pow_add_r by lia.
    destruct (decide (bitrate = 0)); [lia|].
    eapply Z.lt_le_trans; [apply Z.log2_spec; lia|].
    apply Z.pow_le_mono_r; [lia|]. unfold e, remb_exp. lia. }
  split; [split; [done|nia]|]. split; [nia|].
  destruct Hlow as [H0|Hl].
  - rewrite H0 in *. simpl in *. lia.
  - rewrite Z.pow_add_r in Hl by lia. change (2 ^ 17) with 131072 in Hl. nia.
Qed.

(** The generic NACK that the compound builder writes is understood by
    the NACK parser: it yields both SSRCs and the numbers that the [pid]/[blp]
    pair denotes. *)
Theorem compound_nack_parsed s m pid blp max :
  is_u32 s -> is_u32 m -> is_u16 pid -> is_u16 blp -> 17 <= max ->
  nack_parse_rtcp (Some (item_wire (INack s m pid blp)))
    (len (item_wire (INack s m pid blp)))
    (Some tt) (Some tt) (Some tt) (Some tt) max =
  Ok (s, m, block_nums (pid, blp)).
Proof.
  intros Hs Hm Hp Hb Hmax. set (w := item_wire _).
  assert (Hw : w = ([129; 205] ++ be16 3 ++ be32 s ++ be32 m) ++ blocks_wire [(pid, blp)] ++ []).
  { unfold w, item_wire, blocks_wire, block_wire. cbn [mbind list_bind fst snd].
    rewrite len_item_body, !app_nil_r, <- !app_assoc. done. }
  assert (Hl : len w = 16) by done.
  unfold nack_parse_rtcp. rewrite Hl. cbn [Z.ltb Z.compare Pos.compare Pos.compare_cont].
  assert (R1 : read_u32 w 4 = Ok s).
  { rewrite Hw. rewrite <- !app_assoc, app_assoc. by apply read_u32_mid. }
  assert (R2 : read_u32 w 8 = Ok m).
  { rewrite Hw. rewrite <- !app_assoc, app_assoc, app_assoc. by apply read_u32_mid. }
  change (rd w 0) with (Ok 129 : res Z). change (rd w 1) with (Ok 205 : res Z).
  cbn [mbind res_bind]. change (negb (Z.land 129 192 =? 128)) with false.
  change (negb (Z.land 129 31 =? 1)) with false. cbn [Z.eqb Pos.eqb negb].
  rewrite R1, R2. cbn [mbind res_bind]. rewrite Hw.
  pose proof (parse_blocks_spec [(pid, blp)] (S (Z.to_nat 16))
    ([129; 205] ++ be16 3 ++ be32 s ++ be32 m) [] 16 max) as Hpb.
  change (len ([129; 205] ++ be16 3 ++ be32 s ++ be32 m)) with 12 in Hpb.
  rewrite Hpb; [|cbn; lia|done|lia|by apply Forall_singleton; split]. cbn [mbind res_bind].
  rewrite bind_cons. cbn [mbind list_bind]. rewrite app_nil_r, take_ge; [done|].
  enough (length (block_nums (pid, blp)) <= 17)%nat by lia.
  unfold block_nums, blp_bits. cbn [length fst snd]. rewrite length_fmap.
  pose proof (length_filter (fun i => Z.testbit blp i) (seqZ 0 16)) as Hlf.
  rewrite length_seqZ in Hlf. lia.
Qed.

(* ------------------------------------------------------------------ *)
(** ** Witnesses *)

Definition example_items : list rtcp_item :=
  [ISr (Build_rtcp_sr_t 1 2 3 4 5 6) [Build_rtcp_rr_block_t 7 128 9 10 11 12 13];
   INack 1 7 65535 5; IPli 1 7; IFir 1 7 3; IRemb 1 7 5000000].

Lemma rtcp_compound_roundtrip_witness :
  exists c c', rtcp_compound_init (Some (Build_rtcp_compound_t [] 0 0))
      (Some (replicate 200 0)) 200 = Some c /\
    rtcp_add_all c example_items = Ok c' /\
    rtcp_compound_finish (Some c') = 124 /\
    rtcp_compound_parse (Some (cp_buffer c')) (rtcp_compound_finish (Some c'))
      (Some 1) =
    Ok (5, (fun i => Build_rtcp_event 1 (item_type i) (item_wire i)) <$> example_items).
Proof.
  apply (rtcp_compound_roundtrip (Build_rtcp_compound_t [] 0 0) (replicate 200 0)
           example_items 1); try done.
  repeat constructor; done.
Defined.

Lemma rtcp_add_all_or_nothing_witness :
  let c := Build_rtcp_compound_t (replicate 20 0) 20 4 in
  (rtcp_add c (INack 1 2 3 4) = Err <-> 16 < 16) /\
  no_fault (rtcp_add c (INack 1 2 3 4)) /\
  forall c', rtcp_add c (INack 1 2 3 4) = Ok c' ->
    cp_buffer c' = replicate 4 0 ++ item_wire (INack 1 2 3 4) ++ [] /\
    cp_offset c' = 4 + 16 /\ cp_buffer_len c' = 20.
Proof.
  apply (rtcp_add_all_or_nothing (Build_rtcp_compound_t (replicate 20 0) 20 4)
           (replicate 4 0) (replicate 16 0) (INack 1 2 3 4)); done.
Defined.

Lemma rtcp_compound_parse_safe_witness :
  let b := item_wire (IPli 1 2) ++ [128; 200; 255; 255] in
  rtcp_compound_parse (Some b) 16 (Some 1) = Err /\ 16 < 4 \/
  exists m evs, rtcp_compound_parse (Some b) 16 (Some 1) = Ok (m, evs) /\
    len evs = m /\ exists rest, (evs ≫= ev_data) ++ rest = take (Z.to_nat 16) b.
Proof.
  apply (rtcp_compound_parse_safe (item_wire (IPli 1 2) ++ [128; 200; 255; 255])
           16 (Some 1)). done.
Defined.

Lemma remb_encoding_bounds_witness :
  exists mantissa exp, remb_normalize 64 4294967295 0 = Ok (mantissa, exp) /\
    0 <= exp <= 14 /\ 0 <= mantissa < 262144 /\
    mantissa * 2 ^ exp <= 4294967295 < (mantissa + 1) * 2 ^ exp /\
    (4294967295 - mantissa * 2 ^ exp) * 131072 <= 4294967295.
Proof. apply (remb_encoding_bounds 4294967295). done. Defined.

Lemma compound_nack_parsed_witness :
  nack_parse_rtcp (Some (item_wire (INack 1 2 65535 3)))
    (len (item_wire (INack 1 2 65535 3)))
    (Some tt) (Some tt) (Some tt) (Some tt) 17 = Ok (1, 2, [65535; 0; 1]).
Proof. apply (compound_nack_parsed 1 2 65535 3 17); done. Defined.
