(* ===== verification/JitterBuffer.v ===== *)
(** * Jitter buffer (src/webrtc/src/rtc/media/jitter_buffer.c and .h)

    A fixed array of 256 slots indexed by the low bits of the sequence number,
    with the payloads in one shared buffer, and the playout cursor
    [next_seq_out].  The specification is a reorder queue: a finite map from
    sequence numbers to packets and the next number to play. *)

From Stdlib Require Import Sorted.
From stdpp Require Import gmap.
From S2P Require Import Prelude RtpPacket.

(* ------------------------------------------------------------------ *)
(** ** Data *)

Definition JITTER_BUFFER_SIZE : Z := 256.
Definition JITTER_BUFFER_MASK : Z := JITTER_BUFFER_SIZE - 1.

(** [js_data] is the offset of the slot's region in [data_buffer]. *)
Record jitter_slot_t := {
  js_data : Z; js_len : Z; js_sequence : Z; js_timestamp : Z;
  js_arrival_time : Z; js_marker : Z; js_valid : Z }.

Record jitter_buffer_t := {
  jb_slots : list jitter_slot_t;
  jb_data_buffer : list Z;
  jb_slot_size : Z;
  next_seq_out : Z;
  jb_initialized : Z;
  clock_rate : Z;
  target_delay_ms : Z;
  min_delay_ms : Z;
  max_delay_ms : Z;
  current_jitter : Z;
  packets_in : Z;
  packets_out : Z;
  jb_packets_lost : Z;
  packets_late : Z;
  packets_duplicate : Z }.

(** The structure with a new playout state, slots, data and counters; the
    configuration is kept. *)
Definition jb_update (jb : jitter_buffer_t) (ss : list jitter_slot_t)
    (buf : list Z) (next init p_in p_out p_lost p_late p_dup : Z)
    : jitter_buffer_t :=
  Build_jitter_buffer_t ss buf (jb_slot_size jb) next init (clock_rate jb)
    (target_delay_ms jb) (min_delay_ms jb) (max_delay_ms jb)
    (current_jitter jb) p_in p_out p_lost p_late p_dup.

Definition slot_zero : jitter_slot_t := Build_jitter_slot_t 0 0 0 0 0 0 0.

Definition slot_set_valid (s : jitter_slot_t) (v : Z) : jitter_slot_t :=
  Build_jitter_slot_t (js_data s) (js_len s) (js_sequence s) (js_timestamp s)
    (js_arrival_time s) (js_marker s) v.

(* ------------------------------------------------------------------ *)
(** ** Operations *)

(** [mem] says whether both allocations succeed. *)
Definition jitter_buffer_create (clock delay size : Z) (mem : bool)
    : option jitter_buffer_t :=
  if mem then
    Some {| jb_slots := (fun i => Build_jitter_slot_t (i * size) 0 0 0 0 0 0)
                          <$> seqZ 0 JITTER_BUFFER_SIZE;
            jb_data_buffer := replicate (Z.to_nat (JITTER_BUFFER_SIZE * size)) 0;
            jb_slot_size := size; next_seq_out := 0; jb_initialized := 0;
            clock_rate := clock; target_delay_ms := delay; min_delay_ms := 10;
            max_delay_ms := 500; current_jitter := 0; packets_in := 0;
            packets_out := 0; jb_packets_lost := 0; packets_late := 0;
            packets_duplicate := 0 |}
  else None.

Definition jitter_buffer_reset (jb : option jitter_buffer_t)
    : option jitter_buffer_t :=
  let? jb := jb else None in
  Some (Build_jitter_buffer_t ((fun s => slot_set_valid s 0) <$> jb_slots jb)
          (jb_data_buffer jb) (jb_slot_size jb) 0 0 (clock_rate jb)
          (target_delay_ms jb) (min_delay_ms jb) (max_delay_ms jb) 0 0 0 0 0 0).

Definition jb_seq_diff (s1 s2 : Z) : Z := s16 (s1 - s2).

Definition jb_index (seq : Z) : Z := Z.land seq JITTER_BUFFER_MASK.

(** [memcpy] from [pkt->payload]. *)
Definition pkt_payload (pkt : rtp_packet_t) : res (list Z) :=
  match payload pkt with
  | Some p => rd_slice p 0 (payload_len pkt)
  | None => if payload_len pkt =? 0 then Ok [] else Fault
  end.

Definition jitter_buffer_put (jb : option jitter_buffer_t)
    (pkt : option rtp_packet_t) (now_ms : Z) : res (option jitter_buffer_t * Z) :=
  let? jb := jb else Ok (None, -1) in
  let? pkt := pkt else Ok (Some jb, -1) in
  let seq := sequence (header pkt) in
  let ts := timestamp (header pkt) in
  let next := if truth (jb_initialized jb) then next_seq_out jb else seq in
  let init := if truth (jb_initialized jb) then jb_initialized jb else 1 in
  let upd_jb ss buf p_in p_late p_dup :=
    Some (jb_update jb ss buf next init p_in (packets_out jb)
            (jb_packets_lost jb) p_late p_dup) in
  let diff := jb_seq_diff seq next in
  if diff <? Z.quot (- JITTER_BUFFER_SIZE) 2 then
    Ok (upd_jb (jb_slots jb) (jb_data_buffer jb) (packets_in jb)
          (packets_late jb + 1) (packets_duplicate jb), -1)
  else if Z.quot JITTER_BUFFER_SIZE 2 <=? diff then
    Ok (upd_jb (jb_slots jb) (jb_data_buffer jb) (packets_in jb)
          (packets_late jb + 1) (packets_duplicate jb), -1)
  else
  let slot_idx := jb_index seq in
  slot ← rd (jb_slots jb) slot_idx;
  if truth (js_valid slot) && (js_sequence slot =? seq) then
    Ok (upd_jb (jb_slots jb) (jb_data_buffer jb) (packets_in jb)
          (packets_late jb) (packets_duplicate jb + 1), 1)
  else if jb_slot_size jb <? payload_len pkt then
    Ok (upd_jb (jb_slots jb) (jb_data_buffer jb) (packets_in jb)
          (packets_late jb) (packets_duplicate jb), -1)
  else
  d ← pkt_payload pkt;
  buf ← wr (jb_data_buffer jb) (js_data slot) d;
  ss ← upd (jb_slots jb) slot_idx
         (Build_jitter_slot_t (js_data slot) (payload_len pkt) seq ts now_ms
            (if truth (marker (header pkt)) then 1 else 0) 1);
  Ok (upd_jb ss buf (packets_in jb + 1) (packets_late jb)
        (packets_duplicate jb), 0).

(** The look-ahead loop [for (i = ...; i < JITTER_BUFFER_SIZE / 4; i++)] for a
    valid slot, [n] iterations being left. *)
Fixpoint jb_any_valid (ss : list jitter_slot_t) (next i : Z) (n : nat) : res bool :=
  match n with
  | O => Ok false
  | S n =>
    s ← rd ss (Z.land (next + i) JITTER_BUFFER_MASK);
    if truth (js_valid s) then Ok true else jb_any_valid ss next (i + 1) n
  end.

(** The objects behind the pointers [data], [len], [timestamp] and [marker]. *)
Record get_io := {
  io_data : option (list Z); io_len : option Z;
  io_timestamp : option Z; io_marker : option Z }.

Definition jitter_buffer_get_ex (jb : option jitter_buffer_t) (io : get_io)
    (max_len now_ms : Z) : res (option jitter_buffer_t * Z * get_io) :=
  let? jb := jb else Ok (None, -1, io) in
  let? data := (io_data io) else Ok (Some jb, -1, io) in
  let? _ := io_len io else Ok (Some jb, -1, io) in
  if negb (truth (jb_initialized jb)) then Ok (Some jb, 0, io) else
  let slot_idx := jb_index (next_seq_out jb) in
  slot ← rd (jb_slots jb) slot_idx;
  if negb (truth (js_valid slot)) then
    have_future ← jb_any_valid (jb_slots jb) (next_seq_out jb) 1
                    (Z.to_nat (Z.quot JITTER_BUFFER_SIZE 4 - 1));
    if (have_future : bool) then
      Ok (Some (jb_update jb (jb_slots jb) (jb_data_buffer jb)
                  (u16 (next_seq_out jb + 1)) (jb_initialized jb)
                  (packets_in jb) (packets_out jb) (jb_packets_lost jb + 1)
                  (packets_late jb) (packets_duplicate jb)), -1, io)
    else Ok (Some jb, 0, io)
  else
  let delay := u64 (now_ms - js_arrival_time slot) in
  if delay <? target_delay_ms jb then Ok (Some jb, 0, io) else
  if max_len <? js_len slot then Ok (Some jb, -1, io) else
  d ← rd_slice (jb_data_buffer jb) (js_data slot) (js_len slot);
  data' ← wr data 0 d;
  ss ← upd (jb_slots jb) slot_idx (slot_set_valid slot 0);
  Ok (Some (jb_update jb ss (jb_data_buffer jb) (u16 (next_seq_out jb + 1))
              (jb_initialized jb) (packets_in jb) (packets_out jb + 1)
              (jb_packets_lost jb) (packets_late jb) (packets_duplicate jb)),
      1,
      Build_get_io (Some data') (Some (js_len slot))
        (match io_timestamp io with
         | Some _ => Some (js_timestamp slot) | None => None end)
        (match io_marker io with
         | Some _ => Some (js_marker slot) | None => None end)).

Definition jitter_buffer_get (jb : option jitter_buffer_t) (io : get_io)
    (max_len now_ms : Z) : res (option jitter_buffer_t * Z * get_io) :=
  jitter_buffer_get_ex jb
    (Build_get_io (io_data io) (io_len io) (io_timestamp io) None)
    max_len now_ms.

(** The return value and the timestamp. *)
Definition jitter_buffer_peek (jb : option jitter_buffer_t) (ts : option Z)
    : res (Z * option Z) :=
  let? jb := jb else Ok (0, ts) in
  if negb (truth (jb_initialized jb)) then Ok (0, ts) else
  slot ← rd (jb_slots jb) (jb_index (next_seq_out jb));
  if negb (truth (js_valid slot)) then Ok (0, ts) else
  Ok (1, match ts with Some _ => Some (js_timestamp slot) | None => None end).

Definition jitter_buffer_get_delay (jb : option jitter_buffer_t) : Z :=
  let? jb := jb else 0 in target_delay_ms jb.

Definition jitter_buffer_get_jitter (jb : option jitter_buffer_t) : Z :=
  let? jb := jb else 0 in
  if clock_rate jb =? 0 then 0
  else u32 (current_jitter jb * 1000) / clock_rate jb.

Definition jitter_buffer_get_count (jb : option jitter_buffer_t) : Z :=
  let? jb := jb else 0 in
  len (filter (fun s => truth (js_valid s)) (jb_slots jb)).

Definition jitter_buffer_is_empty (jb : option jitter_buffer_t) : bool :=
  jitter_buffer_get_count jb =? 0.

(** The scan for gaps, [n] iterations being left; the numbers stored in
    [missing] from [count] on. *)
Fixpoint jb_missing_loop (ss : list jitter_slot_t) (next i count max_count : Z)
    (n : nat) : res (list Z) :=
  match n with
  | O => Ok []
  | S n =>
    if count <? max_count then
      let seq := u16 (next + i) in
      s ← rd ss (jb_index seq);
      if negb (truth (js_valid s)) then
        has_later ← jb_any_valid ss next (i + 1)
                      (Z.to_nat (Z.quot JITTER_BUFFER_SIZE 4 - (i + 1)));
        if (has_later : bool) then
          out ← jb_missing_loop ss next (i + 1) (count + 1) max_count n;
          Ok (seq :: out)
        else jb_missing_loop ss next (i + 1) count max_count n
      else jb_missing_loop ss next (i + 1) count max_count n
    else Ok []
  end.

Definition jitter_buffer_get_missing (jb : option jitter_buffer_t)
    (missing : option unit) (max_count : Z) : res (list Z) :=
  let? jb := jb else Ok [] in
  let? _ := missing else Ok [] in
  if negb (truth (jb_initialized jb)) then Ok [] else
  jb_missing_loop (jb_slots jb) (next_seq_out jb) 0 0 max_count
    (Z.to_nat (Z.quot JITTER_BUFFER_SIZE 4)).

Definition jitter_buffer_set_delay_bounds (jb : option jitter_buffer_t)
    (min_ms max_ms : Z) : option jitter_buffer_t :=
  let? jb := jb else None in
  let t := target_delay_ms jb in
  let t := if t <? min_ms then min_ms else t in
  let t := if max_ms <? t then max_ms else t in
  Some (Build_jitter_buffer_t (jb_slots jb) (jb_data_buffer jb)
          (jb_slot_size jb) (next_seq_out jb) (jb_initialized jb)
          (clock_rate jb) t min_ms max_ms (current_jitter jb) (packets_in jb)
          (packets_out jb) (jb_packets_lost jb) (packets_late jb)
          (packets_duplicate jb)).

(* ------------------------------------------------------------------ *)
(** ** Specification: a reorder queue *)

Record pkt_entry := {
  pe_payload : list Z; pe_timestamp : Z; pe_marker : Z; pe_arrival : Z }.

(** The next number to play (once the first packet has been seen) and the
    packets waiting, by sequence number. *)
Record reorder_queue := {
  rq_started : bool; rq_next : Z; rq_packets : gmap Z pkt_entry }.

Definition entry_of (pkt : rtp_packet_t) (pl : list Z) (now : Z) : pkt_entry :=
  Build_pkt_entry pl (timestamp (header pkt))
    (if truth (marker (header pkt)) then 1 else 0) now.

(** The number that a packet is compared with. *)
Definition rq_cursor (q : reorder_queue) (seq : Z) : Z :=
  if rq_started q then rq_next q else seq.

(** The packet is within the next 128 numbers. *)
Definition in_window (next seq : Z) : bool :=
  (0 <=? s16 (seq - next)) && (s16 (seq - next) <? 128).

Definition rq_put (size : Z) (q : reorder_queue) (seq : Z) (e : pkt_entry)
    : reorder_queue * Z :=
  let next := rq_cursor q seq in
  if negb (in_window next seq) then
    (Build_reorder_queue true next (rq_packets q), -1)
  else match rq_packets q !! seq with
  | Some _ => (Build_reorder_queue true next (rq_packets q), 1)
  | None =>
    if size <? len (pe_payload e)
    then (Build_reorder_queue true next (rq_packets q), -1)
    else (Build_reorder_queue true next (<[seq := e]> (rq_packets q)), 0)
  end.

(** One of the numbers [next + i], ..., [next + i + n - 1] is waiting. *)
Definition rq_has (q : reorder_queue) (i : Z) (n : nat) : bool :=
  existsb (fun k => bool_decide (is_Some (rq_packets q !! u16 (rq_next q + k))))
    (seqZ i (Z.of_nat n)).

Definition rq_get (delay : Z) (q : reorder_queue) (max_len now : Z)
    : reorder_queue * Z * option pkt_entry :=
  if negb (rq_started q) then (q, 0, None) else
  match rq_packets q !! rq_next q with
  | None =>
    if rq_has q 1 63
    then (Build_reorder_queue true (u16 (rq_next q + 1)) (rq_packets q), -1, None)
    else (q, 0, None)
  | Some e =>
    if u64 (now - pe_arrival e) <? delay then (q, 0, None) else
    if max_len <? len (pe_payload e) then (q, -1, None) else
    (Build_reorder_queue true (u16 (rq_next q + 1))
       (delete (rq_next q) (rq_packets q)), 1, Some e)
  end.

(** What a slot holds. *)
Definition slot_entry (buf : list Z) (s : jitter_slot_t) (e : pkt_entry) : Prop :=
  rd_slice buf (js_data s) (js_len s) = Ok (pe_payload e) /\
  js_timestamp s = pe_timestamp e /\ js_marker s = pe_marker e /\
  js_arrival_time s = pe_arrival e.

Record jb_rep (jb : jitter_buffer_t) (q : reorder_queue) : Prop := {
  jr_slots : len (jb_slots jb) = 256;
  jr_size : 0 <= jb_slot_size jb;
  jr_buffer : len (jb_data_buffer jb) = 256 * jb_slot_size jb;
  jr_started : truth (jb_initialized jb) = rq_started q;
  jr_next : rq_started q = true ->
    next_seq_out jb = rq_next q /\ is_u16 (rq_next q);
  jr_slot : forall i s, rd (jb_slots jb) i = Ok s ->
    js_data s = i * jb_slot_size jb /\
    (truth (js_valid s) = true -> js_sequence s mod 256 = i /\
       exists e, rq_packets q !! js_sequence s = Some e /\
         slot_entry (jb_data_buffer jb) s e);
  jr_packets : forall seq e, rq_packets q !! seq = Some e ->
    is_u16 seq /\ rq_started q = true /\ in_window (rq_next q) seq = true /\
    len (pe_payload e) <= jb_slot_size jb /\
    exists s, rd (jb_slots jb) (seq mod 256) = Ok s /\
      truth (js_valid s) = true /\ js_sequence s = seq }.

(* ------------------------------------------------------------------ *)
(** ** Lemmas *)

Lemma jb_index_mod seq : jb_index seq = seq mod 256.
Proof. apply land255. Qed.

Lemma jb_mask_mod z : Z.land z JITTER_BUFFER_MASK = z mod 256.
Proof. apply land255. Qed.

(** Numbers of the window are told apart by their slot. *)
Lemma window_index next a b :
  is_u16 next -> is_u16 a -> is_u16 b ->
  in_window next a = true -> in_window next b = true ->
  a mod 256 = b mod 256 -> a = b.
Proof.
  unfold in_window, is_u16, s16. intros Hn Ha Hb.
  rewrite !andb_true_iff, !Z.leb_le, !Z.ltb_lt. zmod_lia.
Qed.

Lemma window_next next k :
  is_u16 next -> 0 <= k < 128 -> in_window next (u16 (next + k)) = true.
Proof.
  unfold in_window, is_u16, s16, u16. intros Hn Hk.
  rewrite andb_true_iff, Z.leb_le, Z.ltb_lt. zmod_lia.
Qed.

(** Past the cursor's own number the window moves with the cursor. *)
Lemma window_advance next a :
  is_u16 next -> is_u16 a -> in_window next a = true -> a <> next ->
  in_window (u16 (next + 1)) a = true.
Proof.
  unfold in_window, is_u16, s16, u16. intros Hn Ha.
  rewrite !andb_true_iff, !Z.leb_le, !Z.ltb_lt. zmod_lia.
Qed.

Section represented.
Context (jb : jitter_buffer_t) (q : reorder_queue) (Hrep : jb_rep jb q).

Lemma slot_exists i :
  exists s, rd (jb_slots jb) (i mod 256) = Ok s.
Proof. apply rd_in_range. rewrite (jr_slots _ _ Hrep). zmod_lia. Qed.

(** A window number's slot is occupied exactly when the packet waits. *)
Lemma slot_valid_iff seq s :
  rq_started q = true -> is_u16 seq -> in_window (rq_next q) seq = true ->
  rd (jb_slots jb) (seq mod 256) = Ok s ->
  match rq_packets q !! seq with
  | Some e => truth (js_valid s) = true /\ js_sequence s = seq /\
              slot_entry (jb_data_buffer jb) s e
  | None => truth (js_valid s) = false
  end.
Proof.
  intros Hst Hu Hw Hs. destruct (jr_slot _ _ Hrep _ _ Hs) as [_ Hv].
  destruct (jr_next _ _ Hrep Hst) as [_ Hn].
  destruct (truth (js_valid s)) eqn:E.
  - destruct (Hv eq_refl) as (Hi & e & He & Hent).
    destruct (jr_packets _ _ Hrep _ _ He) as (Hu' & _ & Hw' & _).
    assert (js_sequence s = seq) as <- by (by apply (window_index (rq_next q))).
    by rewrite He.
  - destruct (rq_packets q !! seq) as [e|] eqn:He; [|done].
    destruct (jr_packets _ _ Hrep _ _ He) as (_ & _ & _ & _ & s' & Hs' & Hv' & _).
    congruence.
Qed.

Lemma any_valid_spec i n :
  rq_started q = true -> 0 <= i -> i + Z.of_nat n <= 128 ->
  jb_any_valid (jb_slots jb) (rq_next q) i n = Ok (rq_has q i n).
Proof.
  intros Hst. revert i. induction n as [|n IH]; intros i Hi Hn; [done|].
  destruct (jr_next _ _ Hrep Hst) as [_ Hu].
  cbn [jb_any_valid]. rewrite jb_mask_mod.
  assert (Hm : (rq_next q + i) mod 256 = u16 (rq_next q + i) mod 256)
    by (unfold u16; zmod_lia).
  rewrite Hm. destruct (slot_exists (u16 (rq_next q + i))) as [s Hs]. rewrite Hs.
  cbn [mbind res_bind].
  pose proof (slot_valid_iff _ s Hst (u16_range _)
    (window_next _ i Hu ltac:(lia)) Hs) as Hv.
  unfold rq_has. rewrite seqZ_cons by lia. cbn [existsb].
  replace (Z.pred (Z.of_nat (S n))) with (Z.of_nat n) by lia.
  destruct (rq_packets q !! u16 (rq_next q + i)) as [e|].
  - destruct Hv as [-> _]. by rewrite bool_decide_true.
  - rewrite Hv. rewrite bool_decide_false by (by apply is_Some_None).
    rewrite IH by lia. done.
Qed.

Lemma region_fits i : 0 <= i < 256 ->
  0 <= i * jb_slot_size jb /\
  i * jb_slot_size jb + jb_slot_size jb <= len (jb_data_buffer jb).
Proof. rewrite (jr_buffer _ _ Hrep). pose proof (jr_size _ _ Hrep). nia. Qed.
End represented.

(** Moving the cursor keeps the representation while every waiting packet
    stays in the window. *)
Lemma rep_move jb q next init a b c d e :
  jb_rep jb q -> truth init = true -> is_u16 next ->
  (forall seq x, rq_packets q !! seq = Some x -> in_window next seq = true) ->
  jb_rep (jb_update jb (jb_slots jb) (jb_data_buffer jb) next init a b c d e)
    (Build_reorder_queue true next (rq_packets q)).
Proof.
  intros [] Hi Hn Hw. constructor; cbn; try done.
  intros seq x Hx. destruct (jr_packets0 _ _ Hx) as (? & _ & _ & ? & ?).
  split_and!; try done. by eapply Hw.
Qed.

Lemma slot_entry_len buf s e : slot_entry buf s e -> js_len s = len (pe_payload e).
Proof. intros [H _]. by apply rd_slice_Ok in H as (_ & _ & _ & ? & _). Qed.

(** Storing a packet of the window that is not waiting yet. *)
Lemma rep_store jb q seq s pl ts mk now buf ss a b c d e :
  jb_rep jb q -> rq_started q = true -> is_u16 seq ->
  in_window (rq_next q) seq = true -> rq_packets q !! seq = None ->
  len pl <= jb_slot_size jb ->
  rd (jb_slots jb) (seq mod 256) = Ok s ->
  wr (jb_data_buffer jb) (js_data s) pl = Ok buf ->
  upd (jb_slots jb) (seq mod 256)
    (Build_jitter_slot_t (js_data s) (len pl) seq ts now mk 1) = Ok ss ->
  jb_rep (jb_update jb ss buf (next_seq_out jb) (jb_initialized jb) a b c d e)
    (Build_reorder_queue true (rq_next q)
       (<[seq := Build_pkt_entry pl ts mk now]> (rq_packets q))).
Proof.
  intros Hrep Hst Hu Hw Hnone Hl Hs Hwr Hupd.
  set (i := seq mod 256) in *. set (x := Build_jitter_slot_t _ _ _ _ _ _ _) in *.
  pose proof Hrep as [Hslots Hsz Hbuf Hstarted Hnext Hslot Hpk].
  destruct (Hslot _ _ Hs) as [Hd _].
  assert (Hi : 0 <= i < 256) by (unfold i; zmod_lia).
  constructor; cbn [jb_update jb_slots jb_slot_size jb_data_buffer jb_initialized
    next_seq_out rq_started rq_next rq_packets]; try done.
  - rewrite upd_Ok in Hupd by lia. injection Hupd as <-. by rewrite len_insert.
  - by rewrite (wr_len _ _ _ _ Hwr).
  - by rewrite Hstarted.
  - intros _. by apply Hnext.
  - intros j t Ht. rewrite (rd_upd _ _ _ _ _ Hupd) in Ht. case_decide as Hij.
    + injection Ht as <-. subst j. cbn [js_data js_valid js_sequence x]. split; [done|].
      intros _. split; [done|]. eexists. split; [apply lookup_insert_eq|].
      split; [|done]. cbn. by apply (rd_slice_wr_same (jb_data_buffer jb)).
    + destruct (Hslot _ _ Ht) as [Hdj Hv]. split; [done|]. intros Hvalid.
      destruct (Hv Hvalid) as (Hsq & y & Hy & Hent). split; [done|]. exists y.
      split; [rewrite lookup_insert_ne; [done|intros Heq; apply Hij; unfold i; by rewrite Heq]|].
      destruct Hent as [Hr Hrest]. split; [|done]. rewrite <- Hr.
      destruct (Hpk _ _ Hy) as (_ & _ & _ & Hly & _).
      pose proof (slot_entry_len _ _ _ (conj Hr Hrest)) as Hlen.
      apply (rd_slice_wr_disjoint _ _ _ _ _ _ Hwr). rewrite Hd, Hdj, Hlen.
      apply rd_bounds in Ht. destruct (decide (j < i)); [left|right]; nia.
  - intros seq' y. destruct (decide (seq' = seq)) as [->|Hne].
    + rewrite lookup_insert_eq. intros [= <-]. split_and!; try done.
      exists x. rewrite (rd_upd _ _ _ _ _ Hupd), decide_True by done. done.
    + rewrite lookup_insert_ne by done. intros Hy.
      destruct (Hpk _ _ Hy) as (Hu' & _ & Hw' & Hl' & t & Ht & Htv).
      split_and!; try done. exists t. split; [|done].
      rewrite (rd_upd _ _ _ _ _ Hupd), decide_False; [done|].
      intros Heq. apply Hne. symmetry. destruct (Hnext Hst).
      by apply (window_index (rq_next q)).
Qed.

(** Playing the packet at the cursor. *)
Lemma rep_take jb q s ss a b c d e :
  jb_rep jb q -> rq_started q = true ->
  rd (jb_slots jb) (rq_next q mod 256) = Ok s ->
  upd (jb_slots jb) (rq_next q mod 256) (slot_set_valid s 0) = Ok ss ->
  jb_rep (jb_update jb ss (jb_data_buffer jb) (u16 (rq_next q + 1))
            (jb_initialized jb) a b c d e)
    (Build_reorder_queue true (u16 (rq_next q + 1))
       (delete (rq_next q) (rq_packets q))).
Proof.
  intros Hrep Hst Hs Hupd.
  pose proof Hrep as [Hslots Hsz Hbuf Hstarted Hnext Hslot Hpk].
  destruct (Hnext Hst) as [_ Hu]. pose proof (rd_bounds _ _ _ Hs) as Hi.
  assert (Hne : forall seq y, rq_packets q !! seq = Some y -> seq <> rq_next q ->
    seq mod 256 <> rq_next q mod 256).
  { intros seq y Hy Hn Heq. destruct (Hpk _ _ Hy) as (Hu' & _ & Hw' & _).
    apply Hn, (window_index (rq_next q)); try done.
    rewrite <- (u16_id (rq_next q)) at 2 by done. rewrite <- (Z.add_0_r (rq_next q)) at 2.
    by apply window_next. }
  constructor; cbn [jb_update jb_slots jb_slot_size jb_data_buffer jb_initialized
    next_seq_out rq_started rq_next rq_packets]; try done.
  - rewrite upd_Ok in Hupd by lia. injection Hupd as <-. by rewrite len_insert.
  - by rewrite Hstarted.
  - intros _. split; [done|apply u16_range].
  - intros j t Ht. rewrite (rd_upd _ _ _ _ _ Hupd) in Ht. case_decide as Hij.
    + injection Ht as <-. subst j. split; [by destruct (Hslot _ _ Hs)|done].
    + destruct (Hslot _ _ Ht) as [Hdj Hv]. split; [done|]. intros Hvalid.
      destruct (Hv Hvalid) as (Hsq & y & Hy & Hent). split; [done|]. exists y.
      split; [|done]. rewrite lookup_delete_ne; [done|]. intros Heq.
      apply Hij. by rewrite Heq.
  - intros seq y. destruct (decide (seq = rq_next q)) as [->|Hn];
      [by rewrite lookup_delete_eq|].
    rewrite lookup_delete_ne by done. intros Hy. specialize (Hne _ _ Hy Hn).
    destruct (Hpk _ _ Hy) as (Hu' & _ & Hw' & Hl' & t & Ht & Htv).
    split_and!; try done; [by apply window_advance|]. exists t. split; [|done].
    rewrite (rd_upd _ _ _ _ _ Hupd), decide_False; [done|]. congruence.
Qed.

(** The packet is not one that is at most 128 behind the cursor. *)
Definition timely (q : reorder_queue) (seq : Z) : Prop :=
  ~ (-128 <= s16 (seq - rq_cursor q seq) < 0).

Lemma put_simulates jb q pkt pl post now :
  jb_rep jb q -> is_u16 (sequence (header pkt)) ->
  payload pkt = Some (pl ++ post) -> payload_len pkt = len pl ->
  timely q (sequence (header pkt)) ->
  let r := rq_put (jb_slot_size jb) q (sequence (header pkt)) (entry_of pkt pl now) in
  exists jb', jitter_buffer_put (Some jb) (Some pkt) now = Ok (Some jb', r.2) /\
    jb_rep jb' r.1 /\ target_delay_ms jb' = target_delay_ms jb /\
    jb_slot_size jb' = jb_slot_size jb.
Proof.
  intros Hrep Hu Hpl Hlen Ht. unfold jitter_buffer_put, rq_put.
  set (seq := sequence (header pkt)) in *. unfold timely in Ht.
  rewrite (jr_started _ _ Hrep).
  assert (Hnext : (if rq_started q then next_seq_out jb else seq) = rq_cursor q seq).
  { unfold rq_cursor. destruct (rq_started q) eqn:E; [|done]. by apply (jr_next _ _ Hrep). }
  rewrite Hnext. set (next := rq_cursor q seq) in *.
  set (init := if rq_started q then jb_initialized jb else 1).
  assert (Hinit : truth init = true).
  { unfold init. rewrite <- (jr_started _ _ Hrep).
    by destruct (truth (jb_initialized jb)) eqn:E. }
  assert (Hun : is_u16 next).
  { unfold next, rq_cursor. destruct (rq_started q) eqn:E; [by apply (jr_next _ _ Hrep)|done]. }
  assert (Hwin : forall s x, rq_packets q !! s = Some x -> in_window next s = true).
  { intros s x Hx. destruct (jr_packets _ _ Hrep _ _ Hx) as (_ & Hst & Hw & _).
    unfold next, rq_cursor. by rewrite Hst. }
  pose proof (fun a b c d e => rep_move jb q next init a b c d e Hrep Hinit Hun Hwin) as Hmv.
  unfold jb_seq_diff. change (Z.quot (- JITTER_BUFFER_SIZE) 2) with (-128).
  change (Z.quot JITTER_BUFFER_SIZE 2) with 128.
  unfold in_window. destruct (Z.ltb_spec (s16 (seq - next)) (-128)).
  { replace (0 <=? s16 (seq - next)) with false by lia. eexists. by split; [|split; [apply Hmv|]]. }
  destruct (Z.leb_spec 128 (s16 (seq - next))).
  { replace (s16 (seq - next) <? 128) with false by lia. rewrite andb_false_r.
    eexists. by split; [|split; [apply Hmv|]]. }
  replace (0 <=? s16 (seq - next)) with true by lia.
  replace (s16 (seq - next) <? 128) with true by lia. cbn [andb negb].
  assert (Hw : in_window next seq = true).
  { unfold in_window. rewrite andb_true_iff, Z.leb_le, Z.ltb_lt. lia. }
  rewrite jb_index_mod. destruct (slot_exists jb q Hrep seq) as [s Hs]. rewrite Hs.
  cbn [mbind res_bind].
  pose proof (slot_valid_iff _ _ (Hmv 0 0 0 0 0) seq s eq_refl Hu Hw Hs) as Hv.
  cbn [rq_packets] in Hv. destruct (rq_packets q !! seq) as [x|] eqn:Hx.
  { destruct Hv as (-> & -> & _). rewrite Z.eqb_refl. cbn [andb].
    eexists. by split; [|split; [apply Hmv|]]. }
  rewrite Hv. cbn [andb]. rewrite Hlen. cbn [entry_of pe_payload].
  destruct (Z.ltb_spec (jb_slot_size jb) (len pl)).
  { eexists. by split; [|split; [apply Hmv|]]. }
  unfold pkt_payload. rewrite Hpl, Hlen, rd_slice_front by done. cbn [mbind res_bind].
  assert (Hi : 0 <= seq mod 256 < 256) by zmod_lia.
  destruct (jr_slot _ _ Hrep _ _ Hs) as [Hd _].
  pose proof (region_fits _ _ Hrep _ Hi) as [Hr0 Hr1].
  destruct (wr (jb_data_buffer jb) (js_data s) pl) as [buf| |] eqn:Hwr;
    [|by unfold wr in Hwr; case_decide
     |by exfalso; eapply (wr_no_fault _ pl (js_data s)); [lia| |exact Hwr]; lia].
  cbn [mbind res_bind]. rewrite upd_Ok by (rewrite (jr_slots _ _ Hrep); done).
  cbn [mbind res_bind]. eexists. split; [done|]. split; [|done].
  apply (rep_store _ _ seq s pl (timestamp (header pkt))
    (if truth (marker (header pkt)) then 1 else 0) now buf _ _ _ _ _ _
    (Hmv 0 0 0 0 0)); try done.
  apply upd_Ok. cbn. by rewrite (jr_slots _ _ Hrep).
Qed.

(** The output parameters after a playout. *)
Definition io_played (io : get_io) (e : pkt_entry) : get_io :=
  Build_get_io
    (option_map (fun d => pe_payload e ++ drop (length (pe_payload e)) d) (io_data io))
    (Some (len (pe_payload e)))
    (option_map (fun _ => pe_timestamp e) (io_timestamp io))
    (option_map (fun _ => pe_marker e) (io_marker io)).

Lemma get_simulates jb q io data l0 max_len now :
  jb_rep jb q -> io_data io = Some data -> io_len io = Some l0 ->
  max_len <= len data ->
  let r := rq_get (target_delay_ms jb) q max_len now in
  exists jb', jitter_buffer_get_ex (Some jb) io max_len now =
    Ok (Some jb', r.1.2, match r.2 with Some e => io_played io e | None => io end) /\
    jb_rep jb' r.1.1 /\ target_delay_ms jb' = target_delay_ms jb /\
    jb_slot_size jb' = jb_slot_size jb.
Proof.
  intros Hrep Hd Hl Hmax. unfold jitter_buffer_get_ex, rq_get. rewrite Hd, Hl.
  pose proof (jr_started _ _ Hrep) as Hst. rewrite Hst.
  destruct (rq_started q) eqn:Hs; cbn [negb]; [|by exists jb].
  destruct (jr_next _ _ Hrep Hs) as [Hn Hu]. rewrite Hn, jb_index_mod.
  destruct (slot_exists jb q Hrep (rq_next q)) as [s Hslot]. rewrite Hslot.
  cbn [mbind res_bind].
  assert (Hw0 : in_window (rq_next q) (rq_next q) = true).
  { rewrite <- (u16_id (rq_next q)) at 2 by done. rewrite <- (Z.add_0_r (rq_next q)) at 2.
    by apply window_next. }
  pose proof (slot_valid_iff _ _ Hrep _ s Hs Hu Hw0 Hslot) as Hv.
  destruct (rq_packets q !! rq_next q) as [e|] eqn:He.
  - destruct Hv as (-> & Hsq & Hent). cbn [negb].
    pose proof (slot_entry_len _ _ _ Hent) as Hlen. destruct Hent as (Hr & Hts & Hmk & Harr).
    rewrite Harr, Hlen. case_match; [by exists jb|].
    destruct (Z.ltb_spec max_len (len (pe_payload e))); [by exists jb|].
    rewrite Hlen in Hr. rewrite Hr. cbn [mbind res_bind].
    rewrite wr_front by lia. cbn [mbind res_bind].
    pose proof (rd_bounds _ _ _ Hslot). rewrite upd_Ok by done. cbn [mbind res_bind].
    assert (Hio : io_played io e = Build_get_io
      (Some (pe_payload e ++ drop (length (pe_payload e)) data)) (Some (len (pe_payload e)))
      (match io_timestamp io with Some _ => Some (js_timestamp s) | None => None end)
      (match io_marker io with Some _ => Some (js_marker s) | None => None end)).
    { unfold io_played. rewrite Hts, Hmk, Hd. done. }
    rewrite <- Hio. eexists. split; [done|]. split; [|done].
    apply (rep_take jb q s); try done. by apply upd_Ok.
  - rewrite Hv. cbn [negb].
    change (Z.to_nat (Z.quot JITTER_BUFFER_SIZE 4 - 1)) with 63%nat.
    rewrite (any_valid_spec jb q Hrep 1 63) by (done || lia). cbn [mbind res_bind].
    destruct (rq_has q 1 63); [|by exists jb].
    eexists. split; [done|]. split; [|done]. apply rep_move; [done|by rewrite Hst|apply u16_range|].
    intros seq x Hx. destruct (jr_packets _ _ Hrep _ _ Hx) as (Hu' & _ & Hw & _).
    apply window_advance; try done. congruence.
Qed.

Lemma create_rep clock delay size jb :
  0 <= size -> jitter_buffer_create clock delay size true = Some jb ->
  jb_rep jb (Build_reorder_queue false 0 ∅).
Proof.
  intros Hs <-%(inj Some). constructor; cbn [jb_slots jb_slot_size jb_data_buffer
    jb_initialized next_seq_out rq_started rq_next rq_packets]; try done.
  - rewrite len_replicate. unfold JITTER_BUFFER_SIZE. lia.
  - intros i s [Hi Hx]%rd_lookup. rewrite list_lookup_fmap in Hx.
    destruct (seqZ 0 JITTER_BUFFER_SIZE !! Z.to_nat i) as [j|] eqn:Hj; [|done].
    apply lookup_seqZ in Hj as [Hj ?]. injection Hx as <-. cbn [js_data js_valid].
    split; [f_equal; lia|done].
Qed.

(* ------------------------------------------------------------------ *)
(** ** Runs *)

(** A client's interleaving of arrivals and playouts. *)
Inductive jb_op :=
  | OpPut (pkt : rtp_packet_t) (now : Z)
  | OpGet (now : Z).

(** What one operation returns, and the packet handed out, if any: payload,
    timestamp and marker. *)
Definition playout : Type := Z * option (list Z * Z * Z).

(** The outputs of a [get] into a zeroed buffer of [cap] bytes. *)
Definition get_io0 (cap : Z) : get_io :=
  Build_get_io (Some (replicate (Z.to_nat cap) 0)) (Some 0) (Some 0) (Some 0).

Definition played (rc : Z) (io : get_io) : option (list Z * Z * Z) :=
  if rc =? 1 then
    match io_data io, io_len io, io_timestamp io, io_marker io with
    | Some d, Some l, Some t, Some m => Some (take (Z.to_nat l) d, t, m)
    | _, _, _, _ => None
    end
  else None.

Fixpoint jb_run (cap : Z) (jb : option jitter_buffer_t) (ops : list jb_op)
    : res (option jitter_buffer_t * list playout) :=
  match ops with
  | [] => Ok (jb, [])
  | OpPut pkt now :: ops =>
    '(jb, rc) ← jitter_buffer_put jb (Some pkt) now;
    '(jb, outs) ← jb_run cap jb ops; Ok (jb, (rc, None) :: outs)
  | OpGet now :: ops =>
    '(jb, rc, io) ← jitter_buffer_get_ex jb (get_io0 cap) cap now;
    '(jb, outs) ← jb_run cap jb ops; Ok (jb, (rc, played rc io) :: outs)
  end.

Definition pkt_bytes (pkt : rtp_packet_t) : list Z := default [] (payload pkt).

Definition entry_played (e : pkt_entry) : list Z * Z * Z :=
  (pe_payload e, pe_timestamp e, pe_marker e).

Fixpoint rq_run (size delay cap : Z) (q : reorder_queue) (ops : list jb_op)
    : list playout :=
  match ops with
  | [] => []
  | OpPut pkt now :: ops =>
    let '(q, rc) := rq_put size q (sequence (header pkt))
                      (entry_of pkt (pkt_bytes pkt) now) in
    (rc, None) :: rq_run size delay cap q ops
  | OpGet now :: ops =>
    let '(q, rc, e) := rq_get delay q cap now in
    (rc, option_map entry_played e) :: rq_run size delay cap q ops
  end.

Definition pkt_ok (pkt : rtp_packet_t) : Prop :=
  is_u16 (sequence (header pkt)) /\ exists pl, payload pkt = Some pl /\ payload_len pkt = len pl.

(** Every packet of the run is well formed and timely when it arrives. *)
Fixpoint timely_run (size delay cap : Z) (q : reorder_queue) (ops : list jb_op)
    : Prop :=
  match ops with
  | [] => True
  | OpPut pkt now :: ops =>
    pkt_ok pkt /\ timely q (sequence (header pkt)) /\
    timely_run size delay cap (rq_put size q (sequence (header pkt))
                      (entry_of pkt (pkt_bytes pkt) now)).1 ops
  | OpGet now :: ops => timely_run size delay cap (rq_get delay q cap now).1.1 ops
  end.

Lemma jb_run_simulates size delay cap ops jb q :
  jb_rep jb q -> jb_slot_size jb = size -> target_delay_ms jb = delay -> 0 <= cap ->
  timely_run size delay cap q ops ->
  exists jb', jb_run cap (Some jb) ops = Ok (Some jb', rq_run size delay cap q ops).
Proof.
  intros Hrep <- <- Hcap. revert jb q Hrep.
  induction ops as [|[pkt now|now] ops IH]; intros jb q Hrep; cbn [timely_run jb_run rq_run].
  - by exists jb.
  - intros ((Hu & pl & Hpl & Hlen) & Ht & Hrest).
    assert (Hb : pkt_bytes pkt = pl) by (unfold pkt_bytes; by rewrite Hpl).
    rewrite Hb in *. destruct (put_simulates jb q pkt pl [] now)
      as (jb' & -> & Hrep' & Hd & Hs); [done|done|by rewrite app_nil_r|done|done|].
    cbn [mbind res_bind]. destruct (rq_put _ _ _ _) as [q' rc]. cbn [fst snd] in *.
    destruct (IH jb' q' Hrep') as [jb2 Hrun]; [by rewrite Hd, Hs|].
    rewrite Hd, Hs in Hrun. rewrite Hrun. by exists jb2.
  - intros Hrest. destruct (get_simulates jb q (get_io0 cap) (replicate (Z.to_nat cap) 0) 0 cap now)
      as (jb' & -> & Hrep' & Hd & Hs); [done..|rewrite len_replicate; lia|].
    cbn [mbind res_bind].
    assert (Hp : played (rq_get (target_delay_ms jb) q cap now).1.2
      (match (rq_get (target_delay_ms jb) q cap now).2 with
       | Some e => io_played (get_io0 cap) e | None => get_io0 cap end) =
      option_map entry_played (rq_get (target_delay_ms jb) q cap now).2).
    { unfold rq_get. repeat case_match; try done. cbn.
      by rewrite len_to_nat, take_app_length. }
    destruct (rq_get _ _ _ _) as [[q' rc] e]. cbn [fst snd] in *.
    destruct (IH jb' q' Hrep') as [jb2 Hrun]; [by rewrite Hd, Hs|].
    rewrite Hd, Hs in Hrun. rewrite Hrun, Hp. by exists jb2.
Qed.

(** *** Order of playout *)

(** The packet played is one that was put with number [seq]. *)
Definition put_in (all : list jb_op) (seq : Z) (p : list Z * Z * Z) : Prop :=
  exists pkt now, OpPut pkt now ∈ all /\ sequence (header pkt) = seq /\
    p = entry_played (entry_of pkt (pkt_bytes pkt) now).

Definition queue_from (all : list jb_op) (q : reorder_queue) : Prop :=
  forall seq e, rq_packets q !! seq = Some e -> put_in all seq (entry_played e).

Lemma rq_put_from all size q pkt now :
  OpPut pkt now ∈ all -> queue_from all q ->
  let q' := (rq_put size q (sequence (header pkt))
               (entry_of pkt (pkt_bytes pkt) now)).1 in
  queue_from all q' /\ rq_started q' = true /\
  rq_next q' = rq_cursor q (sequence (header pkt)).
Proof.
  intros Hin Hq. unfold rq_put. repeat (case_match; [by split|]).
  repeat case_match; (split; [|done]); try done.
  intros seq x. cbn [fst rq_packets]. intros [[<- <-]|[_ ?]]%lookup_insert_Some; [|by apply Hq].
  by exists pkt, now.
Qed.

(** From a started queue, the numbers played are unwrapped numbers from the
    cursor on, in increasing order. *)
Lemma rq_run_ordered all size delay cap ops q c :
  ops ⊆ all -> queue_from all q -> rq_started q = true -> rq_next q = u16 c ->
  exists ks, Forall (fun k => c <= k) ks /\ StronglySorted Z.lt ks /\
    Forall2 (fun k p => put_in all (u16 k) p) ks
      (omap snd (rq_run size delay cap q ops)).
Proof.
  revert q c. induction ops as [|[pkt now|now] ops IH]; intros q c Hall Hq Hst Hn.
  { exists []. repeat constructor. }
  - cbn [rq_run]. destruct (rq_put_from all size q pkt now) as (Hq' & Hst' & Hn');
      [apply Hall, elem_of_cons; by left|done|].
    destruct (rq_put _ _ _ _) as [q' rc]. cbn [fst] in *.
    apply IH; [set_solver|done|done|]. unfold rq_cursor in Hn'. rewrite Hst in Hn'. congruence.
  - cbn [rq_run]. assert (Hsub : ops ⊆ all) by set_solver.
    assert (Hsucc : u16 (rq_next q + 1) = u16 (c + 1)) by (rewrite Hn; unfold u16; zmod_lia).
    assert (Hskip : forall q', queue_from all q' -> rq_started q' = true ->
      rq_next q' = u16 (c + 1) -> exists ks, Forall (fun k => c < k) ks /\
        StronglySorted Z.lt ks /\ Forall2 (fun k p => put_in all (u16 k) p) ks
          (omap snd (rq_run size delay cap q' ops))).
    { intros q' H1 H2 H3. destruct (IH q' (c + 1) Hsub H1 H2 H3) as (ks & Hge & ?).
      exists ks. split; [|done]. eapply Forall_impl; [exact Hge|]. cbn. lia. }
    unfold rq_get. rewrite Hst. cbn [negb].
    destruct (rq_packets q !! rq_next q) as [e|] eqn:He.
    + destruct (u64 (now - pe_arrival e) <? delay); [by apply IH|].
      destruct (cap <? len (pe_payload e)); [by apply IH|].
      destruct (Hskip (Build_reorder_queue true (u16 (rq_next q + 1))
        (delete (rq_next q) (rq_packets q)))) as (ks & Hge & Hs & Hf); [|done|done|].
      { intros seq x Hx. cbn in Hx. apply lookup_delete_Some in Hx as [_ Hx]. by apply Hq. }
      exists (c :: ks). split; [constructor; [lia|]|split].
      * eapply Forall_impl; [exact Hge|]. cbn. lia.
      * by constructor.
      * cbn [omap list_omap snd option_map]. constructor; [|done].
        rewrite <- Hn. by apply Hq.
    + destruct (rq_has q 1 63); [|by apply IH].
      destruct (Hskip (Build_reorder_queue true (u16 (rq_next q + 1)) (rq_packets q)))
        as (ks & Hge & Hs & Hf); [done|done|done|].
      exists ks. split; [|by split]. eapply Forall_impl; [exact Hge|]. cbn. lia.
Qed.

Lemma rq_run_fresh_ordered all size delay cap ops :
  ops ⊆ all ->
  (forall pkt now, OpPut pkt now ∈ all -> is_u16 (sequence (header pkt))) ->
  exists ks, StronglySorted Z.lt ks /\
    Forall2 (fun k p => put_in all (u16 k) p) ks
      (omap snd (rq_run size delay cap (Build_reorder_queue false 0 ∅) ops)).
Proof.
  intros Hall Hu. induction ops as [|[pkt now|now] ops IH].
  { exists []. repeat constructor. }
  - cbn [rq_run]. assert (Hin : OpPut pkt now ∈ all) by (apply Hall, elem_of_cons; by left).
    destruct (rq_put_from all size (Build_reorder_queue false 0 ∅) pkt now)
      as (Hq' & Hst' & Hn'); [done|done|].
    set (r := rq_put _ _ _ _) in *. destruct r as [q' rc]. cbn [fst] in *.
    unfold rq_cursor in Hn'. cbn in Hn'.
    destruct (rq_run_ordered all size delay cap ops q' (rq_next q')) as (ks & _ & ?);
      [set_solver|done|done|symmetry; rewrite Hn'; by eapply u16_id, Hu|by exists ks].
  - apply IH. set_solver.
Qed.

Lemma timely_run_ok size delay cap q ops :
  timely_run size delay cap q ops ->
  forall pkt now, OpPut pkt now ∈ ops -> is_u16 (sequence (header pkt)).
Proof.
  revert q. induction ops as [|[pkt now|now] ops IH]; intros q; cbn [timely_run].
  { intros _ pkt now []%not_elem_of_nil. }
  - intros ([Hu _] & _ & Hr) pkt' now' [[= -> ->]|Hin]%elem_of_cons; [done|].
    by eapply IH.
  - intros Hr pkt' now' [?|Hin]%elem_of_cons; [done|]. by eapply IH.
Qed.

(* ------------------------------------------------------------------ *)
(** ** Properties *)

(** C5: over any interleaving of arrivals and playouts in which no packet
    arrives up to 128 numbers behind the cursor, the slot array with its
    shared data buffer behaves exactly like the reorder queue: same return
    codes, same packets played with their bytes, timestamp and marker; no
    access leaves a buffer. *)
Theorem jitter_refines_reorder_queue clock delay size cap jb ops :
  0 <= size -> 0 <= cap ->
  jitter_buffer_create clock delay size true = Some jb ->
  timely_run size delay cap (Build_reorder_queue false 0 ∅) ops ->
  exists jb', jb_run cap (Some jb) ops =
    Ok (Some jb', rq_run size delay cap (Build_reorder_queue false 0 ∅) ops).
Proof.
  intros Hs Hc Hj Ht. pose proof (create_rep _ _ _ _ Hs Hj) as Hrep.
  apply (inj Some) in Hj as <-. by apply jb_run_simulates.
Qed.

(** Under the same condition the buffer never reorders, repeats or
    invents a packet: the packets it plays were all put, and their sequence
    numbers, unwrapped, are strictly increasing, whatever the order in which
    they arrived. *)
Theorem jitter_delivers_in_order clock delay size cap jb ops :
  0 <= size -> 0 <= cap ->
  jitter_buffer_create clock delay size true = Some jb ->
  timely_run size delay cap (Build_reorder_queue false 0 ∅) ops ->
  exists jb' outs ks, jb_run cap (Some jb) ops = Ok (Some jb', outs) /\
    StronglySorted Z.lt ks /\
    Forall2 (fun k p => exists pkt now, OpPut pkt now ∈ ops /\
        sequence (header pkt) = u16 k /\
        p = (pkt_bytes pkt, timestamp (header pkt),
             if truth (marker (header pkt)) then 1 else 0))
      ks (omap snd outs).
Proof.
  intros Hs Hc Hj Ht. pose proof (create_rep _ _ _ _ Hs Hj) as Hrep.
  apply (inj Some) in Hj as <-.
  destruct (jb_run_simulates size delay cap ops _ _ Hrep eq_refl eq_refl Hc Ht) as [jb' Hrun].
  destruct (rq_run_fresh_ordered ops size delay cap ops) as (ks & Hsort & Hf);
    [done|by eapply timely_run_ok|].
  exists jb', (rq_run size delay cap (Build_reorder_queue false 0 ∅) ops), ks.
  split; [exact Hrun|]. split; [done|]. exact Hf.
Qed.

(** The gaps of the next 64 numbers: not waiting, with a later one waiting. *)
Definition rq_missing (q : reorder_queue) : list Z :=
  (fun i => u16 (rq_next q + i)) <$>
  filter (fun i => rq_packets q !! u16 (rq_next q + i) = None /\
                   rq_has q (i + 1) (Z.to_nat (64 - (i + 1))) = true)
    (seqZ 0 64).

Lemma missing_loop_spec jb q i count max n :
  jb_rep jb q -> rq_started q = true -> 0 <= i -> i + Z.of_nat n = 64 ->
  0 <= max - count ->
  jb_missing_loop (jb_slots jb) (rq_next q) i count max n =
  Ok (take (Z.to_nat (max - count)) ((fun i => u16 (rq_next q + i)) <$>
    filter (fun i => rq_packets q !! u16 (rq_next q + i) = None /\
                     rq_has q (i + 1) (Z.to_nat (64 - (i + 1))) = true)
      (seqZ i (Z.of_nat n)))).
Proof.
  intros Hrep Hst. revert i count. induction n as [|n IH]; intros i count Hi Hn Hm.
  { rewrite seqZ_nil by lia. cbn. by destruct (Z.to_nat _). }
  destruct (jr_next _ _ Hrep Hst) as [_ Hu].
  cbn [jb_missing_loop]. destruct (Z.ltb_spec count max).
  2: { by replace (Z.to_nat (max - count)) with 0%nat by lia. }
  rewrite jb_index_mod.
  destruct (slot_exists jb q Hrep (u16 (rq_next q + i))) as [s Hs]. rewrite Hs.
  cbn [mbind res_bind].
  pose proof (slot_valid_iff _ _ Hrep _ s Hst (u16_range _)
    (window_next _ i Hu ltac:(lia)) Hs) as Hv.
  rewrite (seqZ_cons i) by lia.
  replace (Z.pred (Z.of_nat (S n))) with (Z.of_nat n) by lia.
  destruct (rq_packets q !! u16 (rq_next q + i)) as [e|] eqn:He.
  - destruct Hv as [-> _]. cbn [negb]. rewrite filter_cons_False by (rewrite He; naive_solver).
    apply IH; lia.
  - rewrite Hv. cbn [negb]. change (Z.quot JITTER_BUFFER_SIZE 4) with 64.
    rewrite (any_valid_spec jb q Hrep) by (done || lia). cbn [mbind res_bind].
    destruct (rq_has q (i + 1) (Z.to_nat (64 - (i + 1)))) eqn:Hh.
    + rewrite filter_cons_True by done. rewrite IH by lia. cbn [mbind res_bind].
      replace (Z.to_nat (max - count)) with (S (Z.to_nat (max - (count + 1)))) by lia.
      done.
    + rewrite filter_cons_False by (rewrite Hh; naive_solver). apply IH; lia.
Qed.

(** The NACK candidates of a represented buffer are exactly the first
    [max_count] gaps among the next 64 numbers, in order. *)
Theorem jitter_missing_spec jb q max :
  jb_rep jb q -> rq_started q = true -> 0 <= max ->
  jitter_buffer_get_missing (Some jb) (Some tt) max =
  Ok (take (Z.to_nat max) (rq_missing q)).
Proof.
  intros Hrep Hst Hm. unfold jitter_buffer_get_missing.
  rewrite (jr_started _ _ Hrep), Hst. cbn [negb].
  destruct (jr_next _ _ Hrep Hst) as [-> _].
  change (Z.to_nat (Z.quot JITTER_BUFFER_SIZE 4)) with 64%nat.
  rewrite (missing_loop_spec jb q 0 0 max 64) by (done || lia).
  by rewrite Z.sub_0_r.
Qed.

(* ------------------------------------------------------------------ *)
(** ** Packets behind the cursor

    [jitter_buffer_put] accepts a packet up to 128 numbers behind the cursor,
    and [jitter_buffer_get_ex] trusts [valid] without comparing the slot's
    sequence number, so the hypothesis [timely] is needed. *)

Definition late_pkt (n : Z) : rtp_packet_t :=
  Build_rtp_packet_t (Build_rtp_header_t 2 0 0 0 0 96 n n 1) (replicate 15 0)
    (replicate 8 rtp_extension_zero) 0 (Some [n mod 256]) 1 None 0 0.

(** 1000 is played, 900 arrives late, then 1001 to 1155 arrive and are played
    in order, and one more packet is asked for. *)
Definition late_ops : list jb_op :=
  [OpPut (late_pkt 1000) 0; OpGet 0; OpPut (late_pkt 900) 0] ++
  (seqZ 1001 155 ≫= fun n => [OpPut (late_pkt n) 0; OpGet 0]) ++ [OpGet 0].

(** The packet 900, late when it arrived, is played after 1155 as if it were
    1156 (timestamps, which here equal the numbers). *)
Theorem jitter_late_packet_replayed :
  exists jb jb' outs, jitter_buffer_create 90000 0 4 true = Some jb /\
    jb_run 4 (Some jb) late_ops = Ok (Some jb', outs) /\
    snd ∘ fst <$> omap snd outs = [1000] ++ seqZ 1001 155 ++ [900].
Proof.
  do 3 eexists. split; [reflexivity|].
  split; [vm_compute; reflexivity|vm_compute; reflexivity].
Qed.

(* ------------------------------------------------------------------ *)
(** ** Witnesses *)

(** Reordered arrivals across the wrap of the sequence number. *)
Definition example_ops : list jb_op :=
  [OpPut (late_pkt 65534) 0; OpPut (late_pkt 0) 1; OpGet 9; OpPut (late_pkt 65535) 10;
   OpGet 10; OpGet 30; OpGet 30].

Lemma example_ops_timely : timely_run 4 5 4 (Build_reorder_queue false 0 ∅) example_ops.
Proof.
  cbn [example_ops timely_run]. repeat (split; [split; [done|by eexists]|split;
    [unfold timely; vm_compute; intros [H1 H2]; by (apply H1 || discriminate)|]]).
  done.
Defined.

Lemma jitter_refines_reorder_queue_witness :
  exists jb jb', jitter_buffer_create 90000 5 4 true = Some jb /\
    jb_run 4 (Some jb) example_ops =
    Ok (Some jb', rq_run 4 5 4 (Build_reorder_queue false 0 ∅) example_ops).
Proof.
  destruct (jitter_buffer_create 90000 5 4 true) as [jb|] eqn:E; [|discriminate E].
  exists jb. destruct (jitter_refines_reorder_queue 90000 5 4 4 jb example_ops
    ltac:(done) ltac:(done) E example_ops_timely) as [jb' H].
  exists jb'. split; [done|exact H].
Defined.

Lemma jitter_delivers_in_order_witness :
  exists jb jb' outs ks, jitter_buffer_create 90000 5 4 true = Some jb /\
    jb_run 4 (Some jb) example_ops = Ok (Some jb', outs) /\
    StronglySorted Z.lt ks /\
    Forall2 (fun k p => exists pkt now, OpPut pkt now ∈ example_ops /\
        sequence (header pkt) = u16 k /\
        p = (pkt_bytes pkt, timestamp (header pkt),
             if truth (marker (header pkt)) then 1 else 0))
      ks (omap snd outs).
Proof.
  destruct (jitter_buffer_create 90000 5 4 true) as [jb|] eqn:E; [|discriminate E].
  destruct (jitter_delivers_in_order 90000 5 4 4 jb example_ops
    ltac:(done) ltac:(done) E example_ops_timely) as (jb' & outs & ks & H).
  exists jb, jb', outs, ks. split; [done|exact H].
Defined.

Lemma jitter_missing_spec_witness :
  exists jb q, jb_rep jb q /\ rq_missing q = [11; 12] /\
    jitter_buffer_get_missing (Some jb) (Some tt) 8 = Ok [11; 12].
Proof.
  destruct (jitter_buffer_create 90000 5 4 true) as [jb0|] eqn:E; [|discriminate E].
  assert (H0 : 0 <= 4) by done.
  pose proof (create_rep 90000 5 4 jb0 H0 E) as Hrep0.
  assert (Hs0 : jb_slot_size jb0 = 4) by (apply (inj Some) in E; by rewrite <- E).
  set (q0 := Build_reorder_queue false 0 ∅) in *.
  destruct (put_simulates jb0 q0 (late_pkt 10) [10] [] 0 Hrep0) as (jb1 & _ & Hrep1 & _ & Hs1);
    [done|done|done|unfold timely; vm_compute; intros [H1 H2]; by apply H1|].
  set (q1 := (rq_put (jb_slot_size jb0) q0 10 (entry_of (late_pkt 10) [10] 0)).1) in *.
  destruct (put_simulates jb1 q1 (late_pkt 13) [13] [] 0 Hrep1) as (jb2 & _ & Hrep2 & _ & _);
    [done|done|done|unfold q1; rewrite Hs0; unfold timely; vm_compute; intros [H1 H2]; by apply H1|].
  set (q2 := (rq_put (jb_slot_size jb1) q1 13 (entry_of (late_pkt 13) [13] 0)).1) in *.
  assert (Hq : q2 = Build_reorder_queue true 10
    (<[13 := entry_of (late_pkt 13) [13] 0]> (<[10 := entry_of (late_pkt 10) [10] 0]> ∅))).
  { unfold q2, q1. rewrite Hs1, Hs0. vm_compute. reflexivity. }
  assert (Hm : rq_missing q2 = [11; 12]) by (rewrite Hq; vm_compute; reflexivity).
  exists jb2, q2. split; [done|]. split; [done|].
  assert (Hst : rq_started q2 = true) by by rewrite Hq.
  rewrite (jitter_missing_spec jb2 q2 8 Hrep2 Hst ltac:(done)), Hm. reflexivity.
Defined.
