(* ===== verification/RtpSession.v ===== *)
(** * RTP session (src/webrtc/src/rtc/rtp/rtp_session.c)

    Sequence numbers and timestamps of the sending side, the reception
    statistics of RFC 3550 on the receiving side, and the sender and receiver
    reports.  The result of each [get_time_ms()] call is an argument, and so
    are the three inputs of the SSRC generator (clock, counter and stack
    address). *)

From S2P Require Import Prelude Float RtpPacket RtpHistory Nack Rtcp.

(* ------------------------------------------------------------------ *)
(** ** Data *)

Record rtp_session_config_t := {
  cfg_ssrc : Z; cfg_payload_type : Z; cfg_clock_rate : Z; cfg_is_audio : Z }.

(** The sending, receiving and RTCP parts of [struct rtp_session_s]. *)
Record rtp_sender_state := {
  ss_sequence : Z; ss_timestamp : Z; ss_packets_sent : Z; ss_octets_sent : Z }.

Record rtp_receiver_state := {
  rs_remote_ssrc : Z; received_first : Z; max_seq : Z; cycles : Z;
  base_seq : Z; rs_packets_recv : Z; rs_packets_lost : Z; rs_jitter : Z;
  last_transit : Z }.

Record rtcp_timing_state := {
  last_sr_ntp : Z; last_sr_time_ms : Z; rtt_ms : Z }.

Record rtp_session_t := {
  se_ssrc : Z; se_payload_type : Z; se_clock_rate : Z; se_is_audio : Z;
  se_snd : rtp_sender_state;
  se_rcv : rtp_receiver_state;
  se_rtcp : rtcp_timing_state }.

Record rtp_session_stats_t := {
  st_packets_sent : Z; st_octets_sent : Z; st_packets_recv : Z;
  st_packets_lost : Z; st_jitter : Z; st_max_seq : Z; st_cycles : Z;
  st_base_seq : Z; st_last_sr_ntp : Z; st_last_sr_time : Z; st_rtt_ms : Z }.

Definition set_snd (s : rtp_session_t) (x : rtp_sender_state) : rtp_session_t :=
  Build_rtp_session_t (se_ssrc s) (se_payload_type s) (se_clock_rate s)
    (se_is_audio s) x (se_rcv s) (se_rtcp s).
Definition set_rcv (s : rtp_session_t) (x : rtp_receiver_state) : rtp_session_t :=
  Build_rtp_session_t (se_ssrc s) (se_payload_type s) (se_clock_rate s)
    (se_is_audio s) (se_snd s) x (se_rtcp s).
Definition set_rtcp (s : rtp_session_t) (x : rtcp_timing_state) : rtp_session_t :=
  Build_rtp_session_t (se_ssrc s) (se_payload_type s) (se_clock_rate s)
    (se_is_audio s) (se_snd s) (se_rcv s) x.

(* ------------------------------------------------------------------ *)
(** ** Operations *)

(** [counter] is the value that the atomic addition fetches, [addr] the
    address of the local variable; the SSRC and the counter afterwards. *)
Definition generate_ssrc (now_ms counter addr : Z) : Z * Z :=
  let c := u32 counter in
  let ssrc := Z.lxor (Z.lxor (u32 now_ms) (u32 (Z.shiftr now_ms 32))) c in
  let ssrc := Z.lxor ssrc (u32 (Z.shiftr addr 4)) in
  let ssrc := if ssrc =? 0 then Z.lxor c 0x13572468 else ssrc in
  (ssrc, counter + 0x9E3779B9).

Definition rtp_session_create (config : option rtp_session_config_t)
    (mem : bool) (now_ms counter addr : Z) : option rtp_session_t :=
  let? cfg := config else None in
  if mem then
    let ssrc := if truth (cfg_ssrc cfg) then cfg_ssrc cfg
                else (generate_ssrc now_ms counter addr).1 in
    Some {| se_ssrc := ssrc; se_payload_type := cfg_payload_type cfg;
            se_clock_rate := cfg_clock_rate cfg; se_is_audio := cfg_is_audio cfg;
            se_snd := Build_rtp_sender_state (u16 (Z.land ssrc 0xFFFF)) ssrc 0 0;
            se_rcv := Build_rtp_receiver_state 0 0 0 0 0 0 0 0 0;
            se_rtcp := Build_rtcp_timing_state 0 0 0 |}
  else None.

(** The session, what [rtp_packet_build] made of [*pkt] and of the buffer (if
    it succeeded) and the return value. *)
Definition rtp_session_send_internal (session : option rtp_session_t)
    (pl : option (list Z)) (pl_len mark ts : Z) (pkt : option rtp_packet_t)
    (buf : option (list Z)) (buf_len : Z)
    : res (option rtp_session_t * option (rtp_packet_t * list Z) * Z) :=
  let? s := session else Ok (None, None, -1) in
  let? pkt := pkt else Ok (Some s, None, -1) in
  let? buf := buf else Ok (Some s, None, -1) in
  match rtp_packet_build (Some pkt) (se_payload_type s) (ss_sequence (se_snd s))
          ts (se_ssrc s) mark pl pl_len (Some buf) buf_len with
  | Ok (pkt', buf', result) =>
    let snd := se_snd s in
    let snd' :=
      if 0 <? result then
        Build_rtp_sender_state (u16 (ss_sequence snd + 1)) ts
          (u64 (ss_packets_sent snd + 1)) (u64 (ss_octets_sent snd + pl_len))
      else snd in
    Ok (Some (set_snd s snd'), Some (pkt', buf'), result)
  | Err => Ok (Some s, None, -1)
  | Fault => Fault
  end.

Definition rtp_session_send (session : option rtp_session_t)
    (pl : option (list Z)) (pl_len mark : Z) (pkt : option rtp_packet_t)
    (buf : option (list Z)) (buf_len : Z)
    : res (option rtp_session_t * option (rtp_packet_t * list Z) * Z) :=
  rtp_session_send_internal session pl pl_len mark
    (match session with Some s => ss_timestamp (se_snd s) | None => 0 end)
    pkt buf buf_len.

Definition rtp_session_send_with_timestamp (session : option rtp_session_t)
    (pl : option (list Z)) (pl_len mark ts : Z) (pkt : option rtp_packet_t)
    (buf : option (list Z)) (buf_len : Z)
    : res (option rtp_session_t * option (rtp_packet_t * list Z) * Z) :=
  rtp_session_send_internal session pl pl_len mark ts pkt buf buf_len.

(** The jitter estimate of RFC 3550 A.8 as the code computes it, in unsigned
    arithmetic; negating the least [int] is undefined. *)
Definition rtp_jitter_step (jitter last transit : Z) : res Z :=
  if truth last then
    let d := s32 (u32 (transit - last)) in
    d ← (if d <? 0 then int_of (- d) else Ok d);
    Ok (u32 (jitter + u32 (u32 d - jitter) / 16))
  else Ok jitter.

Definition rtp_session_recv (session : option rtp_session_t)
    (pkt : option rtp_packet_t) (time_ms : Z)
    : res (option rtp_session_t * Z) :=
  let? s := session else Ok (None, -1) in
  let? pkt := pkt else Ok (Some s, -1) in
  let seq := sequence (header pkt) in
  let ts := timestamp (header pkt) in
  let r := se_rcv s in
  if negb (truth (received_first r)) then
    Ok (Some (set_rcv s
          (Build_rtp_receiver_state (ssrc (header pkt)) 1 seq 0 seq 1 0 0 0)), 0)
  else if negb (ssrc (header pkt) =? rs_remote_ssrc r) then Ok (Some s, -1)
  else
    let newer := rtp_seq_newer seq (max_seq r) in
    let cyc := if newer && (seq <? max_seq r)
               then u32 (cycles r + RTP_SEQ_MOD) else cycles r in
    let max := if newer then seq else max_seq r in
    let arrival := u32 (u64 (time_ms * se_clock_rate s) / 1000) in
    let transit := u32 (arrival - ts) in
    jitter ← rtp_jitter_step (rs_jitter r) (last_transit r) transit;
    Ok (Some (set_rcv s
          (Build_rtp_receiver_state (rs_remote_ssrc r) (received_first r) max
             cyc (base_seq r) (u64 (rs_packets_recv r + 1)) (rs_packets_lost r)
             jitter transit)), 0).

Definition rtp_session_advance_timestamp (session : option rtp_session_t)
    (samples : Z) : option rtp_session_t :=
  let? s := session else None in
  let snd := se_snd s in
  Some (set_snd s (Build_rtp_sender_state (ss_sequence snd)
          (u32 (ss_timestamp snd + samples)) (ss_packets_sent snd)
          (ss_octets_sent snd))).

(** The double 4294967.296, which is 2^32 / 1000. *)
Definition ntp_frac_per_ms : float := S754_finite false 4611686018427388 (-30).

Definition rtp_session_build_sr (session : option rtp_session_t)
    (sr : option unit) (now_ms : Z) : res rtcp_sr_t :=
  let? s := session else Err in
  let? _ := sr else Err in
  let ntp_sec := u64 (now_ms / 1000 + 2208988800) in
  ntp_frac ← f_to_u32 (f64_mul (f64_of_Z (now_ms mod 1000)) ntp_frac_per_ms);
  Ok {| sr_ssrc := se_ssrc s; sr_ntp_sec := u32 ntp_sec;
        sr_ntp_frac := ntp_frac; sr_rtp_ts := ss_timestamp (se_snd s);
        sr_packet_count := u32 (ss_packets_sent (se_snd s));
        sr_octet_count := u32 (ss_octets_sent (se_snd s)) |}.

Definition rtp_session_build_rr_block (session : option rtp_session_t)
    (ssrc0 : Z) (block : option unit) (now_ms : Z) : res rtcp_rr_block_t :=
  let? s := session else Err in
  let? _ := block else Err in
  let r := se_rcv s in
  let extended_seq := u32 (cycles r + max_seq r) in
  let expected := u32 (extended_seq - base_seq r + 1) in
  let lost := s64 (expected - s64 (rs_packets_recv r)) in
  let lost := if lost <? 0 then 0 else lost in
  let lost := if 0x7FFFFF <? lost then 0x7FFFFF else lost in
  let fraction := if (0 <? expected) && (0 <? lost)
                  then u8 (lost * 256 / expected) else 0 in
  let dlsr := if 0 <? last_sr_time_ms (se_rtcp s) then
                let delay_ms := u64 (now_ms - last_sr_time_ms (se_rtcp s)) in
                u32 (u64 (delay_ms * 65536) / 1000)
              else 0 in
  Ok {| rb_ssrc := if truth ssrc0 then ssrc0 else rs_remote_ssrc r;
        rb_fraction_lost := fraction; rb_cumulative_lost := u32 lost;
        rb_extended_seq := extended_seq; rb_jitter := rs_jitter r;
        rb_lsr := last_sr_ntp (se_rtcp s); rb_dlsr := dlsr |}.

Definition rtp_session_process_sr (session : option rtp_session_t)
    (sr : option rtcp_sr_t) (now_ms : Z) : option rtp_session_t :=
  let? s := session else None in
  let? sr := sr else Some s in
  Some (set_rtcp s (Build_rtcp_timing_state
    (Z.lor (u32 (Z.shiftl (Z.land (sr_ntp_sec sr) 0xFFFF) 16))
           (Z.shiftr (sr_ntp_frac sr) 16))
    now_ms (rtt_ms (se_rtcp s)))).

Definition rtp_session_process_rr (session : option rtp_session_t)
    (block : option rtcp_rr_block_t) : option rtp_session_t :=
  let? s := session else None in
  let? b := block else Some s in
  if negb (rb_ssrc b =? se_ssrc s) then Some s else
  if truth (rb_lsr b) && (0 <? rb_dlsr b) then
    Some (set_rtcp s (Build_rtcp_timing_state (last_sr_ntp (se_rtcp s))
            (last_sr_time_ms (se_rtcp s)) (u32 (rb_dlsr b * 1000) / 65536)))
  else Some s.

Definition rtp_session_get_stats (session : option rtp_session_t)
    (stats : option unit) : option rtp_session_stats_t :=
  let? s := session else None in
  let? _ := stats else None in
  Some {| st_packets_sent := ss_packets_sent (se_snd s);
          st_octets_sent := ss_octets_sent (se_snd s);
          st_packets_recv := rs_packets_recv (se_rcv s);
          st_packets_lost := rs_packets_lost (se_rcv s);
          st_jitter := rs_jitter (se_rcv s); st_max_seq := max_seq (se_rcv s);
          st_cycles := cycles (se_rcv s); st_base_seq := base_seq (se_rcv s);
          st_last_sr_ntp := last_sr_ntp (se_rtcp s);
          st_last_sr_time := last_sr_time_ms (se_rtcp s);
          st_rtt_ms := rtt_ms (se_rtcp s) |}.

Definition rtp_session_get_ssrc (session : option rtp_session_t) : Z :=
  let? s := session else 0 in se_ssrc s.
Definition rtp_session_get_remote_ssrc (session : option rtp_session_t) : Z :=
  let? s := session else 0 in rs_remote_ssrc (se_rcv s).

Definition rtp_session_set_remote_ssrc (session : option rtp_session_t)
    (ssrc0 : Z) : option rtp_session_t :=
  let? s := session else None in
  let r := se_rcv s in
  Some (set_rcv s (Build_rtp_receiver_state ssrc0 (received_first r) (max_seq r)
          (cycles r) (base_seq r) (rs_packets_recv r) (rs_packets_lost r)
          (rs_jitter r) (last_transit r))).

Definition rtp_session_get_payload_type (session : option rtp_session_t) : Z :=
  let? s := session else 0 in se_payload_type s.
Definition rtp_session_set_payload_type (session : option rtp_session_t)
    (pt : Z) : option rtp_session_t :=
  let? s := session else None in
  Some (Build_rtp_session_t (se_ssrc s) pt (se_clock_rate s) (se_is_audio s)
          (se_snd s) (se_rcv s) (se_rtcp s)).

(* ------------------------------------------------------------------ *)
(** ** Reception runs *)

(** Received packets with the clock reading of each. *)
Abbreviation arrivals := (list (rtp_packet_t * Z)).

Fixpoint recv_run (s : option rtp_session_t) (l : arrivals)
    : res (option rtp_session_t) :=
  match l with
  | [] => Ok s
  | (pkt, t) :: l => '(s, _) ← rtp_session_recv s (Some pkt) t; recv_run s l
  end.

(** The relative transit time of a packet. *)
Definition transit_of (clock : Z) (a : rtp_packet_t * Z) : Z :=
  u32 (u32 (u64 (a.2 * clock) / 1000) - timestamp (header a.1)).

(** No two consecutive transit times are exactly 2^31 units apart. *)
Fixpoint transits_ok (clock last : Z) (l : arrivals) : Prop :=
  match l with
  | [] => True
  | a :: l =>
    (truth last = true -> s32 (u32 (transit_of clock a - last)) <> -2147483648) /\
    transits_ok clock (transit_of clock a) l
  end.

(** The packets carry the unwrapped numbers [es], each less than half the
    sequence space from the highest one before it. *)
Fixpoint numbered (ssrc0 m : Z) (l : arrivals) (es : list Z) : Prop :=
  match l, es with
  | [], [] => True
  | a :: l, e :: es =>
    sequence (header a.1) = u16 e /\ ssrc (header a.1) = ssrc0 /\
    -32768 < e - m < 32768 /\ numbered ssrc0 (Z.max m e) l es
  | _, _ => False
  end.

(** The receiver state after [n] packets from [e0] with highest number [m]. *)
Record reception (s : rtp_session_t) (ssrc0 e0 m n last : Z) : Prop := {
  rc_first : received_first (se_rcv s) = 1;
  rc_ssrc : rs_remote_ssrc (se_rcv s) = ssrc0;
  rc_base : base_seq (se_rcv s) = e0;
  rc_max : max_seq (se_rcv s) = u16 m;
  rc_cycles : cycles (se_rcv s) = u32 (m / 65536 * 65536);
  rc_recv : rs_packets_recv (se_rcv s) = u64 n;
  rc_transit : last_transit (se_rcv s) = last }.

(* ------------------------------------------------------------------ *)
(** ** Lemmas *)

Lemma jitter_step_Ok j last t :
  (truth last = true -> s32 (u32 (t - last)) <> -2147483648) ->
  exists j', rtp_jitter_step j last t = Ok j'.
Proof.
  intros H. unfold rtp_jitter_step. destruct (truth last); [|by eexists].
  specialize (H eq_refl). pose proof (u32_range (t - last)) as Hu.
  assert (Hr : -2147483648 <= s32 (u32 (t - last)) < 2147483648) by (unfold s32; zmod_lia).
  set (d := s32 _) in *. destruct (d <? 0); [|by eexists].
  rewrite int_of_Ok by (unfold is_s32; lia). by eexists.
Qed.

(** Wrap-around detection follows the unwrapped number. *)
Lemma cycles_step m e :
  -32768 < e - m < 32768 ->
  let newer := rtp_seq_newer (u16 e) (u16 m) in
  (if newer then u16 e else u16 m) = u16 (Z.max m e) /\
  (if newer && (u16 e <? u16 m)
   then u32 (u32 (m / 65536 * 65536) + RTP_SEQ_MOD) else u32 (m / 65536 * 65536))
  = u32 (Z.max m e / 65536 * 65536).
Proof.
  intros H. destruct (rtp_seq_compare e m ltac:(lia)) as [_ ->].
  destruct (Z.lt_ge_cases m e) as [Hlt|Hge].
  - rewrite bool_decide_true by done. rewrite Z.max_r by lia. split; [done|].
    cbn [andb]. unfold u16, u32, RTP_SEQ_MOD.
    destruct (Z.ltb_spec (e mod 65536) (m mod 65536)); [|f_equal; zmod_lia].
    rewrite Zplus_mod_idemp_l. f_equal. zmod_lia.
  - rewrite bool_decide_false by lia. rewrite Z.max_l by lia. done.
Qed.

Lemma recv_step s ssrc0 e0 m n last pkt t e :
  reception s ssrc0 e0 m n last ->
  sequence (header pkt) = u16 e -> ssrc (header pkt) = ssrc0 ->
  -32768 < e - m < 32768 ->
  (truth last = true ->
   s32 (u32 (transit_of (se_clock_rate s) (pkt, t) - last)) <> -2147483648) ->
  exists s', rtp_session_recv (Some s) (Some pkt) t = Ok (Some s', 0) /\
    reception s' ssrc0 e0 (Z.max m e) (n + 1) (transit_of (se_clock_rate s) (pkt, t)) /\
    se_clock_rate s' = se_clock_rate s /\ se_rtcp s' = se_rtcp s.
Proof.
  intros [] Hseq Hss He Ht. unfold rtp_session_recv.
  rewrite rc_first0, rc_ssrc0, Hss, Z.eqb_refl. cbn [truth Z.eqb negb].
  rewrite Hseq, rc_max0, rc_cycles0, rc_transit0.
  fold (transit_of (se_clock_rate s) (pkt, t)).
  destruct (cycles_step m e He) as [Hmax Hcyc].
  destruct (jitter_step_Ok (rs_jitter (se_rcv s)) last _ Ht) as [j Hj].
  unfold transit_of in Hj |- *. cbn [fst snd] in *. rewrite Hj. cbn [mbind res_bind].
  eexists. split; [done|]. split; [|done].
  constructor; cbn; try done.
  rewrite rc_recv0. unfold u64. by rewrite Zplus_mod_idemp_l.
Qed.

Lemma recv_run_spec l es s ssrc0 e0 m n last :
  reception s ssrc0 e0 m n last -> numbered ssrc0 m l es ->
  transits_ok (se_clock_rate s) last l ->
  exists s' last', recv_run (Some s) l = Ok (Some s') /\
    reception s' ssrc0 e0 (foldl Z.max m es) (n + len es) last' /\
    se_rtcp s' = se_rtcp s.
Proof.
  revert es s m n last. induction l as [|[pkt t] l IH]; intros es s m n last Hr Hn Ht.
  - destruct es; [|done]. exists s, last. rewrite len_nil, Z.add_0_r. done.
  - destruct es as [|e es]; [done|]. cbn [numbered fst transits_ok] in *.
    destruct Hn as (Hseq & Hss & He & Hn). destruct Ht as [Ht1 Ht].
    destruct (recv_step s ssrc0 e0 m n last pkt t e Hr Hseq Hss He Ht1)
      as (s1 & Hrecv & Hr1 & Hck & Hrt). rewrite <- Hck in Ht, Hr1.
    destruct (IH es s1 _ _ _ Hr1 Hn Ht) as (s' & last' & Hrun & Hr' & Hrt').
    exists s', last'. cbn [recv_run]. rewrite Hrecv. cbn [mbind res_bind].
    split; [done|]. rewrite len_cons. cbn [foldl].
    replace (n + (1 + len es)) with (n + 1 + len es) by lia. split; [done|congruence].
Qed.

Lemma foldl_max_ge m es : m <= foldl Z.max m es.
Proof.
  revert m. induction es as [|e es IH]; intros m; cbn; [lia|].
  specialize (IH (Z.max m e)). lia.
Qed.

Lemma rr_block_fields s ssrc0 e0 m n last now :
  reception s ssrc0 e0 m n last -> 0 <= e0 -> e0 <= m -> m - e0 + 1 < 4294967296 ->
  0 <= n < 9223372036854775808 ->
  let expected := m - e0 + 1 in
  let lost := Z.min 0x7FFFFF (Z.max 0 (expected - n)) in
  exists blk, rtp_session_build_rr_block (Some s) 0 (Some tt) now = Ok blk /\
    rb_ssrc blk = ssrc0 /\ rb_extended_seq blk = u32 m /\
    rb_cumulative_lost blk = lost /\ rb_jitter blk = rs_jitter (se_rcv s) /\
    (1 <= n -> rb_fraction_lost blk = lost * 256 / expected /\
               0 <= rb_fraction_lost blk < 256) /\
    rb_lsr blk = last_sr_ntp (se_rtcp s) /\
    rb_dlsr blk = (if 0 <? last_sr_time_ms (se_rtcp s)
                   then u32 (u64 (u64 (now - last_sr_time_ms (se_rtcp s)) * 65536) / 1000)
                   else 0).
Proof.
  intros [] He0 Hm Hx Hn expected lost. unfold rtp_session_build_rr_block.
  rewrite rc_cycles0, rc_max0, rc_base0, rc_recv0, rc_ssrc0.
  assert (Hext : u32 (u32 (m / 65536 * 65536) + u16 m) = u32 m).
  { unfold u32, u16. rewrite Zplus_mod_idemp_l. f_equal. zmod_lia. }
  rewrite Hext.
  assert (Hexp : u32 (u32 m - e0 + 1) = expected).
  { unfold u32, expected. replace (m mod 4294967296 - e0 + 1) with (m mod 4294967296 + (1 - e0)) by lia.
    rewrite Zplus_mod_idemp_l. rewrite Z.mod_small; lia. }
  rewrite Hexp. rewrite (u64_id n) by (unfold is_u64; lia).
  rewrite (s64_id n) by lia. rewrite s64_id by (unfold expected; lia).
  assert (Hlost : (let l := if expected - n <? 0 then 0 else expected - n in
                   if 0x7FFFFF <? l then 0x7FFFFF else l) = lost).
  { unfold lost. cbv zeta. destruct (Z.ltb_spec (expected - n) 0);
      [|destruct (Z.ltb_spec 0x7FFFFF (expected - n))]; cbn; lia. }
  cbv zeta in Hlost. rewrite Hlost.
  assert (Hl0 : 0 <= lost) by (unfold lost; lia).
  assert (Hu : u32 lost = lost) by (apply u32_id; unfold is_u32, lost; lia).
  rewrite Hu. eexists. split; [done|]. cbn. split_and!; try done.
  intros H1. assert (Hle : lost <= expected - 1) by (unfold lost, expected; lia).
  assert (He : 0 < expected) by (unfold expected; lia).
  replace (0 <? expected) with true by lia. cbn [andb].
  destruct (Z.ltb_spec 0 lost) as [Hl|Hl].
  - assert (Hq : 0 <= lost * 256 / expected < 256).
    { split; [apply Z.div_pos; lia|]. apply Z.div_lt_upper_bound; lia. }
    rewrite u8_id by done. done.
  - replace lost with 0 by lia. rewrite Z.mul_0_l, Zdiv_0_l. lia.
Qed.

(* ------------------------------------------------------------------ *)
(** ** Properties *)

(** The report block after any reordered, lossy, duplicated or
    wrapped-around reception (consecutive numbers less than half the space
    from the highest, and no transit jump of exactly 2^31) states the true
    figures: the extended number is the highest unwrapped number, the
    cumulative loss is the expected count minus the received count clamped to
    [0, 2^23 - 1], and the fraction is that share of 256. *)
Theorem rr_block_reports_reception s0 pkt0 t0 e0 l es now :
  received_first (se_rcv s0) = 0 -> is_u16 e0 ->
  sequence (header pkt0) = e0 ->
  numbered (ssrc (header pkt0)) e0 l es ->
  transits_ok (se_clock_rate s0) 0 l ->
  foldl Z.max e0 es - e0 + 1 < 4294967296 -> len es < 9223372036854775807 ->
  let expected := foldl Z.max e0 es - e0 + 1 in
  let lost := Z.min 0x7FFFFF (Z.max 0 (expected - (1 + len es))) in
  exists s' blk, recv_run (Some s0) ((pkt0, t0) :: l) = Ok (Some s') /\
    rtp_session_build_rr_block (Some s') 0 (Some tt) now = Ok blk /\
    rb_ssrc blk = ssrc (header pkt0) /\
    rb_extended_seq blk = u32 (foldl Z.max e0 es) /\
    rb_cumulative_lost blk = lost /\
    rb_fraction_lost blk = lost * 256 / expected /\
    0 <= rb_fraction_lost blk < 256.
Proof.
  intros Hf He0 Hs Hnum Htr Hx Hn expected lost.
  set (s1 := set_rcv s0 (Build_rtp_receiver_state (ssrc (header pkt0)) 1 e0 0 e0 1 0 0 0)).
  assert (Hr : reception s1 (ssrc (header pkt0)) e0 e0 1 0).
  { unfold is_u16 in He0. constructor; cbn; try done.
    - by rewrite u16_id.
    - unfold u32. rewrite Z.div_small by lia. done. }
  assert (Hstep : rtp_session_recv (Some s0) (Some pkt0) t0 = Ok (Some s1, 0)).
  { unfold rtp_session_recv. rewrite Hf, Hs. done. }
  destruct (recv_run_spec l es s1 _ _ _ _ _ Hr Hnum Htr) as (s' & last' & Hrun & Hr' & _).
  pose proof (foldl_max_ge e0 es) as Hge. pose proof (len_nonneg es).
  destruct (rr_block_fields s' _ _ _ _ _ now Hr' ltac:(unfold is_u16 in He0; lia) Hge Hx ltac:(lia))
    as (blk & Hb & H1 & H2 & H3 & _ & H4 & _).
  exists s', blk. cbn [recv_run]. rewrite Hstep. cbn [mbind res_bind].
  split; [done|]. split; [done|]. specialize (H4 ltac:(lia)). naive_solver.
Qed.

(** Sending either produces a packet that parses back to the session's
    SSRC, payload type and current sequence number with the given timestamp,
    marker and payload, and advances the sequence number by one modulo 2^16
    and the counters by the packet, or, when the buffer is too small, fails
    and leaves the session as it was. *)
Theorem rtp_session_send_spec s pl mark ts pkt pkt0 b :
  is_u16 (ss_sequence (se_snd s)) -> is_u32 ts -> is_u32 (se_ssrc s) -> bytes pl ->
  len b < 2147483648 -> len pl < 2147483648 ->
  if 12 + len pl <=? len b then
    exists s' pkt1 out pkt',
      rtp_session_send_with_timestamp (Some s) (Some pl) (len pl) mark ts
        (Some pkt) (Some b) (len b) = Ok (Some s', Some (pkt1, out), 12 + len pl) /\
      rtp_packet_parse (Some pkt0) (Some out) (12 + len pl) = Ok pkt' /\
      header pkt' = Build_rtp_header_t 2 0 0 0 (b2i (truth mark))
        (Z.land (se_payload_type s) 127) (ss_sequence (se_snd s)) ts (se_ssrc s) /\
      payload pkt' = Some pl /\
      ss_sequence (se_snd s') = u16 (ss_sequence (se_snd s) + 1) /\
      ss_timestamp (se_snd s') = ts /\
      ss_packets_sent (se_snd s') = u64 (ss_packets_sent (se_snd s) + 1) /\
      ss_octets_sent (se_snd s') = u64 (ss_octets_sent (se_snd s) + len pl) /\
      se_rcv s' = se_rcv s
  else
    rtp_session_send_with_timestamp (Some s) (Some pl) (len pl) mark ts
      (Some pkt) (Some b) (len b) = Ok (Some s, None, -1).
Proof.
  intros Hseq Hts Hss Hpl Hb Hp. unfold rtp_session_send_with_timestamp,
    rtp_session_send_internal. pose proof (len_nonneg pl).
  destruct (Z.leb_spec (12 + len pl) (len b)) as [Hfit|Hno].
  - destruct (build_parse_spec pkt pkt0 (se_payload_type s) (ss_sequence (se_snd s)) ts
      (se_ssrc s) mark pl b Hseq Hts Hss Hpl Hfit Hb)
      as (pkt1 & out & pkt' & -> & Hparse & Hh & Hpay & _ & Hh1).
    replace (0 <? 12 + len pl) with true by lia.
    do 4 eexists. split; [done|]. split; [exact Hparse|].
    rewrite Hh, Hh1. done.
  - unfold rtp_packet_build, RTP_HEADER_SIZE. rewrite u64_id by (unfold is_u64; lia).
    by replace (len b <? 12 + len pl) with true by lia.
Qed.

(** The thousand products that [rtp_session_build_sr] can compute. *)
Definition ntp_frac_exact (k : Z) : bool :=
  match f_to_u32 (f64_mul (f64_of_Z k) ntp_frac_per_ms) with
  | Ok f => f =? k * 4294967296 / 1000
  | _ => false
  end.

Lemma ntp_frac_all : forallb ntp_frac_exact (seqZ 0 1000) = true.
Proof. vm_compute. reflexivity. Qed.

(** The sender report carries the session's identity and counters, and
    the NTP timestamp is exact: the seconds since 1900 and, despite the
    floating-point product, the milliseconds rounded down to 2^-32 seconds,
    so the receiver recovers the sending clock's millisecond. *)
Theorem rtp_session_build_sr_spec s now :
  0 <= now < 9223372036854775808 ->
  exists sr, rtp_session_build_sr (Some s) (Some tt) now = Ok sr /\
    sr_ssrc sr = se_ssrc s /\ sr_rtp_ts sr = ss_timestamp (se_snd s) /\
    sr_packet_count sr = u32 (ss_packets_sent (se_snd s)) /\
    sr_octet_count sr = u32 (ss_octets_sent (se_snd s)) /\
    sr_ntp_sec sr = u32 (now / 1000 + 2208988800) /\
    sr_ntp_frac sr = now mod 1000 * 4294967296 / 1000 /\
    (sr_ntp_frac sr * 1000 + 4294967295) / 4294967296 = now mod 1000.
Proof.
  intros Hnow. set (k := now mod 1000). assert (Hk : 0 <= k < 1000) by (unfold k; zmod_lia).
  assert (Hx : ntp_frac_exact k = true).
  { pose proof ntp_frac_all as Ha. rewrite forallb_forall in Ha. apply Ha.
    apply list_elem_of_In, elem_of_seqZ. lia. }
  unfold ntp_frac_exact in Hx. unfold rtp_session_build_sr. fold k.
  destruct (f_to_u32 _) as [f| |]; [|done..]. apply Z.eqb_eq in Hx as ->.
  cbn [mbind res_bind]. eexists. split; [done|]. cbn. split_and!; try done.
  - rewrite u64_id; [done|]. unfold is_u64. zmod_lia.
  - zmod_lia.
Qed.

(** A receiver that got a sender report answers with the middle 32 bits
    of its NTP timestamp and the delay since its arrival in units of 1/65536
    second, exact for delays up to 18 hours. *)
Theorem sr_to_rr_lsr_dlsr s sr t delay ssrc0 :
  0 < t -> is_u32 (sr_ntp_sec sr) -> is_u32 (sr_ntp_frac sr) ->
  0 <= delay < 65536000 ->
  exists s' blk, rtp_session_process_sr (Some s) (Some sr) t = Some s' /\
    rtp_session_build_rr_block (Some s') ssrc0 (Some tt) (t + delay) = Ok blk /\
    rb_lsr blk = sr_ntp_sec sr mod 65536 * 65536 + sr_ntp_frac sr / 65536 /\
    rb_dlsr blk = delay * 65536 / 1000.
Proof.
  intros Ht Hsec Hfrac Hd. do 2 eexists. split; [done|]. split; [done|]. cbn.
  unfold is_u32 in *. split.
  - change 65535 with (Z.ones 16). rewrite Z.land_ones by lia. change (2 ^ 16) with 65536.
    rewrite u32_id by (unfold is_u32; rewrite Z.shiftl_mul_pow2 by lia;
      change (2 ^ 16) with 65536; zmod_lia).
    rewrite lor_shiftl_add by (rewrite ?shiftr16; zmod_lia).
    by rewrite shiftr16.
  - replace (0 <? t) with true by lia. replace (t + delay - t) with delay by lia.
    rewrite (u64_id delay) by (unfold is_u64; lia).
    rewrite u64_id by (unfold is_u64; lia). apply u32_id. unfold is_u32. zmod_lia.
Qed.

(** When the transit time moves by at least the current estimate the
    jitter grows by a sixteenth of the excess and never passes the movement,
    as RFC 3550 prescribes. *)
Theorem rtp_jitter_grows jitter last transit d :
  truth last = true -> 0 <= jitter <= d -> d < 2147483648 ->
  s32 (u32 (transit - last)) = d \/ s32 (u32 (transit - last)) = - d ->
  exists j, rtp_jitter_step jitter last transit = Ok j /\
    j = jitter + (d - jitter) / 16 /\ jitter <= j <= d.
Proof.
  intros Hl Hj Hd Hs. unfold rtp_jitter_step. rewrite Hl.
  assert (Ha : (if s32 (u32 (transit - last)) <? 0
                then int_of (- s32 (u32 (transit - last)))
                else Ok (s32 (u32 (transit - last)))) = Ok d).
  { destruct Hs as [-> | ->].
    - by replace (d <? 0) with false by lia.
    - destruct (Z.ltb_spec (- d) 0); [|f_equal; lia].
      rewrite int_of_Ok by (unfold is_s32; lia). f_equal. lia. }
  rewrite Ha. cbn [mbind res_bind]. rewrite (u32_id d) by (unfold is_u32; lia).
  rewrite (u32_id (d - jitter)) by (unfold is_u32; lia).
  rewrite u32_id by (unfold is_u32; zmod_lia).
  eexists. split; [done|]. split; [done|zmod_lia].
Qed.

(** When the transit time moves by less than the estimate, the unsigned
    subtraction wraps and the estimate jumps up by about 2^28 instead of
    decreasing. *)
Theorem rtp_jitter_wraps jitter last transit :
  truth last = true -> 0 < jitter < 1048576 ->
  s32 (u32 (transit - last)) = 0 ->
  exists j, rtp_jitter_step jitter last transit = Ok j /\ 268000000 < j.
Proof.
  intros Hl Hj Hs. unfold rtp_jitter_step. rewrite Hl, Hs.
  cbn [Z.ltb Z.compare mbind res_bind]. eexists. split; [done|].
  assert (Hw : u32 (u32 0 - jitter) = 4294967296 - jitter) by (unfold u32; zmod_lia).
  rewrite Hw. unfold u32. zmod_lia.
Qed.

(** A report block requested before any packet claims one lost packet. *)
Theorem rr_block_before_reception cfg now counter addr :
  exists s blk, rtp_session_create (Some cfg) true now counter addr = Some s /\
    rtp_session_build_rr_block (Some s) 0 (Some tt) now = Ok blk /\
    rb_cumulative_lost blk = 1 /\ rb_fraction_lost blk = 0.
Proof. do 2 eexists. split; [done|]. split; [done|]. done. Qed.

(* ------------------------------------------------------------------ *)
(** ** Witnesses *)

Definition example_session : rtp_session_t :=
  Build_rtp_session_t 7 96 90000 0 (Build_rtp_sender_state 65535 7 0 0)
    (Build_rtp_receiver_state 0 0 0 0 0 0 0 0 0) (Build_rtcp_timing_state 0 0 0).

Definition example_arrival (seq ts : Z) : rtp_packet_t :=
  Build_rtp_packet_t (Build_rtp_header_t 2 0 0 0 0 96 seq ts 42) (replicate 15 0)
    (replicate 8 rtp_extension_zero) 0 None 0 None 0 0.

(** 65534 and 0 arrive, 65535 is late, 1 and 2 are lost, 3 arrives. *)
Lemma rr_block_reports_reception_witness :
  exists s' blk,
    recv_run (Some example_session)
      [(example_arrival 65534 0, 5); (example_arrival 0 3000, 40);
       (example_arrival 65535 1500, 50); (example_arrival 3 7500, 90)] = Ok (Some s') /\
    rtp_session_build_rr_block (Some s') 0 (Some tt) 100 = Ok blk /\
    rb_ssrc blk = 42 /\ rb_extended_seq blk = 65539 /\ rb_cumulative_lost blk = 2 /\
    rb_fraction_lost blk = 85 /\ 0 <= rb_fraction_lost blk < 256.
Proof.
  apply (rr_block_reports_reception example_session (example_arrival 65534 0) 5 65534
    [(example_arrival 0 3000, 40); (example_arrival 65535 1500, 50);
     (example_arrival 3 7500, 90)] [65536; 65535; 65539] 100);
    try done; cbn; (repeat split; lia || (vm_compute; discriminate)).
Defined.

Lemma rtp_session_send_spec_witness :
  exists s' pkt1 out pkt',
    rtp_session_send_with_timestamp (Some example_session) (Some [1; 2]) 2 1 900
      (Some rtp_packet_zero) (Some (replicate 14 0)) 14 =
      Ok (Some s', Some (pkt1, out), 14) /\
    rtp_packet_parse (Some rtp_packet_zero) (Some out) 14 = Ok pkt' /\
    header pkt' = Build_rtp_header_t 2 0 0 0 1 96 65535 900 7 /\
    payload pkt' = Some [1; 2] /\ ss_sequence (se_snd s') = 0 /\
    ss_timestamp (se_snd s') = 900 /\ ss_packets_sent (se_snd s') = 1 /\
    ss_octets_sent (se_snd s') = 2 /\ se_rcv s' = se_rcv example_session.
Proof.
  apply (rtp_session_send_spec example_session [1; 2] 1 900 rtp_packet_zero
    rtp_packet_zero (replicate 14 0)); first [done | repeat constructor; done].
Defined.

Lemma rtp_session_build_sr_spec_witness :
  exists sr, rtp_session_build_sr (Some example_session) (Some tt) 1700000000123 = Ok sr /\
    sr_ssrc sr = 7 /\ sr_rtp_ts sr = 7 /\ sr_packet_count sr = 0 /\
    sr_octet_count sr = 0 /\ sr_ntp_sec sr = 3908988800 /\
    sr_ntp_frac sr = 528280977 /\
    (sr_ntp_frac sr * 1000 + 4294967295) / 4294967296 = 123.
Proof. apply (rtp_session_build_sr_spec example_session 1700000000123). done. Defined.

Lemma sr_to_rr_lsr_dlsr_witness :
  exists s' blk,
    rtp_session_process_sr (Some example_session)
      (Some (Build_rtcp_sr_t 1 3908988800 528280977 4 5 6)) 1000 = Some s' /\
    rtp_session_build_rr_block (Some s') 0 (Some tt) (1000 + 250) = Ok blk /\
    rb_lsr blk = 3908988800 mod 65536 * 65536 + 528280977 / 65536 /\
    rb_dlsr blk = 16384.
Proof.
  apply (sr_to_rr_lsr_dlsr example_session
    (Build_rtcp_sr_t 1 3908988800 528280977 4 5 6) 1000 250 0); done.
Defined.

Lemma rtp_jitter_grows_witness :
  exists j, rtp_jitter_step 16 5000 4000 = Ok j /\ j = 77 /\ 16 <= j <= 1000.
Proof. apply (rtp_jitter_grows 16 5000 4000 1000); [done|done|done|by right]. Defined.
