(* ===== verification/TwccWire.v ===== *)
(** * Transport-wide feedback on the wire (src/webrtc/src/rtc/rtp/twcc.c)

    The packet-status chunks (run length, one-bit and two-bit vectors), the
    receive deltas in units of 250 microseconds, and the RTCP serializer and
    parser built on them.  The used elements of the fixed arrays are lists. *)

From S2P Require Import Prelude RtpPacket RtpHistory Nack Rtcp.

(* ------------------------------------------------------------------ *)
(** ** Data *)

Definition RTCP_RTPFB_TWCC : Z := 15.
Definition TWCC_DELTA_SCALE_US : Z := 250.
Definition TWCC_REF_TIME_SCALE_US : Z := 64000.
Definition RTCP_TWCC_MAX_PACKETS : Z := 8192.

Definition TWCC_SYMBOL_NOT_RECEIVED : Z := 0.
Definition TWCC_SYMBOL_SMALL_DELTA : Z := 1.
Definition TWCC_SYMBOL_LARGE_DELTA : Z := 2.
Definition TWCC_SYMBOL_RESERVED : Z := 3.

Record twcc_packet_status_t := {
  tp_seq : Z; tp_arrival_time_us : Z; tp_received : Z }.

Record rtcp_twcc_t := {
  tw_sender_ssrc : Z; tw_media_ssrc : Z; tw_base_seq : Z;
  tw_packet_count : Z; tw_reference_time : Z; tw_fb_pkt_count : Z;
  tw_packets : list twcc_packet_status_t; tw_num_packets : Z }.

(* ------------------------------------------------------------------ *)
(** ** Status chunks *)

(** An [int64_t] result: overflow is undefined. *)
Definition int64_of (z : Z) : res Z :=
  if decide (-9223372036854775808 <= z < 9223372036854775808) then Ok z else Fault.

Definition div_round_nearest_i64 (value divisor : Z) : Z :=
  if 0 <=? value then Z.quot (value + Z.quot divisor 2) divisor
  else - Z.quot (- value + Z.quot divisor 2) divisor.

(** Over the symbols themselves; [twcc_build_status_chunks] passes
    [symbols + i] and [vector_len]. *)
Definition twcc_can_use_one_bit_vector (symbols : list Z) : bool :=
  forallb (fun s => (s =? TWCC_SYMBOL_NOT_RECEIVED) || (s =? TWCC_SYMBOL_SMALL_DELTA))
    symbols.

(** The [while] loop that measures the run of [s], [run_len] being counted. *)
Fixpoint twcc_run_length (rest : list Z) (s run_len : Z) : Z :=
  match rest with
  | x :: rest => if (run_len <? 0x1FFF) && (x =? s)
                 then twcc_run_length rest s (run_len + 1) else run_len
  | [] => run_len
  end.

Fixpoint twcc_one_bit_chunk (v : list Z) (chunk j : Z) : Z :=
  match v with
  | [] => chunk
  | s :: v =>
    twcc_one_bit_chunk v
      (if s =? TWCC_SYMBOL_SMALL_DELTA
       then Z.lor chunk (u16 (Z.shiftl 1 (13 - j))) else chunk) (j + 1)
  end.

Fixpoint twcc_two_bit_chunk (v : list Z) (chunk j : Z) : Z :=
  match v with
  | [] => chunk
  | s :: v =>
    twcc_two_bit_chunk v (Z.lor chunk (u16 (Z.shiftl s (12 - j * 2)))) (j + 1)
  end.

(** The chunk for the symbols from [i] on and how many it covers. *)
Definition twcc_next_chunk (s : Z) (rest : list Z) : Z * Z :=
  let symbols := s :: rest in
  let run_len := twcc_run_length rest s 1 in
  if 7 <=? run_len then (u16 (Z.lor (Z.shiftl s 13) run_len), run_len)
  else
    let remaining := len symbols in
    let vector_len := if remaining <? 14 then remaining else 14 in
    let v := take (Z.to_nat vector_len) symbols in
    if twcc_can_use_one_bit_vector v
    then (twcc_one_bit_chunk v 0x8000 0, vector_len)
    else
      let vector_len := if remaining <? 7 then remaining else 7 in
      (twcc_two_bit_chunk (take (Z.to_nat vector_len) symbols) 0xC000 0,
       vector_len).

(** The loop over [i], on the symbols from [i] on; [chunk_count] chunks have
    been stored.  [None] is the early [return 0].  Every iteration consumes a
    symbol. *)
Fixpoint twcc_chunks_loop (fuel : nat) (symbols : list Z)
    (chunk_count max_chunks : Z) : res (option (list Z)) :=
  match fuel with
  | O => Fault
  | S fuel =>
    match symbols with
    | [] => Ok (Some [])
    | s :: rest =>
      let '(chunk, n) := twcc_next_chunk s rest in
      if max_chunks <=? chunk_count then Ok None else
      r ← twcc_chunks_loop fuel (drop (Z.to_nat n) symbols) (chunk_count + 1)
            max_chunks;
      Ok (match r with Some cs => Some (chunk :: cs) | None => None end)
    end
  end.

(** The chunks stored, of which the return value is the number; none when the
    array overflows. *)
Definition twcc_build_status_chunks (symbols : list Z) (max_chunks : Z)
    : res (list Z) :=
  r ← twcc_chunks_loop (S (length symbols)) symbols 0 max_chunks;
  Ok (match r with Some cs => cs | None => [] end).

(* ------------------------------------------------------------------ *)
(** ** Serializer *)

(** The first loop of [rtcp_compound_add_twcc]: the symbols, the deltas and
    [delta_size]; [Err] is its [return -1]. *)
Fixpoint twcc_encode_deltas (ps : list twcc_packet_status_t) (prev : Z)
    : res (list Z * list Z * Z) :=
  match ps with
  | [] => Ok ([], [], 0)
  | p :: ps =>
    if negb (truth (tp_received p)) then
      r ← twcc_encode_deltas ps prev;
      let '(ss, ds, n) := r : list Z * list Z * Z in
      Ok (TWCC_SYMBOL_NOT_RECEIVED :: ss, 0 :: ds, n)
    else
      delta_us ← int64_of (s64 (tp_arrival_time_us p) - s64 prev);
      let d := div_round_nearest_i64 delta_us TWCC_DELTA_SCALE_US in
      if (0 <=? d) && (d <=? 255) then
        r ← twcc_encode_deltas ps (tp_arrival_time_us p);
        let '(ss, ds, n) := r : list Z * list Z * Z in
        Ok (TWCC_SYMBOL_SMALL_DELTA :: ss, s16 d :: ds, 1 + n)
      else if (-32768 <=? d) && (d <=? 32767) then
        r ← twcc_encode_deltas ps (tp_arrival_time_us p);
        let '(ss, ds, n) := r : list Z * list Z * Z in
        Ok (TWCC_SYMBOL_LARGE_DELTA :: ss, s16 d :: ds, 2 + n)
      else Err
  end.

Fixpoint twcc_emit_chunks (cs : list Z) (c : cursor) : res cursor :=
  match cs with
  | [] => Ok c
  | x :: cs => c ← emit (be16 x) c; twcc_emit_chunks cs c
  end.

Fixpoint twcc_emit_deltas (ss ds : list Z) (c : cursor) : res cursor :=
  match ss, ds with
  | s :: ss, d :: ds =>
    c ← (if s =? TWCC_SYMBOL_SMALL_DELTA then emit [u8 d] c
         else if s =? TWCC_SYMBOL_LARGE_DELTA then emit (be16 (u16 d)) c
         else Ok c);
    twcc_emit_deltas ss ds c
  | _, _ => Ok c
  end.

Definition rtcp_compound_add_twcc (compound : option rtcp_compound_t)
    (twcc : option rtcp_twcc_t) : res rtcp_compound_t :=
  let? c := compound else Err in
  let? t := twcc else Err in
  if tw_num_packets t =? 0 then Err else
  let remaining := u64 (cp_buffer_len c - cp_offset c) in
  if remaining <? 20 then Err else
  let status_count := tw_num_packets t in
  if (status_count <=? 0) || (RTCP_TWCC_MAX_PACKETS <? status_count) then Err else
  ps ← rd_slice (tw_packets t) 0 status_count;
  enc ← twcc_encode_deltas ps (u64 (tw_reference_time t * TWCC_REF_TIME_SCALE_US));
  let '(symbols, deltas, delta_size) := enc in
  chunks ← twcc_build_status_chunks symbols status_count;
  if len chunks =? 0 then Err else
  let total_size := 20 + len chunks * 2 + delta_size in
  let padded_size := Z.land (total_size + 3) (Z.lnot 3) in
  if remaining <? padded_size then Err else
  b ← wr (cp_buffer c) (cp_offset c) (replicate (Z.to_nat padded_size) 0);
  w ← emit [u8 (Z.lor 0x80 RTCP_RTPFB_TWCC)] (b, cp_offset c);
  w ← emit [RTCP_RTPFB] w;
  w ← emit (be16 (u16 (padded_size / 4 - 1))) w;
  w ← emit (be32 (tw_sender_ssrc t)) w;
  w ← emit (be32 (tw_media_ssrc t)) w;
  w ← emit (be16 (tw_base_seq t)) w;
  w ← emit (be16 (u16 status_count)) w;
  w ← emit [u8 (Z.land (Z.shiftr (tw_reference_time t) 16) 255)] w;
  w ← emit [u8 (Z.land (Z.shiftr (tw_reference_time t) 8) 255)] w;
  w ← emit [u8 (Z.land (tw_reference_time t) 255)] w;
  w ← emit [tw_fb_pkt_count t] w;
  w ← twcc_emit_chunks chunks w;
  w ← twcc_emit_deltas symbols deltas w;
  Ok (Build_rtcp_compound_t w.1 (cp_buffer_len c) (cp_offset c + padded_size)).

(* ------------------------------------------------------------------ *)
(** ** Parser *)

(** The symbols of a vector chunk from position [i] on, [n] being left. *)
Fixpoint twcc_vector_symbols (chunk : Z) (two_bit : bool) (i : Z) (n : nat)
    : res (list Z) :=
  match n with
  | O => Ok []
  | S n =>
    let symbol :=
      if two_bit then u8 (Z.land (Z.shiftr chunk (12 - i * 2)) 3)
      else if truth (Z.land (Z.shiftr chunk (13 - i)) 1)
           then TWCC_SYMBOL_SMALL_DELTA else TWCC_SYMBOL_NOT_RECEIVED in
    if symbol =? TWCC_SYMBOL_RESERVED then Err else
    ss ← twcc_vector_symbols chunk two_bit (i + 1) n;
    Ok (symbol :: ss)
  end.

(** The symbols of one chunk when [room = packet_count - status_idx] statuses
    are missing. *)
Definition twcc_chunk_symbols (chunk room : Z) : res (list Z) :=
  if Z.land chunk 0x8000 =? 0 then
    let symbol := u8 (Z.land (Z.shiftr chunk 13) 3) in
    let run_len := u16 (Z.land chunk 0x1FFF) in
    if (symbol =? TWCC_SYMBOL_RESERVED) || (run_len =? 0) then Err else
    if room <? run_len then Err else
    Ok (replicate (Z.to_nat run_len) symbol)
  else
    let two_bit := negb (Z.land chunk 0x4000 =? 0) in
    let symbols_in_chunk := if two_bit then 7 else 14 in
    twcc_vector_symbols chunk two_bit 0 (Z.to_nat (Z.min symbols_in_chunk room)).

(** The [while (status_idx < packet_count)] loop: the symbols of the [room]
    missing statuses and the offset after the chunks.  Each chunk yields at
    least one symbol. *)
Fixpoint twcc_parse_chunks (fuel : nat) (b : list Z) (packet_len offset room : Z)
    : res (list Z * Z) :=
  match fuel with
  | O => Fault
  | S fuel =>
    if 0 <? room then
      if packet_len <? offset + 2 then Err else
      chunk ← read_u16 b offset;
      ss ← twcc_chunk_symbols chunk room;
      r ← twcc_parse_chunks fuel b packet_len (offset + 2) (room - len ss);
      let '(ss', off) := r : list Z * Z in
      Ok (ss ++ ss', off)
    else Ok ([], offset)
  end.

(** The loop over the deltas.  The fields [seq] and [received] of a status
    are those stored together with its symbol, [idx] its index. *)
Fixpoint twcc_parse_deltas (ss : list Z) (b : list Z) (packet_len offset base idx prev : Z)
    : res (list twcc_packet_status_t) :=
  match ss with
  | [] => Ok []
  | s :: ss =>
    let seq := u16 (base + idx) in
    if s =? TWCC_SYMBOL_NOT_RECEIVED then
      ps ← twcc_parse_deltas ss b packet_len offset base (idx + 1) prev;
      Ok (Build_twcc_packet_status_t seq 0 0 :: ps)
    else
      dn ← (if s =? TWCC_SYMBOL_SMALL_DELTA then
              if packet_len <? offset + 1 then Err else
              d ← rd b offset; Ok (d, 1)
            else
              if packet_len <? offset + 2 then Err else
              d ← read_u16 b offset; Ok (s16 d, 2));
      let '(delta, n) := dn : Z * Z in
      let arrival := prev + delta * TWCC_DELTA_SCALE_US in
      if arrival <? 0 then Err else
      ps ← twcc_parse_deltas ss b packet_len (offset + n) base (idx + 1) arrival;
      Ok (Build_twcc_packet_status_t seq arrival 1 :: ps)
  end.

Definition rtcp_parse_twcc (buffer : option (list Z)) (l : Z)
    (twcc : option unit) : res rtcp_twcc_t :=
  let? b := buffer else Err in
  let? _ := twcc else Err in
  if l <? 20 then Err else
  b0 ← rd b 0;
  b1 ← rd b 1;
  let version := Z.land (Z.shiftr b0 6) 3 in
  let fmt := Z.land b0 31 in
  if negb (version =? 2) || negb (fmt =? RTCP_RTPFB_TWCC) ||
     negb (b1 =? RTCP_RTPFB) then Err else
  rtcp_length ← read_u16 b 2;
  let packet_len := (rtcp_length + 1) * 4 in
  if (packet_len <? 20) || (l <? packet_len) then Err else
  sender ← read_u32 b 4;
  media ← read_u32 b 8;
  base ← read_u16 b 12;
  count ← read_u16 b 14;
  if RTCP_TWCC_MAX_PACKETS <? count then Err else
  r0 ← rd b 16; r1 ← rd b 17; r2 ← rd b 18;
  let reference := Z.lor (Z.lor (Z.shiftl r0 16) (Z.shiftl r1 8)) r2 in
  fb ← rd b 19;
  cs ← twcc_parse_chunks (S (Z.to_nat count)) b packet_len 20 count;
  let '(symbols, offset) := cs : list Z * Z in
  ps ← twcc_parse_deltas symbols b packet_len offset base 0
         (Z.land reference 0x00FFFFFF * TWCC_REF_TIME_SCALE_US);
  Ok {| tw_sender_ssrc := sender; tw_media_ssrc := media; tw_base_seq := base;
        tw_packet_count := count; tw_reference_time := reference;
        tw_fb_pkt_count := fb; tw_packets := ps; tw_num_packets := count |}.

(* ------------------------------------------------------------------ *)
(** ** Chunk lemmas *)

Definition symbol_ok (s : Z) : Prop := 0 <= s <= 2.

Lemma run_length_spec rest s k :
  1 <= k <= 8191 ->
  exists m, twcc_run_length rest s k = k + Z.of_nat m /\
    (m <= length rest)%nat /\ take m rest = replicate m s /\
    k + Z.of_nat m <= 8191.
Proof.
  revert k. induction rest as [|x rest IH]; intros k Hk; cbn [twcc_run_length].
  { exists 0%nat. cbn. split_and!; try done; lia. }
  destruct ((k <? 0x1FFF) && (x =? s)) eqn:E.
  - destruct (IH (k + 1)) as (m & -> & Hm & Ht & Hle); [lia|].
    exists (S m). cbn. rewrite Ht. split_and!; try lia. f_equal. lia.
  - exists 0%nat. cbn. split_and!; try done; lia.
Qed.

(** All words of a given length over an alphabet. *)
Fixpoint words (alphabet : list Z) (n : nat) : list (list Z) :=
  match n with
  | O => [[]]
  | S n => words alphabet n ≫= fun w => (fun a => a :: w) <$> alphabet
  end.

Lemma words_complete alphabet l :
  Forall (fun x => x ∈ alphabet) l -> l ∈ words alphabet (length l).
Proof.
  induction 1 as [|x l Hx _ IH]; [by apply list_elem_of_singleton|].
  cbn [length words]. apply list_elem_of_bind. exists l. split; [|done].
  apply list_elem_of_fmap. by exists x.
Qed.

(** The decoder's view of a vector chunk for [v]. *)
Definition vector_ok (two_bit : bool) (chunk : Z) (v : list Z) : bool :=
  bool_decide (is_u16 chunk) && negb (Z.land chunk 0x8000 =? 0) &&
  Bool.eqb (negb (Z.land chunk 0x4000 =? 0)) two_bit &&
  bool_decide (twcc_vector_symbols chunk two_bit 0 (length v) = Ok v).

Lemma lor_u16 a b : is_u16 a -> is_u16 b -> is_u16 (Z.lor a b).
Proof.
  unfold is_u16. intros Ha Hb. assert (0 <= Z.lor a b) by (apply Z.lor_nonneg; lia).
  split; [done|]. destruct (Z.eq_dec (Z.lor a b) 0); [lia|].
  change 65536 with (2 ^ 16). apply Z.log2_lt_pow2; [lia|].
  assert (Hlog : forall x, 0 <= x < 65536 -> Z.log2 x < 16).
  { intros x Hx. destruct (Z.eq_dec x 0) as [->|]; [done|].
    apply Z.log2_lt_pow2; lia. }
  rewrite Z.log2_lor by lia. apply Z.max_lub_lt; by apply Hlog.
Qed.

Lemma one_bit_u16 v c j : is_u16 c -> is_u16 (twcc_one_bit_chunk v c j).
Proof.
  revert c j. induction v as [|s v IH]; intros c j Hc; [done|].
  cbn. apply IH. case_match; [|done]. apply lor_u16; [done|apply u16_range].
Qed.

(** Bit [13 - j - k] is symbol [k]; the other bits are untouched. *)
Lemma one_bit_testbit v c j i :
  0 <= j -> j + len v <= 14 -> 0 <= i < 16 ->
  Z.testbit (twcc_one_bit_chunk v c j) i =
  Z.testbit c i || bool_decide (i <= 13 - j /\ v !! Z.to_nat (13 - j - i) = Some 1).
Proof.
  revert c j. induction v as [|s v IH]; intros c j Hj Hl Hi; cbn [twcc_one_bit_chunk].
  { rewrite bool_decide_false by (intros [_ ?]; done). by rewrite orb_false_r. }
  rewrite len_cons in Hl. pose proof (len_nonneg v). rewrite IH by lia.
  assert (Hc : Z.testbit (if s =? TWCC_SYMBOL_SMALL_DELTA
      then Z.lor c (u16 (Z.shiftl 1 (13 - j))) else c) i =
    Z.testbit c i || ((s =? 1) && (i =? 13 - j))).
  { unfold TWCC_SYMBOL_SMALL_DELTA. destruct (s =? 1); [|by rewrite orb_false_r].
    rewrite Z.lor_spec. unfold u16. rewrite (Z.mod_pow2_bits_low _ 16) by lia.
    rewrite Z.shiftl_1_l, Z.pow2_bits_eqb by lia. f_equal. cbn. lia. }
  rewrite Hc, <- orb_assoc. f_equal.
  destruct (Z.eqb_spec i (13 - j)) as [->|Hne].
  - rewrite andb_true_r. rewrite (bool_decide_false (13 - j <= 13 - (j + 1) /\ _)) by lia.
    rewrite orb_false_r, Z.sub_diag. cbn [lookup list_lookup].
    destruct (Z.eqb_spec s 1) as [->|]; [by rewrite bool_decide_true|].
    rewrite bool_decide_false; [done|]. intros [_ [= ?]]. done.
  - rewrite andb_false_r, orb_false_l. apply bool_decide_ext.
    split; intros [Hle Hk]; (split; [lia|]); revert Hk.
    + by replace (Z.to_nat (13 - j - i)) with (S (Z.to_nat (13 - (j + 1) - i))) by lia.
    + by replace (Z.to_nat (13 - j - i)) with (S (Z.to_nat (13 - (j + 1) - i))) by lia.
Qed.

Lemma one_bit_decode v chunk i :
  0 <= i -> i + len v <= 14 -> Forall (fun x => x ∈ [0; 1]) v ->
  (forall k : nat, (k < length v)%nat ->
     Z.testbit chunk (13 - i - Z.of_nat k) = bool_decide (v !! k = Some 1)) ->
  twcc_vector_symbols chunk false i (length v) = Ok v.
Proof.
  revert i. induction v as [|s v IH]; intros i Hi Hl Hv Hb; [done|].
  rewrite len_cons in Hl. pose proof (len_nonneg v).
  apply Forall_cons in Hv as [Hs Hv]. cbn [length twcc_vector_symbols].
  rewrite land1, Z.shiftr_div_pow2, <- Z.testbit_spec' by lia.
  specialize (Hb 0%nat) as Hb0. cbn in Hb0. rewrite Z.sub_0_r in Hb0.
  rewrite Hb0 by lia.
  assert (Hsym : (if truth (Z.b2z (bool_decide (Some s = Some 1)))
    then TWCC_SYMBOL_SMALL_DELTA else TWCC_SYMBOL_NOT_RECEIVED) = s).
  { rewrite !elem_of_cons in Hs. destruct Hs as [->|[->|[]%not_elem_of_nil]]; done. }
  rewrite Hsym. replace (s =? TWCC_SYMBOL_RESERVED) with false.
  2: { rewrite !elem_of_cons in Hs. destruct Hs as [->|[->|[]%not_elem_of_nil]]; done. }
  rewrite IH; [done|lia|lia|done|]. intros k Hk. specialize (Hb (S k) ltac:(cbn; lia)).
  change ((s :: v) !! S k) with (v !! k) in Hb. rewrite <- Hb. f_equal. lia.
Qed.

Lemma one_bit_vector v :
  (length v <= 14)%nat -> Forall (fun x => x ∈ [0; 1]) v ->
  vector_ok false (twcc_one_bit_chunk v 0x8000 0) v = true.
Proof.
  intros Hl Hv. assert (Hlen : 0 + len v <= 14) by len_lia.
  pose proof (fun i => one_bit_testbit v 0x8000 0 i ltac:(done) Hlen) as Hb.
  unfold vector_ok. rewrite !andb_true_iff, bool_decide_eq_true, eqb_true_iff,
    bool_decide_eq_true.
  assert (H15 : truth (Z.land (twcc_one_bit_chunk v 0x8000 0) (Z.shiftl 1 15)) = true)
    by (rewrite land_bit_truth, Hb by done; done).
  assert (H14 : truth (Z.land (twcc_one_bit_chunk v 0x8000 0) (Z.shiftl 1 14)) = false).
  { rewrite land_bit_truth, Hb by done. rewrite bool_decide_false by lia. done. }
  split_and!.
  - by apply one_bit_u16.
  - exact H15.
  - exact H14.
  - apply one_bit_decode; [done|done|done|]. intros k Hk. rewrite Hb by lia.
    replace (Z.testbit 0x8000 (13 - 0 - Z.of_nat k)) with false.
    2: { symmetry. change 0x8000 with (2 ^ 15). apply Z.pow2_bits_false. lia. }
    cbn [orb]. apply bool_decide_ext.
    replace (Z.to_nat (13 - 0 - (13 - 0 - Z.of_nat k))) with k by lia. naive_solver lia.
Qed.

Lemma two_bit_vectors :
  forallb (fun n => forallb (fun v => vector_ok true (twcc_two_bit_chunk v 0xC000 0) v)
                      (words [0; 1; 2] n)) (seq 0 8) = true.
Proof. vm_compute. reflexivity. Qed.

Lemma vectors_ok (f : list Z -> Z) two_bit alphabet cap v :
  forallb (fun n => forallb (fun v => vector_ok two_bit (f v) v)
                      (words alphabet n)) (seq 0 (S cap)) = true ->
  (length v <= cap)%nat -> Forall (fun x => x ∈ alphabet) v ->
  vector_ok two_bit (f v) v = true.
Proof.
  intros H Hl Hv. rewrite forallb_forall in H.
  specialize (H (length v) ltac:(apply in_seq; lia)). rewrite forallb_forall in H.
  by apply H, list_elem_of_In, words_complete.
Qed.

Lemma vector_chunk_symbols two_bit chunk v room :
  vector_ok two_bit chunk v = true ->
  len v = Z.min (if two_bit then 7 else 14) room ->
  is_u16 chunk /\ twcc_chunk_symbols chunk room = Ok v.
Proof.
  unfold vector_ok. rewrite !andb_true_iff, !bool_decide_eq_true, eqb_true_iff, negb_true_iff.
  intros (((Hu & H8) & H4) & Hd) Hl. split; [done|]. unfold twcc_chunk_symbols.
  rewrite H8, H4, <- Hl, len_to_nat. done.
Qed.

Lemma run_chunk_symbols s r room :
  symbol_ok s -> 1 <= r <= 8191 -> r <= room ->
  twcc_chunk_symbols (u16 (Z.lor (Z.shiftl s 13) r)) room =
  Ok (replicate (Z.to_nat r) s).
Proof.
  unfold symbol_ok. intros Hs Hr Hroom. rewrite lor_shiftl_add by lia.
  change (2 ^ 13) with 8192. rewrite u16_id by (unfold is_u16; lia).
  set (c := s * 8192 + r). assert (Hc : 0 <= c < 32768) by (unfold c; lia).
  unfold twcc_chunk_symbols.
  assert (H15 : truth (Z.land c (Z.shiftl 1 15)) = false).
  { rewrite land_bit_truth by done. apply Z.b2z_inj. rewrite Z.testbit_spec' by done.
    change (2 ^ 15) with 32768. rewrite Z.div_small by lia. done. }
  unfold truth in H15. apply negb_false_iff in H15. change (Z.shiftl 1 15) with 0x8000 in H15.
  rewrite H15. change 0x1FFF with (Z.ones 13). rewrite Z.land_ones, land3 by done.
  rewrite Z.shiftr_div_pow2 by done. change (2 ^ 13) with 8192.
  assert (Hsym : (c / 8192) mod 4 = s) by (unfold c; zmod_lia).
  assert (Hrun : c mod 8192 = r) by (unfold c; zmod_lia).
  rewrite Hsym, Hrun, u8_id, u16_id by (unfold is_u8, is_u16; lia).
  unfold TWCC_SYMBOL_RESERVED. replace ((s =? 3) || (r =? 0)) with false by lia.
  by replace (room <? r) with false by lia.
Qed.

Lemma can_use_one_bit v :
  Forall symbol_ok v -> twcc_can_use_one_bit_vector v = true ->
  Forall (fun x => x ∈ [0; 1]) v.
Proof.
  unfold twcc_can_use_one_bit_vector. intros _ H. rewrite forallb_forall in H.
  apply Forall_forall. intros x Hx. specialize (H x (proj1 (list_elem_of_In _ _) Hx)).
  unfold TWCC_SYMBOL_NOT_RECEIVED, TWCC_SYMBOL_SMALL_DELTA in H.
  rewrite !elem_of_cons. lia.
Qed.

(** The chunk built for the remaining symbols denotes a non-empty prefix of
    them. *)
Lemma next_chunk_spec s rest chunk n :
  Forall symbol_ok (s :: rest) -> twcc_next_chunk s rest = (chunk, n) ->
  1 <= n <= len (s :: rest) /\ is_u16 chunk /\
  twcc_chunk_symbols chunk (len (s :: rest)) = Ok (take (Z.to_nat n) (s :: rest)).
Proof.
  intros Hv. pose proof (len_nonneg rest) as H0. unfold twcc_next_chunk.
  destruct (run_length_spec rest s 1) as (m & Hrun & Hm & Htake & Hmax); [lia|].
  rewrite Hrun. destruct (Z.leb_spec 7 (1 + Z.of_nat m)).
  - intros [= <- <-]. rewrite len_cons. split; [len_lia|]. split; [apply u16_range|].
    apply Forall_cons in Hv as [Hs _]. rewrite run_chunk_symbols by (done || len_lia).
    replace (Z.to_nat (1 + Z.of_nat m)) with (S m) by lia. cbn [take replicate].
    by rewrite Htake.
  - set (l := s :: rest) in *. assert (Hl1 : 1 <= len l) by (unfold l; rewrite len_cons; lia).
    assert (Htk : forall k, (k <= length l)%nat -> length (take k l) = k)
      by (intros; rewrite length_take; lia).
    destruct (twcc_can_use_one_bit_vector _) eqn:E; intros [= <- <-].
    + set (k := if len l <? 14 then len l else 14) in *.
      assert (Hk : k = Z.min 14 (len l)) by (unfold k; destruct (Z.ltb_spec (len l) 14); lia).
      split; [lia|]. apply (vector_chunk_symbols false).
      * apply one_bit_vector; [rewrite length_take; lia|].
        apply can_use_one_bit; [by apply Forall_take|done].
      * unfold len. rewrite Htk by len_lia. unfold len in *. lia.
    + set (k := if len l <? 7 then len l else 7) in *.
      assert (Hk : k = Z.min 7 (len l)) by (unfold k; destruct (Z.ltb_spec (len l) 7); lia).
      split; [lia|]. apply (vector_chunk_symbols true).
      * apply (vectors_ok (fun v => twcc_two_bit_chunk v 0xC000 0) true [0; 1; 2] 7);
          [exact two_bit_vectors|rewrite length_take; lia|].
        apply Forall_take. eapply Forall_impl; [exact Hv|]. intros x Hx. cbn in Hx.
        unfold symbol_ok in Hx. rewrite !elem_of_cons. lia.
      * unfold len. rewrite Htk by len_lia. unfold len in *. lia.
Qed.

Definition chunks_wire (cs : list Z) : list Z := cs ≫= be16.

Lemma chunks_wire_cons c cs : chunks_wire (c :: cs) = be16 c ++ chunks_wire cs.
Proof. apply bind_cons. Qed.

Lemma len_chunks_wire cs : len (chunks_wire cs) = 2 * len cs.
Proof.
  induction cs as [|c cs IH]; [done|]. rewrite chunks_wire_cons, len_app, IH, len_cons.
  len_lia.
Qed.

(** Encoding never overflows the chunk array, and decoding gives the symbols
    back. *)
Lemma chunks_loop_spec fuel symbols k max :
  (length symbols < fuel)%nat -> Forall symbol_ok symbols ->
  k + len symbols <= max ->
  exists cs, twcc_chunks_loop fuel symbols k max = Ok (Some cs) /\
    len cs <= len symbols /\ (symbols <> [] -> cs <> []) /\
    forall fuel' pre post packet_len, (length symbols < fuel')%nat ->
      len pre + 2 * len cs <= packet_len ->
      twcc_parse_chunks fuel' (pre ++ chunks_wire cs ++ post) packet_len (len pre)
        (len symbols) = Ok (symbols, len pre + 2 * len cs).
Proof.
  revert symbols k. induction fuel as [|fuel IH]; intros symbols k Hf Hv Hk; [lia|].
  destruct symbols as [|s rest]; cbn [twcc_chunks_loop].
  { exists []. split; [done|]. split; [done|]. split; [done|].
    intros [|fuel'] pre post packet_len Hf' _; [cbn in Hf'; lia|].
    cbn. by rewrite Z.add_0_r. }
  destruct (twcc_next_chunk s rest) as [chunk n] eqn:E.
  destruct (next_chunk_spec s rest chunk n Hv E) as (Hn & Hu & Hdec).
  set (l := s :: rest) in *. replace (max <=? k) with false by lia.
  assert (Hd : len (drop (Z.to_nat n) l) = len l - n) by (rewrite len_drop; lia).
  destruct (IH (drop (Z.to_nat n) l) (k + 1)) as (cs & -> & Hcs & _ & Hparse);
    [rewrite length_drop; unfold len in *; lia|by apply Forall_drop|lia|].
  cbn [mbind res_bind]. exists (chunk :: cs). rewrite len_cons. split; [done|].
  split; [lia|]. split; [done|]. intros fuel' pre post packet_len Hf' Hp.
  destruct fuel' as [|fuel']; [lia|]. cbn [twcc_parse_chunks].
  replace (0 <? len l) with true by lia. pose proof (len_nonneg cs).
  replace (packet_len <? len pre + 2) with false by lia.
  rewrite chunks_wire_cons, <- app_assoc, read_u16_mid by done. cbn [mbind res_bind].
  rewrite Hdec. cbn [mbind res_bind].
  assert (Ht : len (take (Z.to_nat n) l) = n) by (rewrite len_take; lia).
  rewrite Ht, app_assoc. replace (len pre + 2) with (len (pre ++ be16 chunk)) by len_lia.
  rewrite <- Hd, Hparse; [|rewrite length_drop; unfold len in *; lia|rewrite len_app; len_lia].
  cbn [mbind res_bind]. rewrite take_drop, len_app. f_equal. f_equal. len_lia.
Qed.

(* ------------------------------------------------------------------ *)
(** ** Delta lemmas *)

(** The statuses of consecutive packets from number [base + idx] on: lost, or
    received [250 d] microseconds after the previous arrival. *)
Fixpoint statuses (base idx prev : Z) (ds : list (option Z))
    : list twcc_packet_status_t :=
  match ds with
  | [] => []
  | None :: ds =>
    Build_twcc_packet_status_t (u16 (base + idx)) 0 0 :: statuses base (idx + 1) prev ds
  | Some d :: ds =>
    Build_twcc_packet_status_t (u16 (base + idx)) (prev + d * 250) 1
    :: statuses base (idx + 1) (prev + d * 250) ds
  end.

(** The deltas fit 16 bits and the clock stays a non-negative [int64_t]. *)
Fixpoint deltas_ok (prev : Z) (ds : list (option Z)) : Prop :=
  match ds with
  | [] => True
  | None :: ds => deltas_ok prev ds
  | Some d :: ds =>
    -32768 <= d <= 32767 /\ 0 <= prev + d * 250 < 9223372036854775808 /\
    deltas_ok (prev + d * 250) ds
  end.

Definition small_delta (d : Z) : bool := (0 <=? d) && (d <=? 255).

Definition delta_symbol (d : option Z) : Z :=
  match d with None => 0 | Some d => if small_delta d then 1 else 2 end.
Definition delta_value (d : option Z) : Z := match d with None => 0 | Some d => d end.
Definition delta_bytes (d : option Z) : list Z :=
  match d with
  | None => []
  | Some d => if small_delta d then [u8 d] else be16 (u16 d)
  end.
Definition deltas_wire (ds : list (option Z)) : list Z := ds ≫= delta_bytes.

Lemma deltas_wire_cons d ds : deltas_wire (d :: ds) = delta_bytes d ++ deltas_wire ds.
Proof. apply bind_cons. Qed.

Lemma div_round_exact d : div_round_nearest_i64 (d * 250) 250 = d.
Proof.
  unfold div_round_nearest_i64. change (Z.quot 250 2) with 125.
  destruct (Z.leb_spec 0 (d * 250)); rewrite Z.quot_div_nonneg by lia; zmod_lia.
Qed.

Lemma encode_deltas_spec ds base idx prev :
  0 <= prev < 9223372036854775808 -> deltas_ok prev ds ->
  twcc_encode_deltas (statuses base idx prev ds) prev =
  Ok (delta_symbol <$> ds, delta_value <$> ds, len (deltas_wire ds)).
Proof.
  revert idx prev. induction ds as [|[d|] ds IH]; intros idx prev Hp Hok; [done|..];
    cbn [statuses twcc_encode_deltas tp_received tp_arrival_time_us deltas_ok] in *.
  - destruct Hok as (Hd & Ha & Hok). cbn [truth Z.eqb negb].
    rewrite !s64_id by lia. replace (prev + d * 250 - prev) with (d * 250) by lia.
    unfold int64_of. rewrite decide_True by lia. cbn [mbind res_bind].
    unfold TWCC_DELTA_SCALE_US. rewrite div_round_exact, IH by done. cbn [mbind res_bind].
    rewrite s16_id by lia. rewrite deltas_wire_cons, len_app. fold (small_delta d).
    cbn [fmap list_fmap delta_symbol delta_value delta_bytes].
    destruct (small_delta d); [done|].
    replace ((-32768 <=? d) && (d <=? 32767)) with true by lia. done.
  - cbn [truth Z.eqb negb]. by rewrite IH.
Qed.

Lemma emit_deltas_emits ds prev :
  deltas_ok prev ds ->
  emits (twcc_emit_deltas (delta_symbol <$> ds) (delta_value <$> ds)) (deltas_wire ds).
Proof.
  revert prev. induction ds as [|d ds IH]; intros prev Hok; [apply emits_ret|].
  rewrite deltas_wire_cons. cbn [fmap list_fmap twcc_emit_deltas].
  apply emits_bind.
  - destruct d as [d|]; cbn [delta_symbol delta_value delta_bytes]; [|apply emits_ret].
    destruct (small_delta d); apply emit_emits.
  - destruct d as [d|]; cbn [deltas_ok] in Hok; [|by eapply IH].
    destruct Hok as (_ & _ & ?). by eapply IH.
Qed.

Lemma emit_chunks_emits cs : emits (twcc_emit_chunks cs) (chunks_wire cs).
Proof.
  induction cs as [|c cs IH]; [apply emits_ret|]. rewrite chunks_wire_cons.
  cbn [twcc_emit_chunks]. by apply emits_bind; [apply emit_emits|].
Qed.

Lemma s16_u16 d : -32768 <= d <= 32767 -> s16 (u16 d) = d.
Proof. intros. unfold s16, u16. zmod_lia. Qed.

Lemma parse_deltas_spec ds pre post packet_len base idx prev :
  deltas_ok prev ds -> len pre + len (deltas_wire ds) <= packet_len ->
  twcc_parse_deltas (delta_symbol <$> ds) (pre ++ deltas_wire ds ++ post) packet_len
    (len pre) base idx prev = Ok (statuses base idx prev ds).
Proof.
  revert pre idx prev. induction ds as [|[d|] ds IH]; intros pre idx prev Hok Hl; [done|..];
    cbn [fmap list_fmap twcc_parse_deltas statuses deltas_ok delta_symbol] in *.
  - destruct Hok as (Hd & Ha & Hok). rewrite deltas_wire_cons, len_app in Hl.
    pose proof (len_nonneg (deltas_wire ds)). rewrite deltas_wire_cons.
    cbn [delta_bytes] in *. destruct (small_delta d) eqn:E; unfold small_delta in E;
      cbn [Z.eqb Pos.eqb TWCC_SYMBOL_NOT_RECEIVED TWCC_SYMBOL_SMALL_DELTA].
    + replace (packet_len <? len pre + 1) with false by len_lia.
      cbn [app]. rewrite rd_mid by done. cbn [mbind res_bind].
      rewrite u8_id by (unfold is_u8; lia). unfold TWCC_DELTA_SCALE_US.
      replace (prev + d * 250 <? 0) with false by lia.
      replace (len pre + 1) with (len (pre ++ [d])) by len_lia.
      change (d :: deltas_wire ds ++ post) with ([d] ++ deltas_wire ds ++ post).
      rewrite app_assoc, IH; [done|done|len_lia].
    + replace (packet_len <? len pre + 2) with false by len_lia.
      rewrite <- app_assoc, read_u16_mid by (apply u16_range || done). cbn [mbind res_bind].
      rewrite s16_u16 by done. unfold TWCC_DELTA_SCALE_US.
      replace (prev + d * 250 <? 0) with false by lia.
      replace (len pre + 2) with (len (pre ++ be16 (u16 d))) by len_lia.
      rewrite app_assoc, IH; [done|done|len_lia].
  - cbn [Z.eqb TWCC_SYMBOL_NOT_RECEIVED]. rewrite IH; [done|done|done].
Qed.

Lemma delta_bytes_len d : len (delta_bytes d) <= 2.
Proof. destruct d as [d|]; cbn; [|done]. by destruct (small_delta d). Qed.

Lemma deltas_wire_len ds : len (deltas_wire ds) <= 2 * len ds.
Proof.
  induction ds as [|d ds IH]; [done|]. rewrite deltas_wire_cons, len_app, len_cons.
  pose proof (delta_bytes_len d). lia.
Qed.

Lemma statuses_len base idx prev ds : length (statuses base idx prev ds) = length ds.
Proof.
  revert idx prev. induction ds as [|[d|] ds IH]; intros; [done|..]; cbn; by rewrite IH.
Qed.

Lemma delta_symbols_ok ds : Forall symbol_ok (delta_symbol <$> ds).
Proof.
  apply Forall_fmap, Forall_true. intros [d|]; cbn; unfold symbol_ok; [|lia].
  destruct (small_delta d); lia.
Qed.

(** Rounding up to a multiple of four. *)
Lemma land_lnot3 x : Z.land x (Z.lnot 3) = x - x mod 4.
Proof.
  rewrite <- Z.ldiff_land. change 3 with (Z.ones 2). rewrite Z.ldiff_ones_r by done.
  rewrite Z.shiftr_div_pow2, Z.shiftl_mul_pow2 by done. change (2 ^ 2) with 4. zmod_lia.
Qed.

Definition pad4 (n : Z) : Z := Z.land (n + 3) (Z.lnot 3).

Lemma pad4_spec n : n <= pad4 n < n + 4 /\ pad4 n mod 4 = 0.
Proof. unfold pad4. rewrite land_lnot3. zmod_lia. Qed.

(* ------------------------------------------------------------------ *)
(** ** The packet *)

Definition twcc_header (t : rtcp_twcc_t) (words : Z) : list Z :=
  [0x8F; RTCP_RTPFB] ++ be16 words ++ be32 (tw_sender_ssrc t) ++
  be32 (tw_media_ssrc t) ++ be16 (tw_base_seq t) ++ be16 (u16 (tw_num_packets t)) ++
  [u8 (Z.land (Z.shiftr (tw_reference_time t) 16) 255);
   u8 (Z.land (Z.shiftr (tw_reference_time t) 8) 255);
   u8 (Z.land (tw_reference_time t) 255)] ++ [tw_fb_pkt_count t].

Lemma len_twcc_header t w : len (twcc_header t w) = 20.
Proof. done. Qed.

(** A feedback message about consecutive packets whose arrivals lie on the
    grid of 250 microseconds. *)
Definition feedback (sender media base reference fb : Z) (ds : list (option Z))
    : rtcp_twcc_t :=
  Build_rtcp_twcc_t sender media base (len ds) reference fb
    (statuses base 0 (reference * 64000) ds) (len ds).

Record feedback_ok (sender media base reference fb : Z) (ds : list (option Z)) : Prop := {
  fo_sender : is_u32 sender; fo_media : is_u32 media; fo_base : is_u16 base;
  fo_reference : 0 <= reference < 16777216; fo_fb : is_u8 fb;
  fo_count : 0 < len ds <= 8192; fo_deltas : deltas_ok (reference * 64000) ds }.

Lemma reference_bytes r :
  0 <= r < 16777216 ->
  Z.lor (Z.lor (Z.shiftl (u8 (Z.land (Z.shiftr r 16) 255)) 16)
               (Z.shiftl (u8 (Z.land (Z.shiftr r 8) 255)) 8))
        (u8 (Z.land r 255)) = r.
Proof.
  intros Hr. rewrite !land255, shiftr16, shiftr8.
  rewrite !u8_id by (unfold is_u8; zmod_lia).
  rewrite (lor_shiftl_add _ (Z.shiftl _ 8) 16)
    by (rewrite ?Z.shiftl_mul_pow2 by lia; change (2 ^ 8) with 256;
        change (2 ^ 16) with 65536; zmod_lia).
  replace ((r / 65536) mod 256 * 2 ^ 16 + Z.shiftl ((r / 256) mod 256) 8)
    with (Z.shiftl (r / 256) 8)
    by (rewrite !Z.shiftl_mul_pow2 by lia; change (2 ^ 8) with 256;
        change (2 ^ 16) with 65536; zmod_lia).
  rewrite lor_shiftl_add by zmod_lia. change (2 ^ 8) with 256. zmod_lia.
Qed.

Section roundtrip.
Context (sender media base reference fb : Z) (ds : list (option Z)).
Context (Hok : feedback_ok sender media base reference fb ds).

Lemma feedback_encoded :
  exists cs, twcc_build_status_chunks (delta_symbol <$> ds) (len ds) = Ok cs /\
    0 < len cs <= len ds /\
    forall fuel pre post packet_len, (length ds < fuel)%nat ->
      len pre + 2 * len cs <= packet_len ->
      twcc_parse_chunks fuel (pre ++ chunks_wire cs ++ post) packet_len (len pre) (len ds) =
      Ok (delta_symbol <$> ds, len pre + 2 * len cs).
Proof.
  destruct Hok. assert (Hl : len (delta_symbol <$> ds) = len ds) by apply len_map.
  destruct (chunks_loop_spec (S (length (delta_symbol <$> ds))) (delta_symbol <$> ds) 0 (len ds))
    as (cs & Hcs & Hle & Hne & Hparse); [lia|apply delta_symbols_ok|lia|].
  exists cs. unfold twcc_build_status_chunks. rewrite Hcs. split; [done|].
  rewrite Hl in *. split.
  - split; [|done]. destruct cs; [|rewrite len_cons; pose proof (len_nonneg cs); lia].
    exfalso. apply Hne; [|done]. destruct ds; [cbn in fo_count0; unfold len in fo_count0; cbn in *; lia|done].
  - intros fuel pre post packet_len Hf Hp. apply Hparse; [|done]. by rewrite length_fmap.
Qed.

Lemma feedback_parsed cs k post n :
  (forall fuel pre post packet_len, (length ds < fuel)%nat ->
      len pre + 2 * len cs <= packet_len ->
      twcc_parse_chunks fuel (pre ++ chunks_wire cs ++ post) packet_len (len pre) (len ds) =
      Ok (delta_symbol <$> ds, len pre + 2 * len cs)) ->
  let t := feedback sender media base reference fb ds in
  n = 20 + 2 * len cs + len (deltas_wire ds) + Z.of_nat k -> n mod 4 = 0 -> n < 262144 ->
  let wire := twcc_header t (u16 (n / 4 - 1)) ++ chunks_wire cs ++ deltas_wire ds ++
              replicate k 0 in
  rtcp_parse_twcc (Some (wire ++ post)) (len (wire ++ post)) (Some tt) = Ok t.
Proof.
  intros Hchunks t Hn Hmod Hmax wire. destruct Hok.
  pose proof (len_nonneg cs). pose proof (len_nonneg (deltas_wire ds)).
  assert (Hlw : len wire = n).
  { unfold wire. rewrite !len_app, len_twcc_header, len_chunks_wire, len_replicate. lia. }
  set (b := wire ++ post). assert (Hlb : n <= len b)
    by (unfold b; rewrite len_app, Hlw; pose proof (len_nonneg post); lia).
  set (hd := twcc_header t (u16 (n / 4 - 1))) in *.
  assert (Hb : b = hd ++ chunks_wire cs ++ deltas_wire ds ++ replicate k 0 ++ post)
    by (unfold b, wire; by rewrite <- !app_assoc).
  assert (R2 : read_u16 b 2 = Ok (u16 (n / 4 - 1))).
  { rewrite Hb. unfold hd, twcc_header. rewrite <- !app_assoc.
    apply read_u16_mid; [apply u16_range|done]. }
  assert (R4 : read_u32 b 4 = Ok sender).
  { rewrite Hb. unfold hd, twcc_header. rewrite <- !app_assoc. do 1 rewrite (app_assoc [_; _]).
    by apply read_u32_mid. }
  assert (R8 : read_u32 b 8 = Ok media).
  { rewrite Hb. unfold hd, twcc_header. rewrite <- !app_assoc. rewrite (app_assoc [_; _]).
    rewrite (app_assoc (_ ++ be16 _)). by apply read_u32_mid. }
  assert (R12 : read_u16 b 12 = Ok base).
  { rewrite Hb. unfold hd, twcc_header. rewrite <- !app_assoc. rewrite (app_assoc [_; _]).
    do 2 rewrite (app_assoc (_ ++ _)). by apply read_u16_mid. }
  assert (R14 : read_u16 b 14 = Ok (len ds)).
  { rewrite Hb. unfold hd, twcc_header. rewrite <- !app_assoc. rewrite (app_assoc [_; _]).
    do 3 rewrite (app_assoc (_ ++ _)). cbn [tw_num_packets t feedback].
    rewrite (u16_id (len ds)) by (unfold is_u16; lia).
    apply read_u16_mid; [unfold is_u16; lia|done]. }
  unfold rtcp_parse_twcc. replace (len b <? 20) with false by lia.
  assert (Hbyte : forall i, 0 <= i < 20 -> rd b i = rd hd i).
  { intros i Hi. rewrite Hb. apply rd_app_l. change (len hd) with 20. lia. }
  rewrite !Hbyte by lia. change (rd hd 0) with (Ok 0x8F : res Z).
  change (rd hd 1) with (Ok RTCP_RTPFB : res Z). cbn [mbind res_bind].
  change (negb (Z.land (Z.shiftr 143 6) 3 =? 2) || negb (Z.land 143 31 =? RTCP_RTPFB_TWCC)
    || negb (RTCP_RTPFB =? RTCP_RTPFB)) with false. cbn iota.
  rewrite R2. cbn [mbind res_bind]. rewrite u16_id by (unfold is_u16; zmod_lia).
  replace ((n / 4 - 1 + 1) * 4) with n by zmod_lia.
  replace ((n <? 20) || (len b <? n)) with false by lia.
  rewrite R4, R8, R12, R14. cbn [mbind res_bind]. unfold RTCP_TWCC_MAX_PACKETS.
  replace (8192 <? len ds) with false by lia.
  change (rd hd 16) with (Ok (u8 (Z.land (Z.shiftr reference 16) 255)) : res Z).
  change (rd hd 17) with (Ok (u8 (Z.land (Z.shiftr reference 8) 255)) : res Z).
  change (rd hd 18) with (Ok (u8 (Z.land reference 255)) : res Z).
  change (rd hd 19) with (Ok fb : res Z). cbn [mbind res_bind].
  rewrite reference_bytes by done. rewrite Hb. change 20 with (len hd).
  rewrite Hchunks; [|unfold len; lia|change (len hd) with 20; lia]. cbn [mbind res_bind].
  change 0x00FFFFFF with (Z.ones 24). rewrite Z.land_ones by done.
  rewrite Z.mod_small by (change (2 ^ 24) with 16777216; lia).
  rewrite app_assoc. replace (len hd + 2 * len cs) with (len (hd ++ chunks_wire cs))
    by (rewrite len_app, len_chunks_wire; done).
  unfold TWCC_REF_TIME_SCALE_US. rewrite parse_deltas_spec;
    [done|done|rewrite len_app, len_chunks_wire; change (len hd) with 20; lia].
Qed.
End roundtrip.

(** What the serializer appends, before the padding. *)
Lemma feedback_emits t n cs (ds : list (option Z)) prev :
  deltas_ok prev ds ->
  emits (fun w =>
    w ← emit [u8 (Z.lor 0x80 RTCP_RTPFB_TWCC)] w;
    w ← emit [RTCP_RTPFB] w;
    w ← emit (be16 (u16 (n / 4 - 1))) w;
    w ← emit (be32 (tw_sender_ssrc t)) w;
    w ← emit (be32 (tw_media_ssrc t)) w;
    w ← emit (be16 (tw_base_seq t)) w;
    w ← emit (be16 (u16 (tw_num_packets t))) w;
    w ← emit [u8 (Z.land (Z.shiftr (tw_reference_time t) 16) 255)] w;
    w ← emit [u8 (Z.land (Z.shiftr (tw_reference_time t) 8) 255)] w;
    w ← emit [u8 (Z.land (tw_reference_time t) 255)] w;
    w ← emit [tw_fb_pkt_count t] w;
    w ← twcc_emit_chunks cs w;
    twcc_emit_deltas (delta_symbol <$> ds) (delta_value <$> ds) w)
    (twcc_header t (u16 (n / 4 - 1)) ++ chunks_wire cs ++ deltas_wire ds).
Proof.
  intros Hd. eapply emits_ext.
  - emits_steps. eapply emits_bind; [apply emit_chunks_emits|by eapply emit_deltas_emits].
  - unfold twcc_header. by rewrite <- !app_assoc.
Qed.

(* ------------------------------------------------------------------ *)
(** ** Properties *)


Lemma vector_symbols_safe chunk two_bit i n :
  no_fault (twcc_vector_symbols chunk two_bit i n) /\
  forall ss, twcc_vector_symbols chunk two_bit i n = Ok ss ->
    length ss = n /\ Forall symbol_ok ss.
Proof.
  revert i. induction n as [|n IH]; intros i; cbn [twcc_vector_symbols].
  { split; [done|]. by intros ss [= <-]. }
  destruct (IH (i + 1)) as [IH1 IH2]. set (sym := if two_bit then _ else _).
  assert (Hsym : 0 <= sym <= 3).
  { unfold sym. destruct two_bit; [|by case_match]. rewrite land3. unfold u8. zmod_lia. }
  unfold TWCC_SYMBOL_RESERVED. destruct (Z.eqb_spec sym 3); [done|]. split.
  - safe_step; [done|done].
  - intros ss (ss' & Hs & [= <-])%bind_Ok. destruct (IH2 _ Hs). cbn.
    split; [lia|]. constructor; [unfold symbol_ok; lia|done].
Qed.

Lemma chunk_symbols_safe chunk room :
  0 < room ->
  no_fault (twcc_chunk_symbols chunk room) /\
  forall ss, twcc_chunk_symbols chunk room = Ok ss ->
    1 <= len ss <= room /\ Forall symbol_ok ss.
Proof.
  intros Hr. unfold twcc_chunk_symbols, TWCC_SYMBOL_RESERVED.
  destruct (Z.land chunk 0x8000 =? 0).
  - rewrite land3. assert (Hs : u8 ((Z.shiftr chunk 13) mod 4) = (Z.shiftr chunk 13) mod 4)
      by (apply u8_id; unfold is_u8; zmod_lia).
    rewrite Hs. set (s := (Z.shiftr chunk 13) mod 4).
    assert (Hsr : 0 <= s <= 3) by (unfold s; zmod_lia).
    pose proof (u16_range (Z.land chunk 0x1FFF)) as Hu. unfold is_u16 in Hu.
    set (r := u16 _) in *. destruct ((s =? 3) || (r =? 0)) eqn:E; [done|].
    destruct (Z.ltb_spec room r); [done|]. split; [done|]. intros ss [= <-].
    split; [rewrite len_replicate; lia|]. apply Forall_replicate. unfold symbol_ok. lia.
  - destruct (vector_symbols_safe chunk (negb (Z.land chunk 0x4000 =? 0)) 0
      (Z.to_nat (Z.min (if negb (Z.land chunk 0x4000 =? 0) then 7 else 14) room))) as [H1 H2].
    split; [done|]. intros ss Hs. destruct (H2 ss Hs) as [Hl Hf]. split; [|done].
    unfold len. rewrite Hl. destruct (negb _); lia.
Qed.

Lemma parse_chunks_safe fuel b packet_len off room :
  packet_len <= len b -> 0 <= off -> (0 < fuel)%nat -> 0 <= room < Z.of_nat fuel ->
  no_fault (twcc_parse_chunks fuel b packet_len off room) /\
  forall ss off', twcc_parse_chunks fuel b packet_len off room = Ok (ss, off') ->
    len ss = room /\ off <= off' /\ Forall symbol_ok ss.
Proof.
  revert off room. induction fuel as [|fuel IH]; intros off room Hp Ho Hf Hr; [lia|].
  cbn [twcc_parse_chunks]. destruct (Z.ltb_spec 0 room).
  2: { split; [done|]. intros ss off' [= <- <-]. rewrite len_nil. split; [lia|]. done. }
  destruct (Z.ltb_spec packet_len (off + 2)); [done|].
  destruct (read_u16_in_range b off) as (chunk & -> & _); [lia..|]. cbn [mbind res_bind].
  destruct (chunk_symbols_safe chunk room) as [H1 H2]; [done|].
  destruct (twcc_chunk_symbols chunk room) as [ss| |]; [|done..]. cbn [mbind res_bind].
  destruct (H2 ss eq_refl) as [Hl Hs].
  destruct (IH (off + 2) (room - len ss)) as [IH1 IH2]; [lia..|]. split.
  - safe_step; [done|]. destruct a. done.
  - intros ss' off' ((ss2 & o2) & Hq & [= <- <-])%bind_Ok.
    destruct (IH2 _ _ Hq) as (? & ? & ?). rewrite len_app. split; [lia|]. split; [lia|].
    by apply Forall_app.
Qed.

Lemma parse_deltas_safe ss b packet_len off base idx prev :
  packet_len <= len b -> 0 <= off ->
  no_fault (twcc_parse_deltas ss b packet_len off base idx prev) /\
  forall ps, twcc_parse_deltas ss b packet_len off base idx prev = Ok ps ->
    length ps = length ss /\
    forall i p, ps !! i = Some p -> tp_seq p = u16 (base + idx + Z.of_nat i) /\
      (tp_received p = 0 \/ tp_received p = 1) /\
      (0 <= prev -> 0 <= tp_arrival_time_us p).
Proof.
  intros Hp. revert off idx prev. induction ss as [|s ss IH]; intros off idx prev Ho;
    cbn [twcc_parse_deltas].
  { split; [done|]. intros ps [= <-]. split; [done|]. intros i p Hi. done. }
  assert (Hcons : forall q ps x prev', length ps = length ss ->
    (forall i p, ps !! i = Some p -> tp_seq p = u16 (base + (idx + 1) + Z.of_nat i) /\
      (tp_received p = 0 \/ tp_received p = 1) /\ (0 <= prev' -> 0 <= tp_arrival_time_us p)) ->
    (0 <= prev -> 0 <= prev') -> (0 <= prev -> 0 <= x) -> q = 0 \/ q = 1 ->
    let ps' := Build_twcc_packet_status_t (u16 (base + idx)) x q :: ps in
    length ps' = length (s :: ss) /\
    forall i p, ps' !! i = Some p -> tp_seq p = u16 (base + idx + Z.of_nat i) /\
      (tp_received p = 0 \/ tp_received p = 1) /\ (0 <= prev -> 0 <= tp_arrival_time_us p)).
  { intros q ps x prev' Hl Hps Hpp Hx Hq ps'. split; [cbn; lia|].
    intros [|i] p Hi; cbn in Hi; [injection Hi as <-; cbn; rewrite Z.add_0_r; auto|].
    destruct (Hps i p Hi) as (-> & ? & ?). split; [f_equal; lia|]. auto. }
  destruct (s =? TWCC_SYMBOL_NOT_RECEIVED).
  - destruct (IH off (idx + 1) prev Ho) as [IH1 IH2]. split; [by safe_step|].
    intros ps (ps' & Hq & [= <-])%bind_Ok. destruct (IH2 _ Hq).
    apply (Hcons 0 ps' 0 prev); auto. done.
  - assert (Hd : no_fault (if s =? TWCC_SYMBOL_SMALL_DELTA then
        if packet_len <? off + 1 then Err else d ← rd b off; Ok (d, 1)
      else if packet_len <? off + 2 then Err else d ← read_u16 b off; Ok (s16 d, 2))
      /\ forall d n, (if s =? TWCC_SYMBOL_SMALL_DELTA then
        if packet_len <? off + 1 then Err else d ← rd b off; Ok (d, 1)
      else if packet_len <? off + 2 then Err else d ← read_u16 b off; Ok (s16 d, 2))
      = Ok (d, n) -> 0 <= n).
    { destruct (s =? TWCC_SYMBOL_SMALL_DELTA).
      - destruct (Z.ltb_spec packet_len (off + 1)); [done|].
        destruct (rd_in_range b off) as [x ->]; [lia|]. split; [done|]. by intros ? ? [= _ <-].
      - destruct (Z.ltb_spec packet_len (off + 2)); [done|].
        destruct (read_u16_in_range b off) as (x & -> & _); [lia..|]. split; [done|].
        by intros ? ? [= _ <-]. }
    destruct Hd as [Hd1 Hd2].
    match goal with |- context [mbind _ ?m] => destruct m as [[d n]| |] end; [|done..].
    specialize (Hd2 d n eq_refl). cbn [mbind res_bind].
    destruct (Z.ltb_spec (prev + d * TWCC_DELTA_SCALE_US) 0); [done|].
    destruct (IH (off + n) (idx + 1) (prev + d * TWCC_DELTA_SCALE_US)) as [IH1 IH2]; [lia|].
    split; [by safe_step|]. intros ps (ps' & Hq & [= <-])%bind_Ok. destruct (IH2 _ Hq).
    apply (Hcons 1 ps' (prev + d * TWCC_DELTA_SCALE_US) (prev + d * TWCC_DELTA_SCALE_US)); auto.
Qed.

(** Parsing untrusted feedback is memory safe and terminates; a message
    it accepts reports exactly [packet_count] (at most 8192) statuses with
    consecutive sequence numbers from the base, each lost or received at a
    non-negative time. *)
Theorem twcc_parse_safe b l :
  l <= len b ->
  no_fault (rtcp_parse_twcc (Some b) l (Some tt)) /\
  forall t, rtcp_parse_twcc (Some b) l (Some tt) = Ok t ->
    len (tw_packets t) = tw_packet_count t /\ tw_num_packets t = tw_packet_count t /\
    tw_packet_count t <= 8192 /\
    forall i p, tw_packets t !! i = Some p ->
      tp_seq p = u16 (tw_base_seq t + Z.of_nat i) /\
      (tp_received p = 0 \/ tp_received p = 1) /\ 0 <= tp_arrival_time_us p.
Proof.
  intros Hl. unfold rtcp_parse_twcc. destruct (Z.ltb_spec l 20); [done|].
  destruct (rd_in_range b 0) as [b0 ->]; [lia|]. cbn [mbind res_bind].
  destruct (rd_in_range b 1) as [b1 ->]; [lia|]. cbn [mbind res_bind].
  destruct (negb _ || _ || _); [done|].
  destruct (read_u16_in_range b 2) as (w & -> & Hw); [lia..|]. cbn [mbind res_bind].
  set (n := (w + 1) * 4). destruct ((n <? 20) || (l <? n)) eqn:En; [done|].
  destruct (read_u32 b 4) as [ss| |] eqn:E4; [|done|by apply read_u32_no_fault in E4; lia].
  destruct (read_u32 b 8) as [ms| |] eqn:E8; [|done|by apply read_u32_no_fault in E8; lia].
  cbn [mbind res_bind].
  destruct (read_u16_in_range b 12) as (base & -> & Hbase); [lia..|]. cbn [mbind res_bind].
  destruct (read_u16_in_range b 14) as (count & -> & Hcount); [lia..|]. cbn [mbind res_bind].
  unfold RTCP_TWCC_MAX_PACKETS, is_u16 in *. destruct (Z.ltb_spec 8192 count); [done|].
  destruct (rd_in_range b 16) as [r0 ->]; [lia|]. cbn [mbind res_bind].
  destruct (rd_in_range b 17) as [r1 ->]; [lia|]. cbn [mbind res_bind].
  destruct (rd_in_range b 18) as [r2 ->]; [lia|]. cbn [mbind res_bind].
  destruct (rd_in_range b 19) as [fb ->]; [lia|]. cbn [mbind res_bind].
  destruct (parse_chunks_safe (S (Z.to_nat count)) b n 20 count) as [Hc1 Hc2]; [lia..|].
  destruct (twcc_parse_chunks _ _ _ _ _) as [[symbols off]| |]; [|done..].
  destruct (Hc2 symbols off eq_refl) as (Hlen & Hoff & _). cbn [mbind res_bind].
  set (reference := Z.lor _ r2).
  destruct (parse_deltas_safe symbols b n off base 0
    (Z.land reference 0x00FFFFFF * TWCC_REF_TIME_SCALE_US)) as [Hd1 Hd2]; [lia..|].
  destruct (twcc_parse_deltas _ _ _ _ _ _ _) as [ps| |]; [|done..].
  destruct (Hd2 ps eq_refl) as [Hps Hp]. split; [done|]. cbn [mbind res_bind].
  intros t <-%Ok_inj. cbn [tw_packets tw_packet_count tw_num_packets tw_base_seq].
  split; [unfold len in *; lia|]. split; [done|]. split; [done|].
  intros i p Hi. destruct (Hp i p Hi) as (Hs & Hr & Ha). rewrite Z.add_0_r in Hs.
  split; [done|]. split; [done|]. apply Ha. change 0x00FFFFFF with (Z.ones 24).
  rewrite Z.land_ones by done. unfold TWCC_REF_TIME_SCALE_US.
  pose proof (Z.mod_pos_bound reference (2 ^ 24) ltac:(done)). lia.
Qed.

(** Off the grid each decoded delta is within 125 microseconds of the
    true one. *)
Theorem twcc_delta_error delta_us :
  let d := div_round_nearest_i64 delta_us TWCC_DELTA_SCALE_US in
  -125 <= d * TWCC_DELTA_SCALE_US - delta_us <= 125.
Proof.
  unfold div_round_nearest_i64, TWCC_DELTA_SCALE_US. change (Z.quot 250 2) with 125.
  destruct (Z.leb_spec 0 delta_us); rewrite Z.quot_div_nonneg by lia; zmod_lia.
Qed.

(** Each delta is rounded against the exact previous arrival and not against
    the time that the receiver of the feedback reconstructs, so the errors
    add up: packets 125 microseconds apart are reported 250 apart. *)
Theorem twcc_delta_drift :
  let arrivals := fun t => tp_arrival_time_us <$> tw_packets t in
  let status i a := Build_twcc_packet_status_t i a 1 in
  let t := Build_rtcp_twcc_t 1 2 0 4 0 0 [status 0 0; status 1 125; status 2 250; status 3 375] 4 in
  exists c' t',
    rtcp_compound_add_twcc (Some (Build_rtcp_compound_t (replicate 40 0) 40 0)) (Some t) = Ok c' /\
    rtcp_parse_twcc (Some (cp_buffer c')) (cp_offset c') (Some tt) = Ok t' /\
    arrivals t = [0; 125; 250; 375] /\ arrivals t' = [0; 250; 500; 750].
Proof. do 2 eexists. split; [vm_compute; reflexivity|]. split; [vm_compute; reflexivity|]. done. Qed.

(* ------------------------------------------------------------------ *)
(** ** Witnesses *)

Definition example_deltas : list (option Z) :=
  [Some 3; None; Some 300; Some (-20)] ++ replicate 8 None ++ [Some 0].

Lemma example_feedback_ok : feedback_ok 1 2 65530 7 9 example_deltas.
Proof. constructor; try done; cbn; lia. Defined.


Lemma twcc_parse_safe_witness :
  no_fault (rtcp_parse_twcc (Some (replicate 24 143)) 24 (Some tt)) /\
  forall t, rtcp_parse_twcc (Some (replicate 24 143)) 24 (Some tt) = Ok t ->
    len (tw_packets t) = tw_packet_count t /\ tw_num_packets t = tw_packet_count t /\
    tw_packet_count t <= 8192 /\
    forall i p, tw_packets t !! i = Some p ->
      tp_seq p = u16 (tw_base_seq t + Z.of_nat i) /\
      (tp_received p = 0 \/ tp_received p = 1) /\ 0 <= tp_arrival_time_us p.
Proof. apply (twcc_parse_safe (replicate 24 143) 24). done. Defined.
