(* ===== verification/Twcc.v ===== *)
(** * Transport-wide congestion control (src/webrtc/src/rtc/rtp/twcc.c)

    The sender's tracker, with its history ring and the loss-based bandwidth
    estimate in floating point, and the receiver's arrival log, from which the
    feedback of [TwccWire] is made.  Clock readings are arguments. *)

From Stdlib Require Import Sorted.
From S2P Require Import Prelude Float RtpPacket RtpHistory Nack Rtcp TwccWire.

(* ------------------------------------------------------------------ *)
(** ** Data *)

Definition TWCC_FEEDBACK_INTERVAL_MS : Z := 100.
Definition TWCC_MAX_HISTORY : Z := 1000.
Definition BWE_INITIAL_BITRATE : Z := 300000.
Definition BWE_MIN_BITRATE : Z := 30000.
Definition BWE_MAX_BITRATE : Z := 10000000.
(** The doubles 1.08 and 0.85 and the floats 0.95f, 0.1f and 0.02f. *)
Definition BWE_INCREASE_FACTOR : float := S754_finite false 4863887597560136 (-52).
Definition BWE_DECREASE_FACTOR : float := S754_finite false 7656119366529843 (-53).
Definition f0_95 : float := S754_finite false 15938355 (-24).
Definition f0_1 : float := S754_finite false 13421773 (-27).
Definition f0_02 : float := S754_finite false 10737418 (-29).

Record twcc_send_record_t := {
  sd_twcc_seq : Z; sd_send_time_us : Z; sd_size : Z; sd_acked : Z }.

Record twcc_tracker_t := {
  tk_next_seq : Z;
  tk_history : list twcc_send_record_t;
  tk_history_count : Z;
  tk_current_bitrate_bps : Z;
  tk_last_feedback_time_us : Z;
  tk_last_increase_time_us : Z;
  tk_consecutive_stable_rounds : Z }.

Record twcc_bwe_result_t := {
  bw_target_bitrate_bps : Z; bw_estimated_bw_bps : Z;
  bw_packet_loss_ratio : float; bw_rtt_ms : Z; bw_congestion_detected : Z }.

Record twcc_recv_record_t := { rv_twcc_seq : Z; rv_arrival_time_us : Z }.

(** The first [packet_count] elements of [packets]. *)
Record twcc_receiver_t := {
  tr_ssrc : Z; tr_expected_seq : Z; tr_packets : list twcc_recv_record_t;
  tr_last_feedback_time_us : Z; tr_fb_pkt_count : Z }.

(* ------------------------------------------------------------------ *)
(** ** Tracker *)

Definition twcc_tracker_create (mem : bool) (now_us : Z) : option twcc_tracker_t :=
  if mem then
    Some (Build_twcc_tracker_t 0
            (replicate (Z.to_nat TWCC_MAX_HISTORY) (Build_twcc_send_record_t 0 0 0 0))
            0 BWE_INITIAL_BITRATE now_us now_us 0)
  else None.

Definition set_bitrate (t : twcc_tracker_t) (b : Z) : twcc_tracker_t :=
  Build_twcc_tracker_t (tk_next_seq t) (tk_history t) (tk_history_count t) b
    (tk_last_feedback_time_us t) (tk_last_increase_time_us t)
    (tk_consecutive_stable_rounds t).

Definition twcc_tracker_set_bitrate (tracker : option twcc_tracker_t)
    (bitrate_bps : Z) : option twcc_tracker_t :=
  let? t := tracker else None in
  if bitrate_bps =? 0 then Some t else
  let b := if bitrate_bps <? BWE_MIN_BITRATE then BWE_MIN_BITRATE else bitrate_bps in
  let b := if BWE_MAX_BITRATE <? b then BWE_MAX_BITRATE else b in
  Some (set_bitrate t b).

Definition twcc_tracker_register_packet (tracker : option twcc_tracker_t)
    (size send_time_us : Z) : res (option twcc_tracker_t * Z) :=
  let? t := tracker else Ok (None, 0) in
  let seq := tk_next_seq t in
  h ← upd (tk_history t) (seq mod TWCC_MAX_HISTORY)
        (Build_twcc_send_record_t seq send_time_us size 0);
  let count := if tk_history_count t <? TWCC_MAX_HISTORY
               then tk_history_count t + 1 else tk_history_count t in
  Ok (Some (Build_twcc_tracker_t (u16 (seq + 1)) h count
        (tk_current_bitrate_bps t) (tk_last_feedback_time_us t)
        (tk_last_increase_time_us t) (tk_consecutive_stable_rounds t)), seq).

(** The counters of the loop over the statuses. *)
Record fb_counts := {
  fc_received : Z; fc_lost : Z; fc_total_rtt_us : Z; fc_rtt_samples : Z }.

Fixpoint feedback_loop (ps : list twcc_packet_status_t)
    (h : list twcc_send_record_t) (c : fb_counts)
    : res (list twcc_send_record_t * fb_counts) :=
  match ps with
  | [] => Ok (h, c)
  | p :: ps =>
    let idx := tp_seq p mod TWCC_MAX_HISTORY in
    r ← rd h idx;
    if sd_twcc_seq r =? tp_seq p then
      if truth (tp_received p) then
        h ← upd h idx (Build_twcc_send_record_t (sd_twcc_seq r)
                         (sd_send_time_us r) (sd_size r) 1);
        let rtt_us := u64 (tp_arrival_time_us p - sd_send_time_us r) in
        let sample := (0 <? rtt_us) && (rtt_us <? 10000000) in
        feedback_loop ps h
          (Build_fb_counts (fc_received c + 1) (fc_lost c)
             (if sample then u64 (fc_total_rtt_us c + rtt_us) else fc_total_rtt_us c)
             (if sample then fc_rtt_samples c + 1 else fc_rtt_samples c))
      else
        feedback_loop ps h
          (Build_fb_counts (fc_received c) (fc_lost c + 1) (fc_total_rtt_us c)
             (fc_rtt_samples c))
    else feedback_loop ps h c
  end.

Definition twcc_loss_ratio (lost total : Z) : float :=
  if 0 <? total then f32_div (f32_of_Z lost) (f32_of_Z total) else S754_zero false.

(** The three-way estimate before the clamp: the bitrate, the time of the
    last increase, the stable rounds and [congestion_detected]. *)
Definition twcc_estimate (t : twcc_tracker_t) (loss_ratio : float) (now_us : Z)
    : res (Z * Z * Z * Z) :=
  let b := tk_current_bitrate_bps t in
  if SFltb f0_1 loss_ratio then
    b' ← f_to_u32 (f64_mul (f64_of_Z b) BWE_DECREASE_FACTOR);
    Ok (b', tk_last_increase_time_us t, 0, 1)
  else if SFltb f0_02 loss_ratio then
    b' ← f_to_u32 (f32_mul (f32_of_Z b) f0_95);
    Ok (b', tk_last_increase_time_us t, 0, 1)
  else
    let rounds := tk_consecutive_stable_rounds t + 1 in
    if 1000000 <? u64 (now_us - tk_last_increase_time_us t) then
      b' ← f_to_u32 (f64_mul (f64_of_Z b) BWE_INCREASE_FACTOR);
      Ok (b', now_us, rounds, 0)
    else Ok (b, tk_last_increase_time_us t, rounds, 0).

Definition twcc_tracker_process_feedback (tracker : option twcc_tracker_t)
    (twcc : option rtcp_twcc_t) (result : option unit) (now_us : Z)
    : res (twcc_tracker_t * twcc_bwe_result_t) :=
  let? t := tracker else Err in
  let? w := twcc else Err in
  let? _ := result else Err in
  ps ← rd_slice (tw_packets w) 0 (Z.max 0 (tw_num_packets w));
  hc ← feedback_loop ps (tk_history t) (Build_fb_counts 0 0 0 0);
  let '(h, c) := hc : list twcc_send_record_t * fb_counts in
  let total_packets := fc_received c + fc_lost c in
  let loss_ratio := twcc_loss_ratio (fc_lost c) total_packets in
  let rtt_ms := if 0 <? fc_rtt_samples c
                then u32 (fc_total_rtt_us c / fc_rtt_samples c / 1000) else 0 in
  e ← twcc_estimate t loss_ratio now_us;
  let '(b, inc, rounds, congestion) := e : Z * Z * Z * Z in
  let b := if b <? BWE_MIN_BITRATE then BWE_MIN_BITRATE else b in
  let b := if BWE_MAX_BITRATE <? b then BWE_MAX_BITRATE else b in
  Ok (Build_twcc_tracker_t (tk_next_seq t) h (tk_history_count t) b now_us inc rounds,
      Build_twcc_bwe_result_t b b loss_ratio rtt_ms congestion).

(* ------------------------------------------------------------------ *)
(** ** Receiver *)

Definition twcc_receiver_create (ssrc0 : Z) (mem : bool) (now_us : Z)
    : option twcc_receiver_t :=
  if mem then Some (Build_twcc_receiver_t ssrc0 0 [] now_us 0) else None.

Definition twcc_seq_newer (s1 s2 : Z) : bool := 0 <? s16 (s1 - s2).

(** The loop [for (i = packet_count - 1; i >= 0; i--)] that looks for the
    insertion position, [n] elements being left to compare. *)
Fixpoint twcc_insert_pos (ps : list twcc_recv_record_t) (seq : Z) (n : nat)
    : res nat :=
  match n with
  | O => Ok O
  | S n =>
    match ps !! n with
    | Some p => if twcc_seq_newer seq (rv_twcc_seq p) then Ok (S n)
                else twcc_insert_pos ps seq n
    | None => Fault
    end
  end.

Definition set_packets (r : twcc_receiver_t) (ps : list twcc_recv_record_t)
    : twcc_receiver_t :=
  Build_twcc_receiver_t (tr_ssrc r) (tr_expected_seq r) ps
    (tr_last_feedback_time_us r) (tr_fb_pkt_count r).

Definition twcc_receiver_register_packet (receiver : option twcc_receiver_t)
    (seq arrival : Z) : res (option twcc_receiver_t * Z) :=
  let? r := receiver else Ok (None, -1) in
  let ps := tr_packets r in
  let x := Build_twcc_recv_record_t seq arrival in
  let append :=
    if len ps <? RTCP_TWCC_MAX_PACKETS
    then Ok (Some (set_packets r (ps ++ [x])), 0) else Ok (Some r, 0) in
  if 0 <? len ps then
    last ← rd ps (len ps - 1);
    if negb (twcc_seq_newer seq (rv_twcc_seq last)) then
      pos ← twcc_insert_pos ps seq (length ps);
      if len ps <? RTCP_TWCC_MAX_PACKETS
      then Ok (Some (set_packets r (take pos ps ++ x :: drop pos ps)), 0)
      else Ok (Some r, 0)
    else append
  else append.

(** The gap-filling [while] loop: the lost statuses, [expected_seq] and
    [out_idx] afterwards.  [out_idx] grows to 8192 at most. *)
Fixpoint twcc_fill_gap (fuel : nat) (expected seq out_idx : Z)
    : res (list twcc_packet_status_t * Z * Z) :=
  match fuel with
  | O => Fault
  | S fuel =>
    if negb (expected =? seq) && (out_idx <? RTCP_TWCC_MAX_PACKETS) then
      r ← twcc_fill_gap fuel (u16 (expected + 1)) seq (out_idx + 1);
      let '(ss, e, o) := r : list twcc_packet_status_t * Z * Z in
      Ok (Build_twcc_packet_status_t expected 0 0 :: ss, e, o)
    else Ok ([], expected, out_idx)
  end.

Fixpoint twcc_copy_loop (ps : list twcc_recv_record_t) (expected out_idx : Z)
    : res (list twcc_packet_status_t * Z) :=
  match ps with
  | [] => Ok ([], out_idx)
  | p :: ps =>
    if out_idx <? RTCP_TWCC_MAX_PACKETS then
      g ← twcc_fill_gap (S (Z.to_nat RTCP_TWCC_MAX_PACKETS)) expected
            (rv_twcc_seq p) out_idx;
      let '(gap, expected, out_idx) := g : list twcc_packet_status_t * Z * Z in
      if out_idx <? RTCP_TWCC_MAX_PACKETS then
        r ← twcc_copy_loop ps (u16 (expected + 1)) (out_idx + 1);
        let '(ss, o) := r : list twcc_packet_status_t * Z in
        Ok (gap ++ Build_twcc_packet_status_t (rv_twcc_seq p)
                     (rv_arrival_time_us p) 1 :: ss, o)
      else
        r ← twcc_copy_loop ps expected out_idx;
        let '(ss, o) := r : list twcc_packet_status_t * Z in
        Ok (gap ++ ss, o)
    else Ok ([], out_idx)
  end.

(** The receiver, the return value and, when it is 1, [*twcc]. *)
Definition twcc_receiver_generate_feedback (receiver : option twcc_receiver_t)
    (twcc : option unit) (now_us : Z)
    : res (option twcc_receiver_t * Z * option rtcp_twcc_t) :=
  let? r := receiver else Ok (None, -1, None) in
  let? _ := twcc else Ok (Some r, -1, None) in
  if (len (tr_packets r) <? 10) &&
     (u64 (now_us - tr_last_feedback_time_us r) <? TWCC_FEEDBACK_INTERVAL_MS * 1000)
  then Ok (Some r, 0, None) else
  if len (tr_packets r) =? 0 then Ok (Some r, 0, None) else
  first ← rd (tr_packets r) 0;
  let base := rv_twcc_seq first in
  let reference := u32 (rv_arrival_time_us first / TWCC_REF_TIME_SCALE_US) in
  c ← twcc_copy_loop (tr_packets r) base 0;
  let '(ss, out_idx) := c : list twcc_packet_status_t * Z in
  Ok (Some (Build_twcc_receiver_t (tr_ssrc r) (tr_expected_seq r) [] now_us
              (u8 (tr_fb_pkt_count r + 1))),
      1,
      Some (Build_rtcp_twcc_t (tr_ssrc r) 0 base (u16 out_idx) reference
              (tr_fb_pkt_count r) ss out_idx)).

(* ------------------------------------------------------------------ *)
(** ** Reference behaviour *)

(** A packet seen by the receiver: its unwrapped transport-wide sequence number
    and its arrival time. *)
Abbreviation arrival_t := (prod Z Z).

Definition record_of (x : arrival_t) : twcc_recv_record_t :=
  Build_twcc_recv_record_t (u16 x.1) x.2.

Definition before (x y : arrival_t) : Prop := x.1 < y.1.

Definition lost_status (n : Z) : twcc_packet_status_t :=
  Build_twcc_packet_status_t (u16 n) 0 0.
Definition received_status (x : arrival_t) : twcc_packet_status_t :=
  Build_twcc_packet_status_t (u16 x.1) x.2 1.

(** [ss] reports the numbers from [lo] to [hi], one status each and in order:
    the packets of [l] received at their time, the others lost. *)
Definition reports (l : list arrival_t) (lo hi : Z) (ss : list twcc_packet_status_t)
    : Prop :=
  len ss = hi + 1 - lo /\
  (forall x, x ∈ l -> ss !! Z.to_nat (x.1 - lo) = Some (received_status x)) /\
  (forall n, lo <= n <= hi -> n ∉ l.*1 ->
     ss !! Z.to_nat (n - lo) = Some (lost_status n)).

Definition register_all (r : option twcc_receiver_t) (l : list arrival_t)
    : res (option twcc_receiver_t) :=
  foldl (fun m x => r ← m;
    o ← twcc_receiver_register_packet r (u16 x.1) x.2; Ok o.1) (Ok r) l.

(** The enclosing application's calls on a tracker. *)
Inductive tracker_op :=
  | SetBitrate (bps : Z)
  | Register (size time : Z)
  | Feedback (w : rtcp_twcc_t) (now : Z).

Definition tracker_step (t : twcc_tracker_t) (o : tracker_op) : res twcc_tracker_t :=
  match o with
  | SetBitrate b =>
      match twcc_tracker_set_bitrate (Some t) b with Some t => Ok t | None => Err end
  | Register size time =>
      o ← twcc_tracker_register_packet (Some t) size time;
      match o.1 with Some t => Ok t | None => Err end
  | Feedback w now =>
      o ← twcc_tracker_process_feedback (Some t) (Some w) (Some tt) now; Ok o.1
  end.

Definition tracker_run (t : twcc_tracker_t) (l : list tracker_op) : res twcc_tracker_t :=
  foldl (fun m o => t ← m; tracker_step t o) (Ok t) l.

(** What a caller passes: a bitrate of its type, a feedback whose array holds
    the statuses it announces. *)
Definition op_ok (o : tracker_op) : Prop :=
  match o with
  | SetBitrate b => is_u32 b
  | Register _ _ => True
  | Feedback w _ =>
      tw_num_packets w <= len (tw_packets w) <= RTCP_TWCC_MAX_PACKETS /\
      Forall (fun p => is_u16 (tp_seq p)) (tw_packets w)
  end.

Record tracker_wf (t : twcc_tracker_t) : Prop := {
  twf_seq : is_u16 (tk_next_seq t);
  twf_history : len (tk_history t) = TWCC_MAX_HISTORY;
  twf_count : 0 <= tk_history_count t <= TWCC_MAX_HISTORY;
  twf_rounds : 0 <= tk_consecutive_stable_rounds t;
  twf_bitrate : BWE_MIN_BITRATE <= tk_current_bitrate_bps t <= BWE_MAX_BITRATE }.

(* ------------------------------------------------------------------ *)
(** ** The receiver's log stays sorted *)

Lemma twcc_seq_newer_compare n m :
  -32768 <= n - m < 32768 -> twcc_seq_newer (u16 n) (u16 m) = bool_decide (m < n).
Proof. apply rtp_seq_compare. Qed.

(** Every element left of the insertion position is older than the packet and
    every other one newer. *)
Lemma twcc_insert_pos_spec n l1 l2 :
  (forall y, y ∈ l1 ++ l2 -> y.1 <> n /\ -32768 <= n - y.1 < 32768) ->
  StronglySorted before (l1 ++ l2) -> (forall y, y ∈ l2 -> n < y.1) ->
  exists k1 k2, l1 ++ l2 = k1 ++ k2 /\
    twcc_insert_pos (record_of <$> (l1 ++ l2)) (u16 n) (length l1) = Ok (length k1) /\
    (forall y, y ∈ k1 -> y.1 < n) /\ (forall y, y ∈ k2 -> n < y.1).
Proof.
  revert l2. induction l1 as [|y l1 IH] using rev_ind; intros l2 Hw Hs H2.
  - exists [], l2. split_and!; try done. intros y []%not_elem_of_nil.
  - rewrite <- (assoc_L (++)) in Hw, Hs |- *. cbn [app] in *.
    replace (length (l1 ++ [y])) with (S (length l1)) by (rewrite length_app; cbn; lia).
    cbn [twcc_insert_pos].
    rewrite list_lookup_fmap, list_lookup_middle by done. cbn [fmap option_fmap option_map].
    cbn [record_of rv_twcc_seq].
    destruct (Hw y) as [Hy Hr]; [set_solver|].
    rewrite twcc_seq_newer_compare by done. case_bool_decide as Hc.
    + exists (l1 ++ [y]), l2. rewrite <- (assoc_L (++)). split; [done|]. split; [|split; [|done]].
      { f_equal. rewrite length_app. cbn. lia. }
      intros z [Hz| ->%list_elem_of_singleton]%elem_of_app; [|done].
      enough (Hzy : before z y) by (unfold before in Hzy; lia).
      clear -Hs Hz. induction l1 as [|a l1 IH]; [set_solver|].
      apply StronglySorted_inv in Hs as [Hs Ha]. apply elem_of_cons in Hz as [->|Hz].
      * apply (proj1 (Forall_forall _ _) Ha). set_solver.
      * by apply IH.
    + apply IH; try done. intros z [->|Hz]%elem_of_cons; [lia|by apply H2].
Qed.

Lemma sorted_insert l1 l2 x :
  StronglySorted before (l1 ++ l2) ->
  (forall y, y ∈ l1 -> y.1 < x.1) -> (forall y, y ∈ l2 -> x.1 < y.1) ->
  StronglySorted before (l1 ++ x :: l2).
Proof.
  induction l1 as [|a l1 IH]; cbn [app]; intros Hs H1 H2.
  - constructor; [done|]. by apply Forall_forall.
  - apply StronglySorted_inv in Hs as [Hs Ha]. constructor.
    + apply IH; [done|set_solver|done].
    + rewrite Forall_app, Forall_cons in *. destruct Ha as [Ha1 Ha2]. split_and!; try done.
      apply H1. set_solver.
Qed.

(** One registration inserts the packet in order. *)
Lemma twcc_register_sorted r sl x :
  tr_packets r = record_of <$> sl -> StronglySorted before sl ->
  len sl < RTCP_TWCC_MAX_PACKETS ->
  (forall y, y ∈ sl -> y.1 <> x.1 /\ -32768 <= x.1 - y.1 < 32768) ->
  exists sl', sl' ≡ₚ x :: sl /\ StronglySorted before sl' /\
    twcc_receiver_register_packet (Some r) (u16 x.1) x.2 =
    Ok (Some (set_packets r (record_of <$> sl')), 0).
Proof.
  intros Hp Hs Hl Hw. unfold twcc_receiver_register_packet. rewrite Hp.
  assert (Hlen : len (record_of <$> sl) = len sl) by (unfold len; by rewrite length_fmap).
  rewrite Hlen. replace (len sl <? RTCP_TWCC_MAX_PACKETS) with true by lia.
  destruct sl as [|y sl _] using rev_ind.
  { exists [x]. split_and!; [done|repeat constructor|done]. }
  replace (0 <? len (sl ++ [y])) with true by (rewrite len_app; len_lia).
  assert (Hlast : rd (record_of <$> sl ++ [y]) (len (sl ++ [y]) - 1) = Ok (record_of y)).
  { rewrite fmap_app. apply rd_mid. len_lia. }
  rewrite Hlast.
  cbn [mbind res_bind record_of rv_twcc_seq].
  destruct (Hw y) as [Hy Hr]; [set_solver|].
  rewrite twcc_seq_newer_compare by done.
  destruct (twcc_insert_pos_spec x.1 (sl ++ [y]) []) as (k1 & k2 & Hk & Hpos & H1 & H2);
    rewrite ?app_nil_r; try done; [set_solver|].
  rewrite app_nil_r in Hk, Hpos. rewrite length_fmap, Hpos.
  case_bool_decide as Hc; cbn [negb mbind res_bind].
  - assert (k2 = []) as ->.
    { destruct k2 as [|w k2 _] using rev_ind; [done|].
      rewrite (assoc_L (++)) in Hk. apply app_inj_tail in Hk as [_ <-].
      specialize (H2 y ltac:(set_solver)). lia. }
    rewrite app_nil_r in Hk. rewrite Hk in *.
    exists (k1 ++ [x]). split_and!; [by rewrite (comm (++)) | | by rewrite fmap_app].
    apply sorted_insert; [by rewrite app_nil_r|done|set_solver].
  - exists (k1 ++ x :: k2). split_and!.
    + rewrite Hk. by rewrite Permutation_middle.
    + rewrite Hk in Hs. by apply sorted_insert.
    + rewrite Hk, !fmap_app. rewrite <- (length_fmap record_of k1).
      by rewrite take_app_length, drop_app_length.
Qed.

Lemma register_all_cons r x l :
  register_all r (x :: l) =
  (o ← twcc_receiver_register_packet r (u16 x.1) x.2; register_all o.1 l).
Proof.
  unfold register_all. cbn [foldl mbind res_bind].
  destruct (twcc_receiver_register_packet r (u16 x.1) x.2) as [o| |];
    cbn [mbind res_bind]; [done|induction l; done..].
Qed.

(** Whatever the order of arrival, the log ends up sorted. *)
Lemma register_all_sorted l lo hi r sl :
  tr_packets r = record_of <$> sl -> StronglySorted before sl ->
  NoDup (sl ++ l).*1 -> (forall x, x ∈ sl ++ l -> lo <= x.1 <= hi) ->
  hi - lo < RTCP_TWCC_MAX_PACKETS -> len sl + len l <= RTCP_TWCC_MAX_PACKETS ->
  exists sl', sl' ≡ₚ sl ++ l /\ StronglySorted before sl' /\
    register_all (Some r) l = Ok (Some (set_packets r (record_of <$> sl'))).
Proof.
  unfold RTCP_TWCC_MAX_PACKETS.
  revert r sl. induction l as [|x l IH]; intros r sl Hp Hs Hnd Hw Hr Hl.
  - exists sl. rewrite app_nil_r. split_and!; [done..|]. unfold register_all. cbn.
    destruct r. cbn in *. by rewrite <- Hp.
  - rewrite register_all_cons.
    destruct (twcc_register_sorted r sl x) as (sl1 & P1 & S1 & ->); try done.
    { unfold RTCP_TWCC_MAX_PACKETS. len_lia. }
    { intros y Hy. split.
      - intros Hyx. rewrite fmap_app, fmap_cons, NoDup_app in Hnd.
        destruct Hnd as (_ & Hnd & _). apply (Hnd y.1); [|set_solver].
        apply list_elem_of_fmap. eauto.
      - pose proof (Hw y ltac:(set_solver)). pose proof (Hw x ltac:(set_solver)). lia. }
    cbn [mbind res_bind fst].
    assert (P2 : sl1 ++ l ≡ₚ sl ++ x :: l) by (rewrite P1; apply Permutation_middle).
    destruct (IH (set_packets r (record_of <$> sl1)) sl1) as (sl' & P' & S' & E');
      try done.
    { by rewrite P2. }
    { intros y Hy. apply Hw. by rewrite <- P2. }
    { apply Permutation_length in P1. len_lia. }
    exists sl'. split_and!; [by rewrite P'|done|by rewrite E'].
Qed.

(* ------------------------------------------------------------------ *)
(** ** The feedback fills the gaps *)

Lemma u16_eq_iff n m : -65536 < n - m < 65536 -> u16 n = u16 m <-> n = m.
Proof. unfold u16. split; [zmod_lia|by intros ->]. Qed.

Lemma twcc_fill_gap_spec k e n o fuel :
  n = e + Z.of_nat k -> (k < fuel)%nat -> Z.of_nat k < 65536 -> 0 <= o ->
  o + Z.of_nat k < RTCP_TWCC_MAX_PACKETS ->
  twcc_fill_gap fuel (u16 e) (u16 n) o =
  Ok (lost_status <$> seqZ e (Z.of_nat k), u16 n, o + Z.of_nat k).
Proof.
  revert e o fuel. induction k as [|k IH]; intros e o fuel -> Hf Hk Ho Hm;
    (destruct fuel as [|fuel]; [lia|]); cbn [twcc_fill_gap].
  - replace (e + Z.of_nat 0) with e by lia. rewrite Z.eqb_refl. cbn.
    by rewrite Z.add_0_r.
  - replace (u16 e =? u16 (e + Z.of_nat (S k))) with false
      by (symmetry; apply Z.eqb_neq; rewrite u16_eq_iff; lia).
    replace (o <? RTCP_TWCC_MAX_PACKETS) with true by lia. cbn [negb andb].
    replace (u16 (u16 e + 1)) with (u16 (e + 1)) by (unfold u16; zmod_lia).
    rewrite (IH (e + 1)) by lia. cbn [mbind res_bind].
    rewrite (seqZ_cons e) by lia.
    replace (Z.pred (Z.of_nat (S k))) with (Z.of_nat k) by lia.
    replace (Z.succ e) with (e + 1) by lia. rewrite fmap_cons.
    by replace (o + 1 + Z.of_nat k) with (o + Z.of_nat (S k)) by lia.
Qed.

(** Prepending the gap before the first packet, and its own status. *)
Lemma reports_cons x l lo hi ss :
  lo <= x.1 <= hi -> (forall y, y ∈ l -> x.1 < y.1) ->
  reports l (x.1 + 1) hi ss ->
  reports (x :: l) lo hi
    ((lost_status <$> seqZ lo (x.1 - lo)) ++ received_status x :: ss).
Proof.
  intros Hx Hl (Hlen & Hrecv & Hlost).
  assert (Hg : length (lost_status <$> seqZ lo (x.1 - lo)) = Z.to_nat (x.1 - lo))
    by (by rewrite length_fmap, length_seqZ).
  assert (Htail : forall n, x.1 < n ->
    ((lost_status <$> seqZ lo (x.1 - lo)) ++ received_status x :: ss) !! Z.to_nat (n - lo)
    = ss !! Z.to_nat (n - (x.1 + 1))).
  { intros n Hn. rewrite lookup_app_r, Hg by lia.
    replace (Z.to_nat (n - lo) - Z.to_nat (x.1 - lo))%nat
      with (S (Z.to_nat (n - (x.1 + 1)))) by lia. done. }
  split; [|split].
  - rewrite len_app, len_cons. unfold len in *. lia.
  - intros y [->|Hy]%elem_of_cons.
    + by rewrite list_lookup_middle by lia.
    + rewrite Htail by auto. by apply Hrecv.
  - intros n Hn Hnl. rewrite fmap_cons, not_elem_of_cons in Hnl. destruct Hnl as [Hne Hnl].
    destruct (decide (n < x.1)).
    + rewrite lookup_app_l by lia. rewrite list_lookup_fmap, lookup_seqZ_lt by lia.
      cbn. do 2 f_equal. lia.
    + rewrite Htail by lia. apply Hlost; [lia|done].
Qed.

Lemma twcc_copy_loop_spec sl lo hi o :
  StronglySorted before sl -> sl <> [] ->
  (forall x, x ∈ sl -> lo <= x.1 <= hi) -> hi ∈ sl.*1 ->
  0 <= o -> o + (hi + 1 - lo) <= RTCP_TWCC_MAX_PACKETS ->
  exists ss, twcc_copy_loop (record_of <$> sl) (u16 lo) o =
    Ok (ss, o + (hi + 1 - lo)) /\ reports sl lo hi ss.
Proof.
  unfold RTCP_TWCC_MAX_PACKETS.
  revert lo o. induction sl as [|x sl IH]; intros lo o Hs Hne Hw Hhi Ho Hm; [done|].
  apply StronglySorted_inv in Hs as [Hs Hx]. rewrite Forall_forall in Hx.
  pose proof (Hw x ltac:(set_solver)) as Hwx.
  rewrite fmap_cons. cbn [twcc_copy_loop]. unfold RTCP_TWCC_MAX_PACKETS.
  replace (o <? 8192) with true by lia.
  cbn [record_of rv_twcc_seq rv_arrival_time_us].
  rewrite (twcc_fill_gap_spec (Z.to_nat (x.1 - lo)) lo x.1)
    by (unfold RTCP_TWCC_MAX_PACKETS; lia).
  cbn [mbind res_bind]. rewrite Z2Nat.id by lia.
  replace (o + (x.1 - lo) <? 8192) with true by lia.
  replace (u16 (u16 x.1 + 1)) with (u16 (x.1 + 1)) by (unfold u16; zmod_lia).
  assert (H : exists ss, twcc_copy_loop (record_of <$> sl) (u16 (x.1 + 1)) (o + (x.1 - lo) + 1)
    = Ok (ss, o + (hi + 1 - lo)) /\ reports sl (x.1 + 1) hi ss).
  { destruct sl as [|y sl'] eqn:Esl.
    - exists []. apply list_elem_of_singleton in Hhi. cbn. subst hi. split.
      + do 2 f_equal. lia.
      + split_and!; [unfold len; cbn; lia|set_solver|lia].
    - assert (Hy : y ∈ sl) by (rewrite Esl; apply elem_of_cons; by left). rewrite <- Esl in *.
      destruct (IH (x.1 + 1) (o + (x.1 - lo) + 1)) as (ss & E & R);
        [exact Hs|intros ->; discriminate| | |lia|lia|].
      + intros z Hz. specialize (Hx z Hz). unfold before in Hx.
        pose proof (Hw z ltac:(by apply elem_of_cons; right)). lia.
      + rewrite fmap_cons, elem_of_cons in Hhi. destruct Hhi as [->|]; [|done].
        specialize (Hx y Hy). unfold before in Hx.
        specialize (Hw y ltac:(by apply elem_of_cons; right)). lia.
      + exists ss. split; [|done]. rewrite E. do 2 f_equal. lia. }
  destruct H as (ss & -> & R). cbn [mbind res_bind].
  eexists. split; [done|]. by apply reports_cons.
Qed.

(** The log is ready once it has ten packets or the interval has passed. *)
Definition feedback_due (n now start : Z) : bool :=
  (10 <=? n) || (TWCC_FEEDBACK_INTERVAL_MS * 1000 <=? u64 (now - start)).

(* ------------------------------------------------------------------ *)
(** ** The tracker's estimate stays in its range *)

Lemma clamp_range b :
  let b1 := if b <? BWE_MIN_BITRATE then BWE_MIN_BITRATE else b in
  let b2 := if BWE_MAX_BITRATE <? b1 then BWE_MAX_BITRATE else b1 in
  BWE_MIN_BITRATE <= b2 <= BWE_MAX_BITRATE.
Proof.
  cbv zeta. unfold BWE_MIN_BITRATE, BWE_MAX_BITRATE.
  destruct (Z.ltb_spec b 30000); [cbn; lia|destruct (Z.ltb_spec 10000000 b); lia].
Qed.

(** The three products are converted back without overflow. *)
Lemma bwe_product_defined b :
  0 <= b <= BWE_MAX_BITRATE ->
  (exists z, f_to_u32 (f64_mul (f64_of_Z b) BWE_DECREASE_FACTOR) = Ok z) /\
  (exists z, f_to_u32 (f32_mul (f32_of_Z b) f0_95) = Ok z) /\
  (exists z, f_to_u32 (f64_mul (f64_of_Z b) BWE_INCREASE_FACTOR) = Ok z).
Proof.
  unfold BWE_MAX_BITRATE. intros Hb.
  assert (H64 : fbound (f64_of_Z b) 25)
    by (apply (of_Z_bound 53 1024 b 24); [done|done|done|done|lia]).
  assert (H32 : fbound (f32_of_Z b) 25)
    by (apply (of_Z_bound 24 128 b 24); [done|done|done|done|lia]).
  assert (Hf : forall m e, Zpos m < 2 ^ (1 - e) -> e <= 1 ->
                fbound (S754_finite false m e) 1)
    by (intros m e ? ?; right; exists m, e; split; [done|split; lia]).
  split_and!.
  - destruct (to_u32_bound (f64_mul (f64_of_Z b) BWE_DECREASE_FACTOR) 27)
      as (z & Hz & _); [|lia|by exists z].
    apply (mul_bound 53 1024 _ _ 25 1); try done. by apply Hf.
  - destruct (to_u32_bound (f32_mul (f32_of_Z b) f0_95) 27)
      as (z & Hz & _); [|lia|by exists z].
    apply (mul_bound 24 128 _ _ 25 1); try done. by apply Hf.
  - destruct (to_u32_bound (f64_mul (f64_of_Z b) BWE_INCREASE_FACTOR) 27)
      as (z & Hz & _); [|lia|by exists z].
    apply (mul_bound 53 1024 _ _ 25 1); try done. by apply Hf.
Qed.

Lemma twcc_estimate_Ok t loss now :
  tracker_wf t -> exists b i n c, twcc_estimate t loss now = Ok (b, i, n, c) /\ 0 <= n.
Proof.
  intros [_ _ _ Hn Hb].
  destruct (bwe_product_defined (tk_current_bitrate_bps t)) as ([z1 E1] & [z2 E2] & [z3 E3]).
  { unfold BWE_MIN_BITRATE in Hb. lia. }
  unfold twcc_estimate. rewrite E1, E2, E3. cbn [mbind res_bind].
  repeat case_match; do 4 eexists; (split; [done|lia]).
Qed.

(** What the loop over the statuses counts: the ones whose slot still holds
    their packet, apart by [received]. *)
Definition known (h : list twcc_send_record_t) (p : twcc_packet_status_t) : bool :=
  match h !! Z.to_nat (tp_seq p mod TWCC_MAX_HISTORY) with
  | Some r => sd_twcc_seq r =? tp_seq p
  | None => false
  end.

Definition count (f : twcc_packet_status_t -> bool) (ps : list twcc_packet_status_t) : Z :=
  len (base.filter (fun p => f p) ps).

(** The round-trip sample of a status: a received, known packet, with a
    positive time below ten seconds. *)
Definition rtt_sample (h : list twcc_send_record_t) (p : twcc_packet_status_t)
    : option Z :=
  r ← h !! Z.to_nat (tp_seq p mod TWCC_MAX_HISTORY);
  let rtt := u64 (tp_arrival_time_us p - sd_send_time_us r) in
  if (sd_twcc_seq r =? tp_seq p) && truth (tp_received p)
     && (0 <? rtt) && (rtt <? 10000000) then Some rtt else None.

(** The slot of a received, known packet is marked. *)
Definition ack_slot (h : list twcc_send_record_t) (p : twcc_packet_status_t)
    : list twcc_send_record_t :=
  if known h p && truth (tp_received p)
  then alter (fun r => Build_twcc_send_record_t (sd_twcc_seq r) (sd_send_time_us r)
                         (sd_size r) 1) (Z.to_nat (tp_seq p mod TWCC_MAX_HISTORY)) h
  else h.

Definition sum (l : list Z) : Z := foldr Z.add 0 l.

Lemma count_cons f p ps : count f (p :: ps) = b2i (f p) + count f ps.
Proof.
  unfold count. rewrite filter_cons.
  destruct (f p); [rewrite decide_True by done; by rewrite len_cons|].
  by rewrite decide_False by (intros []).
Qed.

(** An acknowledgement leaves every packet's number and time. *)
Definition sent (r : twcc_send_record_t) : Z * Z := (sd_twcc_seq r, sd_send_time_us r).

Lemma ack_slot_sent h p : sent <$> ack_slot h p = sent <$> h.
Proof.
  unfold ack_slot. case_match; [|done]. apply list_eq. intros i.
  rewrite !list_lookup_fmap, list_lookup_alter. destruct (decide _) as [->|].
  all: by destruct (h !! _).
Qed.

Lemma known_sent h h' p : sent <$> h' = sent <$> h -> known h' p = known h p.
Proof.
  intros He. unfold known. set (i := Z.to_nat _).
  assert (Hi : (sent <$> h') !! i = (sent <$> h) !! i) by (by rewrite He).
  rewrite !list_lookup_fmap in Hi.
  destruct (h' !! i), (h !! i); try done. injection Hi as Ha _. by rewrite Ha.
Qed.

Lemma rtt_sample_sent h h' p : sent <$> h' = sent <$> h -> rtt_sample h' p = rtt_sample h p.
Proof.
  intros He. unfold rtt_sample. set (i := Z.to_nat _).
  assert (Hi : (sent <$> h') !! i = (sent <$> h) !! i) by (by rewrite He).
  rewrite !list_lookup_fmap in Hi.
  destruct (h' !! i), (h !! i); try done. injection Hi as Ha Hb. cbn. by rewrite Ha, Hb.
Qed.

Definition fb_after (h : list twcc_send_record_t) (ps : list twcc_packet_status_t)
    (c : fb_counts) : fb_counts :=
  Build_fb_counts
    (fc_received c + count (fun p => known h p && truth (tp_received p)) ps)
    (fc_lost c + count (fun p => known h p && negb (truth (tp_received p))) ps)
    (u64 (fc_total_rtt_us c + sum (omap (rtt_sample h) ps)))
    (fc_rtt_samples c + len (omap (rtt_sample h) ps)).

Lemma fb_after_sent h h' ps c : sent <$> h' = sent <$> h -> fb_after h' ps c = fb_after h ps c.
Proof.
  intros He. unfold fb_after, count.
  assert (Ho : omap (rtt_sample h') ps = omap (rtt_sample h) ps).
  { induction ps as [|p ps IH]; [done|]. cbn. by rewrite (rtt_sample_sent h h') by done;
      case_match; rewrite ?IH. }
  rewrite Ho. f_equal; do 3 f_equal; apply list_filter_iff; intros p;
    by rewrite (known_sent h h').
Qed.

Lemma feedback_loop_spec ps h c :
  len h = TWCC_MAX_HISTORY -> is_u64 (fc_total_rtt_us c) ->
  Forall (fun p => is_u16 (tp_seq p)) ps ->
  feedback_loop ps h c = Ok (foldl ack_slot h ps, fb_after h ps c).
Proof.
  revert h c. induction ps as [|p ps IH]; intros h c Hl Hc Hps.
  { cbn. unfold fb_after. cbn. rewrite !Z.add_0_r, u64_id by done. by destruct c. }
  apply Forall_cons in Hps as [Hp Hps]. cbn [feedback_loop foldl].
  destruct (rd_in_range h (tp_seq p mod TWCC_MAX_HISTORY)) as [r Hr].
  { rewrite Hl. unfold TWCC_MAX_HISTORY. zmod_lia. }
  pose proof Hr as Hb%rd_bounds. rewrite Hr. cbn [mbind res_bind].
  apply rd_lookup in Hr as [_ Hr].
  assert (Hk : known h p = (sd_twcc_seq r =? tp_seq p)) by (unfold known; by rewrite Hr).
  assert (Hs : rtt_sample h p =
    if (sd_twcc_seq r =? tp_seq p) && truth (tp_received p)
       && (0 <? u64 (tp_arrival_time_us p - sd_send_time_us r))
       && (u64 (tp_arrival_time_us p - sd_send_time_us r) <? 10000000)
    then Some (u64 (tp_arrival_time_us p - sd_send_time_us r)) else None)
    by (unfold rtt_sample; by rewrite Hr).
  unfold fb_after. cbn [omap list_omap]. rewrite !count_cons, Hk, Hs.
  assert (Ha : ack_slot h p =
    if (sd_twcc_seq r =? tp_seq p) && truth (tp_received p) then
      <[Z.to_nat (tp_seq p mod TWCC_MAX_HISTORY) :=
         Build_twcc_send_record_t (sd_twcc_seq r) (sd_send_time_us r) (sd_size r) 1]> h
    else h).
  { unfold ack_slot. rewrite Hk.
    destruct ((sd_twcc_seq r =? tp_seq p) && truth (tp_received p)); [|done].
    apply list_eq. intros i. rewrite list_lookup_alter, list_lookup_insert.
    case_decide as Hi; case_decide as Hj; try done.
    - subst. by rewrite Hr.
    - len_lia.
    - naive_solver. }
  destruct (sd_twcc_seq r =? tp_seq p); cbn [andb] in *.
  2: { rewrite IH, Ha by done. cbn [b2i]. do 2 f_equal. }
  destruct (truth (tp_received p)); cbn [andb negb b2i] in *.
  - rewrite upd_Ok by done. cbn [mbind res_bind]. rewrite <- Ha.
    rewrite IH; [|..|done].
    2: { by rewrite Ha, len_insert. }
    2: { cbn. case_match; [apply u64_range|done]. }
    do 2 f_equal. rewrite (fb_after_sent h) by apply ack_slot_sent. unfold fb_after.
    cbn [fc_received fc_lost fc_total_rtt_us fc_rtt_samples].
    destruct ((0 <? _) && _); cbn [sum foldr].
    + fold (sum (omap (rtt_sample h) ps)). rewrite len_cons. f_equal; try lia.
      unfold u64. rewrite Zplus_mod_idemp_l. f_equal. lia.
    + f_equal; lia.
  - rewrite IH, Ha by done. do 2 f_equal. unfold fb_after.
    cbn [fc_received fc_lost fc_total_rtt_us fc_rtt_samples]. f_equal; lia.
Qed.

Lemma sum_bounds l : Forall (fun x => 0 <= x < 10000000) l -> 0 <= sum l <= 10000000 * len l.
Proof.
  induction 1 as [|x l Hx _ IH]; [done|]. cbn [sum foldr]. fold (sum l).
  rewrite len_cons. lia.
Qed.

Lemma rtt_samples_range h ps : Forall (fun x => 0 <= x < 10000000) (omap (rtt_sample h) ps).
Proof.
  apply Forall_forall. intros x (p & _ & Hp)%list_elem_of_omap.
  unfold rtt_sample in Hp. destruct (h !! _); [|done]. cbn in Hp.
  match type of Hp with (if ?b then _ else _) = _ => destruct b eqn:Hb; [|done] end.
  injection Hp as <-. lia.
Qed.

Lemma len_omap_le {A B} (f : A -> option B) l : len (omap f l) <= len l.
Proof.
  induction l as [|x l IH]; [done|]. cbn. destruct (f x); rewrite ?len_cons; lia.
Qed.

Lemma foldl_ack_len ps h : len (foldl ack_slot h ps) = len h.
Proof.
  revert h. induction ps as [|p ps IH]; intros h; [done|]. cbn. rewrite IH.
  unfold ack_slot. destruct (known h p && truth (tp_received p)); [|done].
  unfold len. by rewrite length_alter.
Qed.

(** The statuses the loop visits. *)
Definition fb_statuses (w : rtcp_twcc_t) : list twcc_packet_status_t :=
  take (Z.to_nat (Z.max 0 (tw_num_packets w))) (tw_packets w).

(** The mean of the samples in milliseconds, 0 without any. *)
Definition mean_rtt_ms (l : list Z) : Z :=
  if 0 <? len l then sum l / len l / 1000 else 0.

Lemma fb_after_rtt h w :
  len (tw_packets w) <= RTCP_TWCC_MAX_PACKETS ->
  let c := fb_after h (fb_statuses w) (Build_fb_counts 0 0 0 0) in
  (if 0 <? fc_rtt_samples c then u32 (fc_total_rtt_us c / fc_rtt_samples c / 1000) else 0)
  = mean_rtt_ms (omap (rtt_sample h) (fb_statuses w)).
Proof.
  intros Hl c. unfold c, fb_after, mean_rtt_ms. cbn [fc_rtt_samples fc_total_rtt_us].
  rewrite !Z.add_0_l. set (l := omap _ _). destruct (Z.ltb_spec 0 (len l)); [|done].
  pose proof (sum_bounds l (rtt_samples_range _ _)) as Hs.
  assert (Hll : len l <= 8192).
  { unfold RTCP_TWCC_MAX_PACKETS in Hl. etrans; [apply len_omap_le|].
    unfold fb_statuses. rewrite len_take. lia. }
  rewrite u64_id by (unfold is_u64; lia). apply u32_id. unfold is_u32.
  assert (0 <= sum l / len l <= 10000000)
    by (split; [apply Z.div_pos|apply Z.div_le_upper_bound]; lia).
  zmod_lia.
Qed.

Lemma twcc_estimate_congestion t loss now b i n c :
  twcc_estimate t loss now = Ok (b, i, n, c) ->
  c = b2i (SFltb f0_1 loss || SFltb f0_02 loss).
Proof.
  unfold twcc_estimate.
  destruct (SFltb f0_1 loss); [by intros (? & _ & [= <- <- <- <-])%bind_Ok|].
  destruct (SFltb f0_02 loss); [by intros (? & _ & [= <- <- <- <-])%bind_Ok|].
  case_match; [by intros (? & _ & [= <- <- <- <-])%bind_Ok|by intros [= <- <- <- <-]].
Qed.

Lemma process_feedback_Ok t w now :
  tracker_wf t -> op_ok (Feedback w now) ->
  let h := tk_history t in let ps := fb_statuses w in
  let received := count (fun p => known h p && truth (tp_received p)) ps in
  let lost := count (fun p => known h p && negb (truth (tp_received p))) ps in
  let loss := twcc_loss_ratio lost (received + lost) in
  exists t',
    twcc_tracker_process_feedback (Some t) (Some w) (Some tt) now =
    Ok (t', Build_twcc_bwe_result_t (tk_current_bitrate_bps t') (tk_current_bitrate_bps t')
              loss (mean_rtt_ms (omap (rtt_sample h) ps))
              (b2i (SFltb f0_1 loss || SFltb f0_02 loss))) /\
    tracker_wf t' /\ tk_history t' = foldl ack_slot h ps /\
    tk_last_feedback_time_us t' = now.
Proof.
  intros Hwf [Hn Hps] h ps received lost loss. unfold twcc_tracker_process_feedback.
  rewrite rd_slice_in_range by (pose proof (len_nonneg (tw_packets w)); lia).
  rewrite drop_0. cbn [mbind res_bind]. fold (fb_statuses w) h ps.
  rewrite feedback_loop_spec; [|apply Hwf|done|by apply Forall_take].
  cbn [mbind res_bind fc_received fc_lost].
  pose proof (fb_after_rtt h w ltac:(lia)) as Hrtt. cbv zeta in Hrtt. fold ps in Hrtt.
  rewrite Hrtt.
  unfold fb_after. cbn [fc_received fc_lost]. rewrite !Z.add_0_l.
  fold received lost loss.
  destruct (twcc_estimate_Ok t loss now Hwf) as (b & i & n & g & He & Hpos).
  rewrite He. cbn [mbind res_bind]. apply twcc_estimate_congestion in He as ->.
  eexists. split; [apply Ok_pair; reflexivity|]. split; [|done].
  destruct Hwf. constructor; cbn; try done; [|apply clamp_range].
  by rewrite foldl_ack_len.
Qed.

Lemma tracker_step_Ok t o :
  tracker_wf t -> op_ok o -> exists t', tracker_step t o = Ok t' /\ tracker_wf t'.
Proof.
  intros Hwf Ho. destruct o as [b|size time|w now]; cbn [tracker_step].
  - unfold twcc_tracker_set_bitrate. destruct (b =? 0); [by exists t|].
    eexists. split; [done|]. destruct Hwf. constructor; cbn; try done. apply clamp_range.
  - pose proof Hwf as [Hs Hh Hc Hr Hb]. unfold twcc_tracker_register_packet.
    rewrite upd_Ok by (rewrite Hh; unfold TWCC_MAX_HISTORY; zmod_lia). cbn [mbind res_bind fst].
    eexists. split; [done|]. constructor; cbn; try done.
    + apply u16_range.
    + by rewrite len_insert.
    + destruct (Z.ltb_spec (tk_history_count t) TWCC_MAX_HISTORY); lia.
  - destruct (process_feedback_Ok t w now Hwf Ho) as (t' & -> & Hwf' & _). by exists t'.
Qed.

Lemma tracker_run_Ok l t :
  tracker_wf t -> Forall op_ok l -> exists t', tracker_run t l = Ok t' /\ tracker_wf t'.
Proof.
  unfold tracker_run. revert t. induction l as [|o l IH]; intros t Hwf Hl; [by exists t|].
  apply Forall_cons in Hl as [Ho Hl].
  destruct (tracker_step_Ok t o Hwf Ho) as (t1 & E & Hwf1).
  cbn [foldl mbind res_bind]. rewrite E. by apply IH.
Qed.

(** ** Properties *)

(** C7: whatever the order in which distinct packets of a window of at most
    8192 numbers arrive, wrap-around included, a due feedback reports the
    numbers from the oldest to the newest exactly once each: a received packet
    at its arrival time, a missing one as lost.  The log is emptied and the
    feedback counter advances. *)
Theorem twcc_receiver_feedback_complete ssrc start now l lo hi :
  NoDup l.*1 -> lo ∈ l.*1 -> hi ∈ l.*1 -> (forall x, x ∈ l -> lo <= x.1 <= hi) ->
  hi - lo < RTCP_TWCC_MAX_PACKETS -> len l <= RTCP_TWCC_MAX_PACKETS ->
  feedback_due (len l) now start = true ->
  exists r r' w,
    register_all (twcc_receiver_create ssrc true start) l = Ok (Some r) /\
    twcc_receiver_generate_feedback (Some r) (Some tt) now = Ok (Some r', 1, Some w) /\
    tw_base_seq w = u16 lo /\ tw_num_packets w = hi + 1 - lo /\
    tw_packet_count w = hi + 1 - lo /\ reports l lo hi (tw_packets w) /\
    tr_packets r' = [] /\ tr_fb_pkt_count r' = 1 /\ tr_last_feedback_time_us r' = now.
Proof.
  unfold RTCP_TWCC_MAX_PACKETS. intros Hnd Hlo Hhi Hw Hr Hl Hdue.
  destruct (register_all_sorted l lo hi (Build_twcc_receiver_t ssrc 0 [] start 0) [])
    as (sl & P & S & E); [done|constructor|done|done|done|by rewrite len_nil|].
  cbn [app] in P. unfold twcc_receiver_create. eexists. rewrite E.
  assert (Hlen : len sl = len l) by (unfold len; by rewrite P).
  assert (Hw' : forall x, x ∈ sl -> lo <= x.1 <= hi) by (intros x; rewrite P; apply Hw).
  assert (Hfst : sl.*1 ≡ₚ l.*1) by (by rewrite P).
  destruct sl as [|x sl]; [rewrite <- P in Hlo; by apply not_elem_of_nil in Hlo|].
  assert (Hx : x.1 = lo).
  { rewrite <- Hfst, fmap_cons, elem_of_cons in Hlo. destruct Hlo as [->|Hlo]; [done|].
    apply list_elem_of_fmap in Hlo as (y & -> & Hy).
    apply StronglySorted_inv in S as [_ S]. rewrite Forall_forall in S.
    specialize (S y Hy). specialize (Hw' x ltac:(by left)). unfold before in S. lia. }
  destruct (twcc_copy_loop_spec (x :: sl) lo hi 0) as (ss & Hss & R);
    [done|done|done|by rewrite Hfst|done|unfold RTCP_TWCC_MAX_PACKETS; lia|].
  do 2 eexists. split; [done|]. unfold twcc_receiver_generate_feedback.
  cbn [set_packets tr_packets tr_ssrc tr_expected_seq tr_last_feedback_time_us tr_fb_pkt_count].
  assert (Hrl : len (record_of <$> x :: sl) = len l) by (rewrite <- Hlen; by rewrite len_map).
  rewrite Hrl. unfold feedback_due in Hdue.
  replace ((len l <? 10) && _) with false by lia.
  replace (len l =? 0) with false by (rewrite <- Hlen, len_cons; pose proof (len_nonneg sl); lia).
  rewrite fmap_cons at 1. cbn [rd decide].
  rewrite (rd_mid [] (record_of x) (record_of <$> sl) 0) by done.
  cbn [mbind res_bind record_of rv_twcc_seq]. rewrite Hx, Hss. cbn [mbind res_bind].
  split; [reflexivity|].
  cbn [tw_base_seq tw_num_packets tw_packet_count tw_packets tr_packets tr_fb_pkt_count
       tr_last_feedback_time_us]. rewrite Z.add_0_l. split_and!; try done.
  - apply u16_id. unfold is_u16. pose proof (Hw' x ltac:(by left)). lia.
  - destruct R as (R1 & R2 & R3). split_and!; [done| |].
    + intros y Hy. apply R2. by rewrite P.
    + intros n Hn Hnl. apply R3; [done|]. by rewrite Hfst.
Qed.

(** A feedback message updates the tracker as its statuses say, whatever
    they are: only packets whose slot of the history still holds them are
    counted, the received ones are acknowledged, the loss ratio and the mean
    round-trip time (of the samples below ten seconds) are those of the counted
    packets, and the new target is the tracker's bitrate. *)
Theorem twcc_process_feedback_spec t w now :
  tracker_wf t -> op_ok (Feedback w now) ->
  let h := tk_history t in let ps := fb_statuses w in
  let received := count (fun p => known h p && truth (tp_received p)) ps in
  let lost := count (fun p => known h p && negb (truth (tp_received p))) ps in
  let loss := twcc_loss_ratio lost (received + lost) in
  exists t',
    twcc_tracker_process_feedback (Some t) (Some w) (Some tt) now =
    Ok (t', Build_twcc_bwe_result_t (tk_current_bitrate_bps t') (tk_current_bitrate_bps t')
              loss (mean_rtt_ms (omap (rtt_sample h) ps))
              (b2i (SFltb f0_1 loss || SFltb f0_02 loss))) /\
    tk_history t' = foldl ack_slot h ps /\ tk_last_feedback_time_us t' = now.
Proof.
  intros Hwf Ho h ps received lost loss.
  destruct (process_feedback_Ok t w now Hwf Ho) as (t' & E & _ & H). by exists t'.
Qed.

(** From creation, no sequence of bitrate settings, registrations and
    feedback messages makes the tracker fault (its history index stays inside,
    its floating-point products convert back to [uint32_t]) or take its bitrate
    out of 30 kbit/s ... 10 Mbit/s. *)
Theorem twcc_tracker_bitrate_bounded start l :
  Forall op_ok l ->
  exists t0 t, twcc_tracker_create true start = Some t0 /\ tracker_run t0 l = Ok t /\
    BWE_MIN_BITRATE <= tk_current_bitrate_bps t <= BWE_MAX_BITRATE /\
    is_u16 (tk_next_seq t) /\ len (tk_history t) = TWCC_MAX_HISTORY.
Proof.
  intros Hl. eexists. unfold twcc_tracker_create.
  destruct (tracker_run_Ok l (Build_twcc_tracker_t 0
    (replicate (Z.to_nat TWCC_MAX_HISTORY) (Build_twcc_send_record_t 0 0 0 0))
    0 BWE_INITIAL_BITRATE start start 0)) as (t & E & Hwf); [|done|].
  { constructor; cbn; try done; lia. }
  exists t. split; [done|]. split; [done|]. by destruct Hwf.
Qed.

(* ------------------------------------------------------------------ *)
(** ** Observations *)

(** A sequence number registered twice: the loop that fills the gap before the
    second copy never meets it and fills the array, so a feedback about one
    packet announces 8192. *)
Theorem twcc_duplicate_floods_feedback :
  exists r r' w,
    register_all (twcc_receiver_create 1 true 0) [(5, 0); (5, 10)] = Ok (Some r) /\
    twcc_receiver_generate_feedback (Some r) (Some tt) 100000 = Ok (Some r', 1, Some w) /\
    tw_base_seq w = 5 /\ tw_num_packets w = RTCP_TWCC_MAX_PACKETS.
Proof.
  do 3 eexists. split; [vm_compute; reflexivity|]. split; [vm_compute; reflexivity|]. done.
Qed.

(** The history after the packets up to 65535: 1000 slots, with the numbers
    65000 ... 65535 in the first 536 and 64536 ... 64999 in the others. *)
Definition full_tracker : twcc_tracker_t :=
  Build_twcc_tracker_t 0
    ((fun i => Build_twcc_send_record_t (if i <=? 535 then 65000 + i else 64000 + i) 1 100 0)
       <$> seqZ 0 1000)
    1000 BWE_INITIAL_BITRATE 0 0 0.

(** 65536 is not a multiple of the ring's size: packet 0 takes the slot of
    packet 65000, sent 536 packets ago, whose loss then goes unnoticed. *)
Theorem twcc_history_forgets_after_wrap :
  let w := Build_rtcp_twcc_t 1 2 65000 1 0 0 [Build_twcc_packet_status_t 65000 0 0] 1 in
  known (tk_history full_tracker) (Build_twcc_packet_status_t 65000 0 0) = true /\
  exists t' t'' r,
    twcc_tracker_register_packet (Some full_tracker) 100 2 = Ok (Some t', 0) /\
    twcc_tracker_process_feedback (Some t') (Some w) (Some tt) 3 = Ok (t'', r) /\
    bw_packet_loss_ratio r = S754_zero false.
Proof.
  split; [vm_compute; reflexivity|]. do 3 eexists.
  split; [vm_compute; reflexivity|]. split; [vm_compute; reflexivity|]. done.
Qed.

(* ------------------------------------------------------------------ *)
(** ** Witnesses *)

(** Packets 65534, 65535, 1 and 2 in another order, 0 missing. *)
Definition example_arrivals : list arrival_t :=
  [(65535, 640); (65534, 320); (65538, 1500); (65537, 900)].

Lemma twcc_receiver_feedback_complete_witness :
  exists r r' w,
    register_all (twcc_receiver_create 7 true 0) example_arrivals = Ok (Some r) /\
    twcc_receiver_generate_feedback (Some r) (Some tt) 200000 = Ok (Some r', 1, Some w) /\
    tw_base_seq w = u16 65534 /\ tw_num_packets w = 65538 + 1 - 65534 /\
    tw_packet_count w = 65538 + 1 - 65534 /\
    reports example_arrivals 65534 65538 (tw_packets w) /\
    tr_packets r' = [] /\ tr_fb_pkt_count r' = 1 /\ tr_last_feedback_time_us r' = 200000.
Proof.
  apply (twcc_receiver_feedback_complete 7 0 200000 example_arrivals 65534 65538);
    [apply (bool_decide_unpack _); vm_compute; exact I
    |apply (bool_decide_unpack _); vm_compute; exact I
    |apply (bool_decide_unpack _); vm_compute; exact I
    | |reflexivity|discriminate|reflexivity].
  apply Forall_forall. repeat constructor; cbn; lia.
Defined.

Definition example_fb : rtcp_twcc_t :=
  Build_rtcp_twcc_t 1 2 65001 3 0 0
    [Build_twcc_packet_status_t 65001 400001 1; Build_twcc_packet_status_t 65002 0 0;
     Build_twcc_packet_status_t 9 7 1] 3.

Lemma example_fb_ok now : op_ok (Feedback example_fb now).
Proof. split; [split; reflexivity || discriminate|]. repeat constructor; discriminate. Defined.

Lemma full_tracker_wf : tracker_wf full_tracker.
Proof. constructor; try done; vm_compute; split; congruence. Defined.

Lemma twcc_process_feedback_spec_witness :
  exists t', twcc_tracker_process_feedback (Some full_tracker) (Some example_fb) (Some tt) 9
    = Ok (t', Build_twcc_bwe_result_t (tk_current_bitrate_bps t') (tk_current_bitrate_bps t')
                (twcc_loss_ratio 1 2) 400 1) /\
    tk_history t' = foldl ack_slot (tk_history full_tracker) (fb_statuses example_fb) /\
    tk_last_feedback_time_us t' = 9.
Proof.
  exact (twcc_process_feedback_spec full_tracker example_fb 9 full_tracker_wf
           (example_fb_ok 9)).
Defined.

Lemma twcc_tracker_bitrate_bounded_witness :
  exists t0 t, twcc_tracker_create true 0 = Some t0 /\
    tracker_run t0 [SetBitrate 1; Register 100 5; Feedback example_fb 9] = Ok t /\
    BWE_MIN_BITRATE <= tk_current_bitrate_bps t <= BWE_MAX_BITRATE /\
    is_u16 (tk_next_seq t) /\ len (tk_history t) = TWCC_MAX_HISTORY.
Proof.
  apply twcc_tracker_bitrate_bounded. constructor; [split; done|].
  constructor; [exact I|]. constructor; [apply example_fb_ok|constructor].
Defined.
