(* ===== verification/Sfu.v ===== *)
(** * Selective forwarding unit (src/webrtc/src/sfu/turbo_sfu.c)

    The participant table of a conference, the streams each participant sends,
    and the forwarding of a packet to the other participants with the choice of
    a simulcast layer per receiver.  Calls of the application's functions are
    events; a function pointer is an opaque number. *)

From stdpp Require Import strings.
From S2P Require Import Prelude RtpPacket RtpHistory Nack.

(* ------------------------------------------------------------------ *)
(** ** Data *)

Definition SFU_MAX_PARTICIPANTS : Z := 50.
Definition SFU_MAX_STREAMS_PER_PARTICIPANT : Z := 4.
Definition SFU_LAYER_SWITCH_HYSTERESIS_MS : Z := 2000.
Definition SIMULCAST_LAYER_LOW : Z := 0.
Definition SIMULCAST_LAYER_MEDIUM : Z := 1.
Definition SIMULCAST_LAYER_HIGH : Z := 2.

Record sfu_stream_t := {
  st_ssrc : Z;
  st_active : Z;
  st_layer_ssrcs : list Z;
  st_layer_count : Z;
  st_current_layer_by_receiver : list Z;
  st_last_layer_switch_us_by_receiver : list Z;
  st_enabled_by_receiver : list Z;
  st_max_layer_by_receiver : list Z;
  st_packets_received : Z;
  st_bytes_received : Z;
  st_packets_forwarded : Z;
  st_bytes_forwarded : Z }.

(** The first [stream_count] elements of [streams]. *)
Record sfu_participant_t := {
  pt_id : string;
  pt_active : Z;
  pt_streams : list sfu_stream_t;
  pt_available_bandwidth : Z;
  pt_last_bandwidth_update : Z;
  pt_total_packets_sent : Z;
  pt_total_bytes_sent : Z;
  pt_total_packets_received : Z;
  pt_total_bytes_received : Z;
  pt_on_packet : option Z;
  pt_on_keyframe_request : option Z;
  pt_packet_user_data : Z;
  pt_keyframe_user_data : Z }.

Record sfu_context_t := {
  sf_participants : list sfu_participant_t;
  sf_participant_count : Z;
  sf_max_participants : Z;
  sf_enable_simulcast : Z;
  sf_enable_bandwidth_adaptation : Z;
  sf_total_packets_routed : Z;
  sf_total_bytes_routed : Z;
  sf_total_layer_switches : Z;
  sf_on_participant_joined : option Z;
  sf_on_participant_left : option Z;
  sf_user_data : Z }.

(** A call of an application function with its user data. *)
Inductive sfu_event :=
  | EvJoined (fn data : Z) (id : string)
  | EvLeft (fn data : Z) (id : string)
  | EvPacket (fn data : Z) (packet : list Z)
  | EvKeyframe (fn data : Z) (ssrc : Z).

Definition zero_participant : sfu_participant_t :=
  Build_sfu_participant_t "" 0 [] 0 0 0 0 0 0 None None 0 0.

(** Field assignments. *)
Definition set_participants (s : sfu_context_t) ps : sfu_context_t :=
  Build_sfu_context_t ps (sf_participant_count s) (sf_max_participants s)
    (sf_enable_simulcast s) (sf_enable_bandwidth_adaptation s)
    (sf_total_packets_routed s) (sf_total_bytes_routed s) (sf_total_layer_switches s)
    (sf_on_participant_joined s) (sf_on_participant_left s) (sf_user_data s).

Definition set_count (s : sfu_context_t) c : sfu_context_t :=
  Build_sfu_context_t (sf_participants s) c (sf_max_participants s)
    (sf_enable_simulcast s) (sf_enable_bandwidth_adaptation s)
    (sf_total_packets_routed s) (sf_total_bytes_routed s) (sf_total_layer_switches s)
    (sf_on_participant_joined s) (sf_on_participant_left s) (sf_user_data s).

Definition set_flags (s : sfu_context_t) simulcast adaptation : sfu_context_t :=
  Build_sfu_context_t (sf_participants s) (sf_participant_count s) (sf_max_participants s)
    simulcast adaptation
    (sf_total_packets_routed s) (sf_total_bytes_routed s) (sf_total_layer_switches s)
    (sf_on_participant_joined s) (sf_on_participant_left s) (sf_user_data s).

Definition add_totals (s : sfu_context_t) packets bytes switches : sfu_context_t :=
  Build_sfu_context_t (sf_participants s) (sf_participant_count s) (sf_max_participants s)
    (sf_enable_simulcast s) (sf_enable_bandwidth_adaptation s)
    (sf_total_packets_routed s + packets) (sf_total_bytes_routed s + bytes)
    (sf_total_layer_switches s + switches)
    (sf_on_participant_joined s) (sf_on_participant_left s) (sf_user_data s).

Definition set_active (p : sfu_participant_t) a : sfu_participant_t :=
  Build_sfu_participant_t (pt_id p) a (pt_streams p) (pt_available_bandwidth p)
    (pt_last_bandwidth_update p) (pt_total_packets_sent p) (pt_total_bytes_sent p)
    (pt_total_packets_received p) (pt_total_bytes_received p) (pt_on_packet p)
    (pt_on_keyframe_request p) (pt_packet_user_data p) (pt_keyframe_user_data p).

Definition set_streams (p : sfu_participant_t) ss : sfu_participant_t :=
  Build_sfu_participant_t (pt_id p) (pt_active p) ss (pt_available_bandwidth p)
    (pt_last_bandwidth_update p) (pt_total_packets_sent p) (pt_total_bytes_sent p)
    (pt_total_packets_received p) (pt_total_bytes_received p) (pt_on_packet p)
    (pt_on_keyframe_request p) (pt_packet_user_data p) (pt_keyframe_user_data p).

Definition set_bandwidth (p : sfu_participant_t) b now : sfu_participant_t :=
  Build_sfu_participant_t (pt_id p) (pt_active p) (pt_streams p) b now
    (pt_total_packets_sent p) (pt_total_bytes_sent p)
    (pt_total_packets_received p) (pt_total_bytes_received p) (pt_on_packet p)
    (pt_on_keyframe_request p) (pt_packet_user_data p) (pt_keyframe_user_data p).

Definition set_on_packet (p : sfu_participant_t) fn data : sfu_participant_t :=
  Build_sfu_participant_t (pt_id p) (pt_active p) (pt_streams p) (pt_available_bandwidth p)
    (pt_last_bandwidth_update p) (pt_total_packets_sent p) (pt_total_bytes_sent p)
    (pt_total_packets_received p) (pt_total_bytes_received p) fn
    (pt_on_keyframe_request p) data (pt_keyframe_user_data p).

Definition set_on_keyframe (p : sfu_participant_t) fn data : sfu_participant_t :=
  Build_sfu_participant_t (pt_id p) (pt_active p) (pt_streams p) (pt_available_bandwidth p)
    (pt_last_bandwidth_update p) (pt_total_packets_sent p) (pt_total_bytes_sent p)
    (pt_total_packets_received p) (pt_total_bytes_received p) (pt_on_packet p)
    fn (pt_packet_user_data p) data.

Definition add_sent (p : sfu_participant_t) bytes : sfu_participant_t :=
  Build_sfu_participant_t (pt_id p) (pt_active p) (pt_streams p) (pt_available_bandwidth p)
    (pt_last_bandwidth_update p) (pt_total_packets_sent p + 1) (pt_total_bytes_sent p + bytes)
    (pt_total_packets_received p) (pt_total_bytes_received p) (pt_on_packet p)
    (pt_on_keyframe_request p) (pt_packet_user_data p) (pt_keyframe_user_data p).

Definition add_received (p : sfu_participant_t) bytes : sfu_participant_t :=
  Build_sfu_participant_t (pt_id p) (pt_active p) (pt_streams p) (pt_available_bandwidth p)
    (pt_last_bandwidth_update p) (pt_total_packets_sent p) (pt_total_bytes_sent p)
    (pt_total_packets_received p + 1) (pt_total_bytes_received p + bytes) (pt_on_packet p)
    (pt_on_keyframe_request p) (pt_packet_user_data p) (pt_keyframe_user_data p).

Definition set_layer (t : sfu_stream_t) current switch : sfu_stream_t :=
  Build_sfu_stream_t (st_ssrc t) (st_active t) (st_layer_ssrcs t) (st_layer_count t)
    current switch (st_enabled_by_receiver t) (st_max_layer_by_receiver t)
    (st_packets_received t) (st_bytes_received t) (st_packets_forwarded t)
    (st_bytes_forwarded t).

Definition set_policy (t : sfu_stream_t) enabled max : sfu_stream_t :=
  Build_sfu_stream_t (st_ssrc t) (st_active t) (st_layer_ssrcs t) (st_layer_count t)
    (st_current_layer_by_receiver t) (st_last_layer_switch_us_by_receiver t)
    enabled max (st_packets_received t) (st_bytes_received t) (st_packets_forwarded t)
    (st_bytes_forwarded t).

Definition count_stream (t : sfu_stream_t) received forwarded bytes : sfu_stream_t :=
  Build_sfu_stream_t (st_ssrc t) (st_active t) (st_layer_ssrcs t) (st_layer_count t)
    (st_current_layer_by_receiver t) (st_last_layer_switch_us_by_receiver t)
    (st_enabled_by_receiver t) (st_max_layer_by_receiver t)
    (st_packets_received t + received) (st_bytes_received t + received * bytes)
    (st_packets_forwarded t + forwarded) (st_bytes_forwarded t + forwarded * bytes).

(** Assignments through a pointer to a participant, or to one of its streams. *)
Definition with_participant (s : sfu_context_t) (i : Z)
    (f : sfu_participant_t -> res sfu_participant_t) : res sfu_context_t :=
  p ← rd (sf_participants s) i; p ← f p;
  ps ← upd (sf_participants s) i p; Ok (set_participants s ps).

Definition with_stream (s : sfu_context_t) (i j : Z)
    (f : sfu_stream_t -> res sfu_stream_t) : res sfu_context_t :=
  with_participant s i (fun p =>
    t ← rd (pt_streams p) j; t ← f t;
    ts ← upd (pt_streams p) j t; Ok (set_streams p ts)).

(* ------------------------------------------------------------------ *)
(** ** Management *)

Definition sfu_create (max_participants : Z) (mem : bool) : option sfu_context_t :=
  if mem then
    Some (Build_sfu_context_t
            (replicate (Z.to_nat SFU_MAX_PARTICIPANTS) zero_participant) 0
            (if (0 <? max_participants) && (max_participants <=? SFU_MAX_PARTICIPANTS)
             then max_participants else SFU_MAX_PARTICIPANTS)
            1 1 0 0 0 None None 0)
  else None.

(** The search of both [find_participant] and [get_participant_index]: [n]
    slots from [i] on. *)
Fixpoint find_from (n : nat) (s : sfu_context_t) (id : string) (i : Z)
    : res (option Z) :=
  match n with
  | O => Ok None
  | S n =>
    p ← rd (sf_participants s) i;
    if truth (pt_active p) && bool_decide (pt_id p = id)
    then Ok (Some i) else find_from n s id (i + 1)
  end.

Definition find_participant (s : sfu_context_t) (id : string) : res (option Z) :=
  find_from (Z.to_nat (sf_participant_count s)) s id 0.

Definition get_participant_index (sfu : option sfu_context_t) (id : option string)
    : res Z :=
  let? s := sfu else Ok (-1) in
  let? id := id else Ok (-1) in
  r ← find_from (Z.to_nat SFU_MAX_PARTICIPANTS) s id 0;
  Ok (match r with Some i => i | None => -1 end).

(** The loop that looks for the first inactive slot. *)
Fixpoint free_slot (ps : list sfu_participant_t) (i : Z) : option Z :=
  match ps with
  | [] => None
  | p :: ps => if negb (truth (pt_active p)) then Some i else free_slot ps (i + 1)
  end.

(** An operation returns the context, the application calls it makes and its
    return value. *)
Definition sfu_ret (A : Type) : Type := res (sfu_context_t * list sfu_event * A).

Definition sfu_add_participant (sfu : option sfu_context_t) (id : option string)
    : sfu_ret Z :=
  let? s := sfu else Err in
  let? id := id else Ok (s, [], -1) in
  if bool_decide (id = ""%string) then Ok (s, [], -1) else
  if 64 <=? Z.of_nat (String.length id) then Ok (s, [], -1) else
  f ← find_participant s id;
  match f with
  | Some _ => Ok (s, [], -1)
  | None =>
    if sf_max_participants s <=? sf_participant_count s then Ok (s, [], -1) else
    match free_slot (take (Z.to_nat SFU_MAX_PARTICIPANTS) (sf_participants s)) 0 with
    | None => Ok (s, [], -1)
    | Some i =>
      let p := Build_sfu_participant_t id 1 [] 2500000 0 0 0 0 0 None None 0 0 in
      ps ← upd (sf_participants s) i p;
      let s := set_count (set_participants s ps) (sf_participant_count s + 1) in
      Ok (s, match sf_on_participant_joined s with
             | Some fn => [EvJoined fn (sf_user_data s) id] | None => [] end, 0)
    end
  end.

Definition sfu_remove_participant (sfu : option sfu_context_t) (id : option string)
    : sfu_ret Z :=
  let? s := sfu else Err in
  let? id := id else Ok (s, [], -1) in
  f ← find_participant s id;
  match f with
  | None => Ok (s, [], -1)
  | Some i =>
    s ← with_participant s i (fun p => Ok (set_active p 0));
    let s := set_count s (sf_participant_count s - 1) in
    Ok (s, match sf_on_participant_left s with
           | Some fn => [EvLeft fn (sf_user_data s) id] | None => [] end, 0)
  end.

(** The setters that find a participant and assign its fields. *)
Definition on_found (sfu : option sfu_context_t) (id : option string)
    (f : sfu_participant_t -> sfu_participant_t) : res sfu_context_t :=
  let? s := sfu else Err in
  let? id := id else Ok s in
  r ← find_participant s id;
  match r with
  | None => Ok s
  | Some i => with_participant s i (fun p => Ok (f p))
  end.

Definition sfu_set_participant_bandwidth sfu id (bandwidth_bps now : Z) :=
  on_found sfu id (fun p => set_bandwidth p bandwidth_bps now).

Definition sfu_set_participant_callback sfu id (fn : option Z) (data : Z) :=
  on_found sfu id (fun p => set_on_packet p fn data).

Definition sfu_set_participant_keyframe_callback sfu id (fn : option Z) (data : Z) :=
  on_found sfu id (fun p => set_on_keyframe p fn data).

(* ------------------------------------------------------------------ *)
(** ** Streams *)

Definition fresh_stream (ssrc : Z) (layers : list Z) (layer_count : Z) : sfu_stream_t :=
  let n := Z.to_nat SFU_MAX_PARTICIPANTS in
  Build_sfu_stream_t ssrc 1 layers layer_count
    (replicate n SIMULCAST_LAYER_HIGH) (replicate n 0) (replicate n 1)
    (replicate n SIMULCAST_LAYER_HIGH) 0 0 0 0.

Definition sfu_add_stream (sfu : option sfu_context_t) (id : option string) (ssrc : Z)
    (layer_ssrcs : option (list Z)) (layer_count : Z) : res (sfu_context_t * Z) :=
  let? s := sfu else Err in
  let? id := id else Ok (s, -1) in
  f ← find_participant s id;
  match f with
  | None => Ok (s, -1)
  | Some i =>
    p ← rd (sf_participants s) i;
    if SFU_MAX_STREAMS_PER_PARTICIPANT <=? len (pt_streams p) then Ok (s, -1) else
    t ← (let single := Ok (fresh_stream ssrc [ssrc; 0; 0] 1) in
         let? layers := layer_ssrcs else single in
         if (0 <? layer_count) && (layer_count <=? 3) then
           l ← rd_slice layers 0 layer_count;
           l ← wr [0; 0; 0] 0 l;
           Ok (fresh_stream ssrc l layer_count)
         else single);
    s ← with_participant s i (fun p => Ok (set_streams p (pt_streams p ++ [t])));
    Ok (s, 0)
  end.

Definition stream_has_ssrc (t : sfu_stream_t) (ssrc : Z) : bool :=
  (st_ssrc t =? ssrc) ||
  existsb (fun l => l =? ssrc) (take (Z.to_nat (st_layer_count t)) (st_layer_ssrcs t)).

Fixpoint find_stream_by_ssrc (ts : list sfu_stream_t) (ssrc : Z) (i : Z) : option Z :=
  match ts with
  | [] => None
  | t :: ts =>
    if truth (st_active t) && stream_has_ssrc t ssrc then Some i
    else find_stream_by_ssrc ts ssrc (i + 1)
  end.

Fixpoint find_main_ssrc (ts : list sfu_stream_t) (ssrc : Z) (i : Z) : option Z :=
  match ts with
  | [] => None
  | t :: ts =>
    if negb (truth (st_active t)) || negb (st_ssrc t =? ssrc)
    then find_main_ssrc ts ssrc (i + 1) else Some i
  end.

Definition sfu_remove_stream (sfu : option sfu_context_t) (id : option string) (ssrc : Z)
    : res (sfu_context_t * Z) :=
  let? s := sfu else Err in
  let? id := id else Ok (s, -1) in
  f ← find_participant s id;
  match f with
  | None => Ok (s, -1)
  | Some i =>
    p ← rd (sf_participants s) i;
    match find_main_ssrc (pt_streams p) ssrc 0 with
    | None => Ok (s, -1)
    | Some j =>
      s ← with_participant s i (fun p =>
            Ok (set_streams p (delete (Z.to_nat j) (pt_streams p))));
      Ok (s, 0)
    end
  end.

Definition sfu_set_receiver_stream_policy (sfu : option sfu_context_t)
    (receiver_id sender_id : option string) (stream_ssrc enabled max_layer : Z)
    : res (sfu_context_t * Z) :=
  let? s := sfu else Err in
  let? rid := receiver_id else Ok (s, -1) in
  let? sid := sender_id else Ok (s, -1) in
  if (max_layer <? 0) || (2 <? max_layer) then Ok (s, -1) else
  ri ← get_participant_index (Some s) (Some rid);
  f ← find_participant s sid;
  if ri <? 0 then Ok (s, -1) else
  match f with
  | None => Ok (s, -1)
  | Some i =>
    p ← rd (sf_participants s) i;
    match find_stream_by_ssrc (pt_streams p) stream_ssrc 0 with
    | None => Ok (s, -1)
    | Some j =>
      s ← with_stream s i j (fun t =>
            e ← upd (st_enabled_by_receiver t) ri (b2i (truth enabled));
            m ← upd (st_max_layer_by_receiver t) ri max_layer;
            Ok (set_policy t e m));
      Ok (s, 0)
    end
  end.

(* ------------------------------------------------------------------ *)
(** ** Forwarding *)

Definition select_layer_for_bandwidth (bandwidth_bps : Z) : Z :=
  if 2000000 <=? bandwidth_bps then SIMULCAST_LAYER_HIGH
  else if 1000000 <=? bandwidth_bps then SIMULCAST_LAYER_MEDIUM
  else if 300000 <=? bandwidth_bps then SIMULCAST_LAYER_LOW
  else SIMULCAST_LAYER_LOW.

Definition should_switch_layer (t : sfu_stream_t) (receiver new_layer now_us : Z)
    : res bool :=
  current ← rd (st_current_layer_by_receiver t) receiver;
  last ← rd (st_last_layer_switch_us_by_receiver t) receiver;
  Ok (if new_layer =? current then false
      else if new_layer <? current then true
      else if now_us - last <? SFU_LAYER_SWITCH_HYSTERESIS_MS * 1000 then false
      else true).

Definition parse_rtp_ssrc (packet : list Z) (l : Z) : res Z :=
  if l <? 12 then Err else
  b0 ← rd packet 0;
  if negb (Z.land b0 0xC0 =? 0x80) then Err else
  b8 ← rd packet 8; b9 ← rd packet 9; b10 ← rd packet 10; b11 ← rd packet 11;
  Ok (Z.lor (Z.lor (Z.lor (u32 (Z.shiftl b8 24)) (u32 (Z.shiftl b9 16)))
                   (u32 (Z.shiftl b10 8))) b11).

(** The layer the receiver [r] in slot [i] should get. *)
Definition target_layer (s : sfu_context_t) (t : sfu_stream_t)
    (r : sfu_participant_t) (i : Z) : res Z :=
  let target :=
    if truth (sf_enable_bandwidth_adaptation s) && (1 <? st_layer_count t)
    then select_layer_for_bandwidth (pt_available_bandwidth r)
    else SIMULCAST_LAYER_HIGH in
  m ← rd (st_max_layer_by_receiver t) i;
  let highest := st_layer_count t - 1 in
  let m := if highest <? m then highest else m in
  Ok (if m <? target then m else target).

(** The choice of the layer for slot [i], with the keyframe request: [a] and
    [b] are the sender's slot and the stream's position there. *)
Definition sfu_switch_layer (s : sfu_context_t) (a b : Z) (sender : sfu_participant_t)
    (t : sfu_stream_t) (receiver : sfu_participant_t) (now_us i : Z)
    : res (sfu_context_t * list sfu_event) :=
  if 1 <? st_layer_count t then
    target ← target_layer s t receiver i;
    switch ← should_switch_layer t i target now_us;
    if (switch : bool) then
      s ← with_stream s a b (fun t =>
            c ← upd (st_current_layer_by_receiver t) i target;
            w ← upd (st_last_layer_switch_us_by_receiver t) i now_us;
            Ok (set_layer t c w));
      ev ← (let? kf := pt_on_keyframe_request sender else Ok [] in
            k ← rd (st_layer_ssrcs t) target;
            Ok [EvKeyframe kf (pt_keyframe_user_data sender) k]);
      Ok (add_totals s 0 0 1, ev)
    else Ok (s, [])
  else Ok (s, []).

(** Whether the packet is from the layer now selected for slot [i]. *)
Definition sfu_should_forward (s : sfu_context_t) (a b ssrc i : Z) : res bool :=
  sender ← rd (sf_participants s) a;
  t ← rd (pt_streams sender) b;
  if st_layer_count t =? 1 then Ok true else
  c ← rd (st_current_layer_by_receiver t) i;
  k ← rd (st_layer_ssrcs t) c;
  Ok (ssrc =? k).

(** The statistics of a delivery to slot [i]. *)
Definition sfu_count_delivery (s : sfu_context_t) (a b i l : Z) : res sfu_context_t :=
  s ← with_participant s i (fun p => Ok (add_sent p l));
  with_stream s a b (fun t => Ok (count_stream t 0 1 l)).

(** The statistics of a packet received from the sender. *)
Definition sfu_count_packet (s : sfu_context_t) (a b l : Z) : res sfu_context_t :=
  s ← with_participant s a (fun p => Ok (add_received p l));
  with_stream s a b (fun t => Ok (count_stream t 1 0 l)).

(** One turn of the loop of [sfu_forward_packet], for slot [i]. *)
Definition sfu_forward_one (s : sfu_context_t) (a b ssrc : Z) (packet : list Z)
    (l now_us i : Z) : res (sfu_context_t * list sfu_event * Z) :=
  receiver ← rd (sf_participants s) i;
  let? fn := pt_on_packet receiver else Ok (s, [], 0) in
  if negb (truth (pt_active receiver)) || (i =? a) then Ok (s, [], 0) else
  sender ← rd (sf_participants s) a;
  t ← rd (pt_streams sender) b;
  enabled ← rd (st_enabled_by_receiver t) i;
  if negb (truth enabled) then Ok (s, [], 0) else
  sw ← sfu_switch_layer s a b sender t receiver now_us i;
  let '(s, ev) := sw : sfu_context_t * list sfu_event in
  forward ← sfu_should_forward s a b ssrc i;
  if (forward : bool) then
    s ← sfu_count_delivery s a b i l;
    Ok (s, ev ++ [EvPacket fn (pt_packet_user_data receiver) packet], 1)
  else Ok (s, ev, 0).

(** The loop, [n] slots from [i] on. *)
Fixpoint sfu_forward_loop (n : nat) (s : sfu_context_t) (a b ssrc : Z)
    (packet : list Z) (l now_us i : Z) : res (sfu_context_t * list sfu_event * Z) :=
  match n with
  | O => Ok (s, [], 0)
  | S n =>
    r ← sfu_forward_one s a b ssrc packet l now_us i;
    let '(s, ev, k) := r : sfu_context_t * list sfu_event * Z in
    q ← sfu_forward_loop n s a b ssrc packet l now_us (i + 1);
    let '(s, ev', k') := q : sfu_context_t * list sfu_event * Z in
    Ok (s, ev ++ ev', k + k')
  end.

Definition sfu_forward_packet (sfu : option sfu_context_t) (sender_id : option string)
    (packet : option (list Z)) (l now_us : Z) : sfu_ret Z :=
  let? s := sfu else Err in
  let? sid := sender_id else Ok (s, [], -1) in
  let? packet := packet else Ok (s, [], -1) in
  if l <? 12 then Ok (s, [], -1) else
  f ← find_participant s sid;
  match f with
  | None => Ok (s, [], -1)
  | Some a =>
    match parse_rtp_ssrc packet l with
    | Fault => Fault
    | Err => Ok (s, [], -1)
    | Ok ssrc =>
      sender ← rd (sf_participants s) a;
      match find_stream_by_ssrc (pt_streams sender) ssrc 0 with
      | None => Ok (s, [], -1)
      | Some b =>
        s ← sfu_count_packet s a b l;
        data ← rd_slice packet 0 l;
        r ← sfu_forward_loop (Z.to_nat SFU_MAX_PARTICIPANTS) s a b ssrc data l now_us 0;
        let '(s, ev, k) := r : sfu_context_t * list sfu_event * Z in
        Ok (add_totals s 1 l 0, ev, k)
      end
    end
  end.

Definition sfu_forward_nack (sfu : option sfu_context_t)
    (receiver_id sender_id : option string) (seq_nums : option (list Z)) (count : Z)
    (rtcp_buf : list Z) : sfu_ret Z :=
  let? s := sfu else Err in
  let? rid := receiver_id else Ok (s, [], -1) in
  let? sid := sender_id else Ok (s, [], -1) in
  let? seqs := seq_nums else Ok (s, [], -1) in
  if count =? 0 then Ok (s, [], -1) else
  fr ← find_participant s rid;
  fs ← find_participant s sid;
  let? ri := fr else Ok (s, [], -1) in
  let? si := fs else Ok (s, [], -1) in
  receiver ← rd (sf_participants s) ri;
  sender ← rd (sf_participants s) si;
  let? fn := pt_on_packet sender else Ok (s, [], -1) in
  let receiver_ssrc := match pt_streams receiver with [] => 0 | t :: _ => st_ssrc t end in
  match nack_build_rtcp receiver_ssrc 0 (Some seqs) count (Some rtcp_buf)
          (Some RTP_MAX_PACKET) with
  | Fault => Fault
  | Err => Ok (s, [], -1)
  | Ok (buf, n) =>
    packet ← rd_slice buf 0 n;
    Ok (s, [EvPacket fn (pt_packet_user_data sender) packet], 0)
  end.

Definition sfu_request_keyframe (sfu : option sfu_context_t) (id : option string)
    (ssrc : Z) : sfu_ret Z :=
  let? s := sfu else Err in
  let? id := id else Ok (s, [], -1) in
  f ← find_participant s id;
  let? i := f else Ok (s, [], -1) in
  p ← rd (sf_participants s) i;
  let? fn := pt_on_keyframe_request p else Ok (s, [], -1) in
  Ok (s, [EvKeyframe fn (pt_keyframe_user_data p) ssrc], 0).

(* ------------------------------------------------------------------ *)
(** ** Statistics and configuration *)

Record sfu_stats_t := {
  ss_participant_count : Z; ss_total_packets_routed : Z;
  ss_total_bytes_routed : Z; ss_total_layer_switches : Z }.

Record sfu_participant_stats_t := {
  ps_participant_id : string; ps_stream_count : Z; ps_available_bandwidth : Z;
  ps_packets_sent : Z; ps_bytes_sent : Z; ps_packets_received : Z; ps_bytes_received : Z }.

Definition sfu_get_stats (sfu : option sfu_context_t) (stats : option unit)
    : option sfu_stats_t :=
  let? s := sfu else None in
  let? _ := stats else None in
  Some (Build_sfu_stats_t (sf_participant_count s) (sf_total_packets_routed s)
          (sf_total_bytes_routed s) (sf_total_layer_switches s)).

Definition sfu_get_participant_stats (sfu : option sfu_context_t) (id : option string)
    (stats : option unit) : res (option sfu_participant_stats_t) :=
  let? s := sfu else Ok None in
  let? id := id else Ok None in
  let? _ := stats else Ok None in
  f ← find_participant s id;
  let? i := f else Ok None in
  p ← rd (sf_participants s) i;
  Ok (Some (Build_sfu_participant_stats_t (pt_id p) (len (pt_streams p))
              (pt_available_bandwidth p) (pt_total_packets_sent p) (pt_total_bytes_sent p)
              (pt_total_packets_received p) (pt_total_bytes_received p))).

Definition sfu_get_participant_count (sfu : option sfu_context_t) : Z :=
  let? s := sfu else 0 in sf_participant_count s.

(** The identifiers stored, [room] being [max_count - count]. *)
Fixpoint list_loop (ps : list sfu_participant_t) (room : Z) : list string :=
  match ps with
  | [] => []
  | p :: ps =>
    if 0 <? room then
      if truth (pt_active p) then pt_id p :: list_loop ps (room - 1) else list_loop ps room
    else []
  end.

Definition sfu_get_participant_list (sfu : option sfu_context_t) (ids : option unit)
    (max_count : Z) : list string :=
  let? s := sfu else [] in
  let? _ := ids else [] in
  if max_count =? 0 then [] else
  list_loop (take (Z.to_nat SFU_MAX_PARTICIPANTS) (sf_participants s)) max_count.

Definition sfu_set_simulcast_enabled (sfu : option sfu_context_t) (enabled : Z)
    : option sfu_context_t :=
  let? s := sfu else None in Some (set_flags s enabled (sf_enable_bandwidth_adaptation s)).

Definition sfu_set_bandwidth_adaptation_enabled (sfu : option sfu_context_t) (enabled : Z)
    : option sfu_context_t :=
  let? s := sfu else None in Some (set_flags s (sf_enable_simulcast s) enabled).

Definition sfu_set_callbacks (sfu : option sfu_context_t) (on_joined on_left : option Z)
    (user_data : Z) : option sfu_context_t :=
  let? s := sfu else None in
  Some (Build_sfu_context_t (sf_participants s) (sf_participant_count s)
    (sf_max_participants s) (sf_enable_simulcast s) (sf_enable_bandwidth_adaptation s)
    (sf_total_packets_routed s) (sf_total_bytes_routed s) (sf_total_layer_switches s)
    on_joined on_left user_data).

(* ------------------------------------------------------------------ *)
(** ** Specification *)

(** The calls of the enclosing application. *)
Inductive sfu_op :=
  | AddParticipant (id : string)
  | RemoveParticipant (id : string)
  | SetBandwidth (id : string) (bps now : Z)
  | SetCallback (id : string) (fn : option Z) (data : Z)
  | SetKeyframeCallback (id : string) (fn : option Z) (data : Z)
  | SetPolicy (receiver sender : string) (ssrc enabled max_layer : Z)
  | AddStream (id : string) (ssrc : Z) (layers : option (list Z)) (count : Z)
  | RemoveStream (id : string) (ssrc : Z)
  | ForwardPacket (sender : string) (packet : list Z) (l now : Z)
  | SetFlags (simulcast adaptation : Z)
  | SetCallbacks (on_joined on_left : option Z) (data : Z).

Definition context_of {A} (r : sfu_ret A) : res sfu_context_t :=
  r ← r; Ok r.1.1.

Definition sfu_step (s : sfu_context_t) (o : sfu_op) : res sfu_context_t :=
  match o with
  | AddParticipant id => context_of (sfu_add_participant (Some s) (Some id))
  | RemoveParticipant id => context_of (sfu_remove_participant (Some s) (Some id))
  | SetBandwidth id bps now => sfu_set_participant_bandwidth (Some s) (Some id) bps now
  | SetCallback id fn data => sfu_set_participant_callback (Some s) (Some id) fn data
  | SetKeyframeCallback id fn data =>
      sfu_set_participant_keyframe_callback (Some s) (Some id) fn data
  | SetPolicy r t ssrc enabled max =>
      o ← sfu_set_receiver_stream_policy (Some s) (Some r) (Some t) ssrc enabled max; Ok o.1
  | AddStream id ssrc layers count =>
      o ← sfu_add_stream (Some s) (Some id) ssrc layers count; Ok o.1
  | RemoveStream id ssrc => o ← sfu_remove_stream (Some s) (Some id) ssrc; Ok o.1
  | ForwardPacket id packet l now =>
      context_of (sfu_forward_packet (Some s) (Some id) (Some packet) l now)
  | SetFlags simulcast adaptation =>
      match sfu_set_simulcast_enabled (Some s) simulcast with
      | Some s => match sfu_set_bandwidth_adaptation_enabled (Some s) adaptation with
                  | Some s => Ok s | None => Err end
      | None => Err end
  | SetCallbacks on_joined on_left data =>
      match sfu_set_callbacks (Some s) on_joined on_left data with Some s => Ok s | None => Err end
  end.

Definition sfu_run (s : sfu_context_t) (l : list sfu_op) : res sfu_context_t :=
  foldl (fun m o => s ← m; sfu_step s o) (Ok s) l.

(** What the caller provides: arrays as long as announced. *)
Definition sfu_op_ok (o : sfu_op) : Prop :=
  match o with
  | AddStream _ _ (Some layers) count => count <= 3 -> count <= len layers
  | ForwardPacket _ packet l _ => l <= len packet
  | _ => True
  end.

Definition is_layer (l : Z) : Prop := 0 <= l <= 2.

Record stream_wf (t : sfu_stream_t) : Prop := {
  swf_ssrcs : len (st_layer_ssrcs t) = 3;
  swf_count : 1 <= st_layer_count t <= 3;
  swf_current_len : len (st_current_layer_by_receiver t) = SFU_MAX_PARTICIPANTS;
  swf_current : Forall is_layer (st_current_layer_by_receiver t);
  swf_switch_len : len (st_last_layer_switch_us_by_receiver t) = SFU_MAX_PARTICIPANTS;
  swf_enabled_len : len (st_enabled_by_receiver t) = SFU_MAX_PARTICIPANTS;
  swf_max_len : len (st_max_layer_by_receiver t) = SFU_MAX_PARTICIPANTS;
  swf_max : Forall is_layer (st_max_layer_by_receiver t) }.

Record participant_wf (p : sfu_participant_t) : Prop := {
  pwf_streams : Forall stream_wf (pt_streams p);
  pwf_count : len (pt_streams p) <= SFU_MAX_STREAMS_PER_PARTICIPANT }.

Definition active_count (ps : list sfu_participant_t) : Z :=
  len (base.filter (fun p => truth (pt_active p)) ps).

Record sfu_wf (s : sfu_context_t) : Prop := {
  fwf_slots : len (sf_participants s) = SFU_MAX_PARTICIPANTS;
  fwf_participants : Forall participant_wf (sf_participants s);
  fwf_count : sf_participant_count s = active_count (sf_participants s);
  fwf_max : sf_participant_count s <= sf_max_participants s <= SFU_MAX_PARTICIPANTS }.

(* ------------------------------------------------------------------ *)
(** ** Searches and assignments *)

Lemma find_from_spec s id n i :
  0 <= i -> i + Z.of_nat n <= len (sf_participants s) ->
  exists r, find_from n s id i = Ok r /\
    match r with
    | Some j => i <= j < i + Z.of_nat n /\
        exists p, rd (sf_participants s) j = Ok p /\ truth (pt_active p) = true /\ pt_id p = id
    | None => forall j p, i <= j < i + Z.of_nat n -> rd (sf_participants s) j = Ok p ->
        truth (pt_active p) = true -> pt_id p <> id
    end.
Proof.
  revert i. induction n as [|n IH]; intros i Hi Hn; cbn [find_from].
  { exists None. split; [done|]. lia. }
  destruct (rd_in_range (sf_participants s) i) as [p Hp]; [lia|].
  rewrite Hp. cbn [mbind res_bind].
  destruct (truth (pt_active p) && bool_decide (pt_id p = id)) eqn:E.
  - apply andb_true_iff in E as [Ea Ei%bool_decide_eq_true].
    exists (Some i). split; [done|]. split; [lia|]. eauto.
  - destruct (IH (i + 1)) as (r & -> & Hr); [lia|lia|]. exists r. split; [done|].
    destruct r as [j|].
    + destruct Hr as [? ?]. split; [lia|done].
    + intros j q Hj Hq Ha Hid. destruct (decide (j = i)) as [->|].
      * rewrite Hp in Hq. injection Hq as <-. subst id.
        rewrite Ha, bool_decide_true in E by done. done.
      * apply (Hr j q); [lia|done..].
Qed.

Lemma active_count_range ps : 0 <= active_count ps <= len ps.
Proof.
  unfold active_count. split; [apply len_nonneg|].
  unfold len. pose proof (length_filter (fun p => truth (pt_active p)) ps). lia.
Qed.

Lemma active_count_cons p ps :
  active_count (p :: ps) = b2i (truth (pt_active p)) + active_count ps.
Proof.
  unfold active_count. rewrite filter_cons.
  destruct (truth (pt_active p)); [rewrite decide_True by done; by rewrite len_cons|].
  by rewrite decide_False by (intros []).
Qed.

(** Replacing a slot changes the count by the difference. *)
Lemma active_count_insert ps i p q :
  ps !! i = Some p ->
  active_count (<[i:=q]> ps) =
  active_count ps - b2i (truth (pt_active p)) + b2i (truth (pt_active q)).
Proof.
  revert i. induction ps as [|x ps IH]; intros [|i] Hi; try done; cbn [list_insert].
  - injection Hi as ->. change (<[0%nat:=q]> (p :: ps)) with (q :: ps).
    rewrite !active_count_cons. lia.
  - change (<[S i:=q]> (x :: ps)) with (x :: <[i:=q]> ps).
    rewrite !active_count_cons, (IH i) by done. lia.
Qed.

Lemma find_participant_spec s id :
  sfu_wf s -> exists r, find_participant s id = Ok r /\
    match r with
    | Some j => 0 <= j < sf_participant_count s /\
        exists p, rd (sf_participants s) j = Ok p /\ truth (pt_active p) = true /\ pt_id p = id
    | None => forall j p, 0 <= j < sf_participant_count s ->
        rd (sf_participants s) j = Ok p -> truth (pt_active p) = true -> pt_id p <> id
    end.
Proof.
  intros [Hl _ Hc _]. pose proof (active_count_range (sf_participants s)).
  destruct (find_from_spec s id (Z.to_nat (sf_participant_count s)) 0) as (r & E & Hr);
    [lia|lia|]. exists r. split; [done|].
  replace (0 + Z.of_nat (Z.to_nat (sf_participant_count s))) with (sf_participant_count s)
    in Hr by lia. done.
Qed.

Lemma get_index_spec s id :
  sfu_wf s -> exists r, get_participant_index (Some s) (Some id) = Ok r /\
    (r = -1 \/ 0 <= r < SFU_MAX_PARTICIPANTS).
Proof.
  intros [Hl _ _ _]. unfold get_participant_index.
  destruct (find_from_spec s id (Z.to_nat SFU_MAX_PARTICIPANTS) 0) as (r & -> & Hr);
    [lia|rewrite Hl; done|]. cbn [mbind res_bind]. eexists. split; [done|].
  destruct r as [j|]; [right|by left].
  destruct Hr as [Hr _]. unfold SFU_MAX_PARTICIPANTS in *. lia.
Qed.

(** An assignment through a pointer that keeps the activity flag and the
    streams' shape keeps the table well formed. *)
Lemma with_participant_wf s i f :
  sfu_wf s -> 0 <= i < SFU_MAX_PARTICIPANTS ->
  (forall p, rd (sf_participants s) i = Ok p -> participant_wf p ->
    exists q, f p = Ok q /\ participant_wf q /\ pt_active q = pt_active p) ->
  exists p q, rd (sf_participants s) i = Ok p /\ f p = Ok q /\
    with_participant s i f =
      Ok (set_participants s (<[Z.to_nat i := q]> (sf_participants s))) /\
    sfu_wf (set_participants s (<[Z.to_nat i := q]> (sf_participants s))).
Proof.
  intros [Hl Hp Hc Hm] Hi Hf.
  destruct (rd_in_range (sf_participants s) i) as [p Hr]; [lia|].
  pose proof Hr as [_ Hk]%rd_lookup.
  destruct (Hf p Hr) as (q & Hq & Hwq & Ha); [by apply (Forall_lookup_1 _ _ _ _ Hp Hk)|].
  exists p, q. split; [done|]. split; [done|]. unfold with_participant.
  rewrite Hr. cbn [mbind res_bind]. rewrite Hq. cbn [mbind res_bind].
  rewrite upd_Ok by lia. split; [done|]. constructor; cbn.
  - by rewrite len_insert.
  - by apply Forall_insert.
  - rewrite (active_count_insert _ _ _ _ Hk), Ha. lia.
  - done.
Qed.

(** What an assignment to a stream may not change. *)
Record same_stream (t t' : sfu_stream_t) : Prop := {
  same_ssrcs : st_layer_ssrcs t' = st_layer_ssrcs t;
  same_count : st_layer_count t' = st_layer_count t;
  same_enabled : st_enabled_by_receiver t' = st_enabled_by_receiver t;
  same_max : st_max_layer_by_receiver t' = st_max_layer_by_receiver t }.

Lemma with_stream_wf s i j f p t t' :
  sfu_wf s -> rd (sf_participants s) i = Ok p -> rd (pt_streams p) j = Ok t ->
  f t = Ok t' -> stream_wf t' ->
  let q := set_streams p (<[Z.to_nat j := t']> (pt_streams p)) in
  let s' := set_participants s (<[Z.to_nat i := q]> (sf_participants s)) in
  with_stream s i j f = Ok s' /\ sfu_wf s'.
Proof.
  intros Hwf Hp Ht Hf Ht' q s'. unfold with_stream.
  pose proof (rd_bounds _ _ _ Hp) as Hi. rewrite (fwf_slots s Hwf) in Hi.
  destruct (with_participant_wf s i (fun p =>
      t ← rd (pt_streams p) j; t ← f t;
      ts ← upd (pt_streams p) j t; Ok (set_streams p ts))) as (p1 & q1 & H1 & H2 & H3 & H4);
    [done|done| |].
  - intros p1 H1 [Hs Hc]. rewrite Hp in H1. injection H1 as <-. rewrite Ht.
    cbn [mbind res_bind]. rewrite Hf. cbn [mbind res_bind].
    rewrite upd_Ok by (by apply rd_bounds in Ht). cbn [mbind res_bind].
    eexists. split; [done|]. split; [|done]. constructor; cbn; [by apply Forall_insert|].
    by rewrite len_insert.
  - rewrite Hp in H1. injection H1 as <-. rewrite Ht in H2. cbn [mbind res_bind] in H2.
    rewrite Hf in H2. cbn [mbind res_bind] in H2.
    rewrite upd_Ok in H2 by (by apply rd_bounds in Ht). injection H2 as <-.
    by split.
Qed.

Lemma sfu_wf_stream s i p j t :
  sfu_wf s -> rd (sf_participants s) i = Ok p -> rd (pt_streams p) j = Ok t -> stream_wf t.
Proof.
  intros Hwf [_ Hp]%rd_lookup [_ Ht]%rd_lookup.
  pose proof (Forall_lookup_1 _ _ _ _ (fwf_participants s Hwf) Hp) as [Hs _].
  by apply (Forall_lookup_1 _ _ _ _ Hs Ht).
Qed.

(* ------------------------------------------------------------------ *)
(** ** The decision for one receiver *)

(** [a[i]] of an array that has the index. *)
Definition nth0 (a : list Z) (i : Z) : Z := match rd a i with Ok x => x | _ => 0 end.

Lemma rd_nth0 (a : list Z) i : 0 <= i < len a -> rd a i = Ok (nth0 a i).
Proof. intros [x Hx]%rd_in_range. unfold nth0. by rewrite Hx. Qed.

(** Whether slot [j] may receive the stream sent from slot [a]. *)
Definition eligible (a : Z) (t : sfu_stream_t) (j : Z) (r : sfu_participant_t) : bool :=
  truth (pt_active r) && negb (j =? a) && bool_decide (is_Some (pt_on_packet r))
  && truth (nth0 (st_enabled_by_receiver t) j).

(** The highest layer its bandwidth, its policy and the stream allow. *)
Definition best_layer (adaptation : Z) (t : sfu_stream_t) (j : Z) (r : sfu_participant_t) : Z :=
  Z.min (if truth adaptation then select_layer_for_bandwidth (pt_available_bandwidth r)
         else SIMULCAST_LAYER_HIGH)
        (Z.min (nth0 (st_max_layer_by_receiver t) j) (st_layer_count t - 1)).

(** Down at once, up two seconds after the last switch. *)
Definition next_layer (adaptation now : Z) (t : sfu_stream_t) (j : Z)
    (r : sfu_participant_t) : Z :=
  let current := nth0 (st_current_layer_by_receiver t) j in
  let best := best_layer adaptation t j r in
  if (1 <? st_layer_count t) &&
     ((best <? current) ||
      (current <? best) &&
      (2000000 <=? now - nth0 (st_last_layer_switch_us_by_receiver t) j))
  then best else current.

Definition receives (adaptation now a ssrc : Z) (t : sfu_stream_t) (j : Z)
    (r : sfu_participant_t) : bool :=
  eligible a t j r &&
  ((st_layer_count t =? 1) ||
   (ssrc =? nth0 (st_layer_ssrcs t) (next_layer adaptation now t j r))).

Definition switches (adaptation now a : Z) (t : sfu_stream_t) (j : Z)
    (r : sfu_participant_t) : bool :=
  eligible a t j r &&
  negb (next_layer adaptation now t j r =? nth0 (st_current_layer_by_receiver t) j).

Definition slot_events (sender : sfu_participant_t) (packet : list Z)
    (adaptation now a ssrc : Z) (t : sfu_stream_t) (j : Z) (r : sfu_participant_t)
    : list sfu_event :=
  (if switches adaptation now a t j r then
     match pt_on_keyframe_request sender with
     | Some kf => [EvKeyframe kf (pt_keyframe_user_data sender)
                     (nth0 (st_layer_ssrcs t) (next_layer adaptation now t j r))]
     | None => []
     end
   else []) ++
  (if receives adaptation now a ssrc t j r then
     match pt_on_packet r with
     | Some fn => [EvPacket fn (pt_packet_user_data r) packet]
     | None => []
     end
   else []).

Lemma select_layer_range b : is_layer (select_layer_for_bandwidth b).
Proof.
  unfold select_layer_for_bandwidth, is_layer, SIMULCAST_LAYER_HIGH,
    SIMULCAST_LAYER_MEDIUM, SIMULCAST_LAYER_LOW. repeat case_match; lia.
Qed.

Lemma best_layer_range s t j r :
  stream_wf t -> 0 <= j < SFU_MAX_PARTICIPANTS -> is_layer (best_layer s t j r).
Proof.
  intros Ht Hj. unfold best_layer.
  assert (Hm : is_layer (nth0 (st_max_layer_by_receiver t) j)).
  { pose proof (swf_max_len t Ht). destruct (rd_in_range (st_max_layer_by_receiver t) j)
      as [m Hm]; [lia|]. unfold nth0. rewrite Hm. apply rd_lookup in Hm as [_ Hm].
    apply (Forall_lookup_1 _ _ _ _ (swf_max t Ht) Hm). }
  pose proof (swf_count t Ht). pose proof (select_layer_range (pt_available_bandwidth r)).
  unfold is_layer, SIMULCAST_LAYER_HIGH in *. destruct (truth s); lia.
Qed.

Lemma current_layer_range t j :
  stream_wf t -> 0 <= j < SFU_MAX_PARTICIPANTS ->
  is_layer (nth0 (st_current_layer_by_receiver t) j).
Proof.
  intros Ht Hj. pose proof (swf_current_len t Ht).
  destruct (rd_in_range (st_current_layer_by_receiver t) j) as [m Hm]; [lia|].
  unfold nth0. rewrite Hm. apply rd_lookup in Hm as [_ Hm].
  apply (Forall_lookup_1 _ _ _ _ (swf_current t Ht) Hm).
Qed.

Lemma target_layer_spec s t r j :
  stream_wf t -> 0 <= j < SFU_MAX_PARTICIPANTS -> 1 < st_layer_count t ->
  target_layer s t r j = Ok (best_layer (sf_enable_bandwidth_adaptation s) t j r).
Proof.
  intros Ht Hj Hc. unfold target_layer, best_layer.
  rewrite rd_nth0 by (rewrite (swf_max_len t Ht); done). cbn [mbind res_bind].
  replace (1 <? st_layer_count t) with true by lia. rewrite andb_true_r. f_equal.
  set (bw := if truth _ then _ else _). set (m := nth0 _ _). set (n := st_layer_count t - 1).
  destruct (Z.ltb_spec n m) as [|];
    match goal with |- context [?x <? bw] => destruct (Z.ltb_spec x bw) end; lia.
Qed.

Lemma should_switch_spec t j best now :
  stream_wf t -> 0 <= j < SFU_MAX_PARTICIPANTS ->
  should_switch_layer t j best now =
  let current := nth0 (st_current_layer_by_receiver t) j in
  Ok ((best <? current) || (current <? best) &&
      (2000000 <=? now - nth0 (st_last_layer_switch_us_by_receiver t) j)).
Proof.
  intros Ht Hj. unfold should_switch_layer.
  rewrite (rd_nth0 (st_current_layer_by_receiver t))
    by (rewrite (swf_current_len t Ht); done). cbn [mbind res_bind].
  rewrite (rd_nth0 (st_last_layer_switch_us_by_receiver t))
    by (rewrite (swf_switch_len t Ht); done). cbn [mbind res_bind].
  change (SFU_LAYER_SWITCH_HYSTERESIS_MS * 1000) with 2000000. cbv zeta. f_equal.
  set (c := nth0 _ _). set (d := now - _).
  destruct (Z.eqb_spec best c), (Z.ltb_spec best c), (Z.ltb_spec c best),
    (Z.ltb_spec d 2000000), (Z.leb_spec 2000000 d); try lia; reflexivity.
Qed.

Lemma nth0_insert (l : list Z) i j x :
  0 <= i < len l -> nth0 (<[Z.to_nat i := x]> l) j = if decide (i = j) then x else nth0 l j.
Proof.
  intros Hi. unfold nth0. rewrite (rd_upd l _ i j x) by (by apply upd_Ok).
  by destruct (decide (i = j)).
Qed.

(** The stream [b] of slot [a] in the table. *)
Record stream_at (s : sfu_context_t) (a b : Z) (q : sfu_participant_t) (t : sfu_stream_t)
    : Prop := {
  at_wf : sfu_wf s;
  at_participant : rd (sf_participants s) a = Ok q;
  at_stream : rd (pt_streams q) b = Ok t }.

(** From [s] to [s'] the sender's stream may change; the others of slots [j]
    with [j] in [P] do not. *)
Record evolves (s : sfu_context_t) (a : Z) (q : sfu_participant_t) (t : sfu_stream_t)
    (s' : sfu_context_t) (q' : sfu_participant_t) (t' : sfu_stream_t) (P : Z -> Prop)
    : Prop := {
  ev_adaptation : sf_enable_bandwidth_adaptation s' = sf_enable_bandwidth_adaptation s;
  ev_keyframe : pt_on_keyframe_request q' = pt_on_keyframe_request q;
  ev_data : pt_keyframe_user_data q' = pt_keyframe_user_data q;
  ev_stream : same_stream t t';
  ev_slots : forall j, P j -> j <> a -> rd (sf_participants s') j = rd (sf_participants s) j }.

Lemma rd_set_slot (ps : list sfu_participant_t) i j q :
  0 <= i < len ps -> rd (<[Z.to_nat i := q]> ps) j = if decide (i = j) then Ok q else rd ps j.
Proof. intros Hi. apply (rd_upd ps _ i j q). by apply upd_Ok. Qed.

Lemma sfu_wf_totals s x y z : sfu_wf s -> sfu_wf (add_totals s x y z).
Proof. by intros []. Qed.

(** Assigning the stream [b] of slot [a]. *)
Lemma with_stream_at s a b q t f t' :
  stream_at s a b q t -> f t = Ok t' -> stream_wf t' -> same_stream t t' ->
  exists s' q', with_stream s a b f = Ok s' /\ stream_at s' a b q' t' /\
    evolves s a q t s' q' t' (fun _ => True) /\
    sf_total_layer_switches s' = sf_total_layer_switches s.
Proof.
  intros [Hwf Hq Ht] Hf Hwt Hs.
  destruct (with_stream_wf s a b f q t t') as [E Hwf']; [done..|].
  do 2 eexists. split; [exact E|].
  assert (Ha : 0 <= a < len (sf_participants s)) by (by apply rd_bounds in Hq).
  split; [|split; [|done]].
  - split; [done| |]; cbn [set_participants sf_participants].
    + rewrite rd_set_slot by done. by rewrite decide_True.
    + cbn [set_streams pt_streams].
      rewrite (rd_upd (pt_streams q) _ b b t') by (apply upd_Ok; by apply rd_bounds in Ht).
      by rewrite decide_True.
  - split; try done. intros j _ Hj. cbn [set_participants sf_participants].
    rewrite rd_set_slot by done. by rewrite decide_False by done.
Qed.

(** The outcome of the choice of layer [next] for slot [i]. *)
Definition switch_result (s : sfu_context_t) (a b : Z) (q : sfu_participant_t)
    (t : sfu_stream_t) (now i next : Z) (m : res (sfu_context_t * list sfu_event)) : Prop :=
  let current := nth0 (st_current_layer_by_receiver t) i in
  exists s' q' t',
    m = Ok (s', if negb (next =? current) then
                  match pt_on_keyframe_request q with
                  | Some kf => [EvKeyframe kf (pt_keyframe_user_data q)
                                  (nth0 (st_layer_ssrcs t) next)]
                  | None => [] end
                else []) /\
    stream_at s' a b q' t' /\ evolves s a q t s' q' t' (fun _ => True) /\
    forall j,
      nth0 (st_current_layer_by_receiver t') j =
        (if decide (i = j) then next else nth0 (st_current_layer_by_receiver t) j) /\
      nth0 (st_last_layer_switch_us_by_receiver t') j =
        (if decide (i = j) then
           if negb (next =? current) then now
           else nth0 (st_last_layer_switch_us_by_receiver t) j
         else nth0 (st_last_layer_switch_us_by_receiver t) j).

Lemma switch_result_same s a b q t now i :
  stream_at s a b q t ->
  switch_result s a b q t now i (nth0 (st_current_layer_by_receiver t) i) (Ok (s, [])).
Proof.
  intros Hat. exists s, q, t. rewrite Z.eqb_refl. split; [done|]. split; [done|].
  split; [done|]. intros j. by destruct (decide (i = j)) as [<-|].
Qed.

Lemma switch_result_assign s a b q t now i best :
  stream_at s a b q t -> 0 <= i < SFU_MAX_PARTICIPANTS -> is_layer best ->
  best <> nth0 (st_current_layer_by_receiver t) i ->
  switch_result s a b q t now i best
    (s ← with_stream s a b (fun t =>
            c ← upd (st_current_layer_by_receiver t) i best;
            w ← upd (st_last_layer_switch_us_by_receiver t) i now;
            Ok (set_layer t c w));
     ev ← (let? kf := pt_on_keyframe_request q else Ok [] in
           k ← rd (st_layer_ssrcs t) best;
           Ok [EvKeyframe kf (pt_keyframe_user_data q) k]);
     Ok (add_totals s 0 0 1, ev)).
Proof.
  intros Hat Hi Hbest Hne.
  pose proof (sfu_wf_stream _ _ _ _ _ (at_wf _ _ _ _ _ Hat)
    (at_participant _ _ _ _ _ Hat) (at_stream _ _ _ _ _ Hat)) as Hwt.
  destruct (with_stream_at s a b q t (fun t =>
      c ← upd (st_current_layer_by_receiver t) i best;
      w ← upd (st_last_layer_switch_us_by_receiver t) i now; Ok (set_layer t c w))
      (set_layer t (<[Z.to_nat i := best]> (st_current_layer_by_receiver t))
         (<[Z.to_nat i := now]> (st_last_layer_switch_us_by_receiver t))))
    as (s' & q' & E & Hat' & Hev & _); [done| | |done|].
  { rewrite !upd_Ok by (rewrite ?(swf_current_len t Hwt), ?(swf_switch_len t Hwt); done).
    done. }
  { destruct Hwt. constructor; cbn; rewrite ?len_insert; try done. by apply Forall_insert. }
  rewrite E. cbn [mbind res_bind]. exists (add_totals s' 0 0 1), q'. eexists.
  apply Z.eqb_neq in Hne. rewrite Hne. cbn [negb].
  split; [|split; [|split]].
  - destruct (pt_on_keyframe_request q); [|done].
    rewrite rd_nth0 by (rewrite (swf_ssrcs t Hwt); unfold is_layer in Hbest; lia). done.
  - destruct Hat'. split; [by apply sfu_wf_totals|done..].
  - destruct Hev. by split.
  - intros j. cbn. rewrite !nth0_insert
      by (rewrite ?(swf_current_len t Hwt), ?(swf_switch_len t Hwt); done). done.
Qed.

Lemma switch_layer_spec s a b q t r now i :
  stream_at s a b q t -> 0 <= i < SFU_MAX_PARTICIPANTS ->
  switch_result s a b q t now i
    (next_layer (sf_enable_bandwidth_adaptation s) now t i r)
    (sfu_switch_layer s a b q t r now i).
Proof.
  intros Hat Hi. pose proof (sfu_wf_stream _ _ _ _ _ (at_wf _ _ _ _ _ Hat)
    (at_participant _ _ _ _ _ Hat) (at_stream _ _ _ _ _ Hat)) as Hwt.
  unfold sfu_switch_layer, next_layer.
  destruct (Z.ltb_spec 1 (st_layer_count t)); cbn [andb]; [|by apply switch_result_same].
  rewrite target_layer_spec by done. cbn [mbind res_bind].
  rewrite should_switch_spec by done. cbn [mbind res_bind].
  set (best := best_layer _ t i r). set (current := nth0 _ i).
  destruct ((best <? current) || (current <? best) && _) eqn:Esw;
    [|by apply switch_result_same].
  apply switch_result_assign; [done|done|by apply best_layer_range|].
  fold current. lia.
Qed.

Lemma should_forward_spec s a b ssrc q t i :
  stream_at s a b q t -> 0 <= i < SFU_MAX_PARTICIPANTS ->
  sfu_should_forward s a b ssrc i =
  Ok ((st_layer_count t =? 1) ||
      (ssrc =? nth0 (st_layer_ssrcs t) (nth0 (st_current_layer_by_receiver t) i))).
Proof.
  intros [Hwf Hq Ht] Hi. pose proof (sfu_wf_stream _ _ _ _ _ Hwf Hq Ht) as Hwt.
  unfold sfu_should_forward. rewrite Hq. cbn [mbind res_bind]. rewrite Ht.
  cbn [mbind res_bind]. destruct (st_layer_count t =? 1); [done|].
  pose proof (current_layer_range t i Hwt Hi) as Hc. unfold is_layer in Hc.
  rewrite (rd_nth0 (st_current_layer_by_receiver t))
    by (rewrite (swf_current_len t Hwt); done). cbn [mbind res_bind].
  rewrite rd_nth0 by (rewrite (swf_ssrcs t Hwt); lia). done.
Qed.

Lemma count_stream_wf t x y z : stream_wf t -> stream_wf (count_stream t x y z).
Proof. by intros []. Qed.

Lemma add_sent_wf p l : participant_wf p -> participant_wf (add_sent p l).
Proof. by intros []. Qed.

Lemma count_delivery_spec s a b q t i l :
  stream_at s a b q t -> 0 <= i < SFU_MAX_PARTICIPANTS -> i <> a ->
  exists s' q' t', sfu_count_delivery s a b i l = Ok s' /\ stream_at s' a b q' t' /\
    evolves s a q t s' q' t' (fun j => j <> i) /\
    st_current_layer_by_receiver t' = st_current_layer_by_receiver t /\
    st_last_layer_switch_us_by_receiver t' = st_last_layer_switch_us_by_receiver t.
Proof.
  intros [Hwf Hq Ht] Hi Hia. unfold sfu_count_delivery.
  destruct (with_participant_wf s i (fun p => Ok (add_sent p l))) as (p & p' & Hp & _ & E & Hwf1);
    [done|done| |].
  { intros p _ Hp. eexists. split; [done|]. split; [by apply add_sent_wf|done]. }
  rewrite E. cbn [mbind res_bind].
  set (s1 := set_participants s _) in *.
  assert (Hs1 : forall j, rd (sf_participants s1) j =
                  if decide (i = j) then Ok p' else rd (sf_participants s) j).
  { intros j. apply rd_set_slot. rewrite (fwf_slots s Hwf). done. }
  assert (Hat1 : stream_at s1 a b q t).
  { split; [done| |done]. rewrite Hs1. by rewrite decide_False. }
  destruct (with_stream_at s1 a b q t (fun t => Ok (count_stream t 0 1 l))
              (count_stream t 0 1 l)) as (s' & q' & E' & Hat' & Hev & _);
    [done|done| |done|].
  { apply count_stream_wf. by apply (sfu_wf_stream s a q b). }
  exists s', q'. eexists. split; [done|]. split; [done|]. split; [|done].
  destruct Hev as [H1 H2 H3 H4 H5]. split; try done.
  intros j Hj Hja. rewrite H5 by done. rewrite Hs1. by rewrite decide_False.
Qed.

(** ** The loop over the slots *)

Definition slot (s : sfu_context_t) (j : Z) : sfu_participant_t :=
  match rd (sf_participants s) j with Ok p => p | _ => zero_participant end.

(** The layer and the switch time of receiver [j] after its turn. *)
Definition layer_after (s : sfu_context_t) (a now : Z) (t : sfu_stream_t) (j : Z) : Z :=
  if eligible a t j (slot s j)
  then next_layer (sf_enable_bandwidth_adaptation s) now t j (slot s j)
  else nth0 (st_current_layer_by_receiver t) j.

Definition switch_time_after (s : sfu_context_t) (a now : Z) (t : sfu_stream_t) (j : Z) : Z :=
  if switches (sf_enable_bandwidth_adaptation s) now a t j (slot s j) then now
  else nth0 (st_last_layer_switch_us_by_receiver t) j.

(** The state when the slots below [i] have had their turn. *)
Record progress (s0 : sfu_context_t) (a b now : Z) (q0 : sfu_participant_t)
    (t0 : sfu_stream_t) (i : Z) (s : sfu_context_t) (q : sfu_participant_t)
    (t : sfu_stream_t) : Prop := {
  pr_at : stream_at s a b q t;
  pr_evolves : evolves s0 a q0 t0 s q t (fun j => i <= j);
  pr_layers : forall j,
    nth0 (st_current_layer_by_receiver t) j =
      (if (0 <=? j) && (j <? i) then layer_after s0 a now t0 j
       else nth0 (st_current_layer_by_receiver t0) j) /\
    nth0 (st_last_layer_switch_us_by_receiver t) j =
      (if (0 <=? j) && (j <? i) then switch_time_after s0 a now t0 j
       else nth0 (st_last_layer_switch_us_by_receiver t0) j) }.

(** Slot [i]'s turn when nothing happens to it. *)
Lemma progress_skip s0 a b now q0 t0 i s q t :
  progress s0 a b now q0 t0 i s q t -> 0 <= i ->
  layer_after s0 a now t0 i = nth0 (st_current_layer_by_receiver t0) i ->
  switch_time_after s0 a now t0 i = nth0 (st_last_layer_switch_us_by_receiver t0) i ->
  progress s0 a b now q0 t0 (i + 1) s q t.
Proof.
  intros [Hat [H1 H2 H3 H4 H5] Hl] Hi Hcur Hlast. split; [done| |].
  - split; try done. intros j Hj. apply H5. lia.
  - intros j. destruct (Hl j) as [-> ->].
    destruct (decide (j = i)) as [->|].
    + rewrite Hcur, Hlast. by destruct ((0 <=? i) && (i <? i)), ((0 <=? i) && (i <? i + 1)).
    + replace ((0 <=? j) && (j <? i + 1)) with ((0 <=? j) && (j <? i)) by lia. done.
Qed.

Lemma same_stream_next ad now t0 t j r :
  same_stream t0 t ->
  nth0 (st_current_layer_by_receiver t) j = nth0 (st_current_layer_by_receiver t0) j ->
  nth0 (st_last_layer_switch_us_by_receiver t) j =
    nth0 (st_last_layer_switch_us_by_receiver t0) j ->
  next_layer ad now t j r = next_layer ad now t0 j r.
Proof.
  intros [_ H2 _ H4] Hc Hl. unfold next_layer, best_layer. by rewrite Hc, Hl, H2, H4.
Qed.

Lemma eligible_cases a t j r :
  (exists fn, pt_on_packet r = Some fn /\
     eligible a t j r = truth (pt_active r) && negb (j =? a)
                        && truth (nth0 (st_enabled_by_receiver t) j)) \/
  (pt_on_packet r = None /\ eligible a t j r = false).
Proof.
  unfold eligible. destruct (pt_on_packet r) as [fn|]; [left; exists fn|right].
  - split; [done|]. rewrite bool_decide_true by done. by rewrite andb_true_r.
  - split; [done|]. rewrite bool_decide_false by (by intros [? ?]). by rewrite andb_false_r.
Qed.

(** What the turn of slot [i] must yield. *)
Definition turn (s0 : sfu_context_t) (a b now : Z) (q0 : sfu_participant_t)
    (t0 : sfu_stream_t) (i ssrc : Z) (packet : list Z)
    (m : res (sfu_context_t * list sfu_event * Z)) : Prop :=
  let ad := sf_enable_bandwidth_adaptation s0 in
  exists s' q' t',
    m = Ok (s', slot_events q0 packet ad now a ssrc t0 i (slot s0 i),
            b2i (receives ad now a ssrc t0 i (slot s0 i))) /\
    progress s0 a b now q0 t0 (i + 1) s' q' t'.

Lemma turn_skip s0 a b now q0 t0 i s q t ssrc packet :
  progress s0 a b now q0 t0 i s q t -> 0 <= i ->
  eligible a t0 i (slot s0 i) = false ->
  turn s0 a b now q0 t0 i ssrc packet (Ok (s, [], 0)).
Proof.
  intros Hp Hi He. exists s, q, t. split.
  - unfold slot_events, switches, receives. by rewrite He.
  - apply progress_skip; [done|done| |].
    + unfold layer_after. by rewrite He.
    + unfold switch_time_after, switches. by rewrite He.
Qed.

(** The state after a choice of layer for slot [i], delivered or not. *)
Lemma progress_turn s0 a b now q0 t0 i s q t s1 q1 t1 s2 q2 t2 :
  progress s0 a b now q0 t0 i s q t -> 0 <= i < SFU_MAX_PARTICIPANTS ->
  eligible a t0 i (slot s0 i) = true ->
  stream_at s2 a b q2 t2 ->
  evolves s a q t s1 q1 t1 (fun _ => True) ->
  evolves s1 a q1 t1 s2 q2 t2 (fun j => j <> i) ->
  (let next := layer_after s0 a now t0 i in
   forall j, nth0 (st_current_layer_by_receiver t2) j =
     (if decide (i = j) then next else nth0 (st_current_layer_by_receiver t) j) /\
   nth0 (st_last_layer_switch_us_by_receiver t2) j =
     (if decide (i = j) then
        if negb (next =? nth0 (st_current_layer_by_receiver t) i) then now
        else nth0 (st_last_layer_switch_us_by_receiver t) j
      else nth0 (st_last_layer_switch_us_by_receiver t) j)) ->
  progress s0 a b now q0 t0 (i + 1) s2 q2 t2.
Proof.
  intros [_ [H1 H2 H3 [] H5] Hl] Hi He Hat [E1 E2 E3 [] E5] [F1 F2 F3 [] F5] Hn.
  cbv zeta in Hn. split; [done| |].
  - split; try congruence; [split; congruence|].
    intros j Hj Hja. rewrite F5, E5, H5 by (done || lia). done.
  - intros j. destruct (Hn j) as [-> ->]. destruct (Hl i) as [Hci Hwi].
    rewrite Z.ltb_irrefl, andb_false_r in Hci, Hwi.
    destruct (decide (i = j)) as [<-|Hne].
    + replace ((0 <=? i) && (i <? i + 1)) with true by lia. split; [done|].
      unfold switch_time_after, switches, layer_after. rewrite He, Hci, Hwi. done.
    + destruct (Hl j) as [-> ->].
      by replace ((0 <=? j) && (j <? i + 1)) with ((0 <=? j) && (j <? i)) by lia.
Qed.

Lemma evolves_refl s a q t P : evolves s a q t s q t P.
Proof. by split. Qed.

Lemma forward_one_spec s0 a b now q0 t0 i s q t ssrc packet l :
  progress s0 a b now q0 t0 i s q t -> 0 <= i < SFU_MAX_PARTICIPANTS ->
  turn s0 a b now q0 t0 i ssrc packet (sfu_forward_one s a b ssrc packet l now i).
Proof.
  intros Hp Hi. pose proof (turn_skip _ _ _ _ _ _ _ _ _ _ ssrc packet Hp (proj1 Hi)) as Hskip.
  pose proof Hp as [Hat Hev Hl]. pose proof Hat as [Hwf Hq Ht].
  unfold sfu_forward_one.
  destruct (rd_in_range (sf_participants s) i) as [r Hr]; [by rewrite (fwf_slots s Hwf)|].
  rewrite Hr. cbn [mbind res_bind].
  destruct (decide (i = a)) as [->|Hia].
  { rewrite Z.eqb_refl, orb_true_r. destruct (pt_on_packet r); apply Hskip;
      unfold eligible; by rewrite Z.eqb_refl, andb_false_r. }
  assert (Hslot : slot s0 i = r).
  { unfold slot. rewrite <- (ev_slots _ _ _ _ _ _ _ _ Hev i) by (done || lia). by rewrite Hr. }
  destruct (eligible_cases a t0 i r) as [(fn & Hfn & He)|[Hfn He]]; rewrite Hfn;
    [|apply Hskip; by rewrite Hslot].
  replace (i =? a) with false in * by lia. rewrite orb_false_r.
  destruct (truth (pt_active r)) eqn:Hact; cbn [negb andb] in *;
    [|apply Hskip; by rewrite Hslot].
  rewrite Hq. cbn [mbind res_bind]. rewrite Ht. cbn [mbind res_bind].
  pose proof (sfu_wf_stream _ _ _ _ _ Hwf Hq Ht) as Hwt.
  rewrite rd_nth0 by (rewrite (swf_enabled_len t Hwt); done). cbn [mbind res_bind].
  rewrite (same_enabled _ _ (ev_stream _ _ _ _ _ _ _ _ Hev)).
  destruct (truth (nth0 (st_enabled_by_receiver t0) i)); cbn [negb];
    [|apply Hskip; by rewrite Hslot].
  clear Hskip. rewrite <- Hslot in He.
  pose proof (Hl i) as [Hci Hwi]. rewrite Z.ltb_irrefl, andb_false_r in Hci, Hwi.
  destruct (switch_layer_spec s a b q t r now i Hat Hi) as (s1 & q1 & t1 & E1 & Hat1 & Hev1 & Hl1).
  rewrite (ev_adaptation _ _ _ _ _ _ _ _ Hev) in E1, Hl1.
  rewrite (same_stream_next _ now t0 t) in E1, Hl1 by (done || apply Hev).
  assert (Hnext : next_layer (sf_enable_bandwidth_adaptation s0) now t0 i r
                  = layer_after s0 a now t0 i).
  { unfold layer_after. by rewrite He, Hslot. }
  rewrite Hnext in E1, Hl1. rewrite E1. cbn [mbind res_bind].
  rewrite (should_forward_spec _ _ _ _ _ _ _ Hat1 Hi). cbn [mbind res_bind].
  destruct (Hl1 i) as [Hcur1 _]. rewrite decide_True in Hcur1 by done. rewrite Hcur1.
  destruct (ev_stream _ _ _ _ _ _ _ _ Hev) as [Hs1 Hs2 _ _].
  destruct (ev_stream _ _ _ _ _ _ _ _ Hev1) as [Hs1' Hs2' _ _].
  rewrite Hs1', Hs2', Hs1, Hs2. unfold turn, slot_events, switches, receives.
  rewrite He, Hslot, Hfn, Hnext. cbn [andb].
  rewrite Hci, (ev_keyframe _ _ _ _ _ _ _ _ Hev), (ev_data _ _ _ _ _ _ _ _ Hev).
  destruct (_ || _).
  - destruct (count_delivery_spec s1 a b q1 t1 i l Hat1 Hi Hia)
      as (s2 & q2 & t2 & E2 & Hat2 & Hev2 & Hc2 & Hw2).
    rewrite E2. cbn [mbind res_bind]. exists s2, q2, t2. split; [done|].
    apply (progress_turn _ _ _ _ _ _ _ s q t s1 q1 t1); try done.
    by rewrite Hc2, Hw2.
  - exists s1, q1, t1. rewrite app_nil_r. split; [done|].
    apply (progress_turn _ _ _ _ _ _ _ s q t s1 q1 t1); try done.
Qed.

(** All the receivers, in the order of their slots. *)
Definition all_slots : list Z := seqZ 0 SFU_MAX_PARTICIPANTS.

Definition forward_events (s : sfu_context_t) (a now ssrc : Z) (q : sfu_participant_t)
    (t : sfu_stream_t) (packet : list Z) (js : list Z) : list sfu_event :=
  js ≫= fun j => slot_events q packet (sf_enable_bandwidth_adaptation s) now a ssrc t j (slot s j).

Definition receivers (s : sfu_context_t) (a now ssrc : Z) (t : sfu_stream_t) (js : list Z)
    : list Z :=
  base.filter (fun j => receives (sf_enable_bandwidth_adaptation s) now a ssrc t j (slot s j)) js.

Lemma len_receivers_cons s a now ssrc t j js :
  len (receivers s a now ssrc t (j :: js)) =
  b2i (receives (sf_enable_bandwidth_adaptation s) now a ssrc t j (slot s j))
  + len (receivers s a now ssrc t js).
Proof.
  unfold receivers. rewrite filter_cons. destruct (receives _ _ _ _ _ j _) eqn:E.
  - rewrite decide_True by done. by rewrite len_cons.
  - by rewrite decide_False by (intros []).
Qed.

Lemma forward_loop_spec n s0 a b now q0 t0 i s q t ssrc packet l :
  progress s0 a b now q0 t0 i s q t -> 0 <= i ->
  i + Z.of_nat n <= SFU_MAX_PARTICIPANTS ->
  exists s' q' t',
    sfu_forward_loop n s a b ssrc packet l now i =
      Ok (s', forward_events s0 a now ssrc q0 t0 packet (seqZ i (Z.of_nat n)),
          len (receivers s0 a now ssrc t0 (seqZ i (Z.of_nat n)))) /\
    progress s0 a b now q0 t0 (i + Z.of_nat n) s' q' t'.
Proof.
  revert i s q t. induction n as [|n IH]; intros i s q t Hp Hi Hn.
  - exists s, q, t. rewrite Z.add_0_r. split; [done|done].
  - cbn [sfu_forward_loop].
    destruct (forward_one_spec s0 a b now q0 t0 i s q t ssrc packet l Hp ltac:(lia))
      as (s1 & q1 & t1 & -> & Hp1).
    cbn [mbind res_bind].
    destruct (IH (i + 1) s1 q1 t1 Hp1) as (s' & q' & t' & -> & Hp'); [lia|lia|].
    cbn [mbind res_bind]. exists s', q', t'.
    replace (i + 1 + Z.of_nat n) with (i + Z.of_nat (S n)) in Hp' by lia.
    rewrite (seqZ_cons i) by lia. rewrite len_receivers_cons.
    replace (Z.pred (Z.of_nat (S n))) with (Z.of_nat n) by lia.
    replace (Z.succ i) with (i + 1) by lia. done.
Qed.

Lemma progress_start s a b now q t : stream_at s a b q t -> progress s a b now q t 0 s q t.
Proof.
  intros Hat. split; [done|by split|]. intros j.
  replace ((0 <=? j) && (j <? 0)) with false by lia. done.
Qed.

(** Only the sender's own slot sees the statistics of the packet it sends. *)
Lemma receiver_view s s1 a now ssrc t j q packet :
  sf_enable_bandwidth_adaptation s1 = sf_enable_bandwidth_adaptation s ->
  (j <> a -> slot s1 j = slot s j) ->
  let ad := sf_enable_bandwidth_adaptation s in
  slot_events q packet ad now a ssrc t j (slot s1 j) =
    slot_events q packet ad now a ssrc t j (slot s j) /\
  receives ad now a ssrc t j (slot s1 j) = receives ad now a ssrc t j (slot s j) /\
  layer_after s1 a now t j = layer_after s a now t j /\
  switch_time_after s1 a now t j = switch_time_after s a now t j.
Proof.
  intros Had Hs ad. unfold layer_after, switch_time_after. rewrite Had.
  destruct (decide (j = a)) as [->|Hja]; [|by rewrite Hs].
  assert (He : forall r, eligible a t a r = false).
  { intros r. unfold eligible. by rewrite Z.eqb_refl, andb_false_r. }
  unfold slot_events, receives, switches. by rewrite !He.
Qed.

Lemma parse_rtp_ssrc_Ok packet l :
  l <= len packet -> parse_rtp_ssrc packet l <> Fault.
Proof.
  intros Hl. change (no_fault (parse_rtp_ssrc packet l)). unfold parse_rtp_ssrc.
  repeat safe_step; lia.
Qed.

Lemma find_stream_range ts ssrc i j :
  find_stream_by_ssrc ts ssrc i = Some j -> i <= j < i + len ts.
Proof.
  revert i. induction ts as [|t ts IH]; intros i H; [done|]. cbn in H.
  rewrite len_cons. pose proof (len_nonneg ts).
  destruct (_ && _); [injection H as <-; lia|]. apply IH in H. lia.
Qed.

(** The sender and its stream that a packet of [l] bytes is from. *)
Record sends (s : sfu_context_t) (id : string) (packet : list Z) (l : Z)
    (a b ssrc : Z) (q : sfu_participant_t) (t : sfu_stream_t) : Prop := {
  sd_find : find_participant s id = Ok (Some a);
  sd_ssrc : parse_rtp_ssrc packet l = Ok ssrc;
  sd_sender : rd (sf_participants s) a = Ok q;
  sd_index : find_stream_by_ssrc (pt_streams q) ssrc 0 = Some b;
  sd_stream : rd (pt_streams q) b = Ok t }.

Lemma forward_counted s a b q t l :
  stream_at s a b q t ->
  exists s1 q1,
    sfu_count_packet s a b l = Ok s1 /\
    stream_at s1 a b q1 (count_stream t 1 0 l) /\
    pt_on_keyframe_request q1 = pt_on_keyframe_request q /\
    pt_keyframe_user_data q1 = pt_keyframe_user_data q /\
    sf_enable_bandwidth_adaptation s1 = sf_enable_bandwidth_adaptation s /\
    forall j, j <> a -> slot s1 j = slot s j.
Proof.
  intros [Hwf Hq Ht]. pose proof (rd_bounds _ _ _ Hq) as Ha. unfold sfu_count_packet.
  destruct (with_participant_wf s a (fun p => Ok (add_received p l)))
    as (p & p' & Hp & Hp' & E & Hwf1); [done|by rewrite <- (fwf_slots s Hwf)| |].
  { intros p _ []. eexists. split; [done|]. split; [|done]. by constructor. }
  rewrite Hq in Hp. injection Hp as <-. injection Hp' as <-.
  rewrite E. cbn [mbind res_bind]. set (s0 := set_participants s _) in *.
  assert (Hs0 : forall j, rd (sf_participants s0) j =
    if decide (a = j) then Ok (add_received q l) else rd (sf_participants s) j)
    by (intros j; by apply rd_set_slot).
  destruct (with_stream_at s0 a b (add_received q l) t
    (fun t => Ok (count_stream t 1 0 l)) (count_stream t 1 0 l))
    as (s1 & q1 & E1 & Hat & Hev & _); [|done| |done|].
  { split; [done| |done]. rewrite Hs0. by rewrite decide_True. }
  { apply count_stream_wf. by apply (sfu_wf_stream s a q b). }
  exists s1, q1. split; [done|]. split; [done|]. destruct Hev as [H1 H2 H3 _ H5].
  split; [done|]. split; [done|]. split; [done|].
  intros j Hj. unfold slot. rewrite H5 by done. rewrite Hs0. by rewrite decide_False.
Qed.

Lemma forward_packet_sends s id packet l now a b ssrc q t :
  sfu_wf s -> 12 <= l <= len packet -> sends s id packet l a b ssrc q t ->
  exists s' q' t',
    sfu_forward_packet (Some s) (Some id) (Some packet) l now =
      Ok (s', forward_events s a now ssrc q t (take (Z.to_nat l) packet) all_slots,
          len (receivers s a now ssrc t all_slots)) /\
    stream_at s' a b q' t' /\
    forall j, 0 <= j < SFU_MAX_PARTICIPANTS ->
      nth0 (st_current_layer_by_receiver t') j = layer_after s a now t j /\
      nth0 (st_last_layer_switch_us_by_receiver t') j = switch_time_after s a now t j.
Proof.
  intros Hwf Hl [Hf Hp Hq Hb Ht]. unfold sfu_forward_packet.
  replace (l <? 12) with false by lia. rewrite Hf. cbn [mbind res_bind]. rewrite Hp, Hq.
  cbn [mbind res_bind]. rewrite Hb.
  destruct (forward_counted s a b q t l) as (s1 & q1 & E1 & Hat1 & Hkf & Hkd & Had & Hsl);
    [done|].
  rewrite E1. cbn [mbind res_bind].
  rewrite rd_slice_in_range by lia. rewrite drop_0. cbn [mbind res_bind].
  set (t1 := count_stream t 1 0 l) in *. set (data := take _ packet).
  destruct (forward_loop_spec (Z.to_nat SFU_MAX_PARTICIPANTS) s1 a b now q1 t1 0 s1 q1 t1
    ssrc data l) as (s' & q' & t' & E & Hp' ); [by apply progress_start|done|done|].
  rewrite E. cbn [mbind res_bind].
  assert (Hv : forall j, 
    slot_events q1 data (sf_enable_bandwidth_adaptation s1) now a ssrc t1 j (slot s1 j) =
    slot_events q data (sf_enable_bandwidth_adaptation s) now a ssrc t j (slot s j) /\
    receives (sf_enable_bandwidth_adaptation s1) now a ssrc t1 j (slot s1 j) =
    receives (sf_enable_bandwidth_adaptation s) now a ssrc t j (slot s j) /\
    layer_after s1 a now t1 j = layer_after s a now t j /\
    switch_time_after s1 a now t1 j = switch_time_after s a now t j).
  { intros j. destruct (receiver_view s s1 a now ssrc t j q data Had (Hsl j)) as (V1 & V2 & V3 & V4).
    split; [|split; [by rewrite Had|done]]. rewrite <- V1. rewrite Had.
    unfold slot_events. rewrite Hkf, Hkd. done. }
  exists (add_totals s' 1 l 0), q', t'. split; [|split].
  - apply Ok_pair; [f_equal|].
    + unfold forward_events. apply list_bind_ext; [intros j; apply Hv|done].
    + f_equal. apply list_filter_iff. intros j. by destruct (Hv j) as (_ & -> & _).
  - destruct Hp' as [[] _ _]. split; [by apply sfu_wf_totals|done..].
  - intros j Hj. destruct Hp' as [_ _ Hl']. destruct (Hl' j) as [-> ->].
    unfold SFU_MAX_PARTICIPANTS in Hj.
    replace ((0 <=? j) && (j <? 0 + Z.of_nat (Z.to_nat SFU_MAX_PARTICIPANTS))) with true
      by (unfold SFU_MAX_PARTICIPANTS; lia).
    destruct (Hv j) as (_ & _ & V). done.
Qed.

(* ------------------------------------------------------------------ *)
(** ** Every operation keeps the table well formed *)

Lemma free_slot_spec ps i j :
  free_slot ps i = Some j ->
  exists k p, j = i + Z.of_nat k /\ ps !! k = Some p /\ truth (pt_active p) = false.
Proof.
  revert i. induction ps as [|p ps IH]; intros i H; [done|]. cbn in H.
  destruct (truth (pt_active p)) eqn:E; cbn in H.
  - apply IH in H as (k & q & -> & Hk & Hq). exists (S k), q. split; [lia|done].
  - injection H as <-. exists 0%nat, p. split; [lia|done].
Qed.

Lemma sfu_wf_count s c ps :
  sfu_wf s -> len ps = SFU_MAX_PARTICIPANTS -> Forall participant_wf ps ->
  c = active_count ps -> c <= sf_max_participants s ->
  sfu_wf (set_count (set_participants s ps) c).
Proof. intros [? ? ? [_ ?]] ? ? ? ?. constructor; cbn; auto. Qed.

Lemma sfu_add_participant_wf s id :
  sfu_wf s -> exists s' ev r, sfu_add_participant (Some s) (Some id) = Ok (s', ev, r) /\ sfu_wf s'.
Proof.
  intros Hwf. unfold sfu_add_participant.
  destruct (bool_decide (id = ""%string)); [by eauto|].
  destruct (64 <=? _); [by eauto|].
  destruct (find_participant_spec s id Hwf) as (r & -> & _). cbn [mbind res_bind].
  destruct r; [by eauto|].
  destruct (Z.leb_spec (sf_max_participants s) (sf_participant_count s)); [by eauto|].
  rewrite take_ge by (pose proof (fwf_slots s Hwf); unfold len in *; lia).
  destruct (free_slot _ 0) as [j|] eqn:Ej; [|by eauto].
  apply free_slot_spec in Ej as (k & p & -> & Hk & Hp).
  rewrite Z.add_0_l. pose proof (lookup_lt_Some _ _ _ Hk).
  rewrite upd_Ok by (unfold len; lia). cbn [mbind res_bind].
  do 3 eexists. split; [done|]. rewrite Nat2Z.id. apply sfu_wf_count; [done| | | |].
  - rewrite len_insert. apply Hwf.
  - apply Forall_insert; [apply Hwf|]. constructor; [constructor|done].
  - rewrite (active_count_insert _ _ _ _ Hk), Hp, (fwf_count s Hwf). cbn. lia.
  - lia.
Qed.

Lemma sfu_remove_participant_wf s id :
  sfu_wf s -> exists s' ev r, sfu_remove_participant (Some s) (Some id) = Ok (s', ev, r) /\ sfu_wf s'.
Proof.
  intros Hwf. unfold sfu_remove_participant.
  destruct (find_participant_spec s id Hwf) as (r & -> & Hr). cbn [mbind res_bind].
  destruct r as [j|]; [|by eauto]. destruct Hr as (Hj & p & Hp & Ha & _).
  unfold with_participant. rewrite Hp. cbn [mbind res_bind].
  rewrite upd_Ok by (by apply rd_bounds in Hp). cbn [mbind res_bind].
  do 3 eexists. split; [done|]. apply rd_lookup in Hp as [_ Hp].
  apply sfu_wf_count; [done| | | |].
  - rewrite len_insert. apply Hwf.
  - apply Forall_insert; [apply Hwf|].
    destruct (Forall_lookup_1 _ _ _ _ (fwf_participants s Hwf) Hp). by constructor.
  - rewrite (active_count_insert _ _ _ _ Hp), Ha. cbn. rewrite (fwf_count s Hwf). lia.
  - cbn. pose proof (fwf_max s Hwf). lia.
Qed.

Lemma on_found_wf s id f :
  sfu_wf s -> (forall p, pt_active (f p) = pt_active p /\ pt_streams (f p) = pt_streams p) ->
  exists s', on_found (Some s) (Some id) f = Ok s' /\ sfu_wf s'.
Proof.
  intros Hwf Hf. unfold on_found.
  destruct (find_participant_spec s id Hwf) as (r & -> & Hr). cbn [mbind res_bind].
  destruct r as [j|]; [|by eauto]. destruct Hr as (Hj & _).
  destruct (with_participant_wf s j (fun p => Ok (f p))) as (p & q & _ & _ & E & H); [done| | |].
  - pose proof (fwf_max s Hwf). lia.
  - intros p _ [H1 H2]. eexists. split; [done|]. destruct (Hf p) as [Ha Hs].
    split; [|done]. constructor; by rewrite Hs.
  - eauto.
Qed.

Lemma fresh_stream_wf ssrc l n :
  len l = 3 -> 1 <= n <= 3 -> stream_wf (fresh_stream ssrc l n).
Proof.
  intros Hl Hn. constructor; try done; cbn [fresh_stream st_current_layer_by_receiver
    st_max_layer_by_receiver]; apply Forall_replicate; by unfold is_layer, SIMULCAST_LAYER_HIGH.
Qed.

(** Assigning the streams of a participant. *)
Lemma set_streams_wf s i p ts :
  sfu_wf s -> rd (sf_participants s) i = Ok p -> Forall stream_wf ts ->
  len ts <= SFU_MAX_STREAMS_PER_PARTICIPANT ->
  forall f, f p = set_streams p ts ->
  exists s', with_participant s i (fun p => Ok (f p)) = Ok s' /\ sfu_wf s'.
Proof.
  intros Hwf Hp Hts Hl f Hf. pose proof (rd_bounds _ _ _ Hp) as Hi.
  destruct (with_participant_wf s i (fun p => Ok (f p)))
    as (q & q' & _ & _ & E & H); [done|by rewrite <- (fwf_slots s Hwf)| |eauto].
  intros q Hq _. rewrite Hp in Hq. injection Hq as <-. rewrite Hf.
  eexists. split; [done|]. split; [by constructor|done].
Qed.

Lemma sfu_add_stream_wf s id ssrc layers n :
  sfu_wf s -> sfu_op_ok (AddStream id ssrc layers n) ->
  exists s' r, sfu_add_stream (Some s) (Some id) ssrc layers n = Ok (s', r) /\ sfu_wf s'.
Proof.
  intros Hwf Hok. unfold sfu_add_stream.
  destruct (find_participant_spec s id Hwf) as (r & -> & Hr). cbn [mbind res_bind].
  destruct r as [j|]; [|by eauto]. destruct Hr as (_ & p & Hp & _).
  rewrite Hp. cbn [mbind res_bind].
  destruct (Z.leb_spec SFU_MAX_STREAMS_PER_PARTICIPANT (len (pt_streams p))); [by eauto|].
  match goal with |- context [mbind _ (match layers with _ => _ end)] =>
    assert (Ht : exists t, (match layers with
       | Some layers => if (0 <? n) && (n <=? 3) then
           l ← rd_slice layers 0 n; l ← wr [0; 0; 0] 0 l; Ok (fresh_stream ssrc l n)
           else Ok (fresh_stream ssrc [ssrc; 0; 0] 1)
       | None => Ok (fresh_stream ssrc [ssrc; 0; 0] 1) end) = Ok t /\ stream_wf t) end.
  { destruct layers as [layers|]; [|eexists; split; [done|by apply fresh_stream_wf]].
    destruct ((0 <? n) && (n <=? 3)) eqn:En;
      [|eexists; split; [done|by apply fresh_stream_wf]].
    cbn [sfu_op_ok] in Hok. rewrite rd_slice_in_range by lia. cbn [mbind res_bind].
    rewrite drop_0. rewrite wr_front by len_lia. cbn [mbind res_bind].
    eexists. split; [done|]. apply fresh_stream_wf; [len_lia|lia]. }
  destruct Ht as (t & -> & Ht). cbn [mbind res_bind].
  pose proof Hp as [_ Hk]%rd_lookup.
  destruct (Forall_lookup_1 _ _ _ _ (fwf_participants s Hwf) Hk) as [Hts Hl].
  destruct (set_streams_wf s j p (pt_streams p ++ [t]) Hwf Hp) with
    (f := fun p => set_streams p (pt_streams p ++ [t])) as (s' & -> & Hwf'); [| |done|].
  - apply Forall_app. by split; [|constructor].
  - rewrite len_app. unfold len at 2. cbn. lia.
  - cbn [mbind res_bind]. eauto.
Qed.

Lemma sfu_remove_stream_wf s id ssrc :
  sfu_wf s -> exists s' r, sfu_remove_stream (Some s) (Some id) ssrc = Ok (s', r) /\ sfu_wf s'.
Proof.
  intros Hwf. unfold sfu_remove_stream.
  destruct (find_participant_spec s id Hwf) as (r & -> & Hr). cbn [mbind res_bind].
  destruct r as [i|]; [|by eauto]. destruct Hr as (_ & p & Hp & _).
  rewrite Hp. cbn [mbind res_bind].
  destruct (find_main_ssrc _ _ _) as [j|]; [|by eauto].
  pose proof Hp as [_ Hk]%rd_lookup.
  destruct (Forall_lookup_1 _ _ _ _ (fwf_participants s Hwf) Hk) as [Hts Hl].
  destruct (set_streams_wf s i p (delete (Z.to_nat j) (pt_streams p)) Hwf Hp) with
    (f := fun p => set_streams p (delete (Z.to_nat j) (pt_streams p)))
    as (s' & -> & Hwf'); [| |done|].
  - by apply Forall_delete.
  - etrans; [|exact Hl]. unfold len.
    pose proof (submseteq_length _ _ (sublist_submseteq _ _ (sublist_delete (pt_streams p) (Z.to_nat j)))).
    lia.
  - cbn [mbind res_bind]. eauto.
Qed.

Lemma sfu_set_policy_wf s r t ssrc e m :
  sfu_wf s -> exists s' v,
    sfu_set_receiver_stream_policy (Some s) (Some r) (Some t) ssrc e m = Ok (s', v) /\ sfu_wf s'.
Proof.
  intros Hwf. unfold sfu_set_receiver_stream_policy.
  destruct ((m <? 0) || (2 <? m)) eqn:Em; [by eauto|].
  destruct (get_index_spec s r Hwf) as (ri & -> & Hri). cbn [mbind res_bind].
  destruct (find_participant_spec s t Hwf) as (f & -> & Hf). cbn [mbind res_bind].
  destruct (Z.ltb_spec ri 0); [by eauto|]. assert (0 <= ri < SFU_MAX_PARTICIPANTS) by lia.
  destruct f as [i|]; [|by eauto]. destruct Hf as (_ & p & Hp & _).
  rewrite Hp. cbn [mbind res_bind].
  destruct (find_stream_by_ssrc _ _ _) as [j|] eqn:Ej; [|by eauto].
  apply find_stream_range in Ej. rewrite Z.add_0_l in Ej.
  destruct (rd_in_range _ _ Ej) as [st Hst].
  pose proof (sfu_wf_stream _ _ _ _ _ Hwf Hp Hst) as Hwt.
  match goal with |- context [with_stream s i j ?f] =>
    destruct (with_stream_wf s i j f p st
      (set_policy st (<[Z.to_nat ri := b2i (truth e)]> (st_enabled_by_receiver st))
         (<[Z.to_nat ri := m]> (st_max_layer_by_receiver st)))) as [E H']; try done end.
  - rewrite !upd_Ok by (rewrite ?(swf_enabled_len st Hwt), ?(swf_max_len st Hwt); done). done.
  - destruct Hwt. constructor; cbn; rewrite ?len_insert; try done.
    apply Forall_insert; [done|]. unfold is_layer. lia.
  - rewrite E. cbn [mbind res_bind]. eauto.
Qed.

Lemma sfu_forward_packet_wf s id packet l now :
  sfu_wf s -> l <= len packet -> exists s' ev k,
    sfu_forward_packet (Some s) (Some id) (Some packet) l now = Ok (s', ev, k) /\ sfu_wf s'.
Proof.
  intros Hwf Hl. destruct (Z.ltb_spec l 12) as [Hl12|Hl12].
  { unfold sfu_forward_packet. replace (l <? 12) with true by lia. eauto. }
  destruct (find_participant_spec s id Hwf) as (f & Hf & Hr).
  destruct f as [a|].
  2: { unfold sfu_forward_packet. rewrite Hf. replace (l <? 12) with false by lia. cbn. eauto. }
  destruct Hr as (_ & q & Hq & _).
  pose proof (parse_rtp_ssrc_Ok packet l Hl) as Hp.
  destruct (parse_rtp_ssrc packet l) as [ssrc| |] eqn:Es; [| |done].
  2: { unfold sfu_forward_packet. rewrite Hf, Es. replace (l <? 12) with false by lia. cbn. eauto. }
  destruct (find_stream_by_ssrc (pt_streams q) ssrc 0) as [b|] eqn:Eb.
  2: { unfold sfu_forward_packet. rewrite Hf, Es. replace (l <? 12) with false by lia.
       cbn [mbind res_bind]. rewrite Hq. cbn [mbind res_bind]. rewrite Eb. eauto. }
  pose proof Eb as Hb%find_stream_range. rewrite Z.add_0_l in Hb.
  destruct (rd_in_range _ _ Hb) as [t Ht].
  destruct (forward_packet_sends s id packet l now a b ssrc q t)
    as (s' & q' & t' & E & [H _ _] & _); [done|lia|done|eauto].
Qed.

Lemma sfu_step_wf s o :
  sfu_wf s -> sfu_op_ok o -> exists s', sfu_step s o = Ok s' /\ sfu_wf s'.
Proof.
  intros Hwf Ho. destruct o; cbn [sfu_step]; unfold context_of.
  - destruct (sfu_add_participant_wf s id Hwf) as (s' & ev & r & -> & H). cbn. eauto.
  - destruct (sfu_remove_participant_wf s id Hwf) as (s' & ev & r & -> & H). cbn. eauto.
  - by apply on_found_wf.
  - by apply on_found_wf.
  - by apply on_found_wf.
  - destruct (sfu_set_policy_wf s receiver sender ssrc enabled max_layer Hwf) as (s' & r & -> & H).
    cbn. eauto.
  - destruct (sfu_add_stream_wf s id ssrc layers count Hwf Ho) as (s' & r & -> & H). cbn. eauto.
  - destruct (sfu_remove_stream_wf s id ssrc Hwf) as (s' & r & -> & H). cbn. eauto.
  - destruct (sfu_forward_packet_wf s sender packet l now Hwf Ho) as (s' & ev & k & -> & H).
    cbn. eauto.
  - eexists. split; [done|]. by destruct Hwf.
  - eexists. split; [done|]. by destruct Hwf.
Qed.

Lemma sfu_run_wf l s :
  sfu_wf s -> Forall sfu_op_ok l -> exists s', sfu_run s l = Ok s' /\ sfu_wf s'.
Proof.
  unfold sfu_run. revert s. induction l as [|o l IH]; intros s Hwf Hl; [by exists s|].
  apply Forall_cons in Hl as [Ho Hl].
  destruct (sfu_step_wf s o Hwf Ho) as (s1 & E & Hwf1).
  cbn [foldl mbind res_bind]. rewrite E. by apply IH.
Qed.

Lemma sfu_run_result l s s' :
  sfu_wf s -> Forall sfu_op_ok l -> sfu_run s l = Ok s' -> sfu_wf s'.
Proof.
  intros Hwf Hl E. destruct (sfu_run_wf l s Hwf Hl) as (s1 & E1 & H).
  rewrite E in E1. by apply Ok_inj in E1 as ->.
Qed.

Lemma sfu_create_wf max s : sfu_create max true = Some s -> sfu_wf s.
Proof.
  unfold sfu_create. intros [= <-]. constructor; cbn; try done.
  - apply (Forall_replicate participant_wf 50). constructor; [constructor|done].
  - unfold SFU_MAX_PARTICIPANTS. destruct ((0 <? max) && (max <=? 50)) eqn:E; lia.
Qed.

(** A packet event is one receiver's. *)
Lemma slot_events_packet q data ad now a ssrc t j r fn u pkt :
  EvPacket fn u pkt ∈ slot_events q data ad now a ssrc t j r ->
  receives ad now a ssrc t j r = true /\ pkt = data /\ pt_on_packet r = Some fn /\
  pt_packet_user_data r = u.
Proof.
  unfold slot_events. intros [H|H]%elem_of_app.
  - destruct (switches _ _ _ _ _ _); [|by apply not_elem_of_nil in H].
    destruct (pt_on_keyframe_request q); [|by apply not_elem_of_nil in H].
    by apply list_elem_of_singleton in H.
  - destruct (receives _ _ _ _ _ _ _); [|by apply not_elem_of_nil in H].
    destruct (pt_on_packet r); [|by apply not_elem_of_nil in H].
    by apply list_elem_of_singleton in H as [= -> -> ->].
Qed.

Lemma eligible_inv a t j r :
  eligible a t j r = true ->
  truth (pt_active r) = true /\ j <> a /\ truth (nth0 (st_enabled_by_receiver t) j) = true.
Proof. unfold eligible. intros H. split_and!; [by destruct (truth _)|lia|lia]. Qed.

(** Why a call forwards anything at all. *)
Lemma forward_packet_cases s id packet l now s' ev k :
  sfu_wf s -> l <= len packet ->
  sfu_forward_packet (Some s) (Some id) (Some packet) l now = Ok (s', ev, k) ->
  (s' = s /\ ev = [] /\ k = -1) \/
  exists a b ssrc q t, 12 <= l /\ sends s id packet l a b ssrc q t.
Proof.
  intros Hwf Hl. unfold sfu_forward_packet.
  destruct (Z.ltb_spec l 12); [intros [= <- <- <-]; by left|].
  destruct (find_participant_spec s id Hwf) as (f & Hf & Hr). rewrite Hf. cbn [mbind res_bind].
  destruct f as [a|]; [|intros [= <- <- <-]; by left]. destruct Hr as (_ & q & Hq & _).
  destruct (parse_rtp_ssrc packet l) as [ssrc| |] eqn:Es; [|intros [= <- <- <-]; by left|done].
  rewrite Hq. cbn [mbind res_bind].
  destruct (find_stream_by_ssrc (pt_streams q) ssrc 0) as [b|] eqn:Eb;
    [|intros [= <- <- <-]; by left].
  intros _. right. pose proof Eb as Hb%find_stream_range. rewrite Z.add_0_l in Hb.
  destruct (rd_in_range _ _ Hb) as [t Ht]. exists a, b, ssrc, q, t. split; [done|].
  by split.
Qed.

(** ** Properties *)

(** C8: from creation, every sequence of calls keeps the table sound: nothing
    is accessed out of range, [participant_count] is the number of active
    slots and within the capacity, no participant has more than four streams,
    and every stream's selected and allowed layers are layers. *)
Theorem sfu_table_invariant max l :
  Forall sfu_op_ok l ->
  exists s0 s, sfu_create max true = Some s0 /\ sfu_run s0 l = Ok s /\
    sf_participant_count s = active_count (sf_participants s) /\
    sf_participant_count s <= sf_max_participants s <= SFU_MAX_PARTICIPANTS /\
    len (sf_participants s) = SFU_MAX_PARTICIPANTS /\
    Forall participant_wf (sf_participants s).
Proof.
  intros Hl. destruct (sfu_create max true) as [s0|] eqn:E; [|done].
  destruct (sfu_run_wf l s0 (sfu_create_wf max s0 E) Hl) as (s & Hs & []).
  exists s0, s. split_and!; done || lia.
Qed.

(** Forwarding a packet of a known stream makes, slot by slot, exactly the
    calls of the reference decision for each receiver: a keyframe request when
    the receiver's layer changes, and the packet when its layer is the packet's
    (or there is no simulcast).  The return value is the number of receivers,
    and every receiver's layer and switch time become those decided. *)
Theorem sfu_forward_packet_spec s id packet l now a b ssrc q t :
  sfu_wf s -> 12 <= l <= len packet -> sends s id packet l a b ssrc q t ->
  exists s' q' t',
    sfu_forward_packet (Some s) (Some id) (Some packet) l now =
      Ok (s', forward_events s a now ssrc q t (take (Z.to_nat l) packet) all_slots,
          len (receivers s a now ssrc t all_slots)) /\
    rd (sf_participants s') a = Ok q' /\ rd (pt_streams q') b = Ok t' /\
    forall j, 0 <= j < SFU_MAX_PARTICIPANTS ->
      nth0 (st_current_layer_by_receiver t') j = layer_after s a now t j /\
      nth0 (st_last_layer_switch_us_by_receiver t') j = switch_time_after s a now t j.
Proof.
  intros Hwf Hl Hs.
  destruct (forward_packet_sends s id packet l now a b ssrc q t Hwf Hl Hs)
    as (s' & q' & t' & E & [_ Hq Ht] & H). by exists s', q', t'.
Qed.

(** Whatever the call, a packet only reaches active participants other than
    its sender whose policy for the stream allows it, unmodified. *)
Theorem sfu_forward_confined s id packet l now s' ev k fn u pkt :
  sfu_wf s -> l <= len packet ->
  sfu_forward_packet (Some s) (Some id) (Some packet) l now = Ok (s', ev, k) ->
  EvPacket fn u pkt ∈ ev ->
  pkt = take (Z.to_nat l) packet /\
  exists a b ssrc q t j r, sends s id packet l a b ssrc q t /\
    rd (sf_participants s) j = Ok r /\ j <> a /\ truth (pt_active r) = true /\
    pt_on_packet r = Some fn /\ truth (nth0 (st_enabled_by_receiver t) j) = true.
Proof.
  intros Hwf Hl E Hin.
  destruct (forward_packet_cases _ _ _ _ _ _ _ _ Hwf Hl E)
    as [(_ & -> & _)|(a & b & ssrc & q & t & Hl12 & Hs)]; [by apply not_elem_of_nil in Hin|].
  destruct (forward_packet_sends s id packet l now a b ssrc q t Hwf ltac:(lia) Hs)
    as (s1 & q1 & t1 & E' & _).
  rewrite E in E'. apply Ok_inj in E'.
  apply (f_equal (fun x => x.1.2)) in E'. cbn [fst snd] in E'. rewrite E' in Hin.
  unfold forward_events in Hin. apply list_elem_of_bind in Hin as (j & Hin & Hj).
  apply slot_events_packet in Hin as (Hr & -> & Hfn & _). split; [done|].
  apply andb_true_iff in Hr as [(Ha & Hja & He)%eligible_inv _].
  exists a, b, ssrc, q, t, j, (slot s j). split; [done|]. split; [|done].
  apply elem_of_seqZ in Hj. unfold slot.
  destruct (rd_in_range (sf_participants s) j) as [r Hr]; [by rewrite (fwf_slots s Hwf)|].
  by rewrite Hr.
Qed.

(** After a simulcast packet is forwarded, an eligible receiver's layer is
    within its policy, the stream's layers and, with bandwidth adaptation, its
    bandwidth class; it rises only two seconds after the last change, and a
    change is dated. *)
Theorem sfu_layer_policy s id packet l now a b ssrc q t j r :
  sfu_wf s -> 12 <= l <= len packet -> sends s id packet l a b ssrc q t ->
  rd (sf_participants s) j = Ok r -> eligible a t j r = true -> 1 < st_layer_count t ->
  exists s' ev k q' t',
    sfu_forward_packet (Some s) (Some id) (Some packet) l now = Ok (s', ev, k) /\
    rd (sf_participants s') a = Ok q' /\ rd (pt_streams q') b = Ok t' /\
    let old := nth0 (st_current_layer_by_receiver t) j in
    let new := nth0 (st_current_layer_by_receiver t') j in
    0 <= new <= nth0 (st_max_layer_by_receiver t) j /\ new < st_layer_count t /\
    (truth (sf_enable_bandwidth_adaptation s) = true ->
     new <= select_layer_for_bandwidth (pt_available_bandwidth r)) /\
    (old < new -> 2000000 <= now - nth0 (st_last_layer_switch_us_by_receiver t) j) /\
    (old <> new -> nth0 (st_last_layer_switch_us_by_receiver t') j = now).
Proof.
  intros Hwf Hl Hs Hr He Hc.
  destruct (forward_packet_sends s id packet l now a b ssrc q t Hwf Hl Hs)
    as (s' & q' & t' & E & [_ Hq Ht] & H).
  do 3 eexists. exists q', t'. split; [exact E|]. split; [done|]. split; [done|].
  pose proof (rd_bounds _ _ _ Hr) as Hj. rewrite (fwf_slots s Hwf) in Hj.
  destruct (H j Hj) as [Hcur Htime]. cbv zeta. rewrite Hcur, Htime.
  assert (Hslot : slot s j = r) by (unfold slot; by rewrite Hr).
  unfold layer_after, switch_time_after, switches. rewrite Hslot, He. cbn [andb].
  pose proof (sfu_wf_stream _ _ _ _ _ Hwf (sd_sender _ _ _ _ _ _ _ _ _ Hs)
    (sd_stream _ _ _ _ _ _ _ _ _ Hs)) as Hwt.
  pose proof (best_layer_range (sf_enable_bandwidth_adaptation s) t j r Hwt Hj) as Hb.
  pose proof (current_layer_range t j Hwt Hj) as Hcr.
  unfold next_layer. replace (1 <? st_layer_count t) with true by lia. cbn [andb].
  set (best := best_layer _ t j r) in *. set (old := nth0 (st_current_layer_by_receiver t) j) in *.
  set (last := nth0 (st_last_layer_switch_us_by_receiver t) j).
  assert (Hbest : best <= nth0 (st_max_layer_by_receiver t) j /\ best < st_layer_count t /\
    (truth (sf_enable_bandwidth_adaptation s) = true ->
     best <= select_layer_for_bandwidth (pt_available_bandwidth r))).
  { unfold best, best_layer. destruct (truth _); (split_and!; [lia|lia|]); intros; [lia|done]. }
  unfold is_layer in *.
  destruct Hbest as (H1 & H2 & H3).
  destruct ((best <? old) || (old <? best) && (2000000 <=? now - last)) eqn:Esw.
  - split_and!; try done; try lia. intros Hne. by replace (negb (best =? old)) with true by lia.
  - assert (old <= best) by lia. split_and!; lia || auto with lia.
Qed.

(* ------------------------------------------------------------------ *)
(** ** Observations *)

(** [find_participant] only searches the first [participant_count] slots, but a
    removal leaves a hole: when the first of two participants leaves, the other
    can no longer be found, and can be added a second time. *)
Theorem sfu_removal_hides_participant :
  exists s0 s1 s2,
    sfu_create 0 true = Some s0 /\
    sfu_run s0 [AddParticipant "a"; AddParticipant "b"; RemoveParticipant "a"] = Ok s1 /\
    sfu_get_participant_list (Some s1) (Some tt) 50 = ["b"%string] /\
    find_participant s1 "b" = Ok None /\
    sfu_add_participant (Some s1) (Some "b"%string) = Ok (s2, [], 0) /\
    sfu_get_participant_list (Some s2) (Some tt) 50 = ["b"%string; "b"%string].
Proof.
  do 3 eexists. split; [vm_compute; reflexivity|]. split; [vm_compute; reflexivity|].
  split; [vm_compute; reflexivity|]. split; [vm_compute; reflexivity|].
  split; [vm_compute; reflexivity|]. vm_compute. reflexivity.
Qed.

(** A packet of a single-layer stream with SSRC 7. *)
Definition example_rtp : list Z := [128; 96; 0; 1; 0; 0; 0; 0; 0; 0; 0; 7; 99].

(** The policy for a slot outlives its participant: "c" takes the slot of "b",
    whom the stream was blocked for, and gets nothing. *)
Theorem sfu_policy_outlives_participant :
  exists s0 s1 s2,
    sfu_create 0 true = Some s0 /\
    sfu_run s0 [AddParticipant "a"; AddStream "a" 7 None 0; AddParticipant "b";
                SetPolicy "b" "a" 7 0 2; RemoveParticipant "b"; AddParticipant "c";
                SetCallback "c" (Some 1) 0] = Ok s1 /\
    sfu_forward_packet (Some s1) (Some "a"%string) (Some example_rtp) 13 5 = Ok (s2, [], 0).
Proof.
  do 3 eexists. split; [vm_compute; reflexivity|]. split; [vm_compute; reflexivity|].
  vm_compute. reflexivity.
Qed.

(* ------------------------------------------------------------------ *)
(** ** Witnesses *)

(** "a" sends one stream in three layers (SSRCs 5, 6 and 7) to "b", whose
    bandwidth only allows the middle one, and to "c". *)
Definition example_calls : list sfu_op :=
  [AddParticipant "a"; AddParticipant "b"; AddParticipant "c";
   SetKeyframeCallback "a" (Some 10) 100;
   SetCallback "b" (Some 11) 101; SetCallback "c" (Some 12) 102;
   AddStream "a" 7 (Some [5; 6; 7]) 3; SetBandwidth "b" 1500000 1;
   SetPolicy "c" "a" 7 1 2].

Definition example_sfu : sfu_context_t :=
  Eval vm_compute in
  match sfu_create 10 true with
  | Some s => match sfu_run s example_calls with Ok s => s | _ => s end
  | None => Build_sfu_context_t [] 0 0 0 0 0 0 0 None None 0
  end.

Lemma example_calls_ok : Forall sfu_op_ok example_calls.
Proof. repeat constructor. intros _. discriminate. Defined.

Lemma example_sfu_wf : sfu_wf example_sfu.
Proof.
  refine (sfu_run_result example_calls _ example_sfu (sfu_create_wf 10 _ eq_refl)
            example_calls_ok _).
  vm_compute. reflexivity.
Qed.

Definition example_sender : sfu_participant_t :=
  Eval vm_compute in slot example_sfu 0.
Definition example_stream : sfu_stream_t :=
  Eval vm_compute in match pt_streams (slot example_sfu 0) with
                     | t :: _ => t | [] => fresh_stream 0 [] 0 end.

Lemma example_sends :
  sends example_sfu "a" example_rtp 13 0 0 7 example_sender example_stream.
Proof. constructor; vm_compute; reflexivity. Defined.

Lemma sfu_table_invariant_witness :
  exists s0 s, sfu_create 10 true = Some s0 /\ sfu_run s0 example_calls = Ok s /\
    sf_participant_count s = active_count (sf_participants s) /\
    sf_participant_count s <= sf_max_participants s <= SFU_MAX_PARTICIPANTS /\
    len (sf_participants s) = SFU_MAX_PARTICIPANTS /\
    Forall participant_wf (sf_participants s).
Proof. exact (sfu_table_invariant 10 example_calls example_calls_ok). Defined.

(** "b" is switched to the middle layer, with a keyframe request; "c" gets the
    packet. *)
Example example_forward :
  forward_events example_sfu 0 9 7 example_sender example_stream example_rtp all_slots =
  [EvKeyframe 10 100 6; EvPacket 12 102 example_rtp].
Proof. vm_compute. reflexivity. Qed.

Lemma sfu_forward_packet_spec_witness :
  exists s' q' t',
    sfu_forward_packet (Some example_sfu) (Some "a"%string) (Some example_rtp) 13 9 =
      Ok (s', forward_events example_sfu 0 9 7 example_sender example_stream
                (take (Z.to_nat 13) example_rtp) all_slots,
          len (receivers example_sfu 0 9 7 example_stream all_slots)) /\
    rd (sf_participants s') 0 = Ok q' /\ rd (pt_streams q') 0 = Ok t' /\
    forall j, 0 <= j < SFU_MAX_PARTICIPANTS ->
      nth0 (st_current_layer_by_receiver t') j = layer_after example_sfu 0 9 example_stream j /\
      nth0 (st_last_layer_switch_us_by_receiver t') j =
        switch_time_after example_sfu 0 9 example_stream j.
Proof.
  apply (sfu_forward_packet_spec example_sfu "a" example_rtp 13 9 0 0 7 example_sender
    example_stream example_sfu_wf); [split; discriminate|exact example_sends].
Defined.

Definition example_result : sfu_context_t :=
  Eval vm_compute in
  match sfu_forward_packet (Some example_sfu) (Some "a"%string) (Some example_rtp) 13 9 with
  | Ok (s, _, _) => s | _ => example_sfu end.

Lemma sfu_forward_confined_witness :
  example_rtp = take (Z.to_nat 13) example_rtp /\
  exists a b ssrc q t j r, sends example_sfu "a" example_rtp 13 a b ssrc q t /\
    rd (sf_participants example_sfu) j = Ok r /\ j <> a /\ truth (pt_active r) = true /\
    pt_on_packet r = Some 12 /\ truth (nth0 (st_enabled_by_receiver t) j) = true.
Proof.
  apply (sfu_forward_confined example_sfu "a" example_rtp 13 9 example_result
    [EvKeyframe 10 100 6; EvPacket 12 102 example_rtp] 1 12 102 example_rtp example_sfu_wf);
    [discriminate|vm_compute; reflexivity|].
  right. left.
Defined.

Lemma sfu_layer_policy_witness :
  exists s' ev k q' t',
    sfu_forward_packet (Some example_sfu) (Some "a"%string) (Some example_rtp) 13 9 =
      Ok (s', ev, k) /\
    rd (sf_participants s') 0 = Ok q' /\ rd (pt_streams q') 0 = Ok t' /\
    let old := nth0 (st_current_layer_by_receiver example_stream) 1 in
    let new := nth0 (st_current_layer_by_receiver t') 1 in
    0 <= new <= nth0 (st_max_layer_by_receiver example_stream) 1 /\
    new < st_layer_count example_stream /\
    (truth (sf_enable_bandwidth_adaptation example_sfu) = true ->
     new <= select_layer_for_bandwidth (pt_available_bandwidth (slot example_sfu 1))) /\
    (old < new -> 2000000 <= 9 - nth0 (st_last_layer_switch_us_by_receiver example_stream) 1) /\
    (old <> new -> nth0 (st_last_layer_switch_us_by_receiver t') 1 = 9).
Proof.
  apply (sfu_layer_policy example_sfu "a" example_rtp 13 9 0 0 7 example_sender example_stream 1
    (slot example_sfu 1) example_sfu_wf);
    [split; discriminate|exact example_sends|vm_compute; reflexivity|vm_compute; reflexivity
    |reflexivity].
Defined.
