(* ===== verification/Version.v ===== *)
(** * Versions of replicated tables

    A media node holds replicas of tables owned by a control plane (tenant
    leases, revoked tokens).  Every change carries an epoch and a sequence
    number; this file has their order and what a replica that lost a change
    demands. *)

From S2P Require Import Prelude.

(** Versions are ordered by epoch, then sequence. *)
Definition version_lt (a b : Z * Z) : bool :=
  (a.1 <? b.1) || ((a.1 =? b.1) && (a.2 <? b.2)).

Lemma version_lt_trans a b c :
  version_lt a b = true -> version_lt b c = true -> version_lt a c = true.
Proof. unfold version_lt. intros. lia. Qed.

Lemma version_lt_irrefl a : version_lt a a = false.
Proof. unfold version_lt. lia. Qed.

Lemma version_lt_total a b : version_lt a b = false -> version_lt b a = true \/ a = b.
Proof.
  unfold version_lt. destruct a as [a1 a2], b as [b1 b2]. cbn. intros H.
  destruct (decide (a1 = b1 /\ a2 = b2)) as [[-> ->]|]; [by right|left; lia].
Qed.

(** The version a replica waits for, after it missed [v]. *)
Definition demanded (required v : Z * Z) : Z * Z :=
  if version_lt required v then v else required.

Lemma demanded_ge required v :
  version_lt (demanded required v) required = false /\ version_lt (demanded required v) v = false.
Proof.
  unfold demanded. destruct (version_lt required v) eqn:E.
  - split; [|apply version_lt_irrefl]. destruct (version_lt v required) eqn:E'; [|done].
    pose proof (version_lt_trans _ _ _ E E') as H. by rewrite version_lt_irrefl in H.
  - split; [apply version_lt_irrefl|done].
Qed.

(** The code's test of a gap: the version is not the next one. *)
Lemma next_version ve vs e s :
  is_u64 vs -> is_u64 s ->
  negb (e =? ve) || (vs =? 18446744073709551615) || negb (s =? u64 (vs + 1)) =
  negb (bool_decide ((e, s) = (ve, vs + 1))).
Proof.
  intros Hqs Hsq. unfold is_u64 in *.
  destruct (Z.eqb_spec e ve) as [->|Hne].
  - cbn [negb orb]. destruct (Z.eqb_spec vs 18446744073709551615) as [Heq|Hne]; cbn [orb].
    + rewrite bool_decide_false; [done|]. intros [= ->]. lia.
    + rewrite u64_id by (unfold is_u64; lia). f_equal.
      destruct (Z.eqb_spec s (vs + 1)) as [->|Hn];
        [by rewrite bool_decide_true|rewrite bool_decide_false; congruence].
  - rewrite bool_decide_false by congruence. done.
Qed.
