(* ===== verification/Revocation.v ===== *)
(** * Revoked tokens (src/webrtc/src/auth/turbo_media_revocation.c)

    A node's bounded replica of the set of revoked token digests: versioned
    snapshots, exact-next revocations, and the check that authorization makes.
    The digests are one flat byte buffer; the specification is a finite set. *)

From stdpp Require Import strings gmap.
From S2P Require Import Prelude Version.

(* ------------------------------------------------------------------ *)
(** ** Data *)

Definition MAX_REVOKED_TOKENS : Z := 256.
Definition SHA256_BYTES : Z := 32.
Definition SHA256_HEX_BYTES : Z := 64.

Inductive revocation_result :=
  | REVOCATION_ERROR | REVOCATION_APPLIED | REVOCATION_STALE | REVOCATION_GAP
  | REVOCATION_LIMIT.

Inductive revocation_status := STATUS_UNKNOWN | STATUS_CLEAR | STATUS_REVOKED.

Record revocation_state_t := {
  rv_epoch : Z;
  rv_sequence : Z;
  rv_required_epoch : Z;
  rv_required_sequence : Z;
  rv_count : Z;
  rv_max_entries : Z;
  rv_synchronized : Z;
  rv_digests : list Z }.

(* ------------------------------------------------------------------ *)
(** ** Digests *)

Definition revocation_hex_nibble (value : Ascii.ascii) : option Z :=
  let v := Z.of_N (Ascii.N_of_ascii value) in
  if (48 <=? v) && (v <=? 57) then Some (u8 (v - 48)) else
  if (97 <=? v) && (v <=? 102) then Some (u8 (v - 97 + 10)) else None.

(** The loop of [revocation_parse_digest]: [n] bytes from character [2 * index]
    on. *)
Fixpoint parse_digest_loop (value : list Ascii.ascii) (index : Z) (n : nat)
    : res (option (list Z)) :=
  match n with
  | O => Ok (Some [])
  | S n =>
    h ← rd value (index * 2);
    let? high := revocation_hex_nibble h else Ok None in
    l ← rd value (index * 2 + 1);
    let? low := revocation_hex_nibble l else Ok None in
    r ← parse_digest_loop value (index + 1) n;
    let? output := r else Ok None in
    Ok (Some (u8 (Z.lor (Z.shiftl high 4) low) :: output))
  end.

(** [None] is the return of [-1]. *)
Definition revocation_parse_digest (value : option string) : res (option (list Z)) :=
  let? v := value else Ok None in
  let s := String.list_ascii_of_string v in
  if negb (len s =? SHA256_HEX_BYTES) then Ok None else
  parse_digest_loop s 0 (Z.to_nat SHA256_BYTES).

Definition revocation_digest_equal (left right : list Z) : bool := bool_decide (left = right).

(** The loop of [revocation_find] from entry [index] on, [n] entries. *)
Fixpoint find_loop (digests digest : list Z) (index : Z) (n : nat) : res bool :=
  match n with
  | O => Ok false
  | S n =>
    entry ← rd_slice digests (index * SHA256_BYTES) SHA256_BYTES;
    if revocation_digest_equal entry digest then Ok true
    else find_loop digests digest (index + 1) n
  end.

Definition revocation_find (state : option revocation_state_t) (digest : option (list Z))
    : res bool :=
  let? s := state else Ok false in
  let? d := digest else Ok false in
  find_loop (rv_digests s) d 0 (Z.to_nat (rv_count s)).

Definition revocation_version_less (epoch sequence other_epoch other_sequence : Z) : bool :=
  (epoch <? other_epoch) || ((epoch =? other_epoch) && (sequence <? other_sequence)).

Definition revocation_require_snapshot (s : revocation_state_t) (epoch sequence : Z)
    : revocation_state_t :=
  let '(e, q) :=
    if (rv_required_epoch s =? 0) ||
       revocation_version_less (rv_required_epoch s) (rv_required_sequence s) epoch sequence
    then (epoch, sequence) else (rv_required_epoch s, rv_required_sequence s) in
  Build_revocation_state_t (rv_epoch s) (rv_sequence s) e q (rv_count s) (rv_max_entries s) 0
    (rv_digests s).

(* ------------------------------------------------------------------ *)
(** ** Operations *)

Definition revocation_state_create (max_entries : Z) (mem : bool) : option revocation_state_t :=
  if (max_entries =? 0) || (MAX_REVOKED_TOKENS <? max_entries) ||
     (18446744073709551615 / SHA256_BYTES <? max_entries) then None else
  if mem then
    Some (Build_revocation_state_t 0 0 0 0 0 max_entries 0
            (replicate (Z.to_nat (max_entries * SHA256_BYTES)) 0))
  else None.

(** The inner loop over the digests before [index]: [n] of them from
    [previous] on. *)
Fixpoint digest_repeated (parsed entry : list Z) (previous : Z) (n : nat) : res bool :=
  match n with
  | O => Ok false
  | S n =>
    existing ← rd_slice parsed (previous * SHA256_BYTES) SHA256_BYTES;
    if revocation_digest_equal entry existing then Ok true
    else digest_repeated parsed entry (previous + 1) n
  end.

(** The loop over the strings of a snapshot; [None] when one is malformed or
    repeated. *)
Fixpoint parse_snapshot (hex : list (option string)) (parsed : list Z) (index : Z)
    : res (option (list Z)) :=
  match hex with
  | [] => Ok (Some parsed)
  | h :: hex =>
    r ← revocation_parse_digest h;
    let? digest := r else Ok None in
    parsed ← wr parsed (index * SHA256_BYTES) digest;
    entry ← rd_slice parsed (index * SHA256_BYTES) SHA256_BYTES;
    repeated ← digest_repeated parsed entry 0 (Z.to_nat index);
    if (repeated : bool) then Ok None else parse_snapshot hex parsed (index + 1)
  end.

(** [sha256_hex] points to at least [count] string pointers. *)
Definition revocation_apply_snapshot (state : option revocation_state_t) (epoch sequence : Z)
    (sha256_hex : option (list (option string))) (count : Z) (mem : bool)
    : res (option revocation_state_t * revocation_result) :=
  let? s := state else Ok (None, REVOCATION_ERROR) in
  if (epoch =? 0) || ((0 <? count) && bool_decide (sha256_hex = None))
  then Ok (Some s, REVOCATION_ERROR) else
  if (if truth (rv_synchronized s)
      then (epoch <? rv_epoch s) || ((epoch =? rv_epoch s) && (sequence <=? rv_sequence s))
      else negb (rv_required_epoch s =? 0) &&
           revocation_version_less epoch sequence (rv_required_epoch s) (rv_required_sequence s))
  then Ok (Some s, REVOCATION_STALE) else
  if rv_max_entries s <? count
  then Ok (Some (revocation_require_snapshot s epoch sequence), REVOCATION_LIMIT) else
  if (0 <? count) && negb mem
  then Ok (Some (revocation_require_snapshot s epoch sequence), REVOCATION_ERROR) else
  hex ← rd_slice (default [] sha256_hex) 0 count;
  r ← parse_snapshot hex (replicate (Z.to_nat (count * SHA256_BYTES)) 0) 0;
  let? parsed := r
    else Ok (Some (revocation_require_snapshot s epoch sequence), REVOCATION_ERROR) in
  digests ← wr (replicate (Z.to_nat (rv_max_entries s * SHA256_BYTES)) 0) 0 parsed;
  Ok (Some (Build_revocation_state_t epoch sequence 0 0 count (rv_max_entries s) 1 digests),
      REVOCATION_APPLIED).

Definition revocation_apply_revoke (state : option revocation_state_t) (epoch sequence : Z)
    (sha256_hex : option string) : res (option revocation_state_t * revocation_result) :=
  let? s := state else Ok (None, REVOCATION_ERROR) in
  if (epoch =? 0) || (sequence =? 0) || bool_decide (sha256_hex = None)
  then Ok (Some s, REVOCATION_ERROR) else
  if negb (truth (rv_synchronized s)) then
    d ← revocation_parse_digest sha256_hex;
    Ok (Some (revocation_require_snapshot s epoch sequence),
        match d with Some _ => REVOCATION_GAP | None => REVOCATION_ERROR end)
  else
  if (epoch <? rv_epoch s) || ((epoch =? rv_epoch s) && (sequence <=? rv_sequence s))
  then Ok (Some s, REVOCATION_STALE) else
  if negb (epoch =? rv_epoch s) || negb (sequence =? u64 (rv_sequence s + 1))
  then Ok (Some (revocation_require_snapshot s epoch sequence), REVOCATION_GAP) else
  d ← revocation_parse_digest sha256_hex;
  let? digest := d
    else Ok (Some (revocation_require_snapshot s epoch sequence), REVOCATION_ERROR) in
  found ← revocation_find (Some s) (Some digest);
  if (found : bool) then
    Ok (Some (Build_revocation_state_t (rv_epoch s) sequence (rv_required_epoch s)
                (rv_required_sequence s) (rv_count s) (rv_max_entries s) (rv_synchronized s)
                (rv_digests s)), REVOCATION_APPLIED)
  else if rv_max_entries s <=? rv_count s
  then Ok (Some (revocation_require_snapshot s epoch sequence), REVOCATION_LIMIT)
  else
    digests ← wr (rv_digests s) (rv_count s * SHA256_BYTES) digest;
    Ok (Some (Build_revocation_state_t (rv_epoch s) sequence (rv_required_epoch s)
                (rv_required_sequence s) (rv_count s + 1) (rv_max_entries s)
                (rv_synchronized s) digests), REVOCATION_APPLIED).

Definition revocation_is_synchronized (state : option revocation_state_t) : Z :=
  let? s := state else 0 in b2i (truth (rv_synchronized s)).
Definition revocation_epoch (state : option revocation_state_t) : Z :=
  let? s := state else 0 in rv_epoch s.
Definition revocation_sequence (state : option revocation_state_t) : Z :=
  let? s := state else 0 in rv_sequence s.
Definition revocation_count (state : option revocation_state_t) : Z :=
  let? s := state else 0 in rv_count s.

Definition revocation_check_digest (context : option revocation_state_t)
    (sha256 : option (list Z)) (sha256_size : Z) : res revocation_status :=
  let? s := context else Ok STATUS_UNKNOWN in
  let? d := sha256 else Ok STATUS_UNKNOWN in
  if negb (sha256_size =? SHA256_BYTES) || negb (truth (rv_synchronized s))
  then Ok STATUS_UNKNOWN else
  found ← revocation_find (Some s) (Some d);
  Ok (if (found : bool) then STATUS_REVOKED else STATUS_CLEAR).

(* ------------------------------------------------------------------ *)
(** ** Specification: a versioned set of digests *)

Record revoked := {
  rk_max : Z;
  rk_synchronized : bool;
  rk_version : Z * Z;
  rk_required : Z * Z;
  rk_digests : gset (list Z) }.

(** The value of a string of hexadecimal digits, two for each byte. *)
Fixpoint hex_bytes (s : list Ascii.ascii) : option (list Z) :=
  match s with
  | [] => Some []
  | [_] => None
  | h :: l :: s =>
    high ← revocation_hex_nibble h; low ← revocation_hex_nibble l;
    bs ← hex_bytes s; Some (16 * high + low :: bs)
  end.

Definition digest_of (value : option string) : option (list Z) :=
  v ← value;
  if len (String.list_ascii_of_string v) =? SHA256_HEX_BYTES
  then hex_bytes (String.list_ascii_of_string v) else None.

(** The digests of a valid snapshot. *)
Definition snapshot_digests (hex : list (option string)) : option (list (list Z)) :=
  ds ← mapM digest_of hex;
  if decide (NoDup ds) then Some ds else None.

Definition rk_demand (k : revoked) (v : Z * Z) : revoked :=
  {| rk_max := rk_max k; rk_synchronized := false; rk_version := rk_version k;
     rk_required := demanded (rk_required k) v; rk_digests := rk_digests k |}.

Definition rk_snapshot (k : revoked) (v : Z * Z) (hex : list (option string)) (mem : bool)
    : revoked * revocation_result :=
  if v.1 =? 0 then (k, REVOCATION_ERROR) else
  if (if rk_synchronized k then negb (version_lt (rk_version k) v)
      else version_lt v (rk_required k)) then (k, REVOCATION_STALE) else
  if rk_max k <? len hex then (rk_demand k v, REVOCATION_LIMIT) else
  if (0 <? len hex) && negb mem then (rk_demand k v, REVOCATION_ERROR) else
  match snapshot_digests hex with
  | None => (rk_demand k v, REVOCATION_ERROR)
  | Some ds =>
    ({| rk_max := rk_max k; rk_synchronized := true; rk_version := v; rk_required := (0, 0);
        rk_digests := list_to_set ds |}, REVOCATION_APPLIED)
  end.

Definition rk_revoke (k : revoked) (v : Z * Z) (hex : option string)
    : revoked * revocation_result :=
  if (v.1 =? 0) || (v.2 =? 0) || bool_decide (hex = None) then (k, REVOCATION_ERROR) else
  if negb (rk_synchronized k)
  then (rk_demand k v,
        match digest_of hex with Some _ => REVOCATION_GAP | None => REVOCATION_ERROR end) else
  if negb (version_lt (rk_version k) v) then (k, REVOCATION_STALE) else
  if negb (bool_decide (v = ((rk_version k).1, (rk_version k).2 + 1)))
  then (rk_demand k v, REVOCATION_GAP) else
  match digest_of hex with
  | None => (rk_demand k v, REVOCATION_ERROR)
  | Some d =>
    if bool_decide (d ∉ rk_digests k) && (rk_max k <=? Z.of_nat (size (rk_digests k)))
    then (rk_demand k v, REVOCATION_LIMIT)
    else ({| rk_max := rk_max k; rk_synchronized := true; rk_version := v;
             rk_required := rk_required k; rk_digests := {[d]} ∪ rk_digests k |},
          REVOCATION_APPLIED)
  end.

(** What authorization learns about a token. *)
Definition rk_check (k : revoked) (d : list Z) : revocation_status :=
  if rk_synchronized k
  then if decide (d ∈ rk_digests k) then STATUS_REVOKED else STATUS_CLEAR
  else STATUS_UNKNOWN.

(* ------------------------------------------------------------------ *)
(** ** Digests *)

Lemma nibble_range c v : revocation_hex_nibble c = Some v -> 0 <= v < 16.
Proof.
  unfold revocation_hex_nibble, u8. intros H.
  repeat case_match; simplify_eq; rewrite Z.mod_small; lia.
Qed.

Lemma nibbles_value h l : 0 <= h < 16 -> 0 <= l < 16 -> u8 (Z.lor (Z.shiftl h 4) l) = 16 * h + l.
Proof. intros. rewrite lor_shiftl_add by lia. rewrite u8_id by (unfold is_u8; lia). lia. Qed.

Lemma parse_digest_loop_spec n pre rest index :
  len pre = index * 2 -> len rest = 2 * Z.of_nat n ->
  parse_digest_loop (pre ++ rest) index n = Ok (hex_bytes rest).
Proof.
  revert pre rest index. induction n as [|n IH]; intros pre rest index Hp Hr; cbn [parse_digest_loop].
  { by destruct rest; [|rewrite len_cons in Hr; pose proof (len_nonneg rest); lia]. }
  destruct rest as [|h [|l rest]]; [len_lia|len_lia|].
  rewrite !len_cons in Hr. rewrite (rd_mid pre h _ (index * 2)) by done. cbn [mbind res_bind hex_bytes].
  destruct (revocation_hex_nibble h) as [hi|] eqn:Eh; cbn [mbind option_bind]; [|done].
  rewrite (cons_middle h), (app_assoc pre [h]).
  rewrite (rd_mid (pre ++ [h]) l _ (index * 2 + 1)) by (rewrite len_app; unfold len at 2; cbn [length]; lia).
  cbn [mbind res_bind].
  destruct (revocation_hex_nibble l) as [lo|] eqn:El; cbn [mbind option_bind]; [|done].
  rewrite (cons_middle l), (app_assoc (pre ++ [h])).
  rewrite IH; [|rewrite !len_app; unfold len at 2 3; cbn [length]; lia|lia].
  cbn [mbind res_bind].
  apply nibble_range in Eh. apply nibble_range in El. rewrite nibbles_value by done.
  by destruct (hex_bytes rest).
Qed.

Lemma parse_digest_spec v : revocation_parse_digest v = Ok (digest_of v).
Proof.
  unfold revocation_parse_digest, digest_of. destruct v as [v|]; cbn [mbind option_bind]; [|done].
  destruct (Z.eqb_spec (len (String.list_ascii_of_string v)) SHA256_HEX_BYTES) as [Hl|]; cbn [negb]; [|done].
  by apply (parse_digest_loop_spec (Z.to_nat SHA256_BYTES) [] (String.list_ascii_of_string v) 0).
Qed.

Lemma hex_bytes_ok s bs : hex_bytes s = Some bs -> len s = 2 * len bs /\ bytes bs.
Proof.
  revert bs. induction s as [s IH] using (induction_ltof1 _ (@length Ascii.ascii)). intros bs Hb.
  destruct s as [|h [|l s]]; cbn [hex_bytes] in Hb;
    [injection Hb as <-; split; [done|constructor]|done|].
  destruct (revocation_hex_nibble h) as [hi|] eqn:Eh; [|done].
  destruct (revocation_hex_nibble l) as [lo|] eqn:El; [|done]. cbn [mbind option_bind] in Hb.
  destruct (hex_bytes s) as [bs'|] eqn:Es; [|done]. injection Hb as <-.
  apply IH in Es as [Hl Hbs]; [|unfold ltof; cbn; lia].
  apply nibble_range in Eh. apply nibble_range in El. rewrite !len_cons. split; [lia|].
  constructor; [unfold is_u8; lia|done].
Qed.

Definition digest_wf (d : list Z) : Prop := len d = SHA256_BYTES /\ bytes d.

Lemma digest_of_wf v d : digest_of v = Some d -> digest_wf d.
Proof.
  unfold digest_of. destruct v as [v|]; [|done]. cbn [mbind option_bind].
  destruct (Z.eqb_spec (len (String.list_ascii_of_string v)) SHA256_HEX_BYTES) as [Hl|]; [|done].
  intros [H1 H2]%hex_bytes_ok. split; [|done]. unfold SHA256_BYTES, SHA256_HEX_BYTES in *. lia.
Qed.

(* ------------------------------------------------------------------ *)
(** ** The digest table *)

Lemma len_concat ds : Forall digest_wf ds -> len (concat ds) = len ds * SHA256_BYTES.
Proof.
  unfold SHA256_BYTES. induction 1 as [|d ds [Hd _] _ IH]; [done|].
  cbn [concat]. rewrite len_app, len_cons, IH, Hd. unfold SHA256_BYTES. lia.
Qed.

(** Entry [len pre] of a table that starts with the digests [pre ++ d :: ...]. *)
Lemma rd_entry pre d rest :
  Forall digest_wf pre -> len d = SHA256_BYTES ->
  rd_slice (concat pre ++ d ++ rest) (len pre * SHA256_BYTES) SHA256_BYTES = Ok d.
Proof. intros Hp Hd. apply rd_slice_mid; [by apply len_concat|done]. Qed.

Lemma bool_decide_elem_cons (d x : list Z) ds :
  bool_decide (d ∈ x :: ds) = bool_decide (x = d) || bool_decide (d ∈ ds).
Proof.
  rewrite (bool_decide_ext (d ∈ x :: ds) (x = d \/ d ∈ ds)).
  - apply bool_decide_or.
  - rewrite elem_of_cons. naive_solver.
Qed.

Lemma find_loop_spec d ds pre rest :
  Forall digest_wf pre -> Forall digest_wf ds ->
  find_loop (concat (pre ++ ds) ++ rest) d (len pre) (length ds) = Ok (bool_decide (d ∈ ds)).
Proof.
  revert pre. induction ds as [|x ds IH]; intros pre Hp Hds.
  { cbn [find_loop length]. by rewrite bool_decide_false by apply not_elem_of_nil. }
  apply Forall_cons in Hds as [Hx Hds]. cbn [find_loop length].
  rewrite concat_app. cbn [concat]. rewrite <- !app_assoc.
  rewrite rd_entry by (done || apply Hx). cbn [mbind res_bind].
  rewrite bool_decide_elem_cons. unfold revocation_digest_equal.
  destruct (bool_decide (x = d)); [done|]. cbn [orb].
  rewrite <- (IH (pre ++ [x])); [|by apply Forall_app_2; [|constructor]|done].
  rewrite len_app. change (len [x]) with 1.
  rewrite !concat_app. cbn [concat]. by rewrite app_nil_r, <- !app_assoc.
Qed.

Lemma digest_repeated_spec d ds pre rest :
  Forall digest_wf pre -> Forall digest_wf ds ->
  digest_repeated (concat (pre ++ ds) ++ rest) d (len pre) (length ds) = Ok (bool_decide (d ∈ ds)).
Proof.
  revert pre. induction ds as [|x ds IH]; intros pre Hp Hds.
  { cbn [digest_repeated length]. by rewrite bool_decide_false by apply not_elem_of_nil. }
  apply Forall_cons in Hds as [Hx Hds]. cbn [digest_repeated length].
  rewrite concat_app. cbn [concat]. rewrite <- !app_assoc.
  rewrite rd_entry by (done || apply Hx). cbn [mbind res_bind].
  rewrite bool_decide_elem_cons. unfold revocation_digest_equal.
  rewrite (bool_decide_ext (d = x) (x = d)) by (split; congruence).
  destruct (bool_decide (x = d)); [done|]. cbn [orb].
  rewrite <- (IH (pre ++ [x])); [|by apply Forall_app_2; [|constructor]|done].
  rewrite len_app. change (len [x]) with 1.
  rewrite !concat_app. cbn [concat]. by rewrite app_nil_r, <- !app_assoc.
Qed.

(** The snapshot loop fills the buffer with the digests, if they are valid and
    distinct. *)
Lemma parse_snapshot_spec hex ds :
  Forall digest_wf ds -> NoDup ds ->
  parse_snapshot hex (concat ds ++ replicate (length hex * 32) 0) (len ds) =
  Ok (match mapM digest_of hex with
      | Some es => if decide (NoDup (ds ++ es)) then Some (concat (ds ++ es)) else None
      | None => None
      end).
Proof.
  revert ds. induction hex as [|h hex IH]; intros ds Hds Hn; cbn [parse_snapshot].
  { cbn. rewrite !app_nil_r. by rewrite decide_True. }
  rewrite parse_digest_spec. cbn [mbind res_bind].
  change (mapM digest_of (h :: hex)) with
    (d ← digest_of h; es ← mapM digest_of hex; Some (d :: es)).
  destruct (digest_of h) as [d|] eqn:Eh; cbn [mbind option_bind]; [|done].
  pose proof (digest_of_wf _ _ Eh) as Hd.
  assert (Hd32 : length d = 32%nat) by (destruct Hd as [H _]; unfold len, SHA256_BYTES in H; lia).
  rewrite wr_next; [|by apply len_concat|rewrite len_replicate; cbn [length]; destruct Hd as [-> _]; unfold SHA256_BYTES; lia].
  cbn [mbind res_bind]. rewrite drop_replicate, Hd32.
  replace (length (h :: hex) * 32 - 32)%nat with (length hex * 32)%nat by (cbn [length]; lia).
  rewrite <- app_assoc, rd_entry by (done || apply Hd). cbn [mbind res_bind].
  rewrite len_to_nat. pose proof (digest_repeated_spec d ds [] (d ++ replicate (length hex * 32) 0)
    ltac:(done) Hds) as Hrep. cbn [app len length] in Hrep. change (len []) with 0 in Hrep.
  rewrite Hrep. cbn [mbind res_bind]. case_bool_decide as Hin.
  - destruct (mapM digest_of hex) as [es|]; cbn [mbind option_bind mret option_ret]; [|done].
    rewrite decide_False; [done|]. intros (_ & H & _)%NoDup_app. apply (H d Hin). by left.
  - rewrite app_assoc. replace (concat ds ++ d) with (concat (ds ++ [d]))
      by (rewrite concat_app; cbn; by rewrite app_nil_r).
    replace (len ds + 1) with (len (ds ++ [d])) by (rewrite len_app; done).
    rewrite IH.
    + destruct (mapM digest_of hex) as [es|]; cbn [mbind option_bind mret option_ret]; [|done].
      by rewrite <- (assoc_L (++) ds).
    + by apply Forall_app_2; [|constructor].
    + apply NoDup_app. split; [done|]. split; [|by apply NoDup_singleton].
      intros x Hx ->%list_elem_of_singleton. done.
Qed.

(* ------------------------------------------------------------------ *)
(** ** Simulation *)

(** The first [rv_count] entries of the table are the digests of the set. *)
Definition table_rep (s : revocation_state_t) (ds : list (list Z)) : Prop :=
  NoDup ds /\ Forall digest_wf ds /\ len ds = rv_count s /\ len ds <= rv_max_entries s /\
  exists rest, rv_digests s = concat ds ++ rest /\
    len rest = (rv_max_entries s - rv_count s) * SHA256_BYTES.

Record rv_rep (s : revocation_state_t) (k : revoked) : Prop := {
  rr_max : rv_max_entries s = rk_max k;
  rr_max_range : 1 <= rk_max k <= MAX_REVOKED_TOKENS;
  rr_sync : truth (rv_synchronized s) = rk_synchronized k;
  rr_version : (rv_epoch s, rv_sequence s) = rk_version k;
  rr_required : (rv_required_epoch s, rv_required_sequence s) = rk_required k;
  rr_required_zero : 0 <= rv_required_epoch s /\
    (rv_required_epoch s = 0 -> rv_required_sequence s = 0);
  rr_sequence : is_u64 (rv_sequence s);
  rr_table : exists ds, table_rep s ds /\ rk_digests k = list_to_set ds }.

Lemma version_less_lt e q e' q' : revocation_version_less e q e' q' = version_lt (e, q) (e', q').
Proof. done. Qed.

Lemma stale_lt e q e' q' :
  (e <? e') || ((e =? e') && (q <=? q')) = negb (version_lt (e', q') (e, q)).
Proof. unfold version_lt. cbn [fst snd]. lia. Qed.

Lemma rep_demand s k e q :
  rv_rep s k -> 0 < e -> rv_rep (revocation_require_snapshot s e q) (rk_demand k (e, q)).
Proof.
  intros [H1 H2 H3 H4 H5 [H6 H7] H8 (ds & H9 & H10)] He.
  unfold revocation_require_snapshot, rk_demand, demanded.
  rewrite version_less_lt, <- H5.
  destruct (Z.eqb_spec (rv_required_epoch s) 0) as [Hz|Hz]; cbn [orb].
  - rewrite Hz, (H7 Hz). replace (version_lt (0, 0) (e, q)) with true
      by (unfold version_lt; cbn; lia).
    constructor; try done; first [by exists ds|cbn; lia].
  - destruct (version_lt _ _); (constructor; try done; first [by exists ds|cbn; lia]).
Qed.

Lemma elem_digests k ds (d : list Z) :
  rk_digests k = list_to_set ds -> bool_decide (d ∈ rk_digests k) = bool_decide (d ∈ ds).
Proof. intros ->. apply bool_decide_ext. by rewrite elem_of_list_to_set. Qed.

Lemma find_spec s k d :
  rv_rep s k -> revocation_find (Some s) (Some d) = Ok (bool_decide (d ∈ rk_digests k)).
Proof.
  intros Hr. destruct (rr_table _ _ Hr) as (ds & (Hn & Hds & Hl & _ & rest & Hb & _) & Hk).
  rewrite (elem_digests k ds) by done. unfold revocation_find. rewrite Hb, <- Hl, len_to_nat.
  by apply (find_loop_spec d ds []).
Qed.

Lemma check_spec s k d :
  rv_rep s k -> revocation_check_digest (Some s) (Some d) SHA256_BYTES = Ok (rk_check k d).
Proof.
  intros Hr. unfold revocation_check_digest, rk_check. rewrite (rr_sync _ _ Hr).
  cbn [Z.eqb negb orb]. destruct (rk_synchronized k); [|done]. cbn [negb].
  change (negb (SHA256_BYTES =? SHA256_BYTES) || false) with false.
  rewrite (find_spec s k d Hr). cbn [mbind res_bind]. f_equal. unfold bool_decide.
  by destruct (decide_rel _ d (rk_digests k)).
Qed.

Lemma digests_wf hex es : mapM digest_of hex = Some es -> Forall digest_wf es /\ length es = length hex.
Proof.
  intros H%mapM_Some. induction H as [|h e hex es Hd _ [IH1 IH2]]; [done|].
  split; [constructor; [by eapply digest_of_wf|done]|cbn; by rewrite IH2].
Qed.

Lemma snapshot_simulates s k e q hex mem :
  rv_rep s k -> 0 <= e -> is_u64 q ->
  exists s' r, revocation_apply_snapshot (Some s) e q (Some hex) (len hex) mem = Ok (Some s', r) /\
    rv_rep s' (rk_snapshot k (e, q) hex mem).1 /\ r = (rk_snapshot k (e, q) hex mem).2.
Proof.
  intros Hr He Hq. unfold revocation_apply_snapshot, rk_snapshot. cbn [fst].
  destruct (Z.eqb_spec e 0) as [->|Hne]; cbn [orb]; [by eauto|].
  rewrite bool_decide_false by done. rewrite andb_false_r.
  rewrite (rr_sync _ _ Hr), stale_lt, version_less_lt, (rr_version _ _ Hr).
  assert (Hst : negb (rv_required_epoch s =? 0) &&
      version_lt (e, q) (rv_required_epoch s, rv_required_sequence s) = version_lt (e, q) (rk_required k)).
  { rewrite <- (rr_required _ _ Hr). destruct (rr_required_zero _ _ Hr) as [Hp Hz].
    destruct (Z.eqb_spec (rv_required_epoch s) 0) as [->|]; [|done].
    unfold version_lt. cbn. lia. }
  rewrite Hst. destruct (if rk_synchronized k then _ else _); [by eauto|].
  pose proof (rep_demand s k e q Hr ltac:(lia)) as Hd.
  rewrite (rr_max _ _ Hr). destruct (Z.ltb_spec (rk_max k) (len hex)) as [|Hmax]; [by eauto|].
  destruct (_ && negb mem); [by eauto|].
  change (default [] (Some hex)) with hex. rewrite rd_slice_all by done. cbn [mbind res_bind].
  replace (Z.to_nat (len hex * SHA256_BYTES)) with (length hex * 32)%nat
    by (unfold len, SHA256_BYTES; lia).
  pose proof (parse_snapshot_spec hex [] ltac:(done) ltac:(constructor)) as Hp.
  cbn [concat app] in Hp. change (len []) with 0 in Hp. rewrite Hp. cbn [mbind res_bind].
  unfold snapshot_digests.
  destruct (mapM digest_of hex) as [es|] eqn:Em; cbn [mbind option_bind]; [|by eauto].
  destruct (digests_wf hex es Em) as [Hes Hlen].
  destruct (decide (NoDup es)) as [Hn|]; [|by eauto].
  assert (Hlc : len (concat es) = len hex * SHA256_BYTES)
    by (rewrite len_concat by done; unfold len; by rewrite Hlen).
  pose proof (rr_max_range _ _ Hr) as Hmr. pose proof (len_nonneg hex).
  rewrite wr_front by (rewrite len_replicate, Hlc; unfold SHA256_BYTES; lia).
  cbn [mbind res_bind]. do 2 eexists. split; [reflexivity|]. split; [|done].
  constructor; try done.
  exists es. split; [|done]. split; [done|]. split; [done|]. cbn.
  split; [unfold len; by rewrite Hlen|]. split; [unfold len in *; lia|].
  eexists. split; [reflexivity|]. rewrite drop_replicate, len_replicate.
  unfold len, SHA256_BYTES in *. lia.
Qed.

Lemma size_digests k s ds : table_rep s ds -> rk_digests k = list_to_set ds ->
  Z.of_nat (size (rk_digests k)) = rv_count s.
Proof. intros (Hn & _ & Hl & _) ->. by rewrite size_list_to_set. Qed.

(** Appending a digest to the table. *)
Lemma table_append s ds d :
  table_rep s ds -> digest_wf d -> d ∉ ds -> rv_count s < rv_max_entries s ->
  exists digests, wr (rv_digests s) (rv_count s * SHA256_BYTES) d = Ok digests /\
    forall e q re rq sy, table_rep
      (Build_revocation_state_t e q re rq (rv_count s + 1) (rv_max_entries s) sy digests)
      (ds ++ [d]).
Proof.
  intros (Hn & Hds & Hl & Hm & rest & Hb & Hlr) Hd Hin Hlt.
  assert (Hd32 : len d = SHA256_BYTES) by apply Hd.
  exists ((concat ds ++ d) ++ drop (length d) rest). split.
  - rewrite Hb, wr_next; [done|by rewrite len_concat, Hl|].
    rewrite Hlr, Hd32. unfold SHA256_BYTES. lia.
  - intros. split; [|split; [|split; [|split]]]; cbn.
    + apply NoDup_app. split; [done|]. split; [|by apply NoDup_singleton].
      intros x Hx ->%list_elem_of_singleton. done.
    + by apply Forall_app_2; [|constructor].
    + rewrite len_app, Hl. done.
    + rewrite len_app, Hl. unfold len. cbn [length]. lia.
    + exists (drop (length d) rest). split.
      * rewrite concat_app. cbn [concat]. by rewrite app_nil_r.
      * rewrite len_drop, Hlr. unfold len, SHA256_BYTES in *. lia.
Qed.

Lemma next_sequence e q e0 q0 :
  is_u64 q0 -> version_lt (e0, q0) (e, q) = true -> is_u64 q ->
  negb (e =? e0) || negb (q =? u64 (q0 + 1)) = negb (bool_decide ((e, q) = (e0, q0 + 1))).
Proof.
  unfold version_lt, is_u64. cbn [fst snd]. intros H0 Hlt Hq.
  destruct (Z.eqb_spec e e0) as [->|Hne]; cbn [negb orb].
  - rewrite u64_id by (unfold is_u64; lia). f_equal.
    destruct (Z.eqb_spec q (q0 + 1)) as [->|];
      [by rewrite bool_decide_true|rewrite bool_decide_false; congruence].
  - rewrite bool_decide_false by congruence. done.
Qed.

(** A state whose table represents [digests], one version on. *)
Lemma rep_revoked s k e q count table digests ds :
  rv_rep s k -> rk_synchronized k = true -> is_u64 q -> e = rv_epoch s ->
  let s' := Build_revocation_state_t (rv_epoch s) q (rv_required_epoch s)
              (rv_required_sequence s) count (rv_max_entries s) (rv_synchronized s) table in
  table_rep s' ds -> digests = list_to_set ds ->
  rv_rep s' {| rk_max := rv_max_entries s; rk_synchronized := true; rk_version := (e, q);
               rk_required := rk_required k; rk_digests := digests |}.
Proof.
  intros [H1 H2 H3 H4 H5 H6 H7 _] Hs Hq -> s' Ht Hd.
  constructor; cbn; try done; [by rewrite H1|by rewrite H3|by exists ds].
Qed.

Lemma revoke_simulates s k e q hex :
  rv_rep s k -> 0 <= e -> is_u64 q ->
  exists s' r, revocation_apply_revoke (Some s) e q hex = Ok (Some s', r) /\
    rv_rep s' (rk_revoke k (e, q) hex).1 /\ r = (rk_revoke k (e, q) hex).2.
Proof.
  intros Hr He Hq. unfold revocation_apply_revoke, rk_revoke. cbn [fst snd].
  destruct (Z.eqb_spec e 0) as [->|Hne]; cbn [orb]; [by eauto|].
  destruct ((q =? 0) || bool_decide (hex = None)); [by eauto|].
  pose proof (rep_demand s k e q Hr ltac:(lia)) as Hd. rewrite parse_digest_spec.
  rewrite (rr_sync _ _ Hr). destruct (rk_synchronized k) eqn:Hsync; cbn [negb];
    [|destruct (digest_of hex); by eauto].
  rewrite stale_lt, <- (rr_version _ _ Hr). cbn [fst snd].
  destruct (version_lt _ (e, q)) eqn:Hlt; cbn [negb]; [|by eauto].
  rewrite (next_sequence _ _ _ _ (rr_sequence _ _ Hr) Hlt Hq).
  case_bool_decide as Hv; cbn [negb]; [|by eauto]. injection Hv as He0 Hq0.
  cbn [mbind res_bind]. destruct (digest_of hex) as [d|] eqn:Edig; [|by eauto].
  pose proof (digest_of_wf _ _ Edig) as Hdw.
  rewrite (find_spec s k d Hr). cbn [mbind res_bind].
  destruct (rr_table _ _ Hr) as (ds & Ht & Hk).
  rewrite (size_digests k s ds Ht Hk), <- (rr_max _ _ Hr).
  case_bool_decide as Hin.
  - rewrite bool_decide_false by tauto. cbn [andb].
    do 2 eexists. split; [reflexivity|]. split; [|done].
    apply (rep_revoked s k e q _ _ _ ds); try done.
    rewrite Hk. rewrite Hk, elem_of_list_to_set in Hin. set_solver.
  - rewrite bool_decide_true by done. cbn [andb].
    destruct (Z.leb_spec (rv_max_entries s) (rv_count s)) as [|Hlt']; [by eauto|].
    assert (Hin' : d ∉ ds) by (rewrite Hk, elem_of_list_to_set in Hin; done).
    destruct (table_append s ds d Ht Hdw Hin' Hlt') as (digests & -> & Ht').
    cbn [mbind res_bind]. do 2 eexists. split; [reflexivity|]. split; [|done].
    apply (rep_revoked s k e q _ _ _ (ds ++ [d])); try done.
    rewrite Hk, list_to_set_app_L. set_solver.
Qed.

(* ------------------------------------------------------------------ *)
(** ** Runs *)

Inductive revocation_op :=
  | SnapshotOp (epoch sequence : Z) (hex : list (option string)) (mem : bool)
  | RevokeOp (epoch sequence : Z) (hex : option string)
  | CheckOp (digest : list Z).

Inductive revocation_answer :=
  | Result (r : revocation_result)
  | Status (r : revocation_status).

Definition revocation_op_ok (o : revocation_op) : Prop :=
  match o with
  | SnapshotOp e q _ _ | RevokeOp e q _ => is_u64 e /\ is_u64 q
  | CheckOp _ => True
  end.

Definition revocation_step (s : option revocation_state_t) (o : revocation_op)
    : res (option revocation_state_t * revocation_answer) :=
  match o with
  | SnapshotOp e q hex mem =>
      r ← revocation_apply_snapshot s e q (Some hex) (len hex) mem; Ok (r.1, Result r.2)
  | RevokeOp e q hex => r ← revocation_apply_revoke s e q hex; Ok (r.1, Result r.2)
  | CheckOp d => r ← revocation_check_digest s (Some d) SHA256_BYTES; Ok (s, Status r)
  end.

Fixpoint revocation_run (s : option revocation_state_t) (l : list revocation_op)
    : res (option revocation_state_t * list revocation_answer) :=
  match l with
  | [] => Ok (s, [])
  | o :: l =>
    r ← revocation_step s o; rs ← revocation_run r.1 l; Ok (rs.1, r.2 :: rs.2)
  end.

Definition rk_step (k : revoked) (o : revocation_op) : revoked * revocation_answer :=
  match o with
  | SnapshotOp e q hex mem =>
      ((rk_snapshot k (e, q) hex mem).1, Result (rk_snapshot k (e, q) hex mem).2)
  | RevokeOp e q hex => ((rk_revoke k (e, q) hex).1, Result (rk_revoke k (e, q) hex).2)
  | CheckOp d => (k, Status (rk_check k d))
  end.

Fixpoint rk_run (k : revoked) (l : list revocation_op) : revoked * list revocation_answer :=
  match l with
  | [] => (k, [])
  | o :: l => let r := rk_step k o in let rs := rk_run r.1 l in (rs.1, r.2 :: rs.2)
  end.

Lemma revocation_step_simulates s k o :
  rv_rep s k -> revocation_op_ok o ->
  exists s', revocation_step (Some s) o = Ok (Some s', (rk_step k o).2) /\
    rv_rep s' (rk_step k o).1.
Proof.
  intros Hr Ho. destruct o as [e q hex mem|e q hex|d]; cbn [revocation_step rk_step fst snd].
  - destruct Ho as [[He _] Hq].
    destruct (snapshot_simulates s k e q hex mem Hr He Hq) as (s' & r & -> & H & ->). by exists s'.
  - destruct Ho as [[He _] Hq].
    destruct (revoke_simulates s k e q hex Hr He Hq) as (s' & r & -> & H & ->). by exists s'.
  - rewrite (check_spec s k d Hr). by exists s.
Qed.

Lemma revocation_run_simulates l s k :
  rv_rep s k -> Forall revocation_op_ok l ->
  exists s', revocation_run (Some s) l = Ok (Some s', (rk_run k l).2) /\ rv_rep s' (rk_run k l).1.
Proof.
  revert s k. induction l as [|o l IH]; intros s k Hr Hl; [by exists s|].
  apply Forall_cons in Hl as [Ho Hl].
  destruct (revocation_step_simulates s k o Hr Ho) as (s1 & E1 & Hr1).
  destruct (IH s1 _ Hr1 Hl) as (s' & E & Hr'). exists s'.
  cbn [revocation_run rk_run fst snd]. rewrite E1. cbn [mbind res_bind fst snd]. by rewrite E.
Qed.

Definition nothing_revoked (max : Z) : revoked :=
  {| rk_max := max; rk_synchronized := false; rk_version := (0, 0); rk_required := (0, 0);
     rk_digests := ∅ |}.

Lemma revocation_create_rep max s :
  revocation_state_create max true = Some s -> 0 <= max -> rv_rep s (nothing_revoked max).
Proof.
  unfold revocation_state_create. intros Hs Hm.
  destruct (_ || _) eqn:Hc; [done|]. injection Hs as <-.
  constructor; cbn; try done; [unfold MAX_REVOKED_TOKENS in *; lia|].
  exists []. split; [|done]. split_and!; try done; [constructor|].
  eexists. split; [reflexivity|]. rewrite len_replicate. cbn [rv_max_entries rv_count].
  unfold SHA256_BYTES. lia.
Qed.

(** ** A revoked token stays revoked *)

Definition no_snapshot_applied (o : revocation_op) (a : revocation_answer) : Prop :=
  match o, a with SnapshotOp _ _ _ _, Result REVOCATION_APPLIED => False | _, _ => True end.

Lemma rk_step_keeps k o d :
  d ∈ rk_digests k -> no_snapshot_applied o (rk_step k o).2 -> d ∈ rk_digests (rk_step k o).1.
Proof.
  intros Hd Hn. destruct o as [e q hex mem|e q hex|x]; cbn [rk_step fst snd] in *; [| |done].
  - unfold rk_snapshot in *. repeat case_match; done.
  - unfold rk_revoke in *. repeat case_match; try done. cbn [fst rk_digests]. set_solver.
Qed.

Lemma rk_run_keeps l k d :
  d ∈ rk_digests k -> Forall2 no_snapshot_applied l (rk_run k l).2 ->
  d ∈ rk_digests (rk_run k l).1.
Proof.
  revert k. induction l as [|o l IH]; intros k Hd Hn; [done|]. cbn [rk_run fst snd] in *.
  apply Forall2_cons in Hn as [Ho Hn]. by apply IH; [apply rk_step_keeps|].
Qed.

Lemma rk_revoked_listed k e q hex d :
  (rk_revoke k (e, q) hex).2 = REVOCATION_APPLIED -> digest_of hex = Some d ->
  d ∈ rk_digests (rk_revoke k (e, q) hex).1.
Proof.
  unfold rk_revoke. intros Ha Hd. rewrite Hd in *. repeat case_match; try done.
  cbn [fst rk_digests]. set_solver.
Qed.

(** ** Printed digests *)

Definition hex_digit (v : Z) : Ascii.ascii :=
  Ascii.ascii_of_N (Z.to_N (if v <? 10 then 48 + v else 87 + v)).

Fixpoint hex_chars (d : list Z) : list Ascii.ascii :=
  match d with
  | [] => []
  | b :: d => hex_digit (b / 16) :: hex_digit (b mod 16) :: hex_chars d
  end.

(** The lower-case form. *)
Definition print_digest (d : list Z) : string := String.string_of_list_ascii (hex_chars d).

Lemma hex_digit_nibble v : 0 <= v < 16 -> revocation_hex_nibble (hex_digit v) = Some v.
Proof.
  intros Hv.
  assert (Hall : forallb (fun n => bool_decide (revocation_hex_nibble (hex_digit (Z.of_nat n)) = Some (Z.of_nat n)))
    (seq 0 16) = true) by reflexivity.
  rewrite forallb_forall in Hall. specialize (Hall (Z.to_nat v)).
  rewrite Z2Nat.id in Hall by lia.
  apply (bool_decide_eq_true_1 _), Hall, in_seq. lia.
Qed.

Lemma nibble_hex_digit c v : revocation_hex_nibble c = Some v -> c = hex_digit v.
Proof.
  unfold revocation_hex_nibble, hex_digit, u8. intros H.
  rewrite <- (Ascii.ascii_N_embedding c) at 1. f_equal.
  repeat case_match; simplify_eq; rewrite Z.mod_small in * by lia; lia.
Qed.

Lemma hex_bytes_print d : bytes d ->
  hex_bytes (hex_chars d) = Some d.
Proof.
  induction 1 as [|b d Hb _ IH]; [done|]. unfold is_u8 in Hb.
  cbn [hex_chars hex_bytes]. rewrite !hex_digit_nibble by zmod_lia.
  cbn [mbind option_bind]. rewrite IH. cbn [mbind option_bind].
  do 2 f_equal. zmod_lia.
Qed.

Lemma print_hex_bytes s d : hex_bytes s = Some d -> s = hex_chars d.
Proof.
  revert d. induction s as [s IH] using (induction_ltof1 _ (@length Ascii.ascii)). intros d Hd.
  destruct s as [|h [|l s]]; cbn [hex_bytes] in Hd; [by injection Hd as <-|done|].
  destruct (revocation_hex_nibble h) as [hi|] eqn:Eh; [|done].
  destruct (revocation_hex_nibble l) as [lo|] eqn:El; [|done]. cbn [mbind option_bind] in Hd.
  destruct (hex_bytes s) as [bs|] eqn:Es; [|done]. injection Hd as <-.
  apply IH in Es as ->; [|unfold ltof; cbn; lia].
  rewrite (nibble_hex_digit _ _ Eh), (nibble_hex_digit _ _ El).
  apply nibble_range in Eh. apply nibble_range in El. cbn [hex_chars].
  replace ((16 * hi + lo) / 16) with hi by zmod_lia.
  replace ((16 * hi + lo) mod 16) with lo by zmod_lia. done.
Qed.

(* ------------------------------------------------------------------ *)
(** ** Properties *)

(** C39: from creation, every sequence of snapshots, revocations and checks does
    on the byte table what it does on a versioned finite set, answer by answer,
    with no access outside the table. *)
Theorem revocation_refines_set max s l :
  revocation_state_create max true = Some s -> 0 <= max -> Forall revocation_op_ok l ->
  exists s', revocation_run (Some s) l = Ok (Some s', (rk_run (nothing_revoked max) l).2) /\
    rv_rep s' (rk_run (nothing_revoked max) l).1.
Proof.
  intros Hs Hm Hl. apply revocation_run_simulates; [by apply revocation_create_rep|done].
Qed.

(** A revoked token is never cleared: once a revocation of its digest is
    applied, and until a new snapshot is, every check answers revoked or
    unknown, whatever gaps, malformed events or overflows come in between. *)
Theorem revocation_sticky max s l1 e q hex d l2 :
  revocation_state_create max true = Some s -> 0 <= max ->
  Forall revocation_op_ok (l1 ++ RevokeOp e q hex :: l2) -> digest_of hex = Some d ->
  exists s1 a1 s2 r s3 a2,
    revocation_run (Some s) l1 = Ok (Some s1, a1) /\
    revocation_apply_revoke (Some s1) e q hex = Ok (Some s2, r) /\
    revocation_run (Some s2) l2 = Ok (Some s3, a2) /\
    (r = REVOCATION_APPLIED -> Forall2 no_snapshot_applied l2 a2 ->
     exists v, revocation_check_digest (Some s3) (Some d) SHA256_BYTES = Ok v /\ v <> STATUS_CLEAR).
Proof.
  intros Hs Hm Hl Hd. apply Forall_app in Hl as [Hl1 Hl]. apply Forall_cons in Hl as [[[He _] Hq] Hl2].
  destruct (revocation_run_simulates l1 s _ (revocation_create_rep max s Hs Hm) Hl1) as (s1 & E1 & R1).
  destruct (revoke_simulates s1 _ e q hex R1 He Hq) as (s2 & r & E2 & R2 & Hr).
  destruct (revocation_run_simulates l2 s2 _ R2 Hl2) as (s3 & E3 & R3).
  exists s1, (rk_run (nothing_revoked max) l1).2, s2, r, s3. eexists.
  split; [exact E1|]. split; [exact E2|]. split; [exact E3|]. intros Happ Hno.
  eexists. split; [exact (check_spec _ _ d R3)|]. subst r.
  pose proof (rk_run_keeps _ _ d (rk_revoked_listed _ _ _ _ _ Happ Hd) Hno) as Hin.
  unfold rk_check. destruct (rk_synchronized _); [|done]. by rewrite decide_True.
Qed.

(** A digest is read back from its printed form, the lower-case one of 64
    characters, and from no other string: equal digests have equal strings. *)
Theorem revocation_digest_roundtrip d :
  digest_wf d ->
  revocation_parse_digest (Some (print_digest d)) = Ok (Some d) /\
  forall v, revocation_parse_digest v = Ok (Some d) -> v = Some (print_digest d).
Proof.
  intros [Hl Hb]. split.
  - rewrite parse_digest_spec. unfold digest_of, print_digest. cbn [mbind option_bind].
    rewrite String.list_ascii_of_string_of_list_ascii, hex_bytes_print by done.
    apply hex_bytes_print, hex_bytes_ok in Hb as [Hlen _]. rewrite Hlen, Hl. done.
  - intros v. rewrite parse_digest_spec. intros Hv%Ok_inj. unfold digest_of in Hv.
    destruct v as [v|]; [|done]. cbn [mbind option_bind] in Hv.
    destruct (_ =? _); [|done]. apply print_hex_bytes in Hv. unfold print_digest.
    by rewrite <- Hv, String.string_of_list_ascii_of_string.
Qed.

(* ------------------------------------------------------------------ *)
(** ** Witnesses *)

Definition ex_digest (b : Z) : list Z := replicate 32 b.
Definition ex_hex (b : Z) : option string := Some (print_digest (ex_digest b)).

Lemma ex_digest_wf b : is_u8 b -> digest_wf (ex_digest b).
Proof. intros. split; [done|]. by apply Forall_replicate. Qed.

(** A snapshot of one digest, a revocation, checks, a gap, and the snapshot that
    closes it. *)
Definition ex_revocations : list revocation_op :=
  [CheckOp (ex_digest 1); SnapshotOp 1 0 [ex_hex 1] true; CheckOp (ex_digest 1);
   RevokeOp 1 1 (ex_hex 171); CheckOp (ex_digest 171); CheckOp (ex_digest 2);
   RevokeOp 1 3 (ex_hex 2); CheckOp (ex_digest 2);
   SnapshotOp 1 2 [] true; SnapshotOp 1 3 [ex_hex 2; ex_hex 2] true;
   SnapshotOp 1 3 [ex_hex 2] true; CheckOp (ex_digest 171)].

Definition ex_state : revocation_state_t :=
  Build_revocation_state_t 0 0 0 0 0 2 0 (replicate 64 0).

Lemma ex_revocations_ok : Forall revocation_op_ok ex_revocations.
Proof. repeat constructor; cbn; unfold is_u64; lia. Qed.

Lemma revocation_refines_set_witness :
  exists s', revocation_run (Some ex_state) ex_revocations =
      Ok (Some s', (rk_run (nothing_revoked 2) ex_revocations).2) /\
    rv_rep s' (rk_run (nothing_revoked 2) ex_revocations).1.
Proof. apply (revocation_refines_set 2); [reflexivity|lia|apply ex_revocations_ok]. Defined.

Lemma revocation_sticky_witness :
  exists s1 a1 s2 r s3 a2,
    revocation_run (Some ex_state) [SnapshotOp 1 0 [] true] = Ok (Some s1, a1) /\
    revocation_apply_revoke (Some s1) 1 1 (ex_hex 171) = Ok (Some s2, r) /\
    revocation_run (Some s2) [RevokeOp 1 3 (ex_hex 2)] = Ok (Some s3, a2) /\
    (r = REVOCATION_APPLIED -> Forall2 no_snapshot_applied [RevokeOp 1 3 (ex_hex 2)] a2 ->
     exists v, revocation_check_digest (Some s3) (Some (ex_digest 171)) SHA256_BYTES = Ok v /\
       v <> STATUS_CLEAR).
Proof.
  apply (revocation_sticky 2 ex_state); [reflexivity|lia| |reflexivity].
  repeat constructor; cbn; unfold is_u64; lia.
Defined.

Lemma revocation_digest_roundtrip_witness :
  revocation_parse_digest (Some (print_digest (ex_digest 171))) = Ok (Some (ex_digest 171)) /\
  forall v, revocation_parse_digest v = Ok (Some (ex_digest 171)) ->
    v = Some (print_digest (ex_digest 171)).
Proof. apply revocation_digest_roundtrip. apply ex_digest_wf. unfold is_u8. lia. Defined.

Example ex_revocation_answers :
  match revocation_run (Some ex_state) ex_revocations with
  | Ok (_, answers) => answers =
      [Status STATUS_UNKNOWN; Result REVOCATION_APPLIED; Status STATUS_REVOKED;
       Result REVOCATION_APPLIED; Status STATUS_REVOKED; Status STATUS_CLEAR;
       Result REVOCATION_GAP; Status STATUS_UNKNOWN;
       Result REVOCATION_STALE; Result REVOCATION_ERROR;
       Result REVOCATION_APPLIED; Status STATUS_CLEAR]
  | _ => False
  end.
Proof. vm_compute. done. Qed.
