(* ===== verification/TenantQuota.v ===== *)
(** * Tenant quota projection (src/webrtc/src/security/turbo_media_tenant_quota.c)

    A node's view of the resource leases of its tenants: versioned snapshots and
    exact-next updates of the leases, and reservations of local usage against
    them.  The specification is a ledger, a finite map from tenants to accounts. *)

From Stdlib Require Import Sorted.
From stdpp Require Import strings gmap.
From S2P Require Import Prelude Version.

(* ------------------------------------------------------------------ *)
(** ** Data *)

Definition QUOTA_MAX_TENANTS : Z := 256.
Definition QUOTA_TENANT_ID_BYTES : Z := 256.
Definition QUOTA_NODE_ID_BYTES : Z := 128.
Definition QUOTA_RESOURCE_COUNT : Z := 5.

Record quota_lease_t := {
  le_tenant_id : option string;
  le_node_id : option string;
  le_expires_at_unix_ms : Z;
  le_limits : list Z }.

Inductive apply_result :=
  | APPLY_ERROR | APPLY_APPLIED | APPLY_STALE | APPLY_GAP | APPLY_LIMIT.

Inductive reserve_result :=
  | RESERVE_ERROR | RESERVE_OK | RESERVE_UNKNOWN | RESERVE_NO_LEASE
  | RESERVE_EXPIRED | RESERVE_LIMIT.

Record quota_slot_t := {
  qs_tenant_id : string;
  qs_occupied : Z;
  qs_has_lease : Z;
  qs_expires_at_unix_ms : Z;
  qs_limits : list Z;
  qs_used : list Z }.

Record quota_projection_t := {
  qp_node_id : string;
  qp_max_tenants : Z;
  qp_slots : list quota_slot_t;
  qp_synchronized : Z;
  qp_epoch : Z;
  qp_sequence : Z;
  qp_required_epoch : Z;
  qp_required_sequence : Z }.

Definition zero_limits : list Z := replicate (Z.to_nat QUOTA_RESOURCE_COUNT) 0.

Definition zero_slot : quota_slot_t := Build_quota_slot_t "" 0 0 0 zero_limits zero_limits.

Definition set_slots (p : quota_projection_t) (ss : list quota_slot_t) : quota_projection_t :=
  Build_quota_projection_t (qp_node_id p) (qp_max_tenants p) ss (qp_synchronized p)
    (qp_epoch p) (qp_sequence p) (qp_required_epoch p) (qp_required_sequence p).

Definition set_version (p : quota_projection_t) (sync epoch sequence repoch rsequence : Z)
    : quota_projection_t :=
  Build_quota_projection_t (qp_node_id p) (qp_max_tenants p) (qp_slots p) sync
    epoch sequence repoch rsequence.

Definition set_used (s : quota_slot_t) (u : list Z) : quota_slot_t :=
  Build_quota_slot_t (qs_tenant_id s) (qs_occupied s) (qs_has_lease s)
    (qs_expires_at_unix_ms s) (qs_limits s) u.

Definition set_lease (s : quota_slot_t) (l : quota_lease_t) : quota_slot_t :=
  Build_quota_slot_t (qs_tenant_id s) (qs_occupied s) 1
    (le_expires_at_unix_ms l) (le_limits l) (qs_used s).

(* ------------------------------------------------------------------ *)
(** ** Validation and lookup *)

Definition identifier_char (c : Ascii.ascii) : bool :=
  let ch := Z.of_N (Ascii.N_of_ascii c) in
  ((97 <=? ch) && (ch <=? 122)) || ((65 <=? ch) && (ch <=? 90)) ||
  ((48 <=? ch) && (ch <=? 57)) || (ch =? 45) || (ch =? 95) || (ch =? 46) ||
  (ch =? 126) || (ch =? 58).

Definition quota_identifier_valid (value : option string) (capacity : Z) : bool :=
  let? v := value else false in
  if bool_decide (v = ""%string) then false else
  if capacity <=? Z.of_nat (String.length v) then false else
  forallb identifier_char (String.list_ascii_of_string v).

Definition tenant_id_valid (id : option string) : bool :=
  quota_identifier_valid id QUOTA_TENANT_ID_BYTES.
Definition node_id_valid (id : option string) : bool :=
  quota_identifier_valid id QUOTA_NODE_ID_BYTES.

Definition quota_version_compare (le ls re rs : Z) : Z :=
  if le <? re then -1 else if re <? le then 1 else
  if ls <? rs then -1 else if rs <? ls then 1 else 0.

Definition quota_require_snapshot (p : quota_projection_t) (epoch sequence : Z)
    : quota_projection_t :=
  if 0 <? quota_version_compare epoch sequence (qp_required_epoch p) (qp_required_sequence p)
  then set_version p 0 (qp_epoch p) (qp_sequence p) epoch sequence
  else set_version p 0 (qp_epoch p) (qp_sequence p)
         (qp_required_epoch p) (qp_required_sequence p).

Definition any_used (s : quota_slot_t) : bool := existsb truth (qs_used s).

Definition quota_usage_present (s : quota_slot_t) : bool :=
  if negb (truth (qs_occupied s)) then false else any_used s.

(** The loops of [quota_find_slot] and [quota_find_slot_const]: the index. *)
Fixpoint quota_find_slot (ss : list quota_slot_t) (tenant : string) (i : Z) : option Z :=
  match ss with
  | [] => None
  | s :: ss =>
    if truth (qs_occupied s) && bool_decide (qs_tenant_id s = tenant)
    then Some i else quota_find_slot ss tenant (i + 1)
  end.

Definition quota_lease_valid (p : quota_projection_t) (lease : option quota_lease_t) : bool :=
  let? l := lease else false in
  tenant_id_valid (le_tenant_id l) && node_id_valid (le_node_id l) &&
  bool_decide (le_node_id l = Some (qp_node_id p)) &&
  negb (le_expires_at_unix_ms l =? 0).

Definition quota_snapshot_contains (leases : list quota_lease_t) (tenant : string) : bool :=
  existsb (fun l => bool_decide (le_tenant_id l = Some tenant)) leases.

(** The outer loop of [quota_snapshot_valid]; [previous] are the leases before. *)
Fixpoint snapshot_valid_loop (p : quota_projection_t)
    (previous leases : list quota_lease_t) : bool :=
  match leases with
  | [] => true
  | l :: leases =>
    if negb (quota_lease_valid p (Some l)) then false else
    if existsb (fun q => bool_decide (le_tenant_id q = le_tenant_id l)) previous
    then false else snapshot_valid_loop p (previous ++ [l]) leases
  end.

(** [leases] points to at least [lease_count] leases. *)
Definition quota_snapshot_valid (p : quota_projection_t)
    (leases : option (list quota_lease_t)) (lease_count : Z) : res bool :=
  if (0 <? lease_count) && bool_decide (leases = None) then Ok false else
  if qp_max_tenants p <? lease_count then Ok false else
  if QUOTA_MAX_TENANTS <? lease_count then Ok false else
  ls ← rd_slice (default [] leases) 0 lease_count;
  Ok (snapshot_valid_loop p [] ls).

(* ------------------------------------------------------------------ *)
(** ** Operations *)

(** [mem] says whether the allocations succeed. *)
Definition quota_projection_create (node_id : option string) (max_tenants : Z) (mem : bool)
    : option quota_projection_t :=
  let? node := node_id else None in
  if negb (node_id_valid (Some node)) then None else
  if (max_tenants =? 0) || (QUOTA_MAX_TENANTS <? max_tenants) then None else
  if mem then
    Some (Build_quota_projection_t node max_tenants
            (replicate (Z.to_nat max_tenants) zero_slot) 0 0 0 0 0)
  else None.

(** The slots with usage that the snapshot does not cover. *)
Fixpoint count_retained (ss : list quota_slot_t) (leases : list quota_lease_t) : Z :=
  match ss with
  | [] => 0
  | s :: ss =>
    (if quota_usage_present s && negb (quota_snapshot_contains leases (qs_tenant_id s))
     then 1 else 0) + count_retained ss leases
  end.

(** The slot of a lease: the usage of its old slot is kept. *)
Definition lease_slot (old : list quota_slot_t) (l : quota_lease_t) (tenant : string)
    : res quota_slot_t :=
  used ← (let? i := quota_find_slot old tenant 0 else Ok zero_limits in
          s ← rd old i; Ok (qs_used s));
  Ok (Build_quota_slot_t tenant 1 1 (le_expires_at_unix_ms l) (le_limits l) used).

(** The loop over the leases, [next] being the next free replacement slot. *)
Fixpoint place_leases (old : list quota_slot_t) (leases : list quota_lease_t)
    (replacement : list quota_slot_t) (next : Z) : res (list quota_slot_t * Z) :=
  match leases with
  | [] => Ok (replacement, next)
  | l :: leases =>
    let? tenant := le_tenant_id l else Fault in
    s ← lease_slot old l tenant;
    r ← upd replacement next s;
    place_leases old leases r (next + 1)
  end.

(** The loop that keeps the usage of the tenants that lost their lease. *)
Fixpoint place_retained (ss : list quota_slot_t) (leases : list quota_lease_t)
    (replacement : list quota_slot_t) (next : Z) : res (list quota_slot_t * Z) :=
  match ss with
  | [] => Ok (replacement, next)
  | s :: ss =>
    if negb (quota_usage_present s) || quota_snapshot_contains leases (qs_tenant_id s)
    then place_retained ss leases replacement next
    else
      r ← upd replacement next
            (Build_quota_slot_t (qs_tenant_id s) 1 0 0 zero_limits (qs_used s));
      place_retained ss leases r (next + 1)
  end.

Definition quota_apply_snapshot (projection : option quota_projection_t)
    (epoch sequence : Z) (leases : option (list quota_lease_t)) (lease_count : Z)
    (mem : bool) : res (option quota_projection_t * apply_result) :=
  let? p := projection else Ok (None, APPLY_ERROR) in
  if epoch =? 0 then Ok (Some p, APPLY_ERROR) else
  if truth (qp_synchronized p) &&
     (quota_version_compare epoch sequence (qp_epoch p) (qp_sequence p) <=? 0)
  then Ok (Some p, APPLY_STALE) else
  if negb (truth (qp_synchronized p)) && negb (qp_required_epoch p =? 0) &&
     (quota_version_compare epoch sequence (qp_required_epoch p) (qp_required_sequence p) <? 0)
  then Ok (Some p, APPLY_STALE) else
  valid ← quota_snapshot_valid p leases lease_count;
  if negb valid then Ok (Some (quota_require_snapshot p epoch sequence), APPLY_ERROR) else
  ls ← rd_slice (default [] leases) 0 lease_count;
  let retained := count_retained (qp_slots p) ls in
  if qp_max_tenants p <? lease_count + retained
  then Ok (Some (quota_require_snapshot p epoch sequence), APPLY_LIMIT) else
  if negb mem then Ok (Some (quota_require_snapshot p epoch sequence), APPLY_ERROR) else
  let replacement := replicate (Z.to_nat (qp_max_tenants p)) zero_slot in
  rn ← place_leases (qp_slots p) ls replacement 0;
  rn ← place_retained (qp_slots p) ls rn.1 rn.2;
  Ok (Some (set_version (set_slots p rn.1) 1 epoch sequence 0 0), APPLY_APPLIED).

(** The loop that looks for a slot for a new tenant. *)
Fixpoint free_quota_slot (ss : list quota_slot_t) (i : Z) : option Z :=
  match ss with
  | [] => None
  | s :: ss =>
    if negb (truth (qs_occupied s)) ||
       (negb (truth (qs_has_lease s)) && negb (quota_usage_present s))
    then Some i else free_quota_slot ss (i + 1)
  end.

Definition quota_apply_update (projection : option quota_projection_t)
    (epoch sequence : Z) (lease : option quota_lease_t)
    : res (option quota_projection_t * apply_result) :=
  let? p := projection else Ok (None, APPLY_ERROR) in
  if (epoch =? 0) || (sequence =? 0) then Ok (Some p, APPLY_ERROR) else
  if negb (truth (qp_synchronized p))
  then Ok (Some (quota_require_snapshot p epoch sequence), APPLY_GAP) else
  if quota_version_compare epoch sequence (qp_epoch p) (qp_sequence p) <=? 0
  then Ok (Some p, APPLY_STALE) else
  if negb (epoch =? qp_epoch p) || (qp_sequence p =? 18446744073709551615) ||
     negb (sequence =? u64 (qp_sequence p + 1))
  then Ok (Some (quota_require_snapshot p epoch sequence), APPLY_GAP) else
  if negb (quota_lease_valid p lease)
  then Ok (Some (quota_require_snapshot p epoch sequence), APPLY_ERROR) else
  let? l := lease else Fault in
  let? tenant := le_tenant_id l else Fault in
  let slot := match quota_find_slot (qp_slots p) tenant 0 with
              | Some i => Some i
              | None => free_quota_slot (qp_slots p) 0
              end in
  let? i := slot
    else Ok (Some (quota_require_snapshot p epoch sequence), APPLY_LIMIT) in
  s ← rd (qp_slots p) i;
  let s := if negb (truth (qs_occupied s)) || negb (bool_decide (qs_tenant_id s = tenant))
           then Build_quota_slot_t tenant 1 0 0 zero_limits zero_limits else s in
  ss ← upd (qp_slots p) i (set_lease s l);
  Ok (Some (set_version (set_slots p ss) (qp_synchronized p) epoch sequence
              (qp_required_epoch p) (qp_required_sequence p)), APPLY_APPLIED).

Definition quota_reserve (projection : option quota_projection_t)
    (tenant_id : option string) (resource amount now_unix_ms : Z)
    : res (option quota_projection_t * reserve_result) :=
  let? p := projection else Ok (None, RESERVE_ERROR) in
  let? tenant := tenant_id else Ok (Some p, RESERVE_ERROR) in
  if negb (tenant_id_valid (Some tenant)) || (resource <? 0) ||
     (QUOTA_RESOURCE_COUNT <=? resource) || (amount =? 0)
  then Ok (Some p, RESERVE_ERROR) else
  if negb (truth (qp_synchronized p)) then Ok (Some p, RESERVE_UNKNOWN) else
  let? i := quota_find_slot (qp_slots p) tenant 0 else Ok (Some p, RESERVE_NO_LEASE) in
  s ← rd (qp_slots p) i;
  if negb (truth (qs_has_lease s)) then Ok (Some p, RESERVE_NO_LEASE) else
  if qs_expires_at_unix_ms s <=? now_unix_ms then Ok (Some p, RESERVE_EXPIRED) else
  limit ← rd (qs_limits s) resource;
  used ← rd (qs_used s) resource;
  if (limit <? used) || (u32 (limit - used) <? amount) then Ok (Some p, RESERVE_LIMIT) else
  u ← upd (qs_used s) resource (u32 (used + amount));
  ss ← upd (qp_slots p) i (set_used s u);
  Ok (Some (set_slots p ss), RESERVE_OK).

Definition quota_release (projection : option quota_projection_t)
    (tenant_id : option string) (resource amount : Z)
    : res (option quota_projection_t * Z) :=
  let? p := projection else Ok (None, -1) in
  let? tenant := tenant_id else Ok (Some p, -1) in
  if negb (tenant_id_valid (Some tenant)) || (resource <? 0) ||
     (QUOTA_RESOURCE_COUNT <=? resource) || (amount =? 0)
  then Ok (Some p, -1) else
  let? i := quota_find_slot (qp_slots p) tenant 0 else Ok (Some p, -1) in
  s ← rd (qp_slots p) i;
  used ← rd (qs_used s) resource;
  if used <? amount then Ok (Some p, -1) else
  u ← upd (qs_used s) resource (u32 (used - amount));
  let s := set_used s u in
  let s := if negb (any_used s) && negb (truth (qs_has_lease s)) then zero_slot else s in
  ss ← upd (qp_slots p) i s;
  Ok (Some (set_slots p ss), 0).

(** [*out_synchronized], [*out_epoch], [*out_sequence], [*out_lease_count]. *)
Definition quota_status (projection : option quota_projection_t) (outs : option unit)
    : option (Z * Z * Z * Z) :=
  let? p := projection else None in
  let? _ := outs else None in
  Some (qp_synchronized p, qp_epoch p, qp_sequence p,
        len (base.filter (fun s => truth (qs_occupied s) && truth (qs_has_lease s))
               (qp_slots p))).

(** [*out_used], [*out_limit], [*out_expires_at_unix_ms], [*out_has_lease]. *)
Definition quota_usage (projection : option quota_projection_t)
    (tenant_id : option string) (resource : Z) (outs : option unit)
    : res (Z * Z * Z * Z) :=
  let? p := projection else Err in
  let? tenant := tenant_id else Err in
  if negb (tenant_id_valid (Some tenant)) || (resource <? 0) ||
     (QUOTA_RESOURCE_COUNT <=? resource) then Err else
  let? _ := outs else Err in
  let? i := quota_find_slot (qp_slots p) tenant 0 else Err in
  s ← rd (qp_slots p) i;
  used ← rd (qs_used s) resource;
  limit ← rd (qs_limits s) resource;
  Ok (used, if truth (qs_has_lease s) then limit else 0,
      if truth (qs_has_lease s) then qs_expires_at_unix_ms s else 0, qs_has_lease s).

(* ------------------------------------------------------------------ *)
(** ** Specification: a ledger of accounts *)

Record account := { ac_lease : option (Z * list Z); ac_used : list Z }.

Record ledger := {
  lg_node : string;
  lg_max : Z;
  lg_synchronized : bool;
  lg_version : Z * Z;
  lg_required : Z * Z;
  lg_accounts : gmap string account }.

Definition in_use (a : account) : bool := existsb truth (ac_used a).

Definition used_of (m : gmap string account) (tenant : string) : list Z :=
  match m !! tenant with Some a => ac_used a | None => zero_limits end.

(** A lease this node can take, with its tenant. *)
Definition lease_ok (node : string) (l : quota_lease_t) : option string :=
  t ← le_tenant_id l;
  if tenant_id_valid (Some t) && node_id_valid (le_node_id l) &&
     bool_decide (le_node_id l = Some node) && negb (le_expires_at_unix_ms l =? 0)
  then Some t else None.

(** The tenants of a valid snapshot. *)
Definition snapshot_tenants (node : string) (ls : list quota_lease_t) : option (list string) :=
  ts ← mapM (lease_ok node) ls;
  if decide (NoDup ts) then Some ts else None.

Definition leased_account (m : gmap string account) (t : string) (l : quota_lease_t) : account :=
  {| ac_lease := Some (le_expires_at_unix_ms l, le_limits l); ac_used := used_of m t |}.

(** The leases of the snapshot, and the usage of the others. *)
Definition snapshot_accounts (m : gmap string account) (ts : list string)
    (ls : list quota_lease_t) : gmap string account :=
  list_to_map (zip_with (fun t l => (t, leased_account m t l)) ts ls) ∪
  ((fun a => {| ac_lease := None; ac_used := ac_used a |}) <$>
     filter (fun x => in_use x.2) m).

Definition ledger_desync (g : ledger) (v : Z * Z) : ledger :=
  {| lg_node := lg_node g; lg_max := lg_max g; lg_synchronized := false;
     lg_version := lg_version g;
     lg_required := demanded (lg_required g) v;
     lg_accounts := lg_accounts g |}.

Definition with_accounts (g : ledger) (m : gmap string account) : ledger :=
  {| lg_node := lg_node g; lg_max := lg_max g; lg_synchronized := lg_synchronized g;
     lg_version := lg_version g; lg_required := lg_required g; lg_accounts := m |}.

Definition ledger_snapshot (g : ledger) (v : Z * Z) (ls : list quota_lease_t) (mem : bool)
    : ledger * apply_result :=
  if v.1 =? 0 then (g, APPLY_ERROR) else
  if lg_synchronized g && negb (version_lt (lg_version g) v) then (g, APPLY_STALE) else
  if negb (lg_synchronized g) && negb ((lg_required g).1 =? 0) && version_lt v (lg_required g)
  then (g, APPLY_STALE) else
  match (if lg_max g <? len ls then None else snapshot_tenants (lg_node g) ls) with
  | None => (ledger_desync g v, APPLY_ERROR)
  | Some ts =>
    let m := snapshot_accounts (lg_accounts g) ts ls in
    if lg_max g <? Z.of_nat (size m) then (ledger_desync g v, APPLY_LIMIT) else
    if negb mem then (ledger_desync g v, APPLY_ERROR) else
    ({| lg_node := lg_node g; lg_max := lg_max g; lg_synchronized := true;
        lg_version := v; lg_required := (0, 0); lg_accounts := m |}, APPLY_APPLIED)
  end.

Definition ledger_update (g : ledger) (v : Z * Z) (l : option quota_lease_t)
    : ledger * apply_result :=
  if (v.1 =? 0) || (v.2 =? 0) then (g, APPLY_ERROR) else
  if negb (lg_synchronized g) then (ledger_desync g v, APPLY_GAP) else
  if negb (version_lt (lg_version g) v) then (g, APPLY_STALE) else
  if negb (bool_decide (v = ((lg_version g).1, (lg_version g).2 + 1)))
  then (ledger_desync g v, APPLY_GAP) else
  match (l ← l; t ← lease_ok (lg_node g) l; Some (t, l)) with
  | None => (ledger_desync g v, APPLY_ERROR)
  | Some (t, l) =>
    let m := lg_accounts g in
    if bool_decide (m !! t = None) && (lg_max g <=? Z.of_nat (size m))
    then (ledger_desync g v, APPLY_LIMIT) else
    ({| lg_node := lg_node g; lg_max := lg_max g; lg_synchronized := true;
        lg_version := v; lg_required := lg_required g;
        lg_accounts := <[t := leased_account m t l]> m |}, APPLY_APPLIED)
  end.

(** A request with a tenant, a resource and a positive amount. *)
Definition request_ok (t : string) (resource amount : Z) : bool :=
  tenant_id_valid (Some t) && (0 <=? resource) && (resource <? QUOTA_RESOURCE_COUNT) &&
  negb (amount =? 0).

Definition used_at (u : list Z) (resource : Z) : Z := default 0 (u !! Z.to_nat resource).

Definition ledger_reserve (g : ledger) (t : string) (resource amount now : Z)
    : ledger * reserve_result :=
  if negb (request_ok t resource amount) then (g, RESERVE_ERROR) else
  if negb (lg_synchronized g) then (g, RESERVE_UNKNOWN) else
  match lg_accounts g !! t with
  | Some {| ac_lease := Some (expires, limits); ac_used := u |} =>
    if expires <=? now then (g, RESERVE_EXPIRED) else
    let used := used_at u resource in
    if used_at limits resource <? used + amount then (g, RESERVE_LIMIT) else
    (with_accounts g
       (<[t := {| ac_lease := Some (expires, limits);
                  ac_used := <[Z.to_nat resource := used + amount]> u |}]> (lg_accounts g)),
     RESERVE_OK)
  | _ => (g, RESERVE_NO_LEASE)
  end.

(** An account without lease disappears with its last usage. *)
Definition ledger_release (g : ledger) (t : string) (resource amount : Z) : ledger * Z :=
  if negb (request_ok t resource amount) then (g, -1) else
  match lg_accounts g !! t with
  | Some a =>
    let used := used_at (ac_used a) resource in
    if used <? amount then (g, -1) else
    let a' := {| ac_lease := ac_lease a;
                 ac_used := <[Z.to_nat resource := used - amount]> (ac_used a) |} in
    (with_accounts g
       (if negb (in_use a') && bool_decide (ac_lease a' = None)
        then delete t (lg_accounts g) else <[t := a']> (lg_accounts g)), 0)
  | None => (g, -1)
  end.

(* ------------------------------------------------------------------ *)
(** ** Abstraction *)

Definition account_of (s : quota_slot_t) : account :=
  {| ac_lease := if truth (qs_has_lease s) then Some (qs_expires_at_unix_ms s, qs_limits s)
                 else None;
     ac_used := qs_used s |}.

Definition slot_entry (s : quota_slot_t) : list (string * account) :=
  if truth (qs_occupied s) then [(qs_tenant_id s, account_of s)] else [].

Definition entries (ss : list quota_slot_t) : list (string * account) := ss ≫= slot_entry.

Definition accounts (ss : list quota_slot_t) : gmap string account := list_to_map (entries ss).

Definition ledger_of (p : quota_projection_t) : ledger :=
  {| lg_node := qp_node_id p; lg_max := qp_max_tenants p;
     lg_synchronized := truth (qp_synchronized p);
     lg_version := (qp_epoch p, qp_sequence p);
     lg_required := (qp_required_epoch p, qp_required_sequence p);
     lg_accounts := accounts (qp_slots p) |}.

Record slot_wf (s : quota_slot_t) : Prop := {
  slw_limits : len (qs_limits s) = QUOTA_RESOURCE_COUNT;
  slw_limits_range : Forall is_u32 (qs_limits s);
  slw_used : len (qs_used s) = QUOTA_RESOURCE_COUNT;
  slw_used_range : Forall is_u32 (qs_used s);
  slw_alive : truth (qs_occupied s) = true -> truth (qs_has_lease s) = true \/ any_used s = true }.

Record quota_wf (p : quota_projection_t) : Prop := {
  qwf_slots : len (qp_slots p) = qp_max_tenants p;
  qwf_max : 1 <= qp_max_tenants p <= QUOTA_MAX_TENANTS;
  qwf_slot : Forall slot_wf (qp_slots p);
  qwf_unique : NoDup (entries (qp_slots p)).*1;
  qwf_sequence : is_u64 (qp_sequence p) }.

(** A lease as the caller passes it: five [uint32_t] limits. *)
Definition lease_wf (l : quota_lease_t) : Prop :=
  len (le_limits l) = QUOTA_RESOURCE_COUNT /\ Forall is_u32 (le_limits l).

(* ------------------------------------------------------------------ *)
(** ** Slots and accounts *)

Lemma entries_app l1 l2 : entries (l1 ++ l2) = entries l1 ++ entries l2.
Proof. apply bind_app. Qed.

(** The entries are those of one slot and of the others. *)
Lemma entries_split ss i s :
  rd ss i = Ok s ->
  exists rest, entries ss ≡ₚ slot_entry s ++ rest /\
    forall s', entries (<[Z.to_nat i := s']> ss) ≡ₚ slot_entry s' ++ rest.
Proof.
  intros [Hi Hs]%rd_lookup. apply list_elem_of_split_length in Hs as (l1 & l2 & -> & Hl).
  exists (entries l1 ++ entries l2). split; [|intros s'].
  - rewrite entries_app. change (entries (s :: l2)) with (slot_entry s ++ entries l2).
    by rewrite Permutation_app_swap_app.
  - rewrite insert_app_r_alt by lia. rewrite Hl, Nat.sub_diag.
    change (<[0%nat:=s']> (s :: l2)) with (s' :: l2).
    rewrite entries_app. change (entries (s' :: l2)) with (slot_entry s' ++ entries l2).
    by rewrite Permutation_app_swap_app.
Qed.

Lemma accounts_perm ss l :
  entries ss ≡ₚ l -> NoDup (entries ss).*1 -> accounts ss = list_to_map l.
Proof. intros Hp Hn. by apply list_to_map_proper. Qed.

Lemma find_slot_spec ss t i :
  match quota_find_slot ss t i with
  | Some j => i <= j < i + len ss /\ exists s, rd ss (j - i) = Ok s /\
      truth (qs_occupied s) = true /\ qs_tenant_id s = t
  | None => t ∉ (entries ss).*1
  end.
Proof.
  revert i. induction ss as [|s ss IH]; intros i; cbn [quota_find_slot].
  { apply not_elem_of_nil. }
  pose proof (len_nonneg ss).
  destruct (truth (qs_occupied s)) eqn:Eo; cbn [andb].
  2: { specialize (IH (i + 1)). destruct (quota_find_slot ss t (i + 1)) as [j|].
       - destruct IH as (Hj & x & Hx & Hr). rewrite len_cons. split; [lia|].
         exists x. split; [|done]. apply rd_lookup in Hx as [? Hx]. apply rd_lookup.
         split; [lia|]. replace (Z.to_nat (j - i)) with (S (Z.to_nat (j - (i + 1)))) by lia. done.
       - change (entries (s :: ss)) with (slot_entry s ++ entries ss). unfold slot_entry.
         by rewrite Eo. }
  case_bool_decide as Et.
  { rewrite len_cons. split; [lia|]. exists s. rewrite Z.sub_diag. done. }
  specialize (IH (i + 1)). destruct (quota_find_slot ss t (i + 1)) as [j|].
  - destruct IH as (Hj & x & Hx & Hr). rewrite len_cons. split; [lia|].
    exists x. split; [|done]. apply rd_lookup in Hx as [? Hx]. apply rd_lookup.
    split; [lia|]. replace (Z.to_nat (j - i)) with (S (Z.to_nat (j - (i + 1)))) by lia. done.
  - change (entries (s :: ss)) with (slot_entry s ++ entries ss). unfold slot_entry.
    rewrite Eo. cbn. apply not_elem_of_cons. split; [congruence|done].
Qed.

Lemma find_slot_account ss t :
  NoDup (entries ss).*1 ->
  match quota_find_slot ss t 0 with
  | Some i => exists s, rd ss i = Ok s /\ truth (qs_occupied s) = true /\ qs_tenant_id s = t /\
      accounts ss !! t = Some (account_of s)
  | None => accounts ss !! t = None
  end.
Proof.
  intros Hn. pose proof (find_slot_spec ss t 0) as H.
  destruct (quota_find_slot ss t 0) as [i|].
  - destruct H as (_ & s & Hs & Ho & Ht). rewrite Z.sub_0_r in Hs.
    exists s. split_and!; try done.
    destruct (entries_split ss i s Hs) as (rest & Hp & _).
    rewrite (accounts_perm _ _ Hp Hn). unfold slot_entry. rewrite Ho, Ht. cbn.
    by rewrite lookup_insert_eq.
  - by apply not_elem_of_list_to_map_1.
Qed.

(** Assigning a slot. *)
Lemma accounts_assign ss i s s' :
  rd ss i = Ok s -> NoDup (entries ss).*1 ->
  (truth (qs_occupied s') = true -> qs_tenant_id s' ∈ (slot_entry s).*1 \/
     qs_tenant_id s' ∉ (entries ss).*1) ->
  NoDup (entries (<[Z.to_nat i := s']> ss)).*1 /\
  accounts (<[Z.to_nat i := s']> ss) =
    (if truth (qs_occupied s') then
       <[qs_tenant_id s' := account_of s']>
         (if truth (qs_occupied s) then delete (qs_tenant_id s) (accounts ss) else accounts ss)
     else if truth (qs_occupied s) then delete (qs_tenant_id s) (accounts ss)
     else accounts ss).
Proof.
  intros Hs Hn Hfresh. destruct (entries_split ss i s Hs) as (rest & Hp & Hp').
  rewrite (accounts_perm _ _ Hp Hn). rewrite Hp in Hn.
  assert (Hf : truth (qs_occupied s') = true -> qs_tenant_id s' ∉ rest.*1).
  { intros Ho. rewrite fmap_app in Hn. apply NoDup_app in Hn as (_ & Hd & _).
    destruct (Hfresh Ho) as [Hin|Hin]; [by apply Hd|].
    rewrite Hp, fmap_app, not_elem_of_app in Hin. tauto. }
  assert (Hn' : NoDup (slot_entry s' ++ rest).*1).
  { rewrite fmap_app in Hn. apply NoDup_app in Hn as (_ & _ & Hnr).
    unfold slot_entry at 1. destruct (truth (qs_occupied s')); [|done].
    cbn. apply NoDup_cons. by split; [apply Hf|]. }
  assert (Hb : list_to_map rest = (if truth (qs_occupied s)
     then delete (qs_tenant_id s) (list_to_map (slot_entry s ++ rest) : gmap string account)
     else list_to_map (slot_entry s ++ rest))).
  { unfold slot_entry. unfold slot_entry in Hn. destruct (truth (qs_occupied s)); [|done].
    cbn in *. apply NoDup_cons in Hn as [Hn _].
    rewrite delete_insert_id; [done|]. by apply not_elem_of_list_to_map_1. }
  split; [by rewrite Hp'|].
  rewrite (accounts_perm _ _ (Hp' s')) by (by rewrite Hp').
  unfold slot_entry at 1. destruct (truth (qs_occupied s')); cbn; by rewrite Hb.
Qed.

Lemma account_insert_delete (m : gmap string account) t a : <[t := a]> (delete t m) = <[t := a]> m.
Proof. apply insert_delete_eq. Qed.

Lemma wf_slot p i s : quota_wf p -> rd (qp_slots p) i = Ok s -> slot_wf s.
Proof. intros Hwf [_ Hs]%rd_lookup. apply (Forall_lookup_1 _ _ _ _ (qwf_slot p Hwf) Hs). Qed.

(** Assigning a well-formed slot of the same tenant, or freeing it. *)
Lemma quota_wf_assign p i s s' :
  quota_wf p -> rd (qp_slots p) i = Ok s -> slot_wf s' ->
  (truth (qs_occupied s') = true -> qs_tenant_id s' ∈ (slot_entry s).*1 \/
     qs_tenant_id s' ∉ (entries (qp_slots p)).*1) ->
  upd (qp_slots p) i s' = Ok (<[Z.to_nat i := s']> (qp_slots p)) /\
  quota_wf (set_slots p (<[Z.to_nat i := s']> (qp_slots p))).
Proof.
  intros Hwf Hs Hs' Hf. pose proof (rd_bounds _ _ _ Hs).
  split; [by apply upd_Ok|].
  destruct (accounts_assign (qp_slots p) i s s' Hs (qwf_unique p Hwf) Hf) as [Hn _].
  destruct Hwf. constructor; cbn; try done.
  - by rewrite len_insert.
  - by apply Forall_insert.
Qed.

Lemma rd_used_at (u : list Z) r :
  len u = QUOTA_RESOURCE_COUNT -> 0 <= r < QUOTA_RESOURCE_COUNT -> rd u r = Ok (used_at u r).
Proof.
  intros Hl Hr. destruct (rd_in_range u r) as [x Hx]; [lia|]. rewrite Hx.
  apply rd_lookup in Hx as [_ Hx]. unfold used_at. by rewrite Hx.
Qed.

Lemma used_at_range u r : Forall is_u32 u -> 0 <= used_at u r < 4294967296.
Proof.
  intros Hu. unfold used_at. destruct (u !! Z.to_nat r) as [x|] eqn:E; cbn; [|lia].
  apply (Forall_lookup_1 _ _ _ _ Hu E).
Qed.

Lemma set_used_wf s u r v :
  slot_wf s -> u = <[Z.to_nat r := v]> (qs_used s) -> is_u32 v ->
  (truth (qs_occupied s) = true -> truth (qs_has_lease s) = true \/ existsb truth u = true) ->
  slot_wf (set_used s u).
Proof.
  intros [] -> Hv Ha. constructor; cbn; try done; [by rewrite len_insert|by apply Forall_insert].
Qed.

Lemma slot_entry_occupied s : truth (qs_occupied s) = true -> qs_tenant_id s ∈ (slot_entry s).*1.
Proof. intros Ho. unfold slot_entry. rewrite Ho. by left. Qed.

Lemma ledger_of_set_slots p ss :
  ledger_of (set_slots p ss) = with_accounts (ledger_of p) (accounts ss).
Proof. done. Qed.

(** Both requests start with the same checks. *)
Lemma request_checks t r a :
  negb (tenant_id_valid (Some t)) || (r <? 0) || (QUOTA_RESOURCE_COUNT <=? r) || (a =? 0)
  = negb (request_ok t r a).
Proof.
  unfold request_ok. destruct (tenant_id_valid (Some t)); cbn [negb orb andb]; [|done].
  unfold QUOTA_RESOURCE_COUNT. lia.
Qed.

Lemma existsb_insert_pos (u : list Z) r v :
  0 <= r < len u -> 0 < v -> existsb truth (<[Z.to_nat r := v]> u) = true.
Proof.
  intros Hr Hv. apply existsb_exists. exists v. split.
  - apply list_elem_of_In. apply (list_elem_of_lookup_2 _ (Z.to_nat r)).
    rewrite list_lookup_insert_eq; [done|len_lia].
  - unfold truth. lia.
Qed.

Lemma quota_reserve_refines p t r amount now :
  quota_wf p -> is_u32 amount ->
  exists p' v, quota_reserve (Some p) (Some t) r amount now = Ok (Some p', v) /\ quota_wf p' /\
    ledger_reserve (ledger_of p) t r amount now = (ledger_of p', v).
Proof.
  intros Hwf Ha. unfold quota_reserve, ledger_reserve. rewrite request_checks.
  destruct (request_ok t r amount) eqn:Eok; cbn [negb]; [|by eauto].
  cbn [ledger_of lg_synchronized lg_accounts].
  destruct (truth (qp_synchronized p)); cbn [negb]; [|by eauto].
  pose proof (find_slot_account (qp_slots p) t (qwf_unique p Hwf)) as Hf.
  destruct (quota_find_slot (qp_slots p) t 0) as [i|]; [|rewrite Hf; by eauto].
  destruct Hf as (s & Hs & Ho & <- & Hacc). rewrite Hs, Hacc. cbn [mbind res_bind].
  unfold account_of. destruct (truth (qs_has_lease s)) eqn:El; cbn [negb]; [|by eauto].
  destruct (qs_expires_at_unix_ms s <=? now); [by eauto|].
  pose proof (wf_slot p i s Hwf Hs) as Hsw.
  unfold request_ok in Eok. apply andb_true_iff in Eok as [Eok Ea].
  assert (Hr : 0 <= r < QUOTA_RESOURCE_COUNT) by lia.
  rewrite (rd_used_at (qs_limits s)) by (done || apply Hsw). cbn [mbind res_bind].
  rewrite (rd_used_at (qs_used s)) by (done || apply Hsw). cbn [mbind res_bind].
  pose proof (used_at_range _ r (slw_limits_range s Hsw)) as Hlr.
  pose proof (used_at_range _ r (slw_used_range s Hsw)) as Hur.
  set (limit := used_at (qs_limits s) r) in *. set (used := used_at (qs_used s) r) in *.
  unfold is_u32 in Ha.
  assert (Hcond : (limit <? used) || (u32 (limit - used) <? amount) = (limit <? used + amount)).
  { destruct (Z.ltb_spec limit used); cbn [orb]; [lia|].
    rewrite u32_id by (unfold is_u32; lia). lia. }
  rewrite Hcond. destruct (Z.ltb_spec limit (used + amount)); [by eauto|].
  rewrite u32_id by (unfold is_u32; lia).
  rewrite upd_Ok by (rewrite (slw_used s Hsw); done). cbn [mbind res_bind].
  destruct (quota_wf_assign p i s (set_used s (<[Z.to_nat r := used + amount]> (qs_used s))))
    as [E Hwf']; [done|done| |left; exact (slot_entry_occupied s Ho)|].
  { eapply set_used_wf; [done|reflexivity|unfold is_u32; lia|by left]. }
  rewrite E. cbn [mbind res_bind]. do 2 eexists. split; [done|]. split; [done|].
  rewrite ledger_of_set_slots.
  destruct (accounts_assign (qp_slots p) i s (set_used s (<[Z.to_nat r := used + amount]> (qs_used s)))
    Hs (qwf_unique p Hwf)) as [_ ->]; [left; exact (slot_entry_occupied s Ho)|].
  cbn. rewrite Ho, account_insert_delete. unfold account_of. cbn. by rewrite El.
Qed.

Lemma lease_none s : bool_decide (ac_lease (account_of s) = None) = negb (truth (qs_has_lease s)).
Proof.
  destruct (truth (qs_has_lease s)) eqn:E; [apply bool_decide_false|apply bool_decide_true];
    unfold account_of; cbn; by rewrite E.
Qed.

Lemma quota_release_refines p t r amount :
  quota_wf p -> is_u32 amount ->
  exists p' v, quota_release (Some p) (Some t) r amount = Ok (Some p', v) /\ quota_wf p' /\
    ledger_release (ledger_of p) t r amount = (ledger_of p', v).
Proof.
  intros Hwf Ha. unfold quota_release, ledger_release. rewrite request_checks.
  destruct (request_ok t r amount) eqn:Eok; cbn [negb]; [|by eauto].
  cbn [ledger_of lg_accounts].
  pose proof (find_slot_account (qp_slots p) t (qwf_unique p Hwf)) as Hf.
  destruct (quota_find_slot (qp_slots p) t 0) as [i|]; [|rewrite Hf; by eauto].
  destruct Hf as (s & Hs & Ho & <- & Hacc). rewrite Hs, Hacc. cbn [mbind res_bind].
  pose proof (wf_slot p i s Hwf Hs) as Hsw.
  unfold request_ok in Eok. apply andb_true_iff in Eok as [Eok Ea].
  assert (Hr : 0 <= r < QUOTA_RESOURCE_COUNT) by lia.
  rewrite (rd_used_at (qs_used s)) by (done || apply Hsw). cbn [mbind res_bind].
  change (ac_used (account_of s)) with (qs_used s).
  pose proof (used_at_range _ r (slw_used_range s Hsw)) as Hur.
  set (used := used_at (qs_used s) r) in *. unfold is_u32 in Ha.
  destruct (Z.ltb_spec used amount); [by eauto|].
  rewrite u32_id by (unfold is_u32; lia).
  rewrite upd_Ok by (rewrite (slw_used s Hsw); done). cbn [mbind res_bind ac_lease].
  set (u := <[Z.to_nat r := used - amount]> (qs_used s)).
  change (any_used (set_used s u)) with (existsb truth u).
  change (qs_has_lease (set_used s u)) with (qs_has_lease s).
  change (in_use {| ac_lease := ac_lease (account_of s); ac_used := u |}) with (existsb truth u).
  rewrite lease_none.
  destruct (negb (existsb truth u) && negb (truth (qs_has_lease s))) eqn:Ez.
  - destruct (quota_wf_assign p i s zero_slot) as [E Hwf'];
      [done|done|by constructor; (done || by repeat constructor)|done|].
    rewrite E. cbn [mbind res_bind]. do 2 eexists. split; [done|]. split; [done|].
    rewrite ledger_of_set_slots.
    destruct (accounts_assign (qp_slots p) i s zero_slot Hs (qwf_unique p Hwf)) as [_ ->]; [done|].
    cbn. by rewrite Ho.
  - destruct (quota_wf_assign p i s (set_used s u)) as [E Hwf'];
      [done|done| |left; exact (slot_entry_occupied s Ho)|].
    { eapply set_used_wf; [done|reflexivity|unfold is_u32; lia|intros _].
      fold u. destruct (existsb truth u); [by right|]. left. cbn in Ez.
      by destruct (truth (qs_has_lease s)). }
    rewrite E. cbn [mbind res_bind]. do 2 eexists. split; [done|]. split; [done|].
    rewrite ledger_of_set_slots.
    destruct (accounts_assign (qp_slots p) i s (set_used s u) Hs (qwf_unique p Hwf)) as [_ ->];
      [left; exact (slot_entry_occupied s Ho)|].
    cbn. by rewrite Ho, account_insert_delete.
Qed.

(** *** Versions and validity *)

Lemma version_compare_spec le ls re rs :
  (quota_version_compare le ls re rs <? 0) = version_lt (le, ls) (re, rs) /\
  (0 <? quota_version_compare le ls re rs) = version_lt (re, rs) (le, ls) /\
  (quota_version_compare le ls re rs <=? 0) = negb (version_lt (re, rs) (le, ls)).
Proof.
  unfold quota_version_compare, version_lt. cbn [fst snd].
  destruct (Z.ltb_spec le re), (Z.ltb_spec re le), (Z.ltb_spec ls rs), (Z.ltb_spec rs ls),
    (Z.eqb_spec le re), (Z.eqb_spec re le); try lia; done.
Qed.

Lemma require_snapshot_refines p e s :
  quota_wf p -> quota_wf (quota_require_snapshot p e s) /\
  ledger_of (quota_require_snapshot p e s) = ledger_desync (ledger_of p) (e, s).
Proof.
  intros Hwf. unfold quota_require_snapshot, ledger_desync, demanded.
  destruct (version_compare_spec e s (qp_required_epoch p) (qp_required_sequence p))
    as (_ & -> & _). cbn [ledger_of lg_required].
  destruct Hwf. by destruct (version_lt _ _).
Qed.

Lemma lease_ok_spec p l :
  lease_ok (qp_node_id p) l =
  if quota_lease_valid p (Some l) then le_tenant_id l else None.
Proof.
  unfold lease_ok, quota_lease_valid. destruct (le_tenant_id l) as [t|]; cbn [mbind option_bind];
    [done|]. by destruct (_ && _).
Qed.

Lemma valid_lease_tenant p l :
  quota_lease_valid p (Some l) = true -> exists t, le_tenant_id l = Some t.
Proof.
  unfold quota_lease_valid. destruct (le_tenant_id l) as [t|]; [by exists t|done].
Qed.

(** *** Free slots *)

Lemma size_accounts ss :
  NoDup (entries ss).*1 -> Z.of_nat (size (accounts ss)) = len (entries ss).
Proof. intros Hn. unfold accounts, len. by rewrite map_size_list_to_map. Qed.

Lemma entries_cons s ss : entries (s :: ss) = slot_entry s ++ entries ss.
Proof. done. Qed.

Lemma len_slot_entry s : len (slot_entry s) = b2i (truth (qs_occupied s)).
Proof. unfold slot_entry. by destruct (truth (qs_occupied s)). Qed.

Lemma len_entries_le ss : len (entries ss) <= len ss.
Proof.
  induction ss as [|s ss IH]; [done|].
  rewrite entries_cons, len_app, len_slot_entry, len_cons. unfold b2i. case_match; lia.
Qed.

Lemma free_quota_slot_spec ss i :
  Forall slot_wf ss ->
  match free_quota_slot ss i with
  | Some j => i <= j < i + len ss /\ len (entries ss) < len ss /\
      exists s, rd ss (j - i) = Ok s /\ truth (qs_occupied s) = false
  | None => len (entries ss) = len ss
  end.
Proof.
  revert i. induction ss as [|s ss IH]; intros i Hss; cbn [free_quota_slot]; [done|].
  apply Forall_cons in Hss as [Hs Hss]. pose proof (len_nonneg ss).
  rewrite entries_cons, len_app, len_slot_entry, len_cons. pose proof (len_entries_le ss).
  destruct (truth (qs_occupied s)) eqn:Eo; cbn [negb orb].
  - replace (negb (truth (qs_has_lease s)) && negb (quota_usage_present s)) with false.
    2: { unfold quota_usage_present. rewrite Eo. cbn [negb].
         destruct (slw_alive s Hs Eo) as [->| ->]; [done|by rewrite andb_false_r]. }
    specialize (IH (i + 1) Hss). destruct (free_quota_slot ss (i + 1)) as [j|]; cbn [b2i].
    + destruct IH as (Hj & Hl & x & Hx & Hox). split; [lia|]. split; [lia|].
      exists x. split; [|done]. apply rd_lookup in Hx as [? Hx]. apply rd_lookup.
      split; [lia|]. replace (Z.to_nat (j - i)) with (S (Z.to_nat (j - (i + 1)))) by lia. done.
    + lia.
  - cbn [b2i]. split; [lia|]. split; [lia|]. exists s. rewrite Z.sub_diag. done.
Qed.

(** *** Updates *)

Lemma set_lease_wf s l : slot_wf s -> lease_wf l -> slot_wf (set_lease s l).
Proof. intros [] []. constructor; cbn; try done. by left. Qed.

Lemma new_slot_wf t : slot_wf (Build_quota_slot_t t 1 1 0 zero_limits zero_limits).
Proof. constructor; try done; [by repeat constructor..|by left]. Qed.

(** Giving a lease to the slot [s], found or free, for tenant [t]. *)
Lemma assign_lease_refines p i s t l :
  quota_wf p -> rd (qp_slots p) i = Ok s -> lease_wf l ->
  (truth (qs_occupied s) = true /\ qs_tenant_id s = t /\
     accounts (qp_slots p) !! t = Some (account_of s)) \/
  (truth (qs_occupied s) = false /\ accounts (qp_slots p) !! t = None) ->
  let s1 := if negb (truth (qs_occupied s)) || negb (bool_decide (qs_tenant_id s = t))
            then Build_quota_slot_t t 1 0 0 zero_limits zero_limits else s in
  let ss := <[Z.to_nat i := set_lease s1 l]> (qp_slots p) in
  upd (qp_slots p) i (set_lease s1 l) = Ok ss /\ quota_wf (set_slots p ss) /\
  accounts ss = <[t := leased_account (accounts (qp_slots p)) t l]> (accounts (qp_slots p)).
Proof.
  intros Hwf Hs Hl Hcase s1 ss.
  assert (Hs1 : slot_wf (set_lease s1 l) /\ qs_tenant_id (set_lease s1 l) = t /\
    truth (qs_occupied (set_lease s1 l)) = true /\
    account_of (set_lease s1 l) = leased_account (accounts (qp_slots p)) t l).
  { unfold s1, leased_account, used_of. destruct Hcase as [(Ho & Ht & ->)|(Ho & ->)]; rewrite Ho.
    - rewrite bool_decide_true by done. cbn [negb orb]. split_and!; try done.
      apply set_lease_wf; [by apply (wf_slot p i)|done].
    - cbn [negb orb]. split_and!; try done.
      destruct Hl. constructor; cbn; try done; [by repeat constructor|by left]. }
  destruct Hs1 as (Hw1 & Ht1 & Ho1 & Ha1).
  assert (Hf : truth (qs_occupied (set_lease s1 l)) = true ->
    qs_tenant_id (set_lease s1 l) ∈ (slot_entry s).*1 \/
    qs_tenant_id (set_lease s1 l) ∉ (entries (qp_slots p)).*1).
  { intros _. rewrite Ht1. destruct Hcase as [(Ho & <- & _)|(_ & Hn)].
    - left. by apply slot_entry_occupied.
    - right. by apply not_elem_of_list_to_map_2 in Hn. }
  destruct (quota_wf_assign p i s (set_lease s1 l) Hwf Hs Hw1 Hf) as [E Hwf'].
  split; [done|]. split; [done|].
  destruct (accounts_assign (qp_slots p) i s (set_lease s1 l) Hs (qwf_unique p Hwf) Hf)
    as [_ Hacc]. unfold ss. rewrite Hacc, Ho1, Ht1, Ha1.
  destruct Hcase as [(Ho & -> & _)|(Ho & _)]; rewrite Ho; [|done].
  by rewrite account_insert_delete.
Qed.

(** The slot an update takes: the tenant's own, or a free one while there is one. *)
Lemma update_slot_spec p t :
  quota_wf p ->
  match (match quota_find_slot (qp_slots p) t 0 with
         | Some i => Some i | None => free_quota_slot (qp_slots p) 0 end) with
  | Some i => bool_decide (accounts (qp_slots p) !! t = None) &&
        (qp_max_tenants p <=? Z.of_nat (size (accounts (qp_slots p)))) = false /\
      exists s, rd (qp_slots p) i = Ok s /\
      ((truth (qs_occupied s) = true /\ qs_tenant_id s = t /\
        accounts (qp_slots p) !! t = Some (account_of s)) \/
       (truth (qs_occupied s) = false /\ accounts (qp_slots p) !! t = None))
  | None => bool_decide (accounts (qp_slots p) !! t = None) &&
        (qp_max_tenants p <=? Z.of_nat (size (accounts (qp_slots p)))) = true
  end.
Proof.
  intros Hwf. pose proof (find_slot_account (qp_slots p) t (qwf_unique p Hwf)) as Hf.
  pose proof (free_quota_slot_spec (qp_slots p) 0 (qwf_slot p Hwf)) as Hfree.
  pose proof (size_accounts _ (qwf_unique p Hwf)) as Hsize.
  rewrite (qwf_slots p Hwf) in Hfree.
  destruct (quota_find_slot (qp_slots p) t 0) as [j|].
  - destruct Hf as (s & Hs & Ho & Hts & Ha). rewrite Ha. split; [done|]. exists s. tauto.
  - rewrite Hf. rewrite bool_decide_true by done. cbn [andb].
    destruct (free_quota_slot (qp_slots p) 0) as [j|]; [|lia].
    destruct Hfree as (_ & Hlt & s & Hs & Ho). rewrite Z.sub_0_r in Hs.
    split; [lia|]. exists s. tauto.
Qed.

Lemma quota_update_refines p e sq l :
  quota_wf p -> is_u64 sq -> (forall x, l = Some x -> lease_wf x) ->
  exists p' v, quota_apply_update (Some p) e sq l = Ok (Some p', v) /\ quota_wf p' /\
    ledger_update (ledger_of p) (e, sq) l = (ledger_of p', v).
Proof.
  intros Hwf Hsq Hl. unfold quota_apply_update, ledger_update. cbn [fst snd].
  destruct ((e =? 0) || (sq =? 0)); [by eauto|].
  cbn [ledger_of lg_synchronized lg_version lg_node lg_max lg_accounts lg_required].
  fold (ledger_of p). destruct (require_snapshot_refines p e sq Hwf) as [Hwfr Hr].
  rewrite <- Hr.
  destruct (truth (qp_synchronized p)) eqn:Esync; cbn [negb]; [|by eauto].
  destruct (version_compare_spec e sq (qp_epoch p) (qp_sequence p)) as (_ & _ & ->).
  destruct (negb (version_lt _ _)); [by eauto|].
  rewrite next_version by (apply Hwf || done). destruct (bool_decide _) eqn:Ev; cbn [negb]; [|by eauto].
  apply bool_decide_eq_true in Ev.
  destruct l as [l|]; cbn [mbind option_bind]; [|cbn; by eauto].
  rewrite lease_ok_spec.
  destruct (quota_lease_valid p (Some l)) eqn:Elv; cbn [negb]; [|by eauto].
  destruct (valid_lease_tenant p l Elv) as [t Ht]. rewrite Ht. cbn [mbind option_bind].
  pose proof (update_slot_spec p t Hwf) as Hi.
  set (i := match quota_find_slot (qp_slots p) t 0 with Some i => Some i | None => _ end) in *.
  clearbody i. destruct i as [i|]; [|rewrite Hi; by eauto].
  destruct Hi as (-> & s & Hs & Hcase). rewrite Hs. cbn [mbind res_bind].
  destruct (assign_lease_refines p i s t l Hwf Hs (Hl l eq_refl) Hcase) as (E & Hwf' & Hacc).
  cbv zeta in E, Hwf', Hacc. rewrite E. cbn [mbind res_bind].
  do 2 eexists. split; [done|]. split.
  - destruct Hwf'. by constructor.
  - unfold ledger_of. cbn [set_version set_slots qp_node_id qp_max_tenants qp_slots
      qp_synchronized qp_epoch qp_sequence qp_required_epoch qp_required_sequence].
    by rewrite Hacc, Esync.
Qed.

(** *** Snapshots *)

Lemma snapshot_valid_spec p prev ls tp :
  le_tenant_id <$> prev = Some <$> tp -> NoDup tp ->
  snapshot_valid_loop p prev ls =
  match mapM (lease_ok (qp_node_id p)) ls with
  | Some ts => bool_decide (NoDup (tp ++ ts))
  | None => false
  end.
Proof.
  revert prev tp. induction ls as [|l ls IH]; intros prev tp Hp Hn; cbn [snapshot_valid_loop mapM].
  { cbn. rewrite bool_decide_true; [done|]. by rewrite app_nil_r. }
  change (mapM (lease_ok (qp_node_id p)) (l :: ls)) with
    (t ← lease_ok (qp_node_id p) l; ts ← mapM (lease_ok (qp_node_id p)) ls; Some (t :: ts)).
  rewrite lease_ok_spec.
  destruct (quota_lease_valid p (Some l)) eqn:Ev; cbn [negb mbind option_bind]; [|done].
  destruct (valid_lease_tenant p l Ev) as [t Ht]. rewrite Ht. cbn [mbind option_bind].
  assert (Hex : existsb (fun q => bool_decide (le_tenant_id q = Some t)) prev = bool_decide (t ∈ tp)).
  { clear -Hp. revert tp Hp. induction prev as [|q prev IH]; intros [|u tp] Hp; try done.
    injection Hp as Hq Hp. cbn [existsb]. rewrite Hq, (IH tp Hp).
    destruct (decide (u = t)) as [->|Hne].
    - rewrite bool_decide_true by done. cbn. rewrite bool_decide_true; [done|by left].
    - rewrite bool_decide_false by congruence. cbn. apply bool_decide_ext.
      rewrite elem_of_cons. naive_solver. }
  rewrite Hex. case_bool_decide as Hin.
  - destruct (mapM _ ls) as [ts|]; cbn [mbind option_bind mret option_ret]; [|done].
    rewrite bool_decide_false; [done|]. intros Hnd. apply NoDup_app in Hnd as (_ & Hd & _).
    apply (Hd t Hin). by left.
  - rewrite (IH (prev ++ [l]) (tp ++ [t])).
    + destruct (mapM _ ls) as [ts|]; cbn [mbind option_bind mret option_ret]; [|done].
      by rewrite <- (assoc_L (++)).
    + rewrite !fmap_app, Hp. cbn. by rewrite Ht.
    + apply NoDup_app. split; [done|]. split; [|by apply NoDup_singleton].
      intros x Hx ->%list_elem_of_singleton. done.
Qed.

Lemma mapM_lease_ok p ls ts :
  mapM (lease_ok (qp_node_id p)) ls = Some ts -> le_tenant_id <$> ls = Some <$> ts.
Proof.
  intros H%mapM_Some. induction H as [|l t ls ts Hl _ IH]; [done|].
  rewrite lease_ok_spec in Hl. cbn. rewrite IH. f_equal.
  by destruct (quota_lease_valid p (Some l)).
Qed.

Lemma snapshot_contains_spec ls ts t :
  le_tenant_id <$> ls = Some <$> ts ->
  quota_snapshot_contains ls t = bool_decide (t ∈ ts).
Proof.
  revert ts. induction ls as [|l ls IH]; intros [|u ts] Hp; try done.
  injection Hp as Hl Hp. unfold quota_snapshot_contains in *. cbn [existsb].
  rewrite Hl, (IH ts Hp). destruct (decide (u = t)) as [->|Hne].
  - rewrite bool_decide_true by done. cbn. rewrite bool_decide_true; [done|by left].
  - rewrite bool_decide_false by congruence. cbn. apply bool_decide_ext.
    rewrite elem_of_cons. naive_solver.
Qed.

(** The replacement's slots, and their entries. *)
Definition new_slots (m : gmap string account) (ts : list string) (ls : list quota_lease_t)
    : list quota_slot_t :=
  zip_with (fun t l =>
    Build_quota_slot_t t 1 1 (le_expires_at_unix_ms l) (le_limits l) (used_of m t)) ts ls.

Definition retains (ts : list string) (s : quota_slot_t) : bool :=
  quota_usage_present s && negb (bool_decide (qs_tenant_id s ∈ ts)).

Definition retained_slots (ss : list quota_slot_t) (ts : list string) : list quota_slot_t :=
  (fun s => Build_quota_slot_t (qs_tenant_id s) 1 0 0 zero_limits (qs_used s)) <$>
    base.filter (fun s => retains ts s) ss.

Definition retained_entries (ss : list quota_slot_t) (ts : list string)
    : list (string * account) :=
  (fun x => (x.1, {| ac_lease := None; ac_used := ac_used x.2 |})) <$>
    base.filter (fun x => in_use x.2 = true /\ x.1 ∉ ts) (entries ss).

Definition leased_entries (m : gmap string account) (ts : list string) (ls : list quota_lease_t)
    : list (string * account) :=
  zip_with (fun t l => (t, leased_account m t l)) ts ls.

Lemma entries_new_slots m ts ls : entries (new_slots m ts ls) = leased_entries m ts ls.
Proof.
  unfold new_slots, leased_entries.
  revert ls. induction ts as [|t ts IH]; intros [|l ls]; try done.
  cbn [zip_with]. rewrite entries_cons, IH. done.
Qed.

Lemma entries_retained ss ts : entries (retained_slots ss ts) = retained_entries ss ts.
Proof.
  unfold retained_slots, retained_entries. induction ss as [|s ss IH]; [done|].
  rewrite entries_cons, filter_app, fmap_app, <- IH, filter_cons.
  unfold slot_entry. destruct (decide (retains ts s)) as [Hr|Hr].
  - apply Is_true_true in Hr. unfold retains, quota_usage_present in Hr.
    destruct (truth (qs_occupied s)); [|done]. cbn [negb] in Hr.
    apply andb_true_iff in Hr as [Hu Hin%negb_true_iff%bool_decide_eq_false].
    rewrite filter_cons, decide_True by done. done.
  - destruct (truth (qs_occupied s)) eqn:Eo; [|done].
    rewrite filter_cons, decide_False; [done|]. intros [Hu Hin]. apply Hr, Is_true_true.
    unfold retains, quota_usage_present. rewrite Eo. cbn [negb].
    apply andb_true_iff. split; [exact Hu|]. by rewrite bool_decide_false.
Qed.

Lemma retained_entries_keys ss ts :
  (retained_entries ss ts).*1 = (base.filter (fun x => in_use x.2 = true /\ x.1 ∉ ts) (entries ss)).*1.
Proof. unfold retained_entries. rewrite <- list_fmap_compose. by apply list_fmap_ext. Qed.

Lemma leased_entries_keys m ts ls : length ts = length ls -> (leased_entries m ts ls).*1 = ts.
Proof.
  unfold leased_entries. revert ls. induction ts as [|t ts IH]; intros [|l ls] Hl; try done.
  cbn in *. by rewrite IH by lia.
Qed.

Lemma snapshot_entries_NoDup ss m ts ls :
  NoDup (entries ss).*1 -> NoDup ts -> length ts = length ls ->
  NoDup (leased_entries m ts ls ++ retained_entries ss ts).*1.
Proof.
  intros Hn Ht Hl. rewrite fmap_app, leased_entries_keys, retained_entries_keys by done.
  apply NoDup_app. split; [done|]. split.
  - intros t Hin (x & -> & Hx)%list_elem_of_fmap.
    apply list_elem_of_filter in Hx as [[_ Hx] _]. done.
  - apply (sublist_NoDup _ _ Hn). apply fmap_sublist, sublist_filter.
Qed.

Lemma snapshot_accounts_list ss ts ls :
  NoDup (entries ss).*1 -> NoDup ts -> length ts = length ls ->
  snapshot_accounts (accounts ss) ts ls =
  list_to_map (leased_entries (accounts ss) ts ls ++ retained_entries ss ts).
Proof.
  intros Hn Ht Hl. unfold snapshot_accounts. rewrite list_to_map_app.
  fold (leased_entries (accounts ss) ts ls). set (L := leased_entries _ ts ls).
  apply map_eq. intros t. rewrite !lookup_union.
  destruct (list_to_map L !! t) as [a|] eqn:EL; [by rewrite !union_Some_l|].
  rewrite !(left_id_L None (∪)).
  assert (Hts : t ∉ ts).
  { apply not_elem_of_list_to_map_2 in EL. unfold L in EL. by rewrite leased_entries_keys in EL. }
  pose proof (snapshot_entries_NoDup ss (accounts ss) ts ls Hn Ht Hl) as Hnd.
  rewrite fmap_app in Hnd. apply NoDup_app in Hnd as (_ & _ & Hnr).
  apply option_eq. intros a. rewrite <- (elem_of_list_to_map _ _ _ Hnr).
  unfold retained_entries. rewrite lookup_fmap, fmap_Some, list_elem_of_fmap. split.
  - intros (a0 & H & ->). apply map_lookup_filter_Some in H as [H Hu].
    exists (t, a0). split; [done|]. apply list_elem_of_filter. split.
    + split; [by apply Is_true_true|done].
    + by apply (elem_of_list_to_map _ _ _ Hn).
  - intros ([t0 a0] & [= -> ->] & H). apply list_elem_of_filter in H as [[Hu _] H].
    exists a0. split; [|done]. apply map_lookup_filter_Some. cbn in Hu. split.
    + by apply (elem_of_list_to_map _ _ _ Hn).
    + by apply Is_true_true.
Qed.

Lemma lease_slot_spec ss l t :
  NoDup (entries ss).*1 ->
  lease_slot ss l t =
  Ok (Build_quota_slot_t t 1 1 (le_expires_at_unix_ms l) (le_limits l) (used_of (accounts ss) t)).
Proof.
  intros Hn. unfold lease_slot, used_of. pose proof (find_slot_account ss t Hn) as Hf.
  destruct (quota_find_slot ss t 0) as [i|].
  - destruct Hf as (s & Hs & _ & _ & ->). by rewrite Hs.
  - by rewrite Hf.
Qed.

Lemma place_leases_spec ss ls ts pre k :
  NoDup (entries ss).*1 -> le_tenant_id <$> ls = Some <$> ts ->
  place_leases ss ls (pre ++ replicate (length ls + k) zero_slot) (len pre) =
  Ok ((pre ++ new_slots (accounts ss) ts ls) ++ replicate k zero_slot, len pre + len ls).
Proof.
  intros Hn. revert ts pre. induction ls as [|l ls IH]; intros [|t ts] pre Hp; try done.
  - cbn. rewrite app_nil_r, len_nil. by rewrite Z.add_0_r.
  - injection Hp as Hl Hp. cbn [place_leases]. rewrite Hl. rewrite lease_slot_spec by done.
    cbn [mbind res_bind length Nat.add replicate].
    rewrite upd_mid by done. cbn [mbind res_bind].
    match goal with |- context [pre ++ ?x :: ?r] =>
      replace (pre ++ x :: r) with ((pre ++ [x]) ++ r) by (by rewrite <- (assoc_L (++)));
      replace (len pre + 1) with (len (pre ++ [x])) by len_lia end.
    rewrite (IH ts) by done. rewrite len_app, len_cons. unfold new_slots. cbn [zip_with].
    rewrite <- !(assoc_L (++)). cbn [app]. do 2 f_equal. unfold len. cbn. lia.
Qed.

Lemma place_retained_spec ss ls ts pre k :
  le_tenant_id <$> ls = Some <$> ts ->
  place_retained ss ls (pre ++ replicate (length (retained_slots ss ts) + k) zero_slot) (len pre) =
  Ok ((pre ++ retained_slots ss ts) ++ replicate k zero_slot,
      len pre + len (retained_slots ss ts)).
Proof.
  intros Hp. revert pre. unfold retained_slots.
  induction ss as [|s ss IH]; intros pre; cbn [place_retained].
  - cbn. rewrite app_nil_r, len_nil. by rewrite Z.add_0_r.
  - rewrite (snapshot_contains_spec _ _ _ Hp).
    rewrite filter_cons. destruct (decide (retains ts s)) as [Hr|Hr]; rewrite Is_true_true in Hr.
    + assert (Hc : negb (quota_usage_present s) || bool_decide (qs_tenant_id s ∈ ts) = false).
      { unfold retains in Hr. destruct (quota_usage_present s), (bool_decide _); done. }
      rewrite Hc. rewrite fmap_cons. cbn [length Nat.add replicate].
      rewrite upd_mid by done. cbn [mbind res_bind].
      match goal with |- context [pre ++ ?x :: replicate ?n _] =>
        replace (pre ++ x :: replicate n zero_slot) with ((pre ++ [x]) ++ replicate n zero_slot)
          by (by rewrite <- (assoc_L (++)));
        replace (len pre + 1) with (len (pre ++ [x])) by len_lia end.
      rewrite IH. rewrite len_app, !len_cons. rewrite <- !(assoc_L (++)). cbn [app].
      do 2 f_equal. unfold len. cbn. lia.
    + assert (Hc : negb (quota_usage_present s) || bool_decide (qs_tenant_id s ∈ ts) = true).
      { unfold retains in Hr. destruct (quota_usage_present s), (bool_decide _); done. }
      rewrite Hc. apply IH.
Qed.

Lemma count_retained_spec ss ls ts :
  le_tenant_id <$> ls = Some <$> ts -> count_retained ss ls = len (retained_slots ss ts).
Proof.
  intros Hp. unfold retained_slots. induction ss as [|s ss IH]; [done|].
  cbn [count_retained]. rewrite (snapshot_contains_spec _ _ _ Hp), IH, filter_cons.
  change (quota_usage_present s && negb (bool_decide (qs_tenant_id s ∈ ts))) with (retains ts s).
  destruct (retains ts s); [rewrite decide_True by done; by rewrite fmap_cons, len_cons|].
  rewrite decide_False by (intros []). done.
Qed.

Lemma len_retained ss ts : len (retained_slots ss ts) = len (retained_entries ss ts).
Proof.
  rewrite <- entries_retained. unfold retained_slots. induction (base.filter _ ss); [done|].
  rewrite fmap_cons, entries_cons, len_app, len_cons, IHl. done.
Qed.

Lemma entries_zero k : entries (replicate k zero_slot) = [].
Proof. by induction k. Qed.

Lemma used_of_wf p t :
  quota_wf p -> len (used_of (accounts (qp_slots p)) t) = QUOTA_RESOURCE_COUNT /\
  Forall is_u32 (used_of (accounts (qp_slots p)) t).
Proof.
  intros Hwf. unfold used_of. pose proof (find_slot_account (qp_slots p) t (qwf_unique p Hwf)) as Hf.
  destruct (quota_find_slot (qp_slots p) t 0) as [i|].
  - destruct Hf as (s & Hs & _ & _ & ->). destruct (wf_slot p i s Hwf Hs). done.
  - rewrite Hf. split; [done|]. by repeat constructor.
Qed.

Lemma new_slots_wf p ts ls :
  quota_wf p -> Forall lease_wf ls -> Forall slot_wf (new_slots (accounts (qp_slots p)) ts ls).
Proof.
  intros Hwf Hls. unfold new_slots. revert ls Hls.
  induction ts as [|t ts IH]; intros [|l ls] Hls; cbn [zip_with]; try done.
  apply Forall_cons in Hls as [[Hl1 Hl2] Hls]. constructor; [|by apply IH].
  destruct (used_of_wf p t Hwf). constructor; cbn; try done. by left.
Qed.

Lemma retained_slots_wf ss ts : Forall slot_wf ss -> Forall slot_wf (retained_slots ss ts).
Proof.
  intros Hss. unfold retained_slots. apply Forall_fmap, Forall_forall.
  intros s [Hr Hs]%list_elem_of_filter. rewrite Forall_forall in Hss. destruct (Hss s Hs).
  constructor; cbn; try done; [by repeat constructor|].
  intros _. right. apply Is_true_true in Hr. unfold retains, quota_usage_present in Hr.
  apply andb_true_iff in Hr as [Hr _]. by destruct (negb (truth (qs_occupied s))).
Qed.

Lemma zero_slot_wf : slot_wf zero_slot.
Proof. by constructor; (done || by repeat constructor). Qed.

(** The replacement of a covering snapshot. *)
Lemma replacement_spec p ls ts :
  quota_wf p -> le_tenant_id <$> ls = Some <$> ts -> NoDup ts -> Forall lease_wf ls ->
  let ss := qp_slots p in
  let total := len ls + count_retained ss ls in
  let m := snapshot_accounts (accounts ss) ts ls in
  Z.of_nat (size m) = total /\
  (total <= qp_max_tenants p ->
   exists repl, (rn ← place_leases ss ls (replicate (Z.to_nat (qp_max_tenants p)) zero_slot) 0;
                 place_retained ss ls rn.1 rn.2) = Ok (repl, total) /\
     len repl = qp_max_tenants p /\ Forall slot_wf repl /\
     NoDup (entries repl).*1 /\ accounts repl = m).
Proof.
  intros Hwf Hp Hnd Hls ss total m.
  assert (Hlen : length ts = length ls) by (by rewrite <- (length_fmap Some), <- Hp, length_fmap).
  pose proof (qwf_unique p Hwf) as Hu. fold ss in Hu.
  pose proof (snapshot_entries_NoDup ss (accounts ss) ts ls Hu Hnd Hlen) as Hkeys.
  pose proof (snapshot_accounts_list ss ts ls Hu Hnd Hlen) as Hm. fold m in Hm.
  assert (Htotal : total = len (leased_entries (accounts ss) ts ls ++ retained_entries ss ts)).
  { unfold total. rewrite (count_retained_spec _ _ _ Hp), len_retained, len_app. f_equal.
    unfold leased_entries, len. rewrite length_zip_with. lia. }
  split.
  - rewrite Hm, map_size_list_to_map by done. done.
  - intros Ht. set (k := Z.to_nat (qp_max_tenants p - total)).
    pose proof (count_retained_spec ss ls ts Hp) as Hc.
    replace (Z.to_nat (qp_max_tenants p))
      with (length ls + (length (retained_slots ss ts) + k))%nat
      by (unfold k, total in *; unfold len in *; lia).
    pose proof (place_leases_spec ss ls ts [] (length (retained_slots ss ts) + k) Hu Hp) as H1.
    cbn [app] in H1. rewrite len_nil in H1. rewrite H1. cbn [mbind res_bind fst snd].
    assert (Hln : 0 + len ls = len (new_slots (accounts ss) ts ls)).
    { unfold new_slots, len. rewrite length_zip_with. lia. }
    rewrite Hln, (place_retained_spec ss ls ts _ k Hp).
    eexists. split; [apply Ok_pair; [reflexivity|unfold total; lia]|].
    assert (Hent : entries ((new_slots (accounts ss) ts ls ++ retained_slots ss ts)
               ++ replicate k zero_slot)
             = leased_entries (accounts ss) ts ls ++ retained_entries ss ts).
    { by rewrite !entries_app, entries_new_slots, entries_retained, entries_zero, app_nil_r. }
    split_and!.
    + rewrite !len_app, len_replicate, <- Hln, <- Hc. unfold k, total in *. lia.
    + rewrite !Forall_app. split_and!.
      * by apply new_slots_wf.
      * apply retained_slots_wf, Hwf.
      * apply Forall_replicate, zero_slot_wf.
    + by rewrite Hent.
    + rewrite Hm, <- Hent. done.
Qed.

Lemma quota_snapshot_refines p e sq ls mem :
  quota_wf p -> is_u64 sq -> Forall lease_wf ls ->
  exists p' v,
    quota_apply_snapshot (Some p) e sq (Some ls) (len ls) mem = Ok (Some p', v) /\
    quota_wf p' /\ ledger_snapshot (ledger_of p) (e, sq) ls mem = (ledger_of p', v).
Proof.
  intros Hwf Hsq Hls. unfold quota_apply_snapshot, ledger_snapshot. cbn [fst snd].
  destruct (e =? 0); [by eauto|].
  cbn [ledger_of lg_synchronized lg_version lg_node lg_max lg_accounts lg_required].
  fold (ledger_of p). destruct (require_snapshot_refines p e sq Hwf) as [Hwfr Hr]. rewrite <- Hr.
  destruct (version_compare_spec e sq (qp_epoch p) (qp_sequence p)) as (_ & _ & ->).
  destruct (truth (qp_synchronized p) && negb (version_lt _ _)); [by eauto|].
  destruct (version_compare_spec e sq (qp_required_epoch p) (qp_required_sequence p)) as (-> & _ & _).
  cbn [fst].
  destruct (negb (truth (qp_synchronized p)) && negb (qp_required_epoch p =? 0) && version_lt _ _);
    [by eauto|].
  unfold quota_snapshot_valid. rewrite bool_decide_false by done. rewrite andb_false_r.
  destruct (Z.ltb_spec (qp_max_tenants p) (len ls)) as [Hlt|Hle]; [cbn; by eauto|].
  pose proof (qwf_max p Hwf).
  replace (QUOTA_MAX_TENANTS <? len ls) with false by lia.
  change (default [] (Some ls)) with ls.
  rewrite rd_slice_all by done. cbn [mbind res_bind].
  rewrite (snapshot_valid_spec p [] ls []) by (done || constructor).
  unfold snapshot_tenants.
  destruct (mapM (lease_ok (qp_node_id p)) ls) as [ts|] eqn:Ets;
    cbn [negb mbind option_bind app]; [|by eauto].
  case_bool_decide as Hnd; cbn [negb].
  2: { rewrite decide_False by done. by eauto. }
  rewrite decide_True by done.
  apply mapM_lease_ok in Ets.
  destruct (replacement_spec p ls ts Hwf Ets Hnd Hls) as [Hsize Hrepl].
  rewrite Hsize.
  destruct (Z.ltb_spec (qp_max_tenants p) (len ls + count_retained (qp_slots p) ls)) as [|Hfit];
    [by eauto|].
  destruct mem; cbn [negb]; [|by eauto].
  destruct (Hrepl Hfit) as (repl & E & H1 & H2 & H3 & H4).
  apply bind_Ok in E as (rn & E1 & E2). rewrite E1. cbn [mbind res_bind]. rewrite E2.
  cbn [mbind res_bind fst]. do 2 eexists. split; [done|]. split.
  - constructor; cbn; try done.
  - unfold ledger_of. cbn [set_version set_slots qp_node_id qp_max_tenants qp_slots
      qp_synchronized qp_epoch qp_sequence qp_required_epoch qp_required_sequence].
    by rewrite H4.
Qed.

(* ------------------------------------------------------------------ *)
(** ** Runs *)

Inductive quota_op :=
  | Snapshot (epoch sequence : Z) (leases : list quota_lease_t) (mem : bool)
  | Update (epoch sequence : Z) (lease : option quota_lease_t)
  | Reserve (tenant : string) (resource amount now : Z)
  | Release (tenant : string) (resource amount : Z).

Inductive quota_answer :=
  | Applied (v : apply_result)
  | Reserved (v : reserve_result)
  | Released (v : Z).

Definition quota_op_ok (o : quota_op) : Prop :=
  match o with
  | Snapshot e s ls _ => is_u64 e /\ is_u64 s /\ Forall lease_wf ls
  | Update e s l => is_u64 e /\ is_u64 s /\ forall x, l = Some x -> lease_wf x
  | Reserve _ _ a _ | Release _ _ a => is_u32 a
  end.

Definition quota_step (p : option quota_projection_t) (o : quota_op)
    : res (option quota_projection_t * quota_answer) :=
  match o with
  | Snapshot e s ls mem =>
      r ← quota_apply_snapshot p e s (Some ls) (len ls) mem; Ok (r.1, Applied r.2)
  | Update e s l => r ← quota_apply_update p e s l; Ok (r.1, Applied r.2)
  | Reserve t x a now => r ← quota_reserve p (Some t) x a now; Ok (r.1, Reserved r.2)
  | Release t x a => r ← quota_release p (Some t) x a; Ok (r.1, Released r.2)
  end.

Fixpoint quota_run (p : option quota_projection_t) (l : list quota_op)
    : res (option quota_projection_t * list quota_answer) :=
  match l with
  | [] => Ok (p, [])
  | o :: l =>
    r ← quota_step p o;
    q ← quota_run r.1 l;
    Ok (q.1, r.2 :: q.2)
  end.

Definition ledger_step (g : ledger) (o : quota_op) : ledger * quota_answer :=
  match o with
  | Snapshot e s ls mem => let r := ledger_snapshot g (e, s) ls mem in (r.1, Applied r.2)
  | Update e s l => let r := ledger_update g (e, s) l in (r.1, Applied r.2)
  | Reserve t x a now => let r := ledger_reserve g t x a now in (r.1, Reserved r.2)
  | Release t x a => let r := ledger_release g t x a in (r.1, Released r.2)
  end.

Fixpoint ledger_run (g : ledger) (l : list quota_op) : ledger * list quota_answer :=
  match l with
  | [] => (g, [])
  | o :: l =>
    let r := ledger_step g o in
    let q := ledger_run r.1 l in
    (q.1, r.2 :: q.2)
  end.

Definition empty_ledger (node : string) (max : Z) : ledger :=
  {| lg_node := node; lg_max := max; lg_synchronized := false; lg_version := (0, 0);
     lg_required := (0, 0); lg_accounts := ∅ |}.

Lemma quota_step_refines p o :
  quota_wf p -> quota_op_ok o ->
  exists p' a, quota_step (Some p) o = Ok (Some p', a) /\ quota_wf p' /\
    ledger_step (ledger_of p) o = (ledger_of p', a).
Proof.
  intros Hwf Ho. destruct o as [e s ls mem|e s l|t x a now|t x a]; cbn [quota_step ledger_step].
  - destruct Ho as (He & Hs & Hls).
    destruct (quota_snapshot_refines p e s ls mem Hwf Hs Hls) as (p' & v & -> & H & ->). eauto.
  - destruct Ho as (He & Hs & Hl).
    destruct (quota_update_refines p e s l Hwf Hs Hl) as (p' & v & -> & H & ->). eauto.
  - destruct (quota_reserve_refines p t x a now Hwf Ho) as (p' & v & -> & H & ->). eauto.
  - destruct (quota_release_refines p t x a Hwf Ho) as (p' & v & -> & H & ->). eauto.
Qed.

Lemma quota_run_refines l p :
  quota_wf p -> Forall quota_op_ok l ->
  exists p' a, quota_run (Some p) l = Ok (Some p', a) /\ quota_wf p' /\
    ledger_run (ledger_of p) l = (ledger_of p', a).
Proof.
  revert p. induction l as [|o l IH]; intros p Hwf Hl; [by exists p, []|].
  apply Forall_cons in Hl as [Ho Hl].
  destruct (quota_step_refines p o Hwf Ho) as (p1 & a & E & Hwf1 & G).
  destruct (IH p1 Hwf1 Hl) as (p' & al & E' & Hwf' & G').
  exists p', (a :: al). cbn [quota_run ledger_run]. rewrite E. cbn [mbind res_bind fst].
  rewrite E', G. cbn [mbind res_bind fst snd]. by rewrite G'.
Qed.

Lemma quota_create_wf node max p :
  quota_projection_create (Some node) max true = Some p -> 0 <= max ->
  quota_wf p /\ ledger_of p = empty_ledger node max.
Proof.
  unfold quota_projection_create. intros H Hmax.
  destruct (negb (node_id_valid (Some node))); [done|].
  destruct ((max =? 0) || (QUOTA_MAX_TENANTS <? max)) eqn:E; [done|]. injection H as <-.
  split.
  - constructor; cbn [qp_slots qp_max_tenants qp_sequence].
    + rewrite len_replicate. lia.
    + lia.
    + apply Forall_replicate, zero_slot_wf.
    + rewrite entries_zero. constructor.
    + unfold is_u64. lia.
  - unfold ledger_of, empty_ledger. cbn [qp_slots qp_node_id qp_max_tenants qp_synchronized
      qp_epoch qp_sequence qp_required_epoch qp_required_sequence].
    unfold accounts. by rewrite entries_zero.
Qed.

(* ------------------------------------------------------------------ *)
(** ** Accounting on the ledger *)

Definition usage (m : gmap string account) (t : string) (r : Z) : Z := used_at (used_of m t) r.

(** What the answer of a call adds to the usage of [t]'s resource [r]. *)
Definition delta (t : string) (r : Z) (o : quota_op) (a : quota_answer) : Z :=
  match o, a with
  | Reserve t' r' n _, Reserved RESERVE_OK => if bool_decide (t' = t) && (r' =? r) then n else 0
  | Release t' r' n, Released v =>
      if (v =? 0) && bool_decide (t' = t) && (r' =? r) then - n else 0
  | _, _ => 0
  end.

Definition net (t : string) (r : Z) (l : list quota_op) (answers : list quota_answer) : Z :=
  foldr Z.add 0 (zip_with (delta t r) l answers).

Definition account_wf (a : account) : Prop := len (ac_used a) = QUOTA_RESOURCE_COUNT.

Lemma used_at_zero r : used_at zero_limits r = 0.
Proof.
  unfold used_at, zero_limits. destruct (replicate _ _ !! _) eqn:E; [|done].
  by apply lookup_replicate in E as [-> _].
Qed.

Lemma unused_zero u r : existsb truth u = false -> used_at u r = 0.
Proof.
  intros Hu. unfold used_at. destruct (u !! Z.to_nat r) as [x|] eqn:E; [|done]. cbn.
  apply list_elem_of_lookup_2, list_elem_of_In in E.
  destruct (truth x) eqn:Ex; [|unfold truth in Ex; lia].
  assert (existsb truth u = true) by (apply existsb_exists; eauto). congruence.
Qed.

Lemma used_of_insert m t t' a :
  used_of (<[t := a]> m) t' = if decide (t = t') then ac_used a else used_of m t'.
Proof.
  unfold used_of. destruct (decide (t = t')) as [<-|]; [by rewrite lookup_insert_eq|].
  by rewrite lookup_insert_ne.
Qed.

(** A lease does not touch usage. *)
Lemma usage_leased m t l t' r : usage (<[t := leased_account m t l]> m) t' r = usage m t' r.
Proof. unfold usage. rewrite used_of_insert. by destruct (decide (t = t')) as [<-|]. Qed.

Lemma usage_snapshot m ts ls t r :
  length ts = length ls -> usage (snapshot_accounts m ts ls) t r = usage m t r.
Proof.
  intros Hl. unfold usage, snapshot_accounts. fold (leased_entries m ts ls).
  assert (HL : forall a, (list_to_map (leased_entries m ts ls) : gmap string account) !! t = Some a ->
                 ac_used a = used_of m t).
  { intros a Ha%elem_of_list_to_map_2. unfold leased_entries in Ha. clear Hl.
    revert ls Ha. induction ts as [|u ts IH]; intros [|l ls] Ha; try by apply not_elem_of_nil in Ha.
    cbn in Ha. apply elem_of_cons in Ha as [[= -> ->]|Ha]; [done|by apply (IH ls)]. }
  unfold used_of at 1. rewrite lookup_union.
  destruct (list_to_map _ !! t) as [a|] eqn:Ea; [rewrite union_Some_l; by rewrite (HL a)|].
  rewrite (left_id_L None (∪)), lookup_fmap. unfold used_of.
  destruct (filter _ m !! t) as [a|] eqn:Ef; cbn.
  - apply map_lookup_filter_Some in Ef as [-> _]. done.
  - rewrite used_at_zero. destruct (m !! t) as [a|] eqn:Em; [|by rewrite used_at_zero].
    symmetry. apply unused_zero. apply map_lookup_filter_None in Ef as [|Ef]; [congruence|].
    specialize (Ef a Em). cbn in Ef. unfold in_use in Ef. by destruct (existsb truth (ac_used a)).
Qed.

Lemma used_at_insert u x r v :
  0 <= x < len u -> 0 <= r -> used_at (<[Z.to_nat x := v]> u) r = if x =? r then v else used_at u r.
Proof.
  intros Hx Hr. unfold used_at. destruct (Z.eqb_spec x r) as [->|Hne].
  - by rewrite list_lookup_insert_eq by len_lia.
  - by rewrite list_lookup_insert_ne by lia.
Qed.

Definition ledger_wf (g : ledger) : Prop :=
  forall t a, lg_accounts g !! t = Some a -> account_wf a.

Lemma ledger_of_wf p : quota_wf p -> ledger_wf (ledger_of p).
Proof.
  intros Hwf t a Ha. destruct (used_of_wf p t Hwf) as [H _]. unfold used_of in H.
  cbn in Ha. by rewrite Ha in H.
Qed.

Lemma reserve_usage g t' x n now t r :
  ledger_wf g -> 0 <= r ->
  usage (lg_accounts (ledger_reserve g t' x n now).1) t r =
  usage (lg_accounts g) t r + delta t r (Reserve t' x n now) (Reserved (ledger_reserve g t' x n now).2).
Proof.
  intros Hg Hr. unfold ledger_reserve.
  destruct (request_ok t' x n) eqn:Eok; cbn [negb]; [|cbn; lia].
  destruct (negb (lg_synchronized g)); [cbn; lia|].
  destruct (lg_accounts g !! t') as [[[[ex lim]|] u]|] eqn:Ea; try (cbn; lia).
  destruct (ex <=? now); [cbn; lia|].
  destruct (_ <? _); [cbn; lia|]. cbn [fst snd delta with_accounts lg_accounts].
  unfold usage. rewrite used_of_insert. cbn [ac_used].
  assert (Hx : 0 <= x < len u).
  { pose proof (Hg t' _ Ea) as Hl. unfold account_wf in Hl. cbn in Hl. rewrite Hl.
    unfold request_ok in Eok. lia. }
  destruct (decide (t' = t)) as [->|Hne].
  - rewrite bool_decide_true by done. cbn [andb].
    assert (Hu : used_of (lg_accounts g) t = u) by (unfold used_of; by rewrite Ea).
    rewrite Hu, used_at_insert by done. destruct (Z.eqb_spec x r) as [->|]; lia.
  - rewrite bool_decide_false by done. cbn. lia.
Qed.

Lemma release_usage g t' x n t r :
  ledger_wf g -> 0 <= r ->
  usage (lg_accounts (ledger_release g t' x n).1) t r =
  usage (lg_accounts g) t r + delta t r (Release t' x n) (Released (ledger_release g t' x n).2).
Proof.
  intros Hg Hr. unfold ledger_release.
  destruct (request_ok t' x n) eqn:Eok; cbn [negb]; [|cbn; lia].
  destruct (lg_accounts g !! t') as [a|] eqn:Ea; [|cbn; lia].
  destruct (_ <? _); [cbn; lia|]. cbn [fst snd delta with_accounts lg_accounts].
  assert (Hx : 0 <= x < len (ac_used a)).
  { pose proof (Hg t' _ Ea) as Hl. unfold account_wf in Hl. rewrite Hl.
    unfold request_ok in Eok. lia. }
  set (u := <[Z.to_nat x := _]> (ac_used a)). rewrite Z.eqb_refl. cbn [andb].
  set (a' := {| ac_lease := ac_lease a; ac_used := u |}).
  assert (Hu : used_at (used_of (if negb (in_use a') && bool_decide (ac_lease a' = None)
               then delete t' (lg_accounts g) else <[t' := a']> (lg_accounts g)) t) r
          = used_at (if decide (t' = t) then u else used_of (lg_accounts g) t) r).
  { destruct (in_use a') eqn:Eu; cbn [negb andb]; [by rewrite used_of_insert|].
    case_bool_decide; [|by rewrite used_of_insert].
    unfold used_of. destruct (decide (t' = t)) as [->|].
    - rewrite lookup_delete_eq, used_at_zero. symmetry. by apply unused_zero.
    - by rewrite lookup_delete_ne. }
  unfold usage. rewrite Hu. destruct (decide (t' = t)) as [->|Hne].
  - rewrite bool_decide_true by done. cbn [andb]. unfold u. rewrite used_at_insert by done.
    unfold used_of. rewrite Ea. destruct (Z.eqb_spec x r) as [->|]; lia.
  - rewrite bool_decide_false by done. cbn. lia.
Qed.

Lemma ledger_step_usage g o t r :
  ledger_wf g -> 0 <= r ->
  usage (lg_accounts (ledger_step g o).1) t r =
  usage (lg_accounts g) t r + delta t r o (ledger_step g o).2.
Proof.
  intros Hg Hr. destruct o as [e s ls mem|e s l|t' x n now|t' x n]; cbn [ledger_step fst snd];
    [| |by apply reserve_usage|by apply release_usage]; cbn [delta]; rewrite Z.add_0_r.
  - unfold ledger_snapshot. repeat case_match; try done. cbn [fst lg_accounts].
    apply usage_snapshot.
    match goal with H : _ = Some ?ts |- length ?ts = _ => rename H into Hs end.
    unfold snapshot_tenants in Hs. destruct (mapM _ ls) as [ts'|] eqn:Em; [|done].
    cbn in Hs. case_decide; [|done]. injection Hs as ->.
    apply mapM_Some, Forall2_length in Em. lia.
  - unfold ledger_update. repeat case_match; try done. cbn [fst lg_accounts].
    apply usage_leased.
Qed.

(** A run moves the usage by what its answers say. *)
Lemma quota_run_usage t r l p :
  quota_wf p -> Forall quota_op_ok l -> 0 <= r ->
  exists p' answers, quota_run (Some p) l = Ok (Some p', answers) /\ quota_wf p' /\
    usage (accounts (qp_slots p')) t r = usage (accounts (qp_slots p)) t r + net t r l answers.
Proof.
  intros Hwf Hl Hr. revert p Hwf. induction l as [|o l IH]; intros p Hwf.
  - exists p, []. split; [done|]. split; [done|]. cbn. lia.
  - apply Forall_cons in Hl as [Ho Hl].
    destruct (quota_step_refines p o Hwf Ho) as (p1 & a & E & Hwf1 & G).
    destruct (IH Hl p1 Hwf1) as (p' & al & E' & Hwf' & Hu).
    exists p', (a :: al). cbn [quota_run]. rewrite E. cbn [mbind res_bind fst snd]. rewrite E'.
    split; [done|]. split; [done|]. rewrite Hu.
    pose proof (ledger_step_usage (ledger_of p) o t r (ledger_of_wf p Hwf) Hr) as Hstep.
    rewrite G in Hstep. cbn [fst snd ledger_of lg_accounts] in Hstep. rewrite Hstep.
    unfold net. cbn [zip_with foldr]. lia.
Qed.

(** *** Versions *)

(** A ledger out of synchrony asks for a version past the one it last had. *)
Definition version_wf (g : ledger) : Prop :=
  (lg_version g = (0, 0) \/ 0 < (lg_version g).1) /\
  (lg_synchronized g = false ->
   lg_version g = (0, 0) \/ version_lt (lg_version g) (lg_required g) = true).

(** The versions of the changes that were applied. *)
Definition applied_version (o : quota_op) (a : quota_answer) : list (Z * Z) :=
  match o, a with
  | Snapshot e s _ _, Applied APPLY_APPLIED | Update e s _, Applied APPLY_APPLIED => [(e, s)]
  | _, _ => []
  end.

Definition applied_versions (l : list quota_op) (answers : list quota_answer) : list (Z * Z) :=
  concat (zip_with applied_version l answers).

Lemma desync_version g v :
  version_wf g -> (lg_synchronized g = true -> version_lt (lg_version g) v = true) ->
  version_wf (ledger_desync g v).
Proof.
  intros [H1 H2] Hv. split; [done|]. intros _. cbn [ledger_desync lg_version lg_required]. unfold demanded.
  destruct H1 as [->|Hp]; [by left|]. right.
  destruct (lg_synchronized g) eqn:Es.
  - specialize (Hv eq_refl). destruct (version_lt (lg_required g) v) eqn:Er; [done|].
    apply version_lt_total in Er as [Er| <-]; [|done]. by eapply version_lt_trans.
  - destruct (H2 eq_refl) as [H|H]; [rewrite H in Hp; cbn in Hp; lia|].
    destruct (version_lt (lg_required g) v) eqn:Er; [|done]. by eapply version_lt_trans.
Qed.

Lemma snapshot_version g e s ls mem :
  version_wf g -> 0 <= e -> 
  version_wf (ledger_snapshot g (e, s) ls mem).1 /\
  match (ledger_snapshot g (e, s) ls mem).2 with
  | APPLY_APPLIED => lg_version (ledger_snapshot g (e, s) ls mem).1 = (e, s) /\
      version_lt (lg_version g) (e, s) = true
  | _ => lg_version (ledger_snapshot g (e, s) ls mem).1 = lg_version g
  end.
Proof.
  intros Hg He. unfold ledger_snapshot. cbn [fst].
  destruct (Z.eqb_spec e 0) as [|Hne]; [done|].
  destruct (lg_synchronized g && negb (version_lt (lg_version g) (e, s))) eqn:Est; [done|].
  destruct (negb (lg_synchronized g) && negb ((lg_required g).1 =? 0) &&
            version_lt (e, s) (lg_required g)) eqn:Ereq; [done|].
  assert (Hlt : version_lt (lg_version g) (e, s) = true).
  { destruct Hg as [H1 H2]. destruct (lg_synchronized g).
    - cbn [andb] in Est. by destruct (version_lt (lg_version g) (e, s)).
    - destruct (H2 eq_refl) as [-> |Hr]; [unfold version_lt; cbn; lia|].
      destruct H1 as [->|Hp]; [unfold version_lt; cbn; lia|].
      assert (Hr1 : (lg_required g).1 <> 0) by (unfold version_lt in Hr; lia).
      cbn in Ereq. replace ((lg_required g).1 =? 0) with false in Ereq by lia. cbn in Ereq.
      apply version_lt_total in Ereq as [H| ->]; [by eapply version_lt_trans|done]. }
  pose proof (desync_version g (e, s) Hg (fun _ => Hlt)).
  destruct (if lg_max g <? len ls then None else snapshot_tenants (lg_node g) ls); [|done].
  destruct (lg_max g <? _); [done|]. destruct (negb mem); [done|].
  cbn [fst snd lg_version]. split; [|done]. split; [right; cbn; lia|done].
Qed.

Lemma update_version g e s l :
  version_wf g -> 0 <= e ->
  version_wf (ledger_update g (e, s) l).1 /\
  match (ledger_update g (e, s) l).2 with
  | APPLY_APPLIED => lg_version (ledger_update g (e, s) l).1 = (e, s) /\
      version_lt (lg_version g) (e, s) = true
  | _ => lg_version (ledger_update g (e, s) l).1 = lg_version g
  end.
Proof.
  intros Hg He. unfold ledger_update. cbn [fst snd].
  destruct ((e =? 0) || (s =? 0)) eqn:E0; [done|].
  destruct (lg_synchronized g) eqn:Es; cbn [negb].
  2: { split; [|done]. apply desync_version; [done|congruence]. }
  destruct (version_lt (lg_version g) (e, s)) eqn:Hlt; cbn [negb]; [|done].
  pose proof (desync_version g (e, s) Hg (fun _ => Hlt)).
  destruct (negb _); [done|].
  destruct (l ≫= _) as [[t x]|]; [|done].
  destruct (bool_decide _ && _); [done|]. cbn [fst snd lg_version]. split; [|done].
  split; [right; cbn; lia|done].
Qed.

Lemma ledger_step_version g o :
  version_wf g -> quota_op_ok o ->
  version_wf (ledger_step g o).1 /\
  match applied_version o (ledger_step g o).2 with
  | [] => lg_version (ledger_step g o).1 = lg_version g
  | v :: _ => lg_version (ledger_step g o).1 = v /\ version_lt (lg_version g) v = true
  end.
Proof.
  intros Hg Ho. destruct o as [e s ls mem|e s l|t x n now|t x n]; cbn [ledger_step fst snd].
  - destruct Ho as ([He _] & _). destruct (snapshot_version g e s ls mem Hg He) as [H1 H2].
    split; [done|]. cbn [applied_version]. by destruct (ledger_snapshot g (e, s) ls mem).2.
  - destruct Ho as ([He _] & _). destruct (update_version g e s l Hg He) as [H1 H2].
    split; [done|]. cbn [applied_version]. by destruct (ledger_update g (e, s) l).2.
  - cbn [applied_version]. unfold ledger_reserve. repeat case_match; done.
  - cbn [applied_version]. unfold ledger_release. repeat case_match; done.
Qed.

Lemma ledger_run_versions l g :
  version_wf g -> Forall quota_op_ok l ->
  StronglySorted (fun a b => version_lt a b = true) (applied_versions l (ledger_run g l).2) /\
  Forall (fun v => version_lt (lg_version g) v = true) (applied_versions l (ledger_run g l).2).
Proof.
  revert g. induction l as [|o l IH]; intros g Hg Hl; [by repeat constructor|].
  apply Forall_cons in Hl as [Ho Hl]. cbn [ledger_run snd].
  destruct (ledger_step_version g o Hg Ho) as [Hg1 Hv].
  destruct (IH _ Hg1 Hl) as [Hs Hf]. unfold applied_versions in *. cbn [zip_with concat].
  destruct (applied_version o (ledger_step g o).2) as [|v vs] eqn:Ev; cbn [app].
  - by rewrite Hv in Hf.
  - destruct Hv as [Hv Hlt]. rewrite Hv in Hf.
    assert (vs = []) as ->.
    { unfold applied_version in Ev. repeat case_match; by simplify_eq. }
    cbn [app]. split.
    + constructor; done.
    + constructor; [done|]. eapply Forall_impl; [exact Hf|]. intros w Hw.
      cbn in Hw. by eapply version_lt_trans.
Qed.

(** *** What a reservation needs *)

(** A reservation that is not granted changes nothing. *)
Lemma reserve_refused p tenant r amount now p' v :
  quota_reserve (Some p) tenant r amount now = Ok (Some p', v) -> v <> RESERVE_OK -> p' = p.
Proof.
  assert (Hret : forall w, Ok (Some p, w) = Ok (Some p', v) -> p' = p) by (by intros w [= ->]).
  intros E Hv. unfold quota_reserve in E. cbn [mbind option_bind] in E.
  destruct tenant as [t|]; [|by apply (Hret _ E)].
  destruct (_ || (amount =? 0)); [by apply (Hret _ E)|].
  destruct (negb _); [by apply (Hret _ E)|].
  destruct (quota_find_slot _ t 0); [|by apply (Hret _ E)].
  apply bind_Ok in E as (s & _ & E).
  destruct (negb _); [by apply (Hret _ E)|]. destruct (_ <=? now); [by apply (Hret _ E)|].
  apply bind_Ok in E as (limit & _ & E). apply bind_Ok in E as (used & _ & E).
  destruct (_ || _); [by apply (Hret _ E)|].
  apply bind_Ok in E as (u & _ & E). apply bind_Ok in E as (ss & _ & [= _ <-]). done.
Qed.

Lemma ledger_reserve_granted g t r amount now :
  request_ok t r amount = true ->
  (ledger_reserve g t r amount now).2 = RESERVE_OK <->
  lg_synchronized g = true /\
  exists expires limits, lg_accounts g !! t =
    Some {| ac_lease := Some (expires, limits); ac_used := used_of (lg_accounts g) t |} /\
    now < expires /\ usage (lg_accounts g) t r + amount <= used_at limits r.
Proof.
  intros Hok. unfold ledger_reserve, usage, used_of. rewrite Hok. cbn [negb].
  destruct (lg_synchronized g); cbn [negb]; [|naive_solver].
  destruct (lg_accounts g !! t) as [[[[ex lim]|] u]|]; [|naive_solver..]. cbn [ac_used].
  destruct (Z.leb_spec ex now); [naive_solver lia|].
  destruct (Z.ltb_spec (used_at lim r) (used_at u r + amount)); [naive_solver lia|].
  split; [|done]. intros _. split; [done|]. exists ex, lim. split_and!; [done|lia|lia].
Qed.

(* ------------------------------------------------------------------ *)
(** ** Properties *)

(** C30: from creation, every sequence of snapshots, updates, reservations and
    releases does exactly what the ledger of accounts does, answer by answer;
    nothing is accessed out of range. *)
Theorem quota_refines_ledger node max p l :
  quota_projection_create (Some node) max true = Some p -> 0 <= max -> Forall quota_op_ok l ->
  exists p' answers, quota_run (Some p) l = Ok (Some p', answers) /\
    ledger_run (empty_ledger node max) l = (ledger_of p', answers).
Proof.
  intros Hc Hmax Hl. destruct (quota_create_wf node max p Hc Hmax) as [Hwf Hg].
  destruct (quota_run_refines l p Hwf Hl) as (p' & a & E & _ & G).
  exists p', a. by rewrite <- Hg.
Qed.

(** C31: usage is conserved.  Whatever snapshots and updates come in between,
    what [quota_usage] reports of a tenant's resource is the sum of the granted
    reservations less the accepted releases, and a tenant it does not know has
    none. *)
Theorem quota_usage_conserved node max p l t r :
  quota_projection_create (Some node) max true = Some p -> 0 <= max -> Forall quota_op_ok l ->
  tenant_id_valid (Some t) = true -> 0 <= r < QUOTA_RESOURCE_COUNT ->
  exists p' answers, quota_run (Some p) l = Ok (Some p', answers) /\
    match quota_usage (Some p') (Some t) r (Some tt) with
    | Ok (used, _, _, _) => used = net t r l answers
    | Err => net t r l answers = 0
    | Fault => False
    end.
Proof.
  intros Hc Hmax Hl Ht Hr. destruct (quota_create_wf node max p Hc Hmax) as [Hwf Hg].
  assert (H0 : usage (accounts (qp_slots p)) t r = 0).
  { change (accounts (qp_slots p)) with (lg_accounts (ledger_of p)). rewrite Hg. cbn.
    unfold usage, used_of. rewrite lookup_empty. apply used_at_zero. }
  destruct (quota_run_usage t r l p Hwf Hl (proj1 Hr)) as (p' & answers & E & Hwf' & Hu).
  exists p', answers. split; [done|]. rewrite H0, Z.add_0_l in Hu. rewrite <- Hu.
  unfold quota_usage. rewrite Ht. cbn [negb orb].
  replace ((r <? 0) || (QUOTA_RESOURCE_COUNT <=? r)) with false by lia.
  pose proof (find_slot_account (qp_slots p') t (qwf_unique p' Hwf')) as Hf.
  unfold usage, used_of.
  destruct (quota_find_slot (qp_slots p') t 0) as [i|].
  - destruct Hf as (s & Hs & _ & _ & ->). rewrite Hs. cbn [mbind res_bind].
    pose proof (wf_slot p' i s Hwf' Hs) as [H1 _ H2 _ _].
    rewrite (rd_used_at _ _ H2 Hr), (rd_used_at _ _ H1 Hr). done.
  - rewrite Hf. apply used_at_zero.
Qed.

(** A reservation is granted exactly when the projection is synchronized,
    the tenant holds an unexpired lease and its usage with the amount is within
    the limit; otherwise nothing changes. *)
Theorem quota_reserve_exact p t r amount now :
  quota_wf p -> is_u32 amount -> request_ok t r amount = true ->
  exists p' v, quota_reserve (Some p) (Some t) r amount now = Ok (Some p', v) /\
    (v = RESERVE_OK <->
     truth (qp_synchronized p) = true /\
     exists expires limits, accounts (qp_slots p) !! t =
       Some {| ac_lease := Some (expires, limits); ac_used := used_of (accounts (qp_slots p)) t |} /\
       now < expires /\ usage (accounts (qp_slots p)) t r + amount <= used_at limits r) /\
    (v <> RESERVE_OK -> p' = p).
Proof.
  intros Hwf Ha Hok.
  destruct (quota_reserve_refines p t r amount now Hwf Ha) as (p' & v & E & _ & G).
  exists p', v. split; [done|]. split; [|by eapply reserve_refused].
  apply (f_equal snd) in G. cbn [snd] in G. subst v.
  apply ledger_reserve_granted. done.
Qed.

(** No version is applied twice: the versions of the snapshots and updates
    that a projection applies from its creation are strictly increasing. *)
Theorem quota_versions_increase node max p l :
  quota_projection_create (Some node) max true = Some p -> 0 <= max -> Forall quota_op_ok l ->
  exists p' answers, quota_run (Some p) l = Ok (Some p', answers) /\
    StronglySorted (fun a b => version_lt a b = true) (applied_versions l answers).
Proof.
  intros Hc Hmax Hl. destruct (quota_create_wf node max p Hc Hmax) as [Hwf Hg].
  destruct (quota_run_refines l p Hwf Hl) as (p' & a & E & _ & G).
  exists p', a. split; [done|]. rewrite Hg in G.
  destruct (ledger_run_versions l (empty_ledger node max)) as [Hs _]; [by split; left|done|].
  by rewrite G in Hs.
Qed.

(* ------------------------------------------------------------------ *)
(** ** Witnesses *)

Definition ex_lease (t : string) (limit : Z) : quota_lease_t :=
  Build_quota_lease_t (Some t) (Some "n1"%string) 1000 [limit; 1; 1; 1; 1].

(** A snapshot, a reservation within and one past the limit, an update that
    takes the second slot, a stale snapshot, a release, and a snapshot that
    keeps the usage of a tenant it no longer covers. *)
Definition ex_run : list quota_op :=
  [Snapshot 1 5 [ex_lease "a" 10] true; Reserve "a" 0 7 500; Reserve "a" 0 4 500;
   Update 1 6 (Some (ex_lease "b" 3)); Snapshot 1 6 [] true; Release "a" 0 2;
   Snapshot 2 0 [ex_lease "b" 9] true; Reserve "a" 0 1 500; Release "a" 0 5].

Definition ex_projection : quota_projection_t :=
  Build_quota_projection_t "n1" 2 (replicate 2 zero_slot) 0 0 0 0 0.

Lemma ex_run_ok : Forall quota_op_ok ex_run.
Proof.
  assert (Hl : forall t x, is_u32 x -> lease_wf (ex_lease t x)).
  { intros t x Hx. split; [done|]. repeat constructor; cbn; unfold is_u32 in *; lia. }
  assert (Hv : forall x, 0 <= x < 100 -> is_u64 x /\ is_u32 x) by (unfold is_u64, is_u32; lia).
  unfold ex_run. rewrite !Forall_cons, Forall_nil. cbn [quota_op_ok].
  split_and!; try (apply Hv; lia); try done.
  all: try (intros x [= <-]); repeat apply Forall_cons_2; try apply Forall_nil_2;
    apply Hl, Hv; lia.
Qed.

Lemma quota_refines_ledger_witness :
  exists p' answers, quota_run (Some ex_projection) ex_run = Ok (Some p', answers) /\
    ledger_run (empty_ledger "n1" 2) ex_run = (ledger_of p', answers).
Proof. apply (quota_refines_ledger "n1" 2); [reflexivity|lia|apply ex_run_ok]. Defined.

Lemma quota_usage_conserved_witness :
  exists p' answers, quota_run (Some ex_projection) ex_run = Ok (Some p', answers) /\
    match quota_usage (Some p') (Some "a"%string) 0 (Some tt) with
    | Ok (used, _, _, _) => used = net "a" 0 ex_run answers
    | Err => net "a" 0 ex_run answers = 0
    | Fault => False
    end.
Proof.
  apply (quota_usage_conserved "n1" 2);
    [reflexivity|lia|apply ex_run_ok|reflexivity|unfold QUOTA_RESOURCE_COUNT; lia].
Defined.

Definition ex_leased : quota_projection_t :=
  set_version (set_slots ex_projection
    [Build_quota_slot_t "a" 1 1 1000 [10; 1; 1; 1; 1] [7; 0; 0; 0; 0]; zero_slot]) 1 1 5 0 0.

Lemma ex_leased_wf : quota_wf ex_leased.
Proof.
  constructor; cbn; [done|unfold QUOTA_MAX_TENANTS; lia| |by apply NoDup_singleton|unfold is_u64; lia].
  repeat constructor; cbn; unfold is_u32; try lia; done.
Qed.

Lemma quota_reserve_exact_witness :
  exists p' v, quota_reserve (Some ex_leased) (Some "a"%string) 0 4 500 = Ok (Some p', v) /\
    (v = RESERVE_OK <->
     truth (qp_synchronized ex_leased) = true /\
     exists expires limits, accounts (qp_slots ex_leased) !! "a"%string =
       Some {| ac_lease := Some (expires, limits);
               ac_used := used_of (accounts (qp_slots ex_leased)) "a" |} /\
       500 < expires /\ usage (accounts (qp_slots ex_leased)) "a" 0 + 4 <= used_at limits 0) /\
    (v <> RESERVE_OK -> p' = ex_leased).
Proof.
  apply (quota_reserve_exact ex_leased "a" 0 4 500); [apply ex_leased_wf|unfold is_u32; lia|reflexivity].
Defined.

Lemma quota_versions_increase_witness :
  exists p' answers, quota_run (Some ex_projection) ex_run = Ok (Some p', answers) /\
    StronglySorted (fun a b => version_lt a b = true) (applied_versions ex_run answers).
Proof. apply (quota_versions_increase "n1" 2); [reflexivity|lia|apply ex_run_ok]. Defined.

(** The run's answers, and the tenant whose usage outlived its lease is gone
    with its last release. *)
Example ex_run_answers :
  match quota_run (Some ex_projection) ex_run with
  | Ok (Some p, answers) =>
      answers = [Applied APPLY_APPLIED; Reserved RESERVE_OK; Reserved RESERVE_LIMIT;
                 Applied APPLY_APPLIED; Applied APPLY_STALE; Released 0;
                 Applied APPLY_APPLIED; Reserved RESERVE_NO_LEASE; Released 0] /\
      quota_status (Some p) (Some tt) = Some (1, 2, 0, 1) /\
      quota_usage (Some p) (Some "a"%string) 0 (Some tt) = Err
  | _ => False
  end.
Proof. vm_compute. done. Qed.
