(* ===== verification/QuotaAllocator.v ===== *)
(** * Tenant quota allocator (src/webrtc/src/security/turbo_media_tenant_quota_allocator.c)

    The control plane's side of [TenantQuota]: the global cap of each tenant and the
    leases it has issued to the nodes, replicated under versions.  The specification
    is a book, a map of caps and a map of leases; the theorems say that no tenant is
    ever overcommitted, and that a node takes the snapshot it is sent and then holds
    exactly what was issued to it.

    Handles and out parameters are not [NULL]: every operation then returns its
    error.  A slot whose [occupied] is not set is zero and is never read, so a table
    is a list of [option]s; the loops over a table that look for a slot are
    [list_find]. *)

From stdpp Require Import strings gmap.
From S2P Require Import Prelude Version TenantQuota.

(* ------------------------------------------------------------------ *)
(** ** Data *)

Definition QUOTA_MAX_ISSUED_LEASES : Z := 4096.

Record quota_policy_t := {
  po_tenant_id : option string;
  po_limits : list Z;
}.

Inductive allocator_result :=
  | ALLOC_ERROR | ALLOC_APPLIED | ALLOC_STALE | ALLOC_GAP | ALLOC_LIMIT | ALLOC_OVERCOMMITTED
  | ALLOC_NOT_FOUND | ALLOC_UNKNOWN.

#[export] Instance allocator_result_eq_dec : EqDecision allocator_result.
Proof. solve_decision. Defined.

Record policy_slot_t := {
  ps_tenant_id : string;
  ps_limits : list Z;
}.

Record issued_slot_t := {
  iss_tenant_id : string;
  iss_node_id : string;
  iss_expires_at_unix_ms : Z;
  iss_limits : list Z;
}.

Record allocator_t := {
  qa_max_tenants : Z;
  qa_max_issued_leases : Z;
  qa_policies : list (option policy_slot_t);
  qa_leases : list (option issued_slot_t);
  qa_synchronized : bool;
  qa_epoch : Z;
  qa_sequence : Z;
  qa_required_epoch : Z;
  qa_required_sequence : Z;
}.

Definition alloc_set_version (a : allocator_t) (sync : bool) (epoch sequence repoch rsequence : Z)
    : allocator_t :=
  Build_allocator_t (qa_max_tenants a) (qa_max_issued_leases a) (qa_policies a) (qa_leases a) sync
    epoch sequence repoch rsequence.

Definition alloc_set_tables (a : allocator_t) (policies : list (option policy_slot_t))
    (leases : list (option issued_slot_t)) : allocator_t :=
  Build_allocator_t (qa_max_tenants a) (qa_max_issued_leases a) policies leases (qa_synchronized a)
    (qa_epoch a) (qa_sequence a) (qa_required_epoch a) (qa_required_sequence a).

(** [allocator->sequence = sequence]. *)
Definition alloc_set_sequence (a : allocator_t) (sequence : Z) : allocator_t :=
  alloc_set_version a (qa_synchronized a) (qa_epoch a) sequence (qa_required_epoch a)
    (qa_required_sequence a).

(* ------------------------------------------------------------------ *)
(** ** Versions, lookup and validation *)

(** The text of [allocator_version_compare] is that of [quota_version_compare]. *)
Definition allocator_version_compare : Z -> Z -> Z -> Z -> Z := quota_version_compare.

Definition allocator_require_snapshot (a : allocator_t) (epoch sequence : Z) : allocator_t :=
  if 0 <? allocator_version_compare epoch sequence (qa_required_epoch a) (qa_required_sequence a)
  then alloc_set_version a false (qa_epoch a) (qa_sequence a) epoch sequence
  else alloc_set_version a false (qa_epoch a) (qa_sequence a) (qa_required_epoch a)
         (qa_required_sequence a).

Definition policy_of (tenant : string) (slot : option policy_slot_t) : bool :=
  let? s := slot else false in bool_decide (ps_tenant_id s = tenant).

Definition allocator_find_policy (a : allocator_t) (tenant : string)
    : option (nat * option policy_slot_t) :=
  list_find (policy_of tenant) (qa_policies a).

Definition lease_of (tenant node : string) (slot : option issued_slot_t) : bool :=
  let? s := slot else false in
  bool_decide (iss_tenant_id s = tenant) && bool_decide (iss_node_id s = node).

Definition allocator_find_lease (a : allocator_t) (tenant node : string)
    : option (nat * option issued_slot_t) :=
  list_find (lease_of tenant node) (qa_leases a).

(** The loops that look for an unoccupied slot. *)
Definition free_index {A} (slots : list (option A)) : option nat :=
  fst <$> list_find (fun slot => slot = None) slots.

Definition prune_slot (now : Z) (slot : option issued_slot_t) : option issued_slot_t :=
  let? s := slot else None in
  if iss_expires_at_unix_ms s <=? now then None else Some s.

Definition allocator_prune_expired (a : allocator_t) (now : Z) : allocator_t :=
  alloc_set_tables a (qa_policies a) (prune_slot now <$> qa_leases a).

Definition allocator_policy_input_valid (policy : option quota_policy_t) : bool :=
  let? p := policy else false in tenant_id_valid (po_tenant_id p).

Definition allocator_lease_input_valid (lease : option quota_lease_t) (now : Z) : bool :=
  let? l := lease else false in
  tenant_id_valid (le_tenant_id l) && node_id_valid (le_node_id l) &&
  (now <? le_expires_at_unix_ms l).

(** The outer loop; [previous] are the policies before. *)
Fixpoint policies_valid_loop (previous policies : list quota_policy_t) : bool :=
  match policies with
  | [] => true
  | p :: policies =>
      if negb (allocator_policy_input_valid (Some p)) then false
      else if existsb (fun q => bool_decide (po_tenant_id q = po_tenant_id p)) previous then false
      else policies_valid_loop (previous ++ [p]) policies
  end.

(** [policies] points to at least [policy_count] policies. *)
Definition allocator_policy_snapshot_valid (policies : option (list quota_policy_t))
    (policy_count max_tenants : Z) : res bool :=
  if (0 <? policy_count) && bool_decide (policies = None) || (max_tenants <? policy_count) ||
     (QUOTA_MAX_TENANTS <? policy_count) then Ok false
  else
    ps ← rd_slice (default [] policies) 0 policy_count;
    Ok (policies_valid_loop [] ps).

Definition allocator_input_policy_find (policies : list quota_policy_t) (tenant : option string)
    : option (nat * quota_policy_t) :=
  list_find (fun p => po_tenant_id p = tenant) policies.

(** The loop over the resources adds [limits] to 64-bit sums. *)
Definition add_limits (sums limits : list Z) : list Z := zip_with (fun s l => u64 (s + l)) sums limits.

(** One of the sums is greater than its cap. *)
Definition exceeds (sums caps : list Z) : bool := existsb (fun x => x.2 <? x.1) (zip sums caps).

(** The loop over the leases; row [i] of [totals] holds the five sums of policy [i]. *)
Fixpoint leases_valid_loop (policies : list quota_policy_t) (totals : list (list Z))
    (previous leases : list quota_lease_t) (now : Z) : res bool :=
  match leases with
  | [] => Ok true
  | l :: leases =>
      if negb (allocator_lease_input_valid (Some l) now) then Ok false
      else if existsb (fun q => bool_decide (le_tenant_id q = le_tenant_id l) &&
                                bool_decide (le_node_id q = le_node_id l)) previous then Ok false
      else
        let? found := allocator_input_policy_find policies (le_tenant_id l) else Ok false in
        let? row := totals !! found.1 else Fault in
        let row := add_limits row (le_limits l) in
        if exceeds row (po_limits found.2) then Ok false
        else leases_valid_loop policies (<[found.1 := row]> totals) (previous ++ [l]) leases now
  end.

(** [mem] says whether the sums can be allocated. *)
Definition allocator_snapshot_leases_valid (policies : list quota_policy_t)
    (leases : option (list quota_lease_t)) (lease_count max_issued_leases now : Z) (mem : bool)
    : res bool :=
  if (0 <? lease_count) && bool_decide (leases = None) || (max_issued_leases <? lease_count) ||
     (QUOTA_MAX_ISSUED_LEASES <? lease_count) then Ok false
  else if (0 <? len policies) && negb mem then Ok false
  else
    ls ← rd_slice (default [] leases) 0 lease_count;
    leases_valid_loop policies (replicate (length policies) zero_limits) [] ls now.

(** The version is the next one; otherwise a snapshot is required. *)
Definition allocator_exact_next (a : allocator_t) (epoch sequence : Z) : allocator_t * bool :=
  if negb (qa_synchronized a) then (a, false)
  else if negb (epoch =? qa_epoch a) || (qa_sequence a =? 18446744073709551615) ||
          negb (sequence =? u64 (qa_sequence a + 1))
  then (allocator_require_snapshot a epoch sequence, false)
  else (a, true).

(** The loop over the leases from index [i] on; [exclude] is a slot to leave out. *)
Fixpoint commitments_loop (slots : list (option issued_slot_t)) (tenant : string)
    (exclude : option nat) (i : nat) (out : list Z) : list Z :=
  match slots with
  | [] => out
  | slot :: slots =>
      let out :=
        let? s := slot else out in
        if bool_decide (exclude = Some i) || negb (bool_decide (iss_tenant_id s = tenant))
        then out else add_limits out (iss_limits s) in
      commitments_loop slots tenant exclude (S i) out
  end.

Definition allocator_commitments_for_tenant (a : allocator_t) (tenant : string)
    (exclude : option nat) : list Z :=
  commitments_loop (qa_leases a) tenant exclude 0 zero_limits.

(* ------------------------------------------------------------------ *)
(** ** Operations *)

(** [mem] says whether the allocations succeed. *)
Definition quota_allocator_create (max_tenants max_issued_leases : Z) (mem : bool)
    : option allocator_t :=
  if (max_tenants =? 0) || (QUOTA_MAX_TENANTS <? max_tenants) || (max_issued_leases =? 0) ||
     (QUOTA_MAX_ISSUED_LEASES <? max_issued_leases) then None
  else if negb mem then None
  else Some (Build_allocator_t max_tenants max_issued_leases
               (replicate (Z.to_nat max_tenants) None) (replicate (Z.to_nat max_issued_leases) None)
               false 0 0 0 0).

Definition policy_slot (p : quota_policy_t) : res policy_slot_t :=
  let? tenant := po_tenant_id p else Fault in
  Ok (Build_policy_slot_t tenant (po_limits p)).

Definition issued_slot (l : quota_lease_t) : res issued_slot_t :=
  let? tenant := le_tenant_id l else Fault in
  let? node := le_node_id l else Fault in
  Ok (Build_issued_slot_t tenant node (le_expires_at_unix_ms l) (le_limits l)).

(** The loops that copy the input from slot [i] of a new table on. *)
Fixpoint copy_slots {A B} (slot : A -> res B) (input : list A) (table : list (option B)) (i : Z)
    : res (list (option B)) :=
  match input with
  | [] => Ok table
  | x :: input =>
      s ← slot x;
      table ← upd table i (Some s);
      copy_slots slot input table (i + 1)
  end.

(** The condition of [apply_snapshot]. *)
Definition snapshot_valid (a : allocator_t) (policies : option (list quota_policy_t)) (policy_count : Z)
    (leases : option (list quota_lease_t)) (lease_count now : Z) (mem : bool) : res bool :=
  valid ← allocator_policy_snapshot_valid policies policy_count (qa_max_tenants a);
  if negb valid then Ok false
  else
    ps ← rd_slice (default [] policies) 0 policy_count;
    allocator_snapshot_leases_valid ps leases lease_count (qa_max_issued_leases a) now mem.

(** [mem] says whether the sums and the new tables can be allocated. *)
Definition quota_allocator_apply_snapshot (a : allocator_t) (epoch sequence : Z)
    (policies : option (list quota_policy_t)) (policy_count : Z)
    (leases : option (list quota_lease_t)) (lease_count : Z) (now : Z) (mem : bool * bool)
    : res (allocator_t * allocator_result) :=
  if epoch =? 0 then Ok (a, ALLOC_ERROR)
  else if qa_synchronized a &&
          (allocator_version_compare epoch sequence (qa_epoch a) (qa_sequence a) <=? 0)
  then Ok (a, ALLOC_STALE)
  else if negb (qa_synchronized a) && truth (qa_required_epoch a) &&
          (allocator_version_compare epoch sequence (qa_required_epoch a) (qa_required_sequence a) <? 0)
  then Ok (a, ALLOC_STALE)
  else
    valid ← snapshot_valid a policies policy_count leases lease_count now mem.1;
    if negb valid then Ok (allocator_require_snapshot a epoch sequence, ALLOC_ERROR)
    else if negb mem.2 then Ok (allocator_require_snapshot a epoch sequence, ALLOC_ERROR)
    else
      ps ← rd_slice (default [] policies) 0 policy_count;
      new_policies ← copy_slots policy_slot ps (replicate (Z.to_nat (qa_max_tenants a)) None) 0;
      ls ← rd_slice (default [] leases) 0 lease_count;
      new_leases ← copy_slots issued_slot ls (replicate (Z.to_nat (qa_max_issued_leases a)) None) 0;
      Ok (alloc_set_version (alloc_set_tables a new_policies new_leases) true epoch sequence 0 0,
          ALLOC_APPLIED).

(** What [set_policy], [grant] and [revoke] check first, once their input is valid:
    the result if it is not [body]'s. *)
Definition at_next_version (a : allocator_t) (epoch sequence : Z)
    (body : allocator_t -> res (allocator_t * allocator_result))
    : res (allocator_t * allocator_result) :=
  if negb (qa_synchronized a) then Ok (allocator_require_snapshot a epoch sequence, ALLOC_UNKNOWN)
  else if allocator_version_compare epoch sequence (qa_epoch a) (qa_sequence a) <=? 0
  then Ok (a, ALLOC_STALE)
  else
    let '(a, next) := allocator_exact_next a epoch sequence in
    if negb next then Ok (a, ALLOC_GAP) else body a.

Definition quota_allocator_set_policy (a : allocator_t) (epoch sequence : Z)
    (policy : option quota_policy_t) (now : Z) : res (allocator_t * allocator_result) :=
  if negb (allocator_policy_input_valid policy) then Ok (a, ALLOC_ERROR)
  else at_next_version a epoch sequence (fun a =>
    let a := allocator_prune_expired a now in
    let? policy := policy else Fault in
    s ← policy_slot policy;
    if exceeds (allocator_commitments_for_tenant a (ps_tenant_id s) None) (po_limits policy)
    then Ok (a, ALLOC_OVERCOMMITTED)
    else
      let slot := fst <$> allocator_find_policy a (ps_tenant_id s) in
      let slot := match slot with Some i => Some i | None => free_index (qa_policies a) end in
      let? i := slot else Ok (a, ALLOC_LIMIT) in
      policies ← upd (qa_policies a) (Z.of_nat i) (Some s);
      Ok (alloc_set_sequence (alloc_set_tables a policies (qa_leases a)) sequence, ALLOC_APPLIED)).

Definition quota_allocator_grant (a : allocator_t) (epoch sequence : Z)
    (lease : option quota_lease_t) (now : Z) : res (allocator_t * allocator_result) :=
  if negb (allocator_lease_input_valid lease now) then Ok (a, ALLOC_ERROR)
  else at_next_version a epoch sequence (fun a =>
    let a := allocator_prune_expired a now in
    let? lease := lease else Fault in
    s ← issued_slot lease;
    let? found := allocator_find_policy a (iss_tenant_id s) else Ok (a, ALLOC_NOT_FOUND) in
    let? policy := found.2 else Fault in
    let slot := fst <$> allocator_find_lease a (iss_tenant_id s) (iss_node_id s) in
    let committed := allocator_commitments_for_tenant a (iss_tenant_id s) slot in
    if exceeds (add_limits committed (le_limits lease)) (ps_limits policy)
    then Ok (a, ALLOC_OVERCOMMITTED)
    else
      let slot := match slot with Some i => Some i | None => free_index (qa_leases a) end in
      let? i := slot else Ok (a, ALLOC_LIMIT) in
      leases ← upd (qa_leases a) (Z.of_nat i) (Some s);
      Ok (alloc_set_sequence (alloc_set_tables a (qa_policies a) leases) sequence, ALLOC_APPLIED)).

Definition quota_allocator_revoke (a : allocator_t) (epoch sequence : Z)
    (tenant_id node_id : option string) (now : Z) : res (allocator_t * allocator_result) :=
  if negb (tenant_id_valid tenant_id) || negb (node_id_valid node_id) then Ok (a, ALLOC_ERROR)
  else at_next_version a epoch sequence (fun a =>
    let a := allocator_prune_expired a now in
    let? tenant := tenant_id else Fault in
    let? node := node_id else Fault in
    let? found := allocator_find_lease a tenant node else Ok (a, ALLOC_NOT_FOUND) in
    leases ← upd (qa_leases a) (Z.of_nat found.1) None;
    Ok (alloc_set_sequence (alloc_set_tables a (qa_policies a) leases) sequence, ALLOC_APPLIED)).

(** The leases that a node's snapshot lists. *)
Definition node_lease (node : string) (slot : option issued_slot_t) : option quota_lease_t :=
  let? s := slot else None in
  if bool_decide (iss_node_id s = node)
  then Some (Build_quota_lease_t (Some (iss_tenant_id s)) (Some (iss_node_id s))
               (iss_expires_at_unix_ms s) (iss_limits s))
  else None.

(** [capacity] is that of [out_leases].  On success the leases, the epoch and the
    sequence; otherwise the count, if it was written. *)
Definition quota_allocator_build_node_snapshot (a : allocator_t) (node_id : option string) (now : Z)
    (capacity : Z) : allocator_t * (option Z + list quota_lease_t * Z * Z) :=
  if negb (node_id_valid node_id) || negb (qa_synchronized a) then (a, inl None)
  else
    let a := allocator_prune_expired a now in
    let leases := omap (node_lease (default ""%string node_id)) (qa_leases a) in
    if capacity <? len leases then (a, inl (Some (len leases)))
    else (a, inr (leases, qa_epoch a, qa_sequence a)).

(** [out_policy] and [out_issued]. *)
Definition quota_allocator_commitment (a : allocator_t) (tenant_id : option string) (now : Z)
    : allocator_t * option (list Z * list Z) :=
  if negb (tenant_id_valid tenant_id) || negb (qa_synchronized a) then (a, None)
  else
    let a := allocator_prune_expired a now in
    let tenant := default ""%string tenant_id in
    match allocator_find_policy a tenant with
    | Some (_, Some policy) =>
        let committed := allocator_commitments_for_tenant a tenant None in
        if existsb (fun c => 4294967295 <? c) committed then (a, None)
        else (a, Some (ps_limits policy, u32 <$> committed))
    | _ => (a, None)
    end.

Definition occupied_count {A} (slots : list (option A)) : Z := len (omap id slots).

(** Synchronized, epoch, sequence, policies and leases. *)
Definition quota_allocator_status (a : allocator_t) : bool * Z * Z * Z * Z :=
  (qa_synchronized a, qa_epoch a, qa_sequence a, occupied_count (qa_policies a),
   occupied_count (qa_leases a)).

(* ------------------------------------------------------------------ *)
(** ** Specification: a book of caps and leases *)

(** A lease is issued for a tenant and a node: its expiry and its limits. *)
Notation lease_entry := ((string * string) * (Z * list Z))%type (only parsing).

Record book := {
  bk_max_tenants : Z;
  bk_max_leases : Z;
  bk_synchronized : bool;
  bk_version : Z * Z;
  bk_required : Z * Z;
  bk_caps : gmap string (list Z);
  bk_leases : gmap (string * string) (Z * list Z);
}.

(** What is issued of resource [r] to tenant [t]. *)
Definition total_of (es : list lease_entry) (t : string) (r : Z) : Z :=
  foldr (fun e sum => (if bool_decide (e.1.1 = t) then used_at e.2.2 r else 0) + sum) 0 es.

Definition issued (m : gmap (string * string) (Z * list Z)) (t : string) (r : Z) : Z :=
  total_of (map_to_list m) t r.

Definition resources : list Z := [0; 1; 2; 3; 4].

Definition fits (m : gmap (string * string) (Z * list Z)) (t : string) (cap : list Z) : bool :=
  forallb (fun r => issued m t r <=? used_at cap r) resources.

(** Every lease is of a tenant with a cap, and its tenant's leases fit it. *)
Definition covered (caps : gmap string (list Z)) (m : gmap (string * string) (Z * list Z)) : Prop :=
  map_Forall (fun k _ => exists cap, caps !! k.1 = Some cap /\ fits m k.1 cap = true) m.

#[export] Instance covered_dec caps m : Decision (covered caps m).
Proof.
  apply map_Forall_dec. intros k _. destruct (caps !! k.1) as [cap|] eqn:E.
  - destruct (fits m k.1 cap) eqn:Ef; [left; by exists cap|right; intros (c & [= <-] & H); congruence].
  - right. by intros (c & [=] & _).
Defined.

Definition policy_entry (p : quota_policy_t) : option (string * list Z) :=
  t ← po_tenant_id p;
  if tenant_id_valid (Some t) then Some (t, po_limits p) else None.

Definition entry_of (now : Z) (l : quota_lease_t) : option lease_entry :=
  t ← le_tenant_id l;
  n ← le_node_id l;
  if tenant_id_valid (Some t) && node_id_valid (Some n) && (now <? le_expires_at_unix_ms l)
  then Some ((t, n), (le_expires_at_unix_ms l, le_limits l)) else None.

Definition with_tables (b : book) (caps : gmap string (list Z))
    (leases : gmap (string * string) (Z * list Z)) : book :=
  Build_book (bk_max_tenants b) (bk_max_leases b) (bk_synchronized b) (bk_version b) (bk_required b)
    caps leases.

Definition at_version (b : book) (v : Z * Z) : book :=
  Build_book (bk_max_tenants b) (bk_max_leases b) (bk_synchronized b) v (bk_required b)
    (bk_caps b) (bk_leases b).

Definition book_desync (b : book) (v : Z * Z) : book :=
  Build_book (bk_max_tenants b) (bk_max_leases b) false (bk_version b) (demanded (bk_required b) v)
    (bk_caps b) (bk_leases b).

Definition unexpired (now : Z) (m : gmap (string * string) (Z * list Z))
    : gmap (string * string) (Z * list Z) := filter (fun kv => now < kv.2.1) m.

Definition book_prune (b : book) (now : Z) : book := with_tables b (bk_caps b) (unexpired now (bk_leases b)).

(** A reader of a synchronized book, with valid input, removes what has expired. *)
Definition book_read (b : book) (valid : bool) (now : Z) : book :=
  if valid && bk_synchronized b then book_prune b now else b.

(** The tables of a snapshot that is accepted. *)
Definition snapshot_tables (b : book) (ps : list quota_policy_t) (ls : list quota_lease_t) (now : Z)
    : option (gmap string (list Z) * gmap (string * string) (Z * list Z)) :=
  cs ← mapM policy_entry ps;
  es ← mapM (entry_of now) ls;
  if bool_decide (len ps <= bk_max_tenants b /\ len ls <= bk_max_leases b /\ NoDup cs.*1 /\
                  NoDup es.*1 /\ covered (list_to_map cs) (list_to_map es))
  then Some (list_to_map cs, list_to_map es) else None.

Definition book_snapshot (b : book) (v : Z * Z) (ps : list quota_policy_t) (ls : list quota_lease_t)
    (now : Z) (mem : bool) : book * allocator_result :=
  if v.1 =? 0 then (b, ALLOC_ERROR)
  else if bk_synchronized b && negb (version_lt (bk_version b) v) then (b, ALLOC_STALE)
  else if negb (bk_synchronized b) && truth (bk_required b).1 && version_lt v (bk_required b)
  then (b, ALLOC_STALE)
  else
    match snapshot_tables b ps ls now with
    | Some (caps, leases) =>
        if mem then (Build_book (bk_max_tenants b) (bk_max_leases b) true v (0, 0) caps leases, ALLOC_APPLIED)
        else (book_desync b v, ALLOC_ERROR)
    | None => (book_desync b v, ALLOC_ERROR)
    end.

(** A change at version [v]: what it does to the unexpired leases, or why not. *)
Definition book_change (b : book) (v : Z * Z) (now : Z)
    (change : book -> book + allocator_result) : book * allocator_result :=
  if negb (bk_synchronized b) then (book_desync b v, ALLOC_UNKNOWN)
  else if negb (version_lt (bk_version b) v) then (b, ALLOC_STALE)
  else if negb (bool_decide (v = ((bk_version b).1, (bk_version b).2 + 1)))
  then (book_desync b v, ALLOC_GAP)
  else
    let b := book_prune b now in
    match change b with
    | inl b => (at_version b v, ALLOC_APPLIED)
    | inr rc => (b, rc)
    end.

Definition change_policy (t : string) (cap : list Z) (b : book) : book + allocator_result :=
  if negb (fits (bk_leases b) t cap) then inr ALLOC_OVERCOMMITTED
  else if bool_decide (bk_caps b !! t = None) && (bk_max_tenants b <=? Z.of_nat (size (bk_caps b)))
  then inr ALLOC_LIMIT
  else inl (with_tables b (<[t := cap]> (bk_caps b)) (bk_leases b)).

Definition change_grant (e : lease_entry) (b : book) : book + allocator_result :=
  match bk_caps b !! e.1.1 with
  | None => inr ALLOC_NOT_FOUND
  | Some cap =>
      let leases := <[e.1 := e.2]> (bk_leases b) in
      if negb (fits leases e.1.1 cap) then inr ALLOC_OVERCOMMITTED
      else if bool_decide (bk_leases b !! e.1 = None) &&
              (bk_max_leases b <=? Z.of_nat (size (bk_leases b))) then inr ALLOC_LIMIT
      else inl (with_tables b (bk_caps b) leases)
  end.

Definition change_revoke (k : string * string) (b : book) : book + allocator_result :=
  if bool_decide (bk_leases b !! k = None) then inr ALLOC_NOT_FOUND
  else inl (with_tables b (bk_caps b) (delete k (bk_leases b))).

(** The unexpired leases of a node. *)
Definition node_leases (b : book) (node : string) : gmap (string * string) (Z * list Z) :=
  filter (fun kv => kv.1.2 = node) (bk_leases b).

(* ------------------------------------------------------------------ *)
(** ** Runs *)

Inductive alloc_op :=
  | AlSnapshot (epoch sequence : Z) (policies : list quota_policy_t) (leases : list quota_lease_t)
      (now : Z) (mem : bool * bool)
  | AlSetPolicy (epoch sequence : Z) (policy : option quota_policy_t) (now : Z)
  | AlGrant (epoch sequence : Z) (lease : option quota_lease_t) (now : Z)
  | AlRevoke (epoch sequence : Z) (tenant node : option string) (now : Z)
  | AlNodeSnapshot (node : option string) (now capacity : Z)
  | AlCommitment (tenant : option string) (now : Z).

Definition alloc_step (a : allocator_t) (op : alloc_op) : res (allocator_t * allocator_result) :=
  match op with
  | AlSnapshot e s ps ls now mem =>
      quota_allocator_apply_snapshot a e s (Some ps) (len ps) (Some ls) (len ls) now mem
  | AlSetPolicy e s p now => quota_allocator_set_policy a e s p now
  | AlGrant e s l now => quota_allocator_grant a e s l now
  | AlRevoke e s t n now => quota_allocator_revoke a e s t n now
  | AlNodeSnapshot node now capacity =>
      Ok ((quota_allocator_build_node_snapshot a node now capacity).1, ALLOC_APPLIED)
  | AlCommitment t now => Ok ((quota_allocator_commitment a t now).1, ALLOC_APPLIED)
  end.

Fixpoint alloc_run (a : allocator_t) (ops : list alloc_op) : res (allocator_t * list allocator_result) :=
  match ops with
  | [] => Ok (a, [])
  | op :: ops =>
      '(a, rc) ← alloc_step a op;
      '(a, rcs) ← alloc_run a ops;
      Ok (a, rc :: rcs)
  end.

Definition book_step (b : book) (op : alloc_op) : book * allocator_result :=
  match op with
  | AlSnapshot e s ps ls now mem =>
      book_snapshot b (e, s) ps ls now ((mem.1 || (len ps =? 0)) && mem.2)
  | AlSetPolicy e s p now =>
      match (p ← p; policy_entry p) with
      | Some (t, cap) => book_change b (e, s) now (change_policy t cap)
      | None => (b, ALLOC_ERROR)
      end
  | AlGrant e s l now =>
      match (l ← l; entry_of now l) with
      | Some entry => book_change b (e, s) now (change_grant entry)
      | None => (b, ALLOC_ERROR)
      end
  | AlRevoke e s t n now =>
      match t, n with
      | Some t, Some n =>
          if tenant_id_valid (Some t) && node_id_valid (Some n)
          then book_change b (e, s) now (change_revoke (t, n)) else (b, ALLOC_ERROR)
      | _, _ => (b, ALLOC_ERROR)
      end
  | AlNodeSnapshot node now _ => (book_read b (node_id_valid node) now, ALLOC_APPLIED)
  | AlCommitment t now => (book_read b (tenant_id_valid t) now, ALLOC_APPLIED)
  end.

Fixpoint book_run (b : book) (ops : list alloc_op) : book * list allocator_result :=
  match ops with
  | [] => (b, [])
  | op :: ops =>
      let '(b, rc) := book_step b op in
      let '(b, rcs) := book_run b ops in
      (b, rc :: rcs)
  end.

Definition limits_wf (l : list Z) : Prop := len l = QUOTA_RESOURCE_COUNT /\ Forall is_u32 l.

(** Policies and leases have five [uint32_t] limits; times and versions are [uint64_t]. *)
Definition alloc_op_ok (op : alloc_op) : Prop :=
  match op with
  | AlSnapshot e s ps ls now _ =>
      0 <= e /\ is_u64 s /\ 0 <= now /\ Forall (fun p => limits_wf (po_limits p)) ps /\
      Forall (fun l => limits_wf (le_limits l)) ls
  | AlSetPolicy e s p now => is_u64 s /\ 0 <= now /\ forall x, p = Some x -> limits_wf (po_limits x)
  | AlGrant e s l now => is_u64 s /\ 0 <= now /\ forall x, l = Some x -> limits_wf (le_limits x)
  | AlRevoke e s _ _ now => is_u64 s /\ 0 <= now
  | AlNodeSnapshot _ now _ | AlCommitment _ now => 0 <= now
  end.

Definition empty_book (max_tenants max_leases : Z) : book :=
  Build_book max_tenants max_leases false (0, 0) (0, 0) ∅ ∅.

(* ------------------------------------------------------------------ *)
(** ** Tables of slots *)

Section table.
Context {K : Type} `{Countable K} {S V : Type} (kv : S -> K * V).

Definition held (slots : list (option S)) : list (K * V) := kv <$> omap id slots.
Definition table (slots : list (option S)) : gmap K V := list_to_map (held slots).
Definition of_slot (o : option S) : list (K * V) := match o with Some s => [kv s] | None => [] end.

Lemma held_app l l' : held (l ++ l') = held l ++ held l'.
Proof. unfold held. by rewrite omap_app, fmap_app. Qed.

Lemma held_slot_cons o l : held (o :: l) = of_slot o ++ held l.
Proof. by destruct o. Qed.

(** What is held, apart from one slot. *)
Lemma held_split slots i o :
  slots !! i = Some o ->
  exists rest, held slots ≡ₚ of_slot o ++ rest /\
    forall o', held (<[i := o']> slots) ≡ₚ of_slot o' ++ rest.
Proof.
  intros Hi. apply list_elem_of_split_length in Hi as (l1 & l2 & -> & ->).
  exists (held l1 ++ held l2). split; [|intros o'; rewrite insert_app_r_alt, Nat.sub_diag by done; cbn];
    rewrite held_app, held_slot_cons; apply Permutation_app_swap_app.
Qed.

Lemma table_perm slots l : held slots ≡ₚ l -> NoDup (held slots).*1 -> table slots = list_to_map l.
Proof. intros Hp Hn. by apply list_to_map_proper. Qed.

Lemma table_list slots : NoDup (held slots).*1 -> map_to_list (table slots) ≡ₚ held slots.
Proof. intros Hn. by apply map_to_list_to_map. Qed.

Lemma table_size slots : NoDup (held slots).*1 -> Z.of_nat (size (table slots)) = len (held slots).
Proof. intros Hn. unfold table, len. by rewrite map_size_list_to_map. Qed.

(** A loop that looks for the slot of a key. *)
Lemma find_held (match_key : option S -> bool) k slots :
  (forall o, match_key o = bool_decide (k ∈ (of_slot o).*1)) -> NoDup (held slots).*1 ->
  match list_find match_key slots with
  | Some (i, o) => exists s, o = Some s /\ slots !! i = Some (Some s) /\ (kv s).1 = k /\
                     table slots !! k = Some (kv s).2
  | None => table slots !! k = None
  end.
Proof.
  intros Hm Hn. destruct (list_find match_key slots) as [[i o]|] eqn:E.
  - apply list_find_Some in E as (Hi & Ho & _). rewrite Hm in Ho. apply bool_decide_unpack in Ho.
    destruct o as [s|]; [|by apply not_elem_of_nil in Ho]. apply list_elem_of_singleton in Ho as ->.
    exists s. split_and!; try done. destruct (held_split _ _ _ Hi) as (rest & Hp & _).
    rewrite (table_perm _ _ Hp Hn). cbn. destruct (kv s) as [k v]. by rewrite lookup_insert_eq.
  - apply list_find_None in E. apply not_elem_of_list_to_map_1. clear Hn.
    induction E as [|o slots Ho _ IH]; [apply not_elem_of_nil|].
    rewrite held_slot_cons, fmap_app. apply not_elem_of_app. split; [|done].
    intros Hin. apply Ho. rewrite Hm. by apply bool_decide_pack.
Qed.

Lemma held_len_le slots : len (held slots) <= len slots.
Proof.
  induction slots as [|o slots IH]; [done|]. rewrite held_slot_cons, len_app, len_cons.
  destruct o; unfold len in *; cbn [of_slot length] in *; lia.
Qed.

Lemma free_held slots :
  NoDup (held slots).*1 ->
  match free_index slots with
  | Some i => slots !! i = Some None /\ Z.of_nat (size (table slots)) < len slots
  | None => Z.of_nat (size (table slots)) = len slots
  end.
Proof.
  intros Hn. rewrite (table_size _ Hn). clear Hn. unfold free_index.
  destruct (list_find _ slots) as [[i o]|] eqn:E; cbn.
  - apply list_find_Some in E as (Hi & -> & _). split; [done|].
    apply list_elem_of_split_length in Hi as (l1 & l2 & -> & _). rewrite held_app, held_slot_cons, !len_app, len_cons.
    change (len (of_slot None)) with 0. pose proof (held_len_le l1). pose proof (held_len_le l2). lia.
  - apply list_find_None in E. induction E as [|o slots Ho _ IH]; [done|].
    rewrite held_slot_cons, len_app, len_cons, IH. by destruct o.
Qed.

Lemma held_put slots i o s :
  slots !! i = Some o -> NoDup (held slots).*1 ->
  ((kv s).1 ∈ (of_slot o).*1 \/ o = None /\ table slots !! (kv s).1 = None) ->
  NoDup (held (<[i := Some s]> slots)).*1 /\
  table (<[i := Some s]> slots) = <[(kv s).1 := (kv s).2]> (table slots).
Proof.
  intros Hi Hn Ho. destruct (held_split _ _ _ Hi) as (rest & Hp & Hp').
  assert (Hn' : NoDup (held (<[i := Some s]> slots)).*1).
  { rewrite Hp'. cbn. destruct Ho as [Hin|[-> Hnone]].
    - destruct o as [s0|]; [|by apply not_elem_of_nil in Hin]. apply list_elem_of_singleton in Hin as ->.
      by rewrite Hp in Hn.
    - apply NoDup_cons. rewrite Hp in Hn. split; [|done]. apply not_elem_of_list_to_map.
      rewrite <- Hnone. symmetry. f_equal. apply table_perm; [done|by rewrite Hp]. }
  split; [done|]. rewrite (table_perm _ _ (Hp' (Some s)) Hn'), (table_perm _ _ Hp Hn). cbn.
  destruct Ho as [Hin|[-> _]]; [|by destruct (kv s)].
  destruct o as [s0|]; [|by apply not_elem_of_nil in Hin]. apply list_elem_of_singleton in Hin as ->.
  cbn. destruct (kv s), (kv s0). cbn. by rewrite insert_insert_eq.
Qed.

(** The slot that a put takes: that of the key, or a free one while there is one. *)
Lemma chosen_held (found : option (nat * option S)) k slots :
  match found with
  | Some (i, o) => exists s, o = Some s /\ slots !! i = Some (Some s) /\ (kv s).1 = k /\
                     table slots !! k = Some (kv s).2
  | None => table slots !! k = None
  end -> NoDup (held slots).*1 ->
  let full := bool_decide (table slots !! k = None) && (len slots <=? Z.of_nat (size (table slots))) in
  match (match fst <$> found with Some i => Some i | None => free_index slots end) with
  | Some i => full = false /\ exists o, slots !! i = Some o /\
                (k ∈ (of_slot o).*1 \/ o = None /\ table slots !! k = None)
  | None => full = true
  end.
Proof.
  intros Hf Hn. destruct found as [[i o]|]; cbn [fmap option_fmap option_map fst].
  - destruct Hf as (s & -> & Hi & Ek & ->). rewrite bool_decide_false by done. split; [done|].
    exists (Some s). split; [done|]. left. rewrite <- Ek. by left.
  - rewrite Hf, bool_decide_true by done. pose proof (free_held slots Hn) as Hfree.
    destruct (free_index slots) as [i|]; cbn [andb]; [|lia]. destruct Hfree as [Hi Hlt].
    split; [lia|]. exists None. split; [done|]. by right.
Qed.

Lemma held_clear slots i s :
  slots !! i = Some (Some s) -> NoDup (held slots).*1 ->
  NoDup (held (<[i := None]> slots)).*1 /\ table (<[i := None]> slots) = delete (kv s).1 (table slots).
Proof.
  intros Hi Hn. destruct (held_split _ _ _ Hi) as (rest & Hp & Hp').
  assert (Hn' : NoDup (kv s :: rest).*1) by by rewrite Hp in Hn. cbn in Hn'. apply NoDup_cons in Hn' as [Hs Hn'].
  assert (Hn2 : NoDup (held (<[i := None]> slots)).*1) by by rewrite (Hp' None).
  split; [done|]. rewrite (table_perm _ _ (Hp' None) Hn2), (table_perm _ _ Hp Hn). cbn.
  destruct (kv s) as [k v]. cbn in *. rewrite delete_insert_id; [done|]. by apply not_elem_of_list_to_map_1.
Qed.

End table.

(* ------------------------------------------------------------------ *)
(** ** Sums of limits *)

Lemma five {A} (l : list A) : len l = 5 -> exists a b c d e, l = [a; b; c; d; e].
Proof.
  unfold len. intros Hl. destruct l as [|a [|b [|c [|d [|e [|f l]]]]]]; cbn in Hl; try lia. by exists a, b, c, d, e.
Qed.

Lemma in_resources r : r ∈ resources <-> 0 <= r < QUOTA_RESOURCE_COUNT.
Proof. unfold resources, QUOTA_RESOURCE_COUNT. rewrite !elem_of_cons, elem_of_nil. lia. Qed.

(** All five sums, or none. *)
Lemma all_resources (P : Z -> Prop) : (forall r, r ∈ resources -> P r) <-> P 0 /\ P 1 /\ P 2 /\ P 3 /\ P 4.
Proof.
  unfold resources. split; [intros H; split_and!; apply H; repeat (left || right)|].
  intros (? & ? & ? & ? & ?) r. rewrite !elem_of_cons, elem_of_nil.
  by intros [->|[->|[->|[->|[->|[]]]]]].
Qed.

Lemma used_at_five (a b c d e : Z) :
  used_at [a; b; c; d; e] 0 = a /\ used_at [a; b; c; d; e] 1 = b /\ used_at [a; b; c; d; e] 2 = c /\
  used_at [a; b; c; d; e] 3 = d /\ used_at [a; b; c; d; e] 4 = e.
Proof. done. Qed.

Lemma exceeds_false sums caps :
  len sums = QUOTA_RESOURCE_COUNT -> len caps = QUOTA_RESOURCE_COUNT ->
  exceeds sums caps = false <-> forall r, r ∈ resources -> used_at sums r <= used_at caps r.
Proof.
  intros (a & b & c & d & e & ->)%five (a' & b' & c' & d' & e' & ->)%five. rewrite all_resources.
  pose proof (used_at_five a b c d e). pose proof (used_at_five a' b' c' d' e').
  unfold exceeds. cbn [existsb zip zip_with fst snd]. lia.
Qed.

Lemma add_limits_at sums limits :
  len sums = QUOTA_RESOURCE_COUNT -> len limits = QUOTA_RESOURCE_COUNT ->
  len (add_limits sums limits) = QUOTA_RESOURCE_COUNT /\
  forall r, r ∈ resources -> used_at (add_limits sums limits) r = u64 (used_at sums r + used_at limits r).
Proof.
  intros (a & b & c & d & e & ->)%five (a' & b' & c' & d' & e' & ->)%five. split; [done|].
  by apply all_resources.
Qed.

Lemma total_of_app es es' t r : total_of (es ++ es') t r = total_of es t r + total_of es' t r.
Proof. induction es as [|e es IH]; cbn; [done|]. fold (total_of (es ++ es') t r). rewrite IH. unfold total_of. lia. Qed.

Lemma total_of_snoc es e t r :
  total_of (es ++ [e]) t r = total_of es t r + (if bool_decide (e.1.1 = t) then used_at e.2.2 r else 0).
Proof. rewrite total_of_app. unfold total_of at 2. cbn. lia. Qed.

Lemma total_of_perm es es' t r : es ≡ₚ es' -> total_of es t r = total_of es' t r.
Proof. unfold total_of. induction 1; cbn; lia. Qed.

Definition entries_wf (es : list lease_entry) : Prop := Forall (fun e => limits_wf e.2.2) es.

#[export] Instance entries_wf_perm : Proper ((≡ₚ) ==> iff) entries_wf.
Proof. intros es es' E. unfold entries_wf. by rewrite E. Qed.

Lemma total_of_range es t r : entries_wf es -> 0 <= total_of es t r <= len es * 4294967295.
Proof.
  unfold total_of. induction 1 as [|e es He _ IH]; [done|]. cbn. rewrite len_cons.
  pose proof (used_at_range e.2.2 r (proj2 He)). case_bool_decide; lia.
Qed.

Lemma issued_list es t r : NoDup es.*1 -> issued (list_to_map es) t r = total_of es t r.
Proof. intros Hn. by apply total_of_perm, map_to_list_to_map. Qed.

Lemma issued_insert m k v t r :
  issued (<[k := v]> m) t r = (if bool_decide (k.1 = t) then used_at v.2 r else 0) + issued (delete k m) t r.
Proof.
  unfold issued. rewrite <- insert_delete_eq.
  rewrite (total_of_perm _ _ _ _ (map_to_list_insert _ k v (lookup_delete_eq m k))). done.
Qed.

Definition leases_wf (m : gmap (string * string) (Z * list Z)) : Prop :=
  map_Forall (fun _ v => limits_wf v.2) m.

Lemma map_entries_wf m : leases_wf m -> entries_wf (map_to_list m).
Proof. intros Hm. apply Forall_forall. intros [k v] Hin%elem_of_map_to_list. by apply (Hm k v). Qed.

Lemma issued_mono m m' t r : m ⊆ m' -> leases_wf m' -> issued m t r <= issued m' t r.
Proof.
  intros Hs Hwf. unfold issued. apply map_to_list_submseteq in Hs. apply submseteq_Permutation in Hs as (k & Hk).
  rewrite (total_of_perm _ _ _ _ Hk), total_of_app.
  pose proof (map_entries_wf _ Hwf) as H. rewrite Hk in H. apply Forall_app in H as [_ H].
  pose proof (total_of_range k t r H). lia.
Qed.

Lemma fits_spec m t cap : fits m t cap = true <-> forall r, r ∈ resources -> issued m t r <= used_at cap r.
Proof. rewrite all_resources. unfold fits, resources. cbn [forallb]. lia. Qed.

(** What the code compares against a cap. *)
Lemma exceeds_fits sums m t cap :
  len sums = QUOTA_RESOURCE_COUNT -> len cap = QUOTA_RESOURCE_COUNT ->
  (forall r, r ∈ resources -> used_at sums r = issued m t r) -> exceeds sums cap = negb (fits m t cap).
Proof.
  intros Hs Hc Heq. destruct (exceeds_false _ _ Hs Hc) as [H1 H2]. destruct (fits_spec m t cap) as [H3 H4].
  destruct (exceeds sums cap), (fits m t cap); try done; cbn.
  - apply H2. intros r Hr. rewrite (Heq r Hr). by apply H3.
  - apply H4. intros r Hr. rewrite <- (Heq r Hr). by apply H1.
Qed.

(* ------------------------------------------------------------------ *)
(** ** The allocator as a book *)

Definition policy_kv (s : policy_slot_t) : string * list Z := (ps_tenant_id s, ps_limits s).
Definition lease_kv (s : issued_slot_t) : lease_entry :=
  ((iss_tenant_id s, iss_node_id s), (iss_expires_at_unix_ms s, iss_limits s)).

Definition book_of (a : allocator_t) : book :=
  Build_book (qa_max_tenants a) (qa_max_issued_leases a) (qa_synchronized a)
    (qa_epoch a, qa_sequence a) (qa_required_epoch a, qa_required_sequence a)
    (table policy_kv (qa_policies a)) (table lease_kv (qa_leases a)).

(** An entry as [allocator_lease_input_valid] lets it in. *)
Definition entry_wf (e : lease_entry) : Prop :=
  tenant_id_valid (Some e.1.1) = true /\ node_id_valid (Some e.1.2) = true /\ 0 < e.2.1 /\ limits_wf e.2.2.

Record alloc_wf (a : allocator_t) : Prop := {
  aw_tenants : len (qa_policies a) = qa_max_tenants a;
  aw_leases : len (qa_leases a) = qa_max_issued_leases a;
  aw_max : 0 < qa_max_tenants a <= QUOTA_MAX_TENANTS /\ 0 < qa_max_issued_leases a <= QUOTA_MAX_ISSUED_LEASES;
  aw_sequence : is_u64 (qa_sequence a);
  aw_caps : NoDup (held policy_kv (qa_policies a)).*1;
  aw_caps_wf : Forall (fun e => limits_wf e.2) (held policy_kv (qa_policies a));
  aw_issued : NoDup (held lease_kv (qa_leases a)).*1;
  aw_issued_wf : Forall entry_wf (held lease_kv (qa_leases a));
}.

Lemma held_entries_wf a : alloc_wf a -> entries_wf (held lease_kv (qa_leases a)).
Proof. intros Hw. eapply Forall_impl; [apply (aw_issued_wf a Hw)|]. by intros e (_ & _ & _ & ?). Qed.

Lemma find_policy_spec a t :
  alloc_wf a ->
  match allocator_find_policy a t with
  | Some (i, o) => exists s, o = Some s /\ qa_policies a !! i = Some (Some s) /\ ps_tenant_id s = t /\
                     bk_caps (book_of a) !! t = Some (ps_limits s)
  | None => bk_caps (book_of a) !! t = None
  end.
Proof.
  intros Hw. apply (find_held policy_kv (policy_of t) t); [|apply Hw].
  intros [s|]; [|by rewrite bool_decide_false by apply not_elem_of_nil]. unfold policy_of.
  apply bool_decide_ext. cbn. rewrite list_elem_of_singleton. naive_solver.
Qed.

Lemma find_lease_spec a t n :
  alloc_wf a ->
  match allocator_find_lease a t n with
  | Some (i, o) => exists s, o = Some s /\ qa_leases a !! i = Some (Some s) /\ (lease_kv s).1 = (t, n) /\
                     bk_leases (book_of a) !! (t, n) = Some (lease_kv s).2
  | None => bk_leases (book_of a) !! (t, n) = None
  end.
Proof.
  intros Hw. apply (find_held lease_kv (lease_of t n) (t, n)); [|apply Hw].
  intros [s|]; [|by rewrite bool_decide_false by apply not_elem_of_nil]. unfold lease_of.
  rewrite <- bool_decide_and. apply bool_decide_ext. cbn. rewrite list_elem_of_singleton.
  split; [by intros [-> ->]|by intros [= -> ->]].
Qed.

(** *** Pruning *)

Lemma held_prune now slots :
  held lease_kv (prune_slot now <$> slots) = filter (fun e => now < e.2.1) (held lease_kv slots).
Proof.
  induction slots as [|o slots IH]; [done|]. rewrite fmap_cons, !held_slot_cons, IH.
  destruct o as [s|]; [|done]. cbn [prune_slot of_slot app]. rewrite filter_cons. cbn.
  destruct (Z.leb_spec (iss_expires_at_unix_ms s) now); [by rewrite decide_False by lia|].
  by rewrite decide_True by lia.
Qed.

Lemma filter_keys (P : lease_entry -> Prop) `{forall e, Decision (P e)} es :
  NoDup es.*1 -> NoDup (filter P es).*1.
Proof. intros Hn. eapply sublist_NoDup; [exact Hn|]. apply fmap_sublist, sublist_filter. Qed.

Lemma prune_table now slots :
  NoDup (held lease_kv slots).*1 ->
  table lease_kv (prune_slot now <$> slots) = unexpired now (table lease_kv slots).
Proof.
  intros Hn. unfold table, unexpired. rewrite held_prune. apply map_eq. intros k.
  apply option_eq. intros v. rewrite map_lookup_filter_Some.
  rewrite <- !elem_of_list_to_map by (done || by apply filter_keys).
  rewrite list_elem_of_filter. cbn. naive_solver.
Qed.

Lemma prune_spec a now :
  alloc_wf a -> alloc_wf (allocator_prune_expired a now) /\
  book_of (allocator_prune_expired a now) = book_prune (book_of a) now.
Proof.
  intros []. split.
  - split; cbn [allocator_prune_expired alloc_set_tables qa_policies qa_leases qa_max_tenants
      qa_max_issued_leases qa_sequence]; try done; [by rewrite len_map|by rewrite held_prune; apply filter_keys|].
    rewrite held_prune. apply Forall_forall. intros e [_ Hin]%list_elem_of_filter.
    by eapply Forall_forall in Hin.
  - unfold book_of, book_prune, with_tables. cbn [allocator_prune_expired alloc_set_tables qa_policies
      qa_leases qa_max_tenants qa_max_issued_leases qa_sequence qa_synchronized qa_epoch qa_required_epoch
      qa_required_sequence bk_max_tenants bk_max_leases bk_synchronized bk_version bk_required bk_caps bk_leases]. by rewrite prune_table.
Qed.

(** *** Commitments *)

Lemma commitments_at slots t i out :
  entries_wf (held lease_kv slots) -> len out = QUOTA_RESOURCE_COUNT ->
  (forall r, r ∈ resources -> 0 <= used_at out r /\
     used_at out r + len (held lease_kv slots) * 4294967295 < 18446744073709551616) ->
  len (commitments_loop slots t None i out) = QUOTA_RESOURCE_COUNT /\
  forall r, r ∈ resources ->
    used_at (commitments_loop slots t None i out) r = used_at out r + total_of (held lease_kv slots) t r.
Proof.
  revert i out. induction slots as [|o slots IH]; intros i out Hwf Hlen Hb.
  { split; [done|]. intros r _. cbn. lia. }
  rewrite held_slot_cons in *. apply Forall_app in Hwf as [Ho Hwf]. cbn [commitments_loop].
  destruct o as [s|]; [|by apply IH]. cbn [of_slot app] in *. rewrite bool_decide_false by done. cbn [orb].
  rewrite len_cons in Hb. apply Forall_cons in Ho as [Ho _]. cbn in Ho.
  destruct (decide (iss_tenant_id s = t)) as [Et|Et].
  - rewrite bool_decide_true by done. cbn [negb].
    destruct (add_limits_at out (iss_limits s) Hlen (proj1 Ho)) as [Hlen' Hadd].
    assert (Hu : forall r, r ∈ resources -> used_at (add_limits out (iss_limits s)) r = used_at out r + used_at (iss_limits s) r).
    { intros r Hr. rewrite (Hadd r Hr). apply u64_id. unfold is_u64.
      pose proof (used_at_range (iss_limits s) r (proj2 Ho)). pose proof (Hb r Hr).
      pose proof (len_nonneg (held lease_kv slots)). lia. }
    destruct (IH (S i) (add_limits out (iss_limits s)) Hwf Hlen') as [H1 H2].
    { intros r Hr. rewrite (Hu r Hr). pose proof (used_at_range (iss_limits s) r (proj2 Ho)).
      pose proof (Hb r Hr). lia. }
    split; [done|]. intros r Hr. rewrite (H2 r Hr), (Hu r Hr). unfold total_of. cbn [foldr lease_kv fst snd].
    rewrite bool_decide_true by done. lia.
  - rewrite bool_decide_false by done. cbn [negb].
    destruct (IH (S i) out Hwf Hlen) as [H1 H2]; [intros r Hr; pose proof (Hb r Hr); lia|].
    split; [done|]. intros r Hr. rewrite (H2 r Hr). unfold total_of. cbn [foldr lease_kv fst snd].
    by rewrite bool_decide_false.
Qed.

(** Leaving a slot out is clearing it. *)
Lemma commitments_exclude slots t j i out :
  commitments_loop slots t (Some (i + j)%nat) i out = commitments_loop (<[j := None]> slots) t None i out.
Proof.
  revert j i out. induction slots as [|o slots IH]; intros j i out; [done|].
  assert (Hlt : forall k l i' o', (k < i')%nat ->
    commitments_loop l t (Some k) i' o' = commitments_loop l t None i' o').
  { clear. intros k l. induction l as [|o l IH]; intros i' o' Hk; [done|]. cbn [commitments_loop].
    rewrite IH by lia. destruct o; [|done].
    by rewrite (bool_decide_false (Some k = Some i')), (bool_decide_false (None = Some i'))
      by (done || intros [=]; lia). }
  destruct j as [|j]; cbn [list_insert insert commitments_loop].
  - rewrite Nat.add_0_r, Hlt by lia. destruct o; [|done]. by rewrite bool_decide_true by done.
  - replace (i + S j)%nat with (S i + j)%nat by lia. rewrite <- IH.
    destruct o; [|done]. by rewrite bool_decide_false by (intros [=]; lia).
Qed.

(** What is committed to a tenant, in a table of at most 4096 slots. *)
Lemma commitments_spec slots t :
  entries_wf (held lease_kv slots) -> NoDup (held lease_kv slots).*1 -> len slots <= QUOTA_MAX_ISSUED_LEASES ->
  len (commitments_loop slots t None 0 zero_limits) = QUOTA_RESOURCE_COUNT /\
  forall r, r ∈ resources ->
    used_at (commitments_loop slots t None 0 zero_limits) r = issued (table lease_kv slots) t r.
Proof.
  intros Hwf Hn Hlen. pose proof (held_len_le lease_kv slots) as Hh. unfold QUOTA_MAX_ISSUED_LEASES in Hlen.
  destruct (commitments_at slots t 0 zero_limits Hwf eq_refl) as [H1 H2].
  { intros r _. rewrite used_at_zero. lia. }
  split; [done|]. intros r Hr. rewrite (H2 r Hr), used_at_zero. unfold table. by rewrite issued_list.
Qed.

Lemma commitments_all a t :
  alloc_wf a ->
  let c := allocator_commitments_for_tenant a t None in
  len c = QUOTA_RESOURCE_COUNT /\
  forall r, r ∈ resources -> used_at c r = issued (bk_leases (book_of a)) t r.
Proof.
  intros Hw. apply commitments_spec; [by apply held_entries_wf|apply Hw|].
  rewrite (aw_leases a Hw). apply (aw_max a Hw).
Qed.

(** Without the lease that would be replaced. *)
Lemma commitments_without a t n :
  alloc_wf a ->
  let c := allocator_commitments_for_tenant a t (fst <$> allocator_find_lease a t n) in
  len c = QUOTA_RESOURCE_COUNT /\
  forall r, r ∈ resources -> used_at c r = issued (delete (t, n) (bk_leases (book_of a))) t r.
Proof.
  intros Hw. pose proof (find_lease_spec a t n Hw) as H. pose proof (commitments_all a t Hw) as Hall.
  destruct (allocator_find_lease a t n) as [[i o]|]; cbn [fmap option_fmap option_map fst].
  - destruct H as (s & -> & Hi & Ek & _). unfold allocator_commitments_for_tenant.
    rewrite (commitments_exclude _ t i 0). destruct (held_clear lease_kv _ _ _ Hi (aw_issued a Hw)) as [Hn Et].
    rewrite Ek in Et. change (bk_leases (book_of a)) with (table lease_kv (qa_leases a)). rewrite <- Et.
    apply commitments_spec; [|done|].
    + pose proof (held_entries_wf a Hw) as He. destruct (held_split lease_kv _ _ _ Hi) as (rest & Hp & Hp').
      rewrite (Hp' None). rewrite Hp in He. by apply Forall_app in He as [_ He].
    + rewrite len_insert, (aw_leases a Hw). apply (aw_max a Hw).
  - rewrite delete_id by done. exact Hall.
Qed.

(* ------------------------------------------------------------------ *)
(** ** Changes *)

Lemma alloc_require_refines a e s :
  alloc_wf a -> alloc_wf (allocator_require_snapshot a e s) /\
  book_of (allocator_require_snapshot a e s) = book_desync (book_of a) (e, s).
Proof.
  intros Hw. unfold allocator_require_snapshot, allocator_version_compare.
  destruct (version_compare_spec e s (qa_required_epoch a) (qa_required_sequence a)) as (_ & -> & _).
  unfold book_desync, demanded. cbn [book_of bk_required].
  destruct Hw. by destruct (version_lt _ (e, s)).
Qed.

(** A change is refined when its body is, at the next version. *)
Lemma at_next_refines a e s now body change :
  alloc_wf a -> is_u64 s ->
  (forall b, e = qa_epoch a -> b = book_prune (book_of a) now -> exists a' rc, body a = Ok (a', rc) /\ alloc_wf a' /\
    match change b with inl b' => (at_version b' (e, s), ALLOC_APPLIED) | inr rc => (b, rc) end = (book_of a', rc)) ->
  exists a' rc, at_next_version a e s body = Ok (a', rc) /\ alloc_wf a' /\
    book_change (book_of a) (e, s) now change = (book_of a', rc).
Proof.
  intros Hw Hs Hbody. unfold at_next_version, book_change, allocator_exact_next, allocator_version_compare.
  cbn [book_of bk_synchronized bk_version fst snd]. fold (book_of a).
  destruct (alloc_require_refines a e s Hw) as [Hwr Hr].
  destruct (qa_synchronized a) eqn:Es; cbn [negb]; [|by rewrite <- Hr; eauto].
  destruct (version_compare_spec e s (qa_epoch a) (qa_sequence a)) as (_ & _ & ->).
  destruct (version_lt _ _); cbn [negb]; [|by eauto]. rewrite next_version by (apply Hw || done).
  case_bool_decide as En; cbn [negb]; [|by rewrite <- Hr; eauto]. apply Hbody; [congruence|done].
Qed.

(** A change of the tables that is applied at version [(e, s)]. *)
Lemma applied_wf a s policies leases :
  alloc_wf a -> is_u64 s -> len policies = qa_max_tenants a -> len leases = qa_max_issued_leases a ->
  NoDup (held policy_kv policies).*1 -> Forall (fun e => limits_wf e.2) (held policy_kv policies) ->
  NoDup (held lease_kv leases).*1 -> Forall entry_wf (held lease_kv leases) ->
  alloc_wf (alloc_set_sequence (alloc_set_tables a policies leases) s).
Proof. intros [] **. by split. Qed.

Lemma applied_book a s policies leases :
  book_of (alloc_set_sequence (alloc_set_tables a policies leases) s) =
  at_version (with_tables (book_of a) (table policy_kv policies) (table lease_kv leases)) (qa_epoch a, s).
Proof. done. Qed.

Lemma upd_nat {A} (l : list A) i x y : l !! i = Some y -> upd l (Z.of_nat i) x = Ok (<[i := x]> l).
Proof.
  intros Hi%lookup_lt_Some. unfold upd, len. rewrite decide_True by lia. by rewrite Nat2Z.id.
Qed.

Lemma held_put_Forall {K V S} (kv : S -> K * V) (P : K * V -> Prop) slots i o s :
  slots !! i = Some o -> Forall P (held kv slots) -> P (kv s) -> Forall P (held kv (<[i := Some s]> slots)).
Proof.
  intros Hi Hall Hs. destruct (held_split kv _ _ _ Hi) as (rest & Hp & Hp'). rewrite Hp'. rewrite Hp in Hall.
  apply Forall_app in Hall as [_ Hall]. by constructor.
Qed.

Lemma set_policy_refines a e s t limits now :
  alloc_wf a -> is_u64 s -> tenant_id_valid (Some t) = true -> limits_wf limits ->
  exists a' rc, quota_allocator_set_policy a e s (Some (Build_quota_policy_t (Some t) limits)) now = Ok (a', rc) /\
    alloc_wf a' /\ book_change (book_of a) (e, s) now (change_policy t limits) = (book_of a', rc).
Proof.
  intros Hw Hs Ht Hl. unfold quota_allocator_set_policy. cbn [allocator_policy_input_valid po_tenant_id].
  rewrite Ht. cbn [negb]. apply at_next_refines; [done..|]. intros b He ->.
  destruct (prune_spec a now Hw) as [Hw1 Hb1]. rewrite <- Hb1. set (a1 := allocator_prune_expired a now) in *.
  cbn [policy_slot po_tenant_id po_limits mbind res_bind ps_tenant_id]. unfold change_policy.
  destruct (commitments_all a1 t Hw1) as [Hc1 Hc2].
  rewrite (exceeds_fits _ _ t limits Hc1 (proj1 Hl) Hc2).
  destruct (fits _ t limits); cbn [negb]; [|by eauto].
  pose proof (chosen_held policy_kv _ t _ (find_policy_spec a1 t Hw1) (aw_caps a1 Hw1)) as Hch. cbn zeta in Hch.
  rewrite (aw_tenants a1 Hw1) in Hch. cbn [ps_tenant_id].
  change (bool_decide _ && _) with (bool_decide (table policy_kv (qa_policies a1) !! t = None) &&
    (qa_max_tenants a1 <=? Z.of_nat (size (table policy_kv (qa_policies a1))))).
  destruct (match fst <$> allocator_find_policy a1 t with Some i => Some i | None => _ end) as [i|];
    [|rewrite Hch; by eauto].
  destruct Hch as [-> (o & Hi & Ho)]. rewrite (upd_nat _ _ _ _ Hi). cbn [mbind res_bind].
  eexists _, _. split; [done|]. set (s0 := Build_policy_slot_t t limits).
  destruct (held_put policy_kv _ _ _ s0 Hi (aw_caps a1 Hw1) Ho) as [Hn Et]. split.
  - apply applied_wf; try done; try apply Hw1; [by rewrite len_insert; apply Hw1|].
    eapply held_put_Forall; [done|apply Hw1|done].
  - by rewrite applied_book, Et, He.
Qed.

Lemma issued_range m t r : leases_wf m -> 0 <= issued m t r <= Z.of_nat (size m) * 4294967295.
Proof.
  intros Hm. rewrite <- (length_map_to_list m). apply (total_of_range _ t r (map_entries_wf m Hm)).
Qed.

Lemma book_leases_wf a : alloc_wf a -> leases_wf (bk_leases (book_of a)).
Proof.
  intros Hw k v Hk. apply elem_of_list_to_map in Hk; [|apply Hw].
  by eapply (proj1 (Forall_forall _ _) (held_entries_wf a Hw)) in Hk.
Qed.

(** What is committed to the tenant once the lease is granted. *)
Lemma grant_sums a t n expires limits :
  alloc_wf a -> limits_wf limits ->
  let c := add_limits (allocator_commitments_for_tenant a t (fst <$> allocator_find_lease a t n)) limits in
  len c = QUOTA_RESOURCE_COUNT /\
  forall r, r ∈ resources -> used_at c r = issued (<[(t, n) := (expires, limits)]> (bk_leases (book_of a))) t r.
Proof.
  intros Hw Hl. destruct (commitments_without a t n Hw) as [Hc1 Hc2].
  destruct (add_limits_at _ _ Hc1 (proj1 Hl)) as [Hc3 Hc4]. split; [done|]. intros r Hr.
  rewrite (Hc4 r Hr), (Hc2 r Hr), issued_insert, bool_decide_true by done. cbn [fst snd]. rewrite Z.add_comm.
  apply u64_id. set (m := delete (t, n) _).
  assert (Hm : leases_wf m) by (intros k v [_ Hk]%lookup_delete_Some; by apply (book_leases_wf a Hw k)).
  pose proof (issued_range m t r Hm). pose proof (used_at_range limits r (proj2 Hl)).
  assert (Hsz : (size m <= size (bk_leases (book_of a)))%nat) by (apply map_subseteq_size, delete_subseteq).
  pose proof (table_size lease_kv _ (aw_issued a Hw)) as Hs. pose proof (held_len_le lease_kv (qa_leases a)).
  rewrite (aw_leases a Hw) in *. pose proof (aw_max a Hw) as [_ Hmax].
  unfold QUOTA_MAX_ISSUED_LEASES in Hmax. cbn [bk_leases book_of] in Hsz. unfold is_u64. lia.
Qed.

Lemma grant_refines a e s t n expires limits now :
  alloc_wf a -> is_u64 s -> 0 <= now -> entry_wf ((t, n), (expires, limits)) -> now < expires ->
  exists a' rc, quota_allocator_grant a e s (Some (Build_quota_lease_t (Some t) (Some n) expires limits)) now =
      Ok (a', rc) /\ alloc_wf a' /\
    book_change (book_of a) (e, s) now (change_grant ((t, n), (expires, limits))) = (book_of a', rc).
Proof.
  intros Hw Hs Hnow Hentry Hexp. pose proof Hentry as (Ht & Hnode & _ & Hl). cbn [fst snd] in Ht, Hnode, Hl.
  unfold quota_allocator_grant, allocator_lease_input_valid. cbn [le_tenant_id le_node_id le_expires_at_unix_ms].
  rewrite Ht, Hnode. replace (now <? expires) with true by lia. cbn [andb negb].
  apply at_next_refines; [done..|]. intros b He ->.
  destruct (prune_spec a now Hw) as [Hw1 Hb1]. rewrite <- Hb1. set (a1 := allocator_prune_expired a now) in *.
  cbn [issued_slot le_tenant_id le_node_id le_limits le_expires_at_unix_ms mbind res_bind iss_tenant_id iss_node_id].
  unfold change_grant. cbn [fst snd].
  pose proof (find_policy_spec a1 t Hw1) as Hf. destruct (allocator_find_policy a1 t) as [[ip op]|]; [|rewrite Hf; by eauto].
  destruct Hf as (policy & -> & Hip & Et & Hcap). rewrite Hcap. cbn [snd].
  destruct (grant_sums a1 t n expires limits Hw1 Hl) as [Hc1 Hc2].
  assert (Hp : limits_wf (ps_limits policy)).
  { destruct (held_split policy_kv _ _ _ Hip) as (rest & Hperm & _). pose proof (aw_caps_wf a1 Hw1) as Hall.
    rewrite Hperm in Hall. by apply Forall_cons in Hall as [Hall _]. }
  rewrite (exceeds_fits _ (<[(t, n) := (expires, limits)]> (bk_leases (book_of a1))) t _ Hc1 (proj1 Hp) Hc2).
  destruct (fits _ t _); cbn [negb]; [|by eauto].
  pose proof (chosen_held lease_kv _ (t, n) _ (find_lease_spec a1 t n Hw1) (aw_issued a1 Hw1)) as Hch. cbn zeta in Hch.
  rewrite (aw_leases a1 Hw1) in Hch.
  change (bool_decide _ && _) with (bool_decide (table lease_kv (qa_leases a1) !! (t, n) = None) &&
    (qa_max_issued_leases a1 <=? Z.of_nat (size (table lease_kv (qa_leases a1))))).
  destruct (match fst <$> allocator_find_lease a1 t n with Some i => Some i | None => _ end) as [i|];
    [|rewrite Hch; by eauto].
  destruct Hch as [-> (o & Hi & Ho)]. rewrite (upd_nat _ _ _ _ Hi). cbn [mbind res_bind].
  eexists _, _. split; [done|]. set (s0 := Build_issued_slot_t t n expires limits).
  destruct (held_put lease_kv _ _ _ s0 Hi (aw_issued a1 Hw1) Ho) as [Hn Et'']. split.
  - apply applied_wf; try done; try apply Hw1; [by rewrite len_insert; apply Hw1|].
    eapply held_put_Forall; [done|apply Hw1|done].
  - by rewrite applied_book, Et'', He.
Qed.

Lemma revoke_refines a e s t n now :
  alloc_wf a -> is_u64 s -> tenant_id_valid (Some t) = true -> node_id_valid (Some n) = true ->
  exists a' rc, quota_allocator_revoke a e s (Some t) (Some n) now = Ok (a', rc) /\ alloc_wf a' /\
    book_change (book_of a) (e, s) now (change_revoke (t, n)) = (book_of a', rc).
Proof.
  intros Hw Hs Ht Hnode. unfold quota_allocator_revoke. rewrite Ht, Hnode. cbn [negb orb].
  apply at_next_refines; [done..|]. intros b He ->.
  destruct (prune_spec a now Hw) as [Hw1 Hb1]. rewrite <- Hb1. set (a1 := allocator_prune_expired a now) in *.
  unfold change_revoke. pose proof (find_lease_spec a1 t n Hw1) as Hf.
  destruct (allocator_find_lease a1 t n) as [[i o]|]; [|rewrite Hf, bool_decide_true by done; by eauto].
  destruct Hf as (s0 & -> & Hi & Ek & ->). rewrite bool_decide_false by done.
  cbn [fst]. rewrite (upd_nat _ _ _ _ Hi). cbn [mbind res_bind]. eexists _, _. split; [done|].
  destruct (held_clear lease_kv _ _ _ Hi (aw_issued a1 Hw1)) as [Hn Et]. split.
  - apply applied_wf; try done; try apply Hw1; [by rewrite len_insert; apply Hw1|].
    destruct (held_split lease_kv _ _ _ Hi) as (rest & Hp & Hp'). rewrite (Hp' None).
    pose proof (aw_issued_wf a1 Hw1) as Hall. rewrite Hp in Hall. by apply Forall_app in Hall as [_ Hall].
  - by rewrite applied_book, Et, Ek, He.
Qed.

(* ------------------------------------------------------------------ *)
(** ** Snapshots *)

Lemma existsb_keys {A K} `{EqDecision K} (f : A -> bool) (key : A -> option K) k prev ks :
  (forall q, f q = bool_decide (key q = Some k)) -> key <$> prev = Some <$> ks ->
  existsb f prev = bool_decide (k ∈ ks).
Proof.
  intros Hf. revert ks. induction prev as [|q prev IH]; intros [|u ks] E; try done.
  injection E as Eq E. cbn [existsb]. rewrite Hf, Eq, (IH ks E). rewrite <- bool_decide_or.
  apply bool_decide_ext. rewrite elem_of_cons. naive_solver.
Qed.

(** A key that was seen before. *)
Lemma NoDup_seen {A} (l l' : list A) x : x ∈ l -> ~ NoDup (l ++ x :: l').
Proof. intros Hx Hn. apply NoDup_app in Hn as (_ & Hd & _). apply (Hd x Hx). by left. Qed.

Lemma policy_entry_spec p :
  match policy_entry p with
  | Some c => allocator_policy_input_valid (Some p) = true /\ po_tenant_id p = Some c.1 /\ po_limits p = c.2
  | None => allocator_policy_input_valid (Some p) = false
  end.
Proof.
  unfold policy_entry, allocator_policy_input_valid. destruct (po_tenant_id p) as [t|]; cbn [mbind option_bind]; [|done].
  by destruct (tenant_id_valid (Some t)).
Qed.

Lemma policies_valid_spec prev kp ps :
  po_tenant_id <$> prev = Some <$> kp -> NoDup kp ->
  policies_valid_loop prev ps =
  match mapM policy_entry ps with Some cs => bool_decide (NoDup (kp ++ cs.*1)) | None => false end.
Proof.
  revert prev kp. induction ps as [|p ps IH]; intros prev kp E Hn; cbn [policies_valid_loop].
  { cbn. by rewrite app_nil_r, bool_decide_true. }
  change (mapM policy_entry (p :: ps)) with (c ← policy_entry p; cs ← mapM policy_entry ps; Some (c :: cs)).
  pose proof (policy_entry_spec p) as Hp. destruct (policy_entry p) as [[t cap]|]; [|by rewrite Hp].
  destruct Hp as (-> & Et & _). cbn [negb mbind option_bind fst] in *.
  rewrite (existsb_keys _ po_tenant_id t prev kp) by (done || intros q; by rewrite Et).
  case_bool_decide as Hin.
  - destruct (mapM policy_entry ps); [|done]. cbn [mbind option_bind fmap list_fmap fst].
    by rewrite bool_decide_false by by apply NoDup_seen.
  - rewrite (IH (prev ++ [p]) (kp ++ [t])).
    + destruct (mapM policy_entry ps); [|done]. cbn [mbind option_bind]. by rewrite <- app_assoc.
    + rewrite !fmap_app, E. cbn. by rewrite Et.
    + by apply NoDup_snoc.
Qed.

Lemma entry_of_spec now l :
  match entry_of now l with
  | Some e => allocator_lease_input_valid (Some l) now = true /\ le_tenant_id l = Some e.1.1 /\
      le_node_id l = Some e.1.2 /\ e.2 = (le_expires_at_unix_ms l, le_limits l) /\
      tenant_id_valid (Some e.1.1) = true /\ node_id_valid (Some e.1.2) = true /\ now < le_expires_at_unix_ms l
  | None => allocator_lease_input_valid (Some l) now = false
  end.
Proof.
  unfold entry_of, allocator_lease_input_valid. destruct (le_tenant_id l) as [t|]; cbn [mbind option_bind]; [|done].
  destruct (le_node_id l) as [n|]; cbn [mbind option_bind]; [|by destruct (tenant_id_valid _)].
  destruct (tenant_id_valid (Some t)) eqn:Et; [|done]. destruct (node_id_valid (Some n)) eqn:En; [|done].
  cbn [andb]. destruct (Z.ltb_spec now (le_expires_at_unix_ms l)); [|done].
  cbn [fst snd]. by split_and!.
Qed.

Lemma mapM_entries_wf now ls es :
  Forall (fun l => limits_wf (le_limits l)) ls -> mapM (entry_of now) ls = Some es -> entries_wf es.
Proof.
  intros Hls Hes%mapM_Some. induction Hes as [|l e ls es He _ IH]; [constructor|].
  apply Forall_cons in Hls as [Hl Hls]. constructor; [|by apply IH].
  pose proof (entry_of_spec now l) as H. rewrite He in H. destruct H as (_ & _ & _ & -> & _). done.
Qed.

Definition lease_key (l : quota_lease_t) : option (string * string) :=
  t ← le_tenant_id l; n ← le_node_id l; Some (t, n).

Lemma same_lease q l t n :
  le_tenant_id l = Some t -> le_node_id l = Some n ->
  bool_decide (le_tenant_id q = le_tenant_id l) && bool_decide (le_node_id q = le_node_id l) =
  bool_decide (lease_key q = Some (t, n)).
Proof.
  intros -> ->. rewrite <- bool_decide_and. apply bool_decide_ext. unfold lease_key.
  destruct (le_tenant_id q), (le_node_id q); naive_solver.
Qed.

(** Row [i] of the sums is that of cap [i] over the entries so far, within the cap. *)
Definition totals_are (cs : list (string * list Z)) (totals : list (list Z)) (es : list lease_entry) : Prop :=
  forall i t cap, cs !! i = Some (t, cap) ->
    exists row, totals !! i = Some row /\ len row = QUOTA_RESOURCE_COUNT /\
      forall r, r ∈ resources -> used_at row r = total_of es t r /\ total_of es t r <= used_at cap r.

(** The leases [es], after [before], have keys of their own and fit the caps. *)
Definition admissible (cs : list (string * list Z)) (before es : list lease_entry) : Prop :=
  NoDup (before ++ es).*1 /\ (forall e, e ∈ es -> e.1.1 ∈ cs.*1) /\
  forall t cap r, (t, cap) ∈ cs -> r ∈ resources -> total_of (before ++ es) t r <= used_at cap r.

Section leases.
Context (ps : list quota_policy_t) (cs : list (string * list Z)).
Hypothesis policies_are : Forall2 (fun p c => po_tenant_id p = Some c.1 /\ po_limits p = c.2) ps cs.
Hypothesis caps_once : NoDup cs.*1.
Hypothesis caps_wf : Forall (fun c => limits_wf c.2) cs.

Lemma input_policy_spec t :
  match allocator_input_policy_find ps (Some t) with
  | Some (i, p) => cs !! i = Some (t, po_limits p)
  | None => t ∉ cs.*1
  end.
Proof.
  unfold allocator_input_policy_find. destruct (list_find _ ps) as [[i p]|] eqn:E.
  - apply list_find_Some in E as (Hi & Ht & _).
    destruct (Forall2_lookup_l _ _ _ _ _ policies_are Hi) as ([t' cap] & Hc & E1 & E2). cbn in *. congruence.
  - apply list_find_None in E. intros ([t' cap] & -> & [i Hi]%list_elem_of_lookup)%list_elem_of_fmap.
    destruct (Forall2_lookup_r _ _ _ _ _ policies_are Hi) as (p & Hp & E1 & _).
    by apply (Forall_lookup_1 _ _ _ _ E Hp).
Qed.

(** One more lease for tenant [t], at row [i]. *)
Lemma totals_sum totals es e i cap row :
  totals_are cs totals es -> entries_wf es -> limits_wf e.2.2 -> cs !! i = Some (e.1.1, cap) ->
  totals !! i = Some row ->
  len (add_limits row e.2.2) = QUOTA_RESOURCE_COUNT /\ len cap = QUOTA_RESOURCE_COUNT /\
  forall r, r ∈ resources -> used_at (add_limits row e.2.2) r = total_of (es ++ [e]) e.1.1 r.
Proof.
  intros Ht Hes He Hi Hrow. destruct (Ht i _ _ Hi) as (row' & E & Hlen & Hr).
  rewrite Hrow in E. injection E as <-. destruct (add_limits_at row e.2.2 Hlen (proj1 He)) as [Hlen' Hadd].
  assert (Hcap : limits_wf cap) by by apply (Forall_lookup_1 _ _ _ _ caps_wf Hi).
  split; [done|]. split; [apply Hcap|].
  intros r Hin. destruct (Hr r Hin) as [E1 E2]. rewrite (Hadd r Hin), E1, total_of_snoc, bool_decide_true by done.
  apply u64_id. unfold is_u64. pose proof (used_at_range cap r (proj2 Hcap)).
  pose proof (used_at_range e.2.2 r (proj2 He)). pose proof (total_of_range es e.1.1 r Hes). lia.
Qed.

Lemma totals_next totals es e i cap row :
  totals_are cs totals es -> entries_wf es -> limits_wf e.2.2 -> cs !! i = Some (e.1.1, cap) ->
  totals !! i = Some row -> exceeds (add_limits row e.2.2) cap = false ->
  totals_are cs (<[i := add_limits row e.2.2]> totals) (es ++ [e]).
Proof.
  intros Ht Hes He Hi Hrow. destruct (totals_sum totals es e i cap row Ht Hes He Hi Hrow) as (Hlen & Hlc & Hsum).
  intros Hx j t cap' Hj. rewrite (exceeds_false _ _ Hlen Hlc) in Hx. destruct (decide (j = i)) as [->|Hne].
  - rewrite Hi in Hj. injection Hj as <- <-. exists (add_limits row e.2.2).
    rewrite list_lookup_insert_eq by by eapply lookup_lt_Some. split; [done|]. split; [done|].
    intros r Hin. rewrite <- (Hsum r Hin). split; [done|by apply Hx].
  - destruct (Ht j t cap' Hj) as (row2 & E & Hl2 & H2). exists row2. rewrite list_lookup_insert_ne by done.
    split; [done|]. split; [done|]. intros r Hin.
    rewrite total_of_snoc, bool_decide_false, Z.add_0_r; [by apply H2|]. intros <-.
    apply Hne. apply (NoDup_lookup _ _ _ _ caps_once (list_lookup_fmap_Some_2 fst cs j _ Hj)
                        (list_lookup_fmap_Some_2 fst cs i _ Hi)).
Qed.

(** A sum that exceeds its cap stays above it. *)
Lemma exceeds_refused totals es e i cap row rest :
  totals_are cs totals es -> entries_wf es -> limits_wf e.2.2 -> cs !! i = Some (e.1.1, cap) ->
  totals !! i = Some row -> exceeds (add_limits row e.2.2) cap = true -> entries_wf rest ->
  ~ admissible cs es (e :: rest).
Proof.
  intros Ht Hes He Hi Hrow Hx Hrest (_ & _ & H).
  destruct (totals_sum totals es e i cap row Ht Hes He Hi Hrow) as (Hlen & Hlc & Hsum).
  apply not_false_iff_true in Hx. apply Hx, (exceeds_false _ _ Hlen Hlc). intros r Hr. rewrite (Hsum r Hr).
  specialize (H _ _ r (list_elem_of_lookup_2 _ _ _ Hi) Hr). change (e :: rest) with ([e] ++ rest) in H.
  rewrite app_assoc, total_of_app in H. pose proof (total_of_range rest e.1.1 r Hrest).
  apply (Z.le_trans _ (total_of (es ++ [e]) e.1.1 r + total_of rest e.1.1 r)); [lia|exact H].
Qed.

(** Adding an entry that fits leaves the same to check. *)
Lemma admissible_next es e rest :
  NoDup (es ++ [e]).*1 -> e.1.1 ∈ cs.*1 ->
  admissible cs es (e :: rest) <-> admissible cs (es ++ [e]) rest.
Proof.
  intros Hn Ht. unfold admissible. change (e :: rest) with ([e] ++ rest). rewrite app_assoc.
  split; intros (H1 & H2 & H3); (split; [done|]; split; [|done]); intros e' Hin.
  - apply H2. apply elem_of_app. by right.
  - apply elem_of_app in Hin as [->%list_elem_of_singleton|Hin]; [done|by apply H2].
Qed.

Lemma leases_valid_spec now ls totals prev es :
  totals_are cs totals es -> entries_wf es -> lease_key <$> prev = Some <$> es.*1 -> NoDup es.*1 ->
  Forall (fun l => limits_wf (le_limits l)) ls ->
  exists b, leases_valid_loop ps totals prev ls now = Ok b /\
    (b = true <-> exists rest, mapM (entry_of now) ls = Some rest /\ admissible cs es rest).
Proof.
  revert totals prev es. induction ls as [|l ls IH]; intros totals prev es Ht Hes Hprev Hn Hls.
  { exists true. split; [done|]. split; [|done]. intros _. exists []. split; [done|]. unfold admissible.
    rewrite app_nil_r. split; [done|]. split; [by intros e ?%not_elem_of_nil|].
    intros t cap r [i Hi]%list_elem_of_lookup Hr. destruct (Ht i _ _ Hi) as (row & _ & _ & H). by apply H. }
  apply Forall_cons in Hls as [Hl Hls]. cbn [leases_valid_loop].
  change (mapM (entry_of now) (l :: ls)) with (e ← entry_of now l; rest ← mapM (entry_of now) ls; Some (e :: rest)).
  pose proof (entry_of_spec now l) as He. destruct (entry_of now l) as [e|]; [|rewrite He; exists false; by split; [|split; [|intros (? & [=] & _)]]].
  destruct He as (-> & Et & En & Ee & _). cbn [negb].
  rewrite (existsb_keys _ lease_key e.1 prev es.*1) by (done || intros q; rewrite (same_lease q l _ _ Et En); by destruct e as [[] ?]).
  assert (Hfail : (forall rest, entries_wf rest -> ~ admissible cs es (e :: rest)) ->
    exists b, Ok false = Ok b /\ (b = true <-> exists rest,
      (rest ← mapM (entry_of now) ls; Some (e :: rest)) = Some rest /\ admissible cs es rest)).
  { intros H. exists false. split; [done|]. split; [done|]. intros (rest & E & Hadm).
    destruct (mapM _ ls) as [rest'|] eqn:Em; [|done]. injection E as <-. exfalso. eapply H; [by eapply mapM_entries_wf|done]. }
  cbn [mbind option_bind]. case_bool_decide as Hin.
  { apply Hfail. intros rest _ (H & _). rewrite fmap_app in H. by eapply NoDup_seen. }
  rewrite Et. pose proof (input_policy_spec e.1.1) as Hp.
  destruct (allocator_input_policy_find ps (Some e.1.1)) as [[i p]|].
  2: { apply Hfail. intros rest _ (_ & H & _). apply Hp, (H e). by left. }
  destruct (Ht i _ _ Hp) as (row & Hrow & _). cbn [fst snd]. rewrite Hrow.
  assert (Elim : le_limits l = e.2.2) by (by rewrite Ee). rewrite Elim in *.
  destruct (exceeds _ (po_limits p)) eqn:Ex; [apply Hfail; intros rest; by eapply exceeds_refused|].
  pose proof (totals_next totals es e i _ row Ht Hes Hl Hp Hrow Ex) as Hnext.
  assert (Hn' : NoDup (es ++ [e]).*1) by (rewrite fmap_app; by apply NoDup_snoc).
  assert (Hes' : entries_wf (es ++ [e])) by (apply Forall_app; split; [done|by constructor]).
  destruct (IH _ (prev ++ [l]) (es ++ [e]) Hnext Hes') as (b & -> & Hb); [|done|done|].
  { rewrite !fmap_app, Hprev. cbn. unfold lease_key. rewrite Et, En. by destruct e as [[] ?]. }
  exists b. split; [done|]. rewrite Hb.
  assert (Htc : e.1.1 ∈ cs.*1) by (apply list_elem_of_fmap; exists (e.1.1, po_limits p); split; [done|by eapply list_elem_of_lookup_2]).
  destruct (mapM _ ls) as [rest|]; [|by split; intros (? & [=] & _)].
  split; intros (r & [= <-] & H); eexists; (split; [done|]); by apply (admissible_next es e rest Hn' Htc).
Qed.
End leases.

Lemma total_none es t r : t ∉ es.*1.*1 -> total_of es t r = 0.
Proof.
  unfold total_of. induction es as [|e es IH]; [done|]. cbn [fmap list_fmap]. intros [Hne Hin]%not_elem_of_cons.
  cbn [foldr]. rewrite bool_decide_false by done. by rewrite IH.
Qed.

Lemma covered_admissible cs es :
  NoDup cs.*1 -> Forall (fun c => limits_wf c.2) cs -> NoDup es.*1 ->
  covered (list_to_map cs) (list_to_map es) <-> admissible cs [] es.
Proof.
  intros Hc Hwf Hn. unfold admissible, covered. cbn [app].
  assert (Hcap : forall t cap, (list_to_map cs : gmap string (list Z)) !! t = Some cap <-> (t, cap) ∈ cs).
  { intros t cap. symmetry. by apply elem_of_list_to_map. }
  split.
  - intros H. assert (He : forall e, e ∈ es -> exists cap, (e.1.1, cap) ∈ cs /\
      forall r, r ∈ resources -> total_of es e.1.1 r <= used_at cap r).
    { intros [k v] Hin. destruct (H k v) as (cap & E & Hf); [by apply elem_of_list_to_map|].
      exists cap. split; [by apply Hcap|]. setoid_rewrite fits_spec in Hf. intros r Hr. rewrite <- issued_list by done. by apply Hf. }
    split; [done|]. split.
    + intros e Hin. destruct (He e Hin) as (cap & Hin' & _). apply list_elem_of_fmap. by exists (e.1.1, cap).
    + intros t cap r Ht Hr. destruct (decide (t ∈ es.*1.*1)) as [Hin|Hin].
      * apply list_elem_of_fmap in Hin as (k & -> & (e & -> & Hin)%list_elem_of_fmap).
        destruct (He e Hin) as (cap' & Ht' & H'). apply Hcap in Ht, Ht'. rewrite Ht in Ht'. injection Ht' as <-. by apply H'.
      * rewrite total_none by done. apply (used_at_range cap r). eapply Forall_forall in Hwf; [|exact Ht]. apply Hwf.
  - intros (_ & Ht & Hall) k v Hk. apply elem_of_list_to_map in Hk; [|done].
    pose proof (Ht _ Hk) as ([t cap] & Et & Hin)%list_elem_of_fmap. cbn [fst] in Et. exists cap. rewrite Et.
    split; [by apply Hcap|]. apply fits_spec. intros r Hr. rewrite issued_list by done. by apply (Hall t cap r).
Qed.

Lemma copy_slots_spec {A B} (slot : A -> res B) input outs n pre :
  Forall2 (fun x s => slot x = Ok s) input outs -> (length input <= n)%nat ->
  copy_slots slot input (pre ++ replicate n None) (len pre) =
  Ok (pre ++ (Some <$> outs) ++ replicate (n - length input) None).
Proof.
  intros H. revert n pre. induction H as [|x s input outs Hx _ IH]; intros n pre Hn.
  { cbn [copy_slots fmap list_fmap app length]. by rewrite Nat.sub_0_r. }
  cbn [copy_slots]. rewrite Hx. cbn [mbind res_bind]. cbn [length] in Hn. destruct n as [|n]; [lia|].
  cbn [replicate]. rewrite upd_mid by done. cbn [mbind res_bind].
  replace (len pre + 1) with (len (pre ++ [Some s])) by (rewrite len_app; done).
  replace (pre ++ Some s :: replicate n None) with ((pre ++ [Some s]) ++ replicate n None) by by rewrite <- app_assoc.
  rewrite IH by lia. by rewrite <- app_assoc.
Qed.

Lemma held_copied {K V S} (kv : S -> K * V) outs n :
  held kv ((Some <$> outs) ++ replicate n None) = kv <$> outs.
Proof.
  induction outs as [|s outs IH]; cbn [fmap list_fmap app]; [|by rewrite held_slot_cons, IH].
  induction n as [|n IH]; [done|]. cbn [replicate]. by rewrite held_slot_cons.
Qed.

Lemma policy_slots_of ps cs :
  mapM policy_entry ps = Some cs ->
  exists outs, Forall2 (fun p s => policy_slot p = Ok s) ps outs /\ policy_kv <$> outs = cs /\
    Forall2 (fun p c => po_tenant_id p = Some c.1 /\ po_limits p = c.2) ps cs.
Proof.
  intros H%mapM_Some. induction H as [|p c ps cs Hp _ (outs & H1 & H2 & H3)]; [by exists []|].
  pose proof (policy_entry_spec p) as Hs. rewrite Hp in Hs. destruct Hs as (_ & Et & El).
  exists (Build_policy_slot_t c.1 c.2 :: outs). split; [constructor; [|done]|split; [|by constructor]].
  - unfold policy_slot. by rewrite Et, El.
  - cbn. rewrite H2. by destruct c.
Qed.

Lemma issued_slots_of now ls es :
  0 <= now -> mapM (entry_of now) ls = Some es -> Forall (fun l => limits_wf (le_limits l)) ls ->
  exists outs, Forall2 (fun l s => issued_slot l = Ok s) ls outs /\ lease_kv <$> outs = es /\ Forall entry_wf es.
Proof.
  intros Hnow H%mapM_Some. induction H as [|l e ls es Hl _ IH]; intros Hwf; [by exists []|].
  apply Forall_cons in Hwf as [Hw Hwf]. destruct (IH Hwf) as (outs & H1 & H2 & H3).
  pose proof (entry_of_spec now l) as Hs. rewrite Hl in Hs. destruct Hs as (_ & Et & En & Ee & Ht & Hnode & Hexp).
  exists (Build_issued_slot_t e.1.1 e.1.2 e.2.1 e.2.2 :: outs). split; [constructor; [|done]|split; [|constructor; [|done]]].
  - unfold issued_slot. by rewrite Et, En, Ee.
  - cbn. rewrite H2. by destruct e as [[] []].
  - split; [done|]. split; [done|]. rewrite Ee. cbn. split; [lia|done].
Qed.

(** What a snapshot must be to be taken. *)
Definition snapshot_fits (a : allocator_t) (ps : list quota_policy_t) (ls : list quota_lease_t) (now : Z)
    (cs : list (string * list Z)) (es : list lease_entry) : Prop :=
  mapM policy_entry ps = Some cs /\ mapM (entry_of now) ls = Some es /\
  len ps <= qa_max_tenants a /\ len ls <= qa_max_issued_leases a /\ NoDup cs.*1 /\ NoDup es.*1 /\
  covered (list_to_map cs) (list_to_map es).

Lemma snapshot_tables_spec a ps ls now :
  match snapshot_tables (book_of a) ps ls now with
  | Some (caps, leases) => exists cs es, snapshot_fits a ps ls now cs es /\ caps = list_to_map cs /\ leases = list_to_map es
  | None => forall cs es, ~ snapshot_fits a ps ls now cs es
  end.
Proof.
  unfold snapshot_tables, snapshot_fits. destruct (mapM policy_entry ps) as [cs|]; cbn [mbind option_bind]; [|by intros ? ? (? & _)].
  destruct (mapM (entry_of now) ls) as [es|]; cbn [mbind option_bind]; [|by intros ? ? (_ & ? & _)].
  case_bool_decide as H; [by exists cs, es|]. by intros ? ? ([= <-] & [= <-] & ?).
Qed.

Lemma policy_caps_wf (ps : list quota_policy_t) (cs : list (string * list Z)) :
  Forall2 (fun p c => po_tenant_id p = Some c.1 /\ po_limits p = c.2) ps cs ->
  Forall (fun p => limits_wf (po_limits p)) ps -> Forall (fun c => limits_wf c.2) cs.
Proof.
  induction 1 as [|p c ps cs [_ E] _ IH]; intros Hps; [constructor|].
  apply Forall_cons in Hps as [Hp Hps]. constructor; [by rewrite <- E|by apply IH].
Qed.

Lemma alloc_snapshot_valid_spec a ps ls now mem :
  alloc_wf a -> Forall (fun p => limits_wf (po_limits p)) ps -> Forall (fun l => limits_wf (le_limits l)) ls ->
  exists b, snapshot_valid a (Some ps) (len ps) (Some ls) (len ls) now mem = Ok b /\
    (b = true <-> (mem || (len ps =? 0) = true /\ exists cs es, snapshot_fits a ps ls now cs es)).
Proof.
  intros Hw Hps Hls. pose proof (aw_max a Hw) as [Hm1 Hm2]. unfold snapshot_valid, allocator_policy_snapshot_valid.
  rewrite bool_decide_false, andb_false_r by done. cbn [orb].
  assert (Hfail : (forall cs es, ~ snapshot_fits a ps ls now cs es) \/ mem || (len ps =? 0) = false ->
    exists b, Ok false = Ok b /\ (b = true <-> (mem || (len ps =? 0) = true /\ exists cs es, snapshot_fits a ps ls now cs es))).
  { intros H. exists false. split; [done|]. split; [done|]. intros (E & cs & es & H').
    destruct H as [H|H]; [by destruct (H cs es)|congruence]. }
  destruct ((qa_max_tenants a <? len ps) || (QUOTA_MAX_TENANTS <? len ps)) eqn:E1; cbn [mbind res_bind negb].
  { apply Hfail. left. intros cs es (_ & _ & ? & _). lia. }
  change (default [] (Some ps)) with ps. rewrite !rd_slice_all by done. cbn [mbind res_bind].
  rewrite (policies_valid_spec [] []) by (done || constructor). cbn [app].
  destruct (mapM policy_entry ps) as [cs|] eqn:Ecs; cbn [negb].
  2: { apply Hfail. left. intros cs es (? & _). congruence. }
  case_bool_decide as Hn; cbn [negb].
  2: { apply Hfail. left. intros cs' es (? & _ & _ & _ & ? & _). congruence. }
  unfold allocator_snapshot_leases_valid. rewrite bool_decide_false, andb_false_r by done. cbn [orb].
  destruct ((qa_max_issued_leases a <? len ls) || (QUOTA_MAX_ISSUED_LEASES <? len ls)) eqn:E2.
  { apply Hfail. left. intros ? ? (_ & _ & _ & ? & _). lia. }
  pose proof (len_nonneg ps). destruct ((0 <? len ps) && negb mem) eqn:E3; [apply Hfail; right; lia|].
  change (default [] (Some ls)) with ls. rewrite rd_slice_all by done. cbn [mbind res_bind].
  destruct (policy_slots_of ps cs Ecs) as (_ & _ & _ & Hcs).
  pose proof (policy_caps_wf ps cs Hcs Hps) as Hcw.
  destruct (leases_valid_spec ps cs Hcs Hn Hcw now ls (replicate (length ps) zero_limits) [] []) as (b & Eb & Hb);
    [|constructor|done|constructor|done|].
  - intros i t cap Hi. exists zero_limits.
    rewrite lookup_replicate_2 by (rewrite (Forall2_length _ _ _ Hcs); by eapply lookup_lt_Some).
    split; [done|]. split; [done|]. intros r _. rewrite used_at_zero. split; [done|].
    apply (used_at_range cap r). apply (Forall_lookup_1 _ _ _ _ Hcw Hi).
  - exists b. split; [exact Eb|]. rewrite Hb. split.
    + intros (es & Ees & Hadm). split; [lia|]. exists cs, es. pose proof (proj1 Hadm) as Hne. cbn in Hne.
      unfold snapshot_fits. split_and!; try done; [lia..|]. by apply covered_admissible.
    + intros (_ & cs' & es & (E & Ees & _ & _ & _ & Hne & Hcov)). exists es. split; [done|].
      rewrite Ecs in E. injection E as <-. by apply covered_admissible.
Qed.

Lemma alloc_snapshot_refines a e s ps ls now mem :
  alloc_wf a -> is_u64 s -> 0 <= now -> Forall (fun p => limits_wf (po_limits p)) ps ->
  Forall (fun l => limits_wf (le_limits l)) ls ->
  exists a' rc,
    quota_allocator_apply_snapshot a e s (Some ps) (len ps) (Some ls) (len ls) now mem = Ok (a', rc) /\
    alloc_wf a' /\
    book_snapshot (book_of a) (e, s) ps ls now ((mem.1 || (len ps =? 0)) && mem.2) = (book_of a', rc).
Proof.
  intros Hw Hs Hnow Hps Hls. unfold quota_allocator_apply_snapshot, book_snapshot, allocator_version_compare.
  cbn [fst snd]. destruct (e =? 0); [by eauto|].
  cbn [book_of bk_synchronized bk_version bk_required fst]. fold (book_of a).
  destruct (alloc_require_refines a e s Hw) as [Hwr Hr]. rewrite <- Hr.
  destruct (version_compare_spec e s (qa_epoch a) (qa_sequence a)) as (_ & _ & ->).
  destruct (qa_synchronized a && _); [by eauto|].
  destruct (version_compare_spec e s (qa_required_epoch a) (qa_required_sequence a)) as (-> & _ & _).
  destruct (negb (qa_synchronized a) && _ && _); [by eauto|].
  destruct (alloc_snapshot_valid_spec a ps ls now mem.1 Hw Hps Hls) as (b & -> & Hb). cbn [mbind res_bind].
  pose proof (snapshot_tables_spec a ps ls now) as Ht.
  destruct (snapshot_tables (book_of a) ps ls now) as [[caps leases]|].
  2: { destruct b; cbn [negb]; [|by eauto]. destruct (proj1 Hb eq_refl) as (_ & cs & es & H). by destruct (Ht cs es). }
  destruct Ht as (cs & es & Hfit & -> & ->).
  assert (b = (mem.1 || (len ps =? 0))) as ->.
  { apply eq_true_iff_eq. rewrite Hb. split; [by intros []|]. intros H. split; [done|]. by exists cs, es. }
  destruct (mem.1 || (len ps =? 0)); cbn [negb andb]; [|by eauto]. destruct mem.2; cbn [negb]; [|by eauto].
  destruct Hfit as (Ecs & Ees & Hlp & Hll & Hnc & Hne & _).
  change (default [] (Some ps)) with ps. change (default [] (Some ls)) with ls.
  rewrite !rd_slice_all by done. cbn [mbind res_bind].
  destruct (policy_slots_of ps cs Ecs) as (outs & Ho & Eo & Hcs).
  destruct (issued_slots_of now ls es Hnow Ees Hls) as (outs' & Ho' & Eo' & Hes).
  pose proof (copy_slots_spec policy_slot ps outs (Z.to_nat (qa_max_tenants a)) [] Ho ltac:(unfold len in Hlp; lia)) as E1.
  pose proof (copy_slots_spec issued_slot ls outs' (Z.to_nat (qa_max_issued_leases a)) [] Ho' ltac:(unfold len in Hll; lia)) as E2.
  cbn [app] in E1, E2. change (len []) with 0 in E1, E2. rewrite E1, E2. cbn [mbind res_bind].
  eexists _, _. split; [done|]. pose proof (aw_max a Hw) as Hmax.
  pose proof (Forall2_length _ _ _ Ho). pose proof (Forall2_length _ _ _ Ho').
  split.
  - split; cbn [alloc_set_version alloc_set_tables qa_policies qa_leases qa_max_tenants qa_max_issued_leases qa_sequence];
      rewrite ?held_copied, ?Eo, ?Eo'; try done; [len_lia..|]. by apply (policy_caps_wf ps).
  - unfold book_of. cbn [alloc_set_version alloc_set_tables qa_policies qa_leases qa_max_tenants qa_max_issued_leases
      qa_sequence qa_epoch qa_synchronized qa_required_epoch qa_required_sequence].
    unfold table. by rewrite !held_copied, Eo, Eo'.
Qed.

Lemma read_refines a valid now :
  alloc_wf a -> alloc_wf (if valid && qa_synchronized a then allocator_prune_expired a now else a) /\
  book_of (if valid && qa_synchronized a then allocator_prune_expired a now else a) = book_read (book_of a) valid now.
Proof.
  intros Hw. unfold book_read. cbn [book_of bk_synchronized]. fold (book_of a).
  destruct (valid && _); [by apply prune_spec|done].
Qed.

Lemma node_snapshot_state a node now capacity :
  (quota_allocator_build_node_snapshot a node now capacity).1 =
  if node_id_valid node && qa_synchronized a then allocator_prune_expired a now else a.
Proof.
  unfold quota_allocator_build_node_snapshot. destruct (node_id_valid node); [|done].
  destruct (qa_synchronized a); [|done]. cbn [negb orb andb]. by destruct (capacity <? _).
Qed.

Lemma commitment_state a t now :
  (quota_allocator_commitment a t now).1 =
  if tenant_id_valid t && qa_synchronized a then allocator_prune_expired a now else a.
Proof.
  unfold quota_allocator_commitment. destruct (tenant_id_valid t); [|done].
  destruct (qa_synchronized a); [|done]. cbn [negb orb andb].
  destruct (allocator_find_policy _ _) as [[? [?|]]|]; [|done..]. by destruct (existsb _ _).
Qed.

Lemma alloc_step_refines a op :
  alloc_wf a -> alloc_op_ok op ->
  exists a' rc, alloc_step a op = Ok (a', rc) /\ alloc_wf a' /\ book_step (book_of a) op = (book_of a', rc).
Proof.
  intros Hw Hop. destruct op as [e s ps ls now mem|e s p now|e s l now|e s t n now|n now cap|t now]; cbn [alloc_step book_step].
  - destruct Hop as (_ & Hs & Hnow & Hps & Hls). by apply alloc_snapshot_refines.
  - destruct Hop as (Hs & Hnow & Hp). destruct p as [p|]; cbn [mbind option_bind]; [|by exists a, ALLOC_ERROR].
    specialize (Hp p eq_refl). pose proof (policy_entry_spec p) as He. destruct (policy_entry p) as [[t cap]|].
    + destruct p as [tp cap']. cbn [po_tenant_id po_limits fst snd] in *. destruct He as (Hv & -> & ->).
      by apply set_policy_refines.
    + unfold quota_allocator_set_policy. rewrite He. by exists a, ALLOC_ERROR.
  - destruct Hop as (Hs & Hnow & Hl). destruct l as [l|]; cbn [mbind option_bind]; [|by exists a, ALLOC_ERROR].
    specialize (Hl l eq_refl). pose proof (entry_of_spec now l) as He. destruct (entry_of now l) as [[[t n] [x lim]]|].
    + destruct l as [tl nl xl ll]. cbn in He, Hl. destruct He as (_ & -> & -> & [= -> ->] & Ht & Hn & Hx).
      apply grant_refines; try done. split; [done|]. split; [done|]. cbn. split; [lia|done].
    + unfold quota_allocator_grant. rewrite He. by exists a, ALLOC_ERROR.
  - destruct Hop as [Hs Hnow]. destruct t as [t|], n as [n|]; try by exists a, ALLOC_ERROR.
    2: { unfold quota_allocator_revoke. rewrite orb_true_r. by exists a, ALLOC_ERROR. }
    destruct (tenant_id_valid (Some t)) eqn:Et, (node_id_valid (Some n)) eqn:En; cbn [andb];
      [by apply revoke_refines|unfold quota_allocator_revoke; rewrite Et, En; by exists a, ALLOC_ERROR..].
  - rewrite node_snapshot_state. destruct (read_refines a (node_id_valid n) now Hw) as [H1 H2]. eexists _, _.
    split; [done|]. split; [done|]. by rewrite H2.
  - rewrite commitment_state. destruct (read_refines a (tenant_id_valid t) now Hw) as [H1 H2]. eexists _, _.
    split; [done|]. split; [done|]. by rewrite H2.
Qed.

Lemma held_empty {K V S} (kv : S -> K * V) n : held kv (replicate n None) = [].
Proof. exact (held_copied kv [] n). Qed.

Lemma alloc_create_wf max_tenants max_leases a :
  quota_allocator_create max_tenants max_leases true = Some a -> 0 <= max_tenants -> 0 <= max_leases ->
  alloc_wf a /\ book_of a = empty_book max_tenants max_leases.
Proof.
  unfold quota_allocator_create. intros H H1 H2. destruct (_ || _) eqn:E; [done|]. injection H as <-. split.
  - split; cbn [qa_policies qa_leases qa_max_tenants qa_max_issued_leases qa_sequence];
      rewrite ?held_empty, ?len_replicate; try constructor; lia.
  - unfold book_of. cbn [qa_policies qa_leases qa_max_tenants qa_max_issued_leases qa_sequence qa_epoch
      qa_synchronized qa_required_epoch qa_required_sequence]. unfold table. by rewrite !held_empty.
Qed.

(* ------------------------------------------------------------------ *)
(** ** What the book keeps *)

Record book_ok (b : book) : Prop := {
  bo_leases : leases_wf (bk_leases b);
  bo_caps : map_Forall (fun _ cap => limits_wf cap) (bk_caps b);
  bo_covered : covered (bk_caps b) (bk_leases b);
  bo_epoch : bk_synchronized b = true -> 0 < (bk_version b).1;
}.

(** Fewer leases stay covered. *)
Lemma covered_mono caps m m' : m' ⊆ m -> leases_wf m -> covered caps m -> covered caps m'.
Proof.
  intros Hs Hwf Hc k v Hk. destruct (Hc k v) as (cap & E & Hf); [by eapply lookup_weaken|].
  exists cap. split; [done|]. apply fits_spec. intros r Hr. rewrite fits_spec in Hf.
  specialize (Hf r Hr). pose proof (issued_mono m' m k.1 r Hs Hwf). lia.
Qed.

Lemma leases_wf_mono m m' : m' ⊆ m -> leases_wf m -> leases_wf m'.
Proof. intros Hs Hwf k v Hk. eapply Hwf. by eapply lookup_weaken. Qed.

Lemma shrink_ok b m : m ⊆ bk_leases b -> book_ok b -> book_ok (with_tables b (bk_caps b) m).
Proof. intros Hs []. split; try done; [by eapply leases_wf_mono|by eapply covered_mono]. Qed.

Lemma unexpired_subseteq now m : unexpired now m ⊆ m.
Proof. apply map_filter_subseteq. Qed.

Lemma prune_ok b now : book_ok b -> book_ok (book_prune b now).
Proof. apply shrink_ok, unexpired_subseteq. Qed.

Lemma desync_ok b v : book_ok b -> book_ok (book_desync b v).
Proof. intros []. by split. Qed.

Lemma change_ok b v now change :
  book_ok b -> (forall b b', book_ok b -> change b = inl b' -> book_ok b' /\ bk_version b' = bk_version b) ->
  book_ok (book_change b v now change).1.
Proof.
  intros Hb Hchange. unfold book_change. destruct (bk_synchronized b) eqn:Es; cbn [negb]; [|by apply desync_ok].
  destruct (negb _); [done|]. case_bool_decide as Ev; cbn [negb]; [|by apply desync_ok].
  pose proof (prune_ok b now Hb) as Hp. destruct (change (book_prune b now)) as [b'|rc] eqn:E; [|done].
  destruct (Hchange _ _ Hp E) as [[] _]. split; try done. intros _. cbn. rewrite Ev. by apply Hb.
Qed.

Lemma policy_ok t cap b b' :
  limits_wf cap -> book_ok b -> change_policy t cap b = inl b' -> book_ok b' /\ bk_version b' = bk_version b.
Proof.
  intros Hcap [H1 H2 H3 H4]. unfold change_policy. destruct (fits _ t cap) eqn:Ef; [|done]. cbn [negb].
  destruct (_ && _); [done|]. intros [= <-]. split; [|done]. split; try done.
  - by apply map_Forall_insert_2.
  - intros k v Hk. cbn in Hk |- *. destruct (decide (k.1 = t)) as [<-|Hne].
    + exists cap. by rewrite lookup_insert_eq.
    + destruct (H3 k v Hk) as (c & E & Hf). exists c. by rewrite lookup_insert_ne by done.
Qed.

Lemma grant_ok e b b' :
  limits_wf e.2.2 -> book_ok b -> change_grant e b = inl b' -> book_ok b' /\ bk_version b' = bk_version b.
Proof.
  intros Hl [H1 H2 H3 H4]. unfold change_grant. destruct (bk_caps b !! e.1.1) as [cap|] eqn:Ec; [|done].
  destruct (fits _ _ cap) eqn:Ef; [|done]. cbn [negb]. destruct (_ && _); [done|]. intros [= <-].
  split; [|done]. split; try done; [by apply map_Forall_insert_2|].
  intros k v Hk. cbn in Hk |- *. destruct (decide (k.1 = e.1.1)) as [Ek|Hne]; [exists cap; by rewrite Ek|].
  rewrite lookup_insert_ne in Hk by (intros <-; done). destruct (H3 k v Hk) as (c & E & Hf).
  exists c. split; [done|]. apply fits_spec. intros r Hr. rewrite fits_spec in Hf. specialize (Hf r Hr).
  rewrite issued_insert, bool_decide_false, Z.add_0_l by congruence.
  pose proof (issued_mono (delete e.1 (bk_leases b)) _ k.1 r (delete_subseteq _ _) H1). lia.
Qed.

Lemma revoke_ok k b b' :
  book_ok b -> change_revoke k b = inl b' -> book_ok b' /\ bk_version b' = bk_version b.
Proof.
  intros Hb. unfold change_revoke. case_bool_decide; [done|]. intros [= <-]. split; [|done].
  apply shrink_ok; [apply delete_subseteq|done].
Qed.

Lemma list_to_map_Forall {K V} `{Countable K} (P : V -> Prop) (l : list (K * V)) :
  Forall (fun x => P x.2) l -> map_Forall (fun _ v => P v) (list_to_map l : gmap K V).
Proof.
  intros Hl k v Hk. apply elem_of_list_to_map_2 in Hk. rewrite Forall_forall in Hl. exact (Hl _ Hk).
Qed.

Lemma book_snapshot_ok a v ps ls now mem :
  Forall (fun p => limits_wf (po_limits p)) ps -> Forall (fun l => limits_wf (le_limits l)) ls -> 0 <= v.1 ->
  book_ok (book_of a) -> book_ok (book_snapshot (book_of a) v ps ls now mem).1.
Proof.
  intros Hps Hls Hv Hb. unfold book_snapshot. destruct (v.1 =? 0) eqn:E0; [done|].
  destruct (bk_synchronized _ && _); [done|]. destruct (negb _ && _ && _); [done|].
  pose proof (snapshot_tables_spec a ps ls now) as Ht. destruct (snapshot_tables _ _ _ _) as [[caps leases]|];
    [|by apply desync_ok].
  destruct mem; [|by apply desync_ok]. destruct Ht as (cs & es & (Ecs & Ees & _ & _ & _ & _ & Hcov) & -> & ->).
  destruct (policy_slots_of ps cs Ecs) as (_ & _ & _ & Hcs).
  split; [|apply list_to_map_Forall, (policy_caps_wf ps cs Hcs Hps)|exact Hcov|intros _; cbn; lia].
  intros k x Hk. apply elem_of_list_to_map_2 in Hk. pose proof (mapM_entries_wf now ls es Hls Ees) as Hw.
  eapply Forall_forall in Hw; [|exact Hk]. exact Hw.
Qed.

Lemma read_ok b valid now : book_ok b -> book_ok (book_read b valid now).
Proof. intros Hb. unfold book_read. destruct (valid && _); [by apply prune_ok|done]. Qed.

Lemma book_step_ok a op :
  alloc_op_ok op -> book_ok (book_of a) -> book_ok (book_step (book_of a) op).1.
Proof.
  intros Hop Hb. destruct op as [e s ps ls now mem|e s p now|e s l now|e s t n now|n now cap|t now]; cbn [book_step];
    [| | | |by apply read_ok..].
  - destruct Hop as (He & _ & _ & Hps & Hls). by apply book_snapshot_ok.
  - destruct Hop as (_ & _ & Hp). destruct p as [p|]; cbn [mbind option_bind]; [|done].
    pose proof (policy_entry_spec p) as H. destruct (policy_entry p) as [[t cap]|]; [|done].
    destruct H as (_ & _ & E). specialize (Hp p eq_refl). rewrite E in Hp.
    apply change_ok; [done|]. intros b b'. by apply policy_ok.
  - destruct Hop as (_ & _ & Hl). destruct l as [l|]; cbn [mbind option_bind]; [|done].
    pose proof (entry_of_spec now l) as H. destruct (entry_of now l) as [e1|]; [|done].
    destruct H as (_ & _ & _ & E & _). specialize (Hl l eq_refl).
    apply change_ok; [done|]. intros b b'. apply grant_ok. by rewrite E.
  - destruct t as [t|], n as [n|]; try done. destruct (_ && _); [|done].
    apply change_ok; [done|]. intros b b'. apply revoke_ok.
Qed.

(** Every state that is reached from creation. *)
Lemma alloc_reached max_tenants max_leases a ops :
  quota_allocator_create max_tenants max_leases true = Some a -> 0 <= max_tenants -> 0 <= max_leases ->
  Forall alloc_op_ok ops ->
  exists a' rcs, alloc_run a ops = Ok (a', rcs) /\ alloc_wf a' /\ book_ok (book_of a') /\
    book_run (empty_book max_tenants max_leases) ops = (book_of a', rcs).
Proof.
  intros Hc H1 H2 Hops. destruct (alloc_create_wf _ _ _ Hc H1 H2) as [Hw Eb].
  assert (Hb : book_ok (book_of a)).
  { rewrite Eb. split; cbn; try done; apply map_Forall_empty. }
  rewrite <- Eb. clear Hc Eb. revert a Hw Hb. induction Hops as [|op ops Hop _ IH]; intros a Hw Hb; [by exists a, []|].
  destruct (alloc_step_refines a op Hw Hop) as (a1 & rc & E & Hw1 & Es).
  pose proof (book_step_ok a op Hop Hb) as Hb1. rewrite Es in Hb1. destruct (IH a1 Hw1 Hb1) as (a2 & rcs & E2 & Hw2 & Hb2 & Es2).
  exists a2, (rc :: rcs). cbn [alloc_run book_run]. rewrite E, Es. cbn [mbind res_bind]. by rewrite E2, Es2.
Qed.

(** What is issued of a tenant's resource is at most its cap, leases or not. *)
Lemma issued_within b t cap r :
  book_ok b -> bk_caps b !! t = Some cap -> r ∈ resources -> issued (bk_leases b) t r <= used_at cap r.
Proof.
  intros [H1 H2 H3 _] Hcap Hr. destruct (decide (t ∈ (map_to_list (bk_leases b)).*1.*1)) as [Hin|Hin].
  - apply list_elem_of_fmap in Hin as (k & -> & ([k' v] & -> & Hin)%list_elem_of_fmap).
    apply elem_of_map_to_list in Hin. destruct (H3 _ _ Hin) as (cap' & E & Hf). cbn in *.
    rewrite Hcap in E. injection E as <-. by apply fits_spec.
  - unfold issued. rewrite total_none by done. apply (used_at_range cap r), (H2 t cap Hcap).
Qed.

(* ------------------------------------------------------------------ *)
(** ** Readers *)

Lemma commitment_spec a t now :
  alloc_wf a -> book_ok (book_of a) -> tenant_id_valid (Some t) = true -> qa_synchronized a = true ->
  match (quota_allocator_commitment a (Some t) now).2 with
  | Some (cap, sums) => bk_caps (book_of a) !! t = Some cap /\
      forall r, r ∈ resources -> used_at sums r = issued (unexpired now (bk_leases (book_of a))) t r /\
        used_at sums r <= used_at cap r
  | None => bk_caps (book_of a) !! t = None
  end.
Proof.
  intros Hw Hb Ht Hs. unfold quota_allocator_commitment. rewrite Ht, Hs. cbn [negb orb].
  change (default ""%string (Some t)) with t. destruct (prune_spec a now Hw) as [Hw1 Eb].
  pose proof (prune_ok _ now Hb) as Hb1. rewrite <- Eb in Hb1. set (a1 := allocator_prune_expired a now) in *.
  assert (Ec : bk_caps (book_of a1) = bk_caps (book_of a)) by by rewrite Eb.
  assert (El : bk_leases (book_of a1) = unexpired now (bk_leases (book_of a))) by by rewrite Eb.
  pose proof (find_policy_spec a1 t Hw1) as Hf. rewrite Ec in Hf.
  destruct (allocator_find_policy a1 t) as [[i o]|]; [|done]. destruct Hf as (s & -> & _ & _ & Hcap).
  destruct (commitments_all a1 t Hw1) as [Hc1 Hc2]. set (c := allocator_commitments_for_tenant a1 t None) in *.
  assert (Hle : forall r, r ∈ resources -> 0 <= used_at c r /\ used_at c r <= used_at (ps_limits s) r < 4294967296).
  { intros r Hr. rewrite (Hc2 r Hr). pose proof (issued_within _ t (ps_limits s) r Hb1 ltac:(by rewrite Ec) Hr).
    pose proof (issued_range _ t r (bo_leases _ Hb1)).
    pose proof (used_at_range (ps_limits s) r (proj2 (bo_caps _ Hb _ _ Hcap))). lia. }
  assert (Hu : existsb (fun x => 4294967295 <? x) c = false /\ u32 <$> c = c).
  { destruct (five c Hc1) as (c0 & c1 & c2 & c3 & c4 & E). rewrite E in *. rewrite all_resources in Hle.
    pose proof (used_at_five c0 c1 c2 c3 c4). cbn [existsb fmap list_fmap]. rewrite !u32_id by (unfold is_u32; lia).
    split; [lia|done]. }
  destruct Hu as [-> ->]. cbn [snd]. split; [done|]. intros r Hr. rewrite <- El, <- (Hc2 r Hr).
  split; [done|]. by apply Hle.
Qed.

Definition lease_of_entry (e : lease_entry) : quota_lease_t :=
  Build_quota_lease_t (Some e.1.1) (Some e.1.2) e.2.1 e.2.2.

Definition node_entries (a : allocator_t) (node : string) : list lease_entry :=
  filter (fun e => e.1.2 = node) (held lease_kv (qa_leases a)).

Lemma node_leases_list node slots :
  omap (node_lease node) slots = lease_of_entry <$> filter (fun e => e.1.2 = node) (held lease_kv slots).
Proof.
  induction slots as [|o slots IH]; [done|]. cbn [omap list_omap]. rewrite held_slot_cons, IH.
  destruct o as [s|]; [|done]. cbn [node_lease of_slot app]. rewrite filter_cons. cbn [lease_kv fst snd].
  by destruct (decide (iss_node_id s = node)) as [E|E]; [rewrite bool_decide_true|rewrite bool_decide_false].
Qed.

(** The leases a node's snapshot lists are of different tenants, and the node can
    take each of them. *)
Lemma node_entries_spec a node :
  alloc_wf a ->
  snapshot_tenants node (lease_of_entry <$> node_entries a node) = Some (node_entries a node).*1.*1 /\
  Forall lease_wf (lease_of_entry <$> node_entries a node) /\ NoDup (node_entries a node).*1.*1 /\
  forall t, (exists v, ((t, node), v) ∈ node_entries a node) <-> t ∈ (node_entries a node).*1.*1.
Proof.
  intros Hw. assert (Hok : Forall (fun e => e.1.2 = node /\ entry_wf e) (node_entries a node)).
  { apply Forall_forall. intros e [He Hin]%list_elem_of_filter. split; [done|].
    by apply (proj1 (Forall_forall _ _) (aw_issued_wf a Hw)). }
  pose proof (filter_keys (fun e => e.1.2 = node) _ (aw_issued a Hw)) as Hn. fold (node_entries a node) in Hn.
  set (es := node_entries a node) in *. clearbody es.
  assert (Hnt : NoDup es.*1.*1).
  { apply NoDup_fmap_2_strong; [|done]. intros k k' Hk Hk' E.
    apply list_elem_of_fmap in Hk as (e & -> & Hin), Hk' as (e' & -> & Hin').
    rewrite Forall_forall in Hok. pose proof (proj1 (Hok _ Hin)) as E1. pose proof (proj1 (Hok _ Hin')) as E2.
    destruct (e.1), (e'.1). cbn in *. congruence. }
  split; [|split; [|split; [done|]]].
  - unfold snapshot_tenants. assert (mapM (lease_ok node) (lease_of_entry <$> es) = Some es.*1.*1) as ->.
    { apply mapM_Some. clear Hn Hnt. induction Hok as [|e es [E (Ht & Hno & Hx & Hl)] _ IH]; [constructor|].
      constructor; [|done]. unfold lease_ok. cbn [lease_of_entry le_tenant_id le_node_id le_expires_at_unix_ms mbind option_bind].
      rewrite Ht, Hno, E, bool_decide_true by done. cbn [andb]. by replace (e.2.1 =? 0) with false by lia. }
    cbn [mbind option_bind]. by rewrite decide_True.
  - apply Forall_fmap. eapply Forall_impl; [exact Hok|]. intros e [_ (_ & _ & _ & ?)]. done.
  - intros t. split.
    + intros [v Hin]. apply list_elem_of_fmap. exists (t, node). split; [done|]. apply list_elem_of_fmap. by exists ((t, node), v).
    + intros (k & -> & (e & -> & Hin)%list_elem_of_fmap)%list_elem_of_fmap. rewrite Forall_forall in Hok.
      exists e.2. pose proof (proj1 (Hok _ Hin)) as <-. by destruct e as [[] ?].
Qed.

(* ------------------------------------------------------------------ *)
(** ** Nodes *)

(** The lease a node holds for a tenant, and the limit that it reports. *)
Definition lease_at (p : quota_projection_t) (t : string) : option (Z * list Z) :=
  accounts (qp_slots p) !! t ≫= ac_lease.

Definition granted (p : quota_projection_t) (t : string) (r : Z) : Z :=
  match quota_usage (Some p) (Some t) r (Some tt) with Ok (_, limit, _, _) => limit | _ => 0 end.

Definition limit_of (lease : option (Z * list Z)) (r : Z) : Z :=
  match lease with Some (_, limits) => used_at limits r | None => 0 end.

Lemma granted_spec p t r :
  quota_wf p -> tenant_id_valid (Some t) = true -> r ∈ resources -> granted p t r = limit_of (lease_at p t) r.
Proof.
  intros Hw Ht Hr%in_resources. unfold granted, quota_usage, lease_at. rewrite Ht. cbn [negb orb].
  replace ((r <? 0) || (QUOTA_RESOURCE_COUNT <=? r)) with false by lia.
  pose proof (find_slot_account (qp_slots p) t (qwf_unique p Hw)) as Hf.
  destruct (quota_find_slot (qp_slots p) t 0) as [i|]; [|by rewrite Hf].
  destruct Hf as (s & Hs & _ & _ & ->). rewrite Hs. cbn [mbind res_bind option_bind].
  pose proof (wf_slot p i s Hw Hs) as [H1 _ H2 _ _].
  rewrite (rd_used_at _ _ H2 Hr), (rd_used_at _ _ H1 Hr). cbn [mbind res_bind account_of ac_lease].
  by destruct (truth (qs_has_lease s)).
Qed.

(** After a snapshot a node holds the leases that it lists. *)
Lemma snapshot_lease m es t :
  NoDup es.*1.*1 ->
  snapshot_accounts m es.*1.*1 (lease_of_entry <$> es) !! t ≫= ac_lease =
  (list_to_map ((fun e => (e.1.1, e.2)) <$> es) : gmap string (Z * list Z)) !! t.
Proof.
  intros Hn. unfold snapshot_accounts.
  set (f := fun e : lease_entry => (e.1.1, leased_account m e.1.1 (lease_of_entry e))).
  assert (zip_with (fun t l => (t, leased_account m t l)) es.*1.*1 (lease_of_entry <$> es) = f <$> es) as ->.
  { clear Hn. induction es as [|e es IH]; [done|]. cbn. by rewrite IH. }
  assert (Ek : (f <$> es).*1 = es.*1.*1) by by rewrite <- !list_fmap_compose.
  assert (Ek' : ((fun e : lease_entry => (e.1.1, e.2)) <$> es).*1 = es.*1.*1) by by rewrite <- !list_fmap_compose.
  rewrite lookup_union. destruct (decide (t ∈ es.*1.*1)) as [Hin|Hin].
  - apply list_elem_of_fmap in Hin as (k & -> & (e & -> & Hin)%list_elem_of_fmap).
    rewrite (proj1 (elem_of_list_to_map _ e.1.1 (leased_account m e.1.1 (lease_of_entry e)) ltac:(by rewrite Ek)));
      [|by apply (list_elem_of_fmap_2 f)].
    rewrite (proj1 (elem_of_list_to_map _ e.1.1 e.2 ltac:(by rewrite Ek'))); [|by apply (list_elem_of_fmap_2 (fun e => (e.1.1, e.2)))].
    destruct (_ !! e.1.1); cbn; by destruct e as [? []].
  - rewrite (not_elem_of_list_to_map_1 (f <$> es)) by by rewrite Ek.
    rewrite (not_elem_of_list_to_map_1 (_ <$> es)) by by rewrite Ek'.
    rewrite lookup_fmap. destruct (filter _ m !! t); done.
Qed.

(** What a node holds once it has taken its snapshot, whose leases are those the
    book has issued to it. *)
Lemma node_table a node t :
  alloc_wf a ->
  (list_to_map ((fun e => (e.1.1, e.2)) <$> node_entries a node) : gmap string (Z * list Z)) !! t =
  bk_leases (book_of a) !! (t, node).
Proof.
  intros Hw. destruct (node_entries_spec a node Hw) as (_ & _ & Hn & Hk). apply option_eq. intros v.
  assert (Ek : ((fun e : lease_entry => (e.1.1, e.2)) <$> node_entries a node).*1 = (node_entries a node).*1.*1)
    by by rewrite <- !list_fmap_compose.
  rewrite <- elem_of_list_to_map by by rewrite Ek. cbn [book_of bk_leases]. unfold table.
  rewrite <- elem_of_list_to_map by apply Hw. rewrite list_elem_of_fmap. unfold node_entries.
  setoid_rewrite list_elem_of_filter. split.
  - intros ([[t' n'] v'] & [= -> ->] & E & Hin). cbn in E. by subst n'.
  - intros Hin. by exists ((t, node), v).
Qed.

Lemma node_accepts a p now :
  alloc_wf a -> book_ok (book_of a) -> qa_synchronized a = true -> quota_wf p ->
  node_id_valid (Some (qp_node_id p)) = true ->
  match (quota_allocator_build_node_snapshot a (Some (qp_node_id p)) now (qp_max_tenants p)).2 with
  | inr (ls, e, s) => e = qa_epoch a /\ s = qa_sequence a /\
      exists p' v, quota_apply_snapshot (Some p) e s (Some ls) (len ls) true = Ok (Some p', v) /\ quota_wf p' /\
        v <> APPLY_ERROR /\ v <> APPLY_GAP /\
        (v = APPLY_APPLIED -> forall t, lease_at p' t = unexpired now (bk_leases (book_of a)) !! (t, qp_node_id p))
  | inl (Some n) => qp_max_tenants p < n
  | inl None => False
  end.
Proof.
  intros Hw Hb Hs Hp Hnode. unfold quota_allocator_build_node_snapshot. rewrite Hnode, Hs. cbn [negb orb].
  change (default ""%string (Some (qp_node_id p))) with (qp_node_id p).
  destruct (prune_spec a now Hw) as [Hw1 Eb]. set (a1 := allocator_prune_expired a now) in *.
  rewrite node_leases_list. fold (node_entries a1 (qp_node_id p)).
  destruct (Z.ltb_spec (qp_max_tenants p) (len (lease_of_entry <$> node_entries a1 (qp_node_id p)))) as [|Hle]; [done|].
  cbn [snd]. split; [done|]. split; [done|].
  destruct (node_entries_spec a1 (qp_node_id p) Hw1) as (Ht & Hl & Hn & _).
  destruct (quota_snapshot_refines p (qa_epoch a1) (qa_sequence a1) (lease_of_entry <$> node_entries a1 (qp_node_id p)) true Hp
    (aw_sequence a1 Hw1) Hl) as (p' & v & E & Hp' & G).
  exists p', v. split; [done|]. split; [done|]. unfold ledger_snapshot in G. cbn [fst] in G.
  pose proof (bo_epoch _ Hb Hs) as He. cbn in He. change (qa_epoch a1) with (qa_epoch a) in G.
  replace (qa_epoch a =? 0) with false in G by lia.
  destruct (lg_synchronized _ && _); [by apply (f_equal snd) in G; cbn in G; subst v|]. destruct (negb (lg_synchronized _) && _ && _); [by apply (f_equal snd) in G; cbn in G; subst v|].
  cbn [ledger_of lg_max lg_node lg_accounts] in G. fold (ledger_of p) in G.
  replace (qp_max_tenants p <? _) with false in G by lia. rewrite Ht in G.
  destruct (qp_max_tenants p <? _); [by apply (f_equal snd) in G; cbn in G; subst v|]. cbn [negb] in G.
  pose proof (f_equal snd G) as Ev. cbn in Ev. subst v. apply (f_equal (fun g => lg_accounts g.1)) in G. cbn [fst lg_accounts ledger_of] in G.
  split; [done|]. split; [done|]. intros _ t. unfold lease_at.
  rewrite <- G, snapshot_lease, node_table by done. by rewrite Eb.
Qed.

(** The limits of a tenant at different nodes add up to at most what is issued. *)
Lemma nodes_within m t r nodes :
  leases_wf m -> NoDup nodes ->
  foldr (fun n sum => limit_of (m !! (t, n)) r + sum) 0 nodes <= issued m t r.
Proof.
  intros Hm Hn. revert m Hm. induction Hn as [|n nodes Hin Hn IH]; intros m Hm; cbn [foldr].
  { by apply issued_range. }
  destruct (m !! (t, n)) as [[x lim]|] eqn:E; cbn [limit_of]; [|pose proof (IH m Hm); lia].
  assert (issued m t r = used_at lim r + issued (delete (t, n) m) t r) as ->.
  { rewrite <- (insert_id m (t, n) (x, lim) E) at 1. by rewrite issued_insert, bool_decide_true. }
  assert (Hd : leases_wf (delete (t, n) m)) by (eapply leases_wf_mono; [apply delete_subseteq|done]).
  specialize (IH _ Hd).
  assert (foldr (fun n sum => limit_of (m !! (t, n)) r + sum) 0 nodes =
    foldr (fun n' sum => limit_of (delete (t, n) m !! (t, n')) r + sum) 0 nodes) as ->; [|lia].
  clear -Hin. induction nodes as [|n' nodes IH]; [done|]. apply not_elem_of_cons in Hin as [Hne Hin].
  cbn [foldr]. rewrite (IH Hin), lookup_delete_ne by congruence. done.
Qed.

(** A node's projection, after any operations. *)
Definition node_reached (p : quota_projection_t) : Prop :=
  exists node max p0 ops answers,
    quota_projection_create (Some node) max true = Some p0 /\ 0 <= max /\ Forall quota_op_ok ops /\
    quota_run (Some p0) ops = Ok (Some p, answers).

Lemma ledger_step_node g o : lg_node (ledger_step g o).1 = lg_node g.
Proof.
  destruct o as [e s ls mem|e s l|t x am now|t x am]; cbn [ledger_step];
    unfold ledger_snapshot, ledger_update, ledger_reserve, ledger_release; cbn [fst snd];
    repeat match goal with
    | |- context [if ?b then _ else _] => destruct b
    | |- context [match ?x with _ => _ end] => destruct x
    end; done.
Qed.

Lemma ledger_run_node ops g : lg_node (ledger_run g ops).1 = lg_node g.
Proof.
  revert g. induction ops as [|o ops IH]; intros g; [done|]. cbn [ledger_run fst]. by rewrite IH, ledger_step_node.
Qed.

Lemma node_reached_wf p : node_reached p -> quota_wf p /\ node_id_valid (Some (qp_node_id p)) = true.
Proof.
  intros (node & max & p0 & ops & answers & Hc & Hmax & Hops & E).
  destruct (quota_create_wf node max p0 Hc Hmax) as [Hw Hg].
  destruct (quota_run_refines ops p0 Hw Hops) as (p' & a & E' & Hw' & G). rewrite E in E'. injection E' as <- <-.
  split; [done|]. pose proof (ledger_run_node ops (ledger_of p0)) as Hn. rewrite G, Hg in Hn. cbn in Hn. rewrite Hn.
  unfold quota_projection_create in Hc. by destruct (node_id_valid (Some node)).
Qed.

(** From [p] to [p'] a node takes the snapshot that is built for it at [now]. *)
Definition takes_snapshot (a : allocator_t) (now : Z) (p p' : quota_projection_t) : Prop :=
  match (quota_allocator_build_node_snapshot a (Some (qp_node_id p)) now (qp_max_tenants p)).2 with
  | inr (ls, e, s) => quota_apply_snapshot (Some p) e s (Some ls) (len ls) true = Ok (Some p', APPLY_APPLIED)
  | inl _ => False
  end.

Lemma takes_snapshot_spec a now p p' :
  alloc_wf a -> book_ok (book_of a) -> qa_synchronized a = true -> node_reached p -> takes_snapshot a now p p' ->
  quota_wf p' /\ forall t, lease_at p' t = unexpired now (bk_leases (book_of a)) !! (t, qp_node_id p).
Proof.
  intros Hw Hb Hs [Hp Hn]%node_reached_wf. unfold takes_snapshot. pose proof (node_accepts a p now Hw Hb Hs Hp Hn) as H.
  destruct (quota_allocator_build_node_snapshot _ _ _ _).2 as [|[[ls e] s]]; [done|].
  destruct H as (_ & _ & p1 & v & E & Hw1 & _ & _ & Hl). rewrite E. intros [= <- ->]. split; [done|]. by apply Hl.
Qed.

(* ------------------------------------------------------------------ *)
(** ** Properties *)

(** C26: From its creation, whatever snapshots, policies, grants and revocations it
    is sent at whatever versions and times, the allocator does exactly what the
    book of caps and leases does, result by result; nothing is accessed out of
    range, and the 64-bit sums do not overflow. *)
Theorem allocator_refines_book max_tenants max_leases a ops :
  quota_allocator_create max_tenants max_leases true = Some a -> 0 <= max_tenants -> 0 <= max_leases ->
  Forall alloc_op_ok ops ->
  exists a' rcs, alloc_run a ops = Ok (a', rcs) /\
    book_run (empty_book max_tenants max_leases) ops = (book_of a', rcs).
Proof.
  intros Hc H1 H2 Hops. destruct (alloc_reached _ _ _ _ Hc H1 H2 Hops) as (a' & rcs & E & _ & _ & G). by exists a', rcs.
Qed.

(** C27: No tenant is ever overcommitted.  In every state that is reached each issued
    lease is of a tenant with a policy, and what [commitment] reports for a tenant
    of a synchronized allocator is its cap and the sums of its unexpired leases,
    which are within the cap; it has no answer exactly for an unknown tenant. *)
Theorem allocator_never_overcommits max_tenants max_leases a ops t now :
  quota_allocator_create max_tenants max_leases true = Some a -> 0 <= max_tenants -> 0 <= max_leases ->
  Forall alloc_op_ok ops -> tenant_id_valid (Some t) = true ->
  exists a' rcs, alloc_run a ops = Ok (a', rcs) /\ covered (bk_caps (book_of a')) (bk_leases (book_of a')) /\
    (qa_synchronized a' = true ->
     match (quota_allocator_commitment a' (Some t) now).2 with
     | Some (cap, sums) => bk_caps (book_of a') !! t = Some cap /\
         forall r, r ∈ resources -> used_at sums r = issued (unexpired now (bk_leases (book_of a'))) t r /\
           used_at sums r <= used_at cap r
     | None => bk_caps (book_of a') !! t = None
     end).
Proof.
  intros Hc H1 H2 Hops Ht. destruct (alloc_reached _ _ _ _ Hc H1 H2 Hops) as (a' & rcs & E & Hw & Hb & _).
  exists a', rcs. split; [done|]. split; [apply Hb|]. by apply commitment_spec.
Qed.

(** C28: A node takes the snapshot that is built for it.  The snapshot of a
    synchronized allocator is at the allocator's version; it is refused only when
    the node has no room for its tenants; and applying it to the node's projection,
    whatever happened to that before, is never an error: it is stale, exceeds the
    node's slots, or is applied, and then the node holds exactly the unexpired
    leases that were issued to it. *)
Theorem node_takes_snapshot max_tenants max_leases a ops p now :
  quota_allocator_create max_tenants max_leases true = Some a -> 0 <= max_tenants -> 0 <= max_leases ->
  Forall alloc_op_ok ops -> node_reached p ->
  exists a' rcs, alloc_run a ops = Ok (a', rcs) /\
    (qa_synchronized a' = true ->
     match (quota_allocator_build_node_snapshot a' (Some (qp_node_id p)) now (qp_max_tenants p)).2 with
     | inr (ls, e, s) => e = qa_epoch a' /\ s = qa_sequence a' /\
         exists p' v, quota_apply_snapshot (Some p) e s (Some ls) (len ls) true = Ok (Some p', v) /\ quota_wf p' /\
           v <> APPLY_ERROR /\ v <> APPLY_GAP /\
           (v = APPLY_APPLIED ->
            forall t, lease_at p' t = unexpired now (bk_leases (book_of a')) !! (t, qp_node_id p))
     | inl (Some n) => qp_max_tenants p < n
     | inl None => False
     end).
Proof.
  intros Hc H1 H2 Hops [Hp Hn]%node_reached_wf. destruct (alloc_reached _ _ _ _ Hc H1 H2 Hops) as (a' & rcs & E & Hw & Hb & _).
  exists a', rcs. split; [done|]. intros Hs. by apply node_accepts.
Qed.

(** C29: The fleet stays within the cap.  When different nodes have each taken the
    snapshot that a synchronized allocator built for them at a time, the limits
    that they report for a tenant's resource add up to at most the tenant's cap. *)
Theorem fleet_within_cap max_tenants max_leases a ops now ps ps' t cap r :
  quota_allocator_create max_tenants max_leases true = Some a -> 0 <= max_tenants -> 0 <= max_leases ->
  Forall alloc_op_ok ops -> tenant_id_valid (Some t) = true -> r ∈ resources ->
  Forall node_reached ps -> NoDup (qp_node_id <$> ps) ->
  exists a' rcs, alloc_run a ops = Ok (a', rcs) /\
    (qa_synchronized a' = true -> bk_caps (book_of a') !! t = Some cap -> Forall2 (takes_snapshot a' now) ps ps' ->
     foldr (fun p sum => granted p t r + sum) 0 ps' <= used_at cap r).
Proof.
  intros Hc H1 H2 Hops Ht Hr Hps Hn. destruct (alloc_reached _ _ _ _ Hc H1 H2 Hops) as (a' & rcs & E & Hw & Hb & _).
  exists a', rcs. split; [done|]. intros Hs Hcap Htakes.
  set (m := unexpired now (bk_leases (book_of a'))).
  assert (Hm : leases_wf m) by (eapply leases_wf_mono; [apply unexpired_subseteq|apply Hb]).
  assert (Hsum : foldr (fun p sum => granted p t r + sum) 0 ps' =
    foldr (fun n sum => limit_of (m !! (t, n)) r + sum) 0 (qp_node_id <$> ps)).
  { clear Hn. induction Htakes as [|p p' ps ps' Hp _ IH]; [done|]. apply Forall_cons in Hps as [Hreach Hps].
    destruct (takes_snapshot_spec a' now p p' Hw Hb Hs Hreach Hp) as [Hw' Hl]. cbn [foldr fmap list_fmap].
    by rewrite granted_spec, Hl, IH. }
  rewrite Hsum. pose proof (nodes_within m t r _ Hm Hn).
  pose proof (issued_mono m _ t r (unexpired_subseteq now _) (bo_leases _ Hb)).
  pose proof (issued_within _ t cap r Hb Hcap Hr). lia.
Qed.

(* ------------------------------------------------------------------ *)
(** ** Observations *)

Definition alw_policy (t : string) (cap : Z) : quota_policy_t :=
  Build_quota_policy_t (Some t) (replicate 5 cap).
Definition alw_lease (t n : string) (expires limit : Z) : quota_lease_t :=
  Build_quota_lease_t (Some t) (Some n) expires (replicate 5 limit).

Definition alw_allocator : allocator_t :=
  match quota_allocator_create 2 4 true with
  | Some a => a
  | None => Build_allocator_t 0 0 [] [] false 0 0 0 0
  end.

(** A snapshot of two tenants, a lease at another node, one that would exceed the
    cap, a change at a version that is not the next, a tighter policy. *)
Definition alw_ops : list alloc_op :=
  [AlSnapshot 1 1 [alw_policy "acme" 10; alw_policy "zeta" 5] [alw_lease "acme" "n1" 100 6] 10 (true, true);
   AlGrant 1 2 (Some (alw_lease "acme" "n2" 200 4)) 20; AlGrant 1 3 (Some (alw_lease "acme" "n3" 200 1)) 20;
   AlSetPolicy 1 3 (Some (alw_policy "acme" 9)) 20; AlGrant 1 3 (Some (alw_lease "zeta" "n2" 200 5)) 20;
   AlNodeSnapshot (Some "n1"%string) 20 4].

Example alw_run :
  match alloc_run alw_allocator alw_ops with Ok (_, rcs) => rcs | _ => [] end =
  [ALLOC_APPLIED; ALLOC_APPLIED; ALLOC_OVERCOMMITTED; ALLOC_OVERCOMMITTED; ALLOC_APPLIED; ALLOC_APPLIED].
Proof. vm_compute. reflexivity. Qed.

(** A policy that is refused as overcommitted changes the state nevertheless: the
    expired leases are gone. *)
Example refused_policy_prunes :
  match alloc_run alw_allocator (firstn 2 alw_ops) with
  | Ok (a, _) =>
      match quota_allocator_set_policy a 1 3 (Some (alw_policy "acme" 3)) 150 with
      | Ok (a', rc) => (rc, quota_allocator_status a, quota_allocator_status a')
      | _ => (ALLOC_ERROR, (false, 0, 0, 0, 0), (false, 0, 0, 0, 0))
      end
  | _ => (ALLOC_ERROR, (false, 0, 0, 0, 0), (false, 0, 0, 0, 0))
  end = (ALLOC_OVERCOMMITTED, (true, 1, 2, 2, 2), (true, 1, 2, 2, 1)).
Proof. vm_compute. reflexivity. Qed.

(* ------------------------------------------------------------------ *)
(** ** Witnesses *)

Lemma alw_create : quota_allocator_create 2 4 true = Some alw_allocator.
Proof. reflexivity. Qed.

Lemma alw_ops_ok : Forall alloc_op_ok alw_ops.
Proof.
  assert (H : forall z, 0 <= z < 11 -> limits_wf (replicate 5 z)).
  { intros z Hz. split; [done|]. apply Forall_replicate. unfold is_u32. lia. }
  assert (Hl : forall t n x z, 0 <= z < 11 -> limits_wf (le_limits (alw_lease t n x z))) by (intros; by apply H).
  assert (Hp : forall t z, 0 <= z < 11 -> limits_wf (po_limits (alw_policy t z))) by (intros; by apply H).
  unfold alw_ops. repeat (apply Forall_cons; split); try apply Forall_nil_2; cbn [alloc_op_ok]; unfold is_u64;
    repeat match goal with |- _ /\ _ => split end; try lia; repeat (apply Forall_cons; split);
    try apply Forall_nil_2; try (intros x [= <-]); (apply Hl || apply Hp); lia.
Qed.

Definition alw_node (n : string) : quota_projection_t :=
  match quota_projection_create (Some n) 2 true with
  | Some p => p
  | None => Build_quota_projection_t "" 0 [] 0 0 0 0 0
  end.

Lemma alw_node_reached n : node_id_valid (Some n) = true -> node_reached (alw_node n).
Proof.
  intros Hn. exists n, 2, (alw_node n), [], []. unfold alw_node, quota_projection_create. rewrite Hn. done.
Qed.

Definition alw_nodes : list quota_projection_t := [alw_node "n1"; alw_node "n2"].

(** The two nodes with their snapshots. *)
Definition alw_taken : list quota_projection_t :=
  match alloc_run alw_allocator alw_ops with
  | Ok (a, _) =>
      omap (fun p =>
        match (quota_allocator_build_node_snapshot a (Some (qp_node_id p)) 20 (qp_max_tenants p)).2 with
        | inr (ls, e, s) =>
            match quota_apply_snapshot (Some p) e s (Some ls) (len ls) true with Ok (p', _) => p' | _ => None end
        | inl _ => None
        end) alw_nodes
  | _ => []
  end.

Example alw_fleet :
  match alloc_run alw_allocator alw_ops with
  | Ok (a, _) => qa_synchronized a = true /\ bk_caps (book_of a) !! "acme"%string = Some (replicate 5 10) /\
      Forall2 (takes_snapshot a 20) alw_nodes alw_taken
  | _ => False
  end /\ (fun p => granted p "acme" 0) <$> alw_taken = [6; 4].
Proof. vm_compute. by repeat constructor. Qed.

Lemma allocator_refines_book_witness :
  exists a' rcs, alloc_run alw_allocator alw_ops = Ok (a', rcs) /\ book_run (empty_book 2 4) alw_ops = (book_of a', rcs).
Proof. apply (allocator_refines_book 2 4); [exact alw_create|done|done|exact alw_ops_ok]. Defined.

Lemma allocator_never_overcommits_witness :
  exists a' rcs, alloc_run alw_allocator alw_ops = Ok (a', rcs) /\
    covered (bk_caps (book_of a')) (bk_leases (book_of a')) /\
    (qa_synchronized a' = true ->
     match (quota_allocator_commitment a' (Some "acme"%string) 20).2 with
     | Some (cap, sums) => bk_caps (book_of a') !! "acme"%string = Some cap /\
         forall r, r ∈ resources -> used_at sums r = issued (unexpired 20 (bk_leases (book_of a'))) "acme" r /\
           used_at sums r <= used_at cap r
     | None => bk_caps (book_of a') !! "acme"%string = None
     end).
Proof. apply (allocator_never_overcommits 2 4); [exact alw_create|done|done|exact alw_ops_ok|reflexivity]. Defined.

Lemma node_takes_snapshot_witness :
  exists a' rcs, alloc_run alw_allocator alw_ops = Ok (a', rcs) /\
    (qa_synchronized a' = true ->
     match (quota_allocator_build_node_snapshot a' (Some "n2"%string) 20 2).2 with
     | inr (ls, e, s) => e = qa_epoch a' /\ s = qa_sequence a' /\
         exists p' v, quota_apply_snapshot (Some (alw_node "n2")) e s (Some ls) (len ls) true = Ok (Some p', v) /\
           quota_wf p' /\ v <> APPLY_ERROR /\ v <> APPLY_GAP /\
           (v = APPLY_APPLIED ->
            forall t, lease_at p' t = unexpired 20 (bk_leases (book_of a')) !! (t, "n2"%string))
     | inl (Some n) => 2 < n
     | inl None => False
     end).
Proof.
  exact (node_takes_snapshot 2 4 alw_allocator alw_ops (alw_node "n2") 20 alw_create (Z.le_0_2) (Z.lt_le_incl 0 4 eq_refl)
    alw_ops_ok (alw_node_reached "n2" eq_refl)).
Defined.

Lemma fleet_within_cap_witness :
  exists a' rcs, alloc_run alw_allocator alw_ops = Ok (a', rcs) /\
    (qa_synchronized a' = true -> bk_caps (book_of a') !! "acme"%string = Some (replicate 5 10) ->
     Forall2 (takes_snapshot a' 20) alw_nodes alw_taken ->
     foldr (fun p sum => granted p "acme" 0 + sum) 0 alw_taken <= used_at (replicate 5 10) 0).
Proof.
  apply (fleet_within_cap 2 4 alw_allocator alw_ops 20 alw_nodes);
    [exact alw_create|done|done|exact alw_ops_ok|reflexivity|by left| |].
  - repeat constructor; by apply alw_node_reached.
  - apply (bool_decide_unpack _). vm_compute. reflexivity.
Defined.
