(* ===== verification/Simulcast.v ===== *)
(** * Simulcast sender (src/webrtc/src/rtc/rtp/simulcast.c)

    One video source encoded at three sizes and sent as three RTP streams: layer
    selection by bandwidth, the I420 scaler, and the frame loop from encoder to
    RTP packets.  The codec is the record of function pointers of
    [turbo_codec_ops_t], over an arbitrary type of encoders. *)

From S2P Require Import Prelude RtpPacket Sfu.

Definition SIMULCAST_LAYER_COUNT : Z := 3.
Definition TURBO_CODEC_MAX_PACKETS : Z := 64.
Definition TURBO_CODEC_OK : Z := 0.
Definition RTP_CLOCK_VIDEO : Z := 90000.

(* ------------------------------------------------------------------ *)
(** ** Scaler *)

(** [(i * n) / d] on [int]. *)
Definition scaled (i n d : Z) : res Z :=
  m ← int_of (i * n); if d =? 0 then Fault else Ok (Z.quot m d).

(** The loop over [x]: [n] samples from column [x] on.  [srow] and [drow] are
    the index of the row's first sample in the plane, [soff] and [doff] the
    plane's place in the frame. *)
Fixpoint scale_row (src : list Z) (soff srow src_w : Z) (dst : list Z) (doff drow dst_w : Z)
    (x : Z) (n : nat) : res (list Z) :=
  match n with
  | O => Ok dst
  | S n =>
    src_x ← scaled x src_w dst_w;
    si ← int_of (srow + src_x);
    di ← int_of (drow + x);
    v ← rd src (soff + si);
    dst ← upd dst (doff + di) v;
    scale_row src soff srow src_w dst doff drow dst_w (x + 1) n
  end.

(** The loop over [y]: [n] rows from row [y] on. *)
Fixpoint scale_plane (src : list Z) (soff src_w src_h : Z) (dst : list Z)
    (doff dst_w dst_h : Z) (y : Z) (n : nat) : res (list Z) :=
  match n with
  | O => Ok dst
  | S n =>
    src_y ← scaled y src_h dst_h;
    srow ← (if 0 <? dst_w then int_of (src_y * src_w) else Ok 0);
    drow ← (if 0 <? dst_w then int_of (y * dst_w) else Ok 0);
    dst ← scale_row src soff srow src_w dst doff drow dst_w 0 (Z.to_nat dst_w);
    scale_plane src soff src_w src_h dst doff dst_w dst_h (y + 1) n
  end.

Definition scale_frame_simple (src : list Z) (src_w src_h : Z) (dst : list Z)
    (dst_w dst_h : Z) : res (list Z) :=
  dst ← scale_plane src 0 src_w src_h dst 0 dst_w dst_h 0 (Z.to_nat dst_h);
  let src_uv_w := Z.quot src_w 2 in
  let src_uv_h := Z.quot src_h 2 in
  let dst_uv_w := Z.quot dst_w 2 in
  let dst_uv_h := Z.quot dst_h 2 in
  src_y_size ← int_of (src_w * src_h);
  dst_y_size ← int_of (dst_w * dst_h);
  src_uv_size ← int_of (src_uv_w * src_uv_h);
  dst_uv_size ← int_of (dst_uv_w * dst_uv_h);
  dst ← scale_plane src src_y_size src_uv_w src_uv_h
          dst dst_y_size dst_uv_w dst_uv_h 0 (Z.to_nat dst_uv_h);
  scale_plane src (src_y_size + src_uv_size) src_uv_w src_uv_h
    dst (dst_y_size + dst_uv_size) dst_uv_w dst_uv_h 0 (Z.to_nat dst_uv_h).

(** Reference: the plane of the samples nearest to each position. *)
Definition nearest_row (src : list Z) (soff src_w y' dst_w : Z) : list Z :=
  (fun x => nth (Z.to_nat (soff + y' * src_w + x * src_w / dst_w)) src 0) <$> seqZ 0 dst_w.

Definition nearest_plane (src : list Z) (soff src_w src_h dst_w dst_h : Z) : list Z :=
  seqZ 0 dst_h ≫= fun y => nearest_row src soff src_w (y * src_h / dst_h) dst_w.

Definition nearest_frame (src : list Z) (sw sh dw dh : Z) : list Z :=
  nearest_plane src 0 sw sh dw dh ++
  nearest_plane src (sw * sh) (sw / 2) (sh / 2) (dw / 2) (dh / 2) ++
  nearest_plane src (sw * sh + (sw / 2) * (sh / 2)) (sw / 2) (sh / 2) (dw / 2) (dh / 2).

Lemma scaled_spec i n d :
  0 <= i < d -> 0 <= n -> d * n < 2147483648 ->
  scaled i n d = Ok (i * n / d) /\ 0 <= i * n / d /\ (0 < n -> i * n / d < n).
Proof.
  intros Hi Hn Hd. unfold scaled. rewrite int_of_Ok by (unfold is_s32; nia).
  cbn [mbind res_bind]. replace (d =? 0) with false by lia.
  rewrite Z.quot_div_nonneg by nia. split; [done|].
  split; [apply Z.div_pos; nia|]. intros. apply Z.div_lt_upper_bound; nia.
Qed.

Lemma nth_rd (src : list Z) i : 0 <= i < len src -> rd src i = Ok (nth (Z.to_nat i) src 0).
Proof.
  intros Hi. destruct (rd_in_range src i Hi) as [v Hv]. rewrite Hv.
  apply rd_lookup in Hv as [_ Hv]. by rewrite (nth_lookup_Some _ _ _ _ Hv).
Qed.

(** Row [y] of [h] rows of [w] samples, and frames of at most 2^30 samples. *)
Lemma row_bound y h w : 0 <= y < h -> 0 <= w -> 0 <= y * w /\ y * w + w <= w * h.
Proof. intros. nia. Qed.
Lemma area_bound w h : 0 <= w <= 32768 -> 0 <= h <= 32768 -> 0 <= w * h <= 1073741824.
Proof. intros. nia. Qed.

Section scale_plane.
Context (src : list Z) (soff src_w src_h doff dst_w dst_h : Z).
Context (Hsrc : 0 <= soff) (Hfit : soff + src_w * src_h <= len src).
Context (Hw : 0 <= dst_w <= src_w) (Hh : 0 <= dst_h <= src_h).
Context (Hmax : src_w <= 32768 /\ src_h <= 32768).

(** One row, from column [x] on. *)
Lemma scale_row_spec y' y n x pre old post :
  0 <= x -> x + Z.of_nat n = dst_w -> 0 <= y' < src_h -> 0 <= y < dst_h ->
  len pre = doff + (y * dst_w + x) -> len old = Z.of_nat n ->
  scale_row src soff (y' * src_w) src_w (pre ++ old ++ post) doff (y * dst_w) dst_w x n =
  Ok (pre ++ ((fun x => nth (Z.to_nat (soff + y' * src_w + x * src_w / dst_w)) src 0)
                <$> seqZ x (Z.of_nat n)) ++ post).
Proof.
  revert x pre old. induction n as [|n IH]; intros x pre old Hx Hn Hy' Hy Hpre Hold.
  { destruct old; [done|len_lia]. }
  destruct old as [|o old]; [len_lia|]. cbn [scale_row].
  destruct (scaled_spec x src_w dst_w) as (-> & Hs1 & Hs2);
    [lia..|pose proof (area_bound dst_w src_w); lia|].
  specialize (Hs2 ltac:(lia)). cbn [mbind res_bind].
  pose proof (row_bound y' src_h src_w). pose proof (row_bound y dst_h dst_w).
  pose proof (area_bound src_w src_h). pose proof (area_bound dst_w dst_h).
  rewrite !int_of_Ok by (unfold is_s32; lia). cbn [mbind res_bind].
  rewrite nth_rd by lia. cbn [mbind res_bind].
  change ((o :: old) ++ post) with (o :: (old ++ post)).
  rewrite (upd_mid pre) by lia. cbn [mbind res_bind].
  rewrite (seqZ_cons x) by lia. cbn [fmap list_fmap].
  replace (Z.pred (Z.of_nat (S n))) with (Z.of_nat n) by lia.
  set (v := nth _ src 0). rewrite (cons_middle v), (app_assoc pre).
  rewrite IH; [|lia..| |len_lia].
  { unfold v. rewrite <- app_assoc, Z.add_assoc. done. }
  rewrite len_app. unfold len at 2. cbn [length]. lia.
Qed.

Lemma len_nearest_row y' : len (nearest_row src soff src_w y' dst_w) = dst_w.
Proof. unfold nearest_row. rewrite len_map. unfold len. rewrite length_seqZ. lia. Qed.

(** The rows from [y] on. *)
Lemma scale_plane_rows n y pre old post :
  0 <= y -> y + Z.of_nat n = dst_h -> len pre = doff + y * dst_w ->
  len old = Z.of_nat n * dst_w ->
  scale_plane src soff src_w src_h (pre ++ old ++ post) doff dst_w dst_h y n =
  Ok (pre ++ (seqZ y (Z.of_nat n) ≫= fun y => nearest_row src soff src_w (y * src_h / dst_h) dst_w)
          ++ post).
Proof.
  revert y pre old. induction n as [|n IH]; intros y pre old Hy Hn Hpre Hold.
  { destruct old; [done|len_lia]. }
  replace (Z.of_nat (S n) * dst_w) with (dst_w + Z.of_nat n * dst_w) in Hold by lia.
  assert (0 <= Z.of_nat n * dst_w) by (apply Z.mul_nonneg_nonneg; lia).
  cbn [scale_plane].
  destruct (scaled_spec y src_h dst_h) as (-> & Hs1 & Hs2);
    [lia..|pose proof (area_bound dst_h src_h); lia|].
  specialize (Hs2 ltac:(lia)). cbn [mbind res_bind].
  set (y' := y * src_h / dst_h) in *.
  rewrite (seqZ_cons y) by lia. cbn [mbind list_bind].
  replace (Z.pred (Z.of_nat (S n))) with (Z.of_nat n) by lia.
  rewrite <- (take_drop (Z.to_nat dst_w) old), <- !(app_assoc _ (drop _ old)).
  assert (Hlt : len (take (Z.to_nat dst_w) old) = dst_w) by (rewrite len_take, Z2Nat.id by lia; lia).
  pose proof (row_bound y' src_h src_w). pose proof (row_bound y dst_h dst_w).
  pose proof (area_bound src_w src_h). pose proof (area_bound dst_w dst_h).
  destruct (Z.ltb_spec 0 dst_w).
  - rewrite !int_of_Ok by (unfold is_s32; lia). cbn [mbind res_bind].
    rewrite scale_row_spec; [|lia|lia|lia|lia|lia|rewrite Hlt; lia].
    rewrite Z2Nat.id by lia. fold (nearest_row src soff src_w y' dst_w).
    cbn [mbind res_bind]. rewrite (app_assoc pre).
    rewrite IH; [by rewrite <- !app_assoc|lia|lia| |].
    + rewrite len_app, len_nearest_row. lia.
    + rewrite len_drop, Z2Nat.id by lia. rewrite Hold. lia.
  - assert (dst_w = 0) as -> by lia. change (Z.to_nat 0) with 0%nat.
    rewrite take_0, drop_0. cbn [mbind res_bind scale_row app].
    rewrite IH; [done|lia|lia|lia|lia].
Qed.

Lemma len_nearest_plane : len (nearest_plane src soff src_w src_h dst_w dst_h) = dst_w * dst_h.
Proof.
  unfold nearest_plane. generalize 0 at 1 as y0.
  assert (Hl : forall n y0, len (seqZ y0 (Z.of_nat n) ≫= fun y =>
            nearest_row src soff src_w (y * src_h / dst_h) dst_w) = dst_w * Z.of_nat n).
  { induction n as [|n IH]; intros y0; [by rewrite Z.mul_0_r|].
    rewrite seqZ_cons by lia. cbn [mbind list_bind]. rewrite len_app, len_nearest_row.
    replace (Z.pred (Z.of_nat (S n))) with (Z.of_nat n) by lia.
    unfold mbind in IH. rewrite IH. lia. }
  intros y0. specialize (Hl (Z.to_nat dst_h) y0). by rewrite Z2Nat.id in Hl by lia.
Qed.

Lemma scale_plane_spec pre old post :
  len pre = doff -> len old = dst_w * dst_h ->
  scale_plane src soff src_w src_h (pre ++ old ++ post) doff dst_w dst_h 0 (Z.to_nat dst_h) =
  Ok (pre ++ nearest_plane src soff src_w src_h dst_w dst_h ++ post).
Proof.
  intros. rewrite scale_plane_rows by lia. by rewrite Z2Nat.id by lia.
Qed.
End scale_plane.

Definition frame_samples (w h : Z) : Z := w * h + 2 * ((w / 2) * (h / 2)).

Lemma half_bounds a b : 0 <= a <= b -> b <= 32768 -> 0 <= a / 2 <= b / 2 /\ b / 2 <= 32768.
Proof. intros. zmod_lia. Qed.

Lemma scale_frame_spec src sw sh dst dw dh :
  0 <= dw <= sw -> 0 <= dh <= sh -> sw <= 32768 /\ sh <= 32768 ->
  frame_samples sw sh <= len src -> frame_samples dw dh <= len dst ->
  scale_frame_simple src sw sh dst dw dh =
  Ok (nearest_frame src sw sh dw dh ++ drop (Z.to_nat (frame_samples dw dh)) dst).
Proof.
  intros Hw Hh [Hmw Hmh] Hs Hd. unfold scale_frame_simple, nearest_frame, frame_samples in *.
  destruct (half_bounds dw sw Hw Hmw) as [Hw2 Hmw2].
  destruct (half_bounds dh sh Hh Hmh) as [Hh2 Hmh2].
  rewrite !Z.quot_div_nonneg by lia.
  pose proof (area_bound sw sh). pose proof (area_bound dw dh).
  pose proof (area_bound (sw / 2) (sh / 2)). pose proof (area_bound (dw / 2) (dh / 2)).
  set (suv := sw / 2 * (sh / 2)) in *. set (duv := dw / 2 * (dh / 2)) in *.
  rewrite !int_of_Ok by (unfold is_s32; lia). cbn [mbind res_bind].
  set (rest := drop (Z.to_nat (dw * dh + 2 * duv)) dst).
  assert (Hdst : exists a b c, dst = [] ++ a ++ b ++ c ++ rest /\
    len a = dw * dh /\ len b = duv /\ len c = duv).
  { exists (take (Z.to_nat (dw * dh)) dst), (take (Z.to_nat duv) (drop (Z.to_nat (dw * dh)) dst)),
      (take (Z.to_nat duv) (drop (Z.to_nat (dw * dh + duv)) dst)).
    split_and!; [|rewrite ?len_take, ?len_drop; lia..].
    unfold rest. rewrite <- (take_drop (Z.to_nat (dw * dh)) dst) at 1. cbn [app]. f_equal.
    rewrite <- (take_drop (Z.to_nat duv) (drop _ dst)) at 1. f_equal.
    rewrite drop_drop, <- Z2Nat.inj_add by lia.
    rewrite <- (take_drop (Z.to_nat duv) (drop _ dst)) at 1. f_equal.
    rewrite drop_drop, <- Z2Nat.inj_add by lia. do 2 f_equal. lia. }
  clearbody rest. destruct Hdst as (a & b & c & -> & Ha & Hb & Hc).
  rewrite (scale_plane_spec src 0 sw sh 0 dw dh) by (done || lia).
  cbn [mbind res_bind app].
  rewrite (scale_plane_spec src (sw * sh) (sw / 2) (sh / 2)); [|lia..|split; lia| |lia].
  2: { apply len_nearest_plane; lia. }
  cbn [mbind res_bind]. rewrite (app_assoc (nearest_plane src 0 _ _ _ _)).
  rewrite (scale_plane_spec src (sw * sh + suv) (sw / 2) (sh / 2)); [|lia..|split; lia| |lia].
  2: { rewrite len_app, !len_nearest_plane by lia. done. }
  by rewrite <- !app_assoc.
Qed.

(* ------------------------------------------------------------------ *)
(** ** Codec *)

Record turbo_video_codec_config_t := {
  cc_width : Z;
  cc_height : Z;
  cc_framerate : Z;
  cc_bitrate : Z;
  cc_keyframe_interval : Z;
  cc_threads : Z }.

(** [fr_data] is [NULL] or the bytes at the pointer. *)
Record turbo_rtp_fragment_t := {
  fr_data : option (list Z);
  fr_len : Z;
  fr_marker : Z;
  fr_start : Z;
  fr_end : Z }.

Definition zero_fragment : turbo_rtp_fragment_t := Build_turbo_rtp_fragment_t None 0 0 0 0.

(** What a call to [encode] leaves: the encoder, its result, the output buffer,
    [*output_len] and [*info]. *)
Record encoded (E I : Type) := {
  en_encoder : E;
  en_ret : Z;
  en_output : option (list Z);
  en_len : Z;
  en_info : I }.
Arguments en_encoder {E I}. Arguments en_ret {E I}. Arguments en_output {E I}.
Arguments en_len {E I}. Arguments en_info {E I}.

(** The function pointers this file calls, on encoders [E] and frame
    descriptions [I].  [packetize], [request_keyframe] and [set_bitrate] may be
    [NULL]. *)
Record turbo_codec_ops_t (E I : Type) := {
  op_payload_type : Z;
  op_create_encoder : turbo_video_codec_config_t -> option E;
  op_encode : E -> list Z -> Z -> option (list Z) -> Z -> encoded E I;
  op_packetize : option (E -> I -> list turbo_rtp_fragment_t -> Z -> Z ->
                      E * list turbo_rtp_fragment_t * Z);
  op_request_keyframe : option (E -> E);
  op_set_bitrate : option (E -> Z -> E) }.
Arguments op_payload_type {E I}. Arguments op_create_encoder {E I}. Arguments op_encode {E I}.
Arguments op_packetize {E I}. Arguments op_request_keyframe {E I}. Arguments op_set_bitrate {E I}.

(* ------------------------------------------------------------------ *)
(** ** Data *)

Record simulcast_layer_ctx_t (E I : Type) := {
  ly_layer : Z;
  ly_width : Z;
  ly_height : Z;
  ly_target_bitrate : Z;
  ly_min_bitrate : Z;
  ly_max_bitrate : Z;
  ly_framerate : Z;
  ly_ssrc : Z;
  ly_seq_num : Z;
  ly_timestamp : Z;
  ly_encoder_ctx : E;
  ly_codec : turbo_codec_ops_t E I;
  ly_active : Z;
  ly_last_encode_time : Z;
  ly_bytes_sent : Z;
  ly_frames_encoded : Z;
  ly_encode_buffer : option (list Z);
  ly_encode_buffer_size : Z;
  ly_rtp_buffer : option (list Z);
  ly_rtp_buffer_size : Z }.
Arguments ly_layer {E I}. Arguments ly_width {E I}. Arguments ly_height {E I}.
Arguments ly_target_bitrate {E I}. Arguments ly_min_bitrate {E I}.
Arguments ly_max_bitrate {E I}. Arguments ly_framerate {E I}. Arguments ly_ssrc {E I}.
Arguments ly_seq_num {E I}. Arguments ly_timestamp {E I}. Arguments ly_encoder_ctx {E I}.
Arguments ly_codec {E I}. Arguments ly_active {E I}. Arguments ly_last_encode_time {E I}.
Arguments ly_bytes_sent {E I}. Arguments ly_frames_encoded {E I}.
Arguments ly_encode_buffer {E I}. Arguments ly_encode_buffer_size {E I}.
Arguments ly_rtp_buffer {E I}. Arguments ly_rtp_buffer_size {E I}.
Arguments Build_simulcast_layer_ctx_t {E I}.

Record simulcast_ctx_t (E I : Type) := {
  layers : list (simulcast_layer_ctx_t E I);
  source_width : Z;
  source_height : Z;
  source_framerate : Z;
  active_layer_mask : Z;
  available_bandwidth : Z;
  on_rtp_packet : option Z;
  user_data : Z;
  total_bytes_sent : Z;
  total_frames_encoded : Z }.
Arguments layers {E I}. Arguments source_width {E I}. Arguments source_height {E I}.
Arguments source_framerate {E I}. Arguments active_layer_mask {E I}.
Arguments available_bandwidth {E I}. Arguments on_rtp_packet {E I}.
Arguments user_data {E I}. Arguments total_bytes_sent {E I}.
Arguments total_frames_encoded {E I}. Arguments Build_simulcast_ctx_t {E I}.

(** A call [on_rtp_packet(user_data, layer, packet, len)]. *)
Record rtp_event := {
  ev_callback : Z;
  ev_user_data : Z;
  ev_layer : Z;
  ev_packet : list Z;
  ev_len : Z }.

Section simulcast.
  Context {E I : Type}.
  Implicit Types (l : simulcast_layer_ctx_t E I) (c : simulcast_ctx_t E I).

Definition set_active l (a : Z) : simulcast_layer_ctx_t E I :=
  Build_simulcast_layer_ctx_t (ly_layer l) (ly_width l) (ly_height l) (ly_target_bitrate l)
    (ly_min_bitrate l) (ly_max_bitrate l) (ly_framerate l) (ly_ssrc l) (ly_seq_num l)
    (ly_timestamp l) (ly_encoder_ctx l) (ly_codec l) a (ly_last_encode_time l)
    (ly_bytes_sent l) (ly_frames_encoded l) (ly_encode_buffer l) (ly_encode_buffer_size l)
    (ly_rtp_buffer l) (ly_rtp_buffer_size l).

Definition set_encoder l (e : E) : simulcast_layer_ctx_t E I :=
  Build_simulcast_layer_ctx_t (ly_layer l) (ly_width l) (ly_height l) (ly_target_bitrate l)
    (ly_min_bitrate l) (ly_max_bitrate l) (ly_framerate l) (ly_ssrc l) (ly_seq_num l)
    (ly_timestamp l) e (ly_codec l) (ly_active l) (ly_last_encode_time l)
    (ly_bytes_sent l) (ly_frames_encoded l) (ly_encode_buffer l) (ly_encode_buffer_size l)
    (ly_rtp_buffer l) (ly_rtp_buffer_size l).

Definition set_target l (b : Z) : simulcast_layer_ctx_t E I :=
  Build_simulcast_layer_ctx_t (ly_layer l) (ly_width l) (ly_height l) b
    (ly_min_bitrate l) (ly_max_bitrate l) (ly_framerate l) (ly_ssrc l) (ly_seq_num l)
    (ly_timestamp l) (ly_encoder_ctx l) (ly_codec l) (ly_active l) (ly_last_encode_time l)
    (ly_bytes_sent l) (ly_frames_encoded l) (ly_encode_buffer l) (ly_encode_buffer_size l)
    (ly_rtp_buffer l) (ly_rtp_buffer_size l).

Definition set_ssrc l (s : Z) : simulcast_layer_ctx_t E I :=
  Build_simulcast_layer_ctx_t (ly_layer l) (ly_width l) (ly_height l) (ly_target_bitrate l)
    (ly_min_bitrate l) (ly_max_bitrate l) (ly_framerate l) s (ly_seq_num l)
    (ly_timestamp l) (ly_encoder_ctx l) (ly_codec l) (ly_active l) (ly_last_encode_time l)
    (ly_bytes_sent l) (ly_frames_encoded l) (ly_encode_buffer l) (ly_encode_buffer_size l)
    (ly_rtp_buffer l) (ly_rtp_buffer_size l).

(** The encoder and its output buffer after a call to the codec. *)
Definition set_output l (e : E) (b : option (list Z)) : simulcast_layer_ctx_t E I :=
  Build_simulcast_layer_ctx_t (ly_layer l) (ly_width l) (ly_height l) (ly_target_bitrate l)
    (ly_min_bitrate l) (ly_max_bitrate l) (ly_framerate l) (ly_ssrc l) (ly_seq_num l)
    (ly_timestamp l) e (ly_codec l) (ly_active l) (ly_last_encode_time l)
    (ly_bytes_sent l) (ly_frames_encoded l) b (ly_encode_buffer_size l)
    (ly_rtp_buffer l) (ly_rtp_buffer_size l).

Definition set_clock l (timestamp last_encode_time frames : Z) : simulcast_layer_ctx_t E I :=
  Build_simulcast_layer_ctx_t (ly_layer l) (ly_width l) (ly_height l) (ly_target_bitrate l)
    (ly_min_bitrate l) (ly_max_bitrate l) (ly_framerate l) (ly_ssrc l) (ly_seq_num l)
    timestamp (ly_encoder_ctx l) (ly_codec l) (ly_active l) last_encode_time
    (ly_bytes_sent l) frames (ly_encode_buffer l) (ly_encode_buffer_size l)
    (ly_rtp_buffer l) (ly_rtp_buffer_size l).

Definition set_sent l (seq bytes_sent : Z) (b : option (list Z)) : simulcast_layer_ctx_t E I :=
  Build_simulcast_layer_ctx_t (ly_layer l) (ly_width l) (ly_height l) (ly_target_bitrate l)
    (ly_min_bitrate l) (ly_max_bitrate l) (ly_framerate l) (ly_ssrc l) seq
    (ly_timestamp l) (ly_encoder_ctx l) (ly_codec l) (ly_active l) (ly_last_encode_time l)
    bytes_sent (ly_frames_encoded l) (ly_encode_buffer l) (ly_encode_buffer_size l)
    b (ly_rtp_buffer_size l).

Definition set_layers c (ls : list (simulcast_layer_ctx_t E I)) : simulcast_ctx_t E I :=
  Build_simulcast_ctx_t ls (source_width c) (source_height c) (source_framerate c)
    (active_layer_mask c) (available_bandwidth c) (on_rtp_packet c) (user_data c)
    (total_bytes_sent c) (total_frames_encoded c).

Definition set_mask c (m : Z) : simulcast_ctx_t E I :=
  Build_simulcast_ctx_t (layers c) (source_width c) (source_height c) (source_framerate c)
    m (available_bandwidth c) (on_rtp_packet c) (user_data c)
    (total_bytes_sent c) (total_frames_encoded c).

Definition set_totals c (b f : Z) : simulcast_ctx_t E I :=
  Build_simulcast_ctx_t (layers c) (source_width c) (source_height c) (source_framerate c)
    (active_layer_mask c) (available_bandwidth c) (on_rtp_packet c) (user_data c) b f.

(* ------------------------------------------------------------------ *)
(** ** Creation *)

(** The preset of a layer: size, framerate, and target, minimal and maximal
    bitrate; the layer is one of the three. *)
Definition layer_preset (layer_id source_width source_height source_framerate : Z)
    : Z * Z * Z * Z * Z * Z :=
  if layer_id =? SIMULCAST_LAYER_LOW then
    (Z.quot source_width 4, Z.quot source_height 4, Z.quot source_framerate 2,
     150000, 100000, 250000)
  else if layer_id =? SIMULCAST_LAYER_MEDIUM then
    (Z.quot source_width 2, Z.quot source_height 2, source_framerate, 500000, 300000, 800000)
  else if layer_id =? SIMULCAST_LAYER_HIGH then
    (source_width, source_height, source_framerate, 1500000, 800000, 2500000)
  else (0, 0, 0, 0, 0, 0).

(** [simulcast_configure_layer] of a zeroed layer, with the encoder and the SSRC
    that [turbo_simulcast_create] then gives it.  The buffers are those that
    [malloc] returned. *)
Definition simulcast_configure_layer (layer_id width height framerate : Z)
    (encode_buffer rtp_buffer : option (list Z)) (codec : turbo_codec_ops_t E I) (e : E)
    (ssrc : Z) : simulcast_layer_ctx_t E I :=
  let '(w, h, f, target, bmin, bmax) := layer_preset layer_id width height framerate in
  Build_simulcast_layer_ctx_t layer_id w h target bmin bmax f ssrc 0 0 e codec 0 0 0 0
    encode_buffer (1024 * 1024) rtp_buffer RTP_MAX_PACKET.

(** The loop over the layers; [buffers] are the results of [malloc]. *)
Fixpoint create_layers (width height framerate : Z) (codec : turbo_codec_ops_t E I)
    (buffers : Z -> option (list Z) * option (list Z)) (i : Z) (n : nat)
    : res (list (simulcast_layer_ctx_t E I)) :=
  match n with
  | O => Ok []
  | S n =>
    let '(w, h, f, target, _, _) := layer_preset i width height framerate in
    keyframe_interval ← int_of (framerate * 2);
    let config := Build_turbo_video_codec_config_t w h f target keyframe_interval 2 in
    let? e := op_create_encoder codec config else Err in
    ls ← create_layers width height framerate codec buffers (i + 1) n;
    Ok (simulcast_configure_layer i width height framerate (buffers i).1 (buffers i).2
          codec e (305419896 + i) :: ls)
  end.

Definition turbo_simulcast_create (width height framerate : Z)
    (codec : option (turbo_codec_ops_t E I)) (mem : bool)
    (buffers : Z -> option (list Z) * option (list Z)) : res (simulcast_ctx_t E I) :=
  let? codec := codec else Err in
  if (width <=? 0) || (height <=? 0) || (framerate <=? 0) then Err else
  if negb mem then Err else
  ls ← create_layers width height framerate codec buffers 0 (Z.to_nat SIMULCAST_LAYER_COUNT);
  Ok (Build_simulcast_ctx_t ls width height framerate 7 2500000 None 0 0 0).

(* ------------------------------------------------------------------ *)
(** ** Layer selection *)

Definition bandwidth_mask (bw : Z) : Z :=
  if 2000000 <=? bw then 7 else if 1000000 <=? bw then 3 else if 300000 <=? bw then 1 else 0.

(** The body of the loop for one layer. *)
Definition update_layer (new_mask i : Z) l : simulcast_layer_ctx_t E I :=
  let should_be_active := b2i (negb (Z.land new_mask (Z.shiftl 1 i) =? 0)) in
  let l := if truth should_be_active && negb (truth (ly_active l))
           then match op_request_keyframe (ly_codec l) with
                | Some rk => set_encoder l (rk (ly_encoder_ctx l))
                | None => l
                end
           else l in
  set_active l should_be_active.

Definition simulcast_update_active_layers c : simulcast_ctx_t E I :=
  let new_mask := bandwidth_mask (available_bandwidth c) in
  set_mask (set_layers c (imap (fun i => update_layer new_mask (Z.of_nat i)) (layers c)))
    new_mask.

Definition turbo_simulcast_set_bandwidth (ctx : option (simulcast_ctx_t E I))
    (bandwidth_bps : Z) : option (simulcast_ctx_t E I) :=
  let? c := ctx else None in
  Some (simulcast_update_active_layers
    (Build_simulcast_ctx_t (layers c) (source_width c) (source_height c) (source_framerate c)
       (active_layer_mask c) bandwidth_bps (on_rtp_packet c) (user_data c)
       (total_bytes_sent c) (total_frames_encoded c))).

(* ------------------------------------------------------------------ *)
(** ** Encoding a frame *)

(** [int64_t] arithmetic, whose overflow is undefined. *)
Definition int64_of (z : Z) : res Z :=
  if (-9223372036854775808 <=? z) && (z <? 9223372036854775808) then Ok z else Fault.

(** The loop over the fragments: fragments [i] to [i + n - 1] of [fs].  [total]
    is [ctx->total_bytes_sent]. *)
Fixpoint send_fragments (cb ud rtp_timestamp : Z) (fs : list turbo_rtp_fragment_t) (i : Z)
    (n : nat) l (total : Z) : res (simulcast_layer_ctx_t E I * Z * list rtp_event) :=
  match n with
  | O => Ok (l, total, [])
  | S n =>
    f ← rd fs i;
    let seq := u16 (ly_seq_num l + 1) in
    match rtp_packet_build (Some rtp_packet_zero) (u8 (op_payload_type (ly_codec l)))
            (ly_seq_num l) rtp_timestamp (ly_ssrc l)
            (b2i (truth (fr_marker f) || truth (fr_end f)))
            (fr_data f) (fr_len f) (ly_rtp_buffer l) (ly_rtp_buffer_size l) with
    | Fault => Fault
    | Err => send_fragments cb ud rtp_timestamp fs (i + 1) n
               (set_sent l seq (ly_bytes_sent l) (ly_rtp_buffer l)) total
    | Ok (_, out, packet_len) =>
      if packet_len <=? 0
      then send_fragments cb ud rtp_timestamp fs (i + 1) n
             (set_sent l seq (ly_bytes_sent l) (Some out)) total
      else
        packet ← rd_slice out 0 packet_len;
        r ← send_fragments cb ud rtp_timestamp fs (i + 1) n
              (set_sent l seq (ly_bytes_sent l + packet_len) (Some out))
              (total + packet_len);
        Ok (r.1, Build_rtp_event cb ud (ly_layer l) packet packet_len :: r.2)
    end
  end.

(** The frame at the layer's size, with its length; [None] when there is no
    memory for it. *)
Definition scaled_input c l (frame_data : list Z) (frame_len : Z)
    (malloc : Z -> Z -> option (list Z)) : res (option (list Z * Z)) :=
  if (ly_width l =? source_width c) && (ly_height l =? source_height c)
  then Ok (Some (frame_data, frame_len)) else
  a ← int_of (ly_width l * ly_height l);
  b ← int_of (a * 3);
  let scaled_len := u64 (Z.quot b 2) in
  let? dst := malloc (ly_layer l) scaled_len else Ok None in
  s ← scale_frame_simple frame_data (source_width c) (source_height c) dst
        (ly_width l) (ly_height l);
  Ok (Some (s, scaled_len)).

(** The timestamp of the packets, and the layer's next one. *)
Definition rtp_timestamps (timestamp_us timestamp timestamp_step : Z) : Z * Z :=
  if 0 <? timestamp_us then
    let scaled_ts := u64 (u64 timestamp_us * RTP_CLOCK_VIDEO) / 1000000 in
    (u32 scaled_ts, u32 (u32 scaled_ts + timestamp_step))
  else (timestamp, u32 (timestamp + timestamp_step)).

(** The fragments of the encoded frame and their number. *)
Definition packetize_frame l (info : I) (encoded_len : Z)
    : res (simulcast_layer_ctx_t E I * list turbo_rtp_fragment_t * Z) :=
  let fragments := replicate (Z.to_nat TURBO_CODEC_MAX_PACKETS) zero_fragment in
  let '(l, fs, count) :=
    match op_packetize (ly_codec l) with
    | Some p =>
      let '(e, fs, n) := p (ly_encoder_ctx l) info fragments TURBO_CODEC_MAX_PACKETS
                           (RTP_MAX_PACKET - RTP_HEADER_SIZE) in
      (set_encoder l e, fs, if n <? 0 then 0 else n)
    | None => (l, fragments, 0)
    end in
  if count =? 0
  then fs ← upd fs 0 (Build_turbo_rtp_fragment_t (ly_encode_buffer l) encoded_len 1 1 1);
       Ok (l, fs, 1)
  else Ok (l, fs, count).

(** The body of the loop for one layer: the layer, the total of bytes sent, and
    whether a frame was encoded. *)
Definition encode_layer c l (frame_data : list Z) (frame_len timestamp_us : Z)
    (malloc : Z -> Z -> option (list Z)) (total : Z)
    : res (simulcast_layer_ctx_t E I * Z * Z * list rtp_event) :=
  if negb (truth (ly_active l)) then Ok (l, total, 0, []) else
  if ly_framerate l =? 0 then Fault else
  let frame_interval_us := Z.quot 1000000 (ly_framerate l) in
  elapsed ← int64_of (timestamp_us - ly_last_encode_time l);
  if elapsed <? frame_interval_us then Ok (l, total, 0, []) else
  input ← scaled_input c l frame_data frame_len malloc;
  let? inp := input else Ok (l, total, 0, []) in
  let '(input, input_len) := inp in
  let timestamp_step :=
    u32 (Z.quot RTP_CLOCK_VIDEO (if 0 <? ly_framerate l then ly_framerate l else 30)) in
  let r := op_encode (ly_codec l) (ly_encoder_ctx l) input input_len (ly_encode_buffer l)
             (ly_encode_buffer_size l) in
  let l := set_output l (en_encoder r) (en_output r) in
  if negb (en_ret r =? TURBO_CODEC_OK) || (en_len r =? 0) then Ok (l, total, 0, []) else
  let ts := rtp_timestamps timestamp_us (ly_timestamp l) timestamp_step in
  frames ← int_of (ly_frames_encoded l + 1);
  let l := set_clock l ts.2 timestamp_us frames in
  let? cb := on_rtp_packet c else Ok (l, total, 1, []) in
  p ← packetize_frame l (en_info r) (en_len r);
  let '(l, fs, count) := p in
  s ← send_fragments cb (user_data c) ts.1 fs 0 (Z.to_nat count) l total;
  Ok (s.1.1, s.1.2, 1, s.2).

(** The loop over the layers. *)
Fixpoint encode_layers c (ls : list (simulcast_layer_ctx_t E I)) (frame_data : list Z)
    (frame_len timestamp_us : Z) (malloc : Z -> Z -> option (list Z)) (total : Z)
    : res (list (simulcast_layer_ctx_t E I) * Z * Z * list rtp_event) :=
  match ls with
  | [] => Ok ([], total, 0, [])
  | l :: ls =>
    r ← encode_layer c l frame_data frame_len timestamp_us malloc total;
    let '(l, total, n, evs) := r in
    r ← encode_layers c ls frame_data frame_len timestamp_us malloc total;
    let '(ls, total, m, evs') := r in
    Ok (l :: ls, total, n + m, evs ++ evs')
  end.

(** [malloc] answers the allocation of a layer's scaled frame. *)
Definition turbo_simulcast_encode_frame (ctx : option (simulcast_ctx_t E I))
    (frame_data : option (list Z)) (frame_len timestamp_us : Z)
    (malloc : Z -> Z -> option (list Z))
    : res (simulcast_ctx_t E I * Z * list rtp_event) :=
  let? c := ctx else Err in
  let? frame := frame_data else Err in
  r ← encode_layers c (layers c) frame frame_len timestamp_us malloc (total_bytes_sent c);
  let '(ls, total, frames_encoded, evs) := r in
  Ok (set_totals (set_layers c ls) total (total_frames_encoded c + frames_encoded),
      frames_encoded, evs).

(* ------------------------------------------------------------------ *)
(** ** Control and statistics *)

(** [layer] has the unsigned type of its enumeration. *)
Definition turbo_simulcast_enable_layer (ctx : option (simulcast_ctx_t E I))
    (layer enable : Z) : res (option (simulcast_ctx_t E I)) :=
  let? c := ctx else Ok None in
  if SIMULCAST_LAYER_COUNT <=? layer then Ok (Some c) else
  let mask := if truth enable then Z.lor (active_layer_mask c) (Z.shiftl 1 layer)
              else Z.land (active_layer_mask c) (Z.lnot (Z.shiftl 1 layer)) in
  l ← rd (layers c) layer;
  ls ← upd (layers c) layer (set_active l enable);
  Ok (Some (set_mask (set_layers c ls) mask)).

Definition turbo_simulcast_is_layer_active (ctx : option (simulcast_ctx_t E I))
    (layer : Z) : res Z :=
  let? c := ctx else Ok 0 in
  if SIMULCAST_LAYER_COUNT <=? layer then Ok 0 else
  l ← rd (layers c) layer; Ok (ly_active l).

Definition turbo_simulcast_request_keyframe (ctx : option (simulcast_ctx_t E I))
    (layer : Z) : res (option (simulcast_ctx_t E I)) :=
  let? c := ctx else Ok None in
  if SIMULCAST_LAYER_COUNT <=? layer then Ok (Some c) else
  l ← rd (layers c) layer;
  match op_request_keyframe (ly_codec l) with
  | Some rk =>
    if truth (ly_active l)
    then ls ← upd (layers c) layer (set_encoder l (rk (ly_encoder_ctx l)));
         Ok (Some (set_layers c ls))
    else Ok (Some c)
  | None => Ok (Some c)
  end.

Definition turbo_simulcast_set_layer_bitrate (ctx : option (simulcast_ctx_t E I))
    (layer bitrate_bps : Z) : res (option (simulcast_ctx_t E I)) :=
  let? c := ctx else Ok None in
  if SIMULCAST_LAYER_COUNT <=? layer then Ok (Some c) else
  l ← rd (layers c) layer;
  let b := if bitrate_bps <? ly_min_bitrate l then ly_min_bitrate l else bitrate_bps in
  let b := if ly_max_bitrate l <? b then ly_max_bitrate l else b in
  let l := set_target l b in
  let l := match op_set_bitrate (ly_codec l) with
           | Some sb => set_encoder l (sb (ly_encoder_ctx l) b)
           | None => l
           end in
  ls ← upd (layers c) layer l;
  Ok (Some (set_layers c ls)).

Definition turbo_simulcast_set_rtp_callback (ctx : option (simulcast_ctx_t E I))
    (callback : option Z) (ud : Z) : option (simulcast_ctx_t E I) :=
  let? c := ctx else None in
  Some (Build_simulcast_ctx_t (layers c) (source_width c) (source_height c)
          (source_framerate c) (active_layer_mask c) (available_bandwidth c) callback ud
          (total_bytes_sent c) (total_frames_encoded c)).

(** [*width], [*height], [*bitrate], [*frames_encoded] and [*bytes_sent]; on
    [Err] they are not written. *)
Definition turbo_simulcast_get_layer_stats (ctx : option (simulcast_ctx_t E I)) (layer : Z)
    : res (Z * Z * Z * Z * Z) :=
  let? c := ctx else Err in
  if SIMULCAST_LAYER_COUNT <=? layer then Err else
  l ← rd (layers c) layer;
  Ok (ly_width l, ly_height l, ly_target_bitrate l, ly_frames_encoded l, ly_bytes_sent l).

Definition turbo_simulcast_get_layer_ssrc (ctx : option (simulcast_ctx_t E I)) (layer : Z)
    : res Z :=
  let? c := ctx else Ok 0 in
  if SIMULCAST_LAYER_COUNT <=? layer then Ok 0 else
  l ← rd (layers c) layer; Ok (ly_ssrc l).

Definition turbo_simulcast_set_layer_ssrc (ctx : option (simulcast_ctx_t E I))
    (layer ssrc : Z) : res (option (simulcast_ctx_t E I)) :=
  let? c := ctx else Ok None in
  if SIMULCAST_LAYER_COUNT <=? layer then Ok (Some c) else
  l ← rd (layers c) layer;
  ls ← upd (layers c) layer (set_ssrc l ssrc);
  Ok (Some (set_layers c ls)).

(* ------------------------------------------------------------------ *)
(** ** Packets of a frame *)

Definition fragment_fits (f : turbo_rtp_fragment_t) : bool :=
  RTP_HEADER_SIZE + fr_len f <=? RTP_MAX_PACKET.

(** A fragment points to its bytes. *)
Definition fragment_ok (f : turbo_rtp_fragment_t) : Prop :=
  is_u32 (fr_len f) /\ exists d, fr_data f = Some d /\ fr_len f <= len d /\ bytes d.

Definition fragment_payload (f : turbo_rtp_fragment_t) : list Z :=
  take (Z.to_nat (fr_len f)) (default [] (fr_data f)).

Definition fragment_header (f : turbo_rtp_fragment_t) (pt seq ts ssrc : Z) : rtp_header_t :=
  built_header pt seq ts ssrc (b2i (truth (fr_marker f) || truth (fr_end f))).

(** The calls for the fragments [fs], numbered from [seq]: a fragment that does
    not fit takes a number without being sent. *)
Fixpoint fragment_events (cb ud layer pt ssrc ts seq : Z) (fs : list turbo_rtp_fragment_t)
    : list rtp_event :=
  match fs with
  | [] => []
  | f :: fs =>
    (if fragment_fits f
     then [Build_rtp_event cb ud layer
             (rtp_wire (fragment_header f pt seq ts ssrc) [] [] (fragment_payload f))
             (RTP_HEADER_SIZE + fr_len f)]
     else []) ++ fragment_events cb ud layer pt ssrc ts (u16 (seq + 1)) fs
  end.

Definition sent (evs : list rtp_event) : Z := foldr Z.add 0 (ev_len <$> evs).

Lemma sent_app a b : sent (a ++ b) = sent a + sent b.
Proof. unfold sent. induction a as [|x a IH]; [done|]. cbn in *. lia. Qed.

(** What each of the calls hands to the network. *)
Definition event_parses (layer pt ssrc0 ts : Z) (ev : rtp_event) : Prop :=
  ev_layer ev = layer /\ ev_len ev = len (ev_packet ev) /\
  exists pkt, rtp_packet_parse (Some rtp_packet_zero) (Some (ev_packet ev)) (ev_len ev) = Ok pkt /\
    ssrc (header pkt) = ssrc0 /\ payload_type (header pkt) = Z.land pt 127 /\
    timestamp (header pkt) = ts.

Lemma len_payload f : fragment_ok f -> len (fragment_payload f) = fr_len f.
Proof.
  intros (Hl & d & Hd & Hle & _). unfold fragment_payload. rewrite Hd. cbn.
  unfold is_u32 in Hl. len_lia.
Qed.

Lemma len_built h pl : len (rtp_wire h [] [] pl) = RTP_HEADER_SIZE + len pl.
Proof. rewrite len_rtp_wire, ext_block_nil. change (@len Z []) with 0. unfold RTP_HEADER_SIZE. lia. Qed.

Lemma fragment_events_parse cb ud layer pt ssrc0 ts seq fs :
  is_u16 seq -> is_u32 ts -> is_u32 ssrc0 -> Forall fragment_ok fs ->
  Forall (event_parses layer pt ssrc0 ts) (fragment_events cb ud layer pt ssrc0 ts seq fs).
Proof.
  revert seq. induction fs as [|f fs IH]; intros seq Hs Ht Hr Hf; cbn [fragment_events]; [done|].
  apply Forall_cons in Hf as [Hf Hfs]. apply Forall_app.
  split; [|by apply IH; [apply u16_range|..]].
  destruct (fragment_fits f); [|done]. constructor; [|done].
  pose proof (len_payload f Hf) as Hlen. destruct Hf as (Hl & d & Hd & Hle & Hb).
  assert (Hpb : bytes (fragment_payload f)).
  { unfold fragment_payload. rewrite Hd. by apply Forall_take. }
  split; [done|]. cbn [ev_len ev_packet].
  split; [by rewrite len_built, Hlen|].
  destruct (built_parses rtp_packet_zero pt seq ts ssrc0
    (b2i (truth (fr_marker f) || truth (fr_end f))) (fragment_payload f) [] Hs Ht Hr Hpb)
    as (pkt & Hparse & Hh & _).
  rewrite app_nil_r, Hlen in Hparse. exists pkt. split; [exact Hparse|]. by rewrite Hh.
Qed.

Definition rtp_buffer_ok l : Prop :=
  ly_rtp_buffer_size l = RTP_MAX_PACKET /\
  exists b, ly_rtp_buffer l = Some b /\ len b = RTP_MAX_PACKET.

(** A fragment that fits is built into the buffer, and one that does not is
    refused. *)
Lemma build_fragment pt seq ts ss f b :
  fragment_ok f -> len b = RTP_MAX_PACKET ->
  let built := rtp_packet_build (Some rtp_packet_zero) pt seq ts ss
    (b2i (truth (fr_marker f) || truth (fr_end f))) (fr_data f) (fr_len f) (Some b) RTP_MAX_PACKET in
  let w := rtp_wire (fragment_header f pt seq ts ss) [] [] (fragment_payload f) in
  if fragment_fits f
  then exists pkt b', built = Ok (pkt, w ++ b', RTP_HEADER_SIZE + fr_len f) /\
         len w = RTP_HEADER_SIZE + fr_len f /\ len (w ++ b') = RTP_MAX_PACKET
  else built = Err.
Proof.
  intros Hf Hlb built w. pose proof (len_payload f Hf) as Hpl.
  destruct Hf as (Hlf & d & Hd & Hld & Hbd). unfold built. rewrite Hd.
  unfold fragment_fits, is_u32 in *.
  destruct (Z.leb_spec (RTP_HEADER_SIZE + fr_len f) RTP_MAX_PACKET) as [Hfit|Hfit].
  - unfold RTP_HEADER_SIZE, RTP_MAX_PACKET in *.
    destruct (build_spec rtp_packet_zero pt seq ts ss (b2i (truth (fr_marker f) || truth (fr_end f)))
      d (fr_len f) b) as (pkt & Hbld & _); [lia|lia|rewrite Hlb; done|].
    rewrite Hlb in Hbld. rewrite Hbld.
    assert (Hw : len w = 12 + fr_len f)
      by (unfold w; by rewrite len_built, Hpl).
    exists pkt, (drop (12 + Z.to_nat (fr_len f)) b). split_and!; [|done|].
    + unfold w, fragment_header, fragment_payload. by rewrite Hd.
    + rewrite len_app, len_drop, Hw, Hlb. lia.
  - unfold rtp_packet_build. rewrite u64_id by (unfold is_u64, RTP_HEADER_SIZE; lia).
    by replace (RTP_MAX_PACKET <? RTP_HEADER_SIZE + fr_len f) with true by lia.
Qed.

Lemma u16_step s n : u16 (u16 (s + 1) + Z.of_nat n) = u16 (s + Z.of_nat (S n)).
Proof. unfold u16. rewrite Zplus_mod_idemp_l. f_equal. lia. Qed.

Lemma send_fragments_spec cb ud ts fs n i l total :
  rtp_buffer_ok l -> is_u16 (ly_seq_num l) -> 0 <= i -> i + Z.of_nat n <= len fs ->
  Forall fragment_ok (take n (drop (Z.to_nat i) fs)) ->
  let evs := fragment_events cb ud (ly_layer l) (u8 (op_payload_type (ly_codec l))) (ly_ssrc l)
               ts (ly_seq_num l) (take n (drop (Z.to_nat i) fs)) in
  exists b, len b = RTP_MAX_PACKET /\
    send_fragments cb ud ts fs i n l total =
    Ok (set_sent l (u16 (ly_seq_num l + Z.of_nat n)) (ly_bytes_sent l + sent evs) (Some b),
        total + sent evs, evs).
Proof.
  revert i l total. induction n as [|n IH]; intros i l total (Hsz & b & Hb & Hlb) Hs Hi Hn Hf.
  { cbn [send_fragments take]. exists b. split; [done|]. cbn.
    rewrite !Z.add_0_r, u16_id by done. rewrite <- Hb. by destruct l. }
  cbn [send_fragments].
  destruct (rd_in_range fs i) as [f Hrd]; [lia|]. rewrite Hrd. cbn [mbind res_bind].
  apply rd_lookup in Hrd as [_ Hrd]. apply drop_S in Hrd. rewrite Hrd in Hf |- *.
  cbn [take] in *. apply Forall_cons in Hf as [Hf Hfs]. cbn [fragment_events].
  replace (S (Z.to_nat i)) with (Z.to_nat (i + 1)) in * by lia.
  pose proof (build_fragment (u8 (op_payload_type (ly_codec l))) (ly_seq_num l) ts (ly_ssrc l)
    f b Hf Hlb) as Hbuild. cbv zeta in Hbuild. rewrite Hsz, Hb.
  destruct (fragment_fits f).
  - destruct Hbuild as (pkt & b1 & -> & Hw & Hl1). unfold is_u32, RTP_HEADER_SIZE in *.
    destruct Hf as [Hlf _]. unfold is_u32 in Hlf.
    replace (12 + fr_len f <=? 0) with false by lia.
    rewrite rd_slice_front by done. cbn [mbind res_bind]. set (l1 := set_sent l _ _ _).
    destruct (IH (i + 1) l1 (total + (12 + fr_len f))) as (b2 & Hb2 & Hsend);
      [by split; [|eexists]|apply u16_range|lia|lia|done|].
    exists b2. split; [done|]. rewrite Hsend. cbn [mbind res_bind fst snd]. unfold l1.
    cbn [set_sent ly_layer ly_codec ly_ssrc ly_seq_num ly_bytes_sent].
    rewrite u16_step, sent_app. cbn [sent foldr ev_len fmap list_fmap].
    apply Ok_pair; [|done]. f_equal; [|lia]. unfold set_sent. cbn. f_equal. lia.
  - rewrite Hbuild. set (l1 := set_sent l _ _ _).
    destruct (IH (i + 1) l1 total) as (b2 & Hb2 & Hsend);
      [by split; [|exists b]|apply u16_range|lia|lia|done|].
    exists b2. split; [done|]. rewrite Hsend. unfold l1.
    cbn [set_sent ly_layer ly_codec ly_ssrc ly_seq_num ly_bytes_sent app].
    by rewrite u16_step.
Qed.

(* ------------------------------------------------------------------ *)
(** ** Frames *)

(** What the layer loop relies on from a codec: the encoder stays within the
    output buffer it was given, and the packetizer within the fragment array. *)
Record codec_ok (k : turbo_codec_ops_t E I) : Prop := {
  ck_encode : forall e input n b size, len b = size -> bytes b ->
    let r := op_encode k e input n (Some b) size in
    0 <= en_len r <= size /\
    exists b', en_output r = Some b' /\ len b' = size /\ bytes b';
  ck_packetize : forall p e i, op_packetize k = Some p ->
    let '(_, fs, n) := p e i (replicate (Z.to_nat TURBO_CODEC_MAX_PACKETS) zero_fragment)
                         TURBO_CODEC_MAX_PACKETS (RTP_MAX_PACKET - RTP_HEADER_SIZE) in
    n <= TURBO_CODEC_MAX_PACKETS /\ len fs = TURBO_CODEC_MAX_PACKETS /\
    Forall fragment_ok (take (Z.to_nat n) fs) }.

Definition encode_buffer_ok l : Prop :=
  exists b, ly_encode_buffer l = Some b /\ len b = ly_encode_buffer_size l /\ bytes b.

Definition is_time (t : Z) : Prop := -4611686018427387904 <= t < 4611686018427387904.

Record layer_wf c l : Prop := {
  lw_codec : codec_ok (ly_codec l);
  lw_width : 0 <= ly_width l <= source_width c;
  lw_height : 0 <= ly_height l <= source_height c;
  lw_framerate : 0 < ly_framerate l;
  lw_seq : is_u16 (ly_seq_num l);
  lw_ssrc : is_u32 (ly_ssrc l);
  lw_timestamp : is_u32 (ly_timestamp l);
  lw_time : is_time (ly_last_encode_time l);
  lw_buffer_size : is_u32 (ly_encode_buffer_size l);
  lw_encode_buffer : encode_buffer_ok l;
  lw_rtp_buffer : rtp_buffer_ok l }.

Definition malloc_ok (malloc : Z -> Z -> option (list Z)) : Prop :=
  forall i n b, malloc i n = Some b -> len b = n.

(** What one layer did: the fragments it numbered and the calls it made. *)
Definition layer_sent c l l' (n : Z) (evs : list rtp_event) : Prop :=
  exists fs cb ts, Forall fragment_ok fs /\
    evs = fragment_events cb (user_data c) (ly_layer l) (u8 (op_payload_type (ly_codec l)))
            (ly_ssrc l) ts (ly_seq_num l) fs /\
    Forall (event_parses (ly_layer l) (u8 (op_payload_type (ly_codec l))) (ly_ssrc l) ts) evs /\
    (evs = [] \/ on_rtp_packet c = Some cb) /\
    ly_seq_num l' = u16 (ly_seq_num l + len fs) /\
    ly_bytes_sent l' = ly_bytes_sent l + sent evs /\
    ly_ssrc l' = ly_ssrc l /\ ly_layer l' = ly_layer l /\ ly_codec l' = ly_codec l /\
    ly_frames_encoded l' = ly_frames_encoded l + n /\ 0 <= n <= 1.

Lemma layer_sent_nothing c l l' n :
  is_u16 (ly_seq_num l) ->
  ly_seq_num l' = ly_seq_num l -> ly_bytes_sent l' = ly_bytes_sent l ->
  ly_ssrc l' = ly_ssrc l -> ly_layer l' = ly_layer l -> ly_codec l' = ly_codec l ->
  ly_frames_encoded l' = ly_frames_encoded l + n -> 0 <= n <= 1 -> layer_sent c l l' n [].
Proof.
  intros Hs H1 H2 H3 H4 H5 H6 H7. exists [], 0, 0. cbn.
  rewrite Z.add_0_r, u16_id by done. rewrite H2.
  split_and!; try done; [by left|lia..].
Qed.

(** I420 holds the planes in one and a half bytes per pixel. *)
Lemma i420_size w h :
  0 <= w <= 16384 -> 0 <= h <= 16384 -> 0 <= w * h <= 268435456 /\
  u64 (Z.quot (w * h * 3) 2) = w * h * 3 / 2 /\ frame_samples w h <= w * h * 3 / 2.
Proof.
  intros Hw Hh. assert (Ha : 0 <= w * h <= 268435456) by nia. split; [done|].
  rewrite Z.quot_div_nonneg by lia. split.
  - apply u64_id. unfold is_u64. zmod_lia.
  - unfold frame_samples. apply Z.div_le_lower_bound; [lia|].
    assert (2 * (w / 2) <= w /\ 0 <= w / 2 /\ 2 * (h / 2) <= h /\ 0 <= h / 2) by zmod_lia.
    assert ((2 * (w / 2)) * (2 * (h / 2)) <= w * h) by (apply Z.mul_le_mono_nonneg; lia). lia.
Qed.

Lemma scaled_input_spec c l frame malloc :
  layer_wf c l -> source_width c <= 16384 -> source_height c <= 16384 -> malloc_ok malloc ->
  frame_samples (source_width c) (source_height c) <= len frame ->
  exists r, scaled_input c l frame (len frame) malloc = Ok r.
Proof.
  intros Hl Hw Hh Hm Hf. destruct Hl. unfold scaled_input.
  destruct (_ && _); [by eexists|].
  destruct (i420_size (ly_width l) (ly_height l)) as (Ha & Hq & Hfs); [lia..|].
  rewrite int_of_Ok by (unfold is_s32; lia). cbn [mbind res_bind].
  rewrite int_of_Ok by (unfold is_s32; lia). cbn [mbind res_bind].
  rewrite Hq. destruct (malloc _ _) as [dst|] eqn:Ed; [|by eexists].
  apply Hm in Ed. rewrite scale_frame_spec by lia. by eexists.
Qed.

Lemma packetize_frame_spec l info n :
  codec_ok (ly_codec l) -> encode_buffer_ok l -> is_u32 (ly_encode_buffer_size l) ->
  0 <= n <= ly_encode_buffer_size l ->
  exists e fs count, packetize_frame l info n = Ok (set_encoder l e, fs, count) /\
    0 <= count <= len fs /\ Forall fragment_ok (take (Z.to_nat count) fs).
Proof.
  intros Hk (b & Hb & Hlb & Hbb) Hsz Hn. unfold packetize_frame.
  set (zs := replicate _ zero_fragment).
  set (f := Build_turbo_rtp_fragment_t (ly_encode_buffer l) n 1 1 1).
  assert (Hfall : forall e (fs : list turbo_rtp_fragment_t), len fs = TURBO_CODEC_MAX_PACKETS ->
    exists e' fs' count,
      (gs ← upd fs 0 f; Ok (set_encoder l e, gs, 1)) = Ok (set_encoder l e', fs', count) /\
      0 <= count <= len fs' /\ Forall fragment_ok (take (Z.to_nat count) fs')).
  { intros e [|g fs] Hfs; [done|]. exists e, (f :: fs), 1.
    rewrite upd_Ok by (rewrite Hfs; done). split; [done|].
    split; [rewrite len_cons; pose proof (len_nonneg fs); lia|].
    apply Forall_cons. split; [|done]. unfold is_u32 in *. split; [unfold is_u32; cbn; lia|].
    exists b. cbn. split_and!; [done|lia|done]. }
  destruct (op_packetize (ly_codec l)) as [p|] eqn:Ep.
  - pose proof (ck_packetize _ Hk p (ly_encoder_ctx l) info Ep) as H. fold zs in H.
    destruct (p _ _ zs _ _) as [[e fs] k]. destruct H as (Hk1 & Hfs & Hok).
    destruct (Z.ltb_spec k 0); [by apply (Hfall e fs)|].
    destruct (Z.eqb_spec k 0); [by apply (Hfall e fs)|].
    exists e, fs, k. split; [done|]. split; [lia|done].
  - specialize (Hfall (ly_encoder_ctx l) zs ltac:(done)).
    assert (Hl : set_encoder l (ly_encoder_ctx l) = l) by (by destruct l).
    rewrite Hl in Hfall. exact Hfall.
Qed.

Lemma rtp_timestamps_u32 us t step :
  is_u32 t -> is_u32 (rtp_timestamps us t step).1 /\ is_u32 (rtp_timestamps us t step).2.
Proof.
  intros Ht. unfold rtp_timestamps. destruct (0 <? us); cbn [fst snd];
    (split; [|apply u32_range]); [apply u32_range|done].
Qed.

(** One layer: no fault, the calls are those of [layer_sent], and the layer is
    ready for the next frame. *)
Lemma encode_layer_spec c l frame ts malloc total :
  layer_wf c l -> source_width c <= 16384 -> source_height c <= 16384 -> malloc_ok malloc ->
  frame_samples (source_width c) (source_height c) <= len frame -> is_time ts ->
  0 <= ly_frames_encoded l < 2147483647 ->
  exists l' n evs, encode_layer c l frame (len frame) ts malloc total =
      Ok (l', total + sent evs, n, evs) /\
    layer_wf c l' /\ layer_sent c l l' n evs.
Proof.
  intros Hl Hw Hh Hm Hf Hts Hfr. unfold encode_layer.
  assert (Hidle : forall l', layer_wf c l' -> ly_seq_num l' = ly_seq_num l ->
    ly_bytes_sent l' = ly_bytes_sent l -> ly_ssrc l' = ly_ssrc l -> ly_layer l' = ly_layer l ->
    ly_codec l' = ly_codec l -> ly_frames_encoded l' = ly_frames_encoded l ->
    exists l1 n evs, Ok (l', total, 0, []) = Ok (l1, total + sent evs, n, evs) /\
      layer_wf c l1 /\ layer_sent c l l1 n evs).
  { intros l' Hl'. intros. exists l', 0, []. rewrite Z.add_0_r. split; [done|]. split; [done|].
    apply layer_sent_nothing; try done; try apply Hl; lia. }
  destruct (negb (truth (ly_active l))); [by apply Hidle|].
  destruct (Z.eqb_spec (ly_framerate l) 0); [destruct Hl; lia|].
  pose proof (lw_time _ _ Hl) as Hlast. unfold is_time in Hlast, Hts.
  unfold int64_of. replace (_ && _) with true by lia. cbn [mbind res_bind].
  destruct (_ <? _); [by apply Hidle|].
  destruct (scaled_input_spec c l frame malloc Hl Hw Hh Hm Hf) as [inp ->]. cbn [mbind res_bind].
  destruct inp as [[input input_len]|]; [|by apply Hidle].
  destruct (lw_encode_buffer _ _ Hl) as (b & Hb & Hlb & Hbb). rewrite Hb.
  destruct (ck_encode _ (lw_codec _ _ Hl) (ly_encoder_ctx l) input input_len b _ Hlb Hbb)
    as (Hlen & b' & Hb' & Hlb' & Hbb').
  set (r := op_encode _ _ _ _ _ _) in *. set (l1 := set_output l (en_encoder r) (en_output r)).
  assert (Hbuf1 : encode_buffer_ok l1) by (exists b'; done).
  assert (Hwf1 : layer_wf c l1) by (destruct Hl; by constructor).
  destruct (_ || _); [by apply Hidle|].
  rewrite int_of_Ok by (unfold is_s32; cbn; lia). cbn [mbind res_bind].
  set (step := u32 (Z.quot RTP_CLOCK_VIDEO _)). set (tt := rtp_timestamps ts (ly_timestamp l1) step).
  destruct (rtp_timestamps_u32 ts (ly_timestamp l1) step (lw_timestamp _ _ Hwf1)) as [Ht1 Ht2].
  fold tt in Ht1, Ht2. set (l2 := set_clock l1 _ _ _).
  assert (Hwf2 : layer_wf c l2) by (destruct Hwf1; by constructor).
  destruct (on_rtp_packet c) as [cb|] eqn:Ecb.
  2: { exists l2, 1, []. rewrite Z.add_0_r. split; [done|]. split; [done|].
       apply layer_sent_nothing; try done; try apply Hl; lia. }
  destruct (packetize_frame_spec l2 (en_info r) (en_len r)) as (e & fs & k & Hpk & Hk & Hok);
    [apply Hwf2|done|apply Hwf2|done|]. rewrite Hpk. cbn [mbind res_bind].
  set (l3 := set_encoder l2 e).
  assert (Hwf3 : layer_wf c l3) by (destruct Hwf2; by constructor).
  destruct (send_fragments_spec cb (user_data c) tt.1 fs (Z.to_nat k) 0 l3 total)
    as (b2 & Hb2 & Hsend); [apply Hwf3..|lia|lia|done|].
  cbv zeta in Hsend. rewrite Hsend. cbn [mbind res_bind fst snd].
  change (drop (Z.to_nat 0) fs) with fs. eexists _, 1, _. split; [reflexivity|]. split.
  - destruct Hwf3. constructor; try done; [apply u16_range|]. split; [apply Hwf2|by exists b2].
  - exists (take (Z.to_nat k) fs), cb, tt.1.
    assert (Hlk : len (take (Z.to_nat k) fs) = Z.of_nat (Z.to_nat k)) by (rewrite len_take; lia).
    split_and!; try done; try (cbn; lia); [|by right|by rewrite Hlk].
    apply fragment_events_parse; [apply Hl|done|apply Hl|done].
Qed.

(** What the frame loop makes of each layer: the layer, whether it encoded, and
    its calls. *)
Abbreviation layer_result := (prod (prod (simulcast_layer_ctx_t E I) Z) (list rtp_event)).

Definition results_layers (rs : list layer_result) := (fun r => r.1.1) <$> rs.
Definition results_count (rs : list layer_result) : Z := foldr Z.add 0 ((fun r => r.1.2) <$> rs).
Definition results_events (rs : list layer_result) : list rtp_event := concat (snd <$> rs).

Definition frames_bounded l : Prop := 0 <= ly_frames_encoded l < 2147483647.

Lemma encode_layers_spec c ls frame ts malloc total :
  Forall (layer_wf c) ls -> Forall frames_bounded ls ->
  source_width c <= 16384 -> source_height c <= 16384 -> malloc_ok malloc ->
  frame_samples (source_width c) (source_height c) <= len frame -> is_time ts ->
  exists rs, encode_layers c ls frame (len frame) ts malloc total =
      Ok (results_layers rs, total + sent (results_events rs), results_count rs,
          results_events rs) /\
    Forall (layer_wf c) (results_layers rs) /\
    Forall2 (fun l r => layer_sent c l r.1.1 r.1.2 r.2) ls rs.
Proof.
  intros Hls Hfr Hw Hh Hm Hf Hts. revert total.
  induction Hls as [|l ls Hl Hls IH]; intros total.
  { exists []. cbn. by rewrite Z.add_0_r. }
  apply Forall_cons in Hfr as [Hfl Hfr]. cbn [encode_layers].
  destruct (encode_layer_spec c l frame ts malloc total Hl Hw Hh Hm Hf Hts Hfl)
    as (l' & n & evs & -> & Hwf & Hsent). cbn [mbind res_bind].
  destruct (IH Hfr (total + sent evs)) as (rs & -> & Hwfs & Hsents). cbn [mbind res_bind].
  exists ((l', n, evs) :: rs). split_and!; [|by constructor..].
  unfold results_events. cbn [fmap list_fmap concat]. fold (results_events rs).
  by rewrite sent_app, Z.add_assoc.
Qed.

(** *** Creation *)

Definition buffers_ok (buffers : Z -> option (list Z) * option (list Z)) : Prop :=
  forall i, exists a b, buffers i = (Some a, Some b) /\
    len a = 1024 * 1024 /\ bytes a /\ len b = RTP_MAX_PACKET.

Lemma configured_wf c i w h f codec e buffers :
  codec_ok codec -> buffers_ok buffers -> 0 <= i < 3 -> 0 < w -> 0 < h -> 1 < f ->
  source_width c = w -> source_height c = h ->
  layer_wf c (simulcast_configure_layer i w h f (buffers i).1 (buffers i).2 codec e (305419896 + i)) /\
  ly_active (simulcast_configure_layer i w h f (buffers i).1 (buffers i).2 codec e (305419896 + i)) = 0 /\
  frames_bounded (simulcast_configure_layer i w h f (buffers i).1 (buffers i).2 codec e (305419896 + i)).
Proof.
  intros Hk Hb Hi Hw Hh Hf <- <-. destruct (Hb i) as (a & b & -> & Ha & Hba & Hlb).
  assert (Hi' : i = 0 \/ i = 1 \/ i = 2) by lia.
  assert (Hbuf : encode_buffer_ok (simulcast_configure_layer i (source_width c) (source_height c) f
     (Some a) (Some b) codec e (305419896 + i))).
  { destruct Hi' as [->|[->| ->]]; by exists a. }
  assert (Hrtp : rtp_buffer_ok (simulcast_configure_layer i (source_width c) (source_height c) f
     (Some a) (Some b) codec e (305419896 + i))).
  { destruct Hi' as [->|[->| ->]]; (split; [done|by exists b]). }
  assert (Hq : 0 <= Z.quot (source_width c) 4 <= source_width c /\
    0 <= Z.quot (source_height c) 4 <= source_height c /\
    0 <= Z.quot (source_width c) 2 <= source_width c /\
    0 <= Z.quot (source_height c) 2 <= source_height c /\ 0 < Z.quot f 2).
  { rewrite !Z.quot_div_nonneg by lia. zmod_lia. }
  destruct Hi' as [->|[->| ->]]; (split; [|by split]);
    (constructor; [exact Hk|cbn; lia|cbn; lia|cbn; lia|done..|exact Hbuf|exact Hrtp]).
Qed.

(** Every layer of a new context is ready, and none is active. *)
Lemma simulcast_create_wf w h f codec buffers c :
  codec_ok codec -> buffers_ok buffers -> 1 < f ->
  turbo_simulcast_create w h f (Some codec) true buffers = Ok c ->
  source_width c = w /\ source_height c = h /\ len (layers c) = SIMULCAST_LAYER_COUNT /\
  Forall (layer_wf c) (layers c) /\ Forall frames_bounded (layers c) /\
  Forall (fun l => ly_active l = 0) (layers c).
Proof.
  intros Hk Hb Hf Hc. unfold turbo_simulcast_create in Hc.
  destruct ((w <=? 0) || (h <=? 0) || (f <=? 0)) eqn:Hpos; [done|]. cbn [negb] in Hc.
  apply bind_Ok in Hc as (ls & Hls & Hc). apply Ok_inj in Hc. subst c. cbn [source_width source_height layers].
  set (c := Build_simulcast_ctx_t ls w h f 7 2500000 None 0 0 0).
  split; [done|]. split; [done|].
  assert (Hall : forall n i, 0 <= i -> i + Z.of_nat n <= 3 -> forall ls,
    create_layers w h f codec buffers i n = Ok ls -> len ls = Z.of_nat n /\
    Forall (fun l => layer_wf c l /\ ly_active l = 0 /\ frames_bounded l) ls).
  { induction n as [|n IH]; intros i Hi Hn ks Hks; cbn [create_layers] in Hks.
    { apply Ok_inj in Hks as <-. done. }
    destruct (layer_preset i w h f) as [[[[[pw ph] pf] pt] pmin] pmax].
    apply bind_Ok in Hks as (ki & _ & Hks).
    destruct (op_create_encoder codec _) as [e|]; [|done].
    apply bind_Ok in Hks as (ks' & Hks' & Hks). apply Ok_inj in Hks as <-.
    destruct (IH (i + 1) ltac:(lia) ltac:(lia) ks' Hks') as [Hl Hall].
    split; [rewrite len_cons; lia|]. constructor; [|done].
    apply configured_wf; try done; lia. }
  destruct (Hall (Z.to_nat SIMULCAST_LAYER_COUNT) 0 ltac:(lia) ltac:(unfold SIMULCAST_LAYER_COUNT; lia) ls Hls) as [Hlen HF]. split; [done|].
  split_and!; (eapply Forall_impl; [exact HF|]; cbn; tauto).
Qed.

(** *** Bandwidth *)

Lemma update_layer_spec mask i l :
  0 <= i ->
  let a := Z.testbit mask i in
  ly_active (update_layer mask i l) = b2i a /\
  ly_encoder_ctx (update_layer mask i l) =
    (if a && negb (truth (ly_active l))
     then match op_request_keyframe (ly_codec l) with
          | Some rk => rk (ly_encoder_ctx l) | None => ly_encoder_ctx l end
     else ly_encoder_ctx l).
Proof.
  intros Hi a. unfold update_layer. rewrite Z.shiftl_1_l.
  assert (Ha : negb (Z.land mask (2 ^ i) =? 0) = a).
  { unfold a. destruct (Z.eqb_spec (Z.land mask (2 ^ i)) 0) as [H|H]; cbn [negb].
    - apply (f_equal (fun z => Z.testbit z i)) in H.
      rewrite Z.land_spec, Z.pow2_bits_true, andb_true_r, Z.bits_0 in H by lia. done.
    - destruct (Z.testbit mask i) eqn:Hb; [done|]. exfalso. apply H. apply Z.bits_inj'. intros j Hj.
      rewrite Z.land_spec, Z.bits_0. destruct (decide (j = i)) as [->|]; [by rewrite Hb|].
      rewrite Z.pow2_bits_false by lia. apply andb_false_r. }
  rewrite Ha. replace (truth (b2i a)) with a by (by destruct a). split; [done|].
  destruct (a && _); [|done]. by destruct (op_request_keyframe _).
Qed.

(** The mask of a bandwidth holds the layers up to the one the forwarding unit
    selects for it. *)
Lemma bandwidth_mask_sfu bw i :
  0 <= i < 3 ->
  Z.testbit (bandwidth_mask bw) i = true <->
  300000 <= bw /\ i <= select_layer_for_bandwidth bw.
Proof.
  intros Hi. assert (H : i = 0 \/ i = 1 \/ i = 2) by lia.
  unfold bandwidth_mask, select_layer_for_bandwidth, SIMULCAST_LAYER_HIGH,
    SIMULCAST_LAYER_MEDIUM, SIMULCAST_LAYER_LOW.
  destruct H as [->|[->| ->]]; repeat case_match; cbn; lia.
Qed.

End simulcast.

(* ------------------------------------------------------------------ *)
(** ** Properties *)

(** The scaler computes the nearest-sample image of each of the three
    planes, within the source and the destination, and writes nothing past it. *)
Theorem scale_frame_nearest src sw sh dst dw dh :
  0 <= dw <= sw -> 0 <= dh <= sh -> sw <= 32768 /\ sh <= 32768 ->
  frame_samples sw sh <= len src -> frame_samples dw dh <= len dst ->
  scale_frame_simple src sw sh dst dw dh =
  Ok (nearest_frame src sw sh dw dh ++ drop (Z.to_nat (frame_samples dw dh)) dst).
Proof. apply scale_frame_spec. Qed.

(** Encoding a frame never faults, whatever the encoders produce.  The calls
    of each layer are its fragments in order as RTP packets of the layer's SSRC
    and payload type, numbered on from the layer's last sequence number; the
    totals count the bytes of the packets and the layers that encoded. *)
Theorem simulcast_encode_frame_spec {E I : Type} (c : simulcast_ctx_t E I) frame ts malloc :
  Forall (layer_wf c) (layers c) -> Forall frames_bounded (layers c) ->
  source_width c <= 16384 -> source_height c <= 16384 -> malloc_ok malloc ->
  frame_samples (source_width c) (source_height c) <= len frame -> is_time ts ->
  exists c' n evs rs,
    turbo_simulcast_encode_frame (Some c) (Some frame) (len frame) ts malloc = Ok (c', n, evs) /\
    layers c' = results_layers rs /\ n = results_count rs /\ evs = results_events rs /\
    Forall2 (fun l r => layer_sent c l r.1.1 r.1.2 r.2) (layers c) rs /\
    Forall (layer_wf c') (layers c') /\
    total_bytes_sent c' = total_bytes_sent c + sent evs /\
    total_frames_encoded c' = total_frames_encoded c + n.
Proof.
  intros Hls Hfr Hw Hh Hm Hf Hts.
  destruct (encode_layers_spec c (layers c) frame ts malloc (total_bytes_sent c)
    Hls Hfr Hw Hh Hm Hf Hts) as (rs & Henc & Hwf & Hsent).
  do 3 eexists. exists rs. unfold turbo_simulcast_encode_frame. rewrite Henc.
  cbn [mbind res_bind]. split; [reflexivity|]. split_and!; try done.
  eapply Forall_impl; [exact Hwf|]. intros l []. by constructor.
Qed.

(** For a given bandwidth the sender activates exactly the layers up to the
    one the forwarding unit selects for a receiver with that bandwidth, the mask
    agrees, and the encoders of the newly active layers, and no others, are
    asked for a keyframe. *)
Theorem simulcast_bandwidth_selects {E I : Type} (c : simulcast_ctx_t E I) bw :
  len (layers c) = SIMULCAST_LAYER_COUNT ->
  exists c', turbo_simulcast_set_bandwidth (Some c) bw = Some c' /\
    forall i l, layers c !! i = Some l -> exists l', layers c' !! i = Some l' /\
      (truth (ly_active l') = true <->
         300000 <= bw /\ Z.of_nat i <= select_layer_for_bandwidth bw) /\
      Z.testbit (active_layer_mask c') (Z.of_nat i) = truth (ly_active l') /\
      ly_encoder_ctx l' =
        (if truth (ly_active l') && negb (truth (ly_active l))
         then match op_request_keyframe (ly_codec l) with
              | Some rk => rk (ly_encoder_ctx l) | None => ly_encoder_ctx l end
         else ly_encoder_ctx l).
Proof.
  intros Hlen. eexists. split; [reflexivity|]. intros i l Hl. cbn [layers set_mask set_layers
    simulcast_update_active_layers active_layer_mask available_bandwidth].
  rewrite list_lookup_imap, Hl. cbn. eexists. split; [reflexivity|].
  destruct (update_layer_spec (bandwidth_mask bw) (Z.of_nat i) l) as [-> ->]; [lia|].
  assert (Hb : forall b : bool, truth (b2i b) = b) by (by intros []). rewrite Hb.
  split; [|done]. apply bandwidth_mask_sfu. apply lookup_lt_Some in Hl.
  unfold len, SIMULCAST_LAYER_COUNT in Hlen. lia.
Qed.

(* ------------------------------------------------------------------ *)
(** ** Examples and witnesses *)

(** A codec whose frames are [n] bytes, the first being the input's length; its
    encoder counts the keyframes asked of it. *)
Definition toy_encode (n : Z) (e : Z) (input : list Z) (input_len : Z)
    (output : option (list Z)) (size : Z) : encoded Z unit :=
  {| en_encoder := e; en_ret := 0;
     en_output := match output with
                  | Some (_ :: b) => Some (u8 input_len :: b)
                  | _ => output
                  end;
     en_len := Z.min n size; en_info := () |}.

Definition toy_codec (n : Z) : turbo_codec_ops_t Z unit :=
  {| op_payload_type := 96; op_create_encoder := fun _ => Some 0; op_encode := toy_encode n;
     op_packetize := None; op_request_keyframe := Some Z.succ; op_set_bitrate := None |}.

Definition ex_layer (n i w h : Z) : simulcast_layer_ctx_t Z unit :=
  Build_simulcast_layer_ctx_t i w h 150000 100000 250000 30 (305419896 + i) 65535 0 0
    (toy_codec n) 1 0 0 0 (Some (replicate 16 0)) 16 (Some (replicate 1500 0)) RTP_MAX_PACKET.

Definition ex_ctx (n : Z) : simulcast_ctx_t Z unit :=
  Build_simulcast_ctx_t [ex_layer n 0 1 1; ex_layer n 1 2 2; ex_layer n 2 4 4] 4 4 30 7 2500000
    (Some 1) 2 0 0.

Definition ex_frame : list Z := seqZ 0 24.
Definition ex_malloc (i n : Z) : option (list Z) :=
  if (0 <=? n) && (n <? 1000) then Some (replicate (Z.to_nat n) 0) else None.

Lemma ex_malloc_ok : malloc_ok ex_malloc.
Proof.
  intros i n b. unfold ex_malloc. destruct (_ && _) eqn:E; [|done]. intros [= <-].
  rewrite len_replicate. lia.
Qed.

Lemma toy_codec_ok n : 0 <= n -> codec_ok (toy_codec n).
Proof.
  intros Hn. constructor; [|done]. intros e input k b size Hb Hbb r.
  pose proof (len_nonneg b). split; [cbn; lia|].
  destruct b as [|x b]; [by exists []|]. exists (u8 k :: b). split; [done|].
  split; [by rewrite len_cons in *|]. apply Forall_cons in Hbb as [_ Hbb].
  constructor; [apply u8_range|done].
Qed.

Lemma ex_layer_wf n i w h :
  0 <= n -> 0 <= i < 3 -> 0 <= w <= 4 -> 0 <= h <= 4 -> layer_wf (ex_ctx n) (ex_layer n i w h).
Proof.
  intros. constructor; cbn; try done; unfold is_u16, is_u32, is_time; try lia.
  - by apply toy_codec_ok.
  - eexists. split; [reflexivity|]. split; [done|]. by apply Forall_replicate.
  - split; [done|]. eexists. split; [reflexivity|done].
Qed.

Lemma scale_frame_nearest_witness :
  scale_frame_simple ex_frame 4 4 (replicate 7 0) 2 2 =
  Ok (nearest_frame ex_frame 4 4 2 2 ++ drop (Z.to_nat (frame_samples 2 2)) (replicate 7 0)).
Proof. apply scale_frame_nearest; try lia; vm_compute; congruence. Defined.

Lemma simulcast_encode_frame_spec_witness :
  exists c' n evs rs,
    turbo_simulcast_encode_frame (Some (ex_ctx 1)) (Some ex_frame) (len ex_frame) 40000 ex_malloc
      = Ok (c', n, evs) /\
    layers c' = results_layers rs /\ n = results_count rs /\ evs = results_events rs /\
    Forall2 (fun l r => layer_sent (ex_ctx 1) l r.1.1 r.1.2 r.2) (layers (ex_ctx 1)) rs /\
    Forall (layer_wf c') (layers c') /\
    total_bytes_sent c' = total_bytes_sent (ex_ctx 1) + sent evs /\
    total_frames_encoded c' = total_frames_encoded (ex_ctx 1) + n.
Proof.
  apply (simulcast_encode_frame_spec (ex_ctx 1) ex_frame 40000 ex_malloc).
  - repeat constructor; by apply ex_layer_wf.
  - repeat constructor; cbn; lia.
  - cbn. lia.
  - cbn. lia.
  - apply ex_malloc_ok.
  - vm_compute. congruence.
  - unfold is_time. lia.
Defined.

Lemma simulcast_bandwidth_selects_witness :
  exists c', turbo_simulcast_set_bandwidth (Some (ex_ctx 1)) 1200000 = Some c' /\
    forall i l, layers (ex_ctx 1) !! i = Some l -> exists l', layers c' !! i = Some l' /\
      (truth (ly_active l') = true <->
         300000 <= 1200000 /\ Z.of_nat i <= select_layer_for_bandwidth 1200000) /\
      Z.testbit (active_layer_mask c') (Z.of_nat i) = truth (ly_active l') /\
      ly_encoder_ctx l' =
        (if truth (ly_active l') && negb (truth (ly_active l))
         then match op_request_keyframe (ly_codec l) with
              | Some rk => rk (ly_encoder_ctx l) | None => ly_encoder_ctx l end
         else ly_encoder_ctx l).
Proof. apply (simulcast_bandwidth_selects (ex_ctx 1) 1200000). reflexivity. Defined.

(** Three layers, one packet each: the lengths of the scaled frames (one, six
    and twenty-four bytes), the SSRCs and the counters. *)
Example ex_encode_frame :
  match turbo_simulcast_encode_frame (Some (ex_ctx 1)) (Some ex_frame) (len ex_frame) 40000
          ex_malloc with
  | Ok (c, n, evs) => n = 3 /\ total_bytes_sent c = 39 /\
      (fun ev => drop 8 (ev_packet ev)) <$> evs =
        [[18; 52; 86; 120; 1]; [18; 52; 86; 121; 6]; [18; 52; 86; 122; 24]] /\
      ly_seq_num <$> layers c = [0; 0; 0]
  | _ => False
  end.
Proof. vm_compute. done. Qed.

(* ------------------------------------------------------------------ *)
(** ** Observations *)

(** The mask of a new context says that the three layers are active, yet the
    layers are not, and frames are encoded on none of them. *)
Theorem simulcast_created_inactive :
  exists c, turbo_simulcast_create 4 4 30 (Some (toy_codec 1)) true (fun _ => (None, None)) = Ok c /\
    active_layer_mask c = 7 /\ ly_active <$> layers c = [0; 0; 0] /\
    exists c', turbo_simulcast_encode_frame (Some c) (Some ex_frame) (len ex_frame) 40000 ex_malloc
      = Ok (c', 0, []).
Proof. eexists. split; [reflexivity|]. split; [done|]. split; [done|]. by eexists. Qed.

(** A source at one frame per second is accepted; its low layer has framerate
    zero, and encoding a frame divides by it. *)
Theorem simulcast_framerate_one_faults :
  exists c c', turbo_simulcast_create 4 4 1 (Some (toy_codec 1)) true (fun _ => (None, None)) = Ok c /\
    turbo_simulcast_set_bandwidth (Some c) 300000 = Some c' /\
    turbo_simulcast_encode_frame (Some c') (Some ex_frame) (len ex_frame) 40000 ex_malloc = Fault.
Proof. do 2 eexists. split; [reflexivity|]. split; [reflexivity|]. reflexivity. Qed.

(** A frame too long for one packet from a codec without packetizer is counted
    as encoded and takes a sequence number, but nothing is sent. *)
Theorem simulcast_long_frame_lost :
  let l := Build_simulcast_layer_ctx_t 2 4 4 150000 100000 250000 30 305419898 7 0 0
    (toy_codec 1489) 1 0 0 0 (Some (replicate 1489 0)) 1489 (Some (replicate 1500 0)) RTP_MAX_PACKET in
  exists c', turbo_simulcast_encode_frame (Some (set_layers (ex_ctx 1) [l])) (Some ex_frame)
      (len ex_frame) 40000 ex_malloc = Ok (c', 1, []) /\
    ly_seq_num <$> layers c' = [8] /\ total_bytes_sent c' = 0.
Proof. eexists. split; [vm_compute; reflexivity|]. done. Qed.
