(* ===== verification/G711.v ===== *)
(** * G.711 audio codec (src/codec/g711_codec.c)

    The mu-law and A-law companders, sample by sample and on buffers of 16-bit
    samples in the byte order of a little-endian host.  The expansion tables are
    the source's, and are compared with the closed form of the G.711
    recommendation. *)

From S2P Require Import Prelude Simulcast.

(* ------------------------------------------------------------------ *)
(** ** Tables *)

Definition mulaw_exp_table : list Z :=
  [-32124; -31100; -30076; -29052; -28028; -27004; -25980; -24956; -23932; -22908; -21884; -20860; -19836; -18812; -17788; -16764;
   -15996; -15484; -14972; -14460; -13948; -13436; -12924; -12412; -11900; -11388; -10876; -10364; -9852; -9340; -8828; -8316;
   -7932; -7676; -7420; -7164; -6908; -6652; -6396; -6140; -5884; -5628; -5372; -5116; -4860; -4604; -4348; -4092;
   -3900; -3772; -3644; -3516; -3388; -3260; -3132; -3004; -2876; -2748; -2620; -2492; -2364; -2236; -2108; -1980;
   -1884; -1820; -1756; -1692; -1628; -1564; -1500; -1436; -1372; -1308; -1244; -1180; -1116; -1052; -988; -924;
   -876; -844; -812; -780; -748; -716; -684; -652; -620; -588; -556; -524; -492; -460; -428; -396;
   -372; -356; -340; -324; -308; -292; -276; -260; -244; -228; -212; -196; -180; -164; -148; -132;
   -120; -112; -104; -96; -88; -80; -72; -64; -56; -48; -40; -32; -24; -16; -8; 0;
   32124; 31100; 30076; 29052; 28028; 27004; 25980; 24956; 23932; 22908; 21884; 20860; 19836; 18812; 17788; 16764;
   15996; 15484; 14972; 14460; 13948; 13436; 12924; 12412; 11900; 11388; 10876; 10364; 9852; 9340; 8828; 8316;
   7932; 7676; 7420; 7164; 6908; 6652; 6396; 6140; 5884; 5628; 5372; 5116; 4860; 4604; 4348; 4092;
   3900; 3772; 3644; 3516; 3388; 3260; 3132; 3004; 2876; 2748; 2620; 2492; 2364; 2236; 2108; 1980;
   1884; 1820; 1756; 1692; 1628; 1564; 1500; 1436; 1372; 1308; 1244; 1180; 1116; 1052; 988; 924;
   876; 844; 812; 780; 748; 716; 684; 652; 620; 588; 556; 524; 492; 460; 428; 396;
   372; 356; 340; 324; 308; 292; 276; 260; 244; 228; 212; 196; 180; 164; 148; 132;
   120; 112; 104; 96; 88; 80; 72; 64; 56; 48; 40; 32; 24; 16; 8; 0].

Definition alaw_exp_table : list Z :=
  [-5504; -5248; -6016; -5760; -4480; -4224; -4992; -4736; -7552; -7296; -8064; -7808; -6528; -6272; -7040; -6784;
   -2752; -2624; -3008; -2880; -2240; -2112; -2496; -2368; -3776; -3648; -4032; -3904; -3264; -3136; -3520; -3392;
   -22016; -20992; -24064; -23040; -17920; -16896; -19968; -18944; -30208; -29184; -32256; -31232; -26112; -25088; -28160; -27136;
   -11008; -10496; -12032; -11520; -8960; -8448; -9984; -9472; -15104; -14592; -16128; -15616; -13056; -12544; -14080; -13568;
   -344; -328; -376; -360; -280; -264; -312; -296; -472; -456; -504; -488; -408; -392; -440; -424;
   -88; -72; -120; -104; -24; -8; -56; -40; -216; -200; -248; -232; -152; -136; -184; -168;
   -1376; -1312; -1504; -1440; -1120; -1056; -1248; -1184; -1888; -1824; -2016; -1952; -1632; -1568; -1760; -1696;
   -688; -656; -752; -720; -560; -528; -624; -592; -944; -912; -1008; -976; -816; -784; -880; -848;
   5504; 5248; 6016; 5760; 4480; 4224; 4992; 4736; 7552; 7296; 8064; 7808; 6528; 6272; 7040; 6784;
   2752; 2624; 3008; 2880; 2240; 2112; 2496; 2368; 3776; 3648; 4032; 3904; 3264; 3136; 3520; 3392;
   22016; 20992; 24064; 23040; 17920; 16896; 19968; 18944; 30208; 29184; 32256; 31232; 26112; 25088; 28160; 27136;
   11008; 10496; 12032; 11520; 8960; 8448; 9984; 9472; 15104; 14592; 16128; 15616; 13056; 12544; 14080; 13568;
   344; 328; 376; 360; 280; 264; 312; 296; 472; 456; 504; 488; 408; 392; 440; 424;
   88; 72; 120; 104; 24; 8; 56; 40; 216; 200; 248; 232; 152; 136; 184; 168;
   1376; 1312; 1504; 1440; 1120; 1056; 1248; 1184; 1888; 1824; 2016; 1952; 1632; 1568; 1760; 1696;
   688; 656; 752; 720; 560; 528; 624; 592; 944; 912; 1008; 976; 816; 784; 880; 848].

(* ------------------------------------------------------------------ *)
(** ** Companders *)

(** The segment of a magnitude: the seven comparisons from the highest down. *)
Fixpoint find_segment (pcm_val : Z) (bounds : list Z) : Z :=
  match bounds with
  | [] => 0
  | b :: bounds => if b <=? pcm_val then 1 + len bounds else find_segment pcm_val bounds
  end.

Definition linear_to_mulaw (pcm_val : Z) : Z :=
  let '(pcm_val, mask) := if pcm_val <? 0 then (s16 (- pcm_val), 127) else (pcm_val, 255) in
  let pcm_val := if 32635 <? pcm_val then 32635 else pcm_val in
  let pcm_val := s16 (pcm_val + 132) in
  let seg := find_segment pcm_val [16384; 8192; 4096; 2048; 1024; 512; 256] in
  let uval := u8 (Z.lor (Z.shiftl seg 4) (Z.land (Z.shiftr pcm_val (seg + 3)) 15)) in
  u8 (Z.lxor uval mask).

Definition linear_to_alaw (pcm_val : Z) : Z :=
  let '(pcm_val, mask) := if 0 <=? pcm_val then (pcm_val, 213) else (s16 (- pcm_val - 1), 85) in
  let pcm_val := if 32635 <? pcm_val then 32635 else pcm_val in
  let seg := find_segment pcm_val [8192; 4096; 2048; 1024; 512; 256; 128] in
  let aval :=
    if 2 <=? seg
    then u8 (Z.lor (Z.shiftl seg 4) (Z.land (Z.shiftr pcm_val (seg + 3)) 15))
    else u8 (Z.lor (Z.shiftl seg 4) (Z.land (Z.shiftr pcm_val 4) 15)) in
  u8 (Z.lxor aval mask).

(* ------------------------------------------------------------------ *)
(** ** Codec operations *)

Definition TURBO_CODEC_ERR_INVALID : Z := -2.
Definition TURBO_CODEC_ERR_BUFFER : Z := -3.

Record g711_context_t := {
  g7_is_mulaw : Z;
  g7_sample_rate : Z;
  g7_channels : Z }.

Record turbo_audio_codec_config_t := {
  ac_sample_rate : Z;
  ac_channels : Z;
  ac_bitrate : Z;
  ac_frame_size_ms : Z;
  ac_enable_fec : Z;
  ac_enable_dtx : Z;
  ac_complexity : Z }.

Definition g711_is_valid_sample_rate (sample_rate : Z) : bool :=
  (sample_rate =? 8000) || (sample_rate =? 16000) || (sample_rate =? 24000) ||
  (sample_rate =? 48000).

Definition g711_is_valid_frame_size (frame_size_ms : Z) : bool :=
  (frame_size_ms =? 10) || (frame_size_ms =? 20) || (frame_size_ms =? 40) ||
  (frame_size_ms =? 60).

Definition g711_is_valid_config (cfg : option turbo_audio_codec_config_t) : bool :=
  let? c := cfg else true in
  g711_is_valid_sample_rate (ac_sample_rate c) &&
  ((ac_channels c =? 1) || (ac_channels c =? 2)) &&
  g711_is_valid_frame_size (ac_frame_size_ms c).

Definition turbo_g711_validate_audio_config (cfg : option turbo_audio_codec_config_t) : Z :=
  if bool_decide (cfg <> None) && g711_is_valid_config cfg
  then TURBO_CODEC_OK else TURBO_CODEC_ERR_INVALID.

Definition g711_create_context (config : option turbo_audio_codec_config_t) (is_mulaw : Z)
    (mem : bool) : option g711_context_t :=
  if negb (g711_is_valid_config config) then None else
  if negb mem then None else
  Some (Build_g711_context_t is_mulaw
          (let? c := config else 8000 in ac_sample_rate c)
          (let? c := config else 1 in ac_channels c)).

Definition g711_create_mulaw_encoder config mem := g711_create_context config 1 mem.
Definition g711_create_mulaw_decoder config mem := g711_create_context config 1 mem.
Definition g711_create_alaw_encoder config mem := g711_create_context config 0 mem.
Definition g711_create_alaw_decoder config mem := g711_create_context config 0 mem.

(** [((const int16_t * )input)[i]] and [((int16_t * )output)[i] = v]. *)
Definition read_sample (b : list Z) (i : Z) : res Z :=
  l ← rd b (2 * i); h ← rd b (2 * i + 1); Ok (s16 (l + 256 * h)).

Definition sample_bytes (v : Z) : list Z := [u8 v; u8 (v / 256)].

Definition write_sample (b : list Z) (i v : Z) : res (list Z) := wr b (2 * i) (sample_bytes v).

(** The loops over the samples: [n] of them from [i] on. *)
Fixpoint encode_loop (is_mulaw : Z) (input output : list Z) (i : Z) (n : nat) : res (list Z) :=
  match n with
  | O => Ok output
  | S n =>
    v ← read_sample input i;
    output ← upd output i (if truth is_mulaw then linear_to_mulaw v else linear_to_alaw v);
    encode_loop is_mulaw input output (i + 1) n
  end.

Fixpoint decode_loop (table input output : list Z) (i : Z) (n : nat) : res (list Z) :=
  match n with
  | O => Ok output
  | S n =>
    b ← rd input i;
    v ← rd table b;
    output ← write_sample output i v;
    decode_loop table input output (i + 1) n
  end.

(** [*info]; its data pointer is the output buffer. *)
Record turbo_encoded_frame_t := {
  ef_len : Z;
  ef_is_keyframe : Z;
  ef_packet_count : Z }.

(** The output buffer, [*output_len], [*info] and the return value. *)
Definition g711_encode (ctx : option g711_context_t) (input : option (list Z)) (input_len : Z)
    (output : option (list Z)) (output_len : option Z) (info : option turbo_encoded_frame_t)
    : res (option (list Z) * option Z * option turbo_encoded_frame_t * Z) :=
  match ctx, input, output, output_len with
  | Some g711, Some inp, Some out, Some n =>
    let sample_count := input_len / 2 in
    if n <? sample_count then Ok (output, output_len, info, TURBO_CODEC_ERR_BUFFER) else
    out ← encode_loop (g7_is_mulaw g711) inp out 0 (Z.to_nat sample_count);
    Ok (Some out, Some sample_count,
        (let? _ := info else None in Some (Build_turbo_encoded_frame_t sample_count 0 1)),
        TURBO_CODEC_OK)
  | _, _, _, _ => Ok (output, output_len, info, TURBO_CODEC_ERR_INVALID)
  end.

Definition g711_decode (ctx : option g711_context_t) (input : option (list Z)) (input_len : Z)
    (output : option (list Z)) (output_len : option Z)
    : res (option (list Z) * option Z * Z) :=
  match ctx, input, output, output_len with
  | Some g711, Some inp, Some out, Some n =>
    let required_size := u64 (input_len * 2) in
    if n <? required_size then Ok (output, output_len, TURBO_CODEC_ERR_BUFFER) else
    let table := if truth (g7_is_mulaw g711) then mulaw_exp_table else alaw_exp_table in
    out ← decode_loop table inp out 0 (Z.to_nat input_len);
    Ok (Some out, Some required_size, TURBO_CODEC_OK)
  | _, _, _, _ => Ok (output, output_len, TURBO_CODEC_ERR_INVALID)
  end.

(* ------------------------------------------------------------------ *)
(** ** The recommendation *)

(** Expansion of a mu-law and of an A-law code: sign, segment and interval are
    the bit fields of the code, inverted for mu-law and with the even bits
    inverted for A-law; the value is the middle of the interval. *)
Definition mulaw_expand (code : Z) : Z :=
  let c := 255 - code in
  let m := (2 * (c mod 16) + 33) * 2 ^ (c / 16 mod 8 + 2) - 132 in
  if code <? 128 then - m else m.

Definition alaw_expand (code : Z) : Z :=
  let c := Z.lxor code 85 in
  let seg := c / 16 mod 8 in
  let m := (2 * (c mod 16) + (if seg =? 0 then 1 else 33)) * 2 ^ (Z.max 1 seg + 2) in
  if code <? 128 then - m else m.

(** What companding keeps of a sample: a value within one part in 32 of the
    clipped sample, plus 132/32 = 4.125 units. *)
Definition clip (pcm : Z) : Z := Z.max (-32635) (Z.min 32635 pcm).

Definition mulaw_near (pcm value : Z) : Prop :=
  32 * Z.abs (value - clip pcm) <= Z.abs (clip pcm) + 132.

(* ------------------------------------------------------------------ *)
(** ** Samples *)

(** A property of every code, checked code by code. *)
Lemma all_codes (P : Z -> Prop) `{forall c, Decision (P c)} :
  forallb (fun n => bool_decide (P (Z.of_nat n))) (seq 0 256) = true -> forall c, is_u8 c -> P c.
Proof.
  unfold is_u8. intros Hall c Hc. rewrite forallb_forall in Hall. specialize (Hall (Z.to_nat c)).
  rewrite Z2Nat.id in Hall by lia. apply (bool_decide_eq_true_1 _), Hall, in_seq. lia.
Qed.

Lemma mulaw_table c : is_u8 c -> rd mulaw_exp_table c = Ok (mulaw_expand c).
Proof. revert c. apply (all_codes (fun c => rd mulaw_exp_table c = Ok (mulaw_expand c))). vm_compute. done. Qed.

Lemma alaw_table c : is_u8 c -> rd alaw_exp_table c = Ok (alaw_expand c).
Proof. revert c. apply (all_codes (fun c => rd alaw_exp_table c = Ok (alaw_expand c))). vm_compute. done. Qed.

Lemma lxor_255 x : is_u8 x -> u8 (Z.lxor x 255) = 255 - x.
Proof. revert x. apply (all_codes (fun x => u8 (Z.lxor x 255) = 255 - x)). vm_compute. done. Qed.

Lemma lxor_127 x : 0 <= x < 128 -> u8 (Z.lxor x 127) = 127 - x.
Proof.
  intros Hx. assert (H : ~ (x < 128) \/ u8 (Z.lxor x 127) = 127 - x); [|lia].
  assert (Hu : is_u8 x) by (unfold is_u8; lia). clear Hx. revert x Hu.
  apply (all_codes (fun x => ~ (x < 128) \/ u8 (Z.lxor x 127) = 127 - x)). vm_compute. done.
Qed.

Lemma pow2_plus n k c : 0 <= n -> 0 <= k -> 2 ^ k = c -> 2 ^ (n + k) = c * 2 ^ n.
Proof. intros. rewrite Z.pow_add_r by lia. lia. Qed.

(** The interval of a magnitude, biased by 132. *)
Lemma mulaw_interval m :
  132 <= m < 32768 ->
  let seg := find_segment m [16384; 8192; 4096; 2048; 1024; 512; 256] in
  let q := Z.land (Z.shiftr m (seg + 3)) 15 in
  0 <= seg < 8 /\ 0 <= q < 16 /\
  (q + 16) * 2 ^ (seg + 3) <= m < (q + 17) * 2 ^ (seg + 3) /\ 2 ^ (seg + 7) <= m.
Proof.
  intros Hm seg q.
  assert (Hseg : 0 <= seg < 8 /\ 2 ^ (seg + 7) <= m < 2 ^ (seg + 8)).
  { unfold seg. cbn [find_segment]. repeat case_match; rewrite ?len_cons, ?(@len_nil Z); bits_to_arith; lia. }
  destruct Hseg as [Hs [H1 H2]]. clearbody seg. unfold q.
  rewrite land15, Z.shiftr_div_pow2 by lia.
  replace (seg + 7) with (seg + 3 + 4) in * by lia. replace (seg + 8) with (seg + 3 + 5) in H2 by lia.
  rewrite (pow2_plus (seg + 3) 4 16) in * by (lia || done).
  rewrite (pow2_plus (seg + 3) 5 32) in H2 by (lia || done).
  assert (0 < 2 ^ (seg + 3)) by (apply Z.pow_pos_nonneg; lia).
  set (w := 2 ^ (seg + 3)) in *. clearbody w.
  assert (16 <= m / w < 32)
    by (split; [apply Z.div_le_lower_bound|apply Z.div_lt_upper_bound]; lia).
  replace ((m / w) mod 16) with (m / w - 16) by zmod_lia.
  pose proof (Z.div_mod m w ltac:(lia)). pose proof (Z.mod_pos_bound m w ltac:(lia)). nia.
Qed.

Lemma mulaw_code seg q (neg : bool) :
  0 <= seg < 8 -> 0 <= q < 16 ->
  let c := u8 (Z.lxor (u8 (Z.lor (Z.shiftl seg 4) q)) (if neg then 127 else 255)) in
  is_u8 c /\
  mulaw_expand c = let m := (2 * q + 33) * 2 ^ (seg + 2) - 132 in if neg then - m else m.
Proof.
  intros Hs Hq c.
  assert (Hc : c = (if neg then 127 else 255) - (16 * seg + q)).
  { unfold c. rewrite lor_shiftl_add by lia. rewrite (u8_id (seg * 2 ^ 4 + q)) by (unfold is_u8; lia).
    destruct neg; [rewrite lxor_127 by lia|rewrite lxor_255 by (unfold is_u8; lia)]; lia. }
  clearbody c. split; [unfold is_u8; destruct neg; lia|]. unfold mulaw_expand.
  assert (H1 : (255 - c) mod 16 = q) by (destruct neg; zmod_lia).
  assert (H2 : (255 - c) / 16 mod 8 = seg) by (destruct neg; zmod_lia).
  rewrite H1, H2. replace (c <? 128) with neg by (destruct neg; lia). done.
Qed.

(** Companding a sample and expanding it again. *)
Lemma mulaw_sample pcm :
  -32767 <= pcm <= 32767 ->
  is_u8 (linear_to_mulaw pcm) /\ mulaw_near pcm (mulaw_expand (linear_to_mulaw pcm)).
Proof.
  intros Hp. unfold linear_to_mulaw, mulaw_near.
  set (neg := pcm <? 0). set (m := Z.abs (clip pcm) + 132).
  assert (Hm : 132 <= m < 32768) by (unfold m, clip; lia).
  assert (Hmask : (if neg then (s16 (- pcm), 127) else (pcm, 255)) =
                  (Z.abs pcm, if neg then 127 else 255)).
  { unfold neg. destruct (Z.ltb_spec pcm 0); f_equal; [rewrite s16_id|]; lia. }
  rewrite Hmask. cbv zeta.
  replace (s16 ((if 32635 <? Z.abs pcm then 32635 else Z.abs pcm) + 132)) with m.
  2: { unfold m, clip. rewrite s16_id; destruct (Z.ltb_spec 32635 (Z.abs pcm)); lia. }
  destruct (mulaw_interval m Hm) as (Hs & Hq & [H1 H2] & H3).
  set (seg := find_segment m _) in *. set (q := Z.land _ 15) in *.
  destruct (mulaw_code seg q neg Hs Hq) as [Hc He]. cbv zeta in Hc, He.
  split; [exact Hc|]. rewrite He. clear Hc He.
  replace (seg + 7) with (seg + 2 + 5) in H3 by lia.
  replace (seg + 3) with (seg + 2 + 1) in H1, H2 by lia.
  rewrite (pow2_plus (seg + 2) 5 32) in H3 by (lia || done).
  rewrite (pow2_plus (seg + 2) 1 2) in H1, H2 by (lia || done).
  set (w := 2 ^ (seg + 2)) in *. clearbody w seg q.
  assert (Hclip : clip pcm = if neg then - (m - 132) else m - 132)
    by (unfold m, neg, clip; destruct (Z.ltb_spec pcm 0); lia).
  rewrite Hclip. destruct neg; lia.
Qed.

(* ------------------------------------------------------------------ *)
(** ** Buffers *)

Definition is_s16 (v : Z) : Prop := -32768 <= v < 32768.

(** The bytes of a sequence of samples. *)
Definition pcm_bytes (pcm : list Z) : list Z := concat (sample_bytes <$> pcm).

Lemma pcm_bytes_cons v pcm : pcm_bytes (v :: pcm) = sample_bytes v ++ pcm_bytes pcm.
Proof. done. Qed.

Lemma pcm_bytes_app a b : pcm_bytes (a ++ b) = pcm_bytes a ++ pcm_bytes b.
Proof. unfold pcm_bytes. by rewrite fmap_app, concat_app. Qed.

Lemma len_pcm_bytes pcm : len (pcm_bytes pcm) = 2 * len pcm.
Proof.
  induction pcm as [|v pcm IH]; [done|]. rewrite pcm_bytes_cons, len_app, len_cons, IH.
  change (len (sample_bytes v)) with 2. lia.
Qed.

Lemma read_sample_mid pre v post i :
  is_s16 v -> len pre = 2 * i -> read_sample (pre ++ sample_bytes v ++ post) i = Ok v.
Proof.
  unfold is_s16. intros Hv Hp. unfold read_sample, sample_bytes. cbn [app].
  rewrite (rd_mid pre (u8 v) _ (2 * i)) by done. cbn [mbind res_bind].
  rewrite (rd_off pre _ (2 * i) 1) by (done || lia). cbn [mbind res_bind].
  change (rd (u8 v :: u8 (v / 256) :: post) 1) with (Ok (u8 (v / 256))). cbn [mbind res_bind].
  f_equal. unfold s16, u8. zmod_lia.
Qed.

Definition compand (is_mulaw v : Z) : Z :=
  if truth is_mulaw then linear_to_mulaw v else linear_to_alaw v.

Lemma encode_loop_spec law pcm pre post done_ old rest :
  Forall is_s16 pcm -> len pre = 2 * len done_ -> len old = len pcm ->
  encode_loop law (pre ++ pcm_bytes pcm ++ post) (done_ ++ old ++ rest) (len done_) (length pcm) =
  Ok (done_ ++ (compand law <$> pcm) ++ rest).
Proof.
  revert pre done_ old. induction pcm as [|v pcm IH]; intros pre done_ old Hpcm Hp Ho.
  { destruct old; [done|len_lia]. }
  apply Forall_cons in Hpcm as [Hv Hpcm]. destruct old as [|o old]; [len_lia|].
  cbn [encode_loop length]. rewrite pcm_bytes_cons, <- app_assoc.
  rewrite read_sample_mid by done. cbn [mbind res_bind]. fold (compand law v).
  change ((o :: old) ++ rest) with (o :: (old ++ rest)). rewrite (upd_mid done_) by done.
  cbn [mbind res_bind fmap list_fmap].
  rewrite (app_assoc pre), (cons_middle (compand law v)), (app_assoc done_).
  replace (len done_ + 1) with (len (done_ ++ [compand law v])) by (rewrite len_app; done).
  rewrite IH; [by rewrite <- app_assoc|done| |by rewrite !len_cons in Ho; lia].
  rewrite !len_app, Hp. change (len (sample_bytes v)) with 2. change (len [compand law v]) with 1. lia.
Qed.

Definition expand (is_mulaw c : Z) : Z := if truth is_mulaw then mulaw_expand c else alaw_expand c.

Lemma expand_table law c :
  is_u8 c -> rd (if truth law then mulaw_exp_table else alaw_exp_table) c = Ok (expand law c).
Proof. unfold expand. destruct (truth law); [apply mulaw_table|apply alaw_table]. Qed.

Lemma decode_loop_spec law codes pre post done_ old rest :
  bytes codes -> len done_ = 2 * len pre -> len old = 2 * len codes ->
  decode_loop (if truth law then mulaw_exp_table else alaw_exp_table)
    (pre ++ codes ++ post) (done_ ++ old ++ rest) (len pre) (length codes) =
  Ok (done_ ++ pcm_bytes (expand law <$> codes) ++ rest).
Proof.
  revert pre done_ old. induction codes as [|c codes IH]; intros pre done_ old Hc Hd Ho.
  { destruct old; [done|len_lia]. }
  apply Forall_cons in Hc as [Hc Hcs].
  destruct old as [|o1 [|o2 old]]; [len_lia|len_lia|].
  cbn [decode_loop length]. change ((c :: codes) ++ post) with (c :: (codes ++ post)).
  rewrite (rd_mid pre c _ (len pre)) by done. cbn [mbind res_bind].
  rewrite expand_table by done. cbn [mbind res_bind]. unfold write_sample.
  change ((o1 :: o2 :: old) ++ rest) with ([o1; o2] ++ (old ++ rest)).
  rewrite (wr_mid done_ [o1; o2]) by (done || lia). cbn [mbind res_bind fmap list_fmap].
  rewrite pcm_bytes_cons, (cons_middle c), (app_assoc pre), (app_assoc done_).
  replace (len pre + 1) with (len (pre ++ [c])) by (rewrite len_app; done).
  rewrite IH; [by rewrite <- !app_assoc|done| |by rewrite !len_cons in Ho; lia].
  rewrite !len_app, Hd. change (len (sample_bytes (expand law c))) with 2. change (len [c]) with 1. lia.
Qed.

(** Encoding and decoding whole buffers. *)
Lemma g711_encode_spec ctx pcm out n info :
  Forall is_s16 pcm -> len pcm <= n -> n <= len out ->
  exists info', g711_encode (Some ctx) (Some (pcm_bytes pcm)) (2 * len pcm) (Some out) (Some n) info =
    Ok (Some ((compand (g7_is_mulaw ctx) <$> pcm) ++ drop (length pcm) out), Some (len pcm), info',
        TURBO_CODEC_OK).
Proof.
  intros Hp Hn Ho. unfold g711_encode. replace (2 * len pcm / 2) with (len pcm) by zmod_lia.
  replace (n <? len pcm) with false by lia. rewrite len_to_nat.
  pose proof (encode_loop_spec (g7_is_mulaw ctx) pcm [] [] [] (take (length pcm) out)
    (drop (length pcm) out) Hp) as E.
  rewrite app_nil_r, app_nil_l, !app_nil_l, take_drop in E.
  change (len (@nil Z)) with 0 in E.
  rewrite E by (done || len_lia). cbn [mbind res_bind]. by eexists.
Qed.

Lemma g711_decode_spec ctx codes out n :
  bytes codes -> len codes < 4611686018427387904 -> 2 * len codes <= n -> n <= len out ->
  g711_decode (Some ctx) (Some codes) (len codes) (Some out) (Some n) =
    Ok (Some (pcm_bytes (expand (g7_is_mulaw ctx) <$> codes) ++ drop (2 * length codes) out),
        Some (2 * len codes), TURBO_CODEC_OK).
Proof.
  intros Hc Hl Hn Ho. unfold g711_decode. pose proof (len_nonneg codes).
  rewrite u64_id by (unfold is_u64; lia). replace (len codes * 2) with (2 * len codes) by lia.
  replace (n <? 2 * len codes) with false by lia. rewrite len_to_nat.
  pose proof (decode_loop_spec (g7_is_mulaw ctx) codes [] [] [] (take (2 * length codes) out)
    (drop (2 * length codes) out) Hc) as E.
  rewrite !app_nil_l, app_nil_r, take_drop in E.
  change (len (@nil Z)) with 0 in E.
  rewrite E by (done || len_lia). done.
Qed.

(** Compressing an expanded code gives it back, but for the negative zero. *)
Lemma mulaw_reencode c :
  is_u8 c -> is_s16 (mulaw_expand c) /\
  linear_to_mulaw (mulaw_expand c) = if c =? 127 then 255 else c.
Proof.
  intros Hc. revert c Hc.
  apply (all_codes (fun c => -32768 <= mulaw_expand c < 32768 /\
    linear_to_mulaw (mulaw_expand c) = if c =? 127 then 255 else c)).
  vm_compute. done.
Qed.

(* ------------------------------------------------------------------ *)
(** ** Properties *)

(** C40: a buffer of samples from -32767 to 32767 encoded in mu-law and decoded
    again holds, sample by sample, values within [(|c| + 132) / 32] of [c], the
    sample clipped to +-32635: one part in 32 and 4.125 units besides, so that a
    small sample may differ by more than one part in 32 of itself.  The sample
    -32768 is excluded: its negation overflows and it becomes silence
    ([mulaw_min_silent]).  Both calls stay in their buffers and touch nothing past
    their output. *)
Theorem g711_mulaw_roundtrip ctx pcm out n info out2 n2 :
  truth (g7_is_mulaw ctx) = true -> Forall (fun v => -32767 <= v <= 32767) pcm ->
  len pcm < 4611686018427387904 ->
  len pcm <= n -> n <= len out -> 2 * len pcm <= n2 -> n2 <= len out2 ->
  exists info' codes values,
    g711_encode (Some ctx) (Some (pcm_bytes pcm)) (2 * len pcm) (Some out) (Some n) info =
      Ok (Some (codes ++ drop (length codes) out), Some (len pcm), info', TURBO_CODEC_OK) /\
    len codes = len pcm /\ bytes codes /\
    g711_decode (Some ctx) (Some codes) (len codes) (Some out2) (Some n2) =
      Ok (Some (pcm_bytes values ++ drop (2 * length codes) out2), Some (2 * len pcm),
          TURBO_CODEC_OK) /\
    Forall2 mulaw_near pcm values.
Proof.
  intros Hlaw Hpcm Hmax Hn Ho Hn2 Ho2.
  assert (Hs : Forall is_s16 pcm) by (eapply Forall_impl; [exact Hpcm|]; cbn; unfold is_s16; lia).
  destruct (g711_encode_spec ctx pcm out n info Hs Hn Ho) as [info' E].
  set (codes := compand (g7_is_mulaw ctx) <$> pcm) in *.
  assert (Hlen : length codes = length pcm) by apply length_fmap.
  assert (Hcodes : Forall2 (fun v c => is_u8 c /\ mulaw_near v (expand (g7_is_mulaw ctx) c)) pcm codes).
  { unfold codes, compand, expand. rewrite Hlaw. clear -Hpcm.
    induction Hpcm as [|v pcm Hv _ IH]; constructor; [by apply mulaw_sample|done]. }
  assert (Hb : bytes codes).
  { clear -Hcodes. induction Hcodes as [|v c pcm codes [Hc _] _ IH]; by constructor. }
  exists info', codes, (expand (g7_is_mulaw ctx) <$> codes).
  assert (Hz : len codes = len pcm) by (unfold len; by rewrite Hlen).
  rewrite <- Hlen in E. split; [exact E|]. split; [done|]. split; [done|].
  split; [rewrite g711_decode_spec by (done || lia); by rewrite Hz|].
  clear -Hcodes. induction Hcodes as [|v c pcm codes [_ Hc] _ IH]; by constructor.
Qed.

(** Decoding a mu-law stream and encoding the samples gives the stream back,
    code by code, the negative zero becoming the positive one. *)
Theorem g711_mulaw_reencode ctx codes out n out2 n2 info :
  truth (g7_is_mulaw ctx) = true -> bytes codes -> len codes < 4611686018427387904 ->
  2 * len codes <= n -> n <= len out -> len codes <= n2 -> n2 <= len out2 ->
  exists values info',
    g711_decode (Some ctx) (Some codes) (len codes) (Some out) (Some n) =
      Ok (Some (pcm_bytes values ++ drop (2 * length codes) out), Some (2 * len codes),
          TURBO_CODEC_OK) /\
    g711_encode (Some ctx) (Some (pcm_bytes values)) (2 * len codes) (Some out2) (Some n2) info =
      Ok (Some (((fun c => if c =? 127 then 255 else c) <$> codes) ++ drop (length codes) out2),
          Some (len codes), info', TURBO_CODEC_OK).
Proof.
  intros Hlaw Hc Hmax Hn Ho Hn2 Ho2. set (values := expand (g7_is_mulaw ctx) <$> codes).
  assert (Hlen : len values = len codes) by apply len_map.
  assert (Hv : Forall is_s16 values /\
    compand (g7_is_mulaw ctx) <$> values = (fun c => if c =? 127 then 255 else c) <$> codes).
  { unfold values, compand, expand. rewrite Hlaw. clear -Hc.
    induction Hc as [|c codes Hc _ [IH1 IH2]]; [done|].
    destruct (mulaw_reencode c Hc) as [H1 H2]. split; [by constructor|]. cbn. by rewrite H2, IH2. }
  destruct Hv as [Hs Hv].
  destruct (g711_encode_spec ctx values out2 n2 info Hs) as [info' E]; [lia|lia|].
  exists values, info'. split; [by rewrite g711_decode_spec|].
  rewrite Hv, Hlen in E. replace (length values) with (length codes) in E
    by (unfold values; by rewrite length_fmap). exact E.
Qed.

(* ------------------------------------------------------------------ *)
(** ** Observations *)

(** The A-law compressor has its segment bounds one bit too low: samples from
    8192 to 16383 come back above 25087, a sample of 1000 as 2016, and 208 of
    the 256 codes are not compressed back to themselves. *)
Theorem alaw_encoder_misplaces :
  (forall v, 8192 <= v < 16384 -> 25088 <= alaw_expand (linear_to_alaw v)) /\
  alaw_expand (linear_to_alaw 1000) = 2016 /\
  length (base.filter (fun c => linear_to_alaw (alaw_expand c) <> c) (seqZ 0 256)) = 208%nat.
Proof.
  split; [|split; [done|by vm_compute]]. intros v Hv.
  unfold linear_to_alaw. replace (0 <=? v) with true by lia. cbv zeta.
  replace (32635 <? v) with false by lia. cbn [find_segment].
  replace (8192 <=? v) with true by lia. change (1 + len [4096; 2048; 1024; 512; 256; 128]) with 7.
  change (2 <=? 7) with true. cbv iota. change (7 + 3) with 10. rewrite Z.shiftr_div_pow2 by lia.
  change (2 ^ 10) with 1024.
  assert (Hd : 8 <= v / 1024 < 16) by zmod_lia. set (d := v / 1024) in *. clearbody d.
  assert (H : d = 8 \/ d = 9 \/ d = 10 \/ d = 11 \/ d = 12 \/ d = 13 \/ d = 14 \/ d = 15) by lia.
  destruct H as [->|[->|[->|[->|[->|[->|[->| ->]]]]]]]; vm_compute; congruence.
Qed.

(** The most negative sample cannot be negated in 16 bits and becomes silence. *)
Theorem mulaw_min_silent :
  linear_to_mulaw (-32768) = 127 /\ mulaw_expand 127 = 0.
Proof. done. Qed.

(* ------------------------------------------------------------------ *)
(** ** Witnesses *)

Definition ex_g711 : g711_context_t := Build_g711_context_t 1 8000 1.
Definition ex_pcm : list Z := [0; 1000; -1000; 32767; -32767].

Lemma g711_mulaw_roundtrip_witness :
  exists info' codes values,
    g711_encode (Some ex_g711) (Some (pcm_bytes ex_pcm)) (2 * len ex_pcm)
        (Some (replicate 8 0)) (Some 8) None =
      Ok (Some (codes ++ drop (length codes) (replicate 8 0)), Some (len ex_pcm), info',
          TURBO_CODEC_OK) /\
    len codes = len ex_pcm /\ bytes codes /\
    g711_decode (Some ex_g711) (Some codes) (len codes) (Some (replicate 10 0)) (Some 10) =
      Ok (Some (pcm_bytes values ++ drop (2 * length codes) (replicate 10 0)),
          Some (2 * len ex_pcm), TURBO_CODEC_OK) /\
    Forall2 mulaw_near ex_pcm values.
Proof.
  apply (g711_mulaw_roundtrip ex_g711); [reflexivity|repeat constructor; lia|..];
    vm_compute; congruence.
Defined.

Lemma g711_mulaw_reencode_witness :
  exists values info',
    g711_decode (Some ex_g711) (Some [0; 127; 128; 255]) (len [0; 127; 128; 255])
        (Some (replicate 8 0)) (Some 8) =
      Ok (Some (pcm_bytes values ++ drop (2 * length [0; 127; 128; 255]) (replicate 8 0)),
          Some (2 * len [0; 127; 128; 255]), TURBO_CODEC_OK) /\
    g711_encode (Some ex_g711) (Some (pcm_bytes values)) (2 * len [0; 127; 128; 255])
        (Some (replicate 4 0)) (Some 4) None =
      Ok (Some (((fun c => if c =? 127 then 255 else c) <$> [0; 127; 128; 255]) ++
                drop (length [0; 127; 128; 255]) (replicate 4 0)),
          Some (len [0; 127; 128; 255]), info', TURBO_CODEC_OK).
Proof.
  apply (g711_mulaw_reencode ex_g711);
    [reflexivity|repeat constructor; unfold is_u8; lia|..]; vm_compute; congruence.
Defined.

Example ex_mulaw_codes : linear_to_mulaw <$> ex_pcm = [255; 206; 78; 128; 0].
Proof. reflexivity. Qed.
