(* ===== verification/Dcep.v ===== *)
(** * Data channel establishment: messages

    webrtc/src/dcep_protocol.c (RFC 8832), with the byte-order helpers and the
    constants of turbo_datachannel_internal.h: the strict UTF-8 check of labels
    and protocols, the OPEN message a channel sends and the reading of an OPEN
    message into the fields of a new channel.  The channel table these act on is
    [DataChannel]. *)

From S2P Require Import Prelude.

(* ------------------------------------------------------------------ *)
(** ** Constants *)

Definition MAX_LABEL_LEN : Z := 256.
Definition MAX_PROTOCOL_LEN : Z := 256.
Definition DCEP_MAX_PACKET_SIZE : Z := 512.
Definition DCEP_DATA_CHANNEL_OPEN : Z := 3.
Definition DCEP_DATA_CHANNEL_ACK : Z := 2.
Definition DCEP_CHANNEL_RELIABLE_ORDERED : Z := 0.
Definition DCEP_CHANNEL_RELIABLE_UNORDERED : Z := 128.
Definition DCEP_CHANNEL_REXMIT : Z := 1.
Definition DCEP_CHANNEL_TIMED : Z := 2.
Definition DCEP_HEADER_LENGTH : Z := 12.
Definition DCEP_LABEL_LEN_OFFSET : Z := 8.
Definition DCEP_PROTO_LEN_OFFSET : Z := 10.
Definition DCEP_LABEL_OFFSET : Z := 12.
Definition INT_MAX : Z := 2147483647.

Definition get_be16 : list Z -> Z -> res Z := read_u16.
Definition get_be32 : list Z -> Z -> res Z := read_u32.
Definition put_be16 : list Z -> Z -> Z -> res (list Z) := write_u16.
Definition put_be32 : list Z -> Z -> Z -> res (list Z) := write_u32.

(* ------------------------------------------------------------------ *)
(** ** Text *)

(** How many bytes follow the first one. *)
Definition continuation_count (first : Z) : option Z :=
  if (0xc2 <=? first) && (first <=? 0xdf) then Some 1
  else if (0xe0 <=? first) && (first <=? 0xef) then Some 2
  else if (0xf0 <=? first) && (first <=? 0xf4) then Some 3
  else None.

Definition not_continuation (b : Z) : bool := (b <? 0x80) || (0xbf <? b).

(** The checks of the bytes after [first], in the order of the code. *)
Definition second_ok (text : list Z) (index : Z) : res bool :=
  b1 ← rd text (index + 1); Ok (negb (not_continuation b1)).

Definition third_ok (text : list Z) (index first : Z) : res bool :=
  b2 ← rd text (index + 2);
  b1 ← rd text (index + 1);
  Ok (negb (not_continuation b2) &&
      negb (((first =? 0xe0) && (b1 <? 0xa0)) ||
            ((first =? 0xed) && (0x9f <? b1)))).

Definition fourth_ok (text : list Z) (index first : Z) : res bool :=
  b3 ← rd text (index + 3);
  b1 ← rd text (index + 1);
  Ok (negb (not_continuation b3) &&
      negb (((first =? 0xf0) && (b1 <? 0x90)) ||
            ((first =? 0xf4) && (0x8f <? b1)))).

Fixpoint text_loop (fuel : nat) (text : list Z) (length index : Z) : res bool :=
  match fuel with
  | O => Fault
  | S fuel =>
    if negb (index <? length) then Ok true
    else
      first ← rd text index;
      if first <=? 0x7f then text_loop fuel text length (index + 1)
      else
        let? count := continuation_count first else Ok false in
        if length - index <=? count then Ok false
        else
          ok1 ← second_ok text index;
          if negb ok1 then Ok false
          else
            ok2 ← (if 2 <=? count then third_ok text index first else Ok true);
            if negb ok2 then Ok false
            else
              ok3 ← (if count =? 3 then fourth_ok text index first else Ok true);
              if negb ok3 then Ok false
              else text_loop fuel text length (index + (count + 1))
  end.

Definition dcep_text_valid (text : option (list Z)) (length : Z) : res bool :=
  match text with
  | None => Ok (length =? 0)
  | Some text => text_loop (S (Z.to_nat length)) text length 0
  end.

(* ------------------------------------------------------------------ *)
(** ** Unicode text

    The reference: UTF-8 as RFC 3629 defines it, an encoding of each scalar
    value. *)

Definition scalar_value (c : Z) : Prop :=
  0 <= c < 0xd800 \/ 0xe000 <= c < 0x110000.

#[export] Instance scalar_value_dec c : Decision (scalar_value c).
Proof. unfold scalar_value. apply _. Defined.

Definition utf8_char (c : Z) : list Z :=
  if c <? 0x80 then [c]
  else if c <? 0x800 then [0xc0 + c / 64; 0x80 + c mod 64]
  else if c <? 0x10000 then
    [0xe0 + c / 4096; 0x80 + c / 64 mod 64; 0x80 + c mod 64]
  else
    [0xf0 + c / 262144; 0x80 + c / 4096 mod 64; 0x80 + c / 64 mod 64;
     0x80 + c mod 64].

Definition utf8 (cs : list Z) : list Z := cs ≫= utf8_char.

Definition utf8_text (bs : list Z) : Prop :=
  exists cs, Forall scalar_value cs /\ bs = utf8 cs.

(** The first scalar value of a text and the rest, by the same tests. *)
Definition cont (b : Z) : bool := negb (not_continuation b).

Definition decode_char (s : list Z) : option (Z * list Z) :=
  match s with
  | [] => None
  | a :: s =>
    if a <=? 0x7f then Some (a, s)
    else
      match continuation_count a, s with
      | Some 1, b1 :: s =>
          if cont b1 then Some ((a - 0xc0) * 64 + (b1 - 0x80), s) else None
      | Some 2, b1 :: b2 :: s =>
          if cont b1 && cont b2 &&
             negb (((a =? 0xe0) && (b1 <? 0xa0)) || ((a =? 0xed) && (0x9f <? b1)))
          then Some ((a - 0xe0) * 4096 + (b1 - 0x80) * 64 + (b2 - 0x80), s)
          else None
      | Some 3, b1 :: b2 :: b3 :: s =>
          if cont b1 && cont b2 && cont b3 &&
             negb (((a =? 0xf0) && (b1 <? 0x90)) || ((a =? 0xf4) && (0x8f <? b1)))
          then Some ((a - 0xf0) * 262144 + (b1 - 0x80) * 4096 +
                     (b2 - 0x80) * 64 + (b3 - 0x80), s)
          else None
      | _, _ => None
      end
  end.

Lemma continuation_count_spec a :
  continuation_count a =
    if decide (0xc2 <= a <= 0xdf) then Some 1
    else if decide (0xe0 <= a <= 0xef) then Some 2
    else if decide (0xf0 <= a <= 0xf4) then Some 3 else None.
Proof.
  unfold continuation_count. repeat case_decide;
    repeat (case_match; try lia); done.
Qed.

(** Decides a boolean test that linear arithmetic settles. *)
Ltac test b v := replace b with v by (unfold cont, not_continuation; lia).

(** The six-bit digits of a number. *)
Lemma digits64 c :
  exists q1 q2 q3 r0 r1 r2, c / 64 = q1 /\ c / 4096 = q2 /\ c / 262144 = q3 /\
    c mod 64 = r0 /\ c / 64 mod 64 = r1 /\ c / 4096 mod 64 = r2 /\
    c = 64 * q1 + r0 /\ q1 = 64 * q2 + r1 /\ q2 = 64 * q3 + r2 /\
    0 <= r0 < 64 /\ 0 <= r1 < 64 /\ 0 <= r2 < 64.
Proof.
  do 6 eexists. do 6 (split; [reflexivity|]).
  change 262144 with (64 * 64 * 64). change 4096 with (64 * 64).
  rewrite <- !Z.div_div by lia.
  repeat (split; [apply Z.div_mod; lia|]). split_and!; apply Z.mod_pos_bound; lia.
Qed.

(** Names the digits of [c] in the goal. *)
Ltac name_digits c :=
  let q1 := fresh "q" in let q2 := fresh "q" in let q3 := fresh "q" in
  let r0 := fresh "r" in let r1 := fresh "r" in let r2 := fresh "r" in
  destruct (digits64 c) as (q1 & q2 & q3 & r0 & r1 & r2 & -> & -> & -> & -> & -> & -> & ?);
  destruct_and?.

Lemma decode_utf8_char c rest :
  scalar_value c -> decode_char (utf8_char c ++ rest) = Some (c, rest).
Proof.
  intros Hc. unfold utf8_char, scalar_value in *. name_digits c.
  destruct (c <? 0x80) eqn:E1; [cbn; test (c <=? 127) true; done|].
  destruct (c <? 0x800) eqn:E2; [|destruct (c <? 0x10000) eqn:E3];
    cbn [decode_char app]; rewrite continuation_count_spec;
    match goal with |- (if ?t then _ else _) = _ => replace t with false by lia end;
    repeat (rewrite decide_False by lia); rewrite decide_True by lia;
    match goal with |- (if ?t then _ else _) = _ => replace t with true
      by (unfold cont, not_continuation; lia) end;
    do 2 f_equal; lia.
Qed.

Lemma decode_char_inv s c rest :
  bytes s -> decode_char s = Some (c, rest) ->
  scalar_value c /\ s = utf8_char c ++ rest.
Proof.
  intros Hs. destruct s as [|a s]; [done|]. cbn [decode_char].
  apply Forall_cons in Hs as [Ha Hs]. unfold is_u8 in Ha.
  destruct (a <=? 0x7f) eqn:Ea.
  { intros [= <- <-]. unfold scalar_value, utf8_char.
    replace (a <? 0x80) with true by lia. split; [lia|done]. }
  rewrite continuation_count_spec.
  case_decide; [destruct s as [|b1 s]; [done|]|
    case_decide; [destruct s as [|b1 [|b2 s]]; [done..|]|
      case_decide; [destruct s as [|b1 [|b2 [|b3 s]]]; [done..|]|done]]].
  all: match goal with |- (if ?t then _ else _) = _ -> _ => destruct t eqn:Et; [|done] end;
    intros [= Hc <-]; unfold cont, not_continuation in Et;
    unfold scalar_value, utf8_char.
  all: split; [lia|]. all: name_digits c.
  all: repeat (match goal with |- context [if ?t then _ else _] =>
    first [replace t with false by lia|replace t with true by lia] end).
  all: cbn [app]; repeat (apply (f_equal2 cons); [lia|]); done.
Qed.

Lemma utf8_text_head c rest :
  scalar_value c -> bytes rest ->
  utf8_text (utf8_char c ++ rest) <-> utf8_text rest.
Proof.
  intros Hc Hr. split.
  - intros ([|c' cs] & Hcs & E).
    { apply (f_equal decode_char) in E. by rewrite decode_utf8_char in E. }
    apply Forall_cons in Hcs as [Hc' Hcs]. cbn in E.
    apply (f_equal decode_char) in E.
    rewrite !decode_utf8_char in E by done. injection E as <- ->. by exists cs.
  - intros (cs & Hcs & ->). exists (c :: cs). split; [by constructor|done].
Qed.

Lemma utf8_text_decodes s :
  utf8_text s -> s <> [] -> exists c rest, decode_char s = Some (c, rest).
Proof.
  intros ([|c cs] & Hcs & ->) Hne; [done|]. apply Forall_cons in Hcs as [Hc _].
  exists c, (utf8 cs). by apply decode_utf8_char.
Qed.

(** The bounds check of the code, on the bytes left. *)
Lemma text_room (p m count : Z) :
  (p + (1 + m) - p <=? count) = (m <? count).
Proof. lia. Qed.

(** One turn of the loop decodes one scalar value. *)
Lemma text_loop_step fuel pre s tail :
  s <> [] ->
  text_loop (S fuel) (pre ++ s ++ tail) (len pre + len s) (len pre) =
  match decode_char s with
  | None => Ok false
  | Some (_, rest) =>
      text_loop fuel (pre ++ s ++ tail) (len pre + len s)
        (len pre + (len s - len rest))
  end.
Proof.
  intros Hne. destruct s as [|a s]; [done|]. cbn [text_loop]. cbn [app].
  pose proof (len_nonneg s). rewrite len_cons.
  test (len pre <? len pre + (1 + len s)) true. cbn [negb].
  rewrite rd_mid by done. cbn [mbind res_bind decode_char].
  destruct (a <=? 127); [f_equal; lia|].
  rewrite continuation_count_spec. unfold second_ok, third_ok, fourth_ok, cont.
  assert (R : forall l x post i, len (a :: l) = i ->
    rd (pre ++ a :: l ++ x :: post) (len pre + i) = Ok x).
  { intros l x post i <-. rewrite (app_comm_cons l), app_assoc. apply rd_mid, len_app. }
  case_decide; [|case_decide; [|case_decide; [|done]]].
  - rewrite text_room. destruct s as [|b1 s]; [done|]. cbn [app].
    rewrite !len_cons. pose proof (len_nonneg s). test (1 + len s <? 1) false.
    pose proof (R [] b1 (s ++ tail) 1 eq_refl) as R1. cbn [app] in R1. rewrite R1. cbn.
    destruct (not_continuation b1); [done|]. cbn [negb]. f_equal. lia.
  - rewrite text_room. destruct s as [|b1 [|b2 s]]; [done..|]. cbn [app].
    rewrite !len_cons. pose proof (len_nonneg s). test (1 + (1 + len s) <? 2) false.
    pose proof (R [] b1 (b2 :: s ++ tail) 1 eq_refl) as R1.
    pose proof (R [b1] b2 (s ++ tail) 2 eq_refl) as R2.
    cbn [app] in R1, R2. rewrite !R1, !R2. cbn.
    destruct (not_continuation b1), (not_continuation b2); try done; cbn [negb andb].
    destruct (_ || _); [done|]. cbn [negb]. f_equal. lia.
  - rewrite text_room. destruct s as [|b1 [|b2 [|b3 s]]]; [done..|]. cbn [app].
    rewrite !len_cons. pose proof (len_nonneg s). test (1 + (1 + (1 + len s)) <? 3) false.
    pose proof (R [] b1 (b2 :: b3 :: s ++ tail) 1 eq_refl) as R1.
    pose proof (R [b1] b2 (b3 :: s ++ tail) 2 eq_refl) as R2.
    pose proof (R [b1; b2] b3 (s ++ tail) 3 eq_refl) as R3.
    cbn [app] in R1, R2, R3. rewrite !R1, !R2, !R3. cbn.
    test (a =? 224) false. test (a =? 237) false.
    destruct (not_continuation b1), (not_continuation b2), (not_continuation b3);
      try done; cbn [negb andb orb].
    destruct (_ || _); [done|]. cbn [negb]. f_equal. lia.
Qed.

Lemma decode_char_shorter s c rest :
  bytes s -> decode_char s = Some (c, rest) -> bytes rest /\ len rest < len s.
Proof.
  intros Hb E. destruct (decode_char_inv _ _ _ Hb E) as [_ ->].
  apply Forall_app in Hb as [_ Hb]. split; [done|]. rewrite len_app.
  unfold utf8_char. repeat case_match; rewrite !len_cons; pose proof (len_nonneg (@nil Z)); lia.
Qed.

Lemma text_loop_spec fuel pre s tail :
  bytes s -> (length s < fuel)%nat ->
  exists b, text_loop fuel (pre ++ s ++ tail) (len pre + len s) (len pre) = Ok b /\
    (b = true <-> utf8_text s).
Proof.
  revert pre s. induction fuel as [|fuel IH]; intros pre s Hb Hf; [lia|].
  destruct (decide (s = [])) as [->|Hne].
  { exists true. rewrite len_nil. cbn [text_loop]. test (len pre <? len pre + 0) false.
    split; [done|]. split; [|done]. intros _. by exists []. }
  rewrite text_loop_step by done. destruct (decode_char s) as [[c rest]|] eqn:Ed.
  - destruct (decode_char_shorter _ _ _ Hb Ed) as [Hr Hl].
    destruct (decode_char_inv _ _ _ Hb Ed) as [Hc Es].
    destruct (IH (pre ++ utf8_char c) rest) as (b & Eb & Hspec); [done|len_lia|].
    exists b. rewrite Hspec, Es, utf8_text_head by done. split; [|done].
    rewrite <- Eb, <- !app_assoc, !len_app. f_equal; lia.
  - exists false. split; [done|]. split; [done|]. intros Ht.
    destruct (utf8_text_decodes s Ht Hne) as (c & rest & E). congruence.
Qed.

Lemma text_valid_spec s tail :
  bytes s ->
  exists b, dcep_text_valid (Some (s ++ tail)) (len s) = Ok b /\
    (b = true <-> utf8_text s).
Proof.
  intros Hb. apply (text_loop_spec (S (Z.to_nat (len s))) [] s tail Hb).
  rewrite len_to_nat. lia.
Qed.

(** The check on the bytes between two others, as the OPEN handler calls it. *)
Lemma text_valid_at pre s tail n :
  bytes s -> n = len s ->
  exists b, dcep_text_valid (Some (drop (length pre) (pre ++ s ++ tail))) n = Ok b /\
    (b = true <-> utf8_text s).
Proof. intros Hb ->. rewrite drop_app_length. by apply text_valid_spec. Qed.

(* ------------------------------------------------------------------ *)
(** ** Channels

    A [tstr] is a string or [NULL]; an application callback is the address of
    its function or [NULL].  The back pointer to the peer is left out: a
    channel has one peer. *)

Record turbo_dc_channel_config_t := {
  ordered : Z;
  max_retransmits : Z;
  max_lifetime_ms : Z;
  protocol : option (list Z);
}.

Record turbo_dc_channel_s := {
  ch_user_data : Z;
  ch_id : Z;
  ch_label : option (list Z);
  ch_protocol : option (list Z);
  ch_config : turbo_dc_channel_config_t;
  ch_is_open : bool;
  ch_dcep_sent : bool;
  ch_buffered_amount : Z;
  ch_callback_refs : Z;
  ch_closing : bool;
  ch_on_open : option Z;
  ch_on_message : option Z;
  ch_on_close : option Z;
}.

(** A fresh record from [calloc] with its identity and configuration. *)
Definition channel_of (id : Z) (label proto : option (list Z))
    (config : turbo_dc_channel_config_t) : turbo_dc_channel_s :=
  {| ch_user_data := 0; ch_id := id; ch_label := label; ch_protocol := proto;
     ch_config := config; ch_is_open := false; ch_dcep_sent := false;
     ch_buffered_amount := 0; ch_callback_refs := 0; ch_closing := false;
     ch_on_open := None; ch_on_message := None; ch_on_close := None |}.

Definition tstr_len (s : option (list Z)) : Z :=
  match s with Some s => len s | None => 0 end.

(** [memcpy] of a string that is copied only when it is not empty. *)
Definition put_text (packet : list Z) (i : Z) (s : option (list Z)) : res (list Z) :=
  if 0 <? tstr_len s then (let? s := s else Fault in wr packet i s)
  else Ok packet.

Definition bad_limits (config : turbo_dc_channel_config_t) : bool :=
  (max_retransmits config <? 0) || (max_lifetime_ms config <? 0) ||
  ((0 <? max_retransmits config) && (0 <? max_lifetime_ms config)).

(** The reliability bits and their parameter. *)
Definition put_reliability (packet : list Z) (config : turbo_dc_channel_config_t)
    : res (list Z) :=
  if bad_limits config then Err
  else if 0 <? max_retransmits config then
    type ← rd packet 1;
    packet ← wr packet 1 [Z.lor type DCEP_CHANNEL_REXMIT];
    put_be32 packet 4 (u32 (max_retransmits config))
  else if 0 <? max_lifetime_ms config then
    type ← rd packet 1;
    packet ← wr packet 1 [Z.lor type DCEP_CHANNEL_TIMED];
    put_be32 packet 4 (u32 (max_lifetime_ms config))
  else Ok packet.

(** The packet [dcep_send_open] hands to SCTP.  Of the array of
    [DCEP_MAX_PACKET_SIZE] bytes only the prefix set to zero is used. *)
Definition dcep_open_packet (channel : turbo_dc_channel_s) : res (list Z) :=
  let label_len := tstr_len (ch_label channel) in
  let proto_len := tstr_len (ch_protocol channel) in
  let packet_len := DCEP_HEADER_LENGTH + label_len + proto_len in
  if DCEP_MAX_PACKET_SIZE <? packet_len then Err
  else
    let packet := replicate (Z.to_nat packet_len) 0 in
    packet ← wr packet 0 [DCEP_DATA_CHANNEL_OPEN];
    packet ← wr packet 1
      [if truth (ordered (ch_config channel)) then DCEP_CHANNEL_RELIABLE_ORDERED
       else DCEP_CHANNEL_RELIABLE_UNORDERED];
    packet ← put_reliability packet (ch_config channel);
    packet ← put_be16 packet DCEP_LABEL_LEN_OFFSET (u16 label_len);
    packet ← put_be16 packet DCEP_PROTO_LEN_OFFSET (u16 proto_len);
    packet ← put_text packet DCEP_LABEL_OFFSET (ch_label channel);
    put_text packet (DCEP_LABEL_OFFSET + label_len) (ch_protocol channel).

(** The outcomes of the three allocations of the OPEN handler. *)
Record open_mem := { om_calloc : bool; om_label : bool; om_protocol : bool }.

(** [tstr_dup_len] of a field that may be empty. *)
Definition dup_field (data : list Z) (i n : Z) (ok : bool) : res (option (list Z)) :=
  if 0 <? n then (s ← rd_slice data i n; if ok then Ok (Some s) else Err)
  else Ok None.

(** The configuration the channel type announces. *)
Definition open_config (channel_type reliability_parameter : Z)
    : res turbo_dc_channel_config_t :=
  let reliability :=
    Z.land channel_type (Z.lor DCEP_CHANNEL_REXMIT DCEP_CHANNEL_TIMED) in
  if (reliability =? Z.lor DCEP_CHANNEL_REXMIT DCEP_CHANNEL_TIMED) ||
     negb (Z.land channel_type
             (Z.lnot (Z.lor (Z.lor DCEP_CHANNEL_RELIABLE_UNORDERED
                               DCEP_CHANNEL_REXMIT) DCEP_CHANNEL_TIMED)) =? 0)
  then Err
  else
    let ord := b2i (Z.land channel_type DCEP_CHANNEL_RELIABLE_UNORDERED =? 0) in
    if reliability =? DCEP_CHANNEL_REXMIT then
      if INT_MAX <? reliability_parameter then Err
      else Ok (Build_turbo_dc_channel_config_t ord reliability_parameter 0 None)
    else if reliability =? DCEP_CHANNEL_TIMED then
      if INT_MAX <? reliability_parameter then Err
      else Ok (Build_turbo_dc_channel_config_t ord 0 reliability_parameter None)
    else Ok (Build_turbo_dc_channel_config_t ord 0 0 None).

(** The OPEN branch of [dcep_handle_message] up to the finished record: [Err]
    when the message is ignored (whatever was allocated is freed). *)
Definition dcep_open_channel (is_dtls_server stream_id : Z) (data : list Z)
    (n : Z) (mem : open_mem) : res turbo_dc_channel_s :=
  label_len ← get_be16 data DCEP_LABEL_LEN_OFFSET;
  proto_len ← get_be16 data DCEP_PROTO_LEN_OFFSET;
  reliability_parameter ← get_be32 data 4;
  if (MAX_LABEL_LEN <? label_len) || (MAX_PROTOCOL_LEN <? proto_len) ||
     negb (n =? DCEP_HEADER_LENGTH + label_len + proto_len) then Err
  else
    label_ok ← dcep_text_valid (Some (drop 12 data)) label_len;
    proto_ok ← (if negb label_ok then Ok false
                else dcep_text_valid
                       (Some (drop (Z.to_nat (DCEP_LABEL_OFFSET + label_len)) data))
                       proto_len);
    if negb label_ok || negb proto_ok then Err
    else if negb (Bool.eqb (Z.land stream_id 1 =? 0) (truth is_dtls_server)) then Err
    else if negb (om_calloc mem) then Err
    else
      label ← dup_field data DCEP_LABEL_OFFSET label_len (om_label mem);
      proto ← dup_field data (DCEP_LABEL_OFFSET + label_len) proto_len
                (om_protocol mem);
      channel_type ← rd data 1;
      config ← open_config channel_type reliability_parameter;
      Ok (channel_of stream_id label proto config).

(* ------------------------------------------------------------------ *)
(** ** The OPEN message on the wire *)

Definition text (s : option (list Z)) : list Z := default [] s.

(** The channel type and the reliability parameter of a configuration. *)
Definition open_type (config : turbo_dc_channel_config_t) : Z :=
  (if truth (ordered config) then 0 else 128) +
  (if 0 <? max_retransmits config then 1
   else if 0 <? max_lifetime_ms config then 2 else 0).
Definition open_parameter (config : turbo_dc_channel_config_t) : Z :=
  if 0 <? max_retransmits config then max_retransmits config
  else max_lifetime_ms config.

Definition open_wire (type parameter : Z) (label proto : list Z) : list Z :=
  [DCEP_DATA_CHANNEL_OPEN; type; 0; 0] ++ be32 parameter ++ be16 (len label) ++
  be16 (len proto) ++ label ++ proto.

Record channel_ok (channel : turbo_dc_channel_s) : Prop := {
  co_label : len (text (ch_label channel)) <= MAX_LABEL_LEN;
  co_protocol : len (text (ch_protocol channel)) <= MAX_PROTOCOL_LEN;
  co_rexmit : 0 <= max_retransmits (ch_config channel) <= INT_MAX;
  co_lifetime : 0 <= max_lifetime_ms (ch_config channel) <= INT_MAX;
  co_limits : bad_limits (ch_config channel) = false;
  co_fits : DCEP_HEADER_LENGTH + len (text (ch_label channel)) +
            len (text (ch_protocol channel)) <= DCEP_MAX_PACKET_SIZE;
}.

Lemma tstr_len_text s : tstr_len s = len (text s).
Proof. by destruct s. Qed.

Lemma put_text_mid pre old post s i :
  len pre = i -> len old = len (text s) ->
  put_text (pre ++ old ++ post) i s = Ok (pre ++ text s ++ post).
Proof.
  intros Hi Ho. unfold put_text. rewrite tstr_len_text.
  destruct (0 <? len (text s)) eqn:E.
  - destruct s as [s|]; [|done]. by apply wr_mid.
  - assert (text s = []) as -> by (destruct (text s); [done|len_lia]).
    assert (old = []) as -> by (destruct old; [done|len_lia]). done.
Qed.

Lemma wr_lit {A} (b bs : list A) i :
  0 <= i -> i + len bs <= len b ->
  wr b i bs = Ok (take (Z.to_nat i) b ++ bs ++ drop (Z.to_nat i + length bs) b).
Proof. intros. unfold wr. by rewrite decide_True by lia. Qed.

(** Writing into the fixed header of a packet. *)
Lemma wr_head (h tail bs h' : list Z) i :
  0 <= i -> i + len bs <= len h -> wr h i bs = Ok h' ->
  wr (h ++ tail) i bs = Ok (h' ++ tail).
Proof.
  intros Hi Hl. rewrite !wr_lit by len_lia. intros [= <-].
  rewrite take_app_le, drop_app_le by len_lia. by rewrite <- !app_assoc.
Qed.

Lemma put_reliability_spec type config tail :
  bad_limits config = false -> type = 0 \/ type = 128 ->
  0 <= max_retransmits config <= INT_MAX -> 0 <= max_lifetime_ms config <= INT_MAX ->
  put_reliability ([DCEP_DATA_CHANNEL_OPEN; type; 0; 0] ++ be32 0 ++ tail) config =
  Ok ([DCEP_DATA_CHANNEL_OPEN;
       type + (if 0 <? max_retransmits config then 1
               else if 0 <? max_lifetime_ms config then 2 else 0); 0; 0] ++
      be32 (open_parameter config) ++ tail).
Proof.
  unfold put_reliability, open_parameter, INT_MAX. intros -> Ht Hr Hl.
  unfold put_be32, write_u32, DCEP_CHANNEL_REXMIT, DCEP_CHANNEL_TIMED.
  assert (W : forall t v, (packet ← wr ([DCEP_DATA_CHANNEL_OPEN; type; 0; 0] ++
      be32 0 ++ tail) 1 [t]; wr packet 4 (be32 v)) =
    Ok ([DCEP_DATA_CHANNEL_OPEN; t; 0; 0] ++ be32 v ++ tail)).
  { intros t v. rewrite (wr_head [_; _; _; _] _ _ [_; t; 0; 0]) by done.
    cbn [mbind res_bind]. by apply (wr_mid [_; _; _; _]). }
  change (rd _ 1) with (Ok type : res Z).
  destruct (0 <? max_retransmits config) eqn:E1;
    [|destruct (0 <? max_lifetime_ms config) eqn:E2]; cbn [mbind res_bind].
  - rewrite W, u32_id by (unfold is_u32; lia). by destruct Ht as [-> | ->].
  - rewrite W, u32_id by (unfold is_u32; lia). by destruct Ht as [-> | ->].
  - rewrite Z.add_0_r. replace (max_lifetime_ms config) with 0 by lia. done.
Qed.

Lemma dcep_open_packet_spec channel :
  channel_ok channel ->
  dcep_open_packet channel =
  Ok (open_wire (open_type (ch_config channel)) (open_parameter (ch_config channel))
        (text (ch_label channel)) (text (ch_protocol channel))).
Proof.
  intros []. unfold dcep_open_packet. rewrite !tstr_len_text.
  set (label := text _) in *. set (proto := text (ch_protocol _)) in *.
  unfold DCEP_HEADER_LENGTH, DCEP_MAX_PACKET_SIZE, MAX_LABEL_LEN, MAX_PROTOCOL_LEN in *.
  pose proof (len_nonneg label). pose proof (len_nonneg proto).
  test (512 <? 12 + len label + len proto) false.
  set (zl := replicate (length label) 0). set (zp := replicate (length proto) 0).
  replace (replicate (Z.to_nat (12 + len label + len proto)) 0) with
    ([0; 0; 0; 0] ++ be32 0 ++ be16 0 ++ be16 0 ++ zl ++ zp).
  2: { unfold zl, zp. rewrite <- replicate_add.
       change ([0; 0; 0; 0] ++ be32 0 ++ be16 0 ++ be16 0 ++ replicate ?n 0)
         with (replicate (12 + n) 0). f_equal. len_lia. }
  rewrite (wr_head [_; _; _; _] _ _ [3; 0; 0; 0]) by done. cbn [mbind res_bind].
  set (type := if truth _ then _ else _).
  rewrite (wr_head [_; _; _; _] _ _ [3; type; 0; 0]) by done. cbn [mbind res_bind].
  rewrite (put_reliability_spec type); [|done| |done..].
  2: { unfold type. destruct (truth _); [by left|by right]. }
  cbn [mbind res_bind]. match goal with |- context [type + ?x] =>
    change (type + x) with (open_type (ch_config channel)) end.
  set (head := [DCEP_DATA_CHANNEL_OPEN; open_type (ch_config channel); 0; 0] ++
    be32 (open_parameter (ch_config channel))).
  rewrite !u16_id by (unfold is_u16; lia). unfold put_be16, write_u16.
  rewrite (app_assoc [_; _; _; _]). fold head.
  rewrite (wr_mid head) by done. cbn [mbind res_bind].
  rewrite (app_assoc head). rewrite (wr_mid (head ++ _)) by done. cbn [mbind res_bind].
  rewrite (app_assoc (head ++ _)). rewrite (put_text_mid ((head ++ _) ++ _));
    [|done|unfold zl; by rewrite len_replicate]. cbn [mbind res_bind].
  fold label. rewrite (app_assoc ((head ++ _) ++ _)), <- (app_nil_r zp).
  rewrite put_text_mid; [|by rewrite !len_app|unfold zp; by rewrite len_replicate].
  fold proto. rewrite app_nil_r. unfold open_wire, head. by rewrite <- !app_assoc.
Qed.

(** Building never leaves the packet, whatever the channel. *)
Lemma put_text_no_fault packet i s :
  0 <= i -> i + len (text s) <= len packet ->
  exists packet', put_text packet i s = Ok packet' /\ len packet' = len packet.
Proof.
  intros Hi Hl. unfold put_text. rewrite tstr_len_text.
  destruct (0 <? len (text s)) eqn:E; [|by exists packet].
  destruct s as [s|]; [|done]. cbn in Hl.
  destruct (wr packet i s) as [packet'| |] eqn:Ew.
  - exists packet'. split; [done|]. by apply wr_len in Ew.
  - unfold wr in Ew. by case_decide.
  - by destruct (wr_no_fault packet s i Hi Hl).
Qed.

Lemma wr_total (b bs : list Z) i :
  0 <= i -> i + len bs <= len b -> exists b', wr b i bs = Ok b' /\ len b' = len b.
Proof.
  intros. rewrite wr_lit by done. eexists. split; [done|]. len_lia.
Qed.

Lemma put_reliability_no_fault packet config :
  12 <= len packet ->
  put_reliability packet config = Err \/
  exists packet', put_reliability packet config = Ok packet' /\ len packet' = len packet.
Proof.
  intros Hl. unfold put_reliability, put_be32, write_u32.
  destruct (bad_limits config); [by left|]. right.
  destruct (rd_in_range packet 1) as [type ->]; [lia|].
  assert (W : forall t v, exists packet', (packet ← wr packet 1 [t]; wr packet 4 (be32 v)) =
    Ok packet' /\ len packet' = len packet).
  { intros t v. destruct (wr_total packet [t] 1) as (b1 & -> & E1); [lia|len_lia|].
    cbn [mbind res_bind]. rewrite <- E1. apply wr_total; [lia|]. rewrite E1. len_lia. }
  cbn [mbind res_bind]. destruct (0 <? _); [apply W|].
  destruct (0 <? _); [apply W|by exists packet].
Qed.

Lemma dcep_open_packet_no_fault channel : no_fault (dcep_open_packet channel).
Proof.
  unfold dcep_open_packet. rewrite !tstr_len_text.
  set (label := text _). set (proto := text (ch_protocol channel)).
  pose proof (len_nonneg label). pose proof (len_nonneg proto).
  unfold DCEP_HEADER_LENGTH, put_be16, write_u16. destruct (_ <? _); [done|].
  set (b0 := replicate _ 0).
  assert (Hb0 : len b0 = 12 + len label + len proto) by (unfold b0; rewrite len_replicate; lia).
  destruct (wr_total b0 [DCEP_DATA_CHANNEL_OPEN] 0) as (b1 & -> & E1); [lia|len_lia|].
  cbn [mbind res_bind]. set (t := if truth _ then _ else _).
  destruct (wr_total b1 [t] 1) as (b2 & -> & E2); [lia|len_lia|]. cbn [mbind res_bind].
  destruct (put_reliability_no_fault b2 (ch_config channel)) as [->|(b3 & -> & E3)]; [lia|done|].
  cbn [mbind res_bind]. unfold DCEP_LABEL_LEN_OFFSET, DCEP_PROTO_LEN_OFFSET, DCEP_LABEL_OFFSET.
  destruct (wr_total b3 (be16 (u16 (len label))) 8) as (b4 & -> & E4); [lia|len_lia|].
  cbn [mbind res_bind].
  destruct (wr_total b4 (be16 (u16 (len proto))) 10) as (b5 & -> & E5); [lia|len_lia|].
  cbn [mbind res_bind].
  destruct (put_text_no_fault b5 12 (ch_label channel)) as (b6 & -> & E6); [lia|fold label; lia|].
  cbn [mbind res_bind].
  destruct (put_text_no_fault b6 (12 + len label) (ch_protocol channel)) as (b7 & -> & E7);
    [lia|fold proto; lia|done].
Qed.

Lemma len_open_wire type parameter label proto :
  len (open_wire type parameter label proto) =
  DCEP_HEADER_LENGTH + len label + len proto.
Proof.
  unfold open_wire, DCEP_HEADER_LENGTH. rewrite !len_app. change (len [_; _; _; _]) with 4.
  change (len (be32 _)) with 4. change (len (be16 _)) with 2. lia.
Qed.

(** The fields of an OPEN message, where the handler reads them. *)
Lemma open_wire_fields type parameter label proto :
  is_u32 parameter -> len label <= MAX_LABEL_LEN -> len proto <= MAX_PROTOCOL_LEN ->
  let data := open_wire type parameter label proto in
  rd data 1 = Ok type /\ get_be32 data 4 = Ok parameter /\
  get_be16 data DCEP_LABEL_LEN_OFFSET = Ok (len label) /\
  get_be16 data DCEP_PROTO_LEN_OFFSET = Ok (len proto) /\
  drop 12 data = label ++ proto /\
  len data = DCEP_HEADER_LENGTH + len label + len proto.
Proof.
  intros Hp Hl Hq data. unfold MAX_LABEL_LEN, MAX_PROTOCOL_LEN in *.
  pose proof (len_nonneg label). pose proof (len_nonneg proto).
  unfold data, open_wire. split_and!.
  - reflexivity.
  - by apply (read_u32_mid [_; _; _; _]).
  - rewrite (app_assoc [_; _; _; _]).
    apply (read_u16_mid ([_; _; _; _] ++ be32 _)); [unfold is_u16; lia|done].
  - rewrite (app_assoc [_; _; _; _]), (app_assoc (_ ++ be32 _)).
    apply (read_u16_mid (([_; _; _; _] ++ be32 _) ++ be16 _)); [unfold is_u16; lia|done].
  - reflexivity.
  - apply len_open_wire.
Qed.

Lemma open_type_bits config :
  let t := open_type config in
  let r := if 0 <? max_retransmits config then 1
           else if 0 <? max_lifetime_ms config then 2 else 0 in
  Z.land t 3 = r /\ Z.land t (Z.lnot 131) = 0 /\
  b2i (Z.land t 128 =? 0) = b2i (truth (ordered config)).
Proof.
  unfold open_type. destruct (truth _), (0 <? max_retransmits config);
    [done| |done|]; by destruct (0 <? max_lifetime_ms config).
Qed.

(** The configuration as the remote side sees it: the order flag normalised,
    the same limits, no protocol pointer. *)
Definition announced (config : turbo_dc_channel_config_t) : turbo_dc_channel_config_t :=
  Build_turbo_dc_channel_config_t (b2i (truth (ordered config)))
    (max_retransmits config) (max_lifetime_ms config) None.

Lemma open_config_spec config :
  bad_limits config = false ->
  0 <= max_retransmits config <= INT_MAX -> 0 <= max_lifetime_ms config <= INT_MAX ->
  open_config (open_type config) (open_parameter config) = Ok (announced config).
Proof.
  intros Hb Hr Hl. destruct (open_type_bits config) as (B1 & B2 & B3).
  unfold open_config. cbv zeta.
  change (Z.lor (Z.lor DCEP_CHANNEL_RELIABLE_UNORDERED DCEP_CHANNEL_REXMIT)
    DCEP_CHANNEL_TIMED) with 131.
  change (Z.lor DCEP_CHANNEL_REXMIT DCEP_CHANNEL_TIMED) with 3.
  change DCEP_CHANNEL_RELIABLE_UNORDERED with 128. cbv zeta in B1.
  rewrite B1, B2, B3. unfold announced, open_parameter, bad_limits in *.
  destruct (0 <? max_retransmits config) eqn:E1;
    [|destruct (0 <? max_lifetime_ms config) eqn:E2]; cbn -[INT_MAX Z.ltb].
  - test (INT_MAX <? max_retransmits config) false. do 2 f_equal. lia.
  - test (INT_MAX <? max_lifetime_ms config) false. do 2 f_equal. lia.
  - do 2 f_equal; lia.
Qed.

(** An empty field arrives as [NULL]. *)
Definition received_text (s : option (list Z)) : option (list Z) :=
  if decide (text s = []) then None else Some (text s).

Lemma dup_field_spec pre post s i :
  len pre = i ->
  dup_field (pre ++ text s ++ post) i (len (text s)) true = Ok (received_text s).
Proof.
  intros Hi. unfold dup_field, received_text.
  rewrite rd_slice_mid by done. destruct (text s) as [|b t] eqn:E; [done|].
  rewrite len_cons. pose proof (len_nonneg t). by test (0 <? 1 + len t) true.
Qed.

(** What the receiver makes of the sender's packet. *)
Definition accepted_channel (stream_id : Z) (channel : turbo_dc_channel_s) : turbo_dc_channel_s :=
  channel_of stream_id (received_text (ch_label channel))
    (received_text (ch_protocol channel)) (announced (ch_config channel)).

Definition mem_ok : open_mem := Build_open_mem true true true.

Lemma utf8_bytes s : utf8_text s -> bytes s.
Proof.
  intros (cs & Hcs & ->). unfold bytes, utf8. induction Hcs as [|c cs Hc _ IH]; [constructor|].
  rewrite bind_cons. apply Forall_app. split; [|done]. clear IH.
  unfold utf8_char, scalar_value, is_u8 in *. name_digits c.
  repeat case_match; repeat constructor; lia.
Qed.

Lemma text_valid_true pre s tail i n :
  utf8_text s -> len pre = i -> n = len s ->
  dcep_text_valid (Some (drop (Z.to_nat i) (pre ++ s ++ tail))) n = Ok true.
Proof.
  intros Hs <- ->. rewrite len_to_nat.
  destruct (text_valid_at pre s tail (len s) (utf8_bytes _ Hs) eq_refl) as (b & -> & Hb).
  by rewrite (proj2 Hb Hs).
Qed.

Lemma open_channel_accepts is_server sid channel :
  channel_ok channel -> utf8_text (text (ch_label channel)) ->
  utf8_text (text (ch_protocol channel)) ->
  (Z.land sid 1 =? 0) = truth is_server ->
  let data := open_wire (open_type (ch_config channel))
    (open_parameter (ch_config channel)) (text (ch_label channel)) (text (ch_protocol channel)) in
  dcep_open_channel is_server sid data (len data) mem_ok =
    Ok (accepted_channel sid channel).
Proof.
  intros Hok Hul Hup Hpar. destruct Hok. set (config := ch_config channel) in *.
  set (label := text (ch_label channel)) in *. set (proto := text (ch_protocol channel)) in *.
  intros data. assert (Hpu : is_u32 (open_parameter config)).
  { unfold open_parameter, is_u32, INT_MAX in *. destruct (0 <? _); lia. }
  destruct (open_wire_fields (open_type config) (open_parameter config) label proto
    Hpu co_label0 co_protocol0) as (F1 & F2 & F3 & F4 & F5 & F6).
  fold data in F1, F2, F3, F4, F5, F6. unfold dcep_open_channel.
  rewrite F2, F3, F4. cbn [mbind res_bind].
  test (MAX_LABEL_LEN <? len label) false. test (MAX_PROTOCOL_LEN <? len proto) false.
  rewrite F6, Z.eqb_refl. cbn [negb orb]. rewrite F5.
  set (hd := take 12 data).
  assert (Hhd : len hd = 12).
  { unfold hd. rewrite len_take. pose proof (len_nonneg label). pose proof (len_nonneg proto).
    unfold DCEP_HEADER_LENGTH in F6. lia. }
  assert (Hdata : data = hd ++ label ++ proto) by (unfold hd; rewrite <- F5; symmetry; apply take_drop).
  rewrite (text_valid_true [] label proto 0) by done. cbn [mbind res_bind negb].
  rewrite Hdata at 1. rewrite <- (app_nil_r proto) at 1. rewrite (app_assoc hd).
  rewrite text_valid_true by (done || (rewrite len_app, Hhd; done)).
  cbn [mbind res_bind negb orb om_calloc om_label om_protocol mem_ok].
  rewrite Hpar, Bool.eqb_reflx. cbn [negb].
  rewrite Hdata at 1. rewrite (dup_field_spec hd proto (ch_label channel)) by done. cbn [mbind res_bind].
  rewrite Hdata at 1. rewrite <- (app_nil_r proto) at 1. rewrite (app_assoc hd).
  rewrite (dup_field_spec (hd ++ label) [] (ch_protocol channel)) by (rewrite len_app, Hhd; done). cbn [mbind res_bind].
  rewrite F1. cbn [mbind res_bind].
  rewrite open_config_spec by done. done.
Qed.

(** What a record made from the network satisfies. *)
Record incoming_ok (is_server sid : Z) (data : list Z) (channel : turbo_dc_channel_s)
    : Prop := {
  in_bytes : drop 12 data = text (ch_label channel) ++ text (ch_protocol channel);
  in_label : len (text (ch_label channel)) <= MAX_LABEL_LEN;
  in_protocol : len (text (ch_protocol channel)) <= MAX_PROTOCOL_LEN;
  in_label_utf8 : utf8_text (text (ch_label channel));
  in_protocol_utf8 : utf8_text (text (ch_protocol channel));
  in_role : (Z.land sid 1 =? 0) = truth is_server;
  in_rexmit : 0 <= max_retransmits (ch_config channel) <= INT_MAX;
  in_lifetime : 0 <= max_lifetime_ms (ch_config channel) <= INT_MAX;
  in_limits : bad_limits (ch_config channel) = false;
  in_fresh : channel = channel_of sid (ch_label channel) (ch_protocol channel) (ch_config channel);
}.

Lemma read_u32_bytes b i v : bytes b -> read_u32 b i = Ok v -> is_u32 v.
Proof.
  intros Hb. unfold read_u32. rewrite bind_Ok. intros (x & Hx & H).
  apply bind_Ok in H as (y & Hy & H). apply bind_Ok in H as (z & Hz & H).
  apply bind_Ok in H as (w & Hw & [= <-]).
  apply rd_byte in Hx, Hy, Hz, Hw; [|done..].
  rewrite read_u32_val by done. unfold is_u8, is_u32 in *. lia.
Qed.

Lemma open_config_sound type parameter config :
  is_u32 parameter -> open_config type parameter = Ok config ->
  0 <= max_retransmits config <= INT_MAX /\ 0 <= max_lifetime_ms config <= INT_MAX /\
  bad_limits config = false.
Proof.
  unfold open_config, is_u32, INT_MAX, bad_limits. intros Hp H.
  repeat case_match; try done; injection H as <-; cbn; lia.
Qed.

Lemma open_config_no_fault type parameter : no_fault (open_config type parameter).
Proof. unfold open_config, no_fault. by repeat case_match. Qed.

(** A field whose bytes are there is copied, or its copy fails. *)
Lemma dup_field_cases pre s post i ok :
  len pre = i ->
  dup_field (pre ++ s ++ post) i (len s) ok = Err \/
  exists t, dup_field (pre ++ s ++ post) i (len s) ok = Ok t /\ text t = s.
Proof.
  intros Hi. unfold dup_field. destruct s as [|b s]; [right; by exists None|].
  pose proof (len_nonneg s). rewrite rd_slice_mid by done. rewrite len_cons.
  test (0 <? 1 + len s) true. destruct ok; [right; by exists (Some (b :: s))|by left].
Qed.

(** Two fields after a header of twelve bytes. *)
Lemma split_fields (data : list Z) a b :
  0 <= a -> 0 <= b -> len data = 12 + a + b ->
  exists hd l p, data = hd ++ l ++ p /\ len hd = 12 /\ len l = a /\ len p = b /\
    drop 12 data = l ++ p.
Proof.
  intros Ha Hb Hl. exists (take 12 data), (take (Z.to_nat a) (drop 12 data)),
    (drop (Z.to_nat a) (drop 12 data)).
  rewrite !take_drop. split_and!; [done|len_lia..|done].
Qed.

Lemma read_header_fields data :
  bytes data -> 12 <= len data ->
  exists ll pl param, get_be16 data DCEP_LABEL_LEN_OFFSET = Ok ll /\
    get_be16 data DCEP_PROTO_LEN_OFFSET = Ok pl /\ get_be32 data 4 = Ok param /\
    is_u16 ll /\ is_u16 pl /\ is_u32 param.
Proof.
  intros Hb Hl. unfold get_be16, get_be32, DCEP_LABEL_LEN_OFFSET, DCEP_PROTO_LEN_OFFSET.
  destruct (read_u16_in_range data 8) as (ll & Ell & ?); [lia..|].
  destruct (read_u16_in_range data 10) as (pl & Epl & ?); [lia..|].
  destruct (read_u32 data 4) as [param| |] eqn:Ep.
  - exists ll, pl, param. split_and!; try done. by eapply read_u32_bytes.
  - unfold read_u32 in Ep. destruct (rd_in_range data 4) as [? E0]; [lia|].
    destruct (rd_in_range data (4 + 1)) as [? E1]; [lia|].
    destruct (rd_in_range data (4 + 2)) as [? E2]; [lia|].
    destruct (rd_in_range data (4 + 3)) as [? E3]; [lia|].
    by rewrite E0, E1, E2, E3 in Ep.
  - by destruct (read_u32_no_fault data 4); [lia..|].
Qed.

Lemma dcep_open_channel_sound is_server sid data mem :
  bytes data -> 12 <= len data ->
  dcep_open_channel is_server sid data (len data) mem = Err \/
  exists channel, dcep_open_channel is_server sid data (len data) mem = Ok channel /\
    incoming_ok is_server sid data channel.
Proof.
  intros Hb Hl. destruct (read_header_fields data Hb Hl) as (ll & pl & param & E1 & E2 & E3 & H1 & H2 & H3).
  unfold dcep_open_channel. rewrite E1, E2, E3. cbn [mbind res_bind].
  destruct (_ || negb _) eqn:Eg; [by left|].
  apply orb_false_iff in Eg as [Eg En]. apply negb_false_iff, Z.eqb_eq in En.
  unfold is_u16, DCEP_HEADER_LENGTH in *.
  destruct (split_fields data ll pl) as (hd & l & p & Ed & Hhd & Hll & Hpl & Edr); [lia..|].
  assert (Hbb : bytes l /\ bytes p).
  { rewrite Ed in Hb. by apply Forall_app in Hb as [_ [??]%Forall_app]. }
  destruct Hbb as [Hbl Hbp]. rewrite Edr. subst ll pl.
  destruct (text_valid_spec l p Hbl) as (b1 & -> & Hb1). cbn [mbind res_bind].
  destruct b1; cbn [negb]; [|by left].
  assert (Edr2 : drop (Z.to_nat (DCEP_LABEL_OFFSET + len l)) data = p ++ []).
  { rewrite Ed, app_assoc, app_nil_r. apply drop_app_length'. unfold DCEP_LABEL_OFFSET. len_lia. }
  rewrite Edr2. destruct (text_valid_spec p [] Hbp) as (b2 & -> & Hb2). cbn [mbind res_bind].
  destruct b2; cbn [negb orb]; [|by left].
  destruct (Bool.eqb _ _) eqn:Er; cbn [negb]; [|by left]. apply Bool.eqb_prop in Er.
  destruct (om_calloc mem); cbn [negb]; [|by left].
  change DCEP_LABEL_OFFSET with 12.
  pose proof (dup_field_cases hd l p 12 (om_label mem) Hhd) as D1. rewrite <- Ed in D1.
  pose proof (dup_field_cases (hd ++ l) p [] (12 + len l) (om_protocol mem)
    ltac:(by rewrite len_app, Hhd)) as D2. rewrite app_nil_r, <- app_assoc, <- Ed in D2.
  destruct D1 as [-> | (tl & -> & Etl)]; [by left|]. cbn [mbind res_bind].
  destruct D2 as [-> | (tp & -> & Etp)]; [by left|]. cbn [mbind res_bind].
  destruct (rd_in_range data 1) as [type ->]; [lia|]. cbn [mbind res_bind].
  pose proof (open_config_no_fault type param).
  destruct (open_config type param) as [config| |] eqn:Ec; [|by left|done].
  right. eexists. split; [done|].
  destruct (open_config_sound _ _ _ H3 Ec) as (C1 & C2 & C3).
  split; cbn [channel_of ch_label ch_protocol ch_config]; rewrite ?Etl, ?Etp; try done;
    [lia|lia|by apply Hb1|by apply Hb2].
Qed.

(* ------------------------------------------------------------------ *)
(** ** Properties *)

(** C32: the text check accepts exactly UTF-8.  On any bytes, whatever follows
    them in memory, it reads nothing outside the [length] bytes it was given
    (the tail is arbitrary), terminates, and answers whether they encode a
    sequence of Unicode scalar values: no overlong form, no surrogate, nothing
    above U+10FFFF. *)
Theorem dcep_text_valid_utf8 s tail :
  bytes s ->
  exists b, dcep_text_valid (Some (s ++ tail)) (len s) = Ok b /\
    (b = true <-> exists cs, Forall scalar_value cs /\ s = cs ≫= utf8_char).
Proof. apply text_valid_spec. Qed.

(** C33: a channel survives its OPEN message.  Whatever the label, protocol,
    order and reliability limits (within the size the sender accepts), the
    packet is built, and the peer in the role that matches the stream makes of
    it a channel with the same label, protocol, order and limits, closed and
    without callbacks; the peer in the other role ignores it. *)
Theorem dcep_open_roundtrip is_server sid channel :
  channel_ok channel -> utf8_text (text (ch_label channel)) ->
  utf8_text (text (ch_protocol channel)) ->
  exists packet, dcep_open_packet channel = Ok packet /\
    rd packet 0 = Ok DCEP_DATA_CHANNEL_OPEN /\
    DCEP_HEADER_LENGTH <= len packet <= DCEP_MAX_PACKET_SIZE /\
    dcep_open_channel is_server sid packet (len packet) mem_ok =
      if Bool.eqb (Z.land sid 1 =? 0) (truth is_server)
      then Ok (accepted_channel sid channel) else Err.
Proof.
  intros Hok Hl Hp. eexists. split; [by apply dcep_open_packet_spec|].
  split; [done|]. set (data := open_wire _ _ _ _).
  assert (Hlen := len_open_wire _ _ _ _ : len data = _).
  pose proof (len_nonneg (text (ch_label channel))).
  pose proof (len_nonneg (text (ch_protocol channel))).
  split; [destruct Hok; unfold DCEP_HEADER_LENGTH in *; lia|].
  destruct (Bool.eqb _ _) eqn:Er.
  { apply Bool.eqb_prop in Er. by apply open_channel_accepts. }
  destruct (dcep_open_channel_sound is_server sid data mem_ok) as [-> | (c & _ & Hin)]; [| |done|].
  - unfold data, open_wire. pose proof (utf8_bytes _ Hl). pose proof (utf8_bytes _ Hp).
    assert (is_u8 (open_type (ch_config channel))).
    { unfold open_type, is_u8. repeat case_match; lia. }
    apply Forall_app_2; [apply Forall_cons_2; [done|apply Forall_cons_2; [done|by repeat constructor]]|].
    apply Forall_app_2; [apply be32_bytes|]. do 2 (apply Forall_app_2; [apply be16_bytes|]).
    by apply Forall_app_2.
  - unfold DCEP_HEADER_LENGTH in *. lia.
  - apply in_role in Hin. rewrite Hin, Bool.eqb_reflx in Er. done.
Qed.

(** Reading an OPEN message is safe and accepts only well-formed
    messages.  On any bytes of header size or more, under any allocation
    failure, no access is out of range; and a message that makes a channel is
    exactly the header and the two names, both valid UTF-8 of at most 256
    bytes, on a stream of the remote role, with at most one limit, which fits
    an [int]. *)
Theorem dcep_open_sound is_server sid data mem :
  bytes data -> DCEP_HEADER_LENGTH <= len data ->
  match dcep_open_channel is_server sid data (len data) mem with
  | Ok channel => incoming_ok is_server sid data channel
  | Err => True
  | Fault => False
  end.
Proof.
  intros Hb Hl. by destruct (dcep_open_channel_sound is_server sid data mem Hb Hl)
    as [-> | (channel & -> & H)].
Qed.

(* ------------------------------------------------------------------ *)
(** ** Observations *)

(** Labels and protocols of up to 256 bytes each are accepted when a channel
    is created, but the packet has room for 500 bytes of names together: such
    a channel can never be opened. *)
Lemma dcep_long_names_never_open channel :
  500 < len (text (ch_label channel)) + len (text (ch_protocol channel)) ->
  dcep_open_packet channel = Err.
Proof.
  intros H. unfold dcep_open_packet. rewrite !tstr_len_text.
  unfold DCEP_MAX_PACKET_SIZE, DCEP_HEADER_LENGTH.
  by test (512 <? 12 + len (text (ch_label channel)) + len (text (ch_protocol channel))) true.
Qed.

(** An OPEN message that asks for no retransmission at all (type REXMIT,
    parameter 0) makes the same record as one for a fully reliable channel, as
    a limit of 0 means none. *)
Lemma dcep_zero_retransmits_reliable unordered :
  unordered = 0 \/ unordered = DCEP_CHANNEL_RELIABLE_UNORDERED ->
  open_config (unordered + DCEP_CHANNEL_REXMIT) 0 = open_config unordered 0.
Proof. by intros [-> | ->]. Qed.

(* ------------------------------------------------------------------ *)
(** ** Witnesses *)

Definition ex_label : list Z := utf8 [99; 104; 0xe9; 0x4e2d; 0x1f600].

Definition ex_channel : turbo_dc_channel_s :=
  channel_of 2 (Some ex_label) None (Build_turbo_dc_channel_config_t 0 3 0 None).

Lemma ex_label_utf8 : utf8_text ex_label.
Proof.
  exists [99; 104; 0xe9; 0x4e2d; 0x1f600]. split; [|done].
  repeat constructor; unfold scalar_value; lia.
Qed.

Lemma dcep_text_valid_utf8_witness :
  exists b, dcep_text_valid (Some (ex_label ++ [0])) (len ex_label) = Ok b /\
    (b = true <-> exists cs, Forall scalar_value cs /\ ex_label = cs ≫= utf8_char).
Proof.
  apply dcep_text_valid_utf8. repeat constructor; unfold is_u8; cbn; lia.
Defined.

Lemma dcep_open_roundtrip_witness :
  exists packet, dcep_open_packet ex_channel = Ok packet /\
    rd packet 0 = Ok DCEP_DATA_CHANNEL_OPEN /\
    DCEP_HEADER_LENGTH <= len packet <= DCEP_MAX_PACKET_SIZE /\
    dcep_open_channel 1 2 packet (len packet) mem_ok =
      if Bool.eqb (Z.land 2 1 =? 0) (truth 1)
      then Ok (accepted_channel 2 ex_channel) else Err.
Proof.
  apply dcep_open_roundtrip.
  - split; cbn; unfold MAX_LABEL_LEN, MAX_PROTOCOL_LEN, INT_MAX,
      DCEP_HEADER_LENGTH, DCEP_MAX_PACKET_SIZE; (lia || done).
  - exact ex_label_utf8.
  - by exists [].
Defined.

Lemma dcep_open_sound_witness :
  match dcep_open_channel 1 2 (replicate 12 0) (len (replicate 12 0)) mem_ok with
  | Ok channel => incoming_ok 1 2 (replicate 12 0) channel
  | Err => True
  | Fault => False
  end.
Proof. apply dcep_open_sound; [by repeat constructor|done]. Defined.

(** A message of a browser for an unordered channel of two retransmissions. *)
Example ex_browser_open :
  dcep_open_channel 1 0
    ([3; 129; 1; 0; 0; 0; 0; 2; 0; 4; 0; 0] ++ [99; 104; 97; 116]) 16 mem_ok =
  Ok (channel_of 0 (Some [99; 104; 97; 116]) None
        (Build_turbo_dc_channel_config_t 0 2 0 None)).
Proof. reflexivity. Qed.

(** A truncated, an overlong and a surrogate encoding. *)
Example ex_bad_texts :
  (fun s => dcep_text_valid (Some s) (len s)) <$>
    [[0xc3]; [0xc0; 0x80]; [0xed; 0xa0; 0x80]; [0xf4; 0x90; 0x80; 0x80]] =
  replicate 4 (Ok false).
Proof. reflexivity. Qed.
