(* ===== verification/DataChannel.v ===== *)
(** * Data channels: the channel table of a peer

    webrtc/src/turbo_datachannel.c (channels, states and destruction of a
    peer), the handler of webrtc/src/dcep_protocol.c and the table helpers of
    turbo_datachannel_internal.h.

    The heap of channel records is explicit: a channel is an address, an access
    to an address that is not allocated is a [Fault].  Channels are shared by
    application calls and by the receive path, which run each other's callbacks
    and release the mutex around them.  So an operation is cut where it releases
    the mutex: its start is a [dc_call], and what is left of it after each
    critical section is a [frame], which holds one lease ([callback_refs]) on
    one channel.  [dc_step] runs the frames and the calls in any order, a
    superset of what threads and reentrant callbacks can do; [run_frames] is the
    order of an operation that nothing interrupts. *)

From stdpp Require Import gmap.
From S2P Require Import Prelude Dcep.

(* ------------------------------------------------------------------ *)
(** ** State *)

Definition MAX_CHANNELS : Z := 65536.
Definition UINT32_MAX : Z := 4294967295.
Definition SCTP_PPID_DCEP : Z := 50.
Definition SCTP_PPID_STRING : Z := 51.
Definition SCTP_PPID_BINARY : Z := 53.
Definition SCTP_PPID_STRING_EMPTY : Z := 56.
Definition SCTP_PPID_BINARY_EMPTY : Z := 57.

Inductive turbo_dc_state_t : Type :=
  | STATE_NEW | STATE_CONNECTING | STATE_CONNECTED | STATE_DISCONNECTING
  | STATE_CLOSED | STATE_FAILED.

#[export] Instance dc_state_eq_dec : EqDecision turbo_dc_state_t.
Proof. solve_decision. Defined.

(** The error codes these operations set. *)
Inductive turbo_dc_error_code_t : Type :=
  | ERROR_ALLOC_CHANNEL | ERROR_PEER_NOT_CONNECTED | ERROR_CHANNEL_NOT_OPEN
  | ERROR_NULL_DATA | ERROR_INVALID_PEER_STATE | ERROR_DCEP_SEND_OPEN
  | ERROR_DCEP_SEND_ACK | ERROR_SCTP_SEND | ERROR_SCTP_RECEIVE.

(** A peer, with the records of its channels.  Created with its map, its bitmap
    and its mutex, which live as long as it does. *)
Record turbo_dc_peer_s := {
  pe_is_dtls_server : Z;
  pe_disable_sctp : bool;
  pe_destroying : bool;
  pe_deferred_destroy : bool;
  pe_socket : bool;
  pe_state : turbo_dc_state_t;
  pe_channels : gmap Z positive;
  pe_channel_ids : gset Z;
  pe_heap : gmap positive turbo_dc_channel_s;
  pe_last_error : option turbo_dc_error_code_t;
  pe_on_channel : option Z;
  pe_on_state : option Z;
  pe_on_error : option Z;
  pe_user_data : Z;
}.

(** What the outside sees. *)
Inductive dc_event : Type :=
  | EvSend (sid ppid : Z) (ordered : bool) (limit : option (bool * Z)) (data : list Z)
  | EvReset (sid : Z)
  | EvOnChannel (cb : Z) (channel : positive)
  | EvOnOpen (cb : Z) (channel : positive)
  | EvOnMessage (cb : Z) (channel : positive) (data : list Z) (is_binary : bool)
  | EvOnClose (cb : Z) (channel : positive)
  | EvOnState (cb : Z) (old new : turbo_dc_state_t)
  | EvOnError (cb : Z) (code : turbo_dc_error_code_t).

(** The answers of the SCTP library: what [usrsctp_sendv] returns for a packet
    and [usrsctp_setsockopt] for a stream reset. *)
Record sctp_env := {
  env_sendv : list Z -> Z;
  env_reset : Z -> Z;
}.

Definition set_error (code : turbo_dc_error_code_t) (p : turbo_dc_peer_s) : turbo_dc_peer_s :=
  Build_turbo_dc_peer_s (pe_is_dtls_server p) (pe_disable_sctp p) (pe_destroying p)
    (pe_deferred_destroy p) (pe_socket p) (pe_state p) (pe_channels p) (pe_channel_ids p) (pe_heap p)
    (Some code) (pe_on_channel p) (pe_on_state p) (pe_on_error p) (pe_user_data p).

(** The table: map, bitmap and records. *)
Definition set_table (p : turbo_dc_peer_s) (channels : gmap Z positive) (ids : gset Z)
    (heap : gmap positive turbo_dc_channel_s) : turbo_dc_peer_s :=
  Build_turbo_dc_peer_s (pe_is_dtls_server p) (pe_disable_sctp p) (pe_destroying p)
    (pe_deferred_destroy p) (pe_socket p) (pe_state p) channels ids heap
    (pe_last_error p) (pe_on_channel p) (pe_on_state p) (pe_on_error p) (pe_user_data p).

Definition set_heap (p : turbo_dc_peer_s) := set_table p (pe_channels p) (pe_channel_ids p).

Definition set_control (p : turbo_dc_peer_s) (is_server : Z)
    (destroying deferred socket : bool) (state : turbo_dc_state_t) : turbo_dc_peer_s :=
  Build_turbo_dc_peer_s is_server (pe_disable_sctp p) destroying deferred
    socket state (pe_channels p) (pe_channel_ids p) (pe_heap p)
    (pe_last_error p) (pe_on_channel p) (pe_on_state p) (pe_on_error p) (pe_user_data p).

Definition set_state (p : turbo_dc_peer_s) (state : turbo_dc_state_t) : turbo_dc_peer_s :=
  set_control p (pe_is_dtls_server p) (pe_destroying p) (pe_deferred_destroy p)
    (pe_socket p) state.

Definition close_socket (p : turbo_dc_peer_s) : turbo_dc_peer_s :=
  set_control p (pe_is_dtls_server p) (pe_destroying p) (pe_deferred_destroy p)
    false (pe_state p).

Definition set_peer_callbacks (p : turbo_dc_peer_s) (on_channel on_state on_error : option Z)
    : turbo_dc_peer_s :=
  Build_turbo_dc_peer_s (pe_is_dtls_server p) (pe_disable_sctp p) (pe_destroying p)
    (pe_deferred_destroy p) (pe_socket p) (pe_state p) (pe_channels p) (pe_channel_ids p)
    (pe_heap p) (pe_last_error p) on_channel on_state on_error (pe_user_data p).

(** The part of a channel these operations change. *)
Definition set_channel (c : turbo_dc_channel_s) (is_open dcep_sent closing : bool)
    (refs : Z) : turbo_dc_channel_s :=
  Build_turbo_dc_channel_s (ch_user_data c) (ch_id c) (ch_label c) (ch_protocol c)
    (ch_config c) is_open dcep_sent (ch_buffered_amount c) refs closing
    (ch_on_open c) (ch_on_message c) (ch_on_close c).

(** Dereferences a channel pointer. *)
Definition deref (p : turbo_dc_peer_s) (a : positive) : res turbo_dc_channel_s :=
  let? c := pe_heap p !! a else Fault in Ok c.

Definition store (p : turbo_dc_peer_s) (a : positive) (c : turbo_dc_channel_s)
    : turbo_dc_peer_s := set_heap p (<[a := c]> (pe_heap p)).

(* ------------------------------------------------------------------ *)
(** ** Table helpers (turbo_datachannel_internal.h) *)

Fixpoint alloc_id_loop (fuel : nat) (ids : gset Z) (id : Z) : res Z :=
  match fuel with
  | O => Fault
  | S fuel =>
    if id <? MAX_CHANNELS then
      if negb (bool_decide (id ∈ ids)) then Ok (u16 id)
      else alloc_id_loop fuel ids (id + 2)
    else Err
  end.

(** The bitmap with the new id, and the id. *)
Definition peer_alloc_channel_id (p : turbo_dc_peer_s) : res (gset Z * Z) :=
  id ← alloc_id_loop (Z.to_nat 32769) (pe_channel_ids p)
         (if truth (pe_is_dtls_server p) then 1 else 0);
  Ok ({[ id ]} ∪ pe_channel_ids p, id).

Definition peer_get_channel (p : turbo_dc_peer_s) (id : Z) : option positive :=
  pe_channels p !! id.

Definition dc_channel_admit (p : turbo_dc_peer_s) (id : Z)
    : res (turbo_dc_peer_s * option positive) :=
  let? a := (if negb (pe_destroying p) then peer_get_channel p id else None)
    else Ok (p, None) in
  c ← deref p a;
  if negb (ch_closing c) && (ch_callback_refs c <? UINT32_MAX - 1) then
    Ok (store p a (set_channel c (ch_is_open c) (ch_dcep_sent c) (ch_closing c)
                     (u32 (ch_callback_refs c + 1))), Some a)
  else Ok (p, None).

Definition dc_channel_release (p : turbo_dc_peer_s) (a : positive) : res turbo_dc_peer_s :=
  c ← deref p a;
  let refs := if 0 <? ch_callback_refs c then ch_callback_refs c - 1
              else ch_callback_refs c in
  if ch_closing c && (refs =? 0) then
    Ok (set_table p (pe_channels p) (pe_channel_ids p ∖ {[ ch_id c ]})
          (delete a (pe_heap p)))
  else
    Ok (store p a (set_channel c (ch_is_open c) (ch_dcep_sent c) (ch_closing c) refs)).

(* ------------------------------------------------------------------ *)
(** ** Creating a channel

    The allocations: the record (an address, or [NULL]), the two strings, the
    slot of the map. *)

Record create_mem := {
  cm_calloc : option positive;
  cm_label : bool;
  cm_protocol : bool;
  cm_map : bool;
}.

Definition turbo_dc_default_channel_config : turbo_dc_channel_config_t :=
  Build_turbo_dc_channel_config_t 1 0 0 None.

(** [!dcep_text_valid(label) || !dcep_text_valid(protocol)] and the lengths. *)
Definition names_ok (label : list Z) (proto : option (list Z)) : res bool :=
  if (MAX_LABEL_LEN <? len label) || (MAX_PROTOCOL_LEN <? tstr_len proto) then Ok false
  else
    ok ← dcep_text_valid (Some label) (len label);
    if negb ok then Ok false else dcep_text_valid proto (tstr_len proto).

Definition tstr_dup (s : option (list Z)) (ok : bool) : option (list Z) :=
  if ok then s else None.

(** The record before publication: [Ok] its fields, or the error the code sets. *)
Definition new_channel (id : Z) (label : list Z)
    (config : option turbo_dc_channel_config_t) (mem : create_mem)
    : turbo_dc_channel_s + turbo_dc_error_code_t :=
  let label' := tstr_dup (Some label) (cm_label mem) in
  match config with
  | Some config =>
      if bad_limits config then inr ERROR_INVALID_PEER_STATE
      else
        let proto' := tstr_dup (protocol config) (cm_protocol mem) in
        match label', protocol config, proto' with
        | None, _, _ | _, Some _, None => inr ERROR_ALLOC_CHANNEL
        | _, _, _ => inl (channel_of id label' proto' config)
        end
  | None =>
      match label' with
      | None => inr ERROR_ALLOC_CHANNEL
      | _ => inl (channel_of id label' None turbo_dc_default_channel_config)
      end
  end.

(** Every failure after the id is taken gives it back. *)
Definition dc_channel_create_owner_impl (p : turbo_dc_peer_s)
    (label : option (list Z)) (config : option turbo_dc_channel_config_t)
    (mem : create_mem) : res (turbo_dc_peer_s * option positive) :=
  let? label := label else Ok (p, None) in
  if pe_disable_sctp p then Ok (set_error ERROR_INVALID_PEER_STATE p, None)
  else
    ok ← names_ok label (config ≫= protocol);
    if negb ok then Ok (set_error ERROR_INVALID_PEER_STATE p, None)
    else if pe_destroying p then Ok (set_error ERROR_ALLOC_CHANNEL p, None)
    else
      match peer_alloc_channel_id p with
      | Fault => Fault
      | Err => Ok (set_error ERROR_ALLOC_CHANNEL p, None)
      | Ok (ids, id) =>
        let failed code :=
          Ok (set_error code (set_table p (pe_channels p) (ids ∖ {[ id ]}) (pe_heap p)), None) in
        let? a := cm_calloc mem else failed ERROR_ALLOC_CHANNEL in
        match new_channel id label config mem with
        | inr code => failed code
        | inl c =>
          if negb (cm_map mem) then failed ERROR_ALLOC_CHANNEL
          else Ok (set_table p (<[id := a]> (pe_channels p)) ids
                     (<[a := c]> (pe_heap p)), Some a)
        end
      end.

(* ------------------------------------------------------------------ *)
(** ** Opening, sending *)

(** [dcep_send_open]: the packet, and the flag once SCTP has taken it all. *)
Definition dcep_send_open (env : sctp_env) (p : turbo_dc_peer_s) (a : positive)
    : res (turbo_dc_peer_s * bool * list dc_event) :=
  c ← deref p a;
  if negb (pe_socket p) then Ok (p, false, [])
  else
    match dcep_open_packet c with
    | Fault => Fault
    | Err => Ok (p, false, [])
    | Ok packet =>
      let ev := EvSend (ch_id c) SCTP_PPID_DCEP true None packet in
      if negb (env_sendv env packet =? len packet) then Ok (p, false, [ev])
      else Ok (store p a (set_channel c (ch_is_open c) true (ch_closing c)
                            (ch_callback_refs c)), true, [ev])
    end.

Definition dc_channel_open_owner_impl (env : sctp_env) (p : turbo_dc_peer_s) (a : positive)
    : res (turbo_dc_peer_s * Z * list dc_event) :=
  c ← deref p a;
  if ch_is_open c then Ok (p, 0, [])
  else if negb (bool_decide (pe_state p = STATE_CONNECTED)) then
    Ok (set_error ERROR_PEER_NOT_CONNECTED p, -1, [])
  else if ch_dcep_sent c then Ok (p, 0, [])
  else
    '(p, ok, evs) ← dcep_send_open env p a;
    if (ok : bool) then Ok (p, 0, evs)
    else Ok (set_error ERROR_DCEP_SEND_OPEN p, -1, evs).

(** The partial reliability of a message: [true] counts retransmissions,
    [false] milliseconds. *)
Definition send_limit (config : turbo_dc_channel_config_t) : option (bool * Z) :=
  if 0 <? max_retransmits config then Some (true, u32 (max_retransmits config))
  else if 0 <? max_lifetime_ms config then Some (false, u32 (max_lifetime_ms config))
  else None.

Definition dc_channel_send_owner_impl (env : sctp_env) (p : turbo_dc_peer_s) (a : positive)
    (data : option (list Z)) (is_binary : bool)
    : res (turbo_dc_peer_s * Z * list dc_event) :=
  c ← deref p a;
  let? data := data else Ok (set_error ERROR_NULL_DATA p, -1, []) in
  if negb (ch_is_open c && negb (ch_closing c)) then
    Ok (set_error ERROR_CHANNEL_NOT_OPEN p, -1, [])
  else if negb (pe_socket p) then Ok (set_error ERROR_INVALID_PEER_STATE p, -1, [])
  else
    let '(ppid, wire) :=
      if len data =? 0 then
        (if is_binary then SCTP_PPID_BINARY_EMPTY else SCTP_PPID_STRING_EMPTY, [0])
      else (if is_binary then SCTP_PPID_BINARY else SCTP_PPID_STRING, data) in
    if bad_limits (ch_config c) then Ok (set_error ERROR_SCTP_SEND p, -1, [])
    else
      let ev := EvSend (ch_id c) ppid (truth (ordered (ch_config c)))
                  (send_limit (ch_config c)) wire in
      let sent := env_sendv env wire in
      if (sent <? 0) || negb (sent =? len wire) then
        Ok (set_error ERROR_SCTP_SEND p, -1, [ev])
      else Ok (p, 0, [ev]).

(** [dcep_send_ack]: whether SCTP took the byte. *)
Definition dcep_send_ack (env : sctp_env) (p : turbo_dc_peer_s) (sid : Z)
    : bool * list dc_event :=
  if negb (pe_socket p) then (false, [])
  else (0 <? env_sendv env [DCEP_DATA_CHANNEL_ACK],
        [EvSend sid SCTP_PPID_DCEP true None [DCEP_DATA_CHANNEL_ACK]]).

(** [sctp_reset_channel_stream]: whether it succeeded (returned 0). *)
Definition sctp_reset_channel_stream (env : sctp_env) (p : turbo_dc_peer_s) (sid : Z)
    : bool * list dc_event :=
  if negb (pe_socket p) then (false, []) else (env_reset env sid =? 0, [EvReset sid]).

(* ------------------------------------------------------------------ *)
(** ** What is left of an operation

    Each frame holds one lease on the channel it names. *)

Inductive frame : Type :=
  | OpenAck (a : positive) (sid : Z)        (* published, ACK to be sent *)
  | OpenRejected (a : positive) (sid : Z)   (* the ACK was not admitted *)
  | OpenAdmitted (a : positive)             (* the ACK was admitted *)
  | OpenRecheck (a : positive)              (* after [on_channel] *)
  | AckAdmitted (a : positive)              (* an ACK arrived *)
  | MessageAdmitted (a : positive) (data : list Z) (is_binary : bool)
  | ResetAdmitted (a : positive) (reset_outgoing : bool)
  | CloseNative (a : positive) (id : Z) (reset_outgoing : bool) (cb : option Z)
  | Release (a : positive) (code : option turbo_dc_error_code_t).

Definition frame_channel (f : frame) : positive :=
  match f with
  | OpenAck a _ | OpenRejected a _ | OpenAdmitted a | OpenRecheck a | AckAdmitted a
  | MessageAdmitted a _ _ | ResetAdmitted a _ | CloseNative a _ _ _ | Release a _ => a
  end.

(** The channel leaves the map if it is the one the map has. *)
Definition unpublish (p : turbo_dc_peer_s) (id : Z) (a : positive) : gmap Z positive :=
  if bool_decide (peer_get_channel p id = Some a) then delete id (pe_channels p)
  else pe_channels p.

(** The critical section of [dc_channel_close_owner_impl_mode]. *)
Definition close_section (p : turbo_dc_peer_s) (a : positive) (reset_outgoing : bool)
    : res (turbo_dc_peer_s * list frame) :=
  c ← deref p a;
  if ch_closing c then Ok (p, [])
  else
    let c' := set_channel c false (ch_dcep_sent c) true (u32 (ch_callback_refs c + 1)) in
    Ok (set_table p (unpublish p (ch_id c) a) (pe_channel_ids p) (<[a := c']> (pe_heap p)),
        [CloseNative a (ch_id c) reset_outgoing (ch_on_close c)]).

(** The critical section that rolls a rejected OPEN back: whether the stream is
    to be reset. *)
Definition rollback_section (p : turbo_dc_peer_s) (a : positive) (sid : Z)
    : res (turbo_dc_peer_s * bool) :=
  c ← deref p a;
  if ch_closing c then Ok (p, false)
  else
    let c' := set_channel c false (ch_dcep_sent c) true (ch_callback_refs c) in
    Ok (set_table p (unpublish p sid a) (pe_channel_ids p) (<[a := c']> (pe_heap p)),
        negb (pe_destroying p) && pe_socket p).

Definition callback {A} (cb : option Z) (ev : Z -> A) : list A :=
  match cb with Some cb => [ev cb] | None => [] end.

Definition frame_run (env : sctp_env) (p : turbo_dc_peer_s) (f : frame)
    : res (turbo_dc_peer_s * list dc_event * list frame) :=
  match f with
  | OpenAck a sid =>
      let '(ok, evs) := dcep_send_ack env p sid in
      Ok (p, evs, [if (ok : bool) then OpenAdmitted a else OpenRejected a sid])
  | OpenRejected a sid =>
      '(p, reset) ← rollback_section p a sid;
      let '(ok, evs) := if (reset : bool) then sctp_reset_channel_stream env p sid
                        else (true, []) in
      Ok (if (ok : bool) then p else set_error ERROR_SCTP_SEND p, evs,
          [Release a (Some ERROR_DCEP_SEND_ACK)])
  | OpenAdmitted a =>
      c ← deref p a;
      if negb (ch_closing c) && negb (pe_destroying p) then
        Ok (store p a (set_channel c true (ch_dcep_sent c) (ch_closing c)
                         (ch_callback_refs c)),
            callback (pe_on_channel p) (fun cb => EvOnChannel cb a), [OpenRecheck a])
      else Ok (p, [], [OpenRecheck a])
  | OpenRecheck a =>
      c ← deref p a;
      let cb := if negb (ch_closing c) && negb (pe_destroying p) then ch_on_open c
                else None in
      Ok (p, callback cb (fun cb => EvOnOpen cb a), [Release a None])
  | AckAdmitted a =>
      c ← deref p a;
      if negb (ch_closing c) && negb (pe_destroying p) && ch_dcep_sent c &&
         negb (ch_is_open c) then
        Ok (store p a (set_channel c true (ch_dcep_sent c) (ch_closing c)
                         (ch_callback_refs c)),
            callback (ch_on_open c) (fun cb => EvOnOpen cb a), [Release a None])
      else Ok (p, [], [Release a None])
  | MessageAdmitted a data is_binary =>
      c ← deref p a;
      let cb := if negb (ch_closing c) && ch_is_open c && negb (pe_destroying p)
                then ch_on_message c else None in
      Ok (p, callback cb (fun cb => EvOnMessage cb a data is_binary), [Release a None])
  | ResetAdmitted a reset_outgoing =>
      '(p, fs) ← close_section p a reset_outgoing;
      Ok (p, [], fs ++ [Release a None])
  | CloseNative a id reset_outgoing cb =>
      let '(ok, evs) := if reset_outgoing && pe_socket p
                        then sctp_reset_channel_stream env p id else (true, []) in
      Ok (if (ok : bool) then p else set_error ERROR_SCTP_SEND p,
          evs ++ callback cb (fun cb => EvOnClose cb a), [Release a None])
  | Release a code =>
      p ← dc_channel_release p a;
      Ok (match code with Some code => set_error code p | None => p end, [], [])
  end.

(** An operation that nothing interrupts: its frames in order. *)
Fixpoint run_frames (fuel : nat) (env : sctp_env) (p : turbo_dc_peer_s) (fs : list frame)
    : res (turbo_dc_peer_s * list dc_event) :=
  match fs with
  | [] => Ok (p, [])
  | f :: fs =>
    match fuel with
    | O => Fault
    | S fuel =>
        '(p, evs, more) ← frame_run env p f;
        '(p, evs') ← run_frames fuel env p (more ++ fs);
        Ok (p, evs ++ evs')
    end
  end.

(* ------------------------------------------------------------------ *)
(** ** The receive path *)

(** The publication of an incoming channel, with its first lease. *)
Definition publish_section (p : turbo_dc_peer_s) (sid : Z) (a : positive)
    (c : turbo_dc_channel_s) (map_ok : bool) : turbo_dc_peer_s * list frame :=
  if negb (pe_destroying p) && negb (bool_decide (sid ∈ pe_channel_ids p)) &&
     bool_decide (peer_get_channel p sid = None) then
    let ids := {[ sid ]} ∪ pe_channel_ids p in
    if map_ok then
      (set_table p (<[sid := a]> (pe_channels p)) ids
         (<[a := set_channel c false false false 1]> (pe_heap p)), [OpenAck a sid])
    else (set_table p (pe_channels p) (ids ∖ {[ sid ]}) (pe_heap p), [])
  else (p, []).

(** [a] is the address [calloc] returns when it does. *)
Definition dcep_handle_message (p : turbo_dc_peer_s) (sid : Z) (data : list Z)
    (a : positive) (mem : open_mem) (map_ok : bool)
    : res (turbo_dc_peer_s * list frame) :=
  let n := len data in
  if n <? 1 then Ok (p, [])
  else
    msg_type ← rd data 0;
    if (msg_type =? DCEP_DATA_CHANNEL_OPEN) && (DCEP_HEADER_LENGTH <=? n) then
      match dcep_open_channel (pe_is_dtls_server p) sid data n mem with
      | Ok c => Ok (publish_section p sid a c map_ok)
      | Err => Ok (p, [])
      | Fault => Fault
      end
    else if (msg_type =? DCEP_DATA_CHANNEL_ACK) && (n =? 1) then
      '(p, admitted) ← dc_channel_admit p sid;
      Ok (p, match admitted with Some a => [AckAdmitted a] | None => [] end)
    else Ok (p, []).

Definition dc_channel_handle_message (p : turbo_dc_peer_s) (sid : Z) (data : list Z)
    (is_binary : bool) : res (turbo_dc_peer_s * list frame) :=
  '(p, admitted) ← dc_channel_admit p sid;
  Ok (p, match admitted with Some a => [MessageAdmitted a data is_binary] | None => [] end).

Definition dc_channel_handle_stream_reset (p : turbo_dc_peer_s) (sid : Z)
    (reset_outgoing : bool) : res (turbo_dc_peer_s * list frame) :=
  '(p, admitted) ← dc_channel_admit p sid;
  Ok (p, match admitted with Some a => [ResetAdmitted a reset_outgoing] | None => [] end).

(** The snapshot: a lease on every channel of the map that can take one, in the
    order of its slots, as far as the array goes. *)
Fixpoint admit_all (p : turbo_dc_peer_s) (entries : list (Z * positive)) (room : nat)
    : res (turbo_dc_peer_s * list positive) :=
  match entries, room with
  | [], _ | _, O => Ok (p, [])
  | (_, a) :: entries, S room' =>
      c ← deref p a;
      if negb (ch_closing c) && (ch_callback_refs c <? UINT32_MAX - 1) then
        '(p, rest) ← admit_all (store p a (set_channel c (ch_is_open c) (ch_dcep_sent c)
                       (ch_closing c) (u32 (ch_callback_refs c + 1)))) entries room';
        Ok (p, a :: rest)
      else admit_all p entries room
  end.

(** [capacity] is the size of the map when the array was allocated, [calloc_ok]
    the outcome. *)
Definition dc_channel_handle_all_streams_reset (p : turbo_dc_peer_s) (capacity : nat)
    (calloc_ok reset_outgoing : bool) : res (turbo_dc_peer_s * list frame) :=
  if (capacity =? 0)%nat then Ok (p, [])
  else if negb calloc_ok then Ok (set_error ERROR_SCTP_RECEIVE p, [])
  else
    '(p, channels) ← admit_all p (map_to_list (pe_channels p)) capacity;
    Ok (p, (fun a => ResetAdmitted a reset_outgoing) <$> (channels : list positive)).

(* ------------------------------------------------------------------ *)
(** ** The peer *)

Definition dc_state_transition_allowed (old new : turbo_dc_state_t) : bool :=
  if bool_decide (old = new) || bool_decide (old = STATE_CLOSED) then false
  else if bool_decide (old = STATE_DISCONNECTING) then bool_decide (new = STATE_CLOSED)
  else if bool_decide (old = STATE_FAILED) then
    bool_decide (new = STATE_DISCONNECTING) || bool_decide (new = STATE_CLOSED)
  else true.

Definition state_event (p : turbo_dc_peer_s) (old new : turbo_dc_state_t) : list dc_event :=
  if negb (pe_deferred_destroy p)
  then callback (pe_on_state p) (fun cb => EvOnState cb old new) else [].

Definition dc_notify_state (p : turbo_dc_peer_s) (new : turbo_dc_state_t)
    : turbo_dc_peer_s * list dc_event :=
  if negb (dc_state_transition_allowed (pe_state p) new) then (p, [])
  else (set_state p new, state_event p (pe_state p) new).

(** [on_error] is not interrupted here: the state it leaves is the one it found. *)
Definition dc_fail_peer (p : turbo_dc_peer_s) (code : turbo_dc_error_code_t)
    : turbo_dc_peer_s * list dc_event :=
  let p := set_error code p in
  match pe_state p with
  | STATE_FAILED | STATE_DISCONNECTING | STATE_CLOSED => (p, [])
  | old =>
      let p := set_state p STATE_FAILED in
      (p, (if negb (pe_deferred_destroy p)
           then callback (pe_on_error p) (fun cb => EvOnError cb code) else []) ++
          state_event p old STATE_FAILED)
  end.

(** [dc_peer_close_impl] after the reassembly slots were freed
    ([Sctp.dc_peer_close]). *)
Definition dc_peer_close_impl (p : turbo_dc_peer_s) : turbo_dc_peer_s * list dc_event :=
  if bool_decide (pe_state p = STATE_CLOSED) then (p, [])
  else
    let '(p, evs) := dc_notify_state p STATE_DISCONNECTING in
    let '(p, evs') := dc_notify_state (close_socket p) STATE_CLOSED in
    (p, evs ++ evs').

(** [dc_peer_begin_destroy]: admission ends; from the owner thread the rest is
    deferred and no callback is made any more. *)
Definition dc_peer_begin_destroy (p : turbo_dc_peer_s) (on_owner : bool) : turbo_dc_peer_s :=
  if pe_destroying p then p
  else set_control p (pe_is_dtls_server p) true (on_owner || pe_deferred_destroy p)
         (pe_socket p) (pe_state p).

(** The loop that empties the map and frees its channels. *)
Fixpoint free_channels (p : turbo_dc_peer_s) (entries : list (Z * positive))
    : res turbo_dc_peer_s :=
  match entries with
  | [] => Ok p
  | (id, a) :: entries =>
      _ ← deref p a;
      free_channels (set_table p (delete id (pe_channels p)) (pe_channel_ids p)
                       (delete a (pe_heap p))) entries
  end.

Definition dc_peer_destroy_resources (p : turbo_dc_peer_s)
    : res (turbo_dc_peer_s * list dc_event) :=
  let '(p, evs) := dc_peer_close_impl p in
  p ← free_channels (close_socket p) (map_to_list (pe_channels p));
  Ok (set_table p (pe_channels p) ∅ (pe_heap p), evs).

(** [dc_peer_set_role_owner_task], with a DTLS session. *)
Definition dc_peer_set_role (p : turbo_dc_peer_s) (is_server : Z) : turbo_dc_peer_s * Z :=
  if negb (bool_decide (pe_state p = STATE_NEW)) then (p, -2)
  else (set_control p (b2i (truth is_server)) (pe_destroying p) (pe_deferred_destroy p)
          (pe_socket p) (pe_state p), 0).

(* ------------------------------------------------------------------ *)
(** ** Calls *)

Inductive dc_call : Type :=
  | CallCreate (label : option (list Z)) (config : option turbo_dc_channel_config_t)
      (mem : create_mem)
  | CallOpen (a : positive)
  | CallSend (a : positive) (data : option (list Z)) (is_binary : bool)
  | CallClose (a : positive)
  | CallOnOpen (a : positive) (cb : option Z)
  | CallOnMessage (a : positive) (cb : option Z)
  | CallOnClose (a : positive) (cb : option Z)
  | CallSetUserData (a : positive) (user_data : Z)
  | CallPeerCallbacks (on_channel on_state on_error : option Z)
  | CallSetRole (is_server : Z)
  | CallPeerClose
  | RecvState (new : turbo_dc_state_t)
  | RecvFail (code : turbo_dc_error_code_t)
  | RecvDcep (sid : Z) (data : list Z) (a : positive) (mem : open_mem) (map_ok : bool)
  | RecvMessage (sid : Z) (data : list Z) (is_binary : bool)
  | RecvReset (sid : Z) (reset_outgoing : bool)
  | RecvResetAll (capacity : nat) (calloc_ok reset_outgoing : bool).

(** [dc_channel_callback_owner_task] for the callbacks and the user data: a
    channel that closes keeps what it has. *)
Definition set_callbacks (c : turbo_dc_channel_s) (user_data : Z)
    (on_open on_message on_close : option Z) : turbo_dc_channel_s :=
  Build_turbo_dc_channel_s user_data (ch_id c) (ch_label c) (ch_protocol c)
    (ch_config c) (ch_is_open c) (ch_dcep_sent c) (ch_buffered_amount c)
    (ch_callback_refs c) (ch_closing c) on_open on_message on_close.

Definition dc_channel_callback_task (p : turbo_dc_peer_s) (a : positive)
    (update : turbo_dc_channel_s -> turbo_dc_channel_s) : res turbo_dc_peer_s :=
  c ← deref p a;
  Ok (if ch_closing c then p else store p a (update c)).

(** The channel an application call names. *)
Definition call_channel (call : dc_call) : option positive :=
  match call with
  | CallOpen a | CallSend a _ _ | CallClose a | CallOnOpen a _ | CallOnMessage a _
  | CallOnClose a _ | CallSetUserData a _ => Some a
  | _ => None
  end.

(** The address a call may allocate. *)
Definition call_fresh (call : dc_call) : option positive :=
  match call with
  | CallCreate _ _ mem => cm_calloc mem
  | RecvDcep _ _ a _ _ => Some a
  | _ => None
  end.

Definition no_events (r : res turbo_dc_peer_s)
    : res (turbo_dc_peer_s * list dc_event * list frame) :=
  p ← r; Ok (p, [], []).

Definition no_frames (r : turbo_dc_peer_s * list dc_event)
    : res (turbo_dc_peer_s * list dc_event * list frame) := Ok (r.1, r.2, []).

Definition frames_of (r : res (turbo_dc_peer_s * list frame))
    : res (turbo_dc_peer_s * list dc_event * list frame) :=
  '(p, fs) ← r; Ok (p, [], fs).

(** What a call does up to its first release of the mutex.  A peer that is being
    destroyed admits none ([dc_peer_acquire]). *)
Definition dc_call_run (env : sctp_env) (p : turbo_dc_peer_s) (call : dc_call)
    : res (turbo_dc_peer_s * list dc_event * list frame) :=
  if pe_destroying p then Ok (p, [], [])
  else
    match call with
    | CallCreate label config mem =>
        '(p, _) ← dc_channel_create_owner_impl p label config mem; Ok (p, [], [])
    | CallOpen a =>
        '(p, _, evs) ← dc_channel_open_owner_impl env p a; Ok (p, evs, [])
    | CallSend a data is_binary =>
        '(p, _, evs) ← dc_channel_send_owner_impl env p a data is_binary; Ok (p, evs, [])
    | CallClose a => frames_of (close_section p a true)
    | CallOnOpen a cb => no_events (dc_channel_callback_task p a (fun c =>
        set_callbacks c (ch_user_data c) cb (ch_on_message c) (ch_on_close c)))
    | CallOnMessage a cb => no_events (dc_channel_callback_task p a (fun c =>
        set_callbacks c (ch_user_data c) (ch_on_open c) cb (ch_on_close c)))
    | CallOnClose a cb => no_events (dc_channel_callback_task p a (fun c =>
        set_callbacks c (ch_user_data c) (ch_on_open c) (ch_on_message c) cb))
    | CallSetUserData a user_data => no_events (dc_channel_callback_task p a (fun c =>
        set_callbacks c user_data (ch_on_open c) (ch_on_message c) (ch_on_close c)))
    | CallPeerCallbacks on_channel on_state on_error =>
        Ok (set_peer_callbacks p on_channel on_state on_error, [], [])
    | CallSetRole is_server => Ok ((dc_peer_set_role p is_server).1, [], [])
    | CallPeerClose => no_frames (dc_peer_close_impl p)
    | RecvState new => no_frames (dc_notify_state p new)
    | RecvFail code => no_frames (dc_fail_peer p code)
    | RecvDcep sid data a mem map_ok => frames_of (dcep_handle_message p sid data a mem map_ok)
    | RecvMessage sid data is_binary =>
        frames_of (dc_channel_handle_message p sid data is_binary)
    | RecvReset sid reset_outgoing =>
        frames_of (dc_channel_handle_stream_reset p sid reset_outgoing)
    | RecvResetAll capacity calloc_ok reset_outgoing =>
        frames_of (dc_channel_handle_all_streams_reset p capacity calloc_ok reset_outgoing)
    end.

(** [turbo_dc_peer_create], with its callbacks unset. *)
Definition turbo_dc_peer_create (is_server : Z) (disable_sctp : bool) (user_data : Z)
    : turbo_dc_peer_s :=
  {| pe_is_dtls_server := is_server; pe_disable_sctp := disable_sctp;
     pe_destroying := false; pe_deferred_destroy := false;
     pe_socket := negb disable_sctp; pe_state := STATE_NEW; pe_channels := ∅;
     pe_channel_ids := ∅; pe_heap := ∅; pe_last_error := None;
     pe_on_channel := None; pe_on_state := None; pe_on_error := None;
     pe_user_data := user_data |}.

(* ------------------------------------------------------------------ *)
(** ** Interleavings

    A state is the peer and the frames of all the operations under way.  An
    application call names a channel that is still allocated when the owner
    thread runs it; [calloc] returns an address that is not in use.  Destruction
    waits until no operation is under way. *)

Definition sys : Type := turbo_dc_peer_s * list frame.

Record call_ok (p : turbo_dc_peer_s) (call : dc_call) : Prop := {
  call_live : forall a, call_channel call = Some a -> is_Some (pe_heap p !! a);
  call_unused : forall a, call_fresh call = Some a -> pe_heap p !! a = None;
  call_sid : forall sid data a mem map_ok, call = RecvDcep sid data a mem map_ok ->
    is_u16 sid /\ bytes data;
  call_label : forall label config mem, call = CallCreate label config mem ->
    bytes (text label) /\ bytes (text (config ≫= protocol));
}.

Inductive dc_step (env : sctp_env) : sys -> list dc_event -> sys -> Prop :=
  | step_call p fs call p' evs more :
      call_ok p call -> dc_call_run env p call = Ok (p', evs, more) ->
      dc_step env (p, fs) evs (p', more ++ fs)
  | step_frame p fs1 f fs2 p' evs more :
      frame_run env p f = Ok (p', evs, more) ->
      dc_step env (p, fs1 ++ f :: fs2) evs (p', more ++ fs1 ++ fs2)
  | step_begin_destroy p fs on_owner :
      dc_step env (p, fs) [] (dc_peer_begin_destroy p on_owner, fs)
  | step_finish_destroy p p' evs :
      pe_destroying p = true -> dc_peer_destroy_resources p = Ok (p', evs) ->
      dc_step env (p, []) evs (p', []).

Definition dc_reachable (env : sctp_env) (p0 : turbo_dc_peer_s) (s : sys) : Prop :=
  rtc (fun s s' => exists evs, dc_step env s evs s') (p0, []) s.

(* ------------------------------------------------------------------ *)
(** ** The invariant of the table *)

(** What a record keeps from its creation on. *)
Record channel_wf (c : turbo_dc_channel_s) : Prop := {
  cw_id : is_u16 (ch_id c);
  cw_label : len (text (ch_label c)) <= MAX_LABEL_LEN /\ utf8_text (text (ch_label c));
  cw_protocol : len (text (ch_protocol c)) <= MAX_PROTOCOL_LEN /\
    utf8_text (text (ch_protocol c));
  cw_limits : bad_limits (ch_config c) = false;
}.

(** [n] counts the leases held on each channel. *)
Record table_wf (p : turbo_dc_peer_s) (n : positive -> Z) : Prop := {
  tw_published : forall id a, pe_channels p !! id = Some a <->
    exists c, pe_heap p !! a = Some c /\ ch_id c = id /\ ch_closing c = false;
  tw_ids : forall id, id ∈ pe_channel_ids p <->
    exists a c, pe_heap p !! a = Some c /\ ch_id c = id;
  tw_unique : forall a b c d, pe_heap p !! a = Some c -> pe_heap p !! b = Some d ->
    ch_id c = ch_id d -> a = b;
  tw_channel : forall a c, pe_heap p !! a = Some c -> channel_wf c;
  tw_refs : forall a c, pe_heap p !! a = Some c -> ch_callback_refs c = n a;
  tw_closing : forall a c, pe_heap p !! a = Some c -> ch_closing c = true ->
    0 < n a /\ ch_is_open c = false;
  tw_bound : forall a c, pe_heap p !! a = Some c ->
    0 <= n a <= UINT32_MAX - (if ch_closing c then 0 else 1);
  tw_live : forall a, pe_heap p !! a = None -> n a = 0;
}.

Definition leases (fs : list frame) (a : positive) : Z :=
  len (filter (fun f => frame_channel f = a) fs).

Definition dc_wf (s : sys) : Prop := table_wf s.1 (leases s.2).

Definition same_table (p p' : turbo_dc_peer_s) : Prop :=
  pe_channels p = pe_channels p' /\ pe_channel_ids p = pe_channel_ids p' /\
  pe_heap p = pe_heap p'.

Lemma table_wf_ext p p' n n' :
  table_wf p n -> same_table p p' -> (forall b, n' b = n b) -> table_wf p' n'.
Proof.
  intros [] (E1 & E2 & E3) Hn.
  split; intros *; rewrite <- ?E1, <- ?E2, <- ?E3, ?Hn; eauto.
Qed.

Lemma leases_nil a : leases [] a = 0.
Proof. done. Qed.

Definition lease (f : frame) (a : positive) : Z :=
  if decide (frame_channel f = a) then 1 else 0.

Lemma leases_cons f fs a : leases (f :: fs) a = lease f a + leases fs a.
Proof.
  unfold leases, lease. rewrite filter_cons. case_decide; [by rewrite len_cons|lia].
Qed.

Lemma leases_app fs1 fs2 a : leases (fs1 ++ fs2) a = leases fs1 a + leases fs2 a.
Proof. unfold leases. by rewrite filter_app, len_app. Qed.

Lemma leases_nonneg fs a : 0 <= leases fs a.
Proof. apply len_nonneg. Qed.

Lemma deref_Some p a c : pe_heap p !! a = Some c -> deref p a = Ok c.
Proof. unfold deref. by intros ->. Qed.

Lemma deref_inv p a c : deref p a = Ok c -> pe_heap p !! a = Some c.
Proof. unfold deref. destruct (pe_heap p !! a); [by intros [= ->]|done]. Qed.

Lemma leased_live p n a : table_wf p n -> 0 < n a -> exists c, pe_heap p !! a = Some c.
Proof.
  intros Hw Hn. destruct (pe_heap p !! a) as [c|] eqn:E; [by exists c|].
  pose proof (tw_live _ _ Hw a E). lia.
Qed.

(** Changing an open record: its identity and the lease count are what
    matters. *)
Lemma table_wf_store p n n' a c c' :
  table_wf p n -> pe_heap p !! a = Some c ->
  ch_id c' = ch_id c -> ch_closing c' = ch_closing c -> channel_wf c' ->
  (ch_closing c = true -> 0 < n' a /\ ch_is_open c' = false) ->
  ch_callback_refs c' = n' a ->
  0 <= n' a <= UINT32_MAX - (if ch_closing c then 0 else 1) ->
  (forall b, b <> a -> n' b = n b) ->
  table_wf (store p a c') n'.
Proof.
  intros [] Ha Hid Hcl Hwf Hcw Hr Hb Hn. unfold store, set_heap.
  split; cbn [set_table pe_channels pe_channel_ids pe_heap].
  - intros id b. rewrite tw_published0. destruct (decide (b = a)) as [->|Hne].
    + rewrite Ha, lookup_insert_eq.
      split; intros (d & [= <-] & ? & ?); eexists; split_and!; done || congruence.
    + by rewrite lookup_insert_ne by done.
  - intros id. rewrite tw_ids0. split; intros (b & d & Hd & Hi).
    + destruct (decide (b = a)) as [->|Hne].
      * exists a, c'. rewrite lookup_insert_eq. split; [done|]. congruence.
      * exists b, d. by rewrite lookup_insert_ne by done.
    + destruct (decide (b = a)) as [->|Hne].
      * exists a, c. rewrite lookup_insert_eq in Hd. split; [done|]. congruence.
      * exists b, d. by rewrite lookup_insert_ne in Hd by done.
  - intros b1 b2 d1 d2. rewrite !lookup_insert_Some.
    intros [[<- <-]|[N1 L1]] [[<- <-]|[N2 L2]] Hi; eauto.
    + eapply tw_unique0; [exact Ha|exact L2|congruence].
    + eapply tw_unique0; [exact L1|exact Ha|congruence].
  - intros b d. rewrite lookup_insert_Some. intros [[<- <-]|[N L]]; eauto.
  - intros b d. rewrite lookup_insert_Some. intros [[<- <-]|[N L]]; [done|].
    rewrite Hn by done. eauto.
  - intros b d. rewrite lookup_insert_Some. intros [[<- <-]|[N L]].
    + rewrite Hcl. eauto.
    + rewrite Hn by done. eauto.
  - intros b d. rewrite lookup_insert_Some. intros [[<- <-]|[N L]].
    + by rewrite Hcl.
    + rewrite Hn by done. eauto.
  - intros b. rewrite lookup_insert_None. intros [L N]. rewrite Hn by done. eauto.
Qed.

(** Closing a record takes it out of the map. *)
Lemma table_wf_close p n n' a c c' :
  table_wf p n -> pe_heap p !! a = Some c -> ch_closing c = false ->
  ch_id c' = ch_id c -> ch_closing c' = true -> ch_is_open c' = false -> channel_wf c' ->
  ch_callback_refs c' = n' a -> 0 < n' a <= UINT32_MAX ->
  (forall b, b <> a -> n' b = n b) ->
  table_wf (set_table p (unpublish p (ch_id c) a) (pe_channel_ids p)
              (<[a := c']> (pe_heap p))) n'.
Proof.
  intros Hw Ha Hcl Hid Hcl' Hop Hwf Hr Hb Hn. pose proof Hw as [].
  assert (Hp : pe_channels p !! ch_id c = Some a) by (apply tw_published0; eauto).
  unfold unpublish, peer_get_channel. rewrite bool_decide_true by done.
  split; cbn [set_table pe_channels pe_channel_ids pe_heap].
  - intros id b. rewrite lookup_delete_Some, tw_published0. split.
    + intros (Hne & d & Hd & Hi & Hc). exists d. rewrite lookup_insert_ne; [done|].
      intros <-. congruence.
    + intros (d & Hd & Hi & Hc). apply lookup_insert_Some in Hd as [[<- <-]|[Hne Hd]]; [congruence|].
      split; [|by exists d]. intros <-. apply Hne. by apply (tw_unique0 _ _ _ _ Ha Hd).
  - intros id. rewrite tw_ids0. split; intros (b & d & Hd & Hi).
    + destruct (decide (b = a)) as [->|Hne].
      * exists a, c'. rewrite lookup_insert_eq. split; [done|]. congruence.
      * exists b, d. by rewrite lookup_insert_ne by done.
    + apply lookup_insert_Some in Hd as [[<- <-]|[Hne Hd]]; [|by exists b, d].
      exists a, c. split; [done|]. congruence.
  - intros b1 b2 d1 d2. rewrite !lookup_insert_Some.
    intros [[<- <-]|[N1 L1]] [[<- <-]|[N2 L2]] Hi; eauto.
    + eapply tw_unique0; [exact Ha|exact L2|congruence].
    + eapply tw_unique0; [exact L1|exact Ha|congruence].
  - intros b d. rewrite lookup_insert_Some. intros [[<- <-]|[N L]]; eauto.
  - intros b d. rewrite lookup_insert_Some. intros [[<- <-]|[N L]]; [done|].
    rewrite Hn by done. eauto.
  - intros b d. rewrite lookup_insert_Some. intros [[<- <-]|[N L]].
    + intros _. split; [lia|done].
    + rewrite Hn by done. eauto.
  - intros b d. rewrite lookup_insert_Some. intros [[<- <-]|[N L]].
    + rewrite Hcl'. lia.
    + rewrite Hn by done. eauto.
  - intros b. rewrite lookup_insert_None. intros [L N]. rewrite Hn by done. eauto.
Qed.

(** Freeing the record of a closed channel gives its id back. *)
Lemma table_wf_free p n n' a c :
  table_wf p n -> pe_heap p !! a = Some c -> ch_closing c = true ->
  n' a = 0 -> (forall b, b <> a -> n' b = n b) ->
  table_wf (set_table p (pe_channels p) (pe_channel_ids p ∖ {[ ch_id c ]})
              (delete a (pe_heap p))) n'.
Proof.
  intros [] Ha Hcl Hz Hn. split; cbn [set_table pe_channels pe_channel_ids pe_heap].
  - intros id b. rewrite tw_published0. split; intros (d & Hd & Hi & Hc).
    + exists d. rewrite lookup_delete_ne; [done|]. intros <-. congruence.
    + apply lookup_delete_Some in Hd as [_ Hd]. by exists d.
  - intros id. rewrite elem_of_difference, elem_of_singleton, tw_ids0. split.
    + intros [(b & d & Hd & Hi) Hne]. exists b, d. rewrite lookup_delete_ne; [done|].
      intros <-. congruence.
    + intros (b & d & Hd & Hi). apply lookup_delete_Some in Hd as [Hne Hd].
      split; [by exists b, d|]. intros ->. apply Hne. by apply (tw_unique0 _ _ _ _ Ha Hd).
  - intros b1 b2 d1 d2. rewrite !lookup_delete_Some. naive_solver.
  - intros b d [_ Hd]%lookup_delete_Some. eauto.
  - intros b d [N Hd]%lookup_delete_Some. rewrite Hn by done. eauto.
  - intros b d [N Hd]%lookup_delete_Some. rewrite Hn by done. eauto.
  - intros b d [N Hd]%lookup_delete_Some. rewrite Hn by done. eauto.
  - intros b. rewrite lookup_delete_None. intros Hd.
    destruct (decide (b = a)) as [->|Hne]; [done|]. rewrite Hn by done. naive_solver.
Qed.

(** Publishing a fresh record under a free id. *)
Lemma table_wf_publish p n n' a c :
  table_wf p n -> pe_heap p !! a = None -> ch_id c ∉ pe_channel_ids p ->
  ch_closing c = false -> channel_wf c -> ch_callback_refs c = n' a ->
  0 <= n' a <= UINT32_MAX - 1 -> (forall b, b <> a -> n' b = n b) ->
  table_wf (set_table p (<[ch_id c := a]> (pe_channels p)) ({[ ch_id c ]} ∪ pe_channel_ids p)
              (<[a := c]> (pe_heap p))) n'.
Proof.
  intros [] Ha Hfresh Hcl Hwf Hr Hb Hn.
  assert (Hother : forall b d, pe_heap p !! b = Some d -> ch_id d <> ch_id c /\ b <> a).
  { intros b d Hd. split; [|congruence]. intros E. apply Hfresh, tw_ids0. by exists b, d. }
  split; cbn [set_table pe_channels pe_channel_ids pe_heap].
  - intros id b. rewrite lookup_insert_Some, tw_published0. split.
    + intros [[<- <-]|[Hne (d & Hd & Hi & Hc)]].
      * exists c. by rewrite lookup_insert_eq.
      * exists d. rewrite lookup_insert_ne; [done|]. intros <-. congruence.
    + intros (d & Hd & Hi & Hc). apply lookup_insert_Some in Hd as [[<- <-]|[Hne Hd]]; [by left|].
      right. split; [|by exists d]. intros E. destruct (Hother b d Hd) as [? _]. congruence.
  - intros id. rewrite elem_of_union, elem_of_singleton, tw_ids0. split.
    + intros [->|(b & d & Hd & Hi)]; [exists a, c; by rewrite lookup_insert_eq|].
      exists b, d. rewrite lookup_insert_ne; [done|]. destruct (Hother b d Hd). congruence.
    + intros (b & d & Hd & Hi). apply lookup_insert_Some in Hd as [[<- <-]|[Hne Hd]]; [by left|].
      right. by exists b, d.
  - intros b1 b2 d1 d2. rewrite !lookup_insert_Some.
    intros [[<- <-]|[N1 L1]] [[<- <-]|[N2 L2]] Hi; eauto.
    + destruct (Hother _ _ L2). congruence.
    + destruct (Hother _ _ L1). congruence.
  - intros b d. rewrite lookup_insert_Some. intros [[<- <-]|[N L]]; eauto.
  - intros b d. rewrite lookup_insert_Some. intros [[<- <-]|[N L]]; [done|].
    rewrite Hn by done. eauto.
  - intros b d. rewrite lookup_insert_Some. intros [[<- <-]|[N L]]; [congruence|].
    rewrite Hn by done. eauto.
  - intros b d. rewrite lookup_insert_Some. intros [[<- <-]|[N L]]; [by rewrite Hcl|].
    rewrite Hn by done. eauto.
  - intros b. rewrite lookup_insert_None. intros [L N]. rewrite Hn by done. eauto.
Qed.

(* ------------------------------------------------------------------ *)
(** ** Frames preserve the invariant *)

Definition frame_names (p : turbo_dc_peer_s) (f : frame) : Prop :=
  match f with
  | OpenAck a sid | OpenRejected a sid =>
      forall c, pe_heap p !! a = Some c -> ch_id c = sid
  | _ => True
  end.

(** A record keeps its stream while it is allocated. *)
Definition ids_stable (p p' : turbo_dc_peer_s) : Prop :=
  forall a c c', pe_heap p !! a = Some c -> pe_heap p' !! a = Some c' -> ch_id c' = ch_id c.

(** From [n] to [n'] leases. *)
Record keeps (p p' : turbo_dc_peer_s) (n' : positive -> Z) : Prop := {
  keeps_table : table_wf p' n';
  keeps_ids : ids_stable p p';
}.

Lemma ids_stable_same p p' : same_table p p' -> ids_stable p p'.
Proof. intros (_ & _ & E) a c c' H1 H2. rewrite <- E in H2. congruence. Qed.

Lemma ids_stable_insert p p' a c c' :
  pe_heap p' = <[a := c']> (pe_heap p) -> pe_heap p !! a = Some c -> ch_id c' = ch_id c ->
  ids_stable p p'.
Proof.
  intros E Ha Hi b d d' H1. rewrite E, lookup_insert_Some.
  intros [[<- <-]|[_ H2]]; congruence.
Qed.

Lemma keeps_same p p' n n' :
  table_wf p n -> same_table p p' -> (forall b, n' b = n b) -> keeps p p' n'.
Proof. intros. split; [by eapply table_wf_ext|by apply ids_stable_same]. Qed.

Lemma keeps_then p p' p'' n :
  keeps p p' n -> same_table p' p'' -> keeps p p'' n.
Proof.
  intros [Hw Hi] Hs. split; [by eapply table_wf_ext|].
  intros a c c' H1 H2. destruct Hs as (_ & _ & E). rewrite <- E in H2. by eapply Hi.
Qed.

Lemma same_table_error p code : same_table p (set_error code p).
Proof. done. Qed.

Definition frame_rank (f : frame) : nat :=
  match f with
  | OpenAck _ _ | ResetAdmitted _ _ => 4
  | OpenAdmitted _ => 3
  | OpenRejected _ _ | OpenRecheck _ | AckAdmitted _ | MessageAdmitted _ _ _
  | CloseNative _ _ _ _ => 2
  | Release _ _ => 1
  end.

Definition rank (fs : list frame) : nat := sum_list_with frame_rank fs.

(** What remains after [f] runs, with leases on the same channel only. *)
Record frame_ok (p : turbo_dc_peer_s) (n : positive -> Z) (f : frame)
    (p' : turbo_dc_peer_s) (more : list frame) : Prop := {
  fo_keeps : keeps p p' (fun b => n b - lease f b + leases more b);
  fo_names : Forall (frame_names p') more;
  fo_rank : (rank more < frame_rank f)%nat;
}.

Lemma lease_same f a b : frame_channel f = a -> lease f b = if decide (b = a) then 1 else 0.
Proof. intros <-. unfold lease. repeat case_decide; congruence. Qed.

(** One frame replaced by one of the same channel. *)
Lemma lease_handed f g fs a b :
  frame_channel f = a -> frame_channel g = a ->
  forall n : positive -> Z, n b - lease f b + leases (g :: fs) b = n b + leases fs b.
Proof.
  intros Hf Hg n. rewrite leases_cons, (lease_same f a), (lease_same g a) by done. lia.
Qed.

Lemma channel_wf_set c c' :
  channel_wf c -> ch_id c' = ch_id c -> ch_label c' = ch_label c ->
  ch_protocol c' = ch_protocol c -> ch_config c' = ch_config c -> channel_wf c'.
Proof. intros [] E1 E2 E3 E4. split; by rewrite ?E1, ?E2, ?E3, ?E4. Qed.

(** A record changed in place, the leases untouched. *)
Lemma keeps_update p n n' a c c' :
  table_wf p n -> pe_heap p !! a = Some c -> ch_closing c = false ->
  ch_id c' = ch_id c -> ch_label c' = ch_label c -> ch_protocol c' = ch_protocol c ->
  ch_config c' = ch_config c -> ch_closing c' = false ->
  ch_callback_refs c' = ch_callback_refs c -> (forall b, n' b = n b) ->
  keeps p (store p a c') n'.
Proof.
  intros Hw Ha Hcl E1 E2 E3 E4 E5 E6 Hn. split.
  - eapply table_wf_store; try done; rewrite ?Hn, ?Hcl, ?E6; try done.
    + apply (channel_wf_set c); [by apply (tw_channel _ _ Hw a)|done..].
    + by eapply tw_refs.
    + pose proof (tw_bound _ _ Hw _ _ Ha) as Hb. by rewrite Hcl in Hb.
  - by eapply ids_stable_insert.
Qed.

Lemma release_ok p n a :
  table_wf p n -> 0 < n a ->
  exists p', dc_channel_release p a = Ok p' /\
    keeps p p' (fun b => n b - if decide (b = a) then 1 else 0).
Proof.
  intros Hw Hn. destruct (leased_live _ _ _ Hw Hn) as [c Hc].
  unfold dc_channel_release. rewrite (deref_Some _ _ _ Hc). cbn [mbind res_bind].
  rewrite (tw_refs _ _ Hw _ _ Hc). test (0 <? n a) true.
  pose proof (tw_bound _ _ Hw _ _ Hc) as Hb.
  destruct (ch_closing c && (n a - 1 =? 0)) eqn:E; eexists; (split; [done|]); split.
  - apply andb_prop in E as [Hcl En]. eapply table_wf_free; [done..| |].
    + rewrite decide_True by done. lia.
    + intros b Hne. rewrite decide_False by done. lia.
  - intros b d d' H1 H2. cbn [set_table pe_heap] in H2.
    apply lookup_delete_Some in H2 as [_ H2]. congruence.
  - eapply table_wf_store; try done; cbn; try (rewrite decide_True by done).
    + apply (channel_wf_set c); [by apply (tw_channel _ _ Hw a)|done..].
    + intros Hcl. rewrite Hcl in E. destruct (tw_closing _ _ Hw _ _ Hc Hcl) as [_ Ho].
      split; [lia|done].
    + done.
    + destruct (ch_closing c); lia.
    + intros b Hne. rewrite decide_False by done. lia.
  - by eapply ids_stable_insert.
Qed.

Lemma close_section_ok p n a reset c :
  table_wf p n -> pe_heap p !! a = Some c ->
  exists p' fs, close_section p a reset = Ok (p', fs) /\
    keeps p p' (fun b => n b + leases fs b) /\ Forall (frame_names p') fs /\
    (rank fs <= 2)%nat.
Proof.
  intros Hw Hc. unfold close_section. rewrite (deref_Some _ _ _ Hc). cbn [mbind res_bind].
  destruct (ch_closing c) eqn:Hcl; eexists _, _; (split; [done|]).
  - split_and!; [|done|cbn; lia]. eapply keeps_same; [done|done|]. intros b. rewrite leases_nil. lia.
  - split_and!; [|by repeat constructor|cbn; lia].
    pose proof (tw_refs _ _ Hw _ _ Hc). pose proof (tw_bound _ _ Hw _ _ Hc) as Hb.
    rewrite Hcl in Hb. unfold UINT32_MAX in Hb. split.
    + eapply table_wf_close; try done; cbn;
        try (rewrite leases_cons, (lease_same _ a), leases_nil by done).
      * apply (channel_wf_set c); [by apply (tw_channel _ _ Hw a)|done..].
      * rewrite decide_True by done. rewrite u32_id by (unfold is_u32; lia). lia.
      * rewrite decide_True by done. unfold UINT32_MAX. lia.
      * intros b Hne. rewrite leases_cons, (lease_same _ a), leases_nil by done.
        rewrite decide_False by done. lia.
    + by eapply (ids_stable_insert _ _ a).
Qed.

Lemma rollback_section_ok p n a sid c :
  table_wf p n -> pe_heap p !! a = Some c -> ch_id c = sid -> 0 < n a ->
  exists p' reset, rollback_section p a sid = Ok (p', reset) /\ keeps p p' n.
Proof.
  intros Hw Hc <- Hn. unfold rollback_section. rewrite (deref_Some _ _ _ Hc).
  cbn [mbind res_bind]. destruct (ch_closing c) eqn:Hcl; eexists _, _; (split; [done|]).
  - by eapply keeps_same.
  - pose proof (tw_refs _ _ Hw _ _ Hc). pose proof (tw_bound _ _ Hw _ _ Hc) as Hb.
    rewrite Hcl in Hb. split.
    + apply (table_wf_close p n n a c); [done..| |done| |done].
      * apply (channel_wf_set c); [by apply (tw_channel _ _ Hw a)|done..].
      * unfold UINT32_MAX in *. lia.
    + by eapply (ids_stable_insert _ _ a).
Qed.

(** The count after a frame that leaves one frame on the same channel. *)
Ltac one_lease a :=
  intros b; rewrite ?leases_app, ?leases_cons, ?leases_nil, !(lease_same _ a) by done; lia.

(** A frame that changes nothing of the table and leaves one frame. *)
Lemma frame_ok_same p n f p' g :
  table_wf p n -> same_table p p' -> frame_channel g = frame_channel f ->
  frame_names p' g -> (frame_rank g < frame_rank f)%nat -> frame_ok p n f p' [g].
Proof.
  intros Hw Hs Hg Hn Hr. split; [|by constructor|cbn; lia].
  eapply keeps_same; [done..|]. one_lease (frame_channel f).
Qed.

(** A frame that opens the channel and leaves one frame. *)
Lemma frame_ok_opens p n f a g c :
  table_wf p n -> pe_heap p !! a = Some c -> ch_closing c = false ->
  frame_channel f = a -> frame_channel g = a ->
  frame_names (store p a (set_channel c true (ch_dcep_sent c) (ch_closing c) (ch_callback_refs c))) g ->
  (frame_rank g < frame_rank f)%nat ->
  frame_ok p n f
    (store p a (set_channel c true (ch_dcep_sent c) (ch_closing c) (ch_callback_refs c))) [g].
Proof.
  intros Hw Hc Hcl Hf Hg Hn Hr. split; [|by constructor|cbn; lia].
  eapply keeps_update; try done. one_lease a.
Qed.

Lemma frame_run_ok env p n f :
  table_wf p n -> frame_names p f -> 0 < n (frame_channel f) ->
  exists p' evs more, frame_run env p f = Ok (p', evs, more) /\ frame_ok p n f p' more.
Proof.
  intros Hw Hnames Hn. destruct (leased_live _ _ _ Hw Hn) as [c Hc].
  destruct f as [a sid|a sid|a|a|a|a data bin|a reset|a id reset cb|a code];
    cbn [frame_channel frame_names frame_run] in *; try rewrite (deref_Some _ _ _ Hc);
    cbn [mbind res_bind].
  - destruct (dcep_send_ack env p sid) as [ok evs]. eexists _, _, _. split; [done|].
    apply frame_ok_same; destruct ok; done || (cbn; lia).
  - destruct (rollback_section_ok p n a sid c Hw Hc (Hnames _ Hc) Hn) as (p' & r & -> & Hk).
    cbn [mbind res_bind]. destruct (if r then _ else _) as [ok evs].
    eexists _, _, _. split; [done|]. split; [|by constructor|cbn; lia].
    destruct Hk as [Hk Hi]. split; [|by destruct ok].
    eapply table_wf_ext; [done|by destruct ok|]. one_lease a.
  - destruct (negb (ch_closing c) && _) eqn:E; eexists _, _, _; (split; [done|]).
    + apply andb_prop in E as [E _]. apply negb_true_iff in E.
      eapply frame_ok_opens; done || (cbn; lia).
    + apply frame_ok_same; done || (cbn; lia).
  - eexists _, _, _. split; [done|]. apply frame_ok_same; done || (cbn; lia).
  - destruct (negb (ch_closing c) && _ && _ && _) eqn:E; eexists _, _, _; (split; [done|]).
    + apply andb_prop in E as [E _]. apply andb_prop in E as [E _].
      apply andb_prop in E as [E _]. apply negb_true_iff in E.
      eapply frame_ok_opens; done || (cbn; lia).
    + apply frame_ok_same; done || (cbn; lia).
  - eexists _, _, _. split; [done|]. apply frame_ok_same; done || (cbn; lia).
  - destruct (close_section_ok p n a reset c Hw Hc) as (p' & fs & -> & Hk & Hf & Hr).
    cbn [mbind res_bind]. eexists _, _, _. split; [done|]. split.
    + destruct Hk as [Hk Hi]. split; [|done]. eapply table_wf_ext; [done|done|]. one_lease a.
    + apply Forall_app_2; [done|by repeat constructor].
    + unfold rank in *. rewrite sum_list_with_app. cbn. lia.
  - destruct (if reset && pe_socket p then _ else _) as [ok evs].
    eexists _, _, _. split; [done|]. apply frame_ok_same; destruct ok; done || (cbn; lia).
  - destruct (release_ok p n a Hw Hn) as (p' & -> & Hk). cbn [mbind res_bind].
    eexists _, _, _. split; [done|]. split; [|done|cbn; lia].
    eapply (keeps_then p p'); [|by destruct code].
    destruct Hk as [Hk Hi]. split; [|done]. eapply table_wf_ext; [done|done|].
    intros b. rewrite leases_nil, (lease_same _ a) by done. lia.
Qed.

(* ------------------------------------------------------------------ *)
(** ** Calls preserve the invariant *)

Lemma alloc_id_loop_spec fuel ids id :
  (0 < fuel)%nat -> 0 <= id -> MAX_CHANNELS - id <= 2 * (Z.of_nat fuel - 1) ->
  alloc_id_loop fuel ids id = Err \/
  exists i, alloc_id_loop fuel ids id = Ok i /\ i ∉ ids /\ id <= i < MAX_CHANNELS /\
    (i - id) mod 2 = 0.
Proof.
  unfold MAX_CHANNELS. revert id. induction fuel as [|fuel IH]; intros id H0 Hid Hf; cbn [alloc_id_loop].
  - lia.
  - unfold MAX_CHANNELS. destruct (id <? 65536) eqn:E; [|by left].
    case_bool_decide as Hin; cbn [negb].
    + destruct (IH (id + 2)) as [->|(i & -> & Hi & Hr & Hp)]; [lia|lia|lia|by left|].
      right. exists i. split_and!; [done|done|lia|lia|].
      replace (i - id) with (i - (id + 2) + 1 * 2) by lia. by rewrite Z.mod_add.
    + right. exists id. rewrite u16_id by (unfold is_u16; lia).
      split_and!; [done|done|lia|lia|]. by rewrite Z.sub_diag.
Qed.

(** A new id is free and of the peer's parity. *)
Lemma peer_alloc_channel_id_spec p :
  peer_alloc_channel_id p = Err \/
  exists id, peer_alloc_channel_id p = Ok ({[ id ]} ∪ pe_channel_ids p, id) /\
    id ∉ pe_channel_ids p /\ is_u16 id /\
    (Z.land id 1 =? 0) = negb (truth (pe_is_dtls_server p)).
Proof.
  unfold peer_alloc_channel_id.
  destruct (alloc_id_loop_spec (Z.to_nat 32769) (pe_channel_ids p)
    (if truth (pe_is_dtls_server p) then 1 else 0)) as [->|(i & -> & Hi & Hr & Hp)];
    [lia|destruct (truth _); lia|unfold MAX_CHANNELS; destruct (truth _); lia|by left|].
  right. exists i. unfold MAX_CHANNELS, is_u16 in *. rewrite land1.
  split_and!; [done|done|destruct (truth _); lia|lia|].
  destruct (truth _); cbn [negb]; zmod_lia.
Qed.

Lemma names_ok_spec label proto :
  bytes label -> bytes (text proto) ->
  exists b, names_ok label proto = Ok b /\
    (b = true <-> len label <= MAX_LABEL_LEN /\ len (text proto) <= MAX_PROTOCOL_LEN /\
       utf8_text label /\ utf8_text (text proto)).
Proof.
  intros Hl Hp. unfold names_ok. rewrite tstr_len_text.
  destruct (_ || _) eqn:E; [exists false; split; [done|split; [done|lia]]|].
  apply orb_false_iff in E as [E1 E2].
  destruct (text_valid_spec label [] Hl) as (b1 & E & Hb1). rewrite app_nil_r in E.
  rewrite E. cbn [mbind res_bind]. destruct b1; cbn [negb].
  2: { exists false. split; [done|]. split; [done|]. intros (_ & _ & H & _). by apply Hb1 in H. }
  destruct proto as [proto|].
  - change (text (Some proto)) with proto in *.
    destruct (text_valid_spec proto [] Hp) as (b2 & E' & Hb2). rewrite app_nil_r in E'.
    exists b2. split; [exact E'|]. rewrite Hb2. split; [|tauto].
    intros H. split_and!; [lia|lia|by apply Hb1|done].
  - exists true. split; [done|]. split; [|done]. intros _.
    split_and!; [lia|done|by apply Hb1|by exists []].
Qed.

(** What creation promises of the record it publishes. *)
Lemma new_channel_spec id label config mem c :
  new_channel id label config mem = inl c ->
  c = channel_of id (Some label) (config ≫= protocol)
        (default turbo_dc_default_channel_config config) /\
  bad_limits (default turbo_dc_default_channel_config config) = false.
Proof.
  unfold new_channel, tstr_dup. destruct config as [config|]; cbn.
  - destruct (bad_limits config); [done|].
    destruct (cm_label mem), (cm_protocol mem), (protocol config); try done;
      by intros [= <-].
  - destruct (cm_label mem); [|done]. by intros [= <-].
Qed.

Lemma difference_fresh (ids : gset Z) id :
  id ∉ ids -> ({[ id ]} ∪ ids) ∖ {[ id ]} = ids.
Proof. set_solver. Qed.

Lemma create_ok p n label config mem :
  table_wf p n -> (forall a, cm_calloc mem = Some a -> pe_heap p !! a = None) ->
  bytes (text label) -> bytes (text (config ≫= protocol)) ->
  exists p' r, dc_channel_create_owner_impl p label config mem = Ok (p', r) /\ keeps p p' n.
Proof.
  intros Hw Hfresh Hl Hp. unfold dc_channel_create_owner_impl.
  assert (Hsame : forall code, keeps p (set_error code p) n) by (intros; by eapply keeps_same).
  destruct label as [label|]; [|eexists _, _; split; [done|]; by eapply keeps_same].
  destruct (pe_disable_sctp p); [by eexists _, _|].
  destruct (names_ok_spec label (config ≫= protocol) Hl Hp) as (b & -> & Hb).
  cbn [mbind res_bind]. destruct b; cbn [negb]; [|by eexists _, _].
  destruct (pe_destroying p); [by eexists _, _|].
  destruct (proj1 Hb eq_refl) as (B1 & B2 & B3 & B4).
  destruct (peer_alloc_channel_id_spec p) as [->|(id & -> & Hid & Hu & _)]; [by eexists _, _|].
  assert (Hfail : forall code, keeps p
    (set_error code (set_table p (pe_channels p) (({[ id ]} ∪ pe_channel_ids p) ∖ {[ id ]})
      (pe_heap p))) n).
  { intros code. eapply keeps_same; [done| |done]. split_and!; [done| |done].
    cbn. by rewrite difference_fresh. }
  destruct (cm_calloc mem) as [a|]; [|by eexists _, _].
  destruct (new_channel id label config mem) as [c|code] eqn:Ec; [|by eexists _, _].
  destruct (cm_map mem); cbn [negb]; [|by eexists _, _].
  destruct (new_channel_spec _ _ _ _ _ Ec) as [-> Hlim].
  eexists _, _. split; [done|]. pose proof (Hfresh a eq_refl) as Ha. split.
  - set (c := channel_of _ _ _ _). change id with (ch_id c) at 1 2.
    apply (table_wf_publish p n n a c); try done.
    + rewrite (tw_live _ _ Hw a Ha). done.
    + rewrite (tw_live _ _ Hw a Ha). unfold UINT32_MAX. lia.
  - intros b d d' H1 H2. cbn [set_table pe_heap] in H2.
    apply lookup_insert_Some in H2 as [[<- _]|[_ H2]]; congruence.
Qed.

(** One more lease. *)
Lemma keeps_admit p n a c :
  table_wf p n -> pe_heap p !! a = Some c -> ch_closing c = false ->
  ch_callback_refs c < UINT32_MAX - 1 ->
  keeps p (store p a (set_channel c (ch_is_open c) (ch_dcep_sent c) (ch_closing c)
                        (u32 (ch_callback_refs c + 1))))
    (fun b => n b + if decide (b = a) then 1 else 0).
Proof.
  intros Hw Hc Hcl Hr. pose proof (tw_bound _ _ Hw _ _ Hc) as Hb.
  rewrite Hcl in Hb. rewrite (tw_refs _ _ Hw _ _ Hc) in *. unfold UINT32_MAX in *. split.
  - apply (table_wf_store p n _ a c); [done..| | | | |].
    + apply (channel_wf_set c); [by apply (tw_channel _ _ Hw a)|done..].
    + by rewrite Hcl.
    + cbn. rewrite decide_True by done. by rewrite u32_id by (unfold is_u32; lia).
    + rewrite Hcl, decide_True by done. unfold UINT32_MAX. lia.
    + intros b Hne. rewrite decide_False by done. lia.
  - by eapply (ids_stable_insert _ _ a).
Qed.

Lemma admit_ok p n sid :
  table_wf p n ->
  exists p' r, dc_channel_admit p sid = Ok (p', r) /\
    keeps p p' (fun b => n b + if decide (r = Some b) then 1 else 0).
Proof.
  intros Hw. unfold dc_channel_admit.
  assert (Hnone : keeps p p (fun b => n b + if decide (None = Some b) then 1 else 0)).
  { eapply keeps_same; [done|done|]. intros b. rewrite decide_False by done. lia. }
  destruct (if negb (pe_destroying p) then _ else _) as [a|] eqn:E; [|by eexists _, _].
  assert (exists c, pe_heap p !! a = Some c /\ ch_closing c = false) as (c & Hc & Hcl).
  { destruct (negb _); [|done]. apply (tw_published _ _ Hw) in E as (c & ? & _ & ?). by exists c. }
  rewrite (deref_Some _ _ _ Hc). cbn [mbind res_bind]. replace (negb (ch_closing c)) with true by (by rewrite Hcl). cbn [andb].
  destruct (ch_callback_refs c <? UINT32_MAX - 1) eqn:Er; [|by eexists _, _].
  eexists _, _. split; [done|]. destruct (keeps_admit p n a c) as [Hk Hi]; [done..|lia|].
  split; [|done]. eapply table_wf_ext; [done|done|]. intros b. cbn.
  destruct (decide (b = a)) as [->|Hne]; [by rewrite decide_True|].
  rewrite decide_False by congruence. done.
Qed.

Lemma ids_stable_trans p1 p2 p3 :
  ids_stable p1 p2 -> ids_stable p2 p3 ->
  (forall a, is_Some (pe_heap p1 !! a) -> is_Some (pe_heap p2 !! a)) -> ids_stable p1 p3.
Proof.
  intros H1 H2 Hl a c c' Hc Hc'. destruct (Hl a) as [d Hd]; [by exists c|].
  rewrite (H2 _ _ _ Hd Hc'). by apply (H1 _ _ _ Hc Hd).
Qed.

(** The snapshot: the entries name allocated channels. *)
Lemma admit_all_ok p n entries room reset :
  table_wf p n -> (forall e, e ∈ entries -> is_Some (pe_heap p !! e.2)) ->
  exists p' channels, admit_all p entries room = Ok (p', channels) /\
    keeps p p' (fun b => n b + leases ((fun a => ResetAdmitted a reset) <$> channels) b).
Proof.
  assert (Hzero : forall p n, table_wf p n -> keeps p p (fun b =>
    n b + leases ((fun a => ResetAdmitted a reset) <$> []) b)).
  { intros p1 n1 H1. eapply keeps_same; [done|done|]. intros b. cbn. rewrite leases_nil. lia. }
  revert p n room. induction entries as [|[id a] entries IH]; intros p n room Hw Hlive;
    cbn [admit_all]; [by eexists _, _; eauto|].
  destruct room as [|room]; [by eexists _, _; eauto|].
  destruct (Hlive (id, a)) as [c Hc]; [by left|]. cbn in Hc.
  rewrite (deref_Some _ _ _ Hc). cbn [mbind res_bind].
  destruct (negb (ch_closing c) && _) eqn:E.
  - apply andb_prop in E as [Hcl Hr]. apply negb_true_iff in Hcl.
    pose proof (keeps_admit p n a c Hw Hc Hcl ltac:(lia)) as [Hk Hi].
    edestruct (IH _ _ room Hk) as (p' & cs & -> & [Hk' Hi']).
    { intros e He. cbn [store set_heap set_table pe_heap].
      destruct (decide (e.2 = a)) as [->|Hne]; [by rewrite lookup_insert_eq|].
      rewrite lookup_insert_ne by done. apply Hlive. by right. }
    cbn [mbind res_bind]. eexists _, _. split; [done|]. split.
    + eapply table_wf_ext; [done|done|]. intros b. cbn -[leases].
      rewrite leases_cons, (lease_same _ a) by done. lia.
    + eapply ids_stable_trans; [done..|]. intros b Hb. cbn [store set_heap set_table pe_heap].
      destruct (decide (b = a)) as [->|Hne]; [by rewrite lookup_insert_eq|].
      by rewrite lookup_insert_ne by done.
  - apply (IH p n (S room) Hw). intros e He. apply Hlive. by right.
Qed.

Lemma publish_ok p n sid a c map_ok :
  table_wf p n -> pe_heap p !! a = None -> ch_id c = sid -> channel_wf c ->
  let '(p', fs) := publish_section p sid a c map_ok in
  keeps p p' (fun b => n b + leases fs b) /\ Forall (frame_names p') fs.
Proof.
  intros Hw Ha <- Hwf. unfold publish_section.
  assert (Hzero : forall p', same_table p p' -> keeps p p' (fun b => n b + leases [] b)).
  { intros p' Hs. eapply keeps_same; [done|done|]. intros b. rewrite leases_nil. lia. }
  destruct (_ && _) eqn:E; [|split; [by apply Hzero|done]].
  apply andb_prop in E as [E _]. apply andb_prop in E as [_ E].
  apply negb_true_iff, bool_decide_eq_false in E.
  destruct map_ok; [|split; [|done]].
  - pose proof (tw_live _ _ Hw a Ha) as Hz.
    set (c' := set_channel c false false false 1). split.
    + split.
      * change (ch_id c) with (ch_id c') at 1 2.
        apply (table_wf_publish p n _ a c'); try done.
        -- apply (channel_wf_set c); done.
        -- cbn [ch_callback_refs c' set_channel]. rewrite leases_cons, leases_nil, (lease_same _ a), decide_True by done. lia.
        -- rewrite leases_cons, leases_nil, (lease_same _ a), decide_True by done. unfold UINT32_MAX. lia.
        -- intros b Hne. rewrite leases_cons, leases_nil, (lease_same _ a), decide_False by done. lia.
      * intros b d d' H1 H2. cbn [set_table pe_heap] in H2.
        apply lookup_insert_Some in H2 as [[<- _]|[_ H2]]; congruence.
    + constructor; [|done]. intros d. cbn [set_table pe_heap].
      rewrite lookup_insert_eq. by intros [= <-].
  - apply Hzero. split_and!; [done| |done]. cbn. by rewrite difference_fresh.
Qed.

(** A call adds the leases of the frames it leaves. *)
Definition call_keeps (p : turbo_dc_peer_s) (n : positive -> Z)
    (r : res (turbo_dc_peer_s * list dc_event * list frame)) : Prop :=
  exists p' evs more, r = Ok (p', evs, more) /\
    keeps p p' (fun b => n b + leases more b) /\ Forall (frame_names p') more.

Lemma call_keeps_none p n p' evs :
  keeps p p' n -> call_keeps p n (Ok (p', evs, [])).
Proof.
  intros [Hk Hi]. eexists _, _, _. split; [done|]. split; [|done].
  split; [|done]. eapply table_wf_ext; [done|done|]. intros b. rewrite leases_nil. lia.
Qed.

Lemma call_keeps_same p n p' evs :
  table_wf p n -> same_table p p' -> call_keeps p n (Ok (p', evs, [])).
Proof. intros Hw Hs. apply call_keeps_none. by eapply keeps_same. Qed.

(** A frame for the channel that was admitted, if one was. *)
Lemma call_keeps_admit p n sid (mk : positive -> frame) :
  table_wf p n -> (forall a, frame_channel (mk a) = a) ->
  (forall p a, frame_names p (mk a)) ->
  call_keeps p n (frames_of ('(p, r) ← dc_channel_admit p sid;
    Ok (p, match r with Some a => [mk a] | None => [] end))).
Proof.
  intros Hw Hmk Hnames. destruct (admit_ok p n sid Hw) as (p' & r & -> & [Hk Hi]).
  cbn [mbind res_bind frames_of]. eexists _, _, _. split; [done|]. split.
  - split; [|done]. eapply table_wf_ext; [done|done|]. intros b.
    destruct r as [a|]; [rewrite leases_cons, (lease_same _ a) by done|]; rewrite leases_nil;
      repeat case_decide; congruence || lia.
  - destruct r; repeat constructor. apply Hnames.
Qed.

Lemma open_impl_ok env p n a c :
  table_wf p n -> pe_heap p !! a = Some c ->
  exists p' r evs, dc_channel_open_owner_impl env p a = Ok (p', r, evs) /\ keeps p p' n.
Proof.
  intros Hw Hc. unfold dc_channel_open_owner_impl, dcep_send_open.
  rewrite (deref_Some _ _ _ Hc). cbn [mbind res_bind].
  assert (Hs : forall p', same_table p p' -> keeps p p' n) by (intros; by eapply keeps_same).
  destruct (ch_is_open c) eqn:Ho; [eexists _, _, _; split; [done|by apply Hs]|].
  destruct (negb _); [eexists _, _, _; split; [done|by apply Hs]|].
  destruct (ch_dcep_sent c); [eexists _, _, _; split; [done|by apply Hs]|].
  destruct (negb (pe_socket p)); [eexists _, _, _; split; [done|by apply Hs]|].
  assert (no_fault (dcep_open_packet c)) as Hnf by apply dcep_open_packet_no_fault.
  destruct (dcep_open_packet c) as [packet| |]; [|eexists _, _, _; split; [done|by apply Hs]|done].
  destruct (negb _); [eexists _, _, _; split; [done|by apply Hs]|].
  cbn [mbind res_bind]. eexists _, _, _. split; [done|].
  destruct (ch_closing c) eqn:Hcl; [|by eapply keeps_update].
  destruct (tw_closing _ _ Hw _ _ Hc Hcl) as [Hn _].
  pose proof (tw_bound _ _ Hw _ _ Hc) as Hb. split.
  - apply (table_wf_store p n n a c); try done; rewrite ?Hcl in *; try done.
    + apply (channel_wf_set c); [by apply (tw_channel _ _ Hw a)|done..].
    + cbn. by apply (tw_refs _ _ Hw).
  - by eapply (ids_stable_insert _ _ a).
Qed.

Lemma send_impl_ok env p n a c data bin :
  table_wf p n -> pe_heap p !! a = Some c ->
  exists p' r evs, dc_channel_send_owner_impl env p a data bin = Ok (p', r, evs) /\
    same_table p p'.
Proof.
  intros Hw Hc. unfold dc_channel_send_owner_impl.
  rewrite (deref_Some _ _ _ Hc). cbn [mbind res_bind].
  repeat case_match; by eexists _, _, _.
Qed.

Lemma callback_task_ok p n a c update :
  table_wf p n -> pe_heap p !! a = Some c ->
  (exists u o m cl, update c = set_callbacks c u o m cl) ->
  call_keeps p n (no_events (dc_channel_callback_task p a update)).
Proof.
  intros Hw Hc (u & o & m & cl & Hu). unfold dc_channel_callback_task.
  rewrite (deref_Some _ _ _ Hc). cbn [mbind res_bind no_events].
  destruct (ch_closing c) eqn:Hcl; [by apply call_keeps_same|].
  apply call_keeps_none. rewrite Hu. by eapply keeps_update.
Qed.

Lemma notify_same p new : same_table p (dc_notify_state p new).1.
Proof. unfold dc_notify_state. by case_match. Qed.

Lemma fail_same p code : same_table p (dc_fail_peer p code).1.
Proof. unfold dc_fail_peer. by case_match. Qed.

Lemma same_table_trans p1 p2 p3 : same_table p1 p2 -> same_table p2 p3 -> same_table p1 p3.
Proof. intros (A1 & A2 & A3) (B1 & B2 & B3). split_and!; congruence. Qed.

Lemma close_impl_same p : same_table p (dc_peer_close_impl p).1.
Proof.
  unfold dc_peer_close_impl. case_match; [done|].
  pose proof (notify_same p STATE_DISCONNECTING) as H1.
  destruct (dc_notify_state p STATE_DISCONNECTING) as [p1 e1].
  pose proof (notify_same (close_socket p1) STATE_CLOSED) as H2.
  destruct (dc_notify_state (close_socket p1) STATE_CLOSED) as [p2 e2].
  by eapply same_table_trans.
Qed.

Lemma incoming_wf is_server sid data c :
  is_u16 sid -> incoming_ok is_server sid data c -> channel_wf c /\ ch_id c = sid.
Proof.
  intros Hs H. rewrite (in_fresh _ _ _ _ H). split; [|done].
  split; cbn; [done|split|split|]; by eapply H.
Qed.

Lemma handle_message_ok p n sid data a mem map_ok :
  table_wf p n -> pe_heap p !! a = None -> is_u16 sid -> bytes data ->
  call_keeps p n (frames_of (dcep_handle_message p sid data a mem map_ok)).
Proof.
  intros Hw Ha Hs Hb. unfold dcep_handle_message.
  destruct (len data <? 1) eqn:E1; [by apply call_keeps_same|].
  destruct (rd_in_range data 0) as [type ->]; [lia|]. cbn [mbind res_bind].
  destruct ((type =? DCEP_DATA_CHANNEL_OPEN) && _) eqn:E2;
    [|destruct ((type =? DCEP_DATA_CHANNEL_ACK) && _); [|by apply call_keeps_same]].
  - apply andb_prop in E2 as [_ E2]. unfold DCEP_HEADER_LENGTH in E2.
    destruct (dcep_open_channel_sound (pe_is_dtls_server p) sid data mem Hb)
      as [->|(c & -> & Hin)]; [lia|by apply call_keeps_same|].
    destruct (incoming_wf _ _ _ _ Hs Hin) as [Hwf Hid].
    pose proof (publish_ok p n sid a c map_ok Hw Ha Hid Hwf) as Hp.
    destruct (publish_section p sid a c map_ok) as [p' fs]. destruct Hp as [Hk Hf].
    by eexists _, _, _.
  - by apply (call_keeps_admit p n sid AckAdmitted).
Qed.

Lemma reset_all_ok p n capacity ok reset :
  table_wf p n ->
  call_keeps p n (frames_of (dc_channel_handle_all_streams_reset p capacity ok reset)).
Proof.
  intros Hw. unfold dc_channel_handle_all_streams_reset.
  destruct (capacity =? 0)%nat; [by apply call_keeps_same|].
  destruct ok; cbn [negb]; [|by apply call_keeps_same].
  destruct (admit_all_ok p n (map_to_list (pe_channels p)) capacity reset Hw)
    as (p' & cs & -> & Hk).
  { intros [id a] He. apply elem_of_map_to_list, (tw_published _ _ Hw) in He as (c & Hc & _).
    by exists c. }
  cbn [mbind res_bind frames_of]. eexists _, _, _. split; [done|]. split; [done|].
  apply Forall_fmap, Forall_true. done.
Qed.

(** Every call that names a live channel and gets unused memory runs, and keeps
    the invariant. *)
Lemma dc_call_ok env p n call :
  table_wf p n -> call_ok p call -> call_keeps p n (dc_call_run env p call).
Proof.
  intros Hw [Hlive Hfresh Hsid Hlab]. unfold dc_call_run.
  destruct (pe_destroying p); [by apply call_keeps_same|].
  destruct call as [label config mem|a|a data bin|a|a cb|a cb|a cb|a ud|c s e|srv| |st|code
    |sid data a mem map_ok|sid data bin|sid r|cap ok r]; cbn [call_channel call_fresh] in *;
    try (destruct (Hlive a eq_refl) as [c Hc]); try (apply (callback_task_ok _ _ a c);
      [done|done|by eexists _, _, _, _]); try by apply call_keeps_same.
  - destruct (Hlab _ _ _ eq_refl) as [Hl Hp].
    destruct (create_ok p n label config mem Hw Hfresh Hl Hp) as (p' & r & -> & Hk).
    by apply call_keeps_none.
  - destruct (open_impl_ok env p n a c Hw Hc) as (p' & r & evs & -> & Hk).
    by apply call_keeps_none.
  - destruct (send_impl_ok env p n a c data bin Hw Hc) as (p' & r & evs & -> & Hs).
    by apply call_keeps_same.
  - destruct (close_section_ok p n a true c Hw Hc) as (p' & fs & -> & Hk & Hf & _).
    by eexists _, _, _.
  - apply call_keeps_same; [done|]. unfold dc_peer_set_role. by case_match.
  - apply call_keeps_same; [done|]. apply close_impl_same.
  - apply call_keeps_same; [done|]. apply notify_same.
  - apply call_keeps_same; [done|]. apply fail_same.
  - destruct (Hsid _ _ _ _ _ eq_refl). by apply handle_message_ok; [|apply Hfresh|..].
  - by apply (call_keeps_admit p n sid (fun a => MessageAdmitted a data bin)).
  - by apply (call_keeps_admit p n sid (fun a => ResetAdmitted a r)).
  - by apply reset_all_ok.
Qed.

(** The loop of the destruction frees exactly the channels of its entries. *)
Lemma free_channels_spec p entries :
  NoDup entries.*2 -> (forall e, e ∈ entries -> is_Some (pe_heap p !! e.2)) ->
  exists p', free_channels p entries = Ok p' /\
    (forall id, pe_channels p' !! id = if decide (id ∈ entries.*1) then None else pe_channels p !! id) /\
    (forall a, pe_heap p' !! a = if decide (a ∈ entries.*2) then None else pe_heap p !! a).
Proof.
  revert p. induction entries as [|[id a] entries IH]; intros p Hnd Hlive; cbn [free_channels].
  - exists p. split; [done|]. split; intros; by rewrite decide_False by (apply not_elem_of_nil).
  - cbn in Hnd. apply NoDup_cons in Hnd as [Hna Hnd].
    destruct (Hlive (id, a)) as [c Hc]; [by left|]. cbn in Hc.
    rewrite (deref_Some _ _ _ Hc). cbn [mbind res_bind].
    edestruct (IH (set_table p (delete id (pe_channels p)) (pe_channel_ids p)
      (delete a (pe_heap p)))) as (p' & -> & H1 & H2); [done| |].
    { intros e He. cbn [set_table pe_heap]. rewrite lookup_delete_ne; [by apply Hlive; right|].
      intros ->. apply Hna. apply list_elem_of_fmap. by exists e. }
    exists p'. split; [done|]. cbn [set_table pe_channels pe_heap] in H1, H2. split.
    + intros i. rewrite H1. cbn. destruct (decide (i ∈ entries.*1)).
      { by rewrite decide_True by (by right). }
      destruct (decide (i = id)) as [->|Hne].
      { rewrite decide_True by (by left). apply lookup_delete_eq. }
      rewrite decide_False by (rewrite elem_of_cons; tauto). by rewrite lookup_delete_ne by done.
    + intros b. rewrite H2. cbn. destruct (decide (b ∈ entries.*2)).
      { by rewrite decide_True by (by right). }
      destruct (decide (b = a)) as [->|Hne].
      { rewrite decide_True by (by left). apply lookup_delete_eq. }
      rewrite decide_False by (rewrite elem_of_cons; tauto). by rewrite lookup_delete_ne by done.
Qed.

Lemma quiet_published p :
  table_wf p (leases []) -> forall a c, pe_heap p !! a = Some c ->
  ch_closing c = false /\ ch_callback_refs c = 0 /\ pe_channels p !! ch_id c = Some a.
Proof.
  intros Hw a c Hc. assert (Hcl : ch_closing c = false).
  { destruct (ch_closing c) eqn:E; [|done].
    destruct (tw_closing _ _ Hw _ _ Hc E) as [H _]. by rewrite leases_nil in H. }
  split_and!; [done|by rewrite (tw_refs _ _ Hw _ _ Hc)|].
  apply (tw_published _ _ Hw). by exists c.
Qed.

Lemma published_once p n : table_wf p n -> NoDup (map_to_list (pe_channels p)).*2.
Proof.
  intros Hw. apply NoDup_fmap_2_strong; [|apply NoDup_map_to_list].
  intros [i a] [j b] Hi Hj E. cbn in E. subst b.
  apply elem_of_map_to_list, (tw_published _ _ Hw) in Hi as (c & Hc & <- & _).
  apply elem_of_map_to_list, (tw_published _ _ Hw) in Hj as (d & Hd & <- & _). congruence.
Qed.

Lemma destroy_resources_ok p :
  table_wf p (leases []) ->
  exists p' evs, dc_peer_destroy_resources p = Ok (p', evs) /\
    pe_heap p' = ∅ /\ pe_channels p' = ∅ /\ pe_channel_ids p' = ∅ /\ pe_socket p' = false.
Proof.
  intros Hw. unfold dc_peer_destroy_resources.
  pose proof (close_impl_same p) as Hs. destruct (dc_peer_close_impl p) as [p1 evs]. cbn in Hs.
  assert (Hw1 : table_wf p1 (leases [])) by by eapply table_wf_ext.
  assert (Hlive : forall e, e ∈ map_to_list (pe_channels p1) ->
    is_Some (pe_heap (close_socket p1) !! e.2)).
  { intros [id a] He. apply elem_of_map_to_list, (tw_published _ _ Hw1) in He as (c & Hc & _).
    by exists c. }
  destruct (free_channels_spec (close_socket p1) (map_to_list (pe_channels p1))
    (published_once _ _ Hw1) Hlive) as (p2 & E & H1 & H2).
  rewrite E. cbn [mbind res_bind]. eexists _, _. split; [done|].
  assert (Hsock : pe_socket p2 = false).
  { clear -E. assert (pe_socket (close_socket p1) = false) as Hf by done.
    revert E Hf. generalize (close_socket p1) as q, (map_to_list (pe_channels p1)) as l.
    intros q l. revert q. induction l as [|[i a] l IH]; intros q; cbn [free_channels].
    - by intros [= ->].
    - destruct (deref q a); cbn [mbind res_bind]; [|done..]. intros E Hf. by apply (IH _ E). }
  split_and!; [| |done|done]; apply map_empty; cbn [set_table pe_heap pe_channels].
  - intros a. rewrite H2. case_decide as Hd; [done|].
    destruct (pe_heap (close_socket p1) !! a) as [c|] eqn:Hc; [|done]. destruct Hd.
    destruct (quiet_published _ Hw1 a c Hc) as (_ & _ & Hp).
    apply list_elem_of_fmap. exists (ch_id c, a). split; [done|]. by apply elem_of_map_to_list.
  - intros id. rewrite H1. case_decide as Hd; [done|].
    change (pe_channels (close_socket p1)) with (pe_channels p1).
    destruct (pe_channels p1 !! id) as [a|] eqn:Ha; [|done]. destruct Hd.
    apply list_elem_of_fmap. exists (id, a). split; [done|]. by apply elem_of_map_to_list.
Qed.

Lemma empty_wf p n :
  pe_heap p = ∅ -> pe_channels p = ∅ -> pe_channel_ids p = ∅ -> (forall a, n a = 0) ->
  table_wf p n.
Proof.
  intros E1 E2 E3 Hn. split; rewrite ?E1, ?E2, ?E3; try done.
  - intros id a. rewrite lookup_empty. split; [done|]. by intros (c & H & _).
  - intros id. split; [set_solver|]. by intros (a & c & H & _).
Qed.

(* ------------------------------------------------------------------ *)
(** ** Reachable states *)

(** The table and the streams the frames name. *)
Definition sys_wf (s : sys) : Prop := dc_wf s /\ Forall (frame_names s.1) s.2.

Lemma frame_names_stable p p' n fs :
  table_wf p n -> (forall f, f ∈ fs -> 0 < n (frame_channel f)) ->
  ids_stable p p' -> Forall (frame_names p) fs -> Forall (frame_names p') fs.
Proof.
  intros Hw Hn Hi. rewrite !Forall_forall. intros H f Hf.
  specialize (H f Hf). specialize (Hn f Hf).
  destruct (leased_live _ _ _ Hw Hn) as [c Hc].
  destruct f; try done; intros c' Hc'; cbn in *; rewrite (Hi _ _ _ Hc Hc'); by apply H.
Qed.

Lemma leases_elem f fs : f ∈ fs -> 0 < leases fs (frame_channel f).
Proof.
  intros (fs1 & fs2 & ->)%list_elem_of_split. rewrite leases_app, leases_cons.
  pose proof (leases_nonneg fs1 (frame_channel f)).
  pose proof (leases_nonneg fs2 (frame_channel f)).
  rewrite (lease_same _ (frame_channel f)), decide_True by done. lia.
Qed.

Lemma frame_step_wf env p fs1 f fs2 :
  sys_wf (p, fs1 ++ f :: fs2) ->
  exists p' evs more, frame_run env p f = Ok (p', evs, more) /\
    sys_wf (p', more ++ fs1 ++ fs2) /\ (rank more < frame_rank f)%nat.
Proof.
  intros [Hw Hn]. unfold dc_wf in Hw. cbn [fst snd] in *.
  assert (Hf : f ∈ fs1 ++ f :: fs2) by (apply elem_of_app; right; by left).
  destruct (frame_run_ok env p _ f Hw) as (p' & evs & more & E & [Hk Hm Hr]);
    [by rewrite Forall_forall in Hn; apply Hn|by apply leases_elem|].
  exists p', evs, more. split; [done|]. split; [|done]. destruct Hk as [Hk Hi]. split.
  - unfold dc_wf. cbn [fst snd]. eapply table_wf_ext; [done|done|]. intros b.
    rewrite !leases_app, leases_cons. lia.
  - cbn [fst snd]. apply Forall_app_2; [done|].
    eapply frame_names_stable; [exact Hw| |done|].
    + intros g Hg. apply leases_elem. set_solver.
    + apply Forall_app in Hn as [? [_ ?]%Forall_cons]. by apply Forall_app_2.
Qed.

Lemma dc_step_wf env s evs s' : dc_step env s evs s' -> sys_wf s -> sys_wf s'.
Proof.
  intros Hstep Hs. destruct Hstep as [p fs call p' evs more Hok E|p fs1 f fs2 p' evs more E
    |p fs own|p p' evs Hd E].
  - destruct Hs as [Hw Hn]. unfold dc_wf in Hw. cbn [fst snd] in *.
    destruct (dc_call_ok env p _ call Hw Hok) as (q & e & m & E' & [Hk Hi] & Hm).
    rewrite E in E'. injection E' as <- <- <-. split; cbn [fst snd].
    + eapply table_wf_ext; [done|done|]. intros b. cbn. rewrite leases_app. lia.
    + apply Forall_app_2; [done|]. eapply frame_names_stable; [exact Hw| |done|done].
      intros f Hf. by apply leases_elem.
  - destruct (frame_step_wf env p fs1 f fs2 Hs) as (q & e & m & E' & Hs' & _).
    rewrite E in E'. by injection E' as <- <- <-.
  - unfold dc_peer_begin_destroy. case_match; [done|]. destruct Hs as [Hw Hn].
    split; [|exact Hn]. by eapply table_wf_ext.
  - destruct Hs as [Hw _]. destruct (destroy_resources_ok p Hw) as (q & e & E' & H1 & H2 & H3 & _).
    rewrite E in E'. injection E' as <- <-. split; [|done]. by apply empty_wf.
Qed.

Lemma dc_reachable_wf env is_server disable ud s :
  dc_reachable env (turbo_dc_peer_create is_server disable ud) s -> sys_wf s.
Proof.
  intros H. unfold dc_reachable in H.
  set (s0 := (turbo_dc_peer_create is_server disable ud, [])) in H.
  assert (H0 : sys_wf s0) by (split; [by apply empty_wf|done]).
  clearbody s0. induction H as [|s1 s2 s3 [evs Hstep] _ IH]; [done|].
  apply IH. by eapply dc_step_wf.
Qed.

(** Running what is left of the operations under way, in any order. *)
Inductive frame_step (env : sctp_env) : sys -> sys -> Prop :=
  | frame_step_run p fs1 f fs2 p' evs more :
      frame_run env p f = Ok (p', evs, more) ->
      frame_step env (p, fs1 ++ f :: fs2) (p', more ++ fs1 ++ fs2).

Lemma rank_app fs1 fs2 : rank (fs1 ++ fs2) = (rank fs1 + rank fs2)%nat.
Proof. apply sum_list_with_app. Qed.

Lemma frame_step_progress env s s' :
  frame_step env s s' -> sys_wf s -> sys_wf s' /\ (rank s'.2 < rank s.2)%nat.
Proof.
  intros [p fs1 f fs2 p' evs more E] Hs.
  destruct (frame_step_wf env p fs1 f fs2 Hs) as (q & e & m & E' & Hs' & Hr).
  rewrite E in E'. injection E' as <- <- <-. split; [done|]. cbn [snd].
  rewrite !rank_app. cbn. unfold rank in *. lia.
Qed.

Lemma frame_steps_progress env k s s' :
  nsteps (frame_step env) k s s' -> sys_wf s -> sys_wf s' /\ (k + rank s'.2 <= rank s.2)%nat.
Proof.
  induction 1 as [s|k s1 s2 s3 H1 _ IH]; intros Hs; [split; [done|lia]|].
  destruct (frame_step_progress _ _ _ H1 Hs) as [Hs2 Hr].
  destruct (IH Hs2) as [Hs3 Hr']. split; [done|lia].
Qed.

Lemma frame_step_ready env s :
  sys_wf s -> s.2 = [] \/ exists s', frame_step env s s'.
Proof.
  destruct s as [p [|f fs]]; [by left|]. intros Hs. right.
  destruct (frame_step_wf env p [] f fs Hs) as (p' & evs & more & E & _).
  exists (p', more ++ [] ++ fs). by apply (frame_step_run env p [] f fs p' evs more).
Qed.

(* ------------------------------------------------------------------ *)
(** ** Sequential runs *)

(** One frame of an uninterrupted operation. *)
Lemma run_frames_cons fuel env p f fs p' evs more r :
  frame_run env p f = Ok (p', evs, more) ->
  run_frames fuel env p' (more ++ fs) = Ok r ->
  run_frames (S fuel) env p (f :: fs) = Ok (r.1, evs ++ r.2).
Proof.
  intros E1 E2. cbn [run_frames]. rewrite E1. cbn [mbind res_bind]. rewrite E2. by destruct r.
Qed.

Lemma deref_store p a c : deref (store p a c) a = Ok c.
Proof. apply deref_Some. cbn [store set_heap set_table pe_heap]. apply lookup_insert_eq. Qed.

Lemma store_store p a c c' : store (store p a c) a c' = store p a c'.
Proof. unfold store, set_heap, set_table. cbn. by rewrite insert_insert_eq. Qed.

(** An open channel between two operations. *)
Definition opened (c : turbo_dc_channel_s) : turbo_dc_channel_s :=
  set_channel c true (ch_dcep_sent c) false 0.

Definition published (p : turbo_dc_peer_s) (sid : Z) (a : positive)
    (c : turbo_dc_channel_s) : turbo_dc_peer_s :=
  set_table p (<[sid := a]> (pe_channels p)) ({[ sid ]} ∪ pe_channel_ids p)
    (<[a := c]> (pe_heap p)).

Lemma published_store p sid a c c' : store (published p sid a c) a c' = published p sid a c'.
Proof. unfold store, published, set_heap, set_table. cbn. by rewrite insert_insert_eq. Qed.

Lemma deref_published p sid a c : deref (published p sid a c) a = Ok c.
Proof. apply deref_Some. cbn. apply lookup_insert_eq. Qed.

(** A peer that can take an incoming channel. *)
Record can_accept (p : turbo_dc_peer_s) (sid : Z) : Prop := {
  ca_alive : pe_destroying p = false;
  ca_socket : pe_socket p = true;
  ca_id : sid ∉ pe_channel_ids p;
  ca_map : pe_channels p !! sid = None;
}.

Lemma publish_accepts p sid a c :
  can_accept p sid ->
  publish_section p sid a c true =
  (published p sid a (set_channel c false false false 1), [OpenAck a sid]).
Proof.
  intros []. unfold publish_section, peer_get_channel.
  rewrite ca_alive0, ca_map0, !bool_decide_false, bool_decide_true by done. done.
Qed.

(** The rest of an accepted OPEN once its ACK is out. *)
Lemma run_open_accepted env p sid b label proto config :
  pe_destroying p = false -> pe_socket p = true -> 0 < env_sendv env [DCEP_DATA_CHANNEL_ACK] ->
  let c := channel_of sid label proto config in
  run_frames 4 env (published p sid b (set_channel c false false false 1)) [OpenAck b sid] =
  Ok (published p sid b (opened c),
      EvSend sid SCTP_PPID_DCEP true None [DCEP_DATA_CHANNEL_ACK] ::
      callback (pe_on_channel p) (fun cb => EvOnChannel cb b)).
Proof.
  intros Hd Hs Hack c. unfold c, opened. set (p1 := published _ _ _ _).
  assert (E1 : frame_run env p1 (OpenAck b sid) =
    Ok (p1, [EvSend sid SCTP_PPID_DCEP true None [DCEP_DATA_CHANNEL_ACK]], [OpenAdmitted b])).
  { cbn [frame_run]. unfold dcep_send_ack. cbn [p1 published set_table pe_socket].
    rewrite Hs. cbn [negb]. by test (0 <? env_sendv env [DCEP_DATA_CHANNEL_ACK]) true. }
  eapply eq_trans; [eapply run_frames_cons; [exact E1|]|].
  - eapply run_frames_cons; [cbn [frame_run]; unfold p1; rewrite deref_published;
      cbn [mbind res_bind ch_closing set_channel published set_table pe_destroying negb];
      rewrite Hd; cbn [negb andb]; rewrite published_store; reflexivity|].
    eapply run_frames_cons; [cbn [frame_run]; rewrite deref_published; reflexivity|].
    eapply run_frames_cons; [cbn [frame_run]; unfold dc_channel_release;
      rewrite deref_published; cbn [mbind res_bind ch_closing set_channel andb];
      rewrite published_store; reflexivity|]. reflexivity.
  - cbn -[published]. unfold p1, published. cbn [set_table pe_on_channel pe_destroying].
    rewrite Hd. cbn. by rewrite app_nil_r.
Qed.

(** The rest of an OPEN whose ACK SCTP does not take: the table is as before. *)
Lemma run_open_rejected env p sid b label proto config :
  can_accept p sid -> pe_heap p !! b = None ->
  env_sendv env [DCEP_DATA_CHANNEL_ACK] <= 0 ->
  let c := channel_of sid label proto config in
  exists p', run_frames 3 env (published p sid b (set_channel c false false false 1)) [OpenAck b sid] =
    Ok (p', [EvSend sid SCTP_PPID_DCEP true None [DCEP_DATA_CHANNEL_ACK]; EvReset sid]) /\
    same_table p p' /\ pe_last_error p' = Some ERROR_DCEP_SEND_ACK.
Proof.
  intros [] Hb Hack c. set (c1 := set_channel c false false false 1). set (p1 := published p sid b c1).
  set (c2 := set_channel c1 false false true 1).
  set (p2 := set_table p1 (pe_channels p) (pe_channel_ids p1) (<[b := c2]> (pe_heap p1))).
  assert (Hroll : rollback_section p1 b sid = Ok (p2, true)).
  { unfold rollback_section, p1. rewrite deref_published. cbn [mbind res_bind ch_closing c1 set_channel].
    unfold unpublish, peer_get_channel. cbn [published set_table pe_channels pe_destroying pe_socket].
    rewrite lookup_insert_eq, bool_decide_true by done. rewrite delete_insert_id by done.
    rewrite ca_alive0, ca_socket0. done. }
  set (p3 := if env_reset env sid =? 0 then p2 else set_error ERROR_SCTP_SEND p2).
  assert (Hd : deref p3 b = Ok c2).
  { apply deref_Some. unfold p3. case_match; cbn; apply lookup_insert_eq. }
  eexists. split.
  - eapply eq_trans; [eapply (run_frames_cons _ _ _ _ _ p1 _ [OpenRejected b sid])|].
    + cbn [frame_run]. unfold dcep_send_ack, p1. cbn [published set_table pe_socket].
      rewrite ca_socket0. cbn [negb]. test (0 <? env_sendv env [DCEP_DATA_CHANNEL_ACK]) false.
      reflexivity.
    + eapply (run_frames_cons _ _ _ _ _ p3 [EvReset sid]).
      * cbn [frame_run]. rewrite Hroll. cbn [mbind res_bind]. unfold sctp_reset_channel_stream.
        cbn [p2 set_table pe_socket p1 published]. rewrite ca_socket0. cbn [negb]. reflexivity.
      * eapply run_frames_cons; [cbn [frame_run]; unfold dc_channel_release; rewrite Hd;
          cbn [mbind res_bind c2 c1 set_channel ch_callback_refs ch_closing]; reflexivity|].
        reflexivity.
    + reflexivity.
  - split; [|done]. unfold same_table. cbn [set_error set_table pe_channels pe_channel_ids pe_heap].
    unfold p3. assert (He : forall q, pe_channels (if env_reset env sid =? 0 then q else set_error ERROR_SCTP_SEND q) = pe_channels q /\
      pe_channel_ids (if env_reset env sid =? 0 then q else set_error ERROR_SCTP_SEND q) = pe_channel_ids q /\
      pe_heap (if env_reset env sid =? 0 then q else set_error ERROR_SCTP_SEND q) = pe_heap q)
      by (intros; by case_match).
    destruct (He p2) as (-> & -> & ->). cbn [p2 p1 published set_table pe_channels pe_channel_ids pe_heap].
    rewrite insert_insert_eq, delete_insert_id by done. cbn [c2 set_channel ch_id c1 c channel_of].
    by rewrite difference_fresh.
Qed.

(** An ACK on the stream of a channel whose OPEN was sent. *)
Lemma run_ack env p a c :
  pe_heap p !! a = Some c -> pe_channels p !! ch_id c = Some a ->
  pe_destroying p = false -> ch_closing c = false -> ch_is_open c = false ->
  ch_dcep_sent c = true -> ch_callback_refs c = 0 ->
  exists p1, dcep_handle_message p (ch_id c) [DCEP_DATA_CHANNEL_ACK] a mem_ok true =
      Ok (p1, [AckAdmitted a]) /\
    run_frames 2 env p1 [AckAdmitted a] =
      Ok (store p a (opened c), callback (ch_on_open c) (fun cb => EvOnOpen cb a)).
Proof.
  intros Hc Hm Hd Hcl Ho Hs Hr. set (c1 := set_channel c false true false 1).
  exists (store p a c1). split.
  - unfold dcep_handle_message. cbn -[dc_channel_admit]. unfold dc_channel_admit, peer_get_channel.
    rewrite Hd, Hm. cbn [negb]. rewrite (deref_Some _ _ _ Hc). cbn [mbind res_bind].
    rewrite Hcl, Hr, Ho, Hs. done.
  - eapply eq_trans; [eapply run_frames_cons; [cbn [frame_run]; rewrite deref_store;
      cbn [mbind res_bind c1 set_channel ch_closing ch_dcep_sent ch_is_open store set_heap
        set_table pe_destroying]; rewrite Hd; cbn [negb andb]; rewrite store_store; reflexivity|]|].
    + eapply run_frames_cons; [cbn [frame_run]; unfold dc_channel_release; rewrite deref_store;
        cbn [mbind res_bind ch_callback_refs ch_closing set_channel c1 andb];
        rewrite store_store; reflexivity|]. reflexivity.
    + cbn. unfold opened. rewrite Hs, app_nil_r. done.
Qed.

(* ------------------------------------------------------------------ *)
(** ** Properties *)

(** The channel table is consistent in every reachable state.  However
    application calls, received messages, callbacks and the destruction of the
    peer interleave: the map publishes exactly the channels that do not close,
    each under its own stream; a stream is marked in the bitmap exactly while
    some record uses it, closing ones included, and no two records share one;
    the reference count of a record is the number of operations that hold it,
    never overflows, and is positive while it closes; a closing channel is not
    open. *)
Theorem datachannel_table_invariant env is_server disable ud s :
  dc_reachable env (turbo_dc_peer_create is_server disable ud) s ->
  table_wf s.1 (leases s.2).
Proof. intros H. by destruct (dc_reachable_wf _ _ _ _ _ H). Qed.

(** C34: no operation uses a channel that has been freed.  In every reachable
    state any call on a channel that is allocated runs without touching freed
    memory, and so does every step of the operations under way, whatever closed
    their channel meanwhile; when none is under way, destroying the peer frees
    every channel exactly once. *)
Theorem datachannel_no_dangling env is_server disable ud s :
  dc_reachable env (turbo_dc_peer_create is_server disable ud) s ->
  (forall call, call_ok s.1 call -> no_fault (dc_call_run env s.1 call)) /\
  (forall f, f ∈ s.2 -> no_fault (frame_run env s.1 f)) /\
  (s.2 = [] -> exists p' evs, dc_peer_destroy_resources s.1 = Ok (p', evs) /\
     pe_heap p' = ∅ /\ pe_channels p' = ∅ /\ pe_channel_ids p' = ∅).
Proof.
  intros H. destruct (dc_reachable_wf _ _ _ _ _ H) as [Hw Hn]. unfold dc_wf in Hw.
  rewrite Forall_forall in Hn. split_and!.
  - intros call Hok. by destruct (dc_call_ok env _ _ call Hw Hok) as (p' & evs & more & -> & _).
  - intros f Hf. by destruct (frame_run_ok env _ _ f Hw (Hn f Hf) (leases_elem _ _ Hf))
      as (p' & evs & more & -> & _).
  - intros E. rewrite E in Hw.
    destruct (destroy_resources_ok _ Hw) as (p' & evs & ? & ? & ? & ? & _). by exists p', evs.
Qed.

(** C35: the operations under way always finish, and a closed channel is then
    reclaimed.  From any reachable state, running what is left in any order
    stops after at most [rank] steps and never before nothing is left; then
    every channel still allocated is published and unreferenced, and a stream
    is taken only by a published channel, so the streams of all the channels
    that were closing are free again. *)
Theorem datachannel_quiesces env is_server disable ud s k s' :
  dc_reachable env (turbo_dc_peer_create is_server disable ud) s ->
  nsteps (frame_step env) k s s' ->
  (k <= rank s.2)%nat /\
  (s'.2 <> [] -> exists s'', frame_step env s' s'') /\
  (s'.2 = [] ->
    (forall a c, pe_heap s'.1 !! a = Some c -> ch_closing c = false /\
       ch_callback_refs c = 0 /\ pe_channels s'.1 !! ch_id c = Some a) /\
    (forall id, id ∈ pe_channel_ids s'.1 <-> is_Some (pe_channels s'.1 !! id))).
Proof.
  intros H Hk. destruct (frame_steps_progress _ _ _ _ Hk (dc_reachable_wf _ _ _ _ _ H)) as [Hs Hr].
  split; [lia|]. split; [intros Hne; by destruct (frame_step_ready env s' Hs)|].
  intros E. destruct Hs as [Hw _]. unfold dc_wf in Hw. rewrite E in Hw.
  pose proof (quiet_published _ Hw) as Hq. split; [done|].
  intros id. rewrite (tw_ids _ _ Hw). split.
  - intros (a & c & Hc & <-). destruct (Hq a c Hc) as (_ & _ & Hp). by exists a.
  - intros [a Ha]. apply (tw_published _ _ Hw) in Ha as (c & Hc & Hi & _). by exists a, c.
Qed.

(** A channel its owner has created and not yet opened. *)
Record unopened (p : turbo_dc_peer_s) (a : positive) (c : turbo_dc_channel_s) : Prop := {
  un_heap : pe_heap p !! a = Some c;
  un_map : pe_channels p !! ch_id c = Some a;
  un_alive : pe_destroying p = false;
  un_socket : pe_socket p = true;
  un_state : pe_state p = STATE_CONNECTED;
  un_closing : ch_closing c = false;
  un_open : ch_is_open c = false;
  un_sent : ch_dcep_sent c = false;
  un_refs : ch_callback_refs c = 0;
}.

(** C36: the handshake opens the channel on both sides.  The owner's OPEN goes
    out on the channel's stream; the remote peer of the matching role, with the
    stream free, takes it, answers with an ACK and tells its application; the
    ACK opens the owner's record and calls its [on_open].  Both ends then have
    an open, unreferenced record on that stream, the remote one with the
    owner's label, protocol, order and limits. *)
Theorem dcep_handshake envA envB pA a c pB b :
  unopened pA a c -> channel_ok c ->
  utf8_text (text (ch_label c)) -> utf8_text (text (ch_protocol c)) ->
  (forall packet, env_sendv envA packet = len packet) ->
  can_accept pB (ch_id c) -> (Z.land (ch_id c) 1 =? 0) = truth (pe_is_dtls_server pB) ->
  0 < env_sendv envB [DCEP_DATA_CHANNEL_ACK] ->
  exists packet pA1 pB1 fsB pA2 fsA pA3,
    dc_channel_open_owner_impl envA pA a =
      Ok (pA1, 0, [EvSend (ch_id c) SCTP_PPID_DCEP true None packet]) /\
    dcep_handle_message pB (ch_id c) packet b mem_ok true = Ok (pB1, fsB) /\
    run_frames 4 envB pB1 fsB =
      Ok (published pB (ch_id c) b (opened (accepted_channel (ch_id c) c)),
          EvSend (ch_id c) SCTP_PPID_DCEP true None [DCEP_DATA_CHANNEL_ACK] ::
          callback (pe_on_channel pB) (fun cb => EvOnChannel cb b)) /\
    dcep_handle_message pA1 (ch_id c) [DCEP_DATA_CHANNEL_ACK] a mem_ok true = Ok (pA2, fsA) /\
    run_frames 2 envA pA2 fsA =
      Ok (pA3, callback (ch_on_open c) (fun cb => EvOnOpen cb a)) /\
    pe_heap pA3 !! a = Some (set_channel c true true false 0).
Proof.
  intros [] Hok Hl Hp Hsend Hacc Hrole Hack.
  destruct (dcep_open_roundtrip (pe_is_dtls_server pB) (ch_id c) c Hok Hl Hp)
    as (packet & Ep & Eh & Hlen & Eopen).
  rewrite Hrole, Bool.eqb_reflx in Eopen.
  set (cA := set_channel c false true false 0). set (pA1 := store pA a cA).
  destruct (run_ack envA pA1 a cA) as (pA2 & EA1 & EA2); try done;
    [by apply lookup_insert_eq|]. unfold pA1 in EA2. rewrite store_store in EA2.
  exists packet, pA1. do 2 eexists. exists pA2, [AckAdmitted a]. eexists.
  split; [|split; [|split; [|split; [exact EA1|split; [exact EA2|by apply lookup_insert_eq]]]]].
  - unfold dc_channel_open_owner_impl, dcep_send_open.
    rewrite (deref_Some _ _ _ un_heap0). cbn [mbind res_bind].
    rewrite un_open0, un_state0, un_sent0, un_socket0, bool_decide_true by done.
    cbn [negb]. rewrite Ep, Hsend, Z.eqb_refl, un_closing0, un_refs0. done.
  - unfold dcep_handle_message. unfold DCEP_HEADER_LENGTH in *. test (len packet <? 1) false.
    rewrite Eh. cbn [mbind res_bind]. rewrite Z.eqb_refl. test (12 <=? len packet) true.
    cbn [andb]. rewrite Eopen, publish_accepts by done. reflexivity.
  - by apply run_open_accepted; [apply Hacc|apply Hacc|].
Qed.

(** An incoming channel whose ACK cannot be sent leaves no trace.  If SCTP
    does not take the ACK, the stream is reset, the map, the bitmap and the
    records are exactly what they were, the error is recorded, and the
    application is not told of the channel. *)
Theorem dcep_rejected_open_rolls_back env p sid data b c :
  can_accept p sid -> pe_heap p !! b = None ->
  dcep_open_channel (pe_is_dtls_server p) sid data (len data) mem_ok = Ok c ->
  rd data 0 = Ok DCEP_DATA_CHANNEL_OPEN -> bytes data -> DCEP_HEADER_LENGTH <= len data ->
  env_sendv env [DCEP_DATA_CHANNEL_ACK] <= 0 ->
  exists p1 fs p2, dcep_handle_message p sid data b mem_ok true = Ok (p1, fs) /\
    run_frames 3 env p1 fs =
      Ok (p2, [EvSend sid SCTP_PPID_DCEP true None [DCEP_DATA_CHANNEL_ACK]; EvReset sid]) /\
    same_table p p2 /\ pe_last_error p2 = Some ERROR_DCEP_SEND_ACK.
Proof.
  intros Hacc Hb Ec Eh Hbytes Hlen Hack.
  destruct (dcep_open_channel_sound (pe_is_dtls_server p) sid data mem_ok Hbytes Hlen)
    as [E|(c' & E & Hin)]; rewrite Ec in E; [done|injection E as <-].
  pose proof (in_fresh _ _ _ _ Hin) as Ef.
  destruct (run_open_rejected env p sid b (ch_label c) (ch_protocol c) (ch_config c) Hacc Hb Hack)
    as (p2 & E2 & Hs & He). rewrite <- Ef in E2.
  exists (published p sid b (set_channel c false false false 1)), [OpenAck b sid], p2.
  split; [|done]. unfold dcep_handle_message. unfold DCEP_HEADER_LENGTH in *.
  test (len data <? 1) false. rewrite Eh. cbn [mbind res_bind]. rewrite Z.eqb_refl.
  test (12 <=? len data) true. cbn [andb]. by rewrite Ec, publish_accepts.
Qed.

(* ------------------------------------------------------------------ *)
(** ** Observations *)

(** Channels may be created before the role is set, and setting it does not
    renumber them: every channel keeps its stream while the peer's parity
    changes. *)
Lemma role_change_keeps_streams p is_server :
  pe_state p = STATE_NEW ->
  let p' := (dc_peer_set_role p is_server).1 in
  same_table p p' /\ truth (pe_is_dtls_server p') = truth is_server.
Proof.
  intros E. unfold dc_peer_set_role. rewrite bool_decide_true by done.
  split; [done|]. cbn. by destruct (truth is_server).
Qed.

(** The end of such a channel: created by a client as stream 0, opened once the
    peer has become the server, its OPEN is ignored by the remote client. *)
Definition ex_env : sctp_env := Build_sctp_env len (fun _ => 0).
Definition ex_create : dc_call :=
  CallCreate (Some [99; 104; 97; 116]) None (Build_create_mem (Some 1%positive) true true true).
Definition ex_client : turbo_dc_peer_s := turbo_dc_peer_create 0 false 0.
Definition ex_server : turbo_dc_peer_s := turbo_dc_peer_create 1 false 0.

Definition ex_stranded : res (turbo_dc_peer_s * list frame) :=
  '(p, _, _) ← dc_call_run ex_env ex_client ex_create;
  '(p, _, _) ← dc_call_run ex_env p (CallSetRole 1);
  '(p, _, _) ← dc_call_run ex_env p (RecvState STATE_CONNECTED);
  c ← deref p 1;
  packet ← dcep_open_packet c;
  dcep_handle_message ex_client (ch_id c) packet 1 mem_ok true.

Lemma role_change_strands_channel : ex_stranded = Ok (ex_client, []).
Proof. by vm_compute. Qed.

(* ------------------------------------------------------------------ *)
(** ** Witnesses *)

(** A server that has just published an incoming channel on stream 0. *)
Definition ex_open : list Z := [3; 129; 1; 0; 0; 0; 0; 2; 0; 4; 0; 0] ++ [99; 104; 97; 116].
Definition ex_incoming : turbo_dc_channel_s :=
  channel_of 0 (Some [99; 104; 97; 116]) None (Build_turbo_dc_channel_config_t 0 2 0 None).
Definition ex_state : sys :=
  (published ex_server 0 1 (set_channel ex_incoming false false false 1), [OpenAck 1 0]).

Lemma ex_reachable : dc_reachable ex_env ex_server ex_state.
Proof.
  apply rtc_once. exists [].
  apply (step_call ex_env ex_server [] (RecvDcep 0 ex_open 1 mem_ok true) _ _ [OpenAck 1 0]).
  - split; [done| |intros * [= <- <- _ _ _]|done].
    + intros a [= <-]. done.
    + split; [done|]. repeat constructor; done.
  - reflexivity.
Qed.

Lemma datachannel_table_invariant_witness :
  table_wf (published ex_server 0 1 (set_channel ex_incoming false false false 1))
    (leases [OpenAck 1 0]).
Proof. apply (datachannel_table_invariant ex_env 1 false 0 ex_state ex_reachable). Defined.

Lemma datachannel_no_dangling_witness :
  no_fault (dc_call_run ex_env ex_state.1 (CallClose 1)) /\
  no_fault (frame_run ex_env ex_state.1 (OpenAck 1 0)).
Proof.
  destruct (datachannel_no_dangling ex_env 1 false 0 ex_state ex_reachable) as (H1 & H2 & _).
  split; [apply H1; split; [|done..]|apply H2; by left].
  intros a [= <-]. by eexists.
Defined.

(** The channel is closed before its ACK went out. *)
Definition ex_closing : sys :=
  match dc_call_run ex_env ex_state.1 (CallClose 1) with
  | Ok (p, _, more) => (p, more ++ ex_state.2)
  | _ => ex_state
  end.

Lemma ex_closing_reachable : dc_reachable ex_env ex_server ex_closing.
Proof.
  eapply rtc_r; [exact ex_reachable|]. eexists.
  eapply (step_call ex_env _ _ (CallClose 1)); [|reflexivity].
  split; [|done..]. intros a [= <-]. by eexists.
Qed.

Lemma datachannel_quiesces_witness :
  (0 <= rank ex_closing.2)%nat /\ ex_closing.2 <> [] /\
  exists s'', frame_step ex_env ex_closing s''.
Proof.
  assert (Hne : ex_closing.2 <> []) by done.
  destruct (datachannel_quiesces ex_env 1 false 0 ex_closing 0 ex_closing
    ex_closing_reachable (nsteps_O _ _)) as (H1 & H2 & _).
  split; [exact H1|]. split; [exact Hne|exact (H2 Hne)].
Defined.

(** Its interleaving: close, then the rest of the OPEN; the record goes away
    with the last lease, after [on_close] and both stream answers. *)
Example ex_closing_run :
  match run_frames 10 ex_env ex_closing.1 ex_closing.2 with
  | Ok (p, evs) => pe_heap p = ∅ /\ pe_channel_ids p = ∅ /\
      evs = [EvReset 0; EvSend 0 SCTP_PPID_DCEP true None [DCEP_DATA_CHANNEL_ACK]]
  | _ => False
  end.
Proof. by vm_compute. Qed.

(** A connected client with one channel of its own. *)
Definition ex_owner_channel : turbo_dc_channel_s :=
  channel_of 0 (Some [99; 104; 97; 116]) None turbo_dc_default_channel_config.
Definition ex_owner : turbo_dc_peer_s :=
  set_state (published ex_client 0 1 ex_owner_channel) STATE_CONNECTED.

Lemma ex_chat_utf8 : utf8_text [99; 104; 97; 116].
Proof.
  exists [99; 104; 97; 116]. split; [|done]. repeat constructor; unfold scalar_value; lia.
Qed.

Lemma dcep_handshake_witness :
  exists packet pA1 pB1 fsB pA2 fsA pA3,
    dc_channel_open_owner_impl ex_env ex_owner 1 =
      Ok (pA1, 0, [EvSend 0 SCTP_PPID_DCEP true None packet]) /\
    dcep_handle_message ex_server 0 packet 1 mem_ok true = Ok (pB1, fsB) /\
    run_frames 4 ex_env pB1 fsB =
      Ok (published ex_server 0 1 (opened (accepted_channel 0 ex_owner_channel)),
          [EvSend 0 SCTP_PPID_DCEP true None [DCEP_DATA_CHANNEL_ACK]]) /\
    dcep_handle_message pA1 0 [DCEP_DATA_CHANNEL_ACK] 1 mem_ok true = Ok (pA2, fsA) /\
    run_frames 2 ex_env pA2 fsA = Ok (pA3, []) /\
    pe_heap pA3 !! 1%positive = Some (set_channel ex_owner_channel true true false 0).
Proof.
  apply (dcep_handshake ex_env ex_env ex_owner 1 ex_owner_channel ex_server 1).
  - by split.
  - split; cbn; unfold MAX_LABEL_LEN, MAX_PROTOCOL_LEN, INT_MAX, DCEP_HEADER_LENGTH,
      DCEP_MAX_PACKET_SIZE; (done || lia).
  - exact ex_chat_utf8.
  - by exists [].
  - done.
  - by split.
  - done.
  - done.
Defined.

Definition ex_broken_env : sctp_env := Build_sctp_env (fun _ => -1) (fun _ => 0).

Lemma dcep_rejected_open_rolls_back_witness :
  exists p1 fs p2, dcep_handle_message ex_server 0 ex_open 1 mem_ok true = Ok (p1, fs) /\
    run_frames 3 ex_broken_env p1 fs =
      Ok (p2, [EvSend 0 SCTP_PPID_DCEP true None [DCEP_DATA_CHANNEL_ACK]; EvReset 0]) /\
    same_table ex_server p2 /\ pe_last_error p2 = Some ERROR_DCEP_SEND_ACK.
Proof.
  apply (dcep_rejected_open_rolls_back ex_broken_env ex_server 0 ex_open 1 ex_incoming); try done.
  repeat constructor; done.
Defined.
