(* ===== verification/Sctp.v ===== *)
(** * Data channels: receiving from SCTP

    webrtc/src/sctp_session.c: the reassembly of partially delivered messages
    and the dispatch of what the SCTP library delivers, on top of the channel
    table of [DataChannel].  Notifications are taken decoded: their bytes are
    structures of the library.  A flag word is the booleans the code tests, and
    a payload protocol identifier is in host order. *)

From stdpp Require Import gmap.
From S2P Require Import Prelude Dcep DataChannel.

(* ------------------------------------------------------------------ *)
(** ** Reassembly slots *)

Definition SCTP_REASSEMBLY_MESSAGE_MAX : Z := 24576.
Definition SCTP_REASSEMBLY_SLOTS : nat := 8.

(** [sl_data] is the buffer ([NULL] or [SCTP_REASSEMBLY_MESSAGE_MAX] bytes), as
    far as it was written: its first [sl_length] bytes. *)
Record sctp_reassembly_slot_t := {
  sl_data : option (list Z);
  sl_length : Z;
  sl_stream_id : Z;
  sl_stream_sequence : Z;
  sl_ppid : Z;
  sl_association_id : Z;
  sl_unordered : bool;
  sl_discarding : bool;
  sl_used : bool;
}.

Definition empty_slot : sctp_reassembly_slot_t :=
  Build_sctp_reassembly_slot_t None 0 0 0 0 0 false false false.

Record sctp_reassembly := {
  re_slots : list sctp_reassembly_slot_t;
  re_blocked : bool;
}.

Definition reassembly_init : sctp_reassembly :=
  Build_sctp_reassembly (replicate SCTP_REASSEMBLY_SLOTS empty_slot) false.

(** The receive information of a delivery. *)
Record sctp_rcvinfo := {
  rcv_sid : Z;
  rcv_ssn : Z;
  rcv_ppid : Z;
  rcv_assoc_id : Z;
  rcv_unordered : bool;
}.

Inductive sctp_reassembly_result_t : Type :=
  | REASSEMBLY_PENDING
  | REASSEMBLY_READY (assembled : option (list Z)) (length : Z)
  | REASSEMBLY_REJECTED.

(** [sctp_reassembly_clear_all_locked]. *)
Definition sctp_reassembly_clear_all (r : sctp_reassembly) : sctp_reassembly :=
  Build_sctp_reassembly ((fun _ => empty_slot) <$> re_slots r) false.

Definition slot_of (s : sctp_reassembly_slot_t) (assoc sid : Z) : bool :=
  sl_used s && (sl_association_id s =? assoc) && (sl_stream_id s =? sid).

Definition sctp_reassembly_clear_identity (r : sctp_reassembly) (assoc sid ssn : Z)
    : sctp_reassembly :=
  Build_sctp_reassembly
    ((fun s => if slot_of s assoc sid && (sl_stream_sequence s =? ssn)
               then empty_slot else s) <$> re_slots r) (re_blocked r).

Definition sctp_reassembly_clear_stream (r : sctp_reassembly) (assoc sid : Z)
    : sctp_reassembly :=
  Build_sctp_reassembly
    ((fun s => if slot_of s assoc sid then empty_slot else s) <$> re_slots r)
    (re_blocked r).

Definition slot_matches (s : sctp_reassembly_slot_t) (rcv : sctp_rcvinfo) : bool :=
  (sl_association_id s =? rcv_assoc_id rcv) && (sl_stream_id s =? rcv_sid rcv) &&
  (sl_stream_sequence s =? rcv_ssn rcv) && Bool.eqb (sl_unordered s) (rcv_unordered rcv).

(** The scan: the matching slot, and the first free one before it. *)
Fixpoint find_slot (slots : list sctp_reassembly_slot_t) (rcv : sctp_rcvinfo) (i : nat)
    (free : option nat) : option nat * option nat :=
  match slots with
  | [] => (None, free)
  | s :: slots =>
    if negb (sl_used s) then
      find_slot slots rcv (S i) (match free with None => Some i | _ => free end)
    else if slot_matches s rcv then (Some i, free)
    else find_slot slots rcv (S i) free
  end.

Definition set_slot (r : sctp_reassembly) (i : nat) (s : sctp_reassembly_slot_t)
    : res sctp_reassembly :=
  slots ← upd (re_slots r) (Z.of_nat i) s; Ok (Build_sctp_reassembly slots (re_blocked r)).

Definition get_slot (r : sctp_reassembly) (i : nat) : res sctp_reassembly_slot_t :=
  rd (re_slots r) (Z.of_nat i).

Definition block (r : sctp_reassembly) : sctp_reassembly :=
  Build_sctp_reassembly (re_slots r) true.

(** A slot for the message of [rcv]. *)
Definition claimed (rcv : sctp_rcvinfo) (data : option (list Z)) (discarding : bool)
    : sctp_reassembly_slot_t :=
  Build_sctp_reassembly_slot_t data 0 (rcv_sid rcv) (rcv_ssn rcv) (rcv_ppid rcv)
    (rcv_assoc_id rcv) (rcv_unordered rcv) discarding true.

(** The buffer is freed and the rest of the message is to be discarded. *)
Definition discard (s : sctp_reassembly_slot_t) : sctp_reassembly_slot_t :=
  Build_sctp_reassembly_slot_t None 0 (sl_stream_id s) (sl_stream_sequence s)
    (sl_ppid s) (sl_association_id s) (sl_unordered s) true (sl_used s).

(** [memcpy] behind what the buffer holds. *)
Definition slot_append (s : sctp_reassembly_slot_t) (bytes : list Z)
    : res sctp_reassembly_slot_t :=
  let? data := sl_data s else Fault in
  if SCTP_REASSEMBLY_MESSAGE_MAX <? sl_length s + len bytes then Fault
  else Ok (Build_sctp_reassembly_slot_t (Some (data ++ bytes)) (sl_length s + len bytes)
             (sl_stream_id s) (sl_stream_sequence s) (sl_ppid s) (sl_association_id s)
             (sl_unordered s) (sl_discarding s) (sl_used s)).

(** An empty or oversized fragment. *)
Definition reject_fragment (r : sctp_reassembly) (rcv : sctp_rcvinfo) (eor : bool)
    (slot free : option nat) : res sctp_reassembly :=
  match slot with
  | Some i =>
      s ← get_slot r i;
      set_slot r i (if eor then empty_slot else discard s)
  | None =>
      if eor then Ok r
      else
        match free with
        | None => Ok (block (sctp_reassembly_clear_all r))
        | Some i =>
            s ← get_slot r i;
            (* the buffer and the length stay what they are in a free slot *)
            set_slot r i (Build_sctp_reassembly_slot_t (sl_data s) (sl_length s)
              (rcv_sid rcv) (rcv_ssn rcv) (rcv_ppid rcv) (rcv_assoc_id rcv)
              (rcv_unordered rcv) true true)
        end
  end.

(** The fragment goes into slot [i], which has room for it or not. *)
Definition append_fragment (r : sctp_reassembly) (i : nat) (eor : bool) (bytes : list Z)
    : res (sctp_reassembly * sctp_reassembly_result_t) :=
  s ← get_slot r i;
  if SCTP_REASSEMBLY_MESSAGE_MAX - sl_length s <? len bytes then
    r ← set_slot r i (if eor then empty_slot else discard s);
    Ok (r, REASSEMBLY_REJECTED)
  else
    s ← slot_append s bytes;
    if negb eor then (r ← set_slot r i s; Ok (r, REASSEMBLY_PENDING))
    else
      r ← set_slot r i empty_slot;
      Ok (r, REASSEMBLY_READY (sl_data s) (sl_length s)).

(** [malloc_ok] is the outcome of the allocation of a buffer. *)
Definition sctp_reassemble_message (r : sctp_reassembly) (rcv : sctp_rcvinfo) (eor : bool)
    (bytes : list Z) (malloc_ok : bool)
    : res (sctp_reassembly * sctp_reassembly_result_t) :=
  if re_blocked r then Ok (r, REASSEMBLY_REJECTED)
  else
    let '(slot, free) := find_slot (re_slots r) rcv 0 None in
    if (len bytes =? 0) || (SCTP_REASSEMBLY_MESSAGE_MAX <? len bytes) then
      r ← reject_fragment r rcv eor slot free; Ok (r, REASSEMBLY_REJECTED)
    else
      match slot with
      | Some i =>
          s ← get_slot r i;
          if negb (sl_ppid s =? rcv_ppid rcv) then
            r ← set_slot r i empty_slot;
            Ok (if eor then r else block r, REASSEMBLY_REJECTED)
          else if sl_discarding s then
            r ← (if eor then set_slot r i empty_slot else Ok r);
            Ok (r, REASSEMBLY_REJECTED)
          else append_fragment r i eor bytes
      | None =>
          if eor then Ok (r, REASSEMBLY_READY None (len bytes))
          else
            match free with
            | None => Ok (block (sctp_reassembly_clear_all r), REASSEMBLY_REJECTED)
            | Some i =>
                if negb malloc_ok then
                  r ← set_slot r i (claimed rcv None true); Ok (r, REASSEMBLY_REJECTED)
                else
                  r ← set_slot r i (claimed rcv (Some []) false);
                  append_fragment r i eor bytes
            end
      end.

(* ------------------------------------------------------------------ *)
(** ** Specification

    What the slots stand for: by message identity, the bytes collected so far,
    or a message of which the rest is to be dropped. *)

Definition ident : Type := Z * Z * Z * bool.

Inductive partial : Type :=
  | Collecting (ppid : Z) (bytes : list Z)
  | Discarding (ppid : Z).

(** A property of what a partial message has collected. *)
Definition collecting (Q : list Z -> Prop) (x : partial) : Prop :=
  match x with Collecting _ got => Q got | Discarding _ => True end.

Definition partial_ppid (x : partial) : Z :=
  match x with Collecting ppid _ | Discarding ppid => ppid end.

Record partials := {
  pa_map : gmap ident partial;
  pa_blocked : bool;
}.

Inductive delivery : Type :=
  | Pending
  | Message (bytes : list Z)
  | Rejected.

Definition rcv_ident (rcv : sctp_rcvinfo) : ident :=
  (rcv_assoc_id rcv, rcv_sid rcv, rcv_ssn rcv, rcv_unordered rcv).

Definition room_left (m : gmap ident partial) : bool :=
  (size m <? SCTP_REASSEMBLY_SLOTS)%nat.

Definition bad_fragment (bytes : list Z) : bool :=
  (len bytes =? 0) || (SCTP_REASSEMBLY_MESSAGE_MAX <? len bytes).

(** A message that is dropped up to its last fragment. *)
Definition drop_message (m : gmap ident partial) (id : ident) (ppid : Z) (eor : bool)
    : gmap ident partial :=
  if eor then delete id m else <[id := Discarding ppid]> m.

(** A fragment of a message of which [got] was collected. *)
Definition collect (m : gmap ident partial) (id : ident) (ppid : Z) (got bytes : list Z)
    (eor : bool) : gmap ident partial * delivery :=
  if SCTP_REASSEMBLY_MESSAGE_MAX <? len got + len bytes then
    (drop_message m id ppid eor, Rejected)
  else if eor then (delete id m, Message (got ++ bytes))
  else (<[id := Collecting ppid (got ++ bytes)]> m, Pending).

Definition reassemble (q : partials) (rcv : sctp_rcvinfo) (eor : bool) (bytes : list Z)
    (malloc_ok : bool) : partials * delivery :=
  let m := pa_map q in
  let id := rcv_ident rcv in
  let blocked := (Build_partials ∅ true, Rejected) in
  if pa_blocked q then (q, Rejected)
  else
    match m !! id with
    | Some x =>
        if bad_fragment bytes then
          (Build_partials (drop_message m id (partial_ppid x) eor) false, Rejected)
        else if negb (partial_ppid x =? rcv_ppid rcv) then
          (Build_partials (delete id m) (negb eor), Rejected)
        else
          match x with
          | Discarding _ => (Build_partials (if eor then delete id m else m) false, Rejected)
          | Collecting ppid got =>
              let '(m, d) := collect m id ppid got bytes eor in (Build_partials m false, d)
          end
    | None =>
        if eor then
          (q, if bad_fragment bytes then Rejected else Message bytes)
        else if negb (room_left m) then blocked
        else if bad_fragment bytes || negb malloc_ok then
          (Build_partials (<[id := Discarding (rcv_ppid rcv)]> m) false, Rejected)
        else
          let '(m, d) := collect m id (rcv_ppid rcv) [] bytes eor in (Build_partials m false, d)
    end.

(* ------------------------------------------------------------------ *)
(** ** The slots implement it *)

Definition slot_ident (s : sctp_reassembly_slot_t) : ident :=
  (sl_association_id s, sl_stream_id s, sl_stream_sequence s, sl_unordered s).

Definition slot_partial (s : sctp_reassembly_slot_t) : partial :=
  if sl_discarding s then Discarding (sl_ppid s)
  else Collecting (sl_ppid s) (default [] (sl_data s)).

Definition partial_entry (s : sctp_reassembly_slot_t) : option (ident * partial) :=
  if sl_used s then Some (slot_ident s, slot_partial s) else None.

(** A free slot is all zero, a discarding one has no buffer, a collecting one
    has the bytes it counts. *)
Definition reassembly_slot_wf (s : sctp_reassembly_slot_t) : Prop :=
  if sl_used s then
    if sl_discarding s then sl_data s = None /\ sl_length s = 0
    else exists d, sl_data s = Some d /\ sl_length s = len d /\
      len d <= SCTP_REASSEMBLY_MESSAGE_MAX
  else s = empty_slot.

Definition partial_entries (slots : list sctp_reassembly_slot_t) : list (ident * partial) :=
  omap partial_entry slots.

Record slots_rep (slots : list sctp_reassembly_slot_t) (m : gmap ident partial) : Prop := {
  sr_length : length slots = SCTP_REASSEMBLY_SLOTS;
  sr_wf : Forall reassembly_slot_wf slots;
  sr_unique : NoDup (partial_entries slots).*1;
  sr_map : m = list_to_map (partial_entries slots);
}.

Record reassembly_rep (r : sctp_reassembly) (q : partials) : Prop := {
  rr_slots : slots_rep (re_slots r) (pa_map q);
  rr_blocked : re_blocked r = pa_blocked q;
}.

Lemma slots_app a b : partial_entries (a ++ b) = partial_entries a ++ partial_entries b.
Proof. apply omap_app. Qed.

Lemma slots_cons s l : partial_entries (s :: l) = option_list (partial_entry s) ++ partial_entries l.
Proof. unfold partial_entries. cbn. by destruct (partial_entry s). Qed.

(** The map of the other slots. *)
Definition others (a b : list sctp_reassembly_slot_t) : gmap ident partial :=
  list_to_map (partial_entries (a ++ b)).

Lemma slots_perm a s b :
  partial_entries (a ++ s :: b) ≡ₚ option_list (partial_entry s) ++ partial_entries (a ++ b).
Proof.
  rewrite slots_app, slots_cons, !slots_app, !(assoc_L (++)).
  f_equiv. by rewrite (comm (++)).
Qed.

(** One slot apart from the others. *)
Lemma slots_rep_split a s b m :
  slots_rep (a ++ s :: b) m <->
  length (a ++ s :: b) = SCTP_REASSEMBLY_SLOTS /\
  Forall reassembly_slot_wf (a ++ b) /\ reassembly_slot_wf s /\ NoDup (partial_entries (a ++ b)).*1 /\
  match partial_entry s with
  | Some (id, x) => others a b !! id = None /\ m = <[id := x]> (others a b)
  | None => m = others a b
  end.
Proof.
  assert (Hwf : Forall reassembly_slot_wf (a ++ s :: b) <-> Forall reassembly_slot_wf (a ++ b) /\ reassembly_slot_wf s).
  { rewrite !Forall_app, Forall_cons. tauto. }
  pose proof (slots_perm a s b) as Hp.
  assert (Hnd : NoDup (partial_entries (a ++ s :: b)).*1 <->
    NoDup (option_list (partial_entry s) ++ partial_entries (a ++ b)).*1) by (by rewrite Hp).
  assert (Hmap : NoDup (partial_entries (a ++ s :: b)).*1 -> (list_to_map (partial_entries (a ++ s :: b)) : gmap _ _) =
    list_to_map (option_list (partial_entry s) ++ partial_entries (a ++ b))).
  { intros H. by apply list_to_map_proper. }
  unfold others. split.
  - intros [H1 H2 H3 H4]. rewrite H4, Hmap by done. apply Hwf in H2 as [H2 H2'].
    apply Hnd in H3. split_and!; try done; destruct (partial_entry s) as [[id x]|]; cbn in *.
    + by apply NoDup_cons in H3 as [_ H3].
    + done.
    + apply NoDup_cons in H3 as [H3 _]. split; [by apply not_elem_of_list_to_map_1|done].
    + done.
  - intros (H1 & H2 & H2' & H3 & H4).
    assert (Hn : NoDup (partial_entries (a ++ s :: b)).*1).
    { apply Hnd. destruct (partial_entry s) as [[id x]|]; cbn; [|done].
      apply NoDup_cons. split; [|done]. by apply not_elem_of_list_to_map_2, H4. }
    split; [done|by apply Hwf|done|]. rewrite Hmap by done.
    destruct (partial_entry s) as [[id x]|]; cbn; [by destruct H4|done].
Qed.

Lemma set_slot_at r a s b s' :
  re_slots r = a ++ s :: b ->
  set_slot r (length a) s' = Ok (Build_sctp_reassembly (a ++ s' :: b) (re_blocked r)).
Proof. intros E. unfold set_slot. by rewrite E, (upd_mid a). Qed.

Lemma get_slot_at r a s b : re_slots r = a ++ s :: b -> get_slot r (length a) = Ok s.
Proof. intros E. unfold get_slot. by rewrite E, rd_mid. Qed.

Lemma others_lookup a s b m id x :
  slots_rep (a ++ s :: b) m -> partial_entry s = Some (id, x) ->
  others a b !! id = None /\ m !! id = Some x /\ delete id m = others a b.
Proof.
  intros H E. apply slots_rep_split in H as (_ & _ & _ & _ & H). rewrite E in H.
  destruct H as [Hn ->]. split_and!; [done|apply lookup_insert_eq|by apply delete_insert_id].
Qed.

Lemma length_replaced {A} (a b : list A) s s' : length (a ++ s' :: b) = length (a ++ s :: b).
Proof. by rewrite !length_app. Qed.

(** Clearing a slot, changing the message it holds, claiming a free one. *)
Lemma rep_clear a s b m id x :
  slots_rep (a ++ s :: b) m -> partial_entry s = Some (id, x) ->
  slots_rep (a ++ empty_slot :: b) (delete id m).
Proof.
  intros H E. destruct (others_lookup _ _ _ _ _ _ H E) as (Hn & _ & ->).
  apply slots_rep_split in H as (H1 & H2 & _ & H3 & _).
  apply slots_rep_split. split_and!; try done. by rewrite <- H1, (length_replaced a b s).
Qed.

Lemma rep_change a s b m id x s' x' :
  slots_rep (a ++ s :: b) m -> partial_entry s = Some (id, x) ->
  partial_entry s' = Some (id, x') -> reassembly_slot_wf s' ->
  slots_rep (a ++ s' :: b) (<[id := x']> m).
Proof.
  intros H E E' Hw. destruct (others_lookup _ _ _ _ _ _ H E) as (Hn & Hx & Hd).
  apply slots_rep_split in H as (H1 & H2 & _ & H3 & _).
  apply slots_rep_split. rewrite E'. split_and!; try done.
  - by rewrite <- H1, (length_replaced a b s).
  - by rewrite <- Hd, insert_delete_eq.
Qed.

Lemma rep_claim a b m s' id x :
  slots_rep (a ++ empty_slot :: b) m -> m !! id = None ->
  partial_entry s' = Some (id, x) -> reassembly_slot_wf s' ->
  slots_rep (a ++ s' :: b) (<[id := x]> m).
Proof.
  intros H Hn E Hw. apply slots_rep_split in H as (H1 & H2 & _ & H3 & ->).
  apply slots_rep_split. rewrite E. split_and!; try done.
  by rewrite <- H1, (length_replaced a b empty_slot).
Qed.

Lemma slot_matches_ident s rcv :
  slot_matches s rcv = true <-> slot_ident s = rcv_ident rcv.
Proof.
  unfold slot_matches, slot_ident, rcv_ident.
  rewrite !andb_true_iff, !Z.eqb_eq, Bool.eqb_true_iff. split.
  - by intros [[[-> ->] ->] ->].
  - by intros [= -> -> -> ->].
Qed.

Lemma find_slot_scan l rcv i free :
  match find_slot l rcv i free with
  | (Some j, _) => exists a s b x, l = a ++ s :: b /\ j = (i + length a)%nat /\
      partial_entry s = Some (rcv_ident rcv, x)
  | (None, f) => (forall s x, s ∈ l -> partial_entry s <> Some (rcv_ident rcv, x)) /\
      match free, f with
      | Some k, Some j => j = k
      | None, Some j => exists a s b, l = a ++ s :: b /\ j = (i + length a)%nat /\
          partial_entry s = None
      | None, None => forall s, s ∈ l -> partial_entry s <> None
      | Some _, None => False
      end
  end.
Proof.
  revert i free. induction l as [|s l IH]; intros i free; cbn [find_slot].
  { split; [intros s x H; by apply elem_of_nil in H|]. destruct free; [done|].
    intros s H. by apply elem_of_nil in H. }
  destruct (sl_used s) eqn:Eu; cbn [negb].
  - destruct (slot_matches s rcv) eqn:Em.
    + exists [], s, l, (slot_partial s). split_and!; [done|cbn; lia|].
      unfold partial_entry. rewrite Eu. by apply slot_matches_ident in Em as ->.
    + specialize (IH (S i) free). destruct (find_slot l rcv (S i) free) as [[j|] f].
      * destruct IH as (a & s' & b & x & -> & -> & E). exists (s :: a), s', b, x.
        split_and!; [done|cbn; lia|done].
      * destruct IH as [H1 H2].
        assert (Hs : forall x, partial_entry s <> Some (rcv_ident rcv, x)).
        { unfold partial_entry. rewrite Eu. intros x E.
          apply (inj Some), (f_equal fst) in E. cbn in E. apply slot_matches_ident in E. congruence. }
        split; [intros s' x [->|Hs']%elem_of_cons; [done|by apply H1]|].
        destruct free, f; try done.
        -- destruct H2 as (a & s' & b & -> & -> & E). exists (s :: a), s', b.
           split_and!; [done|cbn; lia|done].
        -- intros s' [->|Hs']%elem_of_cons; [|by apply H2]. unfold partial_entry. by rewrite Eu.
  - assert (Hn : partial_entry s = None) by (unfold partial_entry; by rewrite Eu).
    specialize (IH (S i) (match free with None => Some i | _ => free end)).
    destruct (find_slot l rcv (S i) _) as [[j|] f].
    + destruct IH as (a & s' & b & x & -> & -> & E). exists (s :: a), s', b, x.
      split_and!; [done|cbn; lia|done].
    + destruct IH as [H1 H2].
      split; [intros s' x [->|Hs']%elem_of_cons; [congruence|by apply H1]|].
      destruct free, f; try done. subst. exists [], s, l. split_and!; [done|cbn; lia|done].
Qed.

Lemma slots_count l :
  (length (partial_entries l) <= length l)%nat /\
  (length (partial_entries l) = length l <-> forall s, s ∈ l -> partial_entry s <> None).
Proof.
  induction l as [|s l [IH1 IH2]]; [by split; [done|split; [intros _ s H; by apply elem_of_nil in H|]]|].
  rewrite slots_cons, length_app. cbn [length].
  destruct (partial_entry s) as [e|] eqn:E;
    [change (length (option_list (Some e))) with 1%nat|
     change (length (@option_list (ident * partial) None)) with 0%nat].
  - split; [lia|]. split.
    + intros H s' [->|Hs]%elem_of_cons; [congruence|]. apply IH2; [lia|done].
    + intros H. f_equal. apply IH2. intros s' Hs. apply H. by right.
  - split; [lia|]. split; [lia|]. intros H. exfalso. by apply (H s); [left|].
Qed.

(** What the scan finds, in terms of the map. *)
Lemma reassembly_slot_found slots rcv m :
  slots_rep slots m ->
  match find_slot slots rcv 0 None with
  | (Some i, _) => exists a s b x, slots = a ++ s :: b /\ i = length a /\
      partial_entry s = Some (rcv_ident rcv, x) /\ m !! rcv_ident rcv = Some x
  | (None, Some i) => exists a b, slots = a ++ empty_slot :: b /\ i = length a /\
      m !! rcv_ident rcv = None /\ room_left m = true
  | (None, None) => m !! rcv_ident rcv = None /\ room_left m = false
  end.
Proof.
  intros H. pose proof (find_slot_scan slots rcv 0 None) as Hs.
  destruct (slots_count slots) as [C1 C2]. pose proof (sr_length _ _ H) as Hl.
  assert (Hnone : (forall s x, s ∈ slots -> partial_entry s <> Some (rcv_ident rcv, x)) ->
    m !! rcv_ident rcv = None).
  { intros Hn. rewrite (sr_map _ _ H). apply not_elem_of_list_to_map_1.
    intros (e & He & Hin)%list_elem_of_fmap. apply list_elem_of_omap in Hin as (s & Hin & E).
    destruct e as [id x]. cbn in He. subst id. by apply (Hn s x). }
  assert (Hsize : size m = length (partial_entries slots)).
  { rewrite (sr_map _ _ H). apply map_size_list_to_map, H. }
  unfold room_left. rewrite Hsize.
  destruct (find_slot slots rcv 0 None) as [[i|] f].
  - destruct Hs as (a & s & b & x & E & -> & Ex). exists a, s, b, x. subst slots.
    split_and!; try done. by eapply others_lookup.
  - destruct Hs as [Hn Hf]. apply Hnone in Hn. destruct f as [i|].
    + destruct Hf as (a & s & b & -> & -> & Ex). exists a, b.
      assert (Hw := sr_wf _ _ H). apply Forall_app in Hw as [_ [Hw _]%Forall_cons].
      assert (s = empty_slot) as ->.
      { unfold partial_entry, reassembly_slot_wf in *. by destruct (sl_used s). }
      split_and!; try done. apply Nat.ltb_lt.
      assert (length (partial_entries (a ++ empty_slot :: b)) <> length (a ++ empty_slot :: b)); [|lia].
      intros Hc. apply (proj1 C2 Hc empty_slot); [|done].
      apply elem_of_app. right. by left.
    + split; [done|]. apply Nat.ltb_ge. pose proof (proj2 C2 Hf). lia.
Qed.

Lemma empty_slots_rep : slots_rep (replicate SCTP_REASSEMBLY_SLOTS empty_slot) ∅.
Proof. split; [done|by repeat constructor|by constructor|done]. Qed.

Lemma cleared_rep slots m : slots_rep slots m -> slots_rep ((fun _ => empty_slot) <$> slots) ∅.
Proof.
  intros H. replace ((fun _ => empty_slot) <$> slots)
    with (replicate SCTP_REASSEMBLY_SLOTS empty_slot); [apply empty_slots_rep|].
  rewrite <- (sr_length _ _ H). clear H. induction slots; [done|]. cbn. by f_equal.
Qed.

(** The result of a step, related. *)
Definition delivery_rep (bytes : list Z) (rs : sctp_reassembly_result_t) (d : delivery) : Prop :=
  match rs, d with
  | REASSEMBLY_PENDING, Pending => True
  | REASSEMBLY_READY (Some assembled) n, Message msg => assembled = msg /\ n = len msg
  | REASSEMBLY_READY None n, Message msg => bytes = msg /\ n = len msg
  | REASSEMBLY_REJECTED, Rejected => True
  | _, _ => False
  end.

Definition step_rep (bytes : list Z) (r : res (sctp_reassembly * sctp_reassembly_result_t))
    (q : partials * delivery) : Prop :=
  exists r' rs, r = Ok (r', rs) /\ reassembly_rep r' q.1 /\ delivery_rep bytes rs q.2.

Lemma step_rep_intro bytes slots blocked rs m d :
  slots_rep slots m -> delivery_rep bytes rs d ->
  step_rep bytes (Ok (Build_sctp_reassembly slots blocked, rs)) (Build_partials m blocked, d).
Proof. intros Hs Hd. by eexists _, _. Qed.

(** A used slot, by cases. *)
Lemma partial_entry_inv s id x :
  partial_entry s = Some (id, x) -> reassembly_slot_wf s ->
  slot_ident s = id /\ partial_ppid x = sl_ppid s /\
  if sl_discarding s then x = Discarding (sl_ppid s)
  else exists got, x = Collecting (sl_ppid s) got /\ sl_data s = Some got /\
    sl_length s = len got /\ len got <= SCTP_REASSEMBLY_MESSAGE_MAX.
Proof.
  unfold partial_entry, reassembly_slot_wf, slot_partial. destruct (sl_used s); [|done].
  intros [= <- <-] Hw. destruct (sl_discarding s); [done|].
  destruct Hw as (d & -> & Hl & Hm). split_and!; try done. by exists d.
Qed.

Lemma discard_entry s id x :
  partial_entry s = Some (id, x) ->
  partial_entry (discard s) = Some (id, Discarding (sl_ppid s)) /\ reassembly_slot_wf (discard s).
Proof.
  unfold partial_entry, reassembly_slot_wf, discard, slot_partial. cbn.
  destruct (sl_used s); [|done]. by intros [= <- <-].
Qed.

(** Clearing or discarding, as the fragment is the last or not. *)
Lemma drop_rep (r : sctp_reassembly) q a s b id x (eor : bool) rs bytes :
  reassembly_rep r q -> re_blocked r = false -> re_slots r = a ++ s :: b ->
  partial_entry s = Some (id, x) -> partial_ppid x = sl_ppid s -> delivery_rep bytes rs Rejected ->
  step_rep bytes (r ← set_slot r (length a) (if eor then empty_slot else discard s); Ok (r, rs))
    (Build_partials (drop_message (pa_map q) id (partial_ppid x) eor) false, Rejected).
Proof.
  intros [Hs _] Hb E Ex Hp Hd. rewrite E in Hs. rewrite (set_slot_at _ _ _ _ _ E), Hb.
  cbn [mbind res_bind]. apply step_rep_intro; [|done]. unfold drop_message.
  destruct eor; [by eapply rep_clear|].
  destruct (discard_entry _ _ _ Ex) as [Ed Hw]. rewrite Hp. by eapply rep_change.
Qed.

Lemma append_rep (r : sctp_reassembly) m a s b id ppid got (eor : bool) bytes :
  slots_rep (re_slots r) m -> re_blocked r = false -> re_slots r = a ++ s :: b ->
  partial_entry s = Some (id, Collecting ppid got) ->
  step_rep bytes (append_fragment r (length a) eor bytes)
    (let '(m, d) := collect m id ppid got bytes eor in (Build_partials m false, d)).
Proof.
  intros Hs Hb E Ex. pose proof (sr_wf _ _ Hs) as Hw. rewrite E in Hw.
  apply Forall_app in Hw as [_ [Hw _]%Forall_cons].
  destruct (partial_entry_inv _ _ _ Ex Hw) as (Hid & Hp & Hd).
  destruct (sl_discarding s) eqn:Eds; [done|].
  destruct Hd as (got' & [= -> <-] & Hdata & Hlen & Hmax).
  unfold append_fragment, collect. rewrite (get_slot_at _ _ _ _ E). cbn [mbind res_bind].
  rewrite Hlen.
  replace (SCTP_REASSEMBLY_MESSAGE_MAX - len got <? len bytes)
    with (SCTP_REASSEMBLY_MESSAGE_MAX <? len got + len bytes) by lia.
  destruct (_ <? _) eqn:Eo.
  - apply (drop_rep r (Build_partials m false) a s b id (Collecting (sl_ppid s) got) eor
      REASSEMBLY_REJECTED); done.
  - unfold slot_append. rewrite Hdata, Hlen, Eo. cbn [mbind res_bind].
    set (s' := Build_sctp_reassembly_slot_t _ _ _ _ _ _ _ _ _).
    rewrite !(set_slot_at _ _ _ _ _ E), Hb. rewrite E in Hs.
    destruct eor; cbn [negb mbind res_bind]; apply step_rep_intro.
    + by eapply rep_clear.
    + cbn. split; [done|]. by rewrite len_app.
    + eapply rep_change; [done|done| |].
      * unfold partial_entry, slot_partial, s' in *. cbn. destruct (sl_used s); [|done].
        rewrite Eds in *. cbn. by injection Ex as <- _.
      * unfold reassembly_slot_wf, partial_entry, s' in *. cbn. destruct (sl_used s); [|done]. rewrite Eds.
        eexists. split_and!; [done|by rewrite len_app|rewrite len_app; lia].
    + done.
Qed.

(** A fragment of a message that has a slot. *)
Lemma reassemble_known_rep r q rcv (eor : bool) bytes malloc_ok a s b x free :
  reassembly_rep r q -> pa_blocked q = false ->
  find_slot (re_slots r) rcv 0 None = (Some (length a), free) ->
  re_slots r = a ++ s :: b -> partial_entry s = Some (rcv_ident rcv, x) ->
  pa_map q !! rcv_ident rcv = Some x ->
  step_rep bytes (sctp_reassemble_message r rcv eor bytes malloc_ok)
    (reassemble q rcv eor bytes malloc_ok).
Proof.
  intros Hr Eb Ef E Ex Hx. pose proof Hr as [Hs Hb]. rewrite Eb in Hb.
  unfold sctp_reassemble_message, reassemble. rewrite Hb, Eb, Ef, Hx. fold (bad_fragment bytes).
  pose proof (sr_wf _ _ Hs) as Hw. rewrite E in Hw.
  apply Forall_app in Hw as [_ [Hw _]%Forall_cons].
  destruct (partial_entry_inv _ _ _ Ex Hw) as (Hid & Hp & Hd).
  rewrite (get_slot_at _ _ _ _ E). cbn [mbind res_bind].
  destruct (bad_fragment bytes).
  { unfold reject_fragment. rewrite (get_slot_at _ _ _ _ E). cbn [mbind res_bind].
    by apply (drop_rep r q a s b _ x eor REASSEMBLY_REJECTED). }
  rewrite Hp. destruct (negb (sl_ppid s =? rcv_ppid rcv)) eqn:Epp.
  { rewrite (set_slot_at _ _ _ _ _ E). cbn [mbind res_bind]. rewrite E in Hs.
    destruct eor; cbn [negb block re_slots]; rewrite ?Hb;
      apply step_rep_intro; (by eapply rep_clear) || done. }
  destruct (sl_discarding s).
  - subst x. destruct eor.
    + rewrite (set_slot_at _ _ _ _ _ E), Hb. cbn [mbind res_bind]. rewrite E in Hs.
      apply step_rep_intro; [by eapply rep_clear|done].
    + cbn [mbind res_bind]. destruct r as [slots blk], q as [m blk']. cbn in *. subst.
      by apply step_rep_intro.
  - destruct Hd as (got & -> & _). by apply (append_rep r _ a s b _ _ _ eor bytes Hs Hb E Ex).
Qed.

(** A fragment that takes a free slot. *)
Lemma reassemble_claim_rep r q rcv bytes malloc_ok a b :
  reassembly_rep r q -> pa_blocked q = false ->
  find_slot (re_slots r) rcv 0 None = (None, Some (length a)) ->
  re_slots r = a ++ empty_slot :: b -> pa_map q !! rcv_ident rcv = None ->
  room_left (pa_map q) = true ->
  step_rep bytes (sctp_reassemble_message r rcv false bytes malloc_ok)
    (reassemble q rcv false bytes malloc_ok).
Proof.
  intros [Hs Hb] Eb Ef E Hm Hroom. rewrite Eb in Hb.
  unfold sctp_reassemble_message, reassemble. rewrite Hb, Eb, Ef, Hm, Hroom.
  fold (bad_fragment bytes). cbn [negb].
  assert (Hclaim : forall s' x, partial_entry s' = Some (rcv_ident rcv, x) -> reassembly_slot_wf s' ->
    slots_rep (a ++ s' :: b) (<[rcv_ident rcv := x]> (pa_map q))).
  { intros s' x. rewrite E in Hs. by apply rep_claim. }
  destruct (bad_fragment bytes) eqn:Ebad; cbn [orb reject_fragment].
  { rewrite (get_slot_at _ _ _ _ E). cbn [mbind res_bind].
    rewrite (set_slot_at _ _ _ _ _ E), Hb. cbn [mbind res_bind].
    apply step_rep_intro; [by apply Hclaim|done]. }
  destruct malloc_ok; cbn [negb]; rewrite (set_slot_at _ _ _ _ _ E), Hb; cbn [mbind res_bind];
    [|apply step_rep_intro; [by apply Hclaim|done]].
  set (s' := claimed rcv (Some []) false).
  assert (Hs' : slots_rep (a ++ s' :: b)
    (<[rcv_ident rcv := Collecting (rcv_ppid rcv) []]> (pa_map q))).
  { apply Hclaim; [done|]. by exists []. }
  pose proof (append_rep (Build_sctp_reassembly (a ++ s' :: b) false) _ a s' b _ _ []
    false bytes Hs' eq_refl eq_refl eq_refl) as Ha.
  unfold collect in *. unfold bad_fragment in Ebad. apply orb_false_iff in Ebad as [_ Ebad].
  rewrite len_nil, Z.add_0_l, Ebad in *. by rewrite insert_insert_eq in Ha.
Qed.

Lemma reassemble_rep r q rcv eor bytes malloc_ok :
  reassembly_rep r q ->
  step_rep bytes (sctp_reassemble_message r rcv eor bytes malloc_ok)
    (reassemble q rcv eor bytes malloc_ok).
Proof.
  intros Hr. pose proof Hr as [Hs Hb]. destruct (pa_blocked q) eqn:Eb.
  { unfold sctp_reassemble_message, reassemble. rewrite Hb, Eb. by eexists _, _. }
  pose proof (reassembly_slot_found _ rcv _ Hs) as Hf.
  destruct (find_slot (re_slots r) rcv 0 None) as [[i|] free] eqn:Ef.
  { destruct Hf as (a & s & b & x & E & -> & Ex & Hx). by eapply reassemble_known_rep. }
  assert (Hm : pa_map q !! rcv_ident rcv = None)
    by (destruct free; [destruct Hf as (?&?&?&?&?&?)|destruct Hf]; done).
  destruct eor.
  { unfold sctp_reassemble_message, reassemble. rewrite Hb, Eb, Ef, Hm. fold (bad_fragment bytes).
    destruct (bad_fragment bytes); cbn [reject_fragment mbind res_bind]; by eexists _, _. }
  destruct free as [i|].
  { destruct Hf as (a & b & E & -> & _ & Hroom). by eapply reassemble_claim_rep. }
  destruct Hf as [_ Hroom]. unfold sctp_reassemble_message, reassemble.
  rewrite Hb, Eb, Ef, Hm, Hroom. fold (bad_fragment bytes). cbn [negb].
  destruct (bad_fragment bytes); cbn [reject_fragment mbind res_bind block
    sctp_reassembly_clear_all re_slots]; apply step_rep_intro; (by eapply cleared_rep) || done.
Qed.

(* ------------------------------------------------------------------ *)
(** ** Runs *)

(** What happens to the reassembly: a fragment, or one of the resets. *)
Inductive reassembly_op : Type :=
  | OpFragment (rcv : sctp_rcvinfo) (eor : bool) (bytes : list Z) (malloc_ok : bool)
  | OpClearAll
  | OpClearIdentity (assoc sid ssn : Z)
  | OpClearStream (assoc sid : Z).

(** The message the receiver goes on with: the assembled buffer, or the data of
    the fragment itself. *)
Definition delivered (bytes : list Z) (rs : sctp_reassembly_result_t) : delivery :=
  match rs with
  | REASSEMBLY_PENDING => Pending
  | REASSEMBLY_READY assembled n =>
      Message (take (Z.to_nat n) (default bytes assembled))
  | REASSEMBLY_REJECTED => Rejected
  end.

Definition reassembly_step (r : sctp_reassembly) (op : reassembly_op)
    : res (sctp_reassembly * option delivery) :=
  match op with
  | OpFragment rcv eor bytes malloc_ok =>
      '(r, rs) ← sctp_reassemble_message r rcv eor bytes malloc_ok;
      Ok (r, Some (delivered bytes rs))
  | OpClearAll => Ok (sctp_reassembly_clear_all r, None)
  | OpClearIdentity assoc sid ssn => Ok (sctp_reassembly_clear_identity r assoc sid ssn, None)
  | OpClearStream assoc sid => Ok (sctp_reassembly_clear_stream r assoc sid, None)
  end.

Definition ident_of (id : ident) (assoc sid : Z) : bool :=
  let '(a, s, _, _) := id in (a =? assoc) && (s =? sid).

Definition partials_step (q : partials) (op : reassembly_op) : partials * option delivery :=
  match op with
  | OpFragment rcv eor bytes malloc_ok =>
      let '(q, d) := reassemble q rcv eor bytes malloc_ok in (q, Some d)
  | OpClearAll => (Build_partials ∅ false, None)
  | OpClearIdentity assoc sid ssn =>
      (Build_partials (filter (fun e => ident_of e.1 assoc sid && (e.1.1.2 =? ssn) = false)
         (pa_map q)) (pa_blocked q), None)
  | OpClearStream assoc sid =>
      (Build_partials (filter (fun e => ident_of e.1 assoc sid = false) (pa_map q))
         (pa_blocked q), None)
  end.

Fixpoint reassembly_run (r : sctp_reassembly) (ops : list reassembly_op)
    : res (sctp_reassembly * list delivery) :=
  match ops with
  | [] => Ok (r, [])
  | op :: ops =>
      '(r, d) ← reassembly_step r op;
      '(r, ds) ← reassembly_run r ops;
      Ok (r, option_list d ++ ds)
  end.

Fixpoint partials_run (q : partials) (ops : list reassembly_op) : partials * list delivery :=
  match ops with
  | [] => (q, [])
  | op :: ops =>
      let '(q, d) := partials_step q op in
      let '(q, ds) := partials_run q ops in (q, option_list d ++ ds)
  end.

Lemma delivered_rep bytes rs d : delivery_rep bytes rs d -> delivered bytes rs = d.
Proof.
  destruct rs as [|[o|] n|], d; cbn; try done; intros [-> ->]; by rewrite len_to_nat, take_ge.
Qed.

(** Clearing the slots of some messages. *)
Lemma clear_rep slots m (P : ident -> bool) (f : sctp_reassembly_slot_t -> bool) :
  slots_rep slots m -> (forall s, f s = sl_used s && P (slot_ident s)) ->
  slots_rep ((fun s => if f s then empty_slot else s) <$> slots)
    (filter (fun e => P e.1 = false) m).
Proof.
  intros [H1 H2 H3 H4] Hf.
  assert (He : partial_entries ((fun s => if f s then empty_slot else s) <$> slots) =
    filter (fun e => P e.1 = false) (partial_entries slots)).
  { clear -Hf. induction slots as [|s slots IH]; [done|]. rewrite fmap_cons, !slots_cons, filter_app, IH.
    f_equal. rewrite Hf. unfold partial_entry. destruct (sl_used s) eqn:Eu; cbn.
    - destruct (P (slot_ident s)) eqn:Ep; cbn.
      + by rewrite decide_False by congruence.
      + rewrite Eu. cbn. by rewrite decide_True.
    - by rewrite Eu. }
  assert (Hn : NoDup (filter (fun e => P e.1 = false) (partial_entries slots)).*1).
  { eapply sublist_NoDup; [exact H3|]. apply fmap_sublist, sublist_filter. }
  split.
  - by rewrite length_fmap.
  - apply Forall_fmap. eapply Forall_impl; [exact H2|]. intros s Hs. cbn. by destruct (f s).
  - by rewrite He.
  - rewrite He, H4. apply map_eq. intros id. apply option_eq. intros x.
    rewrite map_lookup_filter_Some, <- !elem_of_list_to_map, list_elem_of_filter; [tauto| |done].
    done.
Qed.

Lemma reassembly_step_refines r q op :
  reassembly_rep r q ->
  exists r', reassembly_step r op = Ok (r', (partials_step q op).2) /\
    reassembly_rep r' (partials_step q op).1.
Proof.
  intros Hr. pose proof Hr as [Hs Hb]. destruct op as [rcv eor bytes ok| |assoc sid ssn|assoc sid]; cbn.
  - destruct (reassemble_rep r q rcv eor bytes ok Hr) as (r' & rs & -> & Hr' & Hd).
    destruct (reassemble q rcv eor bytes ok) as [q' d]. cbn in *.
    exists r'. by rewrite (delivered_rep _ _ _ Hd).
  - eexists. split; [done|]. split; [by eapply cleared_rep|done].
  - eexists. split; [done|]. split; [|done]. cbn.
    apply (clear_rep _ _ (fun id => ident_of id assoc sid && (id.1.2 =? ssn))); [done|].
    intros s. unfold slot_of, ident_of, slot_ident. cbn. by rewrite !andb_assoc.
  - eexists. split; [done|]. split; [|done]. cbn.
    apply (clear_rep _ _ (fun id => ident_of id assoc sid)); [done|].
    intros s. unfold slot_of, ident_of, slot_ident. by rewrite !andb_assoc.
Qed.

Lemma reassembly_run_refines r q ops :
  reassembly_rep r q ->
  exists r', reassembly_run r ops = Ok (r', (partials_run q ops).2) /\
    reassembly_rep r' (partials_run q ops).1.
Proof.
  revert r q. induction ops as [|op ops IH]; intros r q Hr; cbn; [by exists r|].
  destruct (reassembly_step_refines r q op Hr) as (r1 & -> & Hr1). cbn [mbind res_bind].
  destruct (partials_step q op) as [q1 d]. cbn in *.
  destruct (IH r1 q1 Hr1) as (r2 & -> & Hr2). cbn [mbind res_bind].
  destruct (partials_run q1 ops) as [q2 ds]. by exists r2.
Qed.

Definition partials_init : partials := Build_partials ∅ false.

Lemma reassembly_init_rep : reassembly_rep reassembly_init partials_init.
Proof. split; [apply empty_slots_rep|done]. Qed.

(** ** Interleaved messages *)

Record fragment := {
  fr_rcv : sctp_rcvinfo;
  fr_eor : bool;
  fr_bytes : list Z;
  fr_malloc_ok : bool;
}.

Definition fragment_op (f : fragment) : reassembly_op :=
  OpFragment (fr_rcv f) (fr_eor f) (fr_bytes f) (fr_malloc_ok f).

(** The reference: the fragments of one message identity alone, cut after each
    last fragment. *)
Definition part_of (id : ident) (f : fragment) : option (list Z * bool) :=
  if decide (rcv_ident (fr_rcv f) = id) then Some (fr_bytes f, fr_eor f) else None.

Fixpoint cut (got : list Z) (parts : list (list Z * bool)) : list (list Z) :=
  match parts with
  | [] => []
  | (bytes, true) :: parts => (got ++ bytes) :: cut [] parts
  | (bytes, false) :: parts => cut (got ++ bytes) parts
  end.

(** The messages delivered on an identity. *)
Definition message_on (id : ident) (fd : fragment * delivery) : option (list Z) :=
  if decide (rcv_ident (fr_rcv fd.1) = id) then
    match fd.2 with Message bytes => Some bytes | _ => None end
  else None.

Definition got (q : partials) (id : ident) : list Z :=
  match pa_map q !! id with Some (Collecting _ bytes) => bytes | _ => [] end.

(** Nothing is being dropped. *)
Definition clean (q : partials) : Prop :=
  pa_blocked q = false /\
  forall id x, pa_map q !! id = Some x -> exists ppid bytes, x = Collecting ppid bytes.

Definition accepted_as (q q' : partials) (id : ident) (eor : bool) (bytes : list Z)
    (d : delivery) : Prop :=
  clean q' /\ d = (if eor then Message (got q id ++ bytes) else Pending) /\
  forall id', got q' id' =
    if decide (id' = id) then (if eor then [] else got q id ++ bytes) else got q id'.

Lemma clean_delete m id : clean (Build_partials m false) -> clean (Build_partials (delete id m) false).
Proof.
  intros [_ H]. split; [done|]. intros id' x. cbn. rewrite lookup_delete_Some. intros [_ Hx]. by apply (H id').
Qed.

Lemma clean_insert m id ppid bytes :
  clean (Build_partials m false) ->
  clean (Build_partials (<[id := Collecting ppid bytes]> m) false).
Proof.
  intros [_ H]. split; [done|]. intros id' x. cbn. rewrite lookup_insert_Some.
  intros [[_ <-]|[_ Hx]]; [by eexists _, _|by apply (H id')].
Qed.

Lemma collect_accepted m id ppid bs bytes eor m' d :
  clean (Build_partials m false) -> got (Build_partials m false) id = bs ->
  collect m id ppid bs bytes eor = (m', d) -> d <> Rejected ->
  accepted_as (Build_partials m false) (Build_partials m' false) id eor bytes d.
Proof.
  intros Hc Hg. unfold collect, accepted_as. rewrite Hg. destruct (_ <? _); [by intros [= _ <-]|].
  destruct eor; intros [= <- <-] _.
  - split; [by apply clean_delete|]. split; [done|]. intros id'. unfold got in *. cbn in *.
    destruct (decide (id' = id)) as [->|Hne]; [by rewrite lookup_delete_eq|].
    by rewrite lookup_delete_ne.
  - split; [by apply clean_insert|]. split; [done|]. intros id'. unfold got in *. cbn in *.
    destruct (decide (id' = id)) as [->|Hne]; [by rewrite lookup_insert_eq|].
    by rewrite lookup_insert_ne.
Qed.

Lemma reassemble_accepted q rcv eor bytes ok q' d :
  clean q -> reassemble q rcv eor bytes ok = (q', d) -> d <> Rejected ->
  accepted_as q q' (rcv_ident rcv) eor bytes d.
Proof.
  intros Hc. pose proof Hc as [Hb Hx]. destruct q as [m blk]. cbn in Hb, Hx. subst blk.
  unfold reassemble. cbn [pa_blocked pa_map].
  destruct (m !! rcv_ident rcv) as [x|] eqn:Em.
  - destruct (Hx _ _ Em) as (ppid & bs & ->).
    destruct (bad_fragment bytes); [by intros [= _ <-]|].
    destruct (negb _); [by intros [= _ <-]|].
    destruct (collect _ _ _ _ _ _) as [m' d'] eqn:Ec. intros [= <- <-] Hd.
    eapply collect_accepted; [done| |done|done]. unfold got. cbn. by rewrite Em.
  - destruct eor.
    { intros [= <- <-]. destruct (bad_fragment bytes); [done|]. intros _.
      assert (Hg : got (Build_partials m false) (rcv_ident rcv) = []) by (unfold got; cbn; by rewrite Em).
      unfold accepted_as. rewrite Hg. split; [done|]. split; [done|]. intros id'.
      case_decide as E; [by rewrite E, Hg|done]. }
    destruct (negb (room_left m)); [by intros [= _ <-]|].
    destruct (_ || _); [by intros [= _ <-]|].
    destruct (collect _ _ _ _ _ _) as [m' d'] eqn:Ec. intros [= <- <-] Hd.
    eapply collect_accepted; [done| |done|done]. unfold got. cbn. by rewrite Em.
Qed.

Lemma partials_run_cut q fs ds q' id :
  clean q -> partials_run q (fragment_op <$> fs) = (q', ds) -> Rejected ∉ ds ->
  omap (message_on id) (zip fs ds) = cut (got q id) (omap (part_of id) fs).
Proof.
  revert q ds. induction fs as [|f fs IH]; intros q ds Hc; [by intros [= _ <-]|].
  rewrite fmap_cons. cbn [partials_run partials_step fragment_op].
  destruct (reassemble q _ _ _ _) as [q1 d] eqn:Er.
  destruct (partials_run q1 _) as [q2 ds'] eqn:E2. cbn [option_list app].
  intros [= -> <-] Hrej. apply not_elem_of_cons in Hrej as [Hd Hrej].
  destruct (reassemble_accepted _ _ _ _ _ _ _ Hc Er ltac:(done)) as (Hc1 & Ed & Hg).
  specialize (IH q1 ds' Hc1 E2 Hrej). specialize (Hg id). cbn.
  unfold message_on at 1, part_of at 1. cbn.
  destruct (decide (rcv_ident (fr_rcv f) = id)) as [E|Hne].
  - rewrite decide_True in Hg by done. rewrite Ed, E. destruct (fr_eor f); cbn;
      rewrite Hg, ?E in IH; by rewrite IH.
  - rewrite decide_False in Hg by congruence. rewrite IH, Hg. done.
Qed.

(* ------------------------------------------------------------------ *)
(** ** Dispatch

    The receive callback run without interruption: the frames each message
    leaves are run before the next. *)

Record sctp_peer := {
  sp_peer : turbo_dc_peer_s;
  sp_reassembly : sctp_reassembly;
  sp_connected : bool;
}.

Inductive assoc_state : Type :=
  | SCTP_COMM_UP | SCTP_COMM_LOST | SCTP_RESTART | SCTP_SHUTDOWN_COMP
  | SCTP_CANT_STR_ASSOC | SCTP_OTHER_STATE.

(** Notifications of sufficient length, by the fields that are read. *)
Inductive sctp_notification : Type :=
  | AssocChange (state : assoc_state)
  | PartialDelivery (aborted : bool) (assoc sid ssn : Z)
  | StreamReset (denied_or_failed incoming outgoing : bool) (assoc : Z) (streams : list Z)
      (capacity : nat) (calloc_ok : bool)
  | OtherNotification.

(** A delivery of data, with the outcomes of the allocations it may cause. *)
Record sctp_data := {
  sd_rcv : sctp_rcvinfo;
  sd_eor : bool;
  sd_bytes : list Z;
  sd_malloc_ok : bool;
  sd_calloc : positive;
  sd_mem : open_mem;
  sd_map_ok : bool;
}.

Definition run_all (env : sctp_env) (p : turbo_dc_peer_s) (fs : list frame)
    : res (turbo_dc_peer_s * list dc_event) := run_frames (rank fs) env p fs.

Definition with_peer (sp : sctp_peer) (p : turbo_dc_peer_s) : sctp_peer :=
  Build_sctp_peer p (sp_reassembly sp) (sp_connected sp).
Definition with_reassembly (sp : sctp_peer) (r : sctp_reassembly) : sctp_peer :=
  Build_sctp_peer (sp_peer sp) r (sp_connected sp).
Definition with_connected (sp : sctp_peer) (connected : bool) : sctp_peer :=
  Build_sctp_peer (sp_peer sp) (sp_reassembly sp) connected.

(** Starts an operation on the peer and runs what it leaves. *)
Definition on_peer (env : sctp_env) (sp : sctp_peer) (r : res (turbo_dc_peer_s * list frame))
    : res (sctp_peer * list dc_event) :=
  '(p, fs) ← r;
  '(p, evs) ← run_all env p fs;
  Ok (with_peer sp p, evs).

Definition receive_error (sp : sctp_peer) : res (sctp_peer * list dc_event) :=
  Ok (with_peer sp (set_error ERROR_SCTP_RECEIVE (sp_peer sp)), []).

Fixpoint reset_streams (env : sctp_env) (sp : sctp_peer) (assoc : Z) (streams : list Z)
    (reset_outgoing : bool) : res (sctp_peer * list dc_event) :=
  match streams with
  | [] => Ok (sp, [])
  | sid :: streams =>
      let sp := with_reassembly sp
        (sctp_reassembly_clear_stream (sp_reassembly sp) assoc sid) in
      '(sp, evs) ← on_peer env sp
        (dc_channel_handle_stream_reset (sp_peer sp) sid reset_outgoing);
      '(sp, evs') ← reset_streams env sp assoc streams reset_outgoing;
      Ok (sp, evs ++ evs')
  end.

Definition sctp_handle_stream_reset_event (env : sctp_env) (sp : sctp_peer)
    (denied_or_failed incoming outgoing : bool) (assoc : Z) (streams : list Z)
    (capacity : nat) (calloc_ok : bool) : res (sctp_peer * list dc_event) :=
  if denied_or_failed || negb incoming then Ok (sp, [])
  else
    match streams with
    | [] =>
        let sp := with_reassembly sp (sctp_reassembly_clear_all (sp_reassembly sp)) in
        on_peer env sp (dc_channel_handle_all_streams_reset (sp_peer sp) capacity calloc_ok
                          (negb outgoing))
    | _ => reset_streams env sp assoc streams (negb outgoing)
    end.

Definition sctp_handle_partial_delivery_event (sp : sctp_peer) (aborted : bool)
    (assoc sid ssn : Z) : res (sctp_peer * list dc_event) :=
  if negb aborted then Ok (sp, [])
  else receive_error (with_reassembly sp
         (sctp_reassembly_clear_identity (sp_reassembly sp) assoc (u16 sid) (u16 ssn))).

Definition sctp_notified (env : sctp_env) (sp : sctp_peer) (n : sctp_notification)
    : res (sctp_peer * list dc_event) :=
  let cleared := with_reassembly sp (sctp_reassembly_clear_all (sp_reassembly sp)) in
  match n with
  | AssocChange SCTP_COMM_UP =>
      let '(p, evs) := dc_notify_state (sp_peer sp) STATE_CONNECTED in
      Ok (with_peer (with_connected sp true) p, evs)
  | AssocChange SCTP_RESTART => Ok (cleared, [])
  | AssocChange SCTP_OTHER_STATE => Ok (sp, [])
  | AssocChange _ => Ok (with_connected cleared false, [])
  | PartialDelivery aborted assoc sid ssn =>
      sctp_handle_partial_delivery_event sp aborted assoc sid ssn
  | StreamReset denied_or_failed incoming outgoing assoc streams capacity calloc_ok =>
      sctp_handle_stream_reset_event env sp denied_or_failed incoming outgoing assoc
        streams capacity calloc_ok
  | OtherNotification => Ok (sp, [])
  end.

(** A complete message, by its payload protocol. *)
Definition sctp_dispatch (env : sctp_env) (sp : sctp_peer) (d : sctp_data) (message : list Z)
    : res (sctp_peer * list dc_event) :=
  let sid := rcv_sid (sd_rcv d) in
  let ppid := rcv_ppid (sd_rcv d) in
  let deliver logical is_binary :=
    on_peer env sp (dc_channel_handle_message (sp_peer sp) sid logical is_binary) in
  if ppid =? SCTP_PPID_DCEP then
    on_peer env sp (dcep_handle_message (sp_peer sp) sid message (sd_calloc d) (sd_mem d)
                      (sd_map_ok d))
  else if (ppid =? SCTP_PPID_STRING) || (ppid =? SCTP_PPID_BINARY) then
    if len message =? 0 then receive_error sp
    else deliver message (ppid =? SCTP_PPID_BINARY)
  else if (ppid =? SCTP_PPID_STRING_EMPTY) || (ppid =? SCTP_PPID_BINARY_EMPTY) then
    bad ← (if negb (len message =? 1) then Ok true
           else (b ← rd message 0; Ok (negb (b =? 0))));
    if (bad : bool) then receive_error sp
    else deliver [] (ppid =? SCTP_PPID_BINARY_EMPTY)
  else receive_error sp.

Definition sctp_received (env : sctp_env) (sp : sctp_peer) (d : sctp_data)
    : res (sctp_peer * list dc_event) :=
  '(r, rs) ← sctp_reassemble_message (sp_reassembly sp) (sd_rcv d) (sd_eor d) (sd_bytes d)
               (sd_malloc_ok d);
  let sp := with_reassembly sp r in
  match delivered (sd_bytes d) rs with
  | Pending => Ok (sp, [])
  | Rejected =>
      if re_blocked r then
        let '(p, evs) := dc_fail_peer (sp_peer sp) ERROR_SCTP_RECEIVE in
        Ok (with_peer sp p, evs)
      else receive_error sp
  | Message message => sctp_dispatch env sp d message
  end.

(** [sctp_inbound_packet_cb], for a peer and data that are not [NULL]. *)
Definition sctp_inbound_packet_cb (env : sctp_env) (sp : sctp_peer)
    (input : sctp_notification + sctp_data) : res (sctp_peer * list dc_event) :=
  if pe_destroying (sp_peer sp) then Ok (sp, [])
  else
    match input with
    | inl n => sctp_notified env sp n
    | inr d => sctp_received env sp d
    end.

Fixpoint sctp_inbound_run (env : sctp_env) (sp : sctp_peer)
    (inputs : list (sctp_notification + sctp_data)) : res (sctp_peer * list dc_event) :=
  match inputs with
  | [] => Ok (sp, [])
  | input :: inputs =>
      '(sp, evs) ← sctp_inbound_packet_cb env sp input;
      '(sp, evs') ← sctp_inbound_run env sp inputs;
      Ok (sp, evs ++ evs')
  end.

(** [sctp_poll_status] with a socket, by what the library reports. *)
Definition sctp_poll_status (sp : sctp_peer) (handshake_done status_ok established
    cookie_echoed : bool) (outstrms instrms : Z) : sctp_peer * list dc_event :=
  if negb (pe_socket (sp_peer sp)) || negb handshake_done || negb status_ok then (sp, [])
  else if negb (sp_connected sp) &&
          (established || (cookie_echoed && (0 <? outstrms) && (0 <? instrms))) then
    let '(p, evs) := dc_notify_state (sp_peer sp) STATE_CONNECTED in
    (with_peer (with_connected sp true) p, evs)
  else (sp, []).

(** [sctp_session_cleanup]. *)
Definition sctp_session_cleanup (sp : sctp_peer) : sctp_peer :=
  with_connected (with_reassembly sp (sctp_reassembly_clear_all (sp_reassembly sp))) false.

(** [dc_peer_close_impl] with the slots: they are freed first, in every state. *)
Definition dc_peer_close (sp : sctp_peer) : sctp_peer * list dc_event :=
  let sp := sctp_session_cleanup sp in
  let '(p, evs) := dc_peer_close_impl (sp_peer sp) in
  (with_peer sp p, evs).

(* ------------------------------------------------------------------ *)
(** ** Dispatch preserves the invariants *)

Lemma run_frames_ok env fuel p fs :
  sys_wf (p, fs) -> (rank fs <= fuel)%nat ->
  exists p' evs, run_frames fuel env p fs = Ok (p', evs) /\ table_wf p' (leases []).
Proof.
  revert p fs. induction fuel as [|fuel IH]; intros p fs Hs Hr.
  - destruct fs as [|f fs]; [by eexists _, _; split; [|apply Hs]|]. exfalso.
    destruct (frame_step_wf env p [] f fs Hs) as (? & ? & more & _ & _ & Hf).
    change (rank (f :: fs)) with (frame_rank f + rank fs)%nat in Hr. lia.
  - destruct fs as [|f fs]; [by eexists _, _; split; [|apply Hs]|].
    destruct (frame_step_wf env p [] f fs Hs) as (p1 & evs & more & E & Hs1 & Hf).
    destruct (IH p1 (more ++ fs) Hs1) as (p2 & evs' & E' & Hw).
    { rewrite rank_app. change (rank (f :: fs)) with (frame_rank f + rank fs)%nat in Hr. lia. }
    exists p2, (evs ++ evs'). split; [|done].
    by rewrite (run_frames_cons _ _ _ _ _ _ _ _ _ E E').
Qed.

(** The partial messages are bytes. *)
Record sp_wf (sp : sctp_peer) : Prop := {
  sw_table : table_wf (sp_peer sp) (leases []);
  sw_reassembly : exists q, reassembly_rep (sp_reassembly sp) q /\
    map_Forall (fun _ => collecting bytes) (pa_map q);
}.

Lemma on_peer_ok env sp (r : res (turbo_dc_peer_s * list frame)) :
  sp_wf sp -> call_keeps (sp_peer sp) (leases []) (frames_of r) ->
  exists sp' evs, on_peer env sp r = Ok (sp', evs) /\ sp_wf sp'.
Proof.
  intros [_ Hre] (p & evs & more & E & [Hk Hi] & Hn). unfold frames_of in E.
  apply bind_Ok in E as ([p1 fs] & -> & [= -> _ ->]). unfold on_peer, run_all.
  cbn [mbind res_bind].
  destruct (run_frames_ok env (rank more) p more) as (p' & evs' & -> & Hw); [|done|].
  { split; [|done]. eapply table_wf_ext; [done|done|]. intros b. cbn. rewrite leases_nil. lia. }
  cbn [mbind res_bind]. eexists _, _. split; [done|]. by split.
Qed.

Lemma sp_wf_same sp p :
  sp_wf sp -> same_table (sp_peer sp) p -> sp_wf (with_peer sp p).
Proof. intros [Hw Hre] Hs. split; [|done]. by eapply table_wf_ext. Qed.

Lemma sp_wf_reassembly sp r q :
  sp_wf sp -> reassembly_rep r q ->
  map_Forall (fun _ => collecting bytes) (pa_map q) ->
  sp_wf (with_reassembly sp r).
Proof. intros [Hw _] Hr Hb. split; [done|]. by exists q. Qed.

(** Clearing keeps the partial messages a part of what they were. *)
Lemma sp_wf_clear sp op r' :
  sp_wf sp -> (forall rcv eor bytes ok, op <> OpFragment rcv eor bytes ok) ->
  reassembly_step (sp_reassembly sp) op = Ok (r', None) -> sp_wf (with_reassembly sp r').
Proof.
  intros Hs Hop E. pose proof Hs as [_ (q & Hr & Hb)].
  destruct (reassembly_step_refines _ _ op Hr) as (r1 & E1 & Hr1).
  rewrite E in E1. injection E1 as <- _. eapply sp_wf_reassembly; [done|exact Hr1|].
  destruct op as [rcv eor bs ok| |assoc sid ssn|assoc sid]; cbn; [by destruct (Hop rcv eor bs ok)| | |].
  - apply map_Forall_empty.
  - intros id x [Hx _]%map_lookup_filter_Some. by apply (Hb id).
  - intros id x [Hx _]%map_lookup_filter_Some. by apply (Hb id).
Qed.

Lemma receive_error_ok sp :
  sp_wf sp -> exists sp' evs, receive_error sp = Ok (sp', evs) /\ sp_wf sp'.
Proof. intros Hs. eexists _, _. split; [done|]. by apply sp_wf_same. Qed.

Lemma reset_streams_ok env sp assoc streams reset :
  sp_wf sp ->
  exists sp' evs, reset_streams env sp assoc streams reset = Ok (sp', evs) /\ sp_wf sp'.
Proof.
  revert sp. induction streams as [|sid streams IH]; intros sp Hs; cbn [reset_streams];
    [by eexists _, _|].
  set (sp1 := with_reassembly _ _).
  assert (Hs1 : sp_wf sp1) by (by apply (sp_wf_clear sp (OpClearStream assoc sid))).
  edestruct (on_peer_ok env sp1 (dc_channel_handle_stream_reset (sp_peer sp1) sid reset))
    as (sp2 & evs & -> & Hs2); [done| |].
  { apply (call_keeps_admit _ _ sid (fun a => ResetAdmitted a reset)); [apply Hs1|done|done]. }
  cbn [mbind res_bind]. destruct (IH sp2 Hs2) as (sp3 & evs' & -> & Hs3).
  by eexists _, _.
Qed.

Lemma notified_ok env sp n :
  sp_wf sp -> exists sp' evs, sctp_notified env sp n = Ok (sp', evs) /\ sp_wf sp'.
Proof.
  intros Hs. assert (Hclear : sp_wf (with_reassembly sp (sctp_reassembly_clear_all (sp_reassembly sp))))
    by (by apply (sp_wf_clear sp OpClearAll)).
  destruct n as [[]|aborted assoc sid ssn|bad inc out assoc streams cap ok|]; cbn [sctp_notified];
    try by eexists _, _.
  - pose proof (notify_same (sp_peer sp) STATE_CONNECTED) as Hn.
    destruct (dc_notify_state (sp_peer sp) STATE_CONNECTED) as [p evs].
    eexists _, _. split; [done|]. by destruct (sp_wf_same sp p Hs Hn).
  - eexists _, _. split; [done|]. by split; apply Hclear.
  - eexists _, _. split; [done|]. by split; apply Hclear.
  - eexists _, _. split; [done|]. by split; apply Hclear.
  - unfold sctp_handle_partial_delivery_event. destruct aborted; [|by eexists _, _].
    apply receive_error_ok. by apply (sp_wf_clear sp (OpClearIdentity assoc (u16 sid) (u16 ssn))).
  - unfold sctp_handle_stream_reset_event. destruct (_ || _); [by eexists _, _|].
    destruct streams as [|sid streams]; [|by apply reset_streams_ok].
    apply on_peer_ok; [done|]. apply reset_all_ok, Hclear.
Qed.

(** What a delivery of data may assume. *)
Record data_ok (sp : sctp_peer) (d : sctp_data) : Prop := {
  do_bytes : bytes (sd_bytes d);
  do_sid : is_u16 (rcv_sid (sd_rcv d));
  do_unused : pe_heap (sp_peer sp) !! sd_calloc d = None;
}.

Lemma dispatch_ok env sp d message :
  sp_wf sp -> data_ok sp d -> bytes message ->
  exists sp' evs, sctp_dispatch env sp d message = Ok (sp', evs) /\ sp_wf sp'.
Proof.
  intros Hs [Hb Hu Hf] Hm. unfold sctp_dispatch.
  assert (Hdeliver : forall logical bin, exists sp' evs,
    on_peer env sp (dc_channel_handle_message (sp_peer sp) (rcv_sid (sd_rcv d)) logical bin) =
    Ok (sp', evs) /\ sp_wf sp').
  { intros logical bin. apply on_peer_ok; [done|].
    apply (call_keeps_admit _ _ _ (fun a => MessageAdmitted a logical bin)); [apply Hs|done|done]. }
  destruct (_ =? SCTP_PPID_DCEP).
  { apply on_peer_ok; [done|]. apply handle_message_ok; [apply Hs|done..]. }
  destruct (_ || _); [destruct (len message =? 0); [by apply receive_error_ok|apply Hdeliver]|].
  destruct (_ || _); [|by apply receive_error_ok].
  destruct (negb (len message =? 1)) eqn:El; cbn [mbind res_bind]; [by apply receive_error_ok|].
  destruct (rd_in_range message 0) as [b ->]; [lia|]. cbn [mbind res_bind].
  destruct (negb (b =? 0)); [by apply receive_error_ok|apply Hdeliver].
Qed.

Lemma bad_fragment_false bs :
  bad_fragment bs = false -> len (A:=Z) [] + len bs <= SCTP_REASSEMBLY_MESSAGE_MAX.
Proof. unfold bad_fragment. intros [_ H]%orb_false_iff. rewrite len_nil. lia. Qed.

(** What every collected prefix satisfies, every message delivered satisfies. *)
Lemma reassemble_collecting (Q : list Z -> Prop) q rcv eor bs ok q' d :
  reassemble q rcv eor bs ok = (q', d) -> Q [] ->
  (forall g, Q g -> len g + len bs <= SCTP_REASSEMBLY_MESSAGE_MAX -> Q (g ++ bs)) ->
  map_Forall (fun _ => collecting Q) (pa_map q) ->
  map_Forall (fun _ => collecting Q) (pa_map q') /\
  match d with Message m => Q m | _ => True end.
Proof.
  set (P := fun _ : ident => _). intros E Hn Ha Hq.
  assert (Hdel : forall id, map_Forall P (delete id (pa_map q))) by (intros; by apply map_Forall_delete).
  assert (Hins : forall id x, P id x -> map_Forall P (<[id := x]> (pa_map q)))
    by (intros; by apply map_Forall_insert_2).
  assert (Hdrop : forall id ppid e, map_Forall P (drop_message (pa_map q) id ppid e)).
  { intros id ppid []; [apply Hdel|by apply Hins]. }
  assert (Hcol : forall id ppid g e m d', Q g -> collect (pa_map q) id ppid g bs e = (m, d') ->
    map_Forall P m /\ match d' with Message m => Q m | _ => True end).
  { intros id ppid g e m d' Hg. unfold collect.
    destruct (_ <? _) eqn:El; [intros [= <- <-]; split; [apply Hdrop|done]|].
    assert (Q (g ++ bs)) by (apply Ha; [done|lia]).
    destruct e; intros [= <- <-]; (split; [|done]); [apply Hdel|by apply Hins]. }
  unfold reassemble in E. destruct (pa_blocked q); [by injection E as <- <-|].
  destruct (pa_map q !! rcv_ident rcv) as [x|] eqn:Ex.
  - destruct (bad_fragment bs); [injection E as <- <-; split; [apply Hdrop|done]|].
    destruct (negb _); [injection E as <- <-; split; [apply Hdel|done]|].
    destruct x as [ppid g|ppid].
    + destruct (collect _ _ _ _ _ _) as [m d'] eqn:Ec. injection E as <- <-.
      eapply Hcol; [|exact Ec]. by apply (Hq _ _ Ex).
    + injection E as <- <-. destruct eor; (split; [|done]); [apply Hdel|done].
  - destruct eor.
    { injection E as <- <-. split; [done|]. destruct (bad_fragment bs) eqn:Eb; [done|].
      apply (Ha [] Hn). by apply bad_fragment_false. }
    destruct (negb _); [injection E as <- <-; split; [apply map_Forall_empty|done]|].
    destruct (_ || _); [injection E as <- <-; split; [by apply Hins|done]|].
    destruct (collect _ _ _ _ _ _) as [m d'] eqn:Ec. injection E as <- <-.
    exact (Hcol _ _ _ _ _ _ Hn Ec).
Qed.

(** No message is longer than a slot. *)
Lemma partials_run_bound q ops :
  map_Forall (fun _ => collecting (fun g => len g <= SCTP_REASSEMBLY_MESSAGE_MAX)) (pa_map q) ->
  forall m, Message m ∈ (partials_run q ops).2 -> len m <= SCTP_REASSEMBLY_MESSAGE_MAX.
Proof.
  revert q. induction ops as [|op ops IH]; intros q Hq m; [by intros ?%elem_of_nil|].
  cbn [partials_run]. destruct (partials_step q op) as [q1 d] eqn:E1.
  specialize (IH q1). destruct (partials_run q1 ops) as [q2 ds]. cbn [snd] in *.
  assert (map_Forall (fun _ => collecting (fun g => len g <= SCTP_REASSEMBLY_MESSAGE_MAX))
    (pa_map q1) /\ match d with Some (Message m) => len m <= SCTP_REASSEMBLY_MESSAGE_MAX
                   | _ => True end) as [H1 Hd].
  { destruct op; cbn [partials_step] in E1; try (injection E1 as <- <-; split; [|done]).
    - destruct (reassemble _ _ _ _ _) as [q' d'] eqn:Er. injection E1 as <- <-.
      eapply reassemble_collecting in Er; [exact Er|done|..|done].
      intros g _ Hl. cbn beta. by rewrite len_app.
    - apply map_Forall_empty.
    - intros id x [Hx _]%map_lookup_filter_Some. by apply (Hq id).
    - intros id x [Hx _]%map_lookup_filter_Some. by apply (Hq id). }
  rewrite elem_of_app. intros [Hm|Hm]; [|by apply IH].
  destruct d as [d|]; cbn in Hm; [|by apply elem_of_nil in Hm].
  apply list_elem_of_singleton in Hm as <-. exact Hd.
Qed.

Lemma received_ok env sp d :
  sp_wf sp -> data_ok sp d ->
  exists sp' evs, sctp_received env sp d = Ok (sp', evs) /\ sp_wf sp'.
Proof.
  intros Hs Hd. pose proof Hs as [_ (q & Hr & Hq)]. unfold sctp_received.
  destruct (reassemble_rep _ _ (sd_rcv d) (sd_eor d) (sd_bytes d) (sd_malloc_ok d) Hr)
    as (r & rs & -> & Hr' & Hrs). cbn [mbind res_bind].
  destruct (reassemble q _ _ _ _) as [q' dl] eqn:E. cbn [fst snd] in *.
  destruct (reassemble_collecting bytes _ _ _ _ _ _ _ E) as [Hq' Hm];
    [constructor|intros g Hg _; apply Forall_app_2; [done|by apply Hd]|done|].
  rewrite (delivered_rep _ _ _ Hrs).
  assert (Hs' : sp_wf (with_reassembly sp r)) by by eapply sp_wf_reassembly.
  destruct dl as [|message|]; [by eexists _, _|apply dispatch_ok; [done|by split; apply Hd|done]|].
  destruct (re_blocked r); [|by apply receive_error_ok].
  cbn [with_reassembly sp_peer]. pose proof (fail_same (sp_peer sp) ERROR_SCTP_RECEIVE) as Hf.
  destruct (dc_fail_peer _ _) as [p evs]. eexists _, _. split; [done|]. by apply sp_wf_same.
Qed.

(* ------------------------------------------------------------------ *)
(** ** A message from end to end *)

Definition data_of (rcv : sctp_rcvinfo) (eor : bool) (bytes : list Z) : sctp_data :=
  Build_sctp_data rcv eor bytes true 1 mem_ok true.

(** A message delivered in pieces. *)
Fixpoint carry (rcv : sctp_rcvinfo) (pieces : list (list Z))
    : list (sctp_notification + sctp_data) :=
  match pieces with
  | [] => []
  | [bytes] => [inr (data_of rcv true bytes)]
  | bytes :: pieces => inr (data_of rcv false bytes) :: carry rcv pieces
  end.

(** What has been collected of the message so far. *)
Definition collected (q : partials) (rcv : sctp_rcvinfo) (bs : list Z) : Prop :=
  pa_blocked q = false /\
  ((bs = [] /\ pa_map q !! rcv_ident rcv = None /\ room_left (pa_map q) = true) \/
   pa_map q !! rcv_ident rcv = Some (Collecting (rcv_ppid rcv) bs)).

Lemma good_fragment bs :
  bs <> [] -> len bs <= SCTP_REASSEMBLY_MESSAGE_MAX -> bad_fragment bs = false.
Proof.
  intros Hne Hl. unfold bad_fragment. destruct bs as [|b bs]; [done|]. rewrite len_cons in *.
  pose proof (len_nonneg bs). apply orb_false_iff. lia.
Qed.

Lemma reassemble_piece q rcv got bs eor :
  collected q rcv got -> bs <> [] -> len got + len bs <= SCTP_REASSEMBLY_MESSAGE_MAX ->
  exists q', reassemble q rcv eor bs true =
      (q', if eor then Message (got ++ bs) else Pending) /\
    (eor = false -> collected q' rcv (got ++ bs)).
Proof.
  intros [Hb Hm] Hne Hl. pose proof (len_nonneg got).
  assert (Hg : bad_fragment bs = false) by (apply good_fragment; [done|lia]).
  assert (Ho : (SCTP_REASSEMBLY_MESSAGE_MAX <? len got + len bs) = false) by lia.
  unfold reassemble. rewrite Hb, Hg. destruct Hm as [(-> & -> & ->)| ->].
  - destruct eor; [by exists q|]. cbn [negb orb]. unfold collect. rewrite Ho.
    eexists. split; [done|]. intros _. split; [done|]. right. apply lookup_insert_eq.
  - cbn [partial_ppid]. rewrite Z.eqb_refl. cbn [negb]. unfold collect. rewrite Ho.
    destruct eor; eexists; (split; [done|]); [done|]. intros _. split; [done|]. right.
    apply lookup_insert_eq.
Qed.

Lemma carry_dispatch env rcv pieces sp q got :
  pe_destroying (sp_peer sp) = false -> reassembly_rep (sp_reassembly sp) q ->
  collected q rcv got -> pieces <> [] -> Forall (fun bs => bs <> []) pieces ->
  len got + len (concat pieces) <= SCTP_REASSEMBLY_MESSAGE_MAX ->
  exists r last, sctp_inbound_run env sp (carry rcv pieces) =
    ('(sp', evs) ← sctp_dispatch env (with_reassembly sp r) (data_of rcv true last)
                     (got ++ concat pieces);
     Ok (sp', evs ++ [])).
Proof.
  intros Hd. revert sp q got Hd. induction pieces as [|bs pieces IH]; intros sp q got Hd Hr Hc Hne Hp Hl;
    [done|]. apply Forall_cons in Hp as [Hbs Hp]. cbn [concat] in Hl. rewrite len_app in Hl.
  pose proof (len_nonneg (concat pieces)).
  set (eor := match pieces with [] => true | _ => false end).
  destruct (reassemble_piece q rcv got bs eor Hc Hbs ltac:(lia)) as (q' & E & Hc').
  destruct (reassemble_rep _ _ rcv eor bs true Hr) as (r & rs & Ers & Hr' & Hrs).
  rewrite E in Hr', Hrs. cbn [fst snd] in Hr', Hrs. apply delivered_rep in Hrs.
  assert (Hstep : sctp_inbound_packet_cb env sp (inr (data_of rcv eor bs)) =
    (if eor then sctp_dispatch env (with_reassembly sp r) (data_of rcv eor bs) (got ++ bs)
     else Ok (with_reassembly sp r, []))).
  { unfold sctp_inbound_packet_cb, sctp_received. rewrite Hd.
    cbn [data_of sd_rcv sd_eor sd_bytes sd_malloc_ok]. rewrite Ers. cbn [mbind res_bind].
    rewrite Hrs. by destruct eor. }
  destruct pieces as [|bs' pieces].
  - exists r, bs. change (carry rcv [bs]) with [inr (data_of rcv eor bs) : sctp_notification + sctp_data].
    cbn [sctp_inbound_run]. rewrite Hstep. cbn [eor concat]. by rewrite app_nil_r.
  - destruct (IH (with_reassembly sp r) q' (got ++ bs)) as (r' & last & E'); try done.
    { by apply Hc'. }
    { rewrite len_app. lia. }
    exists r', last. change (carry rcv (bs :: bs' :: pieces)) with
      ((inr (data_of rcv eor bs) : sctp_notification + sctp_data) :: carry rcv (bs' :: pieces)).
    cbn [sctp_inbound_run]. rewrite Hstep.
    cbn [eor mbind res_bind]. rewrite E', <- app_assoc.
    change (with_reassembly (with_reassembly sp r) r') with (with_reassembly sp r').
    cbn [concat]. generalize (sctp_dispatch env (with_reassembly sp r') (data_of rcv true last)
      (got ++ bs ++ bs' ++ concat pieces)). by intros [[? ?]| |].
Qed.

(** A channel whose application listens, between two operations. *)
Record listening (p : turbo_dc_peer_s) (b : positive) (c : turbo_dc_channel_s) (cb : Z)
    : Prop := {
  li_heap : pe_heap p !! b = Some c;
  li_map : pe_channels p !! ch_id c = Some b;
  li_alive : pe_destroying p = false;
  li_open : ch_is_open c = true;
  li_closing : ch_closing c = false;
  li_refs : ch_callback_refs c = 0;
  li_callback : ch_on_message c = Some cb;
}.

(** Delivering a message leaves the peer as it was. *)
Lemma deliver_message env sp b c cb data bin :
  listening (sp_peer sp) b c cb ->
  on_peer env sp (dc_channel_handle_message (sp_peer sp) (ch_id c) data bin) =
  Ok (sp, [EvOnMessage cb b data bin]).
Proof.
  intros []. set (p := sp_peer sp) in *.
  set (c1 := set_channel c (ch_is_open c) (ch_dcep_sent c) (ch_closing c) 1).
  assert (E1 : dc_channel_handle_message p (ch_id c) data bin =
    Ok (store p b c1, [MessageAdmitted b data bin])).
  { unfold dc_channel_handle_message, dc_channel_admit, peer_get_channel.
    rewrite li_alive0, li_map0. cbn [negb]. rewrite (deref_Some _ _ _ li_heap0).
    cbn [mbind res_bind]. unfold c1. by rewrite li_closing0, li_refs0. }
  assert (Hback : store (store p b c1) b (set_channel c1 (ch_is_open c1) (ch_dcep_sent c1)
      (ch_closing c1) 0) = p).
  { rewrite store_store. unfold c1, set_channel. cbn. rewrite <- li_refs0.
    replace (Build_turbo_dc_channel_s _ _ _ _ _ _ _ _ _ _ _ _ _) with c by (by destruct c).
    unfold store, set_heap, set_table. rewrite insert_id by done. by destruct p. }
  assert (Hm : frame_run env (store p b c1) (MessageAdmitted b data bin) =
    Ok (store p b c1, [EvOnMessage cb b data bin], [Release b None])).
  { cbn [frame_run]. rewrite deref_store. cbn [mbind res_bind].
    change (ch_closing c1) with (ch_closing c). change (ch_is_open c1) with (ch_is_open c).
    change (ch_on_message c1) with (ch_on_message c).
    change (pe_destroying (store p b c1)) with (pe_destroying p).
    by rewrite li_closing0, li_open0, li_alive0, li_callback0. }
  assert (Hr : frame_run env (store p b c1) (Release b None) = Ok (p, [], [])).
  { cbn [frame_run]. unfold dc_channel_release. rewrite deref_store. cbn [mbind res_bind].
    change (if 0 <? ch_callback_refs c1 then _ else _) with 0. rewrite Hback.
    change (ch_closing c1) with (ch_closing c). by rewrite li_closing0. }
  unfold on_peer, run_all. rewrite E1. cbn [mbind res_bind].
  change (rank [MessageAdmitted b data bin]) with 2%nat.
  rewrite (run_frames_cons 1 env _ _ [] _ _ _ (p, []) Hm).
  - cbn [mbind res_bind fst snd app]. do 2 f_equal. by destruct sp.
  - cbn [app]. by rewrite (run_frames_cons 0 env _ _ [] _ _ _ (p, []) Hr).
Qed.

(** Closing and polling keep the peer consistent; closing frees every buffer. *)
Lemma dc_peer_close_ok sp :
  sp_wf sp ->
  sp_wf (dc_peer_close sp).1 /\ sp_connected (dc_peer_close sp).1 = false /\
  Forall (fun s => s = empty_slot) (re_slots (sp_reassembly (dc_peer_close sp).1)).
Proof.
  intros Hs. unfold dc_peer_close.
  pose proof (close_impl_same (sp_peer (sctp_session_cleanup sp))) as Hc.
  destruct (dc_peer_close_impl _) as [p evs]. cbn [fst] in *. split_and!; [|done|].
  - apply sp_wf_same; [|exact Hc].
    destruct (sp_wf_clear sp OpClearAll _ Hs ltac:(done) eq_refl) as [H1 H2]. by split.
  - apply Forall_fmap, Forall_true. done.
Qed.

Lemma sctp_poll_status_ok sp handshake_done status_ok established cookie_echoed out inc :
  sp_wf sp ->
  sp_wf (sctp_poll_status sp handshake_done status_ok established cookie_echoed out inc).1.
Proof.
  intros Hs. unfold sctp_poll_status. destruct (_ || negb status_ok); [done|].
  destruct (_ && _); [|done].
  pose proof (notify_same (sp_peer sp) STATE_CONNECTED) as Hn.
  destruct (dc_notify_state _ _) as [p evs]. destruct (sp_wf_same sp p Hs Hn) as [H1 H2]. by split.
Qed.

(** What a sender puts on the wire for a message: the identifier and the bytes. *)
Definition wire_of (data : list Z) (is_binary : bool) : Z * list Z :=
  if len data =? 0 then
    (if is_binary then SCTP_PPID_BINARY_EMPTY else SCTP_PPID_STRING_EMPTY, [0])
  else (if is_binary then SCTP_PPID_BINARY else SCTP_PPID_STRING, data).

Lemma wire_nonempty data bin : [] <> (wire_of data bin).2.
Proof. by destruct data, bin. Qed.

Lemma wire_fits data bin :
  len data <= SCTP_REASSEMBLY_MESSAGE_MAX ->
  len (A:=Z) [] + len (wire_of data bin).2 <= SCTP_REASSEMBLY_MESSAGE_MAX.
Proof. unfold wire_of. by destruct (len data =? 0). Qed.

(** Dispatching it. *)
Lemma dispatch_message env sp rcv last b c cb data bin :
  listening (sp_peer sp) b c cb -> rcv_sid rcv = ch_id c ->
  rcv_ppid rcv = (wire_of data bin).1 ->
  sctp_dispatch env sp (data_of rcv true last) (wire_of data bin).2 =
  Ok (sp, [EvOnMessage cb b data bin]).
Proof.
  intros Hl Hid Hp. rewrite <- (deliver_message env sp b c cb data bin Hl), <- Hid.
  unfold sctp_dispatch. cbn [data_of sd_rcv]. rewrite Hp.
  destruct data as [|x data]; [by destruct bin|]. unfold wire_of.
  pose proof (len_nonneg data). rewrite len_cons. test (1 + len data =? 0) false.
  destruct bin; cbn [fst snd]; rewrite len_cons; test (1 + len data =? 0) false; done.
Qed.

Lemma send_message env p a c data bin :
  pe_heap p !! a = Some c -> ch_is_open c = true -> ch_closing c = false ->
  pe_socket p = true -> bad_limits (ch_config c) = false ->
  env_sendv env (wire_of data bin).2 = len (wire_of data bin).2 ->
  dc_channel_send_owner_impl env p a (Some data) bin =
  Ok (p, 0, [EvSend (ch_id c) (wire_of data bin).1 (truth (ordered (ch_config c)))
               (send_limit (ch_config c)) (wire_of data bin).2]).
Proof.
  intros Ha Ho Hc Hs Hb He. unfold dc_channel_send_owner_impl.
  rewrite (deref_Some _ _ _ Ha). cbn [mbind res_bind]. rewrite Ho, Hc, Hs. cbn [negb andb].
  fold (wire_of data bin). destruct (wire_of data bin) as [ppid wire]. cbn [fst snd] in *.
  rewrite Hb, He, Z.eqb_refl. pose proof (len_nonneg wire). by test (len wire <? 0) false.
Qed.

(* ------------------------------------------------------------------ *)
(** ** Properties *)

(** C37: the slots implement the specification.  From the empty state any
    sequence of fragments and clears runs without touching memory outside a
    buffer, delivers exactly what the map of partial messages delivers, and
    leaves slots that represent that map. *)
Theorem reassembly_refines ops :
  exists r', reassembly_run reassembly_init ops = Ok (r', (partials_run partials_init ops).2) /\
    reassembly_rep r' (partials_run partials_init ops).1.
Proof. apply reassembly_run_refines, reassembly_init_rep. Qed.

(** Messages are delivered as they were sent, however their fragments
    interleave.  When no fragment is rejected, the messages delivered for each
    identity (association, stream, sequence number and order) are the fragments
    of that identity, in their order, cut after each last fragment. *)
Theorem reassembly_interleaving fs r ds :
  reassembly_run reassembly_init (fragment_op <$> fs) = Ok (r, ds) -> Rejected ∉ ds ->
  forall id, omap (message_on id) (zip fs ds) = cut [] (omap (part_of id) fs).
Proof.
  intros E Hrej id. destruct (reassembly_run_refines _ _ (fragment_op <$> fs)
    reassembly_init_rep) as (r' & E' & _).
  rewrite E in E'. injection E' as _ ->.
  destruct (partials_run partials_init (fragment_op <$> fs)) as [q' ds] eqn:Eq.
  change [] with (got partials_init id). by eapply partials_run_cut.
Qed.

(** Whatever the SCTP library delivers, the receiving side does not fault:
    it processes the notification or the data to the end and keeps the channel
    table, its bitmap, the leases and the reassembly slots consistent. *)
Theorem sctp_inbound_safe env sp input :
  sp_wf sp -> (forall d, input = inr d -> data_ok sp d) ->
  exists sp' evs, sctp_inbound_packet_cb env sp input = Ok (sp', evs) /\ sp_wf sp'.
Proof.
  intros Hs Hd. unfold sctp_inbound_packet_cb.
  destruct (pe_destroying (sp_peer sp)); [by eexists _, _|].
  destruct input as [n|d]; [by apply notified_ok|apply received_ok; [done|by apply Hd]].
Qed.

(** C38: a message of at most [SCTP_REASSEMBLY_MESSAGE_MAX] (24576) bytes sent on
    an open channel is the message the remote application receives.  What
    [turbo_dc_channel_send] hands to SCTP (the limits of the channel valid, the
    whole wire accepted by the environment), cut into pieces anyhow and delivered
    piece by piece on a stream whose channel is open at the other end and for
    which a reassembly slot is free, makes exactly one [on_message] with the sent
    bytes and type, the empty message included, and leaves the peer's table as it
    was.  A longer message is sent as well but dropped by the receiver
    ([long_message_dropped] below). *)
Theorem sctp_message_roundtrip envA envB pA a ca data bin sp b c cb q rcv pieces :
  pe_heap pA !! a = Some ca -> ch_is_open ca = true -> ch_closing ca = false ->
  pe_socket pA = true -> bad_limits (ch_config ca) = false ->
  (forall wire, env_sendv envA wire = len wire) ->
  len data <= SCTP_REASSEMBLY_MESSAGE_MAX ->
  listening (sp_peer sp) b c cb -> ch_id c = ch_id ca ->
  reassembly_rep (sp_reassembly sp) q -> collected q rcv [] ->
  exists ppid wire,
    dc_channel_send_owner_impl envA pA a (Some data) bin =
      Ok (pA, 0, [EvSend (ch_id ca) ppid (truth (ordered (ch_config ca)))
                    (send_limit (ch_config ca)) wire]) /\
    (rcv_sid rcv = ch_id ca -> rcv_ppid rcv = ppid ->
     concat pieces = wire -> Forall (fun bs => bs <> []) pieces ->
     exists sp', sctp_inbound_run envB sp (carry rcv pieces) =
         Ok (sp', [EvOnMessage cb b data bin]) /\ sp_peer sp' = sp_peer sp).
Proof.
  intros Ha Ho Hc Hs Hb He Hlen Hl Hid Hr Hcol. do 2 eexists.
  split; [by apply (send_message envA pA a ca data bin)|]. intros Hsid Hppid Hw Hp.
  assert (Hwl : len (A:=Z) [] + len (concat pieces) <= SCTP_REASSEMBLY_MESSAGE_MAX)
    by (rewrite Hw; by apply wire_fits).
  destruct (carry_dispatch envB rcv pieces sp q []) as (r & last & E); try done.
  { apply (li_alive _ _ _ _ Hl). }
  { intros ->. by apply (wire_nonempty data bin). }
  exists (with_reassembly sp r). split; [|done]. rewrite E, Hw. cbn [app].
  by rewrite (dispatch_message envB (with_reassembly sp r) rcv last b c cb data bin Hl
    ltac:(by rewrite Hid) Hppid).
Qed.

(** A message the application receives fits a reassembly slot.  Whatever
    the fragments and the clears, no message longer than
    [SCTP_REASSEMBLY_MESSAGE_MAX] is ever delivered. *)
Theorem reassembly_message_bound ops r ds m :
  reassembly_run reassembly_init ops = Ok (r, ds) -> Message m ∈ ds ->
  len m <= SCTP_REASSEMBLY_MESSAGE_MAX.
Proof.
  intros E Hm. destruct (reassembly_run_refines _ _ ops reassembly_init_rep) as (r' & E' & _).
  rewrite E in E'. injection E' as _ ->. by eapply (partials_run_bound partials_init).
Qed.

(* ------------------------------------------------------------------ *)
(** ** Observation *)

(** The offer announces messages of up to 262144 bytes (turbo_peer_connection.c,
    turbo_sdp.c), and [turbo_dc_channel_send] takes them; the receiving side
    drops any message of more than [SCTP_REASSEMBLY_MESSAGE_MAX] bytes. *)
Lemma long_message_dropped env sp d q :
  reassembly_rep (sp_reassembly sp) q -> pa_blocked q = false ->
  pa_map q !! rcv_ident (sd_rcv d) = None -> sd_eor d = true ->
  SCTP_REASSEMBLY_MESSAGE_MAX < len (sd_bytes d) -> pe_destroying (sp_peer sp) = false ->
  exists sp', sctp_inbound_packet_cb env sp (inr d) = Ok (sp', []) /\
    pe_last_error (sp_peer sp') = Some ERROR_SCTP_RECEIVE.
Proof.
  intros Hr Hb Hm He Hl Hd. unfold sctp_inbound_packet_cb, sctp_received. rewrite Hd, He.
  destruct (reassemble_rep _ _ (sd_rcv d) true (sd_bytes d) (sd_malloc_ok d) Hr)
    as (r & rs & -> & Hr' & Hrs). cbn [mbind res_bind].
  assert (E : reassemble q (sd_rcv d) true (sd_bytes d) (sd_malloc_ok d) = (q, Rejected)).
  { unfold reassemble. rewrite Hb, Hm. unfold bad_fragment.
    by rewrite (proj2 (Z.ltb_lt _ _) Hl), orb_true_r. }
  rewrite E in Hr', Hrs. cbn [fst snd] in *. rewrite (delivered_rep _ _ _ Hrs), (rr_blocked _ _ Hr'), Hb.
  by eexists.
Qed.

(* ------------------------------------------------------------------ *)
(** ** Witnesses *)

Definition ex_rcv (sid ppid : Z) : sctp_rcvinfo := Build_sctp_rcvinfo sid 0 ppid 7 false.

(** Two messages in turn, on streams 0 and 2. *)
Definition ex_fragments : list fragment :=
  [Build_fragment (ex_rcv 0 51) false [104] true;
   Build_fragment (ex_rcv 2 53) false [1; 2] true;
   Build_fragment (ex_rcv 0 51) true [105] true;
   Build_fragment (ex_rcv 2 53) true [3] true].

Definition ex_deliveries : list delivery :=
  [Pending; Pending; Message [104; 105]; Message [1; 2; 3]].

Lemma ex_interleaved :
  match reassembly_run reassembly_init (fragment_op <$> ex_fragments) with
  | Ok (_, ds) => ds = ex_deliveries
  | _ => False
  end.
Proof. by vm_compute. Qed.

Lemma reassembly_interleaving_witness :
  omap (message_on (rcv_ident (ex_rcv 2 53))) (zip ex_fragments ex_deliveries) = [[1; 2; 3]].
Proof.
  pose proof ex_interleaved as E.
  destruct (reassembly_run _ _) as [[r ds]| |] eqn:Er; [|done..]. subst ds.
  rewrite (reassembly_interleaving ex_fragments r ex_deliveries Er); [by vm_compute|].
  unfold ex_deliveries. rewrite !not_elem_of_cons. by repeat split; try apply not_elem_of_nil.
Defined.

Lemma reassembly_message_bound_witness : len [104; 105] <= SCTP_REASSEMBLY_MESSAGE_MAX.
Proof.
  pose proof ex_interleaved as E.
  destruct (reassembly_run _ _) as [[r ds]| |] eqn:Er; [|done..]. subst ds.
  apply (reassembly_message_bound (fragment_op <$> ex_fragments) r ex_deliveries _ Er).
  by apply (list_elem_of_lookup_2 _ 2).
Defined.

(** A server with nothing received yet. *)
Definition ex_sctp : sctp_peer := Build_sctp_peer ex_server reassembly_init true.

Lemma ex_sctp_wf : sp_wf ex_sctp.
Proof.
  split.
  - by apply empty_wf.
  - exists partials_init. split; [apply reassembly_init_rep|apply map_Forall_empty].
Qed.

(** The remote OPEN, as SCTP delivers it. *)
Definition ex_open_data : sctp_data :=
  Build_sctp_data (ex_rcv 0 SCTP_PPID_DCEP) true ex_open true 1 mem_ok true.

Lemma sctp_inbound_safe_witness :
  exists sp' evs, sctp_inbound_packet_cb ex_env ex_sctp (inr ex_open_data) = Ok (sp', evs) /\
    sp_wf sp'.
Proof.
  apply (sctp_inbound_safe ex_env ex_sctp (inr ex_open_data) ex_sctp_wf).
  intros d [= <-]. split; [|done|done]. repeat constructor; done.
Defined.

(** Both ends of a channel on stream 0, the far one listening. *)
Definition ex_sender : turbo_dc_peer_s :=
  store ex_owner 1 (set_channel ex_owner_channel true true false 0).
Definition ex_listener : turbo_dc_channel_s :=
  set_callbacks (set_channel ex_incoming true false false 0) 0 None (Some 9) None.
Definition ex_receiver : sctp_peer :=
  Build_sctp_peer (published ex_server 0 1 ex_listener) reassembly_init true.

Lemma sctp_message_roundtrip_witness :
  exists ppid wire,
    dc_channel_send_owner_impl ex_env ex_sender 1 (Some [104; 105; 33]) false =
      Ok (ex_sender, 0, [EvSend 0 ppid true None wire]) /\
    (rcv_sid (ex_rcv 0 51) = 0 -> rcv_ppid (ex_rcv 0 51) = ppid ->
     concat [[104]; [105; 33]] = wire -> Forall (fun bs : list Z => bs <> []) [[104]; [105; 33]] ->
     exists sp', sctp_inbound_run ex_env ex_receiver (carry (ex_rcv 0 51) [[104]; [105; 33]]) =
         Ok (sp', [EvOnMessage 9 1 [104; 105; 33] false]) /\
       sp_peer sp' = sp_peer ex_receiver).
Proof.
  apply (sctp_message_roundtrip ex_env ex_env ex_sender 1
    (set_channel ex_owner_channel true true false 0) [104; 105; 33] false ex_receiver 1
    ex_listener 9 partials_init (ex_rcv 0 51) [[104]; [105; 33]]); try done.
  - apply reassembly_init_rep.
  - split; [done|]. by left.
Defined.

(** The pieces of the witness do meet its conditions. *)
Example ex_message_carried :
  match sctp_inbound_run ex_env ex_receiver (carry (ex_rcv 0 51) [[104]; [105; 33]]) with
  | Ok (_, evs) => evs = [EvOnMessage 9 1 [104; 105; 33] false]
  | _ => False
  end.
Proof. by vm_compute. Qed.
