(* ===== verification/Tickets.v ===== *)
(** * Tickets

    The tables of rows that the stream graph's owners keep, and the tickets that
    name them.  tm_ho_ticket_v1 and tm_pc_ticket_v1 are the same structure: the
    incarnation of the table, the index of a row and the number of times that row
    was handed out.  A table finds a row by its ticket (ho_find, pc_find), hands
    out its first free row, and takes the ready row of least order; the interface
    [Row] is what these scans need to know of a row. *)

From stdpp Require Import list countable gmap sorting.
From S2P Require Import Prelude.

Definition U32_MAX : Z := 4294967295.
Definition U64_MAX : Z := 18446744073709551615.

Record ticket := { tk_incarnation : Z; tk_slot : Z; tk_generation : Z }.

Definition no_ticket : ticket := Build_ticket 0 0 0.

#[export] Instance ticket_eq_dec : EqDecision ticket.
Proof. solve_decision. Defined.

#[export] Instance ticket_countable : Countable ticket.
Proof.
  apply (inj_countable' (fun t => (tk_incarnation t, tk_slot t, tk_generation t))
    (fun '(i, s, g) => Build_ticket i s g)). by intros [].
Defined.

Class Row (A : Type) := {
  row_busy : A -> bool;
  row_generation : A -> Z;
  (** The order of a row that is ready. *)
  row_order : A -> option Z;
}.

Section Rows.
Context {A : Type} {R : Row A}.

Definition row_find (incarnation : Z) (rows : list A) (t : ticket) : option A :=
  if negb (tk_incarnation t =? incarnation) || (len rows <=? tk_slot t) ||
     (tk_generation t =? 0) then None
  else
    match rows !! Z.to_nat (tk_slot t) with
    | Some r => if row_busy r && (row_generation r =? tk_generation t) then Some r else None
    | None => None
    end.

Definition row_usable (r : A) : Prop := row_busy r = false /\ row_generation r <> U32_MAX.

#[export] Instance row_usable_dec r : Decision (row_usable r).
Proof. unfold row_usable. apply _. Defined.

(** The first row that can be handed out. *)
Definition row_free (rows : list A) : option (nat * A) := list_find row_usable rows.

(** The ready row of least order below [best]. *)
Fixpoint row_oldest (i : nat) (found : option nat) (best : Z) (rows : list A) : option nat :=
  match rows with
  | [] => found
  | r :: rows =>
      match row_order r with
      | Some o => if o <? best then row_oldest (S i) (Some i) o rows
                  else row_oldest (S i) found best rows
      | None => row_oldest (S i) found best rows
      end
  end.

Definition ticket_of (incarnation : Z) (i : nat) (r : A) : ticket :=
  Build_ticket incarnation (Z.of_nat i) (row_generation r).

(** *** Finding *)

(** [t] names row [i], which is [r]. *)
Definition at_row (incarnation : Z) (rows : list A) (t : ticket) (i : nat) (r : A) : Prop :=
  rows !! i = Some r /\ t = ticket_of incarnation i r /\ row_busy r = true /\ row_generation r <> 0.

Lemma row_find_Some incarnation rows t r :
  0 <= tk_slot t ->
  row_find incarnation rows t = Some r <-> at_row incarnation rows t (Z.to_nat (tk_slot t)) r.
Proof.
  intros Hs. unfold row_find, at_row, ticket_of. split.
  - destruct (_ || _) eqn:E; [done|]. destruct (rows !! _) as [r'|] eqn:Er; [|done].
    destruct (row_busy r' && _) eqn:E'; [|done]. intros [= ->]. split; [done|].
    apply andb_true_iff in E' as [Eb Eg]. destruct t as [ti ts tg]; cbn in *.
    split; [|by split; [|lia]]. f_equal; lia.
  - intros (Er & Et & Eb & Eg). apply lookup_lt_Some in Er as Hl. rewrite Er, Eb.
    rewrite Et in *. cbn in *. rewrite !Z.eqb_refl, Nat2Z.id in *.
    replace (len rows <=? Z.of_nat _) with false by (unfold len; lia).
    by replace (row_generation r =? 0) with false by lia.
Qed.

Lemma row_find_at incarnation rows t i r :
  at_row incarnation rows t i r -> row_find incarnation rows t = Some r.
Proof.
  intros H. assert (Ht : t = ticket_of incarnation i r) by apply H.
  apply row_find_Some; rewrite Ht; cbn; [lia|]. rewrite Nat2Z.id. by subst t.
Qed.

Lemma at_row_inj incarnation rows t i j r s :
  at_row incarnation rows t i r -> at_row incarnation rows t j s -> i = j /\ r = s.
Proof.
  intros (Hi & -> & _) (Hj & E & _). injection E as E1 E2. apply Nat2Z.inj in E1 as ->.
  by simplify_eq.
Qed.

(** What a table that differs in one row finds. *)
Lemma at_row_insert incarnation rows i r r' t j s :
  rows !! i = Some r ->
  at_row incarnation (<[i := r']> rows) t j s <->
  (j <> i /\ at_row incarnation rows t j s) \/
  (j = i /\ s = r' /\ t = ticket_of incarnation i r' /\ row_busy r' = true /\ row_generation r' <> 0).
Proof.
  intros Hi. unfold at_row. destruct (decide (j = i)) as [->|Hne].
  - rewrite list_lookup_insert_eq by by eapply lookup_lt_Some. split; [|naive_solver].
    intros ([= <-] & ? & ? & ?). by right.
  - rewrite list_lookup_insert_ne by done. naive_solver.
Qed.

(** *** Handing out *)

Lemma row_free_Some rows i r :
  row_free rows = Some (i, r) -> rows !! i = Some r /\ row_busy r = false /\ row_generation r <> U32_MAX.
Proof. intros (Hi & [Hb Hg] & _)%list_find_Some. done. Qed.

Lemma row_free_None rows :
  row_free rows = None <->
  forall i r, rows !! i = Some r -> row_busy r = true \/ row_generation r = U32_MAX.
Proof.
  unfold row_free. rewrite list_find_None, Forall_lookup. unfold row_usable.
  split; intros H i r Hi; specialize (H i r Hi).
  - destruct (row_busy r); [by left|]. right.
    destruct (decide (row_generation r = U32_MAX)); [done|]. by destruct H.
  - intros [H1 H2]. destruct H; congruence.
Qed.

(** *** The oldest *)

Lemma row_oldest_spec i found best rows :
  (row_oldest i found best rows = found /\
   forall j r o, rows !! j = Some r -> row_order r = Some o -> best <= o) \/
  (exists j r o, row_oldest i found best rows = Some (i + j)%nat /\ rows !! j = Some r /\
     row_order r = Some o /\ o < best /\
     forall k s p, rows !! k = Some s -> row_order s = Some p -> o <= p).
Proof.
  revert i found best. induction rows as [|r rows IH]; intros i found best; cbn [row_oldest].
  { left. split; [done|]. by intros j s o [=]. }
  assert (Hskip : (forall o, row_order r = Some o -> best <= o) ->
    (row_oldest (S i) found best rows = found /\
     forall j s o, (r :: rows) !! j = Some s -> row_order s = Some o -> best <= o) \/
    (exists j s o, row_oldest (S i) found best rows = Some (i + j)%nat /\
       (r :: rows) !! j = Some s /\ row_order s = Some o /\ o < best /\
       forall k s' p, (r :: rows) !! k = Some s' -> row_order s' = Some p -> o <= p)).
  { intros Hr. destruct (IH (S i) found best) as [[E Hmin]|(j & s & o & E & Hj & Ho & Hlt & Hmin)].
    - left. split; [done|]. intros [|j] s o; cbn; [intros [= ->]; apply Hr|apply Hmin].
    - right. exists (S j), s, o. rewrite E. split; [f_equal; lia|]. split; [done|]. split; [done|].
      split; [done|]. intros [|k] s' p; cbn; [intros [= ->] Hp; specialize (Hr p Hp); lia|apply Hmin]. }
  destruct (row_order r) as [o|] eqn:Er; [|by apply Hskip].
  destruct (o <? best) eqn:Eb; [|apply Hskip; intros ? [= <-]; lia].
  right. destruct (IH (S i) (Some i) o) as [[E Hmin]|(j & s & p & E & Hj & Hp & Hlt & Hmin)].
  - exists 0%nat, r, o. rewrite E. split; [f_equal; lia|]. split; [done|]. split; [done|].
    split; [lia|]. intros [|k] s p; cbn; [intros [= <-]; rewrite Er; intros [= <-]; lia|apply Hmin].
  - exists (S j), s, p. rewrite E. split; [f_equal; lia|]. split; [done|]. split; [done|].
    split; [lia|]. intros [|k] s' p'; cbn; [intros [= <-]; rewrite Er; intros [= <-]; lia|apply Hmin].
Qed.

(** From the start of a table whose orders are below the bound. *)
Lemma row_oldest_first best rows :
  (forall j r o, rows !! j = Some r -> row_order r = Some o -> o < best) ->
  match row_oldest 0 None best rows with
  | None => forall j r, rows !! j = Some r -> row_order r = None
  | Some j => exists r o, rows !! j = Some r /\ row_order r = Some o /\
      forall k s p, rows !! k = Some s -> row_order s = Some p -> o <= p
  end.
Proof.
  intros Hb. destruct (row_oldest_spec 0 None best rows) as [[-> H]|(j & r & o & -> & Hj & Ho & _ & Hmin)].
  - intros j r Hj. destruct (row_order r) as [o|] eqn:Eo; [|done].
    specialize (H j r o Hj Eo). specialize (Hb j r o Hj Eo). lia.
  - by exists r, o.
Qed.

(** *** What a table keeps of its tickets

    A busy row is in the condition [live r].  A table [tracks] a map when the map
    gives the conditions of the tickets that name a row, and [issues] a set when
    that is the set of all tickets it ever handed out. *)

Context {B : Type} (live : A -> option B).

Definition tracks (inc : Z) (rows : list A) (m : gmap ticket B) : Prop :=
  forall t b, m !! t = Some b <-> exists i r, at_row inc rows t i r /\ live r = Some b.

Definition issues (inc : Z) (rows : list A) (issued : gset ticket) : Prop :=
  forall t, t ∈ issued <-> exists i r, rows !! i = Some r /\ tk_incarnation t = inc /\
    tk_slot t = Z.of_nat i /\ 0 < tk_generation t <= row_generation r.

Definition generations_ok (rows : list A) : Prop :=
  Forall (fun r => 0 <= row_generation r <= U32_MAX /\
                   (row_busy r = true -> 0 < row_generation r)) rows.

(** Every row of a table of [capacity] rows is in use or used up. *)
Definition used_up (capacity inc : Z) (issued : gset ticket) (m : gmap ticket B) : Prop :=
  forall i, 0 <= i < capacity ->
    exists t, t ∈ issued /\ tk_incarnation t = inc /\ tk_slot t = i /\
              (is_Some (m !! t) \/ tk_generation t = U32_MAX).

Hypothesis live_busy : forall r, row_busy r = true <-> is_Some (live r).

Lemma tracks_put inc rows i r r' (m m' : gmap ticket B) :
  rows !! i = Some r -> row_generation r' <> 0 ->
  row_generation r' = row_generation r \/ row_busy r = false ->
  tracks inc rows m ->
  (forall t, m' !! t = if decide (t = ticket_of inc i r') then live r' else m !! t) ->
  tracks inc (<[i := r']> rows) m'.
Proof.
  intros Hi Hg Hor Hold Hnew t s. rewrite Hnew. setoid_rewrite (at_row_insert inc rows i r r' t);
    [|done..]. case_decide as Ht.
  - split.
    + intros Hs. exists i, r'. split; [|done]. right. split; [done|]. split; [done|]. split; [done|].
      split; [|done]. by apply live_busy; eexists.
    + intros (j & x & [[Hne (_ & Hx & _)]|(_ & -> & _)] & Hs); [|done].
      rewrite Ht in Hx. injection Hx as E _. by apply Nat2Z.inj in E.
  - rewrite (Hold t s). split.
    + intros (j & x & Hx & Hs). exists j, x. split; [|done]. left. split; [|done]. intros ->.
      destruct Hx as (Hx & Et & Hb & _). simplify_eq. destruct Hor as [Eg|Ef]; [|congruence].
      apply Ht. unfold ticket_of. by rewrite Eg.
    + intros (j & x & [[Hne Hx]|(_ & _ & ? & _)] & Hs); [|done]. by exists j, x.
Qed.

Lemma issues_put inc rows i r r' issued :
  rows !! i = Some r -> row_generation r' = row_generation r ->
  issues inc rows issued -> issues inc (<[i := r']> rows) issued.
Proof.
  intros Hi Eg H t. rewrite (H t). apply lookup_lt_Some in Hi as Hl. split.
  - intros (j & x & Hx & Ht). destruct (decide (j = i)) as [->|Hne].
    + exists i, r'. rewrite list_lookup_insert_eq by done. simplify_eq. by rewrite Eg.
    + exists j, x. by rewrite list_lookup_insert_ne.
  - intros (j & x & Hx & Ht). apply list_lookup_insert_Some in Hx as [(-> & <- & _)|[_ Hx]].
    + exists j, r. by rewrite Eg in Ht.
    + by exists j, x.
Qed.

(** Handing out row [i]. *)
Lemma issues_issue inc rows i r r' issued :
  rows !! i = Some r -> 0 <= row_generation r -> row_generation r' = row_generation r + 1 ->
  issues inc rows issued ->
  ticket_of inc i r' ∉ issued /\ issues inc (<[i := r']> rows) ({[ticket_of inc i r']} ∪ issued).
Proof.
  intros Hi Hg Eg H. apply lookup_lt_Some in Hi as Hl. split.
  { rewrite (H _). unfold ticket_of. cbn. intros (j & x & Hj & _ & Es & Hx).
    apply Nat2Z.inj in Es as <-. simplify_eq. lia. }
  intros t. rewrite elem_of_union, elem_of_singleton, (H t). split.
  - intros [->|(j & x & Hx & Ht)].
    + exists i, r'. rewrite list_lookup_insert_eq by done. cbn. by split_and!; try done; lia.
    + destruct (decide (j = i)) as [->|Hne].
      * exists i, r'. rewrite list_lookup_insert_eq by done. simplify_eq.
        destruct Ht as (? & ? & ?). split_and!; try done; lia.
      * exists j, x. by rewrite list_lookup_insert_ne.
  - intros (j & x & Hx & Ei & Es & Hgx).
    apply list_lookup_insert_Some in Hx as [(-> & <- & _)|[_ Hx]].
    + destruct (decide (tk_generation t = row_generation r + 1)) as [E|].
      * left. destruct t; cbn in *. unfold ticket_of. congruence.
      * right. exists j, r. split_and!; try done; lia.
    + right. by exists j, x.
Qed.

(** A ticket and its row. *)
Lemma find_tracked inc rows m t :
  tracks inc rows m -> 0 <= tk_slot t ->
  match row_find inc rows t with
  | None => m !! t = None
  | Some r => exists b, m !! t = Some b /\ live r = Some b /\
      rows !! Z.to_nat (tk_slot t) = Some r /\ t = ticket_of inc (Z.to_nat (tk_slot t)) r
  end.
Proof.
  intros Hm Ht. destruct (row_find _ _ t) as [r|] eqn:E.
  - apply row_find_Some in E as H; [|done]. destruct H as (Hi & Et & Hb & Hg).
    apply live_busy in Hb as [b Hb].
    exists b. split; [|done]. apply (Hm t b). exists (Z.to_nat (tk_slot t)), r.
    split; [|done]. by apply row_find_Some in E.
  - destruct (m !! t) as [b|] eqn:Es; [|done].
    apply (Hm t b) in Es as (i & r & Hr & _). apply row_find_at in Hr. congruence.
Qed.

Lemma row_free_used_up inc rows issued m :
  generations_ok rows -> issues inc rows issued -> tracks inc rows m ->
  row_free rows = None -> used_up (len rows) inc issued m.
Proof.
  intros Hok Hi Hm Ef j Hj. rewrite row_free_None in Ef.
  destruct (lookup_lt_is_Some_2 rows (Z.to_nat j)) as [r Hr]; [unfold len in Hj; lia|].
  pose proof (Forall_lookup_1 _ _ _ _ Hok Hr) as [Hg1 Hg2].
  exists (ticket_of inc (Z.to_nat j) r).
  assert (Hpos : 0 < row_generation r).
  { destruct (Ef _ _ Hr) as [H|H]; [by apply Hg2|rewrite H; done]. }
  split; [|split; [done|split; [cbn; lia|]]].
  - apply (Hi _). exists (Z.to_nat j), r. cbn. split_and!; try done; lia.
  - destruct (Ef _ _ Hr) as [H|H]; [left|by right].
    apply live_busy in H as [b Hb]. exists b. apply (Hm _ b). exists (Z.to_nat j), r. split; [|done].
    split; [done|]. split; [done|]. split; [|lia]. apply live_busy. by exists b.
Qed.

(** A row that can be handed out. *)
Lemma row_free_not_used_up inc rows issued m i r :
  generations_ok rows -> issues inc rows issued -> tracks inc rows m ->
  row_free rows = Some (i, r) -> ~ used_up (len rows) inc issued m.
Proof.
  intros Hok Hi Hm (Hr & Hb & Hg)%row_free_Some Hu.
  destruct (Hu (Z.of_nat i)) as (t & Ht & _ & Hs & Hor).
  { apply lookup_lt_Some in Hr. unfold len. lia. }
  apply (Hi t) in Ht as (j & s & Hj & _ & Ej & Hgt). rewrite Hs in Ej. apply Nat2Z.inj in Ej as <-.
  simplify_eq. destruct Hor as [[b Hb']|Eg].
  - apply (Hm t b) in Hb' as (k & x & (Hk & -> & Hbx & _) & _). cbn in Hs. apply Nat2Z.inj in Hs as ->.
    simplify_eq. congruence.
  - destruct (Forall_lookup_1 _ _ _ _ Hok Hr) as [? _]. lia.
Qed.

(** A new table. *)
Lemma fresh_table inc n r0 :
  row_generation r0 = 0 -> row_busy r0 = false ->
  generations_ok (replicate n r0) /\ issues inc (replicate n r0) ∅ /\ tracks inc (replicate n r0) ∅.
Proof.
  intros Hg Hb. split; [|split].
  - apply Forall_replicate. rewrite Hg, Hb. by split.
  - intros t. split; [by intros ?%not_elem_of_empty|].
    intros (i & r & [-> _]%lookup_replicate & _ & _ & H). lia.
  - intros t b. rewrite lookup_empty. split; [done|].
    intros (i & r & ([-> _]%lookup_replicate & _ & H & _) & _). congruence.
Qed.

(** No ticket names a row exactly when no row is busy. *)
Lemma tracks_empty inc rows m :
  generations_ok rows -> tracks inc rows m ->
  m = ∅ <-> existsb row_busy rows = false.
Proof.
  intros Hok Hm. split.
  - intros ->. destruct (existsb row_busy rows) eqn:E; [|done].
    apply existsb_exists in E as (r & Hr & Hb). apply list_elem_of_In, list_elem_of_lookup in Hr as (i & Hi).
    destruct (proj1 (live_busy r) Hb) as [b Hl].
    assert (H : (∅ : gmap ticket B) !! ticket_of inc i r = Some b); [|by rewrite lookup_empty in H].
    apply (Hm _ b). exists i, r. split; [|done]. split; [done|]. split; [done|]. split; [done|].
    destruct (Forall_lookup_1 _ _ _ _ Hok Hi) as [_ H]. specialize (H Hb). lia.
  - intros E. apply map_empty. intros t. destruct (m !! t) as [b|] eqn:Eb; [|done]. exfalso.
    apply (Hm t b) in Eb as (i & r & (Hi & _ & Hb & _) & _).
    assert (existsb row_busy rows = true); [|congruence].
    apply existsb_exists. exists r. split; [|done]. apply list_elem_of_In. by eapply list_elem_of_lookup_2.
Qed.
End Rows.

(* ------------------------------------------------------------------ *)
(** ** Queues kept in rows

    The ready rows of a table, in their order, are a queue of tickets with what
    their rows hold. *)

Section Queue.
Context {A C : Type} {R : Row A} (payload : A -> C).

(** A queued element is in a ready row of order [o]. *)
Definition entry (inc : Z) (rows : list A) (e : ticket * C) (o : Z) : Prop :=
  exists i r, at_row inc rows e.1 i r /\ row_order r = Some o /\ payload r = e.2.

Definition queue_is (inc : Z) (rows : list A) (next : Z) (queue : list (ticket * C)) : Prop :=
  exists os, Forall2 (entry inc rows) queue os /\ StronglySorted Z.lt os /\
    Forall (fun o => o < next) os /\
    forall i r, rows !! i = Some r -> is_Some (row_order r) ->
      (ticket_of inc i r, payload r) ∈ queue.

Lemma queue_is_nil inc rows next :
  (forall i r, rows !! i = Some r -> row_order r = None) -> queue_is inc rows next [].
Proof.
  intros H. exists []. split; [constructor|]. split; [constructor|]. split; [constructor|].
  intros i r Hi [o Ho]. rewrite (H i r Hi) in Ho. done.
Qed.

Lemma queue_is_none inc rows next queue :
  (forall i r, rows !! i = Some r -> row_order r = None) -> queue_is inc rows next queue -> queue = [].
Proof.
  intros H (os & Hq & _). destruct Hq as [|e o queue os (i & r & (Hi & _) & Ho & _)]; [done|].
  by rewrite (H i r Hi) in Ho.
Qed.

Lemma queue_is_later inc rows next next' queue :
  next <= next' -> queue_is inc rows next queue -> queue_is inc rows next' queue.
Proof.
  intros Hn (os & Hq & Hs & Hb & Hc). exists os. split; [done|]. split; [done|]. split; [|done].
  eapply Forall_impl; [exact Hb|]. cbn. lia.
Qed.

Lemma entry_insert inc rows i r r' e o :
  rows !! i = Some r -> row_order r <> Some o ->
  entry inc rows e o -> entry inc (<[i := r']> rows) e o.
Proof.
  intros Hi Hne (j & s & Hj & Hs & Hc). exists j, s. split; [|done].
  apply (at_row_insert _ _ _ r); [done|]. left. split; [|done]. intros ->.
  destruct Hj as (Hj & _). by simplify_eq.
Qed.

(** Changing a row that is not ready and does not become ready. *)
Lemma queue_is_frame inc rows next queue i r r' :
  rows !! i = Some r -> row_order r = None -> row_order r' = None ->
  queue_is inc rows next queue -> queue_is inc (<[i := r']> rows) next queue.
Proof.
  intros Hi Hr Hr' (os & Hq & Hs & Hb & Hc). exists os. split; [|split; [done|split; [done|]]].
  - eapply Forall2_impl; [exact Hq|]. intros e o. apply (entry_insert _ _ _ r); [done|]. by rewrite Hr.
  - intros j s Hj [o Hrd]. apply list_lookup_insert_Some in Hj as [(-> & <- & _)|[_ Hj]];
      [by rewrite Hr' in Hrd|by apply Hc].
Qed.

Lemma StronglySorted_snoc (os : list Z) n :
  StronglySorted Z.lt os -> Forall (fun o => o < n) os -> StronglySorted Z.lt (os ++ [n]).
Proof.
  induction 1 as [|o os Hs IH Ho]; intros Hb; cbn; [by repeat constructor|].
  apply Forall_cons in Hb as [Hn Hb]. constructor; [by apply IH|].
  apply Forall_app. by split; [|constructor].
Qed.

(** A row becomes ready, after all the others. *)
Lemma queue_is_publish inc rows next queue i r r' t :
  rows !! i = Some r -> row_order r = None -> row_order r' = Some next ->
  row_busy r' = true -> row_generation r' <> 0 -> t = ticket_of inc i r' ->
  queue_is inc rows next queue ->
  queue_is inc (<[i := r']> rows) (next + 1) (queue ++ [(t, payload r')]).
Proof.
  intros Hi Hr Hr' Hbusy Hg Ht (os & Hq & Hs & Hb & Hc). exists (os ++ [next]).
  split; [|split; [by apply StronglySorted_snoc|split]].
  - apply Forall2_app; [|constructor; [|constructor]].
    + eapply Forall2_impl; [exact Hq|]. intros e o. apply (entry_insert _ _ _ r); [done|]. by rewrite Hr.
    + exists i, r'. split; [|done]. apply (at_row_insert _ _ _ r); [done|]. by right.
  - apply Forall_app. split; [|by repeat constructor; lia].
    eapply Forall_impl; [exact Hb|]. cbn. lia.
  - intros j s Hj Hrd. apply list_lookup_insert_Some in Hj as [(-> & <- & _)|[_ Hj]];
      apply elem_of_app; [right|left; by apply Hc]. rewrite Ht. by apply list_elem_of_singleton.
Qed.

(** The place of a ready row in the queue. *)
Lemma queue_is_place inc rows queue os i r o :
  Forall2 (entry inc rows) queue os -> (ticket_of inc i r, payload r) ∈ queue ->
  rows !! i = Some r -> row_order r = Some o ->
  exists k, queue !! k = Some (ticket_of inc i r, payload r) /\ os !! k = Some o /\
    row_generation r <> 0.
Proof.
  intros Hq Hin Hi Hr. apply list_elem_of_lookup in Hin as [k Hk].
  destruct (Forall2_lookup_l _ _ _ _ _ Hq Hk) as (o' & Hok & j & s & (Hj & Ht & _ & Hg) & Ho & _).
  cbn in Ht. injection Ht as E1 E2. apply Nat2Z.inj in E1 as <-. simplify_eq. by exists k.
Qed.

(** The row the scan finds is the head of the queue. *)
Lemma queue_is_oldest inc rows next best queue :
  next <= best -> queue_is inc rows next queue ->
  match row_oldest 0 None best rows with
  | None => queue = []
  | Some i => exists r queue', rows !! i = Some r /\ is_Some (row_order r) /\
      row_generation r <> 0 /\ queue = (ticket_of inc i r, payload r) :: queue' /\
      forall r', row_order r' = None -> queue_is inc (<[i := r']> rows) next queue'
  end.
Proof.
  intros Hn (os & Hq & Hs & Hb & Hc).
  assert (Hbound : forall j r o, rows !! j = Some r -> row_order r = Some o -> o < best).
  { intros j r o Hj Hr. destruct (queue_is_place _ _ _ _ j r o Hq) as (k & _ & Hk & _);
      [by apply Hc; [|eexists]|done|done|].
    pose proof (Forall_lookup_1 _ _ _ _ Hb Hk) as H. cbn in H. lia. }
  pose proof (row_oldest_first best rows Hbound) as Hold.
  destruct (row_oldest 0 None best rows) as [i|].
  2: { apply (queue_is_none inc rows next); [done|]. by exists os. }
  destruct Hold as (r & o & Hi & Ho & Hmin).
  destruct (queue_is_place _ _ _ _ i r o Hq) as (k & Hk & Hok & Hg);
    [by apply Hc; [|eexists]|done|done|].
  destruct Hq as [|e o0 queue' os' He Hq]; [done|].
  apply StronglySorted_inv in Hs as [Hs Hlt]. destruct k as [|k].
  - cbn in Hk, Hok. simplify_eq. exists r, queue'. split; [done|]. split; [by eexists|].
    split; [done|]. split; [done|]. intros r' Hr'. exists os'. split; [|split; [done|split]].
    + apply Forall2_same_length_lookup_2; [by eapply Forall2_length|]. intros k e o' Hke Hko.
      apply (entry_insert _ _ _ r); [done| |by eapply Forall2_lookup_lr].
      pose proof (Forall_lookup_1 _ _ _ _ Hlt Hko) as H. cbn in H. rewrite Ho. intros [= ->]. lia.
    + by apply Forall_cons in Hb as [_ Hb].
    + intros j s Hj [o' Hrd]. apply list_lookup_insert_Some in Hj as [(-> & <- & _)|[Hne Hj]];
        [by rewrite Hr' in Hrd|]. specialize (Hc j s Hj ltac:(by eexists)).
      apply elem_of_cons in Hc as [E|Hc]; [|done].
      injection E as E _ _. by apply Nat2Z.inj in E.
  - exfalso. cbn in Hok. pose proof (Forall_lookup_1 _ _ _ _ Hlt Hok) as Hlt'. cbn in Hlt'.
    destruct He as (j & s & (Hj & _) & Ho' & _). specialize (Hmin j s o0 Hj Ho'). lia.
Qed.

Lemma Forall_sublist (P : Z -> Prop) os os' : sublist os' os -> Forall P os -> Forall P os'.
Proof. rewrite !Forall_forall. intros Hs H o Ho. by eapply H, elem_of_sublist. Qed.

(** A row that is no longer ready leaves the queue. *)
Lemma queue_is_remove inc rows next queue i r r' :
  rows !! i = Some r -> row_order r' = None -> queue_is inc rows next queue ->
  queue_is inc (<[i := r']> rows) next (filter (fun e => e.1 <> ticket_of inc i r) queue).
Proof.
  intros Hi Hr' (os & Hq & Hs & Hb & Hc).
  assert (Hsub : exists os', Forall2 (entry inc (<[i := r']> rows))
      (filter (fun e => e.1 <> ticket_of inc i r) queue) os' /\ sublist os' os).
  { clear Hs Hb Hc. induction Hq as [|e o queue os He Hq (os' & IH & Hsub)]; [by exists []|].
    rewrite filter_cons. case_decide as Hne; [|exists os'; split; [done|by constructor]].
    exists (o :: os'). split; [|by constructor]. constructor; [|done].
    destruct He as (j & s & Hj & Ho & Hp). exists j, s. split; [|done].
    apply (at_row_insert _ _ _ r); [done|]. left. split; [|done]. intros ->. apply Hne.
    destruct Hj as (Hj & -> & _). by simplify_eq. }
  destruct Hsub as (os' & Hq' & Hsub). exists os'. split; [done|]. split; [|split].
  - clear Hq Hq' Hb. induction Hsub as [|o os' os Hsub IH|o os' os Hsub IH]; [done|..];
      apply StronglySorted_inv in Hs as [Hs Hlt]; [|by apply IH]. constructor; [by apply IH|].
    by eapply Forall_sublist.
  - by eapply Forall_sublist.
  - intros j s Hj Hrd. apply list_lookup_insert_Some in Hj as [(-> & <- & _)|[Hne Hj]];
      [by rewrite Hr' in Hrd; destruct Hrd|]. apply list_elem_of_filter. split; [|by apply Hc].
    cbn. unfold ticket_of. intros [= E _]. by apply Nat2Z.inj in E.
Qed.
End Queue.
