(* ===== verification/FrameStore.v ===== *)
(** * The frame store

    streamgraph/src/turbo_frame_store.c: frames of video memory published into a
    fixed set of slots, referred to by generation-checked references, and kept by
    pins and leases (credits) until they are released.  One owner serialises all
    calls.  Handles and out parameters are not [NULL]; input pointers that may be
    are options.  A buffer is the prefix of it that was ever written; the sizes of
    the structures are those of an LP64 target. *)

From stdpp Require Import list.
From S2P Require Import Prelude Tickets.

(* ------------------------------------------------------------------ *)
(** ** Data *)

Definition TM_FS_ABI_V1 : Z := 1.
Definition TM_FS_MAX_SLOTS : Z := 64.
Definition TM_FS_MAX_FRAME_BYTES : Z := 8388608.
Definition TM_FS_MAX_CREDITS : Z := 1024.

(** [sizeof] of the versioned structures. *)
Definition SIZEOF_CONFIG : Z := 40.
Definition SIZEOF_FRAME_REF : Z := 56.
Definition SIZEOF_CPU_VIEW : Z := 24.

Inductive tm_fs_status : Type :=
  | TM_FS_OK | TM_FS_EINVAL | TM_FS_EVERSION | TM_FS_ENOMEM | TM_FS_EFULL
  | TM_FS_ESTALE | TM_FS_EBUSY | TM_FS_ESHUTDOWN | TM_FS_EEXHAUSTED.

#[export] Instance tm_fs_status_eq_dec : EqDecision tm_fs_status.
Proof. solve_decision. Defined.

Record tm_fs_config_v1 := {
  cf_size : Z;
  cf_version : Z;
  cf_store_id : Z;
  cf_slot_capacity : Z;
  cf_max_frame_bytes : Z;
  cf_max_pins : Z;
  cf_max_leases : Z;
  cf_max_retained_bytes : Z;
}.

Record tm_fs_frame_ref_v1 := {
  rf_size : Z;
  rf_version : Z;
  rf_store_id : Z;
  rf_store_generation : Z;
  rf_slot : Z;
  rf_slot_generation : Z;
  rf_frame_id : Z;
  rf_session : Z;
  rf_display : Z;
}.

Definition zero_ref : tm_fs_frame_ref_v1 := Build_tm_fs_frame_ref_v1 0 0 0 0 0 0 0 0 0.

(** The value of a pin or of a lease. *)
Record tm_fs_ticket_v1 := {
  tk_store_id : Z;
  tk_store_generation : Z;
  tk_ticket_id : Z;
}.

Definition zero_ticket : tm_fs_ticket_v1 := Build_tm_fs_ticket_v1 0 0 0.

(** The data pointer of a view is the slot whose memory it points to. *)
Record tm_fs_cpu_view_v1 := {
  vw_size : Z;
  vw_version : Z;
  vw_data : option Z;
  vw_size_bytes : Z;
}.

Inductive fs_state : Type := FS_FREE | FS_READY | FS_RETIRING.

#[export] Instance fs_state_eq_dec : EqDecision fs_state.
Proof. solve_decision. Defined.

Record fs_slot := {
  sl_memory : list Z;
  sl_length : Z;
  sl_frame_id : Z;
  sl_slot_generation : Z;
  sl_session : Z;
  sl_display : Z;
  sl_pins : Z;
  sl_leases : Z;
  sl_state : fs_state;
}.

Definition free_slot : fs_slot := Build_fs_slot [] 0 0 0 0 0 0 0 FS_FREE.

Record fs_credit := { cr_token : Z; cr_slot : Z; cr_generation : Z }.

Definition zero_credit : fs_credit := Build_fs_credit 0 0 0.

Record tm_fs_store := {
  fs_config : tm_fs_config_v1;
  fs_generation : Z;
  fs_next_frame_id : Z;
  fs_next_ticket_id : Z;
  fs_slots : list fs_slot;
  fs_pins : list fs_credit;
  fs_leases : list fs_credit;
  fs_cursor : Z;
  fs_sealed : bool;
}.

(** The two tables of credits and their counters in a slot. *)
Inductive credit_kind : Type := PIN | LEASE.

#[export] Instance credit_kind_eq_dec : EqDecision credit_kind.
Proof. solve_decision. Defined.

Definition credits (k : credit_kind) (s : tm_fs_store) : list fs_credit :=
  match k with PIN => fs_pins s | LEASE => fs_leases s end.

Definition counter (k : credit_kind) (slot : fs_slot) : Z :=
  match k with PIN => sl_pins slot | LEASE => sl_leases slot end.

Definition max_credits (k : credit_kind) (s : tm_fs_store) : Z :=
  match k with PIN => cf_max_pins (fs_config s) | LEASE => cf_max_leases (fs_config s) end.

Definition set_counter (k : credit_kind) (slot : fs_slot) (n : Z) : fs_slot :=
  Build_fs_slot (sl_memory slot) (sl_length slot) (sl_frame_id slot)
    (sl_slot_generation slot) (sl_session slot) (sl_display slot)
    (match k with PIN => n | LEASE => sl_pins slot end)
    (match k with PIN => sl_leases slot | LEASE => n end) (sl_state slot).

Definition set_slot_state (slot : fs_slot) (length : Z) (state : fs_state) : fs_slot :=
  Build_fs_slot (sl_memory slot) length (sl_frame_id slot)
    (sl_slot_generation slot) (sl_session slot) (sl_display slot)
    (sl_pins slot) (sl_leases slot) state.

Definition set_slots (s : tm_fs_store) (slots : list fs_slot) : tm_fs_store :=
  Build_tm_fs_store (fs_config s) (fs_generation s) (fs_next_frame_id s)
    (fs_next_ticket_id s) slots (fs_pins s) (fs_leases s) (fs_cursor s) (fs_sealed s).

Definition set_credits (k : credit_kind) (s : tm_fs_store) (rows : list fs_credit)
    (next_ticket : Z) : tm_fs_store :=
  Build_tm_fs_store (fs_config s) (fs_generation s) (fs_next_frame_id s)
    next_ticket (fs_slots s)
    (match k with PIN => rows | LEASE => fs_pins s end)
    (match k with PIN => fs_leases s | LEASE => rows end) (fs_cursor s) (fs_sealed s).

Definition put_slot (s : tm_fs_store) (i : Z) (slot : fs_slot) : res tm_fs_store :=
  slots ← upd (fs_slots s) i slot; Ok (set_slots s slots).

(* ------------------------------------------------------------------ *)
(** ** Operations *)

Definition ref_matches (slot : fs_slot) (ref : tm_fs_frame_ref_v1) : bool :=
  negb (bool_decide (sl_state slot = FS_FREE)) &&
  (sl_slot_generation slot =? rf_slot_generation ref) &&
  (sl_frame_id slot =? rf_frame_id ref) &&
  (sl_session slot =? rf_session ref) && (sl_display slot =? rf_display ref).

(** The slot of a reference, with [TM_FS_OK]. *)
Definition ref_index (s : tm_fs_store) (ref : option tm_fs_frame_ref_v1)
    : res (tm_fs_status * Z) :=
  let? ref := ref else Ok (TM_FS_EINVAL, 0) in
  if negb (rf_version ref =? TM_FS_ABI_V1) then Ok (TM_FS_EVERSION, 0)
  else if negb (rf_size ref =? SIZEOF_FRAME_REF) then Ok (TM_FS_EINVAL, 0)
  else if negb (rf_store_id ref =? cf_store_id (fs_config s)) ||
          negb (rf_store_generation ref =? fs_generation s) ||
          (cf_slot_capacity (fs_config s) <=? rf_slot ref) then Ok (TM_FS_ESTALE, 0)
  else
    slot ← rd (fs_slots s) (rf_slot ref);
    if negb (ref_matches slot ref) then Ok (TM_FS_ESTALE, 0)
    else Ok (TM_FS_OK, rf_slot ref).

(** The row of a ticket, with [TM_FS_OK]. *)
Definition credit_lookup (s : tm_fs_store) (t : tm_fs_ticket_v1) (rows : list fs_credit)
    : tm_fs_status * Z :=
  if tk_ticket_id t =? 0 then (TM_FS_EINVAL, 0)
  else if negb (tk_store_id t =? cf_store_id (fs_config s)) ||
          negb (tk_store_generation t =? fs_generation s) then (TM_FS_ESTALE, 0)
  else
    match list_find (fun r => cr_token r = tk_ticket_id t) rows with
    | Some (i, _) => (TM_FS_OK, Z.of_nat i)
    | None => (TM_FS_ESTALE, 0)
    end.

Definition maybe_retire (slot : fs_slot) : fs_slot :=
  if bool_decide (sl_state slot = FS_RETIRING) && (sl_pins slot =? 0) &&
     (sl_leases slot =? 0)
  then set_slot_state slot 0 FS_FREE else slot.

(** A new token in the first free row. *)
Definition credit_alloc (k : credit_kind) (s : tm_fs_store) (slot generation : Z)
    : res (tm_fs_store * tm_fs_status * Z) :=
  match list_find (fun r => cr_token r = 0) (credits k s) with
  | None => Ok (s, TM_FS_EFULL, 0)
  | Some (i, _) =>
      if fs_next_ticket_id s =? U64_MAX then Ok (s, TM_FS_EEXHAUSTED, 0)
      else
        let token := fs_next_ticket_id s + 1 in
        rows ← upd (credits k s) (Z.of_nat i) (Build_fs_credit token slot generation);
        Ok (set_credits k s rows token, TM_FS_OK, token)
  end.

(** The outcomes of the allocations of [tm_fs_create]. *)
Record fs_mem := {
  fm_store : bool;
  fm_slots : bool;
  fm_pins : bool;
  fm_leases : bool;
  fm_frames : list bool;
}.

Definition config_bad (c : tm_fs_config_v1) : bool :=
  negb (cf_size c =? SIZEOF_CONFIG) || (cf_store_id c =? 0) || (cf_slot_capacity c =? 0) ||
  (TM_FS_MAX_SLOTS <? cf_slot_capacity c) || (cf_max_frame_bytes c =? 0) ||
  (TM_FS_MAX_FRAME_BYTES <? cf_max_frame_bytes c) || (cf_max_pins c =? 0) ||
  (TM_FS_MAX_CREDITS <? cf_max_pins c) || (cf_max_leases c =? 0) ||
  (TM_FS_MAX_CREDITS <? cf_max_leases c) ||
  (cf_max_retained_bytes c <? cf_slot_capacity c * cf_max_frame_bytes c).

(** The global generation counter, before and after, and the store. *)
Definition tm_fs_create (next_generation : Z) (c : option tm_fs_config_v1) (mem : fs_mem)
    : Z * tm_fs_status * option tm_fs_store :=
  let? c := c else (next_generation, TM_FS_EINVAL, None) in
  if negb (cf_version c =? TM_FS_ABI_V1) then (next_generation, TM_FS_EVERSION, None)
  else if config_bad c then (next_generation, TM_FS_EINVAL, None)
  else
    let next := u64 (next_generation + 1) in
    if (next_generation =? 0) || (next_generation =? U64_MAX) then
      (next, TM_FS_EEXHAUSTED, None)
    else if negb (fm_store mem) then (next, TM_FS_ENOMEM, None)
    else if negb (fm_slots mem && fm_pins mem && fm_leases mem) ||
            negb (forallb id (take (Z.to_nat (cf_slot_capacity c)) (fm_frames mem))) then
      (next, TM_FS_ENOMEM, None)
    else
      (next, TM_FS_OK, Some {|
         fs_config := c; fs_generation := next_generation; fs_next_frame_id := 0;
         fs_next_ticket_id := 0;
         fs_slots := replicate (Z.to_nat (cf_slot_capacity c)) free_slot;
         fs_pins := replicate (Z.to_nat (cf_max_pins c)) zero_credit;
         fs_leases := replicate (Z.to_nat (cf_max_leases c)) zero_credit;
         fs_cursor := 0; fs_sealed := false |}).

Definition slot_usable (slot : fs_slot) : bool :=
  bool_decide (sl_state slot = FS_FREE) && negb (sl_slot_generation slot =? U32_MAX).

(** The scan from the cursor: the first usable slot. *)
Fixpoint publish_scan (n : nat) (s : tm_fs_store) (step : Z) : res (option Z) :=
  match n with
  | O => Ok None
  | S n =>
      let index := u32 (fs_cursor s + step) mod cf_slot_capacity (fs_config s) in
      slot ← rd (fs_slots s) index;
      if slot_usable slot then Ok (Some index) else publish_scan n s (step + 1)
  end.

(** [memcpy] of the frame and the new identity of the slot. *)
Definition publish_slot (s : tm_fs_store) (slot : fs_slot) (data : list Z)
    (session display : Z) : res fs_slot :=
  if cf_max_frame_bytes (fs_config s) <? len data then Fault
  else
    Ok (Build_fs_slot (data ++ drop (length data) (sl_memory slot)) (len data)
          (fs_next_frame_id s + 1) (u32 (sl_slot_generation slot + 1)) session display
          (sl_pins slot) (sl_leases slot) FS_READY).

Definition tm_fs_publish_cpu (s : tm_fs_store) (data : option (list Z))
    (session display : Z) (out : tm_fs_frame_ref_v1)
    : res (tm_fs_store * tm_fs_status * tm_fs_frame_ref_v1) :=
  let? data := data else Ok (s, TM_FS_EINVAL, out) in
  if (len data =? 0) || (session =? 0) || (display =? 0) ||
     (cf_max_frame_bytes (fs_config s) <? len data) then Ok (s, TM_FS_EINVAL, out)
  else if fs_sealed s then Ok (s, TM_FS_ESHUTDOWN, zero_ref)
  else
    found ← publish_scan (Z.to_nat (cf_slot_capacity (fs_config s))) s 0;
    let? index := found else Ok (s, TM_FS_EFULL, zero_ref) in
    if fs_next_frame_id s =? U64_MAX then Ok (s, TM_FS_EEXHAUSTED, zero_ref)
    else
      slot ← rd (fs_slots s) index;
      slot ← publish_slot s slot data session display;
      slots ← upd (fs_slots s) index slot;
      Ok (Build_tm_fs_store (fs_config s) (fs_generation s) (fs_next_frame_id s + 1)
            (fs_next_ticket_id s) slots (fs_pins s) (fs_leases s)
            (u32 (index + 1) mod cf_slot_capacity (fs_config s)) (fs_sealed s),
          TM_FS_OK,
          {| rf_size := SIZEOF_FRAME_REF; rf_version := TM_FS_ABI_V1;
             rf_store_id := cf_store_id (fs_config s);
             rf_store_generation := fs_generation s; rf_slot := index;
             rf_slot_generation := sl_slot_generation slot;
             rf_frame_id := sl_frame_id slot; rf_session := session;
             rf_display := display |}).

(** A credit on a slot: a row, and one more in the slot's counter. *)
Definition acquire_credit (k : credit_kind) (s : tm_fs_store) (index : Z)
    : res (tm_fs_store * tm_fs_status * tm_fs_ticket_v1) :=
  slot ← rd (fs_slots s) index;
  '(s, rc, token) ← credit_alloc k s index (sl_slot_generation slot);
  if negb (bool_decide (rc = TM_FS_OK)) then Ok (s, rc, zero_ticket)
  else
    slot ← rd (fs_slots s) index;
    s ← put_slot s index (set_counter k slot (u32 (counter k slot + 1)));
    Ok (s, TM_FS_OK, Build_tm_fs_ticket_v1 (cf_store_id (fs_config s)) (fs_generation s) token).

Definition tm_fs_reserve_pin (s : tm_fs_store) (ref : option tm_fs_frame_ref_v1)
    : res (tm_fs_store * tm_fs_status * tm_fs_ticket_v1) :=
  if fs_sealed s then Ok (s, TM_FS_ESHUTDOWN, zero_ticket)
  else
    '(rc, index) ← ref_index s ref;
    if negb (bool_decide (rc = TM_FS_OK)) then Ok (s, rc, zero_ticket)
    else
      slot ← rd (fs_slots s) index;
      if negb (bool_decide (sl_state slot = FS_READY)) then Ok (s, TM_FS_EBUSY, zero_ticket)
      else acquire_credit PIN s index.

Definition tm_fs_acquire_weak (s : tm_fs_store) (ref : option tm_fs_frame_ref_v1)
    : res (tm_fs_store * tm_fs_status * tm_fs_ticket_v1) :=
  if fs_sealed s then Ok (s, TM_FS_ESHUTDOWN, zero_ticket)
  else
    '(rc, index) ← ref_index s ref;
    if negb (bool_decide (rc = TM_FS_OK)) then Ok (s, rc, zero_ticket)
    else
      slot ← rd (fs_slots s) index;
      if negb (bool_decide (sl_state slot = FS_READY)) then Ok (s, TM_FS_EBUSY, zero_ticket)
      else acquire_credit LEASE s index.

Definition tm_fs_acquire_pinned (s : tm_fs_store) (pin : option tm_fs_ticket_v1)
    (out : tm_fs_ticket_v1) : res (tm_fs_store * tm_fs_status * tm_fs_ticket_v1) :=
  let? pin := pin else Ok (s, TM_FS_EINVAL, out) in
  let '(rc, credit) := credit_lookup s pin (fs_pins s) in
  if negb (bool_decide (rc = TM_FS_OK)) then Ok (s, rc, zero_ticket)
  else
    row ← rd (fs_pins s) credit;
    acquire_credit LEASE s (cr_slot row).

Definition tm_fs_map_cpu (s : tm_fs_store) (lease : option tm_fs_ticket_v1)
    (out : tm_fs_cpu_view_v1) : res (tm_fs_status * tm_fs_cpu_view_v1) :=
  let? lease := lease else Ok (TM_FS_EINVAL, out) in
  if negb (vw_version out =? TM_FS_ABI_V1) then Ok (TM_FS_EVERSION, out)
  else if negb (vw_size out =? SIZEOF_CPU_VIEW) then Ok (TM_FS_EINVAL, out)
  else
    let view data n := Build_tm_fs_cpu_view_v1 (vw_size out) (vw_version out) data n in
    let '(rc, credit) := credit_lookup s lease (fs_leases s) in
    if negb (bool_decide (rc = TM_FS_OK)) then Ok (rc, view None 0)
    else
      row ← rd (fs_leases s) credit;
      slot ← rd (fs_slots s) (cr_slot row);
      Ok (TM_FS_OK, view (Some (cr_slot row)) (sl_length slot)).

(** [tm_fs_release_lease] and [tm_fs_release_pin]. *)
Definition release_credit (k : credit_kind) (s : tm_fs_store) (t : option tm_fs_ticket_v1)
    : res (tm_fs_store * tm_fs_status) :=
  let? t := t else Ok (s, TM_FS_EINVAL) in
  let '(rc, credit) := credit_lookup s t (credits k s) in
  if negb (bool_decide (rc = TM_FS_OK)) then Ok (s, rc)
  else
    row ← rd (credits k s) credit;
    rows ← upd (credits k s) credit zero_credit;
    let s := set_credits k s rows (fs_next_ticket_id s) in
    slot ← rd (fs_slots s) (cr_slot row);
    s ← put_slot s (cr_slot row) (maybe_retire (set_counter k slot (u32 (counter k slot - 1))));
    Ok (s, TM_FS_OK).

Definition tm_fs_release_lease : tm_fs_store -> option tm_fs_ticket_v1 -> _ := release_credit LEASE.
Definition tm_fs_release_pin : tm_fs_store -> option tm_fs_ticket_v1 -> _ := release_credit PIN.

Definition tm_fs_retire (s : tm_fs_store) (ref : option tm_fs_frame_ref_v1)
    : res (tm_fs_store * tm_fs_status) :=
  '(rc, index) ← ref_index s ref;
  if negb (bool_decide (rc = TM_FS_OK)) then Ok (s, rc)
  else
    slot ← rd (fs_slots s) index;
    let slot := maybe_retire (set_slot_state slot (sl_length slot) FS_RETIRING) in
    s ← put_slot s index slot;
    Ok (s, if bool_decide (sl_state slot = FS_FREE) then TM_FS_OK else TM_FS_EBUSY).

Definition tm_fs_seal (s : tm_fs_store) : tm_fs_store * tm_fs_status :=
  (Build_tm_fs_store (fs_config s) (fs_generation s) (fs_next_frame_id s)
     (fs_next_ticket_id s) (fs_slots s) (fs_pins s) (fs_leases s) (fs_cursor s) true,
   TM_FS_OK).

(** Whether the store was freed. *)
Definition tm_fs_destroy (s : tm_fs_store) : tm_fs_status :=
  if negb (fs_sealed s) then TM_FS_EBUSY
  else if existsb (fun slot => negb (sl_pins slot =? 0) || negb (sl_leases slot =? 0))
            (fs_slots s) then TM_FS_EBUSY
  else TM_FS_OK.

(** Reading through the pointer of a view. *)
Definition view_bytes (s : tm_fs_store) (view : tm_fs_cpu_view_v1) : res (list Z) :=
  let? i := vw_data view else Fault in
  slot ← rd (fs_slots s) i;
  if len (sl_memory slot) <? vw_size_bytes view then Fault
  else Ok (take (Z.to_nat (vw_size_bytes view)) (sl_memory slot)).

(* ------------------------------------------------------------------ *)
(** ** Histories *)

Inductive fs_op : Type :=
  | FsPublish (data : option (list Z)) (session display : Z)
  | FsReservePin (ref : option tm_fs_frame_ref_v1)
  | FsAcquireWeak (ref : option tm_fs_frame_ref_v1)
  | FsAcquirePinned (pin : option tm_fs_ticket_v1)
  | FsRelease (k : credit_kind) (t : option tm_fs_ticket_v1)
  | FsRetire (ref : option tm_fs_frame_ref_v1)
  | FsSeal.

Definition fs_step (s : tm_fs_store) (op : fs_op) : res tm_fs_store :=
  match op with
  | FsPublish data session display =>
      '(s, _, _) ← tm_fs_publish_cpu s data session display zero_ref; Ok s
  | FsReservePin ref => '(s, _, _) ← tm_fs_reserve_pin s ref; Ok s
  | FsAcquireWeak ref => '(s, _, _) ← tm_fs_acquire_weak s ref; Ok s
  | FsAcquirePinned pin => '(s, _, _) ← tm_fs_acquire_pinned s pin zero_ticket; Ok s
  | FsRelease k t => '(s, _) ← release_credit k s t; Ok s
  | FsRetire ref => '(s, _) ← tm_fs_retire s ref; Ok s
  | FsSeal => Ok (tm_fs_seal s).1
  end.

Fixpoint fs_run (s : tm_fs_store) (ops : list fs_op) : res tm_fs_store :=
  match ops with
  | [] => Ok s
  | op :: ops => s ← fs_step s op; fs_run s ops
  end.

(** References come with an unsigned slot index. *)
Definition op_ref (op : fs_op) : option tm_fs_frame_ref_v1 :=
  match op with
  | FsReservePin ref | FsAcquireWeak ref | FsRetire ref => ref
  | _ => None
  end.

Definition ref_ok (ref : option tm_fs_frame_ref_v1) : Prop :=
  forall r, ref = Some r -> 0 <= rf_slot r.

Definition fs_op_ok (op : fs_op) : Prop := ref_ok (op_ref op).

(* ------------------------------------------------------------------ *)
(** ** The invariant *)

Definition live (r : fs_credit) : Prop := cr_token r <> 0.

Definition on_slot (i : nat) (r : fs_credit) : Prop :=
  cr_token r <> 0 /\ cr_slot r = Z.of_nat i.

#[export] Instance on_slot_dec i r : Decision (on_slot i r).
Proof. unfold on_slot. apply _. Defined.

(** The credits a table has on a slot. *)
Definition held (rows : list fs_credit) (i : nat) : Z := len (filter (on_slot i) rows).

Record slot_wf (s : tm_fs_store) (i : nat) (slot : fs_slot) : Prop := {
  sw_count : forall k, counter k slot = held (credits k s) i;
  sw_free : sl_state slot = FS_FREE -> sl_pins slot = 0 /\ sl_leases slot = 0;
  sw_retiring : sl_state slot = FS_RETIRING -> 0 < sl_pins slot + sl_leases slot;
  sw_generation : 0 <= sl_slot_generation slot <= U32_MAX;
  sw_length : 0 <= sl_length slot <= len (sl_memory slot);
  sw_memory : len (sl_memory slot) <= cf_max_frame_bytes (fs_config s);
  sw_frame : sl_state slot <> FS_FREE -> 0 < sl_frame_id slot <= fs_next_frame_id s;
}.

Record fs_wf (s : tm_fs_store) : Prop := {
  wf_capacity : len (fs_slots s) = cf_slot_capacity (fs_config s);
  wf_bounds : 0 < cf_slot_capacity (fs_config s) <= TM_FS_MAX_SLOTS;
  wf_tables : forall k, len (credits k s) <= TM_FS_MAX_CREDITS;
  wf_slots : forall i slot, fs_slots s !! i = Some slot -> slot_wf s i slot;
  wf_rows : forall k j r, credits k s !! j = Some r -> cr_token r <> 0 ->
    0 < cr_token r <= fs_next_ticket_id s /\
    exists i slot, cr_slot r = Z.of_nat i /\ fs_slots s !! i = Some slot /\
      sl_slot_generation slot = cr_generation r;
  wf_unique : forall k k' j j' r r', credits k s !! j = Some r ->
    credits k' s !! j' = Some r' -> cr_token r <> 0 -> cr_token r = cr_token r' ->
    k = k' /\ j = j';
  wf_tickets : 0 <= fs_next_ticket_id s <= U64_MAX;
  wf_frames : 0 <= fs_next_frame_id s <= U64_MAX;
  wf_cursor : 0 <= fs_cursor s < cf_slot_capacity (fs_config s);
}.

(** ** Elementary changes

    Every operation is at most one of these, with the credit it releases. *)

Definition with_credit (k : credit_kind) (s : tm_fs_store) (j : nat) (row : fs_credit)
    (next_ticket : Z) (i : nat) (slot : fs_slot) : tm_fs_store :=
  set_slots (set_credits k s (<[j := row]> (credits k s)) next_ticket)
    (<[i := slot]> (fs_slots s)).

Definition published (s : tm_fs_store) (i : nat) (slot : fs_slot) : tm_fs_store :=
  Build_tm_fs_store (fs_config s) (fs_generation s) (fs_next_frame_id s + 1)
    (fs_next_ticket_id s) (<[i := slot]> (fs_slots s)) (fs_pins s) (fs_leases s)
    (u32 (Z.of_nat i + 1) mod cf_slot_capacity (fs_config s)) (fs_sealed s).

Definition published_slot (s : tm_fs_store) (slot : fs_slot) (data : list Z)
    (session display : Z) : fs_slot :=
  Build_fs_slot (data ++ drop (length data) (sl_memory slot)) (len data)
    (fs_next_frame_id s + 1) (u32 (sl_slot_generation slot + 1)) session display
    (sl_pins slot) (sl_leases slot) FS_READY.

Inductive fs_change (s : tm_fs_store) : option (credit_kind * Z) -> tm_fs_store -> Prop :=
  | change_publish i slot data session display :
      fs_slots s !! i = Some slot -> slot_usable slot = true ->
      len data <= cf_max_frame_bytes (fs_config s) -> fs_next_frame_id s < U64_MAX ->
      fs_change s None (published s i (published_slot s slot data session display))
  | change_acquire k j r i slot :
      credits k s !! j = Some r -> cr_token r = 0 -> fs_slots s !! i = Some slot ->
      sl_state slot <> FS_FREE -> fs_next_ticket_id s < U64_MAX ->
      fs_change s None (with_credit k s j
        (Build_fs_credit (fs_next_ticket_id s + 1) (Z.of_nat i) (sl_slot_generation slot))
        (fs_next_ticket_id s + 1) i (set_counter k slot (u32 (counter k slot + 1))))
  | change_release k j r i slot :
      credits k s !! j = Some r -> cr_token r <> 0 -> cr_slot r = Z.of_nat i ->
      fs_slots s !! i = Some slot ->
      fs_change s (Some (k, cr_token r)) (with_credit k s j zero_credit (fs_next_ticket_id s) i
        (maybe_retire (set_counter k slot (u32 (counter k slot - 1)))))
  | change_retire i slot :
      fs_slots s !! i = Some slot -> sl_state slot <> FS_FREE ->
      fs_change s None (set_slots s
        (<[i := maybe_retire (set_slot_state slot (sl_length slot) FS_RETIRING)]> (fs_slots s)))
  | change_seal : fs_change s None (tm_fs_seal s).1.

(* ------------------------------------------------------------------ *)
(** ** What the operations do *)

Lemma rd_nth {A} (l : list A) i x : l !! i = Some x -> rd l (Z.of_nat i) = Ok x.
Proof. intros H. apply rd_lookup. rewrite Nat2Z.id. split; [lia|done]. Qed.

Lemma rd_nth_inv {A} (l : list A) i x : rd l (Z.of_nat i) = Ok x -> l !! i = Some x.
Proof. intros [_ H]%rd_lookup. by rewrite Nat2Z.id in H. Qed.

Lemma upd_nth {A} (l : list A) i (x y : A) :
  l !! i = Some x -> upd l (Z.of_nat i) y = Ok (<[i := y]> l).
Proof.
  intros H%lookup_lt_Some. rewrite upd_Ok by (unfold len; lia). by rewrite Nat2Z.id.
Qed.

Lemma ref_index_spec s ref :
  fs_wf s -> ref_ok ref ->
  (exists rc i, ref_index s ref = Ok (rc, i) /\ rc <> TM_FS_OK) \/
  (exists r i slot, ref = Some r /\ ref_index s ref = Ok (TM_FS_OK, Z.of_nat i) /\
     rf_slot r = Z.of_nat i /\ fs_slots s !! i = Some slot /\ ref_matches slot r = true).
Proof.
  intros Hw Hr. unfold ref_index. destruct ref as [r|]; [|left; by eexists _, _].
  specialize (Hr r eq_refl).
  destruct (negb (_ =? TM_FS_ABI_V1)); [left; by eexists _, _|].
  destruct (negb (_ =? SIZEOF_FRAME_REF)); [left; by eexists _, _|].
  destruct (_ || _) eqn:E; [left; by eexists _, _|].
  apply orb_false_iff in E as [_ E].
  destruct (rd_in_range (fs_slots s) (rf_slot r)) as [slot Hs];
    [rewrite (wf_capacity _ Hw); lia|].
  rewrite Hs. cbn [mbind res_bind]. destruct (ref_matches slot r) eqn:Em; [|left; by eexists _, _].
  right. exists r, (Z.to_nat (rf_slot r)), slot. rewrite Z2Nat.id by lia.
  apply rd_lookup in Hs as [_ Hs]. done.
Qed.

Lemma ref_matches_live slot r : ref_matches slot r = true -> sl_state slot <> FS_FREE.
Proof. unfold ref_matches. by destruct (sl_state slot). Qed.

Lemma credit_lookup_spec s t rows :
  (exists rc, credit_lookup s t rows = (rc, 0) /\ rc <> TM_FS_OK) \/
  (exists j r, credit_lookup s t rows = (TM_FS_OK, Z.of_nat j) /\ rows !! j = Some r /\
     cr_token r = tk_ticket_id t /\ cr_token r <> 0).
Proof.
  unfold credit_lookup. destruct (tk_ticket_id t =? 0) eqn:E0; [left; by eexists|].
  destruct (_ || _); [left; by eexists|].
  destruct (list_find _ rows) as [[j r]|] eqn:Ef; [|left; by eexists].
  apply list_find_Some in Ef as (Hj & Hr & _). right. exists j, r. split_and!; try done. lia.
Qed.

(** Finding a row by its token, when it is there. *)
Lemma credit_lookup_found s k t j r :
  fs_wf s -> credits k s !! j = Some r -> cr_token r = tk_ticket_id t -> cr_token r <> 0 ->
  tk_store_id t = cf_store_id (fs_config s) -> tk_store_generation t = fs_generation s ->
  credit_lookup s t (credits k s) = (TM_FS_OK, Z.of_nat j).
Proof.
  intros Hw Hj Ht Hn Hs Hg. unfold credit_lookup. rewrite <- Ht, Hs, Hg, !Z.eqb_refl.
  replace (cr_token r =? 0) with false by lia. cbn [negb orb].
  destruct (list_find _ _) as [[j' r']|] eqn:Ef.
  - apply list_find_Some in Ef as (Hj' & Hr' & _).
    by destruct (wf_unique _ Hw k k j j' r r' Hj Hj' Hn ltac:(done)) as [_ <-].
  - apply list_find_None in Ef. eapply Forall_lookup_1 in Ef; [|exact Hj]. done.
Qed.

Lemma credits_with_credit k k' s j row next i slot :
  credits k' (with_credit k s j row next i slot) =
  if decide (k' = k) then <[j := row]> (credits k s) else credits k' s.
Proof. by destruct k, k'. Qed.

Lemma acquire_credit_spec k s i slot :
  fs_slots s !! i = Some slot ->
  (exists rc, acquire_credit k s (Z.of_nat i) = Ok (s, rc, zero_ticket) /\ rc <> TM_FS_OK) \/
  (exists j r, credits k s !! j = Some r /\ cr_token r = 0 /\ fs_next_ticket_id s <> U64_MAX /\
     acquire_credit k s (Z.of_nat i) =
     Ok (with_credit k s j
           (Build_fs_credit (fs_next_ticket_id s + 1) (Z.of_nat i) (sl_slot_generation slot))
           (fs_next_ticket_id s + 1) i (set_counter k slot (u32 (counter k slot + 1))),
         TM_FS_OK,
         Build_tm_fs_ticket_v1 (cf_store_id (fs_config s)) (fs_generation s)
           (fs_next_ticket_id s + 1))).
Proof.
  intros Hi. unfold acquire_credit. rewrite (rd_nth _ _ _ Hi). cbn [mbind res_bind].
  unfold credit_alloc. destruct (list_find _ _) as [[j r]|] eqn:Ef; [|left; by eexists].
  destruct (fs_next_ticket_id s =? U64_MAX) eqn:Em; [left; by eexists|].
  apply list_find_Some in Ef as (Hj & Hr & _). right. exists j, r. split_and!; try done; [lia|].
  rewrite (upd_nth _ _ _ _ Hj). cbn [mbind res_bind]. rewrite bool_decide_true by done.
  cbn [negb]. replace (fs_slots (set_credits k s _ _)) with (fs_slots s) by (by destruct k).
  rewrite (rd_nth _ _ _ Hi). cbn [mbind res_bind]. unfold put_slot.
  replace (fs_slots (set_credits k s _ _)) with (fs_slots s) by (by destruct k).
  rewrite (upd_nth _ _ _ _ Hi). by destruct k.
Qed.

(** When it does not succeed. *)
Lemma acquire_credit_status k s i slot s' rc t :
  fs_slots s !! i = Some slot -> acquire_credit k s (Z.of_nat i) = Ok (s', rc, t) ->
  rc = TM_FS_OK \/ (rc = TM_FS_EFULL /\ Forall (fun r => cr_token r <> 0) (credits k s)) \/
  (rc = TM_FS_EEXHAUSTED /\ fs_next_ticket_id s = U64_MAX).
Proof.
  intros Hi. unfold acquire_credit. rewrite (rd_nth _ _ _ Hi). cbn [mbind res_bind].
  unfold credit_alloc. destruct (list_find _ _) as [[j r]|] eqn:Ef.
  - destruct (fs_next_ticket_id s =? U64_MAX) eqn:Em.
    { cbn. intros [= _ <- _]. right. right. split; [done|lia]. }
    destruct (upd _ _ _); cbn; [|done..]. rewrite bool_decide_true by done. cbn.
    destruct (rd _ _); [|done..]. cbn. destruct (put_slot _ _ _); cbn; [|done..].
    intros [= _ <- _]. by left.
  - cbn. intros [= _ <- _]. right. left. split; [done|]. by apply list_find_None in Ef.
Qed.

Lemma release_credit_spec k s t :
  fs_wf s ->
  (exists rc, release_credit k s t = Ok (s, rc) /\ rc <> TM_FS_OK) \/
  (exists t' j r i slot, t = Some t' /\ credits k s !! j = Some r /\
     cr_token r = tk_ticket_id t' /\ cr_token r <> 0 /\ cr_slot r = Z.of_nat i /\
     fs_slots s !! i = Some slot /\
     release_credit k s t =
     Ok (with_credit k s j zero_credit (fs_next_ticket_id s) i
           (maybe_retire (set_counter k slot (u32 (counter k slot - 1)))), TM_FS_OK)).
Proof.
  intros Hw. unfold release_credit. destruct t as [t|]; [|left; by eexists].
  destruct (credit_lookup_spec s t (credits k s)) as [(rc & -> & Hrc)|(j & r & -> & Hj & Ht & Hn)].
  { left. rewrite bool_decide_false by done. by eexists. }
  rewrite bool_decide_true by done. cbn [negb]. rewrite (rd_nth _ _ _ Hj). cbn [mbind res_bind].
  rewrite (upd_nth _ _ _ _ Hj). cbn [mbind res_bind].
  destruct (wf_rows _ Hw k j r Hj Hn) as (_ & i & slot & Hs & Hi & _).
  replace (fs_slots (set_credits k s _ _)) with (fs_slots s) by (by destruct k).
  rewrite Hs, (rd_nth _ _ _ Hi). cbn [mbind res_bind]. unfold put_slot.
  replace (fs_slots (set_credits k s _ _)) with (fs_slots s) by (by destruct k).
  rewrite (upd_nth _ _ _ _ Hi). cbn [mbind res_bind]. right.
  exists t, j, r, i, slot. split_and!; done.
Qed.

(** The scan answers, and a slot it finds is usable. *)
Lemma publish_scan_spec n s step :
  fs_wf s ->
  publish_scan n s step = Ok None \/
  (exists i slot, publish_scan n s step = Ok (Some (Z.of_nat i)) /\
     fs_slots s !! i = Some slot /\ slot_usable slot = true).
Proof.
  intros Hw. revert step. induction n as [|n IH]; intros step; [by left|]. cbn [publish_scan].
  pose proof (wf_bounds _ Hw).
  set (index := u32 (fs_cursor s + step) mod cf_slot_capacity (fs_config s)).
  assert (0 <= index < cf_slot_capacity (fs_config s)) by (apply Z.mod_pos_bound; lia).
  destruct (rd_in_range (fs_slots s) index) as [slot Hs]; [rewrite (wf_capacity _ Hw); lia|].
  rewrite Hs. cbn [mbind res_bind]. destruct (slot_usable slot) eqn:Eu; [|apply IH].
  right. exists (Z.to_nat index), slot. rewrite Z2Nat.id by lia.
  apply rd_lookup in Hs as [_ Hs]. done.
Qed.

Lemma publish_spec s data session display out :
  fs_wf s ->
  (exists rc out', tm_fs_publish_cpu s data session display out = Ok (s, rc, out') /\
     rc <> TM_FS_OK) \/
  (exists d i slot, data = Some d /\ fs_slots s !! i = Some slot /\ slot_usable slot = true /\
     0 < len d <= cf_max_frame_bytes (fs_config s) /\ fs_next_frame_id s <> U64_MAX /\
     tm_fs_publish_cpu s data session display out =
     Ok (published s i (published_slot s slot d session display), TM_FS_OK,
         {| rf_size := SIZEOF_FRAME_REF; rf_version := TM_FS_ABI_V1;
            rf_store_id := cf_store_id (fs_config s); rf_store_generation := fs_generation s;
            rf_slot := Z.of_nat i; rf_slot_generation := u32 (sl_slot_generation slot + 1);
            rf_frame_id := fs_next_frame_id s + 1; rf_session := session;
            rf_display := display |})).
Proof.
  intros Hw. unfold tm_fs_publish_cpu. destruct data as [d|]; [|left; by eexists _, _].
  destruct (_ || _) eqn:Eb; [left; by eexists _, _|]. apply orb_false_iff in Eb as [Eb Hm].
  destruct (fs_sealed s) eqn:Es; [left; by eexists _, _|].
  destruct (publish_scan_spec (Z.to_nat (cf_slot_capacity (fs_config s))) s 0 Hw)
    as [->|(i & slot & -> & Hi & Hu)]; cbn [mbind res_bind]; [left; by eexists _, _|].
  destruct (fs_next_frame_id s =? U64_MAX) eqn:Ef; [left; by eexists _, _|].
  rewrite (rd_nth _ _ _ Hi). cbn [mbind res_bind]. unfold publish_slot. rewrite Hm.
  cbn [mbind res_bind]. rewrite (upd_nth _ _ _ _ Hi). cbn [mbind res_bind].
  right. exists d, i, slot. pose proof (len_nonneg d). split_and!; try done; try lia.
  unfold published. by rewrite Es.
Qed.

Lemma retire_spec s ref :
  fs_wf s -> ref_ok ref ->
  (exists rc, tm_fs_retire s ref = Ok (s, rc)) \/
  (exists r i slot rc, ref = Some r /\ rf_slot r = Z.of_nat i /\ fs_slots s !! i = Some slot /\
     ref_matches slot r = true /\
     tm_fs_retire s ref =
     Ok (set_slots s (<[i := maybe_retire (set_slot_state slot (sl_length slot) FS_RETIRING)]>
                        (fs_slots s)), rc)).
Proof.
  intros Hw Hr. unfold tm_fs_retire.
  destruct (ref_index_spec s ref Hw Hr)
    as [(rc & i & -> & Hrc)|(r & i & slot & -> & -> & Hi & Hs & Hm)]; cbn [mbind res_bind].
  { rewrite bool_decide_false by done. left. by eexists. }
  rewrite bool_decide_true by done. cbn [negb]. rewrite (rd_nth _ _ _ Hs). cbn [mbind res_bind].
  unfold put_slot. rewrite (upd_nth _ _ _ _ Hs). cbn [mbind res_bind].
  right. eexists r, i, slot, _. done.
Qed.

(** Acquiring by reference. *)
Lemma acquire_ref_spec k s ref :
  fs_wf s -> ref_ok ref ->
  let op := match k with PIN => tm_fs_reserve_pin | LEASE => tm_fs_acquire_weak end in
  (exists rc, op s ref = Ok (s, rc, zero_ticket) /\ rc <> TM_FS_OK) \/
  (exists r i slot, ref = Some r /\ rf_slot r = Z.of_nat i /\ fs_slots s !! i = Some slot /\
     ref_matches slot r = true /\ op s ref = acquire_credit k s (Z.of_nat i)).
Proof.
  intros Hw Hr. destruct k; intros op; unfold op, tm_fs_reserve_pin, tm_fs_acquire_weak;
    (destruct (fs_sealed s); [left; by eexists|]);
    (destruct (ref_index_spec s ref Hw Hr)
      as [(rc & i & -> & Hrc)|(r & i & slot & -> & -> & Hi & Hs & Hm)]; cbn [mbind res_bind];
      [rewrite bool_decide_false by done; left; by eexists|]);
    rewrite bool_decide_true by done; cbn [negb]; rewrite (rd_nth _ _ _ Hs); cbn [mbind res_bind];
    (destruct (negb _); [left; by eexists|]); right; by eexists r, i, slot.
Qed.

(* ------------------------------------------------------------------ *)
(** ** Counting credits *)

Definition one (P : Prop) `{Decision P} : Z := if decide P then 1 else 0.

Lemma held_cons r rows i : held (r :: rows) i = one (on_slot i r) + held rows i.
Proof.
  unfold held, one. rewrite filter_cons. case_decide; [by rewrite len_cons|lia].
Qed.

Lemma held_insert rows j r r' i :
  rows !! j = Some r ->
  held (<[j := r']> rows) i + one (on_slot i r) = held rows i + one (on_slot i r').
Proof.
  revert j. induction rows as [|x rows IH]; intros [|j] Hj; try done; cbn in Hj.
  - injection Hj as ->. cbn [insert list_insert]. rewrite !held_cons. lia.
  - change (<[S j := r']> (x :: rows)) with (x :: <[j := r']> rows). rewrite !held_cons.
    specialize (IH _ Hj). lia.
Qed.

Lemma held_nonneg rows i : 0 <= held rows i.
Proof. apply len_nonneg. Qed.

Lemma held_le rows i : held rows i <= len rows.
Proof. unfold held, len. apply inj_le, length_filter. Qed.

Lemma held_elem rows j r i : rows !! j = Some r -> on_slot i r -> 0 < held rows i.
Proof.
  intros Hj Hr. pose proof (held_insert rows j r zero_credit i Hj) as H.
  pose proof (held_nonneg (<[j := zero_credit]> rows) i). unfold one in H.
  rewrite (decide_True (P := on_slot i r)) in H by done.
  rewrite (decide_False (P := on_slot i zero_credit)) in H by (by intros []). lia.
Qed.

Lemma credit_not_free s k j r i slot :
  fs_wf s -> credits k s !! j = Some r -> cr_token r <> 0 -> cr_slot r = Z.of_nat i ->
  fs_slots s !! i = Some slot -> sl_state slot <> FS_FREE.
Proof.
  intros Hw Hj Hn Hs Hi Hf. pose proof (wf_slots _ Hw _ _ Hi) as Hs'.
  destruct (sw_free _ _ _ Hs' Hf) as [Hp Hl].
  assert (Hh : 0 < held (credits k s) i) by by eapply held_elem.
  rewrite <- (sw_count _ _ _ Hs' k) in Hh. destruct k; cbn in Hh; lia.
Qed.

Lemma acquire_pinned_spec s pin out :
  fs_wf s ->
  (exists rc out', tm_fs_acquire_pinned s pin out = Ok (s, rc, out') /\ rc <> TM_FS_OK) \/
  (exists p j r i slot, pin = Some p /\ fs_pins s !! j = Some r /\
     cr_token r = tk_ticket_id p /\ cr_token r <> 0 /\ cr_slot r = Z.of_nat i /\
     fs_slots s !! i = Some slot /\ sl_state slot <> FS_FREE /\
     tm_fs_acquire_pinned s pin out = acquire_credit LEASE s (Z.of_nat i)).
Proof.
  intros Hw. unfold tm_fs_acquire_pinned. destruct pin as [p|]; [|left; by eexists _, _].
  destruct (credit_lookup_spec s p (fs_pins s)) as [(rc & -> & Hrc)|(j & r & -> & Hj & Ht & Hn)].
  { rewrite bool_decide_false by done. left. by eexists _, _. }
  rewrite bool_decide_true by done. cbn [negb]. rewrite (rd_nth _ _ _ Hj). cbn [mbind res_bind].
  destruct (wf_rows _ Hw PIN j r Hj Hn) as (_ & i & slot & Hs & Hi & _). right.
  exists p, j, r, i, slot. rewrite Hs. split_and!; try done.
  by eapply (credit_not_free s PIN).
Qed.

(** ** Every operation is an elementary change *)

Definition changed (s s' : tm_fs_store) (op : fs_op) : Prop :=
  s' = s \/ exists released, fs_change s released s' /\
    (forall k token, released = Some (k, token) ->
       exists t, op = FsRelease k (Some t) /\ tk_ticket_id t = token).

Lemma acquire_changed k s i slot op :
  fs_wf s -> fs_slots s !! i = Some slot -> sl_state slot <> FS_FREE ->
  exists s' rc t, acquire_credit k s (Z.of_nat i) = Ok (s', rc, t) /\ changed s s' op.
Proof.
  intros Hw Hi Hf. pose proof (wf_tickets _ Hw).
  destruct (acquire_credit_spec k s i slot Hi) as [(rc & E & _)|(j & r & Hj & Hr & Hm & E)];
    rewrite E; do 3 eexists; (split; [done|]); [by left|].
  right. exists None. split; [|done]. by apply (change_acquire s k j r); [..|lia].
Qed.

Lemma fs_step_changed s op :
  fs_wf s -> fs_op_ok op -> exists s', fs_step s op = Ok s' /\ changed s s' op.
Proof.
  intros Hw Hop. destruct op as [data session display|ref|ref|pin|k t|ref|]; cbn [fs_step].
  - pose proof (wf_frames _ Hw).
    destruct (publish_spec s data session display zero_ref Hw)
      as [(rc & out & -> & _)|(d & i & slot & -> & Hi & Hu & Hd & Hm & ->)]; cbn [mbind res_bind];
      eexists; (split; [done|]); [by left|].
    right. exists None. split; [|done]. apply change_publish; [done|done|lia..].
  - destruct (acquire_ref_spec PIN s ref Hw Hop)
      as [(rc & -> & _)|(r & i & slot & -> & _ & Hi & Hm & ->)]; cbn [mbind res_bind];
      [eexists; split; [done|by left]|].
    destruct (acquire_changed PIN s i slot (FsReservePin (Some r)) Hw Hi (ref_matches_live _ _ Hm))
      as (s' & rc & t & -> & Hc). by eexists.
  - destruct (acquire_ref_spec LEASE s ref Hw Hop)
      as [(rc & -> & _)|(r & i & slot & -> & _ & Hi & Hm & ->)]; cbn [mbind res_bind];
      [eexists; split; [done|by left]|].
    destruct (acquire_changed LEASE s i slot (FsAcquireWeak (Some r)) Hw Hi (ref_matches_live _ _ Hm))
      as (s' & rc & t & -> & Hc). by eexists.
  - destruct (acquire_pinned_spec s pin zero_ticket Hw)
      as [(rc & out & -> & _)|(p & j & r & i & slot & -> & _ & _ & _ & _ & Hi & Hf & ->)];
      cbn [mbind res_bind]; [eexists; split; [done|by left]|].
    destruct (acquire_changed LEASE s i slot (FsAcquirePinned (Some p)) Hw Hi Hf)
      as (s' & rc & t & -> & Hc). by eexists.
  - destruct (release_credit_spec k s t Hw)
      as [(rc & -> & _)|(t' & j & r & i & slot & -> & Hj & Ht & Hn & Hs & Hi & ->)];
      cbn [mbind res_bind]; eexists; (split; [done|]); [by left|].
    right. exists (Some (k, cr_token r)). split; [by eapply change_release|].
    intros ? ? [= <- <-]. by exists t'.
  - destruct (retire_spec s ref Hw Hop)
      as [(rc & ->)|(r & i & slot & rc & -> & _ & Hi & Hm & ->)]; cbn [mbind res_bind];
      eexists; (split; [done|]); [by left|].
    right. exists None. split; [|done]. by eapply change_retire, ref_matches_live.
  - eexists. split; [done|]. right. exists None. split; [apply change_seal|done].
Qed.

(* ------------------------------------------------------------------ *)
(** ** Preservation *)

(** A slot is well formed in any store with the same tables and counters. *)
Lemma slot_wf_same s s' i slot :
  slot_wf s i slot -> (forall k, held (credits k s') i = held (credits k s) i) ->
  fs_config s' = fs_config s -> fs_next_frame_id s <= fs_next_frame_id s' ->
  slot_wf s' i slot.
Proof.
  intros [] Hk Hc Hf. split; rewrite ?Hc; try done.
  - intros k. by rewrite Hk.
  - intros H. specialize (sw_frame0 H). lia.
Qed.

Lemma lookup_insert_cases {A} (l : list A) i j (x y : A) :
  <[i := x]> l !! j = Some y -> (i = j /\ y = x) \/ (i <> j /\ l !! j = Some y).
Proof. intros [(<- & <- & _)|[? ?]]%list_lookup_insert_Some; [by left|by right]. Qed.

(** The slot of a live row is still there after slot [i] changed but for its
    generation. *)
Lemma row_slot_insert (slots : list fs_slot) i slot slot' (r : fs_credit) :
  slots !! i = Some slot -> sl_slot_generation slot' = sl_slot_generation slot ->
  (exists n x, cr_slot r = Z.of_nat n /\ slots !! n = Some x /\
     sl_slot_generation x = cr_generation r) ->
  exists n x, cr_slot r = Z.of_nat n /\ <[i := slot']> slots !! n = Some x /\
     sl_slot_generation x = cr_generation r.
Proof.
  intros Hi Hg (n & x & Hn & Hx & Hxg). destruct (decide (n = i)) as [->|Hne].
  - rewrite Hi in Hx. injection Hx as <-. exists i, slot'. rewrite list_lookup_insert_eq by
      by eapply lookup_lt_Some. split_and!; [done|done|congruence].
  - exists n, x. by rewrite list_lookup_insert_ne.
Qed.

Lemma set_slots_wf s i slot slot' :
  fs_wf s -> fs_slots s !! i = Some slot ->
  sl_slot_generation slot' = sl_slot_generation slot -> slot_wf s i slot' ->
  fs_wf (set_slots s (<[i := slot']> (fs_slots s))).
Proof.
  intros Hw Hi Hg Hs. pose proof Hw as [].
  split; cbn [set_slots fs_config fs_slots fs_next_ticket_id fs_next_frame_id fs_cursor]; try done.
  - by rewrite len_insert.
  - intros i' x [[<- ->]|[Hne Hx]]%lookup_insert_cases.
    + by apply (slot_wf_same s).
    + by apply (slot_wf_same s); [apply wf_slots0|..].
  - intros k j r Hj Hn. destruct (wf_rows0 k j r Hj Hn) as [Ht Hr]. split; [done|].
    by eapply row_slot_insert.
Qed.

(** One row [r] of table [k] becomes [row], on slot [i] only. *)
Section with_credit.
Context (k : credit_kind) (s : tm_fs_store) (j : nat) (r row : fs_credit) (next : Z)
  (i : nat) (slot slot' : fs_slot).
Context (Hw : fs_wf s) (Hj : credits k s !! j = Some r) (Hi : fs_slots s !! i = Some slot).
Context (Hg : sl_slot_generation slot' = sl_slot_generation slot).
Context (Hnext : fs_next_ticket_id s <= next <= U64_MAX).
Context (Hrow : cr_token row <> 0 ->
  cr_token row = next /\ fs_next_ticket_id s < next /\ cr_slot row = Z.of_nat i /\
  cr_generation row = sl_slot_generation slot).
Context (Hr : cr_token r <> 0 -> cr_slot r = Z.of_nat i).
Let s' := with_credit k s j row next i slot'.

Lemma with_credit_held k' i' : i' <> i -> held (credits k' s') i' = held (credits k' s) i'.
Proof using Hj Hrow Hr.
  intros Hne. unfold s'. rewrite credits_with_credit. case_decide as E; [subst k'|done].
  pose proof (held_insert _ _ _ row i' Hj) as H. unfold one in H.
  rewrite !decide_False in H; [lia|..].
  - intros [Hn E]. destruct (Hrow Hn) as (_ & _ & E' & _). lia.
  - intros [Hn E]. specialize (Hr Hn). lia.
Qed.

Lemma with_credit_row k' j' x :
  credits k' s' !! j' = Some x ->
  (k' = k /\ j' = j /\ x = row) \/ ((k', j') <> (k, j) /\ credits k' s !! j' = Some x).
Proof using.
  clear. unfold s'. rewrite credits_with_credit. case_decide as E; [subst k'|].
  - intros [[<- ->]|[? ?]]%lookup_insert_cases; [by left|right; split; [congruence|done]].
  - intros Hx. right. split; [congruence|done].
Qed.

Lemma with_credit_wf : slot_wf s' i slot' -> fs_wf s'.
Proof using Hw Hj Hi Hg Hnext Hrow Hr.
  intros Hs. pose proof Hw as []. split; try done.
  - unfold s'. cbn [with_credit set_slots fs_slots fs_config].
    rewrite len_insert. exact wf_capacity0.
  - intros k'. unfold s'. rewrite credits_with_credit. case_decide as E; [subst k'|done].
    by rewrite len_insert.
  - intros i' x [[<- ->]|[Hne Hx]]%lookup_insert_cases; [done|].
    apply (slot_wf_same s); [by apply wf_slots0|..|by destruct k|by destruct k].
    intros k'. by apply with_credit_held.
  - intros k' j' x Hx Hn. change (fs_next_ticket_id s') with next.
    destruct (with_credit_row _ _ _ Hx) as [(-> & -> & ->)|[_ Hx']].
    + destruct (Hrow Hn) as (-> & Hlt & Hsl & Hgen). split; [lia|].
      exists i, slot'. split_and!; [done| |congruence].
      apply list_lookup_insert_eq. by eapply lookup_lt_Some.
    + destruct (wf_rows0 k' j' x Hx' Hn) as [Ht Hsl]. split; [lia|]. by eapply row_slot_insert.
  - intros k1 k2 j1 j2 x1 x2 H1 H2 Hn He.
    destruct (with_credit_row _ _ _ H1) as [(-> & -> & ->)|[Hne1 H1']],
      (with_credit_row _ _ _ H2) as [(-> & -> & ->)|[Hne2 H2']]; try done.
    + destruct (Hrow Hn) as (Hnx & Hlt & _).
      destruct (wf_rows0 k2 j2 x2 H2') as [Ht _]; [congruence|]. lia.
    + destruct (Hrow ltac:(congruence)) as (Hnx & Hlt & _).
      destruct (wf_rows0 k1 j1 x1 H1' Hn) as [Ht _]. lia.
    + by eapply wf_unique0.
  - change (fs_next_ticket_id s') with next. lia.
Qed.
End with_credit.

Lemma published_wf s i slot data session display :
  fs_wf s -> fs_slots s !! i = Some slot -> slot_usable slot = true ->
  len data <= cf_max_frame_bytes (fs_config s) -> fs_next_frame_id s < U64_MAX ->
  fs_wf (published s i (published_slot s slot data session display)).
Proof.
  intros Hw Hi Hu Hd Hf. pose proof Hw as []. pose proof (wf_slots0 _ _ Hi) as Hs.
  apply andb_true_iff in Hu as [Hfree Hgen]. apply bool_decide_eq_true in Hfree.
  destruct (sw_free _ _ _ Hs Hfree) as [Hp Hl].
  pose proof (sw_generation _ _ _ Hs). unfold U32_MAX, U64_MAX in *.
  assert (Hheld : forall k, held (credits k s) i = 0).
  { intros k. rewrite <- (sw_count _ _ _ Hs k). by destruct k. }
  split; cbn [published fs_config fs_slots fs_next_ticket_id fs_next_frame_id fs_cursor];
    try done; try (unfold U64_MAX in *; lia).
  - by rewrite len_insert.
  - intros i' x [[<- ->]|[Hne Hx]]%lookup_insert_cases.
    + destruct Hs. split; cbn [published_slot sl_pins sl_leases sl_state sl_slot_generation
        sl_length sl_memory sl_frame_id published fs_next_frame_id fs_config]; try done.
      * pose proof (u32_range (sl_slot_generation slot + 1)) as Hr.
        unfold is_u32, U32_MAX in *. lia.
      * rewrite len_app. pose proof (len_nonneg data).
        pose proof (len_nonneg (drop (length data) (sl_memory slot))). lia.
      * rewrite len_app, len_drop. unfold len in *. lia.
      * lia.
    + apply (slot_wf_same s); [by apply wf_slots0|done|done|]. cbn [published fs_next_frame_id]. lia.
  - intros k j r Hj Hn. destruct (wf_rows0 k j r Hj Hn) as [Ht (n & x & Hsl & Hx & Hg)].
    split; [done|]. exists n, x. split_and!; [done| |done].
    rewrite list_lookup_insert_ne; [done|]. intros <-.
    assert (0 < held (credits k s) i) by by eapply held_elem. specialize (Hheld k). lia.
Qed.

(** A slot all of whose credits are gone is freed, and is well formed then. *)
Lemma maybe_retire_wf s i slot :
  (sl_state slot = FS_RETIRING -> slot_wf s i (set_slot_state slot (sl_length slot) FS_READY)) ->
  (sl_state slot <> FS_RETIRING -> slot_wf s i slot) -> slot_wf s i (maybe_retire slot).
Proof.
  intros H1 H2. unfold maybe_retire. pose proof (held_nonneg) as Hh.
  destruct (decide (sl_state slot = FS_RETIRING)) as [E|E].
  - rewrite bool_decide_true by done. destruct (H1 E). cbn [andb].
    assert (Hp := sw_count0 PIN). assert (Hl := sw_count0 LEASE). cbn in *.
    pose proof (Hh (fs_pins s) i). pose proof (Hh (fs_leases s) i).
    destruct ((sl_pins slot =? 0) && (sl_leases slot =? 0)) eqn:E0.
    + split; cbn; try done.
      * intros _. lia.
      * pose proof (len_nonneg (sl_memory slot)). lia.
    + split; cbn; rewrite ?E; try done; [intros _; lia|]. intros _. by apply sw_frame0.
  - rewrite bool_decide_false by done. by apply H2.
Qed.

(** The counter that goes with a credit. *)
Lemma counter_bound s k i slot :
  fs_wf s -> fs_slots s !! i = Some slot -> 0 <= counter k slot <= TM_FS_MAX_CREDITS.
Proof.
  intros Hw Hi. rewrite (sw_count _ _ _ (wf_slots _ Hw _ _ Hi) k).
  pose proof (held_nonneg (credits k s) i). pose proof (held_le (credits k s) i).
  pose proof (wf_tables _ Hw k). lia.
Qed.

Lemma counter_set k k' slot n :
  counter k' (set_counter k slot n) = if decide (k' = k) then n else counter k' slot.
Proof. by destruct k, k'. Qed.

(** Slot [i] when table [k] has [n] credits on it after the change of row [j]. *)
Lemma counted_wf k s j r row next i slot n state :
  fs_wf s -> credits k s !! j = Some r -> fs_slots s !! i = Some slot ->
  n = counter k slot + one (on_slot i row) - one (on_slot i r) ->
  state = FS_READY \/ (state = sl_state slot /\ state <> FS_FREE /\ 0 < n) ->
  sl_state slot <> FS_FREE -> forall slot0,
  slot_wf (with_credit k s j row next i slot0) i
    (set_slot_state (set_counter k slot n) (sl_length slot) state).
Proof.
  intros Hw Hj Hi Hn Hst Hf slot0. pose proof (wf_slots _ Hw _ _ Hi) as [].
  pose proof (held_insert _ _ _ row i Hj) as Hh.
  split; cbn [set_slot_state set_counter sl_state sl_slot_generation sl_length sl_memory
    sl_frame_id]; try done.
  - intros k'. rewrite credits_with_credit.
    change (counter k' (set_slot_state ?x _ _)) with (counter k' x). rewrite counter_set.
    case_decide as E; [subst k'|done]. rewrite Hn, (sw_count0 k). lia.
  - intros ->. by destruct Hst as [|(_ & ? & _)].
  - intros ->. destruct Hst as [|(_ & _ & Hn0)]; [done|].
    assert (Hp := sw_count0 PIN). assert (Hl := sw_count0 LEASE). cbn in Hp, Hl.
    pose proof (held_nonneg (fs_pins s) i). pose proof (held_nonneg (fs_leases s) i).
    destruct k; cbn; lia.
  - intros _. by apply sw_frame0.
Qed.

Lemma fs_change_wf s released s' : fs_wf s -> fs_change s released s' -> fs_wf s'.
Proof.
  intros Hw [i slot data session display Hi Hu Hd Hf|k j r i slot Hj Hr Hi Hf Ht
            |k j r i slot Hj Hr Hs Hi|i slot Hi Hf|].
  - by apply published_wf.
  - pose proof (wf_tickets _ Hw). pose proof (counter_bound s k i slot Hw Hi).
    eapply with_credit_wf; try done; [lia|by intros _; split_and!; [|lia|..]|].
    rewrite u32_id by (unfold is_u32, TM_FS_MAX_CREDITS in *; lia).
    replace (set_counter k slot (counter k slot + 1)) with
      (set_slot_state (set_counter k slot (counter k slot + 1)) (sl_length slot) (sl_state slot))
      by by destruct k.
    eapply counted_wf; try done.
    + unfold one. rewrite decide_True by (split; cbn; [lia|done]).
      rewrite decide_False by (by intros []). lia.
    + right. split_and!; [done|done|lia].
  - pose proof (wf_tickets _ Hw). pose proof (counter_bound s k i slot Hw Hi).
    pose proof (credit_not_free s k j r i slot Hw Hj Hr Hs Hi) as Hf.
    assert (0 < counter k slot).
    { rewrite (sw_count _ _ _ (wf_slots _ Hw _ _ Hi) k). by eapply held_elem. }
    eapply with_credit_wf; try done; [by unfold maybe_retire; case_match|lia|].
    rewrite u32_id by (unfold is_u32, TM_FS_MAX_CREDITS in *; lia).
    assert (Hone : one (on_slot i zero_credit) = 0 /\ one (on_slot i r) = 1).
    { unfold one. rewrite decide_False by (by intros []). by rewrite decide_True by by split. }
    apply maybe_retire_wf; intros E.
    + apply (counted_wf k s j r zero_credit _ i slot); try done; [lia|by left].
    + replace (set_counter k slot (counter k slot - 1)) with
        (set_slot_state (set_counter k slot (counter k slot - 1)) (sl_length slot) FS_READY)
        at 2; [apply (counted_wf k s j r zero_credit _ i slot); try done; [lia|by left]|].
      destruct k, slot as [? ? ? ? ? ? ? ? []]; done.
  - apply (set_slots_wf s i slot); try done; [by unfold maybe_retire; case_match|].
    pose proof (wf_slots _ Hw _ _ Hi) as []. apply maybe_retire_wf; [intros _|done].
    split; try done. cbn. intros _. by apply sw_frame0.
  - destruct Hw. split; try done. intros i slot Hi. by apply (slot_wf_same s); [apply wf_slots0|..].
Qed.

Lemma fs_step_wf s op s' :
  fs_wf s -> fs_op_ok op -> fs_step s op = Ok s' -> fs_wf s'.
Proof.
  intros Hw Hop E. destruct (fs_step_changed s op Hw Hop) as (s1 & E1 & [->|(t & Hc & _)]);
    rewrite E in E1; injection E1 as ->; [done|]. by eapply fs_change_wf.
Qed.

(* ------------------------------------------------------------------ *)
(** ** Contents *)

Definition content (slot : fs_slot) : list Z :=
  take (Z.to_nat (sl_length slot)) (sl_memory slot).

(** Credit [token] of table [k] is on slot [i], which holds [data]. *)
Definition sees (k : credit_kind) (s : tm_fs_store) (token : Z) (i : nat) (data : list Z)
    : Prop :=
  exists j r slot, credits k s !! j = Some r /\ cr_token r = token /\ token <> 0 /\
    cr_slot r = Z.of_nat i /\ fs_slots s !! i = Some slot /\ content slot = data.

(** What reference [ref] names is [data], or is gone for good. *)
Definition names (s : tm_fs_store) (i : nat) (generation : Z) (data : list Z) : Prop :=
  exists slot, fs_slots s !! i = Some slot /\
    (generation < sl_slot_generation slot \/
     (generation = sl_slot_generation slot /\
      (sl_state slot <> FS_FREE -> content slot = data))).

(** What a change does to a slot. *)
Definition slot_kept (x y : fs_slot) : Prop :=
  sl_slot_generation y = sl_slot_generation x /\ (sl_state x = FS_FREE -> sl_state y = FS_FREE) /\
  (sl_state y <> FS_FREE -> content y = content x).

Lemma slot_kept_counter k slot n : slot_kept slot (set_counter k slot n).
Proof. done. Qed.

Lemma slot_kept_retire x slot : slot_kept x slot -> slot_kept x (maybe_retire slot).
Proof. intros (Hg & Hf & Hc). unfold maybe_retire. by case_match. Qed.

Lemma fs_change_slot s released s' i slot :
  fs_change s released s' -> fs_slots s !! i = Some slot ->
  exists slot', fs_slots s' !! i = Some slot' /\
    (slot_kept slot slot' \/
     (slot_usable slot = true /\ sl_slot_generation slot' = u32 (sl_slot_generation slot + 1))).
Proof.
  intros Hc Hi.
  assert (Hins : forall n x (y : fs_slot), fs_slots s !! n = Some x ->
    (slot_kept x y \/ (slot_usable x = true /\ sl_slot_generation y = u32 (sl_slot_generation x + 1))) ->
    exists slot', <[n := y]> (fs_slots s) !! i = Some slot' /\
      (slot_kept slot slot' \/
       (slot_usable slot = true /\ sl_slot_generation slot' = u32 (sl_slot_generation slot + 1)))).
  { intros n x y Hn Hxy. destruct (decide (n = i)) as [->|Hne].
    - rewrite Hi in Hn. injection Hn as <-. exists y. split; [|done].
      apply list_lookup_insert_eq. by eapply lookup_lt_Some.
    - exists slot. rewrite list_lookup_insert_ne by done. split; [done|by left]. }
  destruct Hc as [n x data session display Hn Hu _ _|k j r n x _ _ Hn _ _|k j r n x _ _ _ Hn|n x Hn Hf|].
  - by apply (Hins n x); [|right].
  - by apply (Hins n x); [|left; apply slot_kept_counter].
  - by apply (Hins n x); [|left; apply slot_kept_retire, slot_kept_counter].
  - by apply (Hins n x); [|left; apply slot_kept_retire].
  - exists slot. split; [done|by left].
Qed.

Lemma usable_free slot : slot_usable slot = true -> sl_state slot = FS_FREE /\ sl_slot_generation slot <> U32_MAX.
Proof.
  intros [H1 H2]%andb_true_iff. apply bool_decide_eq_true in H1. split; [done|lia].
Qed.

Lemma names_change s released s' i generation data :
  fs_wf s -> fs_change s released s' -> names s i generation data -> names s' i generation data.
Proof.
  intros Hw Hc (slot & Hi & Hn).
  destruct (fs_change_slot _ _ _ _ _ Hc Hi) as (slot' & Hi' & [(Hg & Hf & Hk)|[Hu Hg]]);
    exists slot'; (split; [done|]).
  - destruct Hn as [Hlt|[Heq Hd]]; [left; lia|right]. split; [lia|]. intros Hs.
    rewrite Hk by done. apply Hd. by intros H%Hf.
  - pose proof (sw_generation _ _ _ (wf_slots _ Hw _ _ Hi)).
    destruct (usable_free _ Hu) as [_ Hm]. unfold U32_MAX in *.
    rewrite u32_id in Hg by (unfold is_u32; lia). left. destruct Hn as [|[]]; lia.
Qed.

(** Which rows a change leaves alone. *)
Lemma fs_change_row s released s' k j r :
  fs_wf s -> fs_change s released s' -> credits k s !! j = Some r -> cr_token r <> 0 ->
  released <> Some (k, cr_token r) -> credits k s' !! j = Some r.
Proof.
  intros Hw Hc Hj Hn Hr. destruct Hc as [| k' j' r' n x Hj' Hr' | k' j' r' n x Hj' | |]; try done.
  - rewrite credits_with_credit. case_decide as E; [subst k'|done].
    rewrite list_lookup_insert_ne; [done|]. intros ->. congruence.
  - rewrite credits_with_credit. case_decide as E; [subst k'|done].
    rewrite list_lookup_insert_ne; [done|]. intros ->. congruence.
Qed.

Lemma sees_change k s released s' token i data :
  fs_wf s -> fs_change s released s' -> released <> Some (k, token) ->
  sees k s token i data -> sees k s' token i data.
Proof.
  intros Hw Hc Hr (j & r & slot & Hj & <- & Hn & Hs & Hi & Hd).
  pose proof (fs_change_row _ _ _ _ _ _ Hw Hc Hj Hn Hr) as Hj'.
  pose proof (fs_change_wf _ _ _ Hw Hc) as Hw'.
  destruct (fs_change_slot _ _ _ _ _ Hc Hi) as (slot' & Hi' & [(Hg & Hf & Hk)|[Hu _]]).
  - exists j, r, slot'. split_and!; try done. rewrite Hk; [done|].
    by eapply (credit_not_free s' k j r i).
  - destruct (usable_free _ Hu) as [Hfree _].
    by destruct (credit_not_free s k j r i slot Hw Hj Hn Hs Hi).
Qed.

(** ** Mapping *)

Definition cpu_view_init : tm_fs_cpu_view_v1 :=
  Build_tm_fs_cpu_view_v1 SIZEOF_CPU_VIEW TM_FS_ABI_V1 None 0.

Definition of_store (s : tm_fs_store) (t : tm_fs_ticket_v1) : Prop :=
  tk_store_id t = cf_store_id (fs_config s) /\ tk_store_generation t = fs_generation s.

Lemma content_len s i slot : slot_wf s i slot -> len (content slot) = sl_length slot.
Proof. intros Hs. pose proof (sw_length _ _ _ Hs). unfold content. rewrite len_take. lia. Qed.

Lemma map_sees s t i data :
  fs_wf s -> of_store s t -> sees LEASE s (tk_ticket_id t) i data ->
  let view := Build_tm_fs_cpu_view_v1 SIZEOF_CPU_VIEW TM_FS_ABI_V1 (Some (Z.of_nat i)) (len data) in
  tm_fs_map_cpu s (Some t) cpu_view_init = Ok (TM_FS_OK, view) /\ view_bytes s view = Ok data.
Proof.
  intros Hw [Hs Hg] (j & r & slot & Hj & Ht & Hn & Hsl & Hi & Hd).
  pose proof (wf_slots _ Hw _ _ Hi) as Hwf. pose proof (content_len _ _ _ Hwf) as Hl. rewrite Hd in Hl.
  split.
  - unfold tm_fs_map_cpu. cbn [vw_version vw_size cpu_view_init]. rewrite !Z.eqb_refl. cbn [negb].
    change (fs_leases s) with (credits LEASE s).
    rewrite (credit_lookup_found s LEASE t j r) by (done || congruence).
    rewrite bool_decide_true by done. cbn [negb]. rewrite (rd_nth _ _ _ Hj). cbn [mbind res_bind].
    rewrite Hsl, (rd_nth _ _ _ Hi). cbn [mbind res_bind]. by rewrite Hl.
  - unfold view_bytes. cbn [vw_data vw_size_bytes]. rewrite (rd_nth _ _ _ Hi). cbn [mbind res_bind].
    pose proof (sw_length _ _ _ Hwf).
    replace (len (sl_memory slot) <? len data) with false by lia.
    unfold content in Hd. by rewrite Hl, Hd.
Qed.

Lemma map_inv s t out view data :
  fs_wf s -> tm_fs_map_cpu s (Some t) out = Ok (TM_FS_OK, view) ->
  view_bytes s view = Ok data ->
  exists i, of_store s t /\ sees LEASE s (tk_ticket_id t) i data /\
    view = Build_tm_fs_cpu_view_v1 SIZEOF_CPU_VIEW TM_FS_ABI_V1 (Some (Z.of_nat i)) (len data).
Proof.
  intros Hw. unfold tm_fs_map_cpu. destruct (vw_version out =? TM_FS_ABI_V1) eqn:Ev; [|done].
  destruct (vw_size out =? SIZEOF_CPU_VIEW) eqn:Es; [|done]. cbn [negb].
  destruct (credit_lookup_spec s t (fs_leases s)) as [(rc & E & Hrc)|(j & r & E & Hj & Ht & Hn)];
    rewrite E; [rewrite bool_decide_false by done; by intros [= ? _]|].
  rewrite bool_decide_true by done. cbn [negb]. rewrite (rd_nth _ _ _ Hj). cbn [mbind res_bind].
  destruct (wf_rows _ Hw LEASE j r Hj Hn) as (_ & i & slot & Hsl & Hi & _).
  rewrite Hsl, (rd_nth _ _ _ Hi). cbn [mbind res_bind]. intros [= <-].
  unfold view_bytes. cbn [vw_data vw_size_bytes]. rewrite (rd_nth _ _ _ Hi). cbn [mbind res_bind].
  destruct (_ <? _); [done|]. intros [= Hd]. exists i. split_and!.
  - unfold of_store, credit_lookup in *. destruct (tk_ticket_id t =? 0); [done|].
    destruct (_ || _) eqn:E1; [done|]. apply orb_false_iff in E1. split; lia.
  - by exists j, r, slot; split_and!; [..|congruence| | |].
  - rewrite <- Hd. fold (content slot). rewrite (content_len s i) by by apply wf_slots. f_equal; lia.
Qed.

(** ** Reachable stores *)

Lemma live_replicate n j r : replicate n zero_credit !! j = Some r -> cr_token r = 0.
Proof. by intros [-> _]%lookup_replicate. Qed.

Lemma held_replicate n i : held (replicate n zero_credit) i = 0.
Proof.
  induction n as [|n IH]; [done|]. cbn [replicate]. rewrite held_cons, IH.
  unfold one. by rewrite decide_False by (by intros []).
Qed.

(** The fields of a configuration are unsigned. *)
Definition config_ok (c : tm_fs_config_v1) : Prop :=
  0 <= cf_slot_capacity c /\ 0 <= cf_max_frame_bytes c /\ 0 <= cf_max_pins c /\
  0 <= cf_max_leases c.

Lemma tm_fs_create_wf gen c mem next s :
  config_ok c -> tm_fs_create gen (Some c) mem = (next, TM_FS_OK, Some s) -> fs_wf s.
Proof.
  intros (? & ? & ? & ?). unfold tm_fs_create. repeat (case_match; [done|]). intros [= _ <-].
  assert (Hb : config_bad c = false) by done. unfold config_bad in Hb.
  unfold TM_FS_MAX_SLOTS, TM_FS_MAX_CREDITS, TM_FS_MAX_FRAME_BYTES in *.
  split; cbn [fs_slots fs_config fs_next_ticket_id fs_next_frame_id fs_cursor];
    unfold TM_FS_MAX_SLOTS, TM_FS_MAX_CREDITS, U64_MAX; try lia.
  - rewrite len_replicate. lia.
  - intros []; cbn; rewrite len_replicate; lia.
  - intros i slot [-> _]%lookup_replicate. split; cbn; try done; try (unfold U32_MAX; lia).
    intros []; cbn; by rewrite held_replicate.
  - intros [] j r Hj Hn; by apply live_replicate in Hj.
  - intros [] k' j j' r r' Hj _ Hn; by apply live_replicate in Hj.
Qed.

Inductive fs_reachable (s : tm_fs_store) : Prop :=
  | fs_reach gen c mem next s0 ops :
      config_ok c -> tm_fs_create gen (Some c) mem = (next, TM_FS_OK, Some s0) -> Forall fs_op_ok ops ->
      fs_run s0 ops = Ok s -> fs_reachable s.

Lemma fs_run_ind (P : tm_fs_store -> Prop) s ops :
  fs_wf s -> Forall fs_op_ok ops -> P s ->
  (forall s1 s2 op, op ∈ ops -> fs_wf s1 -> changed s1 s2 op -> P s1 -> P s2) ->
  exists s', fs_run s ops = Ok s' /\ fs_wf s' /\ P s'.
Proof.
  intros Hw Hops Hp Hstep. revert s Hw Hp.
  induction Hops as [|op ops Hop Hops IH]; intros s Hw Hp; [by exists s|]. cbn [fs_run].
  destruct (fs_step_changed s op Hw Hop) as (s1 & E & Hc). rewrite E. cbn [mbind res_bind].
  apply IH; [|by eapply fs_step_wf|].
  - intros s2 s3 op' Hin. apply Hstep. by right.
  - eapply Hstep; [left|done..].
Qed.

Lemma fs_reachable_wf s : fs_reachable s -> fs_wf s.
Proof.
  intros [gen c mem next s0 ops Hc E Hops Hr]. apply tm_fs_create_wf in E; [|done].
  destruct (fs_run_ind (fun _ => True) s0 ops E Hops) as (s' & E' & Hw & _); [done|done|].
  rewrite Hr in E'. by injection E' as <-.
Qed.

Lemma fs_change_same_store s released s' t :
  fs_change s released s' -> of_store s t -> of_store s' t.
Proof. by intros [| k |k | |]; try destruct k. Qed.

(** A slot published into keeps the index and generation of its reference. *)
Lemma published_names s data session display out s' ref :
  fs_wf s -> tm_fs_publish_cpu s (Some data) session display out = Ok (s', TM_FS_OK, ref) ->
  fs_wf s' /\ exists i, rf_slot ref = Z.of_nat i /\ names s' i (rf_slot_generation ref) data.
Proof.
  intros Hw E. destruct (publish_spec s (Some data) session display out Hw)
    as [(rc & out' & E' & Hrc)|(d & i & slot & [= <-] & Hi & Hu & Hd & Hm & E')];
    rewrite E in E'; injection E'; [congruence|]. intros -> ->.
  pose proof (wf_frames _ Hw).
  split; [apply published_wf; try done; lia|]. exists i. split; [done|].
  exists (published_slot s slot data session display). split.
  - apply list_lookup_insert_eq. by eapply lookup_lt_Some.
  - right. split; [done|]. intros _. unfold content. cbn [published_slot sl_length sl_memory].
    by rewrite len_to_nat, take_app_length.
Qed.

Lemma run_names s ops i generation data :
  fs_wf s -> Forall fs_op_ok ops -> names s i generation data ->
  exists s', fs_run s ops = Ok s' /\ fs_wf s' /\ names s' i generation data.
Proof.
  intros Hw Hops Hn. apply (fs_run_ind (fun s => names s i generation data)); try done.
  intros s1 s2 op _ Hw1 [->|(released & Hc & _)] H1; [done|]. by eapply names_change.
Qed.

(** The credits an operation releases. *)
Definition releases (op : fs_op) (k : credit_kind) (token : Z) : Prop :=
  exists t, op = FsRelease k (Some t) /\ tk_ticket_id t = token.

Lemma run_sees k s ops t i data :
  fs_wf s -> Forall fs_op_ok ops -> Forall (fun op => ~ releases op k (tk_ticket_id t)) ops ->
  of_store s t -> sees k s (tk_ticket_id t) i data ->
  exists s', fs_run s ops = Ok s' /\ fs_wf s' /\ of_store s' t /\
    sees k s' (tk_ticket_id t) i data.
Proof.
  intros Hw Hops Hrel Ho Hs.
  apply (fs_run_ind (fun s => of_store s t /\ sees k s (tk_ticket_id t) i data)); try done.
  intros s1 s2 op Hop Hw1 [->|(released & Hc & Hr)] [Ho1 H1]; [done|].
  split; [by eapply fs_change_same_store|]. eapply sees_change; try done. intros ->.
  eapply Forall_forall in Hrel; [|exact Hop]. apply Hrel.
  by destruct (Hr k (tk_ticket_id t) eq_refl) as (t' & -> & ?); exists t'.
Qed.

(** A credit acquired through a reference is on what the reference names. *)
Lemma acquire_sees k s i slot s' t generation data :
  fs_wf s -> fs_slots s !! i = Some slot -> names s i generation data ->
  sl_slot_generation slot = generation -> sl_state slot <> FS_FREE ->
  acquire_credit k s (Z.of_nat i) = Ok (s', TM_FS_OK, t) ->
  fs_wf s' /\ of_store s' t /\ sees k s' (tk_ticket_id t) i data.
Proof.
  intros Hw Hi (slot' & Hi' & Hn) Hg Hf E. rewrite Hi in Hi'. injection Hi' as <-.
  destruct Hn as [|[_ Hd]]; [lia|]. specialize (Hd Hf). pose proof (wf_tickets _ Hw).
  destruct (acquire_credit_spec k s i slot Hi) as [(rc & E' & Hrc)|(j & r & Hj & Hr & Hm & E')];
    rewrite E in E'; injection E'; [congruence|]. intros -> ->.
  split; [eapply fs_change_wf; [done|]; apply (change_acquire s k j r); try done; lia|].
  split; [by destruct k|]. exists j. eexists _, _. split_and!.
  - rewrite credits_with_credit, decide_True by done.
    apply list_lookup_insert_eq. by eapply lookup_lt_Some.
  - done.
  - cbn. lia.
  - done.
  - apply list_lookup_insert_eq. by eapply lookup_lt_Some.
  - done.
Qed.

Lemma ref_names s ref r i data k s' t :
  fs_wf s -> ref = Some r -> rf_slot r = Z.of_nat i -> names s i (rf_slot_generation r) data ->
  match k with PIN => tm_fs_reserve_pin | LEASE => tm_fs_acquire_weak end s ref =
    Ok (s', TM_FS_OK, t) ->
  fs_wf s' /\ of_store s' t /\ sees k s' (tk_ticket_id t) i data.
Proof.
  intros Hw -> Hs Hn E.
  destruct (acquire_ref_spec k s (Some r) Hw) as [(rc & E' & Hrc)|(r' & i' & slot & [= <-] & Hs' & Hi & Hm & E')].
  { intros x [= <-]. lia. }
  - rewrite E in E'. injection E'. congruence.
  - rewrite Hs in Hs'. apply (inj Z.of_nat) in Hs' as <-. rewrite E in E'. symmetry in E'.
    eapply acquire_sees; try done; [|by eapply ref_matches_live].
    unfold ref_matches in Hm. lia.
Qed.

(** A credit acquired through a live pin is on the same slot. *)
Lemma pinned_sees s pin out s' t i data :
  fs_wf s -> sees PIN s (tk_ticket_id pin) i data ->
  tm_fs_acquire_pinned s (Some pin) out = Ok (s', TM_FS_OK, t) ->
  fs_wf s' /\ of_store s' t /\ sees LEASE s' (tk_ticket_id t) i data.
Proof.
  intros Hw (j & r & slot & Hj & Ht & Hn & Hs & Hi & Hd) E.
  destruct (acquire_pinned_spec s (Some pin) out Hw)
    as [(rc & out' & E' & Hrc)|(p & j' & r' & i' & slot' & [= <-] & Hj' & Ht' & Hn' & Hs' & Hi' & Hf & E')];
    rewrite E in E'; [injection E'; congruence|].
  destruct (wf_unique _ Hw PIN PIN j' j r' r Hj' Hj Hn' ltac:(congruence)) as [_ <-].
  assert (r' = r) as -> by (cbn in Hj; congruence). rewrite Hs in Hs'. apply (inj Z.of_nat) in Hs' as <-.
  rewrite Hi in Hi'. injection Hi' as <-. symmetry in E'.
  eapply (acquire_sees LEASE s i slot); try done. exists slot. split; [done|]. by right.
Qed.

(** *** References that are current

    A reference is current while its slot is ready with it, until it is retired. *)

Definition current (s : tm_fs_store) (ref : tm_fs_frame_ref_v1) : Prop :=
  rf_version ref = TM_FS_ABI_V1 /\ rf_size ref = SIZEOF_FRAME_REF /\
  rf_store_id ref = cf_store_id (fs_config s) /\ rf_store_generation ref = fs_generation s /\
  exists i slot, fs_slots s !! i = Some slot /\ rf_slot ref = Z.of_nat i /\
    ref_matches slot ref = true /\ sl_state slot = FS_READY.

Lemma current_insert s s' i slot slot' ref :
  fs_config s' = fs_config s -> fs_generation s' = fs_generation s ->
  fs_slots s' = <[i := slot']> (fs_slots s) -> fs_slots s !! i = Some slot ->
  (rf_slot ref = Z.of_nat i -> sl_state slot = FS_READY -> ref_matches slot ref = true ->
   sl_state slot' = FS_READY /\ ref_matches slot' ref = true) ->
  current s ref -> current s' ref.
Proof.
  intros Ec Eg Es Hi Hs (H1 & H2 & H3 & H4 & j & x & Hj & Hr & Hm & Hst).
  split; [done|]. split; [done|]. split; [congruence|]. split; [congruence|]. rewrite Es.
  destruct (decide (i = j)) as [->|Hne].
  - rewrite Hi in Hj. injection Hj as <-. destruct (Hs Hr Hst Hm) as [H5 H6]. exists j, slot'.
    split; [apply list_lookup_insert_eq; by eapply lookup_lt_Some|done].
  - exists j, x. by rewrite list_lookup_insert_ne.
Qed.

Lemma current_credit k s j row next i slot n ref :
  fs_slots s !! i = Some slot -> current s ref ->
  current (with_credit k s j row next i (set_counter k slot n)) ref.
Proof.
  intros Hi. apply (current_insert s _ i slot (set_counter k slot n)); [by destruct k..|done|].
  intros _ Hst Hm. by destruct k.
Qed.

Lemma current_release k s j row next i slot n ref :
  fs_slots s !! i = Some slot -> current s ref ->
  current (with_credit k s j row next i (maybe_retire (set_counter k slot n))) ref.
Proof.
  intros Hi. apply (current_insert s _ i slot (maybe_retire (set_counter k slot n))); [by destruct k..|done|].
  intros _ Hst Hm. unfold maybe_retire.
  by rewrite bool_decide_false by (by destruct k; cbn; rewrite Hst); destruct k.
Qed.

Lemma current_acquire k s i slot s' rc t ref :
  fs_slots s !! i = Some slot -> acquire_credit k s (Z.of_nat i) = Ok (s', rc, t) ->
  current s ref -> current s' ref.
Proof.
  intros Hi E. destruct (acquire_credit_spec k s i slot Hi) as [(rc' & E' & _)|(j & r & _ & _ & _ & E')];
    rewrite E in E'; injection E' as -> _ _; [done|by apply current_credit].
Qed.

(** Everything but the retirement of its slot keeps a reference current. *)
Lemma current_step s op s' ref :
  fs_wf s -> fs_op_ok op -> (forall r, op = FsRetire (Some r) -> rf_slot r <> rf_slot ref) ->
  fs_step s op = Ok s' -> current s ref -> current s' ref.
Proof.
  intros Hw Hop Hne. destruct op as [data session display|r|r|pin|k t|r|]; cbn [fs_step].
  - destruct (publish_spec s data session display zero_ref Hw)
      as [(rc & out & -> & _)|(d & i & slot & -> & Hi & Hu & _ & _ & ->)]; cbn [mbind res_bind];
      intros [= <-]; [done|].
    apply (current_insert s _ i slot (published_slot s slot d session display)); [done..|].
    intros _ Hst _. by destruct (usable_free _ Hu) as [E _]; rewrite Hst in E.
  - destruct (acquire_ref_spec PIN s r Hw Hop)
      as [(rc & -> & _)|(r' & i & slot & -> & _ & Hi & _ & ->)]; [by intros [= <-]|].
    destruct (acquire_credit _ _ _) as [[[s1 rc] t]| |] eqn:E; [|done..]. intros [= <-].
    by eapply current_acquire.
  - destruct (acquire_ref_spec LEASE s r Hw Hop)
      as [(rc & -> & _)|(r' & i & slot & -> & _ & Hi & _ & ->)]; [by intros [= <-]|].
    destruct (acquire_credit _ _ _) as [[[s1 rc] t]| |] eqn:E; [|done..]. intros [= <-].
    by eapply current_acquire.
  - destruct (acquire_pinned_spec s pin zero_ticket Hw)
      as [(rc & out & -> & _)|(p & j & r & i & slot & -> & _ & _ & _ & _ & Hi & _ & ->)];
      [by intros [= <-]|].
    destruct (acquire_credit _ _ _) as [[[s1 rc] t]| |] eqn:E; [|done..]. intros [= <-].
    by eapply current_acquire.
  - destruct (release_credit_spec k s t Hw)
      as [(rc & -> & _)|(t' & j & r & i & slot & -> & _ & _ & _ & _ & Hi & ->)]; [by intros [= <-]|].
    intros [= <-]. by apply current_release.
  - destruct (retire_spec s r Hw Hop) as [(rc & ->)|(r' & i & slot & rc & -> & Hr & Hi & _ & ->)];
      [by intros [= <-]|]. intros [= <-].
    eapply (current_insert s _ i slot); [done..|]. intros Hr2. destruct (Hne r' eq_refl). congruence.
  - by intros [= <-].
Qed.

(** A current reference can be retired. *)
Lemma current_retire s ref :
  fs_wf s -> current s ref ->
  exists s' rc, tm_fs_retire s (Some ref) = Ok (s', rc) /\ (rc = TM_FS_OK \/ rc = TM_FS_EBUSY).
Proof.
  intros Hw (H1 & H2 & H3 & H4 & i & slot & Hi & Hr & Hm & _). unfold tm_fs_retire, ref_index.
  rewrite H1, H2, H3, H4, !Z.eqb_refl. cbn [negb orb].
  replace (_ <=? rf_slot ref) with false.
  2: { rewrite <- (wf_capacity _ Hw), Hr. apply lookup_lt_Some in Hi. unfold len. lia. }
  rewrite Hr, (rd_nth _ _ _ Hi). cbn [mbind res_bind]. rewrite Hm. cbn [negb mbind res_bind].
  rewrite bool_decide_true by done. cbn [negb]. rewrite (rd_nth _ _ _ Hi). cbn [mbind res_bind].
  unfold put_slot. rewrite (upd_nth _ _ _ _ Hi). cbn [mbind res_bind]. eexists _, _. split; [done|].
  case_bool_decide; [by left|by right].
Qed.

(** A published reference is current. *)
Lemma current_published s data session display out s' ref :
  fs_wf s -> tm_fs_publish_cpu s (Some data) session display out = Ok (s', TM_FS_OK, ref) ->
  current s' ref.
Proof.
  intros Hw E. destruct (publish_spec s (Some data) session display out Hw)
    as [(rc & out' & E' & Hrc)|(d & i & slot & [= <-] & Hi & Hu & _ & _ & E')]; rewrite E in E';
    injection E'; [congruence|]. intros -> ->. split_and!; try done. exists i. eexists.
  split; [cbn; apply list_lookup_insert_eq; by eapply lookup_lt_Some|]. split; [done|].
  split; [|done]. unfold ref_matches. cbn. by rewrite !Z.eqb_refl.
Qed.

(** A live credit can be released. *)
Lemma release_live k s t j r :
  fs_wf s -> of_store s t -> credits k s !! j = Some r -> cr_token r = tk_ticket_id t ->
  cr_token r <> 0 ->
  exists i slot, cr_slot r = Z.of_nat i /\ fs_slots s !! i = Some slot /\
    release_credit k s (Some t) =
    Ok (with_credit k s j zero_credit (fs_next_ticket_id s) i
          (maybe_retire (set_counter k slot (u32 (counter k slot - 1)))), TM_FS_OK).
Proof.
  intros Hw Ho Hj Ht Hn. destruct (wf_rows _ Hw k j r Hj Hn) as (_ & i & slot & Hs & Hi & _).
  exists i, slot. split; [done|]. split; [done|]. unfold release_credit.
  rewrite (credit_lookup_found s k t j r) by (done || apply Ho).
  rewrite bool_decide_true by done. cbn [negb].
  rewrite (rd_nth _ _ _ Hj). cbn [mbind res_bind]. rewrite (upd_nth _ _ _ _ Hj). cbn [mbind res_bind].
  replace (fs_slots (set_credits k s _ _)) with (fs_slots s) by (by destruct k).
  rewrite Hs, (rd_nth _ _ _ Hi). cbn [mbind res_bind]. unfold put_slot.
  replace (fs_slots (set_credits k s _ _)) with (fs_slots s) by (by destruct k).
  rewrite (upd_nth _ _ _ _ Hi). by destruct k.
Qed.

(** Destruction. *)
Lemma destroy_iff s :
  fs_wf s ->
  tm_fs_destroy s = TM_FS_OK <->
  fs_sealed s = true /\ forall k r, r ∈ credits k s -> cr_token r = 0.
Proof.
  intros Hw. unfold tm_fs_destroy. destruct (fs_sealed s); [cbn [negb]|by split; [|intros []]].
  set (busy := fun slot => _ || _). split.
  - intros E. split; [done|]. intros k r [j Hj]%list_elem_of_lookup.
    destruct (decide (cr_token r = 0)) as [|Hn]; [done|].
    destruct (existsb busy (fs_slots s)) eqn:Eb; [done|]. exfalso.
    destruct (wf_rows _ Hw k j r Hj Hn) as (_ & i & slot & Hs & Hi & _).
    assert (Hh : 0 < held (credits k s) i) by by eapply held_elem.
    rewrite <- (sw_count _ _ _ (wf_slots _ Hw _ _ Hi) k) in Hh.
    assert (Hb : existsb busy (fs_slots s) = true); [|congruence].
    apply existsb_exists. exists slot. split; [apply list_elem_of_In; by eapply list_elem_of_lookup_2|].
    unfold busy. destruct k; cbn in Hh; lia.
  - intros [_ Hz]. destruct (existsb busy (fs_slots s)) eqn:Eb; [|done]. exfalso.
    apply existsb_exists in Eb as (slot & Hin & Hb).
    apply list_elem_of_In, list_elem_of_lookup in Hin as [i Hi].
    assert (H0 : forall k, counter k slot = 0).
    { intros k. rewrite (sw_count _ _ _ (wf_slots _ Hw _ _ Hi) k). unfold held.
      assert (filter (on_slot i) (credits k s) = []) as ->; [|done].
      destruct (filter _ _) as [|r l] eqn:Ef; [done|]. exfalso.
      assert (Hr : r ∈ filter (on_slot i) (credits k s)) by (rewrite Ef; left).
      apply list_elem_of_filter in Hr as [[Hn _] Hr]. by apply Hn, (Hz k). }
    assert (Hp := H0 PIN). assert (Hl := H0 LEASE). unfold busy in Hb. cbn in *. lia.
Qed.

Lemma sees_not_destroyed k s token i data :
  fs_wf s -> sees k s token i data -> tm_fs_destroy s = TM_FS_EBUSY.
Proof.
  intros Hw (j & r & slot & Hj & Ht & Hn & _). destruct (tm_fs_destroy s) eqn:E; try done;
    try (unfold tm_fs_destroy in E; repeat case_match; done).
  apply (destroy_iff s Hw) in E as [_ Hz]. destruct Hn. rewrite <- Ht. apply (Hz k).
  by eapply list_elem_of_lookup_2.
Qed.

(** ** Properties *)

(** The store is always consistent.  In every reachable store each slot
    counts exactly the pins and the leases that are on it, a credit is only on a
    retained slot of its generation, tickets are unique, and a retired slot is
    retained only while a credit is on it; every operation, whatever reference or
    ticket it is given, completes within the bounds of the tables; and the store
    can be destroyed exactly when it is sealed and no credit is left. *)
Theorem frame_store_consistent s :
  fs_reachable s ->
  fs_wf s /\
  (forall op, fs_op_ok op -> exists s', fs_step s op = Ok s' /\ fs_wf s') /\
  (tm_fs_destroy s = TM_FS_OK <->
   fs_sealed s = true /\ forall k r, r ∈ credits k s -> cr_token r = 0).
Proof.
  intros Hr. pose proof (fs_reachable_wf _ Hr) as Hw. split_and!; [done| |].
  - intros op Hop. destruct (fs_step_changed s op Hw Hop) as (s' & E & _).
    exists s'. split; [done|]. by eapply fs_step_wf.
  - apply destroy_iff. done.
Qed.

(** C12: a view stays valid until its lease is released.  Once a lease is
    mapped, no operation other than its release, in any number and order, changes
    the slot, the size or the bytes the view shows, and the store cannot be
    destroyed meanwhile. *)
Theorem frame_view_stable s lease out view data ops :
  fs_reachable s -> tm_fs_map_cpu s (Some lease) out = Ok (TM_FS_OK, view) ->
  view_bytes s view = Ok data -> Forall fs_op_ok ops ->
  Forall (fun op => ~ releases op LEASE (tk_ticket_id lease)) ops ->
  exists s', fs_run s ops = Ok s' /\
    tm_fs_map_cpu s' (Some lease) cpu_view_init = Ok (TM_FS_OK, view) /\
    view_bytes s' view = Ok data /\ tm_fs_destroy s' = TM_FS_EBUSY.
Proof.
  intros Hr Hm Hv Hops Hrel. pose proof (fs_reachable_wf _ Hr) as Hw.
  destruct (map_inv _ _ _ _ _ Hw Hm Hv) as (i & Ho & Hs & ->).
  destruct (run_sees LEASE s ops lease i data Hw Hops Hrel Ho Hs) as (s' & E & Hw' & Ho' & Hs').
  exists s'. split; [done|]. destruct (map_sees s' lease i data Hw' Ho' Hs') as [H1 H2].
  split_and!; [done|done|]. by eapply sees_not_destroyed.
Qed.

(** A reference never names another frame.  Whatever happens between the
    publication of a frame and the use of its reference, a lease acquired through
    it shows the bytes that were published, or the acquisition fails; and so does
    a lease acquired through a pin reserved on it, as long as the pin is not
    released. *)
Theorem frame_reference_exact s data session display out s1 ref ops s2 :
  fs_reachable s ->
  tm_fs_publish_cpu s (Some data) session display out = Ok (s1, TM_FS_OK, ref) ->
  Forall fs_op_ok ops -> fs_run s1 ops = Ok s2 ->
  (forall s3 lease, tm_fs_acquire_weak s2 (Some ref) = Ok (s3, TM_FS_OK, lease) ->
     exists view, tm_fs_map_cpu s3 (Some lease) cpu_view_init = Ok (TM_FS_OK, view) /\
       view_bytes s3 view = Ok data) /\
  (forall s3 pin ops' s4 s5 lease out',
     tm_fs_reserve_pin s2 (Some ref) = Ok (s3, TM_FS_OK, pin) ->
     Forall fs_op_ok ops' -> Forall (fun op => ~ releases op PIN (tk_ticket_id pin)) ops' ->
     fs_run s3 ops' = Ok s4 ->
     tm_fs_acquire_pinned s4 (Some pin) out' = Ok (s5, TM_FS_OK, lease) ->
     exists view, tm_fs_map_cpu s5 (Some lease) cpu_view_init = Ok (TM_FS_OK, view) /\
       view_bytes s5 view = Ok data).
Proof.
  intros Hr Hp Hops Hrun. pose proof (fs_reachable_wf _ Hr) as Hw.
  destruct (published_names _ _ _ _ _ _ _ Hw Hp) as (Hw1 & i & Hi & Hn1).
  destruct (run_names _ _ _ _ _ Hw1 Hops Hn1) as (s2' & E & Hw2 & Hn2).
  rewrite Hrun in E. injection E as <-. split.
  - intros s3 lease E.
    destruct (ref_names s2 _ ref i data LEASE s3 lease Hw2 eq_refl Hi Hn2 E) as (Hw3 & Ho & Hs).
    eexists. by apply (map_sees s3 lease i).
  - intros s3 pin ops' s4 s5 lease out' E Hops' Hrel Hrun' E'.
    destruct (ref_names s2 _ ref i data PIN s3 pin Hw2 eq_refl Hi Hn2 E) as (Hw3 & Ho & Hs).
    destruct (run_sees PIN s3 ops' pin i data Hw3 Hops' Hrel Ho Hs) as (s4' & E4 & Hw4 & Ho4 & Hs4).
    rewrite Hrun' in E4. injection E4 as <-.
    destruct (pinned_sees s4 pin out' s5 lease i data Hw4 Hs4 E') as (Hw5 & Ho5 & Hs5).
    eexists. by apply (map_sees s5 lease i).
Qed.

(* ------------------------------------------------------------------ *)
(** ** Witnesses *)

Definition ex_config : tm_fs_config_v1 :=
  Build_tm_fs_config_v1 SIZEOF_CONFIG TM_FS_ABI_V1 5 2 4 2 2 64.
Definition ex_mem : fs_mem := Build_fs_mem true true true true [true; true].
Definition ex_store : tm_fs_store :=
  match (tm_fs_create 1 (Some ex_config) ex_mem).2 with Some s => s | None =>
    Build_tm_fs_store ex_config 0 0 0 [] [] [] 0 false end.

Lemma ex_created : tm_fs_create 1 (Some ex_config) ex_mem = (2, TM_FS_OK, Some ex_store).
Proof. done. Qed.

Lemma ex_store_reachable : fs_reachable ex_store.
Proof. apply (fs_reach _ 1 ex_config ex_mem 2 ex_store []); [|done..]. repeat split; done. Qed.

Lemma frame_store_consistent_witness :
  fs_wf ex_store /\ exists s', fs_step ex_store (FsPublish (Some [7; 8]) 1 1) = Ok s' /\ fs_wf s'.
Proof.
  destruct (frame_store_consistent ex_store ex_store_reachable) as (Hw & Hs & _).
  split; [exact Hw|]. by apply (Hs (FsPublish (Some [7; 8]) 1 1)).
Defined.

(** A published frame, leased, mapped, retired and overtaken by others. *)
Definition ex_ref : tm_fs_frame_ref_v1 :=
  Build_tm_fs_frame_ref_v1 SIZEOF_FRAME_REF TM_FS_ABI_V1 5 1 0 1 1 1 1.
Definition ex_lease : tm_fs_ticket_v1 := Build_tm_fs_ticket_v1 5 1 1.
Definition ex_leased : tm_fs_store :=
  match fs_run ex_store [FsPublish (Some [7; 8]) 1 1; FsAcquireWeak (Some ex_ref)] with
  | Ok s => s | _ => ex_store end.
Definition ex_later : list fs_op :=
  [FsRetire (Some ex_ref); FsPublish (Some [9]) 1 1; FsPublish (Some [9]) 1 1; FsSeal].

Lemma ex_ref_ok : ref_ok (Some ex_ref).
Proof. intros r [= <-]. done. Qed.

Lemma ex_later_ok : Forall fs_op_ok ex_later.
Proof. repeat constructor; try exact ex_ref_ok; by intros r. Qed.

Lemma ex_leased_reachable : fs_reachable ex_leased.
Proof.
  apply (fs_reach _ 1 ex_config ex_mem 2 ex_store
    [FsPublish (Some [7; 8]) 1 1; FsAcquireWeak (Some ex_ref)]); [repeat split; done|done| |done].
  repeat constructor; try exact ex_ref_ok; by intros r.
Qed.

Lemma frame_view_stable_witness :
  exists s', fs_run ex_leased ex_later = Ok s' /\
    tm_fs_map_cpu s' (Some ex_lease) cpu_view_init =
      Ok (TM_FS_OK, Build_tm_fs_cpu_view_v1 SIZEOF_CPU_VIEW TM_FS_ABI_V1 (Some 0) 2) /\
    view_bytes s' (Build_tm_fs_cpu_view_v1 SIZEOF_CPU_VIEW TM_FS_ABI_V1 (Some 0) 2) =
      Ok [7; 8] /\
    tm_fs_destroy s' = TM_FS_EBUSY.
Proof.
  apply (frame_view_stable ex_leased ex_lease cpu_view_init); [exact ex_leased_reachable|done|done|
    exact ex_later_ok|].
  repeat constructor; by intros (t & [=] & _).
Defined.

Lemma frame_reference_exact_witness :
  exists view, tm_fs_map_cpu ex_leased (Some ex_lease) cpu_view_init = Ok (TM_FS_OK, view) /\
    view_bytes ex_leased view = Ok [7; 8].
Proof.
  destruct (tm_fs_publish_cpu ex_store (Some [7; 8]) 1 1 zero_ref) as [[[s1 rc] ref]| |] eqn:E;
    [|done..]. injection E as Es Erc Eref.
  apply (frame_reference_exact ex_store [7; 8] 1 1 zero_ref s1 ex_ref [] s1 ex_store_reachable).
  - by rewrite <- Es.
  - constructor.
  - done.
  - by rewrite <- Es.
Defined.
