(* ===== verification/StreamGraph.v ===== *)
(** * The stream graph compiler

    streamgraph/src/turbo_streamgraph.c: descriptors of nodes, ports and edges
    are copied and checked, and ordered topologically.  A C string is the list of
    its bytes, none of them 0; the sizes of the structures are those of an LP64
    target.  A copied program owns its strings, so they are not options.  The
    [out] handle is valid and empty. *)

From Stdlib Require Import String.
From stdpp Require Import list relations.
From S2P Require Import Prelude.

(* ------------------------------------------------------------------ *)
(** ** Data *)

Definition TM_SG_ABI_VERSION : Z := 1.
Definition TM_SG_MAX_NODES : Z := 128.
Definition TM_SG_MAX_EDGES : Z := 512.
Definition TM_SG_MAX_PORTS_PER_NODE : Z := 32.
Definition TM_SG_MAX_FANOUT : Z := 32.
Definition TM_SG_NAME_LIMIT : nat := 63.
Definition SG_U32_MAX : Z := 4294967295.

Definition SIZEOF_PORT : Z := 48.
Definition SIZEOF_NODE : Z := 32.
Definition SIZEOF_EDGE : Z := 40.
Definition SIZEOF_LIMITS : Z := 24.
Definition SIZEOF_DIAGNOSTIC : Z := 180.

Inductive tm_sg_status : Type :=
  | TM_SG_EINVAL | TM_SG_EVERSION | TM_SG_ELIMIT | TM_SG_ENOMEM | TM_SG_EDUPLICATE
  | TM_SG_ENOTFOUND | TM_SG_ETYPE | TM_SG_EFORMAT | TM_SG_ECYCLE | TM_SG_EGRAPH.

Definition TM_SG_SOURCE : Z := 1.
Definition TM_SG_PROCESSOR : Z := 2.
Definition TM_SG_SINK : Z := 3.
Definition TM_SG_BYTE_STREAM : Z := 1.
Definition TM_SG_VIDEO_FRAME : Z := 4.
Definition TM_SG_OBSERVATION : Z := 6.
Definition TM_SG_INPUT : Z := 1.
Definition TM_SG_OUTPUT : Z := 2.
Definition TM_SG_MEMORY_CPU : Z := 1.
Definition TM_SG_MEMORY_GPU : Z := 2.

Record tm_sg_port_v1 := {
  pt_size : Z;
  pt_version : Z;
  pt_name : option (list Z);
  pt_direction : Z;
  pt_kind : Z;
  pt_format_id : Z;
  pt_memory_domain : Z;
  pt_timebase_num : Z;
  pt_timebase_den : Z;
  pt_schema_id : Z;
}.

Record tm_sg_node_v1 := {
  nd_size : Z;
  nd_version : Z;
  nd_id : option (list Z);
  nd_kind : Z;
  nd_port_count : Z;
  nd_ports : option (list tm_sg_port_v1);
}.

Record tm_sg_edge_v1 := {
  ed_size : Z;
  ed_version : Z;
  ed_source_node : option (list Z);
  ed_source_port : option (list Z);
  ed_target_node : option (list Z);
  ed_target_port : option (list Z);
}.

Record tm_sg_limits_v1 := {
  lm_size : Z;
  lm_version : Z;
  lm_max_nodes : Z;
  lm_max_edges : Z;
  lm_max_ports_per_node : Z;
  lm_max_fanout : Z;
}.

(** The copies. *)
Record sg_port := {
  p_name : list Z;
  p_direction : Z;
  p_kind : Z;
  p_format_id : Z;
  p_memory_domain : Z;
  p_timebase_num : Z;
  p_timebase_den : Z;
  p_schema_id : Z;
}.

Record sg_node := { n_id : list Z; n_kind : Z; n_ports : list sg_port }.

Record sg_edge := {
  e_source_node : list Z;
  e_source_port : list Z;
  e_target_node : list Z;
  e_target_port : list Z;
}.

Record tm_sg_program := {
  pg_nodes : list sg_node;
  pg_edges : list sg_edge;
  pg_order : list Z;
}.

(** A failure: the status returned and what the diagnostic is set to. *)
Record sg_failure := {
  fl_status : tm_sg_status;
  fl_node : Z;
  fl_edge : Z;
  fl_message : string;
}.

Inductive outcome (A : Type) : Type :=
  | Done (a : A)
  | Failed (f : sg_failure)
  | Undefined.
Arguments Done {A} a.
Arguments Failed {A} f.
Arguments Undefined {A}.

#[export] Instance outcome_bind : MBind outcome := fun A B f m =>
  match m with Done a => f a | Failed e => Failed e | Undefined => Undefined end.

Definition checked {A} (m : res A) : outcome A :=
  match m with Ok a => Done a | _ => Undefined end.

Definition fail {A} (status : tm_sg_status) (node edge : Z) (message : string) : outcome A :=
  Failed (Build_sg_failure status node edge message).

(** [if (bad) return fail(...);] *)
Definition reject (bad : bool) (status : tm_sg_status) (node edge : Z) (message : string)
    : outcome unit := if bad then fail status node edge message else Done tt.

(** The outcomes of the allocations. *)
Record sg_mem := {
  sm_program : bool;
  sm_arrays : bool;
  sm_id : nat -> bool;
  sm_ports : nat -> bool;
  sm_port : nat -> nat -> bool;
  sm_edge : nat -> bool;
  sm_topology : bool;
}.

(* ------------------------------------------------------------------ *)
(** ** Copying the descriptors *)

Definition id_char (c : Z) : bool :=
  ((97 <=? c) && (c <=? 122)) || ((65 <=? c) && (c <=? 90)) ||
  ((48 <=? c) && (c <=? 57)) || (c =? 95) || (c =? 45) || (c =? 46).

Fixpoint valid_loop (n : nat) (s : list Z) : bool :=
  match n with
  | O => false
  | S n =>
    match s with
    | [] => true
    | c :: s => if negb (id_char c) then false else valid_loop n s
    end
  end.

Definition valid_id (s : option (list Z)) : bool :=
  match s with
  | None | Some [] => false
  | Some s => valid_loop (S TM_SG_NAME_LIMIT) s
  end.

(** [clone_id] of a string that was validated. *)
Definition text (s : option (list Z)) : list Z := default [] s.

Definition bad_port (v : tm_sg_port_v1) : bool :=
  negb (pt_size v =? SIZEOF_PORT) || negb (valid_id (pt_name v)) ||
  (negb (pt_direction v =? TM_SG_INPUT) && negb (pt_direction v =? TM_SG_OUTPUT)) ||
  (pt_kind v <? TM_SG_BYTE_STREAM) || (TM_SG_OBSERVATION <? pt_kind v) ||
  (TM_SG_MEMORY_GPU <? pt_memory_domain v) ||
  negb (Bool.eqb (truth (pt_timebase_num v)) (truth (pt_timebase_den v))) ||
  ((pt_kind v =? TM_SG_OBSERVATION) && (pt_schema_id v =? 0)).

Definition misdirected (node_kind : Z) (v : tm_sg_port_v1) : bool :=
  ((node_kind =? TM_SG_SOURCE) && negb (pt_direction v =? TM_SG_OUTPUT)) ||
  ((node_kind =? TM_SG_SINK) && negb (pt_direction v =? TM_SG_INPUT)).

Definition copy_port (v : tm_sg_port_v1) : sg_port :=
  Build_sg_port (text (pt_name v)) (pt_direction v) (pt_kind v) (pt_format_id v)
    (pt_memory_domain v) (pt_timebase_num v) (pt_timebase_den v) (pt_schema_id v).

Definition named (name : list Z) (p : sg_port) : bool := bool_decide (p_name p = name).

Fixpoint clone_ports (mem : sg_mem) (i : nat) (node_kind : Z) (copied : list sg_port)
    (ports : list tm_sg_port_v1) : outcome (list sg_port) :=
  match ports with
  | [] => Done copied
  | v :: ports =>
      _ ← reject (negb (pt_version v =? TM_SG_ABI_VERSION)) TM_SG_EVERSION
            (Z.of_nat i) SG_U32_MAX "port version mismatch";
      _ ← reject (bad_port v) TM_SG_EINVAL (Z.of_nat i) SG_U32_MAX "invalid port descriptor";
      _ ← reject (misdirected node_kind v) TM_SG_EGRAPH (Z.of_nat i) SG_U32_MAX
            "node kind/port direction mismatch";
      _ ← reject (existsb (named (text (pt_name v))) copied) TM_SG_EDUPLICATE
            (Z.of_nat i) SG_U32_MAX "duplicate port";
      _ ← reject (negb (sm_port mem i (length copied))) TM_SG_ENOMEM (Z.of_nat i) SG_U32_MAX
            "port ID allocation failed";
      clone_ports mem i node_kind (copied ++ [copy_port v]) ports
  end.

Definition bad_node (source : tm_sg_node_v1) : bool :=
  negb (nd_size source =? SIZEOF_NODE) || negb (valid_id (nd_id source)) ||
  (nd_kind source <? TM_SG_SOURCE) || (TM_SG_SINK <? nd_kind source) ||
  (if nd_ports source then false else true) || (nd_port_count source =? 0) ||
  (TM_SG_MAX_PORTS_PER_NODE <? nd_port_count source).

Definition called (id : list Z) (n : sg_node) : bool := bool_decide (n_id n = id).

Fixpoint clone_nodes (mem : sg_mem) (copied : list sg_node) (nodes : list tm_sg_node_v1)
    : outcome (list sg_node) :=
  match nodes with
  | [] => Done copied
  | source :: nodes =>
      let i := length copied in
      _ ← reject (negb (nd_version source =? TM_SG_ABI_VERSION)) TM_SG_EVERSION
            (Z.of_nat i) SG_U32_MAX "node version mismatch";
      _ ← reject (bad_node source) TM_SG_EINVAL (Z.of_nat i) SG_U32_MAX
            "invalid node descriptor";
      _ ← reject (negb (sm_id mem i)) TM_SG_ENOMEM (Z.of_nat i) SG_U32_MAX
            "node ID allocation failed";
      _ ← reject (negb (sm_ports mem i)) TM_SG_ENOMEM (Z.of_nat i) SG_U32_MAX
            "port allocation failed";
      _ ← reject (existsb (called (text (nd_id source))) copied) TM_SG_EDUPLICATE
            (Z.of_nat i) SG_U32_MAX "duplicate node";
      ports ← checked (rd_slice (default [] (nd_ports source)) 0 (nd_port_count source));
      ports ← clone_ports mem i (nd_kind source) [] ports;
      clone_nodes mem
        (copied ++ [Build_sg_node (text (nd_id source)) (nd_kind source) ports]) nodes
  end.

Definition bad_edge (v : tm_sg_edge_v1) : bool :=
  negb (ed_size v =? SIZEOF_EDGE) || negb (valid_id (ed_source_node v)) ||
  negb (valid_id (ed_source_port v)) || negb (valid_id (ed_target_node v)) ||
  negb (valid_id (ed_target_port v)).

Definition copy_edge (v : tm_sg_edge_v1) : sg_edge :=
  Build_sg_edge (text (ed_source_node v)) (text (ed_source_port v))
    (text (ed_target_node v)) (text (ed_target_port v)).

Fixpoint clone_edges (mem : sg_mem) (copied : list sg_edge) (edges : list tm_sg_edge_v1)
    : outcome (list sg_edge) :=
  match edges with
  | [] => Done copied
  | v :: edges =>
      let i := length copied in
      _ ← reject (negb (ed_version v =? TM_SG_ABI_VERSION)) TM_SG_EVERSION
            SG_U32_MAX (Z.of_nat i) "edge version mismatch";
      _ ← reject (bad_edge v) TM_SG_EINVAL SG_U32_MAX (Z.of_nat i) "invalid edge descriptor";
      _ ← reject (negb (sm_edge mem i)) TM_SG_ENOMEM SG_U32_MAX (Z.of_nat i)
            "edge allocation failed";
      clone_edges mem (copied ++ [copy_edge v]) edges
  end.

Definition clone_descriptors (mem : sg_mem) (nodes : list tm_sg_node_v1)
    (edges : list tm_sg_edge_v1) : outcome (list sg_node * list sg_edge) :=
  nodes ← clone_nodes mem [] nodes;
  edges ← clone_edges mem [] edges;
  Done (nodes, edges).

(* ------------------------------------------------------------------ *)
(** ** Checking the topology *)

(** Indices, or -1. *)
Definition find_node (nodes : list sg_node) (id : list Z) : Z :=
  match list_find (fun n => n_id n = id) nodes with
  | Some (i, _) => Z.of_nat i
  | None => -1
  end.

Definition is_port (id : list Z) (direction : Z) (p : sg_port) : Prop :=
  p_direction p = direction /\ p_name p = id.

#[export] Instance is_port_dec id direction p : Decision (is_port id direction p).
Proof. unfold is_port. apply _. Defined.

Definition find_port (n : sg_node) (id : list Z) (direction : Z) : Z :=
  match list_find (is_port id direction) (n_ports n) with
  | Some (i, _) => Z.of_nat i
  | None => -1
  end.

Definition type_mismatch (a b : sg_port) : bool :=
  negb (p_kind a =? p_kind b) || negb (p_schema_id a =? p_schema_id b).

Definition format_mismatch (a b : sg_port) : bool :=
  (truth (p_format_id a) && truth (p_format_id b) && negb (p_format_id a =? p_format_id b)) ||
  (truth (p_memory_domain a) && truth (p_memory_domain b) &&
   negb (p_memory_domain a =? p_memory_domain b)) ||
  (truth (p_timebase_num a) && truth (p_timebase_num b) &&
   negb (u64 (p_timebase_num a * p_timebase_den b) =? u64 (p_timebase_num b * p_timebase_den a))).

(** The counters of the topology check. *)
Record tallies := { tl_in : list Z; tl_out : list Z; tl_degrees : list Z }.

Definition port_index (node port : Z) : Z := node * TM_SG_MAX_PORTS_PER_NODE + port.

(** [++a[i]]: the array and the new value. *)
Definition increment (a : list Z) (i : Z) : res (list Z * Z) :=
  x ← rd a i; let x := u32 (x + 1) in a ← upd a i x; Ok (a, x).

Definition check_edge (nodes : list sg_node) (max_fanout : Z) (i : nat) (e : sg_edge)
    (t : tallies) : outcome tallies :=
  let edge := Z.of_nat i in
  let sn := find_node nodes (e_source_node e) in
  let tn := find_node nodes (e_target_node e) in
  _ ← reject ((sn =? tn) && (0 <=? sn)) TM_SG_ECYCLE SG_U32_MAX edge "self edge";
  _ ← reject ((sn <? 0) || (tn <? 0)) TM_SG_ENOTFOUND SG_U32_MAX edge "edge node missing";
  s ← checked (rd nodes sn);
  d ← checked (rd nodes tn);
  let sp := find_port s (e_source_port e) TM_SG_OUTPUT in
  let tp := find_port d (e_target_port e) TM_SG_INPUT in
  _ ← reject ((sp <? 0) || (tp <? 0)) TM_SG_ENOTFOUND SG_U32_MAX edge
        "port or direction missing";
  a ← checked (rd (n_ports s) sp);
  b ← checked (rd (n_ports d) tp);
  _ ← reject (type_mismatch a b) TM_SG_ETYPE SG_U32_MAX edge "Port type/schema mismatch";
  _ ← reject (format_mismatch a b) TM_SG_EFORMAT SG_U32_MAX edge
        "explicit media conversion required";
  '(ins, hits) ← checked (increment (tl_in t) (port_index tn tp));
  _ ← reject (1 <? hits) TM_SG_ELIMIT SG_U32_MAX edge "port ingress/fanout exceeded";
  '(outs, uses) ← checked (increment (tl_out t) (port_index sn sp));
  _ ← reject (max_fanout <? uses) TM_SG_ELIMIT SG_U32_MAX edge "port ingress/fanout exceeded";
  '(degrees, _) ← checked (increment (tl_degrees t) tn);
  Done (Build_tallies ins outs degrees).

Fixpoint check_edges (nodes : list sg_node) (max_fanout : Z) (i : nat) (edges : list sg_edge)
    (t : tallies) : outcome tallies :=
  match edges with
  | [] => Done t
  | e :: edges =>
      t ← check_edge nodes max_fanout i e t;
      check_edges nodes max_fanout (S i) edges t
  end.

Fixpoint check_ports (t : tallies) (i j : nat) (ports : list sg_port) : outcome unit :=
  match ports with
  | [] => Done tt
  | v :: ports =>
      let table := if p_direction v =? TM_SG_INPUT then tl_in t else tl_out t in
      hits ← checked (rd table (port_index (Z.of_nat i) (Z.of_nat j)));
      _ ← reject (hits =? 0) TM_SG_EGRAPH (Z.of_nat i) SG_U32_MAX "unconnected declared Port";
      check_ports t i (S j) ports
  end.

Fixpoint check_nodes (t : tallies) (i : nat) (nodes : list sg_node) : outcome unit :=
  match nodes with
  | [] => Done tt
  | n :: nodes => _ ← check_ports t i 0 (n_ports n); check_nodes t (S i) nodes
  end.

(** The first node that is not seen and has no edge left into it. *)
Fixpoint ready (seen : list bool) (degrees : list Z) (j : nat) : option nat :=
  match seen, degrees with
  | s :: seen, d :: degrees =>
      if negb s && (d =? 0) then Some j else ready seen degrees (S j)
  | _, _ => None
  end.

(** [degrees[ti]--] for the edges of the node that was picked. *)
Fixpoint remove_edges (nodes : list sg_node) (id : list Z) (edges : list sg_edge)
    (degrees : list Z) : res (list Z) :=
  match edges with
  | [] => Ok degrees
  | e :: edges =>
      degrees ← (if bool_decide (e_source_node e = id) then
                   let ti := find_node nodes (e_target_node e) in
                   if 0 <=? ti then
                     d ← rd degrees ti; upd degrees ti (u32 (d - 1))
                   else Ok degrees
                 else Ok degrees);
      remove_edges nodes id edges degrees
  end.

(** [n] rounds of the selection: the nodes picked, in order. *)
Fixpoint sort_nodes (n : nat) (nodes : list sg_node) (edges : list sg_edge)
    (seen : list bool) (degrees : list Z) : outcome (list Z) :=
  match n with
  | O => Done []
  | S n =>
      match ready seen degrees 0 with
      | None => fail TM_SG_ECYCLE SG_U32_MAX SG_U32_MAX "directed cycle"
      | Some next =>
          seen ← checked (upd seen (Z.of_nat next) true);
          picked ← checked (rd nodes (Z.of_nat next));
          degrees ← checked (remove_edges nodes (n_id picked) edges degrees);
          order ← sort_nodes n nodes edges seen degrees;
          Done (Z.of_nat next :: order)
      end
  end.

Definition has_kind (kind : Z) (nodes : list sg_node) : bool :=
  existsb (fun n => n_kind n =? kind) nodes.

(** The order of the nodes. *)
Definition validate_topology (mem : sg_mem) (nodes : list sg_node) (edges : list sg_edge)
    (max_fanout : Z) : outcome (list Z) :=
  let count := length nodes in
  let port_slots := (count * Z.to_nat TM_SG_MAX_PORTS_PER_NODE)%nat in
  _ ← reject (negb (sm_topology mem)) TM_SG_ENOMEM SG_U32_MAX SG_U32_MAX
        "topology allocation failed";
  t ← check_edges nodes max_fanout 0 edges
        (Build_tallies (replicate port_slots 0) (replicate port_slots 0) (replicate count 0));
  _ ← check_nodes t 0 nodes;
  _ ← reject (negb (has_kind TM_SG_SOURCE nodes) || negb (has_kind TM_SG_SINK nodes))
        TM_SG_EGRAPH SG_U32_MAX SG_U32_MAX "Source and Sink required";
  sort_nodes count nodes edges (replicate count false) (tl_degrees t).

(* ------------------------------------------------------------------ *)
(** ** Compiling *)

Definition bad_limits (l : tm_sg_limits_v1) : bool :=
  negb (lm_size l =? SIZEOF_LIMITS) || (lm_max_nodes l =? 0) || (lm_max_edges l =? 0) ||
  (lm_max_ports_per_node l =? 0) || (lm_max_fanout l =? 0) ||
  (TM_SG_MAX_NODES <? lm_max_nodes l) || (TM_SG_MAX_EDGES <? lm_max_edges l) ||
  (TM_SG_MAX_PORTS_PER_NODE <? lm_max_ports_per_node l) ||
  (TM_SG_MAX_FANOUT <? lm_max_fanout l).

Definition default_limits : tm_sg_limits_v1 :=
  Build_tm_sg_limits_v1 SIZEOF_LIMITS TM_SG_ABI_VERSION 32 64 16 8.

Definition resolve_limits (limits : option tm_sg_limits_v1) : outcome tm_sg_limits_v1 :=
  match limits with
  | None => Done default_limits
  | Some l =>
      _ ← reject (negb (lm_version l =? TM_SG_ABI_VERSION)) TM_SG_EVERSION SG_U32_MAX SG_U32_MAX
            "limits version mismatch";
      _ ← reject (bad_limits l) TM_SG_ELIMIT SG_U32_MAX SG_U32_MAX "invalid limits";
      Done l
  end.

Fixpoint check_port_counts (max_ports : Z) (i : nat) (nodes : list tm_sg_node_v1)
    : outcome unit :=
  match nodes with
  | [] => Done tt
  | n :: nodes =>
      _ ← reject (max_ports <? nd_port_count n) TM_SG_ELIMIT (Z.of_nat i) SG_U32_MAX
            "node port limit";
      check_port_counts max_ports (S i) nodes
  end.

(** [diagnostic] is the size and the version of the structure that is passed.
    The arrays have [node_count] and [edge_count] elements. *)
Definition tm_sg_compile (mem : sg_mem) (nodes : option (list tm_sg_node_v1))
    (edges : option (list tm_sg_edge_v1)) (limits : option tm_sg_limits_v1)
    (diagnostic : option (Z * Z)) : outcome tm_sg_program :=
  _ ← reject (match diagnostic with
              | Some (size, version) =>
                  negb (size =? SIZEOF_DIAGNOSTIC) || negb (version =? TM_SG_ABI_VERSION)
              | None => false
              end) TM_SG_EINVAL SG_U32_MAX SG_U32_MAX "";
  l ← resolve_limits limits;
  let limit_exceeded := fail TM_SG_ELIMIT SG_U32_MAX SG_U32_MAX "graph limit exceeded" in
  let? nodes := nodes else limit_exceeded in
  let? edges := edges else limit_exceeded in
  if (len nodes =? 0) || (len edges =? 0) || (lm_max_nodes l <? len nodes) ||
     (lm_max_edges l <? len edges) then limit_exceeded
  else
    _ ← check_port_counts (lm_max_ports_per_node l) 0 nodes;
    _ ← reject (negb (sm_program mem)) TM_SG_ENOMEM SG_U32_MAX SG_U32_MAX "program allocation";
    _ ← reject (negb (sm_arrays mem)) TM_SG_ENOMEM SG_U32_MAX SG_U32_MAX "program arrays";
    '(ns, es) ← clone_descriptors mem nodes edges;
    order ← validate_topology mem ns es (lm_max_fanout l);
    Done (Build_tm_sg_program ns es order).

Definition tm_sg_program_node_count (p : tm_sg_program) : Z := len (pg_nodes p).
Definition tm_sg_program_edge_count (p : tm_sg_program) : Z := len (pg_edges p).

(** [None] is [TM_SG_EINVAL]. *)
Definition tm_sg_program_node_at (p : tm_sg_program) (i : Z) : res (option sg_node) :=
  if len (pg_nodes p) <=? i then Ok None
  else j ← rd (pg_order p) i; n ← rd (pg_nodes p) j; Ok (Some n).

Definition tm_sg_program_edge_at (p : tm_sg_program) (i : Z) : res (option sg_edge) :=
  if len (pg_edges p) <=? i then Ok None else e ← rd (pg_edges p) i; Ok (Some e).

(* ------------------------------------------------------------------ *)
(** ** Deciding computations

    [decides m Φ P]: [m] is defined, succeeds with a result in [Φ] when [P] holds,
    and fails when it does not. *)

Definition decides {A} (m : outcome A) (Φ : A -> Prop) (P : Prop) : Prop :=
  (exists a, m = Done a /\ Φ a /\ P) \/ (exists f, m = Failed f /\ ~ P).

Lemma decides_iff {A} (m : outcome A) Φ P Q : (P <-> Q) -> decides m Φ P -> decides m Φ Q.
Proof. unfold decides. naive_solver. Qed.

Lemma decides_weaken {A} (m : outcome A) (Φ Ψ : A -> Prop) P :
  (forall a, Φ a -> P -> Ψ a) -> decides m Φ P -> decides m Ψ P.
Proof. unfold decides. naive_solver. Qed.

Lemma decides_bind {A B} (m : outcome A) (k : A -> outcome B) Φ Ψ P Q :
  decides m Φ P -> (forall a, Φ a -> P -> decides (k a) Ψ Q) -> decides (m ≫= k) Ψ (P /\ Q).
Proof.
  intros [(a & -> & Ha & HP)|(f & -> & HP)] Hk; [|right; exists f; naive_solver].
  destruct (Hk a Ha HP) as [(b & E & Hb & HQ)|(f & E & HQ)]; [left|right]; naive_solver.
Qed.

Lemma decides_done {A} (a : A) (Φ : A -> Prop) : Φ a -> decides (Done a) Φ True.
Proof. intros. left. by exists a. Qed.

Lemma decides_reject b status node edge message :
  decides (reject b status node edge message) (fun _ => True) (b = false).
Proof. destruct b; [right; by eexists|left; by exists tt]. Qed.

(** Rejecting on [b], which is exactly when [P] does not hold. *)
Lemma decides_guard {B} b status node edge message (k : unit -> outcome B) Ψ P Q :
  (b = false <-> P) -> (P -> decides (k tt) Ψ Q) ->
  decides (reject b status node edge message ≫= k) Ψ (P /\ Q).
Proof.
  intros Hb Hk. eapply decides_bind.
  - eapply decides_iff; [exact Hb|]. apply decides_reject.
  - intros [] _ HP. by apply Hk.
Qed.

(** A step that does not decide anything. *)
Lemma decides_checked {A B} (m : res A) (k : A -> outcome B) a Ψ P :
  m = Ok a -> decides (k a) Ψ P -> decides (checked m ≫= k) Ψ P.
Proof. by intros ->. Qed.

Lemma existsb_false_iff {A} (f : A -> bool) l : existsb f l = false <-> Forall (fun x => f x = false) l.
Proof.
  induction l as [|x l IH]; cbn; [by split|]. rewrite orb_false_iff, IH, Forall_cons. done.
Qed.

(* ------------------------------------------------------------------ *)
(** ** Descriptors *)

Definition identifier (s : list Z) : Prop :=
  (0 < length s <= TM_SG_NAME_LIMIT)%nat /\ Forall (fun c => id_char c = true) s.

Lemma valid_loop_spec n s :
  valid_loop n s = true <-> (length s < n)%nat /\ Forall (fun c => id_char c = true) s.
Proof.
  revert s. induction n as [|n IH]; intros s; cbn; [split; [done|lia]|].
  destruct s as [|c s]; cbn; [split; [intros _; split; [lia|done]|done]|].
  rewrite Forall_cons. destruct (id_char c); cbn; [|naive_solver].
  rewrite IH. split; intros []; (split; [lia|naive_solver]).
Qed.

Lemma valid_id_spec s : valid_id s = true <-> exists t, s = Some t /\ identifier t.
Proof.
  destruct s as [[|c s]|]; cbn [valid_id]; [split; [done|intros (t & [= <-] & [? _]); cbn in *; lia]| |
    by split; [|intros (t & ? & _)]].
  rewrite valid_loop_spec. unfold identifier, TM_SG_NAME_LIMIT. split.
  - intros [Hl Hf]. exists (c :: s). split; [done|]. split; [cbn in *; lia|done].
  - intros (t & [= <-] & Hl & Hf). split; [lia|done].
Qed.

(** The descriptors that are well-formed on their own. *)
Record port_valid (node_kind : Z) (v : tm_sg_port_v1) : Prop := {
  pv_version : pt_version v = TM_SG_ABI_VERSION;
  pv_size : pt_size v = SIZEOF_PORT;
  pv_name : exists name, pt_name v = Some name /\ identifier name;
  pv_direction : pt_direction v = TM_SG_INPUT \/ pt_direction v = TM_SG_OUTPUT;
  pv_kind : TM_SG_BYTE_STREAM <= pt_kind v <= TM_SG_OBSERVATION;
  pv_domain : pt_memory_domain v <= TM_SG_MEMORY_GPU;
  pv_timebase : pt_timebase_num v = 0 <-> pt_timebase_den v = 0;
  pv_schema : pt_kind v = TM_SG_OBSERVATION -> pt_schema_id v <> 0;
  pv_source : node_kind = TM_SG_SOURCE -> pt_direction v = TM_SG_OUTPUT;
  pv_sink : node_kind = TM_SG_SINK -> pt_direction v = TM_SG_INPUT;
}.

Record node_valid (n : tm_sg_node_v1) : Prop := {
  nv_version : nd_version n = TM_SG_ABI_VERSION;
  nv_size : nd_size n = SIZEOF_NODE;
  nv_id : exists id, nd_id n = Some id /\ identifier id;
  nv_kind : TM_SG_SOURCE <= nd_kind n <= TM_SG_SINK;
  nv_ports : exists ports, nd_ports n = Some ports /\ Forall (port_valid (nd_kind n)) ports /\
    NoDup (text ∘ pt_name <$> ports);
  nv_count : 0 < nd_port_count n <= TM_SG_MAX_PORTS_PER_NODE;
}.

Record edge_valid (v : tm_sg_edge_v1) : Prop := {
  ev_version : ed_version v = TM_SG_ABI_VERSION;
  ev_size : ed_size v = SIZEOF_EDGE;
  ev_names : Forall (fun s => exists t, s = Some t /\ identifier t)
    [ed_source_node v; ed_source_port v; ed_target_node v; ed_target_port v];
}.

Lemma port_valid_spec kind v :
  pt_version v = TM_SG_ABI_VERSION /\ bad_port v = false /\ misdirected kind v = false <->
  port_valid kind v.
Proof.
  unfold bad_port, misdirected. rewrite !orb_false_iff, (negb_false_iff (valid_id _)), valid_id_spec.
  unfold truth. split.
  - intros (Hv & (((((((Hs & Hn) & Hd) & Hk1) & Hk2) & Hm) & Ht) & Ho) & H1 & H2).
    split; try done; lia.
  - intros []. split; [done|]. split_and!; try done; lia.
Qed.

Lemma edge_valid_spec v :
  ed_version v = TM_SG_ABI_VERSION /\ bad_edge v = false <-> edge_valid v.
Proof.
  unfold bad_edge. rewrite !orb_false_iff, !negb_false_iff, !valid_id_spec. split.
  - intros (Hv & (((Hs & H1) & H2) & H3) & H4). split; [done|lia|]. by repeat constructor.
  - intros [Hv Hs Hn]. inversion_clear Hn as [|?? H1 Hn']. inversion_clear Hn' as [|?? H2 Hn].
    inversion_clear Hn as [|?? H3 Hn']. inversion_clear Hn' as [|?? H4 _].
    split; [done|]. split_and!; try done. lia.
Qed.

Definition copy_node (n : tm_sg_node_v1) : sg_node :=
  Build_sg_node (text (nd_id n)) (nd_kind n) (copy_port <$> default [] (nd_ports n)).

(** The port count is the length of the array; time bases are unsigned. *)
Definition port_typed (v : tm_sg_port_v1) : Prop :=
  is_u32 (pt_timebase_num v) /\ is_u32 (pt_timebase_den v).

Definition node_typed (n : tm_sg_node_v1) : Prop :=
  0 <= nd_port_count n /\
  forall ps, nd_ports n = Some ps -> len ps = nd_port_count n /\ Forall port_typed ps.

Definition mem_ok : sg_mem :=
  Build_sg_mem true true (fun _ => true) (fun _ => true) (fun _ _ => true) (fun _ => true) true.

Lemma negb_eqb_false a b : negb (a =? b) = false <-> a = b.
Proof. rewrite negb_false_iff. apply Z.eqb_eq. Qed.

Lemma fresh_name name copied :
  existsb (named name) copied = false <-> name ∉ p_name <$> copied.
Proof.
  rewrite existsb_false_iff, Forall_forall, list_elem_of_fmap. unfold named. split.
  - intros H (p & -> & Hp). specialize (H p Hp). by rewrite bool_decide_true in H.
  - intros H p Hp. apply bool_decide_false. intros <-. apply H. by exists p.
Qed.

Lemma fresh_id id copied :
  existsb (called id) copied = false <-> id ∉ n_id <$> copied.
Proof.
  rewrite existsb_false_iff, Forall_forall, list_elem_of_fmap. unfold called. split.
  - intros H (p & -> & Hp). specialize (H p Hp). by rewrite bool_decide_true in H.
  - intros H p Hp. apply bool_decide_false. intros <-. apply H. by exists p.
Qed.

(** Extending a list without duplicates by one name. *)
Lemma NoDup_snoc_iff {A} (l k : list A) x :
  NoDup l -> (NoDup (l ++ x :: k) <-> x ∉ l /\ NoDup ((l ++ [x]) ++ k)).
Proof.
  intros Hl. rewrite <- app_assoc. cbn. split; [|by intros []].
  intros H. split; [|done]. apply NoDup_app in H as (_ & H & _). intros Hx. by apply (H x); [|left].
Qed.

Lemma clone_ports_decides i kind copied ports :
  NoDup (p_name <$> copied) ->
  decides (clone_ports mem_ok i kind copied ports)
    (fun l => l = copied ++ (copy_port <$> ports))
    (Forall (port_valid kind) ports /\ NoDup (p_name <$> (copied ++ (copy_port <$> ports)))).
Proof.
  revert copied. induction ports as [|v ports IH]; intros copied Hd; cbn [clone_ports].
  - apply (decides_iff _ _ True); [|apply decides_done; by rewrite app_nil_r].
    rewrite app_nil_r. naive_solver.
  - eapply decides_iff; cycle 1.
    + apply decides_guard; [apply negb_eqb_false|intros Hv].
      apply decides_guard; [reflexivity|intros Hb].
      apply decides_guard; [reflexivity|intros Hm].
      apply decides_guard; [apply fresh_name|intros Hn].
      apply (decides_guard _ _ _ _ _ _ _ True); [done|intros _].
      eapply decides_weaken, IH.
      * cbn. intros l -> _. by rewrite <- app_assoc.
      * rewrite fmap_app. by apply NoDup_snoc.
    + rewrite Forall_cons, !fmap_app, !fmap_cons, NoDup_snoc_iff by done.
      rewrite <- (port_valid_spec kind v), fmap_nil. cbn. tauto.
Qed.

Lemma ports_counted n :
  node_typed n -> bad_node n = false -> len (default [] (nd_ports n)) = nd_port_count n.
Proof.
  intros [Hc Hn] Hb. unfold bad_node in Hb. destruct (nd_ports n) as [ps|]; [naive_solver|].
  exfalso. lia.
Qed.

Lemma node_valid_spec n :
  node_typed n ->
  nd_version n = TM_SG_ABI_VERSION /\ bad_node n = false /\
  Forall (port_valid (nd_kind n)) (default [] (nd_ports n)) /\
  NoDup (p_name <$> (copy_port <$> default [] (nd_ports n))) <-> node_valid n.
Proof.
  intros Ht. rewrite <- list_fmap_compose. unfold bad_node.
  rewrite !orb_false_iff, (negb_false_iff (valid_id _)), valid_id_spec. split.
  - intros (Hv & ((((((Hs & Hn) & H1) & H2) & Hp) & H3) & H4) & Hf & Hd).
    destruct (nd_ports n) as [ps|] eqn:E; [|done].
    destruct Ht as [Hc _]. split; try done; [lia|lia|by exists ps|lia].
  - intros [Hv Hs Hi Hk (ps & E & Hf & Hd) Hc]. rewrite E. cbn. split; [done|].
    split_and!; try done; lia.
Qed.

Lemma clone_nodes_decides copied nodes :
  NoDup (n_id <$> copied) -> Forall node_typed nodes ->
  decides (clone_nodes mem_ok copied nodes)
    (fun l => l = copied ++ (copy_node <$> nodes))
    (Forall node_valid nodes /\ NoDup (n_id <$> (copied ++ (copy_node <$> nodes)))).
Proof.
  intros Hd Ht. revert copied Hd. induction Ht as [|n nodes Hn Ht IH]; intros copied Hd;
    cbn [clone_nodes].
  - apply (decides_iff _ _ True); [|apply decides_done; by rewrite app_nil_r].
    rewrite app_nil_r. naive_solver.
  - eapply decides_iff; cycle 1.
    + apply decides_guard; [apply negb_eqb_false|intros Hv].
      apply decides_guard; [reflexivity|intros Hb].
      apply (decides_guard _ _ _ _ _ _ _ True); [done|intros _].
      apply (decides_guard _ _ _ _ _ _ _ True); [done|intros _].
      apply decides_guard; [apply fresh_id|intros Hf].
      eapply decides_checked; [apply rd_slice_all, ports_counted; done|].
      eapply decides_bind; [apply (clone_ports_decides _ _ []), NoDup_nil_2|].
      intros l -> Hps. eapply decides_weaken, IH.
      * cbn. intros l -> _. by rewrite <- app_assoc.
      * rewrite fmap_app. by apply NoDup_snoc.
    + rewrite Forall_cons, !fmap_app, !fmap_cons, NoDup_snoc_iff by done.
      rewrite <- (node_valid_spec n), fmap_nil by done. cbn. tauto.
Qed.

Lemma clone_edges_decides copied edges :
  decides (clone_edges mem_ok copied edges)
    (fun l => l = copied ++ (copy_edge <$> edges)) (Forall edge_valid edges).
Proof.
  revert copied. induction edges as [|v edges IH]; intros copied; cbn [clone_edges].
  - apply (decides_iff _ _ True); [naive_solver|]. apply decides_done. by rewrite app_nil_r.
  - eapply decides_iff; cycle 1.
    + apply decides_guard; [apply negb_eqb_false|intros Hv].
      apply decides_guard; [reflexivity|intros Hb].
      apply (decides_guard _ _ _ _ _ _ _ True); [done|intros _].
      eapply decides_weaken, IH. cbn. intros l -> _. by rewrite <- app_assoc.
    + rewrite Forall_cons, <- (edge_valid_spec v). tauto.
Qed.

(* ------------------------------------------------------------------ *)
(** ** The graph

    An edge is a [link] from port [l_sp] of node [l_sn] to port [l_tp] of node
    [l_tn]. *)

Record link := Link { l_sn : nat; l_sp : nat; l_tn : nat; l_tp : nat }.

Definition endpoint (nodes : list sg_node) (id name : list Z) (direction : Z) (i j : nat)
    (v : sg_port) : Prop :=
  exists n, nodes !! i = Some n /\ n_id n = id /\ n_ports n !! j = Some v /\
            p_direction v = direction /\ p_name v = name.

(** 0 stands for any format, domain or time base. *)
Definition agree (x y : Z) : Prop := x = 0 \/ y = 0 \/ x = y.

Definition compatible (a b : sg_port) : Prop :=
  p_kind a = p_kind b /\ p_schema_id a = p_schema_id b /\
  agree (p_format_id a) (p_format_id b) /\ agree (p_memory_domain a) (p_memory_domain b) /\
  (p_timebase_num a = 0 \/ p_timebase_num b = 0 \/
   p_timebase_num a * p_timebase_den b = p_timebase_num b * p_timebase_den a).

Definition links (nodes : list sg_node) (e : sg_edge) (l : link) : Prop :=
  exists a b,
    endpoint nodes (e_source_node e) (e_source_port e) TM_SG_OUTPUT (l_sn l) (l_sp l) a /\
    endpoint nodes (e_target_node e) (e_target_port e) TM_SG_INPUT (l_tn l) (l_tp l) b /\
    compatible a b /\ l_sn l <> l_tn l.

Definition tally {A} (P : A -> Prop) `{!forall x, Decision (P x)} (l : list A) : Z :=
  len (filter P l).

Definition into (i j : nat) (l : link) : Prop := l_tn l = i /\ l_tp l = j.
Definition out_of (i j : nat) (l : link) : Prop := l_sn l = i /\ l_sp l = j.

#[export] Instance into_dec i j l : Decision (into i j l).
Proof. unfold into. apply _. Defined.
#[export] Instance out_of_dec i j l : Decision (out_of i j l).
Proof. unfold out_of. apply _. Defined.

Definition flow (ls : list link) (x y : nat) : Prop :=
  exists l, l ∈ ls /\ l_sn l = x /\ l_tn l = y.

(** No input has two edges and no output more than [max_fanout]. *)
Definition fits (max_fanout : Z) (ls : list link) : Prop :=
  forall i j, tally (into i j) ls <= 1 /\ tally (out_of i j) ls <= max_fanout.

Definition connected (nodes : list sg_node) (ls : list link) : Prop :=
  forall i n j v, nodes !! i = Some n -> n_ports n !! j = Some v ->
    if decide (p_direction v = TM_SG_INPUT) then 0 < tally (into i j) ls
    else 0 < tally (out_of i j) ls.

Definition acyclic (R : nat -> nat -> Prop) : Prop := forall x, ~ tc R x x.

(** The graphs that can be executed. *)
Record graph_ok (nodes : list sg_node) (edges : list sg_edge) (max_fanout : Z)
    (ls : list link) : Prop := {
  gk_links : Forall2 (links nodes) edges ls;
  gk_fits : fits max_fanout ls;
  gk_connected : connected nodes ls;
  gk_source : Exists (fun n => n_kind n = TM_SG_SOURCE) nodes;
  gk_sink : Exists (fun n => n_kind n = TM_SG_SINK) nodes;
  gk_acyclic : acyclic (flow ls);
}.

(** What copying establishes. *)
Record nodes_wf (nodes : list sg_node) : Prop := {
  nw_ids : NoDup (n_id <$> nodes);
  nw_ports : Forall (fun n => NoDup (p_name <$> n_ports n)) nodes;
  nw_count : Forall (fun n => (length (n_ports n) <= 32)%nat) nodes;
  nw_typed : Forall (fun n => Forall (fun v =>
    is_u32 (p_timebase_num v) /\ is_u32 (p_timebase_den v)) (n_ports n)) nodes;
}.

Section Tally.
Context {A : Type} (P : A -> Prop) `{!forall x, Decision (P x)}.

Lemma tally_nil : tally P [] = 0.
Proof. done. Qed.
Lemma tally_app l k : tally P (l ++ k) = tally P l + tally P k.
Proof. unfold tally. by rewrite filter_app, len_app. Qed.
Lemma tally_cons x l : tally P (x :: l) = (if decide (P x) then 1 else 0) + tally P l.
Proof. unfold tally. rewrite filter_cons. case_decide; rewrite ?len_cons; lia. Qed.
Lemma tally_bound l : 0 <= tally P l <= len l.
Proof. unfold tally, len. pose proof (length_filter P l). lia. Qed.
Lemma tally_none l : tally P l = 0 <-> Forall (fun x => ~ P x) l.
Proof.
  induction l as [|x l IH]; [by split|]. rewrite tally_cons, Forall_cons.
  pose proof (tally_bound l). case_decide; [naive_solver lia|]. rewrite <- IH. intuition lia.
Qed.
Lemma tally_some l : 0 < tally P l <-> Exists P l.
Proof.
  induction l as [|x l IH]; [split; [done|by intros ?%Exists_nil]|].
  rewrite tally_cons, Exists_cons, <- IH. pose proof (tally_bound l). case_decide; intuition lia.
Qed.
End Tally.

Lemma tally_ext {A} (P Q : A -> Prop) `{!forall x, Decision (P x)} `{!forall x, Decision (Q x)} l :
  Forall (fun x => P x <-> Q x) l -> tally P l = tally Q l.
Proof.
  induction 1 as [|x l Hx _ IH]; [done|]. rewrite !tally_cons, IH.
  repeat case_decide; tauto.
Qed.

Lemma find_node_spec nodes id :
  (exists i n, find_node nodes id = Z.of_nat i /\ nodes !! i = Some n /\ n_id n = id) \/
  (find_node nodes id = -1 /\ forall i n, nodes !! i = Some n -> n_id n <> id).
Proof.
  unfold find_node. destruct (list_find _ nodes) as [[i n]|] eqn:E.
  - apply list_find_Some in E as (Hi & Hn & _). left. eauto.
  - rewrite list_find_None, Forall_lookup in E. right. split; [done|]. intros i n Hi. by apply (E i).
Qed.

Lemma find_port_spec n id direction :
  (exists j v, find_port n id direction = Z.of_nat j /\ n_ports n !! j = Some v /\
    is_port id direction v) \/
  (find_port n id direction = -1 /\
   forall j v, n_ports n !! j = Some v -> ~ is_port id direction v).
Proof.
  unfold find_port. destruct (list_find _ _) as [[j v]|] eqn:E.
  - apply list_find_Some in E as (Hi & Hn & _). left. eauto.
  - rewrite list_find_None, Forall_lookup in E. right. split; [done|]. intros j v Hi. by apply (E j).
Qed.

Lemma node_unique nodes i j m n :
  nodes_wf nodes -> nodes !! i = Some m -> nodes !! j = Some n -> n_id m = n_id n -> i = j.
Proof.
  intros Hw Hi Hj E. eapply NoDup_lookup; [apply Hw| |]; rewrite list_lookup_fmap.
  - by rewrite Hi.
  - rewrite Hj. cbn. by rewrite E.
Qed.

Lemma port_unique nodes i n j k v w :
  nodes_wf nodes -> nodes !! i = Some n -> n_ports n !! j = Some v -> n_ports n !! k = Some w ->
  p_name v = p_name w -> j = k.
Proof.
  intros Hw Hi Hj Hk E. pose proof (Forall_lookup_1 _ _ _ _ (nw_ports _ Hw) Hi) as Hd.
  eapply NoDup_lookup; [apply Hd| |]; rewrite list_lookup_fmap.
  - by rewrite Hj.
  - rewrite Hk. cbn. by rewrite E.
Qed.

Lemma find_node_at nodes i n :
  nodes_wf nodes -> nodes !! i = Some n -> find_node nodes (n_id n) = Z.of_nat i.
Proof.
  intros Hw Hi. destruct (find_node_spec nodes (n_id n)) as [(j & m & -> & Hj & Hm)|[_ H]].
  - f_equal. by eapply node_unique.
  - by destruct (H i n Hi).
Qed.

Lemma find_port_at nodes i n j v :
  nodes_wf nodes -> nodes !! i = Some n -> n_ports n !! j = Some v ->
  find_port n (p_name v) (p_direction v) = Z.of_nat j.
Proof.
  intros Hw Hi Hj.
  destruct (find_port_spec n (p_name v) (p_direction v)) as [(k & w & -> & Hk & Hd & Hm)|[_ H]].
  - f_equal. by eapply port_unique.
  - by destruct (H j v Hj).
Qed.

Lemma endpoint_node nodes id name direction i j v :
  nodes_wf nodes -> endpoint nodes id name direction i j v ->
  find_node nodes id = Z.of_nat i /\
  exists n, nodes !! i = Some n /\ n_ports n !! j = Some v /\
            find_port n name direction = Z.of_nat j.
Proof.
  intros Hw (n & Hi & <- & Hj & <- & <-). split; [by apply find_node_at|].
  exists n. split; [done|]. split; [done|]. by eapply find_port_at.
Qed.

(** *** Compatible ports *)

Lemma agree_spec x y : truth x && truth y && negb (x =? y) = false <-> agree x y.
Proof. unfold truth, agree. lia. Qed.

Lemma timebase_spec a b :
  is_u32 (p_timebase_num a) -> is_u32 (p_timebase_den a) ->
  is_u32 (p_timebase_num b) -> is_u32 (p_timebase_den b) ->
  truth (p_timebase_num a) && truth (p_timebase_num b) &&
  negb (u64 (p_timebase_num a * p_timebase_den b) =?
        u64 (p_timebase_num b * p_timebase_den a)) = false <->
  p_timebase_num a = 0 \/ p_timebase_num b = 0 \/
  p_timebase_num a * p_timebase_den b = p_timebase_num b * p_timebase_den a.
Proof.
  unfold is_u32, truth. intros. rewrite !u64_id by (unfold is_u64; nia).
  generalize (p_timebase_num a * p_timebase_den b), (p_timebase_num b * p_timebase_den a). lia.
Qed.

Lemma compatible_spec a b :
  is_u32 (p_timebase_num a) -> is_u32 (p_timebase_den a) ->
  is_u32 (p_timebase_num b) -> is_u32 (p_timebase_den b) ->
  compatible a b <-> type_mismatch a b = false /\ format_mismatch a b = false.
Proof.
  intros. unfold compatible, type_mismatch, format_mismatch.
  rewrite !orb_false_iff, !agree_spec, timebase_spec, !negb_eqb_false by done. tauto.
Qed.

(** *** Counting the uses of ports *)

Record tallied (count : nat) (ls : list link) (t : tallies) : Prop := {
  td_in : length (tl_in t) = (count * 32)%nat;
  td_out : length (tl_out t) = (count * 32)%nat;
  td_degrees : length (tl_degrees t) = count;
  td_ins : forall i j, (i < count)%nat -> (j < 32)%nat ->
    tl_in t !! (i * 32 + j)%nat = Some (tally (into i j) ls);
  td_outs : forall i j, (i < count)%nat -> (j < 32)%nat ->
    tl_out t !! (i * 32 + j)%nat = Some (tally (out_of i j) ls);
  td_degree : forall i, (i < count)%nat ->
    tl_degrees t !! i = Some (tally (fun l => l_tn l = i) ls);
}.

Lemma increment_spec (a : list Z) i x :
  a !! i = Some x -> 0 <= x < SG_U32_MAX ->
  increment a (Z.of_nat i) = Ok (<[i := x + 1]> a, x + 1).
Proof.
  unfold SG_U32_MAX. intros Hi Hx. unfold increment.
  rewrite (proj2 (rd_lookup a (Z.of_nat i) x)) by (rewrite Nat2Z.id; split; [lia|done]). cbn.
  rewrite u32_id by (unfold is_u32; lia). apply lookup_lt_Some in Hi.
  rewrite upd_Ok by len_lia. by rewrite Nat2Z.id.
Qed.

Lemma port_index_nat i j :
  port_index (Z.of_nat i) (Z.of_nat j) = Z.of_nat (i * 32 + j).
Proof. unfold port_index, TM_SG_MAX_PORTS_PER_NODE. lia. Qed.

Lemma tally_snoc {A} (P : A -> Prop) `{!forall x, Decision (P x)} l x :
  tally P (l ++ [x]) = tally P l + (if decide (P x) then 1 else 0).
Proof. by rewrite tally_app, tally_cons, tally_nil, Z.add_0_r. Qed.

(** One more link. *)
Lemma tallied_snoc count ls t l :
  tallied count ls t -> (l_sn l < count)%nat -> (l_sp l < 32)%nat ->
  (l_tn l < count)%nat -> (l_tp l < 32)%nat ->
  tallied count (ls ++ [l])
    (Build_tallies
       (<[(l_tn l * 32 + l_tp l)%nat := tally (into (l_tn l) (l_tp l)) ls + 1]> (tl_in t))
       (<[(l_sn l * 32 + l_sp l)%nat := tally (out_of (l_sn l) (l_sp l)) ls + 1]> (tl_out t))
       (<[l_tn l := tally (fun k => l_tn k = l_tn l) ls + 1]> (tl_degrees t))).
Proof.
  intros Ht Hs Hsp Ht' Htp. split; cbn; rewrite ?length_insert; try apply Ht.
  - intros i j Hi Hj. rewrite tally_snoc. unfold into at 3. case_decide as Hc.
    + destruct Hc as [-> ->]. apply list_lookup_insert_eq. rewrite (td_in _ _ _ Ht). lia.
    + rewrite list_lookup_insert_ne by lia. rewrite Z.add_0_r. by apply Ht.
  - intros i j Hi Hj. rewrite tally_snoc. unfold out_of at 3. case_decide as Hc.
    + destruct Hc as [-> ->]. apply list_lookup_insert_eq. rewrite (td_out _ _ _ Ht). lia.
    + rewrite list_lookup_insert_ne by lia. rewrite Z.add_0_r. by apply Ht.
  - intros i Hi. rewrite tally_snoc. case_decide as Hc.
    + subst i. apply list_lookup_insert_eq. rewrite (td_degrees _ _ _ Ht). lia.
    + rewrite list_lookup_insert_ne by lia. rewrite Z.add_0_r. by apply Ht.
Qed.

Lemma fits_snoc mf ls l :
  fits mf ls ->
  (fits mf (ls ++ [l]) <->
   tally (into (l_tn l) (l_tp l)) ls + 1 <= 1 /\ tally (out_of (l_sn l) (l_sp l)) ls + 1 <= mf).
Proof.
  intros Hf. split.
  - intros H. specialize (H (l_tn l) (l_tp l)) as H1. specialize (H (l_sn l) (l_sp l)) as H2.
    rewrite tally_snoc, decide_True in H1 by done.
    destruct H2 as [_ H2]. rewrite tally_snoc, decide_True in H2 by done. lia.
  - intros [H1 H2] i j. rewrite !tally_snoc. specialize (Hf i j).
    destruct (decide (into i j l)) as [[Ea Eb]|], (decide (out_of i j l)) as [[Ec Ed]|];
      rewrite ?Ea, ?Eb, ?Ec, ?Ed in *; lia.
Qed.

Lemma fits_app mf ls k : fits mf (ls ++ k) -> fits mf ls.
Proof.
  intros H i j. specialize (H i j). rewrite !tally_app in H.
  pose proof (tally_bound (into i j) k). pose proof (tally_bound (out_of i j) k). lia.
Qed.

Lemma wf_port nodes i n j v :
  nodes_wf nodes -> nodes !! i = Some n -> n_ports n !! j = Some v ->
  (j < 32)%nat /\ is_u32 (p_timebase_num v) /\ is_u32 (p_timebase_den v).
Proof.
  intros Hw Hi Hj. split.
  - pose proof (Forall_lookup_1 _ _ _ _ (nw_count _ Hw) Hi) as H. cbn in H. apply lookup_lt_Some in Hj. lia.
  - pose proof (Forall_lookup_1 _ _ _ _ (nw_typed _ Hw) Hi) as H. by apply (Forall_lookup_1 _ _ _ _ H Hj).
Qed.

Lemma checked_rd {A B} (l : list A) i x (k : A -> outcome B) :
  l !! i = Some x -> (checked (rd l (Z.of_nat i)) ≫= k) = k x.
Proof.
  intros H. rewrite (proj2 (rd_lookup l (Z.of_nat i) x)); [done|]. rewrite Nat2Z.id. split; [lia|done].
Qed.

Lemma decides_not {A} b status node edge message (k : unit -> outcome A) Φ (P : Prop) :
  b = true -> ~ P -> decides (reject b status node edge message ≫= k) Φ P.
Proof. intros -> HP. right. by eexists. Qed.

Lemma pass {A} b status node edge message (k : unit -> outcome A) :
  b = false -> (reject b status node edge message ≫= k) = k tt.
Proof. by intros ->. Qed.

(** What a link of an edge must be, once its ends are found. *)
Lemma links_ends nodes e l :
  nodes_wf nodes -> links nodes e l ->
  find_node nodes (e_source_node e) = Z.of_nat (l_sn l) /\
  find_node nodes (e_target_node e) = Z.of_nat (l_tn l) /\ l_sn l <> l_tn l /\
  exists s d a b, nodes !! l_sn l = Some s /\ nodes !! l_tn l = Some d /\
    n_ports s !! l_sp l = Some a /\ n_ports d !! l_tp l = Some b /\ compatible a b /\
    find_port s (e_source_port e) TM_SG_OUTPUT = Z.of_nat (l_sp l) /\
    find_port d (e_target_port e) TM_SG_INPUT = Z.of_nat (l_tp l).
Proof.
  intros Hw (a & b & Ha & Hb & Hc & Hn).
  apply endpoint_node in Ha as (Es & s & Hs & Ha & Ea); [|done].
  apply endpoint_node in Hb as (Ed & d & Hd & Hb & Eb); [|done].
  repeat split; try done. by exists s, d, a, b.
Qed.

Lemma found_links nodes e sn s tn d sp a tp b :
  nodes_wf nodes ->
  nodes !! sn = Some s -> n_id s = e_source_node e ->
  nodes !! tn = Some d -> n_id d = e_target_node e ->
  n_ports s !! sp = Some a -> is_port (e_source_port e) TM_SG_OUTPUT a ->
  n_ports d !! tp = Some b -> is_port (e_target_port e) TM_SG_INPUT b -> sn <> tn ->
  forall l, links nodes e l <-> l = Link sn sp tn tp /\ compatible a b.
Proof.
  intros Hw Hs Is Hd Id Ha [Da Na] Hb [Db Nb] Hne l. split.
  - intros (Fs & Fd & _ & s' & d' & a' & b' & Hs' & Hd' & Ha' & Hb' & Hc & Ps & Pd)%links_ends; [|done].
    rewrite <- Is, (find_node_at _ sn s) in Fs by done. apply Nat2Z.inj in Fs as E1.
    rewrite <- Id, (find_node_at _ tn d) in Fd by done. apply Nat2Z.inj in Fd as E2.
    destruct l as [l1 l2 l3 l4]; cbn in *. subst l1 l3. simplify_eq.
    rewrite <- Na, <- Da, (find_port_at nodes sn s sp a) in Ps by done. apply Nat2Z.inj in Ps as E3.
    rewrite <- Nb, <- Db, (find_port_at nodes tn d tp b) in Pd by done. apply Nat2Z.inj in Pd as E4.
    subst. simplify_eq. done.
  - intros [-> Hc]. exists a, b. split; [by exists s|]. by split; [exists d|].
Qed.

Lemma count_edge (nodes : list sg_node) done t mf sn sp tn tp i :
  mf <= TM_SG_MAX_FANOUT -> len done < SG_U32_MAX ->
  tallied (length nodes) done t -> fits mf done ->
  (sn < length nodes)%nat -> (sp < 32)%nat -> (tn < length nodes)%nat -> (tp < 32)%nat ->
  decides ('(ins, hits) ← checked (increment (tl_in t) (port_index (Z.of_nat tn) (Z.of_nat tp)));
    _ ← reject (1 <? hits) TM_SG_ELIMIT SG_U32_MAX i "port ingress/fanout exceeded";
    '(outs, uses) ← checked (increment (tl_out t) (port_index (Z.of_nat sn) (Z.of_nat sp)));
    _ ← reject (mf <? uses) TM_SG_ELIMIT SG_U32_MAX i "port ingress/fanout exceeded";
    '(degrees, _) ← checked (increment (tl_degrees t) (Z.of_nat tn));
    Done (Build_tallies ins outs degrees))
    (tallied (length nodes) (done ++ [Link sn sp tn tp])) (fits mf (done ++ [Link sn sp tn tp])).
Proof.
  unfold TM_SG_MAX_FANOUT. intros Hmf Hlen Ht Hf H1 H2 H3 H4. rewrite !port_index_nat.
  destruct (Hf tn tp) as [Hi _]. destruct (Hf sn sp) as [_ Ho].
  pose proof (tally_bound (into tn tp) done). pose proof (tally_bound (out_of sn sp) done).
  pose proof (tally_bound (fun k => l_tn k = tn) done).
  rewrite (increment_spec _ _ _ (td_ins _ _ _ Ht tn tp H3 H4)) by (unfold SG_U32_MAX in *; lia).
  rewrite (increment_spec _ _ _ (td_outs _ _ _ Ht sn sp H1 H2)) by (unfold SG_U32_MAX in *; lia).
  rewrite (increment_spec _ _ _ (td_degree _ _ _ Ht tn H3)) by (unfold SG_U32_MAX in *; lia).
  cbn [checked mbind outcome_bind].
  eapply decides_iff; [symmetry; apply fits_snoc, Hf|]. cbn [l_sn l_sp l_tn l_tp].
  apply decides_guard; [lia|intros _]. eapply decides_iff.
  2: { apply (decides_guard _ _ _ _ _ _ _ (tally (out_of sn sp) done + 1 <= mf) True); [lia|intros _].
       apply decides_done. by apply (tallied_snoc _ _ _ (Link sn sp tn tp)). }
  tauto.
Qed.

Lemma check_edge_decides nodes mf done t i e :
  nodes_wf nodes -> mf <= TM_SG_MAX_FANOUT -> len done < SG_U32_MAX ->
  tallied (length nodes) done t -> fits mf done ->
  decides (check_edge nodes mf i e t)
    (fun t' => exists l, links nodes e l /\ tallied (length nodes) (done ++ [l]) t')
    (exists l, links nodes e l /\ fits mf (done ++ [l])).
Proof.
  intros Hw Hmf Hlen Ht Hf. unfold check_edge.
  destruct (find_node_spec nodes (e_source_node e)) as [(sn & s & -> & Hs & Is)|[-> Hno]]; cycle 1.
  { rewrite pass by lia. apply decides_not; [lia|]. intros (l & (Es & _)%links_ends & _); [|done].
    destruct (find_node_spec nodes (e_source_node e)) as [(? & ? & ? & ? & ?)|[? _]]; [naive_solver|lia]. }
  destruct (find_node_spec nodes (e_target_node e)) as [(tn & d & -> & Hd & Id)|[-> Hno]]; cycle 1.
  { rewrite pass by lia. apply decides_not; [lia|]. intros (l & (_ & Ed & _)%links_ends & _); [|done].
    destruct (find_node_spec nodes (e_target_node e)) as [(? & ? & ? & ? & ?)|[? _]]; [naive_solver|lia]. }
  destruct (decide (sn = tn)) as [->|Hne].
  { apply decides_not; [lia|]. intros (l & (Es & Ed & Hl & _)%links_ends & _); [|done].
    rewrite <- Is, (find_node_at _ tn s) in Es by done.
    rewrite <- Id, (find_node_at _ tn d) in Ed by done. lia. }
  rewrite !pass by lia. rewrite (checked_rd _ _ _ _ Hs), (checked_rd _ _ _ _ Hd).
  assert (Hends : forall l, links nodes e l -> l_sn l = sn /\ l_tn l = tn /\
    exists a b, n_ports s !! l_sp l = Some a /\ n_ports d !! l_tp l = Some b /\
      is_port (e_source_port e) TM_SG_OUTPUT a /\ is_port (e_target_port e) TM_SG_INPUT b).
  { intros l (a & b & (s' & Hs' & Is' & Ha & Da & Na) & (d' & Hd' & Id' & Hb & Db & Nb) & _).
    assert (l_sn l = sn) as E1 by (eapply node_unique; [done..|congruence]).
    assert (l_tn l = tn) as E2 by (eapply node_unique; [done..|congruence]).
    rewrite E1 in Hs'. rewrite E2 in Hd'. simplify_eq. split; [done|]. split; [done|].
    exists a, b. done. }
  destruct (find_port_spec s (e_source_port e) TM_SG_OUTPUT) as [(sp & a & -> & Ha & Pa)|[-> Hno]]; cycle 1.
  { apply decides_not; [lia|]. intros (l & (_ & _ & a & b & Ha & _ & Pa & _)%Hends & _). by apply (Hno _ _ Ha). }
  destruct (find_port_spec d (e_target_port e) TM_SG_INPUT) as [(tp & b & -> & Hb & Pb)|[-> Hno]]; cycle 1.
  { apply decides_not; [lia|]. intros (l & (_ & _ & ? & b & _ & Hb & _ & Pb)%Hends & _). by apply (Hno _ _ Hb). }
  rewrite pass by lia. rewrite (checked_rd _ _ _ _ Ha), (checked_rd _ _ _ _ Hb).
  destruct (wf_port _ _ _ _ _ Hw Hs Ha) as (Hsp & Ta1 & Ta2).
  destruct (wf_port _ _ _ _ _ Hw Hd Hb) as (Htp & Tb1 & Tb2).
  pose proof (found_links nodes e sn s tn d sp a tp b Hw Hs Is Hd Id Ha Pa Hb Pb Hne) as Hlinks.
  eapply decides_iff; cycle 1.
  - apply decides_guard; [reflexivity|intros H1]. apply decides_guard; [reflexivity|intros H2].
    eapply decides_weaken.
    2: { apply count_edge; try done; by eapply lookup_lt_Some. }
    intros t' Ht' _. exists (Link sn sp tn tp). split; [|done].
    apply Hlinks. split; [done|]. by apply compatible_spec.
  - pose proof (compatible_spec a b Ta1 Ta2 Tb1 Tb2) as Hc. split.
    + intros (H1 & H2 & H3). exists (Link sn sp tn tp). rewrite Hlinks. tauto.
    + intros (l & [-> H]%Hlinks & H3). tauto.
Qed.

Lemma links_unique nodes e l l' :
  nodes_wf nodes -> links nodes e l -> links nodes e l' -> l = l'.
Proof.
  intros Hw H1%links_ends H2%links_ends; [|done..].
  destruct H1 as (F1 & G1 & _ & s & d & a & b & ? & ? & ? & ? & _ & P1 & Q1).
  destruct H2 as (F2 & G2 & _ & s' & d' & a' & b' & ? & ? & ? & ? & _ & P2 & Q2).
  destruct l, l'; cbn in *. rewrite F1 in F2. rewrite G1 in G2.
  apply Nat2Z.inj in F2 as ->, G2 as ->. simplify_eq. rewrite P1 in P2. rewrite Q1 in Q2.
  by apply Nat2Z.inj in P2 as ->, Q2 as ->.
Qed.

Lemma check_edges_decides nodes mf done t i edges :
  nodes_wf nodes -> mf <= TM_SG_MAX_FANOUT -> len done + len edges <= SG_U32_MAX ->
  tallied (length nodes) done t -> fits mf done ->
  decides (check_edges nodes mf i edges t)
    (fun t' => exists ls, Forall2 (links nodes) edges ls /\ tallied (length nodes) (done ++ ls) t')
    (exists ls, Forall2 (links nodes) edges ls /\ fits mf (done ++ ls)).
Proof.
  intros Hw Hmf. revert done t i. induction edges as [|e edges IH]; intros done t i Hlen Ht Hf;
    cbn [check_edges].
  - apply (decides_iff _ _ True).
    + split; [|done]. intros _. exists []. by rewrite app_nil_r.
    + apply decides_done. exists []. by rewrite app_nil_r.
  - rewrite len_cons in Hlen. pose proof (len_nonneg edges).
    destruct (check_edge_decides nodes mf done t i e Hw Hmf) as [(t' & -> & (l & Hl & Ht') & Hp)|(f & -> & Hp)];
      [lia|done..| |].
    + pose proof (fun l' H => links_unique nodes e l' l Hw H Hl) as Hu.
      assert (Hf' : fits mf (done ++ [l])) by (destruct Hp as (l' & ?%Hu & ?); by subst).
      cbn [mbind outcome_bind].
      eapply decides_iff; [|eapply decides_weaken; [|apply (IH (done ++ [l])); [|done..]]];
        [| |rewrite len_app; change (len [l]) with 1; lia].
      * split.
        -- intros (ls & Hls & Hfs). exists (l :: ls). rewrite <- app_assoc in Hfs. by split; [constructor|].
        -- intros (ls & Hls & Hfs). apply Forall2_cons_inv_l in Hls as (l' & k & Hl' & Hk & ->).
           apply Hu in Hl' as ->. exists k. by rewrite <- app_assoc.
      * cbn. intros t'' (ls & Hls & Ht'') _. exists (l :: ls). rewrite <- app_assoc in Ht''. by split; [constructor|].
    + right. exists f. split; [done|]. intros (ls & Hls & Hfs).
      apply Forall2_cons_inv_l in Hls as (l & k & Hl & Hk & ->). apply Hp. exists l. split; [done|].
      apply (fits_app _ _ k). by rewrite <- app_assoc.
Qed.

(** *** Every port is connected *)

Definition port_connected (ls : list link) (i j : nat) (v : sg_port) : Prop :=
  if decide (p_direction v = TM_SG_INPUT) then 0 < tally (into i j) ls
  else 0 < tally (out_of i j) ls.

Lemma check_ports_decides count ls t i j ports :
  tallied count ls t -> (i < count)%nat -> (j + length ports <= 32)%nat ->
  decides (check_ports t i j ports) (fun _ => True)
    (forall k v, ports !! k = Some v -> port_connected ls i (j + k) v).
Proof.
  intros Ht Hi. revert j. induction ports as [|v ports IH]; intros j Hj; cbn [check_ports].
  - apply (decides_iff _ _ True); [split; [|done]; by intros _ k v [=]|by apply decides_done].
  - cbn [length] in Hj. eapply decides_iff; cycle 1.
    + apply decides_checked with
        (a := if decide (p_direction v = TM_SG_INPUT) then tally (into i j) ls
              else tally (out_of i j) ls).
      * apply rd_lookup. rewrite port_index_nat, Nat2Z.id. split; [lia|].
        case_decide as Hd.
        -- rewrite Hd. apply (td_ins _ _ _ Ht); lia.
        -- replace (p_direction v =? TM_SG_INPUT) with false by lia. apply (td_outs _ _ _ Ht); lia.
      * apply (decides_guard _ _ _ _ _ _ _ (port_connected ls i j v)); [|intros _; apply IH; lia].
        unfold port_connected. pose proof (tally_bound (into i j) ls).
        pose proof (tally_bound (out_of i j) ls). case_decide; lia.
    + split.
      * intros [H1 H2] [|k] w; cbn; [intros [= <-]; by rewrite Nat.add_0_r|].
        intros Hk. rewrite <- Nat.add_succ_comm. by apply H2.
      * intros H. split; [specialize (H 0%nat v eq_refl); by rewrite Nat.add_0_r in H|].
        intros k w Hk. rewrite Nat.add_succ_comm. by apply H.
Qed.

Lemma check_nodes_decides count ls t i nodes :
  tallied count ls t -> (i + length nodes <= count)%nat ->
  Forall (fun n => (length (n_ports n) <= 32)%nat) nodes ->
  decides (check_nodes t i nodes) (fun _ => True)
    (forall k n j v, nodes !! k = Some n -> n_ports n !! j = Some v ->
      port_connected ls (i + k) j v).
Proof.
  intros Ht Hi Hn. revert i Hi. induction Hn as [|n nodes Hn Hns IH]; intros i Hi; cbn [check_nodes].
  - apply (decides_iff _ _ True); [split; [|done]; by intros _ k n j v [=]|by apply decides_done].
  - cbn [length] in Hi. eapply decides_iff; cycle 1.
    + eapply decides_bind; [apply (check_ports_decides count ls t i 0); [done|lia..]|].
      intros [] _ _. apply IH. lia.
    + split.
      * intros [H1 H2] [|k] m j v; cbn; [intros [= <-]; rewrite Nat.add_0_r; by apply H1|].
        rewrite <- Nat.add_succ_comm. by apply H2.
      * intros H. split; [intros j v; rewrite <- (Nat.add_0_r i); by apply (H 0%nat)|].
        intros k m j v Hk. rewrite Nat.add_succ_comm. by apply H.
Qed.

(** *** Ordering

    [degrees] counts the edges from nodes that are not picked yet. *)

Definition unseen (seen : list bool) (i : nat) : Prop := seen !! i = Some false.

#[export] Instance unseen_dec seen i : Decision (unseen seen i).
Proof. unfold unseen. apply _. Defined.

Definition before (order : list nat) (x y : nat) : Prop :=
  exists i j, order !! i = Some x /\ order !! j = Some y /\ (i < j)%nat.

Definition pending (ls : list link) (seen : list bool) (degrees : list Z) : Prop :=
  forall i, (i < length seen)%nat ->
    degrees !! i = Some (tally (fun l => l_tn l = i /\ unseen seen (l_sn l)) ls).

Lemma ready_spec seen degrees j :
  length seen = length degrees ->
  match ready seen degrees j with
  | Some k => exists i, k = (j + i)%nat /\ unseen seen i /\ degrees !! i = Some 0
  | None => forall i, unseen seen i -> degrees !! i <> Some 0
  end.
Proof.
  revert degrees j. induction seen as [|s seen IH]; intros [|d degrees] j; try done; cbn.
  intros [= Hl]. specialize (IH degrees (S j) Hl). destruct (negb s && (d =? 0)) eqn:E.
  - exists 0%nat. unfold unseen. split; [lia|]. destruct s; [done|]. split; [done|].
    cbn. f_equal. lia.
  - destruct (ready seen degrees (S j)) as [k|].
    + destruct IH as (i & -> & Hi). exists (S i). split; [lia|done].
    + intros [|i]; unfold unseen; cbn; [intros [= ->] [= ->]; done|]. apply IH.
Qed.

(** Removing the edges of the picked node [p]. *)
Lemma remove_edges_spec nodes p n edges ls degrees :
  nodes_wf nodes -> nodes !! p = Some n -> Forall2 (links nodes) edges ls ->
  (forall i, (i < length degrees)%nat -> exists d, degrees !! i = Some d /\
    tally (fun l => l_tn l = i /\ l_sn l = p) ls <= d < 4294967296) ->
  length degrees = length nodes ->
  exists degrees', remove_edges nodes (n_id n) edges degrees = Ok degrees' /\
    length degrees' = length degrees /\
    forall i d, degrees !! i = Some d ->
      degrees' !! i = Some (d - tally (fun l => l_tn l = i /\ l_sn l = p) ls).
Proof.
  intros Hw Hp Hls. revert degrees.
  induction Hls as [|e l edges ls Hl Hls IH]; intros degrees Hd Hlen; cbn [remove_edges].
  { exists degrees. split; [done|]. split; [done|]. intros i d ->. rewrite tally_nil. f_equal. lia. }
  apply links_ends in Hl as (Es & Et & _ & s & d & _ & _ & Hs & Ht & _); [|done].
  assert (Hsrc : e_source_node e = n_id n <-> l_sn l = p).
  { split; intros H.
    - rewrite H, (find_node_at _ _ _ Hw Hp) in Es. lia.
    - subst p. destruct (find_node_spec nodes (e_source_node e))
        as [(i & m & E & Hi & <-)|[E _]]; rewrite Es in E; [|lia].
      apply Nat2Z.inj in E as <-. by simplify_eq. }
  case_bool_decide as Hc.
  - apply Hsrc in Hc. rewrite Et. replace (0 <=? Z.of_nat (l_tn l)) with true by lia.
    apply lookup_lt_Some in Ht as Htl.
    destruct (Hd (l_tn l)) as (x & Hx & Hxb); [lia|].
    rewrite tally_cons, decide_True in Hxb by done.
    pose proof (tally_bound (fun k => l_tn k = l_tn l /\ l_sn k = p) ls).
    rewrite (proj2 (rd_lookup _ _ x)) by (rewrite Nat2Z.id; split; [lia|done]). cbn.
    rewrite u32_id by (unfold is_u32; lia). rewrite upd_Ok by (unfold len; lia). cbn.
    rewrite Nat2Z.id.
    destruct (IH (<[l_tn l := x - 1]> degrees)) as (d' & -> & Hl' & Hd').
    + intros i Hi. rewrite length_insert in Hi. destruct (Hd i Hi) as (y & Hy & Hyb).
      rewrite tally_cons in Hyb. destruct (decide (i = l_tn l)) as [->|Hne].
      * exists (x - 1). rewrite list_lookup_insert_eq by lia. split; [done|lia].
      * rewrite decide_False in Hyb by naive_solver. exists y.
        rewrite list_lookup_insert_ne by lia. split; [done|lia].
    + by rewrite length_insert.
    + exists d'. rewrite length_insert in Hl'. split; [done|]. split; [done|]. intros i y Hy.
      rewrite tally_cons. destruct (decide (i = l_tn l)) as [->|Hne].
      * simplify_eq. rewrite decide_True by done.
        rewrite (Hd' _ (x - 1)); [f_equal; lia|]. apply list_lookup_insert_eq. lia.
      * rewrite decide_False by naive_solver. rewrite (Hd' _ y); [f_equal; lia|].
        by rewrite list_lookup_insert_ne.
  - assert (l_sn l <> p) by tauto. cbn.
    destruct (IH degrees) as (d' & -> & Hl' & Hd'); [|done|].
    + intros i Hi. destruct (Hd i Hi) as (y & Hy & Hyb). exists y.
      rewrite tally_cons, decide_False in Hyb by tauto. split; [done|lia].
    + exists d'. split; [done|]. split; [done|]. intros i y Hy.
      rewrite tally_cons, decide_False by tauto. by rewrite (Hd' _ y).
Qed.

Lemma tally_split {A} (P Q R : A -> Prop) `{!forall x, Decision (P x)}
    `{!forall x, Decision (Q x)} `{!forall x, Decision (R x)} l :
  (forall x, P x <-> Q x \/ R x) -> (forall x, Q x -> ~ R x) ->
  tally P l = tally Q l + tally R l.
Proof.
  intros Hor Hdis. induction l as [|x l IH]; [done|]. rewrite !tally_cons, IH.
  specialize (Hor x). specialize (Hdis x). repeat case_decide; try lia; exfalso; tauto.
Qed.

Lemma unseen_insert seen p i :
  unseen (<[p := true]> seen) i <-> unseen seen i /\ i <> p.
Proof.
  unfold unseen. destruct (decide (i = p)) as [->|Hne].
  - split; [|by intros []]. intros H. apply list_lookup_insert_Some in H. naive_solver.
  - rewrite list_lookup_insert_ne by done. tauto.
Qed.

Lemma pick_pending nodes p n edges ls seen degrees :
  nodes_wf nodes -> nodes !! p = Some n -> Forall2 (links nodes) edges ls ->
  len ls < 4294967296 -> length seen = length nodes -> length degrees = length nodes ->
  unseen seen p -> pending ls seen degrees ->
  exists degrees', remove_edges nodes (n_id n) edges degrees = Ok degrees' /\
    length degrees' = length nodes /\ pending ls (<[p := true]> seen) degrees'.
Proof.
  intros Hw Hp Hls Hlen Hseen Hdeg Hun Hpend.
  assert (Hsplit : forall i, tally (fun l => l_tn l = i /\ unseen seen (l_sn l)) ls =
    tally (fun l => l_tn l = i /\ unseen (<[p := true]> seen) (l_sn l)) ls +
    tally (fun l => l_tn l = i /\ l_sn l = p) ls).
  { intros i. apply tally_split; intros l; rewrite unseen_insert; [|naive_solver].
    destruct (decide (l_sn l = p)); naive_solver. }
  destruct (remove_edges_spec nodes p n edges ls degrees Hw Hp Hls) as (d' & E & Hl & Hd'); [|done|].
  - intros i Hi. rewrite Hdeg, <- Hseen in Hi. rewrite (Hpend i Hi). eexists. split; [done|].
    specialize (Hsplit i).
    pose proof (tally_bound (fun l => l_tn l = i /\ unseen seen (l_sn l)) ls).
    pose proof (tally_bound (fun l => l_tn l = i /\ unseen (<[p := true]> seen) (l_sn l)) ls). lia.
  - exists d'. split; [done|]. split; [congruence|]. intros i Hi. rewrite length_insert in Hi.
    rewrite (Hd' i _ (Hpend i Hi)). f_equal. specialize (Hsplit i). lia.
Qed.

Lemma tally_unseen_insert seen p :
  unseen seen p -> tally (fun b => b = false) (<[p := true]> seen) =
                   tally (fun b => b = false) seen - 1.
Proof.
  unfold unseen. revert p. induction seen as [|s seen IH]; intros [|p] H; try done.
  - change (<[0%nat := true]> (s :: seen)) with (true :: seen). injection H as ->.
    rewrite !tally_cons, decide_False, decide_True by done. lia.
  - change (<[S p := true]> (s :: seen)) with (s :: <[p := true]> seen).
    rewrite !tally_cons, (IH p H). lia.
Qed.

(** What the selection returns: an order of the unseen nodes along the edges,
    or a set of nodes each of which has a predecessor in the set. *)
Lemma sort_nodes_spec nodes edges ls count seen degrees :
  nodes_wf nodes -> Forall2 (links nodes) edges ls -> len ls < 4294967296 ->
  length seen = length nodes -> length degrees = length nodes ->
  pending ls seen degrees -> tally (fun b => b = false) seen = Z.of_nat count ->
  (exists order, sort_nodes count nodes edges seen degrees = Done (Z.of_nat <$> order) /\
    NoDup order /\ (forall i, i ∈ order <-> unseen seen i) /\
    forall l, l ∈ ls -> unseen seen (l_sn l) -> unseen seen (l_tn l) ->
      before order (l_sn l) (l_tn l)) \/
  (exists f u (U : list nat), sort_nodes count nodes edges seen degrees = Failed f /\ u ∈ U /\
    forall v, v ∈ U -> exists l, l ∈ ls /\ l_tn l = v /\ l_sn l ∈ U).
Proof.
  intros Hw Hls Hlen. revert seen degrees.
  induction count as [|count IH]; intros seen degrees Hseen Hdeg Hpend Hcount; cbn [sort_nodes].
  - left. exists []. split; [done|]. split; [apply NoDup_nil_2|].
    apply tally_none in Hcount. rewrite Forall_lookup in Hcount. split.
    + intros i. split; [by intros ?%not_elem_of_nil|]. intros Hi. by destruct (Hcount i _ Hi).
    + intros l _ Hl. by destruct (Hcount _ _ Hl).
  - pose proof (ready_spec seen degrees 0 ltac:(congruence)) as Hr.
    destruct (ready seen degrees 0) as [next|].
    + destruct Hr as (p & -> & Hp & Hz). cbn [Nat.add].
      apply lookup_lt_Some in Hp as Hpl. rewrite upd_Ok by len_lia. cbn [checked mbind outcome_bind].
      destruct (lookup_lt_is_Some_2 nodes p) as [n Hn]; [lia|].
      rewrite (checked_rd _ _ _ _ Hn), Nat2Z.id.
      destruct (pick_pending nodes p n edges ls seen degrees) as (d' & -> & Hd' & Hpend'); [done..|].
      cbn [checked mbind outcome_bind].
      assert (Hnone : forall l, l ∈ ls -> l_tn l = p -> ~ unseen seen (l_sn l)).
      { rewrite (Hpend p Hpl) in Hz. injection Hz as Hz. apply tally_none in Hz.
        rewrite Forall_forall in Hz. intros l Hl <- Hu. by apply (Hz l Hl). }
      destruct (IH (<[p := true]> seen) d') as [(order & -> & Hnd & Hin & Hb)|Hbad];
        [by rewrite length_insert|done|done|rewrite tally_unseen_insert by done; lia| |].
      * left. exists (p :: order). split; [done|]. split; [|split].
        -- apply NoDup_cons. split; [|done]. rewrite Hin, unseen_insert. tauto.
        -- intros i. rewrite elem_of_cons, Hin, unseen_insert.
           destruct (decide (i = p)); naive_solver.
        -- intros l Hl Hs Ht. assert (l_tn l <> p) as Hnt by (intros E; by apply (Hnone l)).
           destruct (decide (l_sn l = p)) as [->|Hns].
           ++ assert (l_tn l ∈ order) as (j & Hj)%list_elem_of_lookup
                by (apply Hin, unseen_insert; done).
              exists 0%nat, (S j). split; [done|]. split; [done|lia].
           ++ destruct (Hb l Hl) as (i & j & Hi & Hj & ?); [by apply unseen_insert..|].
              exists (S i), (S j). split; [done|]. split; [done|lia].
      * right. destruct Hbad as (f & u & U & -> & Hu & HU). exists f, u, U. done.
    + right. assert (Hex : Exists (fun b => b = false) seen) by (apply (proj1 (tally_some _ _)); lia).
      apply Exists_exists in Hex as (b & Hb & ->). apply list_elem_of_lookup in Hb as (u & Hu).
      exists (Build_sg_failure TM_SG_ECYCLE SG_U32_MAX SG_U32_MAX "directed cycle").
      exists u, (filter (unseen seen) (seq 0 (length seen))). split; [done|].
      assert (Hel : forall i, i ∈ filter (unseen seen) (seq 0 (length seen)) <-> unseen seen i).
      { intros i. rewrite list_elem_of_filter, elem_of_seq. split; [by intros []|].
        intros Hi. split; [done|]. apply lookup_lt_Some in Hi. lia. }
      split; [by apply Hel|]. intros v Hv%Hel. apply lookup_lt_Some in Hv as Hvl.
      specialize (Hr v Hv). rewrite (Hpend v Hvl) in Hr.
      assert (Hpos : 0 < tally (fun l => l_tn l = v /\ unseen seen (l_sn l)) ls).
      { pose proof (tally_bound (fun l => l_tn l = v /\ unseen seen (l_sn l)) ls).
        destruct (decide (tally (fun l => l_tn l = v /\ unseen seen (l_sn l)) ls = 0)) as [E|];
          [by rewrite E in Hr|lia]. }
      apply tally_some, Exists_exists in Hpos as (l & Hl & Ht & Hs).
      exists l. split; [done|]. split; [done|]. by apply Hel.
Qed.

(** An order along the edges rules out cycles; a set of nodes with predecessors
    in it has one. *)
Lemma before_trans order x y z :
  NoDup order -> before order x y -> before order y z -> before order x z.
Proof.
  intros Hd (i & j & Hi & Hj & ?) (j' & k & Hj' & Hk & ?).
  rewrite (NoDup_lookup _ _ _ _ Hd Hj Hj') in *. exists i, k. split; [done|]. split; [done|lia].
Qed.

Lemma ordered_acyclic (R : nat -> nat -> Prop) order :
  NoDup order -> (forall x y, R x y -> before order x y) -> acyclic R.
Proof.
  intros Hd HR x Hx. assert (H : before order x x).
  { revert Hx. generalize x at 2 4 as y. intros y. induction 1 as [x y H|x y z H _ IH]; [auto|].
    eapply before_trans; eauto. }
  destruct H as (i & j & Hi & Hj & ?). rewrite (NoDup_lookup _ _ _ _ Hd Hi Hj) in *. lia.
Qed.

Lemma predecessors_cyclic (R : nat -> nat -> Prop) u (U : list nat) :
  u ∈ U -> (forall v, v ∈ U -> exists w, w ∈ U /\ R w v) -> ~ acyclic R.
Proof.
  intros Hu HU Hac. set (Q x y := y ∈ U /\ R y x).
  assert (Htc : forall x y, tc Q x y -> tc R y x /\ y ∈ U).
  { induction 1 as [x y [Hy H]|x y z [Hy H] _ [IH Hz]]; [split; [by apply tc_once|done]|].
    split; [|done]. by eapply tc_r. }
  assert (Hsn : sn Q u).
  { apply tc_finite_sn; [intros x [H _]%Htc; by apply (Hac x)|]. exists U. intros y H%Htc. apply H. }
  revert Hu. induction Hsn as [v _ IH]. intros Hv. destruct (HU v Hv) as (w & Hw & HR).
  by apply (IH w (conj Hw HR)). 
Qed.

(* ------------------------------------------------------------------ *)
(** ** Topology *)

(** The nodes in an order along the links. *)
Definition topological (nodes : list sg_node) (ls : list link) (order : list nat) : Prop :=
  NoDup order /\ (forall i, i ∈ order <-> (i < length nodes)%nat) /\
  forall l, l ∈ ls -> before order (l_sn l) (l_tn l).

Lemma has_kind_spec kind nodes : has_kind kind nodes = true <-> Exists (fun n => n_kind n = kind) nodes.
Proof.
  unfold has_kind. rewrite existsb_exists, Exists_exists.
  setoid_rewrite Z.eqb_eq. by setoid_rewrite list_elem_of_In.
Qed.

Lemma kinds_spec nodes :
  negb (has_kind TM_SG_SOURCE nodes) || negb (has_kind TM_SG_SINK nodes) = false <->
  Exists (fun n => n_kind n = TM_SG_SOURCE) nodes /\ Exists (fun n => n_kind n = TM_SG_SINK) nodes.
Proof. by rewrite orb_false_iff, !negb_false_iff, !has_kind_spec. Qed.

Lemma flow_links nodes edges ls l :
  nodes_wf nodes -> Forall2 (links nodes) edges ls -> l ∈ ls ->
  (l_sn l < length nodes)%nat /\ (l_tn l < length nodes)%nat.
Proof.
  intros Hw Hls (i & Hi)%list_elem_of_lookup. destruct (Forall2_lookup_r _ _ _ _ _ Hls Hi) as (e & _ & Hl).
  apply links_ends in Hl as (_ & _ & _ & s & d & _ & _ & Hs & Hd & _); [|done].
  split; by eapply lookup_lt_Some.
Qed.

Lemma unseen_start n i : unseen (replicate n false) i <-> (i < n)%nat.
Proof. unfold unseen. rewrite lookup_replicate. naive_solver. Qed.

Lemma tallied_start n :
  tallied n [] (Build_tallies (replicate (n * 32) 0) (replicate (n * 32) 0) (replicate n 0)).
Proof.
  split; cbn; rewrite ?length_replicate; try done; intros; rewrite lookup_replicate_2; try done; lia.
Qed.

Lemma fits_start mf : 0 <= mf -> fits mf [].
Proof. intros H i j. rewrite !tally_nil. lia. Qed.

Lemma pending_start n ls t :
  tallied n ls t -> (forall l, l ∈ ls -> (l_sn l < n)%nat) ->
  pending ls (replicate n false) (tl_degrees t).
Proof.
  intros Ht Hls i Hi. rewrite length_replicate in Hi. rewrite (td_degree _ _ _ Ht i Hi). f_equal.
  apply tally_ext, Forall_forall. intros l Hl. rewrite unseen_start. specialize (Hls l Hl). tauto.
Qed.

Lemma sort_decides nodes edges ls t :
  nodes_wf nodes -> Forall2 (links nodes) edges ls -> len ls < 4294967296 ->
  tallied (length nodes) ls t ->
  decides (sort_nodes (length nodes) nodes edges (replicate (length nodes) false) (tl_degrees t))
    (fun order => exists order', order = Z.of_nat <$> order' /\ topological nodes ls order')
    (acyclic (flow ls)).
Proof.
  intros Hw Hls Hlen Ht.
  assert (Hin : forall l, l ∈ ls -> (l_sn l < length nodes)%nat /\ (l_tn l < length nodes)%nat)
    by (intros l; by apply flow_links with edges).
  destruct (sort_nodes_spec nodes edges ls (length nodes) (replicate (length nodes) false)
    (tl_degrees t)) as [(order & -> & Hd & Hel & Hb)|(f & u & U & -> & Hu & HU)]; try done.
  - by rewrite length_replicate.
  - apply Ht.
  - apply pending_start; [done|]. intros l Hl. by apply Hin.
  - unfold tally, len. f_equal. clear. induction (length nodes) as [|n IH]; [done|].
    cbn [replicate]. rewrite filter_cons, decide_True by done. cbn. by rewrite IH.
  - left. eexists. split; [done|].
    assert (Hf : forall l, l ∈ ls -> before order (l_sn l) (l_tn l)).
    { intros l Hl. apply Hb; [done| |]; apply unseen_start, (Hin l Hl). }
    split.
    + exists order. split; [done|]. split; [done|]. split; [|done]. intros i. by rewrite Hel, unseen_start.
    + apply (ordered_acyclic _ order Hd). intros x y (l & Hl & <- & <-). by apply Hf.
  - right. exists f. split; [done|]. apply (predecessors_cyclic _ u U Hu).
    intros v (l & Hl & Ht' & Hs)%HU. exists (l_sn l). split; [done|]. by exists l.
Qed.

Lemma validate_decides nodes edges mf :
  nodes_wf nodes -> 0 <= mf <= TM_SG_MAX_FANOUT -> len edges <= TM_SG_MAX_EDGES ->
  decides (validate_topology mem_ok nodes edges mf)
    (fun order => exists ls order', order = Z.of_nat <$> order' /\ graph_ok nodes edges mf ls /\
                                    topological nodes ls order')
    (exists ls, graph_ok nodes edges mf ls).
Proof.
  unfold TM_SG_MAX_EDGES. intros Hw Hmf Hlen. unfold validate_topology. rewrite pass by done.
  change (Z.to_nat TM_SG_MAX_PORTS_PER_NODE) with 32%nat.
  destruct (check_edges_decides nodes mf [] (Build_tallies (replicate (length nodes * 32) 0)
    (replicate (length nodes * 32) 0) (replicate (length nodes) 0)) 0 edges Hw)
    as [(t & -> & (ls & Hls & Ht) & Hp)|(f & -> & Hp)];
    [lia|unfold SG_U32_MAX; rewrite len_nil; lia|apply tallied_start|apply fits_start; lia| |].
  2: { right. exists f. split; [done|]. intros (ls & Hg). apply Hp. exists ls. split; apply Hg. }
  cbn [app mbind outcome_bind] in *.
  assert (Hu : forall ls', Forall2 (links nodes) edges ls' -> ls' = ls).
  { intros ls' Hls'. revert Hls. clear -Hw Hls'. revert ls.
    induction Hls' as [|e l es ls' Hl _ IH]; intros ls H;
      [by apply Forall2_nil_inv_l in H|].
    apply Forall2_cons_inv_l in H as (l2 & k & Hl2 & Hk & ->).
    f_equal; [by eapply links_unique|by apply IH]. }
  assert (Hfits : fits mf ls) by (destruct Hp as (ls' & ?%Hu & ?); by subst).
  eapply decides_iff; cycle 1.
  - eapply decides_bind; [apply (check_nodes_decides (length nodes) ls t 0); [done|lia|apply Hw]|].
    intros [] _ Hc. apply decides_guard; [apply kinds_spec|intros [Hsrc Hsink]].
    eapply decides_weaken; [|apply sort_decides; try done].
    + cbn. intros order (order' & -> & Ht') Hac. exists ls, order'. split; [done|].
      by split; [split|].
    + apply Forall2_length in Hls. len_lia.
  - split.
    + intros (Hc & [Hsrc Hsink] & Hac). exists ls. by split.
    + intros (ls' & [H1 H2 H3 H4 H5 H6]). apply Hu in H1 as ->. done.
Qed.

(* ------------------------------------------------------------------ *)
(** ** Compilation *)

Record limits_valid (l : tm_sg_limits_v1) : Prop := {
  lv_version : lm_version l = TM_SG_ABI_VERSION;
  lv_size : lm_size l = SIZEOF_LIMITS;
  lv_nodes : lm_max_nodes l <> 0 /\ lm_max_nodes l <= TM_SG_MAX_NODES;
  lv_edges : lm_max_edges l <> 0 /\ lm_max_edges l <= TM_SG_MAX_EDGES;
  lv_ports : lm_max_ports_per_node l <> 0 /\ lm_max_ports_per_node l <= TM_SG_MAX_PORTS_PER_NODE;
  lv_fanout : lm_max_fanout l <> 0 /\ lm_max_fanout l <= TM_SG_MAX_FANOUT;
}.

(** The descriptors that compile under limits [l]. *)
Record compilable (ns : list tm_sg_node_v1) (es : list tm_sg_edge_v1) (l : tm_sg_limits_v1) : Prop := {
  cp_limits : limits_valid l;
  cp_node_count : 0 < len ns <= lm_max_nodes l;
  cp_edge_count : 0 < len es <= lm_max_edges l;
  cp_port_counts : Forall (fun n => nd_port_count n <= lm_max_ports_per_node l) ns;
  cp_nodes : Forall node_valid ns;
  cp_ids : NoDup (text ∘ nd_id <$> ns);
  cp_edges : Forall edge_valid es;
  cp_graph : exists ls, graph_ok (copy_node <$> ns) (copy_edge <$> es) (lm_max_fanout l) ls;
}.

Lemma limits_decides limits :
  decides (resolve_limits limits) (fun l => l = default default_limits limits)
    (limits_valid (default default_limits limits)).
Proof.
  destruct limits as [l|]; cbn.
  - eapply decides_iff; cycle 1.
    + apply decides_guard; [apply negb_eqb_false|intros Hv].
      apply decides_guard; [reflexivity|intros Hb]. by apply decides_done.
    + unfold bad_limits. rewrite !orb_false_iff. split; [intros []; split; lia|intros []; lia].
  - apply (decides_iff _ _ True); [|by apply decides_done]. split; [|done]. intros _. by split; cbn.
Qed.

Lemma port_counts_decides max i ns :
  decides (check_port_counts max i ns) (fun _ => True) (Forall (fun n => nd_port_count n <= max) ns).
Proof.
  revert i. induction ns as [|n ns IH]; intros i; cbn [check_port_counts].
  - apply (decides_iff _ _ True); [naive_solver|]. by apply decides_done.
  - eapply decides_iff; [symmetry; apply Forall_cons|].
    apply decides_guard; [lia|intros _; apply IH].
Qed.

Lemma copied_wf ns :
  Forall node_typed ns -> Forall node_valid ns -> NoDup (text ∘ nd_id <$> ns) ->
  nodes_wf (copy_node <$> ns).
Proof.
  intros Ht Hv Hd.
  assert (Hall : Forall (fun n => NoDup (p_name <$> n_ports n) /\ (length (n_ports n) <= 32)%nat /\
    Forall (fun v => is_u32 (p_timebase_num v) /\ is_u32 (p_timebase_den v)) (n_ports n))
    (copy_node <$> ns)).
  { apply Forall_fmap, Forall_forall. intros n Hn. rewrite Forall_forall in Ht, Hv.
    specialize (Ht n Hn) as [_ Ht]. destruct (Hv n Hn) as [_ _ _ _ (ps & E & _ & Hnd) Hc].
    destruct (Ht ps E) as [Hlen Hty]. unfold compose. cbn. rewrite E. cbn. split; [|split].
    - by rewrite <- list_fmap_compose.
    - rewrite length_fmap. unfold len, TM_SG_MAX_PORTS_PER_NODE in *. lia.
    - apply Forall_fmap. by eapply Forall_impl. }
  split.
  - by rewrite <- list_fmap_compose.
  - eapply Forall_impl; [exact Hall|]. by intros n [].
  - eapply Forall_impl; [exact Hall|]. by intros n (_ & ? & _).
  - eapply Forall_impl; [exact Hall|]. by intros n (_ & _ & ?).
Qed.

(** What a program is. *)
Definition program_ok (l : tm_sg_limits_v1) (ns : list tm_sg_node_v1) (es : list tm_sg_edge_v1)
    (p : tm_sg_program) : Prop :=
  pg_nodes p = copy_node <$> ns /\ pg_edges p = copy_edge <$> es /\ nodes_wf (pg_nodes p) /\
  exists ls order, graph_ok (pg_nodes p) (pg_edges p) (lm_max_fanout l) ls /\
    topological (pg_nodes p) ls order /\ pg_order p = Z.of_nat <$> order.

Lemma compile_decides ns es limits :
  Forall node_typed ns -> 0 <= lm_max_fanout (default default_limits limits) ->
  decides (tm_sg_compile mem_ok (Some ns) (Some es) limits None)
    (program_ok (default default_limits limits) ns es)
    (compilable ns es (default default_limits limits)).
Proof.
  intros Ht Hmf. unfold tm_sg_compile. rewrite pass by done. set (l := default default_limits limits) in *.
  eapply decides_iff; cycle 1.
  - eapply decides_bind; [apply limits_decides|]. intros l' -> Hl. fold l.
    apply (decides_iff _ _ ((0 < len ns <= lm_max_nodes l /\ 0 < len es <= lm_max_edges l) /\
      Forall (fun n => nd_port_count n <= lm_max_ports_per_node l) ns /\
      (Forall node_valid ns /\ NoDup (n_id <$> (copy_node <$> ns))) /\ Forall edge_valid es /\
      exists ls, graph_ok (copy_node <$> ns) (copy_edge <$> es) (lm_max_fanout l) ls)); [reflexivity|].
    pose proof (len_nonneg ns). pose proof (len_nonneg es).
    destruct ((len ns =? 0) || (len es =? 0) || (lm_max_nodes l <? len ns) ||
              (lm_max_edges l <? len es)) eqn:Eb.
    { right. eexists. split; [done|]. lia. }
    apply (decides_iff _ _ (Forall (fun n => nd_port_count n <= lm_max_ports_per_node l) ns /\
      (Forall node_valid ns /\ NoDup (n_id <$> (copy_node <$> ns))) /\ Forall edge_valid es /\
      exists ls, graph_ok (copy_node <$> ns) (copy_edge <$> es) (lm_max_fanout l) ls)).
    { split; [intros HP; split; [lia|done]|by intros []]. }
    eapply decides_bind; [apply port_counts_decides|]. intros [] _ Hpc. rewrite !pass by done.
    unfold clone_descriptors.
    pose proof (clone_nodes_decides [] ns (NoDup_nil_2) Ht) as Hns.
    destruct Hns as [(ns' & -> & -> & Hv & Hd)|(f & -> & Hn)].
    2: { right. exists f. split; [done|]. by intros (? & _). }
    cbn [app mbind outcome_bind] in *.
    destruct (clone_edges_decides [] es) as [(es' & -> & -> & Hev)|(f & -> & Hn)].
    2: { right. exists f. split; [done|]. by intros (_ & ? & _). }
    cbn [app mbind outcome_bind].
    assert (Hw : nodes_wf (copy_node <$> ns)).
    { apply copied_wf; [done..|]. by rewrite <- list_fmap_compose in Hd. }
    apply (decides_iff _ _ ((exists ls, graph_ok (copy_node <$> ns) (copy_edge <$> es)
      (lm_max_fanout l) ls) /\ True)); [tauto|].
    eapply decides_bind; [apply validate_decides; [done| |]|].
    + destruct Hl. unfold l in *. lia.
    + rewrite len_map. destruct Hl. unfold l in *. lia.
    + intros order (ls & order' & -> & Hg & Hto) _. apply decides_done.
      split; [done|]. split; [done|]. split; [done|]. by exists ls, order'.
  - rewrite <- list_fmap_compose. split.
    + intros (Hl & (H1 & H2) & H3 & (H4 & H5) & H6 & H7). by split.
    + intros [H1 H2 H3 H4 H5 H6 H7 H8]. done.
Qed.

(** *** Allocation failures *)

(** [m] is [m'], unless an allocation fails. *)
Definition unless_enomem {A} (m m' : outcome A) : Prop :=
  m = m' \/ exists f, m = Failed f /\ fl_status f = TM_SG_ENOMEM.

Lemma unless_refl {A} (m : outcome A) : unless_enomem m m.
Proof. by left. Qed.

Lemma unless_bind {A B} (m m' : outcome A) (k k' : A -> outcome B) :
  unless_enomem m m' -> (forall a, unless_enomem (k a) (k' a)) ->
  unless_enomem (m ≫= k) (m' ≫= k').
Proof.
  intros [->|(f & -> & Hf)] Hk; [|right; by exists f].
  destruct m' as [a| |]; [apply Hk|by left..].
Qed.

Lemma unless_alloc (b : bool) node edge message :
  unless_enomem (reject (negb b) TM_SG_ENOMEM node edge message)
    (reject (negb true) TM_SG_ENOMEM node edge message).
Proof. destruct b; [by left|right; by eexists]. Qed.

Ltac alloc_steps :=
  repeat first [apply unless_refl | apply unless_alloc | apply unless_bind; [|intros ?]].

Lemma clone_ports_alloc mem i kind copied ports :
  unless_enomem (clone_ports mem i kind copied ports) (clone_ports mem_ok i kind copied ports).
Proof.
  revert copied. induction ports as [|v ports IH]; intros copied; cbn [clone_ports]; alloc_steps.
  apply IH.
Qed.

Lemma clone_nodes_alloc mem copied nodes :
  unless_enomem (clone_nodes mem copied nodes) (clone_nodes mem_ok copied nodes).
Proof.
  revert copied. induction nodes as [|n nodes IH]; intros copied; cbn [clone_nodes]; alloc_steps.
  - apply clone_ports_alloc.
  - apply IH.
Qed.

Lemma clone_edges_alloc mem copied edges :
  unless_enomem (clone_edges mem copied edges) (clone_edges mem_ok copied edges).
Proof.
  revert copied. induction edges as [|e edges IH]; intros copied; cbn [clone_edges]; alloc_steps.
  apply IH.
Qed.

Lemma compile_alloc mem nodes edges limits diagnostic :
  unless_enomem (tm_sg_compile mem nodes edges limits diagnostic)
    (tm_sg_compile mem_ok nodes edges limits diagnostic).
Proof.
  unfold tm_sg_compile. alloc_steps. destruct nodes as [ns|], edges as [es|]; try by left.
  destruct (_ || _); [by left|]. unfold clone_descriptors, validate_topology. alloc_steps.
  - apply clone_nodes_alloc.
  - apply clone_edges_alloc.
  - destruct a4. alloc_steps.
Qed.

(** *** Programs *)

Lemma compile_done mem ns es limits diagnostic p :
  Forall node_typed ns -> 0 <= lm_max_fanout (default default_limits limits) ->
  tm_sg_compile mem (Some ns) (Some es) limits diagnostic = Done p ->
  program_ok (default default_limits limits) ns es p.
Proof.
  intros Ht Hmf H. destruct (compile_alloc mem (Some ns) (Some es) limits diagnostic) as [E|(f & E & _)];
    [|by rewrite H in E]. rewrite H in E. symmetry in E.
  destruct (compile_decides ns es limits Ht Hmf) as [(q & Eq & Hq & _)|(f & Ef & _)];
    unfold tm_sg_compile in *; rewrite pass in * by done;
    destruct diagnostic as [[size version]|]; cbn [reject] in *.
  all: try destruct (negb (size =? SIZEOF_DIAGNOSTIC) || negb (version =? TM_SG_ABI_VERSION)); try done.
  all: cbn [reject mbind outcome_bind] in *; congruence.
Qed.

Lemma node_at_order p ls order i k n :
  topological (pg_nodes p) ls order -> pg_order p = Z.of_nat <$> order ->
  order !! i = Some k -> pg_nodes p !! k = Some n ->
  tm_sg_program_node_at p (Z.of_nat i) = Ok (Some n).
Proof.
  intros (Hd & Hin & _) E Hi Hk. unfold tm_sg_program_node_at. rewrite E.
  assert (Hp : order ≡ₚ seq 0 (length (pg_nodes p))).
  { apply NoDup_Permutation; [done|apply NoDup_seq|]. intros j. rewrite Hin, elem_of_seq. lia. }
  apply Permutation_length in Hp. rewrite length_seq in Hp. apply lookup_lt_Some in Hi as Hl.
  replace (len (pg_nodes p) <=? Z.of_nat i) with false by len_lia.
  rewrite (proj2 (rd_lookup _ _ (Z.of_nat k))).
  2: { split; [lia|]. by rewrite Nat2Z.id, list_lookup_fmap, Hi. }
  cbn. rewrite (proj2 (rd_lookup _ _ n)); [done|]. rewrite Nat2Z.id. split; [lia|done].
Qed.

Lemma topological_nodes nodes ls order :
  topological nodes ls order ->
  exists ns, Forall2 (fun i n => nodes !! i = Some n) order ns /\ ns ≡ₚ nodes.
Proof.
  intros (Hd & Hin & _).
  assert (Hex : exists ns, Forall2 (fun i n => nodes !! i = Some n) order ns).
  { assert (Hlt : Forall (fun i => i < length nodes)%nat order) by (apply Forall_forall, Hin).
    clear Hin Hd. induction Hlt as [|i order Hi _ (ns & IH)]; [by exists []|].
    apply lookup_lt_is_Some_2 in Hi as [n Hn]. exists (n :: ns). by constructor. }
  destruct Hex as (ns & Hns). exists ns. split; [done|].
  assert (Hp : order ≡ₚ seq 0 (length nodes)).
  { apply NoDup_Permutation; [done|apply NoDup_seq|]. intros j. rewrite Hin, elem_of_seq. lia. }
  assert (Ho : forall ix ms, Forall2 (fun i n => nodes !! i = Some n) ix ms ->
    omap (fun i => nodes !! i) ix = ms).
  { induction 1 as [|i n ix ms Hi _ IH]; [done|]. cbn. by rewrite Hi, IH. }
  rewrite <- (Ho _ _ Hns), Hp. apply reflexive_eq, Ho, Forall2_same_length_lookup_2.
  - by rewrite length_seq.
  - intros i j n [-> _]%lookup_seq. done.
Qed.

(** Edges named by their ends. *)
Definition feeds (n : sg_node) (v : sg_port) (e : sg_edge) : Prop :=
  e_target_node e = n_id n /\ e_target_port e = p_name v.
Definition drains (n : sg_node) (v : sg_port) (e : sg_edge) : Prop :=
  e_source_node e = n_id n /\ e_source_port e = p_name v.

#[export] Instance feeds_dec n v e : Decision (feeds n v e).
Proof. unfold feeds. apply _. Defined.
#[export] Instance drains_dec n v e : Decision (drains n v e).
Proof. unfold drains. apply _. Defined.

Lemma tally_Forall2 {A B} (P : A -> Prop) (Q : B -> Prop) `{!forall x, Decision (P x)}
    `{!forall x, Decision (Q x)} l k :
  Forall2 (fun x y => P x <-> Q y) l k -> tally P l = tally Q k.
Proof.
  induction 1 as [|x y l k Hxy _ IH]; [done|]. rewrite !tally_cons, IH.
  repeat case_decide; tauto.
Qed.

Lemma tally_feeds nodes edges ls i n j v :
  nodes_wf nodes -> Forall2 (links nodes) edges ls ->
  nodes !! i = Some n -> n_ports n !! j = Some v ->
  tally (feeds n v) edges = tally (into i j) ls.
Proof.
  intros Hw Hls Hi Hj. apply tally_Forall2. eapply Forall2_impl; [exact Hls|].
  intros e l (a & b & _ & (m & Hm & Im & Hb & _ & Nb) & _). unfold feeds, into.
  rewrite <- Im, <- Nb. split.
  - intros [E1 E2]. assert (l_tn l = i) as E by by eapply node_unique.
    split; [done|]. rewrite E in Hm. simplify_eq. by eapply port_unique.
  - intros [E1 E2]. rewrite E1 in Hm. simplify_eq. done.
Qed.

Lemma tally_drains nodes edges ls i n j v :
  nodes_wf nodes -> Forall2 (links nodes) edges ls ->
  nodes !! i = Some n -> n_ports n !! j = Some v ->
  tally (drains n v) edges = tally (out_of i j) ls.
Proof.
  intros Hw Hls Hi Hj. apply tally_Forall2. eapply Forall2_impl; [exact Hls|].
  intros e l (a & b & (m & Hm & Im & Hb & _ & Nb) & _). unfold drains, out_of.
  rewrite <- Im, <- Nb. split.
  - intros [E1 E2]. assert (l_sn l = i) as E by by eapply node_unique.
    split; [done|]. rewrite E in Hm. simplify_eq. by eapply port_unique.
  - intros [E1 E2]. rewrite E1 in Hm. simplify_eq. done.
Qed.

(** ** Properties *)

(** C9: Exactly the well-formed graphs compile, and compiling never reads out
    of bounds: with the allocations succeeding, [tm_sg_compile] returns a program
    if and only if the limits are valid and respected, every descriptor is valid,
    names are unique, every edge joins an output to a compatible input of another
    node, every input has one edge and every output one up to the fanout, there is
    a source and a sink, and the edges form no cycle. *)
Theorem sg_compile_accepts ns es limits :
  Forall node_typed ns -> 0 <= lm_max_fanout (default default_limits limits) ->
  (forall mem diagnostic, tm_sg_compile mem (Some ns) (Some es) limits diagnostic <> Undefined) /\
  ((exists p, tm_sg_compile mem_ok (Some ns) (Some es) limits None = Done p) <->
   compilable ns es (default default_limits limits)).
Proof.
  intros Ht Hmf. pose proof (compile_decides ns es limits Ht Hmf) as Hc. split.
  - intros mem diagnostic E.
    destruct (compile_alloc mem (Some ns) (Some es) limits diagnostic) as [E'|(f & E' & _)];
      rewrite E in E'; [|done].
    unfold tm_sg_compile in *. rewrite pass in Hc by done.
    destruct (match diagnostic with Some _ => _ | None => false end); [done|].
    cbn [reject mbind outcome_bind] in *.
    rewrite <- E' in Hc. by destruct Hc as [(? & ? & _)|(? & ? & _)].
  - destruct Hc as [(p & -> & _ & H)|(f & -> & H)]; split; naive_solver.
Qed.

(** C10: A program lists every node once, in an order in which every edge leads
    from an earlier node to a later one. *)
Theorem sg_program_order mem ns es limits diagnostic p :
  Forall node_typed ns -> 0 <= lm_max_fanout (default default_limits limits) ->
  tm_sg_compile mem (Some ns) (Some es) limits diagnostic = Done p ->
  (exists listed, listed ≡ₚ pg_nodes p /\
    forall i, 0 <= i -> tm_sg_program_node_at p i = Ok (listed !! Z.to_nat i)) /\
  forall e, e ∈ pg_edges p ->
    exists i j s t, 0 <= i < j /\
      tm_sg_program_node_at p i = Ok (Some s) /\ n_id s = e_source_node e /\
      tm_sg_program_node_at p j = Ok (Some t) /\ n_id t = e_target_node e.
Proof.
  intros Ht Hmf (_ & _ & Hw & ls & order & Hg & Hto & Ho)%compile_done; [|done..]. split.
  - destruct (topological_nodes _ _ _ Hto) as (listed & Hl & Hp). exists listed. split; [done|].
    intros i Hi. destruct (listed !! Z.to_nat i) as [n|] eqn:E.
    + destruct (Forall2_lookup_r _ _ _ _ _ Hl E) as (k & Hk & Hn).
      rewrite <- (Z2Nat.id i) by done. by eapply node_at_order.
    + apply lookup_ge_None in E. apply Permutation_length in Hp.
      unfold tm_sg_program_node_at. by replace (len (pg_nodes p) <=? i) with true by len_lia.
  - intros e (k & Hk)%list_elem_of_lookup.
    destruct (Forall2_lookup_l _ _ _ _ _ (gk_links _ _ _ _ Hg) Hk) as (l & Hl & Hlink).
    destruct Hlink as (a & b & (s & Hs & Is & _) & (t & Ht' & It & _) & _).
    pose proof Hto as (_ & _ & Hb).
    destruct (Hb l) as (i & j & Hi & Hj & ?); [by eapply list_elem_of_lookup_2|].
    exists (Z.of_nat i), (Z.of_nat j), s, t. split; [lia|].
    split; [by eapply node_at_order|]. split; [done|]. split; [by eapply node_at_order|done].
Qed.

(** C11: Programs are well typed: every edge joins an output port to an input
    port of the same kind and schema, with formats, memory domains and time bases
    that agree where both give one, on two different nodes; every input port is
    fed by exactly one edge and every output port by one to [max_fanout]. *)
Theorem sg_program_well_typed mem ns es limits diagnostic p :
  Forall node_typed ns -> 0 <= lm_max_fanout (default default_limits limits) ->
  tm_sg_compile mem (Some ns) (Some es) limits diagnostic = Done p ->
  (forall e, e ∈ pg_edges p -> exists s t a b,
    s ∈ pg_nodes p /\ t ∈ pg_nodes p /\ n_id s <> n_id t /\
    a ∈ n_ports s /\ b ∈ n_ports t /\ drains s a e /\ feeds t b e /\
    p_direction a = TM_SG_OUTPUT /\ p_direction b = TM_SG_INPUT /\ compatible a b) /\
  (forall n v, n ∈ pg_nodes p -> v ∈ n_ports n ->
    if decide (p_direction v = TM_SG_INPUT) then tally (feeds n v) (pg_edges p) = 1
    else 1 <= tally (drains n v) (pg_edges p) <= lm_max_fanout (default default_limits limits)).
Proof.
  intros Ht Hmf (_ & _ & Hw & ls & order & Hg & _)%compile_done; [|done..]. split.
  - intros e (k & Hk)%list_elem_of_lookup.
    destruct (Forall2_lookup_l _ _ _ _ _ (gk_links _ _ _ _ Hg) Hk) as (l & Hl & a & b & Ha & Hb & Hc & Hne).
    destruct Ha as (s & Hs & Is & Ha & Da & Na), Hb as (t & Ht' & It & Hb & Db & Nb).
    exists s, t, a, b. split; [by eapply list_elem_of_lookup_2|].
    split; [by eapply list_elem_of_lookup_2|].
    split; [intros E; apply Hne; by eapply node_unique|].
    split; [by eapply list_elem_of_lookup_2|]. split; [by eapply list_elem_of_lookup_2|]. done.
  - intros n v (i & Hi)%list_elem_of_lookup (j & Hj)%list_elem_of_lookup.
    pose proof (gk_connected _ _ _ _ Hg i n j v Hi Hj) as Hc.
    destruct (gk_fits _ _ _ _ Hg i j) as [H1 H2].
    rewrite (tally_feeds _ _ _ _ _ _ _ Hw (gk_links _ _ _ _ Hg) Hi Hj),
      (tally_drains _ _ _ _ _ _ _ Hw (gk_links _ _ _ _ Hg) Hi Hj). case_decide; lia.
Qed.

(** *** A graph *)

Section Demo.
Let port (name : Z) direction format : tm_sg_port_v1 :=
  Build_tm_sg_port_v1 SIZEOF_PORT 1 (Some [name]) direction TM_SG_VIDEO_FRAME format
    TM_SG_MEMORY_CPU 1 90000 0.
Let node (id kind : Z) ports : tm_sg_node_v1 :=
  Build_tm_sg_node_v1 SIZEOF_NODE 1 (Some [id]) kind (len ports) (Some ports).
Let edge (s sp t tp : Z) : tm_sg_edge_v1 :=
  Build_tm_sg_edge_v1 SIZEOF_EDGE 1 (Some [s]) (Some [sp]) (Some [t]) (Some [tp]).

(** A camera [c] feeds a scaler [p] whose output [o] goes to two sinks; the sinks
    come first in the description. *)
Definition demo_nodes : list tm_sg_node_v1 :=
  [node 115 TM_SG_SINK [port 105 TM_SG_INPUT 0];
   node 116 TM_SG_SINK [port 105 TM_SG_INPUT 7];
   node 112 TM_SG_PROCESSOR [port 105 TM_SG_INPUT 7; port 111 TM_SG_OUTPUT 7];
   node 99 TM_SG_SOURCE [port 111 TM_SG_OUTPUT 0]].
Definition demo_edges : list tm_sg_edge_v1 :=
  [edge 112 111 115 105; edge 112 111 116 105; edge 99 111 112 105].
End Demo.

Lemma counted_typed n ps :
  nd_ports n = Some ps -> nd_port_count n = len ps -> Forall port_typed ps -> node_typed n.
Proof.
  intros E Ec Hp. split; [rewrite Ec; apply len_nonneg|]. intros qs Eq. rewrite E in Eq.
  by injection Eq as <-.
Qed.

Lemma demo_typed : Forall node_typed demo_nodes.
Proof.
  repeat (apply List.Forall_cons; [eapply counted_typed; [reflexivity|reflexivity|]|]);
    [..|apply List.Forall_nil];
    repeat (apply List.Forall_cons; [unfold port_typed, is_u32; cbn; lia|]); apply List.Forall_nil.
Qed.

Definition demo_program : tm_sg_program :=
  Build_tm_sg_program (copy_node <$> demo_nodes) (copy_edge <$> demo_edges) [3; 2; 0; 1].

Lemma sg_compile_accepts_witness :
  compilable demo_nodes demo_edges default_limits.
Proof.
  apply (proj2 (sg_compile_accepts demo_nodes demo_edges None demo_typed ltac:(cbn; lia))).
  exists demo_program. vm_compute. reflexivity.
Defined.

Lemma sg_program_order_witness :
  tm_sg_compile mem_ok (Some demo_nodes) (Some demo_edges) None None = Done demo_program /\
  exists listed, listed ≡ₚ pg_nodes demo_program /\
    forall i, 0 <= i -> tm_sg_program_node_at demo_program i = Ok (listed !! Z.to_nat i).
Proof.
  split; [vm_compute; reflexivity|].
  apply (sg_program_order mem_ok demo_nodes demo_edges None None demo_program demo_typed);
    [cbn; lia|vm_compute; reflexivity].
Defined.

(** The scaler and its output. *)
Definition demo_output : sg_port := Build_sg_port [111] TM_SG_OUTPUT TM_SG_VIDEO_FRAME 7 TM_SG_MEMORY_CPU 1 90000 0.
Definition demo_scaler : sg_node :=
  Build_sg_node [112] TM_SG_PROCESSOR
    [Build_sg_port [105] TM_SG_INPUT TM_SG_VIDEO_FRAME 7 TM_SG_MEMORY_CPU 1 90000 0; demo_output].

Lemma sg_program_well_typed_witness :
  tm_sg_compile mem_ok (Some demo_nodes) (Some demo_edges) None None = Done demo_program /\
  1 <= tally (drains demo_scaler demo_output) (pg_edges demo_program) <= 8.
Proof.
  split; [vm_compute; reflexivity|].
  apply (proj2 (sg_program_well_typed mem_ok demo_nodes demo_edges None None demo_program demo_typed
    ltac:(cbn; lia) ltac:(vm_compute; reflexivity)) demo_scaler demo_output).
  - apply (list_elem_of_lookup_2 _ 2%nat). reflexivity.
  - apply (list_elem_of_lookup_2 _ 1%nat). reflexivity.
Defined.
