(* ===== verification/Handoff.v ===== *)
(** * The command inbox

    streamgraph/src/turbo_streamgraph_handoff.c: producer threads reserve a row,
    publish a command in it or abort, and the owner takes the commands and settles
    them.  The spin lock makes every operation one step.  Handles and out
    parameters are not [NULL]; the rows are the array of [capacity] elements. *)

From stdpp Require Import list gmap sorting.
From S2P Require Import Prelude Tickets FrameStore.

(* ------------------------------------------------------------------ *)
(** ** Data *)

Definition TM_HO_ABI_V1 : Z := 1.
Definition TM_HO_MAX_CAPACITY : Z := 1024.
Definition SIZEOF_HO_COMMAND : Z := 88.
Definition SIZEOF_HO_CONFIG : Z := 16.
Definition SIZEOF_HO_SNAPSHOT : Z := 32.

Inductive tm_ho_status : Type :=
  | TM_HO_OK | TM_HO_EINVAL | TM_HO_EVERSION | TM_HO_ENOMEM | TM_HO_EFULL
  | TM_HO_ESTALE | TM_HO_EBUSY | TM_HO_ESHUTDOWN | TM_HO_EEXHAUSTED.

Definition TM_HO_PUMP_SOURCE : Z := 1.
Definition TM_HO_PUMP_SINK : Z := 2.
Definition TM_HO_STOP : Z := 3.
Definition TM_HO_FRAME_NOTICE : Z := 4.

Record tm_ho_command_v1 := {
  cm_size : Z;
  cm_version : Z;
  cm_kind : Z;
  cm_branch : Z;
  cm_correlation : Z;
  cm_has_frame : Z;
  cm_reserved : Z;
  cm_frame : tm_fs_frame_ref_v1;
}.

Definition zero_command : tm_ho_command_v1 := Build_tm_ho_command_v1 0 0 0 0 0 0 0 zero_ref.

Record tm_ho_config_v1 := {
  hc_size : Z;
  hc_version : Z;
  hc_capacity : Z;
  hc_reserved : Z;
}.

Inductive ho_row_state : Type := HO_FREE | HO_RESERVED | HO_READY | HO_TAKEN.

#[export] Instance ho_row_state_eq_dec : EqDecision ho_row_state.
Proof. solve_decision. Defined.

Record ho_row := {
  hr_generation : Z;
  hr_state : ho_row_state;
  hr_order : Z;
  hr_command : tm_ho_command_v1;
}.

Definition ho_zero_row : ho_row := Build_ho_row 0 HO_FREE 0 zero_command.

#[export] Instance ho_row_Row : Row ho_row := {|
  row_busy r := negb (bool_decide (hr_state r = HO_FREE));
  row_generation := hr_generation;
  row_order r := if bool_decide (hr_state r = HO_READY) then Some (hr_order r) else None;
|}.

Record tm_ho_inbox := {
  hq_incarnation : Z;
  hq_next_order : Z;
  hq_sealed : bool;
  hq_rows : list ho_row;
}.

Record tm_ho_snapshot_v1 := {
  hs_size : Z;
  hs_version : Z;
  hs_capacity : Z;
  hs_reserved : Z;
  hs_ready : Z;
  hs_taken : Z;
  hs_sealed : bool;
  hs_drained : bool;
}.

(* ------------------------------------------------------------------ *)
(** ** Operations *)

Definition ho_find (q : tm_ho_inbox) (t : ticket) : option ho_row :=
  row_find (hq_incarnation q) (hq_rows q) t.

(** [q->rows[slot] = r]. *)
Definition ho_put (q : tm_ho_inbox) (slot : nat) (r : ho_row) : tm_ho_inbox :=
  Build_tm_ho_inbox (hq_incarnation q) (hq_next_order q) (hq_sealed q)
    (<[slot := r]> (hq_rows q)).

Definition ho_valid_command (c : tm_ho_command_v1) : bool :=
  if negb (cm_size c =? SIZEOF_HO_COMMAND) || negb (cm_version c =? TM_HO_ABI_V1) ||
     negb (cm_reserved c =? 0) || (cm_kind c <? TM_HO_PUMP_SOURCE) ||
     (TM_HO_FRAME_NOTICE <? cm_kind c) || (1 <? cm_has_frame c) then false
  else if cm_kind c =? TM_HO_PUMP_SINK then (cm_has_frame c =? 0) && (cm_branch c <? 8)
  else if cm_kind c =? TM_HO_FRAME_NOTICE then
    let f := cm_frame c in
    (cm_branch c =? 0) && (cm_has_frame c =? 1) &&
    (rf_size f =? SIZEOF_FRAME_REF) && (rf_version f =? TM_FS_ABI_V1) &&
    negb (rf_store_id f =? 0) && negb (rf_store_generation f =? 0) &&
    negb (rf_frame_id f =? 0) && negb (rf_slot_generation f =? 0) &&
    negb (rf_session f =? 0) && negb (rf_display f =? 0)
  else (cm_branch c =? 0) && (cm_has_frame c =? 0).

(** The global incarnation counter, before and after, and the inbox; [mem] are
    the outcomes of the two allocations. *)
Definition tm_ho_create (ho_incarnation : Z) (cfg : option tm_ho_config_v1) (mem : bool * bool)
    : Z * tm_ho_status * option tm_ho_inbox :=
  let? cfg := cfg else (ho_incarnation, TM_HO_EINVAL, None) in
  if negb (hc_version cfg =? TM_HO_ABI_V1) then (ho_incarnation, TM_HO_EVERSION, None)
  else if negb (hc_size cfg =? SIZEOF_HO_CONFIG) || truth (hc_reserved cfg) ||
          (hc_capacity cfg =? 0) || (TM_HO_MAX_CAPACITY <? hc_capacity cfg) then
    (ho_incarnation, TM_HO_EINVAL, None)
  else
    let next := u64 (ho_incarnation + 1) in
    if (ho_incarnation =? 0) || (ho_incarnation =? U64_MAX) then (next, TM_HO_EEXHAUSTED, None)
    else if negb mem.1 then (next, TM_HO_ENOMEM, None)
    else if negb mem.2 then (next, TM_HO_ENOMEM, None)
    else (next, TM_HO_OK,
          Some (Build_tm_ho_inbox ho_incarnation 1 false
                  (replicate (Z.to_nat (hc_capacity cfg)) ho_zero_row))).

Definition tm_ho_reserve (q : tm_ho_inbox) : tm_ho_inbox * tm_ho_status * ticket :=
  if hq_sealed q then (q, TM_HO_ESHUTDOWN, no_ticket)
  else
    match row_free (hq_rows q) with
    | Some (i, r) =>
        let r := Build_ho_row (u32 (hr_generation r + 1)) HO_RESERVED (hr_order r) (hr_command r) in
        (ho_put q i r, TM_HO_OK, ticket_of (hq_incarnation q) i r)
    | None => (q, TM_HO_EFULL, no_ticket)
    end.

Definition tm_ho_publish (q : tm_ho_inbox) (t : ticket) (command : option tm_ho_command_v1)
    : tm_ho_inbox * tm_ho_status :=
  let? command := command else (q, TM_HO_EINVAL) in
  if negb (ho_valid_command command) then (q, TM_HO_EINVAL)
  else
    let? r := ho_find q t else (q, TM_HO_ESTALE) in
    if negb (bool_decide (hr_state r = HO_RESERVED)) then (q, TM_HO_EBUSY)
    else if hq_sealed q then (q, TM_HO_ESHUTDOWN)
    else if hq_next_order q =? U64_MAX then (q, TM_HO_EEXHAUSTED)
    else
      let q := ho_put q (Z.to_nat (tk_slot t))
                 (Build_ho_row (hr_generation r) HO_READY (hq_next_order q) command) in
      (Build_tm_ho_inbox (hq_incarnation q) (u64 (hq_next_order q + 1)) (hq_sealed q) (hq_rows q),
       TM_HO_OK).

(** The end of [tm_ho_abort] and of [tm_ho_settle]. *)
Definition ho_release (q : tm_ho_inbox) (t : ticket) (r : ho_row) : tm_ho_inbox :=
  ho_put q (Z.to_nat (tk_slot t)) (Build_ho_row (hr_generation r) HO_FREE 0 zero_command).

Definition tm_ho_abort (q : tm_ho_inbox) (t : ticket) : tm_ho_inbox * tm_ho_status :=
  let? r := ho_find q t else (q, TM_HO_ESTALE) in
  if negb (bool_decide (hr_state r = HO_RESERVED)) then (q, TM_HO_EBUSY)
  else (ho_release q t r, TM_HO_OK).

Definition tm_ho_take (q : tm_ho_inbox)
    : tm_ho_inbox * tm_ho_status * ticket * tm_ho_command_v1 :=
  match row_oldest 0 None U64_MAX (hq_rows q) with
  | None => (q, TM_HO_EBUSY, no_ticket, zero_command)
  | Some slot =>
      match hq_rows q !! slot with
      | None => (q, TM_HO_EBUSY, no_ticket, zero_command)
      | Some r =>
          (ho_put q slot (Build_ho_row (hr_generation r) HO_TAKEN (hr_order r) (hr_command r)),
           TM_HO_OK, ticket_of (hq_incarnation q) slot r, hr_command r)
      end
  end.

Definition tm_ho_settle (q : tm_ho_inbox) (t : ticket) : tm_ho_inbox * tm_ho_status :=
  let? r := ho_find q t else (q, TM_HO_ESTALE) in
  if negb (bool_decide (hr_state r = HO_TAKEN)) then (q, TM_HO_EBUSY)
  else (ho_release q t r, TM_HO_OK).

Definition tm_ho_seal (q : tm_ho_inbox) : tm_ho_inbox * tm_ho_status :=
  (Build_tm_ho_inbox (hq_incarnation q) (hq_next_order q) true (hq_rows q), TM_HO_OK).

Definition ho_count (state : ho_row_state) (rows : list ho_row) : Z :=
  len (filter (fun r => hr_state r = state) rows).

(** [out] is the size and the version of the structure that is passed. *)
Definition tm_ho_snapshot (q : tm_ho_inbox) (out : Z * Z)
    : tm_ho_status * option tm_ho_snapshot_v1 :=
  if negb (out.2 =? TM_HO_ABI_V1) then (TM_HO_EVERSION, None)
  else if negb (out.1 =? SIZEOF_HO_SNAPSHOT) then (TM_HO_EINVAL, None)
  else
    let reserved := ho_count HO_RESERVED (hq_rows q) in
    let ready := ho_count HO_READY (hq_rows q) in
    let taken := ho_count HO_TAKEN (hq_rows q) in
    (TM_HO_OK, Some {| hs_size := out.1; hs_version := out.2; hs_capacity := len (hq_rows q);
       hs_reserved := reserved; hs_ready := ready; hs_taken := taken;
       hs_sealed := hq_sealed q;
       hs_drained := (reserved =? 0) && (ready =? 0) && (taken =? 0) |}).

(** Whether the inbox was freed. *)
Definition tm_ho_destroy (q : tm_ho_inbox) : tm_ho_status :=
  if negb (hq_sealed q) then TM_HO_EBUSY
  else if existsb (fun r => negb (bool_decide (hr_state r = HO_FREE))) (hq_rows q)
       then TM_HO_EBUSY
  else TM_HO_OK.

(* ------------------------------------------------------------------ *)
(** ** Histories *)

Inductive ho_op : Type :=
  | HoReserve
  | HoPublish (t : ticket) (command : option tm_ho_command_v1)
  | HoAbort (t : ticket)
  | HoTake
  | HoSettle (t : ticket)
  | HoSeal.

Definition ho_reply : Type := tm_ho_status * ticket * tm_ho_command_v1.

Definition ho_step (q : tm_ho_inbox) (op : ho_op) : tm_ho_inbox * ho_reply :=
  let plain '(q, rc) := (q, (rc, no_ticket, zero_command)) in
  match op with
  | HoReserve => let '(q, rc, t) := tm_ho_reserve q in (q, (rc, t, zero_command))
  | HoPublish t command => plain (tm_ho_publish q t command)
  | HoAbort t => plain (tm_ho_abort q t)
  | HoTake => let '(q, rc, t, c) := tm_ho_take q in (q, (rc, t, c))
  | HoSettle t => plain (tm_ho_settle q t)
  | HoSeal => plain (tm_ho_seal q)
  end.

Fixpoint ho_run (q : tm_ho_inbox) (ops : list ho_op) : tm_ho_inbox * list ho_reply :=
  match ops with
  | [] => (q, [])
  | op :: ops =>
      let '(q, reply) := ho_step q op in
      let '(q, replies) := ho_run q ops in (q, reply :: replies)
  end.

(** Tickets have an unsigned slot index. *)
Definition ho_op_ok (op : ho_op) : Prop :=
  match op with
  | HoPublish t _ | HoAbort t | HoSettle t => 0 <= tk_slot t
  | _ => True
  end.

(* ------------------------------------------------------------------ *)
(** ** The mailbox

    What the inbox promises: tickets are issued at most once and pass through
    three stages, and published commands wait in one queue. *)

Inductive stage : Type := Writing | Queued | Taken.

#[export] Instance stage_eq_dec : EqDecision stage.
Proof. solve_decision. Defined.

Record mailbox := {
  mb_issued : gset ticket;
  mb_stage : gmap ticket stage;
  mb_queue : list (ticket * tm_ho_command_v1);
  mb_published : Z;
  mb_sealed : bool;
}.

Definition empty_mailbox : mailbox := Build_mailbox ∅ ∅ [] 0 false.

Definition issue (m : mailbox) (t : ticket) : mailbox :=
  Build_mailbox ({[t]} ∪ mb_issued m) (<[t := Writing]> (mb_stage m)) (mb_queue m)
    (mb_published m) (mb_sealed m).

Definition enqueue (m : mailbox) (t : ticket) (c : tm_ho_command_v1) : mailbox :=
  Build_mailbox (mb_issued m) (<[t := Queued]> (mb_stage m)) (mb_queue m ++ [(t, c)])
    (mb_published m + 1) (mb_sealed m).

Definition dequeue (m : mailbox) (t : ticket) (queue : list (ticket * tm_ho_command_v1)) : mailbox :=
  Build_mailbox (mb_issued m) (<[t := Taken]> (mb_stage m)) queue (mb_published m) (mb_sealed m).

Definition forget (m : mailbox) (t : ticket) : mailbox :=
  Build_mailbox (mb_issued m) (delete t (mb_stage m)) (mb_queue m) (mb_published m) (mb_sealed m).

Definition close (m : mailbox) : mailbox :=
  Build_mailbox (mb_issued m) (mb_stage m) (mb_queue m) (mb_published m) true.

Definition publish_status (m : mailbox) (t : ticket) (command : option tm_ho_command_v1)
    : tm_ho_status :=
  match command with
  | None => TM_HO_EINVAL
  | Some c =>
      if negb (ho_valid_command c) then TM_HO_EINVAL
      else
        match mb_stage m !! t with
        | None => TM_HO_ESTALE
        | Some Writing =>
            if mb_sealed m then TM_HO_ESHUTDOWN
            else if mb_published m + 1 =? U64_MAX then TM_HO_EEXHAUSTED else TM_HO_OK
        | Some _ => TM_HO_EBUSY
        end
  end.

Definition forget_status (m : mailbox) (s : stage) (t : ticket) : tm_ho_status :=
  match mb_stage m !! t with
  | None => TM_HO_ESTALE
  | Some s' => if decide (s' = s) then TM_HO_OK else TM_HO_EBUSY
  end.

Section Mailbox.
Context (capacity incarnation : Z).

(** [mailbox_step m op reply m']: the reply to [op] in [m], and what [m] becomes. *)
Definition mailbox_step (m : mailbox) (op : ho_op) (reply : ho_reply) (m' : mailbox) : Prop :=
  let '(rc, t', c') := reply in
  match op with
  | HoReserve =>
      if mb_sealed m then rc = TM_HO_ESHUTDOWN /\ m' = m
      else (rc = TM_HO_OK /\ t' ∉ mb_issued m /\ m' = issue m t') \/
           (rc = TM_HO_EFULL /\
            used_up capacity incarnation (mb_issued m) (mb_stage m) /\ m' = m)
  | HoPublish t command =>
      rc = publish_status m t command /\
      m' = match command, rc with Some c, TM_HO_OK => enqueue m t c | _, _ => m end
  | HoAbort t =>
      rc = forget_status m Writing t /\ m' = match rc with TM_HO_OK => forget m t | _ => m end
  | HoTake =>
      match mb_queue m with
      | [] => rc = TM_HO_EBUSY /\ m' = m
      | (t, c) :: queue => rc = TM_HO_OK /\ t' = t /\ c' = c /\ m' = dequeue m t queue
      end
  | HoSettle t =>
      rc = forget_status m Taken t /\ m' = match rc with TM_HO_OK => forget m t | _ => m end
  | HoSeal => rc = TM_HO_OK /\ m' = close m
  end.

Inductive mailbox_run : mailbox -> list ho_op -> list ho_reply -> mailbox -> Prop :=
  | mailbox_run_nil m : mailbox_run m [] [] m
  | mailbox_run_cons m op reply m1 ops replies m2 :
      mailbox_step m op reply m1 -> mailbox_run m1 ops replies m2 ->
      mailbox_run m (op :: ops) (reply :: replies) m2.
End Mailbox.

(* ------------------------------------------------------------------ *)
(** ** The abstraction *)

Definition stage_of (r : ho_row) : option stage :=
  match hr_state r with
  | HO_FREE => None
  | HO_RESERVED => Some Writing
  | HO_READY => Some Queued
  | HO_TAKEN => Some Taken
  end.

Record inbox_is (q : tm_ho_inbox) (m : mailbox) : Prop := {
  ii_sealed : mb_sealed m = hq_sealed q;
  ii_next : hq_next_order q = mb_published m + 1;
  ii_published : 0 <= mb_published m < U64_MAX;
  ii_rows : generations_ok (hq_rows q);
  ii_issued : issues (hq_incarnation q) (hq_rows q) (mb_issued m);
  ii_stage : tracks stage_of (hq_incarnation q) (hq_rows q) (mb_stage m);
  ii_queue : queue_is hr_command (hq_incarnation q) (hq_rows q) (hq_next_order q) (mb_queue m);
}.

Lemma busy_spec (r : ho_row) : row_busy r = true <-> hr_state r <> HO_FREE.
Proof. cbn. rewrite negb_true_iff. apply bool_decide_eq_false. Qed.

Lemma not_ready (r : ho_row) : hr_state r <> HO_READY -> row_order r = None.
Proof. intros H. cbn. by rewrite bool_decide_false. Qed.

Lemma stage_busy (r : ho_row) : row_busy r = true <-> is_Some (stage_of r).
Proof. unfold stage_of. cbn. destruct (hr_state r); cbn; split; try done; by intros []. Qed.

(** Changing the state of a row in use. *)
Lemma inbox_put q m i r r' m' q' :
  inbox_is q m -> hq_rows q !! i = Some r -> hr_state r <> HO_FREE ->
  hr_generation r' = hr_generation r ->
  q' = Build_tm_ho_inbox (hq_incarnation q) (mb_published m' + 1) (hq_sealed q)
         (<[i := r']> (hq_rows q)) ->
  mb_issued m' = mb_issued m -> mb_sealed m' = mb_sealed m ->
  0 <= mb_published m' < U64_MAX ->
  (forall t, mb_stage m' !! t = if decide (t = ticket_of (hq_incarnation q) i r)
    then stage_of r' else mb_stage m !! t) ->
  queue_is hr_command (hq_incarnation q) (<[i := r']> (hq_rows q)) (mb_published m' + 1) (mb_queue m') ->
  inbox_is q' m'.
Proof.
  intros [] Hi Hb%busy_spec Eg -> Eis Ese Hp Hst Hq.
  destruct (Forall_lookup_1 _ _ _ _ ii_rows0 Hi) as [Hg1 Hg2]. specialize (Hg2 Hb). cbn in Hg1, Hg2.
  split; cbn; try done.
  - congruence.
  - apply Forall_insert; [done|]. cbn. rewrite Eg. split; [done|lia].
  - rewrite Eis. by apply (issues_put _ _ _ r).
  - apply (tracks_put stage_of stage_busy _ _ _ r r' (mb_stage m)); [done|cbn; lia|by left|done|].
    intros t. rewrite Hst. unfold ticket_of. cbn. by rewrite Eg.
Qed.

(** A ticket and its row. *)
Lemma ho_find_spec q m t :
  inbox_is q m -> 0 <= tk_slot t ->
  match ho_find q t with
  | None => mb_stage m !! t = None
  | Some r => exists s, mb_stage m !! t = Some s /\ stage_of r = Some s /\
      hq_rows q !! Z.to_nat (tk_slot t) = Some r /\
      t = ticket_of (hq_incarnation q) (Z.to_nat (tk_slot t)) r
  end.
Proof. intros Hq Ht. by apply (find_tracked stage_of stage_busy); [apply Hq|]. Qed.

Definition forgotten (m : mailbox) (t : ticket) : Prop :=
  forall t', mb_stage (forget m t) !! t' = if decide (t' = t) then None else mb_stage m !! t'.

Lemma forget_stage m t : forgotten m t.
Proof.
  intros t'. cbn. case_decide as E; [subst; apply lookup_delete_eq|]. by rewrite lookup_delete_ne.
Qed.

Lemma release_is q m t r :
  inbox_is q m -> hq_rows q !! Z.to_nat (tk_slot t) = Some r ->
  t = ticket_of (hq_incarnation q) (Z.to_nat (tk_slot t)) r ->
  hr_state r = HO_RESERVED \/ hr_state r = HO_TAKEN ->
  inbox_is (ho_release q t r) (forget m t).
Proof.
  intros Hq Hi Et Hs.
  eapply (inbox_put q m _ r (Build_ho_row (hr_generation r) HO_FREE 0 zero_command));
    [done|exact Hi| | | | | | | |].
  - by destruct Hs as [-> | ->].
  - done.
  - unfold ho_release, ho_put. cbn. by rewrite (ii_next _ _ Hq).
  - done.
  - done.
  - apply Hq.
  - intros t'. rewrite forget_stage, <- Et. done.
  - cbn. rewrite <- (ii_next _ _ Hq). eapply queue_is_frame; [exact Hi| |done|apply Hq].
    apply not_ready. by destruct Hs as [-> | ->].
Qed.

(** [tm_ho_abort] and [tm_ho_settle]. *)
Lemma release_step q m t state s :
  inbox_is q m -> 0 <= tk_slot t ->
  (state = HO_RESERVED /\ s = Writing) \/ (state = HO_TAKEN /\ s = Taken) ->
  let result := match ho_find q t with
                | Some r => if negb (bool_decide (hr_state r = state)) then (q, TM_HO_EBUSY)
                            else (ho_release q t r, TM_HO_OK)
                | None => (q, TM_HO_ESTALE)
                end in
  result.2 = forget_status m s t /\
  inbox_is result.1 (match result.2 with TM_HO_OK => forget m t | _ => m end).
Proof.
  intros Hq Ht Hs. pose proof (ho_find_spec q m t Hq Ht) as Hf. unfold forget_status.
  destruct (ho_find q t) as [r|]; cbn; [|by rewrite Hf].
  destruct Hf as (s' & -> & Es' & Hi & Et). unfold stage_of in Es'. case_bool_decide as E; cbn.
  - rewrite E in Es'. rewrite decide_True by (destruct Hs as [[-> ->]|[-> ->]]; by simplify_eq).
    split; [done|]. apply release_is; [done..|]. rewrite E. naive_solver.
  - rewrite decide_False; [done|]. intros ->. apply E.
    destruct Hs as [[-> ->]|[-> ->]]; by destruct (hr_state r).
Qed.

Lemma reserve_step q m q' rc t :
  inbox_is q m -> mb_sealed m = false -> tm_ho_reserve q = (q', rc, t) ->
  (rc = TM_HO_OK /\ t ∉ mb_issued m /\ inbox_is q' (issue m t)) \/
  (rc = TM_HO_EFULL /\ used_up (len (hq_rows q)) (hq_incarnation q) (mb_issued m) (mb_stage m) /\
   q' = q).
Proof.
  intros Hq Hs. unfold tm_ho_reserve. rewrite <- (ii_sealed _ _ Hq), Hs.
  destruct (row_free (hq_rows q)) as [[i r]|] eqn:Ef; intros [= <- <- <-].
  2: { right. split; [done|]. split; [|done]. by apply (row_free_used_up stage_of stage_busy); [apply Hq..|]. }
  left. split; [done|]. apply row_free_Some in Ef as (Hi & Hb & Hg). cbn in Hg.
  assert (Hfree : hr_state r = HO_FREE) by by apply negb_false_iff, bool_decide_eq_true in Hb.
  pose proof (Forall_lookup_1 _ _ _ _ (ii_rows _ _ Hq) Hi) as [Hgr _]. cbn in Hgr.
  unfold U32_MAX in *. rewrite u32_id by (unfold is_u32; lia).
  set (r' := Build_ho_row (hr_generation r + 1) HO_RESERVED (hr_order r) (hr_command r)).
  destruct Hq. destruct (issues_issue (hq_incarnation q) (hq_rows q) i r r' (mb_issued m)) as [Hf His];
    [done|cbn; lia|done|done|].
  split; [done|]. split; cbn; try done.
  - apply Forall_insert; [done|]. unfold U32_MAX. cbn. split; [lia|intros _; lia].
  - apply (tracks_put stage_of stage_busy _ _ _ r r' (mb_stage m)); [done|cbn; lia|by right|done|].
    intros t. case_decide as E; [subst t; apply lookup_insert_eq|]. by rewrite lookup_insert_ne.
  - eapply queue_is_frame; [exact Hi|apply not_ready; by rewrite Hfree|done|done].
Qed.

Lemma publish_step q m q' rc t command :
  inbox_is q m -> 0 <= tk_slot t -> tm_ho_publish q t command = (q', rc) ->
  rc = publish_status m t command /\
  inbox_is q' (match command, rc with Some c, TM_HO_OK => enqueue m t c | _, _ => m end).
Proof.
  intros Hq Ht. unfold tm_ho_publish, publish_status.
  destruct command as [c|]; [|by intros [= <- <-]].
  destruct (negb (ho_valid_command c)); [by intros [= <- <-]|].
  pose proof (ho_find_spec q m t Hq Ht) as Hf. destruct (ho_find q t) as [r|]; cbn in Hf.
  2: { rewrite Hf. by intros [= <- <-]. }
  destruct Hf as (s & -> & Es & Hi & Et). unfold stage_of in Es. case_bool_decide as E; cbn.
  2: { intros [= <- <-]. by destruct s; [destruct (hr_state r)|..]. }
  rewrite E in Es. injection Es as <-. rewrite <- (ii_sealed _ _ Hq), <- (ii_next _ _ Hq).
  destruct (mb_sealed m) eqn:Ese; [by intros [= <- <-]|].
  destruct (hq_next_order q =? U64_MAX) eqn:Eo; [by intros [= <- <-]|]. intros [= <- <-].
  split; [done|]. pose proof (ii_published _ _ Hq) as Hp. rewrite (ii_next _ _ Hq) in *.
  pose proof (Forall_lookup_1 _ _ _ _ (ii_rows _ _ Hq) Hi) as [Hg1 Hg2].
  specialize (Hg2 ltac:(apply busy_spec; by rewrite E)). cbn in Hg2.
  eapply (inbox_put q m _ r (Build_ho_row (hr_generation r) HO_READY (mb_published m + 1) c));
    [done|exact Hi| | | | | | | |]; cbn; try done.
  - by rewrite E.
  - rewrite u64_id by (unfold is_u64, U64_MAX in *; lia). rewrite <- Ese, (ii_sealed _ _ Hq). done.
  - unfold U64_MAX in *. lia.
  - intros t'. rewrite <- Et. cbn.
    case_decide as E'; [subst t'; apply lookup_insert_eq|]. by rewrite lookup_insert_ne.
  - cbn. eapply (queue_is_publish hr_command _ _ _ _ _ r
      (Build_ho_row (hr_generation r) HO_READY (mb_published m + 1) c));
      [exact Hi|apply not_ready; by rewrite E|done|done|cbn; lia|done|].
    rewrite <- (ii_next _ _ Hq). apply Hq.
Qed.

Lemma take_step q m q' rc t c :
  inbox_is q m -> tm_ho_take q = (q', rc, t, c) ->
  match mb_queue m with
  | [] => rc = TM_HO_EBUSY /\ q' = q
  | (t0, c0) :: queue => rc = TM_HO_OK /\ t = t0 /\ c = c0 /\ inbox_is q' (dequeue m t0 queue)
  end.
Proof.
  intros Hq. unfold tm_ho_take. pose proof (ii_published _ _ Hq) as Hp.
  assert (Hn : hq_next_order q <= U64_MAX) by (rewrite (ii_next _ _ Hq); lia).
  pose proof (queue_is_oldest hr_command _ _ _ _ _ Hn (ii_queue _ _ Hq)) as Ho.
  destruct (row_oldest 0 None U64_MAX (hq_rows q)) as [i|].
  - destruct Ho as (r & queue & Hi & Hr & Hg & -> & Hrest). rewrite Hi. intros [= <- <- <- <-].
    assert (Hready : hr_state r = HO_READY).
    { destruct Hr as [o Hr]. cbn in Hr. by case_bool_decide. }
    split; [done|]. split; [done|]. split; [done|].
    eapply (inbox_put q m _ r (Build_ho_row (hr_generation r) HO_TAKEN (hr_order r) (hr_command r)));
      [done|exact Hi| | | | | | | |]; cbn; try done.
    + by rewrite Hready.
    + unfold ho_put. by rewrite (ii_next _ _ Hq).
    + intros t'. cbn. case_decide as E; [subst t'; apply lookup_insert_eq|]. by rewrite lookup_insert_ne.
    + rewrite <- (ii_next _ _ Hq). by apply Hrest.
  - rewrite Ho. by intros [= <- <- _ _].
Qed.

(** Every step is a step of the mailbox. *)
Lemma ho_step_refines q m op q' reply :
  inbox_is q m -> ho_op_ok op -> ho_step q op = (q', reply) ->
  exists m', mailbox_step (len (hq_rows q)) (hq_incarnation q) m op reply m' /\ inbox_is q' m'.
Proof.
  intros Hq Hop. destruct op as [|t command|t| |t|]; cbn [ho_step].
  - destruct (tm_ho_reserve q) as [[q1 rc] t] eqn:E. intros [= <- <-]. cbn [mailbox_step].
    destruct (mb_sealed m) eqn:Es.
    + unfold tm_ho_reserve in E. rewrite <- (ii_sealed _ _ Hq), Es in E. simplify_eq. by exists m.
    + destruct (reserve_step q m q1 rc t Hq Es E) as [(-> & Hf & H)|(-> & Hf & ->)];
        [exists (issue m t)|exists m]; (split; [|done]); [by left|by right].
  - destruct (tm_ho_publish q t command) as [q1 rc] eqn:E. intros [= <- <-].
    apply (publish_step q m) in E as [Hrc H]; [|done..]. by eexists.
  - destruct (tm_ho_abort q t) as [q1 rc] eqn:E. intros [= <- <-].
    pose proof (release_step q m t HO_RESERVED Writing Hq Hop ltac:(by left)) as H.
    fold (tm_ho_abort q t) in H. rewrite E in H. destruct H as [Hrc H]. by eexists.
  - destruct (tm_ho_take q) as [[[q1 rc] t] c] eqn:E. intros [= <- <-].
    apply (take_step q m) in E; [|done]. cbn [mailbox_step].
    destruct (mb_queue m) as [|[t0 c0] queue]; [|naive_solver]. destruct E as [-> ->]. by exists m.
  - destruct (tm_ho_settle q t) as [q1 rc] eqn:E. intros [= <- <-].
    pose proof (release_step q m t HO_TAKEN Taken Hq Hop ltac:(by right)) as H.
    fold (tm_ho_settle q t) in H. rewrite E in H. destruct H as [Hrc H]. by eexists.
  - intros [= <- <-]. exists (close m). split; [done|]. by destruct Hq.
Qed.

Lemma ho_step_same q op q' reply :
  ho_step q op = (q', reply) ->
  len (hq_rows q') = len (hq_rows q) /\ hq_incarnation q' = hq_incarnation q.
Proof.
  intros E. destruct op; cbn [ho_step] in E;
    unfold tm_ho_reserve, tm_ho_publish, tm_ho_abort, tm_ho_take, tm_ho_settle, tm_ho_seal,
      ho_release in E;
    repeat case_match; simplify_eq; cbn; by rewrite ?len_insert.
Qed.

Lemma mailbox_run_of q m ops :
  inbox_is q m -> Forall ho_op_ok ops ->
  exists m', mailbox_run (len (hq_rows q)) (hq_incarnation q) m ops (ho_run q ops).2 m' /\
             inbox_is (ho_run q ops).1 m'.
Proof.
  intros Hq Hops. revert q m Hq. induction Hops as [|op ops Hop _ IH]; intros q m Hq; cbn [ho_run].
  { exists m. split; [constructor|done]. }
  destruct (ho_step q op) as [q1 reply] eqn:E.
  destruct (ho_step_refines q m op q1 reply Hq Hop E) as (m1 & Hstep & H1).
  destruct (IH q1 m1 H1) as (m2 & Hrun & H2). destruct (ho_step_same _ _ _ _ E) as [-> ->] in Hrun.
  destruct (ho_run q1 ops) as [q2 replies]. exists m2. split; [by econstructor|done].
Qed.

Lemma create_is counter cfg mem next q :
  tm_ho_create counter (Some cfg) mem = (next, TM_HO_OK, Some q) -> 0 <= hc_capacity cfg ->
  inbox_is q empty_mailbox /\ len (hq_rows q) = hc_capacity cfg /\ hq_incarnation q = counter.
Proof.
  unfold tm_ho_create. intros E Hc. repeat case_match; simplify_eq. cbn.
  split; [|split; [rewrite len_replicate; lia|done]].
  destruct (fresh_table stage_of counter (Z.to_nat (hc_capacity cfg)) ho_zero_row)
    as (G1 & G2 & G3); [done..|].
  split; cbn; try done. apply queue_is_nil. by intros i r [-> _]%lookup_replicate.
Qed.

Lemma destroy_spec q m :
  inbox_is q m -> tm_ho_destroy q = TM_HO_OK <-> mb_sealed m = true /\ mb_stage m = ∅.
Proof.
  intros Hq. unfold tm_ho_destroy. rewrite <- (ii_sealed _ _ Hq).
  rewrite (tracks_empty stage_of stage_busy _ _ _ (ii_rows _ _ Hq) (ii_stage _ _ Hq)). cbn.
  destruct (mb_sealed m); cbn [negb]; [|by split; [|intros []]].
  destruct (existsb _ _); by split; [|intros []].
Qed.

(** *** Commands in order *)

(** The commands that were accepted and those that were delivered. *)
Fixpoint ho_published (ops : list ho_op) (replies : list ho_reply)
    : list (ticket * tm_ho_command_v1) :=
  match ops, replies with
  | HoPublish t (Some c) :: ops, (TM_HO_OK, _, _) :: replies => (t, c) :: ho_published ops replies
  | _ :: ops, _ :: replies => ho_published ops replies
  | _, _ => []
  end.

Fixpoint ho_taken (ops : list ho_op) (replies : list ho_reply)
    : list (ticket * tm_ho_command_v1) :=
  match ops, replies with
  | HoTake :: ops, (TM_HO_OK, t, c) :: replies => (t, c) :: ho_taken ops replies
  | _ :: ops, _ :: replies => ho_taken ops replies
  | _, _ => []
  end.

(** What holds of the tickets published so far. *)
Record past (m : mailbox) (done : list (ticket * tm_ho_command_v1)) : Prop := {
  pa_issued : forall t s, mb_stage m !! t = Some s -> t ∈ mb_issued m;
  pa_done : forall t, t ∈ done.*1 -> t ∈ mb_issued m /\ mb_stage m !! t <> Some Writing;
  pa_queue : forall t, t ∈ (mb_queue m).*1 -> t ∈ mb_issued m;
  pa_once : NoDup done.*1;
}.

Lemma ho_publish_ok m t c :
  publish_status m t (Some c) = TM_HO_OK -> mb_stage m !! t = Some Writing.
Proof. unfold publish_status. repeat case_match; naive_solver. Qed.

Lemma past_update m m' done :
  past m done -> mb_issued m ⊆ mb_issued m' -> (mb_queue m').*1 ⊆ (mb_queue m).*1 ->
  (forall t s, mb_stage m' !! t = Some s -> t ∈ mb_issued m' /\
     (s = Writing -> mb_stage m !! t = Some Writing \/ t ∉ mb_issued m)) ->
  past m' done.
Proof.
  intros [H1 H2 H3 H4] Hsub Hq Hst. split; [|intros t Ht|intros t Ht|done].
  - intros t s Hs. by apply (Hst t s).
  - destruct (H2 t Ht) as [Hi Hw]. split; [by apply Hsub|]. intros E.
    destruct (Hst t _ E) as [_ Hor]. by destruct (Hor eq_refl).
  - by apply Hsub, H3, Hq.
Qed.

Lemma past_step cap inc m op reply m' done :
  past m done -> mailbox_step cap inc m op reply m' ->
  past m' (done ++ ho_published [op] [reply]) /\
  mb_queue m ++ ho_published [op] [reply] = ho_taken [op] [reply] ++ mb_queue m'.
Proof.
  intros Hp. pose proof Hp as [H1 H2 H3 H4]. destruct reply as [[rc t'] c'].
  assert (Hforget : forall t, past (forget m t) done).
  { intros t. apply (past_update m); [done..|]. intros t1 s Hs. cbn in *.
    apply lookup_delete_Some in Hs as [_ Hs]. split; [by eapply H1|]. intros ->. by left. }
  destruct op as [|t command|t| |t|]; cbn [mailbox_step ho_published ho_taken];
    rewrite ?app_nil_r.
  - destruct (mb_sealed m); [by intros [_ ->]|].
    intros [(-> & Hf & ->)|(_ & _ & ->)]; [|done].
    split; [|done]. apply (past_update m); [done|set_solver|done|].
    intros t1 s Hs. cbn in *. apply lookup_insert_Some in Hs as [[<- <-]|[_ Hs]];
      [split; [set_solver|by right]|]. split; [apply H1 in Hs; set_solver|intros ->; by left].
  - intros [-> ->]. destruct command as [c|]; [|cbn; by rewrite !app_nil_r].
    destruct (publish_status m t (Some c)) eqn:E; cbn; rewrite ?app_nil_r; try done.
    apply ho_publish_ok in E. split; [|done]. split; cbn.
    + intros t1 s [[<- <-]|[_ Hs]]%lookup_insert_Some; by eapply H1.
    + intros t1. rewrite fmap_app, elem_of_app. cbn. intros [Ht|Ht].
      * destruct (H2 t1 Ht) as [Hi Hw]. split; [done|].
        intros [[_ E2]|[_ Hs]]%lookup_insert_Some; done.
      * apply list_elem_of_singleton in Ht as ->. split; [by eapply H1|]. by rewrite lookup_insert_eq.
    + intros t1. rewrite fmap_app, elem_of_app. intros [Ht|Ht]; [by apply H3|].
      apply list_elem_of_singleton in Ht as ->. by eapply H1.
    + rewrite fmap_app. apply NoDup_app. split; [done|]. split; [|apply NoDup_singleton].
      intros t1 Ht ->%list_elem_of_singleton. by destruct (H2 t Ht).
  - intros [_ ->]. case_match; done.
  - destruct (mb_queue m) as [|[t c] queue] eqn:Eq.
    + intros [-> ->]. by rewrite Eq.
    + intros (-> & -> & -> & ->). cbn. rewrite ?app_nil_r. split; [|done].
      apply (past_update m); [done|done|rewrite Eq; set_solver|].
      cbn. intros t1 s [[<- <-]|[_ Hs]]%lookup_insert_Some.
      * split; [|done]. apply H3. by left.
      * split; [by eapply H1|]. intros ->. by left.
  - intros [_ ->]. case_match; done.
  - intros [_ ->]. split; [|done]. apply (past_update m); [done..|].
    cbn. intros t1 s Hs. split; [by eapply H1|]. intros ->. by left.
Qed.

Lemma published_cons op ops reply replies :
  ho_published (op :: ops) (reply :: replies) =
  ho_published [op] [reply] ++ ho_published ops replies.
Proof. destruct op as [|t [c|]|t| |t|], reply as [[[] ?] ?]; done. Qed.

Lemma taken_cons op ops reply replies :
  ho_taken (op :: ops) (reply :: replies) = ho_taken [op] [reply] ++ ho_taken ops replies.
Proof. destruct op as [|t [c|]|t| |t|], reply as [[[] ?] ?]; done. Qed.

Lemma mailbox_run_past cap inc m ops replies m' done :
  mailbox_run cap inc m ops replies m' -> past m done ->
  past m' (done ++ ho_published ops replies) /\
  mb_queue m ++ ho_published ops replies = ho_taken ops replies ++ mb_queue m'.
Proof.
  intros Hrun. revert done. induction Hrun as [m|m op reply m1 ops replies m2 Hstep Hrun IH]; intros done Hp.
  { by rewrite !app_nil_r. }
  destruct (past_step _ _ _ _ _ _ _ Hp Hstep) as [H1 E1]. destruct (IH _ H1) as [H2 E2].
  rewrite published_cons, taken_cons. split; [by rewrite app_assoc|].
  by rewrite app_assoc, E1, <- !app_assoc, E2.
Qed.

(** ** Properties *)

(** C13: The inbox implements the mailbox: whatever the interleaving of its
    producers and its owner, every reply is the one the mailbox gives (a fresh
    ticket unless every row is in use or used up, the status of each ticket's
    stage, the command at the head of the queue), and it can be destroyed exactly
    when it is sealed and every ticket is settled or aborted. *)
Theorem handoff_refines_mailbox counter cfg mem next q ops :
  tm_ho_create counter (Some cfg) mem = (next, TM_HO_OK, Some q) -> 0 <= hc_capacity cfg ->
  Forall ho_op_ok ops ->
  exists m, mailbox_run (hc_capacity cfg) counter empty_mailbox ops (ho_run q ops).2 m /\
    (tm_ho_destroy (ho_run q ops).1 = TM_HO_OK <-> mb_sealed m = true /\ mb_stage m = ∅).
Proof.
  intros Hc Hcap Hops. destruct (create_is _ _ _ _ _ Hc Hcap) as (Hq & <- & <-).
  destruct (mailbox_run_of q empty_mailbox ops Hq Hops) as (m & Hrun & Hm).
  exists m. split; [done|]. by apply destroy_spec.
Qed.

(** Commands are delivered once and in the order of their publication: those
    accepted are those delivered followed by those waiting, of which the next one
    taken is the first; no ticket is published twice. *)
Theorem handoff_fifo counter cfg mem next q ops q' replies :
  tm_ho_create counter (Some cfg) mem = (next, TM_HO_OK, Some q) -> 0 <= hc_capacity cfg ->
  Forall ho_op_ok ops -> ho_run q ops = (q', replies) ->
  NoDup (ho_published ops replies).*1 /\
  exists waiting, ho_published ops replies = ho_taken ops replies ++ waiting /\
    (tm_ho_take q').2 = match waiting with [] => zero_command | (t, c) :: _ => c end /\
    (tm_ho_take q').1.2 = match waiting with [] => no_ticket | (t, c) :: _ => t end /\
    (tm_ho_take q').1.1.2 = match waiting with [] => TM_HO_EBUSY | _ => TM_HO_OK end.
Proof.
  intros Hc Hcap Hops Er. destruct (create_is _ _ _ _ _ Hc Hcap) as (Hq & _ & _).
  destruct (mailbox_run_of q empty_mailbox ops Hq Hops) as (m & Hrun & Hm).
  rewrite Er in Hrun, Hm. cbn in Hrun, Hm.
  assert (H0 : past empty_mailbox []).
  { split; cbn; [done|by intros t ?%not_elem_of_nil|by intros t ?%not_elem_of_nil|constructor]. }
  destruct (mailbox_run_past _ _ _ _ _ _ [] Hrun H0) as [Hp E]. split; [apply Hp|].
  exists (mb_queue m). split; [done|].
  destruct (tm_ho_take q') as [[[q'' rc] t] c] eqn:Et. pose proof (take_step q' m q'' rc t c Hm Et) as Ht.
  destruct (mb_queue m) as [|[t0 c0] queue] eqn:Eq; [|naive_solver].
  pose proof (ii_published _ _ Hm) as Hb.
  assert (Hn : hq_next_order q' <= U64_MAX) by (rewrite (ii_next _ _ Hm); lia).
  pose proof (queue_is_oldest hr_command _ _ _ _ _ Hn (ii_queue _ _ Hm)) as Ho. rewrite Eq in Ho.
  unfold tm_ho_take in Et. destruct (row_oldest 0 None U64_MAX (hq_rows q')); [naive_solver|].
  by injection Et as <- <- <- <-.
Qed.

(** *** An example *)

Definition ex_ho_config : tm_ho_config_v1 := Build_tm_ho_config_v1 SIZEOF_HO_CONFIG 1 2 0.
Definition ex_inbox : tm_ho_inbox := Build_tm_ho_inbox 7 1 false [ho_zero_row; ho_zero_row].
Definition ex_stop : tm_ho_command_v1 :=
  Build_tm_ho_command_v1 SIZEOF_HO_COMMAND 1 TM_HO_STOP 0 5 0 0 zero_ref.
Definition ex_pump : tm_ho_command_v1 :=
  Build_tm_ho_command_v1 SIZEOF_HO_COMMAND 1 TM_HO_PUMP_SINK 3 6 0 0 zero_ref.

(** The second row is published first; a settled ticket is stale. *)
Definition ex_ho_ops : list ho_op :=
  [HoReserve; HoReserve; HoReserve; HoPublish (Build_ticket 7 1 1) (Some ex_pump);
   HoPublish (Build_ticket 7 0 1) (Some ex_stop); HoTake; HoSettle (Build_ticket 7 1 1);
   HoSettle (Build_ticket 7 1 1); HoReserve; HoSeal; HoPublish (Build_ticket 7 1 2) (Some ex_pump)].

Lemma ex_ho_ops_ok : Forall ho_op_ok ex_ho_ops.
Proof. repeat constructor; done. Qed.

Lemma handoff_refines_mailbox_witness :
  exists m, mailbox_run 2 7 empty_mailbox ex_ho_ops (ho_run ex_inbox ex_ho_ops).2 m /\
    (tm_ho_destroy (ho_run ex_inbox ex_ho_ops).1 = TM_HO_OK <->
     mb_sealed m = true /\ mb_stage m = ∅).
Proof.
  apply (handoff_refines_mailbox 7 ex_ho_config (true, true) 8 ex_inbox ex_ho_ops);
    [vm_compute; reflexivity|cbn; lia|exact ex_ho_ops_ok].
Defined.

Definition ex_ho_end : tm_ho_inbox := (ho_run ex_inbox ex_ho_ops).1.
Definition ex_ho_replies : list ho_reply := (ho_run ex_inbox ex_ho_ops).2.

Lemma handoff_fifo_witness :
  ho_published ex_ho_ops ex_ho_replies =
    [(Build_ticket 7 1 1, ex_pump); (Build_ticket 7 0 1, ex_stop)] /\
  exists waiting,
    ho_published ex_ho_ops ex_ho_replies = ho_taken ex_ho_ops ex_ho_replies ++ waiting /\
    (tm_ho_take ex_ho_end).2 = match waiting with [] => zero_command | (t, c) :: _ => c end /\
    (tm_ho_take ex_ho_end).1.2 = match waiting with [] => no_ticket | (t, c) :: _ => t end /\
    (tm_ho_take ex_ho_end).1.1.2 = match waiting with [] => TM_HO_EBUSY | _ => TM_HO_OK end.
Proof.
  split; [vm_compute; reflexivity|].
  exact (proj2 (handoff_fifo 7 ex_ho_config (true, true) 8 ex_inbox ex_ho_ops ex_ho_end ex_ho_replies
    ltac:(vm_compute; reflexivity) ltac:(cbn; lia) ex_ho_ops_ok (surjective_pairing _))).
Defined.
