(* ===== verification/Completion.v ===== *)
(** * The completion registry

    streamgraph/src/turbo_streamgraph_provider_completion.c: the owner begins a
    ticket before it starts an asynchronous provider, the provider's callbacks
    complete it or acknowledge its cancellation from their own threads, and the
    owner takes the results and settles them.  The spin lock makes every operation
    one step.  Handles and out parameters are not [NULL]; the rows are the array of
    [capacity] elements. *)

From stdpp Require Import list gmap.
From S2P Require Import Prelude Tickets.

(* ------------------------------------------------------------------ *)
(** ** Data *)

Definition TM_PC_ABI_V1 : Z := 1.
Definition TM_PC_MAX_CAPACITY : Z := 1024.
Definition SIZEOF_PC_CONFIG : Z := 24.
Definition SIZEOF_PC_RESULT : Z := 40.
Definition SIZEOF_PC_SNAPSHOT : Z := 36.

Inductive tm_pc_status : Type :=
  | TM_PC_OK | TM_PC_EINVAL | TM_PC_EVERSION | TM_PC_ENOMEM | TM_PC_EFULL | TM_PC_ESTALE
  | TM_PC_EALREADY | TM_PC_EBUSY | TM_PC_ESHUTDOWN | TM_PC_EEXHAUSTED.

Definition TM_PC_COMPLETED : Z := 1.
Definition TM_PC_CANCELLED : Z := 2.
Definition TM_PC_START_FAILED : Z := 3.

Record tm_pc_config_v1 := {
  pc_size : Z;
  pc_version : Z;
  pc_capacity : Z;
  pc_reserved : Z;
  pc_provider_generation : Z;
}.

Record tm_pc_result_v1 := {
  rs_size : Z;
  rs_version : Z;
  rs_outcome : Z;
  rs_completion_observed : Z;
  rs_correlation : Z;
  rs_provider_generation : Z;
  rs_provider_status : Z;
}.

Definition zero_result : tm_pc_result_v1 := Build_tm_pc_result_v1 0 0 0 0 0 0 0.

Inductive pc_state : Type := PC_FREE | PC_INFLIGHT | PC_CANCEL_PENDING | PC_READY | PC_TAKEN.

#[export] Instance pc_state_eq_dec : EqDecision pc_state.
Proof. solve_decision. Defined.

Record pc_row := {
  pr_state : pc_state;
  pr_generation : Z;
  pr_order : Z;
  pr_correlation : Z;
  pr_result : tm_pc_result_v1;
}.

Definition pc_zero_row : pc_row := Build_pc_row PC_FREE 0 0 0 zero_result.

#[export] Instance pc_row_Row : Row pc_row := {|
  row_busy r := negb (bool_decide (pr_state r = PC_FREE));
  row_generation := pr_generation;
  row_order r := if bool_decide (pr_state r = PC_READY) then Some (pr_order r) else None;
|}.

Record tm_pc_portal := {
  pp_incarnation : Z;
  pp_provider_generation : Z;
  pp_next_order : Z;
  pp_sealed : bool;
  pp_rows : list pc_row;
}.

Record tm_pc_snapshot_v1 := {
  ps_size : Z;
  ps_version : Z;
  ps_capacity : Z;
  ps_inflight : Z;
  ps_cancel_pending : Z;
  ps_ready : Z;
  ps_taken : Z;
  ps_sealed : bool;
  ps_drained : bool;
}.

(* ------------------------------------------------------------------ *)
(** ** Operations *)

Definition pc_find (p : tm_pc_portal) (t : ticket) : option pc_row :=
  row_find (pp_incarnation p) (pp_rows p) t.

(** [p->rows[slot] = r]. *)
Definition pc_put (p : tm_pc_portal) (slot : nat) (r : pc_row) : tm_pc_portal :=
  Build_tm_pc_portal (pp_incarnation p) (pp_provider_generation p) (pp_next_order p)
    (pp_sealed p) (<[slot := r]> (pp_rows p)).

Definition pc_set_state (r : pc_row) (state : pc_state) : pc_row :=
  Build_pc_row state (pr_generation r) (pr_order r) (pr_correlation r) (pr_result r).

(** The result of a terminal transition. *)
Definition finish (r : tm_pc_result_v1) (outcome observed status : Z) : tm_pc_result_v1 :=
  Build_tm_pc_result_v1 (rs_size r) (rs_version r) outcome observed (rs_correlation r)
    (rs_provider_generation r) status.

Definition pc_ready (r : pc_row) (outcome completed status : Z) : pc_row :=
  Build_pc_row PC_READY (pr_generation r) (pr_order r) (pr_correlation r)
    (finish (pr_result r) outcome completed status).

(** The global incarnation counter, before and after, and the portal; [mem] are
    the outcomes of the two allocations. *)
Definition tm_pc_create (pc_incarnations : Z) (c : option tm_pc_config_v1) (mem : bool * bool)
    : Z * tm_pc_status * option tm_pc_portal :=
  let? c := c else (pc_incarnations, TM_PC_EINVAL, None) in
  if negb (pc_version c =? TM_PC_ABI_V1) then (pc_incarnations, TM_PC_EVERSION, None)
  else if negb (pc_size c =? SIZEOF_PC_CONFIG) || truth (pc_reserved c) ||
          (pc_capacity c =? 0) || (TM_PC_MAX_CAPACITY <? pc_capacity c) ||
          (pc_provider_generation c =? 0) then (pc_incarnations, TM_PC_EINVAL, None)
  else
    let next := u64 (pc_incarnations + 1) in
    if (pc_incarnations =? 0) || (pc_incarnations =? U64_MAX) then (next, TM_PC_EEXHAUSTED, None)
    else if negb mem.1 then (next, TM_PC_ENOMEM, None)
    else if negb mem.2 then (next, TM_PC_ENOMEM, None)
    else (next, TM_PC_OK,
          Some (Build_tm_pc_portal pc_incarnations (pc_provider_generation c) 1 false
                  (replicate (Z.to_nat (pc_capacity c)) pc_zero_row))).

(** [TM_PC_RESULT_V1_INIT] with the identity of the work. *)
Definition begun (provider_generation correlation : Z) : tm_pc_result_v1 :=
  Build_tm_pc_result_v1 SIZEOF_PC_RESULT TM_PC_ABI_V1 0 0 correlation provider_generation 0.

Definition tm_pc_begin (p : tm_pc_portal) (correlation : Z)
    : tm_pc_portal * tm_pc_status * ticket :=
  if correlation =? 0 then (p, TM_PC_EINVAL, no_ticket)
  else if pp_sealed p then (p, TM_PC_ESHUTDOWN, no_ticket)
  else if pp_next_order p =? U64_MAX then (p, TM_PC_EEXHAUSTED, no_ticket)
  else
    match row_free (pp_rows p) with
    | Some (i, r) =>
        let r := Build_pc_row PC_INFLIGHT (u32 (pr_generation r + 1)) (pp_next_order p) correlation
                   (begun (pp_provider_generation p) correlation) in
        let p := pc_put p i r in
        (Build_tm_pc_portal (pp_incarnation p) (pp_provider_generation p)
           (u64 (pp_next_order p + 1)) (pp_sealed p) (pp_rows p),
         TM_PC_OK, ticket_of (pp_incarnation p) i r)
    | None => (p, TM_PC_EFULL, no_ticket)
    end.

Definition tm_pc_fail_start (p : tm_pc_portal) (t : ticket) (status : Z)
    : tm_pc_portal * tm_pc_status :=
  let? r := pc_find p t else (p, TM_PC_ESTALE) in
  if negb (bool_decide (pr_state r = PC_INFLIGHT)) then (p, TM_PC_EALREADY)
  else (pc_put p (Z.to_nat (tk_slot t)) (pc_ready r TM_PC_START_FAILED 0 status), TM_PC_OK).

Definition tm_pc_complete (p : tm_pc_portal) (t : ticket) (status : Z)
    : tm_pc_portal * tm_pc_status :=
  let? r := pc_find p t else (p, TM_PC_ESTALE) in
  if bool_decide (pr_state r = PC_INFLIGHT) then
    (pc_put p (Z.to_nat (tk_slot t)) (pc_ready r TM_PC_COMPLETED 1 status), TM_PC_OK)
  else if bool_decide (pr_state r = PC_CANCEL_PENDING) then
    (pc_put p (Z.to_nat (tk_slot t)) (pc_ready r TM_PC_CANCELLED 1 status), TM_PC_OK)
  else (p, TM_PC_EALREADY).

Definition tm_pc_request_cancel (p : tm_pc_portal) (t : ticket) : tm_pc_portal * tm_pc_status :=
  let? r := pc_find p t else (p, TM_PC_ESTALE) in
  if bool_decide (pr_state r = PC_INFLIGHT) then
    (pc_put p (Z.to_nat (tk_slot t)) (pc_set_state r PC_CANCEL_PENDING), TM_PC_OK)
  else (p, TM_PC_EALREADY).

Definition tm_pc_cancel_quiesced (p : tm_pc_portal) (t : ticket) : tm_pc_portal * tm_pc_status :=
  let? r := pc_find p t else (p, TM_PC_ESTALE) in
  if bool_decide (pr_state r = PC_CANCEL_PENDING) then
    (pc_put p (Z.to_nat (tk_slot t)) (pc_ready r TM_PC_CANCELLED 0 0), TM_PC_OK)
  else (p, TM_PC_EALREADY).

(** [out] is the size and the version of the structure that is passed. *)
Definition tm_pc_take (p : tm_pc_portal) (out : Z * Z)
    : tm_pc_portal * tm_pc_status * ticket * option tm_pc_result_v1 :=
  if negb (out.2 =? TM_PC_ABI_V1) then (p, TM_PC_EVERSION, no_ticket, None)
  else if negb (out.1 =? SIZEOF_PC_RESULT) then (p, TM_PC_EINVAL, no_ticket, None)
  else
    match row_oldest 0 None U64_MAX (pp_rows p) with
    | None => (p, TM_PC_EBUSY, no_ticket, None)
    | Some index =>
        match pp_rows p !! index with
        | None => (p, TM_PC_EBUSY, no_ticket, None)
        | Some r =>
            (pc_put p index (pc_set_state r PC_TAKEN), TM_PC_OK,
             ticket_of (pp_incarnation p) index r, Some (pr_result r))
        end
    end.

Definition tm_pc_settle (p : tm_pc_portal) (t : ticket) : tm_pc_portal * tm_pc_status :=
  let? r := pc_find p t else (p, TM_PC_ESTALE) in
  if negb (bool_decide (pr_state r = PC_TAKEN)) then (p, TM_PC_EBUSY)
  else (pc_put p (Z.to_nat (tk_slot t)) (Build_pc_row PC_FREE (pr_generation r) 0 0 zero_result),
        TM_PC_OK).

Definition tm_pc_seal (p : tm_pc_portal) : tm_pc_portal * tm_pc_status :=
  (Build_tm_pc_portal (pp_incarnation p) (pp_provider_generation p) (pp_next_order p) true
     (pp_rows p), TM_PC_OK).

Definition pc_count (state : pc_state) (rows : list pc_row) : Z :=
  len (filter (fun r => pr_state r = state) rows).

Definition tm_pc_snapshot (p : tm_pc_portal) (out : Z * Z)
    : tm_pc_status * option tm_pc_snapshot_v1 :=
  if negb (out.2 =? TM_PC_ABI_V1) then (TM_PC_EVERSION, None)
  else if negb (out.1 =? SIZEOF_PC_SNAPSHOT) then (TM_PC_EINVAL, None)
  else
    let inflight := pc_count PC_INFLIGHT (pp_rows p) in
    let cancel_pending := pc_count PC_CANCEL_PENDING (pp_rows p) in
    let ready := pc_count PC_READY (pp_rows p) in
    let taken := pc_count PC_TAKEN (pp_rows p) in
    (TM_PC_OK, Some {| ps_size := out.1; ps_version := out.2; ps_capacity := len (pp_rows p);
       ps_inflight := inflight; ps_cancel_pending := cancel_pending; ps_ready := ready;
       ps_taken := taken; ps_sealed := pp_sealed p;
       ps_drained := negb (truth inflight || truth cancel_pending || truth ready || truth taken) |}).

(** Whether the portal was freed. *)
Definition tm_pc_destroy (p : tm_pc_portal) : tm_pc_status :=
  if negb (pp_sealed p) then TM_PC_EBUSY
  else if existsb (fun r => negb (bool_decide (pr_state r = PC_FREE))) (pp_rows p) then TM_PC_EBUSY
  else TM_PC_OK.

(* ------------------------------------------------------------------ *)
(** ** Histories *)

Inductive pc_op : Type :=
  | PcBegin (correlation : Z)
  | PcFailStart (t : ticket) (status : Z)
  | PcComplete (t : ticket) (status : Z)
  | PcRequestCancel (t : ticket)
  | PcCancelQuiesced (t : ticket)
  | PcTake
  | PcSettle (t : ticket)
  | PcSeal.

(** The status, and the ticket and the result that are returned. *)
Definition pc_reply : Type := tm_pc_status * ticket * option tm_pc_result_v1.

Definition pc_step (p : tm_pc_portal) (op : pc_op) : tm_pc_portal * pc_reply :=
  let plain '(p, rc) := (p, (rc, no_ticket, None)) in
  match op with
  | PcBegin correlation => let '(p, rc, t) := tm_pc_begin p correlation in (p, (rc, t, None))
  | PcFailStart t status => plain (tm_pc_fail_start p t status)
  | PcComplete t status => plain (tm_pc_complete p t status)
  | PcRequestCancel t => plain (tm_pc_request_cancel p t)
  | PcCancelQuiesced t => plain (tm_pc_cancel_quiesced p t)
  | PcTake =>
      let '(p, rc, t, r) := tm_pc_take p (SIZEOF_PC_RESULT, TM_PC_ABI_V1) in (p, (rc, t, r))
  | PcSettle t => plain (tm_pc_settle p t)
  | PcSeal => plain (tm_pc_seal p)
  end.

Fixpoint pc_run (p : tm_pc_portal) (ops : list pc_op) : tm_pc_portal * list pc_reply :=
  match ops with
  | [] => (p, [])
  | op :: ops =>
      let '(p, reply) := pc_step p op in
      let '(p, replies) := pc_run p ops in (p, reply :: replies)
  end.

(** The ticket an operation is applied to. *)
Definition pc_subject (op : pc_op) : option ticket :=
  match op with
  | PcFailStart t _ | PcComplete t _ | PcRequestCancel t | PcCancelQuiesced t | PcSettle t => Some t
  | _ => None
  end.

(** Tickets have an unsigned slot index. *)
Definition pc_op_ok (op : pc_op) : Prop :=
  match pc_subject op with Some t => 0 <= tk_slot t | None => True end.

(* ------------------------------------------------------------------ *)
(** ** The registry

    What the portal promises: every ticket begun goes through the states of one
    life, and the results are taken in the order in which the work began. *)

Record registry := {
  rg_begun : list ticket;
  rg_life : gmap ticket (pc_state * tm_pc_result_v1);
  rg_sealed : bool;
}.

Definition empty_registry : registry := Build_registry [] ∅ false.

(** The transitions of a ticket in a state, with the result so far. *)
Definition transition (op : pc_op) (state : pc_state) (r : tm_pc_result_v1)
    : option (pc_state * tm_pc_result_v1) :=
  match op, state with
  | PcFailStart _ status, PC_INFLIGHT => Some (PC_READY, finish r TM_PC_START_FAILED 0 status)
  | PcComplete _ status, PC_INFLIGHT => Some (PC_READY, finish r TM_PC_COMPLETED 1 status)
  | PcComplete _ status, PC_CANCEL_PENDING => Some (PC_READY, finish r TM_PC_CANCELLED 1 status)
  | PcRequestCancel _, PC_INFLIGHT => Some (PC_CANCEL_PENDING, r)
  | PcCancelQuiesced _, PC_CANCEL_PENDING => Some (PC_READY, finish r TM_PC_CANCELLED 0 0)
  | _, _ => None
  end.

Definition set_life (g : registry) (life : gmap ticket (pc_state * tm_pc_result_v1)) : registry :=
  Build_registry (rg_begun g) life (rg_sealed g).

Definition is_ready (g : registry) (t : ticket) : bool :=
  match rg_life g !! t with Some (PC_READY, _) => true | _ => false end.

Section Registry.
Context (capacity incarnation provider_generation : Z).

(** [registry_step g op reply g']: the reply to [op] in [g], and what [g] becomes. *)
Definition registry_step (g : registry) (op : pc_op) (reply : pc_reply) (g' : registry) : Prop :=
  let '(rc, t', r') := reply in
  match op with
  | PcBegin correlation =>
      if correlation =? 0 then rc = TM_PC_EINVAL /\ g' = g
      else if rg_sealed g then rc = TM_PC_ESHUTDOWN /\ g' = g
      else if len (rg_begun g) + 1 =? U64_MAX then rc = TM_PC_EEXHAUSTED /\ g' = g
      else (rc = TM_PC_OK /\ t' ∉ rg_begun g /\
            g' = Build_registry (rg_begun g ++ [t'])
                   (<[t' := (PC_INFLIGHT, begun provider_generation correlation)]> (rg_life g))
                   (rg_sealed g)) \/
           (rc = TM_PC_EFULL /\
            used_up capacity incarnation (list_to_set (rg_begun g)) (rg_life g) /\ g' = g)
  | PcTake =>
      match list_find (is_ready g) (rg_begun g) with
      | None => rc = TM_PC_EBUSY /\ r' = None /\ g' = g
      | Some (_, t) => exists r, rg_life g !! t = Some (PC_READY, r) /\
          rc = TM_PC_OK /\ t' = t /\ r' = Some r /\
          g' = set_life g (<[t := (PC_TAKEN, r)]> (rg_life g))
      end
  | PcSettle t =>
      match rg_life g !! t with
      | None => rc = TM_PC_ESTALE /\ g' = g
      | Some (PC_TAKEN, _) => rc = TM_PC_OK /\ g' = set_life g (delete t (rg_life g))
      | Some _ => rc = TM_PC_EBUSY /\ g' = g
      end
  | PcSeal => rc = TM_PC_OK /\ g' = Build_registry (rg_begun g) (rg_life g) true
  | PcFailStart t _ | PcComplete t _ | PcRequestCancel t | PcCancelQuiesced t =>
      match rg_life g !! t with
      | None => rc = TM_PC_ESTALE /\ g' = g
      | Some (state, r) =>
          match transition op state r with
          | Some life => rc = TM_PC_OK /\ g' = set_life g (<[t := life]> (rg_life g))
          | None => rc = TM_PC_EALREADY /\ g' = g
          end
      end
  end.

Inductive registry_run : registry -> list pc_op -> list pc_reply -> registry -> Prop :=
  | registry_run_nil g : registry_run g [] [] g
  | registry_run_cons g op reply g1 ops replies g2 :
      registry_step g op reply g1 -> registry_run g1 ops replies g2 ->
      registry_run g (op :: ops) (reply :: replies) g2.
End Registry.

(* ------------------------------------------------------------------ *)
(** ** The abstraction *)

Definition life_of (r : pc_row) : option (pc_state * tm_pc_result_v1) :=
  match pr_state r with PC_FREE => None | state => Some (state, pr_result r) end.

Lemma life_busy (r : pc_row) : row_busy r = true <-> is_Some (life_of r).
Proof. unfold life_of. cbn. destruct (pr_state r); cbn; split; try done; by intros []. Qed.

Lemma pc_busy_spec (r : pc_row) : row_busy r = true <-> pr_state r <> PC_FREE.
Proof. cbn. rewrite negb_true_iff. apply bool_decide_eq_false. Qed.

Record portal_is (p : tm_pc_portal) (g : registry) : Prop := {
  pi_sealed : rg_sealed g = pp_sealed p;
  pi_next : pp_next_order p = len (rg_begun g) + 1;
  pi_begun : len (rg_begun g) < U64_MAX;
  pi_once : NoDup (rg_begun g);
  pi_rows : generations_ok (pp_rows p);
  pi_issued : issues (pp_incarnation p) (pp_rows p) (list_to_set (rg_begun g));
  pi_life : tracks life_of (pp_incarnation p) (pp_rows p) (rg_life g);
  pi_order : forall i r, pp_rows p !! i = Some r -> pr_state r <> PC_FREE ->
    exists k, pr_order r = Z.of_nat k + 1 /\
              rg_begun g !! k = Some (ticket_of (pp_incarnation p) i r);
}.

(** Changing the state and the result of a row in use. *)
Lemma portal_put p g i r r' p' life' :
  portal_is p g -> pp_rows p !! i = Some r -> pr_state r <> PC_FREE ->
  pr_generation r' = pr_generation r -> (pr_state r' <> PC_FREE -> pr_order r' = pr_order r) ->
  p' = pc_put p i r' ->
  (forall t, life' !! t = if decide (t = ticket_of (pp_incarnation p) i r) then life_of r'
                          else rg_life g !! t) ->
  portal_is p' (set_life g life').
Proof.
  intros [] Hi Hb Eg Eo -> Hlife. apply pc_busy_spec in Hb as Hb'.
  destruct (Forall_lookup_1 _ _ _ _ pi_rows0 Hi) as [Hg1 Hg2]. specialize (Hg2 Hb'). cbn in Hg1, Hg2.
  split; cbn; try done.
  - apply Forall_insert; [done|]. cbn. rewrite Eg. split; [done|lia].
  - by apply (issues_put _ _ _ r).
  - apply (tracks_put life_of life_busy _ _ _ r r' (rg_life g)); [done|cbn; lia|by left|done|].
    intros t. rewrite Hlife. unfold ticket_of. cbn. by rewrite Eg.
  - intros j s Hj Hs. apply list_lookup_insert_Some in Hj as [(<- & <- & _)|[_ Hj]]; [|by apply pi_order0].
    unfold ticket_of. cbn. rewrite Eg, Eo by done. by apply pi_order0.
Qed.

Lemma pc_find_spec p g t :
  portal_is p g -> 0 <= tk_slot t ->
  match pc_find p t with
  | None => rg_life g !! t = None
  | Some r => exists life, rg_life g !! t = Some life /\ life_of r = Some life /\
      pp_rows p !! Z.to_nat (tk_slot t) = Some r /\
      t = ticket_of (pp_incarnation p) (Z.to_nat (tk_slot t)) r
  end.
Proof. intros Hp Ht. by apply (find_tracked life_of life_busy); [apply Hp|]. Qed.

(** Moving the ticket [t] of row [r] to the life of [r']. *)
Lemma move_is p g t r r' life' :
  portal_is p g -> pp_rows p !! Z.to_nat (tk_slot t) = Some r -> pr_state r <> PC_FREE ->
  t = ticket_of (pp_incarnation p) (Z.to_nat (tk_slot t)) r ->
  pr_generation r' = pr_generation r -> pr_order r' = pr_order r -> life_of r' = Some life' ->
  portal_is (pc_put p (Z.to_nat (tk_slot t)) r') (set_life g (<[t := life']> (rg_life g))).
Proof.
  intros Hp Hi Hb Et Eg Eo El. eapply (portal_put p g _ r r'); try done.
  intros t'. rewrite <- Et, El. case_decide as E; [subst t'; apply lookup_insert_eq|].
  by rewrite lookup_insert_ne.
Qed.

Section Steps.
Context (p : tm_pc_portal) (g : registry) (Hp : portal_is p g).

Let cap := len (pp_rows p).
Let inc := pp_incarnation p.
Let gen := pp_provider_generation p.

Definition simulates (op : pc_op) (result : tm_pc_portal * pc_reply) : Prop :=
  exists g', registry_step cap inc gen g op result.2 g' /\ portal_is result.1 g'.

Lemma begin_simulates correlation : simulates (PcBegin correlation) (pc_step p (PcBegin correlation)).
Proof.
  unfold simulates. cbn [pc_step]. unfold tm_pc_begin, registry_step.
  destruct (correlation =? 0) eqn:Ec; [by exists g|]. rewrite <- (pi_sealed _ _ Hp).
  destruct (rg_sealed g) eqn:Es; [by exists g|]. rewrite (pi_next _ _ Hp).
  destruct (len (rg_begun g) + 1 =? U64_MAX) eqn:Eo; [by exists g|].
  destruct (row_free (pp_rows p)) as [[i r]|] eqn:Ef.
  2: { exists g. split; [|done]. right. split; [done|]. split; [|done].
       by apply (row_free_used_up life_of life_busy); [apply Hp..|]. }
  apply row_free_Some in Ef as (Hi & Hb & Hg). cbn in Hg.
  assert (Hfree : pr_state r = PC_FREE) by by apply negb_false_iff, bool_decide_eq_true in Hb.
  pose proof (Forall_lookup_1 _ _ _ _ (pi_rows _ _ Hp) Hi) as [Hgr _]. cbn in Hgr.
  unfold U32_MAX in *. rewrite u32_id by (unfold is_u32; lia).
  set (r' := Build_pc_row PC_INFLIGHT (pr_generation r + 1) (len (rg_begun g) + 1) correlation
    (begun (pp_provider_generation p) correlation)).
  pose proof (pi_begun _ _ Hp) as Hlen. pose proof (len_nonneg (rg_begun g)).
  destruct (issues_issue (pp_incarnation p) (pp_rows p) i r r' (list_to_set (rg_begun g))) as [Hf His];
    [done|cbn; lia|done|apply Hp|]. rewrite elem_of_list_to_set in Hf.
  eexists. split; [left; by split_and!|]. cbn [fst]. destruct Hp. split; cbn.
  - congruence.
  - rewrite pi_next0, u64_id by (unfold is_u64, U64_MAX in *; lia). rewrite len_app, len_cons, len_nil. lia.
  - rewrite len_app, len_cons, len_nil. unfold U64_MAX in *. lia.
  - apply NoDup_app. split; [done|]. split; [|apply NoDup_singleton].
    intros t Ht ->%list_elem_of_singleton. done.
  - apply Forall_insert; [done|]. unfold U32_MAX. cbn. split; [lia|intros _; lia].
  - intros t. rewrite <- (His t). set_solver.
  - apply (tracks_put life_of life_busy _ _ _ r r' (rg_life g)); [done|cbn; lia|by right|done|].
    intros t. case_decide as E; [subst t; apply lookup_insert_eq|]. by rewrite lookup_insert_ne.
  - intros j s Hj Hs. apply list_lookup_insert_Some in Hj as [(<- & <- & _)|[Hne Hj]].
    + exists (length (rg_begun g)). cbn. split; [unfold len; lia|].
      by rewrite lookup_app_r, Nat.sub_diag by lia.
    + destruct (pi_order0 j s Hj Hs) as (k & Ek & Hk). exists k. split; [done|].
      by apply lookup_app_l_Some.
Qed.

(** A transition of the ticket [t]. *)
Lemma transition_simulates op t r (life : pc_state * tm_pc_result_v1) row' :
  pc_subject op = Some t -> (match op with PcSettle _ => False | _ => True end) ->
  0 <= tk_slot t -> pc_find p t = Some r ->
  transition op (pr_state r) (pr_result r) = Some life ->
  pr_generation row' = pr_generation r -> pr_order row' = pr_order r -> life_of row' = Some life ->
  simulates op (pc_put p (Z.to_nat (tk_slot t)) row', (TM_PC_OK, no_ticket, None)).
Proof.
  intros Hsub Hop Ht Hf Htr Eg Eo El. pose proof (pc_find_spec p g t Hp Ht) as H. rewrite Hf in H.
  destruct H as (life0 & Hl & El0 & Hi & Et).
  assert (E0 : life0 = (pr_state r, pr_result r)) by (unfold life_of in El0; by destruct (pr_state r); simplify_eq).
  subst life0. exists (set_life g (<[t := life]> (rg_life g))). split.
  - destruct op; cbn in Hsub; simplify_eq; cbn [registry_step snd]; try done; rewrite Hl; by rewrite Htr.
  - cbn [fst]. apply (move_is p g t r); try done. intros E. unfold life_of in El0. by rewrite E in El0.
Qed.

Lemma stuck_simulates op t r :
  pc_subject op = Some t -> (match op with PcSettle _ => False | _ => True end) ->
  0 <= tk_slot t -> pc_find p t = Some r ->
  transition op (pr_state r) (pr_result r) = None ->
  simulates op (p, (TM_PC_EALREADY, no_ticket, None)).
Proof.
  intros Hsub Hop Ht Hf Htr. pose proof (pc_find_spec p g t Hp Ht) as H. rewrite Hf in H.
  destruct H as (life0 & Hl & El0 & Hi & Et).
  assert (E0 : life0 = (pr_state r, pr_result r)) by (unfold life_of in El0; by destruct (pr_state r); simplify_eq).
  subst life0. exists g. split; [|done].
  destruct op; cbn in Hsub; simplify_eq; cbn [registry_step snd]; try done; rewrite Hl; by rewrite Htr.
Qed.

Lemma stale_simulates op t :
  pc_subject op = Some t -> 0 <= tk_slot t -> pc_find p t = None ->
  simulates op (p, (TM_PC_ESTALE, no_ticket, None)).
Proof.
  intros Hsub Ht Hf. pose proof (pc_find_spec p g t Hp Ht) as H. rewrite Hf in H. exists g. split; [|done].
  destruct op; cbn in Hsub; simplify_eq; cbn [registry_step snd]; by rewrite H.
Qed.

Lemma take_simulates : simulates PcTake (pc_step p PcTake).
Proof.
  unfold simulates. cbn [pc_step]. unfold tm_pc_take. cbn [fst snd Z.eqb negb]. rewrite !Z.eqb_refl.
  cbn [negb registry_step].
  assert (Hrow : forall j (r : pc_row) o, pp_rows p !! j = Some r -> row_order r = Some o ->
    pr_state r = PC_READY /\ exists k, o = Z.of_nat k + 1 /\
      rg_begun g !! k = Some (ticket_of (pp_incarnation p) j r)).
  { intros j r o Hj. cbn. case_bool_decide as E; [|done]. intros [= <-]. split; [done|].
    apply (pi_order _ _ Hp); [done|by rewrite E]. }
  assert (Hready : forall t, is_ready g t -> exists i r, pp_rows p !! i = Some r /\
    t = ticket_of (pp_incarnation p) i r /\ row_order r = Some (pr_order r)).
  { intros t. unfold is_ready. destruct (rg_life g !! t) as [[state r0]|] eqn:E; [|done].
    destruct state; try done. intros _. apply (pi_life _ _ Hp) in E as (i & r & (Hi & Et & _) & El).
    exists i, r. split; [done|]. split; [done|]. cbn. unfold life_of in El.
    rewrite bool_decide_true; [done|]. by destruct (pr_state r); simplify_eq. }
  pose proof (row_oldest_first U64_MAX (pp_rows p)) as Hold.
  destruct (row_oldest 0 None U64_MAX (pp_rows p)) as [i|].
  - destruct Hold as (r & o & Hi & Ho & Hmin).
    { intros j r o Hj Ho. destruct (Hrow j r o Hj Ho) as (_ & k & -> & Hk). apply lookup_lt_Some in Hk.
      pose proof (pi_begun _ _ Hp). unfold len in *. lia. }
    destruct (Hrow i r o Hi Ho) as (Hr & k & -> & Hk). rewrite Hi.
    assert (Hlife : rg_life g !! ticket_of (pp_incarnation p) i r = Some (PC_READY, pr_result r)).
    { apply (pi_life _ _ Hp). exists i, r. split; [|unfold life_of; by rewrite Hr].
      split; [done|]. split; [done|]. split; [apply pc_busy_spec; by rewrite Hr|].
      destruct (Forall_lookup_1 _ _ _ _ (pi_rows _ _ Hp) Hi) as [_ H].
      specialize (H ltac:(apply pc_busy_spec; by rewrite Hr)). lia. }
    assert (Hfind : list_find (is_ready g) (rg_begun g) = Some (k, ticket_of (pp_incarnation p) i r)).
    { apply list_find_Some. split; [done|]. split; [unfold is_ready; by rewrite Hlife|].
      intros k' t Hk' Hlt Hrd. destruct (Hready t Hrd) as (j & s & Hj & -> & Hs).
      destruct (Hrow j s _ Hj Hs) as (_ & k2 & Es & Hk2).
      rewrite (NoDup_lookup _ _ _ _ (pi_once _ _ Hp) Hk' Hk2) in Hlt.
      specialize (Hmin j s _ Hj Hs). lia. }
    cbn [registry_step fst snd]. rewrite Hfind. eexists. split; [by exists (pr_result r)|].
    eapply (portal_put p g i r (pc_set_state r PC_TAKEN)); try done; [by rewrite Hr|].
    intros t'. case_decide as E; [subst t'; apply lookup_insert_eq|]. by rewrite lookup_insert_ne.
  - assert (Hfind : list_find (is_ready g) (rg_begun g) = None).
    { apply list_find_None, Forall_forall. intros t _ Ht.
      destruct (Hready t Ht) as (j & s & Hj & _ & Hs). rewrite (Hold) with (j := j) in Hs; [done| |done].
      intros j' r o Hj' Ho. destruct (Hrow j' r o Hj' Ho) as (_ & k & -> & Hk). apply lookup_lt_Some in Hk.
      pose proof (pi_begun _ _ Hp). unfold len in *. lia. }
    cbn [registry_step fst snd]. rewrite Hfind. by exists g.
Qed.

Lemma settle_simulates t : 0 <= tk_slot t -> simulates (PcSettle t) (pc_step p (PcSettle t)).
Proof.
  intros Ht. cbn [pc_step]. unfold tm_pc_settle. destruct (pc_find p t) as [r|] eqn:Ef;
    [|by apply (stale_simulates _ t)].
  pose proof (pc_find_spec p g t Hp Ht) as H. rewrite Ef in H. destruct H as (life & Hl & El & Hi & Et).
  case_bool_decide as E; cbn [negb].
  - eexists. split; [cbn [registry_step snd]; rewrite Hl; unfold life_of in El; rewrite E in El;
      by injection El as <-|]. cbn [fst].
    eapply (portal_put p g _ r (Build_pc_row PC_FREE (pr_generation r) 0 0 zero_result));
      [done|exact Hi|by rewrite E|done|by intros []|done|].
    intros t'. rewrite <- Et. cbn. case_decide as E'; [subst; apply lookup_delete_eq|].
    by rewrite lookup_delete_ne.
  - exists g. split; [|done]. cbn [registry_step snd]. rewrite Hl. destruct life as [state r0].
    unfold life_of in El. destruct (pr_state r); simplify_eq; done.
Qed.

Lemma pc_step_simulates op : pc_op_ok op -> simulates op (pc_step p op).
Proof.
  intros Hop. destruct op as [c|t st|t st|t|t| |t|]; cbn in Hop.
  - apply begin_simulates.
  - cbn [pc_step]. unfold tm_pc_fail_start. destruct (pc_find p t) as [r|] eqn:Ef;
      [|by apply (stale_simulates _ t)]. case_bool_decide as E; cbn [negb].
    + eapply (transition_simulates _ t r); try done. by rewrite E.
    + eapply (stuck_simulates _ t r); try done. by destruct (pr_state r).
  - cbn [pc_step]. unfold tm_pc_complete. destruct (pc_find p t) as [r|] eqn:Ef;
      [|by apply (stale_simulates _ t)]. case_bool_decide as E; [|case_bool_decide as E'].
    + eapply (transition_simulates _ t r); try done. by rewrite E.
    + eapply (transition_simulates _ t r); try done. by rewrite E'.
    + eapply (stuck_simulates _ t r); try done. by destruct (pr_state r).
  - cbn [pc_step]. unfold tm_pc_request_cancel. destruct (pc_find p t) as [r|] eqn:Ef;
      [|by apply (stale_simulates _ t)]. case_bool_decide as E.
    + eapply (transition_simulates _ t r); try done. by rewrite E.
    + eapply (stuck_simulates _ t r); try done. by destruct (pr_state r).
  - cbn [pc_step]. unfold tm_pc_cancel_quiesced. destruct (pc_find p t) as [r|] eqn:Ef;
      [|by apply (stale_simulates _ t)]. case_bool_decide as E.
    + eapply (transition_simulates _ t r); try done. by rewrite E.
    + eapply (stuck_simulates _ t r); try done. by destruct (pr_state r).
  - apply take_simulates.
  - by apply settle_simulates.
  - exists (Build_registry (rg_begun g) (rg_life g) true). split; [done|]. by destruct Hp.
Qed.
End Steps.

Lemma pc_step_same p op :
  len (pp_rows (pc_step p op).1) = len (pp_rows p) /\
  pp_incarnation (pc_step p op).1 = pp_incarnation p /\
  pp_provider_generation (pc_step p op).1 = pp_provider_generation p.
Proof.
  destruct op; cbn [pc_step];
    unfold tm_pc_begin, tm_pc_fail_start, tm_pc_complete, tm_pc_request_cancel,
      tm_pc_cancel_quiesced, tm_pc_take, tm_pc_settle, tm_pc_seal;
    repeat case_match; simplify_eq; cbn; by rewrite ?len_insert.
Qed.

Lemma registry_run_of p g ops :
  portal_is p g -> Forall pc_op_ok ops ->
  exists g', registry_run (len (pp_rows p)) (pp_incarnation p) (pp_provider_generation p)
               g ops (pc_run p ops).2 g' /\ portal_is (pc_run p ops).1 g'.
Proof.
  intros Hp Hops. revert p g Hp. induction Hops as [|op ops Hop _ IH]; intros p g Hp; cbn [pc_run].
  { exists g. split; [constructor|done]. }
  destruct (pc_step_simulates p g Hp op Hop) as (g1 & Hstep & H1).
  destruct (pc_step_same p op) as (E1 & E2 & E3).
  destruct (pc_step p op) as [p1 reply]. cbn in *.
  destruct (IH p1 g1 H1) as (g2 & Hrun & H2). rewrite E1, E2, E3 in Hrun.
  destruct (pc_run p1 ops) as [p2 replies]. exists g2. split; [by econstructor|done].
Qed.

Lemma pc_create_is counter c mem next p :
  tm_pc_create counter (Some c) mem = (next, TM_PC_OK, Some p) -> 0 <= pc_capacity c ->
  portal_is p empty_registry /\ len (pp_rows p) = pc_capacity c /\ pp_incarnation p = counter /\
  pp_provider_generation p = pc_provider_generation c.
Proof.
  unfold tm_pc_create. intros E Hc. repeat case_match; simplify_eq. cbn.
  split; [|split; [rewrite len_replicate; lia|done]].
  destruct (fresh_table life_of counter (Z.to_nat (pc_capacity c)) pc_zero_row)
    as (G1 & G2 & G3); [done..|].
  split; cbn; try done; [constructor|]. by intros i r [-> _]%lookup_replicate.
Qed.

Lemma pc_destroy_spec p g :
  portal_is p g -> tm_pc_destroy p = TM_PC_OK <-> rg_sealed g = true /\ rg_life g = ∅.
Proof.
  intros Hp. unfold tm_pc_destroy. rewrite <- (pi_sealed _ _ Hp).
  rewrite (tracks_empty life_of life_busy _ _ _ (pi_rows _ _ Hp) (pi_life _ _ Hp)). cbn.
  destruct (rg_sealed g); cbn [negb]; [|by split; [|intros []]].
  destruct (existsb _ _); by split; [|intros []].
Qed.

(** *** The life of a ticket *)

Inductive pc_event : Type :=
  | Begun (correlation : Z)
  | Completed (status : Z)
  | StartFailed (status : Z)
  | CancelRequested
  | Quiesced
  | Taken (r : tm_pc_result_v1)
  | Settled.

Definition on (t t' : ticket) (e : pc_event) : option pc_event :=
  if decide (t' = t) then Some e else None.

(** What an operation that succeeded means for the ticket [t]. *)
Definition event_of (t : ticket) (op : pc_op) (reply : pc_reply) : option pc_event :=
  match op, reply with
  | PcBegin c, (TM_PC_OK, t', _) => on t t' (Begun c)
  | PcFailStart t' status, (TM_PC_OK, _, _) => on t t' (StartFailed status)
  | PcComplete t' status, (TM_PC_OK, _, _) => on t t' (Completed status)
  | PcRequestCancel t', (TM_PC_OK, _, _) => on t t' CancelRequested
  | PcCancelQuiesced t', (TM_PC_OK, _, _) => on t t' Quiesced
  | PcTake, (TM_PC_OK, t', Some r) => on t t' (Taken r)
  | PcSettle t', (TM_PC_OK, _, _) => on t t' Settled
  | _, _ => None
  end.

Fixpoint pc_history (t : ticket) (ops : list pc_op) (replies : list pc_reply) : list pc_event :=
  match ops, replies with
  | op :: ops, reply :: replies =>
      option_list (event_of t op reply) ++ pc_history t ops replies
  | _, _ => []
  end.

(** The four lives of a ticket. *)
Definition lives (generation c status : Z) : list (list pc_event) :=
  let result := finish (begun generation c) in
  [[Begun c; Completed status; Taken (result TM_PC_COMPLETED 1 status); Settled];
   [Begun c; CancelRequested; Completed status; Taken (result TM_PC_CANCELLED 1 status); Settled];
   [Begun c; CancelRequested; Quiesced; Taken (result TM_PC_CANCELLED 0 0); Settled];
   [Begun c; StartFailed status; Taken (result TM_PC_START_FAILED 0 status); Settled]].

Section Lives.
Context (cap inc gen : Z).

Definition lived (g : registry) (t : ticket) (h : list pc_event) : Prop :=
  (h = [] <-> t ∉ rg_begun g) /\
  match rg_life g !! t with
  | None => h = [] \/ exists c st, h ∈ lives gen c st
  | Some (PC_FREE, _) => False
  | Some (PC_INFLIGHT, r) => exists c, h = [Begun c] /\ r = begun gen c
  | Some (PC_CANCEL_PENDING, r) => exists c, h = [Begun c; CancelRequested] /\ r = begun gen c
  | Some (PC_READY, r) => exists c st, h ++ [Taken r; Settled] ∈ lives gen c st
  | Some (PC_TAKEN, r) => exists c st, h ++ [Settled] ∈ lives gen c st
  end.

Lemma lives_complete c st :
  [Begun c; Completed st; Taken (finish (begun gen c) TM_PC_COMPLETED 1 st); Settled] ∈ lives gen c st.
Proof. left. Qed.
Lemma lives_cancel_complete c st :
  [Begun c; CancelRequested; Completed st; Taken (finish (begun gen c) TM_PC_CANCELLED 1 st); Settled]
    ∈ lives gen c st.
Proof. right. left. Qed.
Lemma lives_cancel c st :
  [Begun c; CancelRequested; Quiesced; Taken (finish (begun gen c) TM_PC_CANCELLED 0 0); Settled]
    ∈ lives gen c st.
Proof. right. right. left. Qed.
Lemma lives_fail c st :
  [Begun c; StartFailed st; Taken (finish (begun gen c) TM_PC_START_FAILED 0 st); Settled]
    ∈ lives gen c st.
Proof. do 3 right. left. Qed.

(** One more event of [t]: it was begun, and so it stays. *)
Lemma lived_next g t h e life' :
  lived g t h -> is_Some (rg_life g !! t) ->
  match life' with
  | (PC_FREE, _) => False
  | (PC_INFLIGHT, r) => exists c, h ++ [e] = [Begun c] /\ r = begun gen c
  | (PC_CANCEL_PENDING, r) => exists c, h ++ [e] = [Begun c; CancelRequested] /\ r = begun gen c
  | (PC_READY, r) => exists c st, (h ++ [e]) ++ [Taken r; Settled] ∈ lives gen c st
  | (PC_TAKEN, r) => exists c st, (h ++ [e]) ++ [Settled] ∈ lives gen c st
  end ->
  lived (set_life g (<[t := life']> (rg_life g))) t (h ++ [e]).
Proof.
  intros [Hb Hl] [life Hs] Hn. unfold lived, set_life. cbn. rewrite lookup_insert_eq.
  split; [|by destruct life' as [[] ?]]. split; [by destruct h|]. intros H. apply Hb in H. exfalso.
  rewrite Hs in Hl. destruct life as [[] r]; [done|naive_solver|naive_solver| |]; subst h;
    destruct Hl as (c & st & Hl); repeat (apply elem_of_cons in Hl as [Hl|Hl]; [done|]);
    by apply not_elem_of_nil in Hl.
Qed.

Lemma lived_other g t t' h life' :
  lived g t h -> t' <> t -> lived (set_life g (<[t' := life']> (rg_life g))) t h.
Proof. unfold lived, set_life. cbn. intros H Hne. by rewrite lookup_insert_ne. Qed.

(** A transition of [t], from the life it has. *)
Lemma lived_transition g t h op r state life e :
  lived g t h -> rg_life g !! t = Some (state, r) -> transition op state r = Some life ->
  event_of t op (TM_PC_OK, no_ticket, None) = Some e ->
  lived (set_life g (<[t := life]> (rg_life g))) t (h ++ [e]).
Proof.
  intros Hl Hs Htr He. apply lived_next; [done|by eexists|]. destruct Hl as [_ Hl]. rewrite Hs in Hl.
  destruct op, state; cbn in Htr; simplify_eq; cbn in He; unfold on in He; case_decide; simplify_eq;
    destruct Hl as (c & -> & ->); try (exists c; split; done).
  - exists c, status. apply lives_fail.
  - exists c, status. apply lives_complete.
  - exists c, status. apply lives_cancel_complete.
  - exists c, 0. apply lives_cancel.
Qed.

Lemma lived_step g op reply g' t h :
  lived g t h -> registry_step cap inc gen g op reply g' ->
  lived g' t (h ++ option_list (event_of t op reply)).
Proof.
  intros Hl. destruct reply as [[rc t'] r'].
  assert (Hkeep : event_of t op (rc, t', r') = None -> lived g t (h ++ option_list (event_of t op (rc, t', r'))))
    by (intros ->; by rewrite app_nil_r).
  assert (Hadv : forall u, pc_subject op = Some u ->
    (forall rc', event_of t op (rc', t', r') =
       match rc' with TM_PC_OK => event_of t op (TM_PC_OK, no_ticket, None) | _ => None end) ->
    match rg_life g !! u with
    | None => rc = TM_PC_ESTALE /\ g' = g
    | Some (state, r) =>
        match transition op state r with
        | Some life => rc = TM_PC_OK /\ g' = set_life g (<[u := life]> (rg_life g))
        | None => rc = TM_PC_EALREADY /\ g' = g
        end
    end -> lived g' t (h ++ option_list (event_of t op (rc, t', r')))).
  { intros u Hu Hev. destruct (rg_life g !! u) as [[state r]|] eqn:Es.
    2: { intros [-> ->]. apply Hkeep. by rewrite Hev. }
    destruct (transition op state r) as [life|] eqn:Et.
    2: { intros [-> ->]. apply Hkeep. by rewrite Hev. }
    intros [-> ->]. rewrite Hev. destruct (decide (u = t)) as [->|Hne].
    - destruct (event_of t op (TM_PC_OK, no_ticket, None)) as [e|] eqn:Ee.
      + by eapply lived_transition.
      + exfalso. destruct op; cbn in Hu; simplify_eq; cbn in Ee; unfold on in Ee;
          rewrite ?decide_True in Ee by done; done.
    - assert (E : event_of t op (TM_PC_OK, no_ticket, None) = None).
      { destruct op; cbn in Hu; simplify_eq; cbn; unfold on; by rewrite decide_False. }
      rewrite E. cbn. rewrite app_nil_r. by apply lived_other. }
  destruct op as [c|u st|u st|u|u| |u|]; cbn [registry_step].
  - destruct (c =? 0); [intros [-> ->]; by apply Hkeep|].
    destruct (rg_sealed g); [intros [-> ->]; by apply Hkeep|].
    destruct (len (rg_begun g) + 1 =? U64_MAX); [intros [-> ->]; by apply Hkeep|].
    intros [(-> & Hf & ->)|(-> & _ & ->)]; [|by apply Hkeep].
    cbn. unfold on. case_decide as E.
    + subst t'. destruct Hl as [Hb _]. apply Hb in Hf. subst h. unfold lived. cbn.
      rewrite lookup_insert_eq. split; [|by exists c]. split; [done|]. intros H. exfalso. apply H.
      apply elem_of_app. right. by apply list_elem_of_singleton.
    + cbn. rewrite app_nil_r. destruct Hl as [Hb Hl]. unfold lived. cbn.
      rewrite lookup_insert_ne by done. split; [|done]. rewrite Hb.
      rewrite not_elem_of_app, list_elem_of_singleton. naive_solver.
  - intros H. eapply (Hadv u); [done| |done]. by intros [].
  - intros H. eapply (Hadv u); [done| |done]. by intros [].
  - intros H. eapply (Hadv u); [done| |done]. by intros [].
  - intros H. eapply (Hadv u); [done| |done]. by intros [].
  - destruct (list_find _ _) as [[k u]|]; [|intros (-> & -> & ->); by apply Hkeep].
    intros (r & Hr & -> & -> & -> & ->). cbn. unfold on. case_decide as E.
    + subst u. apply lived_next; [done|by eexists|]. destruct Hl as [_ Hl]. rewrite Hr in Hl.
      destruct Hl as (c & st & Hl). exists c, st. by rewrite <- app_assoc.
    + cbn. rewrite app_nil_r. by apply lived_other.
  - destruct (rg_life g !! u) as [[state r]|] eqn:Es; [|intros [-> ->]; by apply Hkeep].
    destruct state; try (intros [-> ->]; by apply Hkeep). intros [-> ->]. cbn. unfold on.
    destruct Hl as [Hb Hl]. case_decide as E.
    + subst u. rewrite Es in Hl. unfold lived. cbn. rewrite lookup_delete_eq. split; [|by right].
      split; [by destruct h|]. intros H%Hb. subst h. exfalso. destruct Hl as (c & st & Hl).
      repeat (apply elem_of_cons in Hl as [Hl|Hl]; [done|]). by apply not_elem_of_nil in Hl.
    + cbn. rewrite app_nil_r. unfold lived. cbn. by rewrite lookup_delete_ne.
  - intros [-> ->]. by apply Hkeep.
Qed.

Lemma lived_run g ops replies g' t h :
  registry_run cap inc gen g ops replies g' -> lived g t h ->
  lived g' t (h ++ pc_history t ops replies).
Proof.
  intros Hrun. revert h. induction Hrun as [g|g op reply g1 ops replies g2 Hstep _ IH]; intros h Hl; cbn.
  { by rewrite app_nil_r. }
  rewrite app_assoc. apply IH. by eapply lived_step.
Qed.

Lemma lived_prefix g t h :
  lived g t h ->
  h = [] \/ exists c st life, life ∈ lives gen c st /\ h `prefix_of` life /\
    (rg_life g !! t = None -> h = life).
Proof.
  intros [_ Hl]. destruct (rg_life g !! t) as [[[] r]|].
  - done.
  - destruct Hl as (c & -> & ->). right. exists c, 0. eexists. split; [apply lives_complete|].
    split; [by eexists|done].
  - destruct Hl as (c & -> & ->). right. exists c, 0. eexists. split; [apply lives_cancel|].
    split; [by eexists|done].
  - destruct Hl as (c & st & Hl). right. exists c, st. eexists. split; [done|]. split; [by eexists|done].
  - destruct Hl as (c & st & Hl). right. exists c, st. eexists. split; [done|]. split; [by eexists|done].
  - destruct Hl as [|(c & st & Hl)]; [by left|]. right. by exists c, st, h.
Qed.
End Lives.

(** ** Properties *)

(** C14: The portal implements the registry: whatever the interleaving of
    callbacks and owner, every reply is the one the registry gives (fresh tickets
    unless every row is in use or used up, the transition of the ticket's state or
    the reason there is none, the ready result of the work begun first), and it
    can be destroyed exactly when it is sealed and every ticket is settled. *)
Theorem completion_refines_registry counter c mem next p ops :
  tm_pc_create counter (Some c) mem = (next, TM_PC_OK, Some p) -> 0 <= pc_capacity c ->
  Forall pc_op_ok ops ->
  exists g, registry_run (pc_capacity c) counter (pc_provider_generation c)
              empty_registry ops (pc_run p ops).2 g /\
    (tm_pc_destroy (pc_run p ops).1 = TM_PC_OK <-> rg_sealed g = true /\ rg_life g = ∅).
Proof.
  intros Hc Hcap Hops. destruct (pc_create_is _ _ _ _ _ Hc Hcap) as (Hp & <- & <- & <-).
  destruct (registry_run_of p empty_registry ops Hp Hops) as (g & Hrun & Hg).
  exists g. split; [done|]. by apply pc_destroy_spec.
Qed.

(** C15: Every ticket lives one of four lives, and each step of it happens once:
    it completes; its cancellation is requested and then it completes, or is
    acknowledged as quiescent; or its start fails.  The result that is taken is
    that of the terminal step, cancelled whenever the request came first, and it is
    taken once.  When the portal can be destroyed every life is over. *)
Theorem completion_lives counter c mem next p ops t p' replies :
  tm_pc_create counter (Some c) mem = (next, TM_PC_OK, Some p) -> 0 <= pc_capacity c ->
  Forall pc_op_ok ops -> pc_run p ops = (p', replies) ->
  pc_history t ops replies = [] \/
  exists correlation status life,
    life ∈ lives (pc_provider_generation c) correlation status /\
    pc_history t ops replies `prefix_of` life /\
    (tm_pc_destroy p' = TM_PC_OK -> pc_history t ops replies = life).
Proof.
  intros Hc Hcap Hops Er. destruct (pc_create_is _ _ _ _ _ Hc Hcap) as (Hp & _ & _ & <-).
  destruct (registry_run_of p empty_registry ops Hp Hops) as (g & Hrun & Hg).
  rewrite Er in Hrun, Hg. cbn in Hrun, Hg.
  assert (H0 : lived (pp_provider_generation p) empty_registry t []).
  { split; [|by left]. split; [intros _; apply not_elem_of_nil|done]. }
  pose proof (lived_run _ _ _ _ _ _ _ t [] Hrun H0) as Hl. cbn in Hl.
  destruct (lived_prefix _ _ _ _ Hl) as [|(c0 & st & life & H1 & H2 & H3)]; [by left|right].
  exists c0, st, life. split; [done|]. split; [done|]. intros Hd. apply H3.
  apply (pc_destroy_spec p' g Hg) in Hd as [_ ->]. apply lookup_empty.
Qed.

(** *** An example *)

Definition ex_pc_config : tm_pc_config_v1 := Build_tm_pc_config_v1 SIZEOF_PC_CONFIG 1 2 0 9.
Definition ex_portal : tm_pc_portal := Build_tm_pc_portal 4 9 1 false [pc_zero_row; pc_zero_row].

(** The second ticket completes first, the first one after its cancellation. *)
Definition ex_pc_ops : list pc_op :=
  [PcBegin 100; PcBegin 200; PcBegin 300; PcComplete (Build_ticket 4 1 1) 5;
   PcRequestCancel (Build_ticket 4 0 1); PcComplete (Build_ticket 4 0 1) 6;
   PcCancelQuiesced (Build_ticket 4 0 1); PcTake; PcTake; PcTake; PcSeal;
   PcSettle (Build_ticket 4 0 1); PcSettle (Build_ticket 4 1 1); PcBegin 400].

Lemma ex_pc_ops_ok : Forall pc_op_ok ex_pc_ops.
Proof. repeat constructor; done. Qed.

Definition ex_pc_end : tm_pc_portal := (pc_run ex_portal ex_pc_ops).1.
Definition ex_pc_replies : list pc_reply := (pc_run ex_portal ex_pc_ops).2.

Lemma completion_refines_registry_witness :
  exists g, registry_run 2 4 9 empty_registry ex_pc_ops ex_pc_replies g /\
    (tm_pc_destroy ex_pc_end = TM_PC_OK <-> rg_sealed g = true /\ rg_life g = ∅).
Proof.
  apply (completion_refines_registry 4 ex_pc_config (true, true) 5 ex_portal ex_pc_ops);
    [vm_compute; reflexivity|cbn; lia|exact ex_pc_ops_ok].
Defined.

Lemma completion_lives_witness :
  tm_pc_destroy ex_pc_end = TM_PC_OK /\
  (pc_history (Build_ticket 4 0 1) ex_pc_ops ex_pc_replies = [] \/
   exists correlation status life, life ∈ lives 9 correlation status /\
     pc_history (Build_ticket 4 0 1) ex_pc_ops ex_pc_replies `prefix_of` life /\
     (tm_pc_destroy ex_pc_end = TM_PC_OK ->
      pc_history (Build_ticket 4 0 1) ex_pc_ops ex_pc_replies = life)).
Proof.
  split; [vm_compute; reflexivity|].
  exact (completion_lives 4 ex_pc_config (true, true) 5 ex_portal ex_pc_ops (Build_ticket 4 0 1)
    ex_pc_end ex_pc_replies ltac:(vm_compute; reflexivity) ltac:(cbn; lia) ex_pc_ops_ok
    (surjective_pairing _)).
Defined.
