(* ===== verification/Fanout.v ===== *)
(** * Fan-out of frames

    streamgraph/src/turbo_streamgraph_fanout.c: an owner admits the frames of a
    store to bounded branches, each with a pin of its own, and hands them to the
    branches' consumers.  One caller lane serialises all calls on the owner and the
    store.  Handles and out parameters are not [NULL]; the branches are the first
    [branch_count] ones, the rows of a branch the array of [depth] elements. *)

From stdpp Require Import list gmap.
From S2P Require Import Prelude Tickets FrameStore.

(* ------------------------------------------------------------------ *)
(** ** Data *)

Definition TM_FO_ABI_V1 : Z := 1.
Definition TM_FO_MAX_BRANCHES : Z := 8.
Definition TM_FO_MAX_QUEUE_DEPTH : Z := 64.
Definition SIZEOF_FO_BRANCH_CONFIG : Z := 20.
Definition SIZEOF_FO_CONFIG : Z := 176.
Definition SIZEOF_FO_STATS : Z := 56.

Inductive tm_fo_status : Type :=
  | TM_FO_OK | TM_FO_EINVAL | TM_FO_EVERSION | TM_FO_ENOMEM | TM_FO_EFULL | TM_FO_EBUSY
  | TM_FO_ESTALE | TM_FO_ESHUTDOWN | TM_FO_EFRAME | TM_FO_EEXHAUSTED.

#[export] Instance tm_fo_status_eq_dec : EqDecision tm_fo_status.
Proof. solve_decision. Defined.

Definition TM_FO_ORDERED_LOSSLESS : Z := 1.
Definition TM_FO_SAMPLE : Z := 2.
Definition TM_FO_LATEST : Z := 3.

Record tm_fo_branch_config_v1 := {
  bc_size : Z;
  bc_version : Z;
  bc_policy : Z;
  bc_queue_depth : Z;
  bc_sample_every : Z;
}.

Record tm_fo_config_v1 := {
  oc_size : Z;
  oc_version : Z;
  oc_branch_count : Z;
  oc_reserved : Z;
  oc_branches : list tm_fo_branch_config_v1;
}.

(** The branch, and the row in it. *)
Record tm_fo_ticket_v1 := { ft_branch : Z; ft_row : ticket }.

Definition zero_fo_ticket : tm_fo_ticket_v1 := Build_tm_fo_ticket_v1 0 no_ticket.

Inductive fo_state : Type := FO_FREE | FO_READY | FO_TAKEN.

#[export] Instance fo_state_eq_dec : EqDecision fo_state.
Proof. solve_decision. Defined.

Record fo_row := {
  fr_state : fo_state;
  fr_generation : Z;
  fr_order : Z;
  fr_ref : tm_fs_frame_ref_v1;
  fr_pin : tm_fs_ticket_v1;
}.

Definition fo_zero_row : fo_row := Build_fo_row FO_FREE 0 0 zero_ref zero_ticket.

#[export] Instance fo_row_Row : Row fo_row := {|
  row_busy r := negb (bool_decide (fr_state r = FO_FREE));
  row_generation := fr_generation;
  row_order r := if bool_decide (fr_state r = FO_READY) then Some (fr_order r) else None;
|}.

Record tm_fo_branch_stats_v1 := {
  bs_ready : Z;
  bs_taken : Z;
  bs_admitted : Z;
  bs_sampled_out : Z;
  bs_replaced_ready : Z;
  bs_rejected : Z;
  bs_completed : Z;
}.

Record fo_branch := {
  fb_rows : list fo_row;
  fb_policy : Z;
  fb_sample_every : Z;
  fb_stats : tm_fo_branch_stats_v1;
}.

Record tm_fo_owner := {
  fo_incarnation : Z;
  fo_next_order : Z;
  fo_branches : list fo_branch;
  fo_sealed : bool;
}.

Definition set_rows (b : fo_branch) (rows : list fo_row) (stats : tm_fo_branch_stats_v1) : fo_branch :=
  Build_fo_branch rows (fb_policy b) (fb_sample_every b) stats.

Definition set_branches (o : tm_fo_owner) (branches : list fo_branch) : tm_fo_owner :=
  Build_tm_fo_owner (fo_incarnation o) (fo_next_order o) branches (fo_sealed o).

(** The counters after an event of a branch. *)
Definition count_rejected (s : tm_fo_branch_stats_v1) : tm_fo_branch_stats_v1 :=
  Build_tm_fo_branch_stats_v1 (bs_ready s) (bs_taken s) (bs_admitted s) (bs_sampled_out s)
    (bs_replaced_ready s) (u64 (bs_rejected s + 1)) (bs_completed s).

Definition count_sampled_out (s : tm_fo_branch_stats_v1) : tm_fo_branch_stats_v1 :=
  Build_tm_fo_branch_stats_v1 (bs_ready s) (bs_taken s) (bs_admitted s) (u64 (bs_sampled_out s + 1))
    (bs_replaced_ready s) (bs_rejected s) (bs_completed s).

Definition count_replaced (s : tm_fo_branch_stats_v1) : tm_fo_branch_stats_v1 :=
  Build_tm_fo_branch_stats_v1 (bs_ready s) (bs_taken s) (bs_admitted s) (bs_sampled_out s)
    (u64 (bs_replaced_ready s + 1)) (bs_rejected s) (bs_completed s).

Definition count_admitted (s : tm_fo_branch_stats_v1) : tm_fo_branch_stats_v1 :=
  Build_tm_fo_branch_stats_v1 (u32 (bs_ready s + 1)) (bs_taken s) (u64 (bs_admitted s + 1))
    (bs_sampled_out s) (bs_replaced_ready s) (bs_rejected s) (bs_completed s).

Definition count_taken (s : tm_fo_branch_stats_v1) : tm_fo_branch_stats_v1 :=
  Build_tm_fo_branch_stats_v1 (u32 (bs_ready s - 1)) (u32 (bs_taken s + 1)) (bs_admitted s)
    (bs_sampled_out s) (bs_replaced_ready s) (bs_rejected s) (bs_completed s).

Definition count_released (state : fo_state) (s : tm_fo_branch_stats_v1) : tm_fo_branch_stats_v1 :=
  Build_tm_fo_branch_stats_v1
    (if bool_decide (state = FO_READY) then u32 (bs_ready s - 1) else bs_ready s)
    (if bool_decide (state = FO_TAKEN) then u32 (bs_taken s - 1) else bs_taken s)
    (bs_admitted s) (bs_sampled_out s) (bs_replaced_ready s) (bs_rejected s) (u64 (bs_completed s + 1)).

(* ------------------------------------------------------------------ *)
(** ** Operations *)

Definition fo_fs_status (rc : tm_fs_status) : tm_fo_status :=
  match rc with
  | TM_FS_OK => TM_FO_OK
  | TM_FS_EFULL => TM_FO_EFULL
  | TM_FS_EBUSY => TM_FO_EBUSY
  | TM_FS_ESTALE => TM_FO_ESTALE
  | TM_FS_ESHUTDOWN => TM_FO_ESHUTDOWN
  | TM_FS_EEXHAUSTED => TM_FO_EEXHAUSTED
  | _ => TM_FO_EFRAME
  end.

Definition fo_selected (b : fo_branch) (ref : tm_fs_frame_ref_v1) : res bool :=
  if negb (fb_policy b =? TM_FO_SAMPLE) then Ok true
  else if fb_sample_every b =? 0 then Fault
  else Ok (u64 (rf_frame_id ref - 1) mod fb_sample_every b =? 0).

Definition fo_choose_row (b : fo_branch) : option nat :=
  match row_free (fb_rows b) with
  | Some (i, _) => Some i
  | None =>
      if negb (fb_policy b =? TM_FO_LATEST) then None
      else row_oldest 0 None U64_MAX (fb_rows b)
  end.

(** The branch and the row of a ticket. *)
Definition fo_lookup (o : tm_fo_owner) (t : tm_fo_ticket_v1) : option (fo_branch * fo_row) :=
  if negb (tk_incarnation (ft_row t) =? fo_incarnation o) || (len (fo_branches o) <=? ft_branch t)
  then None
  else
    match fo_branches o !! Z.to_nat (ft_branch t) with
    | Some b =>
        match row_find (fo_incarnation o) (fb_rows b) (ft_row t) with
        | Some r => Some (b, r)
        | None => None
        end
    | None => None
    end.

(** Releasing row [slot], which is [r]. *)
Definition fo_release (s : tm_fs_store) (b : fo_branch) (slot : nat) (r : fo_row)
    : res (tm_fs_store * fo_branch * tm_fo_status) :=
  '(s, rc) ← tm_fs_release_pin s (Some (fr_pin r));
  if negb (bool_decide (rc = TM_FS_OK)) then Ok (s, b, fo_fs_status rc)
  else
    Ok (s, set_rows b (<[slot := Build_fo_row FO_FREE (fr_generation r) 0 zero_ref zero_ticket]>
                         (fb_rows b)) (count_released (fr_state r) (fb_stats b)), TM_FO_OK).

Definition bad_branch_config (b : tm_fo_branch_config_v1) : bool :=
  negb (bc_size b =? SIZEOF_FO_BRANCH_CONFIG) || (bc_queue_depth b =? 0) ||
  (TM_FO_MAX_QUEUE_DEPTH <? bc_queue_depth b) ||
  (negb (bc_policy b =? TM_FO_ORDERED_LOSSLESS) && negb (bc_policy b =? TM_FO_SAMPLE) &&
   negb (bc_policy b =? TM_FO_LATEST)) ||
  (if bc_policy b =? TM_FO_SAMPLE then bc_sample_every b =? 0
   else negb (bc_sample_every b =? 0)).

Fixpoint check_branches (l : list tm_fo_branch_config_v1) : tm_fo_status :=
  match l with
  | [] => TM_FO_OK
  | b :: l =>
      if negb (bc_version b =? TM_FO_ABI_V1) then TM_FO_EVERSION
      else if bad_branch_config b then TM_FO_EINVAL else check_branches l
  end.

Definition new_branch (b : tm_fo_branch_config_v1) : fo_branch :=
  Build_fo_branch (replicate (Z.to_nat (bc_queue_depth b)) fo_zero_row) (bc_policy b)
    (bc_sample_every b) (Build_tm_fo_branch_stats_v1 0 0 0 0 0 0 0).

(** The global incarnation counter, before and after, and the owner; [mem] are
    the outcomes of the allocations of the owner and of the rows of each branch. *)
Definition tm_fo_create (fo_next_incarnation : Z) (cfg : option tm_fo_config_v1)
    (mem : bool * list bool) : res (Z * tm_fo_status * option tm_fo_owner) :=
  let? cfg := cfg else Ok (fo_next_incarnation, TM_FO_EINVAL, None) in
  if negb (oc_version cfg =? TM_FO_ABI_V1) then Ok (fo_next_incarnation, TM_FO_EVERSION, None)
  else if negb (oc_size cfg =? SIZEOF_FO_CONFIG) || truth (oc_reserved cfg) ||
          (oc_branch_count cfg =? 0) || (TM_FO_MAX_BRANCHES <? oc_branch_count cfg) then
    Ok (fo_next_incarnation, TM_FO_EINVAL, None)
  else
    branches ← rd_slice (oc_branches cfg) 0 (oc_branch_count cfg);
    if negb (bool_decide (check_branches branches = TM_FO_OK)) then
      Ok (fo_next_incarnation, check_branches branches, None)
    else
      let next := u64 (fo_next_incarnation + 1) in
      if (fo_next_incarnation =? 0) || (fo_next_incarnation =? U64_MAX) then
        Ok (next, TM_FO_EEXHAUSTED, None)
      else if negb mem.1 then Ok (next, TM_FO_ENOMEM, None)
      else if negb (forallb id (take (length branches) mem.2)) then Ok (next, TM_FO_ENOMEM, None)
      else Ok (next, TM_FO_OK,
               Some (Build_tm_fo_owner fo_next_incarnation 1 (new_branch <$> branches) false)).

(** The rows for the frame in the branches that select it, or the branch that
    has none. *)
Fixpoint fo_preflight (ref : tm_fs_frame_ref_v1) (i : nat) (branches : list fo_branch)
    : res (nat + list (option nat)) :=
  match branches with
  | [] => Ok (inr [])
  | b :: branches =>
      selected ← fo_selected b ref;
      if negb selected then
        rest ← fo_preflight ref (S i) branches;
        Ok (match rest with inl k => inl k | inr indexes => inr (None :: indexes) end)
      else
        match fo_choose_row b with
        | None => Ok (inl i)
        | Some k =>
            rest ← fo_preflight ref (S i) branches;
            Ok (match rest with inl k => inl k | inr indexes => inr (Some k :: indexes) end)
        end
  end.

(** A pin for each row, or the branch and the status of the first failure. *)
Fixpoint fo_reserve (s : tm_fs_store) (ref : tm_fs_frame_ref_v1) (i : nat)
    (indexes : list (option nat))
    : res (tm_fs_store * list tm_fs_ticket_v1 * option (nat * tm_fs_status)) :=
  match indexes with
  | [] => Ok (s, [], None)
  | None :: indexes =>
      '(s, pins, failed) ← fo_reserve s ref (S i) indexes; Ok (s, zero_ticket :: pins, failed)
  | Some _ :: indexes =>
      '(s, rc, pin) ← tm_fs_reserve_pin s (Some ref);
      if negb (bool_decide (rc = TM_FS_OK)) then Ok (s, [pin], Some (i, rc))
      else
        '(s, pins, failed) ← fo_reserve s ref (S i) indexes; Ok (s, pin :: pins, failed)
  end.

(** The ready rows among those chosen give way. *)
Fixpoint fo_evict (s : tm_fs_store) (branches : list fo_branch) (indexes : list (option nat))
    : res (tm_fs_store * list fo_branch * tm_fo_status) :=
  match branches, indexes with
  | b :: branches, index :: indexes =>
      match index with
      | None =>
          '(s, branches, rc) ← fo_evict s branches indexes; Ok (s, b :: branches, rc)
      | Some k =>
          row ← rd (fb_rows b) (Z.of_nat k);
          if bool_decide (fr_state row = FO_READY) then
            '(s, b, rc) ← fo_release s b k row;
            if negb (bool_decide (rc = TM_FO_OK)) then Ok (s, b :: branches, rc)
            else
              let b := set_rows b (fb_rows b) (count_replaced (fb_stats b)) in
              '(s, branches, rc) ← fo_evict s branches indexes; Ok (s, b :: branches, rc)
          else
            '(s, branches, rc) ← fo_evict s branches indexes; Ok (s, b :: branches, rc)
      end
  | _, _ => Ok (s, branches, TM_FO_OK)
  end.

Fixpoint fo_commit (order : Z) (ref : tm_fs_frame_ref_v1) (branches : list fo_branch)
    (indexes : list (option nat)) (pins : list tm_fs_ticket_v1) : res (list fo_branch) :=
  match branches, indexes, pins with
  | b :: branches, index :: indexes, pin :: pins =>
      b ← match index with
          | None => Ok (set_rows b (fb_rows b) (count_sampled_out (fb_stats b)))
          | Some k =>
              row ← rd (fb_rows b) (Z.of_nat k);
              Ok (set_rows b
                    (<[k := Build_fo_row FO_READY (u32 (fr_generation row + 1)) order ref pin]>
                       (fb_rows b)) (count_admitted (fb_stats b)))
          end;
      branches ← fo_commit order ref branches indexes pins;
      Ok (b :: branches)
  | _, _, _ => Ok branches
  end.

(** Releases the [reserved] pins. *)
Fixpoint fo_rollback (s : tm_fs_store) (reserved : nat) (pins : list tm_fs_ticket_v1)
    : res tm_fs_store :=
  match reserved, pins with
  | S n, pin :: pins =>
      if negb (tk_ticket_id pin =? 0) then
        '(s, _) ← tm_fs_release_pin s (Some pin); fo_rollback s n pins
      else fo_rollback s reserved pins
  | _, _ => Ok s
  end.

(** How many pins were reserved. *)
Definition reserved_count (pins : list tm_fs_ticket_v1) : nat :=
  length (filter (fun pin => tk_ticket_id pin <> 0) pins).

Definition reject_at (o : tm_fo_owner) (i : nat) : tm_fo_owner :=
  match fo_branches o !! i with
  | Some b => set_branches o (<[i := set_rows b (fb_rows b) (count_rejected (fb_stats b))]>
                               (fo_branches o))
  | None => o
  end.

Definition tm_fo_submit (o : tm_fo_owner) (s : tm_fs_store) (ref : option tm_fs_frame_ref_v1)
    : res (tm_fo_owner * tm_fs_store * tm_fo_status) :=
  let? ref := ref else Ok (o, s, TM_FO_EINVAL) in
  if (rf_frame_id ref =? 0) || negb (rf_size ref =? SIZEOF_FRAME_REF) ||
     negb (rf_version ref =? TM_FS_ABI_V1) then Ok (o, s, TM_FO_EINVAL)
  else if fo_sealed o then Ok (o, s, TM_FO_ESHUTDOWN)
  else if fo_next_order o =? U64_MAX then Ok (o, s, TM_FO_EEXHAUSTED)
  else
    plan ← fo_preflight ref 0 (fo_branches o);
    match plan with
    | inl i => Ok (reject_at o i, s, TM_FO_EFULL)
    | inr indexes =>
        '(s, pins, failed) ← fo_reserve s ref 0 indexes;
        match failed with
        | Some (i, rc) =>
            s ← fo_rollback s (reserved_count pins) pins;
            Ok (reject_at o i, s, fo_fs_status rc)
        | None =>
            '(s, branches, rc) ← fo_evict s (fo_branches o) indexes;
            if negb (bool_decide (rc = TM_FO_OK)) then
              s ← fo_rollback s (reserved_count pins) pins;
              Ok (set_branches o branches, s, rc)
            else
              branches ← fo_commit (fo_next_order o) ref branches indexes pins;
              Ok (Build_tm_fo_owner (fo_incarnation o) (u64 (fo_next_order o + 1)) branches
                    (fo_sealed o), s, TM_FO_OK)
        end
    end.

(** [o->branches[branch]], when it exists. *)
Definition branch_at (o : tm_fo_owner) (branch : Z) : option fo_branch :=
  if len (fo_branches o) <=? branch then None else fo_branches o !! Z.to_nat branch.

Definition put_branch (o : tm_fo_owner) (branch : Z) (b : fo_branch) : tm_fo_owner :=
  set_branches o (<[Z.to_nat branch := b]> (fo_branches o)).

(** The scan has no bound: every 64-bit order is below [U64_MAX + 1]. *)
Definition tm_fo_take (o : tm_fo_owner) (branch : Z)
    : tm_fo_owner * tm_fo_status * tm_fo_ticket_v1 * tm_fs_frame_ref_v1 :=
  match branch_at o branch with
  | None => (o, TM_FO_EINVAL, zero_fo_ticket, zero_ref)
  | Some b =>
      match row_oldest 0 None (U64_MAX + 1) (fb_rows b) with
      | None => (o, TM_FO_EBUSY, zero_fo_ticket, zero_ref)
      | Some i =>
          match fb_rows b !! i with
          | None => (o, TM_FO_EBUSY, zero_fo_ticket, zero_ref)
          | Some r =>
              let r' := Build_fo_row FO_TAKEN (fr_generation r) (fr_order r) (fr_ref r) (fr_pin r) in
              (put_branch o branch (set_rows b (<[i := r']> (fb_rows b)) (count_taken (fb_stats b))),
               TM_FO_OK, Build_tm_fo_ticket_v1 branch (ticket_of (fo_incarnation o) i r), fr_ref r)
          end
      end
  end.

Definition tm_fo_acquire_lease (o : tm_fo_owner) (s : tm_fs_store) (t : tm_fo_ticket_v1)
    : res (tm_fs_store * tm_fo_status * tm_fs_ticket_v1) :=
  match fo_lookup o t with
  | None => Ok (s, TM_FO_ESTALE, zero_ticket)
  | Some (_, r) =>
      if negb (bool_decide (fr_state r = FO_TAKEN)) then Ok (s, TM_FO_EBUSY, zero_ticket)
      else
        '(s, rc, lease) ← tm_fs_acquire_pinned s (Some (fr_pin r)) zero_ticket;
        Ok (s, fo_fs_status rc, lease)
  end.

Definition tm_fo_settle (o : tm_fo_owner) (s : tm_fs_store) (t : tm_fo_ticket_v1)
    : res (tm_fo_owner * tm_fs_store * tm_fo_status) :=
  match fo_lookup o t with
  | None => Ok (o, s, TM_FO_ESTALE)
  | Some (b, r) =>
      if negb (bool_decide (fr_state r = FO_TAKEN)) then Ok (o, s, TM_FO_EBUSY)
      else
        '(s, b, rc) ← fo_release s b (Z.to_nat (tk_slot (ft_row t))) r;
        Ok (put_branch o (ft_branch t) b, s, rc)
  end.

(** The rows of [b] from [i] on, [n] of them. *)
Fixpoint discard_loop (s : tm_fs_store) (b : fo_branch) (i n : nat)
    : res (tm_fs_store * fo_branch * tm_fo_status) :=
  match n with
  | O => Ok (s, b, TM_FO_OK)
  | S n =>
      r ← rd (fb_rows b) (Z.of_nat i);
      if bool_decide (fr_state r = FO_READY) then
        '(s, b, rc) ← fo_release s b i r;
        if negb (bool_decide (rc = TM_FO_OK)) then Ok (s, b, rc) else discard_loop s b (S i) n
      else discard_loop s b (S i) n
  end.

Definition tm_fo_discard_ready (o : tm_fo_owner) (s : tm_fs_store) (branch : Z)
    : res (tm_fo_owner * tm_fs_store * tm_fo_status) :=
  match branch_at o branch with
  | None => Ok (o, s, TM_FO_EINVAL)
  | Some b =>
      '(s, b, rc) ← discard_loop s b 0 (length (fb_rows b));
      Ok (put_branch o branch b, s, rc)
  end.

(** [out] is the size and the version of the structure that is passed. *)
Definition tm_fo_stats (o : tm_fo_owner) (branch : Z) (out : Z * Z)
    : tm_fo_status * option tm_fo_branch_stats_v1 :=
  match branch_at o branch with
  | None => (TM_FO_EINVAL, None)
  | Some b =>
      if negb (out.2 =? TM_FO_ABI_V1) then (TM_FO_EVERSION, None)
      else if negb (out.1 =? SIZEOF_FO_STATS) then (TM_FO_EINVAL, None)
      else (TM_FO_OK, Some (fb_stats b))
  end.

Definition tm_fo_seal (o : tm_fo_owner) : tm_fo_owner * tm_fo_status :=
  (Build_tm_fo_owner (fo_incarnation o) (fo_next_order o) (fo_branches o) true, TM_FO_OK).

(** Whether the owner was freed. *)
Definition tm_fo_destroy (o : tm_fo_owner) : tm_fo_status :=
  if negb (fo_sealed o) then TM_FO_EBUSY
  else if existsb (fun b => truth (bs_ready (fb_stats b)) || truth (bs_taken (fb_stats b)))
            (fo_branches o) then TM_FO_EBUSY
  else TM_FO_OK.

(* ------------------------------------------------------------------ *)
(** ** Pins

    [holds s p ref]: the pin [p] is live in the store, on the frame [ref]. *)

Definition holds (s : tm_fs_store) (p : tm_fs_ticket_v1) (ref : tm_fs_frame_ref_v1) : Prop :=
  of_store s p /\
  exists j r, fs_pins s !! j = Some r /\ cr_token r = tk_ticket_id p /\ cr_token r <> 0 /\
    cr_slot r = rf_slot ref /\ cr_generation r = rf_slot_generation ref.

Definition pin_live (s : tm_fs_store) (token : Z) : Prop :=
  exists j r, fs_pins s !! j = Some r /\ cr_token r = token /\ token <> 0.

Definition pin_ids (l : list (tm_fs_ticket_v1 * tm_fs_frame_ref_v1)) : list Z :=
  (fun pr => tk_ticket_id pr.1) <$> l.

(** A list of pins, each live and on its frame, and all different. *)
Definition pins_ok (s : tm_fs_store) (l : list (tm_fs_ticket_v1 * tm_fs_frame_ref_v1)) : Prop :=
  Forall (fun pr => holds s pr.1 pr.2) l /\ NoDup (pin_ids l).

#[export] Instance pins_ok_Proper s : Proper ((≡ₚ) ==> iff) (pins_ok s).
Proof. intros l k Hlk. unfold pins_ok, pin_ids. by rewrite Hlk. Qed.

Lemma holds_live s p ref : holds s p ref -> pin_live s (tk_ticket_id p).
Proof. intros (_ & j & r & Hj & <- & Hn & _). by exists j, r. Qed.

Lemma pin_live_bound s token : fs_wf s -> pin_live s token -> token <= fs_next_ticket_id s.
Proof.
  intros Hw (j & r & Hj & <- & Hn). destruct (wf_rows _ Hw PIN j r Hj Hn) as (? & _). lia.
Qed.

(** What a change of the store does to a pin that it does not release. *)
Lemma holds_change s released s' p ref :
  fs_wf s -> fs_change s released s' -> released <> Some (PIN, tk_ticket_id p) ->
  holds s p ref -> holds s' p ref.
Proof.
  intros Hw Hc Hr (Ho & j & r & Hj & Ht & Hn & Hrest). split; [by eapply fs_change_same_store|].
  exists j, r. split; [|done]. apply (fs_change_row s released s' PIN j r); try done. by rewrite Ht.
Qed.

Lemma acquire_pin_live s j r row next i slot token :
  fs_pins s !! j = Some r -> cr_token r = 0 -> cr_token row <> 0 ->
  pin_live (with_credit PIN s j row next i slot) token <->
  pin_live s token \/ token = cr_token row.
Proof.
  intros Hj Hr Hrow. unfold pin_live. cbn. apply lookup_lt_Some in Hj as Hl. split.
  - intros (k & c & Hk & <- & Hn). apply list_lookup_insert_Some in Hk as [(_ & <- & _)|[_ Hk]];
      [by right|left; by exists k, c].
  - intros [(k & c & Hk & <- & Hn)| ->].
    + exists k, c. rewrite list_lookup_insert_ne; [done|]. intros ->. by simplify_eq.
    + exists j, row. by rewrite list_lookup_insert_eq.
Qed.

(** From [s], where the pins [l] are ours, to [s'], where [l'] are: what is not ours
    is untouched, the leases and what the references name too. *)
Record moved (s : tm_fs_store) (l : list (tm_fs_ticket_v1 * tm_fs_frame_ref_v1))
    (s' : tm_fs_store) (l' : list (tm_fs_ticket_v1 * tm_fs_frame_ref_v1)) : Prop := {
  mv_wf : fs_wf s';
  mv_pins : pins_ok s' l';
  mv_leases : fs_leases s' = fs_leases s;
  mv_foreign : forall token, pin_live s' token /\ token ∉ pin_ids l' <->
                             pin_live s token /\ token ∉ pin_ids l;
  mv_names : forall i generation data, names s i generation data -> names s' i generation data;
  mv_current : forall ref, current s ref -> current s' ref;
}.

#[export] Instance moved_Proper s :
  Proper ((≡ₚ) ==> eq ==> (≡ₚ) ==> iff) (moved s).
Proof.
  assert (H : forall l1 l2 k1 k2 s', l1 ≡ₚ l2 -> k1 ≡ₚ k2 -> moved s l1 s' k1 -> moved s l2 s' k2).
  { intros l1 l2 k1 k2 s' Hl Hk []. split; try done; [by rewrite <- Hk|].
    intros token. unfold pin_ids in *. by rewrite <- Hl, <- Hk. }
  intros l1 l2 Hl s' _ <- k1 k2 Hk. by split; apply H.
Qed.

Lemma moved_refl s l : fs_wf s -> pins_ok s l -> moved s l s l.
Proof. by split. Qed.

Lemma moved_trans s l s1 l1 s2 l2 : moved s l s1 l1 -> moved s1 l1 s2 l2 -> moved s l s2 l2.
Proof.
  intros [] []. split; try done; [congruence| |auto..].
  intros token. rewrite mv_foreign1. apply mv_foreign0.
Qed.

Lemma reserve_pins s ref l :
  fs_wf s -> 0 <= rf_slot ref -> pins_ok s l ->
  (exists rc, tm_fs_reserve_pin s (Some ref) = Ok (s, rc, zero_ticket) /\ rc <> TM_FS_OK) \/
  (exists s' pin, tm_fs_reserve_pin s (Some ref) = Ok (s', TM_FS_OK, pin) /\
     tk_ticket_id pin <> 0 /\ moved s l s' ((pin, ref) :: l)).
Proof.
  intros Hw Hs [Hl Hd]. assert (Href : ref_ok (Some ref)) by (intros r [= <-]; done).
  destruct (acquire_ref_spec PIN s (Some ref) Hw Href)
    as [(rc & -> & Hrc)|(r & i & slot & [= <-] & Hi & Hslot & Hm & ->)]; [left; by eexists|].
  destruct (acquire_credit_spec PIN s i slot Hslot) as [(rc & -> & Hrc)|(j & c & Hj & Hc & Hmax & ->)];
    [left; by eexists|right].
  pose proof (wf_tickets _ Hw) as Ht. pose proof (ref_matches_live _ _ Hm) as Hlive.
  set (row := Build_fs_credit (fs_next_ticket_id s + 1) (Z.of_nat i) (sl_slot_generation slot)).
  set (s' := with_credit PIN s j row (fs_next_ticket_id s + 1) i _).
  assert (Hch : fs_change s None s') by (apply (change_acquire s PIN j c); try done; lia).
  eexists s', _. split; [done|]. split; [cbn; lia|].
  assert (Hfresh : forall t, pin_live s t -> t <> fs_next_ticket_id s + 1)
    by (intros t H%pin_live_bound; [lia|done]).
  assert (Hnot : fs_next_ticket_id s + 1 ∉ pin_ids l).
  { intros ([p r] & E & Hin)%list_elem_of_fmap. cbn in E. rewrite Forall_forall in Hl.
    specialize (Hl _ Hin). apply holds_live, Hfresh in Hl. cbn in Hl. congruence. }
  split; [by eapply fs_change_wf| |done| | |].
  - split; [constructor|cbn; by apply NoDup_cons].
    + split; [done|]. exists j, row. split; [apply list_lookup_insert_eq; by eapply lookup_lt_Some|].
      cbn. split; [done|]. split; [lia|]. split; [done|]. unfold ref_matches in Hm. lia.
    + eapply Forall_impl; [exact Hl|]. intros [p r]. by eapply holds_change.
  - intros token. unfold s'. rewrite (acquire_pin_live s j c row) by (done || cbn; lia). cbn.
    rewrite not_elem_of_cons. naive_solver.
  - intros. by eapply names_change.
  - intros r. by apply current_credit.
Qed.

Lemma release_pin_live s j r i slot token :
  fs_wf s -> fs_pins s !! j = Some r -> cr_token r <> 0 ->
  pin_live (with_credit PIN s j zero_credit (fs_next_ticket_id s) i slot) token <->
  pin_live s token /\ token <> cr_token r.
Proof.
  intros Hw Hj Hn. unfold pin_live. cbn. apply lookup_lt_Some in Hj as Hlt. split.
  - intros (k & c & Hk & <- & Hc). apply list_lookup_insert_Some in Hk as [(_ & <- & _)|[Hne Hk]]; [done|].
    split; [by exists k, c|]. intros Et. apply Hne.
    destruct (wf_unique _ Hw PIN PIN j k r c Hj Hk Hn) as [_ ?]; [congruence|done].
  - intros [(k & c & Hk & <- & Hc) Hne]. exists k, c.
    rewrite list_lookup_insert_ne; [done|]. intros ->. by simplify_eq.
Qed.

Lemma release_pins s p ref l :
  fs_wf s -> pins_ok s ((p, ref) :: l) ->
  exists s', tm_fs_release_pin s (Some p) = Ok (s', TM_FS_OK) /\ moved s ((p, ref) :: l) s' l.
Proof.
  intros Hw [Hl Hd]. apply Forall_cons in Hl as [[Ho (j & r & Hj & Ht & Hn & _)] Hl]. cbn in Ho, Ht.
  apply NoDup_cons in Hd as [Hnot Hd].
  destruct (release_live PIN s p j r Hw Ho Hj Ht Hn) as (i & slot & Hs & Hi & E).
  unfold tm_fs_release_pin. rewrite E. clear E.
  set (s' := with_credit PIN s j zero_credit _ i _).
  assert (Hch : fs_change s (Some (PIN, cr_token r)) s') by (by apply (change_release s PIN j r)).
  exists s'. split; [done|]. split; [by eapply fs_change_wf| |done| | |].
  - split; [|done]. apply Forall_forall. intros [q rq] Hin. rewrite Forall_forall in Hl.
    eapply holds_change; [done|done| |by apply (Hl _ Hin)]. intros [= E']. apply Hnot.
    apply list_elem_of_fmap. exists (q, rq). split; [cbn; congruence|done].
  - intros token. unfold s'. rewrite (release_pin_live s j r) by done. cbn.
    rewrite not_elem_of_cons, Ht. tauto.
  - intros. by eapply names_change.
  - intros r'. by apply current_release.
Qed.

(* ------------------------------------------------------------------ *)
(** ** Lanes

    What a branch promises.  A lane knows the tickets it ever issued, the frames
    its tickets name, waiting or held by the consumer, and the waiting ones in
    their order. *)

Inductive place : Type := Waiting | Held.

#[export] Instance place_eq_dec : EqDecision place.
Proof. solve_decision. Defined.

Record lane := {
  ln_policy : Z;
  ln_every : Z;
  ln_depth : Z;
  ln_issued : gset ticket;
  ln_frames : gmap ticket (place * tm_fs_frame_ref_v1);
  ln_queue : list (ticket * tm_fs_frame_ref_v1);
}.

(** Lanes of the same configuration. *)
Definition alike (l l' : lane) : Prop :=
  ln_policy l' = ln_policy l /\ ln_every l' = ln_every l /\ ln_depth l' = ln_depth l.

Definition with_frames (l : lane) (frames : gmap ticket (place * tm_fs_frame_ref_v1))
    (queue : list (ticket * tm_fs_frame_ref_v1)) : lane :=
  Build_lane (ln_policy l) (ln_every l) (ln_depth l) (ln_issued l) frames queue.

(** The lane samples the frames 1, 1 + every, 1 + 2 every, ... *)
Definition selects (l : lane) (ref : tm_fs_frame_ref_v1) : Prop :=
  ln_policy l = TM_FO_SAMPLE -> (ln_every l | rf_frame_id ref - 1).

Definition push (l : lane) (t : ticket) (ref : tm_fs_frame_ref_v1) : lane :=
  Build_lane (ln_policy l) (ln_every l) (ln_depth l) ({[t]} ∪ ln_issued l)
    (<[t := (Waiting, ref)]> (ln_frames l)) (ln_queue l ++ [(t, ref)]).

Definition forget (l : lane) (t : ticket) (queue : list (ticket * tm_fs_frame_ref_v1)) : lane :=
  with_frames l (delete t (ln_frames l)) queue.

Definition hold (l : lane) (t : ticket) (ref : tm_fs_frame_ref_v1)
    (queue : list (ticket * tm_fs_frame_ref_v1)) : lane :=
  with_frames l (<[t := (Held, ref)]> (ln_frames l)) queue.

Definition discard (l : lane) : lane :=
  with_frames l (filter (fun kv => kv.2.1 = Held) (ln_frames l)) [].

Definition full (inc : Z) (l : lane) : Prop :=
  used_up (ln_depth l) inc (ln_issued l) (ln_frames l).

(** A frame comes to a lane. *)
Inductive lane_submit (inc : Z) (ref : tm_fs_frame_ref_v1) (l : lane) : lane -> Prop :=
  | lane_skip : ~ selects l ref -> lane_submit inc ref l l
  | lane_admit t :
      selects l ref -> ~ full inc l -> t ∉ ln_issued l -> lane_submit inc ref l (push l t ref)
  | lane_replace t head old queue :
      selects l ref -> full inc l -> ln_policy l = TM_FO_LATEST ->
      ln_queue l = (head, old) :: queue -> t ∉ ln_issued l ->
      lane_submit inc ref l (push (forget l head queue) t ref).

(** A frame that a lane does not take. *)
Definition refuses (inc : Z) (ref : tm_fs_frame_ref_v1) (l : lane) : Prop :=
  selects l ref /\ full inc l /\ (ln_policy l <> TM_FO_LATEST \/ ln_queue l = []).

(* ------------------------------------------------------------------ *)
(** ** A branch is a lane *)

Definition live_of (r : fo_row) : option (place * tm_fs_frame_ref_v1) :=
  match fr_state r with
  | FO_FREE => None
  | FO_READY => Some (Waiting, fr_ref r)
  | FO_TAKEN => Some (Held, fr_ref r)
  end.

Definition count (state : fo_state) (rows : list fo_row) : Z :=
  len (filter (fun r => fr_state r = state) rows).

Record branch_is (inc next : Z) (b : fo_branch) (l : lane) : Prop := {
  bi_config : ln_policy l = fb_policy b /\ ln_every l = fb_sample_every b /\
    ln_depth l = len (fb_rows b);
  bi_depth : len (fb_rows b) <= TM_FO_MAX_QUEUE_DEPTH;
  bi_every : fb_policy b = TM_FO_SAMPLE -> 0 < fb_sample_every b;
  bi_next : 1 <= next <= U32_MAX;
  bi_rows : generations_ok (fb_rows b);
  bi_fresh : Forall (fun r => fr_generation r < next) (fb_rows b);
  bi_issued : issues inc (fb_rows b) (ln_issued l);
  bi_frames : tracks live_of inc (fb_rows b) (ln_frames l);
  bi_queue : queue_is fr_ref inc (fb_rows b) next (ln_queue l);
  bi_ready : bs_ready (fb_stats b) = count FO_READY (fb_rows b);
  bi_taken : bs_taken (fb_stats b) = count FO_TAKEN (fb_rows b);
  bi_flow : bs_admitted (fb_stats b) =
    bs_ready (fb_stats b) + bs_taken (fb_stats b) + bs_completed (fb_stats b);
  bi_counts : 0 <= bs_completed (fb_stats b) /\ bs_admitted (fb_stats b) < next;
}.

Lemma fo_busy (r : fo_row) : row_busy r = true <-> fr_state r <> FO_FREE.
Proof. cbn. rewrite negb_true_iff. apply bool_decide_eq_false. Qed.

Lemma fo_not_ready (r : fo_row) : fr_state r <> FO_READY -> row_order r = None.
Proof. intros H. cbn. by rewrite bool_decide_false. Qed.

Lemma fo_ready (r : fo_row) : is_Some (row_order r) <-> fr_state r = FO_READY.
Proof. cbn. case_bool_decide as E; (split; [|done]); [done|by intros []]. Qed.

Lemma live_of_busy (r : fo_row) : row_busy r = true <-> is_Some (live_of r).
Proof. unfold live_of. cbn. destruct (fr_state r); cbn; split; try done; by intros []. Qed.

Lemma state_count_cons state r rows : count state (r :: rows) = one (fr_state r = state) + count state rows.
Proof. unfold count, one. rewrite filter_cons. case_decide; [by rewrite len_cons|lia]. Qed.

Lemma count_insert state rows i r r' :
  rows !! i = Some r ->
  count state (<[i := r']> rows) + one (fr_state r = state) =
  count state rows + one (fr_state r' = state).
Proof.
  revert i. induction rows as [|x rows IH]; intros [|i] Hi; try done; cbn in Hi.
  - injection Hi as ->. cbn [insert list_insert]. rewrite !state_count_cons. lia.
  - change (<[S i := r']> (x :: rows)) with (x :: <[i := r']> rows). rewrite !state_count_cons.
    specialize (IH _ Hi). lia.
Qed.

Lemma count_bound state rows : 0 <= count state rows <= len rows.
Proof. unfold count, len. split; [lia|]. apply inj_le, length_filter. Qed.

Lemma one_same (x : fo_state) : one (x = x) = 1.
Proof. unfold one. by rewrite decide_True. Qed.

Lemma one_other (x y : fo_state) : x <> y -> one (x = y) = 0.
Proof. intros H. unfold one. by rewrite decide_False. Qed.

(** The new state of a row in use. *)
Lemma branch_put inc next b l i r r' stats l' :
  branch_is inc next b l -> fb_rows b !! i = Some r -> fr_state r <> FO_FREE ->
  fr_generation r' = fr_generation r -> alike l l' -> ln_issued l' = ln_issued l ->
  (forall t, ln_frames l' !! t =
     if decide (t = ticket_of inc i r) then live_of r' else ln_frames l !! t) ->
  queue_is fr_ref inc (<[i := r']> (fb_rows b)) next (ln_queue l') ->
  bs_ready stats =
    bs_ready (fb_stats b) + one (fr_state r' = FO_READY) - one (fr_state r = FO_READY) ->
  bs_taken stats =
    bs_taken (fb_stats b) + one (fr_state r' = FO_TAKEN) - one (fr_state r = FO_TAKEN) ->
  bs_admitted stats = bs_admitted (fb_stats b) ->
  bs_admitted stats = bs_ready stats + bs_taken stats + bs_completed stats ->
  0 <= bs_completed stats ->
  branch_is inc next (set_rows b (<[i := r']> (fb_rows b)) stats) l'.
Proof.
  intros [] Hi Hb%fo_busy Eg (Ep & Ee & Ed) Eis Hf Hq Er Et Ea Hflow Hc.
  destruct (Forall_lookup_1 _ _ _ _ bi_rows0 Hi) as [Hg1 Hg2]. specialize (Hg2 Hb). cbn in Hg1, Hg2.
  pose proof (Forall_lookup_1 _ _ _ _ bi_fresh0 Hi) as Hg3.
  split; cbn [set_rows fb_rows fb_policy fb_sample_every fb_stats]; rewrite ?len_insert; try done.
  - destruct bi_config0 as (? & ? & ?). split; [|split]; congruence.
  - apply Forall_insert; [done|]. cbn. rewrite Eg. split; [done|lia].
  - apply Forall_insert; [done|]. by rewrite Eg.
  - rewrite Eis. by apply (issues_put _ _ _ r).
  - apply (tracks_put live_of live_of_busy _ _ _ r r' (ln_frames l)); [done|cbn; lia|by left|done|].
    intros t. rewrite Hf. unfold ticket_of. cbn. by rewrite Eg.
  - pose proof (count_insert FO_READY _ _ _ r' Hi). lia.
  - pose proof (count_insert FO_TAKEN _ _ _ r' Hi). lia.
  - split; [done|]. rewrite Ea. apply bi_counts0.
Qed.

Lemma count_pos state rows i r : rows !! i = Some r -> fr_state r = state -> 0 < count state rows.
Proof.
  intros Hi <-. unfold count. destruct (filter _ rows) as [|x k] eqn:E; [|unfold len; cbn; lia].
  exfalso. assert (H : r ∈ filter (fun r0 => fr_state r0 = fr_state r) rows); [|by rewrite E in H; inv H].
  apply list_elem_of_filter. split; [done|]. by eapply list_elem_of_lookup_2.
Qed.

(** How far the counters are from their width. *)
Lemma branch_bounds inc next b l :
  branch_is inc next b l ->
  0 <= bs_ready (fb_stats b) <= TM_FO_MAX_QUEUE_DEPTH /\
  0 <= bs_taken (fb_stats b) <= TM_FO_MAX_QUEUE_DEPTH /\
  0 <= bs_completed (fb_stats b) <= bs_admitted (fb_stats b) /\
  bs_admitted (fb_stats b) < U32_MAX.
Proof.
  intros []. pose proof (count_bound FO_READY (fb_rows b)). pose proof (count_bound FO_TAKEN (fb_rows b)).
  lia.
Qed.

Definition freed (r : fo_row) : fo_row := Build_fo_row FO_FREE (fr_generation r) 0 zero_ref zero_ticket.

Lemma branch_free inc next b l i r queue :
  branch_is inc next b l -> fb_rows b !! i = Some r -> fr_state r <> FO_FREE ->
  queue_is fr_ref inc (<[i := freed r]> (fb_rows b)) next queue ->
  branch_is inc next
    (set_rows b (<[i := freed r]> (fb_rows b)) (count_released (fr_state r) (fb_stats b)))
    (forget l (ticket_of inc i r) queue).
Proof.
  intros Hb Hi Hs Hq. destruct (branch_bounds _ _ _ _ Hb) as (B1 & B2 & B3 & B4).
  pose proof (bi_flow _ _ _ _ Hb) as Hf. unfold TM_FO_MAX_QUEUE_DEPTH, U32_MAX in *.
  assert (Hc : u64 (bs_completed (fb_stats b) + 1) = bs_completed (fb_stats b) + 1)
    by (apply u64_id; unfold is_u64; lia).
  eapply branch_put; [exact Hb|exact Hi|done|done|done|done| |exact Hq|..].
  { intros t. cbn. case_decide as E; [subst; apply lookup_delete_eq|by rewrite lookup_delete_ne]. }
  all: destruct (fr_state r) eqn:Es; try done.
  all: try (pose proof (count_pos FO_READY _ _ _ Hi Es) as Hp; rewrite <- (bi_ready _ _ _ _ Hb) in Hp).
  all: try (pose proof (count_pos FO_TAKEN _ _ _ Hi Es) as Hp'; rewrite <- (bi_taken _ _ _ _ Hb) in Hp').
  all: unfold count_released; cbn [freed fr_state bs_ready bs_taken bs_completed bs_admitted].
  all: repeat case_bool_decide; try done; rewrite ?one_same, ?one_other by done.
  all: rewrite ?Hc, ?u32_id by (unfold is_u32; lia); lia.
Qed.

(** The oldest waiting frame is taken. *)
Lemma branch_hold inc next b l i r queue :
  branch_is inc next b l -> fb_rows b !! i = Some r -> fr_state r = FO_READY ->
  let r' := Build_fo_row FO_TAKEN (fr_generation r) (fr_order r) (fr_ref r) (fr_pin r) in
  queue_is fr_ref inc (<[i := r']> (fb_rows b)) next queue ->
  branch_is inc next (set_rows b (<[i := r']> (fb_rows b)) (count_taken (fb_stats b)))
    (hold l (ticket_of inc i r) (fr_ref r) queue).
Proof.
  intros Hb Hi Hs r' Hq. destruct (branch_bounds _ _ _ _ Hb) as (B1 & B2 & B3 & B4).
  pose proof (bi_flow _ _ _ _ Hb) as Hf. unfold TM_FO_MAX_QUEUE_DEPTH, U32_MAX in *.
  pose proof (count_pos FO_READY _ _ _ Hi Hs) as Hp. rewrite <- (bi_ready _ _ _ _ Hb) in Hp.
  eapply branch_put; [exact Hb|exact Hi|by rewrite Hs|done|done|done| |exact Hq|..]; try done.
  { intros t. cbn. case_decide as E; [subst; apply lookup_insert_eq|by rewrite lookup_insert_ne]. }
  all: unfold count_taken; cbn [fr_state bs_ready bs_taken bs_completed bs_admitted r'];
    rewrite ?Hs, ?one_same, ?one_other by done; rewrite ?u32_id by (unfold is_u32; lia); lia.
Qed.

(** The statistics of events that do not change the rows. *)
Lemma branch_stats inc next next' b l stats :
  branch_is inc next b l -> next <= next' <= U32_MAX ->
  bs_ready stats = bs_ready (fb_stats b) -> bs_taken stats = bs_taken (fb_stats b) ->
  bs_admitted stats = bs_admitted (fb_stats b) -> bs_completed stats = bs_completed (fb_stats b) ->
  branch_is inc next' (set_rows b (fb_rows b) stats) l.
Proof.
  intros [] Hn E1 E2 E3 E4. split; cbn [set_rows fb_rows fb_policy fb_sample_every fb_stats]; try done.
  - lia.
  - eapply Forall_impl; [exact bi_fresh0|]. cbn. lia.
  - eapply queue_is_later; [|exact bi_queue0]. lia.
  - congruence.
  - congruence.
  - congruence.
  - rewrite E3, E4. lia.
Qed.

(** A frame is admitted in a free row. *)
Lemma branch_push inc next b l i r ref pin :
  branch_is inc next b l -> fb_rows b !! i = Some r -> fr_state r = FO_FREE -> next < U32_MAX ->
  let r' := Build_fo_row FO_READY (u32 (fr_generation r + 1)) next ref pin in
  exists t, t ∉ ln_issued l /\
    branch_is inc (next + 1) (set_rows b (<[i := r']> (fb_rows b)) (count_admitted (fb_stats b)))
      (push l t ref).
Proof.
  intros Hb Hi Hs Hn r'. destruct (branch_bounds _ _ _ _ Hb) as (B1 & B2 & B3 & B4).
  pose proof (bi_flow _ _ _ _ Hb) as Hf. destruct Hb.
  pose proof (Forall_lookup_1 _ _ _ _ bi_fresh0 Hi) as Hg. cbn in Hg.
  destruct (Forall_lookup_1 _ _ _ _ bi_rows0 Hi) as [Hg1 _]. cbn in Hg1.
  unfold TM_FO_MAX_QUEUE_DEPTH, U32_MAX in *.
  unfold r'. rewrite u32_id by (unfold is_u32; lia).
  set (x := Build_fo_row FO_READY (fr_generation r + 1) next ref pin).
  destruct (issues_issue inc (fb_rows b) i r x (ln_issued l)) as [Hfresh His]; [done|cbn; lia|done|done|].
  exists (ticket_of inc i x). split; [done|].
  pose proof (count_insert FO_READY _ _ _ x Hi) as C1. pose proof (count_insert FO_TAKEN _ _ _ x Hi) as C2.
  rewrite Hs in C1, C2. cbn [fr_state x] in C1, C2. rewrite one_same, one_other in C1 by done.
  rewrite !one_other in C2 by done.
  split; cbn [set_rows fb_rows fb_policy fb_sample_every fb_stats push ln_policy ln_every ln_depth
    ln_issued ln_frames ln_queue]; rewrite ?len_insert; try done.
  - unfold U32_MAX. lia.
  - apply Forall_insert; [done|]. unfold U32_MAX. cbn. split; [lia|intros _; lia].
  - apply Forall_insert; [|cbn; lia]. eapply Forall_impl; [exact bi_fresh0|]. cbn. lia.
  - apply (tracks_put live_of live_of_busy _ _ _ r x (ln_frames l)); [done|cbn; lia| |done|].
    { right. cbn. by rewrite Hs. }
    intros t. case_decide as E; [subst t; apply lookup_insert_eq|]. by rewrite lookup_insert_ne.
  - apply (queue_is_publish fr_ref _ _ _ _ _ r x); try done; [|cbn; lia].
    apply fo_not_ready. by rewrite Hs.
  - cbn. rewrite u32_id by (unfold is_u32; lia). lia.
  - cbn. lia.
  - cbn. rewrite u32_id, u64_id by (unfold is_u32, is_u64; lia). lia.
  - cbn. rewrite u64_id by (unfold is_u64; lia). lia.
Qed.

(* ------------------------------------------------------------------ *)
(** ** The pins of the rows *)

Definition row_pin (r : fo_row) : list (tm_fs_ticket_v1 * tm_fs_frame_ref_v1) :=
  if bool_decide (fr_state r = FO_FREE) then [] else [(fr_pin r, fr_ref r)].

Definition branch_pins (b : fo_branch) : list (tm_fs_ticket_v1 * tm_fs_frame_ref_v1) :=
  fb_rows b ≫= row_pin.

Definition owned (branches : list fo_branch) : list (tm_fs_ticket_v1 * tm_fs_frame_ref_v1) :=
  branches ≫= branch_pins.

(** One element's share of a concatenation. *)
Lemma bind_split {A B} (f : A -> list B) l i x :
  l !! i = Some x ->
  exists rest, (l ≫= f) ≡ₚ f x ++ rest /\ forall y, (<[i := y]> l ≫= f) ≡ₚ f y ++ rest.
Proof.
  revert i. induction l as [|z l IH]; intros [|i] Hi; try done; cbn in Hi.
  - injection Hi as ->. exists (l ≫= f). by split.
  - destruct (IH i Hi) as (rest & E & H). exists (f z ++ rest). split.
    + rewrite bind_cons, E, !app_assoc. by rewrite (Permutation_app_comm (f z)).
    + intros y. change (<[S i := y]> (z :: l)) with (z :: <[i := y]> l).
      rewrite bind_cons, H, !app_assoc. by rewrite (Permutation_app_comm (f z)).
Qed.

Lemma row_pin_free r : fr_state r = FO_FREE -> row_pin r = [].
Proof. intros H. unfold row_pin. by rewrite bool_decide_true. Qed.

Lemma row_pin_used r : fr_state r <> FO_FREE -> row_pin r = [(fr_pin r, fr_ref r)].
Proof. intros H. unfold row_pin. by rewrite bool_decide_false. Qed.

(** A row in use is released. *)
Lemma release_branch s b i r rest :
  fs_wf s -> fb_rows b !! i = Some r -> fr_state r <> FO_FREE ->
  pins_ok s (branch_pins b ++ rest) ->
  let b' := set_rows b (<[i := freed r]> (fb_rows b)) (count_released (fr_state r) (fb_stats b)) in
  exists s', fo_release s b i r = Ok (s', b', TM_FO_OK) /\
    moved s (branch_pins b ++ rest) s' (branch_pins b' ++ rest).
Proof.
  intros Hw Hi Hs Hp b'. destruct (bind_split row_pin _ _ _ Hi) as (rows & E & Hrows).
  unfold branch_pins in *. rewrite E, row_pin_used in Hp by done. cbn [app] in Hp.
  destruct (release_pins s _ _ _ Hw Hp) as (s' & Er & Hm). exists s'. split.
  - unfold fo_release. rewrite Er. cbn [mbind res_bind]. by rewrite bool_decide_true.
  - cbn [b' set_rows fb_rows]. rewrite E, Hrows, row_pin_used by done. exact Hm.
Qed.

(* ------------------------------------------------------------------ *)
(** ** Submission *)

Lemma selected_spec inc next b l ref :
  branch_is inc next b l -> 0 < rf_frame_id ref <= U64_MAX ->
  exists selected, fo_selected b ref = Ok selected /\ (selected = true <-> selects l ref).
Proof.
  intros Hb Hid. unfold fo_selected, selects.
  destruct (bi_config _ _ _ _ Hb) as (-> & -> & _). destruct (fb_policy b =? TM_FO_SAMPLE) eqn:Ep; cbn [negb].
  2: { exists true. split; [done|]. split; [intros _ ?; lia|done]. }
  pose proof (bi_every _ _ _ _ Hb ltac:(lia)) as He. replace (_ =? 0) with false by lia.
  eexists. split; [done|]. unfold U64_MAX in Hid. rewrite u64_id by (unfold is_u64; lia).
  rewrite Z.eqb_eq, Z.mod_divide by lia. split; [done|]. intros H. apply H. lia.
Qed.

(** The row that [fo_choose_row] gives, and what it means for the lane. *)
Definition chosen (inc next : Z) (b : fo_branch) (l : lane) (k : nat) : Prop :=
  exists r, fb_rows b !! k = Some r /\
    ((fr_state r = FO_FREE /\ ~ full inc l) \/
     (fr_state r = FO_READY /\ full inc l /\ ln_policy l = TM_FO_LATEST /\
      exists queue, ln_queue l = (ticket_of inc k r, fr_ref r) :: queue /\
        queue_is fr_ref inc (<[k := freed r]> (fb_rows b)) next queue)).

Lemma choose_row_spec inc next b l :
  branch_is inc next b l ->
  match fo_choose_row b with
  | Some k => chosen inc next b l k
  | None => full inc l /\ (ln_policy l <> TM_FO_LATEST \/ ln_queue l = [])
  end.
Proof.
  intros Hb. pose proof Hb as [(Ep & _ & Ed) _ _ [_ Hn] Hr _ Hi Hf Hq _ _ _ _].
  unfold fo_choose_row, full. rewrite Ed. destruct (row_free (fb_rows b)) as [[i r]|] eqn:E.
  { exists r. apply row_free_Some in E as H. destruct H as (Hk & Hbusy & _). split; [done|]. left. split.
    - apply negb_false_iff, bool_decide_eq_true in Hbusy. done.
    - unfold full. rewrite Ed. by eapply row_free_not_used_up. }
  assert (Hfull : used_up (len (fb_rows b)) inc (ln_issued l) (ln_frames l))
    by (by eapply (row_free_used_up live_of live_of_busy)).
  rewrite <- Ep. destruct (ln_policy l =? TM_FO_LATEST) eqn:Epl; cbn [negb];
    [|split; [done|left; lia]].
  assert (Hmax : next <= U64_MAX) by (unfold U32_MAX, U64_MAX in *; lia).
  pose proof (queue_is_oldest fr_ref inc _ next U64_MAX _ Hmax Hq) as Ho.
  destruct (row_oldest 0 None U64_MAX (fb_rows b)) as [k|].
  - destruct Ho as (r & queue & Hk & Hrd & _ & Eq & Hrest). exists r. split; [done|]. right.
    split; [by apply fo_ready|]. split; [by unfold full; rewrite Ed|]. split; [lia|].
    exists queue. split; [done|]. by apply Hrest.
  - by split; [|right].
Qed.

(** The plan of a submission. *)
Definition planned (inc next : Z) (ref : tm_fs_frame_ref_v1) (b : fo_branch) (l : lane)
    (index : option nat) : Prop :=
  branch_is inc next b l /\
  match index with
  | None => ~ selects l ref
  | Some k => selects l ref /\ chosen inc next b l k
  end.

Lemma preflight_spec inc next ref branches lanes i :
  Forall2 (branch_is inc next) branches lanes -> 0 < rf_frame_id ref <= U64_MAX ->
  (exists j l, fo_preflight ref i branches = Ok (inl (i + j)%nat) /\ lanes !! j = Some l /\
     refuses inc ref l) \/
  (exists indexes, fo_preflight ref i branches = Ok (inr indexes) /\
     Forall3 (planned inc next ref) branches lanes indexes).
Proof.
  intros Hl Hid. revert i. induction Hl as [|b l branches lanes Hb Hl IH]; intros i; cbn [fo_preflight].
  { right. exists []. split; [done|constructor]. }
  destruct (selected_spec _ _ _ _ ref Hb Hid) as (selected & -> & Hsel). cbn [mbind res_bind].
  assert (Hrest : forall index, planned inc next ref b l index ->
    (exists j l0, (rest ← fo_preflight ref (S i) branches;
       Ok (match rest with inl k => inl k | inr indexes => inr (index :: indexes) end)) =
       Ok (inl (i + j)%nat) /\ (l :: lanes) !! j = Some l0 /\ refuses inc ref l0) \/
    (exists indexes, (rest ← fo_preflight ref (S i) branches;
       Ok (match rest with inl k => inl k | inr indexes => inr (index :: indexes) end)) =
       Ok (inr indexes) /\ Forall3 (planned inc next ref) (b :: branches) (l :: lanes) indexes)).
  { intros index Hp. destruct (IH (S i)) as [(j & l0 & -> & Hj & Hr)|(indexes & -> & Hr)].
    - left. exists (S j), l0. split; [cbn; do 2 f_equal; lia|done].
    - right. eexists. split; [done|]. by constructor. }
  destruct selected; cbn [negb].
  - assert (Hs : selects l ref) by by apply Hsel.
    pose proof (choose_row_spec _ _ _ _ Hb) as Hc. destruct (fo_choose_row b) as [k|].
    + apply Hrest. by split.
    + left. exists 0%nat, l. split; [do 2 f_equal; lia|]. split; [done|]. by split.
  - apply Hrest. split; [done|]. intros H%Hsel. done.
Qed.

(** The pins that were reserved on [ref]. *)
Definition new_pin (ref : tm_fs_frame_ref_v1) (pin : tm_fs_ticket_v1)
    : list (tm_fs_ticket_v1 * tm_fs_frame_ref_v1) :=
  if decide (tk_ticket_id pin <> 0) then [(pin, ref)] else [].

Definition new_pins (ref : tm_fs_frame_ref_v1) (pins : list tm_fs_ticket_v1)
    : list (tm_fs_ticket_v1 * tm_fs_frame_ref_v1) := pins ≫= new_pin ref.

Definition reserved_for (index : option nat) (pin : tm_fs_ticket_v1) : Prop :=
  is_Some index <-> tk_ticket_id pin <> 0.

Lemma reserve_spec s ref i indexes l :
  fs_wf s -> 0 <= rf_slot ref -> pins_ok s l ->
  exists s' pins failed, fo_reserve s ref i indexes = Ok (s', pins, failed) /\
    moved s l s' (new_pins ref pins ++ l) /\
    match failed with
    | None => Forall2 reserved_for indexes pins
    | Some (_, rc) => rc <> TM_FS_OK /\ exists k, Some k ∈ indexes
    end.
Proof.
  intros Hw Hs Hl. revert s i l Hw Hl. induction indexes as [|[k|] indexes IH]; intros s i l Hw Hl; cbn [fo_reserve].
  - exists s, [], None. split; [done|]. split; [by apply moved_refl|constructor].
  - destruct (reserve_pins s ref l Hw Hs Hl) as [(rc & -> & Hrc)|(s1 & pin & -> & Hn & Hm)]; cbn [mbind res_bind].
    + rewrite bool_decide_false by done. eexists _, _, (Some _). split; [done|].
      split; [by apply moved_refl|]. split; [done|]. exists k. left.
    + rewrite bool_decide_true by done. cbn [negb].
      destruct (IH s1 (S i) ((pin, ref) :: l) (mv_wf _ _ _ _ Hm) (mv_pins _ _ _ _ Hm))
        as (s2 & pins & failed & -> & Hm2 & Hf). cbn [mbind res_bind].
      eexists s2, (pin :: pins), failed. split; [done|]. split.
      * eapply moved_trans; [exact Hm|]. unfold new_pins. rewrite bind_cons.
        unfold new_pin at 1. rewrite decide_True by done. cbn [app].
        rewrite Permutation_middle. exact Hm2.
      * destruct failed as [[j rc]|]; [|by constructor]. destruct Hf as (? & k' & Hk).
        split; [done|]. exists k'. by right.
  - destruct (IH s (S i) l Hw Hl) as (s2 & pins & failed & -> & Hm2 & Hf). cbn [mbind res_bind].
    eexists s2, (zero_ticket :: pins), failed. split; [done|]. split; [done|].
    destruct failed as [[j rc]|].
    + destruct Hf as (? & k' & Hk). split; [done|]. exists k'. by right.
    + constructor; [|done]. split; [by intros []|done].
Qed.

Lemma rollback_spec s ref pins l :
  fs_wf s -> pins_ok s (new_pins ref pins ++ l) ->
  exists s', fo_rollback s (reserved_count pins) pins = Ok s' /\ moved s (new_pins ref pins ++ l) s' l.
Proof.
  revert s. unfold reserved_count, new_pins.
  induction pins as [|pin pins IH]; intros s Hw Hp; [exists s; split; [done|by apply moved_refl]|].
  rewrite bind_cons in Hp |- *. unfold new_pin at 1. unfold new_pin at 1 in Hp. rewrite filter_cons.
  case_decide as Hn.
  - cbn [length fo_rollback]. replace (_ =? 0) with false by lia. cbn [negb app] in *.
    destruct (release_pins s _ _ _ Hw Hp) as (s1 & -> & Hm). cbn [mbind res_bind].
    destruct (IH s1 (mv_wf _ _ _ _ Hm) (mv_pins _ _ _ _ Hm)) as (s2 & -> & Hm2).
    exists s2. split; [done|]. by eapply moved_trans.
  - cbn [app] in *. destruct (IH s Hw Hp) as (s1 & E & Hm). exists s1. split; [|done]. rewrite <- E.
    destruct (length _); cbn [fo_rollback]; [by destruct pins|]. by replace (_ =? 0) with true by lia.
Qed.

(** A branch that has a row for the frame, or does not take it. *)
Definition prepared (inc next : Z) (ref : tm_fs_frame_ref_v1) (b : fo_branch) (l : lane)
    (index : option nat) : Prop :=
  match index with
  | None => branch_is inc next b l /\ ~ selects l ref
  | Some k => exists l1 r, branch_is inc next b l1 /\ fb_rows b !! k = Some r /\
      fr_state r = FO_FREE /\ forall t, t ∉ ln_issued l1 -> lane_submit inc ref l (push l1 t ref)
  end.

Lemma evict_row inc next ref s b l k rest :
  branch_is inc next b l -> selects l ref -> chosen inc next b l k -> fs_wf s ->
  pins_ok s (branch_pins b ++ rest) ->
  exists row, rd (fb_rows b) (Z.of_nat k) = Ok row /\
    if bool_decide (fr_state row = FO_READY) then
      exists s' b', fo_release s b k row = Ok (s', b', TM_FO_OK) /\
        moved s (branch_pins b ++ rest) s' (branch_pins b' ++ rest) /\
        prepared inc next ref (set_rows b' (fb_rows b') (count_replaced (fb_stats b'))) l (Some k)
    else prepared inc next ref b l (Some k).
Proof.
  intros Hb Hs (r & Hk & Hor) Hw Hp. exists r. rewrite (rd_nth _ _ _ Hk). split; [done|].
  destruct Hor as [[Ef Hf]|(Er & Hf & Ep & queue & Eq & Hq)].
  - rewrite bool_decide_false by (by rewrite Ef). exists l, r. split; [done|]. split; [done|].
    split; [done|]. intros t Ht. by apply lane_admit.
  - rewrite bool_decide_true by done.
    assert (Hne : fr_state r <> FO_FREE) by by rewrite Er.
    destruct (release_branch s b k r rest Hw Hk Hne Hp) as (s' & E & Hm).
    eexists s', _. split; [exact E|]. split; [exact Hm|].
    exists (forget l (ticket_of inc k r) queue), (freed r).
    pose proof (branch_free inc next b l k r queue Hb Hk Hne Hq) as Hb'. split.
    { eapply branch_stats; [exact Hb'|split; [lia|apply Hb]|done..]. }
    split; [apply list_lookup_insert_eq; by eapply lookup_lt_Some|]. split; [done|].
    intros t Ht. by eapply lane_replace.
Qed.

Lemma evict_spec inc next ref branches lanes indexes s rest :
  Forall3 (planned inc next ref) branches lanes indexes -> fs_wf s ->
  pins_ok s (owned branches ++ rest) ->
  exists s' branches', fo_evict s branches indexes = Ok (s', branches', TM_FO_OK) /\
    moved s (owned branches ++ rest) s' (owned branches' ++ rest) /\
    Forall3 (prepared inc next ref) branches' lanes indexes.
Proof.
  intros Hplan. revert s rest.
  induction Hplan as [|b l index branches lanes indexes Hb Hplan IH]; intros s rest Hw Hp.
  { exists s, []. split; [done|]. split; [by apply moved_refl|constructor]. }
  unfold owned in *. rewrite bind_cons, <- app_assoc in Hp. cbn [fo_evict].
  assert (Hgo : forall s1 b1, moved s (branch_pins b ++ (branches ≫= branch_pins) ++ rest)
        s1 (branch_pins b1 ++ (branches ≫= branch_pins) ++ rest) ->
      prepared inc next ref b1 l index ->
    exists s' branches', ('(s, branches, rc) ← fo_evict s1 branches indexes; Ok (s, b1 :: branches, rc)) =
        Ok (s', branches', TM_FO_OK) /\
      moved s (((b :: branches) ≫= branch_pins) ++ rest) s' ((branches' ≫= branch_pins) ++ rest) /\
      Forall3 (prepared inc next ref) branches' (l :: lanes) (index :: indexes)).
  { intros s1 b1 Hm Hb1. pose proof (mv_pins _ _ _ _ Hm) as Hp1.
    rewrite app_assoc, (Permutation_app_comm (branch_pins b1)), <- app_assoc in Hp1.
    destruct (IH s1 (branch_pins b1 ++ rest) (mv_wf _ _ _ _ Hm) Hp1) as (s2 & bs & -> & Hm2 & Hbs).
    exists s2, (b1 :: bs). split; [done|]. split; [|by constructor].
    rewrite !bind_cons, <- !app_assoc. eapply moved_trans; [exact Hm|].
    rewrite !app_assoc, !(Permutation_app_comm (branch_pins b1)), <- !app_assoc. exact Hm2. }
  destruct index as [k|].
  - destruct Hb as [Hb [Hs Hc]].
    destruct (evict_row _ _ _ _ _ _ _ _ Hb Hs Hc Hw Hp) as (row & -> & Hrow). cbn [mbind res_bind].
    case_bool_decide.
    + destruct Hrow as (s1 & b1 & -> & Hm & Hb1). cbn [mbind res_bind].
      rewrite bool_decide_true by done. by apply Hgo.
    + apply Hgo; [|done]. by apply moved_refl.
  - destruct Hb as [Hb Hs]. apply Hgo; [by apply moved_refl|]. by split.
Qed.

Lemma commit_spec inc next ref branches lanes indexes pins :
  Forall3 (prepared inc next ref) branches lanes indexes -> Forall2 reserved_for indexes pins ->
  next < U32_MAX ->
  exists branches' lanes', fo_commit next ref branches indexes pins = Ok branches' /\
    Forall2 (branch_is inc (next + 1)) branches' lanes' /\
    Forall2 (lane_submit inc ref) lanes lanes' /\
    owned branches' ≡ₚ new_pins ref pins ++ owned branches.
Proof.
  intros Hp. revert pins.
  induction Hp as [|b l index branches lanes indexes Hb Hp IH]; intros pins Hpins Hn.
  { inv Hpins. exists [], []. by repeat split; try constructor. }
  inv Hpins as [|? pin ? pins' Hpin Hpins']. destruct (IH _ Hpins' Hn) as (bs & ls & Ec & Hbs & Hls & Hown).
  cbn [fo_commit]. unfold owned, new_pins in *.
  assert (Hgo : forall b1 l1, branch_is inc (next + 1) b1 l1 -> lane_submit inc ref l l1 ->
      branch_pins b1 ≡ₚ new_pin ref pin ++ branch_pins b ->
    exists branches' lanes', (branches ← fo_commit next ref branches indexes pins'; Ok (b1 :: branches)) =
        Ok branches' /\ Forall2 (branch_is inc (next + 1)) branches' lanes' /\
      Forall2 (lane_submit inc ref) (l :: lanes) lanes' /\
      (branches' ≫= branch_pins) ≡ₚ ((pin :: pins') ≫= new_pin ref) ++ ((b :: branches) ≫= branch_pins)).
  { intros b1 l1 H1 H2 H3. rewrite Ec. exists (b1 :: bs), (l1 :: ls). split; [done|].
    split; [by constructor|]. split; [by constructor|]. rewrite !bind_cons, H3, Hown, <- !app_assoc.
    apply Permutation_app_head. rewrite !app_assoc. apply Permutation_app_tail, Permutation_app_comm. }
  destruct index as [k|].
  - destruct Hb as (l1 & r & Hb & Hk & Hf & Hl). rewrite (rd_nth _ _ _ Hk). cbn [mbind res_bind].
    destruct (branch_push inc next b l1 k r ref pin Hb Hk Hf Hn) as (t & Ht & Hb').
    apply (Hgo _ (push l1 t ref)); [done|by apply Hl|]. unfold branch_pins. cbn [set_rows fb_rows].
    destruct (bind_split row_pin _ _ _ Hk) as (rest & E & Hins). rewrite E, Hins, (row_pin_free r) by done.
    unfold new_pin, reserved_for in *. rewrite decide_True by by apply Hpin. done.
  - destruct Hb as [Hb Hs]. cbn [mbind res_bind]. apply (Hgo _ l); [|by apply lane_skip|].
    + eapply branch_stats; [exact Hb|split; [lia|]|done..]. lia.
    + unfold new_pin. rewrite decide_False; [done|]. intros H%Hpin. by destruct H.
Qed.

(** *** The owner *)

(** What the owner promises: its lanes, and whether it is sealed. *)
Record fan := { fan_lanes : list lane; fan_sealed : bool }.

Record fan_is (o : tm_fo_owner) (s : tm_fs_store) (f : fan) : Prop := {
  fi_sealed : fan_sealed f = fo_sealed o;
  fi_order : 1 <= fo_next_order o <= U32_MAX;
  fi_lanes : Forall2 (branch_is (fo_incarnation o) (fo_next_order o)) (fo_branches o) (fan_lanes f);
  fi_store : fs_wf s;
  fi_pins : pins_ok s (owned (fo_branches o));
}.

(** The rows decide the pins. *)
Lemma owned_rows branches branches' :
  fb_rows <$> branches' = fb_rows <$> branches -> owned branches' = owned branches.
Proof.
  assert (H : forall l, owned l = (fb_rows <$> l) ≫= (fun rows => rows ≫= row_pin)).
  { intros l. induction l as [|b l IH]; [done|]. unfold owned in *. by rewrite bind_cons, IH. }
  intros E. by rewrite !H, E.
Qed.

(** The statistics of one branch. *)
Lemma stats_is o s f i b stats :
  fan_is o s f -> fo_branches o !! i = Some b ->
  bs_ready stats = bs_ready (fb_stats b) -> bs_taken stats = bs_taken (fb_stats b) ->
  bs_admitted stats = bs_admitted (fb_stats b) -> bs_completed stats = bs_completed (fb_stats b) ->
  let branches := <[i := set_rows b (fb_rows b) stats]> (fo_branches o) in
  fan_is (set_branches o branches) s f /\ fb_rows <$> branches = fb_rows <$> fo_branches o.
Proof.
  intros [] Hi E1 E2 E3 E4 branches.
  assert (Er : fb_rows <$> branches = fb_rows <$> fo_branches o).
  { unfold branches. rewrite list_fmap_insert. apply list_insert_id. by rewrite list_lookup_fmap, Hi. }
  split; [|done]. split; cbn [set_branches fo_branches fo_sealed fo_next_order fo_incarnation];
    rewrite ?(owned_rows _ _ Er); try done.
  unfold branches.
  destruct (Forall2_lookup_l _ _ _ _ _ fi_lanes0 Hi) as (l & Hl & Hb).
  rewrite <- (list_insert_id (fan_lanes f) i l) by done. apply Forall2_insert; [done|].
  eapply branch_stats; [exact Hb|lia|done..].
Qed.

Lemma reject_is o s f i :
  fan_is o s f ->
  fan_is (reject_at o i) s f /\
  fb_rows <$> fo_branches (reject_at o i) = fb_rows <$> fo_branches o /\
  fo_incarnation (reject_at o i) = fo_incarnation o /\
  fo_next_order (reject_at o i) = fo_next_order o.
Proof.
  intros Hf. unfold reject_at. destruct (fo_branches o !! i) as [b|] eqn:Eb; [|done].
  split; [|split; [|done]]; by apply (stats_is o s f i b).
Qed.

Definition bad_submission (ref : tm_fs_frame_ref_v1) : bool :=
  (rf_frame_id ref =? 0) || negb (rf_size ref =? SIZEOF_FRAME_REF) ||
  negb (rf_version ref =? TM_FS_ABI_V1).

(** What the lanes become when [ref] is submitted, and the reply. *)
Definition fan_submit (inc : Z) (f : fan) (ref : option tm_fs_frame_ref_v1) (rc : tm_fo_status)
    (f' : fan) : Prop :=
  match ref with
  | None => rc = TM_FO_EINVAL /\ f' = f
  | Some ref =>
      if bad_submission ref then rc = TM_FO_EINVAL /\ f' = f
      else if fan_sealed f then rc = TM_FO_ESHUTDOWN /\ f' = f
      else
        (rc = TM_FO_OK /\ Forall2 (lane_submit inc ref) (fan_lanes f) (fan_lanes f') /\
         fan_sealed f' = false) \/
        (rc = TM_FO_EFULL /\ Exists (refuses inc ref) (fan_lanes f) /\ f' = f) \/
        (rc <> TM_FO_OK /\ Exists (fun l => selects l ref) (fan_lanes f) /\
         Forall (fun l => ~ refuses inc ref l) (fan_lanes f) /\ f' = f)
  end.

Definition submission_ok (ref : option tm_fs_frame_ref_v1) : Prop :=
  forall r, ref = Some r -> 0 <= rf_slot r /\ 0 <= rf_frame_id r <= U64_MAX.

Lemma fs_status_not_ok rc : rc <> TM_FS_OK -> fo_fs_status rc <> TM_FO_OK.
Proof. by destruct rc. Qed.

Lemma planned_lanes inc next ref branches lanes indexes :
  Forall3 (planned inc next ref) branches lanes indexes ->
  Forall (fun l => ~ refuses inc ref l) lanes /\
  forall k, Some k ∈ indexes -> Exists (fun l => selects l ref) lanes.
Proof.
  induction 1 as [|b l index branches lanes indexes [Hb Hi] Hp [IH1 IH2]].
  { split; [constructor|]. by intros k H%elem_of_nil. }
  split.
  - constructor; [|done]. intros (Hs & Hf & Hor). destruct index as [k|]; [|done].
    destruct Hi as (_ & r & _ & [[_ ?]|(_ & _ & Ep & queue & Eq & _)]); [done|].
    destruct Hor as [?|Eq']; [done|]. by rewrite Eq' in Eq.
  - intros k [<-|Hk]%elem_of_cons; [|by right; eapply IH2]. left. apply Hi.
Qed.

Lemma submit_spec o s f ref :
  fan_is o s f -> submission_ok ref -> fo_next_order o < U32_MAX ->
  exists o' s' rc f', tm_fo_submit o s ref = Ok (o', s', rc) /\
    fan_submit (fo_incarnation o) f ref rc f' /\ fan_is o' s' f' /\
    fo_incarnation o' = fo_incarnation o /\
    fo_next_order o <= fo_next_order o' <= fo_next_order o + 1 /\
    moved s (owned (fo_branches o)) s' (owned (fo_branches o')) /\
    (rc <> TM_FO_OK -> fb_rows <$> fo_branches o' = fb_rows <$> fo_branches o).
Proof.
  intros Hf Hok Hn. unfold tm_fo_submit, fan_submit. pose proof Hf as [Es [Ho1 _] Hl Hw Hp].
  assert (Hsame : moved s (owned (fo_branches o)) s (owned (fo_branches o))) by by apply moved_refl.
  destruct ref as [ref|]; [|exists o, s, TM_FO_EINVAL, f; by split_and!; try done; lia].
  destruct (Hok ref eq_refl) as [Hslot Hid]. unfold bad_submission.
  destruct (_ || _ || _) eqn:Eb; [exists o, s, TM_FO_EINVAL, f; by split_and!; try done; lia|].
  rewrite Es. destruct (fo_sealed o) eqn:Ese; [exists o, s, TM_FO_ESHUTDOWN, f; by split_and!; try done; lia|].
  replace (_ =? U64_MAX) with false by (unfold U32_MAX, U64_MAX in *; lia).
  destruct (preflight_spec _ _ ref _ _ 0 Hl ltac:(lia)) as [(j & l & -> & Hj & Hr)|(indexes & -> & Hplan)];
    cbn [mbind res_bind].
  { destruct (reject_is o s f (0 + j) Hf) as (Hf' & Eo & Ei & En).
    eexists _, s, TM_FO_EFULL, f. split; [done|]. split.
    - right. left. split; [done|]. split; [|done]. apply Exists_exists.
      exists l. split; [by eapply list_elem_of_lookup_2|done].
    - rewrite (owned_rows _ _ Eo), Ei, En. by split_and!; try done; lia. }
  destruct (planned_lanes _ _ _ _ _ _ Hplan) as [Hnone Hsome].
  destruct (reserve_spec s ref 0 indexes _ Hw Hslot Hp) as (s1 & pins & failed & -> & Hm & Hfailed).
  cbn [mbind res_bind]. destruct failed as [[i rc]|].
  { destruct (rollback_spec s1 ref pins _ (mv_wf _ _ _ _ Hm) (mv_pins _ _ _ _ Hm)) as (s2 & -> & Hm2).
    cbn [mbind res_bind]. pose proof (moved_trans _ _ _ _ _ _ Hm Hm2) as Hm3.
    assert (Hf2 : fan_is o s2 f) by (destruct Hm3, Hf; by split).
    destruct (reject_is o s2 f i Hf2) as (Hf' & Eo & Ei & En). destruct Hfailed as [Hrc [k Hk]].
    eexists _, s2, (fo_fs_status rc), f. split; [done|]. split.
    - right. right. split; [by apply fs_status_not_ok|]. split; [by eapply Hsome|done].
    - rewrite (owned_rows _ _ Eo), Ei, En. by split_and!; try done; lia. }
  pose proof (mv_pins _ _ _ _ Hm) as Hp1. rewrite Permutation_app_comm in Hp1.
  destruct (evict_spec _ _ _ _ _ _ s1 _ Hplan (mv_wf _ _ _ _ Hm) Hp1) as (s2 & bs & -> & Hm2 & Hprep).
  cbn [mbind res_bind]. rewrite bool_decide_true by done. cbn [negb].
  destruct (commit_spec _ _ _ _ _ _ _ Hprep Hfailed Hn) as (bs' & lanes' & -> & Hbs & Hls & Hown).
  cbn [mbind res_bind]. rewrite u64_id by (unfold is_u64, U32_MAX in *; lia).
  assert (Hm3 : moved s (owned (fo_branches o)) s2 (owned bs')).
  { eapply moved_trans; [exact Hm|]. rewrite Hown, !(Permutation_app_comm (new_pins ref pins)).
    exact Hm2. }
  eexists _, s2, TM_FO_OK, (Build_fan lanes' false). split; [done|]. split; [by left|].
  split; [|cbn; split_and!; try done; lia].
  destruct Hm3. split; cbn; try done; lia.
Qed.

(** *** One branch *)

Definition put_lane (f : fan) (i : nat) (l : lane) : fan :=
  Build_fan (<[i := l]> (fan_lanes f)) (fan_sealed f).

(** A branch changes, with its pins. *)
Lemma put_is o s f i b :
  fan_is o s f -> fo_branches o !! i = Some b ->
  exists l rest, fan_lanes f !! i = Some l /\
    branch_is (fo_incarnation o) (fo_next_order o) b l /\ pins_ok s (branch_pins b ++ rest) /\
    forall s' b' l', branch_is (fo_incarnation o) (fo_next_order o) b' l' ->
      moved s (branch_pins b ++ rest) s' (branch_pins b' ++ rest) ->
      fan_is (set_branches o (<[i := b']> (fo_branches o))) s' (put_lane f i l') /\
      moved s (owned (fo_branches o)) s' (owned (<[i := b']> (fo_branches o))).
Proof.
  intros [] Hi. destruct (Forall2_lookup_l _ _ _ _ _ fi_lanes0 Hi) as (l & Hl & Hb).
  destruct (bind_split branch_pins _ _ _ Hi) as (rest & E & Hins). fold (owned (fo_branches o)) in E.
  exists l, rest. split; [done|]. split; [done|]. split; [by rewrite <- E|].
  intros s' b' l' Hb' Hm. assert (Hm' : moved s (owned (fo_branches o)) s' (owned (<[i := b']> (fo_branches o)))).
  { unfold owned at 2. rewrite E, Hins. exact Hm. }
  split; [|done]. destruct Hm'.
  split; cbn [set_branches put_lane fan_lanes fan_sealed fo_branches fo_sealed fo_next_order fo_incarnation];
    try done. by apply Forall2_insert.
Qed.

Lemma branch_at_lookup o branch :
  0 <= branch -> branch_at o branch = fo_branches o !! Z.to_nat branch.
Proof.
  intros Hb. unfold branch_at. destruct (len _ <=? branch) eqn:E; [|done].
  symmetry. apply lookup_ge_None_2. unfold len in E. lia.
Qed.

Lemma no_lane o s f i : fan_is o s f -> fo_branches o !! i = None -> fan_lanes f !! i = None.
Proof.
  intros Hf Hi. apply lookup_ge_None_2. rewrite <- (Forall2_length _ _ _ (fi_lanes _ _ _ Hf)).
  by apply lookup_ge_None_1.
Qed.

Lemma lane_take_step o s f branch o' rc t ref :
  fan_is o s f -> 0 <= branch -> tm_fo_take o branch = (o', rc, t, ref) ->
  match fan_lanes f !! Z.to_nat branch with
  | None => rc = TM_FO_EINVAL /\ o' = o
  | Some l =>
      match ln_queue l with
      | [] => rc = TM_FO_EBUSY /\ o' = o
      | (t0, ref0) :: queue =>
          rc = TM_FO_OK /\ t = Build_tm_fo_ticket_v1 branch t0 /\ ref = ref0 /\ 0 <= tk_slot t0 /\
          fan_is o' s (put_lane f (Z.to_nat branch) (hold l t0 ref0 queue)) /\
          owned (fo_branches o') ≡ₚ owned (fo_branches o)
      end
  end.
Proof.
  intros Hf Hn. unfold tm_fo_take. rewrite branch_at_lookup by done.
  destruct (fo_branches o !! Z.to_nat branch) as [b|] eqn:Eb.
  2: { rewrite (no_lane _ _ _ _ Hf Eb). by intros [= <- <- _ _]. }
  destruct (put_is o s f _ b Hf Eb) as (l & rest & -> & Hb & Hp & Hput).
  assert (Hmax : fo_next_order o <= U64_MAX + 1)
    by (pose proof (fi_order _ _ _ Hf); unfold U32_MAX, U64_MAX in *; lia).
  pose proof (queue_is_oldest fr_ref _ _ _ _ _ Hmax (bi_queue _ _ _ _ Hb)) as Ho.
  destruct (row_oldest 0 None (U64_MAX + 1) (fb_rows b)) as [i|]; [|rewrite Ho; by intros [= <- <- _ _]].
  destruct Ho as (r & queue & Hi & Hr%fo_ready & _ & -> & Hrest). rewrite Hi. intros [= <- <- <- <-].
  split; [done|]. split; [done|]. split; [done|]. split; [cbn; lia|].
  pose proof (branch_hold _ _ _ _ i r queue Hb Hi Hr ltac:(by apply Hrest)) as Hb'.
  set (b' := set_rows b _ _) in *.
  assert (Ep : branch_pins b' ≡ₚ branch_pins b).
  { destruct (bind_split row_pin _ _ _ Hi) as (pins & E & Hins). unfold branch_pins. rewrite E.
    cbn [b' set_rows fb_rows]. rewrite Hins. rewrite !row_pin_used; [done|by rewrite Hr|done]. }
  destruct (Hput s b' _ Hb') as [H1 H2].
  { rewrite Ep. apply moved_refl; [apply Hf|done]. }
  split; [exact H1|]. unfold owned at 1. cbn [put_branch set_branches fo_branches].
  destruct (bind_split branch_pins _ _ _ Eb) as (pins & E & Hins). rewrite Hins. unfold owned.
  by rewrite E, Ep.
Qed.

(** The frame that a ticket names. *)
Definition frame_of (f : fan) (t : tm_fo_ticket_v1) : option (place * tm_fs_frame_ref_v1) :=
  l ← fan_lanes f !! Z.to_nat (ft_branch t); ln_frames l !! ft_row t.

Definition ticket_ok (t : tm_fo_ticket_v1) : Prop := 0 <= ft_branch t /\ 0 <= tk_slot (ft_row t).

Lemma lookup_spec o s f t :
  fan_is o s f -> ticket_ok t ->
  match fo_lookup o t with
  | None => frame_of f t = None
  | Some (b, r) => exists l x i, fo_branches o !! Z.to_nat (ft_branch t) = Some b /\
      fan_lanes f !! Z.to_nat (ft_branch t) = Some l /\ i = Z.to_nat (tk_slot (ft_row t)) /\
      fb_rows b !! i = Some r /\ ft_row t = ticket_of (fo_incarnation o) i r /\
      frame_of f t = Some x /\ live_of r = Some x
  end.
Proof.
  intros Hf [Ht1 Ht2]. unfold fo_lookup, frame_of.
  assert (Hfind : forall b, fo_branches o !! Z.to_nat (ft_branch t) = Some b ->
    exists l, fan_lanes f !! Z.to_nat (ft_branch t) = Some l /\
      match row_find (fo_incarnation o) (fb_rows b) (ft_row t) with
      | None => ln_frames l !! ft_row t = None
      | Some r => exists x, ln_frames l !! ft_row t = Some x /\ live_of r = Some x /\
          fb_rows b !! Z.to_nat (tk_slot (ft_row t)) = Some r /\
          ft_row t = ticket_of (fo_incarnation o) (Z.to_nat (tk_slot (ft_row t))) r
      end).
  { intros b Hb. destruct (Forall2_lookup_l _ _ _ _ _ (fi_lanes _ _ _ Hf) Hb) as (l & Hl & Hbl).
    exists l. split; [done|].
    by apply (find_tracked live_of live_of_busy _ _ _ _ (bi_frames _ _ _ _ Hbl)). }
  destruct (fo_branches o !! Z.to_nat (ft_branch t)) as [b|] eqn:Eb.
  2: { rewrite (no_lane _ _ _ _ Hf Eb). by destruct (_ || _). }
  destruct (Hfind b eq_refl) as (l & El & Hr). rewrite El. cbn [mbind option_bind].
  destruct (_ || _) eqn:Eg.
  - apply orb_true_iff in Eg as [Ei|Elen].
    + unfold row_find in Hr. by rewrite Ei in Hr.
    + apply lookup_lt_Some in Eb. unfold len in Elen. lia.
  - destruct (row_find _ _ _) as [r|]; [|done]. destruct Hr as (x & H1 & H2 & H3 & H4).
    by exists l, x, (Z.to_nat (tk_slot (ft_row t))).
Qed.

Lemma live_of_cases r x :
  live_of r = Some x ->
  (fr_state r = FO_READY /\ x = (Waiting, fr_ref r)) \/ (fr_state r = FO_TAKEN /\ x = (Held, fr_ref r)).
Proof. unfold live_of. destruct (fr_state r); intros [= <-]; [by left|by right]. Qed.

Lemma settle_step o s f t :
  fan_is o s f -> ticket_ok t ->
  exists o' s' rc f', tm_fo_settle o s t = Ok (o', s', rc) /\ fan_is o' s' f' /\
    moved s (owned (fo_branches o)) s' (owned (fo_branches o')) /\
    fo_incarnation o' = fo_incarnation o /\ fo_next_order o' = fo_next_order o /\
    match fan_lanes f !! Z.to_nat (ft_branch t), frame_of f t with
    | Some l, Some (Held, _) =>
        rc = TM_FO_OK /\
        f' = put_lane f (Z.to_nat (ft_branch t)) (forget l (ft_row t) (ln_queue l))
    | _, Some _ => rc = TM_FO_EBUSY /\ f' = f
    | _, None => rc = TM_FO_ESTALE /\ f' = f
    end.
Proof.
  intros Hf Ht. unfold tm_fo_settle. pose proof (lookup_spec o s f t Hf Ht) as Hl.
  assert (Hsame : moved s (owned (fo_branches o)) s (owned (fo_branches o)))
    by (apply moved_refl; apply Hf).
  destruct (fo_lookup o t) as [[b r]|].
  2: { exists o, s, TM_FO_ESTALE, f. rewrite Hl. by destruct (fan_lanes f !! _). }
  destruct Hl as (l & x & i & Hb & El & -> & Hi & Et & -> & Hx). rewrite El.
  destruct (live_of_cases r x Hx) as [[Es ->]|[Es ->]].
  { exists o, s, TM_FO_EBUSY, f. by rewrite bool_decide_false by by rewrite Es. }
  rewrite bool_decide_true by done. cbn [negb].
  destruct (put_is o s f _ b Hf Hb) as (l' & rest & El' & Hbl & Hp & Hput).
  rewrite El in El'. injection El' as <-.
  assert (Hne : fr_state r <> FO_FREE) by by rewrite Es.
  destruct (release_branch s b _ r rest (fi_store _ _ _ Hf) Hi Hne Hp) as (s' & -> & Hm).
  cbn [mbind res_bind].
  pose proof (branch_free _ _ _ _ _ r (ln_queue l) Hbl Hi Hne) as Hb'.
  destruct (Hput s' _ _ (Hb' ltac:(eapply queue_is_frame; [exact Hi|apply fo_not_ready; by rewrite Es|
    done|apply Hbl])) Hm) as [H1 H2].
  eexists _, s', TM_FO_OK, _. split; [done|]. split; [exact H1|]. split; [exact H2|].
  split; [done|]. split; [done|]. split; [done|]. by rewrite <- Et.
Qed.

(** The frames that are held are the same. *)
Definition held_same (l l' : lane) : Prop :=
  alike l l' /\ ln_issued l' = ln_issued l /\
  filter (fun kv => kv.2.1 = Held) (ln_frames l') = filter (fun kv => kv.2.1 = Held) (ln_frames l).

Lemma forget_waiting l t ref queue :
  ln_frames l !! t = Some (Waiting, ref) -> held_same l (forget l t queue).
Proof.
  intros Ht. split; [done|]. split; [done|]. cbn. apply map_eq. intros t'. apply option_eq. intros x.
  rewrite !map_lookup_filter_Some, lookup_delete_Some. cbn. split; [naive_solver|].
  intros [Hx Hh]. split; [|done]. split; [|done]. intros ->. simplify_eq.
Qed.

Lemma discard_spec inc next rest n s b l i :
  branch_is inc next b l -> fs_wf s -> pins_ok s (branch_pins b ++ rest) ->
  (i + n = length (fb_rows b))%nat ->
  (forall j r, (j < i)%nat -> fb_rows b !! j = Some r -> fr_state r <> FO_READY) ->
  exists s' b' l', discard_loop s b i n = Ok (s', b', TM_FO_OK) /\ branch_is inc next b' l' /\
    moved s (branch_pins b ++ rest) s' (branch_pins b' ++ rest) /\ held_same l l' /\
    forall j r, fb_rows b' !! j = Some r -> fr_state r <> FO_READY.
Proof.
  revert s b l i. induction n as [|n IH]; intros s b l i Hb Hw Hp Hlen Hbelow; cbn [discard_loop].
  { exists s, b, l. split; [done|]. split; [done|]. split; [by apply moved_refl|]. split; [done|].
    intros j r Hj. apply (Hbelow j); [|done]. apply lookup_lt_Some in Hj. lia. }
  destruct (lookup_lt_is_Some_2 (fb_rows b) i) as [r Hi]; [lia|].
  rewrite (rd_nth _ _ _ Hi). cbn [mbind res_bind]. case_bool_decide as Hr.
  2: { apply (IH s b l); [done..|lia|]. intros j r' Hj Hj'. destruct (decide (j = i)) as [->|Hne].
       - by simplify_eq.
       - apply (Hbelow j); [lia|done]. }
  assert (Hne : fr_state r <> FO_FREE) by by rewrite Hr.
  destruct (release_branch s b i r rest Hw Hi Hne Hp) as (s1 & -> & Hm). cbn [mbind res_bind].
  rewrite bool_decide_true by done. cbn [negb].
  pose proof (queue_is_remove fr_ref inc _ next _ i r (freed r) Hi eq_refl (bi_queue _ _ _ _ Hb)) as Hq.
  pose proof (branch_free _ _ _ _ i r _ Hb Hi Hne Hq) as Hb1.
  set (b1 := set_rows b _ _) in *. set (l1 := forget l _ _) in *.
  destruct (IH s1 b1 l1 (S i) Hb1 (mv_wf _ _ _ _ Hm) (mv_pins _ _ _ _ Hm))
    as (s2 & b2 & l2 & E & Hb2 & Hm2 & Hh & Hnone).
  - cbn [b1 set_rows fb_rows]. rewrite length_insert. lia.
  - intros j r' Hj Hj'. cbn [b1 set_rows fb_rows] in Hj'.
    apply list_lookup_insert_Some in Hj' as [(-> & <- & _)|[Hn Hj']]; [done|].
    apply (Hbelow j); [lia|done].
  - exists s2, b2, l2. split; [done|]. split; [done|]. split; [by eapply moved_trans|].
    split; [|done]. destruct Hh as (Ha & Eis & Ef).
    destruct (forget_waiting l (ticket_of inc i r) (fr_ref r)
      (filter (fun e => e.1 <> ticket_of inc i r) (ln_queue l))) as (Ha' & Eis' & Ef').
    { apply (bi_frames _ _ _ _ Hb _ (Waiting, fr_ref r)). exists i, r. unfold live_of. rewrite Hr.
      split; [|done]. split; [done|]. split; [done|]. split; [by apply fo_busy|].
      destruct (Forall_lookup_1 _ _ _ _ (bi_rows _ _ _ _ Hb) Hi) as [_ Hg].
      specialize (Hg ltac:(by apply fo_busy)). lia. }
    fold l1 in Ha', Eis', Ef'. split; [|split; congruence]. unfold alike in *. naive_solver congruence.
Qed.

(** Nothing waits in a lane whose branch has no ready row. *)
Lemma discard_is inc next b l l' :
  branch_is inc next b l' -> (forall j r, fb_rows b !! j = Some r -> fr_state r <> FO_READY) ->
  held_same l l' -> l' = discard l.
Proof.
  intros Hb Hr ((E1 & E2 & E3) & E4 & E5).
  assert (Hq : ln_queue l' = []).
  { eapply (queue_is_none fr_ref); [|apply Hb]. intros i r Hi. by eapply fo_not_ready, Hr. }
  assert (Hf : filter (fun kv => kv.2.1 = Held) (ln_frames l') = ln_frames l').
  { apply map_filter_id. intros t [p ref] Ht. cbn. apply (bi_frames _ _ _ _ Hb) in Ht as (i & r & (Hi & _) & Hx).
    specialize (Hr i r Hi). unfold live_of in Hx. by destruct (fr_state r); simplify_eq. }
  destruct l'. cbn in *. unfold discard, with_frames. rewrite <- E5, Hf. by f_equal.
Qed.

Lemma discard_step o s f branch :
  fan_is o s f -> 0 <= branch ->
  exists o' s' rc f', tm_fo_discard_ready o s branch = Ok (o', s', rc) /\ fan_is o' s' f' /\
    moved s (owned (fo_branches o)) s' (owned (fo_branches o')) /\
    fo_incarnation o' = fo_incarnation o /\ fo_next_order o' = fo_next_order o /\
    match fan_lanes f !! Z.to_nat branch with
    | None => rc = TM_FO_EINVAL /\ f' = f
    | Some l => rc = TM_FO_OK /\ f' = put_lane f (Z.to_nat branch) (discard l)
    end.
Proof.
  intros Hf Hn. unfold tm_fo_discard_ready. rewrite branch_at_lookup by done.
  destruct (fo_branches o !! Z.to_nat branch) as [b|] eqn:Eb.
  2: { exists o, s, TM_FO_EINVAL, f. rewrite (no_lane _ _ _ _ Hf Eb).
       split_and!; try done. by apply moved_refl; apply Hf. }
  destruct (put_is o s f _ b Hf Eb) as (l & rest & -> & Hbl & Hp & Hput).
  destruct (discard_spec _ _ rest _ s b l 0 Hbl (fi_store _ _ _ Hf) Hp eq_refl)
    as (s' & b' & l' & -> & Hb' & Hm & Hh & Hnone); [lia|]. cbn [mbind res_bind].
  destruct (Hput s' b' l' Hb' Hm) as [H1 H2]. rewrite (discard_is _ _ _ _ _ Hb' Hnone Hh) in H1.
  eexists _, s', TM_FO_OK, _. split; [done|]. split; [exact H1|]. by split.
Qed.

(** *** Leases, and the other users of the store *)

Lemma pins_change s released s' l :
  fs_wf s -> fs_change s released s' ->
  (forall token, token ∈ pin_ids l -> released <> Some (PIN, token)) -> pins_ok s l -> pins_ok s' l.
Proof.
  intros Hw Hc Hr [Hl Hd]. split; [|done]. apply Forall_forall. intros [p ref] Hin.
  rewrite Forall_forall in Hl. eapply holds_change; [done|done| |by apply (Hl _ Hin)].
  apply Hr, list_elem_of_fmap. by exists (p, ref).
Qed.

(** What the store's references name is kept. *)
Definition kept (s s' : tm_fs_store) : Prop :=
  forall i generation data, names s i generation data -> names s' i generation data.

Lemma other_is o s f released s' :
  fan_is o s f -> fs_change s released s' ->
  (forall token, token ∈ pin_ids (owned (fo_branches o)) -> released <> Some (PIN, token)) ->
  fan_is o s' f /\ kept s s'.
Proof.
  intros [] Hc Hr. split; [|intros i g d; by eapply names_change].
  split; try done; [by eapply fs_change_wf|by eapply pins_change].
Qed.

Lemma published_is o s f data session display out s' ref :
  fan_is o s f -> tm_fs_publish_cpu s (Some data) session display out = Ok (s', TM_FS_OK, ref) ->
  fan_is o s' f.
Proof.
  intros Hf E. pose proof (fi_store _ _ _ Hf) as Hw. pose proof (wf_frames _ Hw).
  destruct (publish_spec s (Some data) session display out Hw)
    as [(rc & out' & E' & Hrc)|(d & i & slot & [= <-] & Hi & Hu & Hd & Hm & E')]; rewrite E in E';
    injection E'; [congruence|]. intros _ ->.
  apply (other_is o s f None); [done| |done]. apply change_publish; [done|done|lia..].
Qed.

Lemma store_step o s f op :
  fan_is o s f -> fs_op_ok op ->
  (forall token, token ∈ pin_ids (owned (fo_branches o)) -> ~ releases op PIN token) ->
  exists s', fs_step s op = Ok s' /\ fan_is o s' f /\ kept s s'.
Proof.
  intros Hf Hop Hr. destruct (fs_step_changed s op (fi_store _ _ _ Hf) Hop) as (s' & E & Hc).
  exists s'. split; [done|]. destruct Hc as [->|(released & Hc & Hrel)]; [split; [done|by intros ? ? ?]|].
  eapply other_is; [done|done|]. intros token Ht ->. apply (Hr token Ht).
  by apply (Hrel PIN token).
Qed.

(** A lease through a pin of ours. *)
Lemma lease_pinned o s f p ref :
  fan_is o s f -> (p, ref) ∈ owned (fo_branches o) ->
  exists s' rc lease, tm_fs_acquire_pinned s (Some p) zero_ticket = Ok (s', rc, lease) /\
    fan_is o s' f /\ (kept s s' /\ forall r, current s r -> current s' r) /\
    (rc = TM_FS_OK \/ (rc = TM_FS_EFULL /\ Forall (fun r => cr_token r <> 0) (fs_leases s)) \/
     (rc = TM_FS_EEXHAUSTED /\ fs_next_ticket_id s = U64_MAX)).
Proof.
  intros Hf Hin. pose proof (fi_store _ _ _ Hf) as Hw. destruct (fi_pins _ _ _ Hf) as [Hl _].
  rewrite Forall_forall in Hl. destruct (Hl _ Hin) as [Ho (j & r & Hj & Ht & Hn & _)]. cbn in Ho, Ht.
  destruct (wf_rows _ Hw PIN j r Hj Hn) as (_ & i & slot & Hs & Hi & _).
  assert (Hlive : sl_state slot <> FS_FREE) by by eapply (credit_not_free s PIN).
  assert (El : credit_lookup s p (fs_pins s) = (TM_FS_OK, Z.of_nat j))
    by (apply (credit_lookup_found s PIN p j r); done || apply Ho).
  unfold tm_fs_acquire_pinned. rewrite El.
  rewrite bool_decide_true by done. cbn [negb]. rewrite (rd_nth _ _ _ Hj). cbn [mbind res_bind].
  rewrite Hs. pose proof (wf_tickets _ Hw).
  destruct (acquire_credit_spec LEASE s i slot Hi) as [(rc & E & Hrc)|(k & c & Hk & Hc & Hm & E)];
    pose proof (acquire_credit_status LEASE s i slot _ _ _ Hi E) as Hst; rewrite E;
    eexists _, _, _; (split; [done|]).
  - split; [done|]. by split; [split; [intros ? ? ?|]|].
  - edestruct (other_is o s f None) as [H1 H2];
      [done|apply (change_acquire s LEASE k c); [done..|lia]|done|]. split; [exact H1|].
    split; [split; [done|]|done]. intros r'. by apply current_credit.
Qed.

Lemma owned_row o i j b r :
  fo_branches o !! i = Some b -> fb_rows b !! j = Some r -> fr_state r <> FO_FREE ->
  (fr_pin r, fr_ref r) ∈ owned (fo_branches o).
Proof.
  intros Hi Hj Hr. apply list_elem_of_bind. exists b. split; [|by eapply list_elem_of_lookup_2].
  apply list_elem_of_bind. exists r. split; [|by eapply list_elem_of_lookup_2].
  rewrite row_pin_used by done. by apply list_elem_of_singleton.
Qed.

Lemma acquire_step o s f t :
  fan_is o s f -> ticket_ok t ->
  exists s' rc lease, tm_fo_acquire_lease o s t = Ok (s', rc, lease) /\ fan_is o s' f /\
    (kept s s' /\ forall r, current s r -> current s' r) /\
    match frame_of f t with
    | None => rc = TM_FO_ESTALE
    | Some (Waiting, _) => rc = TM_FO_EBUSY
    | Some (Held, _) => rc = TM_FO_OK \/
        (rc = TM_FO_EFULL /\ Forall (fun r => cr_token r <> 0) (fs_leases s)) \/
        (rc = TM_FO_EEXHAUSTED /\ fs_next_ticket_id s = U64_MAX)
    end.
Proof.
  intros Hf Ht. unfold tm_fo_acquire_lease. pose proof (lookup_spec o s f t Hf Ht) as Hl.
  destruct (fo_lookup o t) as [[b r]|].
  2: { rewrite Hl. eexists _, _, _. split; [done|]. split; [done|]. by split; [split; [intros ? ? ?|]|]. }
  destruct Hl as (l & x & i & Hb & _ & _ & Hi & _ & -> & Hx).
  destruct (live_of_cases r x Hx) as [[Es ->]|[Es ->]].
  { rewrite bool_decide_false by by rewrite Es. eexists _, _, _. split; [done|]. split; [done|].
    by split; [split; [intros ? ? ?|]|]. }
  rewrite bool_decide_true by done. cbn [negb].
  destruct (lease_pinned o s f (fr_pin r) (fr_ref r) Hf) as (s' & rc & lease & -> & Hf' & Hk & Hrc).
  { eapply (owned_row o _ i b r); [done..|by rewrite Es]. }
  eexists s', _, lease. split; [done|]. split; [done|]. split; [done|].
  destruct Hrc as [->|[[-> ?]|[-> ?]]]; [by left|right; by left|right; by right].
Qed.

(* ------------------------------------------------------------------ *)
(** ** The system *)

(** The calls on the owner, and those of others on its store. *)
Inductive fo_op : Type :=
  | FoSubmit (ref : option tm_fs_frame_ref_v1)
  | FoTake (branch : Z)
  | FoAcquireLease (t : tm_fo_ticket_v1)
  | FoSettle (t : tm_fo_ticket_v1)
  | FoDiscardReady (branch : Z)
  | FoSeal
  | FoStore (op : fs_op).

Record fo_reply := {
  re_status : tm_fo_status;
  re_ticket : tm_fo_ticket_v1;
  re_ref : tm_fs_frame_ref_v1;
}.

Definition status_only (rc : tm_fo_status) : fo_reply := Build_fo_reply rc zero_fo_ticket zero_ref.

Definition fo_step (o : tm_fo_owner) (s : tm_fs_store) (op : fo_op)
    : res (tm_fo_owner * tm_fs_store * fo_reply) :=
  match op with
  | FoSubmit ref => '(o, s, rc) ← tm_fo_submit o s ref; Ok (o, s, status_only rc)
  | FoTake branch => let '(o, rc, t, ref) := tm_fo_take o branch in Ok (o, s, Build_fo_reply rc t ref)
  | FoAcquireLease t => '(s, rc, _) ← tm_fo_acquire_lease o s t; Ok (o, s, status_only rc)
  | FoSettle t => '(o, s, rc) ← tm_fo_settle o s t; Ok (o, s, status_only rc)
  | FoDiscardReady branch => '(o, s, rc) ← tm_fo_discard_ready o s branch; Ok (o, s, status_only rc)
  | FoSeal => let '(o, rc) := tm_fo_seal o in Ok (o, s, status_only rc)
  | FoStore op => s ← fs_step s op; Ok (o, s, status_only TM_FO_OK)
  end.

Fixpoint fo_run (o : tm_fo_owner) (s : tm_fs_store) (ops : list fo_op)
    : res (tm_fo_owner * tm_fs_store * list fo_reply) :=
  match ops with
  | [] => Ok (o, s, [])
  | op :: ops =>
      '(o, s, reply) ← fo_step o s op;
      '(o, s, replies) ← fo_run o s ops;
      Ok (o, s, reply :: replies)
  end.

(** Arguments within the range of their types; and nobody else releases the pins
    of the owner. *)
Definition fo_op_ok (o : tm_fo_owner) (op : fo_op) : Prop :=
  match op with
  | FoSubmit ref => submission_ok ref
  | FoTake branch | FoDiscardReady branch => 0 <= branch
  | FoAcquireLease t | FoSettle t => ticket_ok t
  | FoSeal => True
  | FoStore op =>
      fs_op_ok op /\
      forall token, token ∈ pin_ids (owned (fo_branches o)) -> ~ releases op PIN token
  end.

Fixpoint run_ok (o : tm_fo_owner) (s : tm_fs_store) (ops : list fo_op) : Prop :=
  match ops with
  | [] => True
  | op :: ops =>
      fo_op_ok o op /\
      match fo_step o s op with Ok (o, s, _) => run_ok o s ops | _ => True end
  end.

(** The abstract system: what [op] replies and what it does to the lanes. *)
Definition fan_step (inc : Z) (f : fan) (op : fo_op) (reply : fo_reply) (f' : fan) : Prop :=
  let rc := re_status reply in
  match op with
  | FoSubmit ref => fan_submit inc f ref rc f'
  | FoTake branch =>
      match fan_lanes f !! Z.to_nat branch with
      | None => rc = TM_FO_EINVAL /\ f' = f
      | Some l =>
          match ln_queue l with
          | [] => rc = TM_FO_EBUSY /\ f' = f
          | (t, ref) :: queue =>
              rc = TM_FO_OK /\ re_ticket reply = Build_tm_fo_ticket_v1 branch t /\
              re_ref reply = ref /\ f' = put_lane f (Z.to_nat branch) (hold l t ref queue)
          end
      end
  | FoAcquireLease t =>
      f' = f /\
      match frame_of f t with
      | None => rc = TM_FO_ESTALE
      | Some (Waiting, _) => rc = TM_FO_EBUSY
      | Some (Held, _) => rc ∈ [TM_FO_OK; TM_FO_EFULL; TM_FO_EEXHAUSTED]
      end
  | FoSettle t =>
      match fan_lanes f !! Z.to_nat (ft_branch t), frame_of f t with
      | Some l, Some (Held, _) =>
          rc = TM_FO_OK /\
          f' = put_lane f (Z.to_nat (ft_branch t)) (forget l (ft_row t) (ln_queue l))
      | _, Some _ => rc = TM_FO_EBUSY /\ f' = f
      | _, None => rc = TM_FO_ESTALE /\ f' = f
      end
  | FoDiscardReady branch =>
      match fan_lanes f !! Z.to_nat branch with
      | None => rc = TM_FO_EINVAL /\ f' = f
      | Some l => rc = TM_FO_OK /\ f' = put_lane f (Z.to_nat branch) (discard l)
      end
  | FoSeal => rc = TM_FO_OK /\ f' = Build_fan (fan_lanes f) true
  | FoStore _ => f' = f
  end.

Inductive fan_run (inc : Z) : fan -> list fo_op -> list fo_reply -> fan -> Prop :=
  | fan_run_nil f : fan_run inc f [] [] f
  | fan_run_cons f op reply f1 ops replies f2 :
      fan_step inc f op reply f1 -> fan_run inc f1 ops replies f2 ->
      fan_run inc f (op :: ops) (reply :: replies) f2.

Lemma fo_step_refines o s f op :
  fan_is o s f -> fo_op_ok o op -> fo_next_order o < U32_MAX ->
  exists o' s' reply f', fo_step o s op = Ok (o', s', reply) /\ fan_step (fo_incarnation o) f op reply f' /\
    fan_is o' s' f' /\ fo_incarnation o' = fo_incarnation o /\
    fo_next_order o <= fo_next_order o' <= fo_next_order o + 1 /\ kept s s'.
Proof.
  intros Hf Hop Hn. destruct op as [ref|branch|t|t|branch| |op]; cbn [fo_step fan_step].
  - destruct (submit_spec o s f ref Hf Hop Hn) as (o' & s' & rc & f' & -> & Hs & Hf' & Hi & Ho & Hm & _).
    eexists o', s', _, f'. split; [done|]. destruct Hm. split_and!; try done; lia.
  - destruct (tm_fo_take o branch) as [[[o' rc] t] ref] eqn:E.
    pose proof (lane_take_step o s f branch o' rc t ref Hf Hop E) as Ht.
    assert (Hsame : fo_incarnation o' = fo_incarnation o /\ fo_next_order o' = fo_next_order o).
    { unfold tm_fo_take in E. repeat case_match; by simplify_eq. }
    destruct Hsame as [Hi Ho]. eexists o', s, _.
    assert (Hkeep : kept s s) by by intros ? ? ?.
    destruct (fan_lanes f !! _) as [l|]; [destruct (ln_queue l) as [|[t0 ref0] queue]|].
    + destruct Ht as [-> ->]. exists f. by split_and!; try done; lia.
    + destruct Ht as (-> & -> & -> & _ & Hf' & _). eexists. split_and!; try done; lia.
    + destruct Ht as [-> ->]. exists f. by split_and!; try done; lia.
  - destruct (acquire_step o s f t Hf Hop) as (s' & rc & lease & -> & Hf' & [Hk _] & Hrc).
    eexists o, s', _, f. split; [done|]. cbn [status_only re_status].
    split; [|split_and!; try done; lia]. split; [done|].
    destruct (frame_of f t) as [[[] ?]|]; try done. rewrite !elem_of_cons. naive_solver.
  - destruct (settle_step o s f t Hf Hop) as (o' & s' & rc & f' & -> & Hf' & Hm & Hi & Ho & Hs).
    eexists o', s', _, f'. split; [done|]. destruct Hm. split_and!; try done; lia.
  - destruct (discard_step o s f branch Hf Hop) as (o' & s' & rc & f' & -> & Hf' & Hm & Hi & Ho & Hs).
    eexists o', s', _, f'. split; [done|]. destruct Hm. split_and!; try done; lia.
  - eexists _, s, _, (Build_fan (fan_lanes f) true). split; [done|].
    split; [done|]. split; [by destruct Hf|]. split; [done|]. split; [cbn; lia|by intros ? ? ?].
  - destruct Hop as [Hop Hr]. destruct (store_step o s f op Hf Hop Hr) as (s' & -> & Hf' & Hk).
    eexists o, s', _, f. split; [done|]. split_and!; try done; lia.
Qed.

Lemma fo_run_refines ops o s f :
  fan_is o s f -> run_ok o s ops -> fo_next_order o + len ops <= U32_MAX ->
  exists o' s' replies f', fo_run o s ops = Ok (o', s', replies) /\
    fan_run (fo_incarnation o) f ops replies f' /\ fan_is o' s' f' /\ kept s s' /\
    fo_incarnation o' = fo_incarnation o /\ fo_next_order o' <= fo_next_order o + len ops.
Proof.
  revert o s f. induction ops as [|op ops IH]; intros o s f Hf Hok Hn.
  { exists o, s, [], f. split; [done|]. split; [apply fan_run_nil|].
    split; [done|]. split; [by intros ? ? ?|]. split; [done|unfold len; cbn; lia]. }
  destruct Hok as [Hop Hok]. rewrite len_cons in *. pose proof (len_nonneg ops).
  destruct (fo_step_refines o s f op Hf Hop ltac:(lia)) as (o1 & s1 & reply & f1 & E & Hs & Hf1 & Hi & Ho & Hk).
  rewrite E in Hok. cbn [fo_run]. rewrite E. cbn [mbind res_bind].
  destruct (IH o1 s1 f1 Hf1 Hok ltac:(lia)) as (o2 & s2 & replies & f2 & -> & Hr & Hf2 & Hk2 & Hi2 & Ho2).
  cbn [mbind res_bind]. exists o2, s2, (reply :: replies), f2. split; [done|].
  rewrite Hi in *. split; [by econstructor|]. split; [done|].
  split; [intros i g d H'; by apply Hk2, Hk|]. split; [done|lia].
Qed.

(* ------------------------------------------------------------------ *)
(** ** Creation and destruction *)

Definition new_lane (c : tm_fo_branch_config_v1) : lane :=
  Build_lane (bc_policy c) (bc_sample_every c) (bc_queue_depth c) ∅ ∅ [].

Definition new_fan (cfg : tm_fo_config_v1) : fan :=
  Build_fan (new_lane <$> take (Z.to_nat (oc_branch_count cfg)) (oc_branches cfg)) false.

(** The numbers of a configuration are unsigned. *)
Definition fo_config_ok (cfg : tm_fo_config_v1) : Prop :=
  0 <= oc_branch_count cfg /\
  Forall (fun b => 0 <= bc_queue_depth b /\ 0 <= bc_sample_every b) (oc_branches cfg).

Lemma count_new n state : state <> FO_FREE -> count state (replicate n fo_zero_row) = 0.
Proof.
  intros H. induction n as [|n IH]; [done|]. cbn [replicate]. rewrite state_count_cons, IH.
  by rewrite one_other by by cbn; congruence.
Qed.

Lemma new_branch_is inc c :
  0 <= bc_queue_depth c -> 0 <= bc_sample_every c -> bad_branch_config c = false ->
  branch_is inc 1 (new_branch c) (new_lane c).
Proof.
  intros Hd He Hbad. unfold bad_branch_config, TM_FO_MAX_QUEUE_DEPTH in Hbad.
  destruct (fresh_table live_of inc (Z.to_nat (bc_queue_depth c)) fo_zero_row)
    as (G1 & G2 & G3); [done..|].
  split; cbn [new_branch new_lane fb_rows fb_policy fb_sample_every fb_stats ln_policy ln_every ln_depth
    ln_issued ln_frames ln_queue bs_ready bs_taken bs_completed bs_admitted];
    rewrite ?len_replicate, ?count_new by done; try done.
  - split_and!; [done..|lia].
  - unfold TM_FO_MAX_QUEUE_DEPTH. lia.
  - intros Hs. rewrite Hs in Hbad. cbn in Hbad. lia.
  - by apply Forall_replicate.
  - apply queue_is_nil. by intros i r [-> _]%lookup_replicate.
Qed.

Lemma check_branches_ok l :
  check_branches l = TM_FO_OK -> Forall (fun c => bad_branch_config c = false) l.
Proof. induction l as [|c l IH]; cbn [check_branches]; [constructor|]. repeat case_match; try done. by constructor; [|apply IH]. Qed.

Lemma rd_slice_0 {A} (l : list A) n x : 0 <= n -> rd_slice l 0 n = Ok x -> x = take (Z.to_nat n) l.
Proof.
  intros Hn. unfold rd_slice. case_match; [|done]. intros [= <-]. cbn. by rewrite drop_0.
Qed.

Lemma fo_create_is counter cfg mem next o s :
  tm_fo_create counter (Some cfg) mem = Ok (next, TM_FO_OK, Some o) -> fo_config_ok cfg -> fs_wf s ->
  fan_is o s (new_fan cfg) /\ fo_incarnation o = counter /\ fo_next_order o = 1.
Proof.
  unfold tm_fo_create. intros E [Hn Hc] Hw.
  destruct (negb (oc_version cfg =? _)); [done|]. destruct (_ || _ || _ || _); [done|].
  destruct (rd_slice _ _ _) as [branches| |] eqn:Es; cbn [mbind res_bind] in E; [|done..].
  apply rd_slice_0 in Es; [|done]. case_bool_decide as Ec; cbn [negb] in E.
  2: { injection E as _ Ec' _. done. }
  destruct (_ || _); [done|]. destruct (negb mem.1); [done|]. destruct (negb (forallb _ _)); [done|].
  injection E as <- <-. split; [|done]. split; cbn [fo_incarnation fo_next_order fo_branches fo_sealed
    new_fan fan_lanes fan_sealed]; try done.
  - rewrite <- Es. apply check_branches_ok in Ec.
    assert (Hc' : Forall (fun b => 0 <= bc_queue_depth b /\ 0 <= bc_sample_every b) branches)
      by (rewrite Es; by apply Forall_take).
    clear Es. induction branches as [|c branches IH]; [constructor|].
    apply Forall_cons in Ec as [? ?], Hc' as [[? ?] ?]. constructor; [by apply new_branch_is|by apply IH].
  - assert (Ho : owned (new_branch <$> branches) = []).
    { clear. induction branches as [|c branches IH]; [done|]. unfold owned in *. cbn [fmap list_fmap].
      rewrite bind_cons, IH, app_nil_r. unfold branch_pins, new_branch. cbn [fb_rows].
      by induction (Z.to_nat (bc_queue_depth c)). }
    rewrite Ho. split; constructor.
Qed.

Lemma busy_counts rows :
  existsb row_busy rows = truth (count FO_READY rows) || truth (count FO_TAKEN rows).
Proof.
  induction rows as [|r rows IH]; [done|]. cbn [existsb]. rewrite IH, !state_count_cons.
  pose proof (count_bound FO_READY rows). pose proof (count_bound FO_TAKEN rows).
  unfold truth, one. cbn [row_busy fo_row_Row]. destruct (fr_state r) eqn:E;
    repeat case_decide; repeat case_bool_decide; try done; cbn [negb orb]; lia.
Qed.

Lemma fo_destroy_spec o s f :
  fan_is o s f ->
  tm_fo_destroy o = TM_FO_OK <->
  fan_sealed f = true /\ Forall (fun l => ln_frames l = ∅) (fan_lanes f).
Proof.
  intros Hf. unfold tm_fo_destroy. rewrite <- (fi_sealed _ _ _ Hf).
  destruct (fan_sealed f); cbn [negb]; [|by split; [|intros []]].
  assert (Hall : Forall (fun l => ln_frames l = ∅) (fan_lanes f) <->
    existsb (fun b => truth (bs_ready (fb_stats b)) || truth (bs_taken (fb_stats b))) (fo_branches o) = false).
  { induction (fi_lanes _ _ _ Hf) as [|b l branches lanes Hb _ IH]; [done|]. cbn [existsb].
    rewrite Forall_cons, orb_false_iff, IH. apply and_iff_compat_r.
    rewrite (tracks_empty live_of live_of_busy _ _ _ (bi_rows _ _ _ _ Hb) (bi_frames _ _ _ _ Hb)).
    by rewrite busy_counts, (bi_ready _ _ _ _ Hb), (bi_taken _ _ _ _ Hb). }
  rewrite Hall. destruct (existsb _ _); by split; [|intros []].
Qed.

(** An owner that was created on a reachable store and used since. *)
Inductive fo_reachable (o : tm_fo_owner) (s : tm_fs_store) : Prop :=
  | fo_reach counter cfg mem next o0 s0 ops replies :
      tm_fo_create counter (Some cfg) mem = Ok (next, TM_FO_OK, Some o0) -> fo_config_ok cfg ->
      fs_reachable s0 -> run_ok o0 s0 ops -> len ops + 1 < U32_MAX ->
      fo_run o0 s0 ops = Ok (o, s, replies) -> fo_reachable o s.

Lemma fo_reachable_is o s :
  fo_reachable o s -> exists f, fan_is o s f /\ fo_next_order o < U32_MAX.
Proof.
  intros [counter cfg mem next o0 s0 ops replies Hc Hcfg Hs Hok Hlen Hrun].
  destruct (fo_create_is _ _ _ _ _ s0 Hc Hcfg (fs_reachable_wf _ Hs)) as (Hf & Hi & Ho).
  destruct (fo_run_refines ops o0 s0 _ Hf Hok ltac:(lia)) as (o' & s' & replies' & f & E & _ & Hf' & _ & _ & Hn).
  rewrite Hrun in E. injection E as <- <- <-. exists f. split; [done|lia].
Qed.

(** A live pin on a frame sees what the frame's reference names. *)
Lemma holds_sees s p ref i data :
  fs_wf s -> holds s p ref -> rf_slot ref = Z.of_nat i -> names s i (rf_slot_generation ref) data ->
  sees PIN s (tk_ticket_id p) i data.
Proof.
  intros Hw (_ & j & r & Hj & Ht & Hn & Hs & Hg) Hi (slot & Hslot & Hd).
  destruct (wf_rows _ Hw PIN j r Hj Hn) as (_ & i' & slot' & Hs' & Hslot' & Hg').
  assert (i' = i) as -> by (apply (inj Z.of_nat); congruence). rewrite Hslot in Hslot'.
  injection Hslot' as <-. rewrite Hi in Hs. exists j, r, slot. split_and!; try done; [congruence|].
  destruct Hd as [|[_ Hd]]; [lia|]. apply Hd. by eapply (credit_not_free s PIN j r i).
Qed.

(** A lease for a ticket that is held. *)
Lemma lease_taken o s f t ref i data :
  fan_is o s f -> ticket_ok t -> frame_of f t = Some (Held, ref) ->
  rf_slot ref = Z.of_nat i -> names s i (rf_slot_generation ref) data ->
  exists s' rc lease, tm_fo_acquire_lease o s t = Ok (s', rc, lease) /\ fan_is o s' f /\
    (kept s s' /\ forall r, current s r -> current s' r) /\
    ((rc = TM_FO_OK /\ of_store s' lease /\ sees LEASE s' (tk_ticket_id lease) i data) \/
     (rc = TM_FO_EFULL /\ Forall (fun r => cr_token r <> 0) (fs_leases s)) \/
     (rc = TM_FO_EEXHAUSTED /\ fs_next_ticket_id s = U64_MAX)).
Proof.
  intros Hf Ht Hheld Hi Hn. pose proof (lookup_spec o s f t Hf Ht) as Hl. unfold tm_fo_acquire_lease.
  destruct (fo_lookup o t) as [[b r]|]; [|congruence].
  destruct Hl as (l & x & k & Hb & _ & _ & Hr & _ & Ex & Hx). rewrite Hheld in Ex. injection Ex as <-.
  destruct (live_of_cases _ _ Hx) as [[Es [=]]|[Es [= Eref]]].
  rewrite bool_decide_true by done. cbn [negb].
  assert (Hin : (fr_pin r, fr_ref r) ∈ owned (fo_branches o))
    by (eapply owned_row; [done..|by rewrite Es]).
  destruct (fi_pins _ _ _ Hf) as [Hall _]. rewrite Forall_forall in Hall.
  pose proof (holds_sees s _ _ i data (fi_store _ _ _ Hf) (Hall _ Hin)) as Hsee. cbn in Hsee.
  rewrite <- Eref in Hsee. specialize (Hsee Hi Hn).
  destruct (lease_pinned o s f _ _ Hf Hin) as (s' & rc & lease & E & Hf' & Hk & Hrc).
  exists s', (fo_fs_status rc), lease. rewrite E. split; [done|]. split; [done|]. split; [done|].
  destruct Hrc as [->|[[-> ?]|[-> ?]]]; [left|right; by left|right; by right].
  split; [done|]. by destruct (pinned_sees s (fr_pin r) zero_ticket s' lease i data (fi_store _ _ _ Hf) Hsee E).
Qed.

(* ------------------------------------------------------------------ *)
(** ** Properties *)

(** C16: The fan-out implements its lanes.  Whatever the branches' consumers and the
    other users of the store do, every call completes and replies what the lanes
    give: a frame goes to all the branches that select it or to none; a lane that
    is full refuses it, unless it keeps the latest frames and drops its oldest
    waiting one, never one that is held; a consumer takes the frames of its lane in
    order under tickets that are never reused; and the owner can be destroyed
    exactly when it is sealed and no frame is left. *)
Theorem fanout_refines_lanes counter cfg mem next o s ops :
  tm_fo_create counter (Some cfg) mem = Ok (next, TM_FO_OK, Some o) -> fo_config_ok cfg ->
  fs_reachable s -> run_ok o s ops -> len ops < U32_MAX ->
  exists o' s' replies f, fo_run o s ops = Ok (o', s', replies) /\
    fan_run counter (new_fan cfg) ops replies f /\
    (tm_fo_destroy o' = TM_FO_OK <->
     fan_sealed f = true /\ Forall (fun l => ln_frames l = ∅) (fan_lanes f)).
Proof.
  intros Hc Hcfg Hs Hok Hlen.
  destruct (fo_create_is _ _ _ _ _ s Hc Hcfg (fs_reachable_wf _ Hs)) as (Hf & <- & Ho).
  destruct (fo_run_refines ops o s _ Hf Hok ltac:(lia)) as (o' & s' & replies & f & E & Hr & Hf' & _).
  exists o', s', replies, f. split; [done|]. split; [done|]. by apply (fo_destroy_spec o' s').
Qed.

(** C17: A submission is atomic.  It always completes; if it is refused, by a full
    branch or by the store, the rows of all branches are as they were and the live
    pins of the store exactly those that were; if it is accepted, every pin it took
    is in a row, so none is lost; and no lease and no pin of others is touched. *)
Theorem fanout_submit_atomic o s ref :
  fo_reachable o s -> submission_ok ref ->
  exists o' s' rc, tm_fo_submit o s ref = Ok (o', s', rc) /\ fs_leases s' = fs_leases s /\
    (rc <> TM_FO_OK -> fb_rows <$> fo_branches o' = fb_rows <$> fo_branches o /\
       forall token, pin_live s' token <-> pin_live s token) /\
    forall token, (pin_live s' token /\ token ∉ pin_ids (owned (fo_branches o'))) <->
                  (pin_live s token /\ token ∉ pin_ids (owned (fo_branches o))).
Proof.
  intros (f & Hf & Hn)%fo_reachable_is Hok.
  destruct (submit_spec o s f ref Hf Hok Hn) as (o' & s' & rc & f' & E & _ & Hf' & _ & _ & Hm & Hr).
  exists o', s', rc. split; [done|]. destruct Hm. split; [done|]. split; [|done].
  intros Hrc. specialize (Hr Hrc). split; [done|]. intros token.
  rewrite (owned_rows _ _ Hr) in mv_foreign0.
  destruct (decide (token ∈ pin_ids (owned (fo_branches o)))) as [Hin|Hout];
    [|specialize (mv_foreign0 token); tauto].
  assert (Hlive : forall s0, pins_ok s0 (owned (fo_branches o)) -> pin_live s0 token).
  { intros s0 [Hl _]. apply list_elem_of_fmap in Hin as ([p r] & -> & Hp).
    rewrite Forall_forall in Hl. by eapply holds_live, (Hl _ Hp). }
  split; intros _; apply Hlive; [apply Hf|]. by rewrite <- (owned_rows _ _ Hr).
Qed.

(** C18: A frame that a consumer took stays until it settles it.  Whatever else
    happens to the store and the owner since the frame was published, a lease for a
    taken ticket of that frame shows the bytes that were published; it can only be
    refused when every lease is in use or the ticket numbers are used up. *)
Theorem fanout_frame_pinned o s data session display out s1 ref ops o2 s2 replies t b r :
  fo_reachable o s ->
  tm_fs_publish_cpu s (Some data) session display out = Ok (s1, TM_FS_OK, ref) ->
  run_ok o s1 ops -> fo_next_order o + len ops <= U32_MAX ->
  fo_run o s1 ops = Ok (o2, s2, replies) ->
  ticket_ok t -> fo_lookup o2 t = Some (b, r) -> fr_state r = FO_TAKEN -> fr_ref r = ref ->
  exists s3 rc lease, tm_fo_acquire_lease o2 s2 t = Ok (s3, rc, lease) /\
    ((rc = TM_FO_OK /\ exists view,
        tm_fs_map_cpu s3 (Some lease) cpu_view_init = Ok (TM_FS_OK, view) /\
        view_bytes s3 view = Ok data) \/
     (rc = TM_FO_EFULL /\ Forall (fun r => cr_token r <> 0) (fs_leases s2)) \/
     (rc = TM_FO_EEXHAUSTED /\ fs_next_ticket_id s2 = U64_MAX)).
Proof.
  intros (f & Hf & _)%fo_reachable_is Hp Hok Hn Hrun Ht Hl Es Er.
  destruct (published_names _ _ _ _ _ _ _ (fi_store _ _ _ Hf) Hp) as (Hw1 & i & Hi & Hn1).
  assert (Hf1 : fan_is o s1 f) by by eapply published_is.
  destruct (fo_run_refines ops o s1 f Hf1 Hok Hn) as (o2' & s2' & replies' & f2 & E & _ & Hf2 & Hk & _).
  rewrite Hrun in E. injection E as <- <- <-. apply Hk in Hn1.
  pose proof (lookup_spec o2 s2 f2 t Hf2 Ht) as Hlk. rewrite Hl in Hlk.
  destruct Hlk as (l & x & k & _ & _ & _ & _ & _ & Hx & Hlive).
  assert (x = (Held, ref)) as -> by (unfold live_of in Hlive; rewrite Es, Er in Hlive; congruence).
  destruct (lease_taken o2 s2 f2 t ref i data Hf2 Ht Hx Hi Hn1) as (s3 & rc & lease & E & Hf3 & _ & Hrc).
  exists s3, rc, lease. split; [done|].
  destruct Hrc as [(-> & Ho3 & Hs3)|[?|?]]; [left|right; by left|right; by right].
  split; [done|]. eexists. apply (map_sees s3 lease i); [apply Hf3|done..].
Qed.

(** The rows and the counters agree with the store.  In every reachable owner
    each row in use has a pin of its own, live and on the frame of the row; the
    ready and taken counters are the numbers of such rows; and every frame that was
    admitted is ready, taken or completed. *)
Theorem fanout_rows_pinned o s :
  fo_reachable o s ->
  pins_ok s (owned (fo_branches o)) /\
  Forall (fun b => bs_ready (fb_stats b) = count FO_READY (fb_rows b) /\
                   bs_taken (fb_stats b) = count FO_TAKEN (fb_rows b) /\
                   bs_admitted (fb_stats b) =
                     bs_ready (fb_stats b) + bs_taken (fb_stats b) + bs_completed (fb_stats b))
    (fo_branches o).
Proof.
  intros (f & Hf & _)%fo_reachable_is. split; [apply Hf|]. apply Forall_lookup. intros i b Hb.
  destruct (Forall2_lookup_l _ _ _ _ _ (fi_lanes _ _ _ Hf) Hb) as (l & _ & []). done.
Qed.

(* ------------------------------------------------------------------ *)
(** ** Witnesses *)

(** A preview that keeps the latest frame and a recorder of every second one. *)
Definition fo_ex_config : tm_fo_config_v1 :=
  Build_tm_fo_config_v1 SIZEOF_FO_CONFIG TM_FO_ABI_V1 2 0
    [Build_tm_fo_branch_config_v1 SIZEOF_FO_BRANCH_CONFIG TM_FO_ABI_V1 TM_FO_LATEST 1 0;
     Build_tm_fo_branch_config_v1 SIZEOF_FO_BRANCH_CONFIG TM_FO_ABI_V1 TM_FO_SAMPLE 2 2].

Definition fo_ex_owner : tm_fo_owner :=
  match tm_fo_create 1 (Some fo_ex_config) (true, [true; true]) with
  | Ok (_, _, Some o) => o
  | _ => Build_tm_fo_owner 0 0 [] false
  end.

Lemma fo_ex_created :
  tm_fo_create 1 (Some fo_ex_config) (true, [true; true]) = Ok (2, TM_FO_OK, Some fo_ex_owner).
Proof. done. Qed.

Lemma fo_ex_config_ok : fo_config_ok fo_ex_config.
Proof. split; [done|]. by repeat constructor. Qed.

Definition fo_ex_ticket : tm_fo_ticket_v1 := Build_tm_fo_ticket_v1 0 (Build_ticket 1 0 1).

(** The frame is taken from the preview, its reference is retired, another frame is
    published, and the recorder is emptied. *)
Definition fo_ex_ops : list fo_op :=
  [FoSubmit (Some ex_ref); FoTake 0; FoStore (FsRetire (Some ex_ref));
   FoStore (FsPublish (Some [9]) 1 1); FoDiscardReady 1; FoSeal].

Lemma fo_ex_submission_ok : submission_ok (Some ex_ref).
Proof. by intros r [= <-]. Qed.

Lemma fo_ex_store_ok o op :
  fs_op_ok op -> (forall k t, op <> FsRelease k t) -> fo_op_ok o (FoStore op).
Proof. intros Hop Hne. split; [done|]. intros token _ (t & -> & _). by apply (Hne PIN (Some t)). Qed.

Lemma run_ok_cons o s op ops :
  fo_op_ok o op -> (forall o' s', run_ok o' s' ops) -> run_ok o s (op :: ops).
Proof. intros Hop H. split; [done|]. by destruct (fo_step o s op) as [[[o' s'] ?]| |]. Qed.

Lemma fo_ex_run_ok s : run_ok fo_ex_owner s fo_ex_ops.
Proof.
  apply run_ok_cons; [exact fo_ex_submission_ok|intros o1 s1]. apply run_ok_cons; [done|intros o2 s2].
  apply run_ok_cons; [apply fo_ex_store_ok; [exact ex_ref_ok|done]|intros o3 s3].
  apply run_ok_cons; [apply fo_ex_store_ok; [by intros r|done]|intros o4 s4].
  do 2 (apply run_ok_cons; [done|intros ? ?]). done.
Qed.

Lemma fo_ex_reachable : fo_reachable fo_ex_owner ex_store.
Proof.
  by apply (fo_reach _ _ 1 fo_ex_config (true, [true; true]) 2 fo_ex_owner ex_store [] []);
    [|apply fo_ex_config_ok|apply ex_store_reachable|..].
Qed.

Lemma fanout_refines_lanes_witness :
  exists o' s' replies f, fo_run fo_ex_owner ex_store fo_ex_ops = Ok (o', s', replies) /\
    fan_run 1 (new_fan fo_ex_config) fo_ex_ops replies f /\
    (tm_fo_destroy o' = TM_FO_OK <->
     fan_sealed f = true /\ Forall (fun l => ln_frames l = ∅) (fan_lanes f)).
Proof.
  apply (fanout_refines_lanes 1 fo_ex_config (true, [true; true]) 2 fo_ex_owner ex_store fo_ex_ops);
    [exact fo_ex_created|exact fo_ex_config_ok|exact ex_store_reachable|apply fo_ex_run_ok|done].
Defined.

(** A frame that was never published. *)
Lemma fanout_submit_atomic_witness :
  exists o' s' rc, tm_fo_submit fo_ex_owner ex_store (Some ex_ref) = Ok (o', s', rc) /\
    fs_leases s' = fs_leases ex_store /\
    (rc <> TM_FO_OK -> fb_rows <$> fo_branches o' = fb_rows <$> fo_branches fo_ex_owner /\
       forall token, pin_live s' token <-> pin_live ex_store token) /\
    forall token, (pin_live s' token /\ token ∉ pin_ids (owned (fo_branches o'))) <->
                  (pin_live ex_store token /\ token ∉ pin_ids (owned (fo_branches fo_ex_owner))).
Proof. apply (fanout_submit_atomic fo_ex_owner ex_store (Some ex_ref) fo_ex_reachable fo_ex_submission_ok). Defined.

Definition fo_ex_published : tm_fs_store :=
  match fs_step ex_store (FsPublish (Some [7; 8]) 1 1) with Ok s => s | _ => ex_store end.

Definition fo_ex_after : tm_fo_owner * tm_fs_store * list fo_reply :=
  match fo_run fo_ex_owner fo_ex_published fo_ex_ops with
  | Ok r => r | _ => (fo_ex_owner, ex_store, []) end.

Definition fo_ex_branch : fo_branch :=
  match fo_branches fo_ex_after.1.1 with b :: _ => b | [] => Build_fo_branch [] 0 0
    (Build_tm_fo_branch_stats_v1 0 0 0 0 0 0 0) end.

Definition fo_ex_row : fo_row := match fb_rows fo_ex_branch with r :: _ => r | [] => fo_zero_row end.

Lemma fanout_frame_pinned_witness :
  exists s3 rc lease, tm_fo_acquire_lease fo_ex_after.1.1 fo_ex_after.1.2 fo_ex_ticket = Ok (s3, rc, lease) /\
    ((rc = TM_FO_OK /\ exists view,
        tm_fs_map_cpu s3 (Some lease) cpu_view_init = Ok (TM_FS_OK, view) /\
        view_bytes s3 view = Ok [7; 8]) \/
     (rc = TM_FO_EFULL /\ Forall (fun r => cr_token r <> 0) (fs_leases fo_ex_after.1.2)) \/
     (rc = TM_FO_EEXHAUSTED /\ fs_next_ticket_id fo_ex_after.1.2 = U64_MAX)).
Proof.
  apply (fanout_frame_pinned fo_ex_owner ex_store [7; 8] 1 1 zero_ref fo_ex_published ex_ref fo_ex_ops
    fo_ex_after.1.1 fo_ex_after.1.2 fo_ex_after.2 fo_ex_ticket fo_ex_branch fo_ex_row fo_ex_reachable);
    [done|apply fo_ex_run_ok|done..].
Defined.

Lemma fanout_rows_pinned_witness : pins_ok ex_store (owned (fo_branches fo_ex_owner)).
Proof. apply (fanout_rows_pinned fo_ex_owner ex_store fo_ex_reachable). Defined.

(* ------------------------------------------------------------------ *)
(** ** Observations

    A branch that keeps the latest frames replaces a ready row whatever its
    generation: after the last one the generation is 0, and the ticket that is then
    taken names no row, so that the row and its pin stay. *)

Definition worn_owner (pin : tm_fs_ticket_v1) : tm_fo_owner :=
  Build_tm_fo_owner 1 2 [Build_fo_branch [Build_fo_row FO_READY U32_MAX 1 ex_ref pin] TM_FO_LATEST 0
    (Build_tm_fo_branch_stats_v1 1 0 1 0 0 0 0)] false.

Lemma fo_latest_generation_wraps :
  exists s1 pin o2 s2 o3 t,
    tm_fs_reserve_pin fo_ex_published (Some ex_ref) = Ok (s1, TM_FS_OK, pin) /\
    tm_fo_submit (worn_owner pin) s1 (Some ex_ref) = Ok (o2, s2, TM_FO_OK) /\
    tm_fo_take o2 0 = (o3, TM_FO_OK, t, ex_ref) /\
    tm_fo_settle o3 s2 t = Ok (o3, s2, TM_FO_ESTALE).
Proof. by do 6 eexists. Qed.
