(* ===== verification/Executor.v ===== *)
(** * The executor

    streamgraph/src/turbo_streamgraph_executor.c: the owner of a compiled program of
    the shape source, processors, sinks.  It asks the source for a frame, publishes
    it in the store, shows it to the processors in their order, submits it to the
    fan-out, and delivers the frames of a branch to its sink.

    One owner lane serialises all calls.  The callbacks are inputs of a call
    ([source_call], the results of the visits) and appear in its events with what
    they are shown; they read the view they get and call nothing of this executor
    (a call back into it is refused by [in_callback]).  Handles and out parameters
    are not [NULL]. *)

From stdpp Require Import list gmap.
From S2P Require Import Prelude Tickets StreamGraph FrameStore Fanout.

(* ------------------------------------------------------------------ *)
(** ** Data *)

Definition TM_EX_ABI_V1 : Z := 1.
Definition TM_EX_MAX_PROCESSORS : Z := 8.
Definition SIZEOF_EX_BINDING : Z := 40.
Definition SIZEOF_EX_CONFIG : Z := 208.
Definition SIZEOF_EX_STATS : Z := 56.

Inductive tm_ex_status : Type :=
  | TM_EX_OK | TM_EX_EINVAL | TM_EX_EVERSION | TM_EX_EGRAPH | TM_EX_ENOMEM | TM_EX_EFULL
  | TM_EX_EBUSY | TM_EX_ESTATE | TM_EX_EPROVIDER | TM_EX_EFRAME | TM_EX_EOS.

#[export] Instance tm_ex_status_eq_dec : EqDecision tm_ex_status.
Proof. solve_decision. Defined.

Definition TM_EX_SOURCE_FRAME : Z := 1.
Definition TM_EX_SOURCE_EOS : Z := 2.

(** A binding: its node's id, which callbacks it has, and their context. *)
Record tm_ex_binding_v1 := {
  bd_size : Z;
  bd_version : Z;
  bd_node_id : option (list Z);
  bd_source_next : bool;
  bd_visit : bool;
  bd_ctx : Z;
}.

Definition zero_binding : tm_ex_binding_v1 := Build_tm_ex_binding_v1 0 0 None false false 0.

Record tm_ex_config_v1 := {
  xc_size : Z;
  xc_version : Z;
  xc_max_frame_bytes : Z;
  xc_reserved : Z;
  xc_source_session_generation : Z;
  xc_display_generation : Z;
  xc_fanout : tm_fo_config_v1;
}.

Record tm_ex_stats_v1 := {
  st_sourced : Z;
  st_submitted : Z;
  st_processed : Z;
  st_delivered : Z;
  st_backpressure : Z;
  st_pending : Z;
  st_stopped : Z;
}.

Record tm_ex_owner := {
  ex_fanout : tm_fo_owner;
  ex_source : tm_ex_binding_v1;
  ex_processors : list tm_ex_binding_v1;
  ex_sinks : list tm_ex_binding_v1;
  ex_scratch : list Z;
  ex_scratch_capacity : Z;
  ex_pending_bytes : Z;
  ex_source_session_generation : Z;
  ex_display_generation : Z;
  ex_pending : tm_fs_frame_ref_v1;
  ex_stats : tm_ex_stats_v1;
  ex_stopped : bool;
  ex_in_callback : bool;
}.

Definition set_fanout (o : tm_ex_owner) (fanout : tm_fo_owner) : tm_ex_owner :=
  Build_tm_ex_owner fanout (ex_source o) (ex_processors o) (ex_sinks o) (ex_scratch o)
    (ex_scratch_capacity o) (ex_pending_bytes o) (ex_source_session_generation o)
    (ex_display_generation o) (ex_pending o) (ex_stats o) (ex_stopped o) (ex_in_callback o).

Definition set_pending (o : tm_ex_owner) (bytes : Z) (pending : tm_fs_frame_ref_v1) : tm_ex_owner :=
  Build_tm_ex_owner (ex_fanout o) (ex_source o) (ex_processors o) (ex_sinks o) (ex_scratch o)
    (ex_scratch_capacity o) bytes (ex_source_session_generation o)
    (ex_display_generation o) pending (ex_stats o) (ex_stopped o) (ex_in_callback o).

Definition set_scratch (o : tm_ex_owner) (scratch : list Z) : tm_ex_owner :=
  Build_tm_ex_owner (ex_fanout o) (ex_source o) (ex_processors o) (ex_sinks o) scratch
    (ex_scratch_capacity o) (ex_pending_bytes o) (ex_source_session_generation o)
    (ex_display_generation o) (ex_pending o) (ex_stats o) (ex_stopped o) (ex_in_callback o).

Definition set_stats (o : tm_ex_owner) (stats : tm_ex_stats_v1) : tm_ex_owner :=
  Build_tm_ex_owner (ex_fanout o) (ex_source o) (ex_processors o) (ex_sinks o) (ex_scratch o)
    (ex_scratch_capacity o) (ex_pending_bytes o) (ex_source_session_generation o)
    (ex_display_generation o) (ex_pending o) stats (ex_stopped o) (ex_in_callback o).

Definition set_stopped (o : tm_ex_owner) : tm_ex_owner :=
  let s := ex_stats o in
  Build_tm_ex_owner (ex_fanout o) (ex_source o) (ex_processors o) (ex_sinks o) (ex_scratch o)
    (ex_scratch_capacity o) (ex_pending_bytes o) (ex_source_session_generation o)
    (ex_display_generation o) (ex_pending o)
    (Build_tm_ex_stats_v1 (st_sourced s) (st_submitted s) (st_processed s) (st_delivered s)
       (st_backpressure s) (st_pending s) 1) true (ex_in_callback o).

(** One more in a counter. *)
Definition count_sourced (o : tm_ex_owner) : tm_ex_owner :=
  let s := ex_stats o in
  set_stats o (Build_tm_ex_stats_v1 (u64 (st_sourced s + 1)) (st_submitted s) (st_processed s)
    (st_delivered s) (st_backpressure s) (st_pending s) (st_stopped s)).

Definition count_submitted (o : tm_ex_owner) : tm_ex_owner :=
  let s := ex_stats o in
  set_stats o (Build_tm_ex_stats_v1 (st_sourced s) (u64 (st_submitted s + 1)) (st_processed s)
    (st_delivered s) (st_backpressure s) (st_pending s) (st_stopped s)).

Definition count_processed (o : tm_ex_owner) : tm_ex_owner :=
  let s := ex_stats o in
  set_stats o (Build_tm_ex_stats_v1 (st_sourced s) (st_submitted s) (u64 (st_processed s + 1))
    (st_delivered s) (st_backpressure s) (st_pending s) (st_stopped s)).

Definition count_delivered (o : tm_ex_owner) : tm_ex_owner :=
  let s := ex_stats o in
  set_stats o (Build_tm_ex_stats_v1 (st_sourced s) (st_submitted s) (st_processed s)
    (u64 (st_delivered s + 1)) (st_backpressure s) (st_pending s) (st_stopped s)).

Definition count_backpressure (o : tm_ex_owner) : tm_ex_owner :=
  let s := ex_stats o in
  set_stats o (Build_tm_ex_stats_v1 (st_sourced s) (st_submitted s) (st_processed s)
    (st_delivered s) (u64 (st_backpressure s + 1)) (st_pending s) (st_stopped s)).

Definition fo_code (rc : tm_fo_status) : tm_ex_status :=
  match rc with
  | TM_FO_OK => TM_EX_OK
  | TM_FO_EFULL => TM_EX_EFULL
  | TM_FO_EBUSY => TM_EX_EBUSY
  | TM_FO_ESHUTDOWN => TM_EX_ESTATE
  | _ => TM_EX_EFRAME
  end.

(* ------------------------------------------------------------------ *)
(** ** The shape of a program *)

(** The first node of id [id] among those from [i] on, [n] of them. *)
Fixpoint node_scan (p : tm_sg_program) (id : list Z) (n : nat) (i : Z) : res (option sg_node) :=
  match n with
  | O => Ok None
  | S n =>
      node ← tm_sg_program_node_at p i;
      match node with
      | Some node => if bool_decide (n_id node = id) then Ok (Some node) else node_scan p id n (i + 1)
      | None => node_scan p id n (i + 1)
      end
  end.

Definition node_named (p : tm_sg_program) (id : option (list Z)) : res (option sg_node) :=
  match id with
  | None => Ok None
  | Some id => node_scan p id (Z.to_nat (tm_sg_program_node_count p)) 0
  end.

Definition valid_port (p : sg_port) : bool :=
  ((p_direction p =? TM_SG_INPUT) || (p_direction p =? TM_SG_OUTPUT)) &&
  (p_kind p =? TM_SG_VIDEO_FRAME) && (p_memory_domain p =? TM_SG_MEMORY_CPU) &&
  truth (p_format_id p) && truth (p_timebase_num p) && truth (p_timebase_den p).

Record shape := {
  sh_sources : Z;
  sh_source : option sg_node;
  sh_ordered : list sg_node;
  sh_sinks : Z;
}.

Definition ports_of (direction : Z) (n : sg_node) : Z :=
  len (filter (fun p => p_direction p = direction) (n_ports n)).

(** The node's kind and the number of its ports. *)
Definition shape_kind (a : shape) (n : sg_node) : option shape :=
  if n_kind n =? TM_SG_SOURCE then
    if negb (sh_sources a + 1 =? 1) || negb (len (n_ports n) =? 1) then None
    else Some (Build_shape (sh_sources a + 1) (Some n) (sh_ordered a) (sh_sinks a))
  else if n_kind n =? TM_SG_PROCESSOR then
    if (len (sh_ordered a) =? TM_EX_MAX_PROCESSORS) || negb (len (n_ports n) =? 2) then None
    else Some (Build_shape (sh_sources a) (sh_source a) (sh_ordered a ++ [n]) (sh_sinks a))
  else if n_kind n =? TM_SG_SINK then
    if (TM_FO_MAX_BRANCHES <? sh_sinks a + 1) || negb (len (n_ports n) =? 1) then None
    else Some (Build_shape (sh_sources a) (sh_source a) (sh_ordered a) (sh_sinks a + 1))
  else None.

Definition shape_node (a : shape) (n : sg_node) : option shape :=
  if len (n_ports n) =? 0 then None
  else
    match shape_kind a n with
    | None => None
    | Some a =>
        let ins := ports_of TM_SG_INPUT n in
        let outs := ports_of TM_SG_OUTPUT n in
        if negb (forallb valid_port (n_ports n)) then None
        else if ((n_kind n =? TM_SG_SOURCE) && (negb (ins =? 0) || negb (outs =? 1))) ||
                ((n_kind n =? TM_SG_PROCESSOR) && (negb (ins =? 1) || negb (outs =? 1))) ||
                ((n_kind n =? TM_SG_SINK) && (negb (ins =? 1) || negb (outs =? 0))) then None
        else Some a
    end.

Fixpoint shape_nodes (p : tm_sg_program) (a : shape) (n : nat) (i : Z) : res (option shape) :=
  match n with
  | O => Ok (Some a)
  | S n =>
      node ← tm_sg_program_node_at p i;
      match node ≫= shape_node a with
      | None => Ok None
      | Some a => shape_nodes p a n (i + 1)
      end
  end.

Definition edge_between (e : sg_edge) (source target : option sg_node) : bool :=
  match source, target with
  | Some s, Some t => bool_decide (e_source_node e = n_id s) && bool_decide (e_target_node e = n_id t)
  | _, _ => false
  end.

(** From one processor to the next. *)
Fixpoint chain_edge (e : sg_edge) (ordered : list sg_node) : bool :=
  match ordered with
  | a :: ((b :: _) as rest) => edge_between e (Some a) (Some b) || chain_edge e rest
  | _ => false
  end.

Definition shape_edge (p : tm_sg_program) (a : shape) (e : sg_edge) : res bool :=
  target ← node_named p (Some (e_target_node e));
  Ok (edge_between e (sh_source a) (head (sh_ordered a)) || chain_edge e (sh_ordered a) ||
      (edge_between e (last (sh_ordered a)) target &&
       match target with Some n => n_kind n =? TM_SG_SINK | None => false end)).

Fixpoint shape_edges (p : tm_sg_program) (a : shape) (n : nat) (i : Z) : res bool :=
  match n with
  | O => Ok true
  | S n =>
      edge ← tm_sg_program_edge_at p i;
      match edge with
      | None => Ok false
      | Some e =>
          matched ← shape_edge p a e;
          if negb matched then Ok false else shape_edges p a n (i + 1)
      end
  end.

(** The shape, when it is one that the executor runs. *)
Definition graph_shape (p : tm_sg_program) : res (option shape) :=
  found ← shape_nodes p (Build_shape 0 None [] 0) (Z.to_nat (tm_sg_program_node_count p)) 0;
  match found with
  | None => Ok None
  | Some a =>
      if negb (sh_sources a =? 1) || (len (sh_ordered a) =? 0) || (sh_sinks a =? 0) ||
         negb (tm_sg_program_edge_count p =? len (sh_ordered a) + sh_sinks a) then Ok None
      else
        matched ← shape_edges p a (Z.to_nat (tm_sg_program_edge_count p)) 0;
        Ok (if (matched : bool) then Some a else None)
  end.

(* ------------------------------------------------------------------ *)
(** ** Creation *)

Definition binding_valid (b : tm_ex_binding_v1) : bool :=
  (bd_size b =? SIZEOF_EX_BINDING) && (bd_version b =? TM_EX_ABI_V1) &&
  bool_decide (is_Some (bd_node_id b)) && xorb (bd_source_next b) (bd_visit b).

(** Each binding names a node of its kind, and no two the same. *)
Fixpoint check_bindings (p : tm_sg_program) (seen bindings : list tm_ex_binding_v1) : res bool :=
  match bindings with
  | [] => Ok true
  | b :: bindings =>
      if negb (binding_valid b) then Ok false
      else
        node ← node_named p (bd_node_id b);
        match node with
        | None => Ok false
        | Some n =>
            if negb (Bool.eqb (n_kind n =? TM_SG_SOURCE) (bd_source_next b)) then Ok false
            else if existsb (fun c => bool_decide (bd_node_id c = bd_node_id b)) seen then Ok false
            else check_bindings p (seen ++ [b]) bindings
        end
  end.

(** The bindings of the source and of the processors. *)
Fixpoint bind_nodes (p : tm_sg_program) (ordered : list sg_node) (source : tm_ex_binding_v1)
    (processors bindings : list tm_ex_binding_v1)
    : res (tm_ex_binding_v1 * list tm_ex_binding_v1) :=
  match bindings with
  | [] => Ok (source, processors)
  | b :: bindings =>
      node ← node_named p (bd_node_id b);
      match node with
      | None => Fault
      | Some n =>
          if n_kind n =? TM_SG_SOURCE then bind_nodes p ordered b processors bindings
          else if n_kind n =? TM_SG_PROCESSOR then
            match list_find (fun m => n_id m = n_id n) ordered with
            | Some (j, _) => bind_nodes p ordered source (<[j := b]> processors) bindings
            | None => bind_nodes p ordered source processors bindings
            end
          else bind_nodes p ordered source processors bindings
      end
  end.

(** The bindings of the targets that are sinks, in the order of the edges. *)
Fixpoint bind_sinks (p : tm_sg_program) (bindings sinks : list tm_ex_binding_v1) (n : nat) (i : Z)
    : res (list tm_ex_binding_v1) :=
  match n with
  | O => Ok sinks
  | S n =>
      edge ← tm_sg_program_edge_at p i;
      match edge with
      | None => Fault
      | Some e =>
          node ← node_named p (Some (e_target_node e));
          match node with
          | Some t =>
              if n_kind t =? TM_SG_SINK then
                match list_find (fun b => bd_node_id b = Some (e_target_node e)) bindings with
                | Some (_, b) =>
                    if TM_FO_MAX_BRANCHES <=? len sinks then Fault
                    else bind_sinks p bindings (sinks ++ [b]) n (i + 1)
                | None => bind_sinks p bindings sinks n (i + 1)
                end
              else bind_sinks p bindings sinks n (i + 1)
          | None => bind_sinks p bindings sinks n (i + 1)
          end
      end
  end.

(** The outcomes of the allocations: the owner, the scratch buffer with what it
    holds, and those of [tm_fo_create]. *)
Record ex_mem := {
  xm_owner : bool;
  xm_scratch : option (list Z);
  xm_fanout : bool * list bool;
}.

(** The fan-out's incarnation counter, before and after. *)
Definition tm_ex_create (counter : Z) (p : tm_sg_program) (cfg : tm_ex_config_v1)
    (bindings : list tm_ex_binding_v1) (mem : ex_mem)
    : res (Z * tm_ex_status * option tm_ex_owner) :=
  if (xc_source_session_generation cfg =? 0) || (xc_display_generation cfg =? 0) ||
     truth (xc_reserved cfg) || (xc_max_frame_bytes cfg =? 0) ||
     (TM_FS_MAX_FRAME_BYTES <? xc_max_frame_bytes cfg) then Ok (counter, TM_EX_EINVAL, None)
  else if negb (xc_version cfg =? TM_EX_ABI_V1) then Ok (counter, TM_EX_EVERSION, None)
  else if negb (xc_size cfg =? SIZEOF_EX_CONFIG) then Ok (counter, TM_EX_EGRAPH, None)
  else
    found ← graph_shape p;
    let? a := found else Ok (counter, TM_EX_EGRAPH, None) in
    if negb (oc_branch_count (xc_fanout cfg) =? sh_sinks a) ||
       negb (len bindings =? sh_sinks a + len (sh_ordered a) + 1) then Ok (counter, TM_EX_EGRAPH, None)
    else
      valid ← check_bindings p [] bindings;
      if negb valid then Ok (counter, TM_EX_EGRAPH, None)
      else if negb (xm_owner mem) then Ok (counter, TM_EX_ENOMEM, None)
      else
        let? scratch := xm_scratch mem else Ok (counter, TM_EX_ENOMEM, None) in
        '(source, processors) ← bind_nodes p (sh_ordered a) zero_binding
          (replicate (length (sh_ordered a)) zero_binding) bindings;
        sinks ← bind_sinks p bindings [] (Z.to_nat (tm_sg_program_edge_count p)) 0;
        if negb (len sinks =? sh_sinks a) then Ok (counter, TM_EX_EFRAME, None)
        else
          '(counter, rc, fanout) ← tm_fo_create counter (Some (xc_fanout cfg)) (xm_fanout mem);
          match fanout with
          | Some fanout =>
              Ok (counter, TM_EX_OK,
                  Some (Build_tm_ex_owner fanout source processors sinks scratch
                          (xc_max_frame_bytes cfg) 0 (xc_source_session_generation cfg)
                          (xc_display_generation cfg) zero_ref
                          (Build_tm_ex_stats_v1 0 0 0 0 0 0 0) false false))
          | None => Ok (counter, TM_EX_EFRAME, None)
          end.

(* ------------------------------------------------------------------ *)
(** ** Operations *)

(** What a callback is shown: the bytes the source produced, and those a processor
    or the sink of a branch saw. *)
Inductive ex_event : Type :=
  | ExSourced (data : list Z)
  | ExVisited (processor : nat) (ref : tm_fs_frame_ref_v1) (data : list Z)
  | ExDelivered (branch : Z) (ref : tm_fs_frame_ref_v1) (data : list Z).

(** The source callback: its result, what it writes at the start of the buffer and
    the size it reports. *)
Record source_call := {
  so_result : Z;
  so_written : list Z;
  so_bytes : Z;
}.

Definition retire_ref (o : tm_ex_owner) (s : tm_fs_store) : res (tm_ex_owner * tm_fs_store * tm_ex_status) :=
  '(s, st) ← tm_fs_retire s (Some (ex_pending o));
  if negb (bool_decide (st = TM_FS_OK)) && negb (bool_decide (st = TM_FS_EBUSY)) then
    Ok (o, s, TM_EX_EFRAME)
  else Ok (set_pending o (ex_pending_bytes o) zero_ref, s, TM_EX_OK).

Definition tm_ex_stop (o : tm_ex_owner) (s : tm_fs_store)
    : res (tm_ex_owner * tm_fs_store * tm_ex_status) :=
  if ex_in_callback o then Ok (o, s, TM_EX_EINVAL)
  else if ex_stopped o then Ok (o, s, TM_EX_OK)
  else
    let o := set_pending (set_stopped o) 0 (ex_pending o) in
    '(o, s, rc) ← if truth (rf_frame_id (ex_pending o)) then retire_ref o s
                  else Ok (o, s, TM_EX_OK);
    if negb (bool_decide (rc = TM_EX_OK)) then Ok (o, s, TM_EX_EFRAME)
    else
      let '(fanout, rc) := tm_fo_seal (ex_fanout o) in
      Ok (set_fanout o fanout, s, fo_code rc).

(** The visits of the processors, up to the first that fails. *)
Fixpoint visit_loop (visits : nat -> Z) (ref : tm_fs_frame_ref_v1) (data : list Z)
    (i n : nat) : list ex_event * Z :=
  match n with
  | O => ([], 0)
  | S n =>
      if negb (visits i =? 0) then ([ExVisited i ref data], visits i)
      else
        let '(events, result) := visit_loop visits ref data (S i) n in
        (ExVisited i ref data :: events, result)
  end.

(** A lease that was acquired. *)
Definition drop_lease (s : tm_fs_store) (lease : tm_fs_ticket_v1) : res tm_fs_store :=
  if truth (tk_ticket_id lease) then '(s, _) ← tm_fs_release_lease s (Some lease); Ok s else Ok s.

(** Submits the pending frame, which stays when the fan-out does not take it. *)
Definition submit_pending (o : tm_ex_owner) (s : tm_fs_store)
    : res (tm_ex_owner * tm_fs_store * tm_ex_status) :=
  '(fanout, s, fo) ← tm_fo_submit (ex_fanout o) s (Some (ex_pending o));
  let o := set_fanout o fanout in
  if bool_decide (fo = TM_FO_EFULL) then Ok (count_backpressure o, s, TM_EX_EFULL)
  else if negb (bool_decide (fo = TM_FO_OK)) then Ok (o, s, fo_code fo)
  else retire_ref (count_submitted o) s.

(** Asks the source for a frame; [Some] is the status with which the pump ends. *)
Definition ask_source (o : tm_ex_owner) (s : tm_fs_store) (call : source_call)
    : res (tm_ex_owner * tm_fs_store * option tm_ex_status * list ex_event) :=
  scratch ← wr (ex_scratch o) 0 (so_written call);
  let o := set_scratch o scratch in
  if so_result call =? TM_EX_SOURCE_EOS then
    let o := set_stopped o in
    let '(fanout, rc) := tm_fo_seal (ex_fanout o) in
    Ok (set_fanout o fanout, s,
        Some (if bool_decide (fo_code rc = TM_EX_OK) then TM_EX_EOS else TM_EX_EFRAME), [])
  else if negb (so_result call =? TM_EX_SOURCE_FRAME) || (so_bytes call =? 0) ||
          (ex_scratch_capacity o <? so_bytes call) then
    '(o, s, _) ← tm_ex_stop o s; Ok (o, s, Some TM_EX_EPROVIDER, [])
  else
    data ← rd_slice scratch 0 (so_bytes call);
    Ok (count_sourced (set_pending o (so_bytes call) (ex_pending o)), s, None, [ExSourced data]).

(** Publishes the bytes of the scratch buffer. *)
Definition publish_pending (o : tm_ex_owner) (s : tm_fs_store)
    : res (tm_ex_owner * tm_fs_store * option tm_ex_status) :=
  data ← rd_slice (ex_scratch o) 0 (ex_pending_bytes o);
  '(s, fs, ref) ← tm_fs_publish_cpu s (Some data) (ex_source_session_generation o)
                    (ex_display_generation o) (ex_pending o);
  let o := set_pending o (ex_pending_bytes o) ref in
  if bool_decide (fs = TM_FS_EFULL) then Ok (count_backpressure o, s, Some TM_EX_EFULL)
  else if negb (bool_decide (fs = TM_FS_OK)) then
    '(o, s, _) ← tm_ex_stop o s; Ok (o, s, Some TM_EX_EFRAME)
  else Ok (set_pending o 0 ref, s, None).

(** Shows the pending frame to the processors. *)
Definition process_pending (o : tm_ex_owner) (s : tm_fs_store) (visits : nat -> Z)
    : res (tm_ex_owner * tm_fs_store * option tm_ex_status * list ex_event) :=
  '(s, rc, lease) ← tm_fs_acquire_weak s (Some (ex_pending o));
  '(rc, view) ← if bool_decide (rc = TM_FS_OK) then tm_fs_map_cpu s (Some lease) cpu_view_init
                else Ok (rc, cpu_view_init);
  if negb (bool_decide (rc = TM_FS_OK)) then
    s ← drop_lease s lease;
    '(o, s, _) ← tm_ex_stop o s;
    Ok (o, s, Some TM_EX_EFRAME, [])
  else
    data ← view_bytes s view;
    let '(events, result) := visit_loop visits (ex_pending o) data 0 (length (ex_processors o)) in
    '(s, _) ← tm_fs_release_lease s (Some lease);
    if negb (result =? 0) then
      '(o, s, _) ← tm_ex_stop o s; Ok (o, s, Some TM_EX_EPROVIDER, events)
    else Ok (count_processed o, s, None, events).

(** The pump calls itself once, to submit what it published. *)
Fixpoint tm_ex_pump_source (fuel : nat) (o : tm_ex_owner) (s : tm_fs_store) (call : source_call)
    (visits : nat -> Z) : res (tm_ex_owner * tm_fs_store * tm_ex_status * list ex_event) :=
  match fuel with
  | O => Fault
  | S fuel =>
      if ex_in_callback o then Ok (o, s, TM_EX_EINVAL, [])
      else if ex_stopped o then Ok (o, s, TM_EX_EOS, [])
      else if truth (rf_frame_id (ex_pending o)) then
        '(o, s, rc) ← submit_pending o s; Ok (o, s, rc, [])
      else
        '(o, s, ended, sourced) ← if ex_pending_bytes o =? 0 then ask_source o s call
                                  else Ok (o, s, None, []);
        match ended with
        | Some rc => Ok (o, s, rc, sourced)
        | None =>
            '(o, s, ended) ← publish_pending o s;
            match ended with
            | Some rc => Ok (o, s, rc, sourced)
            | None =>
                '(o, s, ended, visited) ← process_pending o s visits;
                match ended with
                | Some rc => Ok (o, s, rc, sourced ++ visited)
                | None =>
                    '(o, s, rc, events) ← tm_ex_pump_source fuel o s call visits;
                    Ok (o, s, rc, sourced ++ visited ++ events)
                end
            end
        end
  end.

(** [provider_rc] is what the sink's visit returns. *)
Definition tm_ex_pump_sink (o : tm_ex_owner) (s : tm_fs_store) (branch provider_rc : Z)
    : res (tm_ex_owner * tm_fs_store * tm_ex_status * list ex_event) :=
  if ex_in_callback o || (len (ex_sinks o) <=? branch) then Ok (o, s, TM_EX_EINVAL, [])
  else
    let '(fanout, st, t, ref) := tm_fo_take (ex_fanout o) branch in
    let o := set_fanout o fanout in
    if bool_decide (st = TM_FO_EBUSY) then Ok (o, s, TM_EX_EBUSY, [])
    else if negb (bool_decide (st = TM_FO_OK)) then Ok (o, s, fo_code st, [])
    else
      '(s, st, lease) ← tm_fo_acquire_lease (ex_fanout o) s t;
      '(rc, view) ← if bool_decide (st = TM_FO_OK) then tm_fs_map_cpu s (Some lease) cpu_view_init
                    else Ok (TM_FS_EINVAL, cpu_view_init);
      if negb (bool_decide (rc = TM_FS_OK)) then
        s ← drop_lease s lease;
        '(fanout, s, _) ← tm_fo_settle (ex_fanout o) s t;
        '(o, s, _) ← tm_ex_stop (set_fanout o fanout) s;
        Ok (o, s, TM_EX_EFRAME, [])
      else
        data ← view_bytes s view;
        let events := [ExDelivered branch ref data] in
        '(s, released) ← tm_fs_release_lease s (Some lease);
        '(fanout, s, settled) ← if bool_decide (released = TM_FS_OK)
                                then tm_fo_settle (ex_fanout o) s t
                                else Ok (ex_fanout o, s, TM_FO_EINVAL);
        let o := set_fanout o fanout in
        if negb (bool_decide (settled = TM_FO_OK)) then
          '(o, s, _) ← tm_ex_stop o s; Ok (o, s, TM_EX_EFRAME, events)
        else if negb (provider_rc =? 0) then
          '(o, s, _) ← tm_ex_stop o s; Ok (o, s, TM_EX_EPROVIDER, events)
        else Ok (count_delivered o, s, TM_EX_OK, events).

Definition tm_ex_discard_ready (o : tm_ex_owner) (s : tm_fs_store) (branch : Z)
    : res (tm_ex_owner * tm_fs_store * tm_ex_status) :=
  if ex_in_callback o || (len (ex_sinks o) <=? branch) then Ok (o, s, TM_EX_EINVAL)
  else if negb (ex_stopped o) then Ok (o, s, TM_EX_ESTATE)
  else
    '(fanout, s, rc) ← tm_fo_discard_ready (ex_fanout o) s branch;
    Ok (set_fanout o fanout, s, fo_code rc).

(** [out] is the size and the version of the structure that is passed. *)
Definition tm_ex_stats (o : tm_ex_owner) (out : Z * Z) : tm_ex_status * option tm_ex_stats_v1 :=
  if ex_in_callback o then (TM_EX_EINVAL, None)
  else if negb (out.2 =? TM_EX_ABI_V1) then (TM_EX_EVERSION, None)
  else if negb (out.1 =? SIZEOF_EX_STATS) then (TM_EX_EINVAL, None)
  else
    let s := ex_stats o in
    (TM_EX_OK, Some (Build_tm_ex_stats_v1 (st_sourced s) (st_submitted s) (st_processed s)
      (st_delivered s) (st_backpressure s)
      (b2i (truth (rf_frame_id (ex_pending o)) || truth (ex_pending_bytes o))) (st_stopped s))).

(** Whether the owner was freed. *)
Definition tm_ex_destroy (o : tm_ex_owner) : tm_ex_status :=
  if ex_in_callback o then TM_EX_EINVAL
  else if negb (ex_stopped o) then TM_EX_EBUSY
  else fo_code (tm_fo_destroy (ex_fanout o)).

(* ------------------------------------------------------------------ *)
(** ** Calls on the store *)

Lemma store_call o s f op :
  fan_is o s f -> fs_op_ok op -> (forall t, op <> FsRelease PIN t) ->
  exists s', fs_step s op = Ok s' /\ fan_is o s' f /\ kept s s'.
Proof.
  intros Hf Hop Hne. apply store_step; [done..|]. intros token _ (t & -> & _). by apply (Hne (Some t)).
Qed.

Lemma kept_refl s : kept s s.
Proof. by intros ? ? ?. Qed.

Lemma kept_trans s1 s2 s3 : kept s1 s2 -> kept s2 s3 -> kept s1 s3.
Proof. intros H1 H2 i g d H. by apply H2, H1. Qed.

(** What the references name is kept, and those that are current stay so. *)
Definition steady (s s' : tm_fs_store) : Prop :=
  kept s s' /\ forall ref, current s ref -> current s' ref.

Lemma steady_trans s1 s2 s3 : steady s1 s2 -> steady s2 s3 -> steady s1 s3.
Proof. intros [H1 H2] [H3 H4]. split; [by eapply kept_trans|auto]. Qed.

Lemma moved_steady s l s' l' : moved s l s' l' -> steady s s'.
Proof. by intros []. Qed.

Lemma retire_call o s f ref :
  fan_is o s f -> 0 <= rf_slot ref ->
  exists s' rc, tm_fs_retire s (Some ref) = Ok (s', rc) /\ fan_is o s' f /\ kept s s'.
Proof.
  intros Hf Hr. destruct (store_call o s f (FsRetire (Some ref)) Hf) as (s' & E & Hf' & Hk);
    [by intros r [= <-]|done|].
  cbn [fs_step] in E. destruct (tm_fs_retire s (Some ref)) as [[s1 rc]| |]; cbn in E; [|done..].
  injection E as ->. by exists s', rc.
Qed.

Lemma release_lease_call o s f t :
  fan_is o s f ->
  exists s' rc, tm_fs_release_lease s t = Ok (s', rc) /\ fan_is o s' f /\ steady s s'.
Proof.
  intros Hf. destruct (store_call o s f (FsRelease LEASE t) Hf) as (s' & E & Hf' & Hk); [done..|].
  assert (Hst : steady s s').
  { split; [done|]. intros r. apply (current_step s (FsRelease LEASE t)); try done. apply Hf. }
  cbn [fs_step] in E. unfold tm_fs_release_lease.
  destruct (release_credit LEASE s t) as [[s1 rc]| |]; cbn in E; [|done..].
  injection E as ->. by exists s', rc.
Qed.

Lemma drop_lease_call o s f lease :
  fan_is o s f -> exists s', drop_lease s lease = Ok s' /\ fan_is o s' f /\ steady s s'.
Proof.
  intros Hf. unfold drop_lease. destruct (truth _).
  - destruct (release_lease_call o s f (Some lease) Hf) as (s' & rc & -> & H). by exists s'.
  - exists s. split; [done|]. split; [done|by split; [apply kept_refl|]].
Qed.

(** What a reference names, for good. *)
Definition shows (s : tm_fs_store) (ref : tm_fs_frame_ref_v1) (data : list Z) : Prop :=
  exists i, rf_slot ref = Z.of_nat i /\ names s i (rf_slot_generation ref) data.

Lemma shows_kept s s' ref data : kept s s' -> shows s ref data -> shows s' ref data.
Proof. intros Hk (i & Hi & Hn). exists i. split; [done|]. by apply Hk. Qed.

Lemma publish_out s data session display out s' rc ref :
  tm_fs_publish_cpu s data session display out = Ok (s', rc, ref) -> rc <> TM_FS_OK ->
  ref = out \/ ref = zero_ref.
Proof.
  unfold tm_fs_publish_cpu. destruct data as [data|]; [|intros [= _ _ ->]; by left].
  destruct (_ || _ || _ || _); [intros [= _ _ ->]; by left|].
  destruct (fs_sealed s); [intros [= _ _ ->]; by right|].
  destruct (publish_scan _ _ _) as [[index|]| |]; cbn [mbind res_bind]; [|intros [= _ _ <-]; by right|done..].
  destruct (fs_next_frame_id s =? U64_MAX); [intros [= _ _ <-]; by right|].
  destruct (rd _ _); cbn [mbind res_bind]; [|done..].
  destruct (publish_slot _ _ _ _ _); cbn [mbind res_bind]; [|done..].
  destruct (upd _ _ _); cbn [mbind res_bind]; [|done..]. by intros [= _ <- _].
Qed.

Lemma publish_call o s f data session display out :
  fan_is o s f -> rf_frame_id out = 0 ->
  exists s' rc ref, tm_fs_publish_cpu s (Some data) session display out = Ok (s', rc, ref) /\
    fan_is o s' f /\ kept s s' /\
    if bool_decide (rc = TM_FS_OK)
    then shows s' ref data /\ current s' ref /\ 0 < rf_frame_id ref <= U64_MAX
    else rf_frame_id ref = 0.
Proof.
  intros Hf Hout. pose proof (fi_store _ _ _ Hf) as Hw. pose proof (wf_frames _ Hw) as Hframes.
  destruct (publish_spec s (Some data) session display out Hw)
    as [(rc & out' & E & Hrc)|(d & i & slot & [= <-] & Hi & Hu & Hd & Hm & E)]; rewrite E;
    eexists _, _, _; (split; [done|]).
  - rewrite bool_decide_false by done. split; [done|]. split; [apply kept_refl|].
    by destruct (publish_out _ _ _ _ _ _ _ _ E Hrc) as [->| ->].
  - rewrite bool_decide_true by done.
    split; [by eapply published_is|]. split.
    + intros j g x. eapply names_change; [done|]. apply change_publish; [done|done|lia..].
    + destruct (published_names _ _ _ _ _ _ _ Hw E) as (_ & j & Hj & Hn). split; [by exists j|].
      split; [by eapply current_published|]. cbn. unfold U64_MAX in *. lia.
Qed.

(* ------------------------------------------------------------------ *)
(** ** What the callbacks are shown *)

Definition sourced_of (events : list ex_event) : list (list Z) :=
  omap (fun e => match e with ExSourced data => Some data | _ => None end) events.

Definition seen_of (processor : nat) (events : list ex_event) : list (list Z) :=
  omap (fun e => match e with
                 | ExVisited j _ data => if decide (j = processor) then Some data else None
                 | _ => None
                 end) events.

Definition delivered_of (branch : nat) (events : list ex_event) : list (list Z) :=
  omap (fun e => match e with
                 | ExDelivered b _ data => if decide (Z.to_nat b = branch) then Some data else None
                 | _ => None
                 end) events.

(** A lane between two calls: what its sink got and what still waits are frames
    that were submitted, in their order; all of them when the lane is lossless and
    nothing was lost ([clean]); and no frame is held. *)
Record carries (s : tm_fs_store) (clean : bool) (submitted got : list (list Z)) (l : lane) : Prop := {
  ca_waiting : exists waiting,
    Forall2 (fun e data => shows s e.2 data) (ln_queue l) waiting /\
    sublist (got ++ waiting) submitted /\
    (clean = true -> ln_policy l = TM_FO_ORDERED_LOSSLESS -> got ++ waiting = submitted);
  ca_idle : forall t x, ln_frames l !! t = Some x -> x.1 = Waiting;
}.

(** The frame that was sourced and not yet submitted. *)
Definition pending_is (o : tm_ex_owner) (s : tm_fs_store) (rest : list (list Z)) : Prop :=
  match rest with
  | [] => rf_frame_id (ex_pending o) = 0 /\ ex_pending_bytes o = 0
  | [data] =>
      (rf_frame_id (ex_pending o) = 0 /\ 0 < ex_pending_bytes o /\
       rd_slice (ex_scratch o) 0 (ex_pending_bytes o) = Ok data) \/
      (0 < rf_frame_id (ex_pending o) <= U64_MAX /\ ex_pending_bytes o = 0 /\
       shows s (ex_pending o) data /\ current s (ex_pending o))
  | _ => False
  end.

Record ex_core (clean : bool) (o : tm_ex_owner) (s : tm_fs_store) (f : fan) (events : list ex_event)
    (submitted rest : list (list Z)) : Prop := {
  xi_fan : fan_is (ex_fanout o) s f;
  xi_callback : ex_in_callback o = false;
  xi_scratch : len (ex_scratch o) = ex_scratch_capacity o;
  xi_sinks : len (ex_sinks o) = len (fan_lanes f);
  xi_sourced : sourced_of events = submitted ++ rest;
  xi_rest : (length rest <= 1)%nat;
  xi_pending : ex_stopped o = false -> pending_is o s rest;
  xi_lanes : forall i l, fan_lanes f !! i = Some l -> carries s clean submitted (delivered_of i events) l;
}.

(** What a processor has seen: the published frames. *)
Definition seen_is (o : tm_ex_owner) (submitted rest seen : list (list Z)) : Prop :=
  prefix submitted seen /\ prefix seen (submitted ++ rest) /\
  (ex_stopped o = false ->
   seen = submitted ++ if truth (rf_frame_id (ex_pending o)) then rest else []).

Definition all_seen (o : tm_ex_owner) (events : list ex_event) (submitted rest : list (list Z)) : Prop :=
  forall j, (j < length (ex_processors o))%nat -> seen_is o submitted rest (seen_of j events).

Definition ex_inv (clean : bool) (o : tm_ex_owner) (s : tm_fs_store) (f : fan) (events : list ex_event)
    (submitted rest : list (list Z)) : Prop :=
  ex_core clean o s f events submitted rest /\ all_seen o events submitted rest.

Lemma carries_kept s s' clean submitted got l :
  kept s s' -> carries s clean submitted got l -> carries s' clean submitted got l.
Proof.
  intros Hk [(w & Hw & H) Hidle]. split; [|done]. exists w. split; [|done].
  eapply Forall2_impl; [exact Hw|]. intros e d. by apply shows_kept.
Qed.

Lemma carries_unclean s clean submitted got l :
  carries s clean submitted got l -> carries s false submitted got l.
Proof. intros [(w & Hw & Hs & _) Hidle]. split; [|done]. exists w. split_and!; done. Qed.

(** A frame is submitted. *)
Lemma carries_submit inc s clean submitted got l l' ref data :
  lane_submit inc ref l l' -> shows s ref data -> carries s clean submitted got l ->
  carries s clean (submitted ++ [data]) got l'.
Proof.
  intros Hl Hd [(w & Hw & Hs & Hc) Hidle].
  destruct Hl as [Hsel|t Hsel Hf Ht|t head old queue Hsel Hf Hp Hq Ht].
  - split; [|done]. exists w. split; [done|]. split; [by apply sublist_inserts_r|].
    intros _ Hp. destruct Hsel. intros Hs'. by rewrite Hp in Hs'.
  - split.
    + exists (w ++ [data]). rewrite app_assoc. split; [cbn; apply Forall2_app; [done|by constructor]|].
      split; [by apply sublist_app|]. intros H1 H2. by rewrite (Hc H1 H2).
    + intros t' x. cbn. intros [[<- <-]|[_ H]]%lookup_insert_Some; [done|by eapply Hidle].
  - rewrite Hq in Hw. inv Hw as [|? d ? w' Hd0 Hw']. split.
    + exists (w' ++ [data]). rewrite app_assoc. split; [cbn; apply Forall2_app; [done|by constructor]|].
      split; [|cbn; intros _ H; by rewrite Hp in H]. apply sublist_app; [|done].
      etrans; [|exact Hs]. apply sublist_app; [done|]. by apply sublist_cons.
    + intros t' x. cbn. intros [[<- <-]|[_ [_ H]%lookup_delete_Some]]%lookup_insert_Some; [done|by eapply Hidle].
Qed.

(** *** Stopping *)

(** The parts of the owner that no call changes. *)
Definition same_frame (o o' : tm_ex_owner) : Prop :=
  ex_in_callback o' = ex_in_callback o /\ len (ex_scratch o') = len (ex_scratch o) /\
  ex_scratch_capacity o' = ex_scratch_capacity o /\ ex_sinks o' = ex_sinks o /\
  ex_processors o' = ex_processors o.

Definition same_order (o o' : tm_ex_owner) : Prop :=
  fo_incarnation (ex_fanout o') = fo_incarnation (ex_fanout o) /\
  fo_next_order (ex_fanout o') = fo_next_order (ex_fanout o).

Lemma ex_core_stopped clean o s f events submitted rest o' s' f' :
  ex_core clean o s f events submitted rest -> same_frame o o' -> ex_stopped o' = true ->
  fan_is (ex_fanout o') s' f' -> fan_lanes f' = fan_lanes f -> kept s s' ->
  ex_core clean o' s' f' events submitted rest.
Proof.
  intros [] (E1 & E2 & E3 & E4 & E5) Hs Hf El Hk. split; try congruence; try done.
  - intros i l. rewrite El. intros Hl. by eapply carries_kept, xi_lanes0.
Qed.

Lemma seal_is o s f : fan_is o s f -> fan_is (tm_fo_seal o).1 s (Build_fan (fan_lanes f) true).
Proof. by intros []. Qed.

Lemma pending_slot o s rest : pending_is o s rest -> rf_frame_id (ex_pending o) <> 0 -> 0 <= rf_slot (ex_pending o).
Proof.
  destruct rest as [|d [|]]; cbn; [intros [? _] ?; done| |done].
  intros [(? & _)|(_ & _ & (i & Hi & _) & _)] ?; [done|lia].
Qed.

Lemma stop_spec clean o s f events submitted rest :
  ex_core clean o s f events submitted rest ->
  exists o' s' rc f', tm_ex_stop o s = Ok (o', s', rc) /\ ex_core clean o' s' f' events submitted rest /\
    ex_stopped o' = true /\ same_order o o' /\ same_frame o o'.
Proof.
  intros Hi. unfold tm_ex_stop. rewrite (xi_callback _ _ _ _ _ _ _ Hi).
  destruct (ex_stopped o) eqn:Es; [by exists o, s, TM_EX_OK, f|].
  pose proof (xi_fan _ _ _ _ _ _ _ Hi) as Hf. pose proof (xi_pending _ _ _ _ _ _ _ Hi Es) as Hp.
  set (o1 := set_pending (set_stopped o) 0 (ex_pending o)).
  destruct (truth (rf_frame_id (ex_pending o1))) eqn:Et; cbn [mbind res_bind].
  - unfold retire_ref. assert (Hslot : 0 <= rf_slot (ex_pending o1)).
    { eapply (pending_slot o); [done|]. unfold truth in Et. cbn in Et. lia. }
    destruct (retire_call _ _ _ _ Hf Hslot) as (s1 & st & -> & Hf1 & Hk). cbn [mbind res_bind].
    destruct (_ && _); cbn [mbind res_bind].
    + rewrite bool_decide_false by done. eexists _, s1, _, f. split; [done|].
      split; [by eapply ex_core_stopped|done].
    + rewrite bool_decide_true by done. cbn [negb]. eexists _, s1, _, (Build_fan (fan_lanes f) true). split; [done|].
      split; [|done]. eapply ex_core_stopped; [exact Hi|done|done| |done|done]. by apply seal_is.
  - rewrite bool_decide_true by done. cbn [negb]. eexists _, s, _, (Build_fan (fan_lanes f) true). split; [done|].
    split; [|done]. eapply ex_core_stopped; [exact Hi|done|done| |done|apply kept_refl]. by apply seal_is.
Qed.

(** Calls that fail with a stop, when the processors saw no more than was sourced. *)
Definition seen_between (o : tm_ex_owner) (events : list ex_event) (submitted rest : list (list Z)) : Prop :=
  forall j, (j < length (ex_processors o))%nat ->
    prefix submitted (seen_of j events) /\ prefix (seen_of j events) (submitted ++ rest).

Lemma all_seen_between o events submitted rest :
  all_seen o events submitted rest -> seen_between o events submitted rest.
Proof. intros H j Hj. by destruct (H j Hj) as (? & ? & _). Qed.

Lemma inv_stopped clean o s f events submitted rest o' s' f' :
  ex_core clean o s f events submitted rest -> seen_between o events submitted rest ->
  same_frame o o' -> ex_stopped o' = true -> fan_is (ex_fanout o') s' f' ->
  fan_lanes f' = fan_lanes f -> kept s s' -> ex_inv clean o' s' f' events submitted rest.
Proof.
  intros Hi Hseen Hf Hs Hfan El Hk. split; [by eapply ex_core_stopped|].
  destruct Hf as (_ & _ & _ & _ & Ep). intros j. rewrite Ep. intros Hj. destruct (Hseen j Hj).
  split_and!; [done..|]. by rewrite Hs.
Qed.

Lemma stop_inv clean o s f events submitted rest :
  ex_core clean o s f events submitted rest -> seen_between o events submitted rest ->
  exists o' s' rc f', tm_ex_stop o s = Ok (o', s', rc) /\
    ex_inv clean o' s' f' events submitted rest /\ ex_stopped o' = true /\ same_order o o'.
Proof.
  intros Hi Hseen. destruct (stop_spec _ _ _ _ _ _ _ Hi) as (o' & s' & rc & f' & E & H & Hs & Ho & Hf).
  exists o', s', rc, f'. split; [done|]. split; [|done].
  split; [done|]. destruct Hf as (_ & _ & _ & _ & Ep). intros j. rewrite Ep. intros Hj.
  destruct (Hseen j Hj). split_and!; [done..|]. by rewrite Hs.
Qed.

(** *** Pumping the source *)

Lemma pending_steady o s s' rest : steady s s' -> pending_is o s rest -> pending_is o s' rest.
Proof.
  intros [Hk Hc]. destruct rest as [|d [|]]; cbn; try done.
  intros [H|(H1 & H2 & H3 & H4)]; [by left|right]. split; [done|]. split; [done|]. split; [by eapply shows_kept|auto].
Qed.

(** Only the fan-out, the counters and the store change, and the lanes do not. *)
Lemma ex_core_steady clean o s f events submitted rest o' s' f' :
  ex_core clean o s f events submitted rest -> same_frame o o' -> ex_stopped o' = ex_stopped o ->
  ex_pending o' = ex_pending o -> ex_pending_bytes o' = ex_pending_bytes o ->
  ex_scratch o' = ex_scratch o -> fan_is (ex_fanout o') s' f' -> fan_lanes f' = fan_lanes f ->
  steady s s' -> ex_core clean o' s' f' events submitted rest.
Proof.
  intros [] (E1 & E2 & E3 & E4 & E5) Es Ep Eb Esc Hf El Hst. split; try congruence; try done.
  - rewrite Es. intros H. specialize (xi_pending0 H). apply (pending_steady _ _ _ _ Hst) in xi_pending0.
    unfold pending_is in *. by rewrite Ep, Eb, Esc.
  - intros i l. rewrite El. intros Hl. eapply carries_kept; [apply Hst|by apply xi_lanes0].
Qed.

(** The fan-out took the pending frame. *)
Lemma ex_core_submitted clean o s f events submitted data o' s' f' inc ref :
  ex_core clean o s f events submitted [data] -> same_frame o o' -> ex_stopped o' = ex_stopped o ->
  ex_stopped o = false -> ref = ex_pending o -> rf_frame_id ref <> 0 ->
  rf_frame_id (ex_pending o') = 0 -> ex_pending_bytes o' = 0 -> fan_is (ex_fanout o') s' f' ->
  Forall2 (lane_submit inc ref) (fan_lanes f) (fan_lanes f') -> kept s s' ->
  ex_core clean o' s' f' events (submitted ++ [data]) [].
Proof.
  intros Hi (E1 & E2 & E3 & E4 & E5) Es Hs -> Hn Ep Eb Hf Hl Hk.
  pose proof (xi_pending _ _ _ _ _ _ _ Hi Hs) as [(? & _)|(_ & _ & Hshow & _)]; [done|]. destruct Hi.
  split; rewrite ?app_nil_r; try congruence; try done.
  - rewrite E4, xi_sinks0. unfold len. by rewrite (Forall2_length _ _ _ Hl).
  - cbn. lia.
  - intros i l' Hl'. destruct (Forall2_lookup_r _ _ _ _ _ Hl Hl') as (l & Hli & Hsub).
    eapply carries_kept; [done|]. eapply carries_submit; [done|done|]. by apply xi_lanes0.
Qed.

(** What the processors saw, in these cases. *)
Lemma seen_steady o o' events submitted rest :
  ex_processors o' = ex_processors o -> ex_stopped o' = ex_stopped o -> ex_pending o' = ex_pending o ->
  all_seen o events submitted rest -> all_seen o' events submitted rest.
Proof. intros E Es Ep H j. rewrite E. intros Hj. unfold seen_is. rewrite Es, Ep. by apply H. Qed.

Lemma seen_submitted o o' events submitted data :
  ex_processors o' = ex_processors o -> ex_stopped o = false -> rf_frame_id (ex_pending o) <> 0 ->
  all_seen o events submitted [data] -> all_seen o' events (submitted ++ [data]) [].
Proof.
  intros E Hs Hn H j. rewrite E. intros Hj. destruct (H j Hj) as (_ & _ & H'). specialize (H' Hs).
  unfold truth in H'. replace (_ =? 0) with false in H' by lia. cbn in H'.
  unfold seen_is. rewrite app_nil_r, H'. split; [done|]. split; [done|]. intros _.
  by case_match; rewrite ?app_nil_r.
Qed.

Lemma not_admitted inc f ref rc f' :
  fan_submit inc f (Some ref) rc f' -> rc <> TM_FO_OK -> f' = f.
Proof. cbn. intros H Hrc. repeat case_match; naive_solver. Qed.

Lemma admitted inc f ref f' :
  fan_submit inc f (Some ref) TM_FO_OK f' -> Forall2 (lane_submit inc ref) (fan_lanes f) (fan_lanes f').
Proof. cbn. intros H. repeat case_match; naive_solver. Qed.

Lemma submit_pending_spec clean o s f events submitted rest :
  ex_inv clean o s f events submitted rest -> ex_stopped o = false ->
  rf_frame_id (ex_pending o) <> 0 -> fo_next_order (ex_fanout o) < U32_MAX ->
  exists o' s' rc f' submitted' rest', submit_pending o s = Ok (o', s', rc) /\
    ex_inv clean o' s' f' events submitted' rest' /\
    fo_incarnation (ex_fanout o') = fo_incarnation (ex_fanout o) /\
    fo_next_order (ex_fanout o) <= fo_next_order (ex_fanout o') <= fo_next_order (ex_fanout o) + 1.
Proof.
  intros [Hi Hseen] Hs Hn Ho. pose proof (xi_pending _ _ _ _ _ _ _ Hi Hs) as Hp.
  destruct rest as [|d [|]]; [by destruct Hp| |done].
  destruct Hp as [(? & _)|(Hid & Hb & (i & Hslot & Hnames) & Hcur)]; [done|].
  assert (Hok : submission_ok (Some (ex_pending o))) by (intros r [= <-]; lia).
  destruct (submit_spec _ s f (Some (ex_pending o)) (xi_fan _ _ _ _ _ _ _ Hi) Hok Ho)
    as (fo' & s1 & rc & f1 & E & Hsub & Hf1 & Einc & Hord & Hm & _).
  unfold submit_pending. rewrite E. cbn [mbind res_bind]. apply moved_steady in Hm.
  destruct (decide (rc = TM_FO_OK)) as [->|Hrc].
  - rewrite bool_decide_false by done. rewrite bool_decide_true by done. cbn [negb]. unfold retire_ref.
    pose proof (proj2 Hm _ Hcur) as Hcur1.
    destruct (current_retire s1 _ (fi_store _ _ _ Hf1) Hcur1) as (s2 & st & Er & Hst).
    assert (Hslot0 : 0 <= rf_slot (ex_pending o)) by lia.
    destruct (retire_call _ _ _ _ Hf1 Hslot0) as (s2' & st' & Er' & Hf2 & Hk).
    rewrite Er in Er'. injection Er' as <- <-.
    cbn [count_submitted set_stats set_fanout ex_pending]. rewrite Er. cbn [mbind res_bind].
    replace (negb _ && negb _) with false by (by destruct Hst as [-> | ->]).
    eexists _, s2, _, f1, _, _. split; [done|].
    split; [|by split]. split; [|apply (seen_submitted o); [done|done|lia|done]].
    eapply ex_core_submitted; [exact Hi|done..|by apply admitted|].
    eapply kept_trans; [apply Hm|done].
  - rewrite (not_admitted _ _ _ _ _ Hsub Hrc) in Hf1. rewrite (bool_decide_false (rc = TM_FO_OK)) by done.
    cbn [negb]. case_bool_decide; eexists _, s1, _, f, _, _; (split; [done|]);
      (split; [split; [by eapply ex_core_steady|by eapply seen_steady]|by split]).
Qed.

(** What the source writes fits the buffer it is given. *)
Definition call_ok (o : tm_ex_owner) (call : source_call) : Prop :=
  len (so_written call) <= ex_scratch_capacity o /\ 0 <= so_bytes call.

Lemma sourced_app events events' : sourced_of (events ++ events') = sourced_of events ++ sourced_of events'.
Proof. apply omap_app. Qed.

Lemma seen_app j events events' : seen_of j (events ++ events') = seen_of j events ++ seen_of j events'.
Proof. apply omap_app. Qed.

Lemma delivered_app i events events' :
  delivered_of i (events ++ events') = delivered_of i events ++ delivered_of i events'.
Proof. apply omap_app. Qed.

(** Nothing is pending. *)
Lemma pending_none o s rest :
  pending_is o s rest -> rf_frame_id (ex_pending o) = 0 -> ex_pending_bytes o = 0 -> rest = [].
Proof. destruct rest as [|d [|]]; cbn; [done| |done]. intros [H|H] ? ?; lia. Qed.

Lemma ask_source_spec clean o s f events submitted rest call :
  ex_inv clean o s f events submitted rest -> ex_stopped o = false ->
  rf_frame_id (ex_pending o) = 0 -> ex_pending_bytes o = 0 -> call_ok o call ->
  exists o' s' ended sourced f' rest', ask_source o s call = Ok (o', s', ended, sourced) /\
    ex_inv clean o' s' f' (events ++ sourced) submitted rest' /\ same_order o o' /\
    (ended = None -> ex_stopped o' = false /\ rf_frame_id (ex_pending o') = 0 /\ 0 < ex_pending_bytes o').
Proof.
  intros [Hi Hseen] Hs Hn Hb [Hw Hcb]. pose proof (xi_pending _ _ _ _ _ _ _ Hi Hs) as Hp.
  apply pending_none in Hp as ->; [|done..].
  pose proof (xi_scratch _ _ _ _ _ _ _ Hi) as Hsc. unfold ask_source.
  rewrite wr_front by lia. cbn [mbind res_bind]. set (scratch := _ ++ _).
  assert (Hlen : len scratch = len (ex_scratch o)) by (eapply wr_len, wr_front; lia).
  assert (H1 : ex_core clean (set_scratch o scratch) s f events submitted []).
  { destruct Hi. split; cbn; try congruence; try done. }
  assert (Hbetween : seen_between (set_scratch o scratch) events submitted [])
    by by eapply all_seen_between in Hseen.
  destruct (so_result call =? TM_EX_SOURCE_EOS).
  { eexists _, s, _, _, (Build_fan (fan_lanes f) true), []. split; [done|]. rewrite app_nil_r.
    split; [|done]. eapply inv_stopped; [exact H1|done..|by apply seal_is, H1|done|apply kept_refl]. }
  destruct (_ || _) eqn:Ebad.
  { destruct (stop_inv _ _ _ _ _ _ _ H1 Hbetween) as (o' & s' & rc & f' & -> & Hi' & Hs' & Ho').
    eexists o', s', _, [], f', []. split; [done|]. by rewrite app_nil_r. }
  cbn [set_scratch ex_scratch_capacity] in Ebad. rewrite rd_slice_in_range by lia. cbn [mbind res_bind drop].
  set (data := take _ _). eexists _, s, None, _, f, [data]. split; [done|]. split; [|split; [done|intros _]].
  2: { split; [done|]. split; [done|]. cbn. lia. }
  split.
  - destruct H1. split; cbn [count_sourced set_stats set_pending set_scratch ex_fanout ex_in_callback
      ex_scratch ex_scratch_capacity ex_sinks ex_stopped]; try done.
    + rewrite sourced_app, xi_sourced0. by rewrite app_nil_r.
    + intros _. left. split; [done|]. cbn. split; [lia|]. by rewrite rd_slice_in_range by lia.
    + intros i l Hl. rewrite delivered_app, app_nil_r. by apply xi_lanes0.
  - intros j Hj. rewrite seen_app, app_nil_r. destruct (Hseen j Hj) as (_ & _ & H). specialize (H Hs).
    unfold truth in H. rewrite Hn, app_nil_r in H. unfold seen_is. rewrite H. split; [done|].
    split; [by eexists|]. intros _. cbn. by rewrite Hn, app_nil_r.
Qed.

Lemma publish_pending_spec clean o s f events submitted rest :
  ex_inv clean o s f events submitted rest -> ex_stopped o = false ->
  rf_frame_id (ex_pending o) = 0 -> 0 < ex_pending_bytes o ->
  exists o' s' ended f' data, publish_pending o s = Ok (o', s', ended) /\ same_order o o' /\
    ex_core clean o' s' f' events submitted rest /\ rest = [data] /\
    match ended with
    | Some _ => all_seen o' events submitted rest
    | None => ex_stopped o' = false /\ rf_frame_id (ex_pending o') <> 0 /\
        forall j, (j < length (ex_processors o'))%nat -> seen_of j events = submitted
    end.
Proof.
  intros [Hi Hseen] Hs Hn Hb. pose proof (xi_pending _ _ _ _ _ _ _ Hi Hs) as Hp.
  destruct rest as [|d [|]]; [by destruct Hp; lia| |done]. destruct Hp as [(_ & _ & Hd)|(? & _)]; [|lia].
  assert (Hsub : forall j, (j < length (ex_processors o))%nat -> seen_of j events = submitted).
  { intros j Hj. destruct (Hseen j Hj) as (_ & _ & H). rewrite (H Hs), Hn. cbn. apply app_nil_r. }
  unfold publish_pending. rewrite Hd. cbn [mbind res_bind].
  destruct (publish_call _ _ _ d (ex_source_session_generation o) (ex_display_generation o) _
    (xi_fan _ _ _ _ _ _ _ Hi) Hn) as (s1 & rc & ref & -> & Hf1 & Hk & Href). cbn [mbind res_bind].
  assert (H1 : rc <> TM_FS_OK -> forall o1, ex_pending o1 = ref ->
    ex_core clean (set_pending o (ex_pending_bytes o) ref) s1 f events submitted [d]).
  { intros Hrc o1 _. rewrite bool_decide_false in Href by done. destruct Hi. split; try done.
    - intros _. left. cbn. by split.
    - intros i l Hl. eapply carries_kept; [done|]. by apply xi_lanes0. }
  destruct (decide (rc = TM_FS_OK)) as [->|Hrc].
  - rewrite bool_decide_true in Href by done. destruct Href as (Hsh & Hcur & Hid).
    rewrite bool_decide_false by done. rewrite bool_decide_true by done. cbn [negb].
    eexists _, s1, None, f, d. split; [done|]. split; [done|]. split; [|split; [done|split; [done|split; [cbn; lia|done]]]].
    destruct Hi. split; try done.
    + intros _. right. cbn. by split.
    + intros i l Hl. eapply carries_kept; [done|]. by apply xi_lanes0.
  - specialize (H1 Hrc). rewrite (bool_decide_false (rc = TM_FS_OK)) in * by done. cbn [negb].
    assert (H2 := H1 (set_pending o 0 ref) eq_refl).
    assert (H3 : all_seen (set_pending o (ex_pending_bytes o) ref) events submitted [d]).
    { intros j Hj. rewrite (Hsub j Hj). split; [done|]. split; [by eexists|]. intros _. cbn.
      rewrite Href. symmetry. apply app_nil_r. }
    case_bool_decide as E.
    + eexists _, s1, _, f, d. split; [done|]. split; [done|]. split; [|by split]. by destruct H2.
    + destruct (stop_inv _ _ _ _ _ _ _ H2 (all_seen_between _ _ _ _ H3))
        as (o' & s' & rc' & f' & -> & [Hc' Ha'] & Hs' & Ho'). eexists o', s', _, f', d. by split_and!.
Qed.

Lemma visit_loop_spec visits ref data n i events result :
  visit_loop visits ref data i n = (events, result) ->
  sourced_of events = [] /\ (forall b, delivered_of b events = []) /\
  (forall j, (j < i)%nat -> seen_of j events = []) /\
  (forall j, seen_of j events = [] \/ seen_of j events = [data]) /\
  (result = 0 -> forall j, (i <= j < i + n)%nat -> seen_of j events = [data]).
Proof.
  revert i events result. induction n as [|n IH]; intros i events result; cbn [visit_loop].
  { intros [= <- <-]. do 3 (split; [done|]). split; [by left|]. intros _ j Hj. lia. }
  destruct (visits i =? 0) eqn:E; cbn [negb].
  - destruct (visit_loop visits ref data (S i) n) as [evs res'] eqn:El. intros [= <- <-].
    destruct (IH _ _ _ El) as (H1 & H2 & H3 & H4 & H5). cbn.
    split; [done|]. split; [done|]. split; [|split].
    + intros j Hj. rewrite decide_False by lia. apply H3. lia.
    + intros j. case_decide as Ej; [|apply H4]. right. fold (seen_of j evs). by rewrite H3 by lia.
    + intros Hr j Hj. fold (seen_of j evs). case_decide; [by rewrite H3 by lia|apply H5; [done|lia]].
  - intros [= <- <-]. cbn. split; [done|]. split; [done|]. split; [|split; [|lia]].
    + intros j Hj. by rewrite decide_False by lia.
    + intros j. case_decide; [by right|by left].
Qed.

(** A lease on what a current reference names, and its view. *)
Lemma weak_call o s f ref data :
  fan_is o s f -> shows s ref data ->
  exists s' rc lease, tm_fs_acquire_weak s (Some ref) = Ok (s', rc, lease) /\ fan_is o s' f /\ steady s s' /\
    (rc = TM_FS_OK -> exists view, tm_fs_map_cpu s' (Some lease) cpu_view_init = Ok (TM_FS_OK, view) /\
       view_bytes s' view = Ok data).
Proof.
  intros Hf (i & Hi & Hn). assert (Href : ref_ok (Some ref)) by (intros r [= <-]; lia).
  destruct (store_call o s f (FsAcquireWeak (Some ref)) Hf Href) as (s' & E & Hf' & Hk); [done|].
  assert (Hst : steady s s').
  { split; [done|]. intros r. apply (current_step s (FsAcquireWeak (Some ref))); try done. apply Hf. }
  cbn [fs_step] in E. destruct (tm_fs_acquire_weak s (Some ref)) as [[[s1 rc] lease]| |] eqn:Ea;
    cbn in E; [|done..]. injection E as ->.
  exists s', rc, lease. split; [done|]. split; [done|]. split; [done|]. intros ->.
  destruct (ref_names s (Some ref) ref i data LEASE s' lease (fi_store _ _ _ Hf) eq_refl Hi Hn Ea)
    as (Hw & Ho & Hs). eexists. by apply (map_sees s' lease i).
Qed.

(** Events that source and deliver nothing. *)
Lemma ex_core_visited clean o s f events submitted rest visited o' s' :
  ex_core clean o s f events submitted rest -> sourced_of visited = [] ->
  (forall b, delivered_of b visited = []) -> same_frame o o' -> ex_stopped o' = ex_stopped o ->
  ex_pending o' = ex_pending o -> ex_pending_bytes o' = ex_pending_bytes o ->
  ex_scratch o' = ex_scratch o -> fan_is (ex_fanout o') s' f -> steady s s' ->
  ex_core clean o' s' f (events ++ visited) submitted rest.
Proof.
  intros Hi Hv1 Hv2 Hf Es Ep Eb Esc Hfan Hst.
  assert (H : ex_core clean o' s' f events submitted rest) by by eapply ex_core_steady.
  destruct H. split; try done.
  - by rewrite sourced_app, Hv1, app_nil_r.
  - intros i l Hl. rewrite delivered_app, Hv2, app_nil_r. by apply xi_lanes0.
Qed.

Lemma process_pending_spec clean o s f events submitted data visits :
  ex_core clean o s f events submitted [data] -> ex_stopped o = false ->
  rf_frame_id (ex_pending o) <> 0 ->
  (forall j, (j < length (ex_processors o))%nat -> seen_of j events = submitted) ->
  exists o' s' ended visited f', process_pending o s visits = Ok (o', s', ended, visited) /\
    same_order o o' /\ ex_inv clean o' s' f' (events ++ visited) submitted [data] /\
    (ended = None -> ex_stopped o' = false /\ rf_frame_id (ex_pending o') <> 0).
Proof.
  intros Hi Hs Hn Hsub. pose proof (xi_pending _ _ _ _ _ _ _ Hi Hs) as [(? & _)|(_ & _ & Hsh & _)]; [done|].
  unfold process_pending.
  destruct (weak_call _ _ _ _ _ (xi_fan _ _ _ _ _ _ _ Hi) Hsh) as (s1 & rc & lease & -> & Hf1 & Hst1 & Hmap).
  cbn [mbind res_bind]. destruct (decide (rc = TM_FS_OK)) as [->|Hrc].
  - rewrite bool_decide_true by done. destruct (Hmap eq_refl) as (view & -> & Hv). cbn [mbind res_bind].
    rewrite bool_decide_true by done. cbn [negb]. rewrite Hv. cbn [mbind res_bind].
    destruct (visit_loop _ _ _ _ _) as [visited result] eqn:El.
    destruct (visit_loop_spec _ _ _ _ _ _ _ El) as (V1 & V2 & V3 & V4 & V5).
    destruct (release_lease_call _ _ _ (Some lease) Hf1) as (s2 & rc2 & -> & Hf2 & Hst2).
    cbn [mbind res_bind]. pose proof (steady_trans _ _ _ Hst1 Hst2) as Hst.
    assert (Hseen : seen_between o (events ++ visited) submitted [data]).
    { intros j Hj. rewrite seen_app, (Hsub j Hj).
      destruct (V4 j) as [-> | ->]; rewrite ?app_nil_r; [by split; [|eexists]|by split; [eexists|]]. }
    destruct (negb (result =? 0)) eqn:Er.
    + assert (H : ex_core clean o s2 f (events ++ visited) submitted [data]) by by eapply ex_core_visited.
      destruct (stop_inv _ _ _ _ _ _ _ H Hseen) as (o' & s' & rc' & f' & -> & Hi' & Hs' & Ho').
      by eexists o', s', _, visited, f'.
    + eexists _, s2, None, visited, f. split; [done|]. split; [done|]. split; [|by split].
      split; [by eapply ex_core_visited|]. intros j Hj. rewrite seen_app, (Hsub j Hj), V5 by (cbn in *; lia).
      split; [by eexists|]. split; [done|]. intros _. cbn [count_processed set_stats ex_pending].
      unfold truth. by replace (_ =? 0) with false by lia.
  - rewrite (bool_decide_false (rc = TM_FS_OK)) by done. cbn [mbind res_bind].
    rewrite bool_decide_false by done. cbn [negb].
    destruct (drop_lease_call _ _ _ lease Hf1) as (s2 & -> & Hf2 & Hst2). cbn [mbind res_bind].
    assert (H : ex_core clean o s2 f events submitted [data]).
    { eapply ex_core_steady; [exact Hi|done..|]. by eapply steady_trans. }
    assert (Hseen : seen_between o events submitted [data]).
    { intros j Hj. rewrite (Hsub j Hj). split; [done|by eexists]. }
    destruct (stop_inv _ _ _ _ _ _ _ H Hseen) as (o' & s' & rc' & f' & -> & Hi' & Hs' & Ho').
    eexists o', s', _, [], f'. by rewrite app_nil_r.
Qed.

(** What a call does, whatever it is. *)
Definition advances (clean : bool) (events : list ex_event)
    (o : tm_ex_owner) (o' : tm_ex_owner) (s' : tm_fs_store) (new : list ex_event) : Prop :=
  exists f' submitted' rest', ex_inv clean o' s' f' (events ++ new) submitted' rest' /\
    fo_incarnation (ex_fanout o') = fo_incarnation (ex_fanout o) /\
    fo_next_order (ex_fanout o) <= fo_next_order (ex_fanout o') <= fo_next_order (ex_fanout o) + 1.

Lemma advances_intro clean events o o' s' f' new submitted' rest' :
  ex_inv clean o' s' f' (events ++ new) submitted' rest' -> same_order o o' ->
  advances clean events o o' s' new.
Proof. intros H [E1 E2]. exists f', submitted', rest'. split; [done|]. split; [done|]. lia. Qed.

Lemma advances_after clean events o o1 o' s' new :
  same_order o o1 -> advances clean events o1 o' s' new -> advances clean events o o' s' new.
Proof.
  intros [E1 E2] (f' & sub' & rest' & H & Ei & En). exists f', sub', rest'. split; [done|].
  split; [congruence|lia].
Qed.

Lemma advances_app clean events new1 o o' s' new2 :
  advances clean (events ++ new1) o o' s' new2 -> advances clean events o o' s' (new1 ++ new2).
Proof. unfold advances. by rewrite app_assoc. Qed.

Lemma pump_submit clean o s f events submitted rest call visits fuel :
  ex_inv clean o s f events submitted rest -> ex_stopped o = false ->
  rf_frame_id (ex_pending o) <> 0 -> fo_next_order (ex_fanout o) < U32_MAX ->
  exists o' s' rc, tm_ex_pump_source (S fuel) o s call visits = Ok (o', s', rc, []) /\
    advances clean events o o' s' [].
Proof.
  intros Hi Hs Hn Ho. cbn [tm_ex_pump_source]. rewrite (xi_callback _ _ _ _ _ _ _ (proj1 Hi)), Hs.
  unfold truth. replace (_ =? 0) with false by lia. cbn [negb].
  destruct (submit_pending_spec _ _ _ _ _ _ _ Hi Hs Hn Ho) as (o' & s' & rc & f' & sub' & rest' & -> & Hi' & Hord).
  cbn [mbind res_bind]. exists o', s', rc. split; [done|]. exists f', sub', rest'. by rewrite app_nil_r.
Qed.

(** From the publication on. *)
Lemma pump_publish clean o s f events submitted rest call visits sourced :
  ex_inv clean o s f events submitted rest -> ex_stopped o = false ->
  rf_frame_id (ex_pending o) = 0 -> 0 < ex_pending_bytes o -> fo_next_order (ex_fanout o) < U32_MAX ->
  exists o' s' rc new,
    ('(o, s, ended) ← publish_pending o s;
     match ended with
     | Some rc => Ok (o, s, rc, sourced)
     | None =>
         '(o, s, ended, visited) ← process_pending o s visits;
         match ended with
         | Some rc => Ok (o, s, rc, sourced ++ visited)
         | None =>
             '(o, s, rc, events) ← tm_ex_pump_source 1 o s call visits;
             Ok (o, s, rc, sourced ++ visited ++ events)
         end
     end) = Ok (o', s', rc, sourced ++ new) /\ advances clean events o o' s' new.
Proof.
  intros Hi Hs Hn Hb Ho.
  destruct (publish_pending_spec _ _ _ _ _ _ _ Hi Hs Hn Hb) as (o1 & s1 & ended & f1 & d & -> & Ho1 & Hc1 & -> & H1).
  cbn [mbind res_bind]. destruct ended as [rc|].
  { exists o1, s1, rc, []. rewrite app_nil_r. split; [done|].
    eapply advances_intro; [|done]. rewrite app_nil_r. by split. }
  destruct H1 as (Hs1 & Hn1 & Hsub).
  destruct (process_pending_spec _ _ _ _ _ _ _ visits Hc1 Hs1 Hn1 Hsub)
    as (o2 & s2 & ended & visited & f2 & -> & Ho2 & Hi2 & H2). cbn [mbind res_bind].
  destruct ended as [rc|].
  { exists o2, s2, rc, visited. split; [done|]. eapply advances_after; [done|]. by eapply advances_intro. }
  destruct (H2 eq_refl) as [Hs2 Hn2]. destruct Ho1 as [E1 E1'], Ho2 as [E2 E2'].
  destruct (pump_submit _ _ _ _ _ _ _ call visits 0 Hi2 Hs2 Hn2 ltac:(lia)) as (o3 & s3 & rc & -> & Ha).
  cbn [mbind res_bind]. exists o3, s3, rc, (visited ++ []). split; [done|].
  apply advances_app. eapply advances_after; [|exact Ha]. split; congruence.
Qed.

Lemma pump_source_spec clean o s f events submitted rest call visits :
  ex_inv clean o s f events submitted rest -> call_ok o call -> fo_next_order (ex_fanout o) < U32_MAX ->
  exists o' s' rc new, tm_ex_pump_source 2 o s call visits = Ok (o', s', rc, new) /\
    advances clean events o o' s' new.
Proof.
  intros Hi Hcall Ho. pose proof (proj1 Hi) as Hc. destruct (ex_stopped o) eqn:Hs.
  { cbn [tm_ex_pump_source]. rewrite (xi_callback _ _ _ _ _ _ _ Hc), Hs.
    exists o, s, TM_EX_EOS, []. split; [done|]. eapply advances_intro; [by rewrite app_nil_r|done]. }
  pose proof (xi_pending _ _ _ _ _ _ _ Hc Hs) as Hp.
  destruct (decide (rf_frame_id (ex_pending o) = 0)) as [Hn|Hn].
  2: { destruct (pump_submit _ _ _ _ _ _ _ call visits 1 Hi Hs Hn Ho) as (o' & s' & rc & E & Ha).
       by exists o', s', rc, []. }
  remember 1%nat as fuel eqn:Ef. cbn [tm_ex_pump_source]. rewrite (xi_callback _ _ _ _ _ _ _ Hc), Hs, Hn.
  unfold truth at 1. cbn [Z.eqb negb]. subst fuel. destruct (ex_pending_bytes o =? 0) eqn:Hb.
  - destruct (ask_source_spec _ _ _ _ _ _ _ _ Hi Hs Hn ltac:(lia) Hcall)
      as (o1 & s1 & ended & sourced & f1 & rest1 & -> & Hi1 & Ho1 & H1). cbn [mbind res_bind].
    destruct ended as [rc|].
    { exists o1, s1, rc, sourced. split; [done|]. by eapply advances_intro. }
    destruct (H1 eq_refl) as (Hs1 & Hn1 & Hb1). destruct Ho1 as [E1 E1'].
    destruct (pump_publish _ _ _ _ _ _ _ call visits sourced Hi1 Hs1 Hn1 Hb1 ltac:(lia))
      as (o' & s' & rc & new & -> & Ha).
    exists o', s', rc, (sourced ++ new). split; [done|]. apply advances_app. by eapply advances_after.
  - assert (Hpos : 0 < ex_pending_bytes o).
    { destruct rest as [|d [|]]; [by destruct Hp; lia| |done]. destruct Hp as [(_ & ? & _)|(? & _)]; lia. }
    cbn [mbind res_bind].
    by destruct (pump_publish _ _ _ _ _ _ _ call visits [] Hi Hs Hn Hpos Ho) as (o' & s' & rc & new & -> & Ha);
      exists o', s', rc, new.
Qed.

(** *** Pumping a sink *)

(** One lane changes; its sink may be shown something. *)
Lemma ex_inv_lane clean clean' o s f events submitted rest i l l' new o' s' f' :
  ex_inv clean o s f events submitted rest -> fan_lanes f !! i = Some l ->
  (clean' = true -> clean = true) -> fan_is (ex_fanout o') s' f' ->
  fan_lanes f' = <[i := l']> (fan_lanes f) ->
  carries s' clean' submitted (delivered_of i events ++ delivered_of i new) l' ->
  (forall j, j <> i -> delivered_of j new = []) -> sourced_of new = [] ->
  (forall j, seen_of j new = []) -> same_frame o o' -> ex_stopped o' = ex_stopped o ->
  ex_pending o' = ex_pending o -> ex_pending_bytes o' = ex_pending_bytes o ->
  ex_scratch o' = ex_scratch o -> steady s s' ->
  ex_inv clean' o' s' f' (events ++ new) submitted rest.
Proof.
  intros [Hi Hseen] Hl Hcl Hf El Hca Hd Hso Hse (E1 & E2 & E3 & E4 & E5) Es Ep Eb Esc Hst. split.
  - destruct Hi. split; try done; try congruence.
    + by rewrite E4, xi_sinks0, El, len_insert.
    + by rewrite sourced_app, Hso, app_nil_r.
    + rewrite Es. intros H. specialize (xi_pending0 H). apply (pending_steady _ _ _ _ Hst) in xi_pending0.
      unfold pending_is in *. by rewrite Ep, Eb, Esc.
    + intros j x. rewrite El, delivered_app. intros [(-> & <- & _)|[Hne Hx]]%list_lookup_insert_Some; [done|].
      rewrite Hd, app_nil_r by done. specialize (xi_lanes0 j x Hx). eapply carries_kept; [apply Hst|].
      destruct clean'; [by rewrite <- (Hcl eq_refl)|by eapply carries_unclean].
  - intros j. rewrite E5, seen_app, Hse, app_nil_r. intros Hj. unfold seen_is. rewrite Es, Ep. by apply Hseen.
Qed.

(** The head of the queue is gone from the lane. *)
Lemma carries_taken s s' clean submitted got l t ref d queue waiting :
  carries s clean submitted got l -> ln_queue l = (t, ref) :: queue -> kept s s' ->
  Forall2 (fun e data => shows s e.2 data) (ln_queue l) (d :: waiting) ->
  sublist (got ++ d :: waiting) submitted ->
  (clean = true -> ln_policy l = TM_FO_ORDERED_LOSSLESS -> got ++ d :: waiting = submitted) ->
  let l' := forget (hold l t ref queue) t queue in
  carries s' false submitted got l' /\ carries s' clean submitted (got ++ [d]) l'.
Proof.
  intros [_ Hidle] Eq Hk Hw Hs Hc l'. rewrite Eq in Hw. inv Hw as [|? ? ? ? Hd Hw'].
  assert (Hw : Forall2 (fun e data => shows s' e.2 data) (ln_queue l') waiting).
  { eapply Forall2_impl; [exact Hw'|]. intros e x. by apply shows_kept. }
  assert (Hi : forall t' x, ln_frames l' !! t' = Some x -> x.1 = Waiting).
  { intros t' x. cbn. intros [Hne H]%lookup_delete_Some. rewrite lookup_insert_ne in H by done. by eapply Hidle. }
  split; (split; [|done]); exists waiting; (split; [done|]).
  - split; [|done]. etrans; [|exact Hs]. apply sublist_app; [done|]. by apply sublist_cons.
  - rewrite <- app_assoc. by split.
Qed.

(** The view and the release of a lease. *)
Lemma view_and_release o s f lease i data :
  fan_is o s f -> of_store s lease -> sees LEASE s (tk_ticket_id lease) i data ->
  exists view s', tm_fs_map_cpu s (Some lease) cpu_view_init = Ok (TM_FS_OK, view) /\
    view_bytes s view = Ok data /\ tm_fs_release_lease s (Some lease) = Ok (s', TM_FS_OK) /\
    fan_is o s' f /\ steady s s'.
Proof.
  intros Hf Ho Hs. destruct (map_sees s lease i data (fi_store _ _ _ Hf) Ho Hs) as [Hm Hv].
  destruct Hs as (j & r & slot & Hj & Ht & Hn & _). rewrite <- Ht in Hn.
  destruct (release_live LEASE s lease j r (fi_store _ _ _ Hf) Ho Hj Ht Hn) as (k & x & _ & _ & E).
  destruct (release_lease_call o s f (Some lease) Hf) as (s' & rc & E' & Hf' & Hst).
  unfold tm_fs_release_lease in *. rewrite E in E'. injection E' as <- <-. by eexists _, _.
Qed.

(** The taken frame is settled. *)
Lemma settle_taken o s f i l t ref queue :
  fan_is o s (put_lane f i (hold l t ref queue)) -> (i < length (fan_lanes f))%nat -> 0 <= tk_slot t ->
  exists o' s' , tm_fo_settle o s (Build_tm_fo_ticket_v1 (Z.of_nat i) t) = Ok (o', s', TM_FO_OK) /\
    fan_is o' s' (put_lane f i (forget (hold l t ref queue) t queue)) /\ steady s s' /\
    fo_incarnation o' = fo_incarnation o /\ fo_next_order o' = fo_next_order o.
Proof.
  intros Hf Hi Ht. destruct (settle_step o s _ (Build_tm_fo_ticket_v1 (Z.of_nat i) t) Hf)
    as (o' & s' & rc & f' & E & Hf' & Hm & Ei & Eo & Hs); [split; cbn; lia|].
  cbn [ft_branch ft_row] in Hs. unfold frame_of in Hs. cbn [put_lane fan_lanes ft_branch ft_row] in Hs.
  rewrite Nat2Z.id, list_lookup_insert_eq in Hs by done. cbn [mbind option_bind hold with_frames ln_frames] in Hs.
  rewrite lookup_insert_eq in Hs. destruct Hs as [-> ->].
  exists o', s'. split; [done|]. split; [|split; [by eapply moved_steady|done]].
  unfold put_lane in Hf' |- *. cbn [fan_lanes fan_sealed] in Hf'. by rewrite list_insert_insert_eq in Hf'.
Qed.

Lemma take_same o branch o' rc t ref :
  tm_fo_take o branch = (o', rc, t, ref) ->
  fo_incarnation o' = fo_incarnation o /\ fo_next_order o' = fo_next_order o.
Proof. unfold tm_fo_take. intros E. repeat case_match; by simplify_eq. Qed.

(** Whether a call lost no frame. *)
Definition keeps (clean : bool) (rc : tm_ex_status) : bool :=
  clean && negb (bool_decide (rc = TM_EX_EFRAME)).

Lemma keeps_other clean rc : rc <> TM_EX_EFRAME -> keeps clean rc = clean.
Proof. intros H. unfold keeps. rewrite bool_decide_false by done. by rewrite andb_true_r. Qed.

Lemma keeps_lost clean : keeps clean TM_EX_EFRAME = false.
Proof. unfold keeps. rewrite bool_decide_true by done. apply andb_false_r. Qed.

(** A taken frame leaves its lane, for its sink or for nothing. *)
Lemma taken_result clean clean' o s f events submitted rest i l t ref queue d w o' s' new fo2 :
  ex_inv clean o s f events submitted rest -> fan_lanes f !! i = Some l -> ln_queue l = (t, ref) :: queue ->
  Forall2 (fun e data => shows s e.2 data) (ln_queue l) (d :: w) ->
  (new = [] /\ clean' = false \/
   (exists r, new = [ExDelivered (Z.of_nat i) r d]) /\ clean' = clean) ->
  sublist (delivered_of i events ++ d :: w) submitted ->
  (clean = true -> ln_policy l = TM_FO_ORDERED_LOSSLESS -> delivered_of i events ++ d :: w = submitted) ->
  fan_is fo2 s' (put_lane f i (forget (hold l t ref queue) t queue)) -> steady s s' ->
  ex_fanout o' = fo2 -> same_frame o o' -> ex_stopped o' = ex_stopped o ->
  ex_pending o' = ex_pending o -> ex_pending_bytes o' = ex_pending_bytes o ->
  ex_scratch o' = ex_scratch o ->
  ex_inv clean' o' s' (put_lane f i (forget (hold l t ref queue) t queue)) (events ++ new) submitted rest.
Proof.
  intros Hi Hl Eq Hw Hor Hsub Hcl Hf Hst Ef. intros.
  pose proof (xi_lanes _ _ _ _ _ _ _ (proj1 Hi) _ _ Hl) as Hca.
  destruct (carries_taken s s' clean submitted _ l t ref d queue w Hca Eq (proj1 Hst) Hw Hsub Hcl) as [Hc1 Hc2].
  destruct Hor as [[-> ->]|[[r ->] ->]].
  - eapply (ex_inv_lane clean false); try done; [by rewrite Ef|]. cbn. by rewrite app_nil_r.
  - eapply (ex_inv_lane clean clean); try done; [by rewrite Ef| |].
    + cbn. by rewrite Nat2Z.id, decide_True.
    + intros j Hj. cbn. by rewrite Nat2Z.id, decide_False.
Qed.

(** From the moment the frame is taken. *)
Lemma deliver_taken clean o s f events submitted rest branch l t ref queue fo1 provider_rc :
  ex_inv clean o s f events submitted rest -> 0 <= branch ->
  fan_lanes f !! Z.to_nat branch = Some l -> ln_queue l = (t, ref) :: queue -> 0 <= tk_slot t ->
  fan_is fo1 s (put_lane f (Z.to_nat branch) (hold l t ref queue)) ->
  fo_incarnation fo1 = fo_incarnation (ex_fanout o) -> fo_next_order fo1 = fo_next_order (ex_fanout o) ->
  let o1 := set_fanout o fo1 in
  exists o' s' rc new f',
    ('(s, st, lease) ← tm_fo_acquire_lease (ex_fanout o1) s (Build_tm_fo_ticket_v1 branch t);
     '(rc, view) ← if bool_decide (st = TM_FO_OK) then tm_fs_map_cpu s (Some lease) cpu_view_init
                   else Ok (TM_FS_EINVAL, cpu_view_init);
     if negb (bool_decide (rc = TM_FS_OK)) then
       s ← drop_lease s lease;
       '(fanout, s, _) ← tm_fo_settle (ex_fanout o1) s (Build_tm_fo_ticket_v1 branch t);
       '(o, s, _) ← tm_ex_stop (set_fanout o1 fanout) s;
       Ok (o, s, TM_EX_EFRAME, [])
     else
       data ← view_bytes s view;
       let events := [ExDelivered branch ref data] in
       '(s, released) ← tm_fs_release_lease s (Some lease);
       '(fanout, s, settled) ← if bool_decide (released = TM_FS_OK)
                               then tm_fo_settle (ex_fanout o1) s (Build_tm_fo_ticket_v1 branch t)
                               else Ok (ex_fanout o1, s, TM_FO_EINVAL);
       let o := set_fanout o1 fanout in
       if negb (bool_decide (settled = TM_FO_OK)) then
         '(o, s, _) ← tm_ex_stop o s; Ok (o, s, TM_EX_EFRAME, events)
       else if negb (provider_rc =? 0) then
         '(o, s, _) ← tm_ex_stop o s; Ok (o, s, TM_EX_EPROVIDER, events)
       else Ok (count_delivered o, s, TM_EX_OK, events)) = Ok (o', s', rc, new) /\
    ex_inv (keeps clean rc) o' s' f' (events ++ new) submitted rest /\ same_order o o'.
Proof.
  intros Hi Hb Hl Eq Ht Hf1 Ei Eo o1. pose proof (proj1 Hi) as Hc.
  destruct (xi_lanes _ _ _ _ _ _ _ Hc _ _ Hl) as [(w & Hw & Hsub & Hcl) _].
  pose proof Hw as Hw0. rewrite Eq in Hw. inv Hw as [|? d ? w' (i & Hslot & Hnames) Hw'].
  cbn [snd] in Hslot, Hnames. assert (Hlt := lookup_lt_Some _ _ _ Hl).
  assert (Eb : branch = Z.of_nat (Z.to_nat branch)) by lia. rewrite Eb. set (b := Z.to_nat branch) in *. clearbody b.
  pose proof (fun clean' o' s' new fo2 => taken_result clean clean' o s f events submitted rest b l t ref
    queue d w' o' s' new fo2 Hi Hl Eq Hw0) as Hres.
  destruct (lease_taken fo1 s _ (Build_tm_fo_ticket_v1 (Z.of_nat b) t) ref i d Hf1)
    as (s1 & rc & lease & Ea & Hf2 & Hst1 & Hrc); [split; cbn; lia| |done|done|].
  { unfold frame_of. cbn [ft_branch ft_row put_lane fan_lanes]. rewrite Nat2Z.id, list_lookup_insert_eq by done.
    cbn. apply lookup_insert_eq. }
  cbn [o1 set_fanout ex_fanout]. rewrite Ea. cbn [mbind res_bind].
  destruct (decide (rc = TM_FO_OK)) as [->|Hne].
  - destruct Hrc as [(_ & Ho & Hs)|[[? _]|[? _]]]; [|done..]. rewrite bool_decide_true by done.
    destruct (view_and_release fo1 s1 _ lease i d Hf2 Ho Hs) as (view & s2 & -> & Hv & Hr & Hf3 & Hst2).
    cbn [mbind res_bind]. rewrite bool_decide_true by done. cbn [negb]. rewrite Hv. cbn [mbind res_bind].
    rewrite Hr. cbn [mbind res_bind]. rewrite bool_decide_true by done.
    destruct (settle_taken _ _ _ _ _ _ _ _ Hf3 Hlt Ht) as (fo2 & s3 & -> & Hf4 & Hst3 & Ei2 & Eo2).
    cbn [mbind res_bind]. rewrite bool_decide_true by done. cbn [negb].
    pose proof (steady_trans _ _ _ Hst1 (steady_trans _ _ _ Hst2 Hst3)) as Hst.
    assert (Hnew : forall r, [ExDelivered (Z.of_nat b) r d] = [] /\ clean = false \/
      (exists r', [ExDelivered (Z.of_nat b) r d] = [ExDelivered (Z.of_nat b) r' d]) /\ clean = clean)
      by (intros r; right; split; [by eexists|done]).
    destruct (negb (provider_rc =? 0)).
    + destruct (Hres clean (set_fanout o fo2) s3 _ fo2 (Hnew ref) Hsub Hcl Hf4 Hst) as [H1 H2]; [done..|].
      destruct (stop_inv _ _ _ _ _ _ _ H1 (all_seen_between _ _ _ _ H2)) as (o' & s' & rc' & f' & E & Hi' & _ & [E1 E2]).
      change (set_fanout o1 fo2) with (set_fanout o fo2). rewrite E. cbn [mbind res_bind].
      eexists o', s', _, _, f'. split; [done|]. rewrite keeps_other by done. split; [done|].
      cbn in E1, E2. split; congruence.
    + eexists _, s3, _, _, _. split; [done|]. rewrite keeps_other by done.
      split; [by apply (Hres clean _ s3 _ fo2 (Hnew ref))|]. split; cbn; congruence.
  - rewrite bool_decide_false by done. cbn [mbind res_bind]. rewrite bool_decide_false by done. cbn [negb].
    destruct (drop_lease_call _ _ _ lease Hf2) as (s2 & -> & Hf3 & Hst2). cbn [mbind res_bind].
    destruct (settle_taken _ _ _ _ _ _ _ _ Hf3 Hlt Ht) as (fo2 & s3 & -> & Hf4 & Hst3 & Ei2 & Eo2).
    cbn [mbind res_bind]. pose proof (steady_trans _ _ _ Hst1 (steady_trans _ _ _ Hst2 Hst3)) as Hst.
    destruct (Hres false (set_fanout o fo2) s3 [] fo2) as [H1 H2]; try done; [by left|].
    destruct (stop_inv _ _ _ _ _ _ _ H1 (all_seen_between _ _ _ _ H2)) as (o' & s' & rc' & f' & E & Hi' & _ & [E1 E2]).
    change (set_fanout o1 fo2) with (set_fanout o fo2). rewrite E. cbn [mbind res_bind].
    eexists o', s', _, _, f'. split; [done|]. rewrite keeps_lost. split; [done|].
    cbn in E1, E2. split; congruence.
Qed.

Lemma pump_sink_spec clean o s f events submitted rest branch provider_rc :
  ex_inv clean o s f events submitted rest -> 0 <= branch ->
  exists o' s' rc new, tm_ex_pump_sink o s branch provider_rc = Ok (o', s', rc, new) /\
    advances (keeps clean rc) events o o' s' new.
Proof.
  intros Hi Hb. pose proof (proj1 Hi) as Hc. unfold tm_ex_pump_sink.
  rewrite (xi_callback _ _ _ _ _ _ _ Hc). cbn [orb].
  assert (Hsame : forall rc, rc <> TM_EX_EFRAME -> advances (keeps clean rc) events o o s []).
  { intros rc Hrc. eapply advances_intro; [|done]. rewrite keeps_other, app_nil_r by done. exact Hi. }
  destruct (len (ex_sinks o) <=? branch) eqn:El.
  { exists o, s, TM_EX_EINVAL, []. split; [done|by apply Hsame]. }
  destruct (tm_fo_take (ex_fanout o) branch) as [[[fo1 st] t] ref] eqn:Et.
  destruct (take_same _ _ _ _ _ _ Et) as [Ei Eo].
  pose proof (lane_take_step _ s f branch fo1 st t ref (xi_fan _ _ _ _ _ _ _ Hc) Hb Et) as Htake.
  rewrite (xi_sinks _ _ _ _ _ _ _ Hc) in El. unfold len in El.
  destruct (lookup_lt_is_Some_2 (fan_lanes f) (Z.to_nat branch)) as [l Hl]; [lia|].
  rewrite Hl in Htake. destruct (ln_queue l) as [|[t0 ref0] queue] eqn:Eq.
  - destruct Htake as [-> ->]. rewrite bool_decide_true by done.
    exists (set_fanout o (ex_fanout o)), s, TM_EX_EBUSY, []. split; [done|]. by destruct o; apply Hsame.
  - destruct Htake as (-> & -> & -> & Hslot & Hf1 & _). rewrite bool_decide_false by done.
    rewrite bool_decide_true by done. cbn [negb].
    destruct (deliver_taken clean o s f events submitted rest branch l t0 ref0 queue fo1 provider_rc Hi Hb Hl Eq
      Hslot Hf1 Ei Eo) as (o' & s' & rc & new & f' & E & Hi' & Ho').
    exists o', s', rc, new. split; [exact E|]. by eapply advances_intro.
Qed.

(** *** The other calls *)

Lemma stop_call clean o s f events submitted rest :
  ex_inv clean o s f events submitted rest ->
  exists o' s' rc, tm_ex_stop o s = Ok (o', s', rc) /\ advances clean events o o' s' [].
Proof.
  intros [Hc Ha]. destruct (stop_inv _ _ _ _ _ _ _ Hc (all_seen_between _ _ _ _ Ha))
    as (o' & s' & rc & f' & E & Hi' & _ & Ho'). exists o', s', rc. split; [done|].
  eapply advances_intro; [|done]. by rewrite app_nil_r.
Qed.

Lemma discard_call clean o s f events submitted rest branch :
  ex_inv clean o s f events submitted rest -> 0 <= branch ->
  exists o' s' rc, tm_ex_discard_ready o s branch = Ok (o', s', rc) /\
    advances (clean && negb (bool_decide (rc = TM_EX_OK))) events o o' s' [].
Proof.
  intros Hi Hb. pose proof (proj1 Hi) as Hc. unfold tm_ex_discard_ready.
  rewrite (xi_callback _ _ _ _ _ _ _ Hc). cbn [orb].
  assert (Hsame : forall rc, rc <> TM_EX_OK ->
    advances (clean && negb (bool_decide (rc = TM_EX_OK))) events o o s []).
  { intros rc Hrc. eapply advances_intro; [|done]. rewrite bool_decide_false, andb_true_r, app_nil_r by done.
    exact Hi. }
  destruct (len (ex_sinks o) <=? branch) eqn:El.
  { exists o, s, TM_EX_EINVAL. split; [done|by apply Hsame]. }
  destruct (ex_stopped o); cbn [negb]; [|exists o, s, TM_EX_ESTATE; split; [done|by apply Hsame]].
  destruct (discard_step _ s f branch (xi_fan _ _ _ _ _ _ _ Hc) Hb)
    as (fo1 & s1 & rc & f1 & -> & Hf1 & Hm & Ei & Eo & Hd). cbn [mbind res_bind].
  rewrite (xi_sinks _ _ _ _ _ _ _ Hc) in El. unfold len in El.
  destruct (lookup_lt_is_Some_2 (fan_lanes f) (Z.to_nat branch)) as [l Hl]; [lia|].
  rewrite Hl in Hd. destruct Hd as [-> ->]. cbn [fo_code].
  eexists _, s1, TM_EX_OK. split; [done|]. rewrite bool_decide_true, andb_false_r by done.
  eapply (advances_intro _ _ _ _ _ _ _ submitted rest); [|by split].
  apply moved_steady in Hm.
  eapply (ex_inv_lane clean false o s f events submitted rest (Z.to_nat branch) l (discard l)); try done.
  destruct (xi_lanes _ _ _ _ _ _ _ Hc _ _ Hl) as [(w & _ & Hsub & _) Hidle]. rewrite app_nil_r.
  split.
  - exists []. split; [constructor|]. split; [|done]. etrans; [|exact Hsub]. apply sublist_app; [done|].
    apply sublist_nil_l.
  - intros t x. cbn. intros [H _]%map_lookup_filter_Some. by eapply Hidle.
Qed.

(** What others may do with the store: not release our pins, nor retire the frame
    that waits to be submitted. *)
Definition store_op_ok (o : tm_ex_owner) (op : fs_op) : Prop :=
  fs_op_ok op /\
  (forall token, token ∈ pin_ids (owned (fo_branches (ex_fanout o))) -> ~ releases op PIN token) /\
  (rf_frame_id (ex_pending o) <> 0 ->
   forall r, op = FsRetire (Some r) -> rf_slot r <> rf_slot (ex_pending o)).

Lemma other_call clean o s f events submitted rest op :
  ex_inv clean o s f events submitted rest -> store_op_ok o op ->
  exists s', fs_step s op = Ok s' /\ advances clean events o o s' [].
Proof.
  intros [Hc Ha] (Hop & Hrel & Hret). pose proof (xi_fan _ _ _ _ _ _ _ Hc) as Hf.
  destruct (store_step _ s f op Hf Hop Hrel) as (s' & E & Hf' & Hk). exists s'. split; [done|].
  eapply (advances_intro _ _ _ _ _ f _ submitted rest); [|done]. rewrite app_nil_r. split; [|done].
  destruct Hc. split; try done.
  - intros Hs. specialize (xi_pending0 Hs). destruct rest as [|d [|]]; cbn in *; try done.
    destruct xi_pending0 as [H|(H1 & H2 & H3 & H4)]; [by left|right].
    split; [done|]. split; [done|]. split; [by eapply shows_kept|].
    apply (current_step s op s' _ (fi_store _ _ _ Hf)); [done| |done|done]. apply Hret. lia.
  - intros i l Hl. eapply carries_kept; [done|]. by apply xi_lanes0.
Qed.

(* ------------------------------------------------------------------ *)
(** ** The system *)

Inductive ex_op : Type :=
  | ExPumpSource (call : source_call) (visits : nat -> Z)
  | ExPumpSink (branch provider_rc : Z)
  | ExStop
  | ExDiscardReady (branch : Z)
  | ExStore (op : fs_op).

(** The fuel of the source pump: it calls itself once. *)
Definition ex_step (o : tm_ex_owner) (s : tm_fs_store) (op : ex_op)
    : res (tm_ex_owner * tm_fs_store * tm_ex_status * list ex_event) :=
  match op with
  | ExPumpSource call visits => tm_ex_pump_source 2 o s call visits
  | ExPumpSink branch provider_rc => tm_ex_pump_sink o s branch provider_rc
  | ExStop => '(o, s, rc) ← tm_ex_stop o s; Ok (o, s, rc, [])
  | ExDiscardReady branch => '(o, s, rc) ← tm_ex_discard_ready o s branch; Ok (o, s, rc, [])
  | ExStore op => s ← fs_step s op; Ok (o, s, TM_EX_OK, [])
  end.

Fixpoint ex_run (o : tm_ex_owner) (s : tm_fs_store) (ops : list ex_op)
    : res (tm_ex_owner * tm_fs_store * list tm_ex_status * list ex_event) :=
  match ops with
  | [] => Ok (o, s, [], [])
  | op :: ops =>
      '(o, s, rc, events) ← ex_step o s op;
      '(o, s, rcs, later) ← ex_run o s ops;
      Ok (o, s, rc :: rcs, events ++ later)
  end.

Definition ex_op_ok (o : tm_ex_owner) (op : ex_op) : Prop :=
  match op with
  | ExPumpSource call _ => call_ok o call
  | ExPumpSink branch _ | ExDiscardReady branch => 0 <= branch
  | ExStop => True
  | ExStore op => store_op_ok o op
  end.

Fixpoint ex_run_ok (o : tm_ex_owner) (s : tm_fs_store) (ops : list ex_op) : Prop :=
  match ops with
  | [] => True
  | op :: ops =>
      ex_op_ok o op /\ match ex_step o s op with Ok (o, s, _, _) => ex_run_ok o s ops | _ => True end
  end.

(** No frame was lost: no sink failed to get its frame, and none was discarded. *)
Definition op_clean (clean : bool) (op : ex_op) (rc : tm_ex_status) : bool :=
  match op with
  | ExPumpSink _ _ => keeps clean rc
  | ExDiscardReady _ => clean && negb (bool_decide (rc = TM_EX_OK))
  | _ => clean
  end.

Fixpoint run_clean (clean : bool) (ops : list ex_op) (rcs : list tm_ex_status) : bool :=
  match ops, rcs with
  | op :: ops, rc :: rcs => run_clean (op_clean clean op rc) ops rcs
  | _, _ => clean
  end.

Lemma ex_step_spec clean o s f events submitted rest op :
  ex_inv clean o s f events submitted rest -> ex_op_ok o op -> fo_next_order (ex_fanout o) < U32_MAX ->
  exists o' s' rc new, ex_step o s op = Ok (o', s', rc, new) /\
    advances (op_clean clean op rc) events o o' s' new.
Proof.
  intros Hi Hop Hn. destruct op as [call visits|branch prc| |branch|op]; cbn [ex_step op_clean].
  - by eapply pump_source_spec.
  - by eapply pump_sink_spec.
  - destruct (stop_call _ _ _ _ _ _ _ Hi) as (o' & s' & rc & -> & H). by exists o', s', rc, [].
  - destruct (discard_call _ _ _ _ _ _ _ branch Hi Hop) as (o' & s' & rc & -> & H). by exists o', s', rc, [].
  - destruct (other_call _ _ _ _ _ _ _ op Hi Hop) as (s' & -> & H). by exists o, s', TM_EX_OK, [].
Qed.

Lemma ex_run_spec ops clean o s f events submitted rest :
  ex_inv clean o s f events submitted rest -> ex_run_ok o s ops ->
  fo_next_order (ex_fanout o) + len ops <= U32_MAX ->
  exists o' s' rcs new f' submitted' rest', ex_run o s ops = Ok (o', s', rcs, new) /\
    ex_inv (run_clean clean ops rcs) o' s' f' (events ++ new) submitted' rest'.
Proof.
  revert clean o s f events submitted rest.
  induction ops as [|op ops IH]; intros clean o s f events submitted rest Hi Hok Hn.
  { exists o, s, [], [], f, submitted, rest. by rewrite app_nil_r. }
  destruct Hok as [Hop Hok]. rewrite len_cons in Hn. pose proof (len_nonneg ops).
  destruct (ex_step_spec _ _ _ _ _ _ _ op Hi Hop ltac:(lia))
    as (o1 & s1 & rc & new & E & f1 & sub1 & rest1 & Hi1 & _ & Hord).
  rewrite E in Hok. cbn [ex_run]. rewrite E. cbn [mbind res_bind].
  destruct (IH _ o1 s1 f1 _ sub1 rest1 Hi1 Hok ltac:(lia)) as (o2 & s2 & rcs & new2 & f2 & sub2 & rest2 & -> & Hi2).
  cbn [mbind res_bind]. exists o2, s2, (rc :: rcs), (new ++ new2), f2, sub2, rest2. split; [done|].
  by rewrite app_assoc.
Qed.

(* ------------------------------------------------------------------ *)
(** ** Creation and destruction *)

Definition ex_config_ok (cfg : tm_ex_config_v1) (mem : ex_mem) : Prop :=
  fo_config_ok (xc_fanout cfg) /\
  forall scratch, xm_scratch mem = Some scratch -> len scratch = xc_max_frame_bytes cfg.

Lemma fo_create_len counter cfg mem next o :
  tm_fo_create counter (Some cfg) mem = Ok (next, TM_FO_OK, Some o) -> 0 <= oc_branch_count cfg ->
  len (fo_branches o) = oc_branch_count cfg.
Proof.
  unfold tm_fo_create. intros E Hn.
  destruct (negb (oc_version cfg =? _)); [done|]. destruct (_ || _ || _ || _); [done|].
  destruct (rd_slice _ _ _) as [branches| |] eqn:Es; cbn [mbind res_bind] in E; [|done..].
  apply rd_slice_Ok in Es as (_ & _ & _ & Hlen & _). case_bool_decide as Ec; cbn [negb] in E.
  2: { injection E as _ Ec' _. done. }
  destruct (_ || _); [done|]. destruct (negb mem.1); [done|]. destruct (negb (forallb _ _)); [done|].
  injection E as _ <-. cbn. unfold len in *. by rewrite length_fmap.
Qed.

Lemma fo_create_Some counter cfg mem next rc o :
  tm_fo_create counter cfg mem = Ok (next, rc, Some o) -> rc = TM_FO_OK.
Proof.
  unfold tm_fo_create. destruct cfg as [cfg|]; [|done].
  destruct (negb (oc_version cfg =? _)); [done|]. destruct (_ || _ || _ || _); [done|].
  destruct (rd_slice _ _ _); cbn [mbind res_bind]; [|done..]. destruct (negb (bool_decide _)); [done|].
  destruct (_ || _); [done|]. destruct (negb mem.1); [done|]. destruct (negb (forallb _ _)); [done|].
  by intros [= _ <- _].
Qed.

Lemma ex_create_inv counter p cfg bindings mem next o s :
  tm_ex_create counter p cfg bindings mem = Ok (next, TM_EX_OK, Some o) -> ex_config_ok cfg mem -> fs_wf s ->
  ex_inv true o s (new_fan (xc_fanout cfg)) [] [] [] /\ fo_next_order (ex_fanout o) = 1.
Proof.
  unfold tm_ex_create. intros E [Hcfg Hmem] Hw. destruct (_ || _ || _ || _ || _); [done|].
  destruct (negb (xc_version cfg =? _)); [done|]. destruct (negb (xc_size cfg =? _)); [done|].
  destruct (graph_shape p) as [[a|]| |]; cbn [mbind res_bind] in E; [|done..].
  destruct (negb (oc_branch_count _ =? _) || _) eqn:Ec; [done|].
  destruct (check_bindings _ _ _) as [[]| |]; cbn [mbind res_bind negb] in E; [|done..].
  destruct (xm_owner mem); cbn [negb] in E; [|done].
  destruct (xm_scratch mem) as [scratch|]; [|done]. specialize (Hmem _ eq_refl).
  destruct (bind_nodes _ _ _ _ _) as [[source processors]| |]; cbn [mbind res_bind] in E; [|done..].
  destruct (bind_sinks _ _ _ _ _) as [sinks| |]; cbn [mbind res_bind] in E; [|done..].
  destruct (negb (len sinks =? sh_sinks a)) eqn:Es; [done|].
  destruct (tm_fo_create _ _ _) as [[[next' rc] [fo|]]| |] eqn:Ef; cbn [mbind res_bind] in E; [|done..].
  injection E as <- <-. pose proof (fo_create_Some _ _ _ _ _ _ Ef) as ->.
  destruct (fo_create_is _ _ _ _ _ s Ef Hcfg Hw) as (Hf & _ & Ho).
  pose proof (fo_create_len _ _ _ _ _ Ef (proj1 Hcfg)) as Hlen. split; [|exact Ho].
  split; [split; cbn [ex_fanout ex_in_callback ex_scratch ex_scratch_capacity ex_sinks ex_stopped]; try done|].
  - pose proof (Forall2_length _ _ _ (fi_lanes _ _ _ Hf)) as El. unfold len in *. lia.
  - cbn. lia.
  - intros i l Hl. cbn in Hl. apply list_lookup_fmap_Some in Hl as (c & -> & _).
    split; [|by intros t x; cbn; rewrite lookup_empty]. exists []. by split_and!.
  - intros j _. split; [done|]. by split.
Qed.

(** Nothing waits exactly when nothing is left. *)
Lemma idle_empty inc next b l :
  branch_is inc next b l -> (forall t x, ln_frames l !! t = Some x -> x.1 = Waiting) ->
  ln_frames l = ∅ <-> ln_queue l = [].
Proof.
  intros Hb Hidle. pose proof (bi_queue _ _ _ _ Hb) as Hq. split; intros E.
  - destruct Hq as (os & Hq & _). destruct (ln_queue l) as [|e queue]; [done|].
    inv Hq as [|? o ? ? He _]. destruct He as (i & r & Hr & Ho & _).
    assert (Hx : is_Some (live_of r)) by (apply live_of_busy, Hr). destruct Hx as [x Hx].
    assert (H : ln_frames l !! e.1 = Some x) by (apply (bi_frames _ _ _ _ Hb); by exists i, r).
    by rewrite E, lookup_empty in H.
  - rewrite E in Hq. apply (tracks_empty live_of live_of_busy _ _ _ (bi_rows _ _ _ _ Hb) (bi_frames _ _ _ _ Hb)).
    destruct (existsb row_busy (fb_rows b)) eqn:Eb; [|done]. exfalso.
    apply existsb_exists in Eb as (r & Hr & Hbusy). apply list_elem_of_In, list_elem_of_lookup in Hr as (i & Hi).
    destruct (proj1 (live_of_busy r) Hbusy) as [x Hx].
    destruct (Forall_lookup_1 _ _ _ _ (bi_rows _ _ _ _ Hb) Hi) as [_ Hg]. specialize (Hg Hbusy).
    assert (H : ln_frames l !! ticket_of inc i r = Some x).
    { apply (bi_frames _ _ _ _ Hb). exists i, r. split; [|done]. split; [done|]. split; [done|].
      split; [done|lia]. }
    apply Hidle in H. destruct (live_of_cases _ _ Hx) as [[Es _]|[_ ->]]; [|done].
    destruct Hq as (os & _ & _ & _ & Hall). specialize (Hall i r Hi (proj2 (fo_ready r) Es)). by inv Hall.
Qed.

Lemma ex_created_run counter p cfg bindings mem next o s ops :
  tm_ex_create counter p cfg bindings mem = Ok (next, TM_EX_OK, Some o) -> ex_config_ok cfg mem ->
  fs_reachable s -> ex_run_ok o s ops -> len ops < U32_MAX ->
  exists o' s' rcs events f submitted rest, ex_run o s ops = Ok (o', s', rcs, events) /\
    ex_inv (run_clean true ops rcs) o' s' f events submitted rest.
Proof.
  intros Hc Hcfg Hs Hok Hlen.
  destruct (ex_create_inv _ _ _ _ _ _ _ s Hc Hcfg (fs_reachable_wf _ Hs)) as [Hi Ho].
  by destruct (ex_run_spec ops true o s _ [] [] [] Hi Hok ltac:(lia))
    as (o' & s' & rcs & events & f & submitted & rest & E & Hi'); exists o', s', rcs, events, f, submitted, rest.
Qed.

(** Whether a branch has nothing left. *)
Definition drained (o : tm_ex_owner) (i : nat) : Prop :=
  (tm_fo_take (ex_fanout o) (Z.of_nat i)).1.1.2 = TM_FO_EBUSY.

Lemma drained_spec o s f i l :
  fan_is (ex_fanout o) s f -> fan_lanes f !! i = Some l -> drained o i <-> ln_queue l = [].
Proof.
  intros Hf Hl. unfold drained. destruct (tm_fo_take _ _) as [[[fo1 st] t] ref] eqn:E.
  pose proof (lane_take_step _ s f (Z.of_nat i) fo1 st t ref Hf ltac:(lia) E) as H. rewrite Nat2Z.id, Hl in H. cbn.
  destruct (ln_queue l) as [|[t0 ref0] queue]; [by destruct H as [-> _]|]. by destruct H as [-> _].
Qed.

Lemma lane_at clean o s f events submitted rest i :
  ex_core clean o s f events submitted rest -> (i < length (ex_sinks o))%nat ->
  exists l, fan_lanes f !! i = Some l.
Proof.
  intros Hc Hi. apply lookup_lt_is_Some_2. pose proof (xi_sinks _ _ _ _ _ _ _ Hc). unfold len in *. lia.
Qed.

Lemma ex_inv_in_order clean o s f events submitted rest i j :
  ex_inv clean o s f events submitted rest ->
  (i < length (ex_sinks o))%nat -> (j < length (ex_processors o))%nat ->
  sublist (delivered_of i events) (seen_of j events) /\ prefix (seen_of j events) (sourced_of events).
Proof.
  intros [Hi Hseen] Hsi Hpj.
  destruct (Hseen j Hpj) as (H1 & H2 & _). rewrite (xi_sourced _ _ _ _ _ _ _ Hi). split; [|done].
  destruct (lane_at _ _ _ _ _ _ _ _ Hi Hsi) as [l Hl].
  destruct (xi_lanes _ _ _ _ _ _ _ Hi _ _ Hl) as [(w & _ & Hsub & _) _].
  destruct H1 as [k ->]. apply sublist_inserts_r. etrans; [|exact Hsub]. by apply sublist_inserts_r.
Qed.

(* ------------------------------------------------------------------ *)
(** ** Properties *)

(** C19: Frames go through the executor in order, at most once and unchanged.
    Whatever the callbacks return, however full the store and the branches are,
    whoever else uses the store, and wherever the executor stops: every call
    completes; what each processor saw is an initial part of the frames that the
    source produced, so the source is never asked again before its frame was
    published; and what each sink was shown are frames that every processor saw
    before, in that order, none twice and with the same bytes. *)
Theorem executor_in_order counter p cfg bindings mem next o s ops :
  tm_ex_create counter p cfg bindings mem = Ok (next, TM_EX_OK, Some o) -> ex_config_ok cfg mem ->
  fs_reachable s -> ex_run_ok o s ops -> len ops < U32_MAX ->
  exists o' s' rcs events, ex_run o s ops = Ok (o', s', rcs, events) /\
    forall i j, (i < length (ex_sinks o'))%nat -> (j < length (ex_processors o'))%nat ->
      sublist (delivered_of i events) (seen_of j events) /\
      prefix (seen_of j events) (sourced_of events).
Proof.
  intros Hc Hcfg Hs Hok Hlen.
  destruct (ex_created_run _ _ _ _ _ _ _ _ _ Hc Hcfg Hs Hok Hlen)
    as (o' & s' & rcs & events & f & submitted & rest & E & Hi).
  exists o', s', rcs, events. split; [done|]. intros i j Hsi Hpj. by eapply ex_inv_in_order.
Qed.

(** C20: A lossless branch loses nothing as long as nothing is discarded and every
    delivery has its lease.  In a run in which no sink pump ended in
    [TM_EX_EFRAME] and no [tm_ex_discard_ready] succeeded ([run_clean]), the
    frames that the source produced are those that the sink of such a branch was
    shown, followed by those that wait for it and at most one that is not yet
    submitted; when the branch is drained nothing waits.  After a failed delivery
    or a discard nothing is claimed, since a frame may be lost. *)
Theorem executor_lossless counter p cfg bindings mem next o s ops :
  tm_ex_create counter p cfg bindings mem = Ok (next, TM_EX_OK, Some o) -> ex_config_ok cfg mem ->
  fs_reachable s -> ex_run_ok o s ops -> len ops < U32_MAX ->
  exists o' s' rcs events, ex_run o s ops = Ok (o', s', rcs, events) /\
    forall i b, fo_branches (ex_fanout o') !! i = Some b -> fb_policy b = TM_FO_ORDERED_LOSSLESS ->
      run_clean true ops rcs = true ->
      exists waiting rest, sourced_of events = delivered_of i events ++ waiting ++ rest /\
        (length rest <= 1)%nat /\ (drained o' i <-> waiting = []).
Proof.
  intros Hc Hcfg Hs Hok Hlen.
  destruct (ex_created_run _ _ _ _ _ _ _ _ _ Hc Hcfg Hs Hok Hlen)
    as (o' & s' & rcs & events & f & submitted & rest & E & Hi & _).
  exists o', s', rcs, events. split; [done|]. intros i b Hb Hp Hclean.
  pose proof (xi_fan _ _ _ _ _ _ _ Hi) as Hf.
  destruct (Forall2_lookup_l _ _ _ _ _ (fi_lanes _ _ _ Hf) Hb) as (l & Hl & Hbl).
  destruct (xi_lanes _ _ _ _ _ _ _ Hi _ _ Hl) as [(w & Hw & _ & Hall) _].
  destruct (bi_config _ _ _ _ Hbl) as (Epol & _ & _). rewrite Hp in Epol.
  exists w, rest. rewrite (xi_sourced _ _ _ _ _ _ _ Hi), <- (Hall Hclean Epol), <- app_assoc.
  split; [done|]. split; [apply Hi|]. rewrite (drained_spec _ _ _ _ _ Hf Hl). split.
  - intros Eq. rewrite Eq in Hw. by inv Hw.
  - intros ->. by inv Hw.
Qed.

(** C21: The executor can be destroyed exactly when it has stopped, its fan-out is
    sealed and every branch is drained, so no frame is held between two calls
    and no pin or row is leaked. *)
Theorem executor_destroyable counter p cfg bindings mem next o s ops :
  tm_ex_create counter p cfg bindings mem = Ok (next, TM_EX_OK, Some o) -> ex_config_ok cfg mem ->
  fs_reachable s -> ex_run_ok o s ops -> len ops < U32_MAX ->
  exists o' s' rcs events, ex_run o s ops = Ok (o', s', rcs, events) /\
    (tm_ex_destroy o' = TM_EX_OK <->
     ex_stopped o' = true /\ fo_sealed (ex_fanout o') = true /\
     forall i, (i < length (ex_sinks o'))%nat -> drained o' i).
Proof.
  intros Hc Hcfg Hs Hok Hlen.
  destruct (ex_created_run _ _ _ _ _ _ _ _ _ Hc Hcfg Hs Hok Hlen)
    as (o' & s' & rcs & events & f & submitted & rest & E & Hi & _).
  exists o', s', rcs, events. split; [done|]. pose proof (xi_fan _ _ _ _ _ _ _ Hi) as Hf.
  unfold tm_ex_destroy. rewrite (xi_callback _ _ _ _ _ _ _ Hi), <- (fi_sealed _ _ _ Hf).
  destruct (ex_stopped o'); cbn [negb]; [|by split; [|intros []]].
  assert (Hall : Forall (fun l => ln_frames l = ∅) (fan_lanes f) <->
    forall i, (i < length (ex_sinks o'))%nat -> drained o' i).
  { rewrite Forall_lookup. split.
    - intros H i Hlt. destruct (lane_at _ _ _ _ _ _ _ _ Hi Hlt) as [l Hl].
      destruct (Forall2_lookup_r _ _ _ _ _ (fi_lanes _ _ _ Hf) Hl) as (b & _ & Hb).
      apply (drained_spec _ _ _ _ _ Hf Hl), (idle_empty _ _ _ _ Hb); [|by eapply H].
      apply (xi_lanes _ _ _ _ _ _ _ Hi _ _ Hl).
    - intros H i l Hl. destruct (Forall2_lookup_r _ _ _ _ _ (fi_lanes _ _ _ Hf) Hl) as (b & _ & Hb).
      apply (idle_empty _ _ _ _ Hb); [apply (xi_lanes _ _ _ _ _ _ _ Hi _ _ Hl)|].
      apply (drained_spec _ _ _ _ _ Hf Hl), H. pose proof (xi_sinks _ _ _ _ _ _ _ Hi).
      apply lookup_lt_Some in Hl. unfold len in *. lia. }
  rewrite <- Hall, <- (fo_destroy_spec _ _ _ Hf).
  destruct (tm_fo_destroy _); cbn; naive_solver.
Qed.

(* ------------------------------------------------------------------ *)
(** ** Witnesses *)

Definition exw_port (direction : Z) : tm_sg_port_v1 :=
  Build_tm_sg_port_v1 SIZEOF_PORT 1 (Some [if direction =? TM_SG_INPUT then 105 else 111]) direction
    TM_SG_VIDEO_FRAME 7 TM_SG_MEMORY_CPU 1 90000 0.

Definition exw_node (id kind : Z) (directions : list Z) : tm_sg_node_v1 :=
  Build_tm_sg_node_v1 SIZEOF_NODE 1 (Some [id]) kind (len directions) (Some (exw_port <$> directions)).

Definition exw_edge (source target : Z) : tm_sg_edge_v1 :=
  Build_tm_sg_edge_v1 SIZEOF_EDGE 1 (Some [source]) (Some [111]) (Some [target]) (Some [105]).

(** A camera, an analyser and two sinks. *)
Definition exw_program : tm_sg_program :=
  match tm_sg_compile mem_ok
    (Some [exw_node 115 TM_SG_SINK [TM_SG_INPUT]; exw_node 116 TM_SG_SINK [TM_SG_INPUT];
           exw_node 112 TM_SG_PROCESSOR [TM_SG_INPUT; TM_SG_OUTPUT];
           exw_node 99 TM_SG_SOURCE [TM_SG_OUTPUT]])
    (Some [exw_edge 112 115; exw_edge 112 116; exw_edge 99 112]) None None with
  | Done p => p | _ => Build_tm_sg_program [] [] [] end.

Definition exw_binding (id : Z) (source : bool) : tm_ex_binding_v1 :=
  Build_tm_ex_binding_v1 SIZEOF_EX_BINDING TM_EX_ABI_V1 (Some [id]) source (negb source) 0.

(** A lossless recorder and a preview of the latest frame. *)
Definition exw_config : tm_ex_config_v1 :=
  Build_tm_ex_config_v1 SIZEOF_EX_CONFIG TM_EX_ABI_V1 4 0 1 1
    (Build_tm_fo_config_v1 SIZEOF_FO_CONFIG TM_FO_ABI_V1 2 0
      [Build_tm_fo_branch_config_v1 SIZEOF_FO_BRANCH_CONFIG TM_FO_ABI_V1 TM_FO_ORDERED_LOSSLESS 2 0;
       Build_tm_fo_branch_config_v1 SIZEOF_FO_BRANCH_CONFIG TM_FO_ABI_V1 TM_FO_LATEST 1 0]).

Definition exw_mem : ex_mem := Build_ex_mem true (Some [0; 0; 0; 0]) (true, [true; true]).

Definition exw_bindings : list tm_ex_binding_v1 :=
  [exw_binding 99 true; exw_binding 112 false; exw_binding 115 false; exw_binding 116 false].

Definition exw_created := tm_ex_create 1 exw_program exw_config exw_bindings exw_mem.

Definition exw_owner : tm_ex_owner :=
  match exw_created with
  | Ok (_, _, Some o) => o
  | _ => Build_tm_ex_owner fo_ex_owner zero_binding [] [] [] 0 0 0 0 zero_ref
           (Build_tm_ex_stats_v1 0 0 0 0 0 0 0) true true
  end.

Definition exw_frame (data : list Z) : ex_op :=
  ExPumpSource (Build_source_call TM_EX_SOURCE_FRAME data (len data)) (fun _ => 0).

(** Two frames, of which the preview drops the first; the recorder gets both. *)
Definition exw_ops : list ex_op :=
  [exw_frame [7; 8]; exw_frame [9]; ExPumpSink 0 0; ExPumpSink 0 0; ExPumpSink 1 0; ExStop].

(** A store of two slots, four pins and two leases. *)
Definition exw_fs_config : tm_fs_config_v1 :=
  Build_tm_fs_config_v1 SIZEOF_CONFIG TM_FS_ABI_V1 5 2 4 4 2 64.

Definition exw_store : tm_fs_store :=
  match (tm_fs_create 1 (Some exw_fs_config) FrameStore.ex_mem).2 with Some s => s | None => ex_store end.

Lemma exw_store_reachable : fs_reachable exw_store.
Proof. apply (fs_reach _ 1 exw_fs_config FrameStore.ex_mem 2 exw_store []); [|done..]. repeat split; done. Qed.

Lemma exw_create_ok : exw_created = Ok (2, TM_EX_OK, Some exw_owner).
Proof. vm_compute. reflexivity. Qed.

Lemma exw_config_ok : ex_config_ok exw_config exw_mem.
Proof. split; [|by intros l [= <-]]. split; [done|]. by repeat constructor. Qed.

Lemma exw_run_ok : ex_run_ok exw_owner exw_store exw_ops.
Proof. vm_compute. repeat split; by intros. Qed.

Example exw_run_events :
  match ex_run exw_owner exw_store exw_ops with
  | Ok (_, _, rcs, events) => (rcs, delivered_of 0 events, delivered_of 1 events, seen_of 0 events)
  | _ => ([], [], [], [])
  end = (replicate 6 TM_EX_OK, [[7; 8]; [9]], [[9]], [[7; 8]; [9]]).
Proof. vm_compute. reflexivity. Qed.

Lemma executor_in_order_witness :
  exists o' s' rcs events, ex_run exw_owner exw_store exw_ops = Ok (o', s', rcs, events) /\
    forall i j, (i < length (ex_sinks o'))%nat -> (j < length (ex_processors o'))%nat ->
      sublist (delivered_of i events) (seen_of j events) /\
      prefix (seen_of j events) (sourced_of events).
Proof.
  apply (executor_in_order 1 exw_program exw_config exw_bindings exw_mem 2 exw_owner exw_store exw_ops);
    [exact exw_create_ok|exact exw_config_ok|exact exw_store_reachable|exact exw_run_ok|done].
Defined.

Lemma executor_lossless_witness :
  exists o' s' rcs events, ex_run exw_owner exw_store exw_ops = Ok (o', s', rcs, events) /\
    forall i b, fo_branches (ex_fanout o') !! i = Some b -> fb_policy b = TM_FO_ORDERED_LOSSLESS ->
      run_clean true exw_ops rcs = true ->
      exists waiting rest, sourced_of events = delivered_of i events ++ waiting ++ rest /\
        (length rest <= 1)%nat /\ (drained o' i <-> waiting = []).
Proof.
  apply (executor_lossless 1 exw_program exw_config exw_bindings exw_mem 2 exw_owner exw_store exw_ops);
    [exact exw_create_ok|exact exw_config_ok|exact exw_store_reachable|exact exw_run_ok|done].
Defined.

Lemma executor_destroyable_witness :
  exists o' s' rcs events, ex_run exw_owner exw_store exw_ops = Ok (o', s', rcs, events) /\
    (tm_ex_destroy o' = TM_EX_OK <->
     ex_stopped o' = true /\ fo_sealed (ex_fanout o') = true /\
     forall i, (i < length (ex_sinks o'))%nat -> drained o' i).
Proof.
  apply (executor_destroyable 1 exw_program exw_config exw_bindings exw_mem 2 exw_owner exw_store exw_ops);
    [exact exw_create_ok|exact exw_config_ok|exact exw_store_reachable|exact exw_run_ok|done].
Defined.
