(* ===== verification/OwnerDispatch.v ===== *)
(** * The owner's dispatch

    streamgraph/src/turbo_streamgraph_owner_dispatch.c: the owner of a stream graph
    takes one command of the inbox at a time, runs it on the executor or shows the
    frame it names to a visitor, and answers it with a receipt; and it emits the
    results of asynchronous providers, one at a time.

    One owner lane makes all these calls; producers and providers use the inbox and
    the portal at any time.  So a call is cut where it uses them: [od_begin],
    [od_execute] and [od_finish] are the parts of [tm_od_step], [od_begin_completion]
    and [od_emit] those of [tm_od_step_completion], and a system ([od_sys]) runs the
    parts with anything in between.  Within [od_execute] the only use of the inbox is
    to seal it, which the rest of the part does not notice.  Callbacks are inputs
    ([od_call], [emitted]) and what they are shown are events.  Handles and out
    parameters are not [NULL], nor are the arguments of [tm_od_bind_completion]. *)

From stdpp Require Import list gmap.
From S2P Require Import Prelude Tickets FrameStore Fanout Executor Handoff Completion.

(* ------------------------------------------------------------------ *)
(** ** Data *)

Definition TM_OD_ABI_V1 : Z := 1.
Definition SIZEOF_OD_CONFIG : Z := 32.
Definition SIZEOF_OD_RECEIPT : Z := 32.

Inductive tm_od_status : Type :=
  | TM_OD_OK | TM_OD_EMPTY | TM_OD_EINVAL | TM_OD_EVERSION | TM_OD_ENOMEM | TM_OD_EBUSY
  | TM_OD_EQUEUE | TM_OD_EFRAME | TM_OD_EDELIVERY | TM_OD_EPORTAL.

#[export] Instance tm_od_status_eq_dec : EqDecision tm_od_status.
Proof. solve_decision. Defined.

Inductive tm_od_outcome : Type :=
  | TM_OD_COMPLETED | TM_OD_BACKPRESSURE | TM_OD_EOS | TM_OD_REJECTED | TM_OD_STALE_FRAME
  | TM_OD_FAILED.

#[export] Instance tm_od_outcome_eq_dec : EqDecision tm_od_outcome.
Proof. solve_decision. Defined.

Record tm_od_config_v1 := {
  oo_size : Z;
  oo_version : Z;
  oo_reserved : Z;
  oo_reserved2 : Z;
  oo_visit_frame : bool;
}.

Record tm_od_receipt_v1 := {
  re_command_kind : Z;
  re_outcome : tm_od_outcome;
  re_correlation : Z;
  re_executor_status : tm_ex_status;
  re_frame_status : tm_fs_status;
}.

(** Whether there is a visitor and whether a portal is bound, and the state. *)
Record tm_od_owner := {
  od_visitor : bool;
  od_completion_portal : bool;
  od_pending_completion : ticket;
  od_pending_terminal : tm_pc_result_v1;
  od_in_step : bool;
  od_source_ended : bool;
  od_owner_failed : bool;
}.

Definition set_in_step (o : tm_od_owner) (b : bool) : tm_od_owner :=
  Build_tm_od_owner (od_visitor o) (od_completion_portal o) (od_pending_completion o)
    (od_pending_terminal o) b (od_source_ended o) (od_owner_failed o).

Definition set_source_ended (o : tm_od_owner) : tm_od_owner :=
  Build_tm_od_owner (od_visitor o) (od_completion_portal o) (od_pending_completion o)
    (od_pending_terminal o) (od_in_step o) true (od_owner_failed o).

Definition set_owner_failed (o : tm_od_owner) : tm_od_owner :=
  Build_tm_od_owner (od_visitor o) (od_completion_portal o) (od_pending_completion o)
    (od_pending_terminal o) (od_in_step o) (od_source_ended o) true.

Definition set_completion (o : tm_od_owner) (t : ticket) (r : tm_pc_result_v1) : tm_od_owner :=
  Build_tm_od_owner (od_visitor o) (od_completion_portal o) t r (od_in_step o)
    (od_source_ended o) (od_owner_failed o).

(** [TM_PC_RESULT_V1_INIT]. *)
Definition result_init : tm_pc_result_v1 :=
  Build_tm_pc_result_v1 SIZEOF_PC_RESULT TM_PC_ABI_V1 0 0 0 0 0.

(* ------------------------------------------------------------------ *)
(** ** Operations *)

(** [mem] is the outcome of the allocation. *)
Definition tm_od_create (cfg : option tm_od_config_v1) (mem : bool) : tm_od_status * option tm_od_owner :=
  let? cfg := cfg else (TM_OD_EINVAL, None) in
  if negb (oo_version cfg =? TM_OD_ABI_V1) then (TM_OD_EVERSION, None)
  else if negb (oo_size cfg =? SIZEOF_OD_CONFIG) || truth (oo_reserved cfg) ||
          truth (oo_reserved2 cfg) then (TM_OD_EINVAL, None)
  else if negb mem then (TM_OD_ENOMEM, None)
  else (TM_OD_OK, Some (Build_tm_od_owner (oo_visit_frame cfg) false no_ticket zero_result
                          false false false)).

(** What the callbacks of the executor and the visitor do. *)
Record od_call := {
  oi_source : source_call;
  oi_visits : nat -> Z;
  oi_provider_rc : Z;
  oi_visitor_rc : Z;
}.

Inductive od_event : Type :=
  | OdPublished (t : ticket) (c : tm_ho_command_v1)
  | OdShown (e : ex_event)
  | OdNoticed (ref : tm_fs_frame_ref_v1) (data : list Z)
  | OdReceipt (t : ticket) (c : tm_ho_command_v1) (r : tm_od_receipt_v1)
  | OdEmitted (t : ticket) (r : tm_pc_result_v1).

(** The owner fails: nothing more is admitted. *)
Definition od_fail (o : tm_od_owner) (q : tm_ho_inbox) (x : tm_ex_owner) (s : tm_fs_store)
    : res (tm_od_owner * tm_ho_inbox * tm_ex_owner * tm_fs_store) :=
  '(x, s, _) ← tm_ex_stop x s;
  Ok (set_owner_failed o, (tm_ho_seal q).1, x, s).

Definition answer (r : tm_od_receipt_v1) (outcome : tm_od_outcome) (executor : tm_ex_status)
    (frame : tm_fs_status) : tm_od_receipt_v1 :=
  Build_tm_od_receipt_v1 (re_command_kind r) outcome (re_correlation r) executor frame.

(** The lease, if there is one, and then the pin; the first failure after [status]. *)
Definition od_release (s : tm_fs_store) (status : tm_fs_status) (lease pin : tm_fs_ticket_v1)
    : res (tm_fs_store * tm_fs_status) :=
  '(s, status) ← if truth (tk_ticket_id lease) then
                   '(s, released) ← tm_fs_release_lease s (Some lease);
                   Ok (s, if bool_decide (released = TM_FS_OK) then status else released)
                 else Ok (s, status);
  '(s, released) ← tm_fs_release_pin s (Some pin);
  Ok (s, if bool_decide (released = TM_FS_OK) then status else released).

(** Through a pin of the frame, the visitor sees it: the status, what the visitor
    returns and what it is shown. *)
Definition od_visit (s : tm_fs_store) (ref : tm_fs_frame_ref_v1) (pin : tm_fs_ticket_v1) (visitor_rc : Z)
    : res (tm_fs_store * tm_fs_status * Z * list od_event) :=
  '(s, status, lease) ← tm_fs_acquire_pinned s (Some pin) zero_ticket;
  '(status, view) ← if bool_decide (status = TM_FS_OK)
                    then tm_fs_map_cpu s (Some lease) cpu_view_init
                    else Ok (status, cpu_view_init);
  '(events, callback_status) ← if bool_decide (status = TM_FS_OK)
                               then data ← view_bytes s view; Ok ([OdNoticed ref data], visitor_rc)
                               else Ok ([], 0);
  '(s, status) ← od_release s status lease pin;
  Ok (s, status, callback_status, events).

Definition od_frame_notice (o : tm_od_owner) (q : tm_ho_inbox) (x : tm_ex_owner) (s : tm_fs_store)
    (ref : tm_fs_frame_ref_v1) (r : tm_od_receipt_v1) (visitor_rc : Z)
    : res (tm_od_owner * tm_ho_inbox * tm_ex_owner * tm_fs_store * tm_od_receipt_v1 * list od_event) :=
  if negb (od_visitor o) then
    Ok (o, q, x, s, answer r TM_OD_REJECTED (re_executor_status r) (re_frame_status r), [])
  else
    '(s, status, pin) ← tm_fs_reserve_pin s (Some ref);
    if negb (bool_decide (status = TM_FS_OK)) then
      Ok (o, q, x, s,
          answer r (if bool_decide (status = TM_FS_ESTALE) || bool_decide (status = TM_FS_EBUSY)
                    then TM_OD_STALE_FRAME else TM_OD_FAILED) (re_executor_status r) status, [])
    else
      '(s, status, callback_status, events) ← od_visit s ref pin visitor_rc;
      if negb (bool_decide (status = TM_FS_OK)) then
        '(o, q, x, s) ← od_fail o q x s;
        Ok (o, q, x, s, answer r TM_OD_FAILED (re_executor_status r) status, events)
      else if truth callback_status then
        '(o, q, x, s) ← od_fail o q x s;
        Ok (o, q, x, s, answer r TM_OD_FAILED TM_EX_EPROVIDER status, events)
      else Ok (o, q, x, s, answer r TM_OD_COMPLETED (re_executor_status r) status, events).

(** What an executor status means for the command. *)
Definition od_conclude (o : tm_od_owner) (q : tm_ho_inbox) (x : tm_ex_owner) (s : tm_fs_store)
    (kind : Z) (r : tm_od_receipt_v1) (erc : tm_ex_status)
    : res (tm_od_owner * tm_ho_inbox * tm_ex_owner * tm_fs_store * tm_od_receipt_v1) :=
  let answered outcome := answer r outcome erc (re_frame_status r) in
  match erc with
  | TM_EX_OK => Ok (o, q, x, s, answered TM_OD_COMPLETED)
  | TM_EX_EFULL | TM_EX_EBUSY => Ok (o, q, x, s, answered TM_OD_BACKPRESSURE)
  | TM_EX_EOS =>
      if kind =? TM_HO_PUMP_SOURCE
      then Ok (set_source_ended o, (tm_ho_seal q).1, x, s, answered TM_OD_EOS)
      else Ok (o, q, x, s, answered TM_OD_EOS)
  | TM_EX_ESTATE => Ok (o, q, x, s, answered TM_OD_REJECTED)
  | _ => '(o, q, x, s) ← od_fail o q x s; Ok (o, q, x, s, answered TM_OD_FAILED)
  end.

(** The start of [tm_od_step]: a command is taken, or the call ends. *)
Definition od_begin (o : tm_od_owner) (q : tm_ho_inbox) (receipt : Z * Z)
    : tm_od_owner * tm_ho_inbox * (tm_od_status + ticket * tm_ho_command_v1) :=
  if negb (receipt.2 =? TM_OD_ABI_V1) then (o, q, inl TM_OD_EVERSION)
  else if negb (receipt.1 =? SIZEOF_OD_RECEIPT) then (o, q, inl TM_OD_EINVAL)
  else if od_in_step o then (o, q, inl TM_OD_EBUSY)
  else
    let '(q, qrc, t, c) := tm_ho_take q in
    match qrc with
    | TM_HO_OK => (set_in_step o true, q, inr (t, c))
    | TM_HO_EBUSY => (set_in_step o false, q, inl TM_OD_EMPTY)
    | _ => (set_in_step o false, q, inl TM_OD_EQUEUE)
    end.

Definition shown (events : list ex_event) : list od_event := OdShown <$> events.

(** Its body, for the command. *)
Definition od_execute (o : tm_od_owner) (q : tm_ho_inbox) (x : tm_ex_owner) (s : tm_fs_store)
    (c : tm_ho_command_v1) (call : od_call)
    : res (tm_od_owner * tm_ho_inbox * tm_ex_owner * tm_fs_store * tm_od_receipt_v1 * list od_event) :=
  let kind := cm_kind c in
  let r := Build_tm_od_receipt_v1 kind TM_OD_REJECTED (cm_correlation c) TM_EX_OK TM_FS_OK in
  let conclude o q x s erc events :=
    '(o, q, x, s, r) ← od_conclude o q x s kind r erc; Ok (o, q, x, s, r, shown events) in
  if kind =? TM_HO_STOP then
    '(x, s, erc) ← tm_ex_stop x s;
    conclude (set_source_ended o) (tm_ho_seal q).1 x s erc []
  else if kind =? TM_HO_PUMP_SOURCE then
    if negb (od_source_ended o) && negb (od_owner_failed o) then
      '(x, s, erc, events) ← tm_ex_pump_source 2 x s (oi_source call) (oi_visits call);
      conclude o q x s erc events
    else conclude o q x s TM_EX_ESTATE []
  else if kind =? TM_HO_PUMP_SINK then
    if negb (od_owner_failed o) then
      '(x, s, erc, events) ← tm_ex_pump_sink x s (cm_branch c) (oi_provider_rc call);
      conclude o q x s erc events
    else conclude o q x s TM_EX_ESTATE []
  else if kind =? TM_HO_FRAME_NOTICE then
    if negb (od_source_ended o) && negb (od_owner_failed o) then
      od_frame_notice o q x s (cm_frame c) r (oi_visitor_rc call)
    else Ok (o, q, x, s, r, [])
  else conclude o q x s TM_EX_OK [].

(** Its end: the command's credit is settled. *)
Definition od_finish (o : tm_od_owner) (q : tm_ho_inbox) (t : ticket)
    : tm_od_owner * tm_ho_inbox * tm_od_status :=
  let '(q, qrc) := tm_ho_settle q t in
  match qrc with
  | TM_HO_OK => (set_in_step o false, q, TM_OD_OK)
  | _ => (set_in_step (set_owner_failed o) false, q, TM_OD_EQUEUE)
  end.

(** The call when nobody uses the inbox during it. *)
Definition tm_od_step (o : tm_od_owner) (q : tm_ho_inbox) (x : tm_ex_owner) (s : tm_fs_store)
    (receipt : Z * Z) (call : od_call)
    : res (tm_od_owner * tm_ho_inbox * tm_ex_owner * tm_fs_store * tm_od_status *
           option tm_od_receipt_v1 * list od_event) :=
  let '(o, q, begun) := od_begin o q receipt in
  match begun with
  | inl rc => Ok (o, q, x, s, rc, None, [])
  | inr (t, c) =>
      '(o, q, x, s, r, events) ← od_execute o q x s c call;
      let '(o, q, rc) := od_finish o q t in
      Ok (o, q, x, s, rc, if bool_decide (rc = TM_OD_OK) then Some r else None, events)
  end.

Definition tm_od_bind_completion (o : tm_od_owner) : tm_od_owner * tm_od_status :=
  if od_in_step o then (o, TM_OD_EBUSY)
  else if od_completion_portal o then (o, TM_OD_EBUSY)
  else (Build_tm_od_owner (od_visitor o) true (od_pending_completion o) (od_pending_terminal o)
          (od_in_step o) (od_source_ended o) (od_owner_failed o), TM_OD_OK).

(** [result] is the size and the version of the structure that is passed. *)
Definition tm_od_pending_completion (o : tm_od_owner) (result : Z * Z)
    : tm_od_status * option tm_pc_result_v1 :=
  if negb (result.2 =? TM_PC_ABI_V1) then (TM_OD_EVERSION, None)
  else if negb (result.1 =? SIZEOF_PC_RESULT) then (TM_OD_EINVAL, None)
  else if od_in_step o then (TM_OD_EBUSY, None)
  else if tk_incarnation (od_pending_completion o) =? 0 then (TM_OD_EMPTY, None)
  else (TM_OD_OK, Some (od_pending_terminal o)).

Definition tm_od_settle_pending_completion (o : tm_od_owner) (p : tm_pc_portal)
    : tm_od_owner * tm_pc_portal * tm_od_status :=
  if od_in_step o then (o, p, TM_OD_EBUSY)
  else if tk_incarnation (od_pending_completion o) =? 0 then (o, p, TM_OD_EMPTY)
  else
    let '(p, rc) := tm_pc_settle p (od_pending_completion o) in
    match rc with
    | TM_PC_OK => (set_completion o no_ticket zero_result, p, TM_OD_OK)
    | _ => (o, p, TM_OD_EPORTAL)
    end.

(** The start of [tm_od_step_completion]: a result is taken, or the call ends. *)
Definition od_begin_completion (o : tm_od_owner) (p : tm_pc_portal) (result : Z * Z)
    : tm_od_owner * tm_pc_portal * (tm_od_status + ticket * tm_pc_result_v1) :=
  if negb (result.2 =? TM_PC_ABI_V1) then (o, p, inl TM_OD_EVERSION)
  else if negb (result.1 =? SIZEOF_PC_RESULT) then (o, p, inl TM_OD_EINVAL)
  else if negb (od_completion_portal o) then (o, p, inl TM_OD_EINVAL)
  else if od_in_step o || truth (tk_incarnation (od_pending_completion o)) then (o, p, inl TM_OD_EBUSY)
  else
    let '(p, rc, t, terminal) := tm_pc_take p (SIZEOF_PC_RESULT, TM_PC_ABI_V1) in
    let terminal := default result_init terminal in
    match rc with
    | TM_PC_OK => (set_completion (set_in_step o true) t terminal, p, inr (t, terminal))
    | TM_PC_EBUSY => (set_in_step o false, p, inl TM_OD_EMPTY)
    | _ => (set_in_step o false, p, inl TM_OD_EPORTAL)
    end.

(** Its end, after the callback returned [emitted]. *)
Definition od_emit (o : tm_od_owner) (p : tm_pc_portal) (t : ticket) (emitted : Z)
    : tm_od_owner * tm_pc_portal * tm_od_status :=
  if truth emitted then (set_in_step o false, p, TM_OD_EDELIVERY)
  else
    let '(p, rc) := tm_pc_settle p t in
    match rc with
    | TM_PC_OK => (set_in_step (set_completion o no_ticket zero_result) false, p, TM_OD_OK)
    | _ => (set_in_step o false, p, TM_OD_EPORTAL)
    end.

(** The call when nobody uses the portal during it. *)
Definition tm_od_step_completion (o : tm_od_owner) (p : tm_pc_portal) (result : Z * Z) (emitted : Z)
    : tm_od_owner * tm_pc_portal * tm_od_status * option tm_pc_result_v1 * list od_event :=
  let '(o, p, begun) := od_begin_completion o p result in
  match begun with
  | inl rc => (o, p, rc, None, [])
  | inr (t, terminal) =>
      let '(o, p, rc) := od_emit o p t emitted in
      (o, p, rc, Some terminal, [OdEmitted t terminal])
  end.

(** Whether the owner was freed. *)
Definition tm_od_destroy (o : tm_od_owner) (q : tm_ho_inbox) (p : tm_pc_portal) : tm_od_status :=
  if od_in_step o || truth (tk_incarnation (od_pending_completion o)) then TM_OD_EBUSY
  else
    match tm_ho_snapshot q (SIZEOF_HO_SNAPSHOT, TM_HO_ABI_V1) with
    | (TM_HO_OK, Some snapshot) =>
        if negb (hs_sealed snapshot) || negb (hs_drained snapshot) then TM_OD_EBUSY
        else if od_completion_portal o then
          match tm_pc_snapshot p (SIZEOF_PC_SNAPSHOT, TM_PC_ABI_V1) with
          | (TM_PC_OK, Some completions) =>
              if negb (ps_sealed completions) || negb (ps_drained completions) then TM_OD_EBUSY
              else TM_OD_OK
          | _ => TM_OD_EPORTAL
          end
        else TM_OD_OK
    | _ => TM_OD_EQUEUE
    end.

(* ------------------------------------------------------------------ *)
(** ** The system *)

(** Where the owner's lane is: between two calls, or between the parts of one. *)
Inductive od_phase : Type :=
  | Idle
  | Commanded (t : ticket) (c : tm_ho_command_v1)
  | Answered (t : ticket) (c : tm_ho_command_v1) (r : tm_od_receipt_v1)
  | Emitting (t : ticket) (terminal : tm_pc_result_v1).

Record od_sys := {
  sy_owner : tm_od_owner;
  sy_inbox : tm_ho_inbox;
  sy_executor : tm_ex_owner;
  sy_store : tm_fs_store;
  sy_portal : tm_pc_portal;
  sy_phase : od_phase;
}.

Inductive od_op : Type :=
  | OdBegin (receipt : Z * Z)
  | OdExecute (call : od_call)
  | OdFinish
  | OdBind
  | OdBeginCompletion (result : Z * Z)
  | OdEmit (emitted : Z)
  | OdSettlePending
  | OdProducer (op : ho_op)
  | OdProvider (op : pc_op)
  | OdExecutor (op : ex_op).

Definition accepted (op : ho_op) (reply : ho_reply) : list od_event :=
  match op, reply with
  | HoPublish t (Some c), (TM_HO_OK, _, _) => [OdPublished t c]
  | _, _ => []
  end.

(** A part of a call that is not under way does nothing. *)
Definition od_sys_step (y : od_sys) (op : od_op) : res (od_sys * list od_event) :=
  let 'Build_od_sys o q x s p phase := y in
  match op with
  | OdBegin receipt =>
      let '(o, q, begun) := od_begin o q receipt in
      Ok (Build_od_sys o q x s p (match begun with inr (t, c) => Commanded t c | inl _ => phase end), [])
  | OdExecute call =>
      match phase with
      | Commanded t c =>
          '(o, q, x, s, r, events) ← od_execute o q x s c call;
          Ok (Build_od_sys o q x s p (Answered t c r), events)
      | _ => Ok (y, [])
      end
  | OdFinish =>
      match phase with
      | Answered t c r =>
          let '(o, q, rc) := od_finish o q t in
          Ok (Build_od_sys o q x s p Idle, if bool_decide (rc = TM_OD_OK) then [OdReceipt t c r] else [])
      | _ => Ok (y, [])
      end
  | OdBind => Ok (Build_od_sys (tm_od_bind_completion o).1 q x s p phase, [])
  | OdBeginCompletion result =>
      let '(o, p, begun) := od_begin_completion o p result in
      Ok (Build_od_sys o q x s p (match begun with inr (t, r) => Emitting t r | inl _ => phase end), [])
  | OdEmit emitted =>
      match phase with
      | Emitting t terminal =>
          let '(o, p, _) := od_emit o p t emitted in
          Ok (Build_od_sys o q x s p Idle, [OdEmitted t terminal])
      | _ => Ok (y, [])
      end
  | OdSettlePending =>
      let '(o, p, _) := tm_od_settle_pending_completion o p in Ok (Build_od_sys o q x s p phase, [])
  | OdProducer op =>
      let '(q, reply) := ho_step q op in Ok (Build_od_sys o q x s p phase, accepted op reply)
  | OdProvider op => Ok (Build_od_sys o q x s (pc_step p op).1 phase, [])
  | OdExecutor op =>
      '(x, s, _, events) ← ex_step x s op; Ok (Build_od_sys o q x s p phase, shown events)
  end.

Fixpoint od_run (y : od_sys) (ops : list od_op) : res (od_sys * list od_event) :=
  match ops with
  | [] => Ok (y, [])
  | op :: ops =>
      '(y, events) ← od_sys_step y op;
      '(y, later) ← od_run y ops;
      Ok (y, events ++ later)
  end.

(** Producers do not take or settle commands, nor providers results; the frames of
    commands have an unsigned slot index, the branches are unsigned; and the host
    uses the executor and the store as [ex_op_ok] says. *)
Definition od_op_ok (y : od_sys) (op : od_op) : Prop :=
  match op with
  | OdExecute call => call_ok (sy_executor y) (oi_source call)
  | OdProducer op =>
      ho_op_ok op /\
      match op with
      | HoTake | HoSettle _ => False
      | HoPublish _ (Some c) => 0 <= rf_slot (cm_frame c) /\ 0 <= cm_branch c
      | _ => True
      end
  | OdProvider op => pc_op_ok op /\ match op with PcTake | PcSettle _ => False | _ => True end
  | OdExecutor op => ex_op_ok (sy_executor y) op
  | _ => True
  end.

Fixpoint od_run_ok (y : od_sys) (ops : list od_op) : Prop :=
  match ops with
  | [] => True
  | op :: ops =>
      od_op_ok y op /\ match od_sys_step y op with Ok (y, _) => od_run_ok y ops | _ => True end
  end.

(** What a history shows. *)
Definition published_of (events : list od_event) : list (ticket * tm_ho_command_v1) :=
  omap (fun e => match e with OdPublished t c => Some (t, c) | _ => None end) events.

Definition answered_of (events : list od_event) : list (ticket * tm_ho_command_v1) :=
  omap (fun e => match e with OdReceipt t c _ => Some (t, c) | _ => None end) events.

Definition shown_of (events : list od_event) : list ex_event :=
  omap (fun e => match e with OdShown e => Some e | _ => None end) events.

Definition noticed_of (events : list od_event) : list (tm_fs_frame_ref_v1 * list Z) :=
  omap (fun e => match e with OdNoticed ref data => Some (ref, data) | _ => None end) events.

Definition emitted_of (events : list od_event) : list ticket :=
  omap (fun e => match e with OdEmitted t _ => Some t | _ => None end) events.

(** The command that is under way. *)
Definition in_hand (phase : od_phase) : list (ticket * tm_ho_command_v1) :=
  match phase with Commanded t c | Answered t c _ => [(t, c)] | _ => [] end.

Definition closed (o : tm_od_owner) : bool := od_source_ended o || od_owner_failed o.

(** A receipt that ends admission. *)
Definition stopping (c : tm_ho_command_v1) (r : tm_od_receipt_v1) : Prop :=
  cm_kind c = TM_HO_STOP \/ (cm_kind c = TM_HO_PUMP_SOURCE /\ re_outcome r = TM_OD_EOS) \/
  (cm_kind c <> TM_HO_FRAME_NOTICE /\ re_outcome r = TM_OD_FAILED).

(* ------------------------------------------------------------------ *)
(** ** Credits that are given back *)

Definition tokens (k : credit_kind) (s : tm_fs_store) : list Z := cr_token <$> credits k s.

(** From [s] to [s'] the credit [t] of table [k] is acquired. *)
Definition grabbed (k : credit_kind) (s s' : tm_fs_store) (t : tm_fs_ticket_v1) : Prop :=
  of_store s' t /\ fs_next_ticket_id s < tk_ticket_id t /\
  (forall k', k' <> k -> tokens k' s' = tokens k' s) /\
  exists j, tokens k s !! j = Some 0 /\ tokens k s' = <[j := tk_ticket_id t]> (tokens k s).

Lemma tokens_with_credit k k' s j row next i slot :
  tokens k' (with_credit k s j row next i slot) =
  if decide (k' = k) then <[j := cr_token row]> (tokens k s) else tokens k' s.
Proof.
  unfold tokens. rewrite credits_with_credit. case_decide; [by rewrite list_fmap_insert|done].
Qed.

Lemma acquire_grabbed k s i slot s' t :
  fs_slots s !! i = Some slot -> acquire_credit k s (Z.of_nat i) = Ok (s', TM_FS_OK, t) ->
  grabbed k s s' t.
Proof.
  intros Hi E. destruct (acquire_credit_spec k s i slot Hi) as [(rc & E' & Hrc)|(j & r & Hj & Hr & _ & E')];
    rewrite E in E'; injection E'; [congruence|]. intros -> ->.
  split; [by destruct k|]. split; [cbn; lia|]. split.
  - intros k' Hk. by rewrite tokens_with_credit, decide_False.
  - exists j. rewrite tokens_with_credit, decide_True by done. split; [|done].
    unfold tokens. by rewrite list_lookup_fmap, Hj, <- Hr.
Qed.

(** Releasing it undoes that. *)
Lemma release_grabbed k s s1 s2 t :
  fs_wf s2 -> 0 <= fs_next_ticket_id s -> grabbed k s s1 t -> of_store s2 t -> tokens k s2 = tokens k s1 ->
  (forall k', k' <> k -> tokens k' s2 = tokens k' s1) ->
  exists s3, release_credit k s2 (Some t) = Ok (s3, TM_FS_OK) /\ forall k', tokens k' s3 = tokens k' s.
Proof.
  intros Hw Hn (_ & Hlt & Hother & j & Hj & Et) Ho E2 E2'.
  assert (Hr : tokens k s2 !! j = Some (tk_ticket_id t)).
  { rewrite E2, Et. apply list_lookup_insert_eq. by eapply lookup_lt_Some. }
  unfold tokens in Hr. apply list_lookup_fmap_Some in Hr as (r & Hr & Hjr).
  destruct (release_live k s2 t j r Hw Ho Hjr ltac:(done) ltac:(lia)) as (i & slot & _ & _ & ->).
  eexists. split; [done|]. intros k'. rewrite tokens_with_credit. case_decide as Ek.
  - subst k'. rewrite E2, Et, list_insert_insert_eq. by apply list_insert_id.
  - by rewrite E2', Hother.
Qed.

(** A call on the store that retires nothing and releases no pin of the fan-out. *)
Lemma quiet_call o s f op :
  fan_is o s f -> fs_op_ok op -> (forall r, op <> FsRetire r) ->
  (forall token, token ∈ pin_ids (owned (fo_branches o)) -> ~ releases op PIN token) ->
  exists s', fs_step s op = Ok s' /\ fan_is o s' f /\ steady s s' /\ forall t, of_store s t -> of_store s' t.
Proof.
  intros Hf Hop Hne Hrel. destruct (store_step o s f op Hf Hop Hrel) as (s' & E & Hf' & Hk).
  exists s'. split; [done|]. split; [done|]. split; [split; [done|]|].
  - intros r. apply (current_step s op); [apply Hf|done| |done]. intros r' E2. by destruct (Hne (Some r')).
  - intros t Ht. destruct (fs_step_changed s op (fi_store _ _ _ Hf) Hop) as (s1 & E1 & Hc).
    rewrite E in E1. injection E1 as <-. destruct Hc as [->|(released & Hc & _)]; [done|].
    by eapply fs_change_same_store.
Qed.

Lemma reserve_call o s f ref :
  fan_is o s f -> 0 <= rf_slot ref ->
  exists s' rc pin, tm_fs_reserve_pin s (Some ref) = Ok (s', rc, pin) /\ fan_is o s' f /\ steady s s' /\
    if bool_decide (rc = TM_FS_OK)
    then grabbed PIN s s' pin /\ exists i data, sees PIN s' (tk_ticket_id pin) i data /\
           forall d, shows s ref d -> d = data
    else s' = s.
Proof.
  intros Hf Hr. assert (Href : ref_ok (Some ref)) by by intros r [= <-].
  pose proof (fi_store _ _ _ Hf) as Hw.
  destruct (quiet_call o s f (FsReservePin (Some ref)) Hf Href) as (s' & E & Hf' & Hst & _);
    [done|by intros token _ (t & [=] & _)|].
  cbn [fs_step] in E. destruct (tm_fs_reserve_pin s (Some ref)) as [[[s1 rc] pin]| |] eqn:Ea;
    cbn in E; [|done..]. injection E as ->.
  exists s', rc, pin. split; [done|]. split; [done|]. split; [done|].
  destruct (acquire_ref_spec PIN s (Some ref) Hw Href)
    as [(rc' & E & Hrc)|(r & i & slot & [= <-] & Hi & Hs & Hm & E)]; cbn in E; rewrite Ea in E.
  - injection E as -> -> _. by rewrite bool_decide_false.
  - symmetry in E. case_bool_decide as Ec.
    2: { destruct (acquire_credit_spec PIN s i slot Hs) as [(rc' & E' & _)|(j & r & _ & _ & _ & E')];
         rewrite E in E'; congruence. }
    subst rc. split; [by eapply acquire_grabbed|]. exists i, (content slot).
    assert (Hg : sl_slot_generation slot = rf_slot_generation ref) by (unfold ref_matches in Hm; lia).
    pose proof (ref_matches_live _ _ Hm) as Hlive. split.
    + apply (acquire_sees PIN s i slot s' pin (rf_slot_generation ref)); try done.
      exists slot. split; [done|]. by right.
    + intros d (i' & Hi' & slot' & Hs' & Hn). rewrite Hi in Hi'. apply (inj Z.of_nat) in Hi' as <-.
      rewrite Hs in Hs'. injection Hs' as <-. destruct Hn as [|[_ Hn]]; [lia|]. by rewrite Hn.
Qed.

Lemma acquire_failed k s index s' rc t :
  acquire_credit k s index = Ok (s', rc, t) -> rc <> TM_FS_OK -> s' = s /\ t = zero_ticket.
Proof.
  unfold acquire_credit. intros (slot & _ & E)%bind_Ok Hrc.
  apply bind_Ok in E as ([[s1 rc1] token] & Ea & E). case_bool_decide as Ec; cbn [negb] in E.
  - apply bind_Ok in E as (? & _ & E). apply bind_Ok in E as (? & _ & E). by simplify_eq.
  - injection E as <- <- <-. split; [|done]. unfold credit_alloc in Ea.
    destruct (list_find _ _) as [[j r]|]; [|by simplify_eq]. destruct (_ =? U64_MAX); [by simplify_eq|].
    apply bind_Ok in Ea as (? & _ & Ea). by simplify_eq.
Qed.

(** Through the pin, a lease; when there is none left the ticket is zero. *)
Lemma pinned_call o s f pin i data :
  fan_is o s f -> sees PIN s (tk_ticket_id pin) i data ->
  exists s' rc lease, tm_fs_acquire_pinned s (Some pin) zero_ticket = Ok (s', rc, lease) /\
    fan_is o s' f /\ steady s s' /\ (forall t, of_store s t -> of_store s' t) /\
    if bool_decide (rc = TM_FS_OK)
    then grabbed LEASE s s' lease /\ sees LEASE s' (tk_ticket_id lease) i data
    else s' = s /\ lease = zero_ticket.
Proof.
  intros Hf Hsee. pose proof (fi_store _ _ _ Hf) as Hw.
  destruct (quiet_call o s f (FsAcquirePinned (Some pin)) Hf) as (s' & E & Hf' & Hst & Ho);
    [done|done|by intros token _ (t & [=] & _)|].
  cbn [fs_step] in E.
  destruct (tm_fs_acquire_pinned s (Some pin) zero_ticket) as [[[s1 rc] lease]| |] eqn:Ea;
    cbn in E; [|done..]. injection E as ->.
  exists s', rc, lease. do 4 (split; [done|]).
  case_bool_decide as Ec; [subst rc|].
  - destruct (pinned_sees s pin zero_ticket s' lease i data Hw Hsee Ea) as (_ & _ & Hs).
    split; [|done].
    destruct (acquire_pinned_spec s (Some pin) zero_ticket Hw)
      as [(rc & out & E & Hrc)|(p & j & r & k & slot & _ & _ & _ & _ & _ & Hk & _ & E)];
      rewrite Ea in E; [congruence|]. by eapply acquire_grabbed.
  - unfold tm_fs_acquire_pinned in Ea. destruct (credit_lookup s pin (fs_pins s)) as [rc' credit].
    case_bool_decide; cbn [negb] in Ea; [|by simplify_eq].
    destruct (rd (fs_pins s) credit) as [row| |] eqn:Er; cbn [mbind res_bind] in Ea; [|done..].
    by eapply acquire_failed.
Qed.

(** A credit that was grabbed is given back, with the tables as before it. *)
Lemma undo_call o k s s1 s2 f t :
  fan_is o s f -> grabbed k s s1 t -> fan_is o s2 f -> of_store s2 t ->
  (forall k', tokens k' s2 = tokens k' s1) ->
  exists s', release_credit k s2 (Some t) = Ok (s', TM_FS_OK) /\ fan_is o s' f /\ steady s2 s' /\
    (forall t', of_store s2 t' -> of_store s' t') /\ forall k', tokens k' s' = tokens k' s.
Proof.
  intros Hf Hg Hf2 Ho Et. pose proof (fi_store _ _ _ Hf) as Hw. pose proof (wf_tickets _ Hw) as Hn.
  assert (Hnew : tk_ticket_id t ∉ pin_ids (owned (fo_branches o))).
  { intros Hin. unfold pin_ids in Hin. apply list_elem_of_fmap in Hin as ([p r] & Ep & Hin). cbn in Ep.
    destruct (fi_pins _ _ _ Hf) as [Hall _]. rewrite Forall_forall in Hall.
    pose proof (pin_live_bound _ _ Hw (holds_live _ _ _ (Hall _ Hin))). cbn in *.
    destruct Hg as (_ & Hlt & _). lia. }
  destruct (release_grabbed k s s1 s2 t) as (s3 & E3 & Et3); [apply Hf2|lia|done..|].
  destruct (quiet_call o s2 f (FsRelease k (Some t)) Hf2) as (s' & E & H);
    [done|done|intros token Hin (t' & [= _ <-] & <-); by apply Hnew|].
  cbn [fs_step] in E. rewrite E3 in E. cbn [mbind res_bind] in E. injection E as <-.
  exists s3. destruct H as (? & ? & ?). by split_and!.
Qed.

(** The pin is new, and given back after the lease. *)
Lemma release_call o s s1 s2 f pin lease status :
  fan_is o s f -> grabbed PIN s s1 pin -> fan_is o s1 f -> fan_is o s2 f ->
  (forall t, of_store s1 t -> of_store s2 t) ->
  (grabbed LEASE s1 s2 lease \/ s2 = s1 /\ lease = zero_ticket) ->
  exists s', od_release s2 status lease pin = Ok (s', status) /\ fan_is o s' f /\ steady s2 s' /\
    forall k, tokens k s' = tokens k s.
Proof.
  intros Hf Hpin Hf1 Hf2 Ho Hlease.
  assert (Hdrop : exists s3, (if truth (tk_ticket_id lease) then
       '(s, released) ← tm_fs_release_lease s2 (Some lease);
       Ok (s, if bool_decide (released = TM_FS_OK) then status else released)
     else Ok (s2, status)) = Ok (s3, status) /\ fan_is o s3 f /\ steady s2 s3 /\
     (forall t, of_store s2 t -> of_store s3 t) /\ forall k, tokens k s3 = tokens k s1).
  { destruct Hlease as [Hg|[-> ->]]; [|exists s1; split_and!; try done; by split; [intros ? ? ?|]].
    destruct (undo_call o LEASE s1 s2 s2 f lease Hf1 Hg Hf2 (proj1 Hg)) as (s3 & E3 & H); [done|].
    exists s3. unfold tm_fs_release_lease. rewrite E3. cbn [mbind res_bind]. split; [|done].
    destruct Hg as (_ & Hlt & _). pose proof (wf_tickets _ (fi_store _ _ _ Hf1)).
    unfold truth. replace (_ =? 0) with false by lia. cbn [negb]. by rewrite bool_decide_true. }
  destruct Hdrop as (s3 & E3 & Hf3 & Hst3 & Ho3 & Et3). unfold od_release. rewrite E3. cbn [mbind res_bind].
  destruct (undo_call o PIN s s1 s3 f pin Hf Hpin Hf3) as (s4 & E4 & Hf4 & Hst4 & _ & Et4); [|done|].
  { apply Ho3, Ho, Hpin. }
  exists s4. unfold tm_fs_release_pin. rewrite E4. cbn [mbind res_bind]. rewrite bool_decide_true by done.
  split; [done|]. split; [done|]. split; [by eapply steady_trans|done].
Qed.

Lemma visit_spec o s s1 f ref pin i data visitor_rc :
  fan_is o s f -> fan_is o s1 f -> grabbed PIN s s1 pin -> sees PIN s1 (tk_ticket_id pin) i data ->
  exists s' status callback events, od_visit s1 ref pin visitor_rc = Ok (s', status, callback, events) /\
    fan_is o s' f /\ steady s1 s' /\ (forall k, tokens k s' = tokens k s) /\
    (if bool_decide (status = TM_FS_OK) then events = [OdNoticed ref data] else events = []).
Proof.
  intros Hf Hf1 Hpin Hsee. unfold od_visit.
  destruct (pinned_call o s1 f pin i data Hf1 Hsee) as (s2 & rc & lease & -> & Hf2 & Hst2 & Ho2 & H).
  cbn [mbind res_bind]. case_bool_decide as Ec.
  - destruct H as [Hg Hs]. destruct (map_sees s2 lease i data (fi_store _ _ _ Hf2) (proj1 Hg) Hs) as [-> Hv].
    cbn [mbind res_bind]. rewrite bool_decide_true, Hv by done. cbn [mbind res_bind].
    destruct (release_call o s s1 s2 f pin lease TM_FS_OK Hf Hpin Hf1 Hf2 Ho2) as (s3 & -> & Hf3 & Hst3 & Et);
      [by left|]. cbn [mbind res_bind]. eexists s3, _, _, _. split; [done|]. split; [done|].
    split; [by eapply steady_trans|]. done.
  - cbn [mbind res_bind]. rewrite bool_decide_false by done. cbn [mbind res_bind].
    destruct (release_call o s s1 s2 f pin lease rc Hf Hpin Hf1 Hf2 Ho2) as (s3 & -> & Hf3 & Hst3 & Et);
      [by right|]. cbn [mbind res_bind]. eexists s3, _, _, _. split; [done|]. split; [done|].
    split; [by eapply steady_trans|]. split; [done|]. by rewrite bool_decide_false.
Qed.

(* ------------------------------------------------------------------ *)
(** ** Executing a command *)

Lemma steady_inv clean x s s' f events submitted rest :
  ex_inv clean x s f events submitted rest -> fan_is (ex_fanout x) s' f -> steady s s' ->
  ex_inv clean x s' f events submitted rest.
Proof. intros [Hi Hseen] Hf Hst. split; [|done]. by eapply (ex_core_steady _ x s f). Qed.

Lemma stop_tokens x s x' s' rc k :
  tm_ex_stop x s = Ok (x', s', rc) -> tokens k s' = tokens k s.
Proof.
  unfold tm_ex_stop, retire_ref, tm_fs_retire. intros E.
  destruct (ex_in_callback x); [by simplify_eq|]. destruct (ex_stopped x); [by simplify_eq|].
  apply bind_Ok in E as ([[x1 s1] rc1] & E1 & E).
  assert (s' = s1) as <- by (revert E; destruct (negb _); [|destruct (tm_fo_seal _)]; intros E; by simplify_eq). destruct (truth _); [|by simplify_eq].
  apply bind_Ok in E1 as ([s2 st] & E1 & E2). assert (s' = s2) as -> by (revert E2; destruct (_ && _); intros E2; by simplify_eq).
  apply bind_Ok in E1 as ([rc2 index] & _ & E1). destruct (negb (bool_decide (rc2 = TM_FS_OK))); [by injection E1 as ->|].
  apply bind_Ok in E1 as (slot & _ & E1). apply bind_Ok in E1 as (s3 & E1 & E3). simplify_eq.
  unfold put_slot in E1. apply bind_Ok in E1 as (slots & _ & E1). simplify_eq. by destruct k.
Qed.

(** What executing a command does to the owner, the inbox and the executor. *)
Record executed (o : tm_od_owner) (q : tm_ho_inbox) (x : tm_ex_owner)
    (o' : tm_od_owner) (q' : tm_ho_inbox) (x' : tm_ex_owner) : Prop := {
  xd_in_step : od_in_step o' = od_in_step o;
  xd_bound : od_completion_portal o' = od_completion_portal o;
  xd_pending : od_pending_completion o' = od_pending_completion o;
  xd_terminal : od_pending_terminal o' = od_pending_terminal o;
  xd_inbox : q' = q \/ q' = (tm_ho_seal q).1;
  xd_closes : closed o' = true -> closed o = true \/ hq_sealed q' = true /\ ex_stopped x' = true;
  xd_closed : closed o = true -> closed o' = true;
  xd_stopped : ex_stopped x = true -> ex_stopped x' = true;
}.

Lemma executed_same o q x x' : (ex_stopped x = true -> ex_stopped x' = true) -> executed o q x o q x'.
Proof. intros H. split; try done; by left. Qed.

Lemma od_fail_spec o q clean x s f events submitted rest :
  ex_inv clean x s f events submitted rest ->
  exists x' s' f', od_fail o q x s = Ok (set_owner_failed o, (tm_ho_seal q).1, x', s') /\
    ex_inv clean x' s' f' events submitted rest /\ same_order x x' /\ executed o q x (set_owner_failed o) (tm_ho_seal q).1 x' /\
    forall k, tokens k s' = tokens k s.
Proof.
  intros [Hc Ha]. unfold od_fail.
  destruct (stop_inv _ _ _ _ _ _ _ Hc (all_seen_between _ _ _ _ Ha)) as (x' & s' & rc & f' & E & Hi & Hs & Ho).
  rewrite E. cbn [mbind res_bind]. exists x', s', f'. split; [done|].
  split; [done|]. split; [done|]. split; [|intros k; by eapply stop_tokens]. split; try done; [by right|by right|].
  intros _. unfold closed. cbn. apply orb_true_r.
Qed.

Definition same_subject (r r' : tm_od_receipt_v1) : Prop :=
  re_command_kind r' = re_command_kind r /\ re_correlation r' = re_correlation r.

Lemma frame_notice_spec o q clean x s f events submitted rest ref r visitor_rc :
  ex_inv clean x s f events submitted rest -> 0 <= rf_slot ref ->
  exists o' q' x' s' r' new f', od_frame_notice o q x s ref r visitor_rc = Ok (o', q', x', s', r', new) /\
    ex_inv clean x' s' f' events submitted rest /\ same_order x x' /\ executed o q x o' q' x' /\
    same_subject r r' /\ (forall k, tokens k s' = tokens k s) /\
    (re_outcome r' = TM_OD_COMPLETED -> new <> []) /\
    (new = [] \/ exists data, new = [OdNoticed ref data] /\ forall d, shows s ref d -> d = data).
Proof.
  intros Hi Hr. unfold od_frame_notice. destruct (od_visitor o); cbn [negb].
  2: { eexists o, q, x, s, _, [], f. split_and!; try done; [by apply executed_same|by left]. }
  pose proof (xi_fan _ _ _ _ _ _ _ (proj1 Hi)) as Hf.
  destruct (reserve_call _ s f ref Hf Hr) as (s1 & rc & pin & -> & Hf1 & Hst1 & H). cbn [mbind res_bind].
  case_bool_decide as Ec; cbn [negb].
  2: { subst s1. eexists o, q, x, s, _, [], f. split_and!; try done; [by apply executed_same|cbn; by case_match|by left]. }
  destruct H as (Hg & i & data & Hsee & Hdata).
  destruct (visit_spec _ s s1 f ref pin i data visitor_rc Hf Hf1 Hg Hsee)
    as (s2 & status & callback & new & -> & Hf2 & Hst2 & Et & Hnew). cbn [mbind res_bind].
  pose proof (steady_inv _ _ _ _ _ _ _ _ Hi Hf2 (steady_trans _ _ _ Hst1 Hst2)) as Hi2.
  assert (Hev : new = [] \/ exists data, new = [OdNoticed ref data] /\ forall d, shows s ref d -> d = data).
  { case_bool_decide; [right; by exists data|by left]. }
  destruct (od_fail_spec o q clean x s2 f events submitted rest Hi2)
    as (x3 & s3 & f3 & Efail & Hi3 & Ho3 & He3 & Et3).
  assert (Et3' : forall k, tokens k s3 = tokens k s) by (intros k; by rewrite Et3).
  case_bool_decide as Es; cbn [negb]; [destruct (truth callback)|].
  2: { eexists o, q, x, s2, _, new, f. split_and!; try done; [by apply executed_same|]. by rewrite Hnew. }
  all: rewrite Efail; cbn [mbind res_bind]; eexists _, _, x3, s3, _, new, f3; by split_and!.
Qed.

(** *** An executor that has stopped *)

Lemma stop_stopped x s x' s' rc :
  ex_stopped x = true -> tm_ex_stop x s = Ok (x', s', rc) -> x' = x.
Proof. unfold tm_ex_stop. intros Es. rewrite Es. destruct (ex_in_callback x); intros E; by simplify_eq. Qed.

Lemma pump_sink_stopped x s branch provider_rc x' s' rc new :
  ex_stopped x = true -> tm_ex_pump_sink x s branch provider_rc = Ok (x', s', rc, new) ->
  ex_stopped x' = true /\ sourced_of new = [].
Proof.
  intros Es. unfold tm_ex_pump_sink. destruct (_ || _); [intros E; by simplify_eq|].
  destruct (tm_fo_take _ _) as [[[fo st] t] ref]. set (x1 := set_fanout x fo).
  assert (Es1 : forall fo', ex_stopped (set_fanout x1 fo') = true) by done.
  destruct (bool_decide (st = TM_FO_EBUSY)); [intros E; by simplify_eq|].
  destruct (negb _); [intros E; by simplify_eq|].
  intros ([[s1 st1] lease] & _ & E)%bind_Ok. apply bind_Ok in E as ([rc1 view] & _ & E).
  destruct (negb (bool_decide (rc1 = TM_FS_OK))).
  - apply bind_Ok in E as (s2 & _ & E). apply bind_Ok in E as ([[fo2 s3] ?] & _ & E).
    apply bind_Ok in E as ([[x2 s4] ?] & E2 & E). apply stop_stopped in E2; [|done]. by simplify_eq.
  - apply bind_Ok in E as (data & _ & E). apply bind_Ok in E as ([s2 released] & _ & E).
    apply bind_Ok in E as ([[fo2 s3] settled] & _ & E).
    destruct (negb (bool_decide (settled = TM_FO_OK))); [|destruct (negb (provider_rc =? 0))];
      [apply bind_Ok in E as ([[x2 s4] ?] & E2 & E); apply stop_stopped in E2; [|done]; by simplify_eq..|].
    by simplify_eq.
Qed.

Lemma step_stopped x s op x' s' rc new :
  ex_stopped x = true -> ex_step x s op = Ok (x', s', rc, new) ->
  ex_stopped x' = true /\ sourced_of new = [].
Proof.
  intros Es. destruct op as [call visits|branch prc| |branch|op]; cbn [ex_step].
  - cbn [tm_ex_pump_source]. rewrite Es. destruct (ex_in_callback x); intros E; by simplify_eq.
  - by apply pump_sink_stopped.
  - intros ([[x1 s1] rc1] & E1 & E)%bind_Ok. apply stop_stopped in E1; [|done]. by simplify_eq.
  - unfold tm_ex_discard_ready. intros ([[x1 s1] rc1] & E1 & E)%bind_Ok. simplify_eq. split; [|done].
    destruct (_ || _); [by simplify_eq|]. destruct (negb _); [by simplify_eq|].
    apply bind_Ok in E1 as ([[fo s2] rc2] & _ & E1). by simplify_eq.
  - intros (s1 & _ & E)%bind_Ok. by simplify_eq.
Qed.

Lemma pump_sink_not_eos x s branch provider_rc x' s' rc new :
  tm_ex_pump_sink x s branch provider_rc = Ok (x', s', rc, new) -> rc <> TM_EX_EOS.
Proof.
  unfold tm_ex_pump_sink. destruct (_ || _); [intros E; by simplify_eq|].
  destruct (tm_fo_take _ _) as [[[fo st] t] ref].
  destruct (bool_decide (st = TM_FO_EBUSY)); [intros E; by simplify_eq|].
  destruct (negb _); [intros E; simplify_eq; by destruct st|].
  intros ([[s1 st1] lease] & _ & E)%bind_Ok. apply bind_Ok in E as ([rc1 view] & _ & E).
  destruct (negb (bool_decide (rc1 = TM_FS_OK))).
  - apply bind_Ok in E as (s2 & _ & E). apply bind_Ok in E as ([[fo2 s3] ?] & _ & E).
    apply bind_Ok in E as ([[x2 s4] ?] & _ & E). by simplify_eq.
  - apply bind_Ok in E as (data & _ & E). apply bind_Ok in E as ([s2 released] & _ & E).
    apply bind_Ok in E as ([[fo2 s3] settled] & _ & E).
    destruct (negb (bool_decide (settled = TM_FO_OK))); [|destruct (negb (provider_rc =? 0))];
      [apply bind_Ok in E as ([[x2 s4] ?] & _ & E); by simplify_eq..|by simplify_eq].
Qed.

(** The source is at its end only when the executor has stopped. *)
Lemma fo_code_not_eos rc : fo_code rc <> TM_EX_EOS.
Proof. by destruct rc. Qed.

Lemma submit_not_eos x s x' s' rc : submit_pending x s = Ok (x', s', rc) -> rc <> TM_EX_EOS.
Proof.
  unfold submit_pending, retire_ref. intros ([[fo s1] rc1] & _ & E)%bind_Ok.
  destruct (bool_decide _); [by simplify_eq|]. destruct (negb _); [simplify_eq; apply fo_code_not_eos|].
  apply bind_Ok in E as ([s2 st] & _ & E). revert E. destruct (_ && _); intros E; by simplify_eq.
Qed.

Lemma eos_stopped fuel x s call visits x' s' new :
  tm_ex_pump_source fuel x s call visits = Ok (x', s', TM_EX_EOS, new) -> ex_stopped x' = true.
Proof.
  revert x s x' s' new. induction fuel as [|fuel IH]; intros x s x' s' new; cbn [tm_ex_pump_source]; [done|].
  destruct (ex_in_callback x); [done|]. destruct (ex_stopped x) eqn:Es; [intros E; by simplify_eq|].
  destruct (truth _).
  { intros ([[x1 s1] rc] & E1 & E)%bind_Ok. apply submit_not_eos in E1. by simplify_eq. }
  intros ([[[x1 s1] ended] sourced] & E1 & E)%bind_Ok. destruct ended as [rc|].
  { simplify_eq. destruct (ex_pending_bytes x =? 0); [|by simplify_eq]. unfold ask_source in E1.
    apply bind_Ok in E1 as (scratch & _ & E1). destruct (so_result call =? _); [by injection E1 as <-|].
    destruct (_ || _); [apply bind_Ok in E1 as ([[? ?] ?] & _ & E1); by simplify_eq|].
    apply bind_Ok in E1 as (? & _ & E1). by simplify_eq. }
  apply bind_Ok in E as ([[x2 s2] ended] & E2 & E). destruct ended as [rc|].
  { simplify_eq. unfold publish_pending in E2. apply bind_Ok in E2 as (? & _ & E2).
    apply bind_Ok in E2 as ([[? fs] ?] & _ & E2). destruct (bool_decide _); [by simplify_eq|].
    destruct (negb _); [apply bind_Ok in E2 as ([[? ?] ?] & _ & E2); by simplify_eq|by simplify_eq]. }
  apply bind_Ok in E as ([[[x3 s3] ended] visited] & E3 & E). destruct ended as [rc|].
  { simplify_eq. unfold process_pending in E3. apply bind_Ok in E3 as ([[? rc] ?] & _ & E3).
    apply bind_Ok in E3 as ([rc1 ?] & _ & E3). destruct (negb _).
    - apply bind_Ok in E3 as (? & _ & E3). apply bind_Ok in E3 as ([[? ?] ?] & _ & E3). by simplify_eq.
    - apply bind_Ok in E3 as (? & _ & E3). destruct (visit_loop _ _ _ _ _) as [evs result].
      apply bind_Ok in E3 as ([? ?] & _ & E3). destruct (negb (result =? 0)); [|by simplify_eq].
      apply bind_Ok in E3 as ([[? ?] ?] & _ & E3). by simplify_eq. }
  apply bind_Ok in E as ([[[x4 s4] rc] events] & E4 & E). simplify_eq. by eapply IH.
Qed.

(** *** The parts of a step *)

Lemma executed_trans o0 q0 x0 o1 q1 x1 o2 q2 x2 :
  executed o0 q0 x0 o1 q1 x1 -> executed o1 q1 x1 o2 q2 x2 -> executed o0 q0 x0 o2 q2 x2.
Proof.
  intros [] []. split; try congruence; try by auto.
  - destruct xd_inbox0 as [-> | ->], xd_inbox1 as [-> | ->]; by (left + right).
  - intros H. destruct (xd_closes1 H) as [H1|]; [|by right].
    destruct (xd_closes0 H1) as [|[Hq Hx]]; [by left|right].
    split; [|by apply xd_stopped1]. by destruct xd_inbox1 as [-> | ->].
Qed.

Lemma executed_ended o q x x' :
  ex_stopped x' = true -> executed o q x (set_source_ended o) (tm_ho_seal q).1 x'.
Proof. intros H. split; try done; by right. Qed.

Lemma conclude_spec o q clean x s f events submitted rest kind r erc :
  ex_inv clean x s f events submitted rest -> (erc = TM_EX_EOS -> ex_stopped x = true) ->
  exists o' q' x' s' r' f', od_conclude o q x s kind r erc = Ok (o', q', x', s', r') /\
    ex_inv clean x' s' f' events submitted rest /\ same_order x x' /\ executed o q x o' q' x' /\
    same_subject r r' /\ (kind = TM_HO_PUMP_SOURCE -> re_outcome r' = TM_OD_EOS -> closed o' = true) /\
    (re_outcome r' = TM_OD_FAILED -> closed o' = true).
Proof.
  intros Hi Heos. destruct (od_fail_spec o q clean x s f events submitted rest Hi)
    as (x1 & s1 & f1 & E & Hi1 & Ho1 & He1 & _). unfold od_conclude. rewrite E. cbn [mbind res_bind].
  destruct erc;
    try (eexists o, q, x, s, _, f; by split_and!; [..|by apply executed_same| | |]);
    try (eexists _, _, x1, s1, _, f1; split_and!; try done; intros _; unfold closed; cbn; apply orb_true_r).
  destruct (kind =? TM_HO_PUMP_SOURCE) eqn:Ek.
  - eexists _, _, x, s, _, f. split_and!; try done. by apply executed_ended, Heos.
  - eexists o, q, x, s, _, f. split_and!; try done; [by apply executed_same|]. lia.
Qed.

(** The events of executing a command. *)
Definition quiet (new : list od_event) : Prop :=
  published_of new = [] /\ answered_of new = [] /\ emitted_of new = [].

Lemma shown_quiet events : quiet (shown events).
Proof. unfold quiet, shown. induction events as [|e events IH]; [done|exact IH]. Qed.

Lemma shown_unnoticed events : noticed_of (shown events) = [].
Proof. unfold shown. induction events as [|e events IH]; [done|exact IH]. Qed.

Lemma shown_of_shown events : shown_of (shown events) = events.
Proof. induction events as [|e events IH]; [done|]. cbn. f_equal. exact IH. Qed.

(** What the theorems use of it. *)
Record executes (clean : bool) (events : list ex_event) (o : tm_od_owner) (q : tm_ho_inbox)
    (x : tm_ex_owner) (c : tm_ho_command_v1) (o' : tm_od_owner) (q' : tm_ho_inbox) (x' : tm_ex_owner)
    (s' : tm_fs_store) (r : tm_od_receipt_v1) (new : list od_event) : Prop := {
  xe_advances : exists clean', advances clean' events x x' s' (shown_of new);
  xe_executed : executed o q x o' q' x';
  xe_kind : re_command_kind r = cm_kind c;
  xe_correlation : re_correlation r = cm_correlation c;
  xe_quiet : quiet new;
  xe_stopping : stopping c r -> closed o' = true;
  xe_closed : closed o = true -> sourced_of (shown_of new) = [] /\ noticed_of new = [];
}.

(** A command that calls the executor. *)
Lemma conclude_executes o q o1 q1 clean events x x1 s1 c erc new :
  advances clean events x x1 s1 new -> executed o q x o1 q1 x1 ->
  (erc = TM_EX_EOS -> ex_stopped x1 = true) -> (closed o = true -> sourced_of new = []) ->
  (cm_kind c = TM_HO_STOP -> closed o1 = true) ->
  let r0 := Build_tm_od_receipt_v1 (cm_kind c) TM_OD_REJECTED (cm_correlation c) TM_EX_OK TM_FS_OK in
  exists o' q' x' s' r, od_conclude o1 q1 x1 s1 (cm_kind c) r0 erc = Ok (o', q', x', s', r) /\
    executes clean events o q x c o' q' x' s' r (shown new).
Proof.
  intros (f & submitted & rest & Hi & Hinc & Hord) He Heos Hsrc Hstop r0.
  destruct (conclude_spec o1 q1 clean x1 s1 f (events ++ new) submitted rest (cm_kind c) r0 erc Hi Heos)
    as (o' & q' & x' & s' & r & f' & E & Hi' & [Ei Eo] & He' & [Ek Ec] & Hend & Hfail).
  exists o', q', x', s', r. split; [done|]. split; try done.
  - exists clean, f', submitted, rest. rewrite shown_of_shown. split; [done|]. split; [congruence|lia].
  - by eapply executed_trans.
  - apply shown_quiet.
  - intros [Hs|[[Hs Ho]|[_ Ho]]]; [|by apply Hend|by apply Hfail]. apply He', Hstop, Hs.
  - intros Hcl. rewrite shown_of_shown. split; [by apply Hsrc|apply shown_unnoticed].
Qed.

Lemma od_execute_spec o q clean x s f events submitted rest c call :
  ex_inv clean x s f events submitted rest -> call_ok x (oi_source call) -> 0 <= cm_branch c ->
  0 <= rf_slot (cm_frame c) -> fo_next_order (ex_fanout x) < U32_MAX ->
  (closed o = true -> ex_stopped x = true) ->
  exists o' q' x' s' r new clean', od_execute o q x s c call = Ok (o', q', x', s', r, new) /\
    executes clean' events o q x c o' q' x' s' r new.
Proof.
  intros Hi Hcall Hb Hr Hn Hcl. unfold od_execute.
  assert (Hsame : advances clean events x x s []).
  { eapply advances_intro; [|done]. rewrite app_nil_r. exact Hi. }
  assert (Hdone : forall q1 o1 x1 s1 erc new clean', advances clean' events x x1 s1 new ->
    executed o q x o1 q1 x1 -> (erc = TM_EX_EOS -> ex_stopped x1 = true) ->
    (closed o = true -> sourced_of new = []) -> (cm_kind c = TM_HO_STOP -> closed o1 = true) ->
    exists o' q' x' s' r new' clean', ('(o, q, x, s, r) ← od_conclude o1 q1 x1 s1 (cm_kind c)
        (Build_tm_od_receipt_v1 (cm_kind c) TM_OD_REJECTED (cm_correlation c) TM_EX_OK TM_FS_OK) erc;
       Ok (o, q, x, s, r, shown new)) = Ok (o', q', x', s', r, new') /\
      executes clean' events o q x c o' q' x' s' r new').
  { intros q1 o1 x1 s1 erc new clean' Ha He Heos Hsrc Hstop.
    destruct (conclude_executes o q o1 q1 clean' events x x1 s1 c erc new Ha He Heos Hsrc Hstop)
      as (o' & q' & x' & s' & r & E & H). rewrite E. cbn [mbind res_bind].
    by exists o', q', x', s', r, (shown new), clean'. }
  destruct (cm_kind c =? TM_HO_STOP) eqn:Ek1; [|destruct (cm_kind c =? TM_HO_PUMP_SOURCE) eqn:Ek2;
    [|destruct (cm_kind c =? TM_HO_PUMP_SINK) eqn:Ek3; [|destruct (cm_kind c =? TM_HO_FRAME_NOTICE) eqn:Ek4]]].
  - destruct Hi as [Hc Ha].
    destruct (stop_inv _ _ _ _ _ _ _ Hc (all_seen_between _ _ _ _ Ha)) as (x1 & s1 & rc & f1 & E & Hi1 & Hs & Ho).
    rewrite E. cbn [mbind res_bind]. apply (Hdone _ _ _ _ _ _ clean); try done; [|by apply executed_ended].
    eapply advances_intro; [|done]. by rewrite app_nil_r.
  - destruct (negb (od_source_ended o) && negb (od_owner_failed o)) eqn:Eo;
      [|by apply (Hdone _ _ _ _ _ _ clean); try done; [apply executed_same|lia]].
    destruct (pump_source_spec _ _ _ _ _ _ _ _ (oi_visits call) Hi Hcall Hn) as (x1 & s1 & rc & new & E & Ha).
    rewrite E. cbn [mbind res_bind]. apply (Hdone _ _ _ _ _ _ clean); [done| | | |lia].
    + apply executed_same. intros Hs.
      by apply (step_stopped x s (ExPumpSource (oi_source call) (oi_visits call)) x1 s1 rc new Hs E).
    + intros ->. by eapply eos_stopped.
    + unfold closed. lia.
  - destruct (negb (od_owner_failed o)) eqn:Eo;
      [|by apply (Hdone _ _ _ _ _ _ clean); try done; [apply executed_same|lia]].
    destruct (pump_sink_spec _ _ _ _ _ _ _ _ (oi_provider_rc call) Hi Hb) as (x1 & s1 & rc & new & E & Ha).
    rewrite E. cbn [mbind res_bind]. apply (Hdone _ _ _ _ _ _ (keeps clean rc)); [done| | | |lia].
    + apply executed_same. intros Hs. by eapply pump_sink_stopped in E as [? _].
    + intros ->. by apply pump_sink_not_eos in E.
    + intros H. by eapply pump_sink_stopped in E as [_ ?]; [|apply Hcl].
  - set (r0 := Build_tm_od_receipt_v1 _ _ _ _ _).
    destruct (negb (od_source_ended o) && negb (od_owner_failed o)) eqn:Eo.
    + destruct (frame_notice_spec o q clean x s f events submitted rest (cm_frame c) r0 (oi_visitor_rc call) Hi Hr)
        as (o' & q' & x' & s' & r & new & f' & E & Hi' & Ho & He & [Ek Ec] & _ & _ & Hnew).
      exists o', q', x', s', r, new, clean. split; [done|].
      assert (Hsh : shown_of new = [] /\ quiet new) by (by destruct Hnew as [->|(data & -> & _)]).
      destruct Hsh as [Hsh Hq]. split; try done.
      * exists clean. rewrite Hsh. eapply advances_intro; [|done]. by rewrite app_nil_r.
      * intros [?|[[? _]|[? _]]]; lia.
      * unfold closed. lia.
    + exists o, q, x, s, r0, [], clean. split; [done|]. split; try done; [by exists clean|by apply executed_same|].
      intros [?|[[? _]|[? _]]]; lia.
  - apply (Hdone _ _ _ _ _ _ clean); try done; [by apply executed_same|lia].
Qed.

(* ------------------------------------------------------------------ *)
(** ** The inbox of the system *)

Definition command_ok (c : tm_ho_command_v1) : Prop := 0 <= rf_slot (cm_frame c) /\ 0 <= cm_branch c.

(** What was published is what was answered, what is in hand and what is queued, and
    only the command in hand is taken. *)
Record inbox_has (q : tm_ho_inbox) (phase : od_phase) (published answered : list (ticket * tm_ho_command_v1))
    (m : mailbox) : Prop := {
  ih_is : inbox_is q m;
  ih_past : past m published;
  ih_order : published = answered ++ in_hand phase ++ mb_queue m;
  ih_taken : forall t, mb_stage m !! t = Some Handoff.Taken <-> t ∈ (in_hand phase).*1;
  ih_commands : Forall (fun tc => command_ok tc.2) published;
}.

Lemma inbox_step q m op q' reply done :
  inbox_is q m -> past m done -> ho_op_ok op -> ho_step q op = (q', reply) ->
  exists m', mailbox_step (len (hq_rows q)) (hq_incarnation q) m op reply m' /\ inbox_is q' m' /\
    past m' (done ++ ho_published [op] [reply]) /\
    mb_queue m ++ ho_published [op] [reply] = ho_taken [op] [reply] ++ mb_queue m'.
Proof.
  intros Hq Hp Hop E. destruct (ho_step_refines q m op q' reply Hq Hop E) as (m' & Hstep & Hq').
  exists m'. split; [done|]. split; [done|]. by eapply past_step.
Qed.

Lemma accepted_published op reply : published_of (accepted op reply) = ho_published [op] [reply].
Proof. destruct op as [|t [c|]|t| |t|], reply as [[[] ?] ?]; done. Qed.

Definition producer_op (op : ho_op) : Prop :=
  ho_op_ok op /\
  match op with
  | HoTake | HoSettle _ => False
  | HoPublish _ (Some c) => command_ok c
  | _ => True
  end.

(** Producers leave what is taken alone. *)
Lemma producer_taken cap inc m op reply m' published t :
  past m published -> producer_op op -> mailbox_step cap inc m op reply m' ->
  mb_stage m' !! t = Some Handoff.Taken <-> mb_stage m !! t = Some Handoff.Taken.
Proof.
  intros Hp [_ Hop] Hstep. destruct reply as [[rc u] c]. destruct op as [|v command|v| |v|]; cbn in Hstep; try done.
  - destruct (mb_sealed m); [by destruct Hstep as [_ ->]|].
    destruct Hstep as [(_ & Hu & ->)|(_ & _ & ->)]; [|done]. cbn. rewrite lookup_insert_Some.
    split; [by intros [[_ [=]]|[_ H]]|]. intros H. right. split; [|done]. intros <-.
    by apply Hu, (pa_issued _ _ Hp _ _ H).
  - destruct Hstep as [-> ->]. destruct command as [command|]; [|done].
    destruct (publish_status m v (Some command)) eqn:E; try done. apply ho_publish_ok in E. cbn.
    rewrite lookup_insert_Some. split; [by intros [[_ [=]]|[_ H]]|]. intros H. right. split; [|done].
    intros <-. congruence.
  - destruct Hstep as [-> ->]. unfold forget_status.
    destruct (mb_stage m !! v) as [st|] eqn:E; [|done]. destruct (decide (st = Writing)) as [->|]; [|done].
    cbn. rewrite lookup_delete_Some. split; [by intros [_ H]|]. intros H. split; [|done]. intros <-. congruence.
  - by destruct Hstep as [_ ->].
Qed.

Lemma producer_inbox q phase published answered m op q' reply :
  inbox_has q phase published answered m -> producer_op op -> ho_step q op = (q', reply) ->
  exists m', inbox_has q' phase (published ++ published_of (accepted op reply)) answered m' /\
    (mb_sealed m = true -> published_of (accepted op reply) = []).
Proof.
  intros [Hq Hp Ho Ht Hc] Hop E. rewrite accepted_published.
  destruct (inbox_step q m op q' reply published Hq Hp (proj1 Hop) E) as (m' & Hstep & Hq' & Hp' & Hqueue).
  exists m'. split; [split; try done|].
  - assert (ho_taken [op] [reply] = []) as Hn.
    { destruct Hop as [_ Hop]. by destruct op as [|? [?|]|? | |?|], reply as [[[] ?] ?]. }
    rewrite Hn, app_nil_l in Hqueue. by rewrite Ho, <- !app_assoc, Hqueue.
  - intros t. rewrite (producer_taken _ _ _ _ _ _ _ t Hp Hop Hstep). apply Ht.
  - apply Forall_app. split; [done|]. destruct Hop as [_ Hop].
    destruct op as [|? [?|]|? | |?|], reply as [[[] ?] ?]; cbn; try constructor; done.
  - intros Hs. destruct reply as [[rc u] c]. destruct op as [|v [command|]|v| |v|]; try by destruct rc.
    destruct Hstep as [-> _]. unfold publish_status. destruct (negb _); [done|].
    destruct (mb_stage m !! v) as [[]|]; try done. by rewrite Hs.
Qed.

Lemma sealed_inbox q phase published answered m :
  inbox_has q phase published answered m -> inbox_has (tm_ho_seal q).1 phase published answered (close m).
Proof.
  intros [Hq Hp Ho Ht Hc]. split; try done; [by destruct Hq|].
  apply (past_update m); [done..|]. intros t st H. split; [by eapply (pa_issued _ _ Hp)|]. intros ->. by left.
Qed.

Lemma executed_inbox o q x o' q' x' phase phase' published answered m :
  executed o q x o' q' x' -> inbox_has q phase published answered m -> in_hand phase' = in_hand phase ->
  exists m', inbox_has q' phase' published answered m'.
Proof.
  intros He Hm E. destruct (xd_inbox _ _ _ _ _ _ He) as [-> | ->]; [exists m|exists (close m)].
  - by destruct Hm; split; rewrite ?E.
  - by apply sealed_inbox in Hm as []; split; rewrite ?E.
Qed.

Lemma taken_inbox q published answered m q' rc t c :
  inbox_has q Idle published answered m -> tm_ho_take q = (q', rc, t, c) ->
  (rc = TM_HO_EBUSY /\ q' = q /\ mb_queue m = []) \/
  (rc = TM_HO_OK /\ exists m', inbox_has q' (Commanded t c) published answered m').
Proof.
  intros [Hq Hp Ho Ht Hc] E. pose proof (Handoff.take_step q m q' rc t c Hq E) as H.
  destruct (inbox_step q m HoTake q' (rc, t, c) published Hq Hp I) as (m' & Hstep & Hq' & Hp' & Hqueue);
    [cbn; by rewrite E|]. cbn in Hstep, Hp'. rewrite app_nil_r in Hp'.
  destruct (mb_queue m) as [|[t0 c0] queue] eqn:Eq; [left; by destruct H|right].
  destruct Hstep as (-> & -> & -> & ->). split; [done|]. exists (dequeue m t0 queue). split; try done.
  intros u. cbn. rewrite lookup_insert_Some, list_elem_of_singleton. split.
  - intros [[<- _]|[_ H']]; [done|]. apply Ht in H'. by apply not_elem_of_nil in H'.
  - intros ->. by left.
Qed.

Lemma stage_slot q m t st : inbox_is q m -> mb_stage m !! t = Some st -> 0 <= tk_slot t.
Proof. intros Hq (i & r & (_ & -> & _) & _)%(ii_stage _ _ Hq). cbn. lia. Qed.

(** The command in hand can be settled. *)
Lemma settled_inbox q published answered m t c r :
  inbox_has q (Answered t c r) published answered m ->
  exists q' m', tm_ho_settle q t = (q', TM_HO_OK) /\ inbox_has q' Idle published (answered ++ [(t, c)]) m'.
Proof.
  intros [Hq Hp Ho Ht Hc].
  assert (Hst : mb_stage m !! t = Some Handoff.Taken) by (apply Ht; left).
  destruct (tm_ho_settle q t) as [q' rc] eqn:E.
  destruct (inbox_step q m (HoSettle t) q' (rc, no_ticket, zero_command) published Hq Hp)
    as (m' & [Hrc Hm] & Hq' & Hp' & Hqueue); [by eapply stage_slot|cbn; by rewrite E|].
  unfold forget_status in Hrc. rewrite Hst, decide_True in Hrc by done. subst rc m'.
  cbn in Hp', Hqueue. rewrite app_nil_r in Hp', Hqueue.
  exists q', (Handoff.forget m t). split; [done|]. split; try done.
  - cbn. by rewrite Ho, <- app_assoc.
  - intros u. cbn. rewrite lookup_delete_Some, Ht; cbn; rewrite list_elem_of_singleton. split; [by intros [? ->]|].
    by intros ?%not_elem_of_nil.
Qed.

(* ------------------------------------------------------------------ *)
(** ** The portal of the system *)

(** Only the pending completion is taken, and none is emitted twice. *)
Record portal_has (p : tm_pc_portal) (pending : ticket) (terminal : tm_pc_result_v1) (phase : od_phase)
    (emitted : list ticket) (g : registry) : Prop := {
  ph_is : portal_is p g;
  ph_incarnation : pp_incarnation p <> 0;
  ph_taken : forall t r, rg_life g !! t = Some (PC_TAKEN, r) <->
    tk_incarnation pending <> 0 /\ t = pending /\ r = terminal;
  ph_emitting : forall t r, phase = Emitting t r -> rg_life g !! t = Some (PC_TAKEN, r) /\ t ∉ emitted;
  ph_once : NoDup emitted;
  ph_emitted : forall t, t ∈ emitted ->
    t ∈ rg_begun g /\ forall st r, rg_life g !! t = Some (st, r) -> st = PC_TAKEN;
}.

Definition provider_op (op : pc_op) : Prop :=
  pc_op_ok op /\ match op with PcTake | PcSettle _ => False | _ => True end.

Lemma portal_step p g op :
  portal_is p g -> pc_op_ok op ->
  exists g', registry_step (len (pp_rows p)) (pp_incarnation p) (pp_provider_generation p) g op
               (pc_step p op).2 g' /\ portal_is (pc_step p op).1 g' /\
    pp_incarnation (pc_step p op).1 = pp_incarnation p.
Proof.
  intros Hp Hop. destruct (pc_step_simulates p g Hp op Hop) as (g' & H & H').
  destruct (pc_step_same p op) as (_ & E & _). by exists g'.
Qed.

Lemma life_slot p g t life :
  portal_is p g -> rg_life g !! t = Some life ->
  0 <= tk_slot t /\ tk_incarnation t = pp_incarnation p /\ t ∈ rg_begun g.
Proof.
  intros Hp H. apply (pi_life _ _ Hp) in H as (i & r & (Hi & -> & Hb & _) & _).
  split; [cbn; lia|]. split; [done|]. apply pc_busy_spec in Hb.
  destruct (pi_order _ _ Hp i r Hi Hb) as (k & _ & Hk). by eapply list_elem_of_lookup_2.
Qed.

(** From [g] to [g'] no ticket is taken, settled or begun again. *)
Definition untaken (g g' : registry) : Prop :=
  (forall t, t ∈ rg_begun g -> t ∈ rg_begun g') /\
  (forall t r, rg_life g' !! t = Some (PC_TAKEN, r) <-> rg_life g !! t = Some (PC_TAKEN, r)) /\
  (forall t life', t ∈ rg_begun g -> rg_life g' !! t = Some life' ->
     exists st r, rg_life g !! t = Some (st, r) /\ (st = PC_TAKEN -> life' = (st, r))).

Lemma untaken_refl g : untaken g g.
Proof. split_and!; try done. intros t [st r] _ H. by exists st, r. Qed.

Lemma untaken_move g op u st r life :
  rg_life g !! u = Some (st, r) -> transition op st r = Some life ->
  untaken g (set_life g (<[u := life]> (rg_life g))).
Proof.
  intros Eu Et. assert (Hst : st <> PC_TAKEN /\ life.1 <> PC_TAKEN).
  { destruct op, st; cbn in Et; by simplify_eq. }
  split; [done|]. cbn. split.
  - intros t r1. rewrite lookup_insert_Some. split; [intros [[<- E]|[_ H]]; [by destruct Hst; subst life|done]|].
    intros H. right. split; [|done]. intros <-. rewrite Eu in H. by destruct Hst; simplify_eq.
  - intros t life' _ [[<- <-]|[_ H]]%lookup_insert_Some; [exists st, r; split; [done|]; by destruct Hst|].
    destruct life' as [st' r1]. by exists st', r1.
Qed.

Lemma provider_untaken cap inc gen g op reply g' :
  (forall t life, rg_life g !! t = Some life -> t ∈ rg_begun g) ->
  provider_op op -> registry_step cap inc gen g op reply g' -> untaken g g'.
Proof.
  intros Hbegun [_ Hop] Hstep. destruct reply as [[rc t'] r'].
  assert (Hsame : g' = g -> untaken g g') by (intros ->; apply untaken_refl).
  assert (Hmove : forall u, match rg_life g !! u with
    | None => rc = TM_PC_ESTALE /\ g' = g
    | Some (state, r) =>
        match transition op state r with
        | Some life => rc = TM_PC_OK /\ g' = set_life g (<[u := life]> (rg_life g))
        | None => rc = TM_PC_EALREADY /\ g' = g
        end
    end -> untaken g g').
  { intros u. destruct (rg_life g !! u) as [[st r]|] eqn:Eu; [|by intros [_ ?]; apply Hsame].
    destruct (transition op st r) as [life|] eqn:Et; [|by intros [_ ?]; apply Hsame].
    intros [_ ->]. by eapply untaken_move. }
  destruct op as [c|u st|u st|u|u| |u|]; cbn [registry_step] in Hstep; try done; try by eapply Hmove.
  - destruct (c =? 0); [by apply Hsame; destruct Hstep|].
    destruct (rg_sealed g); [by apply Hsame; destruct Hstep|].
    destruct (_ =? U64_MAX); [by apply Hsame; destruct Hstep|].
    destruct Hstep as [(_ & Hf & ->)|(_ & _ & ->)]; [|by apply Hsame]. unfold untaken. cbn.
    split; [intros t Ht; apply elem_of_app; by left|]. split.
    + intros t r. rewrite lookup_insert_Some. split; [by intros [[_ [=]]|[_ H]]|].
      intros H. right. split; [|done]. intros <-. by eapply Hf, Hbegun.
    + intros t [st r] Ht [[<- _]|[_ H]]%lookup_insert_Some; [done|by exists st, r].
  - destruct Hstep as [_ ->]. exact (untaken_refl g).
Qed.

Lemma provider_portal p pending terminal phase emitted g op :
  portal_has p pending terminal phase emitted g -> provider_op op ->
  exists g', portal_has (pc_step p op).1 pending terminal phase emitted g'.
Proof.
  intros [Hp Hinc Ht Hem Hn He] Hop.
  destruct (portal_step p g op Hp (proj1 Hop)) as (g' & Hstep & Hp' & Ei). exists g'.
  destruct (provider_untaken _ _ _ g op _ g' (fun t life H => proj2 (proj2 (life_slot p g t life Hp H))) Hop Hstep)
    as (H1 & H2 & H3).
  split; try done; [congruence| | |].
  - intros t r. by rewrite H2.
  - intros t r E. destruct (Hem t r E). split; [by apply H2|done].
  - intros t Hin. destruct (He t Hin) as [Hb Hl]. split; [by apply H1|]. intros st r H.
    destruct (H3 t (st, r) Hb H) as (st0 & r0 & H0 & E). specialize (Hl _ _ H0).
    by injection (E Hl) as -> _.
Qed.

(** Nothing is pending, and the first result that is ready is taken. *)
Lemma taken_portal p pending terminal emitted g p' rc t r :
  portal_has p pending terminal Idle emitted g -> tk_incarnation pending = 0 ->
  tm_pc_take p (SIZEOF_PC_RESULT, TM_PC_ABI_V1) = (p', rc, t, r) ->
  (rc = TM_PC_EBUSY /\ exists g', portal_has p' pending terminal Idle emitted g') \/
  (rc = TM_PC_OK /\ exists g' result, r = Some result /\ portal_has p' t result (Emitting t result) emitted g').
Proof.
  intros [Hp Hinc Ht Hem Hn He] Hz E. destruct (portal_step p g PcTake Hp I) as (g' & Hstep & Hp' & Ei).
  cbn [pc_step] in Hstep, Hp', Ei. rewrite E in Hstep, Hp', Ei. cbn in Hstep, Hp', Ei.
  destruct (list_find (is_ready g) (rg_begun g)) as [[k u]|] eqn:Ef.
  2: { left. destruct Hstep as (-> & -> & ->). split; [done|]. exists g. by split; rewrite ?Ei. }
  right. destruct Hstep as (result & Hu & -> & -> & -> & ->). split; [done|].
  eexists _, result. split; [done|]. apply list_find_Some in Ef as (Hk & _ & _).
  destruct (life_slot p g u _ Hp Hu) as (_ & Eu & Hbu).
  assert (Hfresh : u ∉ emitted).
  { intros Hin. destruct (He u Hin) as [_ Hl]. by specialize (Hl _ _ Hu). }
  split; [exact Hp'|by rewrite Ei| | |done|].
  - intros v w. cbn. rewrite lookup_insert_Some. split.
    + intros [[<- [= <-]]|[_ H]]; [split; [congruence|done]|]. apply Ht in H. by destruct H.
    + intros (_ & -> & ->). by left.
  - intros v w [= <- <-]. split; [cbn; apply lookup_insert_eq|done].
  - intros v Hin. destruct (He v Hin) as [Hb Hl]. split; [done|]. intros st w. cbn.
    rewrite lookup_insert_Some. intros [[<- _]|[_ H]]; [done|]. by eapply Hl.
Qed.

(** What is pending can be settled. *)
Lemma settled_portal p pending terminal phase emitted g :
  portal_has p pending terminal phase emitted g -> tk_incarnation pending <> 0 ->
  exists p' g', tm_pc_settle p pending = (p', TM_PC_OK) /\
    portal_has p' no_ticket zero_result Idle emitted g' /\
    (phase = Emitting pending terminal -> portal_has p' no_ticket zero_result Idle (emitted ++ [pending]) g').
Proof.
  intros [Hp Hinc Ht Hem Hn He] Hnz.
  assert (Hl : rg_life g !! pending = Some (PC_TAKEN, terminal)) by by apply Ht.
  destruct (life_slot p g _ _ Hp Hl) as (Hslot & _ & Hb).
  destruct (portal_step p g (PcSettle pending) Hp Hslot) as (g' & Hstep & Hp' & Ei).
  cbn [pc_step] in Hstep, Hp', Ei. destruct (tm_pc_settle p pending) as [p' rc].
  cbn in Hstep, Hp', Ei. rewrite Hl in Hstep. destruct Hstep as [-> ->].
  exists p'. eexists. split; [done|].
  assert (Hnone : forall t r, delete pending (rg_life g) !! t <> Some (PC_TAKEN, r)).
  { intros t r [Hne H]%lookup_delete_Some. apply Ht in H as (_ & -> & _). done. }
  assert (Hrest : forall t st r, delete pending (rg_life g) !! t = Some (st, r) -> t ∈ emitted -> st = PC_TAKEN).
  { intros t st r [_ H]%lookup_delete_Some Hin. destruct (He t Hin) as [_ H']. by eapply H'. }
  assert (Hhas : forall l, NoDup l -> (forall t, t ∈ l -> t = pending \/ t ∈ emitted) ->
    portal_has p' no_ticket zero_result Idle l (set_life g (delete pending (rg_life g)))).
  { intros l Hnd Hl'. split; try done; [by rewrite Ei| |].
    - intros t r. cbn. split; [by intros ?%Hnone|by intros [[] _]].
    - intros t Hin. cbn. split; [destruct (Hl' t Hin) as [->|Hin']; [done|by apply He]|].
      intros st r H. destruct (Hl' t Hin) as [->|Hin']; [by rewrite lookup_delete_eq in H|]. by eapply Hrest. }
  split; [apply Hhas; [done|by right]|]. intros Hph. destruct (Hem _ _ Hph) as [_ Hfresh]. apply Hhas.
  - apply NoDup_app. split; [done|]. split; [|apply NoDup_singleton].
    intros t Hin ->%list_elem_of_singleton. done.
  - intros t [H|H%list_elem_of_singleton]%elem_of_app; [by right|by left].
Qed.

Lemma portal_phase p pending terminal phase phase' emitted g :
  portal_has p pending terminal phase emitted g -> (forall t r, phase' <> Emitting t r) ->
  portal_has p pending terminal phase' emitted g.
Proof. intros [] H. split; try done. intros t r E. by destruct (H t r). Qed.

(** The callback did not take the result: it stays pending. *)
Lemma undelivered_portal p pending terminal emitted g :
  portal_has p pending terminal (Emitting pending terminal) emitted g ->
  portal_has p pending terminal Idle (emitted ++ [pending]) g.
Proof.
  intros [Hp Hinc Ht Hem Hn He]. destruct (Hem _ _ eq_refl) as [Hl Hfresh]. split; try done.
  - apply NoDup_app. split; [done|]. split; [|apply NoDup_singleton].
    intros t Hin ->%list_elem_of_singleton. done.
  - intros t [H| ->%list_elem_of_singleton]%elem_of_app; [by apply He|].
    split; [by eapply life_slot|]. intros st r. rewrite Hl. by intros [= <- _].
Qed.

(* ------------------------------------------------------------------ *)
(** ** The invariant of the system *)

Definition receipt_ok (o : tm_od_owner) (c : tm_ho_command_v1) (r : tm_od_receipt_v1) : Prop :=
  re_command_kind r = cm_kind c /\ re_correlation r = cm_correlation c /\ (stopping c r -> closed o = true).

Record sys_inv (y : od_sys) (events : list od_event) : Prop := {
  si_inbox : exists m, inbox_has (sy_inbox y) (sy_phase y) (published_of events) (answered_of events) m;
  si_portal : exists g, portal_has (sy_portal y) (od_pending_completion (sy_owner y))
    (od_pending_terminal (sy_owner y)) (sy_phase y) (emitted_of events) g;
  si_executor : exists clean f submitted rest,
    ex_inv clean (sy_executor y) (sy_store y) f (shown_of events) submitted rest;
  si_in_step : od_in_step (sy_owner y) = negb (match sy_phase y with Idle => true | _ => false end);
  si_closed : closed (sy_owner y) = true -> hq_sealed (sy_inbox y) = true /\ ex_stopped (sy_executor y) = true;
  si_answered : forall t c r, sy_phase y = Answered t c r -> receipt_ok (sy_owner y) c r;
  si_receipts : forall t c r, OdReceipt t c r ∈ events -> receipt_ok (sy_owner y) c r;
}.

(** What a step adds. *)
Record steps_to (y : od_sys) (events : list od_event) (y' : od_sys) (new : list od_event) : Prop := {
  so_inv : sys_inv y' (events ++ new);
  so_order : fo_next_order (ex_fanout (sy_executor y')) <= fo_next_order (ex_fanout (sy_executor y)) + 1;
  so_stays : closed (sy_owner y) = true -> closed (sy_owner y') = true;
  so_nothing : closed (sy_owner y) = true ->
    published_of new = [] /\ sourced_of (shown_of new) = [] /\ noticed_of new = [];
}.

Lemma published_app l l' : published_of (l ++ l') = published_of l ++ published_of l'.
Proof. apply omap_app. Qed.
Lemma answered_app l l' : answered_of (l ++ l') = answered_of l ++ answered_of l'.
Proof. apply omap_app. Qed.
Lemma shown_app l l' : shown_of (l ++ l') = shown_of l ++ shown_of l'.
Proof. apply omap_app. Qed.
Lemma emitted_app l l' : emitted_of (l ++ l') = emitted_of l ++ emitted_of l'.
Proof. apply omap_app. Qed.

Lemma receipt_ok_mono o o' c r :
  (closed o = true -> closed o' = true) -> receipt_ok o c r -> receipt_ok o' c r.
Proof. intros H (H1 & H2 & H3). split; [done|]. split; [done|]. auto. Qed.

(** A step that shows nothing and leaves the executor and the store alone. *)
Lemma silent_step y events o q p phase :
  sys_inv y events ->
  (exists m, inbox_has q phase (published_of events) (answered_of events) m) ->
  (exists g, portal_has p (od_pending_completion o) (od_pending_terminal o) phase (emitted_of events) g) ->
  od_in_step o = negb (match phase with Idle => true | _ => false end) ->
  closed o = closed (sy_owner y) -> (hq_sealed (sy_inbox y) = true -> hq_sealed q = true) ->
  (forall t c r, phase = Answered t c r -> sy_phase y = Answered t c r) ->
  steps_to y events (Build_od_sys o q (sy_executor y) (sy_store y) p phase) [].
Proof.
  intros [] Hm Hg Hin Hcl Hq Hph. split; cbn [sy_owner sy_inbox sy_executor sy_store sy_portal sy_phase];
    rewrite ?app_nil_r; try done; [|lia|congruence].
  split; try done; cbn [sy_owner sy_inbox sy_executor sy_store sy_portal sy_phase].
  - rewrite Hcl. intros H. destruct (si_closed0 H). by split; [apply Hq|].
  - intros t c r H. eapply receipt_ok_mono; [|eapply si_answered0; by apply Hph]. congruence.
  - intros t c r H. eapply receipt_ok_mono; [|by eapply si_receipts0]. congruence.
Qed.

Lemma same_step y events : sys_inv y events -> steps_to y events y [].
Proof. intros H. split; rewrite ?app_nil_r; try done. lia. Qed.

Lemma begin_step y events receipt :
  sys_inv y events -> exists y', od_sys_step y (OdBegin receipt) = Ok (y', []) /\ steps_to y events y' [].
Proof.
  intros Hi. destruct y as [o q x s p phase]. cbn [od_sys_step]. unfold od_begin.
  assert (Hsame : steps_to (Build_od_sys o q x s p phase) events (Build_od_sys o q x s p phase) [])
    by by apply same_step.
  destruct (negb _); [by eexists|]. destruct (negb _); [by eexists|].
  destruct (od_in_step o) eqn:Es; [by eexists|].
  pose proof (si_in_step _ _ Hi) as Hin. cbn in Hin. rewrite Es in Hin. destruct phase; try done.
  destruct (si_inbox _ _ Hi) as [m Hm]. destruct (si_portal _ _ Hi) as [g Hg]. cbn in Hm, Hg.
  destruct (tm_ho_take q) as [[[q' rc] t] c] eqn:Et.
  assert (Hsealed : hq_sealed q' = hq_sealed q).
  { unfold tm_ho_take in Et. repeat case_match; by simplify_eq. }
  destruct (taken_inbox _ _ _ _ _ _ _ _ Hm Et) as [(-> & -> & _)|(-> & m' & Hm')].
  - eexists. split; [done|]. apply (silent_step _ events (set_in_step o false) q p Idle Hi); try done; [by exists m|by exists g].
  - eexists. split; [done|]. apply (silent_step _ events (set_in_step o true) q' p (Commanded t c) Hi); try done;
      [by exists m'|exists g; by eapply portal_phase|cbn; congruence].
Qed.

Lemma in_hand_command q phase published answered m t c :
  inbox_has q phase published answered m -> (t, c) ∈ in_hand phase -> command_ok c.
Proof.
  intros [_ _ Ho _ Hc] Hin. rewrite Forall_forall in Hc. apply (Hc (t, c)). rewrite Ho.
  apply elem_of_app. right. apply elem_of_app. by left.
Qed.

Lemma execute_step y events call :
  sys_inv y events -> od_op_ok y (OdExecute call) -> fo_next_order (ex_fanout (sy_executor y)) < U32_MAX ->
  exists y' new, od_sys_step y (OdExecute call) = Ok (y', new) /\ steps_to y events y' new.
Proof.
  intros Hi Hok Hn. pose proof Hi as []. destruct y as [o q x s p phase]. cbn in *.
  assert (Hsame : steps_to (Build_od_sys o q x s p phase) events (Build_od_sys o q x s p phase) [])
    by by apply same_step.
  destruct phase as [|t c|t c r|t r]; [by eexists _, []| |by eexists _, []..].
  destruct si_inbox0 as [m Hm]. destruct si_portal0 as [g Hg].
  destruct si_executor0 as (clean & f & submitted & rest & Hx).
  destruct (in_hand_command _ _ _ _ _ t c Hm ltac:(left)) as [Hr Hb].
  destruct (od_execute_spec o q clean x s f _ submitted rest c call Hx Hok Hb Hr Hn)
    as (o' & q' & x' & s' & r & new & clean' & -> & [Hadv He Hk Hcor (Q1 & Q2 & Q3) Hst Hcl]);
    [intros H; by apply si_closed0|].
  cbn [mbind res_bind]. eexists _, new. split; [done|].
  destruct Hadv as (clean2 & f' & sub' & rest' & Hx' & _ & Hord).
  assert (Hrec : forall c r, receipt_ok o c r -> receipt_ok o' c r).
  { intros c1 r1. apply receipt_ok_mono, He. }
  split; cbn [sy_owner sy_inbox sy_executor sy_store sy_portal sy_phase]; [|lia|apply He|].
  - split; cbn [sy_owner sy_inbox sy_executor sy_store sy_portal sy_phase].
    + rewrite published_app, answered_app, Q1, Q2, !app_nil_r. by eapply executed_inbox.
    + rewrite emitted_app, Q3, app_nil_r, (xd_pending _ _ _ _ _ _ He), (xd_terminal _ _ _ _ _ _ He).
      exists g. by eapply portal_phase.
    + rewrite shown_app. by exists clean2, f', sub', rest'.
    + by rewrite (xd_in_step _ _ _ _ _ _ He).
    + intros H. destruct (xd_closes _ _ _ _ _ _ He H) as [H'|]; [|done]. destruct (si_closed0 H') as [H1 H2].
      split; [|by apply He]. by destruct (xd_inbox _ _ _ _ _ _ He) as [-> | ->].
    + by intros t1 c1 r1 [= <- <- <-].
    + intros t1 c1 r1 [H|H]%elem_of_app; [by eapply Hrec, si_receipts0|].
      exfalso. assert (Hin : (t1, c1) ∈ answered_of new).
      { unfold answered_of. apply list_elem_of_omap. by exists (OdReceipt t1 c1 r1). }
      rewrite Q2 in Hin. by apply not_elem_of_nil in Hin.
  - intros H. by destruct (Hcl H).
Qed.

Lemma finish_step y events :
  sys_inv y events -> exists y' new, od_sys_step y OdFinish = Ok (y', new) /\ steps_to y events y' new.
Proof.
  intros Hi. pose proof Hi as []. destruct y as [o q x s p phase]. cbn in *.
  assert (Hsame : steps_to (Build_od_sys o q x s p phase) events (Build_od_sys o q x s p phase) [])
    by by apply same_step.
  destruct phase as [|t c|t c r|t r]; [by eexists _, []..| |by eexists _, []].
  destruct si_inbox0 as [m Hm]. destruct si_portal0 as [g Hg].
  destruct (settled_inbox _ _ _ _ _ _ _ Hm) as (q' & m' & E & Hm'). unfold od_finish. rewrite E.
  rewrite bool_decide_true by done. eexists _, _. split; [done|].
  assert (Hsealed : hq_sealed q' = hq_sealed q).
  { unfold tm_ho_settle, ho_release in E. repeat case_match; by simplify_eq. }
  split; cbn [sy_owner sy_inbox sy_executor sy_store sy_portal sy_phase]; [|lia|done|done].
  split; cbn [sy_owner sy_inbox sy_executor sy_store sy_portal sy_phase].
  - rewrite published_app, answered_app. cbn. rewrite app_nil_r. by exists m'.
  - rewrite emitted_app. cbn. rewrite app_nil_r. exists g. by eapply portal_phase.
  - rewrite shown_app. cbn. by rewrite app_nil_r.
  - done.
  - intros H. destruct (si_closed0 H). split; congruence.
  - done.
  - intros t1 c1 r1 [H|H%list_elem_of_singleton]%elem_of_app; [by eapply si_receipts0|].
    injection H as -> -> ->. by eapply si_answered0.
Qed.

Lemma producer_step y events op :
  sys_inv y events -> producer_op op ->
  exists y' new, od_sys_step y (OdProducer op) = Ok (y', new) /\ steps_to y events y' new.
Proof.
  intros Hi Hop. pose proof Hi as []. destruct y as [o q x s p phase]. cbn in *.
  destruct (ho_step q op) as [q' reply] eqn:E. eexists _, _. split; [done|].
  destruct si_inbox0 as [m Hm]. destruct (producer_inbox _ _ _ _ _ _ _ _ Hm Hop E) as (m' & Hm' & Hacc).
  assert (Hq : hq_sealed q = true -> hq_sealed q' = true /\ accepted op reply = []).
  { intros H. pose proof (ii_sealed _ _ (ih_is _ _ _ _ _ Hm)) as Es. rewrite H in Es. specialize (Hacc Es).
    split.
    - destruct op; cbn in E; unfold tm_ho_reserve, tm_ho_publish, tm_ho_abort, tm_ho_take, tm_ho_settle,
        tm_ho_seal, ho_release in E; repeat case_match; by simplify_eq.
    - by destruct op as [|? [?|]|? | |?|], reply as [[[] ?] ?]. }
  assert (Hothers : emitted_of (accepted op reply) = [] /\ answered_of (accepted op reply) = [] /\
    shown_of (accepted op reply) = [] /\ forall t c r, OdReceipt t c r ∉ accepted op reply).
  { destruct op as [|? [?|]|? | |?|], reply as [[[] ?] ?]; cbn; split_and!; try done;
      intros ???; rewrite ?list_elem_of_singleton; first [apply not_elem_of_nil|done]. }
  destruct Hothers as (Q1 & Q2 & Q3 & Q4).
  split; cbn [sy_owner sy_inbox sy_executor sy_store sy_portal sy_phase]; [|lia|done|].
  - split; cbn [sy_owner sy_inbox sy_executor sy_store sy_portal sy_phase];
      rewrite ?published_app, ?answered_app, ?emitted_app, ?shown_app, ?Q1, ?Q2, ?Q3, ?app_nil_r; try done.
    + by exists m'.
    + intros H. destruct (si_closed0 H) as [Hs Hst]. split; [by apply Hq|done].
    + intros t1 c1 r1 [H|H]%elem_of_app; [by eapply si_receipts0|by apply Q4 in H].
  - intros H. destruct (si_closed0 H) as [Hs _]. by destruct (Hq Hs) as [_ ->].
Qed.

Lemma provider_step y events op :
  sys_inv y events -> provider_op op ->
  exists y' new, od_sys_step y (OdProvider op) = Ok (y', new) /\ steps_to y events y' new.
Proof.
  intros Hi Hop. destruct (si_inbox _ _ Hi) as [m Hm]. destruct (si_portal _ _ Hi) as [g Hg].
  destruct (provider_portal _ _ _ _ _ _ op Hg Hop) as [g' Hg'].
  pose proof (si_in_step _ _ Hi) as Hin. destruct y as [o q x s p phase]. cbn in *.
  eexists _, []. split; [done|].
  apply (silent_step _ events o q _ phase Hi); try done; [by exists m|by exists g'].
Qed.

Lemma executor_step y events op :
  sys_inv y events -> ex_op_ok (sy_executor y) op -> fo_next_order (ex_fanout (sy_executor y)) < U32_MAX ->
  exists y' new, od_sys_step y (OdExecutor op) = Ok (y', new) /\ steps_to y events y' new.
Proof.
  intros Hi Hop Hn. pose proof Hi as []. destruct y as [o q x s p phase]. cbn in *.
  destruct si_executor0 as (clean & f & submitted & rest & Hx).
  destruct (ex_step_spec clean x s f _ submitted rest op Hx Hop Hn) as (x' & s' & rc & new & E & Ha).
  rewrite E. cbn [mbind res_bind]. eexists _, _. split; [done|].
  destruct Ha as (f' & sub' & rest' & Hx' & _ & Hord). destruct (shown_quiet new) as (Q1 & Q2 & Q3).
  split; cbn [sy_owner sy_inbox sy_executor sy_store sy_portal sy_phase]; [|lia|done|].
  - split; cbn [sy_owner sy_inbox sy_executor sy_store sy_portal sy_phase];
      rewrite ?published_app, ?answered_app, ?emitted_app, ?Q1, ?Q2, ?Q3, ?app_nil_r; try done.
    + rewrite shown_app, shown_of_shown. by eexists _, f', sub', rest'.
    + intros H. destruct (si_closed0 H) as [Hs Hst]. split; [done|]. by eapply step_stopped in E as [? _].
    + intros t1 c1 r1 [H|H]%elem_of_app; [by eapply si_receipts0|]. unfold shown in H.
      by apply list_elem_of_fmap in H as (? & [=] & _).
  - intros H. destruct (si_closed0 H) as [_ Hst]. eapply step_stopped in E as [_ E]; [|done].
    rewrite shown_of_shown. by split_and!; [| |apply shown_unnoticed].
Qed.

Lemma bind_step y events :
  sys_inv y events -> exists y' new, od_sys_step y OdBind = Ok (y', new) /\ steps_to y events y' new.
Proof.
  intros Hi. destruct (si_inbox _ _ Hi) as [m Hm]. destruct (si_portal _ _ Hi) as [g Hg].
  pose proof (si_in_step _ _ Hi) as Hin. destruct y as [o q x s p phase]. cbn in *.
  assert (Hsame : steps_to (Build_od_sys o q x s p phase) events (Build_od_sys o q x s p phase) [])
    by by apply same_step.
  unfold tm_od_bind_completion. destruct (od_in_step o) eqn:Es; [by eexists _, []|].
  destruct (od_completion_portal o); [by eexists _, []|]. eexists _, []. split; [done|].
  apply (silent_step _ events _ q p phase Hi); try done; [by exists m|by exists g].
Qed.

Lemma pending_incarnation p pending terminal phase emitted g t r :
  portal_has p pending terminal phase emitted g -> phase = Emitting t r ->
  tk_incarnation pending <> 0 /\ t = pending /\ r = terminal.
Proof. intros Hg E. apply (ph_taken _ _ _ _ _ _ Hg). by apply (ph_emitting _ _ _ _ _ _ Hg). Qed.

Lemma begin_completion_step y events result :
  sys_inv y events ->
  exists y' new, od_sys_step y (OdBeginCompletion result) = Ok (y', new) /\ steps_to y events y' new.
Proof.
  intros Hi. destruct (si_inbox _ _ Hi) as [m Hm]. destruct (si_portal _ _ Hi) as [g Hg].
  pose proof (si_in_step _ _ Hi) as Hin. destruct y as [o q x s p phase]. cbn in *.
  unfold od_begin_completion.
  assert (Hsame : steps_to (Build_od_sys o q x s p phase) events (Build_od_sys o q x s p phase) [])
    by by apply same_step.
  destruct (negb (result.2 =? _)); [by eexists _, _|]. destruct (negb (result.1 =? _)); [by eexists _, _|].
  destruct (negb (od_completion_portal o)); [by eexists _, _|].
  destruct (od_in_step o) eqn:Es; cbn [orb]; [by eexists _, _|].
  destruct (truth _) eqn:Ep; [by eexists _, _|]. destruct phase; try done.
  assert (Hz : tk_incarnation (od_pending_completion o) = 0) by (unfold truth in Ep; lia).
  destruct (tm_pc_take p _) as [[[p' rc] t] r] eqn:Et.
  destruct (taken_portal _ _ _ _ _ _ _ _ _ Hg Hz Et) as [[-> [g' Hg']]|[-> (g' & terminal & -> & Hg')]].
  - eexists _, []. split; [done|].
    apply (silent_step _ events (set_in_step o false) q p' Idle Hi); try done; [by exists m|by exists g'].
  - eexists _, []. split; [done|].
    apply (silent_step _ events (set_completion (set_in_step o true) t terminal) q p' (Emitting t terminal) Hi);
      try done; [|by exists g'].
    exists m. by destruct Hm.
Qed.

(** The state after the callback, whatever the portal says. *)
Lemma emitted_step y events o p t r :
  sys_inv y events -> sy_phase y = Emitting t r -> od_in_step o = false ->
  closed o = closed (sy_owner y) ->
  (exists g, portal_has p (od_pending_completion o) (od_pending_terminal o) Idle (emitted_of events ++ [t]) g) ->
  steps_to y events (Build_od_sys o (sy_inbox y) (sy_executor y) (sy_store y) p Idle) [OdEmitted t r].
Proof.
  intros [] Hph Hin Hcl Hg. destruct si_inbox0 as [m Hm].
  split; cbn [sy_owner sy_inbox sy_executor sy_store sy_portal sy_phase]; [|lia|congruence|done].
  split; cbn [sy_owner sy_inbox sy_executor sy_store sy_portal sy_phase].
  - rewrite published_app, answered_app. cbn. rewrite !app_nil_r. exists m.
    rewrite Hph in Hm. by destruct Hm.
  - by rewrite emitted_app.
  - rewrite shown_app. cbn. by rewrite app_nil_r.
  - done.
  - by rewrite Hcl.
  - done.
  - intros t1 c1 r1 [H|H%list_elem_of_singleton]%elem_of_app; [|done].
    eapply receipt_ok_mono; [|by eapply si_receipts0]. congruence.
Qed.

Lemma emit_step y events emitted :
  sys_inv y events ->
  exists y' new, od_sys_step y (OdEmit emitted) = Ok (y', new) /\ steps_to y events y' new.
Proof.
  intros Hi. destruct (si_portal _ _ Hi) as [g Hg].
  destruct y as [o q x s p phase]. cbn [od_sys_step sy_owner sy_portal sy_phase] in *.
  assert (Hsame : steps_to (Build_od_sys o q x s p phase) events (Build_od_sys o q x s p phase) [])
    by by apply same_step.
  destruct phase as [|t c|t c r|t r]; [by eexists _, []..|].
  destruct (pending_incarnation _ _ _ _ _ _ t r Hg eq_refl) as (Hnz & -> & ->). unfold od_emit.
  destruct (truth emitted).
  - eexists _, _. split; [done|]. apply (emitted_step _ events (set_in_step o false) p _ _ Hi); try done.
    exists g. by apply undelivered_portal.
  - destruct (settled_portal _ _ _ _ _ _ Hg Hnz) as (p' & g' & -> & _ & Hg'). eexists _, _. split; [done|].
    apply (emitted_step _ events (set_in_step (set_completion o no_ticket zero_result) false) p' _ _ Hi); try done.
    exists g'. by apply Hg'.
Qed.

Lemma settle_pending_spec y events :
  sys_inv y events -> od_in_step (sy_owner y) = false ->
  tk_incarnation (od_pending_completion (sy_owner y)) <> 0 ->
  exists p' g', tm_od_settle_pending_completion (sy_owner y) (sy_portal y) =
      (set_completion (sy_owner y) no_ticket zero_result, p', TM_OD_OK) /\
    portal_has p' no_ticket zero_result Idle (emitted_of events) g'.
Proof.
  intros Hi Hin Hnz. destruct (si_portal _ _ Hi) as [g Hg]. unfold tm_od_settle_pending_completion.
  rewrite Hin. replace (_ =? 0) with false by lia.
  destruct (settled_portal _ _ _ _ _ _ Hg Hnz) as (p' & g' & -> & Hg' & _). by exists p', g'.
Qed.

Lemma settle_pending_step y events :
  sys_inv y events ->
  exists y' new, od_sys_step y OdSettlePending = Ok (y', new) /\ steps_to y events y' new.
Proof.
  intros Hi. destruct (si_inbox _ _ Hi) as [m Hm]. pose proof (si_in_step _ _ Hi) as Hin.
  pose proof (settle_pending_spec _ _ Hi) as Hs. pose proof (same_step _ _ Hi) as Hsame.
  destruct y as [o q x s p phase]. cbn [od_sys_step sy_owner sy_inbox sy_portal sy_phase] in *.
  destruct (od_in_step o) eqn:Es; [unfold tm_od_settle_pending_completion; rewrite Es; by eexists _, _|].
  destruct (decide (tk_incarnation (od_pending_completion o) = 0)) as [Hz|Hnz].
  { unfold tm_od_settle_pending_completion. rewrite Es, Hz. by eexists _, _. }
  destruct (Hs eq_refl Hnz) as (p' & g' & -> & Hg'). destruct phase; try done.
  eexists _, []. split; [done|].
  apply (silent_step _ events (set_completion o no_ticket zero_result) q p' Idle Hi); try done; [by exists m|by exists g'].
Qed.

Lemma od_step_spec y events op :
  sys_inv y events -> od_op_ok y op -> fo_next_order (ex_fanout (sy_executor y)) < U32_MAX ->
  exists y' new, od_sys_step y op = Ok (y', new) /\ steps_to y events y' new.
Proof.
  intros Hi Hop Hn. destruct op as [receipt|call| | |result|emitted| |op|op|op].
  - destruct (begin_step y events receipt Hi) as (y' & H). by exists y', [].
  - by apply execute_step.
  - by apply finish_step.
  - by apply bind_step.
  - by apply begin_completion_step.
  - by apply emit_step.
  - by apply settle_pending_step.
  - by apply producer_step.
  - by apply provider_step.
  - by apply executor_step.
Qed.

Lemma od_run_spec y events ops :
  sys_inv y events -> od_run_ok y ops -> fo_next_order (ex_fanout (sy_executor y)) + len ops <= U32_MAX ->
  exists y' new, od_run y ops = Ok (y', new) /\ sys_inv y' (events ++ new) /\
    fo_next_order (ex_fanout (sy_executor y')) <= fo_next_order (ex_fanout (sy_executor y)) + len ops /\
    (closed (sy_owner y) = true ->
       published_of new = [] /\ sourced_of (shown_of new) = [] /\ noticed_of new = []).
Proof.
  revert y events. induction ops as [|op ops IH]; intros y events Hi Hok Hn.
  { exists y, []. split; [done|]. split; [by rewrite app_nil_r|]. split; [unfold len; cbn; lia|done]. }
  destruct Hok as [Hop Hok]. rewrite len_cons in Hn |- *. pose proof (len_nonneg ops).
  destruct (od_step_spec y events op Hi Hop ltac:(lia)) as (y1 & new1 & E & [Hi1 Ho1 Hc1 Hn1]).
  rewrite E in Hok. cbn [od_run]. rewrite E. cbn [mbind res_bind].
  destruct (IH y1 (events ++ new1) Hi1 Hok ltac:(lia)) as (y2 & new2 & -> & Hi2 & Ho2 & Hc2). cbn [mbind res_bind].
  exists y2, (new1 ++ new2). split; [done|]. split; [by rewrite app_assoc|]. split; [lia|]. intros Hcl.
  destruct (Hc2 (Hc1 Hcl)) as (P2 & S2 & N2). destruct (Hn1 Hcl) as (P1 & S1 & N1).
  rewrite published_app, P1, P2, shown_app, sourced_app, S1, S2. unfold noticed_of in *.
  by rewrite omap_app, N1, N2.
Qed.

Lemma od_run_ok_app y ops ops' y' new :
  od_run_ok y (ops ++ ops') -> od_run y ops = Ok (y', new) -> od_run_ok y' ops'.
Proof.
  revert y new. induction ops as [|op ops IH]; intros y new Hok E; [by injection E as <- _|].
  destruct Hok as [_ Hok]. cbn [od_run] in E. apply bind_Ok in E as ([y1 new1] & E1 & E).
  rewrite E1 in Hok. apply bind_Ok in E as ([y2 new2] & E2 & [= <- _]). by eapply IH.
Qed.

Lemma od_run_ok_prefix y ops ops' : od_run_ok y (ops ++ ops') -> od_run_ok y ops.
Proof.
  revert y. induction ops as [|op ops IH]; intros y; [done|]. intros [Hop Hok]. split; [done|].
  destruct (od_sys_step y op) as [[y1 new]| |]; [|done..]. by apply IH.
Qed.

(* ------------------------------------------------------------------ *)
(** ** Creation and destruction *)

(** A system whose parts have just been created. *)
Definition od_created (y : od_sys) : Prop :=
  (exists cfg mem, tm_od_create (Some cfg) mem = (TM_OD_OK, Some (sy_owner y))) /\
  (exists counter cfg mem next, 0 <= hc_capacity cfg /\
     tm_ho_create counter (Some cfg) mem = (next, TM_HO_OK, Some (sy_inbox y))) /\
  (exists counter p cfg bindings mem next, ex_config_ok cfg mem /\
     tm_ex_create counter p cfg bindings mem = Ok (next, TM_EX_OK, Some (sy_executor y))) /\
  fs_reachable (sy_store y) /\
  (exists counter cfg mem next, 0 <= pc_capacity cfg /\
     tm_pc_create counter (Some cfg) mem = (next, TM_PC_OK, Some (sy_portal y))) /\
  sy_phase y = Idle.

Lemma created_portal counter cfg mem next p :
  tm_pc_create counter (Some cfg) mem = (next, TM_PC_OK, Some p) -> 0 <= pc_capacity cfg ->
  portal_has p no_ticket zero_result Idle [] empty_registry.
Proof.
  intros E Hc. destruct (pc_create_is _ _ _ _ _ E Hc) as (Hp & _ & Ei & _). split; try done.
  - rewrite Ei. unfold tm_pc_create in E. repeat case_match; simplify_eq. lia.
  - intros t r. cbn. rewrite lookup_empty. split; [done|]. by intros [].
  - constructor.
Qed.

Lemma created_inv y :
  od_created y -> sys_inv y [] /\ fo_next_order (ex_fanout (sy_executor y)) = 1.
Proof.
  intros ((ocfg & omem & Eo) & (hc & hcfg & hmem & hn & Hh & Eh) & (xc & p & xcfg & bindings & xmem & xn & Hx & Ex)
    & Hs & (pc & pcfg & pmem & pn & Hpc & Ep) & Eph).
  destruct (ex_create_inv _ _ _ _ _ _ _ _ Ex Hx (fs_reachable_wf _ Hs)) as [Hi Ho]. split; [|done].
  assert (Eowner : od_pending_completion (sy_owner y) = no_ticket /\ od_pending_terminal (sy_owner y) = zero_result /\
    od_in_step (sy_owner y) = false /\ closed (sy_owner y) = false).
  { unfold tm_od_create in Eo. repeat case_match; simplify_eq. by destruct y; cbn in *; subst. }
  destruct Eowner as (E1 & E2 & E3 & E4). split; rewrite ?Eph; try done.
  - destruct (create_is _ _ _ _ _ Eh Hh) as (Hq & _ & _). exists empty_mailbox. split; try done.
    + split; cbn; [done|by intros t ?%not_elem_of_nil|by intros t ?%not_elem_of_nil|constructor].
    + intros t. cbn. rewrite lookup_empty. split; [done|by intros ?%not_elem_of_nil].
  - rewrite E1, E2. exists empty_registry. by eapply created_portal.
  - by exists true, (new_fan (xc_fanout xcfg)), [], [].
  - by rewrite E4.
  - by intros t c r ?%not_elem_of_nil.
Qed.

Lemma ho_drained rows :
  (ho_count HO_RESERVED rows =? 0) && (ho_count HO_READY rows =? 0) && (ho_count HO_TAKEN rows =? 0) =
  negb (existsb (fun r => negb (bool_decide (hr_state r = HO_FREE))) rows).
Proof.
  unfold ho_count. induction rows as [|r rows IH]; [done|]. cbn [existsb]. rewrite !filter_cons.
  pose proof (fun st => len_nonneg (filter (fun r => hr_state r = st) rows)) as H.
  pose proof (H HO_RESERVED). pose proof (H HO_READY). pose proof (H HO_TAKEN).
  destruct (hr_state r) eqn:E; rewrite ?decide_False, ?decide_True by done; rewrite ?len_cons; cbn [negb orb];
    first [rewrite bool_decide_true by done|rewrite bool_decide_false by done]; cbn [negb orb]; [exact IH|lia..].
Qed.

Lemma pc_drained rows :
  negb (truth (pc_count PC_INFLIGHT rows) || truth (pc_count PC_CANCEL_PENDING rows) ||
        truth (pc_count PC_READY rows) || truth (pc_count PC_TAKEN rows)) =
  negb (existsb (fun r => negb (bool_decide (pr_state r = PC_FREE))) rows).
Proof.
  unfold pc_count, truth. induction rows as [|r rows IH]; [done|]. cbn [existsb]. rewrite !filter_cons.
  pose proof (fun st => len_nonneg (filter (fun r => pr_state r = st) rows)) as H.
  pose proof (H PC_INFLIGHT). pose proof (H PC_CANCEL_PENDING). pose proof (H PC_READY). pose proof (H PC_TAKEN).
  destruct (pr_state r) eqn:E; rewrite ?decide_False, ?decide_True by done; rewrite ?len_cons; cbn [negb orb];
    first [rewrite bool_decide_true by done|rewrite bool_decide_false by done]; cbn [negb orb]; [exact IH|lia..].
Qed.

(** The owner can be destroyed with its inbox and its portal. *)
Lemma od_destroy_iff o q p :
  tm_od_destroy o q p = TM_OD_OK <->
  od_in_step o = false /\ tk_incarnation (od_pending_completion o) = 0 /\ tm_ho_destroy q = TM_HO_OK /\
  (od_completion_portal o = true -> tm_pc_destroy p = TM_PC_OK).
Proof.
  unfold tm_od_destroy, truth. destruct (od_in_step o); cbn [orb]; [by split; [|intros []]|].
  destruct (tk_incarnation _ =? 0) eqn:Ez; cbn [negb]; [|split; [done|intros (_ & ? & _); lia]].
  cbn [tm_ho_snapshot fst snd]. unfold tm_ho_snapshot, tm_pc_snapshot. cbn [fst snd].
  rewrite !Z.eqb_refl. cbn [negb hs_sealed hs_drained ps_sealed ps_drained].
  rewrite ho_drained, pc_drained. unfold tm_ho_destroy, tm_pc_destroy.
  assert (tk_incarnation (od_pending_completion o) = 0) as -> by lia.
  destruct (hq_sealed q); cbn [negb orb]; [|by split; [|intros (_ & _ & ? & _)]].
  destruct (existsb _ (hq_rows q)); cbn [negb orb]; [by split; [|intros (_ & _ & ? & _)]|].
  destruct (od_completion_portal o); [|by split_and!].
  destruct (pp_sealed p); cbn [negb orb]; [|split; [done|intros (_ & _ & _ & H); by specialize (H eq_refl)]].
  destruct (existsb _ (pp_rows p)); cbn [negb]; [split; [done|intros (_ & _ & _ & H); by specialize (H eq_refl)]|].
  by split_and!.
Qed.

Lemma od_created_run y ops :
  od_created y -> od_run_ok y ops -> len ops < U32_MAX ->
  exists y' events, od_run y ops = Ok (y', events) /\ sys_inv y' events.
Proof.
  intros Hy Hok Hlen. destruct (created_inv y Hy) as [Hi Ho].
  destruct (od_run_spec y [] ops Hi Hok ltac:(lia)) as (y' & events & E & Hi' & _). by exists y', events.
Qed.

(** What is queued is drained exactly when nothing can be taken. *)
Lemma take_empty q m : inbox_is q m -> (tm_ho_take q).1.1.2 = TM_HO_EBUSY <-> mb_queue m = [].
Proof.
  intros Hq. destruct (tm_ho_take q) as [[[q' rc] t] c] eqn:E.
  pose proof (Handoff.take_step q m q' rc t c Hq E) as H. cbn.
  destruct (mb_queue m) as [|[t0 c0] queue]; [by destruct H as [-> _]|]. by destruct H as [-> _].
Qed.

(** The row of a taken result and its life in the registry. *)
Lemma taken_row p g i r :
  portal_is p g -> pp_rows p !! i = Some r -> pr_state r = PC_TAKEN ->
  exists t, t = ticket_of (pp_incarnation p) i r /\ rg_life g !! t = Some (PC_TAKEN, pr_result r).
Proof.
  intros Hp Hr Hst. exists (ticket_of (pp_incarnation p) i r). split; [done|].
  assert (Hb : row_busy r = true) by (apply pc_busy_spec; by rewrite Hst).
  apply (pi_life _ _ Hp). exists i, r. split; [|unfold life_of; by rewrite Hst].
  destruct (Forall_lookup_1 _ _ _ _ (pi_rows _ _ Hp) Hr) as [_ Hg]. specialize (Hg Hb).
  by split_and!; try lia.
Qed.

(** Nothing is in use in an inbox that can be destroyed. *)
Lemma destroyed_empty q m : inbox_is q m -> tm_ho_destroy q = TM_HO_OK -> mb_queue m = [].
Proof.
  intros Hq [_ He]%(destroy_spec q m Hq). apply (take_empty q m Hq).
  apply (tracks_empty stage_of stage_busy _ _ _ (ii_rows _ _ Hq) (ii_stage _ _ Hq)) in He.
  apply (take_empty q m Hq). destruct (mb_queue m) as [|[t c] queue] eqn:Eq; [done|]. exfalso.
  destruct (ii_queue _ _ Hq) as (os & Hos & _). rewrite Eq in Hos. inv Hos as [|? o ? ? (i & r & (Hi & _ & Hb & _) & _) _].
  assert (Hx : existsb row_busy (hq_rows q) = true).
  { apply existsb_exists. exists r. split; [apply list_elem_of_In; by eapply list_elem_of_lookup_2|done]. }
  congruence.
Qed.

(* ------------------------------------------------------------------ *)
(** ** Properties *)

(** C22: Every command is answered once, in the order of publication.
    Whatever the owner, the producers and the providers do in between and whatever
    the callbacks return, every call completes; the published commands are those
    that were answered, then the one in hand, then those that wait, and nothing
    waits exactly when the inbox is empty; a receipt bears the kind and the
    correlation of its command; and the sinks are shown frames of the source
    that every processor saw, in order and unchanged. *)
Theorem dispatch_answers y ops :
  od_created y -> od_run_ok y ops -> len ops < U32_MAX ->
  exists y' events, od_run y ops = Ok (y', events) /\
    (exists waiting, published_of events = answered_of events ++ in_hand (sy_phase y') ++ waiting /\
       (waiting = [] <-> (tm_ho_take (sy_inbox y')).1.1.2 = TM_HO_EBUSY)) /\
    (forall t c r, OdReceipt t c r ∈ events ->
       re_command_kind r = cm_kind c /\ re_correlation r = cm_correlation c) /\
    forall i j, (i < length (ex_sinks (sy_executor y')))%nat ->
      (j < length (ex_processors (sy_executor y')))%nat ->
      sublist (delivered_of i (shown_of events)) (seen_of j (shown_of events)) /\
      prefix (seen_of j (shown_of events)) (sourced_of (shown_of events)).
Proof.
  intros Hy Hok Hlen. destruct (od_created_run y ops Hy Hok Hlen) as (y' & events & E & Hi).
  exists y', events. split; [done|]. destruct (si_inbox _ _ Hi) as [m Hm]. split; [|split].
  - exists (mb_queue m). split; [apply Hm|]. by rewrite (take_empty _ _ (ih_is _ _ _ _ _ Hm)).
  - intros t c r H. destruct (si_receipts _ _ Hi t c r H) as (? & ? & _). done.
  - intros i j Hsi Hpj. destruct (si_executor _ _ Hi) as (clean & f & submitted & rest & Hx).
    by eapply ex_inv_in_order.
Qed.

(** C23: After an ending nothing begins.
    Once a receipt says that the owner was stopped, that the source has ended or
    that the executor failed, whatever is done afterwards, by the owner, the
    producers or the callbacks: no command is published any more, the source is
    not asked and the visitor is not shown a frame, while every call still
    completes. *)
Theorem dispatch_stops y ops ops' :
  od_created y -> od_run_ok y (ops ++ ops') -> len ops + len ops' < U32_MAX ->
  exists y' events y'' later, od_run y ops = Ok (y', events) /\ od_run y' ops' = Ok (y'', later) /\
    ((exists t c r, OdReceipt t c r ∈ events /\ stopping c r) ->
     published_of later = [] /\ sourced_of (shown_of later) = [] /\ noticed_of later = []).
Proof.
  intros Hy Hok Hlen. destruct (created_inv y Hy) as [Hi Ho]. pose proof (len_nonneg ops').
  destruct (od_run_spec y [] ops Hi (od_run_ok_prefix _ _ _ Hok) ltac:(lia)) as (y' & events & E & Hi' & Ho' & _).
  destruct (od_run_spec y' events ops' Hi' (od_run_ok_app _ _ _ _ _ Hok E) ltac:(lia))
    as (y'' & later & E' & _ & _ & Hcl).
  exists y', events, y'', later. split; [done|]. split; [done|]. intros (t & c & r & Hin & Hs).
  apply Hcl. by destruct (si_receipts _ _ Hi' t c r Hin) as (_ & _ & H'); apply H'.
Qed.

(** C24: A frame notice shows the visitor the frame it names, and holds nothing
    afterwards.  Whatever the state that the calls before have reached: the visitor
    is shown at most one frame, with the bytes that were published under the
    reference; a completed receipt means that it was shown; and on every path,
    refusals and a failing visitor included, the pin and the lease are given back,
    so the tables of the store hold the credits they held before. *)
Theorem dispatch_notice y ops :
  od_created y -> od_run_ok y ops -> len ops < U32_MAX ->
  exists y' events, od_run y ops = Ok (y', events) /\
    forall t c r visitor_rc, sy_phase y' = Commanded t c ->
      exists o q x s r' new,
        od_frame_notice (sy_owner y') (sy_inbox y') (sy_executor y') (sy_store y') (cm_frame c) r visitor_rc =
          Ok (o, q, x, s, r', new) /\
        (forall k, tokens k s = tokens k (sy_store y')) /\
        (re_outcome r' = TM_OD_COMPLETED -> new <> []) /\
        (new = [] \/ exists data, new = [OdNoticed (cm_frame c) data] /\
           forall d, shows (sy_store y') (cm_frame c) d -> d = data).
Proof.
  intros Hy Hok Hlen. destruct (od_created_run y ops Hy Hok Hlen) as (y' & events & E & Hi).
  exists y', events. split; [done|]. intros t c r visitor_rc Hph.
  destruct (si_inbox _ _ Hi) as [m Hm]. destruct (si_executor _ _ Hi) as (clean & f & submitted & rest & Hx).
  rewrite Hph in Hm. destruct (in_hand_command _ _ _ _ _ t c Hm ltac:(left)) as [Hr _].
  destruct (frame_notice_spec (sy_owner y') (sy_inbox y') _ _ _ _ _ _ _ (cm_frame c) r visitor_rc Hx Hr)
    as (o & q & x & s & r' & new & f' & En & _ & _ & _ & _ & H).
  by exists o, q, x, s, r', new.
Qed.

(** C25: Each result of a provider is emitted at most once, and none is lost.
    The result whose row in the portal is taken is the pending one, so a result that
    the callback did not take is kept; the owner can settle it whenever no call is
    under way, and it is not emitted again; the owner can be
    destroyed exactly when no call is under way, no result is pending and its inbox
    and its portal can be destroyed, and then every published command was
    answered. *)
Theorem dispatch_terminals y ops :
  od_created y -> od_run_ok y ops -> len ops < U32_MAX ->
  exists y' events, od_run y ops = Ok (y', events) /\ NoDup (emitted_of events) /\
    let o := sy_owner y' in
    (forall i r, pp_rows (sy_portal y') !! i = Some r -> pr_state r = PC_TAKEN ->
       od_pending_completion o = ticket_of (pp_incarnation (sy_portal y')) i r /\
       od_pending_terminal o = pr_result r) /\
    (od_in_step o = false -> tk_incarnation (od_pending_completion o) <> 0 ->
     (tm_od_settle_pending_completion o (sy_portal y')).2 = TM_OD_OK) /\
    (tm_od_destroy o (sy_inbox y') (sy_portal y') = TM_OD_OK <->
     od_in_step o = false /\ tk_incarnation (od_pending_completion o) = 0 /\
     tm_ho_destroy (sy_inbox y') = TM_HO_OK /\
     (od_completion_portal o = true -> tm_pc_destroy (sy_portal y') = TM_PC_OK)) /\
    (tm_od_destroy o (sy_inbox y') (sy_portal y') = TM_OD_OK -> published_of events = answered_of events).
Proof.
  intros Hy Hok Hlen. destruct (od_created_run y ops Hy Hok Hlen) as (y' & events & E & Hi).
  exists y', events. split; [done|]. destruct (si_portal _ _ Hi) as [g Hg].
  split; [by apply (ph_once _ _ _ _ _ _ Hg)|]. split; [|split; [|split; [apply od_destroy_iff|]]].
  - intros i r Hr Hst. destruct (taken_row _ _ i r (ph_is _ _ _ _ _ _ Hg) Hr Hst) as (t & -> & Ht).
    by apply (ph_taken _ _ _ _ _ _ Hg) in Ht as (_ & <- & <-).
  - intros Hin Hnz. by destruct (settle_pending_spec _ _ Hi Hin Hnz) as (p' & g' & -> & _).
  - rewrite od_destroy_iff. intros (Hin & _ & Hd & _). destruct (si_inbox _ _ Hi) as [m [Hq _ Ho _ _]].
    rewrite Ho, (destroyed_empty _ m Hq Hd). pose proof (si_in_step _ _ Hi) as Hs. rewrite Hin in Hs.
    by destruct (sy_phase y'); try done; cbn; rewrite app_nil_r.
Qed.

(* ------------------------------------------------------------------ *)
(** ** Witnesses *)

Definition odw_owner : tm_od_owner := Build_tm_od_owner true false no_ticket zero_result false false false.

(** The executor and the store of the example of Executor.v, an inbox and a portal. *)
Definition odw_sys : od_sys := Build_od_sys odw_owner ex_inbox exw_owner exw_store ex_portal Idle.

Definition odw_command (kind branch correlation : Z) : tm_ho_command_v1 :=
  Build_tm_ho_command_v1 SIZEOF_HO_COMMAND 1 kind branch correlation 0 0 zero_ref.

Definition odw_publish (slot generation : Z) (c : tm_ho_command_v1) : list od_op :=
  [OdProducer HoReserve; OdProducer (HoPublish (Build_ticket 7 slot generation) (Some c))].

Definition odw_call (data : list Z) : od_call :=
  Build_od_call (Build_source_call TM_EX_SOURCE_FRAME data (len data)) (fun _ => 0) 0 0.

Definition odw_step (data : list Z) : list od_op :=
  [OdBegin (SIZEOF_OD_RECEIPT, TM_OD_ABI_V1); OdExecute (odw_call data); OdFinish].

(** A frame is pumped and delivered; then a result that the host does not take. *)
Definition odw_ops : list od_op :=
  odw_publish 0 1 (odw_command TM_HO_PUMP_SOURCE 0 4) ++ odw_publish 1 1 (odw_command TM_HO_PUMP_SINK 0 5) ++
  odw_step [7; 8] ++ odw_step [] ++
  [OdBind; OdProvider (PcBegin 100); OdProvider (PcComplete (Build_ticket 4 0 1) 6);
   OdBeginCompletion (SIZEOF_PC_RESULT, TM_PC_ABI_V1); OdEmit 1].

(** A stop, while a pump of the source waits, and a command that is too late. *)
Definition odw_stop : list od_op :=
  odw_publish 0 2 (odw_command TM_HO_STOP 0 6) ++ odw_publish 1 2 (odw_command TM_HO_PUMP_SOURCE 0 7) ++
  [OdProducer HoReserve] ++ odw_step [].
Definition odw_after : list od_op :=
  odw_step [9] ++ [OdProducer HoReserve; OdSettlePending; OdProvider PcSeal].

Lemma odw_created : od_created odw_sys.
Proof.
  split; [|split; [|split; [|split; [|split]]]].
  - exists (Build_tm_od_config_v1 SIZEOF_OD_CONFIG TM_OD_ABI_V1 0 0 true), true. reflexivity.
  - exists 7, ex_ho_config, (true, true), 8. split; [done|]. vm_compute. reflexivity.
  - exists 1, exw_program, exw_config, exw_bindings, exw_mem, 2. split; [exact exw_config_ok|exact exw_create_ok].
  - exact exw_store_reachable.
  - exists 4, ex_pc_config, (true, true), 5. split; [done|]. vm_compute. reflexivity.
  - reflexivity.
Qed.

Lemma odw_run_ok : od_run_ok odw_sys (odw_ops ++ odw_stop ++ odw_after).
Proof. vm_compute. repeat split; by intros. Qed.

Example odw_run_events :
  match od_run odw_sys (odw_ops ++ odw_stop ++ odw_after) with
  | Ok (y, events) =>
      (cm_correlation ∘ snd <$> published_of events, cm_correlation ∘ snd <$> answered_of events,
       delivered_of 0 (shown_of events), emitted_of events,
       tm_od_destroy (sy_owner y) (sy_inbox y) (sy_portal y))
  | _ => ([], [], [], [], TM_OD_EINVAL)
  end = ([4; 5; 6; 7], [4; 5; 6; 7], [[7; 8]], [Build_ticket 4 0 1], TM_OD_OK).
Proof. vm_compute. reflexivity. Qed.

Lemma dispatch_answers_witness :
  exists y' events, od_run odw_sys (odw_ops ++ odw_stop ++ odw_after) = Ok (y', events) /\
    (exists waiting, published_of events = answered_of events ++ in_hand (sy_phase y') ++ waiting /\
       (waiting = [] <-> (tm_ho_take (sy_inbox y')).1.1.2 = TM_HO_EBUSY)) /\
    (forall t c r, OdReceipt t c r ∈ events ->
       re_command_kind r = cm_kind c /\ re_correlation r = cm_correlation c) /\
    forall i j, (i < length (ex_sinks (sy_executor y')))%nat ->
      (j < length (ex_processors (sy_executor y')))%nat ->
      sublist (delivered_of i (shown_of events)) (seen_of j (shown_of events)) /\
      prefix (seen_of j (shown_of events)) (sourced_of (shown_of events)).
Proof.
  exact (dispatch_answers odw_sys (odw_ops ++ odw_stop ++ odw_after) odw_created odw_run_ok eq_refl).
Defined.

Lemma dispatch_stops_witness :
  exists y' events y'' later, od_run odw_sys (odw_ops ++ odw_stop) = Ok (y', events) /\
    od_run y' odw_after = Ok (y'', later) /\
    ((exists t c r, OdReceipt t c r ∈ events /\ stopping c r) ->
     published_of later = [] /\ sourced_of (shown_of later) = [] /\ noticed_of later = []).
Proof.
  exact (dispatch_stops odw_sys (odw_ops ++ odw_stop) odw_after odw_created odw_run_ok eq_refl).
Defined.

(** A notice of a frame that someone else published, taken by the owner. *)
Definition odw_ref : tm_fs_frame_ref_v1 := Build_tm_fs_frame_ref_v1 SIZEOF_FRAME_REF TM_FS_ABI_V1 5 1 0 1 1 1 1.

Definition odw_noticed : list od_op :=
  OdExecutor (ExStore (FsPublish (Some [7; 8]) 1 1)) ::
  odw_publish 0 1 (Build_tm_ho_command_v1 SIZEOF_HO_COMMAND 1 TM_HO_FRAME_NOTICE 0 5 1 0 odw_ref) ++
  [OdBegin (SIZEOF_OD_RECEIPT, TM_OD_ABI_V1)].

Lemma odw_noticed_ok : od_run_ok odw_sys odw_noticed.
Proof. vm_compute. repeat split; try done. by intros ? ?%not_elem_of_nil. Qed.

Example odw_notice_events :
  match od_run odw_sys (odw_noticed ++ [OdExecute (odw_call [])]) with
  | Ok (_, events) => (noticed_of events).*2 | _ => [] end = [[7; 8]].
Proof. vm_compute. reflexivity. Qed.

Lemma dispatch_notice_witness :
  exists y' events, od_run odw_sys odw_noticed = Ok (y', events) /\
    forall t c r visitor_rc, sy_phase y' = Commanded t c ->
      exists o q x s r' new,
        od_frame_notice (sy_owner y') (sy_inbox y') (sy_executor y') (sy_store y') (cm_frame c) r visitor_rc =
          Ok (o, q, x, s, r', new) /\
        (forall k, tokens k s = tokens k (sy_store y')) /\
        (re_outcome r' = TM_OD_COMPLETED -> new <> []) /\
        (new = [] \/ exists data, new = [OdNoticed (cm_frame c) data] /\
           forall d, shows (sy_store y') (cm_frame c) d -> d = data).
Proof. exact (dispatch_notice odw_sys odw_noticed odw_created odw_noticed_ok eq_refl). Defined.

Lemma dispatch_terminals_witness :
  exists y' events, od_run odw_sys (odw_ops ++ odw_stop) = Ok (y', events) /\ NoDup (emitted_of events) /\
    let o := sy_owner y' in
    (forall i r, pp_rows (sy_portal y') !! i = Some r -> pr_state r = PC_TAKEN ->
       od_pending_completion o = ticket_of (pp_incarnation (sy_portal y')) i r /\
       od_pending_terminal o = pr_result r) /\
    (od_in_step o = false -> tk_incarnation (od_pending_completion o) <> 0 ->
     (tm_od_settle_pending_completion o (sy_portal y')).2 = TM_OD_OK) /\
    (tm_od_destroy o (sy_inbox y') (sy_portal y') = TM_OD_OK <->
     od_in_step o = false /\ tk_incarnation (od_pending_completion o) = 0 /\
     tm_ho_destroy (sy_inbox y') = TM_HO_OK /\
     (od_completion_portal o = true -> tm_pc_destroy (sy_portal y') = TM_PC_OK)) /\
    (tm_od_destroy o (sy_inbox y') (sy_portal y') = TM_OD_OK -> published_of events = answered_of events).
Proof.
  exact (dispatch_terminals odw_sys (odw_ops ++ odw_stop) odw_created
    (od_run_ok_prefix odw_sys (odw_ops ++ odw_stop) odw_after odw_run_ok) eq_refl).
Defined.
