(* ===== verification/Interleaved.v ===== *)
(** * RTSP interleaved framing

    media/rtsp/parser/turbo_rtsp_rtp.c, the section of RTP over the RTSP connection
    (RFC 2326, 10.12): a frame is ['$'], a channel, a 16-bit length and the payload.
    Three readers: [interleaved_parse] for a buffer that starts with a frame, and
    the two parsers that keep their state across buffers, [parser_parse] which points
    into the caller's buffer and discards a payload that crosses two of them, and
    [parser_parse_copy] which collects the payload in a buffer of its own.

    Handles and out parameters are not [NULL], and the [payload] of
    [parser_parse_copy] is [NULL] only with a capacity of 0 (the empty list).  The
    outcome of the one [realloc] is an argument: [None] when it fails, and otherwise
    the bytes that the fresh part of the block happens to hold.

    The specification is [next], the first complete frame of a stream of bytes, and
    [frames], all of them. *)

From S2P Require Import Prelude.

(* ------------------------------------------------------------------ *)
(** ** Data *)

Definition TURBO_RTSP_INTERLEAVED_HEADER_SIZE : Z := 4.

(** The character ['$']. *)
Definition DOLLAR : Z := 36.

Inductive frame_result : Type :=
  | TURBO_RTSP_FRAME_ERROR
  | TURBO_RTSP_FRAME_OK
  | TURBO_RTSP_FRAME_PARTIAL.

#[export] Instance frame_result_eq_dec : EqDecision frame_result.
Proof. solve_decision. Defined.

(** A frame handed out: the payload is the [payload_len] bytes it points to, or
    [NULL]. *)
Record interleaved_frame := mk_frame {
  fr_channel : Z;
  fr_payload_len : Z;
  fr_payload : option (list Z);
}.

Definition frame0 : interleaved_frame := mk_frame 0 0 None.

Record interleaved_parser := mk_parser {
  header : list Z;
  header_len : Z;
  channel : Z;
  payload_len : Z;
  payload_remaining : Z;
  needed : Z;
  discarding_payload : bool;
  payload_buffer : list Z;
  payload_buffer_size : Z;
  payload_copied : Z;
  frame_pending : bool;
}.

Definition set_needed (p : interleaved_parser) (n : Z) : interleaved_parser :=
  mk_parser (header p) (header_len p) (channel p) (payload_len p) (payload_remaining p)
    n (discarding_payload p) (payload_buffer p) (payload_buffer_size p)
    (payload_copied p) (frame_pending p).

Definition set_remaining (p : interleaved_parser) (n : Z) : interleaved_parser :=
  mk_parser (header p) (header_len p) (channel p) (payload_len p) n (needed p)
    (discarding_payload p) (payload_buffer p) (payload_buffer_size p)
    (payload_copied p) (frame_pending p).

Definition set_discarding (p : interleaved_parser) : interleaved_parser :=
  mk_parser (header p) (header_len p) (channel p) (payload_len p) (payload_remaining p)
    (needed p) true (payload_buffer p) (payload_buffer_size p) (payload_copied p)
    (frame_pending p).

Definition push_header (p : interleaved_parser) (h : list Z) : interleaved_parser :=
  mk_parser h (header_len p + 1) (channel p) (payload_len p) (payload_remaining p)
    (needed p) (discarding_payload p) (payload_buffer p) (payload_buffer_size p)
    (payload_copied p) (frame_pending p).

Definition set_payload (p : interleaved_parser) (buffer : list Z) (copied : Z) :
    interleaved_parser :=
  mk_parser (header p) (header_len p) (channel p) (payload_len p) (payload_remaining p)
    (needed p) (discarding_payload p) buffer (payload_buffer_size p) copied
    (frame_pending p).

Definition set_block (p : interleaved_parser) (buffer : list Z) (size : Z) :
    interleaved_parser :=
  mk_parser (header p) (header_len p) (channel p) (payload_len p) (payload_remaining p)
    (needed p) (discarding_payload p) buffer size (payload_copied p) (frame_pending p).

Definition set_pending (p : interleaved_parser) : interleaved_parser :=
  mk_parser (header p) (header_len p) (channel p) (payload_len p) (payload_remaining p)
    0 (discarding_payload p) (payload_buffer p) (payload_buffer_size p)
    (payload_copied p) true.

(** What a call returns and writes: the parser, the result, the frame, the caller's
    payload buffer and the number of bytes consumed. *)
Record outcome := mk_outcome {
  out_parser : interleaved_parser;
  out_result : frame_result;
  out_frame : interleaved_frame;
  out_payload : list Z;
  out_consumed : Z;
}.

(* ------------------------------------------------------------------ *)
(** ** Frames in one buffer *)

Definition interleaved_parse (buffer : list Z) :
    res (frame_result * interleaved_frame * Z) :=
  if len buffer <? TURBO_RTSP_INTERLEAVED_HEADER_SIZE then
    Ok (TURBO_RTSP_FRAME_PARTIAL, frame0, 0)
  else
    b0 ← rd buffer 0;
    if negb (b0 =? DOLLAR) then Ok (TURBO_RTSP_FRAME_ERROR, frame0, 0)
    else
      plen ← read_u16 buffer 2;
      if len buffer <? TURBO_RTSP_INTERLEAVED_HEADER_SIZE + plen then
        Ok (TURBO_RTSP_FRAME_PARTIAL, frame0, 0)
      else
        ch ← rd buffer 1;
        payload ← rd_slice buffer TURBO_RTSP_INTERLEAVED_HEADER_SIZE plen;
        Ok (TURBO_RTSP_FRAME_OK, mk_frame ch plen (Some payload),
            TURBO_RTSP_INTERLEAVED_HEADER_SIZE + plen).

(** The length written, with the buffer. *)
Definition interleaved_write_header (buffer : list Z) (ch plen : Z) : res (Z * list Z) :=
  if len buffer <? TURBO_RTSP_INTERLEAVED_HEADER_SIZE then Err
  else
    buffer ← wr buffer 0 [DOLLAR];
    buffer ← wr buffer 1 [ch];
    buffer ← write_u16 buffer 2 plen;
    Ok (TURBO_RTSP_INTERLEAVED_HEADER_SIZE, buffer).

(* ------------------------------------------------------------------ *)
(** ** The parser's life cycle *)

Definition parser_init : interleaved_parser :=
  mk_parser [0; 0; 0; 0] 0 0 0 0 0 false [] 0 0 false.

(** The payload block survives a reset. *)
Definition parser_reset (p : interleaved_parser) : interleaved_parser :=
  mk_parser [0; 0; 0; 0] 0 0 0 0 0 false (payload_buffer p) (payload_buffer_size p) 0
    false.

Definition parser_destroy (_ : interleaved_parser) : interleaved_parser := parser_init.

(* ------------------------------------------------------------------ *)
(** ** Headers *)

Definition interleaved_take (available needed : Z) : Z :=
  if available <? needed then available else needed.

Definition interleaved_set_header (p : interleaved_parser) : res interleaved_parser :=
  ch ← rd (header p) 1;
  plen ← read_u16 (header p) 2;
  Ok (mk_parser (header p) (header_len p) ch plen plen plen (discarding_payload p)
        (payload_buffer p) (payload_buffer_size p) (payload_copied p)
        (frame_pending p)).

(** The offset of the first ['$'], or the length. *)
Fixpoint skip_noise (buffer : list Z) (offset : Z) : Z :=
  match buffer with
  | [] => offset
  | b :: rest => if b =? DOLLAR then offset else skip_noise rest (offset + 1)
  end.

(** The loop that completes the four header bytes. *)
Fixpoint fill_header (fuel : nat) (p : interleaved_parser) (buffer : list Z)
    (offset : Z) : res (interleaved_parser * Z) :=
  if (header_len p <? TURBO_RTSP_INTERLEAVED_HEADER_SIZE) && (offset <? len buffer) then
    match fuel with
    | O => Fault
    | S fuel =>
      b ← rd buffer offset;
      h ← upd (header p) (header_len p) b;
      fill_header fuel (push_header p h) buffer (offset + 1)
    end
  else Ok (p, offset).

(** The part the two stateful parsers share: skips to a frame and completes its
    header.  [false] when the buffer ends before the header does. *)
Definition sync_header (p : interleaved_parser) (buffer : list Z) :
    res (interleaved_parser * Z * bool) :=
  let offset := if header_len p =? 0 then skip_noise buffer 0 else 0 in
  if (header_len p =? 0) && (offset =? len buffer) then
    Ok (set_needed p 1, offset, false)
  else
    '(p, offset) ← fill_header 4 p buffer offset;
    if header_len p <? TURBO_RTSP_INTERLEAVED_HEADER_SIZE then
      Ok (set_needed p (TURBO_RTSP_INTERLEAVED_HEADER_SIZE - header_len p), offset, false)
    else Ok (p, offset, true).

(** The bytes of a discarded payload. *)
Definition discard_payload (p : interleaved_parser) (buffer payload : list Z) : outcome :=
  let skipped := interleaved_take (len buffer) (payload_remaining p) in
  let remaining := payload_remaining p - skipped in
  let p := set_needed (set_remaining p remaining) remaining in
  mk_outcome (if remaining =? 0 then parser_reset p else p)
    TURBO_RTSP_FRAME_PARTIAL frame0 payload skipped.

(* ------------------------------------------------------------------ *)
(** ** The parser that points into the caller's buffer *)

Definition parser_parse (p : interleaved_parser) (buffer : list Z) : res outcome :=
  if discarding_payload p then Ok (discard_payload p buffer [])
  else
    '(p, offset, ready) ← sync_header p buffer;
    if negb ready then Ok (mk_outcome p TURBO_RTSP_FRAME_PARTIAL frame0 [] offset)
    else
      p ← (if (payload_remaining p =? 0) && (payload_len p =? 0)
           then interleaved_set_header p else Ok p);
      if payload_remaining p =? 0 then
        payload ← rd_slice buffer offset (payload_len p);
        Ok (mk_outcome (parser_reset p) TURBO_RTSP_FRAME_OK
              (mk_frame (channel p) (payload_len p) (Some payload)) [] offset)
      else if payload_remaining p <=? len buffer - offset then
        payload ← rd_slice buffer offset (payload_len p);
        Ok (mk_outcome (parser_reset p) TURBO_RTSP_FRAME_OK
              (mk_frame (channel p) (payload_len p) (Some payload)) []
              (offset + payload_remaining p))
      else
        let p := if offset <? len buffer
                 then set_remaining (set_discarding p)
                        (payload_remaining p - (len buffer - offset))
                 else p in
        Ok (mk_outcome (set_needed p (payload_remaining p)) TURBO_RTSP_FRAME_PARTIAL
              frame0 [] (len buffer)).

(* ------------------------------------------------------------------ *)
(** ** The parser that collects the payload *)

(** [None] when the block cannot grow. *)
Definition ensure_payload (p : interleaved_parser) (plen : Z)
    (grow : option (nat -> Z)) : option interleaved_parser :=
  if (plen =? 0) || (plen <=? payload_buffer_size p) then Some p
  else
    let? fresh := grow else None in
    Some (set_block p
            (payload_buffer p ++
             (fresh <$> seq 0 (Z.to_nat (plen - payload_buffer_size p)))) plen).

Definition deliver_copy (p : interleaved_parser) (payload : list Z) (consumed : Z) :
    res outcome :=
  let frame := mk_frame (channel p) (payload_len p) None in
  if len payload <? payload_len p then
    Ok (mk_outcome (set_needed p (payload_len p)) TURBO_RTSP_FRAME_ERROR frame payload
          consumed)
  else if 0 <? payload_len p then
    bs ← rd_slice (payload_buffer p) 0 (payload_len p);
    payload ← wr payload 0 bs;
    Ok (mk_outcome (parser_reset p) TURBO_RTSP_FRAME_OK
          (mk_frame (channel p) (payload_len p) (Some bs)) payload consumed)
  else
    Ok (mk_outcome (parser_reset p) TURBO_RTSP_FRAME_OK frame payload consumed).

(** The copy of the bytes at hand: the parser and the offset past them. *)
Definition copy_payload (p : interleaved_parser) (buffer : list Z) (offset : Z) :
    res (interleaved_parser * Z) :=
  if 0 <? payload_remaining p then
    let copied := interleaved_take (len buffer - offset) (payload_remaining p) in
    if 0 <? copied then
      bs ← rd_slice buffer offset copied;
      block ← wr (payload_buffer p) (payload_copied p) bs;
      Ok (set_remaining (set_payload p block (payload_copied p + copied))
            (payload_remaining p - copied), offset + copied)
    else Ok (p, offset)
  else Ok (p, offset).

Definition parser_parse_copy (p : interleaved_parser) (buffer payload : list Z)
    (grow : option (nat -> Z)) : res outcome :=
  if frame_pending p then deliver_copy p payload 0
  else if discarding_payload p then Ok (discard_payload p buffer payload)
  else
    '(p, offset, ready) ← sync_header p buffer;
    if negb ready then Ok (mk_outcome p TURBO_RTSP_FRAME_PARTIAL frame0 payload offset)
    else
      p ← (if (payload_remaining p =? 0) && (payload_len p =? 0) &&
              (payload_copied p =? 0)
           then p ← interleaved_set_header p; 
                Ok (match ensure_payload p (payload_len p) grow with
                    | Some p => (p, true) | None => (p, false) end)
           else Ok (p, true));
      let '(p, ensured) := p in
      if negb ensured then
        Ok (mk_outcome (parser_reset p) TURBO_RTSP_FRAME_ERROR frame0 payload 0)
      else
        '(p, offset) ← copy_payload p buffer offset;
        if 0 <? payload_remaining p then
          Ok (mk_outcome (set_needed p (payload_remaining p)) TURBO_RTSP_FRAME_PARTIAL
                frame0 payload offset)
        else deliver_copy (set_pending p) payload offset.

(* ------------------------------------------------------------------ *)
(** ** Specification *)

(** What is left of a stream at its first ['$']. *)
Fixpoint resync (s : list Z) : list Z :=
  match s with
  | [] => []
  | b :: rest => if b =? DOLLAR then s else resync rest
  end.

(** The first complete frame of a stream and what follows it. *)
Definition next (s : list Z) : option (Z * list Z * list Z) :=
  match resync s with
  | _ :: ch :: hi :: lo :: rest =>
      let n := 256 * hi + lo in
      if n <=? len rest
      then Some (ch, take (Z.to_nat n) rest, drop (Z.to_nat n) rest) else None
  | _ => None
  end.

Fixpoint frames_fuel (fuel : nat) (s : list Z) : list (Z * list Z) :=
  match fuel with
  | O => []
  | S fuel =>
      match next s with
      | Some (ch, payload, rest) => (ch, payload) :: frames_fuel fuel rest
      | None => []
      end
  end.

(** All the complete frames of a stream. *)
Definition frames (s : list Z) : list (Z * list Z) := frames_fuel (length s) s.

(** A frame on the wire. *)
Definition wire (f : Z * list Z) : list Z :=
  DOLLAR :: fst f :: be16 (len (snd f)) ++ snd f.

(** The frame handed out, as the pair the specification speaks of. *)
Definition frame_of (f : interleaved_frame) : Z * list Z :=
  (fr_channel f, default [] (fr_payload f)).

(** A reader of the connection: takes the frames of one buffer after the other.
    The fuel is one call for each byte of the buffer and the last one. *)
Fixpoint pump (parse : interleaved_parser -> list Z -> list Z -> res outcome)
    (fuel : nat) (p : interleaved_parser) (payload buffer : list Z) :
    res (interleaved_parser * list Z * list (Z * list Z)) :=
  match fuel with
  | O => Fault
  | S fuel =>
      o ← parse p buffer payload;
      let rest := drop (Z.to_nat (out_consumed o)) buffer in
      match out_result o with
      | TURBO_RTSP_FRAME_ERROR => Err
      | TURBO_RTSP_FRAME_OK =>
          '(p', payload', fs) ← pump parse fuel (out_parser o) (out_payload o) rest;
          Ok (p', payload', frame_of (out_frame o) :: fs)
      | TURBO_RTSP_FRAME_PARTIAL =>
          if decide (rest = []) then Ok (out_parser o, out_payload o, [])
          else pump parse fuel (out_parser o) (out_payload o) rest
      end
  end.

Fixpoint feed (parse : interleaved_parser -> list Z -> list Z -> res outcome)
    (p : interleaved_parser) (payload : list Z) (buffers : list (list Z)) :
    res (interleaved_parser * list (Z * list Z)) :=
  match buffers with
  | [] => Ok (p, [])
  | b :: bs =>
      '(p, payload, fs) ← pump parse (S (length b)) p payload b;
      '(p, gs) ← feed parse p payload bs;
      Ok (p, fs ++ gs)
  end.

Definition copying (fresh : nat -> Z) : interleaved_parser -> list Z -> list Z -> res outcome :=
  fun p buffer payload => parser_parse_copy p buffer payload (Some fresh).

Definition pointing : interleaved_parser -> list Z -> list Z -> res outcome :=
  fun p buffer _ => parser_parse p buffer.

(* ------------------------------------------------------------------ *)
(** ** Concrete runs *)

(** The tests of test_rtsp_lib.c: noise before a frame, a frame in three buffers. *)
Example pointing_noise :
  parser_parse parser_init [82; 84; 36; 3; 0; 2; 0xca; 0xfe] =
  Ok (mk_outcome parser_init TURBO_RTSP_FRAME_OK (mk_frame 3 2 (Some [0xca; 0xfe])) [] 8).
Proof. vm_compute. reflexivity. Qed.

Example copying_split :
  snd <$> feed (copying (fun _ => 7)) parser_init [9; 9; 9; 9]
    [[36; 8]; [0; 4; 0xde]; [0xad; 0xbe; 0xef; 36; 1; 0; 1; 0x7a]] =
  Ok [(8, [0xde; 0xad; 0xbe; 0xef]); (1, [0x7a])].
Proof. vm_compute. reflexivity. Qed.

Example pointing_split :
  snd <$> feed pointing parser_init []
    [[36; 0; 0; 4; 0xde; 0xad]; [0xbe]; [0xef; 36; 1; 0; 1; 0x7a]] =
  Ok [(1, [0x7a])].
Proof. vm_compute. reflexivity. Qed.

(** The two parsers do not share a parser object: a payload begun by the pointing one
    has no block, and the collecting one writes past it. *)
Example mixed_parsers_fault :
  (o ← parser_parse parser_init [36; 0; 0; 4];
   parser_parse_copy (out_parser o) [1] [0; 0; 0; 0] (Some (fun _ => 0))) = Fault.
Proof. vm_compute. reflexivity. Qed.

(* ------------------------------------------------------------------ *)
(** ** Streams *)

(** A byte string that starts a frame, or nothing. *)
Definition starts (s : list Z) : Prop := s = [] \/ exists t, s = DOLLAR :: t.

Lemma resync_starts s : starts (resync s).
Proof.
  induction s as [|b s IH]; [by left|]. simpl. destruct (b =? DOLLAR) eqn:E; [|done].
  apply Z.eqb_eq in E as ->. right. eauto.
Qed.

Lemma resync_id s : starts s -> resync s = s.
Proof. by intros [->|[t ->]]. Qed.

Lemma resync_app s t : resync (s ++ t) = resync (resync s ++ t).
Proof.
  induction s as [|b s IH]; [done|]. simpl. by destruct (b =? DOLLAR) eqn:E; simpl; rewrite ?E.
Qed.

Lemma resync_suffix s : exists pre, s = pre ++ resync s.
Proof.
  induction s as [|b s [pre IH]]; [by exists []|]. simpl.
  destruct (b =? DOLLAR); [by exists []|]. exists (b :: pre). simpl. by f_equal.
Qed.

Lemma resync_bytes s : bytes s -> bytes (resync s).
Proof.
  destruct (resync_suffix s) as [pre E]. unfold bytes. rewrite E at 1.
  rewrite Forall_app. by intros [_ ?].
Qed.

Lemma next_resync s : next (resync s) = next s.
Proof. unfold next. by rewrite (resync_id (resync s)) by apply resync_starts. Qed.

Lemma next_resync_app s t : next (resync s ++ t) = next (s ++ t).
Proof. rewrite <- (next_resync (s ++ t)), resync_app. by rewrite next_resync. Qed.

Lemma next_short s : len (resync s) < 4 -> next s = None.
Proof.
  intros H. unfold next. destruct (resync s) as [|a [|b [|c [|d r]]]]; try done.
  rewrite !len_cons in H. pose proof (len_nonneg r). lia.
Qed.

(** A frame found stays found when more of the stream arrives. *)
Lemma next_app s t ch pl r : next s = Some (ch, pl, r) -> next (s ++ t) = Some (ch, pl, r ++ t).
Proof.
  rewrite <- next_resync_app, <- (next_resync s).
  destruct (resync_starts s) as [->|[u ->]]; [done|].
  unfold next. cbn [resync app]. rewrite Z.eqb_refl.
  destruct u as [|c [|hi [|lo rest]]]; try done. cbn [app].
  destruct (256 * hi + lo <=? len rest) eqn:E; [|done]. intros [= <- <- <-].
  rewrite len_app. pose proof (len_nonneg t).
  replace (256 * hi + lo <=? len rest + len t) with true by lia.
  rewrite take_app_le, drop_app_le by len_lia. done.
Qed.

(** A frame takes at least its header. *)
Lemma next_length s ch pl r : next s = Some (ch, pl, r) -> (length r + 4 <= length s)%nat.
Proof.
  rewrite <- next_resync. destruct (resync_suffix s) as [pre E].
  assert (Hl : (length (resync s) <= length s)%nat) by (rewrite E at 2; len_lia).
  revert Hl. unfold next. rewrite (resync_id (resync s)) by apply resync_starts.
  destruct (resync s) as [|a [|c [|hi [|lo rest]]]]; try done.
  destruct (256 * hi + lo <=? len rest); [|done]. intros Hl [= <- <- <-]. len_lia.
Qed.

Lemma frames_fuel_enough n m s :
  (length s <= n)%nat -> (length s <= m)%nat -> frames_fuel n s = frames_fuel m s.
Proof.
  revert m s. induction n as [|n IH]; intros m s Hn Hm.
  - destruct s; [|simpl in Hn; lia]. by destruct m.
  - destruct m as [|m]; [destruct s; [done|simpl in Hm; lia]|].
    simpl. destruct (next s) as [[[ch pl] r]|] eqn:E; [|done].
    apply next_length in E. f_equal. apply IH; lia.
Qed.

Lemma frames_unfold s :
  frames s = match next s with
             | Some (ch, pl, r) => (ch, pl) :: frames r | None => [] end.
Proof.
  unfold frames. destruct s as [|b s]; [done|].
  change (frames_fuel (length (b :: s)) (b :: s)) with
    (match next (b :: s) with
     | Some (ch, pl, r) => (ch, pl) :: frames_fuel (length s) r | None => [] end).
  destruct (next (b :: s)) as [[[ch pl] r]|] eqn:E; [|done].
  apply next_length in E. f_equal. apply frames_fuel_enough; simpl in *; lia.
Qed.

Lemma frames_resync_app s t : frames (resync s ++ t) = frames (s ++ t).
Proof. by rewrite !(frames_unfold (_ ++ _)), next_resync_app. Qed.

Lemma next_wire f s :
  len (snd f) <= 65535 -> next (wire f ++ s) = Some (fst f, snd f, s).
Proof.
  destruct f as [ch pl]. cbn [fst snd]. intros H. pose proof (len_nonneg pl).
  unfold next, wire, be16. cbn [fst snd app resync]. rewrite Z.eqb_refl.
  replace (256 * u8 (Z.shiftr (len pl) 8) + u8 (Z.land (len pl) 255)) with (len pl)
    by (rewrite shiftr8, land255; unfold u8; zmod_lia).
  rewrite len_app. pose proof (len_nonneg s). replace (len pl <=? len pl + len s) with true by lia.
  by rewrite len_to_nat, take_app_length, drop_app_length.
Qed.

Lemma frames_wire fs :
  Forall (fun f => len (snd f) <= 65535) fs -> frames (concat (wire <$> fs)) = fs.
Proof.
  induction 1 as [|f fs Hf _ IH]; [done|].
  cbn [fmap list_fmap concat]. rewrite frames_unfold, next_wire by done.
  rewrite IH. by destruct f.
Qed.

(* ------------------------------------------------------------------ *)
(** ** Headers *)

Lemma skip_noise_off s o : skip_noise s o = o + (len s - len (resync s)).
Proof.
  revert o. induction s as [|b s IH]; intros o; simpl; [unfold len; simpl; lia|].
  destruct (b =? DOLLAR); [lia|]. rewrite IH, len_cons. lia.
Qed.

Lemma drop_noise s : drop (Z.to_nat (skip_noise s 0)) s = resync s.
Proof.
  rewrite skip_noise_off. destruct (resync_suffix s) as [pre E].
  set (r := resync s) in *. rewrite E. apply drop_app_length'. len_lia.
Qed.

Definition with_header (p : interleaved_parser) (h : list Z) (n : Z) : interleaved_parser :=
  mk_parser h n (channel p) (payload_len p) (payload_remaining p) (needed p)
    (discarding_payload p) (payload_buffer p) (payload_buffer_size p)
    (payload_copied p) (frame_pending p).

Lemma fill_header_done fuel p buffer off :
  len buffer <= off \/ header_len p = 4 -> fill_header fuel p buffer off = Ok (p, off).
Proof.
  intros H.
  assert ((header_len p <? TURBO_RTSP_INTERLEAVED_HEADER_SIZE) && (off <? len buffer) = false)
    by (unfold TURBO_RTSP_INTERLEAVED_HEADER_SIZE; lia).
  destruct fuel; cbn [fill_header]; by rewrite H0.
Qed.

(** The loop moves bytes into the header until it is full or the buffer ends. *)
Lemma fill_header_spec fuel p buffer off h z rest :
  header p = h ++ z -> header_len p = len h -> len h + len z = 4 ->
  0 <= off -> off <= len buffer -> drop (Z.to_nat off) buffer = rest ->
  (length z <= fuel)%nat ->
  exists k, k = Z.min (len z) (len rest) /\
    fill_header fuel p buffer off =
    Ok (with_header p (h ++ take (Z.to_nat k) rest ++ drop (Z.to_nat k) z) (len h + k),
        off + k).
Proof.
  revert p off h z rest. induction fuel as [|fuel IH]; intros p off h z rest Hh Hn H4 H0 H1 Hr Hf.
  - destruct z as [|y z]; [|simpl in Hf; lia]. exists 0. split; [unfold len; simpl; lia|].
    rewrite fill_header_done by (right; unfold len in *; simpl in *; lia).
    simpl. rewrite app_nil_r, !Z.add_0_r in *. rewrite <- Hn, <- Hh. by destruct p.
  - destruct (decide (z = [] \/ rest = [])) as [Hz|Hz].
    { exists 0. split; [destruct Hz as [-> | ->]; unfold len; simpl; lia|].
      rewrite fill_header_done.
      2:{ destruct Hz as [->|Hz]; [right; unfold len in *; simpl in *; lia|left].
          apply (f_equal length) in Hr. rewrite Hz, length_drop in Hr. len_lia. }
      change (Z.to_nat 0) with 0%nat. rewrite drop_0, take_0. cbn [app].
      rewrite !Z.add_0_r, <- Hn, <- Hh. by destruct p. }
    destruct z as [|y z]; [tauto|]. destruct rest as [|b rest]; [tauto|]. clear Hz.
    cbn [fill_header]. rewrite Hn.
    replace (len h <? TURBO_RTSP_INTERLEAVED_HEADER_SIZE) with true
      by (unfold TURBO_RTSP_INTERLEAVED_HEADER_SIZE; len_lia).
    assert (Hlt : off < len buffer).
    { apply (f_equal length) in Hr. rewrite length_drop in Hr. len_lia. }
    replace (off <? len buffer) with true by lia. cbn [andb].
    replace (rd buffer off) with (Ok b) by
      (symmetry; apply rd_lookup; split; [lia|];
       by rewrite <- (Nat.add_0_r (Z.to_nat off)), <- lookup_drop, Hr).
    cbn [mbind res_bind]. rewrite Hh, upd_mid by done. cbn [mbind res_bind].
    destruct (IH (push_header p (h ++ b :: z)) (off + 1) (h ++ [b]) z rest)
      as (k & -> & E); try done; try lia.
    { simpl. by rewrite <- app_assoc. }
    { simpl. rewrite Hn. len_lia. }
    { len_lia. }
    { replace (Z.to_nat (off + 1)) with (Z.to_nat off + 1)%nat by lia.
      by rewrite <- drop_drop, Hr. }
    { simpl in Hf. lia. }
    exists (1 + Z.min (len z) (len rest)). split; [rewrite !len_cons; lia|].
    rewrite E. pose proof (len_nonneg z). pose proof (len_nonneg rest).
    replace (Z.to_nat (1 + Z.min (len z) (len rest)))
      with (S (Z.to_nat (Z.min (len z) (len rest)))) by lia.
    unfold with_header, push_header. simpl. rewrite <- app_assoc. simpl.
    rewrite len_app, len_cons, len_nil. f_equal. f_equal; [f_equal|]; lia.
Qed.

Definition with_header_needed (p : interleaved_parser) (h : list Z) (n nd : Z) :
    interleaved_parser := set_needed (with_header p h n) nd.

(** The header bytes a parser has taken. *)
Record taken_header (p : interleaved_parser) (h : list Z) : Prop := {
  th_len : header_len p = len h;
  th_starts : starts h;
  th_room : exists z, header p = h ++ z /\ len h + len z = 4;
}.

(** The bytes of the stream up to the end of the header, and where the buffer stands. *)
Lemma sync_header_spec p buffer h :
  taken_header p h ->
  let s := resync (h ++ buffer) in
  exists q nd off,
    sync_header p buffer = Ok (q, off, 4 <=? len s) /\
    q = with_header_needed p (header q) (header_len q) nd /\
    taken_header q (take 4 s) /\
    0 <= off <= len buffer /\ drop (Z.to_nat off) buffer = drop 4 s /\
    (len s < 4 -> off = len buffer).
Proof.
  intros [Hn Hs (z & Hh & H4)] s. unfold sync_header. rewrite Hn.
  pose proof (len_nonneg z) as Hz.
  set (off := if len h =? 0 then skip_noise buffer 0 else 0).
  assert (Ho : 0 <= off <= len buffer /\ s = h ++ drop (Z.to_nat off) buffer).
  { unfold off, s. destruct Hs as [->|[t ->]].
    - change (len [] =? 0) with true. cbn [app]. rewrite drop_noise. split; [|done].
      rewrite skip_noise_off. destruct (resync_suffix buffer) as [pre E].
      apply (f_equal len) in E. rewrite len_app in E. pose proof (len_nonneg pre).
      pose proof (len_nonneg (resync buffer)). lia.
    - rewrite len_cons. pose proof (len_nonneg t). replace (1 + len t =? 0) with false by lia.
      split; [pose proof (len_nonneg buffer); lia|]. done. }
  destruct Ho as [Hoff Hse]. clearbody off.
  set (rest := drop (Z.to_nat off) buffer) in *.
  assert (Hlr : len rest = len buffer - off) by (unfold rest; len_lia).
  assert (Hst : starts s) by apply resync_starts.
  assert (Ht4 : starts (take 4 s)) by (destruct Hst as [->|[t ->]]; [by left|right; simpl; eauto]).
  assert (Hls : len s = len h + len rest) by (rewrite Hse, len_app; done).
  destruct ((len h =? 0) && (off =? len buffer)) eqn:E0.
  { exists (set_needed p 1), 1, off.
    assert (s = []) as -> by (apply nil_length_inv; unfold len in *; lia).
    split; [done|]. split; [by destruct p|].
    assert (h = []) as -> by (apply nil_length_inv; unfold len in *; lia).
    split; [by constructor; [|by left|exists z]|]. split; [done|].
    split; [|lia]. apply nil_length_inv. unfold rest, len in *. lia. }
  destruct (fill_header_spec 4 p buffer off h z rest) as (k & Hk & ->); try done; try lia.
  { unfold len in H4, Hz. lia. }
  cbn [mbind res_bind].
  set (q := with_header p (h ++ take (Z.to_nat k) rest ++ drop (Z.to_nat k) z) (len h + k)).
  pose proof (len_nonneg rest). pose proof (len_nonneg h).
  assert (Hq : taken_header q (take 4 s)).
  { assert (E : take 4 s = h ++ take (Z.to_nat k) rest).
    { rewrite Hse, take_app_ge by (unfold len in *; lia). f_equal.
      destruct (decide (len z <= len rest)).
      - f_equal. unfold len in *. lia.
      - rewrite !take_ge by (unfold len in *; lia). done. }
    constructor; [|done|].
    - simpl. rewrite E. len_lia.
    - exists (drop (Z.to_nat k) z). rewrite E. simpl. rewrite app_assoc. split; [done|]. len_lia. }
  change (header_len q) with (len h + k).
  exists (if len s <? 4 then set_needed q (4 - (len h + k)) else q),
    (if len s <? 4 then 4 - (len h + k) else needed p), (off + k).
  unfold TURBO_RTSP_INTERLEAVED_HEADER_SIZE.
  assert (Hd : drop (Z.to_nat (off + k)) buffer = drop 4 s).
  { replace (Z.to_nat (off + k)) with (Z.to_nat off + Z.to_nat k)%nat by lia.
    rewrite <- drop_drop. fold rest. rewrite Hse, drop_app_ge by (unfold len in *; lia).
    destruct (decide (len z <= len rest)).
    - f_equal. unfold len in *. lia.
    - rewrite !drop_ge by (unfold len in *; lia). done. }
  destruct (len s <? 4) eqn:E4.
  - replace (len h + k <? 4) with true by lia. replace (4 <=? len s) with false by lia.
    split; [done|]. split; [done|]. split; [by destruct Hq; constructor|].
    split; [lia|]. split; [done|lia].
  - replace (len h + k <? 4) with false by lia. replace (4 <=? len s) with true by lia.
    split; [done|]. split; [by destruct p|]. split; [done|].
    split; [lia|]. split; [done|lia].
Qed.

(** A complete header is left alone. *)
Lemma starts_four s : 4 <= len s -> starts s ->
  exists ch hi lo rest, s = DOLLAR :: ch :: hi :: lo :: rest.
Proof.
  intros H [->|[t ->]]; [by unfold len in H|].
  destruct t as [|ch [|hi [|lo rest]]]; [by unfold len in H..|eauto].
Qed.

Lemma set_header_spec p ch hi lo :
  header p = [DOLLAR; ch; hi; lo] -> is_u8 hi -> is_u8 lo ->
  interleaved_set_header p =
  Ok (mk_parser (header p) (header_len p) ch (256 * hi + lo) (256 * hi + lo)
        (256 * hi + lo) (discarding_payload p) (payload_buffer p)
        (payload_buffer_size p) (payload_copied p) (frame_pending p)).
Proof.
  intros E Hh Hl. unfold interleaved_set_header. rewrite E.
  change (rd [DOLLAR; ch; hi; lo] 1) with (Ok ch).
  change (read_u16 [DOLLAR; ch; hi; lo] 2) with (Ok (u16 (Z.lor (Z.shiftl hi 8) lo))).
  cbn [mbind res_bind]. by rewrite read_u16_val.
Qed.

(* ------------------------------------------------------------------ *)
(** ** The collecting parser *)

(** The header is complete and [pl] of the payload is in the block. *)
Record collecting (p : interleaved_parser) (ch hi lo : Z) (pl : list Z) : Prop := {
  co_header : header p = [DOLLAR; ch; hi; lo];
  co_header_len : header_len p = 4;
  co_channel : channel p = ch;
  co_len : payload_len p = 256 * hi + lo;
  co_copied : payload_copied p = len pl;
  co_remaining : payload_remaining p = payload_len p - len pl;
  co_fits : len pl <= payload_len p <= payload_buffer_size p;
  co_discarding : discarding_payload p = false;
  co_block : payload_buffer_size p = len (payload_buffer p);
  co_bytes : take (length pl) (payload_buffer p) = pl;
}.

(** The parser has taken exactly the bytes [h] of the frame it is in. *)
Inductive holds (p : interleaved_parser) (h : list Z) : Prop :=
  | holds_header :
      taken_header p h -> len h < 4 ->
      payload_len p = 0 -> payload_remaining p = 0 -> payload_copied p = 0 ->
      discarding_payload p = false -> frame_pending p = false ->
      payload_buffer_size p = len (payload_buffer p) ->
      holds p h
  | holds_payload ch hi lo pl :
      h = DOLLAR :: ch :: hi :: lo :: pl ->
      is_u8 hi -> is_u8 lo ->
      collecting p ch hi lo pl -> 0 < payload_len p ->
      frame_pending p = (payload_remaining p =? 0) ->
      holds p h.

Lemma holds_reset p : payload_buffer_size p = len (payload_buffer p) -> holds (parser_reset p) [].
Proof.
  intros. apply holds_header; try done. constructor; [done|by left|].
  by exists [0; 0; 0; 0].
Qed.

Lemma holds_init : holds parser_init [].
Proof. by apply (holds_reset parser_init). Qed.

(** What a call does, against the stream it continues. *)
Definition copy_contract (o : outcome) (s buffer payload : list Z) : Prop :=
  match next s with
  | None =>
      out_result o = TURBO_RTSP_FRAME_PARTIAL /\ out_consumed o = len buffer /\
      out_frame o = frame0 /\ out_payload o = payload /\ holds (out_parser o) (resync s)
  | Some (ch, pl, rest) =>
      0 <= out_consumed o <= len buffer /\
      drop (Z.to_nat (out_consumed o)) buffer = rest /\
      if len pl <=? len payload then
        out_result o = TURBO_RTSP_FRAME_OK /\
        out_frame o = mk_frame ch (len pl) (if decide (pl = []) then None else Some pl) /\
        out_payload o = pl ++ drop (length pl) payload /\
        holds (out_parser o) []
      else
        out_result o = TURBO_RTSP_FRAME_ERROR /\
        out_frame o = mk_frame ch (len pl) None /\ out_payload o = payload /\
        holds (out_parser o) (wire (ch, pl))
  end.

Lemma be16_of hi lo : is_u8 hi -> is_u8 lo -> be16 (256 * hi + lo) = [hi; lo].
Proof.
  unfold is_u8. intros. unfold be16. rewrite shiftr8, land255. unfold u8.
  f_equal; [|f_equal]; zmod_lia.
Qed.

(** A complete payload is handed out, or stays for a larger buffer. *)
Lemma deliver_copy_spec p ch hi lo pl buffer payload off :
  collecting p ch hi lo pl -> payload_len p = len pl -> is_u8 hi -> is_u8 lo ->
  (frame_pending p = true) ->
  0 <= off <= len buffer ->
  exists o, deliver_copy p payload off = Ok o /\
    copy_contract o (DOLLAR :: ch :: hi :: lo :: pl ++ drop (Z.to_nat off) buffer)
      buffer payload.
Proof.
  intros Hc Hl Hhi Hlo Hp Hoff. pose proof (len_nonneg pl) as Hn.
  set (rest := drop (Z.to_nat off) buffer).
  assert (Hnext : next (DOLLAR :: ch :: hi :: lo :: pl ++ rest) = Some (ch, pl, rest)).
  { replace (DOLLAR :: ch :: hi :: lo :: pl ++ rest) with (wire (ch, pl) ++ rest).
    - apply next_wire. destruct Hc. unfold is_u8 in *. simpl. lia.
    - unfold wire. cbn [fst snd]. rewrite <- Hl, (co_len _ _ _ _ _ Hc), be16_of by done. done. }
  unfold copy_contract. rewrite Hnext. unfold deliver_copy. rewrite Hl, (co_channel _ _ _ _ _ Hc).
  destruct (len payload <? len pl) eqn:E.
  { replace (len pl <=? len payload) with false by lia.
    eexists. split; [done|]. split; [done|]. split; [done|].
    split; [done|]. split; [done|]. split; [done|]. cbn [out_parser].
    destruct (decide (len pl = 0)); [pose proof (len_nonneg payload); lia|].
    apply (holds_payload _ _ ch hi lo pl); try done.
    - unfold wire. cbn [fst snd]. by rewrite <- Hl, (co_len _ _ _ _ _ Hc), be16_of.
    - destruct Hc. by constructor.
    - simpl. lia.
    - simpl. destruct Hc. rewrite Hp. lia. }
  replace (len pl <=? len payload) with true by lia.
  assert (Hr : holds (parser_reset p) []) by (apply holds_reset, Hc).
  destruct (0 <? len pl) eqn:E0.
  - rewrite rd_slice_in_range by (destruct Hc; lia). cbn [mbind res_bind].
    change (Z.to_nat 0) with 0%nat. rewrite drop_0.
    rewrite len_to_nat, (co_bytes _ _ _ _ _ Hc), wr_front by lia. cbn [mbind res_bind].
    eexists. split; [done|]. split; [done|]. split; [done|].
    split; [done|]. split; [|done]. cbn [out_frame].
    rewrite decide_False; [done|]. intros ->. by unfold len in E0.
  - assert (pl = []) as -> by (apply nil_length_inv; unfold len in *; lia).
    eexists. split; [done|]. repeat (split; [done|]). done.
Qed.

(** The bytes at hand join the payload. *)
Lemma copy_payload_spec p ch hi lo pl buffer off :
  collecting p ch hi lo pl -> 0 <= off <= len buffer ->
  exists q k,
    k = Z.min (payload_remaining p) (len buffer - off) /\
    copy_payload p buffer off = Ok (q, off + k) /\
    collecting q ch hi lo (pl ++ take (Z.to_nat k) (drop (Z.to_nat off) buffer)) /\
    payload_len q = payload_len p /\ frame_pending q = frame_pending p /\
    needed q = needed p.
Proof.
  intros Hc Hoff. unfold copy_payload, interleaved_take.
  set (k := Z.min (payload_remaining p) (len buffer - off)).
  assert (Hk : (if len buffer - off <? payload_remaining p then len buffer - off
                else payload_remaining p) = k)
    by (destruct (len buffer - off <? payload_remaining p) eqn:?; lia).
  rewrite Hk. pose proof (len_nonneg pl).
  assert (0 <= payload_remaining p) by (destruct Hc; lia).
  assert (Hz : k <= 0 ->    exists q k', k' = k /\ Ok (p, off) = Ok (q, off + k') /\
      collecting q ch hi lo (pl ++ take (Z.to_nat k') (drop (Z.to_nat off) buffer)) /\
      payload_len q = payload_len p /\ frame_pending q = frame_pending p /\
      needed q = needed p).
  { intros Hk0. exists p, k. assert (k = 0) as -> by lia. cbn [Z.to_nat take].
    rewrite Z.add_0_r, app_nil_r. done. }
  destruct (0 <? payload_remaining p) eqn:E; [|apply Hz; lia].
  destruct (0 <? k) eqn:E0; [|apply Hz; lia]. clear Hz.
  rewrite rd_slice_in_range by lia. cbn [mbind res_bind].
  set (bs := take (Z.to_nat k) (drop (Z.to_nat off) buffer)).
  assert (Hbs : len bs = k) by (unfold bs; len_lia).
  destruct Hc. rewrite co_copied0.
  assert (Hb : payload_buffer p = pl ++ drop (length pl) (payload_buffer p))
    by (rewrite <- (take_drop (length pl) (payload_buffer p)) at 1; by rewrite co_bytes0).
  rewrite Hb, wr_next by len_lia. cbn [mbind res_bind].
  eexists _, k. split; [done|]. split; [done|]. split; [|done].
  constructor; cbn; try done; try len_lia.
  by rewrite take_app_length.
Qed.

(** The part of [parser_parse_copy] after the header. *)
Definition collect (p : interleaved_parser) (buffer payload : list Z) (offset : Z) :
    res outcome :=
  '(p, offset) ← copy_payload p buffer offset;
  if 0 <? payload_remaining p then
    Ok (mk_outcome (set_needed p (payload_remaining p)) TURBO_RTSP_FRAME_PARTIAL
          frame0 payload offset)
  else deliver_copy (set_pending p) payload offset.

Lemma collecting_needed p ch hi lo pl n :
  collecting p ch hi lo pl -> collecting (set_needed p n) ch hi lo pl.
Proof. destruct 1. by constructor. Qed.

Lemma collecting_pending p ch hi lo pl :
  collecting p ch hi lo pl -> collecting (set_pending p) ch hi lo pl.
Proof. destruct 1. by constructor. Qed.

Lemma collect_spec p ch hi lo pl buffer payload off :
  collecting p ch hi lo pl -> is_u8 hi -> is_u8 lo -> frame_pending p = false ->
  0 <= off <= len buffer ->
  exists o, collect p buffer payload off = Ok o /\
    copy_contract o (DOLLAR :: ch :: hi :: lo :: pl ++ drop (Z.to_nat off) buffer)
      buffer payload.
Proof.
  intros Hc Hhi Hlo Hp Hoff. unfold collect.
  destruct (copy_payload_spec p ch hi lo pl buffer off) as (q & k & Hk & -> & Hq & El & Ep & _);
    [done..|]. cbn [mbind res_bind].
  set (rest := drop (Z.to_nat off) buffer) in *.
  assert (Hlr : len rest = len buffer - off) by (unfold rest; len_lia).
  assert (Hrem : 0 <= payload_remaining p) by (destruct Hc; lia).
  assert (Hd : drop (Z.to_nat (off + k)) buffer = drop (Z.to_nat k) rest).
  { unfold rest. rewrite drop_drop. f_equal. lia. }
  assert (Hs : pl ++ rest = (pl ++ take (Z.to_nat k) rest) ++ drop (Z.to_nat (off + k)) buffer).
  { by rewrite Hd, <- app_assoc, take_drop. }
  destruct (0 <? payload_remaining q) eqn:E.
  - eexists. split; [done|]. unfold copy_contract.
    assert (Hkr : k = len rest).
    { pose proof (co_remaining _ _ _ _ _ Hq). pose proof (co_remaining _ _ _ _ _ Hc).
      revert H. rewrite len_app, len_take. lia. }
    rewrite (take_ge rest) in Hq by (unfold len in *; lia).
    assert (next (DOLLAR :: ch :: hi :: lo :: pl ++ rest) = None) as ->.
    { unfold next. cbn [resync]. rewrite Z.eqb_refl.
      replace (256 * hi + lo <=? len (pl ++ rest)) with false; [done|].
      destruct Hq. lia. }
    cbn [out_result out_consumed out_frame out_payload out_parser].
    split; [done|]. split; [lia|]. split; [done|]. split; [done|].
    rewrite resync_id by (right; eauto).
    apply (holds_payload _ _ ch hi lo (pl ++ rest)); try done.
    + by apply collecting_needed.
    + simpl. destruct Hq. pose proof (len_nonneg (pl ++ rest)). lia.
    + simpl. rewrite Ep, Hp. lia.
  - rewrite Hs.
    assert (payload_len q = len (pl ++ take (Z.to_nat k) rest)) by (destruct Hq; lia).
    apply deliver_copy_spec; try done; [by apply collecting_pending|lia].
Qed.

(** A short or partial header: nothing is found yet. *)
Lemma sync_partial p q nd off s buffer payload :
  q = with_header_needed p (header q) (header_len q) nd ->
  taken_header q (take 4 s) -> starts s -> len s < 4 -> off = len buffer ->
  payload_len p = 0 -> payload_remaining p = 0 -> payload_copied p = 0 ->
  discarding_payload p = false -> frame_pending p = false ->
  payload_buffer_size p = len (payload_buffer p) ->
  copy_contract (mk_outcome q TURBO_RTSP_FRAME_PARTIAL frame0 payload off) s buffer payload.
Proof.
  intros Hq Ht Hs Hl -> ? ? ? ? ? ?. unfold copy_contract.
  rewrite next_short by (by rewrite resync_id).
  repeat (split; [done|]). cbn [out_parser]. rewrite resync_id by done.
  rewrite take_ge in Ht by (unfold len in Hl; lia).
  by apply holds_header; [done|done|rewrite Hq..].
Qed.

Lemma collecting_start p ch hi lo fresh :
  header p = [DOLLAR; ch; hi; lo] -> header_len p = 4 -> is_u8 hi -> is_u8 lo ->
  payload_copied p = 0 -> discarding_payload p = false ->
  payload_buffer_size p = len (payload_buffer p) ->
  exists q q', interleaved_set_header p = Ok q /\
    ensure_payload q (payload_len q) (Some fresh) = Some q' /\
    collecting q' ch hi lo [] /\ frame_pending q' = frame_pending p.
Proof.
  intros Hh Hn Hhi Hlo Hc Hd Hb. rewrite (set_header_spec p ch hi lo) by done.
  match goal with |- context [Ok ?r = Ok _] => exists r end.
  unfold ensure_payload. cbn [payload_len payload_buffer_size].
  unfold is_u8 in *. pose proof (len_nonneg (payload_buffer p)).
  destruct ((256 * hi + lo =? 0) || (256 * hi + lo <=? payload_buffer_size p)) eqn:E.
  - eexists. split; [done|]. split; [done|]. split; [|done].
    constructor; cbn; try done; unfold len; cbn; lia.
  - eexists. split; [done|]. split; [done|]. split; [|done].
    constructor; cbn; try done; unfold len; cbn; [lia..|].
    rewrite length_app, length_fmap, length_seq. unfold len in *. lia.
Qed.

(** One call, on every state of the parser and every buffer. *)
Lemma parser_parse_copy_spec p h buffer payload fresh :
  holds p h -> bytes h -> bytes buffer ->
  exists o, parser_parse_copy p buffer payload (Some fresh) = Ok o /\
    copy_contract o (h ++ buffer) buffer payload.
Proof.
  intros Hp Bh Bb. unfold parser_parse_copy.
  destruct Hp as [Ht Hl H1 H2 H3 Hd Hf Hb|ch hi lo pl -> Hhi Hlo Hc Hpos Hf].
  - rewrite Hf, Hd. destruct (sync_header_spec p buffer h Ht) as (q & nd & off & -> & Hq & Tq & Ho & Hr & Hs).
    set (s := resync (h ++ buffer)) in *. cbn [mbind res_bind].
    assert (Hst : starts s) by apply resync_starts.
    assert (Bs : bytes s) by (apply resync_bytes; by apply Forall_app).
    assert (Hcc : forall o, copy_contract o s buffer payload -> copy_contract o (h ++ buffer) buffer payload).
    { intros o. unfold copy_contract, s. by rewrite next_resync, (resync_id (resync _)) by apply resync_starts. }
    destruct (4 <=? len s) eqn:E4; cbn [negb]; cycle 1.
    { eexists. split; [done|]. apply Hcc.
      eapply (sync_partial p); try done; [lia|apply Hs; lia]. }
    destruct (starts_four s) as (ch & hi & lo & rest & Es); [lia|done|].
    rewrite Es in *. cbn [take drop] in *.
    assert (is_u8 hi /\ is_u8 lo) as [Hhi Hlo]
      by (unfold bytes in Bs; rewrite !Forall_cons in Bs; tauto).
    assert (Hh : header q = [DOLLAR; ch; hi; lo]).
    { destruct (th_room _ _ Tq) as (z & E & ?).
      assert (z = []) as -> by (apply nil_length_inv; unfold len in *; simpl in *; lia).
      by rewrite app_nil_r in E. }
    assert (payload_remaining q = 0 /\ payload_len q = 0 /\ payload_copied q = 0)
      as (-> & -> & Hcp) by (by rewrite Hq).
    rewrite Hcp. cbn [Z.eqb andb].
    destruct (collecting_start q ch hi lo fresh) as (r & r' & -> & He & Hc & Hpr); try done.
    { by rewrite (th_len _ _ Tq). }
    { by rewrite Hq. } { by rewrite Hq. }
    cbn [mbind res_bind]. rewrite He. cbn [negb].
    change (exists o, collect r' buffer payload off = Ok o /\ copy_contract o (h ++ buffer) buffer payload).
    destruct (collect_spec r' ch hi lo [] buffer payload off) as (o & ? & Hco); try done.
    { rewrite Hpr. by rewrite Hq. }
    exists o. split; [done|]. apply Hcc. by rewrite Hr in Hco.
  - rewrite Hf, (co_discarding _ _ _ _ _ Hc). destruct (payload_remaining p =? 0) eqn:Er.
    + assert (payload_len p = len pl) by (destruct Hc; lia).
      apply (deliver_copy_spec p ch hi lo pl buffer payload 0); try done.
      pose proof (len_nonneg buffer). lia.
    + assert (sync_header p buffer = Ok (p, 0, true)) as ->.
      { unfold sync_header. rewrite (co_header_len _ _ _ _ _ Hc). cbn [Z.eqb andb].
        rewrite fill_header_done by (right; apply (co_header_len _ _ _ _ _ Hc)).
        cbn [mbind res_bind]. by rewrite (co_header_len _ _ _ _ _ Hc). }
      cbn [mbind res_bind negb]. rewrite Er. cbn [andb mbind res_bind negb].
      apply (collect_spec p ch hi lo pl buffer payload 0); try done.
      pose proof (len_nonneg buffer). lia.
Qed.

(** When the block cannot grow, the frame is given up and the call consumes nothing. *)
Lemma parser_parse_copy_no_memory p buffer payload o :
  frame_pending p = false -> discarding_payload p = false ->
  parser_parse_copy p buffer payload None = Ok o ->
  (exists fresh, parser_parse_copy p buffer payload (Some fresh) = Ok o) \/
  (out_result o = TURBO_RTSP_FRAME_ERROR /\ out_consumed o = 0 /\
   exists q, out_parser o = parser_reset q).
Proof.
  intros Hf Hd. unfold parser_parse_copy. rewrite Hf, Hd.
  destruct (sync_header p buffer) as [[[q off] ready]| |]; cbn [mbind res_bind]; try done.
  destruct ready; cbn [negb]; [|intros; left; by exists (fun _ => 0)].
  destruct ((payload_remaining q =? 0) && (payload_len q =? 0) && (payload_copied q =? 0)).
  - destruct (interleaved_set_header q) as [r| |]; cbn [mbind res_bind]; try done.
    unfold ensure_payload.
    destruct ((payload_len r =? 0) || (payload_len r <=? payload_buffer_size r)).
    + intros H. left. by exists (fun _ => 0).
    + cbn [negb]. intros [= <-]. right. split; [done|]. split; [done|]. by exists r.
  - intros H. left. by exists (fun _ => 0).
Qed.

(* ------------------------------------------------------------------ *)
(** ** A connection read by the collecting parser *)

Lemma holds_starts p h : holds p h -> starts h.
Proof. intros [[]|]; [done|]. subst. right. eauto. Qed.

Lemma next_exact h b ch pl : starts h -> next (h ++ b) = Some (ch, pl, b) -> next h = Some (ch, pl, []).
Proof.
  intros [->|[t ->]] H.
  { apply next_length in H. simpl in H. lia. }
  unfold next in *. cbn [app resync] in *. rewrite Z.eqb_refl in *.
  destruct (t ++ b) as [|c [|hi [|lo rest]]] eqn:E; try done.
  destruct (256 * hi + lo <=? len rest) eqn:El; [|done].
  injection H as <- <- Hb. set (n := Z.to_nat (256 * hi + lo)) in *.
  assert (Et : t = c :: hi :: lo :: take n rest).
  { apply (app_inv_tail b). rewrite E. cbn [app]. do 3 f_equal.
    rewrite <- (take_drop n rest) at 1. by rewrite Hb. }
  rewrite Et. fold n. replace (256 * hi + lo <=? len (take n rest)) with true
    by (symmetry; rewrite len_take; unfold n; lia).
  rewrite take_take, drop_ge by (rewrite length_take; lia). by rewrite Nat.min_id.
Qed.

(** A call that finds a frame takes a byte, unless the frame was pending. *)
Lemma next_progress h b ch pl c :
  starts h -> next h = None -> 0 <= c ->
  next (h ++ b) = Some (ch, pl, drop (Z.to_nat c) b) -> 0 < c /\ b <> [].
Proof.
  intros Hs Hn Hc H. assert (0 < c).
  { destruct (decide (c = 0)) as [->|]; [|lia].
    change (Z.to_nat 0) with 0%nat in H. rewrite drop_0 in H.
    apply next_exact in H; [congruence|done]. }
  split; [done|]. intros ->. rewrite drop_nil in H. apply next_exact in H; [congruence|done].
Qed.

Definition fit (payload : list Z) (fs : list (Z * list Z)) : Prop :=
  Forall (fun f => len (snd f) <= len payload) fs.

Lemma pump_copying fresh fuel p h payload b :
  (length b < fuel)%nat -> holds p h -> next h = None -> bytes h -> bytes b ->
  fit payload (frames (h ++ b)) ->
  exists p' payload' h',
    pump (copying fresh) fuel p payload b = Ok (p', payload', frames (h ++ b)) /\
    holds p' h' /\ next h' = None /\ bytes h' /\ len payload' = len payload /\
    forall t, frames (h ++ b ++ t) = frames (h ++ b) ++ frames (h' ++ t).
Proof.
  revert p h payload b. induction fuel as [|fuel IH]; intros p h payload b Hf Hp Hn Bh Bb Hfit; [lia|].
  cbn [pump].
  destruct (parser_parse_copy_spec p h b payload fresh) as (o & Eo & Ho); [done..|].
  change (copying fresh p b payload) with (parser_parse_copy p b payload (Some fresh)). rewrite Eo. cbn [mbind res_bind]. unfold copy_contract in Ho.
  rewrite (frames_unfold (h ++ b)) in *.
  destruct (next (h ++ b)) as [[[ch pl] rest]|] eqn:En.
  - destruct Ho as (Hc & Hr & Ho). apply Forall_cons in Hfit as [Hl Hfit]. cbn [snd] in Hl.
    replace (len pl <=? len payload) with true in Ho by lia.
    destruct Ho as (-> & Hfr & Hpay & Hp'). rewrite <- Hr in *.
    destruct (next_progress h b ch pl (out_consumed o)) as [Hpos Hne];
      [by eapply holds_starts|done|lia|done|].
    assert (Hlp : len (out_payload o) = len payload) by (rewrite Hpay; len_lia).
    destruct (IH (out_parser o) [] (out_payload o) (drop (Z.to_nat (out_consumed o)) b))
      as (p' & payload' & h' & -> & ? & ? & ? & ? & Ht); try done.
    + rewrite length_drop. unfold len in Hc. lia.
    + constructor.
    + by apply Forall_drop.
    + cbn [app]. unfold fit in *. by rewrite Hlp.
    + cbn [mbind res_bind app] in *. exists p', payload', h'.
      assert (frame_of (out_frame o) = (ch, pl)) as ->
        by (rewrite Hfr; unfold frame_of; cbn; by case_decide; subst).
      split; [done|]. split; [done|]. split; [done|]. split; [done|]. split; [lia|].
      intros t. rewrite app_assoc, frames_unfold, (next_app _ t _ _ _ En), Ht. done.
  - destruct Ho as (-> & Hc & _ & Hpay & Hp').
    rewrite Hc, len_to_nat, drop_all, decide_True by done. rewrite Hpay.
    exists (out_parser o), payload, (resync (h ++ b)).
    split; [done|]. split; [done|]. split; [by rewrite next_resync|].
    split; [apply resync_bytes; by apply Forall_app|]. split; [done|].
    intros t. by rewrite frames_resync_app, app_assoc.
Qed.

Lemma frames_prefix s t : frames s `prefix_of` frames (s ++ t).
Proof.
  induction s as [s IH] using (induction_ltof1 _ length). unfold ltof in IH.
  rewrite (frames_unfold s), (frames_unfold (s ++ t)).
  destruct (next s) as [[[ch pl] r]|] eqn:E; [|apply prefix_nil].
  rewrite (next_app _ t _ _ _ E). apply prefix_cons, IH.
  apply next_length in E. lia.
Qed.

Lemma feed_copying fresh bs p h payload :
  holds p h -> next h = None -> bytes h -> Forall bytes bs ->
  fit payload (frames (h ++ concat bs)) ->
  exists p', feed (copying fresh) p payload bs = Ok (p', frames (h ++ concat bs)).
Proof.
  revert p h payload. induction bs as [|b bs IH]; intros p h payload Hp Hn Bh Bb Hfit.
  - exists p. cbn [feed concat]. rewrite app_nil_r, frames_unfold, Hn. done.
  - apply Forall_cons in Bb as [Bb Bbs]. cbn [feed concat] in *.
    assert (Hfit' : fit payload (frames (h ++ b))).
    { destruct (frames_prefix (h ++ b) (concat bs)) as [k E].
      rewrite <- app_assoc in E. rewrite E in Hfit. by apply Forall_app in Hfit as [? _]. }
    destruct (pump_copying fresh (S (length b)) p h payload b)
      as (p' & payload' & h' & -> & ? & ? & ? & Hl & Ht); try done; try lia.
    rewrite Ht in *. cbn [mbind res_bind].
    destruct (IH p' h' payload') as (p'' & ->); try done.
    { unfold fit in *. rewrite Hl. by apply Forall_app in Hfit as [_ ?]. }
    cbn [mbind res_bind]. by exists p''.
Qed.

(* ------------------------------------------------------------------ *)
(** ** The pointing parser *)

(** Where the pointing parser stands: the header bytes it has, or the number of
    payload bytes it still has to discard. *)
Inductive place : Type :=
  | AtFrame (h : list Z)
  | Discarding (n : Z).

Inductive stands (p : interleaved_parser) : place -> Prop :=
  | stands_header h :
      taken_header p h -> len h < 4 ->
      payload_len p = 0 -> payload_remaining p = 0 -> discarding_payload p = false ->
      stands p (AtFrame h)
  | stands_payload ch hi lo :
      is_u8 hi -> is_u8 lo ->
      header p = [DOLLAR; ch; hi; lo] -> header_len p = 4 -> channel p = ch ->
      payload_len p = 256 * hi + lo -> payload_remaining p = payload_len p ->
      0 < payload_len p -> discarding_payload p = false ->
      stands p (AtFrame [DOLLAR; ch; hi; lo])
  | stands_discarding n :
      discarding_payload p = true -> payload_remaining p = n -> 0 < n ->
      stands p (Discarding n).

Lemma stands_reset p : stands (parser_reset p) (AtFrame []).
Proof.
  apply stands_header; try done. constructor; [done|by left|]. by exists [0; 0; 0; 0].
Qed.

(** The place after a stream [s] that holds no complete frame. *)
Definition place_after (s : list Z) : place :=
  match resync s with
  | _ :: _ :: hi :: lo :: rest =>
      if decide (rest = []) then AtFrame (resync s) else Discarding (256 * hi + lo - len rest)
  | r => AtFrame r
  end.

(** The frames still to come when [t] is what follows on the connection. *)
Definition owed (st : place) (t : list Z) : list (Z * list Z) :=
  match st with
  | AtFrame h => frames (h ++ t)
  | Discarding n => frames (drop (Z.to_nat n) t)
  end.

Definition point_contract (o : outcome) (s buffer : list Z) : Prop :=
  match next s with
  | None =>
      out_result o = TURBO_RTSP_FRAME_PARTIAL /\ out_consumed o = len buffer /\
      stands (out_parser o) (place_after s)
  | Some (ch, pl, rest) =>
      out_result o = TURBO_RTSP_FRAME_OK /\
      out_frame o = mk_frame ch (len pl) (Some pl) /\
      0 <= out_consumed o <= len buffer /\
      drop (Z.to_nat (out_consumed o)) buffer = rest /\
      stands (out_parser o) (AtFrame [])
  end.

(** The part of [parser_parse] after the header. *)
Definition point (p : interleaved_parser) (buffer : list Z) (offset : Z) : res outcome :=
  if payload_remaining p =? 0 then
    payload ← rd_slice buffer offset (payload_len p);
    Ok (mk_outcome (parser_reset p) TURBO_RTSP_FRAME_OK
          (mk_frame (channel p) (payload_len p) (Some payload)) [] offset)
  else if payload_remaining p <=? len buffer - offset then
    payload ← rd_slice buffer offset (payload_len p);
    Ok (mk_outcome (parser_reset p) TURBO_RTSP_FRAME_OK
          (mk_frame (channel p) (payload_len p) (Some payload)) []
          (offset + payload_remaining p))
  else
    let p := if offset <? len buffer
             then set_remaining (set_discarding p)
                    (payload_remaining p - (len buffer - offset))
             else p in
    Ok (mk_outcome (set_needed p (payload_remaining p)) TURBO_RTSP_FRAME_PARTIAL
          frame0 [] (len buffer)).

Lemma point_spec p ch hi lo buffer off :
  header p = [DOLLAR; ch; hi; lo] -> header_len p = 4 -> channel p = ch ->
  payload_len p = 256 * hi + lo -> payload_remaining p = payload_len p ->
  discarding_payload p = false -> is_u8 hi -> is_u8 lo -> 0 <= off <= len buffer ->
  exists o, point p buffer off = Ok o /\
    point_contract o (DOLLAR :: ch :: hi :: lo :: drop (Z.to_nat off) buffer) buffer.
Proof.
  intros Hh Hn Hch Hl Hr Hd Hhi Hlo Hoff. unfold point, point_contract, next, place_after.
  set (rest := drop (Z.to_nat off) buffer). cbn [resync]. rewrite Z.eqb_refl, Hr, Hl.
  assert (Hlr : len rest = len buffer - off) by (unfold rest; len_lia).
  assert (Hpos : 0 <= 256 * hi + lo) by (unfold is_u8 in *; lia).
  rewrite Hlr. destruct (256 * hi + lo <=? len buffer - off) eqn:E.
  - rewrite !rd_slice_in_range by lia. fold rest. cbn [mbind res_bind]. rewrite Hch.
    set (pl := take (Z.to_nat (256 * hi + lo)) rest).
    assert (Epl : len pl = 256 * hi + lo) by (unfold pl; len_lia).
    assert (Hdr : forall c, c = off + (256 * hi + lo) ->
      drop (Z.to_nat c) buffer = drop (Z.to_nat (256 * hi + lo)) rest).
    { intros c ->. unfold rest. rewrite drop_drop. f_equal. lia. }
    destruct (256 * hi + lo =? 0) eqn:E0; eexists; (split; [done|]);
      cbn [out_result out_frame out_consumed out_parser]; rewrite Epl;
      (split; [done|]); (split; [done|]); (split; [lia|]);
      (split; [apply Hdr; lia|apply stands_reset]).
  - replace (256 * hi + lo =? 0) with false by lia.
    eexists. split; [done|]. split; [done|]. split; [done|]. cbn [out_parser].
    destruct (off <? len buffer) eqn:Eo.
    + rewrite decide_False by (intros H; rewrite H in Hlr; unfold len in Hlr; simpl in Hlr; unfold len in Eo; lia).
      apply stands_discarding; [done|cbn; lia|lia].
    + assert (rest = []) as -> by (apply nil_length_inv; unfold len in *; lia).
      rewrite decide_True by done.
      by apply stands_payload; cbn; try done; lia.
Qed.

Lemma parser_parse_spec p h buffer :
  stands p (AtFrame h) -> bytes h -> bytes buffer ->
  exists o, parser_parse p buffer = Ok o /\ point_contract o (h ++ buffer) buffer.
Proof.
  intros Hp Bh Bb. unfold parser_parse.
  inversion Hp as [h' Ht Hl H1 H2 Hd|ch hi lo Hhi Hlo Hh Hn Hch Hl Hr Hpos Hd|]; subst.
  - rewrite Hd. destruct (sync_header_spec p buffer h Ht) as (q & nd & off & -> & Hq & Tq & Ho & Hr & Hs).
    set (s := resync (h ++ buffer)) in *. cbn [mbind res_bind].
    assert (Hst : starts s) by apply resync_starts.
    assert (Bs : bytes s) by (apply resync_bytes; by apply Forall_app).
    assert (Hcc : forall o, point_contract o s buffer -> point_contract o (h ++ buffer) buffer).
    { intros o. unfold point_contract, place_after, s.
      by rewrite next_resync, (resync_id (resync _)) by apply resync_starts. }
    destruct (4 <=? len s) eqn:E4; cbn [negb]; cycle 1.
    { eexists. split; [done|]. apply Hcc. unfold point_contract.
      rewrite next_short by (rewrite resync_id by done; lia).
      split; [done|]. split; [apply Hs; lia|].
      assert (place_after s = AtFrame s) as ->.
      { unfold place_after. rewrite resync_id by done.
        destruct s as [|? [|? [|? [|? r]]]]; try done. rewrite !len_cons in E4. pose proof (len_nonneg r). lia. }
      rewrite take_ge in Tq by (unfold len in *; lia).
      apply stands_header; [done|lia|by rewrite Hq..]. }
    destruct (starts_four s) as (ch & hi & lo & rest & Es); [lia|done|].
    rewrite Es in *. cbn [take drop] in *.
    assert (is_u8 hi /\ is_u8 lo) as [Hhi Hlo]
      by (unfold bytes in Bs; rewrite !Forall_cons in Bs; tauto).
    assert (Hh : header q = [DOLLAR; ch; hi; lo]).
    { destruct (th_room _ _ Tq) as (z & E & ?).
      assert (z = []) as -> by (apply nil_length_inv; unfold len in *; simpl in *; lia).
      by rewrite app_nil_r in E. }
    assert (payload_remaining q = 0 /\ payload_len q = 0) as (-> & ->) by (by rewrite Hq).
    cbn [Z.eqb andb]. rewrite (set_header_spec q ch hi lo) by done. cbn [mbind res_bind].
    match goal with |- context [payload_remaining ?r =? 0] =>
      change (exists o, point r buffer off = Ok o /\ point_contract o (h ++ buffer) buffer);
      destruct (point_spec r ch hi lo buffer off) as (o & ? & Hco); try done
    end.
    { cbn. by rewrite (th_len _ _ Tq). }
    { cbn. by rewrite Hq. }
    exists o. split; [done|]. apply Hcc. by rewrite Hr in Hco.
  - rewrite Hd.
    assert (sync_header p buffer = Ok (p, 0, true)) as ->.
    { unfold sync_header. rewrite Hn. cbn [Z.eqb andb].
      rewrite fill_header_done by (by right). cbn [mbind res_bind]. by rewrite Hn. }
    cbn [mbind res_bind negb].
    replace ((payload_remaining p =? 0) && (payload_len p =? 0)) with false by lia.
    cbn [mbind res_bind].
    change (exists o, point p buffer 0 = Ok o /\
      point_contract o ([DOLLAR; channel p; hi; lo] ++ buffer) buffer).
    apply (point_spec p (channel p) hi lo buffer 0); try done.
    pose proof (len_nonneg buffer). lia.
Qed.

Lemma parser_parse_discards p n buffer :
  stands p (Discarding n) ->
  exists o, parser_parse p buffer = Ok o /\ out_result o = TURBO_RTSP_FRAME_PARTIAL /\
    out_consumed o = Z.min n (len buffer) /\
    stands (out_parser o) (if n <=? len buffer then AtFrame [] else Discarding (n - len buffer)).
Proof.
  intros Hp. inversion Hp as [| |n' Hd Hr Hpos]; subst. unfold parser_parse. rewrite Hd.
  eexists. split; [done|]. unfold discard_payload, interleaved_take.
  cbn [out_result out_consumed out_parser]. split; [done|].
  destruct (len buffer <? payload_remaining p) eqn:E.
  - split; [lia|]. replace (payload_remaining p <=? len buffer) with false by lia.
    replace (payload_remaining p - len buffer =? 0) with false by lia.
    apply stands_discarding; [done|done|lia].
  - split; [lia|]. replace (payload_remaining p <=? len buffer) with true by lia.
    rewrite Z.sub_diag. apply stands_reset.
Qed.

(** What a buffer without a complete frame leaves owed is part of what was owed. *)
Lemma owed_place_after s t :
  next s = None -> owed (place_after s) t `sublist_of` frames (s ++ t).
Proof.
  intros Hn. rewrite <- frames_resync_app. rewrite <- next_resync in Hn. unfold place_after.
  destruct (resync_starts s) as [->|[u Eu]]; [done|]. rewrite Eu in *.
  destruct u as [|ch [|hi [|lo rest]]]; try done. case_decide; [done|].
  unfold next in Hn. cbn [resync] in Hn. rewrite Z.eqb_refl in Hn.
  destruct (256 * hi + lo <=? len rest) eqn:E; [done|].
  cbn [owed app]. rewrite (frames_unfold (DOLLAR :: _)). unfold next. cbn [resync].
  rewrite Z.eqb_refl. pose proof (len_nonneg rest). pose proof (len_nonneg t).
  rewrite len_app. destruct (256 * hi + lo <=? len rest + len t) eqn:E2.
  - rewrite drop_app_ge by (unfold len in *; lia).
    replace (Z.to_nat (256 * hi + lo - len rest)) with (Z.to_nat (256 * hi + lo) - length rest)%nat
      by (unfold len; lia).
    by apply sublist_cons.
  - rewrite drop_ge by (unfold len in *; lia). done.
Qed.

Lemma stands_header_only p h : stands p (AtFrame h) -> starts h /\ next h = None.
Proof.
  intros Hp. inversion Hp as [h' Ht Hl| ch hi lo|]; subst.
  - pose proof (th_starts _ _ Ht). split; [done|]. apply next_short. by rewrite resync_id.
  - split; [right; eauto|]. unfold next. cbn [resync]. rewrite Z.eqb_refl.
    replace (256 * hi + lo <=? len []) with false by (unfold len; simpl; lia). done.
Qed.

Definition place_bytes (st : place) : Prop :=
  match st with AtFrame h => bytes h | Discarding _ => True end.

Lemma place_after_bytes s : bytes s -> place_bytes (place_after s).
Proof.
  intros H%resync_bytes. unfold place_after.
  destruct (resync s) as [|? [|? [|? [|? ?]]]]; try done. by case_decide.
Qed.

Lemma pump_pointing fuel p st payload b :
  (length b < fuel)%nat -> stands p st -> place_bytes st -> bytes b ->
  exists p' payload' st' fs,
    pump pointing fuel p payload b = Ok (p', payload', fs) /\
    stands p' st' /\ place_bytes st' /\
    (forall t, fs ++ owed st' t `sublist_of` owed st (b ++ t)) /\
    (forall h, st = AtFrame h -> fs = frames (h ++ b)).
Proof.
  revert p st payload b. induction fuel as [|fuel IH]; intros p st payload b Hf Hp Bs Bb; [lia|].
  cbn [pump]. change (pointing p b payload) with (parser_parse p b).
  destruct st as [h|n].
  - destruct (parser_parse_spec p h b) as (o & -> & Ho); [done..|]. cbn [mbind res_bind].
    unfold point_contract in Ho.
    destruct (stands_header_only p h Hp) as [Hs Hn].
    destruct (next (h ++ b)) as [[[ch pl] rest]|] eqn:En.
    + destruct Ho as (-> & Hfr & Hc & Hr & Hp'). rewrite <- Hr in *.
      destruct (next_progress h b ch pl (out_consumed o)) as [Hpos Hne]; [done|done|lia|done|].
      destruct (IH (out_parser o) (AtFrame []) (out_payload o) (drop (Z.to_nat (out_consumed o)) b))
        as (p' & payload' & st' & fs & -> & ? & ? & Ht & Hall); try done.
      { rewrite length_drop. unfold len in Hc. lia. }
      { constructor. }
      { by apply Forall_drop. }
      cbn [mbind res_bind]. rewrite Hfr.
      exists p', payload', st', ((ch, pl) :: fs).
      split; [done|]. split; [done|]. split; [done|]. split.
      * intros t. cbn [owed]. rewrite app_assoc, frames_unfold, (next_app _ t _ _ _ En).
        cbn [app]. by apply sublist_skip, Ht.
      * intros h' [= <-]. by rewrite frames_unfold, En, (Hall [] eq_refl).
    + destruct Ho as (-> & Hc & Hp').
      rewrite Hc, len_to_nat, drop_all, decide_True by done.
      eexists _, _, _, []. split; [done|]. split; [done|].
      split; [apply place_after_bytes; by apply Forall_app|]. split.
      * intros t. cbn [owed app]. rewrite app_assoc. by apply owed_place_after.
      * intros h' [= <-]. by rewrite frames_unfold, En.
  - destruct (parser_parse_discards p n b Hp) as (o & -> & Hres & Hc & Hp').
    cbn [mbind res_bind]. rewrite Hres.
    assert (0 < n) by (by inversion Hp). pose proof (len_nonneg b).
    rewrite Hc. destruct (n <=? len b) eqn:E.
    + replace (Z.min n (len b)) with n by lia. case_decide as Hd.
      * eexists _, _, (AtFrame []), []. split; [done|]. split; [done|]. split; [constructor|].
        split; [|done]. intros t. cbn [owed app].
        rewrite drop_app, Hd. cbn [app]. replace (Z.to_nat n - length b)%nat with 0%nat; [by rewrite drop_0|].
        unfold len in E. lia.
      * destruct (IH (out_parser o) (AtFrame []) (out_payload o) (drop (Z.to_nat n) b))
          as (p' & payload' & st' & fs & -> & ? & ? & Ht & Hall); try done.
        { rewrite length_drop. unfold len in E. lia. }
        { constructor. }
        { by apply Forall_drop. }
        exists p', payload', st', fs. split; [done|]. split; [done|]. split; [done|].
        split; [|done]. intros t. cbn [owed] in *. rewrite drop_app_le by (unfold len in E; lia).
        apply Ht.
    + replace (Z.min n (len b)) with (len b) by lia.
      rewrite len_to_nat, drop_all, decide_True by done.
      eexists _, _, _, []. split; [done|]. split; [done|]. split; [done|]. split; [|done].
      intros t. cbn [owed app]. rewrite drop_app_ge by (unfold len in E; lia).
      replace (Z.to_nat (n - len b)) with (Z.to_nat n - length b)%nat by (unfold len; lia). done.
Qed.

Lemma feed_pointing bs p st payload :
  stands p st -> place_bytes st -> Forall bytes bs ->
  exists p' st' fs, feed pointing p payload bs = Ok (p', fs) /\ stands p' st' /\
    forall t, fs ++ owed st' t `sublist_of` owed st (concat bs ++ t).
Proof.
  revert p st payload. induction bs as [|b bs IH]; intros p st payload Hp Bs Bb.
  { exists p, st, []. done. }
  apply Forall_cons in Bb as [Bb Bbs]. cbn [feed concat].
  destruct (pump_pointing (S (length b)) p st payload b)
    as (p' & payload' & st' & fs & -> & Hp' & Bs' & Ht & _); [lia|done..|].
  cbn [mbind res_bind].
  destruct (IH p' st' payload') as (p'' & st'' & gs & -> & ? & Hgs); [done..|].
  cbn [mbind res_bind]. exists p'', st'', (fs ++ gs). split; [done|]. split; [done|].
  intros t. rewrite <- !app_assoc. etrans; [|apply Ht]. by apply sublist_app.
Qed.

Lemma stands_init : stands parser_init (AtFrame []).
Proof. apply (stands_reset parser_init). Qed.

(* ------------------------------------------------------------------ *)
(** ** Frames in one buffer *)

Lemma interleaved_parse_spec b :
  bytes b -> starts b ->
  interleaved_parse b =
  Ok match next b with
     | Some (ch, pl, rest) => (TURBO_RTSP_FRAME_OK, mk_frame ch (len pl) (Some pl), 4 + len pl)
     | None => (TURBO_RTSP_FRAME_PARTIAL, frame0, 0)
     end.
Proof.
  intros Bb Hs. unfold interleaved_parse, TURBO_RTSP_INTERLEAVED_HEADER_SIZE.
  destruct (len b <? 4) eqn:E.
  { rewrite next_short; [done|]. rewrite resync_id by done. lia. }
  destruct (starts_four b) as (ch & hi & lo & rest & ->); [lia|done|].
  unfold bytes in Bb. rewrite !Forall_cons in Bb. destruct Bb as (_ & _ & Hhi & Hlo & _).
  change (rd (DOLLAR :: ch :: hi :: lo :: rest) 0) with (Ok DOLLAR).
  change (read_u16 (DOLLAR :: ch :: hi :: lo :: rest) 2) with (Ok (u16 (Z.lor (Z.shiftl hi 8) lo))).
  change (rd (DOLLAR :: ch :: hi :: lo :: rest) 1) with (Ok ch).
  cbn [mbind res_bind]. rewrite Z.eqb_refl, read_u16_val by done. cbn [negb].
  unfold next. cbn [resync]. rewrite Z.eqb_refl, !len_cons.
  unfold is_u8 in *. destruct (256 * hi + lo <=? len rest) eqn:El.
  - replace (1 + (1 + (1 + (1 + len rest))) <? 4 + (256 * hi + lo)) with false by lia.
    rewrite rd_slice_in_range by (rewrite ?len_cons; lia).
    change (Z.to_nat 4) with 4%nat. cbn [mbind res_bind drop].
    rewrite len_take. do 3 f_equal; [f_equal|]; lia.
  - by replace (1 + (1 + (1 + (1 + len rest))) <? 4 + (256 * hi + lo)) with true by lia.
Qed.

Lemma write_header_wire buffer f :
  len buffer = 4 -> is_u16 (len (snd f)) ->
  exists hdr, interleaved_write_header buffer (fst f) (len (snd f)) = Ok (4, hdr) /\
    hdr ++ snd f = wire f.
Proof.
  intros Hb Hf. destruct buffer as [|a [|b [|c [|d [|]]]]]; try done.
  2:{ unfold len in Hb. simpl in Hb. lia. }
  eexists. split; [reflexivity|]. destruct f as [ch pl]. done.
Qed.

Lemma next_len s ch pl r :
  starts s -> next s = Some (ch, pl, r) -> len s = 4 + len pl + len r.
Proof.
  intros Hs. unfold next. rewrite resync_id by done.
  destruct s as [|a [|c [|hi [|lo rest]]]]; try done.
  destruct (256 * hi + lo <=? len rest); [|done]. intros [= <- <- <-].
  rewrite !len_cons, len_take, len_drop. pose proof (len_nonneg rest). lia.
Qed.

Lemma next_parts s ch pl r :
  bytes s -> next s = Some (ch, pl, r) -> exists pre, s = pre ++ wire (ch, pl) ++ r.
Proof.
  intros Bs Hn. destruct (resync_suffix s) as [pre E]. apply resync_bytes in Bs.
  exists pre. rewrite E. f_equal. revert Hn Bs. unfold next, bytes. clear E.
  destruct (resync_starts s) as [->|[u ->]]; [done|].
  destruct u as [|c [|hi [|lo rest]]]; try done.
  destruct (256 * hi + lo <=? len rest) eqn:El; [|done]. intros [= <- <- <-].
  rewrite !Forall_cons. intros (_ & _ & Hhi & Hlo & _).
  unfold wire. cbn [fst snd]. assert (0 <= 256 * hi + lo) by (unfold is_u8 in *; lia).
  rewrite len_take, Z.min_l, Z2Nat.id, be16_of by (done || lia).
  cbn [app]. by rewrite take_drop.
Qed.

Lemma holds_pending p ch pl :
  holds p (wire (ch, pl)) -> len pl <= 65535 -> frame_pending p = true.
Proof.
  intros [Ht Hl|ch' hi lo pl' E Hhi Hlo Hc Hpos Hf] Hu.
  - revert Hl. unfold wire. cbn [fst snd]. rewrite len_cons, len_cons, len_app.
    change (len (be16 (len pl))) with 2. pose proof (len_nonneg pl). lia.
  - unfold wire in E. cbn [fst snd] in E.
    assert (pl' = pl) as -> by (unfold be16 in E; by simplify_eq/=).
    assert (be16 (len pl) = [hi; lo]) as Eb by (unfold be16 in *; by simplify_eq/=).
    rewrite Hf, (co_remaining _ _ _ _ _ Hc), (co_len _ _ _ _ _ Hc).
    pose proof (len_nonneg pl). injection Eb as <- <-.
    rewrite shiftr8, land255. unfold u8. zmod_lia.
Qed.

(* ------------------------------------------------------------------ *)
(** ** Properties *)

(** However the stream is cut into buffers, the collecting parser hands out
    exactly the complete frames of the whole stream, in order and intact, when every
    payload fits the caller's buffer and its own block can grow.  Noise between frames
    is skipped, and a payload may cross any number of buffers. *)
Theorem interleaved_copy_frames fresh payload buffers :
  Forall bytes buffers ->
  Forall (fun f => len (snd f) <= len payload) (frames (concat buffers)) ->
  exists p, feed (copying fresh) parser_init payload buffers = Ok (p, frames (concat buffers)).
Proof.
  intros Hb Hf. apply (feed_copying fresh buffers parser_init []); try done.
  - apply holds_init.
  - constructor.
Qed.

Lemma interleaved_copy_frames_witness :
  exists p, feed (copying (fun _ => 7)) parser_init [9; 9; 9; 9]
    [[1; 36; 8]; [0; 4; 0xde]; [0xad; 0xbe; 0xef; 36; 1; 0; 1; 0x7a]] =
  Ok (p, [(8, [0xde; 0xad; 0xbe; 0xef]); (1, [0x7a])]).
Proof.
  apply (interleaved_copy_frames (fun _ => 7) [9; 9; 9; 9]
    [[1; 36; 8]; [0; 4; 0xde]; [0xad; 0xbe; 0xef; 36; 1; 0; 1; 0x7a]]).
  - repeat constructor; done.
  - repeat constructor; vm_compute; discriminate.
Defined.

(** Frames written with [interleaved_write_header] before their payloads come back
    from the collecting parser unchanged, for every cut of the connection's bytes into
    buffers. *)
Theorem interleaved_roundtrip fresh payload fs ws buffers :
  Forall (fun f => is_u8 (fst f) /\ bytes (snd f) /\ is_u16 (len (snd f)) /\
                   len (snd f) <= len payload) fs ->
  Forall2 (fun f w => exists b h, len b = 4 /\
             interleaved_write_header b (fst f) (len (snd f)) = Ok (4, h) /\
             w = h ++ snd f) fs ws ->
  concat buffers = concat ws ->
  exists p, feed (copying fresh) parser_init payload buffers = Ok (p, fs).
Proof.
  intros Hfs Hws Hcut.
  assert (ws = wire <$> fs) as ->.
  { clear Hcut. induction Hws as [|f w fs ws (b & h & Hb & Hw & ->) _ IH]; [done|].
    apply Forall_cons in Hfs as [(_ & _ & Hu & _) Hfs]. cbn [fmap list_fmap].
    destruct (write_header_wire b f Hb Hu) as (h' & E & <-). rewrite Hw in E.
    injection E as ->. f_equal. by apply IH. }
  assert (Hfr : frames (concat buffers) = fs).
  { rewrite Hcut. apply frames_wire. eapply Forall_impl; [exact Hfs|].
    cbn. unfold is_u16. intros f. lia. }
  rewrite <- Hfr. apply (feed_copying fresh buffers parser_init []); try done.
  - apply holds_init.
  - constructor.
  - apply Forall_concat. rewrite Hcut. clear Hws Hcut Hfr.
    induction Hfs as [|f fs (Hc & Hp & _) _ IH]; [constructor|].
    cbn [fmap list_fmap concat]. apply Forall_app. split; [|done].
    unfold wire. constructor; [done|]. constructor; [done|].
    apply Forall_app. split; [apply be16_bytes|done].
  - cbn [app]. rewrite Hfr. eapply Forall_impl; [exact Hfs|]. cbn. tauto.
Qed.

Lemma interleaved_roundtrip_witness :
  exists p, feed (copying (fun _ => 0)) parser_init [0; 0]
    [[36; 5; 0]; [2; 1]; [2; 36; 6; 0; 0]] = Ok (p, [(5, [1; 2]); (6, [])]).
Proof.
  apply (interleaved_roundtrip (fun _ => 0) [0; 0] [(5, [1; 2]); (6, [])]
    [[36; 5; 0; 2; 1; 2]; [36; 6; 0; 0]]).
  - repeat constructor; vm_compute; discriminate.
  - repeat constructor; exists [0; 0; 0; 0]; eexists; (split; [reflexivity|]);
      split; reflexivity.
  - reflexivity.
Defined.

(** The pointing parser never loses the frame boundaries: whatever the buffers, it
    reads all of them without leaving one, and what it hands out are frames of the
    stream, in order, each of them whole; those of a buffer that starts at a boundary
    and holds them completely are all there.  Only a payload that crosses a buffer is
    dropped. *)
Theorem interleaved_pointing_sync payload buffers :
  Forall bytes buffers ->
  exists p fs, feed pointing parser_init payload buffers = Ok (p, fs) /\
    fs `sublist_of` frames (concat buffers) /\
    forall b, buffers = [b] -> fs = frames b.
Proof.
  intros Hb.
  destruct (feed_pointing buffers parser_init (AtFrame []) payload) as (p & st & fs & E & _ & Ht);
    [apply stands_init|constructor|done|].
  exists p, fs. split; [done|]. split.
  - specialize (Ht []). rewrite app_nil_r in Ht. cbn [owed app] in Ht.
    etrans; [|exact Ht]. by apply sublist_inserts_r.
  - intros b ->. apply Forall_cons in Hb as [Hb _]. cbn [feed] in E.
    destruct (pump_pointing (S (length b)) parser_init (AtFrame []) payload b)
      as (p' & payload' & st' & gs & Eg & _ & _ & _ & Hall);
      [lia|apply stands_init|constructor|done|].
    rewrite Eg in E. cbn [mbind res_bind feed] in E. rewrite app_nil_r in E.
    injection E as _ <-. by apply (Hall []).
Qed.

Lemma interleaved_pointing_sync_witness :
  exists p fs, feed pointing parser_init [] [[36; 0; 0; 4; 0xde; 0xad]; [0xbe]; [0xef; 36; 1; 0; 1; 0x7a]] =
    Ok (p, fs) /\
    fs `sublist_of` [(0, [0xde; 0xad; 0xbe; 0xef]); (1, [0x7a])] /\
    forall b, [[36; 0; 0; 4; 0xde; 0xad]; [0xbe]; [0xef; 36; 1; 0; 1; 0x7a]] = [b] -> fs = frames b.
Proof.
  apply (interleaved_pointing_sync [] [[36; 0; 0; 4; 0xde; 0xad]; [0xbe]; [0xef; 36; 1; 0; 1; 0x7a]]).
  repeat constructor; done.
Defined.

(** On a buffer that starts with a frame, the parser of one buffer and a fresh
    pointing parser agree: the same buffers give a frame, the same one, and consume the
    same bytes. *)
Theorem interleaved_parsers_agree b f c :
  bytes b -> hd_error b = Some DOLLAR ->
  interleaved_parse b = Ok (TURBO_RTSP_FRAME_OK, f, c) <->
  exists o, parser_parse parser_init b = Ok o /\ out_result o = TURBO_RTSP_FRAME_OK /\
    out_frame o = f /\ out_consumed o = c.
Proof.
  intros Bb Hd. assert (Hs : starts b) by (destruct b; [done|right; simplify_eq/=; eauto]).
  rewrite interleaved_parse_spec by done.
  destruct (parser_parse_spec parser_init [] b) as (o & -> & Ho);
    [apply stands_init|constructor|done|].
  unfold point_contract in Ho. cbn [app] in Ho.
  destruct (next b) as [[[ch pl] rest]|] eqn:E.
  - destruct Ho as (Hr & Hf & Hc & Hd' & _). pose proof (next_len b _ _ _ Hs E) as Hl.
    assert (out_consumed o = 4 + len pl) as Hoc.
    { rewrite <- Hd', len_drop in Hl. lia. }
    split.
    + intros [= <- <-]. by exists o.
    + intros (o' & [= <-] & _ & <- & <-). by rewrite Hf, Hoc.
  - destruct Ho as (Hr & _). split; [done|]. intros (o' & [= <-] & Hr' & _). congruence.
Qed.

Lemma interleaved_parsers_agree_witness :
  interleaved_parse [36; 2; 0; 1; 5; 82] = Ok (TURBO_RTSP_FRAME_OK, mk_frame 2 1 (Some [5]), 5) <->
  exists o, parser_parse parser_init [36; 2; 0; 1; 5; 82] = Ok o /\
    out_result o = TURBO_RTSP_FRAME_OK /\ out_frame o = mk_frame 2 1 (Some [5]) /\
    out_consumed o = 5.
Proof.
  apply (interleaved_parsers_agree [36; 2; 0; 1; 5; 82] (mk_frame 2 1 (Some [5])) 5).
  - repeat constructor; done.
  - reflexivity.
Defined.

(** A frame too large for the caller's buffer is an error that names the length it
    needs and loses nothing: the call leaves the stream after the frame, and the next
    call with a large enough buffer hands the frame out whole without reading, whatever
    is in its buffer and whether or not memory is left. *)
Theorem interleaved_small_buffer_retry p h b payload fresh ch pl rest :
  holds p h -> bytes h -> bytes b ->
  next (h ++ b) = Some (ch, pl, rest) -> len payload < len pl <= 65535 ->
  exists o, parser_parse_copy p b payload (Some fresh) = Ok o /\
    out_result o = TURBO_RTSP_FRAME_ERROR /\
    out_frame o = mk_frame ch (len pl) None /\
    drop (Z.to_nat (out_consumed o)) b = rest /\
    forall b' payload' grow, bytes b' -> len pl <= len payload' ->
      exists o', parser_parse_copy (out_parser o) b' payload' grow = Ok o' /\
        out_result o' = TURBO_RTSP_FRAME_OK /\
        out_frame o' = mk_frame ch (len pl) (Some pl) /\
        out_payload o' = pl ++ drop (length pl) payload' /\
        drop (Z.to_nat (out_consumed o')) b' = b' /\ holds (out_parser o') [].
Proof.
  intros Hp Bh Bb En Hl.
  destruct (parser_parse_copy_spec p h b payload fresh) as (o & E & Ho); [done..|].
  exists o. split; [done|]. unfold copy_contract in Ho. rewrite En in Ho.
  destruct Ho as (_ & Hr & Ho). replace (len pl <=? len payload) with false in Ho by lia.
  destruct Ho as (-> & -> & _ & Hw). repeat (split; [done|]).
  intros b' payload' grow Bb' Hl'.
  assert (Hpl : bytes (wire (ch, pl))).
  { assert (bytes (h ++ b)) as Ball by (by apply Forall_app).
    destruct (next_parts _ _ _ _ Ball En) as (pre & E').
    rewrite E' in Ball. unfold bytes in Ball |- *. rewrite !Forall_app in Ball. tauto. }
  destruct (parser_parse_copy_spec (out_parser o) (wire (ch, pl)) b' payload' (fun _ => 0))
    as (o' & E' & Ho'); [done..|].
  exists o'. split.
  { rewrite <- E'. unfold parser_parse_copy.
    by rewrite (holds_pending _ _ _ Hw) by lia. }
  unfold copy_contract in Ho'. rewrite next_wire in Ho' by (cbn; lia). cbn [fst snd] in Ho'.
  destruct Ho' as (_ & Hr' & Ho'). replace (len pl <=? len payload') with true in Ho' by lia.
  destruct Ho' as (-> & -> & -> & Hh). split; [done|].
  rewrite decide_False; [done|]. intros ->. pose proof (len_nonneg payload).
  unfold len in Hl. simpl in Hl. lia.
Qed.

Lemma interleaved_small_buffer_retry_witness :
  exists o, parser_parse_copy parser_init [82; 36; 9; 0; 2; 5; 6; 36] [0] (Some (fun _ => 7)) = Ok o /\
    out_result o = TURBO_RTSP_FRAME_ERROR /\
    out_frame o = mk_frame 9 2 None /\
    drop (Z.to_nat (out_consumed o)) [82; 36; 9; 0; 2; 5; 6; 36] = [36] /\
    forall b' payload' grow, bytes b' -> len [5; 6] <= len payload' ->
      exists o', parser_parse_copy (out_parser o) b' payload' grow = Ok o' /\
        out_result o' = TURBO_RTSP_FRAME_OK /\
        out_frame o' = mk_frame 9 2 (Some [5; 6]) /\
        out_payload o' = [5; 6] ++ drop 2 payload' /\
        drop (Z.to_nat (out_consumed o')) b' = b' /\ holds (out_parser o') [].
Proof.
  apply (interleaved_small_buffer_retry parser_init [] [82; 36; 9; 0; 2; 5; 6; 36] [0] (fun _ => 7)
    9 [5; 6] [36]).
  - apply holds_init.
  - constructor.
  - repeat constructor; done.
  - reflexivity.
  - vm_compute. split; [reflexivity|discriminate].
Defined.
