(* ===== verification/RtspRtp.v ===== *)
(** * RTP over RTSP: packets, sources and streams

    media/rtsp/parser/turbo_rtsp_rtp.c, the parts every payload format uses: the RTP
    header reader and writer, the statistics of a source that packets arrive from, the
    counters of a sender, and a stream that writes one packet for a payload.  This is
    the RTSP library's own implementation of RTP; the one of the RTC core is
    [RtpPacket], whose byte layout lemmas it shares.

    Handles and out parameters are not [NULL].  A pointer with its length is the list of
    bytes it points to, so [payload] and [payload_len] of a header are both kept: a
    header that is written names its payload by the length only. *)

From S2P Require Import Prelude RtpPacket.

(* ------------------------------------------------------------------ *)
(** ** Data *)

Definition TURBO_RTSP_RTP_HEADER_SIZE : Z := 12.
Definition TURBO_RTSP_RTP_SEQ_MOD : Z := 65536.
Definition TURBO_RTSP_RTP_MAX_DROPOUT : Z := 3000.

Record turbo_rtsp_rtp_header_t := mk_header {
  h_version : Z;
  h_padding : Z;
  h_extension : Z;
  h_csrc_count : Z;
  h_marker : Z;
  h_payload_type : Z;
  h_sequence_number : Z;
  h_timestamp : Z;
  h_ssrc : Z;
  h_csrc : list Z;
  h_extension_profile : Z;
  h_extension_len : Z;
  h_extension_data : option (list Z);
  h_padding_len : Z;
  h_payload : option (list Z);
  h_payload_len : Z;
}.

Inductive source_result : Type :=
  | UPDATE_ERROR | UPDATE_OK | UPDATE_DUPLICATE | UPDATE_LATE_OR_OUT_OF_ORDER
  | UPDATE_DROPOUT | UPDATE_SSRC_MISMATCH.

#[export] Instance source_result_eq_dec : EqDecision source_result.
Proof. solve_decision. Defined.

(** What a source keeps.  [expected_prior] and [received_prior] belong to its reports. *)
Record turbo_rtsp_rtp_source_t := mk_source {
  src_ssrc : Z;
  src_base : Z;
  src_max : Z;
  src_cycles : Z;
  src_received : Z;
  src_expected_prior : Z;
  src_received_prior : Z;
  src_transit : Z;
  src_jitter_q4 : Z;
  src_bitmap : Z;
  src_has_ssrc : bool;
  src_initialized : bool;
}.

Record turbo_rtsp_rtp_sender_t := mk_sender {
  snd_ssrc : Z;
  snd_packet_count : Z;
  snd_octet_count : Z;
  snd_has_ssrc : bool;
}.

Record turbo_rtsp_rtp_stream_t := mk_stream {
  st_payload_type : Z;
  st_ssrc : Z;
  st_sequence_number : Z;
  st_timestamp : Z;
  st_clock_rate : Z;
  st_sender : turbo_rtsp_rtp_sender_t;
}.

(* ------------------------------------------------------------------ *)
(** ** Headers *)

(** The CSRC list, into the array of 16. *)
Fixpoint read_csrcs (n : nat) (packet : list Z) (i : Z) (csrc : list Z) : res (list Z) :=
  match n with
  | O => Ok csrc
  | S n =>
      c ← read_u32 packet (TURBO_RTSP_RTP_HEADER_SIZE + i * 4);
      csrc ← upd csrc i c;
      read_csrcs n packet (i + 1) csrc
  end.

(** The extension: its profile, its length and data, and the offset after it. *)
Definition parse_extension (packet : list Z) (parsed_len : Z) :
    res (Z * Z * option (list Z) * Z) :=
  if len packet <? parsed_len + 4 then Err
  else
    profile ← read_u16 packet parsed_len;
    words ← read_u16 packet (parsed_len + 2);
    if len packet <? parsed_len + 4 + words * 4 then Err
    else
      data ← rd_slice packet (parsed_len + 4) (words * 4);
      Ok (profile, words * 4, Some data, parsed_len + 4 + words * 4).

Definition parse_padding (packet : list Z) (padding raw_payload_len : Z) : res Z :=
  if truth padding then
    if raw_payload_len <? 1 then Err
    else
      n ← rd packet (len packet - 1);
      if (n =? 0) || (raw_payload_len <? n) then Err else Ok n
  else Ok 0.

(** The header and its length. *)
Definition rtsp_rtp_parse_header (packet : list Z) : res (turbo_rtsp_rtp_header_t * Z) :=
  if len packet <? TURBO_RTSP_RTP_HEADER_SIZE then Err
  else
    b0 ← rd packet 0;
    b1 ← rd packet 1;
    seq ← read_u16 packet 2;
    ts ← read_u32 packet 4;
    ssrc ← read_u32 packet 8;
    let version := u8 (Z.shiftr b0 6) in
    let padding := u8 (Z.land (Z.shiftr b0 5) 1) in
    let extension := u8 (Z.land (Z.shiftr b0 4) 1) in
    let csrc_count := u8 (Z.land b0 15) in
    if negb (version =? 2) then Err
    else
      let parsed_len := TURBO_RTSP_RTP_HEADER_SIZE + csrc_count * 4 in
      if len packet <? parsed_len then Err
      else
        csrc ← read_csrcs (Z.to_nat csrc_count) packet 0 (replicate 16 0);
        '(profile, ext_len, ext_data, parsed_len) ←
          (if truth extension then parse_extension packet parsed_len
           else Ok (0, 0, None, parsed_len));
        let raw_payload_len := len packet - parsed_len in
        padding_len ← parse_padding packet padding raw_payload_len;
        payload ← rd_slice packet parsed_len (raw_payload_len - padding_len);
        Ok (mk_header version padding extension csrc_count
              (u8 (Z.shiftr b1 7)) (u8 (Z.land b1 127)) seq ts ssrc csrc profile ext_len
              ext_data padding_len (Some payload) (raw_payload_len - padding_len),
            parsed_len).

Fixpoint write_csrcs (n : nat) (packet : list Z) (i : Z) (csrc : list Z) : res (list Z) :=
  match n with
  | O => Ok packet
  | S n =>
      c ← rd csrc i;
      packet ← write_u32 packet (TURBO_RTSP_RTP_HEADER_SIZE + i * 4) c;
      write_csrcs n packet (i + 1) csrc
  end.

Definition write_extension (packet : list Z) (header : turbo_rtsp_rtp_header_t)
    (extension : Z) : res (list Z) :=
  packet ← write_u16 packet extension (h_extension_profile header);
  packet ← write_u16 packet (extension + 2) (u16 (h_extension_len header / 4));
  if 0 <? h_extension_len header then
    let? data := h_extension_data header else Fault in
    data ← rd_slice data 0 (h_extension_len header);
    wr packet (extension + 4) data
  else Ok packet.

(** The checks of a header to write. *)
Definition writable_header (header : turbo_rtsp_rtp_header_t) : bool :=
  negb (negb (h_version header =? 2) || (15 <? h_csrc_count header) ||
        (127 <? h_payload_type header)) &&
  negb (truth (h_extension header) &&
        (negb (h_extension_len header mod 4 =? 0) ||
         ((0 <? h_extension_len header) &&
          match h_extension_data header with None => true | Some _ => false end))) &&
  negb (truth (h_extension header) && (65535 * 4 <? h_extension_len header)).

Definition write_fixed (packet : list Z) (header : turbo_rtsp_rtp_header_t) :
    res (list Z) :=
  packet ← wr packet 0
    [rtp_byte0 (h_version header) (Z.land (h_padding header) 1)
       (Z.land (h_extension header) 1) (h_csrc_count header)];
  packet ← wr packet 1 [rtp_byte1 (Z.land (h_marker header) 1) (h_payload_type header)];
  packet ← write_u16 packet 2 (h_sequence_number header);
  packet ← write_u32 packet 4 (h_timestamp header);
  write_u32 packet 8 (h_ssrc header).

(** The length written, with the buffer. *)
Definition rtsp_rtp_write_header (packet : list Z) (header : turbo_rtsp_rtp_header_t) :
    res (Z * list Z) :=
  if (len packet <? TURBO_RTSP_RTP_HEADER_SIZE) || negb (writable_header header) then Err
  else
    let csrc_end := TURBO_RTSP_RTP_HEADER_SIZE + h_csrc_count header * 4 in
    let written_len :=
      if truth (h_extension header) then csrc_end + (4 + h_extension_len header)
      else csrc_end in
    if len packet <? written_len then Err
    else
      packet ← write_fixed packet header;
      packet ← write_csrcs (Z.to_nat (h_csrc_count header)) packet 0 (h_csrc header);
      packet ← (if truth (h_extension header) then write_extension packet header csrc_end
                else Ok packet);
      n ← int_of written_len;
      Ok (n, packet).

Definition rtsp_rtp_write_packet (packet : list Z) (header : turbo_rtsp_rtp_header_t)
    (payload : list Z) : res (Z * list Z) :=
  if truth (h_padding header) then Err
  else
    '(header_len, packet) ← rtsp_rtp_write_header packet header;
    if len packet - header_len <? len payload then Err
    else
      packet ← (if 0 <? len payload then wr packet header_len payload else Ok packet);
      n ← int_of (header_len + len payload);
      Ok (n, packet).

(* ------------------------------------------------------------------ *)
(** ** Sources *)

Definition rtsp_rtp_source_init (ssrc : Z) : turbo_rtsp_rtp_source_t :=
  mk_source ssrc 0 0 0 0 0 0 0 0 0 (negb (ssrc =? 0)) false.

(** The first packet of a source. *)
Definition source_start (s : turbo_rtsp_rtp_source_t) (ssrc sequence transit : Z) :
    turbo_rtsp_rtp_source_t :=
  mk_source ssrc sequence sequence (src_cycles s) 1 (src_expected_prior s)
    (src_received_prior s) transit (src_jitter_q4 s) 1 true true.

Definition set_bitmap (s : turbo_rtsp_rtp_source_t) (b : Z) : turbo_rtsp_rtp_source_t :=
  mk_source (src_ssrc s) (src_base s) (src_max s) (src_cycles s) (src_received s)
    (src_expected_prior s) (src_received_prior s) (src_transit s) (src_jitter_q4 s) b
    (src_has_ssrc s) (src_initialized s).

Definition set_max (s : turbo_rtsp_rtp_source_t) (cycles sequence : Z) :
    turbo_rtsp_rtp_source_t :=
  mk_source (src_ssrc s) (src_base s) sequence cycles (src_received s)
    (src_expected_prior s) (src_received_prior s) (src_transit s) (src_jitter_q4 s)
    (src_bitmap s) (src_has_ssrc s) (src_initialized s).

Definition set_jitter (s : turbo_rtsp_rtp_source_t) (transit jitter : Z) :
    turbo_rtsp_rtp_source_t :=
  mk_source (src_ssrc s) (src_base s) (src_max s) (src_cycles s) (src_received s)
    (src_expected_prior s) (src_received_prior s) transit jitter
    (src_bitmap s) (src_has_ssrc s) (src_initialized s).

Definition count_received (s : turbo_rtsp_rtp_source_t) : turbo_rtsp_rtp_source_t :=
  mk_source (src_ssrc s) (src_base s) (src_max s) (src_cycles s)
    (u32 (src_received s + 1)) (src_expected_prior s) (src_received_prior s)
    (src_transit s) (src_jitter_q4 s) (src_bitmap s) (src_has_ssrc s)
    (src_initialized s).

(** The differences are of type [int32_t]: their overflow is undefined. *)
Definition source_update_jitter (s : turbo_rtsp_rtp_source_t)
    (header : turbo_rtsp_rtp_header_t) (arrival : Z) : res turbo_rtsp_rtp_source_t :=
  let transit := s32 (u32 (arrival - h_timestamp header)) in
  delta ← int_of (transit - src_transit s);
  delta ← (if delta <? 0 then int_of (- delta) else Ok delta);
  Ok (set_jitter s transit
        (u32 (src_jitter_q4 s +
              u32 (u32 delta - Z.shiftr (u32 (src_jitter_q4 s + 8)) 4)))).

Definition source_mark_received (s : turbo_rtsp_rtp_source_t) (sequence_delta : Z) :
    turbo_rtsp_rtp_source_t :=
  set_bitmap s (if 64 <=? sequence_delta then 1
                else Z.lor (u64 (Z.shiftl (src_bitmap s) sequence_delta)) 1).

(** The test and the setting of bit [n] of the bitmap. *)
Definition bit_set (s : turbo_rtsp_rtp_source_t) (n : Z) : bool :=
  negb (Z.land (src_bitmap s) (u64 (Z.shiftl 1 n)) =? 0).

Definition set_bit (s : turbo_rtsp_rtp_source_t) (n : Z) : turbo_rtsp_rtp_source_t :=
  set_bitmap s (Z.lor (src_bitmap s) (u64 (Z.shiftl 1 n))).

(** A packet after the newest: how far it advances. *)
Definition source_advance (s : turbo_rtsp_rtp_source_t) (cycles sequence delta : Z) :
    source_result * turbo_rtsp_rtp_source_t :=
  (if TURBO_RTSP_RTP_MAX_DROPOUT <? delta then UPDATE_DROPOUT else UPDATE_OK,
   source_mark_received (set_max s cycles sequence) delta).

(** Where a packet of an initialized source falls; a duplicate changes nothing. *)
Definition source_place (s : turbo_rtsp_rtp_source_t) (sequence : Z) :
    source_result * turbo_rtsp_rtp_source_t :=
  if sequence =? src_max s then (UPDATE_DUPLICATE, s)
  else if src_max s <? sequence then
    let sequence_delta := sequence - src_max s in
    if 0x8000 <=? sequence_delta then
      let previous := src_max s + (TURBO_RTSP_RTP_SEQ_MOD - sequence) in
      if (0 <? src_cycles s) && (previous <? 64) && bit_set s previous
      then (UPDATE_DUPLICATE, s)
      else (UPDATE_LATE_OR_OUT_OF_ORDER,
            if (0 <? src_cycles s) && (previous <? 64) then set_bit s previous else s)
    else source_advance s (src_cycles s) sequence sequence_delta
  else
    let reverse_delta := src_max s - sequence in
    if 0x8000 <? reverse_delta then
      source_advance s (u32 (src_cycles s + TURBO_RTSP_RTP_SEQ_MOD)) sequence
        (TURBO_RTSP_RTP_SEQ_MOD - reverse_delta)
    else if (reverse_delta <? 64) && bit_set s reverse_delta then (UPDATE_DUPLICATE, s)
    else (UPDATE_LATE_OR_OUT_OF_ORDER,
          if reverse_delta <? 64 then set_bit s reverse_delta else s).

Definition rtsp_rtp_source_update_ex (s : turbo_rtsp_rtp_source_t)
    (header : turbo_rtsp_rtp_header_t) (arrival : Z) :
    res (source_result * turbo_rtsp_rtp_source_t) :=
  if negb (h_version header =? 2) then Ok (UPDATE_ERROR, s)
  else
    let sequence := h_sequence_number header in
    let transit := s32 (u32 (arrival - h_timestamp header)) in
    if negb (src_initialized s) then
      if src_has_ssrc s && negb (src_ssrc s =? h_ssrc header)
      then Ok (UPDATE_SSRC_MISMATCH, s)
      else Ok (UPDATE_OK, source_start s (h_ssrc header) sequence transit)
    else if negb (src_ssrc s =? h_ssrc header) then Ok (UPDATE_SSRC_MISMATCH, s)
    else
      let '(result, s') := source_place s sequence in
      if decide (result = UPDATE_DUPLICATE) then Ok (UPDATE_DUPLICATE, s)
      else
        s' ← source_update_jitter s' header arrival;
        Ok (result, count_received s').

Definition rtsp_rtp_source_update (s : turbo_rtsp_rtp_source_t)
    (header : turbo_rtsp_rtp_header_t) (arrival : Z) :
    res (bool * turbo_rtsp_rtp_source_t) :=
  '(result, s) ← rtsp_rtp_source_update_ex s header arrival;
  Ok (bool_decide (result <> UPDATE_ERROR /\ result <> UPDATE_SSRC_MISMATCH), s).

(* ------------------------------------------------------------------ *)
(** ** Senders and streams *)

Definition rtsp_rtp_sender_init (ssrc : Z) : turbo_rtsp_rtp_sender_t :=
  mk_sender ssrc 0 0 (negb (ssrc =? 0)).

Definition rtsp_rtp_sender_update (s : turbo_rtsp_rtp_sender_t)
    (header : turbo_rtsp_rtp_header_t) : res turbo_rtsp_rtp_sender_t :=
  if negb (h_version header =? 2) then Err
  else if snd_has_ssrc s && negb (snd_ssrc s =? h_ssrc header) then Err
  else
    Ok (mk_sender (if snd_has_ssrc s then snd_ssrc s else h_ssrc header)
          (u32 (snd_packet_count s + 1))
          (u32 (snd_octet_count s + u32 (h_payload_len header))) true).

Definition rtsp_rtp_stream_init (payload_type ssrc sequence timestamp clock_rate : Z) :
    turbo_rtsp_rtp_stream_t :=
  mk_stream payload_type ssrc sequence timestamp clock_rate (rtsp_rtp_sender_init ssrc).

(** The header of the next packet of a stream. *)
Definition stream_header (st : turbo_rtsp_rtp_stream_t) (marker : bool) (payload_len : Z) :
    turbo_rtsp_rtp_header_t :=
  mk_header 2 0 0 0 (b2i marker) (st_payload_type st) (st_sequence_number st)
    (st_timestamp st) (st_ssrc st) (replicate 16 0) 0 0 None 0 None payload_len.

(** The stream after a packet, its timestamp aside. *)
Definition stream_sent (st : turbo_rtsp_rtp_stream_t) (sender : turbo_rtsp_rtp_sender_t) :
    turbo_rtsp_rtp_stream_t :=
  mk_stream (st_payload_type st) (st_ssrc st) (u16 (st_sequence_number st + 1))
    (st_timestamp st) (st_clock_rate st) sender.

Definition stream_advance (st : turbo_rtsp_rtp_stream_t) (increment : Z) :
    turbo_rtsp_rtp_stream_t :=
  mk_stream (st_payload_type st) (st_ssrc st) (st_sequence_number st)
    (u32 (st_timestamp st + increment)) (st_clock_rate st) (st_sender st).

(** The packet written at the front of the buffer and the stream after it. *)
Definition rtsp_rtp_stream_write_payload (st : turbo_rtsp_rtp_stream_t)
    (payload : list Z) (marker : bool) (increment : Z) (packet : list Z) :
    res (turbo_rtsp_rtp_stream_t * Z * list Z) :=
  if (len payload =? 0) || (127 <? st_payload_type st) ||
     (len packet <? TURBO_RTSP_RTP_HEADER_SIZE + len payload) then Err
  else
    let header := stream_header st marker (len payload) in
    '(written, packet) ← rtsp_rtp_write_packet packet header payload;
    sender ← rtsp_rtp_sender_update (st_sender st) header;
    Ok (stream_advance (stream_sent st sender) increment, written, packet).

(* ------------------------------------------------------------------ *)
(** ** Concrete runs *)

Definition example_header (seq ts : Z) : turbo_rtsp_rtp_header_t :=
  mk_header 2 0 0 0 0 96 seq ts 7 (replicate 16 0) 0 0 None 0 None 0.

(** Two packets whose timestamps are half the clock apart: [transit - source->transit]
    overflows. *)
Example source_jitter_overflow :
  ('(_, s) ← rtsp_rtp_source_update_ex (rtsp_rtp_source_init 7) (example_header 1 0x80000001) 0;
   rtsp_rtp_source_update_ex s (example_header 2 0x7fffffff) 0) = Fault.
Proof. vm_compute. reflexivity. Qed.

(* ------------------------------------------------------------------ *)
(** ** Header round trip *)

(** A header that can be written. *)
Record header_wf (h : turbo_rtsp_rtp_header_t) : Prop := {
  hw_version : h_version h = 2;
  hw_padding : h_padding h = 0;
  hw_extension : h_extension h = 0 \/ h_extension h = 1;
  hw_csrc_count : 0 <= h_csrc_count h <= 15;
  hw_marker : h_marker h = 0 \/ h_marker h = 1;
  hw_payload_type : 0 <= h_payload_type h < 128;
  hw_sequence : is_u16 (h_sequence_number h);
  hw_timestamp : is_u32 (h_timestamp h);
  hw_ssrc : is_u32 (h_ssrc h);
  hw_csrc_len : length (h_csrc h) = 16%nat;
  hw_csrc : Forall is_u32 (h_csrc h);
  hw_ext : h_extension h = 1 ->
    is_u16 (h_extension_profile h) /\ 0 <= h_extension_len h <= 65535 * 4 /\
    h_extension_len h mod 4 = 0 /\
    exists d, h_extension_data h = Some d /\ len d = h_extension_len h;
}.

Definition header_csrcs (h : turbo_rtsp_rtp_header_t) : list Z :=
  take (Z.to_nat (h_csrc_count h)) (h_csrc h).

(** The header a reader makes of it. *)
Definition read_back (h : turbo_rtsp_rtp_header_t) (payload : list Z) :
    turbo_rtsp_rtp_header_t :=
  let x := truth (h_extension h) in
  mk_header 2 0 (h_extension h) (h_csrc_count h) (h_marker h) (h_payload_type h)
    (h_sequence_number h) (h_timestamp h) (h_ssrc h)
    (header_csrcs h ++ replicate (16 - length (header_csrcs h)) 0)
    (if x then h_extension_profile h else 0) (if x then h_extension_len h else 0)
    (if x then h_extension_data h else None) 0 (Some payload) (len payload).

Definition fixed_of (h : turbo_rtsp_rtp_header_t) : list Z :=
  rtp_fixed (Build_rtp_header_t (h_version h) (h_padding h) (h_extension h)
    (h_csrc_count h) (h_marker h) (h_payload_type h) (h_sequence_number h)
    (h_timestamp h) (h_ssrc h)) (h_extension h).

Definition ext_of (h : turbo_rtsp_rtp_header_t) : list Z :=
  if truth (h_extension h)
  then be16 (h_extension_profile h) ++ be16 (h_extension_len h / 4) ++
       default [] (h_extension_data h)
  else [].

Definition header_bytes (h : turbo_rtsp_rtp_header_t) : list Z :=
  fixed_of h ++ csrc_wire (header_csrcs h) ++ ext_of h.

Lemma length_fixed_of h : length (fixed_of h) = 12%nat.
Proof. done. Qed.

Lemma len_fixed_of h : len (fixed_of h) = 12.
Proof. unfold len. by rewrite length_fixed_of. Qed.

Lemma len_header_csrcs h : header_wf h -> len (header_csrcs h) = h_csrc_count h.
Proof.
  intros []. unfold header_csrcs. rewrite len_take. unfold len. rewrite hw_csrc_len0. lia.
Qed.

Lemma len_ext_of h : header_wf h ->
  len (ext_of h) = if truth (h_extension h) then 4 + h_extension_len h else 0.
Proof.
  intros []. unfold ext_of. destruct hw_extension0 as [E|E]; rewrite E; [done|].
  change (truth 1) with true. cbn [negb].
  destruct (hw_ext0 E) as (_ & _ & _ & d & -> & Hd). change (default [] (Some d)) with d.
  rewrite !len_app, Hd. change (len (be16 _)) with 2. lia.
Qed.

Lemma rtsp_write_csrcs_spec n packet i csrc pre rest :
  packet = pre ++ rest -> len pre = 12 + i * 4 -> 0 <= i ->
  i + Z.of_nat n <= len csrc -> 4 * Z.of_nat n <= len rest ->
  let cs := take n (drop (Z.to_nat i) csrc) in
  write_csrcs n packet i csrc =
  Ok ((pre ++ csrc_wire cs) ++ drop (length (csrc_wire cs)) rest).
Proof.
  revert packet i pre rest.
  induction n as [|n IH]; intros packet i pre rest -> Hp Hi Hn Hr cs.
  { unfold cs. cbn. by rewrite app_nil_r. }
  cbn [write_csrcs]. destruct (rd_in_range csrc i) as [c Hc]; [lia|].
  rewrite Hc. cbn [mbind res_bind]. unfold write_u32, TURBO_RTSP_RTP_HEADER_SIZE.
  rewrite wr_next by len_lia. cbn [mbind res_bind].
  rewrite (IH _ (i + 1) (pre ++ be32 c) (drop (length (be32 c)) rest)); try len_lia; [|done].
  apply rd_lookup in Hc as [_ Hc].
  assert (cs = c :: take n (drop (Z.to_nat (i + 1)) csrc)) as ->.
  { unfold cs. replace (Z.to_nat (i + 1)) with (S (Z.to_nat i)) by lia.
    by rewrite (drop_S _ _ _ Hc). }
  rewrite csrc_wire_cons, drop_drop, length_app, <- !app_assoc. done.
Qed.

Lemma rtsp_read_csrcs_spec n packet i csrc cs pre post :
  packet = pre ++ csrc_wire cs ++ post -> len pre = 12 + i * 4 -> length cs = n ->
  Forall is_u32 cs -> len csrc = 16 -> 0 <= i -> i + len cs <= 16 ->
  read_csrcs n packet i csrc =
  Ok (take (Z.to_nat i) csrc ++ cs ++ drop (Z.to_nat i + n) csrc).
Proof.
  revert packet i csrc cs pre.
  induction n as [|n IH]; intros packet i csrc cs pre -> Hp Hn Hcs H16 Hi Hl.
  { destruct cs; [|done]. cbn. by rewrite Nat.add_0_r, take_drop. }
  destruct cs as [|c cs]; [done|]. apply Forall_cons in Hcs as [Hc Hcs].
  cbn [read_csrcs]. rewrite csrc_wire_cons, <- app_assoc. unfold TURBO_RTSP_RTP_HEADER_SIZE.
  rewrite read_u32_mid by done. cbn [mbind res_bind].
  rewrite upd_Ok by len_lia. cbn [mbind res_bind].
  rewrite (IH _ (i + 1) _ cs (pre ++ be32 c)); try done; try len_lia.
  2:{ by rewrite <- app_assoc. }
  replace (Z.to_nat (i + 1)) with (S (Z.to_nat i)) by lia. f_equal.
  rewrite (take_S_r _ _ c) by (rewrite list_lookup_insert_eq; [done|len_lia]).
  rewrite take_insert_ge, drop_insert_lt by lia.
  rewrite <- app_assoc. cbn [app].
  by replace (Z.to_nat i + S n)%nat with (S (Z.to_nat i) + n)%nat by lia.
Qed.

Lemma rtsp_write_fixed_spec h packet :
  header_wf h -> 12 <= len packet ->
  write_fixed packet h = Ok (fixed_of h ++ drop 12 packet).
Proof.
  intros [V P X C M T Q S R L U E] Hl. unfold write_fixed. rewrite P.
  replace (Z.land (h_extension h) 1) with (h_extension h) by (destruct X as [-> | ->]; done).
  replace (Z.land (h_marker h) 1) with (h_marker h) by (destruct M as [-> | ->]; done).
  change (Z.land 0 1) with 0. unfold write_u16, write_u32.
  rewrite wr_front by len_lia. cbn [mbind res_bind].
  do 4 (rewrite wr_next; [cbn [mbind res_bind]|done|len_lia]).
  rewrite !drop_drop. unfold fixed_of. by rewrite P.
Qed.

Lemma write_extension_spec h pre rest :
  header_wf h -> h_extension h = 1 -> len (ext_of h) <= len rest ->
  write_extension (pre ++ rest) h (len pre) =
  Ok ((pre ++ ext_of h) ++ drop (length (ext_of h)) rest).
Proof.
  intros Hw Hx. rewrite (len_ext_of h Hw). destruct (hw_ext h Hw Hx) as (Hp & Hl & Hm & d & Hd & Hld).
  unfold ext_of, write_extension. rewrite Hx, Hd. change (truth 1) with true.
  change (default [] (Some d)) with d. intros Hr.
  assert (Hu : u16 (h_extension_len h / 4) = h_extension_len h / 4)
    by (apply u16_id; unfold is_u16; zmod_lia).
  rewrite Hu. unfold write_u16. rewrite wr_next by len_lia. cbn [mbind res_bind].
  rewrite wr_next by len_lia. cbn [mbind res_bind].
  destruct (0 <? h_extension_len h) eqn:E.
  - rewrite rd_slice_all by done. cbn [mbind res_bind].
    rewrite wr_next by len_lia. f_equal.
    rewrite !drop_drop, <- !app_assoc, !length_app. do 4 f_equal.
  - assert (d = []) as -> by (apply nil_length_inv; unfold len in *; lia).
    rewrite app_nil_r, drop_drop, <- !app_assoc. done.
Qed.

Lemma write_extension_step h pre packet :
  header_wf h -> len (pre ++ ext_of h) <= len packet ->
  (if truth (h_extension h)
   then write_extension (pre ++ drop (length pre) packet) h (len pre)
   else Ok (pre ++ drop (length pre) packet)) =
  Ok ((pre ++ ext_of h) ++ drop (length (pre ++ ext_of h)) packet).
Proof.
  intros Hw. rewrite len_app, length_app, <- drop_drop. intros Hl.
  destruct (truth (h_extension h)) eqn:X.
  - apply write_extension_spec; [done| |rewrite len_drop; unfold len in *; lia].
    destruct (hw_extension h Hw) as [E|E]; [by rewrite E in X|done].
  - unfold ext_of. rewrite X. cbn [length]. by rewrite drop_0, app_nil_r.
Qed.

Lemma len_header_bytes h : header_wf h ->
  len (header_bytes h) = 12 + 4 * h_csrc_count h + len (ext_of h).
Proof.
  intros Hw. unfold header_bytes. rewrite !len_app, len_csrc_wire, len_header_csrcs by done.
  rewrite len_fixed_of. lia.
Qed.

Lemma writable_wf h : header_wf h -> writable_header h = true.
Proof.
  intros [V P X C M T Q S R L U E]. unfold writable_header. rewrite V.
  destruct X as [X|X]; rewrite X; cbn [truth Z.eqb negb andb].
  - lia.
  - destruct (E X) as (_ & ? & -> & d & -> & _). cbn. lia.
Qed.

(** What is written for a well-formed header. *)
Lemma write_header_spec h packet :
  header_wf h -> len (header_bytes h) <= len packet -> is_s32 (len (header_bytes h)) ->
  rtsp_rtp_write_header packet h =
  Ok (len (header_bytes h), header_bytes h ++ drop (length (header_bytes h)) packet).
Proof.
  intros Hw Hl Hs. pose proof (len_header_csrcs h Hw) as Hcs.
  pose proof (len_ext_of h Hw) as Hext. pose proof (len_header_bytes h Hw) as Hlen.
  pose proof (len_nonneg (ext_of h)). pose proof (hw_csrc_count h Hw).
  unfold rtsp_rtp_write_header, TURBO_RTSP_RTP_HEADER_SIZE.
  rewrite writable_wf by done.
  replace (len packet <? 12) with false by lia. cbn [negb orb].
  set (wl := if truth (h_extension h) then _ else _).
  assert (Hwl : wl = len (header_bytes h)) by (unfold wl; rewrite Hlen, Hext; destruct (truth _); lia).
  rewrite Hwl. replace (len packet <? len (header_bytes h)) with false by lia.
  rewrite rtsp_write_fixed_spec by (done || lia). cbn [mbind res_bind].
  rewrite (rtsp_write_csrcs_spec _ _ 0 _ (fixed_of h) (drop 12 packet)); [|done|apply len_fixed_of|lia|..].
  2:{ unfold len. rewrite (hw_csrc_len h Hw). lia. }
  2:{ rewrite len_drop. lia. }
  cbn [mbind res_bind]. change (Z.to_nat 0) with 0%nat. rewrite drop_0.
  fold (header_csrcs h). rewrite drop_drop.
  set (pre := fixed_of h ++ csrc_wire (header_csrcs h)).
  assert (Hpre : len pre = 12 + h_csrc_count h * 4)
    by (unfold pre; rewrite len_app, len_csrc_wire, Hcs; rewrite len_fixed_of; lia).
  assert (Hlp : length pre = (12 + length (csrc_wire (header_csrcs h)))%nat)
    by (unfold pre; by rewrite length_app, length_fixed_of).
  rewrite <- Hpre, <- Hlp.
  assert (Hb : header_bytes h = pre ++ ext_of h)
    by (unfold header_bytes, pre; by rewrite <- app_assoc).
  clearbody wl pre. rewrite Hb in *.
  apply bind_Ok. eexists. split; [by apply write_extension_step|].
  apply bind_Ok. eexists. split; [by apply int_of_Ok|done].
Qed.

Lemma write_packet_spec h payload packet :
  header_wf h -> len (header_bytes h ++ payload) <= len packet ->
  is_s32 (len (header_bytes h ++ payload)) ->
  rtsp_rtp_write_packet packet h payload =
  Ok (len (header_bytes h ++ payload),
      (header_bytes h ++ payload) ++ drop (length (header_bytes h ++ payload)) packet).
Proof.
  intros Hw Hl Hs. rewrite len_app in *. unfold rtsp_rtp_write_packet. rewrite (hw_padding h Hw).
  change (truth 0) with false. pose proof (len_nonneg payload).
  pose proof (len_nonneg (header_bytes h)).
  apply bind_Ok. eexists. split; [apply write_header_spec; [done|lia|unfold is_s32 in *; lia]|].
  cbv beta iota. rewrite len_app, len_drop.
  replace (len (header_bytes h) + _ - len (header_bytes h) <? len payload) with false
    by (unfold len in *; lia).
  apply bind_Ok. exists ((header_bytes h ++ payload) ++ drop (length (header_bytes h ++ payload)) packet).
  split.
  - destruct (0 <? len payload) eqn:E.
    + rewrite wr_next by (done || (rewrite len_drop; unfold len in *; lia)).
      by rewrite drop_drop, length_app.
    + assert (payload = []) as -> by (apply nil_length_inv; unfold len in *; lia).
      by rewrite !app_nil_r.
  - apply bind_Ok. eexists. split; [by apply int_of_Ok|done].
Qed.

Lemma u8_shiftr6 b : is_u8 b -> u8 (Z.shiftr b 6) = Z.land (Z.shiftr b 6) 3.
Proof. intros. rewrite land3, Z.shiftr_div_pow2 by lia. unfold u8, is_u8 in *. zmod_lia. Qed.

Lemma u8_shiftr7 b : is_u8 b -> u8 (Z.shiftr b 7) = Z.land (Z.shiftr b 7) 1.
Proof. intros. rewrite land1, Z.shiftr_div_pow2 by lia. unfold u8, is_u8 in *. zmod_lia. Qed.

(** The fixed fields, as the reader finds them. *)
Lemma fixed_of_reads h t :
  header_wf h ->
  let b := fixed_of h ++ t in
  exists b0 b1,
    rd b 0 = Ok b0 /\ rd b 1 = Ok b1 /\
    read_u16 b 2 = Ok (h_sequence_number h) /\ read_u32 b 4 = Ok (h_timestamp h) /\
    read_u32 b 8 = Ok (h_ssrc h) /\
    u8 (Z.shiftr b0 6) = 2 /\ u8 (Z.land (Z.shiftr b0 5) 1) = 0 /\
    u8 (Z.land (Z.shiftr b0 4) 1) = h_extension h /\ u8 (Z.land b0 15) = h_csrc_count h /\
    u8 (Z.shiftr b1 7) = h_marker h /\ u8 (Z.land b1 127) = h_payload_type h.
Proof.
  intros [V P X C M T Q S R L U E] b.
  destruct (fixed_reads (Build_rtp_header_t (h_version h) (h_padding h) (h_extension h)
    (h_csrc_count h) (h_marker h) (h_payload_type h) (h_sequence_number h)
    (h_timestamp h) (h_ssrc h)) (h_extension h) t) as (R0 & R1 & R2 & R3 & R4); [done..|].
  cbn [RtpPacket.version padding csrc_count marker payload_type sequence timestamp ssrc] in *.
  assert (Hb : rtp_byte0 (h_version h) (h_padding h) (h_extension h) (h_csrc_count h) =
    rtp_byte0 2 0 (h_extension h) (h_csrc_count h)) by (by rewrite V, P).
  rewrite Hb in R0.
  destruct (byte0_fields (h_extension h) (h_csrc_count h) X ltac:(lia)) as (B & B1 & B2 & B3 & B4).
  destruct (byte1_fields (h_marker h) (h_payload_type h) M T) as (B' & B5 & B6).
  eexists _, _. split; [exact R0|]. split; [exact R1|]. split; [exact R2|].
  split; [exact R3|]. split; [exact R4|].
  rewrite u8_shiftr6, u8_shiftr7, B1, B2, B3, B4, B5, B6 by done.
  split; [done|]. split; [done|]. split; [apply u8_id; unfold is_u8; lia|].
  split; [apply u8_id; unfold is_u8; lia|]. split; [done|]. apply u8_id. unfold is_u8. lia.
Qed.

Lemma parse_extension_spec h pre payload :
  header_wf h -> h_extension h = 1 ->
  parse_extension (pre ++ ext_of h ++ payload) (len pre) =
  Ok (h_extension_profile h, h_extension_len h, h_extension_data h,
      len pre + len (ext_of h)).
Proof.
  intros Hw Hx. pose proof (len_ext_of h Hw) as Hl. rewrite Hx in Hl.
  change (truth 1) with true in Hl.
  destruct (hw_ext h Hw Hx) as (Hp & Hr & Hm & d & Hd & Hld).
  unfold parse_extension. rewrite !len_app, Hl. pose proof (len_nonneg payload).
  replace (len pre + (4 + h_extension_len h + len payload) <? len pre + 4) with false by lia.
  assert (He : pre ++ ext_of h ++ payload =
    pre ++ be16 (h_extension_profile h) ++ be16 (h_extension_len h / 4) ++ d ++ payload).
  { unfold ext_of. rewrite Hx, Hd. change (truth 1) with true. cbn [negb].
    change (default [] (Some d)) with d. by rewrite <- !app_assoc. }
  rewrite He. rewrite (read_u16_mid pre (h_extension_profile h) _ (len pre)) by done. cbn [mbind res_bind].
  rewrite (app_assoc pre), (read_u16_mid (pre ++ be16 (h_extension_profile h)) (h_extension_len h / 4))
    by (solve [len_lia] || (unfold is_u16; zmod_lia)).
  cbn [mbind res_bind]. replace (h_extension_len h / 4 * 4) with (h_extension_len h) by zmod_lia.
  replace (len pre + (4 + h_extension_len h + len payload) <? len pre + 4 + h_extension_len h)
    with false by lia.
  rewrite (app_assoc (pre ++ _)), rd_slice_mid by len_lia. cbn [mbind res_bind].
  rewrite Hd. do 2 f_equal. lia.
Qed.

(** The reader on what the writer wrote. *)
Lemma parse_header_spec h payload :
  header_wf h ->
  rtsp_rtp_parse_header (header_bytes h ++ payload) =
  Ok (read_back h payload, len (header_bytes h)).
Proof.
  intros Hw. pose proof (len_header_csrcs h Hw) as Hcs.
  pose proof (len_ext_of h Hw) as Hext. pose proof (len_header_bytes h Hw) as Hlen.
  pose proof (len_nonneg payload). pose proof (hw_csrc_count h Hw) as Hcc.
  pose proof (len_nonneg (ext_of h)).
  assert (Hpk : header_bytes h ++ payload = fixed_of h ++ csrc_wire (header_csrcs h) ++ ext_of h ++ payload)
    by (unfold header_bytes; by rewrite <- !app_assoc).
  destruct (fixed_of_reads h (csrc_wire (header_csrcs h) ++ ext_of h ++ payload) Hw)
    as (b0 & b1 & R0 & R1 & R2 & R3 & R4 & V & P & X & C & M & T).
  rewrite <- Hpk in R0, R1, R2, R3, R4.
  set (packet := header_bytes h ++ payload) in *.
  assert (Hlp : len packet = 12 + 4 * h_csrc_count h + len (ext_of h) + len payload)
    by (unfold packet; rewrite len_app; lia).
  assert (Hcr : read_csrcs (Z.to_nat (h_csrc_count h)) packet 0 (replicate 16 0) =
    Ok (header_csrcs h ++ replicate (16 - length (header_csrcs h)) 0)).
  { rewrite (rtsp_read_csrcs_spec _ _ 0 _ (header_csrcs h) (fixed_of h) (ext_of h ++ payload));
      [|done|apply len_fixed_of|unfold len in Hcs; lia| |done|lia|lia].
    - change (Z.to_nat 0) with 0%nat. rewrite drop_replicate, take_0. cbn [app].
      unfold len in Hcs. do 4 f_equal. lia.
    - unfold header_csrcs. apply Forall_take, (hw_csrc h Hw). }
  unfold rtsp_rtp_parse_header, TURBO_RTSP_RTP_HEADER_SIZE.
  replace (len packet <? 12) with false by lia.
  rewrite R0. cbn [mbind res_bind]. rewrite R1. cbn [mbind res_bind].
  rewrite R2. cbn [mbind res_bind]. rewrite R3. cbn [mbind res_bind].
  rewrite R4. cbn [mbind res_bind]. rewrite V, P, X, C. change (2 =? 2) with true. cbn [negb].
  replace (len packet <? 12 + h_csrc_count h * 4) with false by lia.
  rewrite Hcr. cbn [mbind res_bind].
  set (pre := fixed_of h ++ csrc_wire (header_csrcs h)).
  assert (Hpre : len pre = 12 + h_csrc_count h * 4)
    by (unfold pre; rewrite len_app, len_fixed_of, len_csrc_wire, Hcs; lia).
  assert (Hpp : packet = pre ++ ext_of h ++ payload) by (rewrite Hpk; unfold pre; by rewrite <- app_assoc).
  assert (Hx : (if truth (h_extension h) then parse_extension packet (12 + h_csrc_count h * 4)
                else Ok (0, 0, None, 12 + h_csrc_count h * 4)) =
    Ok (if truth (h_extension h) then h_extension_profile h else 0,
        if truth (h_extension h) then h_extension_len h else 0,
        if truth (h_extension h) then h_extension_data h else None,
        len pre + len (ext_of h))).
  { destruct (hw_extension h Hw) as [E|E]; rewrite E in *.
    - change (truth 0) with false in *. by rewrite <- Hpre, Hext, Z.add_0_r.
    - change (truth 1) with true in *. rewrite <- Hpre, Hpp. by apply parse_extension_spec. }
  rewrite Hx. cbn [mbind res_bind]. unfold parse_padding. change (truth 0) with false.
  cbn [mbind res_bind]. rewrite Z.sub_0_r.
  replace (len packet - (len pre + len (ext_of h))) with (len payload) by lia.
  assert (Hsl : rd_slice packet (len pre + len (ext_of h)) (len payload) = Ok payload).
  { rewrite Hpp, app_assoc. rewrite <- (app_nil_r payload) at 1.
    apply rd_slice_mid; [by rewrite len_app|done]. }
  rewrite Hsl. cbn [mbind res_bind]. unfold read_back. rewrite M, T. do 2 f_equal. lia.
Qed.

(* ------------------------------------------------------------------ *)
(** ** Sources against a set of unwrapped sequence numbers *)

(** The newest packet and all the packets of a source, by sequence numbers that do not
    wrap. *)
Record seen := mk_seen { sn_max : Z; sn_all : list Z }.

(** Less than half the cycle ahead is an advance, by more than
    [TURBO_RTSP_RTP_MAX_DROPOUT] a dropout; behind, a packet is known for a duplicate if
    it is one of the 64 newest positions. *)
Definition seen_update (m : seen) (sequence : Z) : source_result * seen :=
  let d := u16 (sequence - sn_max m) in
  if d =? 0 then (UPDATE_DUPLICATE, m)
  else if d <? 32768 then
    (if TURBO_RTSP_RTP_MAX_DROPOUT <? d then UPDATE_DROPOUT else UPDATE_OK,
     mk_seen (sn_max m + d) ((sn_max m + d) :: sn_all m))
  else
    let behind := 65536 - d in
    let e := sn_max m - behind in
    if decide (behind < 64 /\ 0 <= e /\ e ∈ sn_all m) then (UPDATE_DUPLICATE, m)
    else (UPDATE_LATE_OR_OUT_OF_ORDER, mk_seen (sn_max m) (e :: sn_all m)).

Fixpoint seen_updates (m : seen) (sequences : list Z) : list source_result * seen :=
  match sequences with
  | [] => ([], m)
  | q :: qs =>
      let '(r, m) := seen_update m q in
      let '(rs, m) := seen_updates m qs in
      (r :: rs, m)
  end.

(** A source fed with packets and their arrival times. *)
Fixpoint source_updates (s : turbo_rtsp_rtp_source_t)
    (packets : list (turbo_rtsp_rtp_header_t * Z)) :
    res (list source_result * turbo_rtsp_rtp_source_t) :=
  match packets with
  | [] => Ok ([], s)
  | (h, arrival) :: packets =>
      '(r, s) ← rtsp_rtp_source_update_ex s h arrival;
      '(rs, s) ← source_updates s packets;
      Ok (r :: rs, s)
  end.

(** The source knows the newest packet, the newest 64 positions and how many packets
    were new. *)
Record represents (s : turbo_rtsp_rtp_source_t) (m : seen) : Prop := {
  rp_initialized : src_initialized s = true;
  rp_newest : 0 <= sn_max m < 4294967296;
  rp_max : src_max s = sn_max m mod 65536;
  rp_cycles : src_cycles s = sn_max m - sn_max m mod 65536;
  rp_bitmap : is_u64 (src_bitmap s);
  rp_bits : forall i, 0 <= i < 64 ->
    Z.testbit (src_bitmap s) i = bool_decide (0 <= sn_max m - i /\ sn_max m - i ∈ sn_all m);
  rp_newest_in : sn_max m ∈ sn_all m;
  rp_bound : Forall (fun e => e <= sn_max m) (sn_all m);
  rp_received : src_received s = u32 (len (sn_all m));
}.

Lemma bit_set_testbit s n : 0 <= n < 64 -> bit_set s n = Z.testbit (src_bitmap s) n.
Proof.
  intros Hn. unfold bit_set. rewrite Z.shiftl_1_l.
  rewrite u64_id by (unfold is_u64; split; [lia|]; change 18446744073709551616 with (2 ^ 64);
    apply Z.pow_lt_mono_r; lia).
  destruct (Z.testbit (src_bitmap s) n) eqn:E.
  - destruct (Z.land (src_bitmap s) (2 ^ n) =? 0) eqn:E0; [|done].
    apply Z.eqb_eq in E0. apply (f_equal (fun z => Z.testbit z n)) in E0.
    rewrite Z.land_spec, Z.pow2_bits_true, Z.bits_0, E in E0 by lia. done.
  - replace (Z.land (src_bitmap s) (2 ^ n)) with 0; [done|].
    apply Z.bits_inj'. intros i Hi. rewrite Z.land_spec, Z.bits_0.
    destruct (decide (i = n)) as [->|]; [by rewrite E|].
    rewrite (Z.pow2_bits_false n i) by lia. by rewrite andb_false_r.
Qed.

(** A 64-bit mask has no bit above the 63rd. *)
Lemma u64_high a i : is_u64 a -> 64 <= i -> Z.testbit a i = false.
Proof.
  intros Ha Hi. rewrite <- (u64_id a Ha). unfold u64. change 18446744073709551616 with (2 ^ 64).
  apply Z.mod_pow2_bits_high. lia.
Qed.

Lemma is_u64_lor a b : is_u64 a -> is_u64 b -> is_u64 (Z.lor a b).
Proof.
  intros Ha Hb. assert (E : Z.lor a b = u64 (Z.lor a b)); [|rewrite E; apply u64_range].
  unfold u64. change 18446744073709551616 with (2 ^ 64).
  apply Z.bits_inj'. intros i Hi. destruct (decide (i < 64)).
  - by rewrite Z.mod_pow2_bits_low by lia.
  - rewrite Z.mod_pow2_bits_high, Z.lor_spec by lia.
    by rewrite !u64_high by (done || lia).
Qed.

Lemma testbit_set_bit s n i :
  0 <= n < 64 -> 0 <= i ->
  Z.testbit (src_bitmap (set_bit s n)) i = Z.testbit (src_bitmap s) i || (n =? i).
Proof.
  intros Hn Hi. cbn [set_bit set_bitmap src_bitmap]. rewrite Z.lor_spec, Z.shiftl_1_l.
  rewrite u64_id by (unfold is_u64; split; [lia|]; change 18446744073709551616 with (2 ^ 64);
    apply Z.pow_lt_mono_r; lia).
  by rewrite Z.pow2_bits_eqb by lia.
Qed.

Lemma testbit_mark s d i :
  0 < d -> 0 <= i < 64 ->
  Z.testbit (src_bitmap (source_mark_received s d)) i =
  (i =? 0) || ((d <=? i) && Z.testbit (src_bitmap s) (i - d)).
Proof.
  intros Hd Hi. unfold source_mark_received. cbn [set_bitmap src_bitmap].
  destruct (64 <=? d) eqn:E.
  - replace (d <=? i) with false by lia. rewrite orb_false_r.
    change 1 with (2 ^ 0). rewrite Z.pow2_bits_eqb by lia. lia.
  - rewrite Z.lor_spec. unfold u64. change 18446744073709551616 with (2 ^ 64).
    rewrite Z.mod_pow2_bits_low, Z.shiftl_spec by lia.
    change 1 with (2 ^ 0) at 1. rewrite Z.pow2_bits_eqb by lia.
    destruct (d <=? i) eqn:E2.
    + by destruct (i =? 0) eqn:?, (0 =? i) eqn:?; try lia; destruct (Z.testbit _ _).
    + rewrite Z.testbit_neg_r by lia. lia.
Qed.

Lemma mark_u64 s d : is_u64 (src_bitmap (source_mark_received s d)).
Proof.
  unfold source_mark_received. cbn [set_bitmap src_bitmap]. destruct (64 <=? d); [done|].
  apply is_u64_lor; [apply u64_range|done].
Qed.

Lemma seq_ahead M q : is_u16 q ->
  u16 (q - M) = if decide (M mod 65536 <= q) then q - M mod 65536 else 65536 - (M mod 65536 - q).
Proof. unfold is_u16, u16. intros. case_decide; zmod_lia. Qed.

Lemma represents_advance s m d cycles q :
  represents s m -> 0 < d < 32768 -> sn_max m + d < 4294967296 ->
  q = (sn_max m + d) mod 65536 -> cycles = sn_max m + d - (sn_max m + d) mod 65536 ->
  represents (count_received (source_mark_received (set_max s cycles q) d))
    (mk_seen (sn_max m + d) ((sn_max m + d) :: sn_all m)).
Proof.
  intros [] Hd Hm -> ->. constructor; cbn [sn_max sn_all]; try done; try lia.
  - apply mark_u64.
  - intros i Hi.
    change (src_bitmap (count_received ?x)) with (src_bitmap x). rewrite testbit_mark by lia.
    change (src_bitmap (set_max s _ _)) with (src_bitmap s).
    destruct (i =? 0) eqn:E0.
    + symmetry. apply bool_decide_eq_true. replace i with 0 by lia.
      rewrite Z.sub_0_r. split; [lia|by left].
    + cbn [orb]. destruct (d <=? i) eqn:E.
      * rewrite rp_bits0 by lia. cbn [andb]. apply bool_decide_ext.
        replace (sn_max m + d - i) with (sn_max m - (i - d)) by lia.
        rewrite elem_of_cons. split; [tauto|]. intros [? [?|?]]; [lia|tauto].
      * symmetry. apply bool_decide_eq_false. intros [_ [?|Hin]%elem_of_cons]; [lia|].
        rewrite Forall_forall in rp_bound0. specialize (rp_bound0 _ Hin). cbn in *. lia.
  - by left.
  - constructor; [lia|]. eapply Forall_impl; [exact rp_bound0|]. cbn. lia.
  - cbn. rewrite rp_received0, len_cons. unfold u32. zmod_lia.
Qed.

Lemma represents_late s m b :
  represents s m -> 0 < b <= 32768 ->
  represents (count_received (if decide (b < 64 /\ 0 <= sn_max m - b) then set_bit s b else s))
    (mk_seen (sn_max m) ((sn_max m - b) :: sn_all m)).
Proof.
  intros [] Hb. constructor; cbn [sn_max sn_all]; try done; try (case_decide; done).
  - case_decide; cbn; [|done]. apply is_u64_lor; [done|apply u64_range].
  - intros i Hi. case_decide as Hc.
    + change (src_bitmap (count_received ?x)) with (src_bitmap x).
      rewrite testbit_set_bit, rp_bits0 by lia. destruct (b =? i) eqn:E.
      * rewrite orb_true_r. symmetry. apply bool_decide_eq_true.
        replace b with i in * by lia. split; [lia|by left].
      * rewrite orb_false_r. apply bool_decide_ext. rewrite elem_of_cons.
        split; [tauto|]. intros [? [?|?]]; [lia|tauto].
    + change (src_bitmap (count_received ?x)) with (src_bitmap x).
      rewrite rp_bits0 by lia. apply bool_decide_ext. rewrite elem_of_cons.
      split; [tauto|]. intros [? [?|?]]; [lia|tauto].
  - by right.
  - constructor; [lia|done].
  - case_decide; cbn; rewrite rp_received0, len_cons; unfold u32; zmod_lia.
Qed.

(** Where a packet falls. *)
Lemma source_place_spec s m q :
  represents s m -> is_u16 q -> sn_max m + 32768 < 4294967296 ->
  exists r s', source_place s q = (r, s') /\ (seen_update m q).1 = r /\
    if decide (r = UPDATE_DUPLICATE) then (seen_update m q).2 = m
    else represents (count_received s') (seen_update m q).2.
Proof.
  intros Hr Hq Hm. pose proof Hr as []. unfold source_place, seen_update.
  unfold TURBO_RTSP_RTP_SEQ_MOD.
  rewrite seq_ahead by done. rewrite rp_max0, rp_cycles0. set (x := sn_max m mod 65536) in *.
  assert (Hx : 0 <= x < 65536) by (unfold x; zmod_lia). unfold is_u16 in Hq.
  assert (Hxm : x <= sn_max m) by (unfold x; zmod_lia).
  destruct (q =? x) eqn:E0.
  { rewrite decide_True by lia. replace (q - x =? 0) with true by lia.
    by exists UPDATE_DUPLICATE, s. }
  destruct (x <? q) eqn:E1.
  - rewrite decide_True by lia. replace (q - x =? 0) with false by lia.
    destruct (0x8000 <=? q - x) eqn:E2.
    + replace (q - x <? 32768) with false by lia.
      replace (65536 - (q - x)) with (x + (65536 - q)) by lia. set (b := x + (65536 - q)).
      assert (Hb : 0 < b <= 32768) by (unfold b; lia).
      assert (Hneg : 0 <= sn_max m - b <-> 0 < sn_max m - x) by (unfold b, x; zmod_lia).
      destruct (decide (b < 64 /\ 0 <= sn_max m - b)) as [[Hb1 Hb2]|Hn].
      * replace (0 <? sn_max m - x) with true by lia. replace (b <? 64) with true by lia.
        rewrite bit_set_testbit, rp_bits0 by lia. cbn [andb].
        pose proof (represents_late s m b Hr Hb) as Hl. rewrite decide_True in Hl by done.
        case_bool_decide as Hin; case_decide as Hin'; try tauto.
        -- by exists UPDATE_DUPLICATE, s.
        -- by exists UPDATE_LATE_OR_OUT_OF_ORDER, (set_bit s b).
      * replace ((0 <? sn_max m - x) && (b <? 64)) with false by lia. cbn [andb].
        rewrite decide_False by tauto.
        pose proof (represents_late s m b Hr Hb) as Hl. rewrite decide_False in Hl by done.
        by exists UPDATE_LATE_OR_OUT_OF_ORDER, s.
    + replace (q - x <? 32768) with true by lia.
      eexists _, _. split; [reflexivity|]. split; [done|].
      rewrite decide_False by (by destruct (TURBO_RTSP_RTP_MAX_DROPOUT <? _)). cbn [snd].
      apply represents_advance; try done; [lia|lia|unfold x in *; zmod_lia|unfold x in *; zmod_lia].
  - rewrite decide_False by lia. replace (65536 - (x - q) =? 0) with false by lia.
    destruct (0x8000 <? x - q) eqn:E2.
    + replace (65536 - (x - q) <? 32768) with true by lia.
      eexists _, _. split; [reflexivity|]. split; [done|].
      rewrite decide_False by (by destruct (TURBO_RTSP_RTP_MAX_DROPOUT <? _)). cbn [snd].
      apply represents_advance; try done; [lia|lia|unfold x in *; zmod_lia|].
      rewrite u32_id by (unfold is_u32, x in *; zmod_lia). unfold x in *; zmod_lia.
    + replace (65536 - (x - q) <? 32768) with false by lia.
      replace (65536 - (65536 - (x - q))) with (x - q) by lia. set (b := x - q) in *.
      assert (Hb : 0 < b <= 32768) by (unfold b; lia).
      assert (Hpos : 0 <= sn_max m - b) by (unfold b; lia).
      pose proof (represents_late s m b Hr Hb) as Hl.
      destruct (b <? 64) eqn:E3.
      * rewrite decide_True in Hl by lia.
        rewrite bit_set_testbit, rp_bits0 by lia. cbn [andb].
        case_bool_decide as Hin; case_decide as Hin'; try (exfalso; naive_solver lia).
        -- by exists UPDATE_DUPLICATE, s.
        -- by exists UPDATE_LATE_OR_OUT_OF_ORDER, (set_bit s b).
      * rewrite decide_False in Hl by lia. cbn [andb]. rewrite decide_False by lia.
        by exists UPDATE_LATE_OR_OUT_OF_ORDER, s.
Qed.

(* ------------------------------------------------------------------ *)
(** ** Memory safety of the reader *)

Lemma read_u32_in_range b i :
  0 <= i -> i + 4 <= len b -> exists v, read_u32 b i = Ok v.
Proof.
  intros. unfold read_u32.
  destruct (rd_in_range b i) as [x ->]; [lia|].
  destruct (rd_in_range b (i + 1)) as [y ->]; [lia|].
  destruct (rd_in_range b (i + 2)) as [z ->]; [lia|].
  destruct (rd_in_range b (i + 3)) as [w ->]; [lia|]. cbn [mbind res_bind]. by eexists.
Qed.

Lemma read_csrcs_in_range n packet i csrc :
  0 <= i -> i + Z.of_nat n <= len csrc -> 12 + 4 * (i + Z.of_nat n) <= len packet ->
  exists csrc', read_csrcs n packet i csrc = Ok csrc'.
Proof.
  revert i csrc. induction n as [|n IH]; intros i csrc Hi Hn Hp; [by eexists|].
  cbn [read_csrcs]. unfold TURBO_RTSP_RTP_HEADER_SIZE.
  destruct (read_u32_in_range packet (12 + i * 4)) as [c ->]; [lia..|].
  cbn [mbind res_bind]. rewrite upd_Ok by lia. cbn [mbind res_bind].
  apply IH; rewrite ?len_insert; lia.
Qed.

Lemma parse_extension_cases packet parsed_len :
  0 <= parsed_len ->
  parse_extension packet parsed_len = Err \/
  exists profile n data off, parse_extension packet parsed_len = Ok (profile, n, data, off) /\
    parsed_len <= off <= len packet.
Proof.
  intros H. unfold parse_extension. destruct (len packet <? parsed_len + 4) eqn:E; [by left|].
  destruct (read_u16_in_range packet parsed_len) as (p & -> & _); [lia..|].
  destruct (read_u16_in_range packet (parsed_len + 2)) as (w & -> & Hw); [lia..|].
  cbn [mbind res_bind]. unfold is_u16 in Hw.
  destruct (len packet <? parsed_len + 4 + w * 4) eqn:E2; [by left|]. right.
  rewrite rd_slice_in_range by lia. cbn [mbind res_bind].
  eexists _, _, _, _. split; [done|]. lia.
Qed.

Lemma parse_padding_cases packet padding raw :
  bytes packet -> 0 <= raw <= len packet ->
  parse_padding packet padding raw = Err \/
  exists n, parse_padding packet padding raw = Ok n /\ 0 <= n <= raw.
Proof.
  intros Hb H. unfold parse_padding. destruct (truth padding); [|right; exists 0; split; [done|lia]].
  destruct (raw <? 1) eqn:E; [by left|].
  destruct (rd_in_range packet (len packet - 1)) as [n Hn]; [lia|]. rewrite Hn.
  apply rd_byte in Hn; [|done]. unfold is_u8 in Hn. cbn [mbind res_bind].
  destruct ((n =? 0) || (raw <? n)) eqn:E2; [by left|]. right. exists n. split; [done|lia].
Qed.

Lemma u8_land15 z : 0 <= u8 (Z.land z 15) <= 15.
Proof. rewrite land15. unfold u8. zmod_lia. Qed.

(** Any bytes are a packet or are rejected; the payload of a packet is the bytes its
    header names. *)
Lemma parse_header_cases packet :
  bytes packet ->
  rtsp_rtp_parse_header packet = Err \/
  exists h n payload, rtsp_rtp_parse_header packet = Ok (h, n) /\
    h_payload h = Some payload /\ h_payload_len h = len payload /\
    h_version h = 2 /\ is_u16 (h_sequence_number h).
Proof.
  intros Hb. unfold rtsp_rtp_parse_header, TURBO_RTSP_RTP_HEADER_SIZE.
  destruct (len packet <? 12) eqn:E; [by left|].
  destruct (rd_in_range packet 0) as [b0 ->]; [lia|].
  destruct (rd_in_range packet 1) as [b1 ->]; [lia|].
  destruct (read_u16_in_range packet 2) as (q & -> & Hq); [lia..|].
  destruct (read_u32_in_range packet 4) as [ts ->]; [lia..|].
  destruct (read_u32_in_range packet 8) as [ssrc ->]; [lia..|].
  cbn [mbind res_bind].
  destruct (u8 (Z.shiftr b0 6) =? 2) eqn:Ev; cbn [negb]; [|by left].
  pose proof (u8_land15 b0) as Hc. set (cc := u8 (Z.land b0 15)) in *.
  destruct (len packet <? 12 + cc * 4) eqn:E2; [by left|].
  destruct (read_csrcs_in_range (Z.to_nat cc) packet 0 (replicate 16 0)) as [csrc ->];
    [lia|rewrite len_replicate; lia|lia|]. cbn [mbind res_bind].
  set (x := truth _).
  assert (Hx : (if x then parse_extension packet (12 + cc * 4)
                else Ok (0, 0, None, 12 + cc * 4)) = Err \/
    exists profile n data off,
      (if x then parse_extension packet (12 + cc * 4) else Ok (0, 0, None, 12 + cc * 4)) =
      Ok (profile, n, data, off) /\ 0 <= off <= len packet).
  { destruct x.
    - destruct (parse_extension_cases packet (12 + cc * 4)) as [->|(p & n & d & off & -> & ?)];
        [lia|by left|right]. eexists _, _, _, _. split; [done|lia].
    - right. eexists _, _, _, _. split; [done|lia]. }
  destruct Hx as [->|(profile & n & data & off & -> & Hoff)]; [by left|]. cbn [mbind res_bind].
  destruct (parse_padding_cases packet (u8 (Z.land (Z.shiftr b0 5) 1)) (len packet - off) Hb)
    as [->|(pn & -> & Hpn)]; [lia|by left|]. cbn [mbind res_bind].
  rewrite rd_slice_in_range by lia. cbn [mbind res_bind]. right.
  eexists _, _, _. split; [done|]. split; [done|]. split; [|split; [|done]]; cbn.
  - rewrite len_take, len_drop. lia.
  - lia.
Qed.

(** The transit times of a source stay clear of the overflow of [int32_t]. *)
Definition transit_of (h : turbo_rtsp_rtp_header_t) (arrival : Z) : Z :=
  s32 (u32 (arrival - h_timestamp h)).

Definition calm (t : Z) : Prop := -1073741824 <= t < 1073741824.

Lemma update_jitter_Ok s h arrival :
  calm (transit_of h arrival) -> calm (src_transit s) ->
  exists j, source_update_jitter s h arrival = Ok (set_jitter s (transit_of h arrival) j).
Proof.
  unfold source_update_jitter. fold (transit_of h arrival). unfold calm. intros Ht Hs.
  rewrite int_of_Ok by (unfold is_s32; lia). cbn [mbind res_bind].
  destruct (transit_of h arrival - src_transit s <? 0) eqn:E.
  - rewrite int_of_Ok by (unfold is_s32; lia). cbn [mbind res_bind]. by eexists.
  - cbn [mbind res_bind]. by eexists.
Qed.

Lemma represents_jitter s m t j :
  represents (count_received s) m -> represents (count_received (set_jitter s t j)) m.
Proof. intros []. by constructor. Qed.

Lemma place_keeps s q r s' :
  source_place s q = (r, s') -> src_ssrc s' = src_ssrc s /\ src_transit s' = src_transit s.
Proof.
  unfold source_place, source_advance, source_mark_received. intros H.
  repeat (case_match; simplify_eq/=; try done).
Qed.

(** A packet of the source: the result and the new state follow the set. *)
Lemma source_update_step s m h arrival :
  represents s m -> calm (src_transit s) ->
  h_version h = 2 -> h_ssrc h = src_ssrc s -> is_u16 (h_sequence_number h) ->
  calm (transit_of h arrival) -> sn_max m + 32768 < 4294967296 ->
  exists s', rtsp_rtp_source_update_ex s h arrival =
      Ok ((seen_update m (h_sequence_number h)).1, s') /\
    represents s' (seen_update m (h_sequence_number h)).2 /\
    calm (src_transit s') /\ src_ssrc s' = src_ssrc s.
Proof.
  intros Hr Hc Hv Hs Hq Ht Hm. unfold rtsp_rtp_source_update_ex.
  rewrite Hv. change (2 =? 2) with true. cbn [negb].
  rewrite (rp_initialized s m Hr). cbn [negb]. rewrite Hs, Z.eqb_refl. cbn [negb].
  destruct (source_place_spec s m (h_sequence_number h) Hr Hq Hm) as (r & s' & Hp & Hres & Hst).
  rewrite Hp. cbn beta iota. rewrite Hres. case_decide as Hd.
  - rewrite Hst. subst r. exists s. by rewrite Hd.
  - destruct (place_keeps _ _ _ _ Hp) as [Hk Hkt].
    destruct (update_jitter_Ok s' h arrival Ht) as (j & ->); [by rewrite Hkt|].
    cbn [mbind res_bind]. eexists. split; [done|]. split; [by apply represents_jitter|]. done.
Qed.

Definition trace_ok (ssrc : Z) (p : turbo_rtsp_rtp_header_t * Z) : Prop :=
  h_version p.1 = 2 /\ h_ssrc p.1 = ssrc /\ is_u16 (h_sequence_number p.1) /\
  calm (transit_of p.1 p.2).

Lemma seen_update_max m q :
  sn_max m <= sn_max (seen_update m q).2 <= sn_max m + 32767.
Proof.
  unfold seen_update. pose proof (u16_range (q - sn_max m)) as Hu. unfold is_u16 in Hu.
  destruct (_ =? 0) eqn:E0; cbn; [lia|]. destruct (_ <? 32768) eqn:E1; cbn; [lia|].
  case_decide; cbn; lia.
Qed.

Lemma source_updates_spec packets s m :
  represents s m -> calm (src_transit s) ->
  Forall (trace_ok (src_ssrc s)) packets ->
  sn_max m + 32768 * (1 + len packets) < 4294967296 ->
  let seqs := (fun p => h_sequence_number p.1) <$> packets in
  exists s', source_updates s packets = Ok ((seen_updates m seqs).1, s') /\
    represents s' (seen_updates m seqs).2.
Proof.
  revert s m. induction packets as [|[h arrival] packets IH]; intros s m Hr Hc Hp Hm seqs.
  { by exists s. }
  apply Forall_cons in Hp as [(Hv & Hs & Hq & Ht) Hp]. cbn [fst snd] in *.
  rewrite len_cons in Hm. pose proof (len_nonneg packets).
  destruct (source_update_step s m h arrival) as (s1 & E & Hr1 & Hc1 & Hs1); try done; [lia|].
  pose proof (seen_update_max m (h_sequence_number h)) as Hmax.
  unfold seqs. cbn [source_updates fmap list_fmap seen_updates fst]. rewrite E.
  destruct (seen_update m (h_sequence_number h)) as [r m1]. cbn [fst snd mbind res_bind] in *.
  destruct (IH s1 m1) as (s' & E' & Hr'); try done; [by rewrite Hs1|lia|].
  rewrite E'. cbn [mbind res_bind].
  destruct (seen_updates m1 _) as [rs m']. by exists s'.
Qed.

Lemma seen_all_len seqs m :
  len (sn_all (seen_updates m seqs).2) <= len (sn_all m) + len seqs.
Proof.
  revert m. induction seqs as [|q seqs IH]; intros m; cbn [seen_updates].
  { cbn. unfold len. cbn. lia. }
  assert (Hq : len (sn_all (seen_update m q).2) <= len (sn_all m) + 1).
  { unfold seen_update. repeat case_match; cbn; rewrite ?len_cons; lia. }
  destruct (seen_update m q) as [r m1]. specialize (IH m1).
  destruct (seen_updates m1 seqs) as [rs m2]. cbn [snd] in *. rewrite len_cons. lia.
Qed.

(* ------------------------------------------------------------------ *)
(** ** Properties *)

(** A packet written for any well-formed header (CSRC list and extension included)
    and any payload is read back: the same fields, the same payload, and the header
    length that precedes it; the rest of the buffer is untouched. *)
Theorem rtsp_rtp_roundtrip h payload packet :
  header_wf h ->
  len (header_bytes h) + len payload <= len packet ->
  len (header_bytes h) + len payload < 2147483648 ->
  exists n packet',
    rtsp_rtp_write_packet packet h payload = Ok (n, packet') /\
    len packet' = len packet /\ drop (Z.to_nat n) packet' = drop (Z.to_nat n) packet /\
    rtsp_rtp_parse_header (take (Z.to_nat n) packet') =
    Ok (read_back h payload, n - len payload).
Proof.
  intros Hw Hl Hs. pose proof (len_nonneg (header_bytes h)). pose proof (len_nonneg payload).
  set (w := header_bytes h ++ payload).
  assert (Hlw : len w = len (header_bytes h) + len payload) by (unfold w; by rewrite len_app).
  exists (len w), (w ++ drop (length w) packet). split.
  { apply write_packet_spec; fold w; [done|lia|unfold is_s32; lia]. }
  rewrite len_to_nat, take_app_length, drop_app_length.
  split; [rewrite len_app, len_drop; unfold len in *; lia|]. split; [done|].
  unfold w at 1. rewrite parse_header_spec by done. do 2 f_equal. lia.
Qed.

Definition wire_example : turbo_rtsp_rtp_header_t :=
  mk_header 2 0 1 2 1 96 65535 123456789 0xdeadbeef
    (1 :: 0xffffffff :: replicate 14 0) 0xbede 4 (Some [16; 170; 0; 0]) 0 None 0.

Lemma rtsp_rtp_roundtrip_witness :
  header_wf wire_example /\
  exists n packet',
    rtsp_rtp_write_packet (replicate 40 7) wire_example [1; 2; 3] = Ok (n, packet') /\
    len packet' = len (replicate 40 7) /\
    drop (Z.to_nat n) packet' = drop (Z.to_nat n) (replicate 40 7) /\
    rtsp_rtp_parse_header (take (Z.to_nat n) packet') =
    Ok (read_back wire_example [1; 2; 3], n - len [1; 2; 3]).
Proof.
  assert (Hw : header_wf wire_example).
  { constructor; cbn; try done; try lia; try (by right).
    - repeat constructor; done.
    - intros _. split; [done|]. split; [done|]. split; [done|].
      exists [16; 170; 0; 0]. split; reflexivity. }
  split; [exact Hw|].
  apply (rtsp_rtp_roundtrip wire_example [1; 2; 3] (replicate 40 7)); [exact Hw|..];
    vm_compute; [discriminate|reflexivity].
Defined.

(** What a source answers to each packet of its stream is what the set of all the
    packets it has had says, with sequence numbers that do not wrap: a packet less than
    half a cycle ahead is new, with a dropout beyond 3000; one behind is late; and a
    duplicate is reported exactly for a packet among the newest 64 positions that has
    been received before.  Its newest sequence number with its cycles is the largest of
    the set, and the number of packets received is its size. *)
Theorem source_refines_seen ssrc h arrival packets :
  trace_ok (h_ssrc h) (h, arrival) -> Forall (trace_ok (h_ssrc h)) packets ->
  len packets <= 131000 -> ssrc = 0 \/ ssrc = h_ssrc h ->
  let seqs := (fun p => h_sequence_number p.1) <$> packets in
  let '(results, m) := seen_updates
    (mk_seen (h_sequence_number h) [h_sequence_number h]) seqs in
  exists s, source_updates (rtsp_rtp_source_init ssrc) ((h, arrival) :: packets) =
      Ok (UPDATE_OK :: results, s) /\
    src_cycles s + src_max s = sn_max m /\ src_received s = len (sn_all m).
Proof.
  intros (Hv & _ & Hq & Ht) Hp Hl Hs seqs. cbn [fst snd] in *. unfold is_u16 in Hq.
  set (q := h_sequence_number h) in *. set (m0 := mk_seen q [q]).
  set (s0 := source_start (rtsp_rtp_source_init ssrc) (h_ssrc h) q (transit_of h arrival)).
  assert (E0 : rtsp_rtp_source_update_ex (rtsp_rtp_source_init ssrc) h arrival = Ok (UPDATE_OK, s0)).
  { unfold rtsp_rtp_source_update_ex. rewrite Hv. change (2 =? 2) with true. cbn [negb].
    cbn [rtsp_rtp_source_init src_initialized src_has_ssrc src_ssrc negb].
    destruct Hs as [->| ->]; [done|]. by rewrite Z.eqb_refl, andb_false_r. }
  assert (Hr0 : represents s0 m0).
  { constructor; unfold s0, m0; cbn [source_start rtsp_rtp_source_init sn_max sn_all src_max src_cycles src_bitmap src_received src_initialized]; try done; try lia.
    - intros i Hi. change 1 with (2 ^ 0). rewrite Z.pow2_bits_eqb by lia.
      destruct (0 =? i) eqn:E.
      + symmetry. apply bool_decide_eq_true. replace i with 0 by lia.
        rewrite Z.sub_0_r. split; [lia|by left].
      + symmetry. apply bool_decide_eq_false. intros [_ [?|Hin%elem_of_nil]%elem_of_cons]; [lia|done].
    - by left.
    - by repeat constructor. }
  destruct (source_updates_spec packets s0 m0 Hr0) as (s & E & Hr); [done|done|unfold m0; cbn [sn_max]; lia|].
  fold seqs in E, Hr. pose proof (seen_all_len seqs m0) as Hlen.
  unfold seqs in Hlen at 2. rewrite len_map in Hlen.
  destruct (seen_updates m0 seqs) as [results m]. cbn [fst snd] in *.
  exists s. cbn [source_updates]. rewrite E0. cbn [mbind res_bind]. rewrite E. cbn [mbind res_bind].
  split; [done|]. destruct Hr. rewrite rp_cycles0, rp_max0, rp_received0. split; [lia|].
  apply u32_id. unfold is_u32. pose proof (len_nonneg (sn_all m)).
  change (len (sn_all m0)) with 1 in Hlen. lia.
Qed.

Lemma source_refines_seen_witness :
  let packets := [(example_header 0 5, 6); (example_header 65535 5, 7);
                  (example_header 0 5, 8); (example_header 1 5, 9)] in
  let seqs := (fun p => h_sequence_number p.1) <$> packets in
  let '(results, m) := seen_updates (mk_seen 65534 [65534]) seqs in
  exists s, source_updates (rtsp_rtp_source_init 0) ((example_header 65534 5, 5) :: packets) =
      Ok (UPDATE_OK :: results, s) /\
    src_cycles s + src_max s = sn_max m /\ src_received s = len (sn_all m).
Proof.
  apply (source_refines_seen 0 (example_header 65534 5) 5
    [(example_header 0 5, 6); (example_header 65535 5, 7);
     (example_header 0 5, 8); (example_header 1 5, 9)]).
  - repeat split; vm_compute; (reflexivity || discriminate).
  - repeat constructor; vm_compute; (reflexivity || discriminate).
  - vm_compute. discriminate.
  - by left.
Defined.
