(* ===== verification/RtspH264.v ===== *)
(** * H.264 over RTP

    media/rtsp/parser/turbo_rtsp_rtp.c, the H.264 payload format (RFC 6184) of the RTSP
    library: reading a payload (single NAL unit, STAP-A, FU-A), iterating an aggregate,
    cutting a NAL unit into fragments, putting it together again, the stream that writes
    a NAL unit as packets, and the receiving stream with its queue of packets that are
    early.

    Handles and out parameters are not [NULL]; a NAL buffer that is [NULL] is the empty
    list.  The packet area of a writer is the list of its slots of [packet_size] bytes,
    and the packets written are the lengths used in them.  Where a NAL unit was handed
    out from - the packet, the caller's buffer or the copy kept by the stream - is part
    of the result, because a pointer into a queued packet does not outlive its slot. *)

From S2P Require Import Prelude Interleaved RtspRtp.

(* ------------------------------------------------------------------ *)
(** ** Payloads *)

Definition TURBO_RTSP_H264_NAL_TYPE_STAP_A : Z := 24.
Definition TURBO_RTSP_H264_NAL_TYPE_FU_A : Z := 28.
Definition SIZE_MAX : Z := 18446744073709551615.
Definition H264_REORDER_CAPACITY : Z := 4.
Definition H264_REORDER_WINDOW : Z := 8.
Definition H264_REORDER_PAYLOAD_SIZE : Z := 2048.

Inductive h264_payload_kind : Type :=
  | H264_SINGLE_NAL | H264_STAP_A | H264_FU_A.

#[export] Instance h264_payload_kind_eq_dec : EqDecision h264_payload_kind.
Proof. solve_decision. Defined.

(** [payload], [nal] and [fu_payload] with their lengths. *)
Record h264_payload := mk_h264 {
  hp_kind : h264_payload_kind;
  hp_nal_header : Z;
  hp_nal_ref_idc : Z;
  hp_nal_unit_type : Z;
  hp_payload : list Z;
  hp_nal : list Z;
  hp_fu_start : bool;
  hp_fu_end : bool;
  hp_fu_nal_unit_type : Z;
  hp_reconstructed : Z;
  hp_fu_payload : list Z;
}.

Definition is_single_nal_type (t : Z) : bool := (1 <=? t) && (t <=? 23).
Definition h264_nal_type (b : Z) : Z := u8 (Z.land b 0x1f).
Definition h264_nal_ref_idc (b : Z) : Z := u8 (Z.shiftr (Z.land b 0x60) 5).

(** The header of a fragment: start, end, reserved. *)
Definition fu_bit (b i : Z) : bool := truth (u8 (Z.land (Z.shiftr b i) 1)).

Definition h264_payload_parse (payload : list Z) : res h264_payload :=
  if len payload =? 0 then Err
  else
    nal_header ← rd payload 0;
    let t := h264_nal_type nal_header in
    let idc := h264_nal_ref_idc nal_header in
    if negb (u8 (Z.shiftr nal_header 7) =? 0) then Err
    else if is_single_nal_type t then
      Ok (mk_h264 H264_SINGLE_NAL nal_header idc t payload payload false false 0 nal_header [])
    else if t =? TURBO_RTSP_H264_NAL_TYPE_STAP_A then
      if len payload <? 2 then Err
      else Ok (mk_h264 H264_STAP_A nal_header idc t payload [] false false 0 0 [])
    else if t =? TURBO_RTSP_H264_NAL_TYPE_FU_A then
      if len payload <? 2 then Err
      else
        fu_header ← rd payload 1;
        fu_payload ← rd_slice payload 2 (len payload - 2);
        let fu_type := h264_nal_type fu_header in
        if fu_bit fu_header 5 || (fu_bit fu_header 7 && fu_bit fu_header 6) ||
           negb (is_single_nal_type fu_type) then Err
        else
          Ok (mk_h264 H264_FU_A nal_header idc t payload [] (fu_bit fu_header 7)
                (fu_bit fu_header 6) fu_type
                (u8 (Z.lor (Z.land nal_header 0xe0) fu_type)) fu_payload)
    else Err.

(** The next NAL unit of an aggregate and the offset after it; [None] at the end. *)
Definition h264_stap_a_next (h : h264_payload) (offset : Z) : res (option (list Z) * Z) :=
  if negb (bool_decide (hp_kind h = H264_STAP_A)) || (len (hp_payload h) <? 2) then Err
  else
    let cursor := if offset =? 0 then 1 else offset in
    if cursor =? len (hp_payload h) then Ok (None, cursor)
    else if (cursor <? 1) || (u64 (len (hp_payload h) - cursor) <? 2) then Err
    else
      n ← read_u16 (hp_payload h) cursor;
      let cursor := cursor + 2 in
      if (n =? 0) || (len (hp_payload h) - cursor <? n) then Err
      else
        b ← rd (hp_payload h) cursor;
        if negb (u8 (Z.shiftr b 7) =? 0) || negb (is_single_nal_type (h264_nal_type b))
        then Err
        else
          nal ← rd_slice (hp_payload h) cursor n;
          Ok (Some nal, cursor + n).

(** The bytes of a NAL unit that a payload carries, written to a buffer. *)
Definition h264_write_nal_fragment (buffer : list Z) (h : h264_payload) :
    res (Z * list Z) :=
  match hp_kind h with
  | H264_SINGLE_NAL =>
      if len buffer <? len (hp_nal h) then Err
      else buffer ← wr buffer 0 (hp_nal h); Ok (len (hp_nal h), buffer)
  | H264_STAP_A => Err
  | H264_FU_A =>
      let needed := len (hp_fu_payload h) + b2i (hp_fu_start h) in
      if len buffer <? needed then Err
      else if hp_fu_start h then
        buffer ← wr buffer 0 [hp_reconstructed h];
        buffer ← wr buffer 1 (hp_fu_payload h);
        Ok (needed, buffer)
      else buffer ← wr buffer 0 (hp_fu_payload h); Ok (needed, buffer)
  end.

(* ------------------------------------------------------------------ *)
(** ** The packetizer *)

Record h264_packetizer := mk_packetizer {
  pk_nal : list Z;
  pk_max_payload : Z;
  pk_offset : Z;
  pk_single_nal : bool;
  pk_done : bool;
}.

Definition set_offset (p : h264_packetizer) (offset : Z) (done : bool) : h264_packetizer :=
  mk_packetizer (pk_nal p) (pk_max_payload p) offset (pk_single_nal p) done.

(** A payload handed out; the last one has the marker. *)
Record packetized := mk_packetized { pz_payload : list Z; pz_marker : bool; pz_end : bool }.

Definition h264_packetizer_init (nal : list Z) (max_payload : Z) : res h264_packetizer :=
  if (len nal =? 0) || (max_payload =? 0) then Err
  else
    b ← rd nal 0;
    if negb (u8 (Z.shiftr b 7) =? 0) || negb (is_single_nal_type (h264_nal_type b)) then Err
    else if (max_payload <? len nal) && (max_payload <? 3) then Err
    else
      let single := len nal <=? max_payload in
      Ok (mk_packetizer nal max_payload (if single then 0 else 1) single false).

(** The scratch buffer takes a fragment; [None] when nothing is left. *)
Definition h264_packetizer_next (p : h264_packetizer) (scratch : list Z) :
    res (option packetized * h264_packetizer * list Z) :=
  if pk_done p then Ok (None, p, scratch)
  else if (len (pk_nal p) =? 0) || (pk_max_payload p =? 0) then Err
  else if pk_single_nal p then
    Ok (Some (mk_packetized (pk_nal p) true true), set_offset p (pk_offset p) true, scratch)
  else if (len scratch <? 3) || (pk_max_payload p <? 3) || (pk_offset p =? 0) ||
          (len (pk_nal p) <=? pk_offset p) then Err
  else
    let max_data := pk_max_payload p - 2 in
    let remaining := len (pk_nal p) - pk_offset p in
    let n := if remaining <? max_data then remaining else max_data in
    if len scratch <? n + 2 then Err
    else
      b ← rd (pk_nal p) 0;
      let last := n =? remaining in
      let fu := h264_nal_type b in
      let fu := if pk_offset p =? 1 then u8 (Z.lor fu 0x80) else fu in
      let fu := if last then u8 (Z.lor fu 0x40) else fu in
      scratch ← wr scratch 0 [u8 (Z.lor (Z.land b 0xe0) TURBO_RTSP_H264_NAL_TYPE_FU_A)];
      scratch ← wr scratch 1 [fu];
      data ← rd_slice (pk_nal p) (pk_offset p) n;
      scratch ← wr scratch 2 data;
      out ← rd_slice scratch 0 (n + 2);
      Ok (Some (mk_packetized out last last), set_offset p (pk_offset p + n) last, scratch).

(* ------------------------------------------------------------------ *)
(** ** The reassembler *)

Record h264_reassembler := mk_reassembler {
  ra_ssrc : Z;
  ra_timestamp : Z;
  ra_next : Z;
  ra_fu_type : Z;
  ra_reconstructed : Z;
  ra_nal_len : Z;
  ra_started : bool;
}.

Definition h264_reassembler_init : h264_reassembler := mk_reassembler 0 0 0 0 0 0 false.
Definition h264_reassembler_reset : h264_reassembler := h264_reassembler_init.

Definition set_fragment (r : h264_reassembler) (next nal_len : Z) : h264_reassembler :=
  mk_reassembler (ra_ssrc r) (ra_timestamp r) next (ra_fu_type r) (ra_reconstructed r)
    nal_len (ra_started r).

(** Where the bytes handed out are. *)
Inductive nal_out : Type :=
  | NoNal
  | PacketNal (bs : list Z)
  | BufferNal (bs : list Z)
  | OutputNal (bs : list Z).

Definition nal_bytes (n : nal_out) : option (list Z) :=
  match n with
  | NoNal => None
  | PacketNal bs | BufferNal bs | OutputNal bs => Some bs
  end.

(** The new length of the NAL unit and the buffer; [Err] when it does not fit. *)
Definition reassembler_append (nal_len : Z) (buffer payload : list Z) :
    res (Z * list Z) :=
  if (len buffer <? nal_len) || (len buffer - nal_len <? len payload) then Err
  else
    buffer ← (if 0 <? len payload then wr buffer nal_len payload else Ok buffer);
    Ok (nal_len + len payload, buffer).

(** What a push returns: the result, the NAL unit, the reassembler and the buffer. *)
Notation push_result := (frame_result * nal_out * h264_reassembler * list Z)%type
  (only parsing).

Definition push_error (buffer : list Z) : push_result :=
  (TURBO_RTSP_FRAME_ERROR, NoNal, h264_reassembler_reset, buffer).

Definition push_start (r : h264_reassembler) (header : turbo_rtsp_rtp_header_t)
    (h : h264_payload) (buffer : list Z) : res push_result :=
  if ra_started r || (len buffer <? 1) then Ok (push_error buffer)
  else
    buffer ← wr buffer 0 [hp_reconstructed h];
    match reassembler_append 1 buffer (hp_fu_payload h) with
    | Fault => Fault
    | Err => Ok (push_error buffer)
    | Ok (n, buffer) =>
        Ok (TURBO_RTSP_FRAME_PARTIAL, NoNal,
            mk_reassembler (h_ssrc header) (h_timestamp header)
              (u16 (h_sequence_number header + 1)) (hp_fu_nal_unit_type h)
              (hp_reconstructed h) n true, buffer)
    end.

(** The fragment continues the one before it. *)
Definition continues (r : h264_reassembler) (header : turbo_rtsp_rtp_header_t)
    (h : h264_payload) : bool :=
  ra_started r && (h_ssrc header =? ra_ssrc r) &&
  (h_timestamp header =? ra_timestamp r) && (h_sequence_number header =? ra_next r) &&
  (hp_fu_nal_unit_type h =? ra_fu_type r) && (hp_reconstructed h =? ra_reconstructed r).

Definition push_continue (r : h264_reassembler) (header : turbo_rtsp_rtp_header_t)
    (h : h264_payload) (buffer : list Z) : res push_result :=
  if negb (continues r header h) then Ok (push_error buffer)
  else
    match reassembler_append (ra_nal_len r) buffer (hp_fu_payload h) with
    | Fault => Fault
    | Err => Ok (push_error buffer)
    | Ok (n, buffer) =>
        if negb (hp_fu_end h) then
          Ok (TURBO_RTSP_FRAME_PARTIAL, NoNal,
              set_fragment r (u16 (h_sequence_number header + 1)) n, buffer)
        else
          nal ← rd_slice buffer 0 n;
          Ok (TURBO_RTSP_FRAME_OK, BufferNal nal, h264_reassembler_reset, buffer)
    end.

(** The bytes a header's payload pointer and length name. *)
Definition header_payload (header : turbo_rtsp_rtp_header_t) : list Z :=
  default [] (h_payload header).

Definition h264_reassembler_push (r : h264_reassembler) (header : turbo_rtsp_rtp_header_t)
    (buffer : list Z) : res push_result :=
  match h264_payload_parse (header_payload header) with
  | Fault => Fault
  | Err => Ok (push_error buffer)
  | Ok h =>
      match hp_kind h with
      | H264_SINGLE_NAL =>
          if ra_started r then Ok (push_error buffer)
          else Ok (TURBO_RTSP_FRAME_OK, PacketNal (hp_nal h), r, buffer)
      | H264_STAP_A => Ok (TURBO_RTSP_FRAME_ERROR, NoNal,
                           (if ra_started r then h264_reassembler_reset else r), buffer)
      | H264_FU_A =>
          if hp_fu_start h then push_start r header h buffer
          else push_continue r header h buffer
      end
  end.

(* ------------------------------------------------------------------ *)
(** ** The writing stream *)

Definition h264_packet_count (nal : list Z) (max_payload : Z) : res Z :=
  _ ← h264_packetizer_init nal max_payload;
  if len nal <=? max_payload then Ok 1
  else
    let fragment_data := max_payload - 2 in
    Ok ((len nal - 1 + fragment_data - 1) / fragment_data).

(** The loop over the packets: the stream, the slots and the lengths used. *)
Fixpoint write_nal_packets (n : nat) (i : Z) (p : h264_packetizer)
    (st : turbo_rtsp_rtp_stream_t) (marker : bool) (slots : list (list Z))
    (scratch : list Z) : res (turbo_rtsp_rtp_stream_t * list (list Z) * list Z) :=
  match n with
  | O => Ok (st, slots, [])
  | S n =>
      '(out, p, scratch) ← h264_packetizer_next p scratch;
      let? payload := out else Err in
      let header := stream_header st (pz_marker payload && marker) (len (pz_payload payload)) in
      slot ← rd slots i;
      '(written, slot) ← rtsp_rtp_write_packet slot header (pz_payload payload);
      sender ← rtsp_rtp_sender_update (st_sender st) header;
      slots ← upd slots i slot;
      '(st, slots, lens) ← write_nal_packets n (i + 1) p (stream_sent st sender) marker
                             slots scratch;
      Ok (st, slots, written :: lens)
  end.

Definition stream_write_h264_nal_ex (st : turbo_rtsp_rtp_stream_t) (nal : list Z)
    (marker : bool) (increment max_payload packet_size : Z) (slots : list (list Z))
    (scratch : list Z) (capacity : Z) :
    res (turbo_rtsp_rtp_stream_t * list (list Z) * list Z) :=
  if (len nal =? 0) || (127 <? st_payload_type st) || (max_payload =? 0) ||
     (packet_size <? TURBO_RTSP_RTP_HEADER_SIZE) || (capacity =? 0) then Err
  else
    needed ← h264_packet_count nal max_payload;
    if (capacity <? needed) || (SIZE_MAX / packet_size <? needed) then Err
    else
      let max_written := if len nal <=? max_payload then len nal else max_payload in
      if (SIZE_MAX - TURBO_RTSP_RTP_HEADER_SIZE <? max_written) ||
         (packet_size <? TURBO_RTSP_RTP_HEADER_SIZE + max_written) then Err
      else if (max_payload <? len nal) && (len scratch <? max_payload) then Err
      else
        p ← h264_packetizer_init nal max_payload;
        '(st, slots, lens) ← write_nal_packets (Z.to_nat needed) 0 p st marker slots scratch;
        Ok (stream_advance st increment, slots, lens).

Definition stream_write_h264_nal (st : turbo_rtsp_rtp_stream_t) (nal : list Z)
    (increment max_payload packet_size : Z) (slots : list (list Z)) (scratch : list Z)
    (capacity : Z) : res (turbo_rtsp_rtp_stream_t * list (list Z) * list Z) :=
  stream_write_h264_nal_ex st nal true increment max_payload packet_size slots scratch
    capacity.

(* ------------------------------------------------------------------ *)
(** ** The receiving stream *)

(** A queued packet: its header, whose payload pointer is the slot's own copy. *)
Record reorder_packet := mk_slot {
  ro_header : turbo_rtsp_rtp_header_t;
  ro_payload : list Z;
  ro_occupied : bool;
}.

Definition zero_header : turbo_rtsp_rtp_header_t :=
  mk_header 0 0 0 0 0 0 0 0 0 (replicate 16 0) 0 0 None 0 None 0.

Definition free_slot : reorder_packet := mk_slot zero_header [] false.

Record h264_receive_stream := mk_receive {
  rs_source : turbo_rtsp_rtp_source_t;
  rs_reassembler : h264_reassembler;
  rs_reorder : list reorder_packet;
  rs_reorder_count : Z;
  rs_has_next : bool;
  rs_next : Z;
}.

Definition set_source (s : h264_receive_stream) (x : turbo_rtsp_rtp_source_t) :
    h264_receive_stream :=
  mk_receive x (rs_reassembler s) (rs_reorder s) (rs_reorder_count s) (rs_has_next s)
    (rs_next s).

Definition set_reassembler (s : h264_receive_stream) (x : h264_reassembler) :
    h264_receive_stream :=
  mk_receive (rs_source s) x (rs_reorder s) (rs_reorder_count s) (rs_has_next s)
    (rs_next s).

Definition set_reorder (s : h264_receive_stream) (x : list reorder_packet) (n : Z) :
    h264_receive_stream :=
  mk_receive (rs_source s) (rs_reassembler s) x n (rs_has_next s) (rs_next s).

Definition set_next (s : h264_receive_stream) (n : Z) : h264_receive_stream :=
  mk_receive (rs_source s) (rs_reassembler s) (rs_reorder s) (rs_reorder_count s) true n.

Definition receive_stream_init (ssrc : Z) : h264_receive_stream :=
  mk_receive (rtsp_rtp_source_init ssrc) h264_reassembler_init (replicate 4 free_slot) 0
    false 0.

Definition receive_stream_reset (_ : h264_receive_stream) (ssrc : Z) : h264_receive_stream :=
  receive_stream_init ssrc.

Definition seq_forward_delta (from to : Z) : Z := u16 (to - from).

Definition reorder_reset (s : h264_receive_stream) : h264_receive_stream :=
  mk_receive (rs_source s) (rs_reassembler s) (replicate 4 free_slot) 0 false 0.

(** Both queues are given up. *)
Definition receive_reset_all (s : h264_receive_stream) : h264_receive_stream :=
  reorder_reset (set_reassembler s h264_reassembler_reset).

(** The index of a queued packet. *)
Definition reorder_find (s : h264_receive_stream) (sequence : Z) : option nat :=
  fst <$> list_find
    (fun x => ro_occupied x = true /\ h_sequence_number (ro_header x) = sequence)
    (rs_reorder s).

(** The header with another payload pointer. *)
Definition with_payload (h : turbo_rtsp_rtp_header_t) (payload : list Z) :
    turbo_rtsp_rtp_header_t :=
  mk_header (h_version h) (h_padding h) (h_extension h) (h_csrc_count h) (h_marker h)
    (h_payload_type h) (h_sequence_number h) (h_timestamp h) (h_ssrc h) (h_csrc h)
    (h_extension_profile h) (h_extension_len h) (h_extension_data h) (h_padding_len h)
    (Some payload) (h_payload_len h).

(** [None] when the packet is too large or the queue is full. *)
Definition reorder_store (s : h264_receive_stream) (header : turbo_rtsp_rtp_header_t) :
    option h264_receive_stream :=
  if (H264_REORDER_PAYLOAD_SIZE <? h_payload_len header) ||
     (H264_REORDER_CAPACITY <=? rs_reorder_count s) then None
  else
    let? i := fst <$> list_find (fun x => ro_occupied x = false) (rs_reorder s) else None in
    let payload := header_payload header in
    Some (set_reorder s
            (<[i := mk_slot (with_payload header payload) payload true]> (rs_reorder s))
            (rs_reorder_count s + 1)).

(** What an operation of the stream returns. *)
Record received := mk_received {
  rv_result : frame_result;
  rv_nal : nal_out;
  rv_stream : h264_receive_stream;
  rv_buffer : list Z;
}.

(** A packet goes to the reassembler.  A NAL unit that points into a queued packet is
    copied out. *)
Definition receive_deliver (s : h264_receive_stream) (header : turbo_rtsp_rtp_header_t)
    (from_reorder : bool) (buffer : list Z) : res received :=
  '(result, nal, r, buffer) ← h264_reassembler_push (rs_reassembler s) header buffer;
  let s := set_next (set_reassembler s r) (u16 (h_sequence_number header + 1)) in
  let nal :=
    match nal with
    | PacketNal bs =>
        if bool_decide (result = TURBO_RTSP_FRAME_OK) && from_reorder &&
           (len bs <=? H264_REORDER_PAYLOAD_SIZE)
        then OutputNal bs else PacketNal bs
    | _ => nal
    end in
  Ok (mk_received result nal s buffer).

Definition reorder_remove (s : h264_receive_stream) (i : nat) : option h264_receive_stream :=
  let? x := rs_reorder s !! i else None in
  if ro_occupied x
  then Some (set_reorder s (<[i := free_slot]> (rs_reorder s)) (u8 (rs_reorder_count s - 1)))
  else None.

(** A queued packet is delivered and leaves the queue. *)
Definition deliver_queued (s : h264_receive_stream) (i : nat) (buffer : list Z) :
    res received :=
  let? x := rs_reorder s !! i else Fault in
  o ← receive_deliver s (with_payload (ro_header x) (ro_payload x)) true buffer;
  match reorder_remove (rv_stream o) i with
  | None => Ok (mk_received TURBO_RTSP_FRAME_ERROR (rv_nal o)
                  (receive_reset_all (rv_stream o)) (rv_buffer o))
  | Some s => Ok (mk_received (rv_result o) (rv_nal o) s (rv_buffer o))
  end.

(** The queue is cleared after an error. *)
Definition reset_on_error (o : received) : received :=
  if decide (rv_result o = TURBO_RTSP_FRAME_ERROR)
  then mk_received (rv_result o) (rv_nal o) (reorder_reset (rv_stream o)) (rv_buffer o)
  else o.

(** The loop of the drain: as long as the NAL unit is not complete and the next packet
    is queued. *)
Fixpoint drain_loop (fuel : nat) (o : received) : res received :=
  if decide (rv_result o = TURBO_RTSP_FRAME_PARTIAL) then
    match reorder_find (rv_stream o) (rs_next (rv_stream o)) with
    | None => Ok o
    | Some i =>
        match fuel with
        | O => Fault
        | S fuel =>
            o ← deliver_queued (rv_stream o) i (rv_buffer o);
            drain_loop fuel o
        end
    end
  else Ok o.

(** Each round takes a packet from the queue of four. *)
Definition receive_drain (s : h264_receive_stream) (header : turbo_rtsp_rtp_header_t)
    (buffer : list Z) : res received :=
  o ← receive_deliver s header false buffer;
  o ← drain_loop 4 o;
  Ok (reset_on_error o).

Definition receive_drain_queued (s : h264_receive_stream) (buffer : list Z) : res received :=
  if negb (rs_has_next s) then Ok (mk_received TURBO_RTSP_FRAME_PARTIAL NoNal s buffer)
  else
    match reorder_find s (rs_next s) with
    | None => Ok (mk_received TURBO_RTSP_FRAME_PARTIAL NoNal s buffer)
    | Some i => o ← deliver_queued s i buffer; Ok (reset_on_error o)
    end.

Definition receive_accept (s : h264_receive_stream) (header : turbo_rtsp_rtp_header_t)
    (buffer : list Z) : res received :=
  let s := if rs_has_next s then s else set_next s (h_sequence_number header) in
  let delta := seq_forward_delta (rs_next s) (h_sequence_number header) in
  if delta =? 0 then receive_drain s header buffer
  else
    let queued :=
      if (delta <=? H264_REORDER_WINDOW) &&
         bool_decide (reorder_find s (h_sequence_number header) = None)
      then reorder_store s header else None in
    match queued with
    | Some s => Ok (mk_received TURBO_RTSP_FRAME_PARTIAL NoNal s buffer)
    | None => Ok (mk_received TURBO_RTSP_FRAME_ERROR NoNal (receive_reset_all s) buffer)
    end.

Definition receive_error (s : h264_receive_stream) (buffer : list Z) : received :=
  mk_received TURBO_RTSP_FRAME_ERROR NoNal (receive_reset_all s) buffer.

(** A packet from the network: what the source says of it, and the rest. *)
Definition receive_stream_push (s : h264_receive_stream) (packet : list Z) (arrival : Z)
    (buffer : list Z) : res (source_result * received) :=
  match rtsp_rtp_parse_header packet with
  | Fault => Fault
  | Err => Ok (UPDATE_ERROR, receive_error s buffer)
  | Ok (header, _) =>
      '(update, source) ← rtsp_rtp_source_update_ex (rs_source s) header arrival;
      let s := set_source s source in
      match update with
      | UPDATE_DUPLICATE =>
          Ok (update, mk_received TURBO_RTSP_FRAME_PARTIAL NoNal s buffer)
      | UPDATE_LATE_OR_OUT_OF_ORDER =>
          if rs_has_next s && (h_sequence_number header =? rs_next s) then
            o ← receive_accept s header buffer; Ok (update, o)
          else Ok (update, mk_received TURBO_RTSP_FRAME_PARTIAL NoNal s buffer)
      | UPDATE_OK => o ← receive_accept s header buffer; Ok (update, o)
      | _ => Ok (update, receive_error s buffer)
      end
  end.

(* ------------------------------------------------------------------ *)
(** ** Concrete runs *)

Definition example_stream (seq : Z) : turbo_rtsp_rtp_stream_t :=
  rtsp_rtp_stream_init 96 7 seq 1000 90000.

Definition example_nal : list Z := [0x65; 1; 2; 3; 4; 5; 6; 7; 8].

(** The packets of a NAL unit, in slots of 32 bytes. *)
Definition example_packets (seq : Z) (nal : list Z) (max_payload : Z) : list (list Z) :=
  match stream_write_h264_nal (example_stream seq) nal 3000 max_payload 32
          (replicate 8 (replicate 32 0)) (replicate 32 0) 8 with
  | Ok (_, slots, lens) => zip_with (fun l s => take (Z.to_nat l) s) lens slots
  | _ => []
  end.

(** A receiver of packets, each with its arrival time: the results with the NAL units. *)
Fixpoint receive_all (s : h264_receive_stream) (packets : list (list Z * Z))
    (buffer : list Z) :
    res (list (frame_result * option (list Z)) * h264_receive_stream * list Z) :=
  match packets with
  | [] => Ok ([], s, buffer)
  | (p, arrival) :: ps =>
      '(_, o) ← receive_stream_push s p arrival buffer;
      '(rs, s, buffer) ← receive_all (rv_stream o) ps (rv_buffer o);
      Ok ((rv_result o, nal_bytes (rv_nal o)) :: rs, s, buffer)
  end.

Definition results_of (s : h264_receive_stream) (packets : list (list Z)) :
    res (list (frame_result * option (list Z))) :=
  '(rs, _, _) ← receive_all s ((fun p => (p, 1000)) <$> packets) (replicate 16 0); Ok rs.

(** In order, across the wrap of the sequence number. *)
Example in_order_run :
  results_of (receive_stream_init 7) (example_packets 65534 example_nal 5) =
  Ok [(TURBO_RTSP_FRAME_PARTIAL, None); (TURBO_RTSP_FRAME_PARTIAL, None);
      (TURBO_RTSP_FRAME_OK, Some example_nal)].
Proof. vm_compute. reflexivity. Qed.

(** The second fragment arrives last. *)
Example delayed_run :
  (let ps := example_packets 65534 example_nal 5 in
   results_of (receive_stream_init 7) [nth 0 ps []; nth 2 ps []; nth 1 ps []]) =
  Ok [(TURBO_RTSP_FRAME_PARTIAL, None); (TURBO_RTSP_FRAME_PARTIAL, None);
      (TURBO_RTSP_FRAME_OK, Some example_nal)].
Proof. vm_compute. reflexivity. Qed.

(** Fragments 1, 2, 3 after the first one in the reverse order: the source calls 2 late,
    and a late packet that is not the next one is dropped although the queue has room. *)
Example reversed_run :
  (let ps := example_packets 10 example_nal 4 in
   results_of (receive_stream_init 7)
     [nth 0 ps []; nth 3 ps []; nth 2 ps []; nth 1 ps []]) =
  Ok [(TURBO_RTSP_FRAME_PARTIAL, None); (TURBO_RTSP_FRAME_PARTIAL, None);
      (TURBO_RTSP_FRAME_PARTIAL, None); (TURBO_RTSP_FRAME_PARTIAL, None)].
Proof. vm_compute. reflexivity. Qed.

(** An offset past the end of an aggregate reads outside it. *)
Example stap_a_offset_fault :
  (h ← h264_payload_parse [24; 0; 1; 5]; h264_stap_a_next h 5) = Fault.
Proof. vm_compute. reflexivity. Qed.

(* ------------------------------------------------------------------ *)
(** ** Fragments *)

(** The first byte of a NAL unit that can be sent. *)
Definition nal_header_ok (b : Z) : bool :=
  (0 <=? b) && (b <? 256) && (u8 (Z.shiftr b 7) =? 0) && is_single_nal_type (h264_nal_type b).

Definition fu_indicator (b : Z) : Z := u8 (Z.lor (Z.land b 0xe0) TURBO_RTSP_H264_NAL_TYPE_FU_A).

Definition fu_header_byte (b : Z) (start last : bool) : Z :=
  let fu := h264_nal_type b in
  let fu := if start then u8 (Z.lor fu 0x80) else fu in
  if last then u8 (Z.lor fu 0x40) else fu.

(** A property of the bytes, checked on all of them. *)
Lemma all_bytes (f : Z -> bool) :
  forallb f (Z.of_nat <$> seq 0 256) = true -> forall b, 0 <= b < 256 -> f b = true.
Proof.
  rewrite forallb_forall. intros H b Hb. apply H. apply list_elem_of_In, list_elem_of_fmap.
  exists (Z.to_nat b). split; [lia|]. apply elem_of_seq. lia.
Qed.

Definition fragment_bytes_ok (b : Z) : bool :=
  negb (nal_header_ok b) ||
  forallb (fun '(s, e) =>
    (u8 (Z.shiftr (fu_indicator b) 7) =? 0) &&
    (h264_nal_type (fu_indicator b) =? 28) &&
    Bool.eqb (fu_bit (fu_header_byte b s e) 7) s &&
    Bool.eqb (fu_bit (fu_header_byte b s e) 6) e &&
    negb (fu_bit (fu_header_byte b s e) 5) &&
    (h264_nal_type (fu_header_byte b s e) =? h264_nal_type b) &&
    (u8 (Z.lor (Z.land (fu_indicator b) 0xe0) (h264_nal_type (fu_header_byte b s e))) =? b))
  [(true, false); (false, true); (false, false)].

Lemma fragment_bytes b s e :
  nal_header_ok b = true -> s && e = false ->
  u8 (Z.shiftr (fu_indicator b) 7) = 0 /\ h264_nal_type (fu_indicator b) = 28 /\
  fu_bit (fu_header_byte b s e) 7 = s /\ fu_bit (fu_header_byte b s e) 6 = e /\
  fu_bit (fu_header_byte b s e) 5 = false /\
  h264_nal_type (fu_header_byte b s e) = h264_nal_type b /\
  u8 (Z.lor (Z.land (fu_indicator b) 0xe0) (h264_nal_type (fu_header_byte b s e))) = b.
Proof.
  intros Hb Hse.
  assert (Hr : 0 <= b < 256) by (unfold nal_header_ok in Hb; lia).
  pose proof (all_bytes fragment_bytes_ok ltac:(vm_compute; reflexivity) b Hr) as H.
  unfold fragment_bytes_ok in H. rewrite Hb in H. cbn [negb orb forallb] in H.
  rewrite !andb_true_iff in H.
  destruct s, e; try done; repeat (destruct H as [? H] || destruct H as [H ?]);
    repeat match goal with
    | E : _ /\ _ |- _ => destruct E
    | E : Bool.eqb _ _ = true |- _ => apply Bool.eqb_prop in E
    | E : (_ =? _) = true |- _ => apply Z.eqb_eq in E
    | E : negb _ = true |- _ => apply negb_true_iff in E
    end; done.
Qed.

Lemma nal_header_ok_parts b :
  nal_header_ok b = true ->
  is_u8 b /\ u8 (Z.shiftr b 7) = 0 /\ is_single_nal_type (h264_nal_type b) = true.
Proof. unfold nal_header_ok, is_u8. lia. Qed.

(** A fragment as it is read. *)
Lemma parse_fragment b s e data :
  nal_header_ok b = true -> s && e = false ->
  h264_payload_parse (fu_indicator b :: fu_header_byte b s e :: data) =
  Ok (mk_h264 H264_FU_A (fu_indicator b) (h264_nal_ref_idc (fu_indicator b)) 28
        (fu_indicator b :: fu_header_byte b s e :: data) [] s e (h264_nal_type b) b data).
Proof.
  intros Hb Hse. destruct (fragment_bytes b s e Hb Hse) as (H1 & H2 & H3 & H4 & H5 & H6 & H7).
  destruct (nal_header_ok_parts b Hb) as (_ & _ & Hs).
  unfold h264_payload_parse. pose proof (len_nonneg data).
  rewrite !len_cons. replace (1 + (1 + len data) =? 0) with false by lia.
  change (rd (fu_indicator b :: fu_header_byte b s e :: data) 0) with (Ok (fu_indicator b)).
  cbn [mbind res_bind]. rewrite H1, H2. change (negb (0 =? 0)) with false.
  change (is_single_nal_type 28) with false. cbn [TURBO_RTSP_H264_NAL_TYPE_STAP_A].
  change (28 =? TURBO_RTSP_H264_NAL_TYPE_STAP_A) with false.
  change (28 =? TURBO_RTSP_H264_NAL_TYPE_FU_A) with true. cbn iota.
  replace (1 + (1 + len data) <? 2) with false by lia.
  change (rd (fu_indicator b :: fu_header_byte b s e :: data) 1) with (Ok (fu_header_byte b s e)).
  cbn [mbind res_bind].
  assert (Hsl : rd_slice (fu_indicator b :: fu_header_byte b s e :: data) 2
      (1 + (1 + len data) - 2) = Ok data).
  { rewrite rd_slice_in_range by (rewrite ?len_cons; lia). change (Z.to_nat 2) with 2%nat.
    change (drop 2 (fu_indicator b :: fu_header_byte b s e :: data)) with data.
    rewrite take_ge; [done|]. unfold len. lia. }
  rewrite Hsl. cbn [mbind res_bind]. rewrite H3, H4, H5, Hse, H6, Hs. cbn [orb negb].
  by rewrite <- H6, H7.
Qed.

Lemma parse_single b d :
  nal_header_ok b = true ->
  exists h, h264_payload_parse (b :: d) = Ok h /\ hp_kind h = H264_SINGLE_NAL /\
    hp_nal h = b :: d.
Proof.
  intros Hb. destruct (nal_header_ok_parts b Hb) as (_ & H7 & Hs).
  unfold h264_payload_parse. pose proof (len_nonneg d). rewrite len_cons.
  replace (1 + len d =? 0) with false by lia.
  change (rd (b :: d) 0) with (Ok b). cbn [mbind res_bind]. rewrite H7, Hs.
  change (negb (0 =? 0)) with false. cbn iota. by eexists.
Qed.

(** The fragments of the data after a NAL header. *)
Fixpoint fragments (fuel : nat) (b : Z) (n : nat) (start : bool) (d : list Z) :
    list packetized :=
  match fuel with
  | O => []
  | S fuel =>
      let last := (length d <=? n)%nat in
      mk_packetized (fu_indicator b :: fu_header_byte b start last :: take n d) last last ::
      if last then [] else fragments fuel b n false (drop n d)
  end.

(** The payloads of a NAL unit. *)
Definition nal_payloads (nal : list Z) (max_payload : Z) : list packetized :=
  if len nal <=? max_payload then [mk_packetized nal true true]
  else
    match nal with
    | [] => []
    | b :: d => fragments (length d) b (Z.to_nat (max_payload - 2)) true d
    end.

(** A packetizer that hands out exactly these payloads, with [k] bytes of scratch. *)
Fixpoint yields (k : Z) (p : h264_packetizer) (pzs : list packetized) : Prop :=
  match pzs with
  | [] => pk_done p = true
  | pz :: rest =>
      forall scratch, len scratch = k ->
        exists p' scratch', h264_packetizer_next p scratch = Ok (Some pz, p', scratch') /\
          len scratch' = k /\ yields k p' rest
  end.

Lemma next_fragment b d max_payload o scratch :
  nal_header_ok b = true -> 3 <= max_payload -> max_payload <= len scratch ->
  1 <= o <= len d ->
  let rest := drop (Z.to_nat (o - 1)) d in
  let n := Z.to_nat (max_payload - 2) in
  let last := (length rest <=? n)%nat in
  exists scratch',
    h264_packetizer_next (mk_packetizer (b :: d) max_payload o false false) scratch =
    Ok (Some (mk_packetized
          (fu_indicator b :: fu_header_byte b (o =? 1) last :: take n rest) last last),
        mk_packetizer (b :: d) max_payload (o + len (take n rest)) false last, scratch') /\
    len scratch' = len scratch.
Proof.
  intros Hb H3 Hs Ho rest n last.
  assert (Hlr : len rest = 1 + len d - o) by (unfold rest; rewrite len_drop; lia).
  unfold h264_packetizer_next.
  cbn [pk_done pk_nal pk_max_payload pk_single_nal pk_offset]. rewrite len_cons.
  replace ((1 + len d =? 0) || (max_payload =? 0)) with false by lia.
  replace ((len scratch <? 3) || (max_payload <? 3) || (o =? 0) || (1 + len d <=? o))
    with false by lia.
  set (k := if 1 + len d - o <? max_payload - 2 then 1 + len d - o else max_payload - 2).
  assert (Hk : k = len (take n rest)) by (unfold k, n; rewrite len_take; destruct (_ <? _) eqn:?; lia).
  pose proof (len_nonneg (take n rest)).
  assert (Hkm : k <= max_payload - 2) by (unfold k; destruct (_ <? _) eqn:?; lia).
  replace (len scratch <? k + 2) with false by lia.
  change (rd (b :: d) 0) with (Ok b). cbn [mbind res_bind].
  assert (Hlast : (k =? 1 + len d - o) = last).
  { unfold last, k, n. unfold len in *. destruct (_ <? _) eqn:?; lia. }
  rewrite Hlast. fold (fu_indicator b).
  change (if last then _ else _) with (fu_header_byte b (o =? 1) last).
  set (ind := fu_indicator b). set (fu := fu_header_byte b (o =? 1) last).
  destruct scratch as [|x0 [|x1 scratch]]; [unfold len in *; simpl in *; lia..|].
  change (wr (x0 :: x1 :: scratch) 0 [ind]) with (wr ([] ++ x0 :: x1 :: scratch) 0 [ind]).
  rewrite wr_next by (done || (rewrite !len_cons; pose proof (len_nonneg scratch); unfold len; simpl; lia)).
  cbn [mbind res_bind app drop length].
  change (ind :: x1 :: scratch) with ([ind] ++ x1 :: scratch).
  rewrite wr_next by (done || (rewrite !len_cons; pose proof (len_nonneg scratch); unfold len; simpl; lia)).
  cbn [mbind res_bind app drop length].
  assert (Hsl : rd_slice (b :: d) o k = Ok (take n rest)).
  { rewrite rd_slice_in_range by (rewrite ?len_cons; unfold k; destruct (_ <? _) eqn:?; lia).
    replace (Z.to_nat o) with (S (Z.to_nat (o - 1))) by lia. rewrite skipn_cons.
    fold rest. rewrite Hk, len_to_nat. f_equal.
    rewrite length_take. destruct (decide (n <= length rest)%nat).
    - by rewrite Nat.min_l.
    - by rewrite Nat.min_r, !take_ge by lia. }
  rewrite Hsl. cbn [mbind res_bind]. rewrite ?drop_0.
  change (ind :: fu :: scratch) with ([ind; fu] ++ scratch).
  rewrite !len_cons in Hs. rewrite wr_next by (done || lia). cbn [mbind res_bind].
  set (data := take n rest) in *.
  assert (Hout : rd_slice (([ind; fu] ++ data) ++ drop (length data) scratch) 0 (k + 2) =
    Ok (ind :: fu :: data)).
  { rewrite rd_slice_front; [done|]. rewrite Hk. rewrite len_app. unfold len. simpl. lia. }
  rewrite Hout. cbn [mbind res_bind]. eexists. split.
  { unfold set_offset. cbn [pk_nal pk_max_payload pk_single_nal]. by rewrite Hk. }
  rewrite !len_app, !len_cons, len_drop. change (len (@nil Z)) with 0.
  clearbody k. unfold len in *. lia.
Qed.

Lemma yields_fragments k b d max_payload fuel o :
  nal_header_ok b = true -> 3 <= max_payload <= k -> 1 <= o <= len d ->
  let rest := drop (Z.to_nat (o - 1)) d in
  (length rest <= fuel)%nat ->
  yields k (mk_packetizer (b :: d) max_payload o false false)
    (fragments fuel b (Z.to_nat (max_payload - 2)) (o =? 1) rest).
Proof.
  intros Hb Hm. revert o. induction fuel as [|fuel IH]; intros o Ho rest Hf.
  { unfold rest in Hf. rewrite length_drop in Hf. unfold len in Ho. lia. }
  cbn [fragments yields]. intros scratch Hs.
  destruct (next_fragment b d max_payload o scratch Hb) as (scratch' & E & Hl); [lia|lia|done|].
  fold rest in E. rewrite E. eexists _, scratch'. split; [done|]. split; [lia|].
  assert (Hlr : len rest = 1 + len d - o) by (unfold rest; rewrite len_drop; lia).
  set (n := Z.to_nat (max_payload - 2)) in *.
  destruct (length rest <=? n)%nat eqn:El; [done|].
  assert (Hn : len (take n rest) = Z.of_nat n) by (rewrite len_take; unfold len; lia).
  assert (Hd : drop n rest = drop (Z.to_nat (o + len (take n rest) - 1)) d).
  { rewrite Hn. unfold rest. rewrite drop_drop. f_equal. lia. }
  specialize (IH (o + len (take n rest))). cbv zeta in IH. rewrite <- Hd in IH.
  replace (o + len (take n rest) =? 1) with false in IH by lia.
  apply IH; [unfold len in *; lia|]. rewrite length_drop. unfold n in *. lia.
Qed.

Lemma length_fragments fuel b n start d :
  (1 <= n)%nat -> (1 <= length d <= fuel)%nat ->
  Z.of_nat (length (fragments fuel b n start d)) = (len d + Z.of_nat n - 1) / Z.of_nat n.
Proof.
  intros Hn. revert start d. induction fuel as [|fuel IH]; intros start d Hd; [lia|].
  cbn [fragments length]. destruct (length d <=? n)%nat eqn:E.
  - cbn [length]. unfold len. apply (Z.div_unique _ _ _ (Z.of_nat (length d) - 1)); lia.
  - rewrite Nat2Z.inj_succ, IH by (rewrite length_drop; lia).
    rewrite len_drop. replace (0 `max` (len d - Z.of_nat n)) with (len d - Z.of_nat n) by (unfold len; lia).
    replace (len d + Z.of_nat n - 1) with ((len d - Z.of_nat n + Z.of_nat n - 1) + 1 * Z.of_nat n) by lia.
    rewrite Z.div_add by lia. lia.
Qed.

Lemma fragments_small fuel b n start d :
  Forall (fun pz => len (pz_payload pz) <= Z.of_nat n + 2) (fragments fuel b n start d).
Proof.
  revert start d. induction fuel as [|fuel IH]; intros start d; cbn [fragments]; [constructor|].
  constructor; [cbn [pz_payload]; rewrite !len_cons, len_take; lia|].
  destruct (length d <=? n)%nat; [constructor|apply IH].
Qed.

(** A NAL unit that can be sent with payloads of a given size. *)
Definition sendable (nal : list Z) (max_payload : Z) : Prop :=
  match nal with
  | [] => False
  | b :: _ => nal_header_ok b = true /\ 1 <= max_payload /\ (len nal <= max_payload \/ 3 <= max_payload)
  end.

Lemma packetizer_init_spec nal max_payload :
  sendable nal max_payload ->
  h264_packetizer_init nal max_payload =
  Ok (mk_packetizer nal max_payload (if len nal <=? max_payload then 0 else 1)
        (len nal <=? max_payload) false).
Proof.
  destruct nal as [|b d]; [done|]. intros (Hb & Hm & H3).
  destruct (nal_header_ok_parts b Hb) as (_ & H7 & Hs).
  unfold h264_packetizer_init. pose proof (len_nonneg d). rewrite !len_cons in *.
  replace ((1 + len d =? 0) || (max_payload =? 0)) with false by lia.
  change (rd (b :: d) 0) with (Ok b). cbn [mbind res_bind]. rewrite H7, Hs.
  change (negb (0 =? 0) || negb true) with false. cbn iota.
  by replace ((max_payload <? 1 + len d) && (max_payload <? 3)) with false by lia.
Qed.

(** The payloads of a NAL unit, their number and their sizes. *)
Lemma nal_payloads_spec nal max_payload k :
  sendable nal max_payload -> (len nal <= max_payload \/ max_payload <= k) ->
  exists p, h264_packetizer_init nal max_payload = Ok p /\
    yields k p (nal_payloads nal max_payload) /\
    h264_packet_count nal max_payload = Ok (len (nal_payloads nal max_payload)) /\
    Forall (fun pz => len (pz_payload pz) <= max_payload) (nal_payloads nal max_payload).
Proof.
  intros Hs Hk. unfold h264_packet_count. rewrite packetizer_init_spec by done.
  eexists. split; [done|]. cbn [mbind res_bind]. unfold nal_payloads.
  destruct (len nal <=? max_payload) eqn:E.
  - split; [|split; [done|by repeat constructor; cbn; lia]].
    cbn [yields]. intros scratch Hl.
    eexists _, scratch. destruct nal as [|b d]; [done|]. destruct Hs as (_ & Hm & _).
    unfold h264_packetizer_next. cbn [pk_done pk_nal pk_max_payload pk_single_nal].
    replace ((len (b :: d) =? 0) || (max_payload =? 0)) with false
      by (rewrite len_cons; pose proof (len_nonneg d); lia).
    done.
  - destruct nal as [|b d]; [done|]. destruct Hs as (Hb & Hm & Hs).
    rewrite len_cons in *. pose proof (len_nonneg d).
    split; [|split].
    + apply (yields_fragments k b d max_payload (length d) 1); try done; lia.
    + do 2 f_equal. unfold len at 2. rewrite length_fragments by (unfold len in *; lia).
      rewrite Z2Nat.id by lia. f_equal. lia.
    + eapply Forall_impl; [apply fragments_small|]. cbn. lia.
Qed.

(* ------------------------------------------------------------------ *)
(** ** The packets of a stream *)

(** The stream after a packet, as far as headers are concerned. *)
Definition stream_next (st : turbo_rtsp_rtp_stream_t) : turbo_rtsp_rtp_stream_t :=
  stream_sent st (st_sender st).

Definition packet_header (st : turbo_rtsp_rtp_stream_t) (marker : bool) (pz : packetized) :
    turbo_rtsp_rtp_header_t :=
  stream_header st (pz_marker pz && marker) (len (pz_payload pz)).

Definition packet_bytes (st : turbo_rtsp_rtp_stream_t) (marker : bool) (pz : packetized) :
    list Z :=
  header_bytes (packet_header st marker pz) ++ pz_payload pz.

Fixpoint stream_packets (st : turbo_rtsp_rtp_stream_t) (marker : bool)
    (pzs : list packetized) : list (list Z) :=
  match pzs with
  | [] => []
  | pz :: rest => packet_bytes st marker pz :: stream_packets (stream_next st) marker rest
  end.

(** A stream that can send: its fields are in range, and its sender agrees on the SSRC. *)
Record stream_ok (st : turbo_rtsp_rtp_stream_t) : Prop := {
  so_payload_type : 0 <= st_payload_type st < 128;
  so_ssrc : is_u32 (st_ssrc st);
  so_sequence : is_u16 (st_sequence_number st);
  so_timestamp : is_u32 (st_timestamp st);
  so_sender : snd_has_ssrc (st_sender st) = true -> snd_ssrc (st_sender st) = st_ssrc st;
}.

Lemma packet_header_wf st marker pz : stream_ok st -> header_wf (packet_header st marker pz).
Proof.
  intros []. constructor; cbn; try done; try lia; try (by left).
  - destruct (pz_marker pz && marker); [by right|by left].
  - repeat constructor; done.
Qed.

Lemma len_packet_bytes st marker pz :
  stream_ok st -> len (packet_bytes st marker pz) = 12 + len (pz_payload pz).
Proof.
  intros Hs. unfold packet_bytes. rewrite len_app, len_header_bytes by (by apply packet_header_wf).
  rewrite len_ext_of by (by apply packet_header_wf). cbn. lia.
Qed.

Lemma stream_sent_ok st s :
  stream_ok st -> snd_ssrc s = st_ssrc st -> stream_ok (stream_sent st s).
Proof. intros [] ?. constructor; cbn; try done. apply u16_range. Qed.

Lemma sender_update_ok st marker pz :
  stream_ok st ->
  exists s, rtsp_rtp_sender_update (st_sender st) (packet_header st marker pz) = Ok s /\
    snd_ssrc s = st_ssrc st /\ snd_has_ssrc s = true.
Proof.
  intros []. unfold rtsp_rtp_sender_update. cbn [packet_header stream_header h_version h_ssrc].
  change (negb (2 =? 2)) with false. cbn iota.
  destruct (snd_has_ssrc (st_sender st)) eqn:E.
  - rewrite so_sender0 by done. rewrite Z.eqb_refl. cbn [andb negb]. by eexists.
  - cbn [andb]. by eexists.
Qed.

(** Headers do not look at the sender. *)
Lemma stream_packets_sender st st' marker pzs :
  st_payload_type st' = st_payload_type st -> st_ssrc st' = st_ssrc st ->
  st_sequence_number st' = st_sequence_number st -> st_timestamp st' = st_timestamp st ->
  stream_packets st' marker pzs = stream_packets st marker pzs.
Proof.
  revert st st'. induction pzs as [|pz pzs IH]; intros st st' H1 H2 H3 H4; [done|].
  cbn [stream_packets]. f_equal.
  - unfold packet_bytes, packet_header, stream_header. by rewrite H1, H2, H3, H4.
  - apply IH; cbn; try done. by rewrite H3.
Qed.

(** The packets found in the slots. *)
Definition sent_packets (slots : list (list Z)) (lens : list Z) : list (list Z) :=
  zip_with (fun l s => take (Z.to_nat l) s) lens slots.

Lemma write_nal_packets_spec k pzs i p st marker slots scratch packet_size :
  yields k p pzs -> stream_ok st -> len scratch = k ->
  Forall (fun s => len s = packet_size) slots -> 0 <= i ->
  i + len pzs <= len slots ->
  Forall (fun pz => 12 + len (pz_payload pz) <= packet_size) pzs -> packet_size < 2147483648 ->
  exists st' slots' lens,
    write_nal_packets (length pzs) i p st marker slots scratch = Ok (st', slots', lens) /\
    take (Z.to_nat i) slots' = take (Z.to_nat i) slots /\
    length slots' = length slots /\
    sent_packets (drop (Z.to_nat i) slots') lens = stream_packets st marker pzs /\
    length lens = length pzs /\
    stream_ok st' /\ st_sequence_number st' = u16 (st_sequence_number st + len pzs) /\
    st_timestamp st' = st_timestamp st /\ st_ssrc st' = st_ssrc st /\
    st_payload_type st' = st_payload_type st.
Proof.
  revert i p st slots scratch.
  induction pzs as [|pz pzs IH]; intros i p st slots scratch Hy Hst Hk Hsl Hi Hlen Hpz Hps.
  { exists st, slots, []. cbn [write_nal_packets length sent_packets zip_with stream_packets].
    change (len (@nil packetized)) with 0. rewrite Z.add_0_r, u16_id by apply so_sequence, Hst.
    repeat (split; [done|]). done. }
  cbn [yields] in Hy. destruct (Hy scratch Hk) as (p' & scratch' & En & Hk' & Hy').
  apply Forall_cons in Hpz as [Hpz Hpzs]. rewrite len_cons in Hlen. pose proof (len_nonneg pzs).
  cbn [write_nal_packets length]. rewrite En. cbn [mbind res_bind].
  destruct (rd_in_range slots i) as [slot Hslot]; [lia|]. rewrite Hslot. cbn [mbind res_bind].
  assert (Hls : len slot = packet_size).
  { apply rd_lookup in Hslot as [_ Hl]. by eapply Forall_lookup_1 in Hsl. }
  fold (packet_header st marker pz).
  pose proof (len_packet_bytes st marker pz Hst) as Hlp.
  pose proof (len_nonneg (pz_payload pz)).
  rewrite write_packet_spec by (by apply packet_header_wf || (fold (packet_bytes st marker pz);
    rewrite Hlp; unfold is_s32; lia)).
  fold (packet_bytes st marker pz). cbn [mbind res_bind].
  destruct (sender_update_ok st marker pz Hst) as (s & -> & Hss & Hsh). cbn [mbind res_bind].
  rewrite upd_Ok by lia. cbn [mbind res_bind].
  set (slot' := packet_bytes st marker pz ++ drop (length (packet_bytes st marker pz)) slot).
  assert (Hls' : len slot' = packet_size) by (unfold slot'; rewrite len_app, len_drop; unfold len in *; lia).
  destruct (IH (i + 1) p' (stream_sent st s) (<[Z.to_nat i:=slot']> slots) scratch')
    as (st' & slots' & lens & E & Ht & Hl & Hsent & Hll & Hok & Hseq & Hts & Hssrc & Hpt); try done.
  { by apply stream_sent_ok. }
  { by apply Forall_insert. }
  { lia. }
  { rewrite len_insert. lia. }
  rewrite E. cbn [mbind res_bind]. exists st', slots', (len (packet_bytes st marker pz) :: lens).
  split; [done|]. rewrite length_insert in Hl. replace (Z.to_nat (i + 1)) with (S (Z.to_nat i)) in * by lia.
  assert (Hi' : slots' !! Z.to_nat i = Some slot').
  { rewrite <- (lookup_take_lt slots' (S (Z.to_nat i))) by lia.
    rewrite Ht, lookup_take_lt by lia.
    apply list_lookup_insert_eq. unfold len in Hlen. lia. }
  split.
  { apply (f_equal (take (Z.to_nat i))) in Ht. rewrite !take_take, Nat.min_l in Ht by lia.
    by rewrite take_insert_ge in Ht by lia. }
  split; [done|]. split.
  { rewrite (drop_S _ _ _ Hi'). cbn [sent_packets zip_with stream_packets].
    f_equal.
    - unfold slot'. by rewrite len_to_nat, take_app_length.
    - unfold sent_packets in Hsent. rewrite Hsent. by apply stream_packets_sender. }
  split; [by cbn; f_equal|]. split; [done|]. split; [|done].
  rewrite Hseq, len_cons. cbn [stream_sent st_sequence_number]. unfold u16. zmod_lia.
Qed.

(** The packets of a NAL unit as the stream writes them. *)
Lemma write_nal_spec st nal marker increment max_payload packet_size slots scratch capacity :
  stream_ok st -> sendable nal max_payload ->
  (len nal <= max_payload \/ max_payload <= len scratch) ->
  12 + Z.min (len nal) max_payload <= packet_size < 2147483648 ->
  Forall (fun s => len s = packet_size) slots ->
  len slots * packet_size <= SIZE_MAX ->
  len (nal_payloads nal max_payload) <= Z.min capacity (len slots) ->
  exists st' slots' lens,
    stream_write_h264_nal_ex st nal marker increment max_payload packet_size slots scratch
      capacity = Ok (st', slots', lens) /\
    length slots' = length slots /\ length lens = length (nal_payloads nal max_payload) /\
    sent_packets slots' lens = stream_packets st marker (nal_payloads nal max_payload) /\
    stream_ok st' /\
    st_sequence_number st' = u16 (st_sequence_number st + len (nal_payloads nal max_payload)) /\
    st_timestamp st' = u32 (st_timestamp st + increment) /\ st_ssrc st' = st_ssrc st.
Proof.
  intros Hst Hsend Hscr Hps Hsl Harea Hcap.
  destruct (nal_payloads_spec nal max_payload (len scratch) Hsend Hscr)
    as (p & Hp & Hy & Hcount & Hsz).
  assert (Hpos : 0 < len nal /\ 1 <= max_payload).
  { destruct nal as [|b d]; [done|]. destruct Hsend as (_ & ? & _). rewrite len_cons.
    pose proof (len_nonneg d). lia. }
  assert (Hn : 0 < len (nal_payloads nal max_payload)).
  { unfold nal_payloads. destruct (len nal <=? max_payload) eqn:E; [done|].
    destruct nal as [|b d]; [done|]. destruct d as [|x d].
    - unfold len in *. simpl in *. lia.
    - cbn [length fragments]. rewrite len_cons. match goal with |- 0 < 1 + len ?l => pose proof (len_nonneg l) end. lia. }
  unfold stream_write_h264_nal_ex, TURBO_RTSP_RTP_HEADER_SIZE.
  pose proof (so_payload_type st Hst).
  replace ((len nal =? 0) || (127 <? st_payload_type st) || (max_payload =? 0) ||
           (packet_size <? 12) || (capacity =? 0)) with false by lia.
  rewrite Hcount. cbn [mbind res_bind]. set (n := len (nal_payloads nal max_payload)) in *.
  assert (Hdiv : n <= SIZE_MAX / packet_size) by (apply Z.div_le_lower_bound; nia).
  replace ((capacity <? n) || (SIZE_MAX / packet_size <? n)) with false by lia.
  set (mw := if len nal <=? max_payload then len nal else max_payload).
  assert (Hmw : mw = Z.min (len nal) max_payload) by (unfold mw; destruct (_ <=? _) eqn:?; lia).
  replace ((SIZE_MAX - 12 <? mw) || (packet_size <? 12 + mw)) with false
    by (unfold SIZE_MAX; lia).
  replace ((max_payload <? len nal) && (len scratch <? max_payload)) with false by lia.
  rewrite Hp. cbn [mbind res_bind].
  destruct (write_nal_packets_spec (len scratch) (nal_payloads nal max_payload) 0 p st marker
    slots scratch packet_size) as (st' & slots' & lens & E & _ & Hl & Hsent & Hll & Hok & Hseq & Hts & Hss & Hpt);
    try done; try lia.
  { unfold nal_payloads in *. destruct (len nal <=? max_payload) eqn:El.
    - repeat constructor. cbn. lia.
    - eapply Forall_impl; [exact Hsz|]. cbn. lia. }
  unfold n. rewrite len_to_nat, E. cbn [mbind res_bind].
  exists (stream_advance st' increment), slots', lens.
  split; [done|]. split; [done|]. split; [done|]. split; [done|].
  split; [|by cbn; rewrite ?Hseq, ?Hts].
  destruct Hok. constructor; cbn; try done. apply u32_range.
Qed.

(* ------------------------------------------------------------------ *)
(** ** Receiving in order *)

(** The stream expects the next packet of [st], and nothing is queued. *)
Record listening (s : h264_receive_stream) (st : turbo_rtsp_rtp_stream_t) : Prop := {
  li_source :
    (src_initialized (rs_source s) = false /\ rs_has_next s = false /\
     (src_has_ssrc (rs_source s) = true -> src_ssrc (rs_source s) = st_ssrc st)) \/
    (src_initialized (rs_source s) = true /\ rs_has_next s = true /\
     rs_next s = st_sequence_number st /\
     src_ssrc (rs_source s) = st_ssrc st /\
     src_max (rs_source s) = u16 (st_sequence_number st - 1) /\
     calm (src_transit (rs_source s)));
  li_queue : rs_reorder s = replicate 4 free_slot;
  li_count : rs_reorder_count s = 0;
}.

Lemma find_free s q : rs_reorder s = replicate 4 free_slot -> reorder_find s q = None.
Proof. intros E. unfold reorder_find. rewrite E. reflexivity. Qed.

Lemma place_next s q :
  is_u16 q -> src_max s = u16 (q - 1) ->
  exists cycles,
    source_place s q = (UPDATE_OK, source_mark_received (set_max s cycles q) 1).
Proof.
  unfold is_u16. intros Hq Hm. unfold source_place, source_advance, TURBO_RTSP_RTP_SEQ_MOD.
  rewrite Hm. unfold u16. destruct (decide (q = 0)) as [->|].
  - change ((0 - 1) mod 65536) with 65535. cbn. by eexists.
  - rewrite Z.mod_small by lia. replace (q =? q - 1) with false by lia.
    replace (q - 1 <? q) with true by lia. replace (q - (q - 1)) with 1 by lia.
    replace (0x8000 <=? 1) with false by lia. by eexists.
Qed.

(** The source takes the next packet. *)
Lemma source_takes_next s st header arrival :
  listening s st -> stream_ok st ->
  h_version header = 2 -> h_sequence_number header = st_sequence_number st ->
  h_ssrc header = st_ssrc st -> calm (transit_of header arrival) ->
  exists x, rtsp_rtp_source_update_ex (rs_source s) header arrival = Ok (UPDATE_OK, x) /\
    src_initialized x = true /\ src_ssrc x = st_ssrc st /\
    src_max x = st_sequence_number st /\ calm (src_transit x).
Proof.
  intros [Hs _ _] Hst Hv Hq Hss Hc. unfold rtsp_rtp_source_update_ex. rewrite Hv.
  change (negb (2 =? 2)) with false. cbn iota. fold (transit_of header arrival).
  destruct Hs as [(Hi & Hn & Hssrc)|(Hi & Hn & Hnx & Hssrc & Hm & Hcs)]; rewrite Hi; cbn [negb].
  - replace (src_has_ssrc (rs_source s) && negb (src_ssrc (rs_source s) =? h_ssrc header))
      with false.
    + eexists. split; [done|]. by cbn.
    + destruct (src_has_ssrc (rs_source s)) eqn:E; [|done]. rewrite Hssrc, Hss, Z.eqb_refl; done.
  - rewrite Hssrc, Hss, Z.eqb_refl. cbn [negb]. rewrite Hq.
    destruct (place_next (rs_source s) (st_sequence_number st)) as (cyc & ->);
      [apply Hst|done|].
    rewrite decide_False by done.
    destruct (update_jitter_Ok (source_mark_received (set_max (rs_source s) cyc
      (st_sequence_number st)) 1) header arrival Hc) as (j & ->); [done|].
    cbn [mbind res_bind]. eexists. split; [done|]. by cbn.
Qed.

(** A packet in order goes straight to the reassembler. *)
Lemma push_in_order s st marker pz arrival buffer result nal r buffer' :
  listening s st -> stream_ok st ->
  calm (s32 (u32 (arrival - st_timestamp st))) ->
  h264_reassembler_push (rs_reassembler s)
    (read_back (packet_header st marker pz) (pz_payload pz)) buffer =
    Ok (result, nal, r, buffer') ->
  result <> TURBO_RTSP_FRAME_ERROR ->
  exists s', receive_stream_push s (packet_bytes st marker pz) arrival buffer =
      Ok (UPDATE_OK, mk_received result nal s' buffer') /\
    listening s' (stream_next st) /\ rs_reassembler s' = r.
Proof.
  intros Hl Hst Hc Hpush Hne. unfold receive_stream_push, packet_bytes.
  rewrite parse_header_spec by (by apply packet_header_wf).
  set (header := read_back (packet_header st marker pz) (pz_payload pz)) in *.
  destruct (source_takes_next s st header arrival Hl Hst) as (x & -> & Hxi & Hxs & Hxm & Hxc);
    [done..|]. cbn [mbind res_bind].
  set (s1 := set_source s x).
  assert (Hacc : exists s2, receive_accept s1 header buffer =
    Ok (mk_received result nal s2 buffer') /\ listening s2 (stream_next st) /\
    rs_reassembler s2 = r).
  { unfold receive_accept, seq_forward_delta.
    set (s2 := if rs_has_next s1 then s1 else set_next s1 (h_sequence_number header)).
    assert (Hs2 : rs_next s2 = st_sequence_number st /\ rs_reassembler s2 = rs_reassembler s /\
      rs_reorder s2 = replicate 4 free_slot /\ rs_reorder_count s2 = 0 /\ rs_source s2 = x).
    { destruct Hl as [Hsrc Hq Hn]. unfold s2, s1. cbn [set_source rs_has_next].
      destruct Hsrc as [(_ & -> & _)|(_ & -> & Hnx & _)]; cbn; done. }
    destruct Hs2 as (Hnx & Hra & Hro & Hrc & Hsx).
    change (h_sequence_number header) with (st_sequence_number st) at 1.
    rewrite Hnx, Z.sub_diag. change (u16 0 =? 0) with true. cbn iota.
    unfold receive_drain, receive_deliver. rewrite Hra, Hpush. cbn [mbind res_bind].
    set (s3 := set_next (set_reassembler s2 r) (u16 (h_sequence_number header + 1))).
    assert (Hnal : match nal with
      | PacketNal bs => if bool_decide (result = TURBO_RTSP_FRAME_OK) && false &&
          (len bs <=? H264_REORDER_PAYLOAD_SIZE) then OutputNal bs else PacketNal bs
      | _ => nal end = nal) by (destruct nal; rewrite ?andb_false_r; done).
    rewrite Hnal.
    assert (Hd : drain_loop 4 (mk_received result nal s3 buffer') =
      Ok (mk_received result nal s3 buffer')).
    { unfold drain_loop. cbn [rv_result rv_stream]. rewrite find_free by exact Hro.
      by destruct (decide (result = TURBO_RTSP_FRAME_PARTIAL)). }
    rewrite Hd. cbn [mbind res_bind]. unfold reset_on_error. cbn [rv_result].
    rewrite decide_False by done. exists s3. split; [done|]. split; [|done].
    constructor; [right|exact Hro|exact Hrc]. unfold s3. cbn. rewrite Hsx.
    split; [done|]. split; [done|]. split; [done|]. split; [done|]. split; [|done].
    rewrite Hxm. pose proof (so_sequence st Hst). unfold is_u16, u16 in *. zmod_lia. }
  destruct Hacc as (s2 & E & Hls & Hr). rewrite E. cbn [mbind res_bind].
  exists s2. done.
Qed.

(* ------------------------------------------------------------------ *)
(** ** Reassembly *)

(** The reassembler has the bytes [acc] of a NAL unit in the buffer and waits for the
    next packet of [st]. *)
Record midway (r : h264_reassembler) (st : turbo_rtsp_rtp_stream_t) (b : Z)
    (acc buffer : list Z) : Prop := {
  mw_started : ra_started r = true;
  mw_ssrc : ra_ssrc r = st_ssrc st;
  mw_timestamp : ra_timestamp r = st_timestamp st;
  mw_next : ra_next r = st_sequence_number st;
  mw_type : ra_fu_type r = h264_nal_type b;
  mw_header : ra_reconstructed r = b;
  mw_len : ra_nal_len r = len acc;
  mw_bytes : take (length acc) buffer = acc;
  mw_fits : len acc <= len buffer;
}.

(** A fragment of a NAL unit. *)
Definition fragment (b : Z) (start last : bool) (data : list Z) : packetized :=
  mk_packetized (fu_indicator b :: fu_header_byte b start last :: data) last last.

Lemma fragment_appended acc buffer data :
  take (length acc) buffer = acc -> len acc + len data <= len buffer ->
  exists buffer', reassembler_append (len acc) buffer data = Ok (len (acc ++ data), buffer') /\
    take (length (acc ++ data)) buffer' = acc ++ data /\ len buffer' = len buffer.
Proof.
  intros Ht Hl. unfold reassembler_append. pose proof (len_nonneg acc). pose proof (len_nonneg data).
  replace ((len buffer <? len acc) || (len buffer - len acc <? len data)) with false by lia.
  destruct (0 <? len data) eqn:E.
  - assert (Hw : wr buffer (len acc) data =
      Ok ((acc ++ data) ++ drop (length data) (drop (length acc) buffer))).
    { rewrite <- (take_drop (length acc) buffer) at 1. rewrite Ht.
      apply wr_next; [done|]. rewrite len_drop. unfold len in *. lia. }
    rewrite Hw. cbn [mbind res_bind]. eexists. rewrite len_app. split; [done|].
    split; [by rewrite take_app_length|].
    rewrite !len_app, !len_drop. unfold len in *. lia.
  - assert (data = []) as -> by (apply nil_length_inv; unfold len in *; lia).
    exists buffer. cbn [mbind res_bind]. rewrite app_nil_r. change (len (@nil Z)) with 0.
    by rewrite Z.add_0_r.
Qed.

Lemma push_first r st marker b data buffer :
  nal_header_ok b = true -> ra_started r = false -> 1 + len data <= len buffer ->
  exists r' buffer',
    h264_reassembler_push r
      (read_back (packet_header st marker (fragment b true false data))
         (pz_payload (fragment b true false data))) buffer =
    Ok (TURBO_RTSP_FRAME_PARTIAL, NoNal, r', buffer') /\
    midway r' (stream_next st) b (b :: data) buffer' /\ len buffer' = len buffer.
Proof.
  intros Hb Hr Hl. unfold h264_reassembler_push.
  change (header_payload _) with (fu_indicator b :: fu_header_byte b true false :: data).
  rewrite parse_fragment by done. cbn [hp_kind hp_fu_start]. unfold push_start.
  rewrite Hr. pose proof (len_nonneg data). replace (len buffer <? 1) with false by lia.
  cbn [orb hp_reconstructed hp_fu_payload hp_fu_nal_unit_type].
  destruct buffer as [|x buffer]; [unfold len in Hl; simpl in Hl; unfold len in *; lia|].
  change (x :: buffer) with ([] ++ x :: buffer) at 1.
  rewrite wr_next by (done || (rewrite len_cons; pose proof (len_nonneg buffer); unfold len; simpl; lia)).
  cbn [mbind res_bind app length]. change (drop 1 (x :: buffer)) with buffer.
  destruct (fragment_appended [b] (b :: buffer) data) as (buffer' & Ea & Ht & Hlb);
    [done|rewrite !len_cons in *; change (len (@nil Z)) with 0; lia|].
  change (len [b]) with 1 in Ea. cbn [app] in *. rewrite Ea.
  eexists _, buffer'. split; [done|]. split; [|by rewrite Hlb].
  constructor; cbn; try done. rewrite Hlb, !len_cons in *. lia.
Qed.

Lemma push_next r st marker b last acc data buffer :
  nal_header_ok b = true -> midway r st b acc buffer -> len acc + len data <= len buffer ->
  exists r' buffer',
    h264_reassembler_push r
      (read_back (packet_header st marker (fragment b false last data))
         (pz_payload (fragment b false last data))) buffer =
    Ok (if last then TURBO_RTSP_FRAME_OK else TURBO_RTSP_FRAME_PARTIAL,
        if last then BufferNal (acc ++ data) else NoNal, r', buffer') /\
    len buffer' = len buffer /\
    if last then ra_started r' = false
    else midway r' (stream_next st) b (acc ++ data) buffer'.
Proof.
  intros Hb [Hs Hss Hts Hn Ht Hh Hln Hby Hf] Hl. unfold h264_reassembler_push.
  change (header_payload _) with (fu_indicator b :: fu_header_byte b false last :: data).
  rewrite parse_fragment by done. cbn [hp_kind hp_fu_start]. unfold push_continue.
  assert (Hc : forall h, hp_fu_nal_unit_type h = h264_nal_type b -> hp_reconstructed h = b ->
    continues r (read_back (packet_header st marker (fragment b false last data))
      (pz_payload (fragment b false last data))) h = true).
  { intros h H1 H2. unfold continues. rewrite Hs, Hss, Hts, Hn, Ht, Hh, H1, H2.
    cbn [read_back h_ssrc h_timestamp h_sequence_number packet_header stream_header].
    by rewrite !Z.eqb_refl. }
  rewrite Hc by done. cbn [negb hp_fu_payload hp_fu_end]. rewrite Hln.
  destruct (fragment_appended acc buffer data Hby Hl) as (buffer' & -> & Htk & Hlb).
  assert (Hfit : len (acc ++ data) <= len buffer') by (rewrite len_app; lia).
  destruct last; cbn [negb].
  - rewrite rd_slice_in_range by (pose proof (len_nonneg (acc ++ data)); lia).
    change (Z.to_nat 0) with 0%nat. rewrite drop_0, len_to_nat, Htk.
    cbn [mbind res_bind]. eexists _, buffer'. done.
  - eexists _, buffer'. split; [done|]. split; [done|]. by constructor.
Qed.

(* ------------------------------------------------------------------ *)
(** ** NAL units end to end *)

(** A packet whose arrival time is within half the clock of its timestamp. *)
Definition punctual (p : list Z * Z) : Prop :=
  exists h n, rtsp_rtp_parse_header p.1 = Ok (h, n) /\ calm (transit_of h p.2).

Lemma punctual_packet st marker pz arrival :
  stream_ok st -> punctual (packet_bytes st marker pz, arrival) ->
  calm (s32 (u32 (arrival - st_timestamp st))).
Proof.
  intros Hst (h & n & E & Hc). cbn [fst snd] in *. unfold packet_bytes in E.
  rewrite parse_header_spec in E by (by apply packet_header_wf). injection E as <- <-. done.
Qed.

(** The stream once [k] packets are out. *)
Definition stream_after (st : turbo_rtsp_rtp_stream_t) (k : nat) : turbo_rtsp_rtp_stream_t :=
  Nat.iter k stream_next st.

Lemma stream_next_ok st : stream_ok st -> stream_ok (stream_next st).
Proof.
  intros []. constructor; cbn; try done. apply u16_range.
Qed.

Lemma stream_after_S st k : stream_after st (S k) = stream_after (stream_next st) k.
Proof. unfold stream_after. by rewrite Nat.iter_succ_r. Qed.

(** The fragments after the first one, by the data they carry. *)
Fixpoint tail_fragments (b : Z) (ds : list (list Z)) : list packetized :=
  match ds with
  | [] => []
  | d :: ds => fragment b false (bool_decide (ds = [])) d :: tail_fragments b ds
  end.

Lemma fragments_chunks fuel b n d :
  (1 <= length d <= fuel)%nat -> (1 <= n)%nat ->
  exists ds, ds <> [] /\ concat ds = d /\ fragments fuel b n false d = tail_fragments b ds /\
    Forall (fun x => length x <= n)%nat ds.
Proof.
  intros Hd Hn. revert d Hd. induction fuel as [|fuel IH]; intros d Hd; [lia|].
  cbn [fragments]. destruct (length d <=? n)%nat eqn:E.
  - exists [d]. split; [done|]. split; [cbn; apply app_nil_r|]. split.
    + cbn. by rewrite take_ge by lia.
    + constructor; [lia|constructor].
  - destruct (IH (drop n d)) as (ds & Hne & Hc & Hf & Hl); [rewrite length_drop; lia|].
    exists (take n d :: ds). split; [done|]. split; [cbn; by rewrite Hc, take_drop|].
    split; [cbn; by rewrite bool_decide_eq_false_2, Hf|].
    constructor; [rewrite length_take; lia|done].
Qed.

Lemma tail_fragments_app b ds ds' :
  ds' <> [] ->
  tail_fragments b (ds ++ ds') = (fragment b false false <$> ds) ++ tail_fragments b ds'.
Proof.
  intros Hne. induction ds as [|d ds IH]; [done|]. cbn [app tail_fragments fmap list_fmap].
  rewrite IH. f_equal. rewrite bool_decide_eq_false_2; [done|]. by destruct ds.
Qed.

Lemma receive_all_app s l1 l2 buffer :
  receive_all s (l1 ++ l2) buffer =
  ('(rs1, s, buffer) ← receive_all s l1 buffer;
   '(rs2, s, buffer) ← receive_all s l2 buffer; Ok (rs1 ++ rs2, s, buffer)).
Proof.
  revert s buffer. induction l1 as [|[p a] l1 IH]; intros s buffer.
  - cbn [app receive_all mbind res_bind]. by destruct (receive_all s l2 buffer) as [[[? ?] ?]| |].
  - cbn [app receive_all]. destruct (receive_stream_push s p a buffer) as [[u o]| |]; try done.
    cbn [mbind res_bind]. rewrite IH.
    destruct (receive_all (rv_stream o) l1 (rv_buffer o)) as [[[r1 s1] b1]| |]; try done.
    cbn [mbind res_bind]. by destruct (receive_all s1 l2 b1) as [[[r2 s2] b2]| |].
Qed.

Lemma stream_packets_app st marker l1 l2 :
  stream_packets st marker (l1 ++ l2) =
  stream_packets st marker l1 ++ stream_packets (stream_after st (length l1)) marker l2.
Proof.
  revert st. induction l1 as [|pz l1 IH]; intros st; [done|].
  cbn [app stream_packets length]. by rewrite IH, stream_after_S.
Qed.

Lemma length_stream_packets st marker l : length (stream_packets st marker l) = length l.
Proof. revert st. induction l as [|pz l IH]; intros st; [done|]. cbn. by rewrite IH. Qed.

(** Packets of the stream and their arrival times. *)
Definition arriving (st : turbo_rtsp_rtp_stream_t) (marker : bool) (pzs : list packetized)
    (ps : list (list Z * Z)) : Prop :=
  ps.*1 = stream_packets st marker pzs /\ Forall punctual ps.

Lemma arriving_cons st marker pz pzs ps :
  stream_ok st -> arriving st marker (pz :: pzs) ps ->
  exists a ps', ps = (packet_bytes st marker pz, a) :: ps' /\
    calm (s32 (u32 (a - st_timestamp st))) /\ arriving (stream_next st) marker pzs ps'.
Proof.
  intros Hst [He Hp]. destruct ps as [|[p a] ps]; [done|].
  cbn [fmap list_fmap stream_packets fst] in He. injection He as -> He.
  apply Forall_cons in Hp as [Hp Hps]. exists a, ps.
  split; [done|]. split; [by eapply punctual_packet|done].
Qed.

Lemma arriving_app st marker l1 l2 ps :
  arriving st marker (l1 ++ l2) ps ->
  exists ps1 ps2, ps = ps1 ++ ps2 /\ arriving st marker l1 ps1 /\
    arriving (stream_after st (length l1)) marker l2 ps2.
Proof.
  unfold arriving. rewrite stream_packets_app. intros [He Hp].
  apply fmap_app_inv in He as (ps1 & ps2 & -> & -> & ->).
  apply Forall_app in Hp as [? ?]. by exists ps1, ps2.
Qed.

Lemma arriving_nil st marker ps : arriving st marker [] ps -> ps = [].
Proof. intros [He _]. by destruct ps. Qed.

(** A fragment in order, not the last. *)
Lemma receive_middle b ds s st marker acc buffer ps :
  nal_header_ok b = true -> listening s st -> stream_ok st ->
  midway (rs_reassembler s) st b acc buffer -> len acc + len (concat ds) <= len buffer ->
  arriving st marker (fragment b false false <$> ds) ps ->
  exists s' buffer',
    receive_all s ps buffer =
    Ok (replicate (length ds) (TURBO_RTSP_FRAME_PARTIAL, None), s', buffer') /\
    listening s' (stream_after st (length ds)) /\ stream_ok (stream_after st (length ds)) /\
    midway (rs_reassembler s') (stream_after st (length ds)) b (acc ++ concat ds) buffer' /\
    len buffer' = len buffer.
Proof.
  intros Hb. revert s st acc buffer ps.
  induction ds as [|d ds IH]; intros s st acc buffer ps Hl Hst Hm Hlen Ha.
  { apply arriving_nil in Ha as ->. exists s, buffer. cbn. rewrite app_nil_r. done. }
  cbn [fmap list_fmap concat length] in *. rewrite len_app in Hlen.
  pose proof (len_nonneg (concat ds)).
  destruct (arriving_cons _ _ _ _ _ Hst Ha) as (a & ps' & -> & Hc & Ha').
  destruct (push_next (rs_reassembler s) st marker b false acc d buffer Hb Hm)
    as (r' & buffer' & Epush & Hlb & Hr'); [lia|].
  destruct (push_in_order s st marker (fragment b false false d) a buffer _ _ _ _
    Hl Hst Hc Epush) as (s' & Es & Hl' & Hrs); [done|].
  cbn [receive_all]. rewrite Es. cbn [mbind res_bind rv_stream rv_buffer rv_result rv_nal].
  destruct (IH s' (stream_next st) (acc ++ d) buffer' ps') as (s2 & b2 & E & Hl2 & Hst2 & Hm2 & Hlb2);
    try done.
  { by apply stream_next_ok. }
  { by rewrite Hrs. }
  { rewrite len_app, Hlb. lia. }
  rewrite E. cbn [mbind res_bind]. exists s2, b2. rewrite stream_after_S.
  rewrite app_assoc. by rewrite Hlb2.
Qed.

(** The last fragments of a NAL unit in order. *)
Lemma receive_tail b ds s st marker acc buffer ps :
  nal_header_ok b = true -> ds <> [] -> listening s st -> stream_ok st ->
  midway (rs_reassembler s) st b acc buffer -> len acc + len (concat ds) <= len buffer ->
  arriving st marker (tail_fragments b ds) ps ->
  exists s' buffer',
    receive_all s ps buffer =
    Ok (replicate (length ds - 1) (TURBO_RTSP_FRAME_PARTIAL, None) ++
        [(TURBO_RTSP_FRAME_OK, Some (acc ++ concat ds))], s', buffer') /\
    listening s' (stream_after st (length ds)) /\ ra_started (rs_reassembler s') = false /\
    len buffer' = len buffer.
Proof.
  intros Hb Hne Hl Hst Hm Hlen Ha.
  destruct (exists_last Hne) as (ds' & d & ->).
  rewrite concat_app, len_app in Hlen. pose proof (len_nonneg (concat [d])).
  rewrite tail_fragments_app in Ha by done.
  apply arriving_app in Ha as (ps1 & ps2 & -> & Ha1 & Ha2).
  rewrite receive_all_app. rewrite length_fmap in Ha2.
  destruct (receive_middle b ds' s st marker acc buffer ps1) as (s1 & b1 & -> & Hl1 & Hst1 & Hm1 & Hlb1);
    try done; [lia|]. cbn [mbind res_bind].
  cbn [tail_fragments] in Ha2. rewrite bool_decide_eq_true_2 in Ha2 by done.
  destruct (arriving_cons _ _ _ _ _ Hst1 Ha2) as (a & ps' & -> & Hc & Ha3).
  apply arriving_nil in Ha3 as ->.
  cbn [concat] in *. rewrite app_nil_r in *.
  destruct (push_next (rs_reassembler s1) _ marker b true _ d b1 Hb Hm1)
    as (r' & b2 & Epush & Hlb & Hr'); [rewrite len_app; lia|].
  destruct (push_in_order s1 _ marker (fragment b false true d) a b1 _ _ _ _
    Hl1 Hst1 Hc Epush) as (s2 & Es & Hl2 & Hrs); [done|].
  cbn [receive_all]. rewrite Es. cbn [mbind res_bind rv_stream rv_buffer rv_result rv_nal].
  exists s2, b2. rewrite length_app, concat_app, Nat.add_sub, app_assoc. cbn [concat length].
  rewrite app_nil_r. split; [done|]. rewrite Nat.add_1_r.
  split; [done|]. split; [by rewrite Hrs|]. lia.
Qed.

Lemma listening_ext s st st' :
  st_sequence_number st' = st_sequence_number st -> st_ssrc st' = st_ssrc st ->
  listening s st -> listening s st'.
Proof. intros H1 H2 []. constructor; [by rewrite H1, H2|done..]. Qed.

Lemma stream_after_seq st k :
  is_u16 (st_sequence_number st) ->
  st_sequence_number (stream_after st k) = u16 (st_sequence_number st + Z.of_nat k) /\
  st_ssrc (stream_after st k) = st_ssrc st.
Proof.
  intros Hu. induction k as [|k [IH1 IH2]].
  - rewrite Z.add_0_r, u16_id by done. done.
  - change (stream_after st (S k)) with (stream_next (stream_after st k)).
    cbn [stream_next stream_sent st_sequence_number st_ssrc]. rewrite IH1, IH2.
    split; [|done]. unfold u16. zmod_lia.
Qed.

(** The payloads of a NAL unit that is cut: the first and the others. *)
Lemma nal_payloads_cut b d max_payload :
  3 <= max_payload -> max_payload < len (b :: d) ->
  exists d0 ds, ds <> [] /\ d = d0 ++ concat ds /\
    nal_payloads (b :: d) max_payload = fragment b true false d0 :: tail_fragments b ds /\
    Forall (fun x => len x + 2 <= max_payload) (d0 :: ds).
Proof.
  intros H3 Hm. unfold nal_payloads. replace (len (b :: d) <=? max_payload) with false by lia.
  set (n := Z.to_nat (max_payload - 2)).
  assert (Hd : (n < length d)%nat) by (rewrite len_cons in Hm; unfold n, len in *; lia).
  destruct d as [|x d]; [simpl in Hd; lia|]. set (dd := x :: d) in *.
  change (length dd) with (S (length d)) at 1. cbn [fragments].
  replace ((length dd <=? n)%nat) with false by lia.
  destruct (fragments_chunks (length d) b n (drop n dd)) as (ds & Hne & Hc & -> & Hl);
    [rewrite length_drop; unfold dd, n in *; simpl in *; lia|unfold n; lia|].
  exists (take n dd), ds. split; [done|]. split; [by rewrite Hc, take_drop|]. split; [done|].
  constructor; [rewrite len_take; unfold n; lia|].
  eapply Forall_impl; [exact Hl|]. cbn. unfold len, n. lia.
Qed.

(** The packets of one NAL unit give that NAL unit with the last of them. *)
Lemma receive_nal nal max_payload s st marker buffer ps :
  sendable nal max_payload -> listening s st -> stream_ok st ->
  ra_started (rs_reassembler s) = false -> len nal <= len buffer ->
  arriving st marker (nal_payloads nal max_payload) ps ->
  exists s' buffer' k, length (nal_payloads nal max_payload) = S k /\
    receive_all s ps buffer =
    Ok (replicate k (TURBO_RTSP_FRAME_PARTIAL, None) ++ [(TURBO_RTSP_FRAME_OK, Some nal)],
        s', buffer') /\
    listening s' (stream_after st (S k)) /\ ra_started (rs_reassembler s') = false /\
    len buffer' = len buffer.
Proof.
  intros Hs Hl Hst Hr Hb Ha. destruct nal as [|b d]; [done|]. destruct Hs as (Hok & Hm & H3).
  destruct (decide (len (b :: d) <= max_payload)) as [E|E].
  - unfold nal_payloads in *. replace (len (b :: d) <=? max_payload) with true in * by lia.
    destruct (arriving_cons _ _ _ _ _ Hst Ha) as (a & ps' & -> & Hc & Ha').
    apply arriving_nil in Ha' as ->.
    destruct (parse_single b d Hok) as (h & Eh & Hk & Hn).
    set (pz := mk_packetized (b :: d) true true) in *.
    destruct (push_in_order s st marker pz a buffer TURBO_RTSP_FRAME_OK (PacketNal (b :: d))
      (rs_reassembler s) buffer Hl Hst Hc) as (s' & Es & Hl' & Hrs).
    + unfold h264_reassembler_push. change (header_payload _) with (b :: d).
      by rewrite Eh, Hk, Hr, Hn.
    + done.
    + cbn [receive_all]. rewrite Es. cbn [mbind res_bind rv_stream rv_buffer rv_result rv_nal].
      exists s', buffer, 0%nat. split; [done|]. split; [done|]. split; [done|].
      split; [by rewrite Hrs|done].
  - destruct (nal_payloads_cut b d max_payload) as (d0 & ds & Hne & -> & Epz & _); [lia..|].
    rewrite Epz in *. rewrite len_cons, len_app in Hb. pose proof (len_nonneg (concat ds)).
    destruct (arriving_cons _ _ _ _ _ Hst Ha) as (a & ps' & -> & Hc & Ha').
    destruct (push_first (rs_reassembler s) st marker b d0 buffer Hok Hr)
      as (r' & buffer' & Epush & Hmid & Hlb); [lia|].
    destruct (push_in_order s st marker (fragment b true false d0) a buffer _ _ _ _
      Hl Hst Hc Epush) as (s' & Es & Hl' & Hrs); [done|].
    destruct (receive_tail b ds s' (stream_next st) marker (b :: d0) buffer' ps')
      as (s2 & b2 & E2 & Hl2 & Hr2 & Hlb2); try done.
    { by apply stream_next_ok. }
    { by rewrite Hrs. }
    { rewrite len_cons, Hlb. lia. }
    cbn [receive_all]. rewrite Es. cbn [mbind res_bind rv_stream rv_buffer rv_result rv_nal].
    rewrite E2. cbn [mbind res_bind].
    assert (Hlen : length (tail_fragments b ds) = length ds)
      by (clear; induction ds as [|x ds IH]; [done|]; cbn; by rewrite IH).
    destruct ds as [|d1 ds]; [done|]. exists s2, b2, (S (length ds)).
    rewrite stream_after_S. cbn [length] in *. rewrite Hlen, Nat.sub_0_r || rewrite Hlen.
    split; [done|]. split; [|by rewrite Hlb2].
    replace (S (length ds) - 1)%nat with (length ds) by lia. done.
Qed.

(* ------------------------------------------------------------------ *)
(** ** Memory safety of the receiver *)

Lemma payload_parse_cases payload :
  h264_payload_parse payload = Err \/
  exists h, h264_payload_parse payload = Ok h /\
    (hp_kind h = H264_SINGLE_NAL -> hp_nal h = payload).
Proof.
  unfold h264_payload_parse. pose proof (len_nonneg payload).
  destruct (len payload =? 0) eqn:E; [by left|].
  destruct (rd_in_range payload 0) as [b0 ->]; [lia|]. cbn [mbind res_bind].
  destruct (negb (u8 (Z.shiftr b0 7) =? 0)); [by left|].
  destruct (is_single_nal_type (h264_nal_type b0)); [right; by eexists|].
  destruct (h264_nal_type b0 =? TURBO_RTSP_H264_NAL_TYPE_STAP_A).
  { destruct (len payload <? 2); [by left|right; by eexists]. }
  destruct (h264_nal_type b0 =? TURBO_RTSP_H264_NAL_TYPE_FU_A); [|by left].
  destruct (len payload <? 2) eqn:E2; [by left|].
  destruct (rd_in_range payload 1) as [b1 ->]; [lia|]. cbn [mbind res_bind].
  rewrite rd_slice_in_range by lia. cbn [mbind res_bind].
  destruct (_ || _); [by left|right; by eexists].
Qed.

Lemma append_cases n buffer data :
  0 <= n ->
  reassembler_append n buffer data = Err \/
  exists buffer', reassembler_append n buffer data = Ok (n + len data, buffer') /\
    len buffer' = len buffer /\ n + len data <= len buffer.
Proof.
  intros Hn. unfold reassembler_append. pose proof (len_nonneg data).
  destruct ((len buffer <? n) || (len buffer - n <? len data)) eqn:E; [by left|]. right.
  destruct (0 <? len data).
  - destruct (wr buffer n data) as [b'| |] eqn:Ew.
    + apply wr_len in Ew. exists b'. split; [done|]. lia.
    + unfold wr in Ew. by case_decide.
    + exfalso. revert Ew. apply wr_no_fault; lia.
  - exists buffer. split; [done|]. lia.
Qed.

(** A push never leaves the buffer: the reassembler's length stays one the buffer had,
    a NAL unit from the packet is the packet's payload, and an error resets. *)
Lemma push_cases r header buffer :
  0 <= ra_nal_len r ->
  exists result nal r' buffer',
    h264_reassembler_push r header buffer = Ok (result, nal, r', buffer') /\
    0 <= ra_nal_len r' /\ len buffer' = len buffer /\
    (nal <> NoNal -> result = TURBO_RTSP_FRAME_OK) /\
    (forall bs, nal = PacketNal bs -> bs = header_payload header) /\
    (forall bs, nal <> OutputNal bs).
Proof.
  intros Hr. unfold h264_reassembler_push, push_error, push_start, push_continue.
  destruct (payload_parse_cases (header_payload header)) as [->|(h & -> & Hs)].
  { eexists _, _, _, _. split; [done|]. done. }
  destruct (hp_kind h) eqn:Ek.
  - destruct (ra_started r); eexists _, _, _, _; (split; [done|]); [done|].
    split; [done|]. split; [done|]. split; [done|]. split; [|done].
    intros bs [= <-]. by apply Hs.
  - destruct (ra_started r); eexists _, _, _, _; (split; [done|]); done.
  - destruct (hp_fu_start h).
    + destruct (ra_started r || (len buffer <? 1)) eqn:E.
      { eexists _, _, _, _. split; [done|]. done. }
      destruct (wr buffer 0 [hp_reconstructed h]) as [b| |] eqn:Ew.
      * apply wr_len in Ew. cbn [mbind res_bind].
        destruct (append_cases 1 b (hp_fu_payload h)) as [->|(b' & -> & Hl & _)]; [lia|..];
          eexists _, _, _, _; (split; [done|]); [by rewrite <- Ew|].
        cbn. pose proof (len_nonneg (hp_fu_payload h)). split; [lia|]. by rewrite Hl.
      * unfold wr in Ew. by case_decide.
      * exfalso. revert Ew. apply wr_no_fault; [lia|]. unfold len at 1. simpl. lia.
    + destruct (continues r header h); cbn [negb].
      2:{ eexists _, _, _, _. split; [done|]. done. }
      destruct (append_cases (ra_nal_len r) buffer (hp_fu_payload h)) as [->|(b' & -> & Hl & Hn)]; [lia|..].
      { eexists _, _, _, _. split; [done|]. done. }
      pose proof (len_nonneg (hp_fu_payload h)).
      destruct (hp_fu_end h); cbn [negb].
      * rewrite rd_slice_in_range by lia. cbn [mbind res_bind].
        eexists _, _, _, _. split; [done|]. done.
      * eexists _, _, _, _. split; [done|]. cbn. split; [lia|]. done.
Qed.

(** The occupied slots of the queue. *)
Definition queued (l : list reorder_packet) : list reorder_packet :=
  filter (fun x => ro_occupied x = true) l.

(** The queue is counted, every packet in it has its own copy of a payload that fits,
    and no sequence number is in it twice. *)
Record queue_inv (s : h264_receive_stream) : Prop := {
  qi_slots : length (rs_reorder s) = 4%nat;
  qi_count : rs_reorder_count s = len (queued (rs_reorder s));
  qi_payload : Forall (fun x => ro_occupied x = true ->
    h_payload (ro_header x) = Some (ro_payload x) /\
    len (ro_payload x) <= H264_REORDER_PAYLOAD_SIZE) (rs_reorder s);
  qi_distinct : NoDup ((fun x => h_sequence_number (ro_header x)) <$> queued (rs_reorder s));
  qi_length : 0 <= ra_nal_len (rs_reassembler s);
}.

Lemma queued_free k : queued (replicate k free_slot) = [].
Proof. induction k as [|k IH]; [done|]. cbn [replicate]. unfold queued in *. by rewrite filter_cons_False. Qed.

Lemma queued_insert l i x y :
  l !! i = Some x ->
  exists a b, queued l = a ++ queued [x] ++ b /\ queued (<[i:=y]> l) = a ++ queued [y] ++ b.
Proof.
  intros H. exists (queued (take i l)), (queued (drop (S i) l)).
  pose proof (lookup_lt_Some _ _ _ H) as Hi.
  rewrite <- (take_drop_middle l i x H) at 1.
  rewrite insert_take_drop by done. unfold queued.
  change (x :: drop (S i) l) with ([x] ++ drop (S i) l).
  change (y :: drop (S i) l) with ([y] ++ drop (S i) l).
  by rewrite !filter_app.
Qed.

Lemma queued_le l : (length (queued l) <= length l)%nat.
Proof. apply length_filter. Qed.

Lemma queue_inv_empty s :
  rs_reorder s = replicate 4 free_slot -> rs_reorder_count s = 0 ->
  0 <= ra_nal_len (rs_reassembler s) -> queue_inv s.
Proof.
  intros Hr Hc Hn. constructor; rewrite ?Hr, ?(queued_free 4); try done.
  - by repeat constructor.
  - constructor.
Qed.

Lemma queued_single x : queued [x] = if ro_occupied x then [x] else [].
Proof.
  unfold queued. destruct (ro_occupied x) eqn:E.
  - by rewrite filter_cons_True.
  - by rewrite filter_cons_False by congruence.
Qed.

Lemma find_occupied s q i :
  reorder_find s q = Some i ->
  exists x, rs_reorder s !! i = Some x /\ ro_occupied x = true /\
    h_sequence_number (ro_header x) = q.
Proof.
  unfold reorder_find. destruct (list_find _ _) as [[j x]|] eqn:E; [|done].
  cbn. intros [= <-]. apply list_find_Some in E as (? & [? ?] & _). by exists x.
Qed.

Lemma find_none s q :
  reorder_find s q = None ->
  q ∉ ((fun x => h_sequence_number (ro_header x)) <$> queued (rs_reorder s)).
Proof.
  unfold reorder_find. destruct (list_find _ _) as [[j x]|] eqn:E; [done|]. intros _.
  apply list_find_None in E. rewrite Forall_forall in E.
  intros (x & -> & Hx)%list_elem_of_fmap. apply list_elem_of_filter in Hx as [Ho Hx].
  by apply (E x Hx).
Qed.

(** What a delivery leaves alone. *)
Lemma deliver_cases s header from buffer :
  0 <= ra_nal_len (rs_reassembler s) ->
  exists o, receive_deliver s header from buffer = Ok o /\
    rs_reorder (rv_stream o) = rs_reorder s /\
    rs_reorder_count (rv_stream o) = rs_reorder_count s /\
    rs_source (rv_stream o) = rs_source s /\
    0 <= ra_nal_len (rs_reassembler (rv_stream o)) /\
    len (rv_buffer o) = len buffer /\
    (forall bs, rv_nal o = PacketNal bs -> bs = header_payload header /\
       (from = true -> H264_REORDER_PAYLOAD_SIZE < len bs)) /\
    (rv_result o = TURBO_RTSP_FRAME_PARTIAL -> rv_nal o = NoNal).
Proof.
  intros Hn. unfold receive_deliver.
  destruct (push_cases (rs_reassembler s) header buffer Hn)
    as (result & nal & r & b' & -> & Hr & Hb & Hok & Hp & Ho).
  cbn [mbind res_bind]. eexists. split; [done|]. cbn.
  do 5 (split; [done|]). split.
  - intros bs. destruct nal as [| bs'| |]; try done.
    pose proof (Hp bs' eq_refl) as ->.
    assert (result = TURBO_RTSP_FRAME_OK) as -> by (by apply Hok).
    rewrite bool_decide_eq_true_2 by done. cbn [andb].
    destruct (from && _) eqn:E; [done|]. intros [= <-]. split; [done|].
    intros ->. cbn [andb] in E. lia.
  - intros ->. destruct nal; try done; by (exfalso; assert (TURBO_RTSP_FRAME_PARTIAL = TURBO_RTSP_FRAME_OK) by (by apply Hok)).
Qed.

(** A queued packet leaves the queue, and its NAL unit does not point into the slot. *)
Lemma deliver_queued_cases s q i buffer :
  queue_inv s -> reorder_find s q = Some i ->
  exists o, deliver_queued s i buffer = Ok o /\ queue_inv (rv_stream o) /\
    length (queued (rs_reorder s)) = S (length (queued (rs_reorder (rv_stream o)))) /\
    rs_source (rv_stream o) = rs_source s /\ len (rv_buffer o) = len buffer /\
    (forall bs, rv_nal o <> PacketNal bs) /\
    (rv_result o = TURBO_RTSP_FRAME_PARTIAL -> rv_nal o = NoNal).
Proof.
  intros [] Hf. destruct (find_occupied s q i Hf) as (x & Hx & Ho & _).
  unfold deliver_queued. rewrite Hx.
  destruct (deliver_cases s (with_payload (ro_header x) (ro_payload x)) true buffer qi_length0)
    as (o & -> & Hr & Hc & Hs & Hn & Hb & Hp & Hpart). cbn [mbind res_bind].
  unfold reorder_remove. rewrite Hr, Hx, Ho.
  destruct (queued_insert (rs_reorder s) i x free_slot Hx) as (a & b & E1 & E2).
  rewrite queued_single, Ho in E1. rewrite queued_single in E2. cbn [free_slot ro_occupied app] in *.
  eexists. split; [done|]. cbn [rv_stream rv_nal rv_buffer rv_result set_reorder rs_reorder rs_source].
  assert (Hle : len (queued (rs_reorder s)) <= 4).
  { pose proof (queued_le (rs_reorder s)). unfold len. lia. }
  split.
  { constructor; cbn [set_reorder rs_reorder rs_reorder_count rs_reassembler].
    - by rewrite length_insert.
    - rewrite Hc, qi_count0, E1, E2, !len_app in *. rewrite len_cons in *.
      pose proof (len_nonneg a). pose proof (len_nonneg b). rewrite u8_id by (unfold is_u8; lia). lia.
    - apply Forall_insert; [done|]. by cbn.
    - rewrite E2. rewrite E1 in qi_distinct0. rewrite !fmap_app, fmap_cons in *.
      apply NoDup_app in qi_distinct0 as (? & Hd & Hb').
      apply NoDup_cons in Hb' as [_ Hb']. apply NoDup_app. split; [done|]. split; [|done].
      intros y Hy Hy'. apply (Hd y Hy). by right.
    - done. }
  split; [rewrite E1, E2, !length_app; cbn; lia|]. split; [done|]. split; [done|].
  split; [|done]. intros bs Hbs. destruct (Hp bs Hbs) as [Heq Hlen].
  rewrite Forall_forall in qi_payload0.
  destruct (qi_payload0 x) as [_ Hle']; [by eapply list_elem_of_lookup_2|done|].
  specialize (Hlen eq_refl). subst bs. cbn in Hlen. unfold header_payload in Hlen. cbn in Hlen. lia.
Qed.

(** What every operation of the stream guarantees: the queue is sound, the buffer keeps
    its size, and after an error nothing is queued and no reassembly is under way. *)
Record sound (s : h264_receive_stream) (buffer : list Z) (o : received) : Prop := {
  sd_queue : queue_inv (rv_stream o);
  sd_buffer : len (rv_buffer o) = len buffer;
  sd_source : rs_source (rv_stream o) = rs_source s;
}.

Lemma drain_loop_cases fuel o :
  queue_inv (rv_stream o) -> (length (queued (rs_reorder (rv_stream o))) <= fuel)%nat ->
  (rv_result o = TURBO_RTSP_FRAME_PARTIAL -> rv_nal o = NoNal) ->
  exists o', drain_loop fuel o = Ok o' /\ sound (rv_stream o) (rv_buffer o) o' /\
    forall bs, rv_nal o' = PacketNal bs -> rv_nal o = PacketNal bs.
Proof.
  revert o. induction fuel as [|fuel IH]; intros o Hq Hf Hp; cbn [drain_loop].
  - destruct (decide (rv_result o = TURBO_RTSP_FRAME_PARTIAL)) as [Hr|Hr].
    + destruct (reorder_find (rv_stream o) (rs_next (rv_stream o))) as [i|] eqn:Ei; [|by exists o].
      exfalso. destruct (deliver_queued_cases _ _ i [] Hq Ei) as (? & _ & _ & Hl & _). lia.
    + by exists o.
  - destruct (decide (rv_result o = TURBO_RTSP_FRAME_PARTIAL)) as [Hr|Hr].
    + destruct (reorder_find (rv_stream o) (rs_next (rv_stream o))) as [i|] eqn:Ei; [|by exists o].
      destruct (deliver_queued_cases _ _ i (rv_buffer o) Hq Ei)
        as (o1 & -> & Hq1 & Hl & Hs & Hb & Hnp & Hp1). cbn [mbind res_bind].
      destruct (IH o1 Hq1) as (o' & -> & [] & Hn); [lia|done|].
      exists o'. split; [done|]. split; [|intros bs Hbs; by destruct (Hnp bs (Hn bs Hbs))].
      constructor; [done|by rewrite sd_buffer0|by rewrite sd_source0].
    + by exists o.
Qed.

Lemma reset_on_error_cases s buffer o :
  sound s buffer o -> sound s buffer (reset_on_error o) /\ rv_nal (reset_on_error o) = rv_nal o /\
  rv_result (reset_on_error o) = rv_result o /\
  (rv_result o = TURBO_RTSP_FRAME_ERROR ->
   queued (rs_reorder (rv_stream (reset_on_error o))) = [] /\
   rs_has_next (rv_stream (reset_on_error o)) = false).
Proof.
  intros []. unfold reset_on_error. case_decide as Hd; [|done]. cbn [rv_nal rv_result rv_stream].
  split; [|done]. constructor; [|done|done]. apply queue_inv_empty; [done|done|].
  apply (qi_length _ sd_queue0).
Qed.

(** A packet that is taken in. *)
Lemma accept_cases s header buffer :
  queue_inv s -> h_payload header = Some (header_payload header) ->
  h_payload_len header = len (header_payload header) ->
  exists o, receive_accept s header buffer = Ok o /\ sound s buffer o /\
    (forall bs, rv_nal o = PacketNal bs -> bs = header_payload header) /\
    (rv_result o = TURBO_RTSP_FRAME_ERROR ->
     queued (rs_reorder (rv_stream o)) = [] /\ rs_has_next (rv_stream o) = false).
Proof.
  intros Hq Hpay Hplen. unfold receive_accept.
  set (s1 := if rs_has_next s then s else set_next s (h_sequence_number header)).
  assert (Hq1 : queue_inv s1 /\ rs_source s1 = rs_source s).
  { unfold s1. destruct (rs_has_next s); [done|]. split; [|done]. by destruct Hq; constructor. }
  destruct Hq1 as [Hq1 Hs1]. clearbody s1.
  destruct (seq_forward_delta (rs_next s1) (h_sequence_number header) =? 0).
  - unfold receive_drain.
    destruct (deliver_cases s1 header false buffer (qi_length _ Hq1))
      as (o & -> & Hr & Hc & Hs & Hn & Hb & Hp & Hpart). cbn [mbind res_bind].
    assert (Hqo : queue_inv (rv_stream o)) by (destruct Hq1; constructor; rewrite ?Hr, ?Hc; done).
    destruct (drain_loop_cases 4 o Hqo) as (o' & -> & Hsd & Hpn); [|done|].
    { pose proof (queued_le (rs_reorder (rv_stream o))). rewrite (qi_slots _ Hqo) in H. done. }
    cbn [mbind res_bind].
    assert (Hsd' : sound s buffer o') by (destruct Hsd; constructor; [done|lia|congruence]).
    destruct (reset_on_error_cases s buffer o' Hsd') as (Hsound & Hnal & Hres & Herr).
    eexists. split; [done|]. split; [done|]. rewrite Hnal, Hres. split; [|done].
    intros bs Hbs. by destruct (Hp bs (Hpn bs Hbs)).
  - destruct ((seq_forward_delta _ _ <=? H264_REORDER_WINDOW) &&
              bool_decide (reorder_find s1 (h_sequence_number header) = None)) eqn:E.
    + apply andb_true_iff in E as [_ E%bool_decide_eq_true_1].
      destruct (reorder_store s1 header) as [s2|] eqn:Est.
      * eexists. split; [done|]. split; [|done].
        unfold reorder_store in Est. destruct (_ || _) eqn:Eg; [done|].
        destruct (list_find _ _) as [[i x]|] eqn:Ei; [|done]. cbn in Est.
        apply list_find_Some in Ei as (Hx & Hfree & _). injection Est as <-.
        destruct Hq1. constructor; [|done|done]. cbn [rv_stream].
        destruct (queued_insert (rs_reorder s1) i x
          (mk_slot (with_payload header (header_payload header)) (header_payload header) true) Hx)
          as (a & b & E1 & E2). rewrite queued_single, Hfree in E1.
        rewrite queued_single in E2. cbn [ro_occupied app] in *.
        constructor; cbn [set_reorder rs_reorder rs_reorder_count rs_reassembler].
        -- by rewrite length_insert.
        -- rewrite E2, qi_count0, E1, !len_app, len_cons. lia.
        -- apply Forall_insert; [done|]. cbn. intros _. split; [done|]. lia.
        -- apply find_none in E. rewrite E1 in qi_distinct0, E. rewrite E2.
           rewrite !fmap_app, fmap_cons in *. cbn [ro_header with_payload h_sequence_number].
           apply NoDup_app in qi_distinct0 as (? & Hd & ?). rewrite elem_of_app in E.
           apply NoDup_app. split; [done|]. split; [|apply NoDup_cons; tauto].
           intros y Hy [->|Hy']%elem_of_cons; [tauto|by apply (Hd y Hy)].
        -- done.
      * eexists. split; [done|]. split; [|done].
        constructor; [by apply queue_inv_empty|done|done].
    + eexists. split; [done|]. split; [|done].
      constructor; [by apply queue_inv_empty|done|done].
Qed.

(** The arrival times keep the jitter of the source clear of the overflow. *)
Definition steady (p : list Z * Z) : Prop :=
  bytes p.1 /\
  forall h n, rtsp_rtp_parse_header p.1 = Ok (h, n) -> calm (transit_of h p.2).

(** The source never faults, and stays calm. *)
Lemma source_update_cases s header arrival :
  calm (transit_of header arrival) -> calm (src_transit s) ->
  exists u s', rtsp_rtp_source_update_ex s header arrival = Ok (u, s') /\ calm (src_transit s').
Proof.
  intros Hc Hs. unfold rtsp_rtp_source_update_ex. fold (transit_of header arrival).
  destruct (negb (h_version header =? 2)); [by eexists _, _|].
  destruct (negb (src_initialized s)).
  { destruct (src_has_ssrc s && _); by eexists _, _. }
  destruct (negb (src_ssrc s =? h_ssrc header)); [by eexists _, _|].
  destruct (source_place s (h_sequence_number header)) as [r s'] eqn:E.
  case_decide; [by eexists _, _|]. apply place_keeps in E as [_ Et].
  destruct (update_jitter_Ok s' header arrival Hc) as (j & ->); [by rewrite Et|].
  cbn [mbind res_bind]. by eexists _, _.
Qed.

(** A push, whatever the bytes of the packet. *)
Lemma push_safe s packet arrival buffer :
  queue_inv s -> calm (src_transit (rs_source s)) -> steady (packet, arrival) ->
  exists u o, receive_stream_push s packet arrival buffer = Ok (u, o) /\
    queue_inv (rv_stream o) /\ len (rv_buffer o) = len buffer /\
    calm (src_transit (rs_source (rv_stream o))) /\
    (forall bs, rv_nal o = PacketNal bs ->
       exists h n, rtsp_rtp_parse_header packet = Ok (h, n) /\ h_payload h = Some bs) /\
    (rv_result o = TURBO_RTSP_FRAME_ERROR ->
     queued (rs_reorder (rv_stream o)) = [] /\ rs_has_next (rv_stream o) = false).
Proof.
  intros Hq Hc [Hb Hst]. cbn [fst snd] in *. unfold receive_stream_push.
  assert (Herr : forall s', queue_inv s' -> queue_inv (receive_reset_all s'))
    by (intros; by apply queue_inv_empty).
  destruct (parse_header_cases packet Hb) as [->|(h & n & payload & E & Hp & Hl & _ & _)].
  { eexists _, _. split; [done|]. cbn. split; [by apply Herr|]. done. }
  specialize (Hst h n E). rewrite E.
  destruct (source_update_cases (rs_source s) h arrival Hst Hc) as (u & x & -> & Hx).
  cbn [mbind res_bind]. set (s1 := set_source s x).
  assert (Hq1 : queue_inv s1) by (destruct Hq; by constructor).
  assert (Hpay : header_payload h = payload) by (unfold header_payload; by rewrite Hp).
  assert (Hacc : exists o, receive_accept s1 h buffer = Ok o /\ queue_inv (rv_stream o) /\
    len (rv_buffer o) = len buffer /\ calm (src_transit (rs_source (rv_stream o))) /\
    (forall bs, rv_nal o = PacketNal bs ->
       exists h n, Ok (h, n) = Ok (h, n) /\ rtsp_rtp_parse_header packet = Ok (h, n) /\ h_payload h = Some bs) /\
    (rv_result o = TURBO_RTSP_FRAME_ERROR ->
     queued (rs_reorder (rv_stream o)) = [] /\ rs_has_next (rv_stream o) = false)).
  { destruct (accept_cases s1 h buffer Hq1) as (o & Eo & [] & Hpn & He);
      [by rewrite Hpay|by rewrite Hpay|].
    exists o. split; [done|]. split; [done|]. split; [done|]. split; [by rewrite sd_source0|].
    split; [|done]. intros bs Hbs. rewrite (Hpn bs Hbs), Hpay. by exists h, n. }
  destruct Hacc as (o & Eo & H1 & H2 & H3 & H4 & H5).
  assert (H4' : forall bs, rv_nal o = PacketNal bs ->
    exists h' n', Ok (h, n) = Ok (h', n') /\ h_payload h' = Some bs).
  { intros bs Hbs. destruct (H4 bs Hbs) as (h' & n' & _ & E' & ?). rewrite E in E'.
    injection E' as <- <-. by exists h, n. }
  destruct u; try (eexists _, _; split; [done|]; cbn; split; [by apply Herr|]; done).
  - rewrite Eo. cbn [mbind res_bind]. by exists UPDATE_OK, o.
  - eexists _, _. split; [done|]. done.
  - destruct (rs_has_next s1 && _).
    + rewrite Eo. cbn [mbind res_bind]. by exists UPDATE_LATE_OR_OUT_OF_ORDER, o.
    + eexists _, _. split; [done|]. done.
Qed.

(* ------------------------------------------------------------------ *)
(** ** A packet that arrives late *)

(** The header of a packet as it is read. *)
Definition read_header (st : turbo_rtsp_rtp_stream_t) (marker : bool) (pz : packetized) :
    turbo_rtsp_rtp_header_t :=
  read_back (packet_header st marker pz) (pz_payload pz).

Fixpoint stream_headers (st : turbo_rtsp_rtp_stream_t) (marker : bool)
    (pzs : list packetized) : list turbo_rtsp_rtp_header_t :=
  match pzs with
  | [] => []
  | pz :: rest => read_header st marker pz :: stream_headers (stream_next st) marker rest
  end.

Lemma stream_headers_snoc st marker pzs pz :
  stream_headers st marker (pzs ++ [pz]) =
  stream_headers st marker pzs ++ [read_header (stream_after st (length pzs)) marker pz].
Proof.
  revert st. induction pzs as [|x pzs IH]; intros st; [done|].
  cbn [app stream_headers length]. by rewrite IH, stream_after_S.
Qed.

Lemma length_stream_headers st marker pzs : length (stream_headers st marker pzs) = length pzs.
Proof. revert st. induction pzs as [|x pzs IH]; intros st; [done|]. cbn. by rewrite IH. Qed.

(** The slot of a queued packet. *)
Definition slot_of (h : turbo_rtsp_rtp_header_t) : reorder_packet :=
  mk_slot (with_payload h (header_payload h)) (header_payload h) true.

Lemma with_payload_read st marker pz :
  with_payload (read_header st marker pz) (pz_payload pz) = read_header st marker pz.
Proof. done. Qed.

(** The queue holds the packets [pzs] of the stream [st], after [j] free slots. *)
Record queues (s : h264_receive_stream) (st : turbo_rtsp_rtp_stream_t) (marker : bool)
    (pzs : list packetized) (j : nat) : Prop := {
  qu_slots : rs_reorder s = replicate j free_slot ++
    (slot_of <$> stream_headers st marker pzs) ++
    replicate (4 - j - length pzs) free_slot;
  qu_room : (j + length pzs <= 4)%nat;
  qu_count : rs_reorder_count s = len pzs;
}.

(** The numbers of the packets after the first differ from it. *)
Lemma headers_ahead st marker pzs k x :
  is_u16 (st_sequence_number st) -> (k + length pzs <= 1000)%nat ->
  x ∈ (slot_of <$> stream_headers (stream_after st (S k)) marker pzs) ->
  exists i, (i < length pzs)%nat /\
    h_sequence_number (ro_header x) = u16 (st_sequence_number st + Z.of_nat (S k + i)).
Proof.
  intros Hu. revert k. induction pzs as [|pz pzs IH]; intros k Hk Hx.
  { cbn in Hx. by apply elem_of_nil in Hx. }
  cbn [stream_headers fmap list_fmap] in Hx. apply elem_of_cons in Hx as [->|Hx].
  - exists 0%nat. split; [simpl; lia|]. cbn [slot_of ro_header with_payload h_sequence_number].
    unfold read_header, read_back, packet_header, stream_header. cbn [h_sequence_number].
    destruct (stream_after_seq st (S k) Hu) as [-> _]. f_equal. lia.
  - change (stream_next (stream_after st (S k))) with (stream_after st (S (S k))) in Hx.
    destruct (IH (S k)) as (i & Hi & E); [simpl in Hk; lia|done|].
    exists (S i). split; [simpl; lia|]. rewrite E. f_equal. lia.
Qed.

Lemma list_find_replicate {P : reorder_packet -> Prop} `{forall x, Decision (P x)} j l :
  ~ P free_slot ->
  list_find P (replicate j free_slot ++ l) = prod_map (fun n => (n + j)%nat) id <$> list_find P l.
Proof.
  intros Hn. rewrite list_find_app_r.
  - by rewrite length_replicate.
  - apply list_find_None. apply Forall_forall. by intros x [-> _]%elem_of_replicate.
Qed.

(** The first queued packet is found when it is the next. *)
Lemma find_first s st marker pz pzs j :
  queues s st marker (pz :: pzs) j ->
  reorder_find s (st_sequence_number st) = Some j.
Proof.
  intros [Hs _ _]. unfold reorder_find. rewrite Hs, list_find_replicate by (by intros [? _]).
  cbn [stream_headers fmap list_fmap app list_find].
  by rewrite decide_True by done.
Qed.

Lemma find_not_queued s st marker pzs k :
  is_u16 (st_sequence_number st) -> (k + length pzs <= 1000)%nat ->
  queues s (stream_after st (S k)) marker pzs 0 ->
  forall q, (forall i, (i < length pzs)%nat -> q <> u16 (st_sequence_number st + Z.of_nat (S k + i))) ->
  reorder_find s q = None.
Proof.
  intros Hu Hk [Hs _ _] q Hq. unfold reorder_find. rewrite Hs. cbn [replicate app].
  assert (list_find (fun x => ro_occupied x = true /\ h_sequence_number (ro_header x) = q)
    ((slot_of <$> stream_headers (stream_after st (S k)) marker pzs) ++
     replicate (4 - 0 - length pzs) free_slot) = None) as ->; [|done].
  apply list_find_None, Forall_app. split; apply Forall_forall.
  - intros x Hx [_ E]. destruct (headers_ahead st marker pzs k x Hu Hk Hx) as (i & Hi & E').
    apply (Hq i Hi). congruence.
  - by intros x [-> _]%elem_of_replicate [? _].
Qed.

(** A queued packet taken from the front. *)
Lemma queues_remove s st marker pz pzs j :
  queues s st marker (pz :: pzs) j ->
  rs_reorder s !! j = Some (slot_of (read_header st marker pz)) /\
  forall s', rs_reorder s' = rs_reorder s -> rs_reorder_count s' = rs_reorder_count s ->
  exists s'', reorder_remove s' j = Some s'' /\ queues s'' (stream_next st) marker pzs (S j) /\
    rs_reassembler s'' = rs_reassembler s' /\ rs_next s'' = rs_next s' /\
    rs_has_next s'' = rs_has_next s' /\ rs_source s'' = rs_source s'.
Proof.
  intros [Hs Hr Hc]. cbn [stream_headers fmap list_fmap length app] in *.
  assert (Hj : rs_reorder s !! j = Some (slot_of (read_header st marker pz))).
  { rewrite Hs, lookup_app_r by (by rewrite length_replicate).
    by rewrite length_replicate, Nat.sub_diag. }
  split; [done|]. intros s' Hs' Hc'. unfold reorder_remove. rewrite Hs', Hj.
  cbn [slot_of ro_occupied]. eexists. split; [done|]. split; [|done].
  constructor; cbn [set_reorder rs_reorder rs_reorder_count].
  - rewrite Hs, insert_app_r_alt by (by rewrite length_replicate).
    rewrite length_replicate, Nat.sub_diag. cbn [list_insert].
    rewrite (replicate_S_end j), <- app_assoc. cbn [app].
    by replace (4 - S j - length pzs)%nat with (4 - j - S (length pzs))%nat by lia.
  - lia.
  - rewrite Hc', Hc, len_cons. pose proof (len_nonneg pzs).
    rewrite u8_id by (unfold is_u8, len in *; lia). lia.
Qed.

Lemma length_tail_fragments b ds : length (tail_fragments b ds) = length ds.
Proof. induction ds as [|x ds IH]; [done|]. cbn. by rewrite IH. Qed.

(** The drain of a queue that begins with the next packet and ends with the last one of
    the NAL unit. *)
Lemma drain_queued fuel b ds s st marker j acc buffer nal :
  nal_header_ok b = true -> ds <> [] -> (length ds <= fuel)%nat -> stream_ok st ->
  queues s st marker (tail_fragments b ds) j -> rs_next s = st_sequence_number st ->
  midway (rs_reassembler s) st b acc buffer -> len acc + len (concat ds) <= len buffer ->
  exists s' buffer',
    drain_loop fuel (mk_received TURBO_RTSP_FRAME_PARTIAL nal s buffer) =
    Ok (mk_received TURBO_RTSP_FRAME_OK (BufferNal (acc ++ concat ds)) s' buffer') /\
    queues s' (stream_after st (length ds)) marker [] (j + length ds) /\
    rs_next s' = st_sequence_number (stream_after st (length ds)) /\
    rs_has_next s' = true /\ rs_source s' = rs_source s /\
    ra_started (rs_reassembler s') = false /\ len buffer' = len buffer.
Proof.
  intros Hb. revert s st j acc buffer nal fuel.
  induction ds as [|d ds IH]; intros s st j acc buffer nal fuel Hne Hf Hst Hq Hn Hm Hl; [done|].
  destruct fuel as [|fuel]; [simpl in Hf; lia|]. cbn [concat] in *. rewrite len_app in Hl.
  pose proof (len_nonneg (concat ds)). cbn [tail_fragments] in Hq. cbn [drain_loop].
  rewrite decide_True by done. cbn [rv_stream rv_buffer].
  rewrite Hn, (find_first _ _ _ _ _ _ Hq).
  destruct (queues_remove _ _ _ _ _ _ Hq) as [Hj Hrem].
  set (pz := fragment b false (bool_decide (ds = [])) d) in *.
  destruct (push_next (rs_reassembler s) st marker b (bool_decide (ds = [])) acc d buffer Hb Hm)
    as (r' & b1 & Epush & Hlb & Hr'); [lia|].
  unfold deliver_queued. rewrite Hj. cbn [slot_of ro_header ro_payload].
  change (with_payload (with_payload _ _) _) with (read_header st marker pz).
  unfold receive_deliver. fold pz in Epush. fold (read_header st marker pz) in Epush.
  rewrite Epush. cbn [mbind res_bind rv_stream].
  change (h_sequence_number (read_header st marker pz)) with (st_sequence_number st).
  set (s1 := set_next (set_reassembler s r') (u16 (st_sequence_number st + 1))).
  destruct (Hrem s1 eq_refl eq_refl) as (s2 & -> & Hq2 & Hra & Hnx & Hhn & Hsrc).
  cbn [rv_result rv_nal rv_buffer].
  destruct (bool_decide (ds = [])) eqn:Ed.
  - apply bool_decide_eq_true_1 in Ed as ->. cbn [concat tail_fragments] in *.
    exists s2, b1. rewrite app_nil_r. split; [by destruct fuel|].
    rewrite Nat.add_1_r. split; [done|]. rewrite Hnx, Hhn, Hsrc, Hra. done.
  - apply bool_decide_eq_false_1 in Ed.
    destruct (IH s2 (stream_next st) (S j) (acc ++ d) b1 NoNal fuel) as
      (s' & b' & E & Hq' & Hn' & Hh' & Hs' & Hr & Hlb'); try done.
    { simpl in Hf; lia. }
    { by apply stream_next_ok. }
    { by rewrite Hra. }
    { rewrite len_app, Hlb. lia. }
    exists s', b'. cbn iota. cbn [mbind res_bind]. cbn [length].
    rewrite E, <- app_assoc, stream_after_S, Nat.add_succ_r.
    split; [done|]. split; [done|]. split; [done|]. split; [done|].
    by rewrite Hs', Hsrc, Hlb', Hlb.
Qed.

(** The receiver has the packets [pzs] after the next one of [st], which it waits for. *)
Record ahead (s : h264_receive_stream) (st : turbo_rtsp_rtp_stream_t) (marker : bool)
    (pzs : list packetized) : Prop := {
  ah_queue : queues s (stream_next st) marker pzs 0;
  ah_has_next : rs_has_next s = true;
  ah_next : rs_next s = st_sequence_number st;
  ah_init : src_initialized (rs_source s) = true;
  ah_ssrc : src_ssrc (rs_source s) = st_ssrc st;
  ah_calm : calm (src_transit (rs_source s));
  ah_max : src_max (rs_source s) =
    u16 (st_sequence_number st + (if decide (pzs = []) then -1 else len pzs));
  ah_hole : pzs <> [] -> Z.testbit (src_bitmap (rs_source s)) (len pzs) = false;
}.

Lemma listening_ahead s st marker :
  listening s st -> rs_has_next s = true -> ahead s st marker [].
Proof.
  intros [[(_ & Hn & _)|(Hi & _ & Hnx & Hss & Hm & Hc)] Hq Hqc] Hh; [congruence|].
  constructor; try done. constructor; [exact Hq|cbn; lia|exact Hqc].
Qed.

(** A packet up to half a cycle ahead. *)
Lemma place_ahead s q d :
  is_u16 q -> src_max s = u16 (q - d) -> 1 <= d <= 8 ->
  exists cycles,
    source_place s q = (UPDATE_OK, source_mark_received (set_max s cycles q) d).
Proof.
  unfold is_u16. intros Hq Hm Hd. unfold source_place, source_advance, TURBO_RTSP_RTP_SEQ_MOD,
    TURBO_RTSP_RTP_MAX_DROPOUT. rewrite Hm. unfold u16. destruct (decide (q < d)).
  - replace ((q - d) mod 65536) with (q - d + 65536) by zmod_lia.
    replace (q =? q - d + 65536) with false by lia. replace (q - d + 65536 <? q) with false by lia.
    replace (32768 <? q - d + 65536 - q) with true by lia.
    replace (65536 - (q - d + 65536 - q)) with d by lia. replace (3000 <? d) with false by lia.
    by eexists.
  - rewrite Z.mod_small by lia. replace (q =? q - d) with false by lia.
    replace (q - d <? q) with true by lia. replace (q - (q - d)) with d by lia.
    replace (32768 <=? d) with false by lia. replace (3000 <? d) with false by lia. by eexists.
Qed.

(** A packet behind the newest one that has not been received. *)
Lemma place_late s q d :
  is_u16 q -> src_max s = u16 (q + d) -> 1 <= d <= 8 ->
  Z.testbit (src_bitmap s) d = false ->
  exists s', source_place s q = (UPDATE_LATE_OR_OUT_OF_ORDER, s') /\
    src_max s' = src_max s /\ src_initialized s' = src_initialized s.
Proof.
  unfold is_u16. intros Hq Hm Hd Hb. unfold source_place, TURBO_RTSP_RTP_SEQ_MOD.
  rewrite Hm. unfold u16. destruct (decide (65536 <= q + d)).
  - replace ((q + d) mod 65536) with (q + d - 65536) by zmod_lia.
    replace (q =? q + d - 65536) with false by lia. replace (q + d - 65536 <? q) with true by lia.
    replace (32768 <=? q - (q + d - 65536)) with true by lia.
    replace (q + d - 65536 + (65536 - q)) with d by lia. replace (d <? 64) with true by lia.
    rewrite bit_set_testbit, Hb by lia. rewrite andb_false_r. rewrite andb_true_r.
    destruct (0 <? src_cycles s); eexists; (split; [done|]); cbn [set_bit set_bitmap src_max src_initialized];
      rewrite Hm; (split; [|done]); unfold u16; zmod_lia.
  - rewrite Z.mod_small by lia. replace (q =? q + d) with false by lia.
    replace (q + d <? q) with false by lia. replace (q + d - q) with d by lia.
    replace (32768 <? d) with false by lia. replace (d <? 64) with true by lia.
    rewrite bit_set_testbit, Hb by lia. cbn [andb]. eexists. split; [done|].
    cbn [set_bit set_bitmap src_max src_initialized]. rewrite Hm. split; [|done]. unfold u16; zmod_lia.
Qed.

Lemma stream_after_ok st k : stream_ok st -> stream_ok (stream_after st k).
Proof. intros H. induction k as [|k IH]; [done|]. by apply stream_next_ok in IH. Qed.

Lemma stream_after_timestamp st k : st_timestamp (stream_after st k) = st_timestamp st.
Proof. induction k as [|k IH]; [done|]. exact IH. Qed.

Lemma stream_after_add st j k : stream_after st (j + k) = stream_after (stream_after st j) k.
Proof. unfold stream_after. by rewrite Nat.add_comm, Nat.iter_add. Qed.

(** A packet put behind the queued ones. *)
Lemma queues_store s st marker pzs pz header :
  queues s st marker pzs 0 -> (length pzs < 4)%nat ->
  len (pz_payload pz) <= H264_REORDER_PAYLOAD_SIZE ->
  header = read_header (stream_after st (length pzs)) marker pz ->
  exists s', reorder_store s header = Some s' /\ queues s' st marker (pzs ++ [pz]) 0 /\
    rs_reassembler s' = rs_reassembler s /\ rs_next s' = rs_next s /\
    rs_has_next s' = rs_has_next s /\ rs_source s' = rs_source s.
Proof.
  intros [Hs Hr Hc] Hk Hp ->. set (h := read_header _ marker pz).
  unfold reorder_store, H264_REORDER_CAPACITY.
  change (h_payload_len h) with (len (pz_payload pz)).
  replace ((H264_REORDER_PAYLOAD_SIZE <? len (pz_payload pz)) || (4 <=? rs_reorder_count s))
    with false by (rewrite Hc; unfold len in *; lia).
  set (front := slot_of <$> stream_headers st marker pzs).
  assert (Hlen : length front = length pzs) by (unfold front; by rewrite length_fmap, length_stream_headers).
  cbn [replicate app] in Hs. fold front in Hs.
  destruct (4 - 0 - length pzs)%nat as [|n] eqn:En; [lia|]. cbn [replicate] in Hs.
  rewrite Hs. rewrite list_find_app_r.
  2:{ apply list_find_None, Forall_forall. intros x Hx. apply list_elem_of_fmap in Hx as (? & -> & _). done. }
  cbn [list_find]. rewrite decide_True by done. cbn [fmap option_fmap option_map prod_map fst id].
  eexists. split; [done|]. split; [|done]. rewrite Nat.add_0_l || idtac.
  constructor; cbn [set_reorder rs_reorder rs_reorder_count].
  - cbn [replicate app]. rewrite stream_headers_snoc, fmap_app. fold front.
    rewrite Hlen, insert_app_r_alt by lia. rewrite Hlen, Nat.sub_diag. cbn [list_insert].
    rewrite <- app_assoc. cbn [fmap list_fmap app]. rewrite length_app. cbn [length].
    by replace (4 - 0 - (length pzs + 1))%nat with n by lia.
  - rewrite length_app. cbn. lia.
  - rewrite Hc, len_app. done.
Qed.

(** The source takes a packet that is early. *)
Lemma source_takes_early s st marker pzs header arrival :
  ahead s st marker pzs -> is_u16 (st_sequence_number st) -> (length pzs < 4)%nat ->
  h_version header = 2 -> h_ssrc header = st_ssrc st ->
  h_sequence_number header = u16 (st_sequence_number st + Z.of_nat (S (length pzs))) ->
  calm (transit_of header arrival) ->
  exists x, rtsp_rtp_source_update_ex (rs_source s) header arrival = Ok (UPDATE_OK, x) /\
    src_initialized x = true /\ src_ssrc x = st_ssrc st /\
    src_max x = h_sequence_number header /\ calm (src_transit x) /\
    Z.testbit (src_bitmap x) (1 + len pzs) = false.
Proof.
  intros Ha Hu Hk Hv Hss Hq Hc.
  assert (Hhu : is_u16 (h_sequence_number header)) by (rewrite Hq; apply u16_range).
  pose (d := if decide (pzs = []) then 2 else 1).
  assert (Hd : 1 <= d <= 2) by (unfold d; case_decide; lia).
  destruct (place_ahead (rs_source s) (h_sequence_number header) d Hhu) as (cyc & Ep); [|lia|].
  { rewrite (ah_max _ _ _ _ Ha), Hq. unfold d, is_u16, u16, len in *.
    case_decide as Hd'; [subst pzs; simpl|]; zmod_lia. }
  set (x1 := source_mark_received (set_max (rs_source s) cyc (h_sequence_number header)) d) in *.
  destruct (update_jitter_Ok x1 header arrival Hc) as (jit & Ej); [apply Ha|].
  unfold rtsp_rtp_source_update_ex. rewrite Hv, (ah_init _ _ _ _ Ha), (ah_ssrc _ _ _ _ Ha), Hss,
    !Z.eqb_refl. cbn [negb]. rewrite Ep, decide_False by done.
  rewrite Ej. cbn [mbind res_bind]. eexists. split; [done|]. repeat (split; [apply Ha || done|]).
  change (Z.testbit (src_bitmap x1) (1 + len pzs) = false). unfold x1.
  pose proof (len_nonneg pzs). assert (len pzs < 4) by (unfold len; lia).
  rewrite testbit_mark by lia. change (src_bitmap (set_max _ _ _)) with (src_bitmap (rs_source s)).
  unfold d. case_decide as Hd'; [rewrite Hd'; reflexivity|].
  replace (1 + len pzs - 1) with (len pzs) by lia. rewrite (ah_hole _ _ _ _ Ha Hd').
  replace (1 + len pzs =? 0) with false by lia. by rewrite andb_false_r.
Qed.

(** A packet that is early, by at most the room of the queue. *)
Lemma push_early s st marker pzs pz arrival buffer :
  ahead s st marker pzs -> stream_ok st -> (length pzs < 4)%nat ->
  len (pz_payload pz) <= H264_REORDER_PAYLOAD_SIZE ->
  calm (s32 (u32 (arrival - st_timestamp st))) ->
  exists s',
    receive_stream_push s (packet_bytes (stream_after st (S (length pzs))) marker pz)
      arrival buffer =
    Ok (UPDATE_OK, mk_received TURBO_RTSP_FRAME_PARTIAL NoNal s' buffer) /\
    ahead s' st marker (pzs ++ [pz]) /\ rs_reassembler s' = rs_reassembler s.
Proof.
  intros Ha Hst Hk Hpl Hc. pose proof (so_sequence st Hst) as Hu.
  destruct (stream_after_seq st (S (length pzs)) Hu) as [Hseq Hss].
  unfold receive_stream_push, packet_bytes.
  rewrite parse_header_spec by (by apply packet_header_wf, stream_after_ok).
  fold (read_header (stream_after st (S (length pzs))) marker pz).
  set (h := read_header (stream_after st (S (length pzs))) marker pz).
  assert (Hhq : h_sequence_number h = u16 (st_sequence_number st + Z.of_nat (S (length pzs))))
    by exact Hseq.
  destruct (source_takes_early s st marker pzs h arrival Ha Hu Hk)
    as (x & -> & Hxi & Hxs & Hxm & Hxc & Hxb); [done|exact Hss|done| |].
  { unfold transit_of. change (h_timestamp h) with (st_timestamp (stream_after st (S (length pzs)))).
    by rewrite stream_after_timestamp. }
  cbn [mbind res_bind]. set (s1 := set_source s x). unfold receive_accept, seq_forward_delta.
  change (rs_has_next s1) with (rs_has_next s). rewrite (ah_has_next _ _ _ _ Ha).
  change (rs_next s1) with (rs_next s). rewrite (ah_next _ _ _ _ Ha), Hhq.
  replace (u16 (u16 (st_sequence_number st + Z.of_nat (S (length pzs))) - st_sequence_number st))
    with (Z.of_nat (S (length pzs))) by (unfold is_u16, u16 in *; zmod_lia).
  replace (Z.of_nat (S (length pzs)) =? 0) with false by lia.
  unfold H264_REORDER_WINDOW. replace (Z.of_nat (S (length pzs)) <=? 8) with true by lia.
  assert (Hq1 : queues s1 (stream_after st 1) marker pzs 0)
    by (destruct (ah_queue _ _ _ _ Ha); by constructor).
  rewrite (find_not_queued s1 st marker pzs 0 Hu) by
    (done || lia || (intros i Hi; unfold is_u16, u16 in *; zmod_lia)).
  rewrite bool_decide_eq_true_2 by done. cbn [andb].
  destruct (queues_store s1 (stream_after st 1) marker pzs pz h Hq1) as (s2 & -> & Hq2 & Hra & Hnx & Hhn & Hsrc);
    [done|done|by rewrite <- stream_after_add|]. cbn [mbind res_bind].
  exists s2. split; [done|]. split; [|done].
  assert (Hlp : len (pzs ++ [pz]) = 1 + len pzs) by (rewrite len_app; change (len [pz]) with 1; lia).
  constructor; rewrite ?Hsrc, ?Hnx, ?Hhn; try apply Ha; try done.
  - rewrite decide_False by (by destruct pzs). change (src_max (rs_source s1)) with (src_max x).
    rewrite Hxm, Hhq, Hlp. f_equal. unfold len. lia.
  - intros _. by rewrite Hlp.
Qed.

(** Early packets, one after the other. *)
Lemma receive_early s st marker pzs more buffer ps :
  ahead s st marker pzs -> stream_ok st -> (length pzs + length more <= 4)%nat ->
  Forall (fun pz => len (pz_payload pz) <= H264_REORDER_PAYLOAD_SIZE) more ->
  arriving (stream_after st (S (length pzs))) marker more ps ->
  exists s',
    receive_all s ps buffer =
    Ok (replicate (length more) (TURBO_RTSP_FRAME_PARTIAL, None), s', buffer) /\
    ahead s' st marker (pzs ++ more) /\ rs_reassembler s' = rs_reassembler s.
Proof.
  intros Ha Hst. revert s pzs ps Ha. induction more as [|pz more IH]; intros s pzs ps Ha Hk Hm Hp.
  { apply arriving_nil in Hp as ->. exists s. by rewrite app_nil_r. }
  apply Forall_cons in Hm as [Hpz Hm]. cbn [length] in Hk.
  destruct (arriving_cons _ _ _ _ _ (stream_after_ok _ _ Hst) Hp) as (a & ps' & -> & Hc & Hp').
  rewrite stream_after_timestamp in Hc.
  destruct (push_early s st marker pzs pz a buffer Ha Hst) as (s1 & E & Ha1 & Hr1); [lia|done..|].
  cbn [receive_all]. rewrite E. cbn [mbind res_bind rv_stream rv_buffer rv_result rv_nal].
  destruct (IH s1 (pzs ++ [pz]) ps' Ha1) as (s2 & E2 & Ha2 & Hr2); [|done| |].
  { rewrite length_app. cbn. lia. }
  { rewrite length_app, Nat.add_1_r. exact Hp'. }
  rewrite E2. cbn [mbind res_bind]. exists s2. rewrite <- app_assoc in Ha2.
  split; [done|]. split; [done|]. by rewrite Hr2.
Qed.

(** The source takes the packet that is late. *)
Lemma source_takes_late s st marker pzs header arrival :
  ahead s st marker pzs -> is_u16 (st_sequence_number st) -> pzs <> [] ->
  (length pzs <= 4)%nat -> h_version header = 2 -> h_ssrc header = st_ssrc st ->
  h_sequence_number header = st_sequence_number st -> calm (transit_of header arrival) ->
  exists x, rtsp_rtp_source_update_ex (rs_source s) header arrival =
      Ok (UPDATE_LATE_OR_OUT_OF_ORDER, x) /\
    src_initialized x = true /\ src_ssrc x = st_ssrc st /\
    src_max x = u16 (st_sequence_number st + len pzs) /\ calm (src_transit x).
Proof.
  intros Ha Hu Hne Hk Hv Hss Hq Hc.
  pose proof (ah_max _ _ _ _ Ha) as Hm. rewrite decide_False in Hm by done.
  assert (Hlen : 1 <= len pzs <= 4) by (destruct pzs; [done|unfold len; simpl in *; lia]).
  destruct (place_late (rs_source s) (st_sequence_number st) (len pzs) Hu Hm)
    as (x1 & Ep & Hx1 & Hi1); [lia|by apply Ha|].
  destruct (place_keeps _ _ _ _ Ep) as [Hs1 Ht1].
  destruct (update_jitter_Ok x1 header arrival Hc) as (jit & Ej); [rewrite Ht1; apply Ha|].
  unfold rtsp_rtp_source_update_ex. rewrite Hv, (ah_init _ _ _ _ Ha), (ah_ssrc _ _ _ _ Ha), Hss,
    !Z.eqb_refl. cbn [negb]. rewrite Hq, Ep, decide_False by done.
  rewrite Ej. cbn [mbind res_bind]. eexists. split; [done|]. cbn.
  by rewrite Hi1, Hs1, Hx1, (ah_init _ _ _ _ Ha), (ah_ssrc _ _ _ _ Ha).
Qed.

(** The fragment that the receiver waits for, with the rest of its NAL unit queued. *)
Lemma push_late b d ds s st marker arrival acc buffer :
  nal_header_ok b = true -> ds <> [] -> (length ds <= 4)%nat ->
  ahead s st marker (tail_fragments b ds) -> stream_ok st ->
  midway (rs_reassembler s) st b acc buffer ->
  len acc + (len d + len (concat ds)) <= len buffer ->
  calm (s32 (u32 (arrival - st_timestamp st))) ->
  exists s' buffer',
    receive_stream_push s (packet_bytes st marker (fragment b false false d)) arrival buffer =
    Ok (UPDATE_LATE_OR_OUT_OF_ORDER,
        mk_received TURBO_RTSP_FRAME_OK (BufferNal (acc ++ d ++ concat ds)) s' buffer') /\
    listening s' (stream_after st (S (length ds))) /\
    ra_started (rs_reassembler s') = false /\ len buffer' = len buffer.
Proof.
  intros Hb Hne Hk Ha Hst Hm Hl Hc. pose proof (so_sequence st Hst) as Hu.
  pose proof (length_tail_fragments b ds) as Hlt. pose proof (len_nonneg (concat ds)).
  set (pz := fragment b false false d). unfold receive_stream_push, packet_bytes.
  rewrite parse_header_spec by (by apply packet_header_wf).
  fold (read_header st marker pz). set (h := read_header st marker pz).
  destruct (source_takes_late s st marker (tail_fragments b ds) h arrival Ha Hu)
    as (x & -> & Hxi & Hxs & Hxm & Hxc); [by destruct ds|by rewrite Hlt|done..|].
  cbn [mbind res_bind]. set (s1 := set_source s x).
  change (rs_has_next s1) with (rs_has_next s). change (rs_next s1) with (rs_next s).
  change (h_sequence_number h) with (st_sequence_number st).
  rewrite (ah_has_next _ _ _ _ Ha), (ah_next _ _ _ _ Ha), Z.eqb_refl. cbn [andb].
  unfold receive_accept, seq_forward_delta. change (rs_has_next s1) with (rs_has_next s).
  rewrite (ah_has_next _ _ _ _ Ha). change (rs_next s1) with (rs_next s).
  change (h_sequence_number h) with (st_sequence_number st).
  rewrite (ah_next _ _ _ _ Ha), Z.sub_diag. change (u16 0 =? 0) with true. cbn iota.
  unfold receive_drain, receive_deliver. change (rs_reassembler s1) with (rs_reassembler s).
  destruct (push_next (rs_reassembler s) st marker b false acc d buffer Hb Hm)
    as (r' & b1 & Epush & Hlb & Hr'); [lia|].
  fold pz in Epush. fold (read_header st marker pz) in Epush. fold h in Epush.
  rewrite Epush. cbn [mbind res_bind].
  change (h_sequence_number h) with (st_sequence_number st).
  set (s2 := set_next (set_reassembler s1 r') (u16 (st_sequence_number st + 1))).
  destruct (drain_queued 4 b ds s2 (stream_next st) marker 0 (acc ++ d) b1 NoNal Hb Hne Hk)
    as (s3 & b3 & -> & Hq3 & Hn3 & Hh3 & Hs3 & Hr3 & Hlb3);
    [by apply stream_next_ok|destruct (ah_queue _ _ _ _ Ha); by constructor|done|done| |].
  { rewrite len_app. lia. }
  cbn [mbind res_bind]. unfold reset_on_error. cbn [rv_result]. rewrite decide_False by done.
  exists s3, b3. rewrite <- app_assoc. split; [done|]. split; [|by rewrite Hlb3].
  rewrite stream_after_S. destruct (stream_after_seq st (S (length ds)) Hu) as [Hsq Hssrc].
  rewrite stream_after_S in Hsq, Hssrc.
  destruct Hq3 as [Hro _ Hrc]. constructor; [right| |exact Hrc].
  - rewrite Hs3, Hssrc. change (rs_source s2) with x. rewrite Hxm.
    unfold len. rewrite Hlt. do 4 (split; [done|]). split; [|done].
    rewrite Hsq. unfold is_u16, u16 in *. zmod_lia.
  - rewrite Hro. cbn [stream_headers fmap list_fmap app length]. rewrite Nat.add_0_l.
    rewrite <- replicate_add. f_equal. lia.
Qed.

(** A fragment that arrives late.  When the fragments after it, up to four of them and of
    the size of a slot, have arrived before it, in order, the receiver holds them, and
    with the late one it hands out the whole NAL unit: the same result and the same
    state as when all arrive in order. *)
Theorem h264_late_fragment b d ds s st marker acc buffer early late :
  nal_header_ok b = true -> ds <> [] -> (length ds <= 4)%nat ->
  Forall (fun x => len x + 2 <= H264_REORDER_PAYLOAD_SIZE) ds ->
  stream_ok st -> listening s st -> rs_has_next s = true ->
  midway (rs_reassembler s) st b acc buffer ->
  len acc + (len d + len (concat ds)) <= len buffer ->
  arriving (stream_next st) marker (tail_fragments b ds) early ->
  arriving st marker [fragment b false false d] late ->
  exists s' buffer',
    receive_all s (early ++ late) buffer =
    Ok (replicate (length ds) (TURBO_RTSP_FRAME_PARTIAL, None) ++
        [(TURBO_RTSP_FRAME_OK, Some (acc ++ d ++ concat ds))], s', buffer') /\
    listening s' (stream_after st (S (length ds))) /\ ra_started (rs_reassembler s') = false.
Proof.
  intros Hb Hne Hk Hsz Hst Hl Hh Hm Hlen He Ha.
  destruct (arriving_cons _ _ _ _ _ Hst Ha) as (a & rest & -> & Hc & Hrest).
  apply arriving_nil in Hrest as ->. pose proof (length_tail_fragments b ds) as Hlt.
  destruct (receive_early s st marker [] (tail_fragments b ds) buffer early)
    as (s1 & E & Ha1 & Hr1); [by apply listening_ahead|done|simpl; lia| |done|].
  { clear -Hsz. induction Hsz as [|x ds Hx _ IH]; [constructor|]. cbn [tail_fragments].
    constructor; [|exact IH]. cbn [fragment pz_payload]. rewrite !len_cons. lia. }
  cbn [app] in Ha1. rewrite <- Hr1 in Hm.
  destruct (push_late b d ds s1 st marker a acc buffer) as (s2 & b2 & E2 & Hl2 & Hr2 & _); try done.
  rewrite receive_all_app, E, Hlt. cbn [mbind res_bind receive_all]. rewrite E2.
  cbn [mbind res_bind rv_stream rv_buffer rv_result rv_nal receive_all]. by exists s2, b2.
Qed.

(* ------------------------------------------------------------------ *)
(** ** Whole streams *)

(** The areas a NAL unit is written with are large enough. *)
Record area_ok (nal : list Z) (max_payload packet_size : Z) (slots : list (list Z))
    (scratch : list Z) (capacity : Z) : Prop := {
  ar_scratch : len nal <= max_payload \/ max_payload <= len scratch;
  ar_packet : 12 + Z.min (len nal) max_payload <= packet_size < 2147483648;
  ar_slots : Forall (fun s => len s = packet_size) slots;
  ar_total : len slots * packet_size <= SIZE_MAX;
  ar_count : len (nal_payloads nal max_payload) <= Z.min capacity (len slots);
}.

(** NAL units written one after the other, each with areas, a timestamp increment and a
    payload size of its own, and the packets found in the areas. *)
Inductive transmitted (marker : bool) :
    turbo_rtsp_rtp_stream_t -> list (list Z) -> list (list Z) -> Prop :=
  | transmitted_nil st : transmitted marker st [] []
  | transmitted_nal st nal increment max_payload packet_size slots scratch capacity
      st' slots' lens nals packets :
      sendable nal max_payload ->
      area_ok nal max_payload packet_size slots scratch capacity ->
      stream_write_h264_nal_ex st nal marker increment max_payload packet_size slots
        scratch capacity = Ok (st', slots', lens) ->
      transmitted marker st' nals packets ->
      transmitted marker st (nal :: nals) (sent_packets slots' lens ++ packets).

Lemma listening_init ssrc st :
  ssrc = 0 \/ ssrc = st_ssrc st -> listening (receive_stream_init ssrc) st.
Proof.
  intros Hs. constructor; [|done|done]. left. cbn. split; [done|]. split; [done|].
  destruct Hs as [->| ->]; [done|]. by destruct (st_ssrc st =? 0).
Qed.

Lemma receive_transmitted marker st nals packets s buffer ps :
  transmitted marker st nals packets -> stream_ok st -> listening s st ->
  ra_started (rs_reassembler s) = false -> Forall (fun nal => len nal <= len buffer) nals ->
  ps.*1 = packets -> Forall punctual ps ->
  exists results s' buffer', receive_all s ps buffer = Ok (results, s', buffer') /\
    Forall (fun r => r.1 <> TURBO_RTSP_FRAME_ERROR) results /\ omap snd results = nals.
Proof.
  intros Ht. revert s buffer ps.
  induction Ht as [st|st nal inc mp size slots scratch cap st1 slots1 lens nals packets Hs Ha Hw Ht IH];
    intros s buffer ps Hst Hl Hr Hb Hps Hp.
  { destruct ps; [|done]. by exists [], s, buffer. }
  destruct Ha. apply Forall_cons in Hb as [Hb Hbs].
  destruct (write_nal_spec st nal marker inc mp size slots scratch cap Hst Hs ar_scratch0
    ar_packet0 ar_slots0 ar_total0 ar_count0)
    as (st2 & slots2 & lens2 & E & _ & _ & Hsent & Hst1 & Hseq & _ & Hss).
  rewrite E in Hw. injection Hw as -> -> ->. rewrite Hsent in Hps.
  apply fmap_app_inv in Hps as (ps1 & ps2 & E1 & E2 & ->).
  apply Forall_app in Hp as [Hp1 Hp2].
  destruct (receive_nal nal mp s st marker buffer ps1 Hs Hl Hst Hr Hb) as
    (s1 & b1 & k & Hk & Er & Hl1 & Hr1 & Hb1); [by split|].
  destruct (stream_after_seq st (S k) (so_sequence st Hst)) as [Hq Hq'].
  destruct (IH s1 b1 ps2 Hst1) as (results & s2 & b2 & Er2 & Hne & Hn); try done.
  { eapply listening_ext; [| |exact Hl1]; [|congruence].
    rewrite Hq, Hseq. unfold len. by rewrite Hk. }
  { by rewrite Hb1. }
  rewrite receive_all_app, Er. cbn [mbind res_bind]. rewrite Er2. cbn [mbind res_bind].
  eexists _, s2, b2. split; [done|]. split.
  - apply Forall_app. split; [|done]. apply Forall_app. split; [by apply Forall_replicate|].
    by constructor.
  - rewrite !omap_app, Hn. clear. induction k as [|k IH]; [done|]. exact IH.
Qed.

(** NAL units survive the stream.  Whatever the NAL units, the payload sizes and the
    place in the cycle of sequence numbers, the packets that a stream writes for them
    make a fresh receiver, when they arrive in order and on time, hand out exactly those
    NAL units, in order and intact, with no error in between. *)
Theorem h264_stream_roundtrip ssrc marker st nals packets buffer ps :
  transmitted marker st nals packets -> stream_ok st -> ssrc = 0 \/ ssrc = st_ssrc st ->
  Forall (fun nal => len nal <= len buffer) nals -> ps.*1 = packets -> Forall punctual ps ->
  exists results s buffer',
    receive_all (receive_stream_init ssrc) ps buffer = Ok (results, s, buffer') /\
    Forall (fun r => r.1 <> TURBO_RTSP_FRAME_ERROR) results /\ omap snd results = nals.
Proof.
  intros Ht Hst Hs Hb Hps Hp.
  eapply receive_transmitted; try done. by apply listening_init.
Qed.

(** Writing succeeds whenever the areas are large enough, so every list of NAL units can
    be transmitted. *)
Lemma transmit_succeeds st nal marker increment max_payload packet_size slots scratch capacity :
  stream_ok st -> sendable nal max_payload ->
  area_ok nal max_payload packet_size slots scratch capacity ->
  exists st' slots' lens,
    stream_write_h264_nal_ex st nal marker increment max_payload packet_size slots scratch
      capacity = Ok (st', slots', lens) /\ stream_ok st'.
Proof.
  intros Hst Hs [].
  destruct (write_nal_spec st nal marker increment max_payload packet_size slots scratch
    capacity) as (st' & slots' & lens & E & _ & _ & _ & Hok & _); try done.
  by exists st', slots', lens.
Qed.

Lemma punctual_check ps :
  forallb (fun p =>
    match rtsp_rtp_parse_header p.1 with
    | Ok (h, _) => (-1073741824 <=? transit_of h p.2) && (transit_of h p.2 <? 1073741824)
    | _ => false
    end) ps = true ->
  Forall punctual ps.
Proof.
  intros H. apply Forall_forall. intros p Hp. rewrite forallb_forall in H.
  specialize (H p (proj1 (list_elem_of_In _ _) Hp)).
  destruct (rtsp_rtp_parse_header p.1) as [[h n]| |] eqn:E; [|done..].
  exists h, n. split; [done|]. unfold calm. lia.
Qed.

Lemma h264_stream_roundtrip_witness :
  exists results s buffer',
    receive_all (receive_stream_init 7)
      ((fun p => (p, 1000)) <$> example_packets 65534 example_nal 5) (replicate 16 0) =
      Ok (results, s, buffer') /\
    Forall (fun r => r.1 <> TURBO_RTSP_FRAME_ERROR) results /\ omap snd results = [example_nal].
Proof.
  eapply (h264_stream_roundtrip 7 true (example_stream 65534) [example_nal]
    (example_packets 65534 example_nal 5)).
  - let r := eval vm_compute in (stream_write_h264_nal_ex (example_stream 65534) example_nal true
      3000 5 32 (replicate 8 (replicate 32 0)) (replicate 32 0) 8) in
    lazymatch r with
    | Ok (?st, ?slots, ?lens) =>
        replace (example_packets 65534 example_nal 5) with (sent_packets slots lens ++ [])
          by (vm_compute; reflexivity);
        apply (transmitted_nal true (example_stream 65534) example_nal 3000 5 32
          (replicate 8 (replicate 32 0)) (replicate 32 0) 8 st slots lens [] [])
    end; [cbn; repeat split; (reflexivity || lia || by right)| |vm_compute; reflexivity|constructor].
    constructor; [by right|done|by repeat constructor|done|done].
  - constructor; done.
  - by right.
  - by repeat constructor.
  - vm_compute. reflexivity.
  - apply punctual_check. vm_compute. reflexivity.
Defined.

(** Whatever bytes arrive, in whatever order, a receiver takes every packet without
    leaving a buffer; its queue stays counted and without repetition, and after an error
    nothing is queued and nothing expected. *)
Theorem h264_receive_safe ssrc packets buffer :
  Forall steady packets ->
  exists results s buffer',
    receive_all (receive_stream_init ssrc) packets buffer = Ok (results, s, buffer') /\
    queue_inv s /\ len buffer' = len buffer /\ length results = length packets /\
    forall r, last results = Some r -> r.1 = TURBO_RTSP_FRAME_ERROR ->
      queued (rs_reorder s) = [] /\ rs_has_next s = false.
Proof.
  assert (Hgen : forall ps s buffer, Forall steady ps -> queue_inv s ->
    calm (src_transit (rs_source s)) ->
    exists results s' buffer', receive_all s ps buffer = Ok (results, s', buffer') /\
      queue_inv s' /\ len buffer' = len buffer /\ length results = length ps /\
      forall r, last results = Some r -> r.1 = TURBO_RTSP_FRAME_ERROR ->
        queued (rs_reorder s') = [] /\ rs_has_next s' = false).
  { induction ps as [|[p a] ps IH]; intros s b Hps Hq Hc; [by exists [], s, b|].
    apply Forall_cons in Hps as [Hp Hps].
    destruct (push_safe s p a b Hq Hc Hp) as (u & o & E & Hq1 & Hb1 & Hc1 & _ & He).
    cbn [receive_all]. rewrite E. cbn [mbind res_bind].
    destruct (IH (rv_stream o) (rv_buffer o) Hps Hq1 Hc1) as (rs & s' & b' & E' & Hq' & Hb' & Hl & Hlast).
    rewrite E'. cbn [mbind res_bind]. eexists _, s', b'. split; [done|]. split; [done|].
    split; [by rewrite Hb'|]. split; [by cbn; f_equal|].
    destruct rs as [|r rs]; [|exact Hlast].
    destruct ps; [|done]. cbn in E'. injection E' as <- <-. by intros r [= <-]. }
  intros Hps. apply Hgen; [done| |done]. by apply queue_inv_empty.
Qed.

Lemma h264_receive_safe_witness :
  exists results s buffer',
    receive_all (receive_stream_init 7) [([1; 2; 3], 5)] (replicate 16 0) =
      Ok (results, s, buffer') /\
    queue_inv s /\ len buffer' = len (replicate 16 0) /\ length results = length [([1; 2; 3], 5)] /\
    forall r, last results = Some r -> r.1 = TURBO_RTSP_FRAME_ERROR ->
      queued (rs_reorder s) = [] /\ rs_has_next s = false.
Proof.
  apply (h264_receive_safe 7 [([1; 2; 3], 5)]). constructor; [|constructor]. split.
  - repeat constructor; done.
  - intros h n E. vm_compute in E. discriminate E.
Defined.
